(* ===== verification/_CoqProject ===== *)
-Q . S2P
Prelude.v
Ebitmap.v
Hashtab.v
PolicyFile.v
Context.v
Sidtab.v
Avtab.v
Policydb.v
Mls.v
PolicydbOps.v
Sample.v
MlsText.v
Conditional.v
PolicyRead.v
PolicyWrite.v
PolicyTables.v
PolicyCodec.v
PolicyRules.v
PolicyObjects.v
Classmap.v
Services.v
PolicydbProofs.v
ServicesSid.v
ServicesObj.v
PolicyLoad.v
PolicyAccepted.v
ServicesLoad.v
Avc.v
NetCache.v
NetLabel.v
Flask.v
HookBase.v
HookTask.v
HookFile.v
HookOpen.v
HookExec.v
HookLabel.v
HookMount.v
HookXfrm.v
HookSock.v
HookNetlink.v
HookPacket.v
HookConn.v
HookIpc.v
ServicesUser.v
Piga.v
Ppp.v
PigaProcfs.v
PppLoad.v
Kernel.v
Scanf.v
Notify.v
Selinuxfs.v
System.v
