(* ===== verification/Prelude.v ===== *)
(** * PIGA-Linux: a verification of the access decision

    The repository is a Linux 2.6.39 kernel with the hardened patch set and
    PIGA, a monitor added to SELinux that denies the access which would
    complete a forbidden sequence of accesses; ppp (src/ppp) is the program
    that reads a file of such sequences and gives them to the kernel.  This
    library models the path of an access decision and of the policies it
    depends on, under src/linux-2.6.39-hardened-r8/security/selinux and src/ppp:

    - a hook (hooks.c) calls [avc_has_perm_flags] (avc.c) with two SIDs, a
      class and the requested permissions;
    - the access vector cache answers from its entries or asks the security
      server, [security_compute_av] (ss/services.c);
    - the security server maps SIDs to contexts (ss/sidtab.c) and decides by
      the rules, constraints, roles and bounds of the loaded policy
      (ss/policydb.c, avtab.c, conditional.c, mls.c, ebitmap.c, hashtab.c);
    - the policy is read from a file by [security_load_policy], which converts
      the SIDs in use to it and empties the cache;
    - if SELinux grants the access, PIGA (piga/piga.c) moves its sequences and
      denies the access that would complete one;
    - the sequences are parsed by ppp, which asks /proc/piga/getsid for the
      SIDs of contexts and loads the result with [sys_piga_add_sequence];
    - user space loads policies, sets booleans and the mode and asks questions
      through the files of selinuxfs (selinuxfs.c), which announce changes in
      a status page (ss/status.c) and over netlink (netlink.c);
    - the network hooks take the labels of ports, addresses and interfaces
      from three tables in front of the security server.

    ** Files

    - Prelude: machine integers, the allocation oracle, the option monad's
      stepping lemma, shared tactics and lemmas.
    - Ebitmap: ss/ebitmap.c, ebitmap.h and the word searches of
      lib/find_next_bit.c; bitmaps implement sets of bits.
    - Hashtab: ss/hashtab.c, symtab.c; tables implement finite maps, against
      the interface [table_ops] of a hash and a comparison function.
    - PolicyFile: [next_entry] and [put_entry] of ss/policydb.h as a monad of
      readers and lists of bytes, the relations between the two that the round
      trip is proved with, and the file format of bitmaps.
    - Context: ss/mls_types.h, context.h; the order of levels, copies.
    - Sidtab: ss/sidtab.c; SIDs and contexts, with the table's cache.
    - Avtab: ss/avtab.c; sorted chains of rules and the walks over them.
    - Policydb, PolicydbOps, PolicydbProofs: ss/policydb.h and policydb.c; the
      data, the index arrays, validity, bounds, and what loading establishes.
    - Mls, MlsText: ss/mls.c; text of ranges and its round trip.
    - Sample: a small policy built with the modelled functions.
    - Conditional: ss/conditional.c; boolean expressions and the rules they
      switch.
    - PolicyRead, PolicyWrite: the reader and the writer of binary policies, of
      ss/policydb.c, avtab.c and conditional.c.
    - PolicyTables, PolicyCodec, PolicyRules, PolicyObjects: what reading the
      symbol tables, the rules and the object contexts establishes, and that
      each reads back what its writer wrote, through the interfaces [codec],
      [codec_item] and [codec_entry].
    - PolicyLoad: [policydb_read] and [policydb_write] as a whole;
      PolicyAccepted: what an accepted file gives the security server.
    - Classmap: include/classmap.h and what genheaders derives from it.
    - Services, ServicesSid, ServicesObj: ss/services.c; decisions, contexts
      and SIDs, object contexts, booleans, conversion to a new policy.
    - ServicesLoad: [security_load_policy] and [security_read_policy] of
      ss/services.c.
    - Avc: avc.c; the cache, its callbacks and the race of a policy change.
    - NetCache: netport.c, netnode.c, netif.c; the tables of network labels,
      and a step relation of lookups, loads and resets.
    - NetLabel: the attributes of labelled packets, from a SID and to a SID
      (ss/ebitmap.c, ss/mls.c, ss/services.c).
    - Flask: the numbers of classes and permissions that the hooks use, taken
      from the table of Classmap.
    - HookBase: a hook of hooks.c as a program that makes calls (checks of the
      cache, questions to the security server, allocations, other kernel
      functions) and continues with the answers; its runs and their traces.
    - HookTask, HookExec: hooks for processes, execution of programs and the
      attributes under /proc/self/attr.
    - HookFile, HookOpen: hooks for inodes and files, and a step relation for
      an open file that is used while labels and policy change.
    - HookLabel, HookMount: labels of inodes and file systems, mount options.
    - HookXfrm: xfrm.c; labels of IPsec policies and states, flows.
    - HookSock, HookConn: hooks for sockets and the part of netlabel.c for
      sockets, and a relation of the sockets in use.
    - HookPacket: hooks for packets that are received, forwarded and sent,
      and the part of netlabel.c for packets.
    - HookNetlink: nlmsgtab.c, the hooks for netlink messages and the loop of
      the kernel (net/netlink/af_netlink.c) that handles them.
    - HookIpc: hooks for System V IPC and keys, and the message queues of
      ipc/msg.c with a step relation of senders and receivers.
    - ServicesUser: [security_get_user_sids], which asks the cache.
    - Piga: piga/piga.c, procfs.c, syscalls.c and the entry point
      [avc_has_perm_flags].
    - PigaProcfs: the creation of the files under /proc/piga, and the handlers
      that have no effect.
    - Ppp: src/ppp; the scanner, the parser with its actions, and main.
      PppLoad: from the text of a policy to what the kernel enforces.
    - Kernel: the state of the running system as one record, the answers it
      gives to the calls of a hook, and the record of checks that were made
      with the policy in force at each ([check], [history]).
    - Scanf: [sscanf] of lib/vsprintf.c.
    - Notify: ss/status.c and netlink.c; the stores to the status page.
    - Selinuxfs: selinuxfs.c; each handler is a program on the state of Kernel
      (the monad [sys]), and [selinux_disable] of hooks.c.
    - System: hooks and requests of user space as a step relation ([sys_step],
      [reach]), and the theorems about the whole.

    ** Conventions

    A [w]-bit integer is a [Z] in [0 .. 2^w - 1] (or a signed one), with the
    wrap-around of C written out.  A state is a record; a function that
    changes it returns the new one.  Error codes are values.  Allocation may
    fail: functions that allocate take and return a list of answers of the
    allocator ([kmem]), and [[]] stands for one that always succeeds.  An
    outer [None] is a [BUG()] or an access to memory the code does not own,
    so a theorem that a call is [Some _] also says that it does not crash.
    Messages to the kernel log are left out, the reads made for them are not.

    ** Theorems

    - Data structures: bitmaps, hash tables, rule tables and the SID table
      refine sets, maps and bijections, and report errors without a change.
    - Text: printing and parsing of MLS ranges and contexts are inverse, and
      buffers are as long as what is written to them.
    - Policy files: a policy that was accepted is written and read again
      unchanged; an accepted file of a compiler that keeps to stated rules
      gives a policy on which decisions cannot crash.
    - Change of policy: a load keeps every SID that is in use, or fails and
      leaves policy, mapping and contexts alone.
    - Decisions: the decision is the one of the rules, the constraints, the
      roles and the bounds, for every policy that passes the checks made when
      it is loaded; a bounded domain has no more than its bound.
    - Cache: a check through the cache gives the security server's answer.
    - PIGA: an access is denied exactly when it completes a sequence, buffers
      do not overflow, loading a policy is atomic; a file of sequences that
      ppp loads makes the kernel deny the accesses that complete them.
    - Hooks: every change of the label of a process was granted; descriptors
      and open files are only used with a permission that was checked for the
      label and the policy in force; labels of new files and of mounts are the
      ones that were checked; mount options that are shown can be used again.
      Inode and sock of a socket have one label; received packets, changes of
      the network configuration and messages of queues were granted.
      These hold for all answers that the cache and the security server give.
    - The running system: whatever hooks run and whatever is written to
      selinuxfs, in any order, each as one step, what was granted was allowed
      by the policy in force at that moment and completed no sequence; the
      policy and the mode change only for a task to which the policy in force
      allows it; SELinux cannot be disabled once a policy is loaded.
      It is assumed that a policy that is loaded numbers its initial SIDs as
      it should and that the SIDs of a check have been given out; the
      sequences of PIGA are not replaced meanwhile.
    - User space: a reader that finds the same even sequence number before and
      after has read one state of the status page; class and permission
      numbers are what the files of class/ give; a number written to enforce
      is read again.
    - Network labels: after any history of lookups and loads, once the tables
      were emptied, a lookup gives the label of the policy in force.  Level
      and categories of a sender survive the way through a packet.

    ** Bounds and fuel

    Structural recursion is used wherever the code walks a list.  The
    recursion over bounded types and the walks along bounds have fuel derived
    from [POLICYDB_BOUNDS_MAXDEPTH], and it is proved that policies which
    pass [policydb_bounds_sanity_check] never exhaust it.  The stacks of the
    two expression evaluators have the size of the code's arrays, and it is
    proved that they do not overflow.  The loop of [sscanf] has as much fuel as
    the format has characters, and it is proved that it ends for every input.

    ** Not modelled

    The functions that only free memory, the formatting of audit records,
    hooks that are a single call of a modelled check, exports.c, the creation
    of selinuxfs when it is mounted, the statistics of the cache, and the
    options and statistics of ppp: they do not take part in a decision.  Locks
    and RCU are not modelled: a function is one atomic step, except in the
    section of Avc on the race between a decision and a policy change and in
    NetCache, where a load and the reset that follows it are two steps. *)

From stdpp Require Export base numbers list strings sorting gmap.
#[export] Set Default Goal Selector "!".
Open Scope Z_scope.

(** ** Machine integers

    A [w]-bit unsigned C value is an element of [Z] kept in [0 .. 2^w - 1];
    the wrap-around of an assignment or of an arithmetic operation is written
    out with the functions below. *)

Definition u8 (z : Z) : Z := z mod 2 ^ 8.
Definition u16 (z : Z) : Z := z mod 2 ^ 16.
Definition u32 (z : Z) : Z := z mod 2 ^ 32.
Definition u64 (z : Z) : Z := z mod 2 ^ 64.

(** Conversion to a signed 32-bit [int] (two's complement, as the compilers
    the kernel supports do it). *)
Definition s32 (z : Z) : Z := (z + 2 ^ 31) mod 2 ^ 32 - 2 ^ 31.

(** [~x] on [u32] and on [unsigned long]. *)
Definition not32 (z : Z) : Z := u32 (Z.lnot z).
Definition not64 (z : Z) : Z := u64 (Z.lnot z).

Definition UINT_MAX : Z := 2 ^ 32 - 1.

(** The truth value C gives an integer used as a condition. *)
Definition nz (z : Z) : bool := negb (z =? 0).

(** The [int] C gives a comparison. *)
Definition b2i (b : bool) : Z := if b then 1 else 0.

Definition in_u (w z : Z) : Prop := 0 <= z < 2 ^ w.

Declare Scope cint_scope.
Delimit Scope cint_scope with C.
Notation "x .& y" := (Z.land x y) (at level 35, right associativity) : cint_scope.
Notation "x .| y" := (Z.lor x y) (at level 36, right associativity) : cint_scope.
Notation "x .^ y" := (Z.lxor x y) (at level 36, right associativity) : cint_scope.
Notation "x .<< y" := (Z.shiftl x y) (at level 34, left associativity) : cint_scope.
Notation "x .>> y" := (Z.shiftr x y) (at level 34, left associativity) : cint_scope.
Open Scope cint_scope.

(** ** Error codes (include/asm-generic/errno-base.h) *)

Definition EPERM : Z := 1.
Definition ENOENT : Z := 2.
Definition ECHILD : Z := 10.
Definition EAGAIN : Z := 11.
Definition ENOMEM : Z := 12.
Definition EACCES : Z := 13.
Definition EFAULT : Z := 14.
Definition EEXIST : Z := 17.
Definition EINVAL : Z := 22.

(** ** The allocator

    Whether an allocation succeeds is decided by the environment: [kmem] is
    the list of the outcomes of the allocations to come, read from its head.
    When the list is used up every further allocation succeeds, so [[]] is a
    machine with enough memory.  All theorems quantify over [kmem]. *)

Definition kmem : Type := list bool.

Definition kalloc (m : kmem) : bool * kmem :=
  match m with
  | [] => (true, [])
  | b :: m' => (b, m')
  end.

(** ** Tactics *)

(** Case analysis on the next [if] or [match] of the goal, remembering it. *)
Ltac case_next :=
  match goal with
  | |- context [if ?b then _ else _] => destruct b eqn:?
  | |- context [match ?x with _ => _ end] => destruct x eqn:?
  end.

Ltac case_all := repeat case_next; simplify_eq/=.

(** Case analysis on the next [if] or [match] of a hypothesis. *)
Ltac case_in H :=
  match type of H with
  | context [if ?b then _ else _] => destruct b eqn:?
  | context [match ?x with _ => _ end] => destruct x eqn:?
  end.

Ltac case_all_in H := repeat (case_in H; simplify_eq/=).

(** Extensional equality of bit vectors. *)
Ltac bitwise i Hi :=
  apply Z.bits_inj'; intros i Hi;
  repeat (rewrite ?Z.land_spec, ?Z.lor_spec, ?Z.lxor_spec, ?Z.ldiff_spec, ?Z.bits_0;
          try rewrite Z.lnot_spec by lia).

Create HintDb selinux.
Create HintDb cint.
Create HintDb reader.

(** ** Integers *)

Lemma in_u_weaken w z : 0 <= z < 2 ^ w -> in_u w z.
Proof. done. Qed.

Lemma u32_small z : 0 <= z < 2 ^ 32 -> u32 z = z.
Proof. intros H. by apply Z.mod_small. Qed.

Lemma u16_small z : 0 <= z < 2 ^ 16 -> u16 z = z.
Proof. intros H. by apply Z.mod_small. Qed.

Lemma u64_small z : 0 <= z < 2 ^ 64 -> u64 z = z.
Proof. intros H. by apply Z.mod_small. Qed.

Lemma u32_range z : 0 <= u32 z < 2 ^ 32.
Proof. unfold u32. apply Z.mod_pos_bound. lia. Qed.

Lemma u16_range z : 0 <= u16 z < 2 ^ 16.
Proof. unfold u16. apply Z.mod_pos_bound. lia. Qed.

Lemma u64_range z : 0 <= u64 z < 2 ^ 64.
Proof. unfold u64. apply Z.mod_pos_bound. lia. Qed.

#[export] Hint Resolve u16_range u32_range u64_range : cint.

Lemma u32_spec z i : 0 <= i -> Z.testbit (u32 z) i = bool_decide (i < 32) && Z.testbit z i.
Proof.
  intros Hi. unfold u32. case_bool_decide.
  - by rewrite Z.mod_pow2_bits_low by lia.
  - rewrite Z.mod_pow2_bits_high by lia. done.
Qed.

Lemma testbit_high w z i : 0 <= w -> 0 <= z < 2 ^ w -> w <= i -> Z.testbit z i = false.
Proof.
  intros Hw Hz Hi. rewrite <- (Z.mod_small z (2 ^ w)) by done.
  by apply Z.mod_pow2_bits_high.
Qed.

Lemma not32_spec z i :
  0 <= i -> Z.testbit (not32 z) i = bool_decide (i < 32) && negb (Z.testbit z i).
Proof. intros Hi. unfold not32. by rewrite u32_spec, Z.lnot_spec. Qed.

(** [x & ~y] on a 32-bit [x] is the set difference of the bit sets. *)
Lemma land_not32 x y : 0 <= x < 2 ^ 32 -> x .& not32 y = Z.ldiff x y.
Proof.
  intros Hx. bitwise i Hi. rewrite not32_spec by done.
  case_bool_decide; [done|].
  rewrite (testbit_high 32 x) by lia. done.
Qed.

(** A value with no bit at or above [w] is a [w]-bit value. *)
Lemma bits_range w z :
  0 <= w -> (forall i, w <= i -> Z.testbit z i = false) -> 0 <= z < 2 ^ w.
Proof.
  intros Hw Hz. assert (z = z mod 2 ^ w) as ->; [|apply Z.mod_pos_bound; lia].
  bitwise i Hi. destruct (decide (i < w)).
  - by rewrite Z.mod_pow2_bits_low by lia.
  - rewrite Z.mod_pow2_bits_high by lia. apply Hz. lia.
Qed.

Lemma land_range w x y : 0 <= w -> 0 <= x < 2 ^ w -> 0 <= x .& y < 2 ^ w.
Proof.
  intros Hw Hx. apply bits_range; [done|]. intros i Hi.
  by rewrite Z.land_spec, (testbit_high w x) by lia.
Qed.

Lemma lor_range w x y : 0 <= w -> 0 <= x < 2 ^ w -> 0 <= y < 2 ^ w -> 0 <= x .| y < 2 ^ w.
Proof.
  intros Hw Hx Hy. apply bits_range; [done|]. intros i Hi.
  by rewrite Z.lor_spec, (testbit_high w x), (testbit_high w y) by lia.
Qed.

Lemma lxor_range w x y : 0 <= w -> 0 <= x < 2 ^ w -> 0 <= y < 2 ^ w -> 0 <= x .^ y < 2 ^ w.
Proof.
  intros Hw Hx Hy. apply bits_range; [done|]. intros i Hi.
  by rewrite Z.lxor_spec, (testbit_high w x), (testbit_high w y) by lia.
Qed.

Lemma s32_add_l x y : s32 (s32 x + y) = s32 (x + y).
Proof.
  unfold s32. replace ((x + 2 ^ 31) mod 2 ^ 32 - 2 ^ 31 + y + 2 ^ 31) with ((x + 2 ^ 31) mod 2 ^ 32 + y) by lia.
  rewrite Zplus_mod_idemp_l. by replace (x + 2 ^ 31 + y) with (x + y + 2 ^ 31) by lia.
Qed.

Lemma u32_add_l x y : u32 (u32 x + y) = u32 (x + y).
Proof. apply Zplus_mod_idemp_l. Qed.

Lemma u32_add_r x y : u32 (x + u32 y) = u32 (x + y).
Proof. apply Zplus_mod_idemp_r. Qed.

Lemma u32_s32 x : u32 (s32 x) = u32 x.
Proof.
  unfold u32, s32. rewrite Zminus_mod, Z.mod_mod, <- Zminus_mod by lia. f_equal. lia.
Qed.

Lemma s32_range z : - 2 ^ 31 <= s32 z < 2 ^ 31.
Proof. unfold s32. pose proof (Z.mod_pos_bound (z + 2 ^ 31) (2 ^ 32)). lia. Qed.

Lemma s32_small z : - 2 ^ 31 <= z < 2 ^ 31 -> s32 z = z.
Proof. intros Hz. unfold s32. rewrite Z.mod_small; lia. Qed.

Lemma nz_true z : nz z = true <-> z <> 0.
Proof. unfold nz. lia. Qed.

Lemma nz_false z : nz z = false <-> z = 0.
Proof. unfold nz. lia. Qed.

(** ** Options *)

(** One step of a computation, without unfolding what comes before it. *)
Lemma bind_step {A B} (f : A -> option B) x y : x = Some y -> x ≫= f = f y.
Proof. by intros ->. Qed.

(** ** Lists *)

(** Adding an element to one chain of a table. *)
Lemma concat_insert_perm {A} (ls : list (list A)) i c l x :
  ls !! i = Some c -> l ≡ₚ x :: c -> concat (<[i := l]> ls) ≡ₚ x :: concat ls.
Proof.
  revert i. induction ls as [|c0 ls IH]; intros [|i] Hi Hp; try done; cbn.
  - injection Hi as ->. by rewrite Hp.
  - rewrite (IH i Hi Hp). by rewrite Permutation_middle.
Qed.

(** ** Sorted lists *)

Lemma sorted_app {A} (R : A -> A -> Prop) l1 l2 :
  StronglySorted R l1 -> StronglySorted R l2 -> (forall x y, x ∈ l1 -> y ∈ l2 -> R x y) -> StronglySorted R (l1 ++ l2).
Proof.
  induction 1 as [|x l1 H1 IH Hx]; intros H2 H; [done|]. cbn. constructor.
  - apply IH; [done|]. intros y z Hy Hz. apply H; [|done]. by apply elem_of_cons; right.
  - apply Forall_app. split; [done|]. apply Forall_forall. intros y Hy. apply H; [|done]. by apply elem_of_cons; left.
Qed.

Lemma filter_sorted {A} (R : A -> A -> Prop) (P : A -> Prop) `{forall x, Decision (P x)} l :
  StronglySorted R l -> StronglySorted R (filter P l).
Proof.
  induction 1 as [|b l Hl IH Hb]; [constructor|]. rewrite filter_cons. case_decide; [|done].
  constructor; [done|]. rewrite Forall_forall in *. intros x [_ Hx]%list_elem_of_filter. by apply Hb.
Qed.

Lemma sorted_rev {A} (R : A -> A -> Prop) l : StronglySorted (flip R) l -> StronglySorted R (rev l).
Proof.
  induction 1 as [|x l _ IH Hx]; [constructor|]. cbn. apply sorted_app; [done|by repeat constructor|].
  intros y z Hy ->%list_elem_of_singleton. rewrite Forall_forall in Hx. apply Hx.
  apply list_elem_of_In, in_rev, list_elem_of_In, Hy.
Qed.

(** Sorted lists with the same elements are equal. *)
Lemma sorted_unique {A} (R : A -> A -> Prop) l1 l2 :
  (forall x y, R x y -> R y x -> False) ->
  StronglySorted R l1 -> StronglySorted R l2 -> (forall x, x ∈ l1 <-> x ∈ l2) -> l1 = l2.
Proof.
  intros HR H1. revert l2. induction H1 as [|x l1 H1 IH Hx]; intros l2 H2 Hel.
  - destruct l2 as [|y l2]; [done|]. exfalso. by eapply not_elem_of_nil, Hel, elem_of_cons; left.
  - destruct H2 as [|y l2 H2 Hy]; [exfalso; by eapply not_elem_of_nil, Hel, elem_of_cons; left|].
    rewrite Forall_forall in Hx, Hy.
    assert (x = y) as ->.
    { assert (x ∈ y :: l2) as [->|E1]%elem_of_cons by (apply Hel, elem_of_cons; by left); [done|].
      assert (y ∈ x :: l1) as [->|E2]%elem_of_cons by (apply Hel, elem_of_cons; by left); [done|].
      exfalso. eapply HR; [by apply Hx|by apply Hy]. }
    f_equal. apply IH; [done|]. intros b. specialize (Hel b). rewrite !elem_of_cons in Hel. split; intros Hb.
    + destruct (proj1 Hel (or_intror Hb)) as [->|]; [|done]. exfalso. eapply HR; by apply Hx.
    + destruct (proj2 Hel (or_intror Hb)) as [->|]; [|done]. exfalso. eapply HR; by apply Hy.
Qed.
