(* ===== verification/Ebitmap.v ===== *)
(** * Extensible bitmaps (security/selinux/ss/ebitmap.h, ebitmap.c)

    The linked list of [struct ebitmap_node] is a list, [highbit] is kept as
    the field it is.  The word searches of lib/find_next_bit.c are modelled
    too, for the x86-64 configuration the syscall table of this tree targets:
    [unsigned long] has 64 bits and a node holds two words, 128 bits.

    Functions that contain a [BUG_ON] return an [option]; [None] is the
    [BUG()].  The section on the specification gives every operation its
    meaning on the set of bits [ebit e]. *)

From S2P Require Import Prelude.

(** ** Word searches *)

Definition BITS_PER_LONG : Z := 64.

(** [__ffs]: the index of the least significant set bit of a non-zero word. *)
Fixpoint ffs_from (n : nat) (i : Z) (w : Z) : Z :=
  match n with
  | O => i
  | S n' => if Z.testbit w i then i else ffs_from n' (i + 1) w
  end.

Definition __ffs (w : Z) : Z := ffs_from 64 0 w.

(** The word loop the searches share: [while (size & ~(BITS_PER_LONG-1))],
    then the tail of [size] bits.  [p] is the rest of the array. *)
Fixpoint find_words (p : list Z) (size result : Z) : Z :=
  match p with
  | tmp :: p' =>
      if nz (size .& Z.lnot (BITS_PER_LONG - 1)) then
        if nz tmp then result + __ffs tmp
        else find_words p' (size - BITS_PER_LONG) (result + BITS_PER_LONG)
      else if size =? 0 then result
      else
        let tmp := tmp .& (Z.ones 64 .>> (BITS_PER_LONG - size)) in
        if tmp =? 0 then result + size else result + __ffs tmp
  | [] => result
  end.

Definition find_first_bit (addr : list Z) (size : Z) : Z := find_words addr size 0.

Definition find_next_bit (addr : list Z) (size offset : Z) : Z :=
  let p := drop (Z.to_nat (offset `div` BITS_PER_LONG)) addr in
  let result := offset .& Z.lnot (BITS_PER_LONG - 1) in
  if size <=? offset then size
  else
    let size := size - result in
    let offset := offset mod BITS_PER_LONG in
    if nz offset then
      match p with
      | tmp :: p' =>
          let tmp := tmp .& u64 (Z.ones 64 .<< offset) in
          if size <? BITS_PER_LONG then
            let tmp := tmp .& (Z.ones 64 .>> (BITS_PER_LONG - size)) in
            if tmp =? 0 then result + size else result + __ffs tmp
          else if nz tmp then result + __ffs tmp
          else find_words p' (size - BITS_PER_LONG) (result + BITS_PER_LONG)
      | [] => result
      end
    else find_words p size result.

(** ** Data *)

Definition EBITMAP_UNIT_NUMS : Z := (32 - 8 - 4) `div` 8.
Definition EBITMAP_UNIT_SIZE : Z := BITS_PER_LONG.
Definition EBITMAP_SIZE : Z := EBITMAP_UNIT_NUMS * EBITMAP_UNIT_SIZE.

Record ebitmap_node := mk_ebitmap_node {
  en_maps : list Z;      (* unsigned long maps[EBITMAP_UNIT_NUMS] *)
  en_startbit : Z        (* u32 *)
}.

Record ebitmap := mk_ebitmap {
  eb_node : list ebitmap_node;
  eb_highbit : Z         (* u32 *)
}.

#[export] Instance ebitmap_node_eq_dec : EqDecision ebitmap_node.
Proof. solve_decision. Defined.
#[export] Instance ebitmap_eq_dec : EqDecision ebitmap.
Proof. solve_decision. Defined.

Definition ebitmap_length (e : ebitmap) : Z := eb_highbit e.

(** ** Operations *)

Definition ebitmap_init : ebitmap := mk_ebitmap [] 0.

(** The [for] loop of [ebitmap_start_positive] and the second loop of
    [ebitmap_next_positive]: the first node with a bit set.  The result is the
    bit and the cursor [*n] (the list from that node on). *)
Fixpoint ebitmap_scan (len : Z) (ns : list ebitmap_node) : Z * list ebitmap_node :=
  match ns with
  | [] => (len, [])
  | n :: ns' =>
      let ofs := find_first_bit (en_maps n) EBITMAP_SIZE in
      if ofs <? EBITMAP_SIZE then (u32 (en_startbit n + ofs), n :: ns')
      else ebitmap_scan len ns'
  end.

Definition ebitmap_start_positive (e : ebitmap) : Z * list ebitmap_node :=
  ebitmap_scan (ebitmap_length e) (eb_node e).

Definition ebitmap_next_positive (e : ebitmap) (ns : list ebitmap_node) (bit : Z)
    : Z * list ebitmap_node :=
  match ns with
  | [] => (ebitmap_length e, [])
  | n :: ns' =>
      let ofs := find_next_bit (en_maps n) EBITMAP_SIZE (u32 (bit - en_startbit n + 1)) in
      if ofs <? EBITMAP_SIZE then (u32 (ofs + en_startbit n), n :: ns')
      else ebitmap_scan (ebitmap_length e) ns'
  end.

(** [ebitmap_for_each_positive_bit]: the values its loop variable takes, in
    order.  Every step moves the cursor over one of the 128 bits of a node, so
    128 steps per node (and one to stop) are enough: [ebitmap_bits_spec]. *)
Fixpoint ebitmap_for_each (fuel : nat) (e : ebitmap) (cur : Z * list ebitmap_node) : list Z :=
  match fuel with
  | O => []
  | S fuel' =>
      let '(bit, ns) := cur in
      if bit <? ebitmap_length e
      then bit :: ebitmap_for_each fuel' e (ebitmap_next_positive e ns bit)
      else []
  end.

Definition ebitmap_bits (e : ebitmap) : list Z :=
  ebitmap_for_each (S (Z.to_nat EBITMAP_SIZE * length (eb_node e))) e
                   (ebitmap_start_positive e).

Definition EBITMAP_NODE_INDEX (n : ebitmap_node) (bit : Z) : Z :=
  u32 (bit - en_startbit n) `div` EBITMAP_UNIT_SIZE.
Definition EBITMAP_NODE_OFFSET (n : ebitmap_node) (bit : Z) : Z :=
  u32 (bit - en_startbit n) mod EBITMAP_UNIT_SIZE.

Definition ebitmap_node_get_bit (n : ebitmap_node) (bit : Z) : option bool :=
  let index := EBITMAP_NODE_INDEX n bit in
  let ofs := EBITMAP_NODE_OFFSET n bit in
  if EBITMAP_UNIT_NUMS <=? index then None
  else
    w ← en_maps n !! Z.to_nat index;
    Some (nz (w .& u64 (1 .<< ofs))).

(** [n->maps[index] |= ...] and [n->maps[index] &= ~...]. *)
Definition ebitmap_node_upd (f : Z -> Z -> Z) (n : ebitmap_node) (bit : Z) : option ebitmap_node :=
  let index := EBITMAP_NODE_INDEX n bit in
  let ofs := EBITMAP_NODE_OFFSET n bit in
  if EBITMAP_UNIT_NUMS <=? index then None
  else
    w ← en_maps n !! Z.to_nat index;
    Some (mk_ebitmap_node (<[Z.to_nat index := f w (u64 (1 .<< ofs))]> (en_maps n))
                          (en_startbit n)).

Definition ebitmap_node_set_bit : ebitmap_node -> Z -> option ebitmap_node :=
  ebitmap_node_upd (fun w b => w .| b).
Definition ebitmap_node_clr_bit : ebitmap_node -> Z -> option ebitmap_node :=
  ebitmap_node_upd (fun w b => w .& not64 b).

(** The [while] of [ebitmap_cmp]; it stops at the first difference, and the
    bitmaps are equal when both lists are used up. *)
Fixpoint ebitmap_cmp_nodes (n1 n2 : list ebitmap_node) : bool :=
  match n1, n2 with
  | a :: n1', b :: n2' =>
      if (en_startbit a =? en_startbit b) && bool_decide (en_maps a = en_maps b)
      then ebitmap_cmp_nodes n1' n2'
      else false
  | [], [] => true
  | _, _ => false
  end.

Definition ebitmap_cmp (e1 e2 : ebitmap) : bool :=
  if negb (eb_highbit e1 =? eb_highbit e2) then false
  else ebitmap_cmp_nodes (eb_node e1) (eb_node e2).

Definition ebitmap_destroy (e : ebitmap) : ebitmap := mk_ebitmap [] 0.

(** The copy loop: one allocation per node. *)
Fixpoint ebitmap_cpy_nodes (ns : list ebitmap_node) (m : kmem) : option (list ebitmap_node) * kmem :=
  match ns with
  | [] => (Some [], m)
  | n :: ns' =>
      let '(ok, m) := kalloc m in
      if ok then
        match ebitmap_cpy_nodes ns' m with
        | (Some l, m) => (Some (mk_ebitmap_node (en_maps n) (en_startbit n) :: l), m)
        | (None, m) => (None, m)
        end
      else (None, m)
  end.

(** Result: [rc], the new [*dst]. *)
Definition ebitmap_cpy (src : ebitmap) (m : kmem) : Z * ebitmap * kmem :=
  match ebitmap_cpy_nodes (eb_node src) m with
  | (Some l, m) => (0, mk_ebitmap l (eb_highbit src), m)
  | (None, m) => (- ENOMEM, ebitmap_destroy ebitmap_init, m)
  end.

(** [(n1->maps[i] & n2->maps[i]) != n2->maps[i]] for no [i]. *)
Definition maps_contain (m1 m2 : list Z) : bool :=
  forallb (fun '(a, b) => a .& b =? b) (combine m1 m2).

Fixpoint ebitmap_contains_nodes (n1 n2 : list ebitmap_node) : bool :=
  match n1, n2 with
  | _, [] => true
  | [], _ :: _ => false
  | a :: n1', b :: n2' =>
      if en_startbit a <=? en_startbit b then
        if en_startbit a <? en_startbit b then ebitmap_contains_nodes n1' n2
        else if maps_contain (en_maps a) (en_maps b) then ebitmap_contains_nodes n1' n2'
        else false
      else false
  end.

Definition ebitmap_contains (e1 e2 : ebitmap) : bool :=
  if eb_highbit e1 <? eb_highbit e2 then false
  else ebitmap_contains_nodes (eb_node e1) (eb_node e2).

Fixpoint ebitmap_get_bit_nodes (ns : list ebitmap_node) (bit : Z) : option bool :=
  match ns with
  | n :: ns' =>
      if en_startbit n <=? bit then
        if bit <? en_startbit n + EBITMAP_SIZE then ebitmap_node_get_bit n (u32 bit)
        else ebitmap_get_bit_nodes ns' bit
      else Some false
  | [] => Some false
  end.

Definition ebitmap_get_bit (e : ebitmap) (bit : Z) : option bool :=
  if eb_highbit e <? bit then Some false
  else ebitmap_get_bit_nodes (eb_node e) bit.

(** The part of [ebitmap_set_bit] after its [while]: a new node in front of
    [ns], the nodes past [bit]. *)
Definition ebitmap_add_node (ns : list ebitmap_node) (highbit bit : Z) (value : bool) (m : kmem)
    : option (Z * ebitmap * kmem) :=
  if negb value then Some (0, mk_ebitmap ns highbit, m)
  else
    let '(ok, m) := kalloc m in
    if negb ok then Some (- ENOMEM, mk_ebitmap ns highbit, m)
    else
      new ← ebitmap_node_set_bit
              (mk_ebitmap_node (repeat 0 (Z.to_nat EBITMAP_UNIT_NUMS))
                               (u32 (bit - bit mod EBITMAP_SIZE)))
              (u32 bit);
      let highbit :=
        match ns with [] => u32 (en_startbit new + EBITMAP_SIZE) | _ :: _ => highbit end in
      Some (0, mk_ebitmap (new :: ns) highbit, m).

Fixpoint ebitmap_set_bit_nodes (prev : option ebitmap_node) (ns : list ebitmap_node)
    (highbit bit : Z) (value : bool) (m : kmem) : option (Z * ebitmap * kmem) :=
  match ns with
  | n :: ns' =>
      if en_startbit n <=? bit then
        if bit <? en_startbit n + EBITMAP_SIZE then
          if value then
            n' ← ebitmap_node_set_bit n (u32 bit);
            Some (0, mk_ebitmap (n' :: ns') highbit, m)
          else
            n' ← ebitmap_node_clr_bit n (u32 bit);
            let s := find_first_bit (en_maps n') EBITMAP_SIZE in
            if s <? EBITMAP_SIZE then Some (0, mk_ebitmap (n' :: ns') highbit, m)
            else
              (* drop this node from the bitmap *)
              let highbit :=
                match ns', prev with
                | [], Some p => u32 (en_startbit p + EBITMAP_SIZE)
                | [], None => 0
                | _ :: _, _ => highbit
                end in
              Some (0, mk_ebitmap ns' highbit, m)
        else
          '(rc, e, m) ← ebitmap_set_bit_nodes (Some n) ns' highbit bit value m;
          Some (rc, mk_ebitmap (n :: eb_node e) (eb_highbit e), m)
      else ebitmap_add_node ns highbit bit value m
  | [] => ebitmap_add_node ns highbit bit value m
  end.

(** Result: [rc], the new [*e]. *)
Definition ebitmap_set_bit (e : ebitmap) (bit : Z) (value : bool) (m : kmem)
    : option (Z * ebitmap * kmem) :=
  ebitmap_set_bit_nodes None (eb_node e) (eb_highbit e) bit value m.

(** ** Specification of the word searches *)

(** Bit [k] of an array of 64-bit words. *)
Definition word_bit (maps : list Z) (k : Z) : bool :=
  Z.testbit (nth (Z.to_nat (k `div` 64)) maps 0) (k mod 64).

(** [r] is the first index in [lo .. hi) where [f] holds, or [hi]. *)
Definition first_bit (f : Z -> bool) (lo hi r : Z) : Prop :=
  lo <= r <= hi /\ (forall j, lo <= j < r -> f j = false) /\ (r < hi -> f r = true).

Lemma ffs_from_spec n i w :
  (forall j, 0 <= j < i -> Z.testbit w j = false) -> 0 <= i ->
  first_bit (Z.testbit w) 0 (i + Z.of_nat n) (ffs_from n i w).
Proof.
  revert i. induction n as [|n IH]; intros i Hlow Hi; cbn [ffs_from].
  { split_and!; [lia|lia| |lia]. intros j ?. apply Hlow. lia. }
  destruct (Z.testbit w i) eqn:Hb.
  { split_and!; [lia|lia|done|done]. }
  replace (i + Z.of_nat (S n)) with (i + 1 + Z.of_nat n) by lia.
  apply IH; [|lia]. intros j Hj. destruct (decide (j = i)) as [->|]; [done|].
  apply Hlow. lia.
Qed.

Lemma ffs_spec w : first_bit (Z.testbit w) 0 64 (__ffs w).
Proof. apply (ffs_from_spec 64 0 w); lia. Qed.

Lemma ffs_nonzero w : 0 < w < 2 ^ 64 -> 0 <= __ffs w < 64 /\ Z.testbit w (__ffs w) = true.
Proof.
  intros Hw. destruct (ffs_spec w) as (Hr & Hlow & Hhit).
  assert (__ffs w < 64); [|split; [lia|auto]].
  destruct (decide (__ffs w = 64)) as [E|]; [exfalso|lia].
  assert (w = 0); [|lia]. bitwise i Hi. rewrite E in Hlow.
  destruct (decide (i < 64)); [apply Hlow; lia|]. apply (testbit_high 64); lia.
Qed.

Lemma word_bit_cons_low w p k : 0 <= k < 64 -> word_bit (w :: p) k = Z.testbit w k.
Proof.
  intros Hk. unfold word_bit. rewrite Z.div_small, Z.mod_small by lia. done.
Qed.

Lemma word_bit_cons_high w p k : 64 <= k -> word_bit (w :: p) k = word_bit p (k - 64).
Proof.
  intros Hk. unfold word_bit. replace k with (k - 64 + 1 * 64) at 1 2 by lia.
  rewrite Z.div_add, Z.mod_add by lia.
  rewrite Z2Nat.inj_add by (try lia; apply Z.div_pos; lia).
  rewrite Nat.add_1_r. done.
Qed.

Lemma land_lnot_63 size : 0 <= size -> nz (size .& Z.lnot (BITS_PER_LONG - 1)) = (64 <=? size).
Proof.
  intros H. change (Z.lnot (BITS_PER_LONG - 1)) with (Z.lnot (Z.ones 6)).
  rewrite <- Z.ldiff_land, Z.ldiff_ones_r by lia.
  rewrite Z.shiftr_div_pow2, Z.shiftl_mul_pow2 by lia. change (2 ^ 6) with 64.
  unfold nz. pose proof (Z.div_mod size 64). pose proof (Z.mod_pos_bound size 64).
  destruct (64 <=? size) eqn:?; lia.
Qed.

Lemma ones_shiftr size : 0 <= size <= 64 -> Z.ones 64 .>> (BITS_PER_LONG - size) = Z.ones size.
Proof.
  intros H. unfold BITS_PER_LONG. bitwise i Hi. rewrite Z.shiftr_spec by lia.
  destruct (decide (i < size)).
  - rewrite !Z.ones_spec_low by lia. done.
  - rewrite !Z.ones_spec_high by lia. done.
Qed.

(** A word of which only the low [size] bits count. *)
Lemma ffs_masked w size :
  0 < size <= 64 -> 0 <= w < 2 ^ 64 ->
  let tmp := w .& Z.ones size in
  first_bit (Z.testbit w) 0 size (if tmp =? 0 then size else __ffs tmp).
Proof.
  intros Hs Hw tmp.
  assert (forall j, 0 <= j < size -> Z.testbit tmp j = Z.testbit w j) as Hlow.
  { intros j Hj. unfold tmp. rewrite Z.land_spec, Z.ones_spec_low, andb_true_r by lia. done. }
  assert (0 <= tmp < 2 ^ size) as Hr.
  { unfold tmp. rewrite Z.land_ones by lia. apply Z.mod_pos_bound. lia. }
  assert (2 ^ size <= 2 ^ 64) by (apply Z.pow_le_mono_r; lia).
  destruct (tmp =? 0) eqn:E.
  { assert (tmp = 0) as Ht by lia. split_and!; [lia|lia| |lia].
    intros j Hj. rewrite <- Hlow, Ht, Z.bits_0 by lia. done. }
  destruct (ffs_nonzero tmp) as [Hf Hb]; [lia|].
  destruct (ffs_spec tmp) as (_ & Hz & _).
  assert (__ffs tmp < size).
  { destruct (decide (__ffs tmp < size)); [done|].
    by rewrite (testbit_high size tmp) in Hb by lia. }
  split_and!; [lia|lia| |].
  - intros j Hj. rewrite <- Hlow by lia. apply Hz. lia.
  - intros _. rewrite <- Hlow by lia. done.
Qed.

Lemma first_bit_low w p lo hi r :
  0 <= lo -> hi <= 64 -> first_bit (Z.testbit w) lo hi r -> first_bit (word_bit (w :: p)) lo hi r.
Proof.
  intros Hlo Hhi (Hr & Hz & Hb). split_and!; [lia|lia| |].
  - intros j Hj. rewrite word_bit_cons_low by lia. apply Hz. lia.
  - intros Hlt. rewrite word_bit_cons_low by lia. auto.
Qed.

Lemma first_bit_high w p lo hi r :
  0 <= lo <= 64 -> (forall j, lo <= j < 64 -> Z.testbit w j = false) ->
  first_bit (word_bit p) 0 (hi - 64) r -> first_bit (word_bit (w :: p)) lo hi (r + 64).
Proof.
  intros Hlo Hw (Hr & Hz & Hb). split_and!; [lia|lia| |].
  - intros j Hj. destruct (decide (j < 64)).
    + rewrite word_bit_cons_low by lia. apply Hw. lia.
    + rewrite word_bit_cons_high by lia. apply Hz. lia.
  - intros Hlt. rewrite word_bit_cons_high by lia. rewrite <- Hb by lia. f_equal. lia.
Qed.

(** A larger bound is met by a hit below the smaller one. *)
Lemma first_bit_hit f lo hi hi' r :
  first_bit f lo hi r -> r < hi -> hi <= hi' -> first_bit f lo hi' r.
Proof. intros (Hr & Hz & Hb) ??. split_and!; [lia|lia|done|auto]. Qed.

Lemma find_words_spec p size res :
  Forall (in_u 64) p -> 0 <= size <= 64 * Z.of_nat (length p) ->
  first_bit (word_bit p) 0 size (find_words p size res - res).
Proof.
  intros Hp. revert size res. induction Hp as [|w p Hw Hp IH]; intros size res Hs.
  { cbn in *. split_and!; [lia|lia|lia|lia]. }
  cbn [find_words]. rewrite length_cons in Hs. rewrite land_lnot_63 by lia.
  destruct (64 <=? size) eqn:E64.
  - destruct (nz w) eqn:Ew.
    + apply nz_true in Ew. destruct Hw as [Hw1 Hw2].
      destruct (ffs_nonzero w) as [Hf Hb]; [lia|].
      replace (res + __ffs w - res) with (__ffs w) by lia.
      apply (first_bit_hit _ _ 64); [|lia|lia].
      apply first_bit_low; [lia|lia|]. apply ffs_spec.
    + apply nz_false in Ew. subst w.
      specialize (IH (size - BITS_PER_LONG) (res + BITS_PER_LONG)).
      unfold BITS_PER_LONG in *.
      replace (find_words p (size - 64) (res + 64) - res)
        with (find_words p (size - 64) (res + 64) - (res + 64) + 64) by lia.
      apply first_bit_high; [lia| |apply IH; lia].
      intros j _. apply Z.bits_0.
  - destruct (size =? 0) eqn:E0.
    { split_and!; lia. }
    rewrite ones_shiftr by lia.
    pose proof (ffs_masked w size) as HF.
    replace (_ - res) with (if w .& Z.ones size =? 0 then size else __ffs (w .& Z.ones size))
      by (case_next; lia).
    apply first_bit_low; [lia|lia|]. apply HF; [lia|]. destruct Hw. lia.
Qed.

Lemma find_first_bit_spec maps size :
  Forall (in_u 64) maps -> 0 <= size <= 64 * Z.of_nat (length maps) ->
  first_bit (word_bit maps) 0 size (find_first_bit maps size).
Proof.
  intros Hm Hs. unfold find_first_bit.
  rewrite <- (Z.sub_0_r (find_words _ _ _)). by apply find_words_spec.
Qed.

Lemma word_bit_nil k : word_bit [] k = false.
Proof. unfold word_bit. destruct (Z.to_nat _); apply Z.bits_0. Qed.

Lemma word_bit_drop maps q j :
  0 <= j -> word_bit (drop q maps) j = word_bit maps (64 * Z.of_nat q + j).
Proof.
  intros Hj. revert maps. induction q as [|q IH]; intros maps.
  { rewrite drop_0. done. }
  destruct maps as [|w maps].
  { by rewrite drop_nil, !word_bit_nil. }
  cbn [drop]. rewrite IH, word_bit_cons_high by lia. f_equal. lia.
Qed.

Lemma first_bit_drop maps q lo hi r :
  0 <= lo -> first_bit (word_bit (drop q maps)) lo hi r ->
  first_bit (word_bit maps) (64 * Z.of_nat q + lo) (64 * Z.of_nat q + hi) (64 * Z.of_nat q + r).
Proof.
  intros Hlo (Hr & Hz & Hb). split_and!; [lia|lia| |].
  - intros j Hj. replace j with (64 * Z.of_nat q + (j - 64 * Z.of_nat q)) by lia.
    rewrite <- word_bit_drop by lia. apply Hz. lia.
  - intros Hlt. rewrite <- word_bit_drop by lia. apply Hb. lia.
Qed.

(** [~0UL << offset] drops the bits below [offset]. *)
Lemma land_shl_ones w o j :
  0 <= o < 64 -> 0 <= w < 2 ^ 64 -> 0 <= j ->
  Z.testbit (w .& u64 (Z.ones 64 .<< o)) j = bool_decide (o <= j) && Z.testbit w j.
Proof.
  intros Ho Hw Hj. rewrite Z.land_spec. unfold u64.
  destruct (decide (j < 64)).
  - rewrite Z.mod_pow2_bits_low, Z.shiftl_spec by lia. case_bool_decide.
    + rewrite Z.ones_spec_low by lia. apply andb_true_r.
    + rewrite (Z.testbit_neg_r (Z.ones 64)) by lia. apply andb_false_r.
  - rewrite (testbit_high 64 w) by lia. by rewrite andb_false_r.
Qed.

Lemma first_bit_masked w o hi r :
  0 <= o < 64 -> 0 <= w < 2 ^ 64 -> o <= hi ->
  first_bit (Z.testbit (w .& u64 (Z.ones 64 .<< o))) 0 hi r ->
  first_bit (Z.testbit w) o hi r.
Proof.
  intros Ho Hw Hhi (Hr & Hz & Hb).
  assert (o <= r).
  { destruct (decide (o <= r)); [done|]. exfalso. specialize (Hb ltac:(lia)).
    rewrite land_shl_ones in Hb by lia. rewrite bool_decide_false in Hb by lia. done. }
  split_and!; [lia|lia| |].
  - intros j Hj. specialize (Hz j ltac:(lia)). rewrite land_shl_ones in Hz by lia.
    by rewrite bool_decide_true in Hz by lia.
  - intros Hlt. specialize (Hb Hlt). rewrite land_shl_ones in Hb by lia.
    by rewrite bool_decide_true in Hb by lia.
Qed.

(** [find_next_bit] returns the first set bit at or after [offset]. *)
Lemma find_next_bit_spec maps size offset :
  Forall (in_u 64) maps -> 0 <= offset < size -> size <= 64 * Z.of_nat (length maps) ->
  first_bit (word_bit maps) offset size (find_next_bit maps size offset).
Proof.
  intros Hm Ho Hs. unfold find_next_bit, BITS_PER_LONG.
  rewrite (proj2 (Z.leb_gt _ _)) by lia.
  set (q := Z.to_nat (offset `div` 64)).
  pose proof (Z.div_mod offset 64 ltac:(lia)) as Hdm.
  pose proof (Z.mod_pos_bound offset 64 ltac:(lia)) as Hmb.
  assert (Hq : Z.of_nat q = offset `div` 64) by (unfold q; rewrite Z2Nat.id; lia).
  assert (offset .& Z.lnot (64 - 1) = 64 * Z.of_nat q) as ->.
  { change (Z.lnot (64 - 1)) with (Z.lnot (Z.ones 6)).
    rewrite <- Z.ldiff_land, Z.ldiff_ones_r, Z.shiftr_div_pow2, Z.shiftl_mul_pow2 by lia.
    change (2 ^ 6) with 64. lia. }
  assert (Forall (in_u 64) (drop q maps)) as Hd by by apply Forall_drop.
  assert (Hlen : size - 64 * Z.of_nat q <= 64 * Z.of_nat (length (drop q maps))).
  { rewrite length_drop. lia. }
  set (r := if nz (offset mod 64) then _ else _).
  cut (first_bit (word_bit (drop q maps)) (offset mod 64) (size - 64 * Z.of_nat q)
                 (r - 64 * Z.of_nat q)).
  { intros H%first_bit_drop; [|lia].
    replace (64 * Z.of_nat q + offset mod 64) with offset in H by lia.
    replace (64 * Z.of_nat q + (size - 64 * Z.of_nat q)) with size in H by lia.
    replace (64 * Z.of_nat q + (r - 64 * Z.of_nat q)) with r in H by lia. done. }
  subst r. destruct (nz (offset mod 64)) eqn:En.
  2:{ apply nz_false in En. rewrite En. apply find_words_spec; [done|lia]. }
  apply nz_true in En. destruct (drop q maps) as [|w p]; [cbn in Hlen; lia|].
  inv Hd as [|? ? Hw Hp]. rewrite length_cons in Hlen. set (o := offset mod 64) in *.
  set (sz := size - 64 * Z.of_nat q) in *.
  assert (0 <= w .& u64 (Z.ones 64 .<< o) < 2 ^ 64) by (apply land_range; [lia|destruct Hw; lia]).
  destruct Hw as [Hw1 Hw2].
  destruct (sz <? 64) eqn:Esz.
  - pose proof (ones_shiftr sz) as Hones. unfold BITS_PER_LONG in Hones. rewrite !Hones by lia.
    apply first_bit_low; [lia|lia|]. apply first_bit_masked; [lia|lia|lia|].
    pose proof (ffs_masked (w .& u64 (Z.ones 64 .<< o)) sz) as HF.
    replace (_ - 64 * Z.of_nat q)
      with (if (w .& u64 (Z.ones 64 .<< o)) .& Z.ones sz =? 0 then sz
            else __ffs ((w .& u64 (Z.ones 64 .<< o)) .& Z.ones sz)) by (case_next; lia).
    apply HF; lia.
  - destruct (nz (w .& u64 (Z.ones 64 .<< o))) eqn:Et.
    + apply nz_true in Et. destruct (ffs_nonzero (w .& u64 (Z.ones 64 .<< o))) as [Hf _]; [lia|].
      replace (_ - 64 * Z.of_nat q) with (__ffs (w .& u64 (Z.ones 64 .<< o))) by lia.
      apply (first_bit_hit _ _ 64); [|lia|lia].
      apply first_bit_low; [lia|lia|]. apply first_bit_masked; [lia|lia|lia|]. apply ffs_spec.
    + apply nz_false in Et.
      replace (_ - 64 * Z.of_nat q)
        with (find_words p (sz - 64) (64 * Z.of_nat q + 64) - (64 * Z.of_nat q + 64) + 64) by lia.
      apply first_bit_high; [lia| |apply find_words_spec; [done|lia]].
      intros j Hj. pose proof (land_shl_ones w o j) as HL. rewrite Et, Z.bits_0 in HL.
      rewrite bool_decide_true in HL by lia. symmetry. apply HL; lia.
Qed.

(** ** Specification of the bitmaps

    [ebit e] is the set a bitmap stands for.  [ebitmap_wf] is the invariant
    every bitmap of the security server satisfies; [ebitmap_canon] adds what
    [ebitmap_set_bit] maintains: no empty node, [highbit] just past the last
    node. *)

Definition node_bit (n : ebitmap_node) (b : Z) : bool :=
  (en_startbit n <=? b) && (b <? en_startbit n + EBITMAP_SIZE)
  && word_bit (en_maps n) (b - en_startbit n).

Definition nodes_bit (ns : list ebitmap_node) (b : Z) : bool := existsb (fun n => node_bit n b) ns.

Definition ebit (e : ebitmap) (b : Z) : bool := nodes_bit (eb_node e) b.

Definition node_wf (n : ebitmap_node) : Prop :=
  length (en_maps n) = 2%nat /\ Forall (in_u 64) (en_maps n) /\
  en_startbit n mod EBITMAP_SIZE = 0 /\ 0 <= en_startbit n /\ en_startbit n + EBITMAP_SIZE < 2 ^ 32.

Definition node_lt (a b : ebitmap_node) : Prop := en_startbit a < en_startbit b.

Definition below (hb : Z) (n : ebitmap_node) : Prop := en_startbit n + EBITMAP_SIZE <= hb.

Record ebitmap_wf (e : ebitmap) : Prop := {
  wf_nodes : Forall node_wf (eb_node e);
  wf_sorted : StronglySorted node_lt (eb_node e);
  wf_below : Forall (below (eb_highbit e)) (eb_node e);
  wf_highbit : 0 <= eb_highbit e < 2 ^ 32
}.

Definition node_nonempty (n : ebitmap_node) : Prop := exists b, node_bit n b = true.

(** The position just past the last node. *)
Definition nodes_top (lo : Z) (ns : list ebitmap_node) : Z :=
  match last ns with Some n => en_startbit n + EBITMAP_SIZE | None => lo end.

Record ebitmap_canon (e : ebitmap) : Prop := {
  canon_wf : ebitmap_wf e;
  canon_nonempty : Forall node_nonempty (eb_node e);
  canon_top : eb_highbit e = nodes_top 0 (eb_node e)
}.

#[export] Hint Resolve canon_wf : selinux.

Lemma EBITMAP_SIZE_val : EBITMAP_SIZE = 128.
Proof. done. Qed.

(** [lia], knowing the node size. *)
Ltac eblia := unfold below, node_lt in *; rewrite ?EBITMAP_SIZE_val in *; lia.

Lemma nz_land_pow2 w o : 0 <= o < 64 -> nz (w .& u64 (1 .<< o)) = Z.testbit w o.
Proof.
  intros Ho. rewrite Z.shiftl_1_l. unfold u64.
  assert (2 ^ o < 2 ^ 64) by (apply Z.pow_lt_mono_r; lia).
  rewrite Z.mod_small by lia.
  destruct (Z.testbit w o) eqn:E.
  - apply nz_true. intros H0. apply (f_equal (fun z => Z.testbit z o)) in H0.
    rewrite Z.land_spec, Z.pow2_bits_true, E, Z.bits_0 in H0 by lia. done.
  - apply nz_false. bitwise i Hi. destruct (decide (i = o)) as [->|].
    + by rewrite E.
    + rewrite Z.pow2_bits_false, andb_false_r by lia. done.
Qed.

Lemma node_index n b :
  node_wf n -> en_startbit n <= b < en_startbit n + EBITMAP_SIZE ->
  EBITMAP_NODE_INDEX n b = (b - en_startbit n) `div` 64 /\
  EBITMAP_NODE_OFFSET n b = (b - en_startbit n) mod 64 /\
  0 <= (b - en_startbit n) `div` 64 < EBITMAP_UNIT_NUMS.
Proof.
  intros (_ & _ & _ & Hs0 & Hs1) Hb. rewrite EBITMAP_SIZE_val in *.
  unfold EBITMAP_NODE_INDEX, EBITMAP_NODE_OFFSET, EBITMAP_UNIT_SIZE, BITS_PER_LONG.
  rewrite u32_small by lia. split_and!; [done|done|apply Z.div_pos; lia|].
  change EBITMAP_UNIT_NUMS with 2. apply Z.div_lt_upper_bound; lia.
Qed.

Lemma lookup_nth_word (maps : list Z) k :
  (k < length maps)%nat -> maps !! k = Some (nth k maps 0).
Proof. intros Hk. rewrite nth_lookup. by destruct (lookup_lt_is_Some_2 _ _ Hk) as [x ->]. Qed.

Lemma node_get_bit_spec n b :
  node_wf n -> en_startbit n <= b < en_startbit n + EBITMAP_SIZE ->
  ebitmap_node_get_bit n b = Some (node_bit n b).
Proof.
  intros Hwf Hb. destruct (node_index n b Hwf Hb) as (Hi & Ho & Hr).
  unfold ebitmap_node_get_bit. rewrite Hi, Ho, (proj2 (Z.leb_gt _ _)) by lia.
  destruct Hwf as (Hl & _). change EBITMAP_UNIT_NUMS with 2 in Hr.
  rewrite lookup_nth_word by lia. cbn.
  pose proof (Z.mod_pos_bound (b - en_startbit n) 64).
  rewrite nz_land_pow2 by lia. unfold node_bit.
  rewrite (proj2 (Z.leb_le _ _)), (proj2 (Z.ltb_lt _ _)) by lia. done.
Qed.

Lemma node_bit_range n b :
  node_bit n b = true -> en_startbit n <= b < en_startbit n + EBITMAP_SIZE.
Proof. unfold node_bit. intros [[? ?]%andb_prop ?]%andb_prop. lia. Qed.

Lemma node_bit_outside n b :
  ~ (en_startbit n <= b < en_startbit n + EBITMAP_SIZE) -> node_bit n b = false.
Proof. intros H. destruct (node_bit n b) eqn:E; [|done]. by apply node_bit_range in E. Qed.

Lemma nodes_bit_true ns b :
  nodes_bit ns b = true <-> exists n, n ∈ ns /\ node_bit n b = true.
Proof.
  unfold nodes_bit. rewrite existsb_exists. by setoid_rewrite list_elem_of_In.
Qed.

Lemma nodes_bit_false ns b :
  Forall (fun n => ~ (en_startbit n <= b < en_startbit n + EBITMAP_SIZE)) ns ->
  nodes_bit ns b = false.
Proof.
  intros H. destruct (nodes_bit ns b) eqn:E; [|done].
  apply nodes_bit_true in E as (n & Hn & Hb). rewrite Forall_forall in H.
  by apply node_bit_range, H in Hb.
Qed.

(** Distinct aligned nodes do not overlap. *)
Lemma aligned_lt a b :
  a mod EBITMAP_SIZE = 0 -> b mod EBITMAP_SIZE = 0 -> a < b -> a + EBITMAP_SIZE <= b.
Proof.
  rewrite EBITMAP_SIZE_val. intros Ha Hb Hlt.
  pose proof (Z.div_mod a 128). pose proof (Z.div_mod b 128). lia.
Qed.

Lemma nodes_past ns n b :
  Forall node_wf ns -> node_wf n -> Forall (node_lt n) ns ->
  b < en_startbit n + EBITMAP_SIZE -> nodes_bit ns b = false.
Proof.
  intros Hns Hn Hlt Hb. apply nodes_bit_false. rewrite !Forall_forall in *.
  intros x Hx Hr. destruct (Hns x Hx) as (_ & _ & Hx2 & _), Hn as (_ & _ & Hn2 & _).
  pose proof (aligned_lt _ _ Hn2 Hx2 (Hlt x Hx)). lia.
Qed.

Lemma nodes_bit_cons n ns b : nodes_bit (n :: ns) b = node_bit n b || nodes_bit ns b.
Proof. done. Qed.

Lemma get_bit_nodes_spec ns bit :
  Forall node_wf ns -> StronglySorted node_lt ns -> 0 <= bit < 2 ^ 32 ->
  ebitmap_get_bit_nodes ns bit = Some (nodes_bit ns bit).
Proof.
  intros Hwf Hs Hb. induction Hs as [|n ns Hs IH Hlt]; [done|].
  inv Hwf as [|? ? Hn Hns]. cbn [ebitmap_get_bit_nodes].
  destruct (en_startbit n <=? bit) eqn:E1.
  - destruct (bit <? en_startbit n + EBITMAP_SIZE) eqn:E2.
    + rewrite u32_small, node_get_bit_spec by (done || lia).
      rewrite nodes_bit_cons, (nodes_past ns n), orb_false_r by (done || lia). done.
    + rewrite nodes_bit_cons, node_bit_outside by lia. by apply IH.
  - rewrite nodes_bit_cons, node_bit_outside, (nodes_past ns n) by (done || eblia). done.
Qed.

Lemma get_bit_spec e bit :
  ebitmap_wf e -> 0 <= bit < 2 ^ 32 -> ebitmap_get_bit e bit = Some (ebit e bit).
Proof.
  intros [Hn Hs Hb Hh] Hbit. unfold ebitmap_get_bit, ebit.
  destruct (eb_highbit e <? bit) eqn:E; [|by apply get_bit_nodes_spec].
  rewrite nodes_bit_false; [done|]. eapply Forall_impl; [exact Hb|].
  unfold below. intros x Hx. lia.
Qed.

(** Updating one word of a node. *)
Lemma word_bit_insert maps k o w j :
  (k < length maps)%nat -> 0 <= o < 64 -> 0 <= j ->
  (forall i, 0 <= i -> i <> o -> Z.testbit w i = Z.testbit (nth k maps 0) i) ->
  word_bit (<[k := w]> maps) j =
    if decide (j = 64 * Z.of_nat k + o) then Z.testbit w o else word_bit maps j.
Proof.
  intros Hk Ho Hj Hw. unfold word_bit.
  pose proof (Z.div_mod j 64). pose proof (Z.mod_pos_bound j 64).
  assert (0 <= j `div` 64) by (apply Z.div_pos; lia).
  rewrite !nth_lookup. destruct (decide (Z.to_nat (j `div` 64) = k)) as [E|E].
  - subst k. rewrite list_lookup_insert_eq by done. cbn.
    rewrite nth_lookup in Hw. case_decide; [f_equal; lia|]. apply Hw; lia.
  - rewrite list_lookup_insert_ne by done. case_decide; [lia|done].
Qed.

Lemma node_upd_spec f v n b :
  node_wf n -> en_startbit n <= b < en_startbit n + EBITMAP_SIZE ->
  (forall w o, in_u 64 w -> 0 <= o < 64 ->
     in_u 64 (f w (u64 (1 .<< o))) /\
     (forall i, 0 <= i -> Z.testbit (f w (u64 (1 .<< o))) i
                          = if decide (i = o) then v else Z.testbit w i)) ->
  exists n', ebitmap_node_upd f n b = Some n' /\ node_wf n' /\ en_startbit n' = en_startbit n /\
    forall b', node_bit n' b' = if decide (b' = b) then v else node_bit n b'.
Proof.
  intros Hwf Hb Hf. destruct (node_index n b Hwf Hb) as (Hi & Ho & Hr).
  unfold ebitmap_node_upd. rewrite Hi, Ho, (proj2 (Z.leb_gt _ _)) by lia.
  pose proof Hwf as (Hl & Hm & Hal & Hs). change EBITMAP_UNIT_NUMS with 2 in Hr.
  set (k := Z.to_nat _). assert (k < length (en_maps n))%nat as Hk by lia.
  rewrite lookup_nth_word by done. cbn. eexists. split; [done|].
  pose proof (Z.mod_pos_bound (b - en_startbit n) 64 ltac:(lia)) as Hmod.
  destruct (Hf (nth k (en_maps n) 0) ((b - en_startbit n) mod 64)) as [Hfr Hfb]; [|done|].
  { eapply Forall_nth in Hm; [|exact Hk]. exact Hm. }
  split; [|split; [done|]].
  { unfold node_wf. cbn. rewrite length_insert. split_and!; [done| |done|lia|lia].
    apply Forall_insert; done. }
  intros b'. unfold node_bit. cbn [en_startbit en_maps].
  destruct ((en_startbit n <=? b') && (b' <? en_startbit n + EBITMAP_SIZE)) eqn:E;
    cbn [andb]; [|case_decide; [lia|done]].
  rewrite (word_bit_insert _ _ ((b - en_startbit n) mod 64)); [|done|done|lia|].
  - pose proof (Z.div_mod (b - en_startbit n) 64). rewrite Hfb by lia.
    repeat case_decide; try done; lia.
  - intros i Hi0 Hne. rewrite Hfb by done. by rewrite decide_False by done.
Qed.

Lemma pow2_u64 o : 0 <= o < 64 -> u64 (1 .<< o) = 2 ^ o /\ 0 < 2 ^ o < 2 ^ 64.
Proof.
  intros Ho. rewrite Z.shiftl_1_l. assert (2 ^ o < 2 ^ 64) by (apply Z.pow_lt_mono_r; lia).
  rewrite u64_small; lia.
Qed.

Lemma testbit_pow2 o i : 0 <= o -> Z.testbit (2 ^ o) i = bool_decide (i = o).
Proof.
  intros Ho. case_bool_decide; subst; [by apply Z.pow2_bits_true|by apply Z.pow2_bits_false].
Qed.

Lemma node_set_bit_spec n b :
  node_wf n -> en_startbit n <= b < en_startbit n + EBITMAP_SIZE ->
  exists n', ebitmap_node_set_bit n b = Some n' /\ node_wf n' /\ en_startbit n' = en_startbit n /\
    forall b', node_bit n' b' = if decide (b' = b) then true else node_bit n b'.
Proof.
  intros Hwf Hb. apply node_upd_spec; [done|done|]. intros w o Hw Ho.
  destruct (pow2_u64 o Ho) as [-> Hp]. split; [apply lor_range; [lia|apply Hw|lia]|].
  intros i Hi. rewrite Z.lor_spec, testbit_pow2 by lia.
  case_bool_decide; case_decide; try done; [apply orb_true_r|apply orb_false_r].
Qed.

Lemma node_clr_bit_spec n b :
  node_wf n -> en_startbit n <= b < en_startbit n + EBITMAP_SIZE ->
  exists n', ebitmap_node_clr_bit n b = Some n' /\ node_wf n' /\ en_startbit n' = en_startbit n /\
    forall b', node_bit n' b' = if decide (b' = b) then false else node_bit n b'.
Proof.
  intros Hwf Hb. apply node_upd_spec; [done|done|]. intros w o Hw Ho.
  destruct (pow2_u64 o Ho) as [-> Hp]. split; [apply land_range; [lia|apply Hw]|].
  intros i Hi. rewrite Z.land_spec. unfold not64, u64.
  destruct (decide (i < 64)).
  - rewrite Z.mod_pow2_bits_low, Z.lnot_spec, testbit_pow2 by lia.
    case_bool_decide; case_decide; try done; [apply andb_false_r|apply andb_true_r].
  - rewrite (testbit_high 64 w) by (lia || apply Hw). by case_decide.
Qed.

(** The test that drops a node: no bit left. *)
Lemma node_first_bit n :
  node_wf n ->
  (find_first_bit (en_maps n) EBITMAP_SIZE <? EBITMAP_SIZE) = true <-> node_nonempty n.
Proof.
  intros (Hl & Hm & _ & _ & _).
  destruct (find_first_bit_spec (en_maps n) EBITMAP_SIZE Hm) as (Hr & Hz & Hb).
  { rewrite Hl. done. }
  rewrite Z.ltb_lt. split.
  - intros Hlt. exists (en_startbit n + find_first_bit (en_maps n) EBITMAP_SIZE). unfold node_bit.
    rewrite (proj2 (Z.leb_le _ _)), (proj2 (Z.ltb_lt _ _)) by lia. cbn.
    rewrite <- Hb by done. f_equal. lia.
  - intros [b Hnb]. pose proof (node_bit_range _ _ Hnb) as Hbr.
    unfold node_bit in Hnb. apply andb_prop in Hnb as [_ Hnb].
    destruct (decide (find_first_bit (en_maps n) EBITMAP_SIZE < EBITMAP_SIZE)); [done|].
    rewrite Hz in Hnb by lia. done.
Qed.

(** *** [ebitmap_set_bit]

    The loop invariant: [lo] is the position just past [prev] (0 at the
    start), everything before it has been passed. *)

Definition prev_top (prev : option ebitmap_node) : Z :=
  match prev with Some p => en_startbit p + EBITMAP_SIZE | None => 0 end.

Record set_pre (lo : Z) (ns : list ebitmap_node) (hb bit : Z) : Prop := {
  sp_wf : ebitmap_wf (mk_ebitmap ns hb);
  sp_lo : 0 <= lo <= bit /\ lo mod EBITMAP_SIZE = 0 /\ lo <= hb;
  sp_ge : Forall (fun n => lo <= en_startbit n) ns;
  sp_bit : bit - bit mod EBITMAP_SIZE + EBITMAP_SIZE < 2 ^ 32
}.

Definition set_post (lo : Z) (ns : list ebitmap_node) (hb bit : Z) (v : bool)
    (rc : Z) (e' : ebitmap) : Prop :=
  ebitmap_wf e' /\ Forall (fun n => lo <= en_startbit n) (eb_node e') /\ lo <= eb_highbit e' /\
  ((rc = 0 /\ forall b, ebit e' b = if decide (b = bit) then v else nodes_bit ns b)
   \/ (rc = - ENOMEM /\ v = true /\ e' = mk_ebitmap ns hb)) /\
  (hb = nodes_top lo ns -> Forall node_nonempty ns ->
     eb_highbit e' = nodes_top lo (eb_node e') /\ Forall node_nonempty (eb_node e')).

Lemma nodes_top_cons lo n ns : nodes_top lo (n :: ns) = nodes_top (en_startbit n + EBITMAP_SIZE) ns.
Proof. unfold nodes_top. rewrite last_cons. by destruct (last ns). Qed.

Lemma wf_cons n ns hb :
  ebitmap_wf (mk_ebitmap (n :: ns) hb) <->
  node_wf n /\ Forall (node_lt n) ns /\ below hb n /\ ebitmap_wf (mk_ebitmap ns hb).
Proof.
  split.
  - intros [Hn Hs Hb Hh]. cbn in *. inv Hn. apply StronglySorted_inv in Hs as [? ?]. inv Hb.
    split_and!; try done; by constructor.
  - intros (? & ? & ? & [? ? ? ?]). constructor; cbn in *; [by constructor|by constructor|by constructor|done].
Qed.

Lemma wf_highbit_irrel ns hb hb' :
  ebitmap_wf (mk_ebitmap ns hb) -> Forall (below hb') ns -> 0 <= hb' < 2 ^ 32 ->
  ebitmap_wf (mk_ebitmap ns hb').
Proof. intros [? ? ? ?] ? ?. by constructor. Qed.

Lemma round_down_bit bit :
  0 <= bit -> let r := bit - bit mod EBITMAP_SIZE in
  r mod EBITMAP_SIZE = 0 /\ 0 <= r /\ r <= bit < r + EBITMAP_SIZE.
Proof.
  intros Hb r. subst r. rewrite EBITMAP_SIZE_val in *.
  pose proof (Z.div_mod bit 128 ltac:(lia)). pose proof (Z.mod_pos_bound bit 128 ltac:(lia)).
  replace (bit - bit mod 128) with (bit `div` 128 * 128) by lia.
  rewrite Z.mod_mul by lia. lia.
Qed.

Lemma empty_node_wf s :
  s mod EBITMAP_SIZE = 0 -> 0 <= s -> s + EBITMAP_SIZE < 2 ^ 32 ->
  node_wf (mk_ebitmap_node (repeat 0 (Z.to_nat EBITMAP_UNIT_NUMS)) s).
Proof. intros. unfold node_wf. cbn. split_and!; try done. by repeat constructor. Qed.

Lemma empty_node_bit s b :
  node_bit (mk_ebitmap_node (repeat 0 (Z.to_nat EBITMAP_UNIT_NUMS)) s) b = false.
Proof.
  unfold node_bit. cbn. apply andb_false_iff. right. unfold word_bit.
  destruct (Z.to_nat _) as [|[|[|]]]; apply Z.bits_0.
Qed.

Lemma set_post_id lo ns hb bit :
  set_pre lo ns hb bit -> nodes_bit ns bit = false ->
  set_post lo ns hb bit false 0 (mk_ebitmap ns hb).
Proof.
  intros [Hwf Hlo Hge Hbit] Hnb. split_and!; [done|done|cbn; lia| |done].
  left. split; [done|]. intros b. unfold ebit. cbn. case_decide; [by subst|done].
Qed.

Lemma add_node_spec lo ns hb bit v m :
  set_pre lo ns hb bit -> Forall (fun n => bit < en_startbit n) ns ->
  exists rc e' m', ebitmap_add_node ns hb bit v m = Some (rc, e', m') /\
    set_post lo ns hb bit v rc e'.
Proof.
  intros Hpre Hgt. pose proof Hpre as [Hwf Hlo Hge Hbit]. unfold ebitmap_add_node.
  assert (nodes_bit ns bit = false) as Hnb.
  { apply nodes_bit_false. eapply Forall_impl; [exact Hgt|]. cbn. lia. }
  destruct v; cbn [negb].
  2:{ eexists _, _, _. split; [done|]. by apply set_post_id. }
  destruct (kalloc m) as [[] m1]; cbn [negb].
  2:{ eexists _, _, _. split; [done|]. split_and!; [done|done|cbn; lia| |done]. by right. }
  destruct (round_down_bit bit) as (Hal & Hr0 & Hr); [lia|].
  set (r := bit - bit mod EBITMAP_SIZE) in *.
  rewrite !u32_small by eblia. clearbody r.
  destruct (node_set_bit_spec (mk_ebitmap_node (repeat 0 (Z.to_nat EBITMAP_UNIT_NUMS)) r) bit)
    as (new & -> & Hnwf & Hst & Hnbit); [by apply empty_node_wf|done|].
  cbn in Hst. cbn -[node_bit ebitmap_add_node EBITMAP_SIZE]. eexists _, _, _. split; [done|].
  rewrite Hst. set (hb' := match ns with [] => _ | _ => _ end).
  assert (Forall (node_lt new) ns) as Hnlt.
  { eapply Forall_impl; [exact Hgt|]. unfold node_lt. rewrite Hst. lia. }
  assert (lo <= r) as Hlor.
  { destruct (decide (lo <= r)); [done|]. pose proof (aligned_lt r lo Hal). eblia. }
  assert (below hb' new /\ ebitmap_wf (mk_ebitmap ns hb') /\ r + EBITMAP_SIZE <= hb') as (Hbe & Hwf' & Hhb').
  { subst hb'. unfold below. rewrite Hst. destruct ns as [|x ns].
    - rewrite u32_small by eblia. split_and!; [lia| |lia]. constructor; cbn; [constructor..|eblia].
    - apply wf_cons in Hwf as (Hx & ? & Hbx & Hw). apply Forall_cons_1 in Hgt as [Hgx _].
      assert (r + EBITMAP_SIZE <= en_startbit x).
      { apply aligned_lt; [done|apply Hx|lia]. }
      split_and!; [eblia|by apply wf_cons|eblia]. }
  split_and!; cbn [eb_node eb_highbit].
  - by apply wf_cons.
  - constructor; [lia|done].
  - eblia.
  - left. split; [done|]. intros b. unfold ebit. cbn [eb_node].
    rewrite nodes_bit_cons, Hnbit, empty_node_bit. case_decide; done.
  - intros Htop Hne. split.
    + rewrite nodes_top_cons, Hst. subst hb'. destruct ns as [|x ns].
      * cbn. rewrite u32_small by eblia. done.
      * rewrite Htop, !nodes_top_cons. done.
    + constructor; [|done]. exists bit. rewrite Hnbit. by rewrite decide_True.
Qed.

(** A node updated in place. *)
Lemma set_post_here lo n n' ns hb bit v :
  set_pre lo (n :: ns) hb bit -> en_startbit n <= bit < en_startbit n + EBITMAP_SIZE ->
  node_wf n' -> en_startbit n' = en_startbit n -> (v = false -> node_nonempty n') ->
  (forall b', node_bit n' b' = if decide (b' = bit) then v else node_bit n b') ->
  set_post lo (n :: ns) hb bit v 0 (mk_ebitmap (n' :: ns) hb).
Proof.
  intros [Hwf Hlo Hge Hbit] Hb Hwf' Hst Hne Hnb.
  apply wf_cons in Hwf as (Hn & Hlt & Hbe & Hwf). apply Forall_cons in Hge as [Hge1 Hge].
  split_and!; cbn [eb_node eb_highbit].
  - apply wf_cons. unfold below, node_lt in *. rewrite Hst. done.
  - constructor; [lia|done].
  - lia.
  - left. split; [done|]. intros b. unfold ebit. cbn [eb_node]. rewrite !nodes_bit_cons, Hnb.
    case_decide as E; [|done]. subst. destruct v; [done|].
    destruct Hwf as [Hw _ _ _]. by apply (nodes_past ns n); [..|lia].
  - rewrite !nodes_top_cons, Hst. intros Htop Hns. split; [done|].
    apply Forall_cons in Hns as [Hn1 Hns]. constructor; [|done].
    destruct v; [|auto]. exists bit. rewrite Hnb. by rewrite decide_True.
Qed.

(** A node dropped because its last bit was cleared. *)
Lemma set_post_drop prev n n' ns hb bit :
  set_pre (prev_top prev) (n :: ns) hb bit ->
  en_startbit n <= bit < en_startbit n + EBITMAP_SIZE ->
  ~ node_nonempty n' ->
  (forall b', node_bit n' b' = if decide (b' = bit) then false else node_bit n b') ->
  let hb' := match ns, prev with
             | [], Some p => u32 (en_startbit p + EBITMAP_SIZE)
             | [], None => 0
             | _ :: _, _ => hb
             end in
  set_post (prev_top prev) (n :: ns) hb bit false 0 (mk_ebitmap ns hb').
Proof.
  intros [Hwf Hlo Hge Hbit] Hb Hne Hnb hb'.
  apply wf_cons in Hwf as (Hn & Hlt & Hbe & Hwf). apply Forall_cons in Hge as [Hge1 Hge].
  assert (hb' = match ns with [] => prev_top prev | _ :: _ => hb end) as E.
  { subst hb'. destruct ns, prev; try done. cbn [prev_top] in *. apply u32_small.
    destruct Hwf as [_ _ _ Hh]. cbn in Hh. lia. }
  rewrite E. clear hb' E. destruct Hwf as [Hw1 Hw2 Hw3 Hw4]. cbn in *.
  split_and!; cbn [eb_node eb_highbit].
  - constructor; cbn; [done|done|destruct ns; done|destruct ns; lia].
  - done.
  - destruct ns; lia.
  - left. split; [done|]. intros b. unfold ebit. cbn [eb_node]. rewrite nodes_bit_cons.
    case_decide as Eb.
    + subst. by apply (nodes_past ns n); [..|lia].
    + specialize (Hnb b). rewrite decide_False in Hnb by done. rewrite <- Hnb.
      destruct (node_bit n' b) eqn:Enb; [|done]. destruct Hne. by exists b.
  - intros Htop Hns. apply Forall_cons in Hns as [_ Hns]. split; [|done].
    destruct ns as [|x ns]; [done|]. by rewrite Htop, !nodes_top_cons.
Qed.

Lemma set_bit_nodes_spec prev ns hb bit v m :
  set_pre (prev_top prev) ns hb bit ->
  exists rc e' m', ebitmap_set_bit_nodes prev ns hb bit v m = Some (rc, e', m') /\
    set_post (prev_top prev) ns hb bit v rc e'.
Proof.
  revert prev. induction ns as [|n ns IH]; intros prev Hpre.
  { apply add_node_spec; [done|constructor]. }
  pose proof Hpre as [Hwf Hlo Hge Hbit]. pose proof Hwf as Hwf0.
  apply wf_cons in Hwf as (Hn & Hlt & Hbe & Hwf). cbn [ebitmap_set_bit_nodes].
  destruct (en_startbit n <=? bit) eqn:E1; cycle 1.
  { apply add_node_spec; [done|]. constructor; [lia|].
    eapply Forall_impl; [exact Hlt|]. unfold node_lt. intros x Hx. lia. }
  destruct (bit <? en_startbit n + EBITMAP_SIZE) eqn:E2.
  - assert (u32 bit = bit) as -> by (apply u32_small; destruct Hn; eblia).
    destruct v.
    + destruct (node_set_bit_spec n bit Hn) as (n' & -> & Hw' & Hst & Hnb); [lia|]. cbn.
      eexists _, _, _. split; [done|]. apply set_post_here; try done; lia.
    + destruct (node_clr_bit_spec n bit Hn) as (n' & -> & Hw' & Hst & Hnb); [lia|].
      cbn [mbind option_bind].
      pose proof (node_first_bit n' Hw') as Hff.
      destruct (find_first_bit (en_maps n') EBITMAP_SIZE <? EBITMAP_SIZE).
      * eexists _, _, _. split; [done|]. apply set_post_here; try done; [lia|]. intros _. by apply Hff.
      * eexists _, _, _. split; [done|]. eapply set_post_drop; try done; [lia|].
        intros H%Hff. done.
  - destruct (IH (Some n)) as (rc & e' & m' & -> & Hw' & Hge' & Hhb' & Hres & Hcan).
    { constructor; [done| | |done].
      - cbn. unfold below in Hbe. destruct Hn as (_ & _ & Hal & Hn0 & _).
        split_and!; [eblia|lia| |lia].
        rewrite <- Zplus_mod_idemp_l, Hal. done.
      - destruct Hwf as [Hw _ _ _]. cbn in Hw. rewrite !Forall_forall in *. intros x Hx.
        apply aligned_lt; [apply Hn|by apply Hw|]. by apply Hlt. }
    cbn. eexists _, _, _. split; [done|]. cbn [prev_top] in *.
    apply Forall_cons in Hge as [Hge1 Hge].
    assert (Forall (node_lt n) (eb_node e')) as Hlt'.
    { eapply Forall_impl; [exact Hge'|]. unfold node_lt. intros x Hx. eblia. }
    split_and!; cbn [eb_node eb_highbit].
    + apply wf_cons. unfold below. split_and!; [done|done|lia|]. by destruct e'.
    + constructor; [done|]. eapply Forall_impl; [exact Hlt'|]. unfold node_lt. intros x Hx. lia.
    + destruct Hn. eblia.
    + destruct Hres as [[-> Hr]|(-> & -> & ->)]; [left|by right]. split; [done|].
      intros b. unfold ebit in *. cbn [eb_node]. rewrite !nodes_bit_cons, Hr.
      case_decide; [|done]. subst. rewrite node_bit_outside by lia. done.
    + rewrite !nodes_top_cons. intros Htop Hns. apply Forall_cons in Hns as [Hn1 Hns].
      destruct (Hcan Htop Hns). split; [done|by constructor].
Qed.

(** [ebitmap_set_bit] never hits its [BUG_ON]s: it sets or clears exactly the
    requested bit, or fails with [-ENOMEM] and leaves the bitmap alone. *)
Lemma set_bit_spec e bit v m :
  ebitmap_wf e -> 0 <= bit -> bit - bit mod EBITMAP_SIZE + EBITMAP_SIZE < 2 ^ 32 ->
  exists rc e' m', ebitmap_set_bit e bit v m = Some (rc, e', m') /\
    ebitmap_wf e' /\ (ebitmap_canon e -> ebitmap_canon e') /\
    ((rc = 0 /\ forall b, ebit e' b = if decide (b = bit) then v else ebit e b)
     \/ (rc = - ENOMEM /\ v = true /\ e' = e)).
Proof.
  intros Hwf Hb Hbit. destruct e as [ns hb].
  destruct (set_bit_nodes_spec None ns hb bit v m) as (rc & e' & m' & Heq & Hw & _ & _ & Hr & Hc).
  { constructor; [done| | |done].
    - cbn. split_and!; [lia|lia|done|]. destruct Hwf as [_ _ _ Hh]. cbn in Hh. lia.
    - destruct Hwf as [Hw _ _ _]. eapply Forall_impl; [exact Hw|]. intros x (_ & _ & _ & ? & _). done. }
  exists rc, e', m'. split_and!; [done|done| |done].
  intros [_ Hne Htop]. destruct (Hc Htop Hne). by constructor.
Qed.

(** With memory it does not run out. *)
Lemma set_bit_nodes_memory prev ns hb bit v rc e m' :
  ebitmap_set_bit_nodes prev ns hb bit v [] = Some (rc, e, m') -> rc = 0 /\ m' = [].
Proof.
  assert (forall ns hb rc e m', ebitmap_add_node ns hb bit v [] = Some (rc, e, m') -> rc = 0 /\ m' = []) as Hadd.
  { clear. intros ns hb rc e m'. unfold ebitmap_add_node. destruct v; cbn [negb kalloc]; [|by intros [= <- _ <-]].
    intros (n & _ & [= <- _ <-])%bind_Some. done. }
  revert prev rc e m'. induction ns as [|n ns IH]; intros prev rc e m'; cbn [ebitmap_set_bit_nodes]; [by apply Hadd|].
  destruct (en_startbit n <=? bit); [|by apply Hadd]. destruct (bit <? _).
  - destruct v; intros (n' & _ & H)%bind_Some; [by injection H as <- _ <-|]. destruct (_ <? _); by injection H as <- _ <-.
  - intros ([[rc1 e1] m1] & E & [= <- _ <-])%bind_Some. by eapply IH.
Qed.

Lemma set_bit_memory e bit v rc e' m' : ebitmap_set_bit e bit v [] = Some (rc, e', m') -> rc = 0 /\ m' = [].
Proof. apply set_bit_nodes_memory. Qed.

(** *** Comparison, inclusion, copy *)

Lemma cmp_nodes_eq n1 n2 : ebitmap_cmp_nodes n1 n2 = true <-> n1 = n2.
Proof.
  revert n2. induction n1 as [|[m1 s1] n1 IH]; intros [|[m2 s2] n2]; try (cbn; done).
  cbn [ebitmap_cmp_nodes en_startbit en_maps].
  destruct ((s1 =? s2) && bool_decide (m1 = m2)) eqn:E.
  - apply andb_prop in E as [->%Z.eqb_eq ->%bool_decide_eq_true]. rewrite IH.
    split; [by intros ->|by intros [= ->]].
  - split; [done|]. intros [= -> -> ->].
    rewrite Z.eqb_refl, bool_decide_true in E by done. done.
Qed.

Lemma ebitmap_cmp_eq e1 e2 : ebitmap_cmp e1 e2 = true <-> e1 = e2.
Proof.
  destruct e1 as [n1 h1], e2 as [n2 h2]. unfold ebitmap_cmp. cbn.
  destruct (h1 =? h2) eqn:E; cbn.
  - rewrite cmp_nodes_eq. apply Z.eqb_eq in E as ->. split; [by intros ->|by intros [= ->]].
  - split; [done|]. intros [= -> ->]. lia.
Qed.

Lemma node_bit_word n k : 0 <= k < EBITMAP_SIZE -> node_bit n (en_startbit n + k) = word_bit (en_maps n) k.
Proof.
  intros Hk. unfold node_bit. rewrite (proj2 (Z.leb_le _ _)), (proj2 (Z.ltb_lt _ _)) by lia.
  cbn. f_equal. lia.
Qed.

Lemma words_ext (m1 m2 : list Z) :
  length m1 = length m2 -> Forall (in_u 64) m1 -> Forall (in_u 64) m2 ->
  (forall k, 0 <= k < 64 * Z.of_nat (length m1) -> word_bit m1 k = word_bit m2 k) -> m1 = m2.
Proof.
  intros Hlen H1. revert m2 Hlen. induction H1 as [|w m1 Hw H1 IH]; intros [|w2 m2] Hlen H2 Hb; try done.
  inv H2 as [|? ? Hw2 H2']. cbn [length] in *. f_equal.
  - bitwise i Hi. destruct (decide (i < 64)).
    + specialize (Hb i ltac:(lia)). by rewrite !word_bit_cons_low in Hb by lia.
    + rewrite !(testbit_high 64) by (lia || apply Hw || apply Hw2). done.
  - apply IH; [lia|done|]. intros k Hk. specialize (Hb (k + 64) ltac:(lia)).
    rewrite !word_bit_cons_high in Hb by lia. by replace (k + 64 - 64) with k in Hb by lia.
Qed.

Lemma node_ext n1 n2 :
  node_wf n1 -> node_wf n2 -> en_startbit n1 = en_startbit n2 ->
  (forall b, node_bit n1 b = node_bit n2 b) -> n1 = n2.
Proof.
  intros (Hl1 & Hm1 & _) (Hl2 & Hm2 & _) Hs Hb.
  destruct n1 as [m1 s1], n2 as [m2 s2]. cbn in *. subst s2. f_equal.
  apply words_ext; [lia|done|done|]. intros k Hk.
  specialize (Hb (s1 + k)). rewrite Hl1 in Hk.
  rewrite !(node_bit_word (mk_ebitmap_node _ s1)) in Hb by eblia. done.
Qed.

(** Bits of the first node of a list, and of the rest. *)
Lemma nodes_bit_head n ns b :
  node_wf n -> Forall node_wf ns -> Forall (node_lt n) ns ->
  b < en_startbit n + EBITMAP_SIZE -> nodes_bit (n :: ns) b = node_bit n b.
Proof.
  intros Hn Hns Hlt Hb. rewrite nodes_bit_cons, (nodes_past ns n) by done. apply orb_false_r.
Qed.

Lemma nodes_bit_tail n ns b :
  en_startbit n + EBITMAP_SIZE <= b -> nodes_bit (n :: ns) b = nodes_bit ns b.
Proof. intros Hb. rewrite nodes_bit_cons, node_bit_outside by lia. done. Qed.

Lemma nodes_bit_before n ns b :
  node_wf n -> Forall node_wf ns -> Forall (node_lt n) ns ->
  b < en_startbit n -> nodes_bit (n :: ns) b = false.
Proof.
  intros Hn Hns Hlt Hb. rewrite nodes_bit_head by (done || eblia). apply node_bit_outside. lia.
Qed.

Lemma nodes_subset_head n1 ns1 n2 ns2 :
  node_wf n1 -> Forall node_wf ns1 -> Forall (node_lt n1) ns1 ->
  node_wf n2 -> Forall node_wf ns2 -> Forall (node_lt n2) ns2 -> node_nonempty n2 ->
  (forall b, nodes_bit (n2 :: ns2) b = true -> nodes_bit (n1 :: ns1) b = true) ->
  en_startbit n1 <= en_startbit n2.
Proof.
  intros Hn1 Hns1 Hlt1 Hn2 Hns2 Hlt2 [b Hb] Hsub.
  pose proof (node_bit_range _ _ Hb) as Hr.
  destruct (decide (en_startbit n1 <= en_startbit n2)); [done|exfalso].
  assert (en_startbit n2 + EBITMAP_SIZE <= en_startbit n1).
  { apply aligned_lt; [apply Hn2|apply Hn1|lia]. }
  assert (nodes_bit (n1 :: ns1) b = true) as H1.
  { apply Hsub. by rewrite nodes_bit_head by (done || lia). }
  rewrite nodes_bit_before in H1 by (done || lia). done.
Qed.

Lemma canon_nodes_ext ns1 ns2 :
  Forall node_wf ns1 -> Forall node_wf ns2 ->
  StronglySorted node_lt ns1 -> StronglySorted node_lt ns2 ->
  Forall node_nonempty ns1 -> Forall node_nonempty ns2 ->
  (forall b, nodes_bit ns1 b = nodes_bit ns2 b) -> ns1 = ns2.
Proof.
  intros Hw1 Hw2 Hs1. revert ns2 Hw2. induction Hs1 as [|n1 ns1 Hs1 IH Hlt1].
  { intros [|n2 ns2] Hw2 _ _ Hne Hb; [done|].
    apply Forall_cons in Hne as [[b Hne] _]. specialize (Hb b).
    by rewrite nodes_bit_cons, Hne in Hb. }
  apply Forall_cons in Hw1 as [Hn1 Hw1].
  intros [|n2 ns2] Hw2 Hs2 Hne1 Hne2 Hb; apply Forall_cons in Hne1 as [Hne1 Hne1'].
  { destruct Hne1 as [b Hne]. specialize (Hb b). by rewrite nodes_bit_cons, Hne in Hb. }
  apply Forall_cons in Hw2 as [Hn2 Hw2], Hne2 as [Hne2 Hne2'].
  apply StronglySorted_inv in Hs2 as [Hs2 Hlt2].
  assert (en_startbit n1 = en_startbit n2) as Hst.
  { assert (en_startbit n1 <= en_startbit n2).
    { eapply (nodes_subset_head n1 ns1 n2 ns2); eauto; intros b; by rewrite Hb. }
    assert (en_startbit n2 <= en_startbit n1); [|lia].
    eapply (nodes_subset_head n2 ns2 n1 ns1); eauto; intros b; by rewrite Hb. }
  f_equal.
  - apply node_ext; try done. intros b. specialize (Hb b).
    destruct (decide (b < en_startbit n1 + EBITMAP_SIZE)).
    + rewrite !nodes_bit_head in Hb by (done || lia). done.
    + rewrite !node_bit_outside by lia. done.
  - apply IH; try done. intros b. specialize (Hb b).
    destruct (decide (en_startbit n1 + EBITMAP_SIZE <= b)).
    + rewrite !nodes_bit_tail in Hb by lia. done.
    + rewrite (nodes_past ns1 n1), (nodes_past ns2 n2) by (done || lia). done.
Qed.

(** Canonical bitmaps with the same bits are the same bitmap. *)
Lemma canon_ext e1 e2 :
  ebitmap_canon e1 -> ebitmap_canon e2 -> (forall b, ebit e1 b = ebit e2 b) -> e1 = e2.
Proof.
  intros [[Hw1 Hs1 _ _] Hne1 Ht1] [[Hw2 Hs2 _ _] Hne2 Ht2] Hb.
  destruct e1 as [ns1 h1], e2 as [ns2 h2]. cbn in *.
  assert (ns1 = ns2) as -> by (apply canon_nodes_ext; done). congruence.
Qed.

Lemma land_eq_subset a b :
  a .& b = b <-> forall i, 0 <= i -> Z.testbit b i = true -> Z.testbit a i = true.
Proof.
  split.
  - intros E i Hi Hb. rewrite <- E, Z.land_spec in Hb. by apply andb_prop in Hb as [? _].
  - intros H. bitwise i Hi. specialize (H i Hi). destruct (Z.testbit b i); [|apply andb_false_r].
    by rewrite H.
Qed.

Lemma maps_contain_spec (m1 m2 : list Z) :
  length m1 = length m2 -> Forall (in_u 64) m2 ->
  maps_contain m1 m2 = true <->
  forall k, 0 <= k < 64 * Z.of_nat (length m2) -> word_bit m2 k = true -> word_bit m1 k = true.
Proof.
  revert m1. induction m2 as [|w2 m2 IH]; intros [|w1 m1] Hlen Hu; try discriminate Hlen.
  { split; [|done]. intros _ k Hk. cbn [length] in Hk. lia. }
  apply Forall_cons in Hu as [Hw Hu]. cbn [length] in *.
  unfold maps_contain in *. cbn [combine forallb].
  rewrite andb_true_iff, IH by (done || lia). rewrite Z.eqb_eq, land_eq_subset. split.
  - intros [H1 H2] k Hk. destruct (decide (k < 64)).
    + rewrite !word_bit_cons_low by lia. apply H1. lia.
    + rewrite !word_bit_cons_high by lia. apply H2. lia.
  - intros H. split.
    + intros i Hi Hb. destruct (decide (i < 64)).
      * specialize (H i ltac:(lia)). by rewrite !word_bit_cons_low in H by lia; auto.
      * by rewrite (testbit_high 64) in Hb by (lia || apply Hw).
    + intros k Hk Hb. specialize (H (k + 64) ltac:(lia)).
      rewrite !word_bit_cons_high in H by lia. replace (k + 64 - 64) with k in H by lia. auto.
Qed.

Lemma node_contain_spec a b :
  node_wf a -> node_wf b -> en_startbit a = en_startbit b ->
  maps_contain (en_maps a) (en_maps b) = true <->
  forall x, node_bit b x = true -> node_bit a x = true.
Proof.
  intros (Hl1 & Hm1 & _) (Hl2 & Hm2 & _) Hs.
  rewrite maps_contain_spec by (done || congruence). rewrite Hl2. split.
  - intros H x Hx. pose proof (node_bit_range _ _ Hx) as Hr.
    replace x with (en_startbit a + (x - en_startbit a)) by lia.
    rewrite node_bit_word by lia. apply H; [eblia|].
    rewrite <- node_bit_word by lia. rewrite <- Hx. f_equal. lia.
  - intros H k Hk Hb. rewrite <- (node_bit_word a) by eblia. rewrite Hs. apply H.
    by rewrite node_bit_word by eblia.
Qed.

Lemma contains_nodes_spec ns1 ns2 :
  Forall node_wf ns1 -> Forall node_wf ns2 ->
  StronglySorted node_lt ns1 -> StronglySorted node_lt ns2 -> Forall node_nonempty ns2 ->
  ebitmap_contains_nodes ns1 ns2 = true <->
  (forall b, nodes_bit ns2 b = true -> nodes_bit ns1 b = true).
Proof.
  intros Hw1 Hw2 Hs1. revert ns2 Hw2. induction Hs1 as [|n1 ns1 Hs1 IH Hlt1];
    intros [|n2 ns2] Hw2 Hs2 Hne; try done.
  { cbn [ebitmap_contains_nodes]. split; [done|]. intros H.
    apply Forall_cons in Hne as [[b Hb] _]. specialize (H b).
    rewrite nodes_bit_cons, Hb in H. by discriminate H. }
  apply Forall_cons in Hw1 as [Hn1 Hw1]. specialize (IH Hw1).
  pose proof Hw2 as Hw2'. apply Forall_cons in Hw2' as [Hn2 Hns2].
  pose proof Hs2 as Hs2'. apply StronglySorted_inv in Hs2' as [Hss2 Hlt2].
  pose proof Hne as Hne'. apply Forall_cons in Hne' as [Hne2 Hnes2].
  cbn [ebitmap_contains_nodes].
  destruct (en_startbit n1 <=? en_startbit n2) eqn:E1; cycle 1.
  { split; [done|]. intros H.
    enough (en_startbit n1 <= en_startbit n2) by lia.
    by apply (nodes_subset_head n1 ns1 n2 ns2). }
  destruct (en_startbit n1 <? en_startbit n2) eqn:E2.
  - rewrite IH by done.
    assert (en_startbit n1 + EBITMAP_SIZE <= en_startbit n2) as Hal.
    { apply aligned_lt; [apply Hn1|apply Hn2|lia]. }
    assert (forall b, nodes_bit (n2 :: ns2) b = true -> nodes_bit (n1 :: ns1) b = nodes_bit ns1 b) as Heq.
    { intros b Hb. destruct (decide (en_startbit n2 <= b)); [by apply nodes_bit_tail; lia|].
      rewrite nodes_bit_before in Hb by (done || lia). done. }
    split; intros H b Hb; specialize (H b Hb); [by rewrite Heq|by rewrite Heq in H].
  - assert (en_startbit n1 = en_startbit n2) as Hst by lia.
    destruct (maps_contain (en_maps n1) (en_maps n2)) eqn:Em.
    + pose proof (proj1 (node_contain_spec n1 n2 Hn1 Hn2 Hst) Em) as Hc.
      rewrite IH by done. split; intros H b Hb.
      * rewrite nodes_bit_cons in *. apply orb_true_iff in Hb as [Hb|Hb];
          [by rewrite Hc|by rewrite H, orb_true_r].
      * destruct (decide (en_startbit n2 + EBITMAP_SIZE <= b)).
        -- rewrite <- (nodes_bit_tail n1) by lia. apply H. by rewrite nodes_bit_tail by lia.
        -- rewrite (nodes_past ns2 n2) in Hb by (done || lia). done.
    + split; [done|]. intros H. assert (maps_contain (en_maps n1) (en_maps n2) = true); [|congruence].
      apply node_contain_spec; try done. intros x Hx. pose proof (node_bit_range _ _ Hx).
      specialize (H x). rewrite !nodes_bit_head in H by (done || lia). auto.
Qed.

Lemma nodes_bit_top ns lo b :
  Forall node_wf ns -> StronglySorted node_lt ns -> nodes_bit ns b = true -> b < nodes_top lo ns.
Proof.
  intros Hw Hs. revert lo. induction Hs as [|n ns Hs IH Hlt]; intros lo Hb; [done|].
  apply Forall_cons in Hw as [Hn Hw]. rewrite nodes_top_cons.
  destruct ns as [|x ns].
  { cbn. rewrite nodes_bit_cons in Hb. cbn in Hb. rewrite orb_false_r in Hb.
    apply node_bit_range in Hb. lia. }
  destruct (nodes_bit (x :: ns) b) eqn:E; [by apply IH|].
  rewrite nodes_bit_cons, E, orb_false_r in Hb. apply node_bit_range in Hb.
  apply Forall_cons in Hlt as [Hx _]. apply Forall_cons in Hw as [Hxw Hw].
  rewrite nodes_top_cons. clear IH.
  assert (en_startbit x + EBITMAP_SIZE <= nodes_top (en_startbit x + EBITMAP_SIZE) ns); [|eblia].
  apply StronglySorted_inv in Hs as [_ Hlt]. unfold nodes_top.
  destruct (last ns) as [z|] eqn:El; [|lia]. apply last_Some_elem_of in El.
  rewrite Forall_forall in Hlt. specialize (Hlt z El). eblia.
Qed.

Lemma canon_highbit_mono e1 e2 :
  ebitmap_canon e1 -> ebitmap_canon e2 -> (forall b, ebit e2 b = true -> ebit e1 b = true) ->
  eb_highbit e2 <= eb_highbit e1.
Proof.
  intros [[Hw1 Hs1 Hb1 Hh1] Hne1 Ht1] [[Hw2 Hs2 _ _] Hne2 Ht2] Hsub.
  rewrite Ht2. unfold nodes_top at 1. destruct (last (eb_node e2)) as [n|] eqn:El; [|lia].
  apply last_Some_elem_of in El. rewrite Forall_forall in Hw2, Hne2.
  destruct (Hne2 n El) as [b Hb]. pose proof (node_bit_range _ _ Hb) as Hr.
  assert (ebit e1 b = true) as H1 by (apply Hsub, nodes_bit_true; eauto).
  apply nodes_bit_true in H1 as (x & Hx & Hxb). pose proof (node_bit_range _ _ Hxb) as Hrx.
  rewrite Forall_forall in Hw1. destruct (Hw1 x Hx) as (_ & _ & Hal & _), (Hw2 n El) as (_ & _ & Hal2 & _).
  assert (en_startbit x = en_startbit n).
  { destruct (Z.lt_trichotomy (en_startbit x) (en_startbit n)) as [H|[H|H]]; [|done|];
      apply aligned_lt in H; try done; lia. }
  assert (below (eb_highbit e1) x); [|eblia].
  rewrite Forall_forall in Hb1. by apply Hb1.
Qed.

Lemma contains_spec e1 e2 :
  ebitmap_canon e1 -> ebitmap_canon e2 ->
  ebitmap_contains e1 e2 = true <-> forall b, ebit e2 b = true -> ebit e1 b = true.
Proof.
  intros Hc1 Hc2. pose proof Hc1 as [[Hw1 Hs1 _ _] _ _]. pose proof Hc2 as [[Hw2 Hs2 _ _] Hne2 _].
  unfold ebitmap_contains. destruct (eb_highbit e1 <? eb_highbit e2) eqn:E.
  - split; [done|]. intros H. apply canon_highbit_mono in H; [lia|done|done].
  - by apply contains_nodes_spec.
Qed.

Lemma cpy_nodes_spec ns m :
  (exists m', ebitmap_cpy_nodes ns m = (Some ns, m')) \/ (exists m', ebitmap_cpy_nodes ns m = (None, m')).
Proof.
  revert m. induction ns as [|[w s] ns IH]; intros m; [left; by eexists|].
  cbn. destruct (kalloc m) as [[] m1]; [|by right; eexists].
  destruct (IH m1) as [[m2 ->]|[m2 ->]]; [left|right]; by eexists.
Qed.

(** A copy is equal to its source; when memory runs out the target is empty. *)
Lemma ebitmap_cpy_spec src m :
  (exists m', ebitmap_cpy src m = (0, src, m')) \/
  (exists m', ebitmap_cpy src m = (- ENOMEM, ebitmap_init, m')).
Proof.
  unfold ebitmap_cpy. destruct src as [ns hb]. cbn [eb_node eb_highbit].
  destruct (cpy_nodes_spec ns m) as [[m' ->]|[m' ->]]; [left|right]; by eexists.
Qed.

Lemma cpy_nodes_nomem ns : ebitmap_cpy_nodes ns [] = (Some ns, []).
Proof. induction ns as [|[w s] ns IH]; [done|]. cbn. by rewrite IH. Qed.

(** With memory available a copy succeeds. *)
Lemma ebitmap_cpy_ok src : ebitmap_cpy src [] = (0, src, []).
Proof. unfold ebitmap_cpy. rewrite cpy_nodes_nomem. by destruct src. Qed.

Lemma ebitmap_init_canon : ebitmap_canon ebitmap_init.
Proof. split; [split|..]; cbn; try done; constructor. Qed.

Lemma ebit_init b : ebit ebitmap_init b = false.
Proof. done. Qed.

(** *** Iteration *)

(** [r] is the first set bit of [ns] at or after [lo], with its cursor. *)
Definition at_first (len lo : Z) (ns : list ebitmap_node) (r : Z * list ebitmap_node) : Prop :=
  (r = (len, []) /\ forall b, lo <= b -> nodes_bit ns b = false) \/
  (exists pre n ns', ns = pre ++ n :: ns' /\ r.2 = n :: ns' /\ node_bit n r.1 = true /\ lo <= r.1 /\
     forall b, lo <= b -> nodes_bit ns b = bool_decide (r.1 <= b) && nodes_bit (n :: ns') b).

Lemma scan_spec len lo ns :
  Forall node_wf ns -> StronglySorted node_lt ns -> Forall (fun n => lo <= en_startbit n) ns ->
  at_first len lo ns (ebitmap_scan len ns).
Proof.
  intros Hw Hs. induction Hs as [|n ns Hs IH Hlt]; intros Hlo; [by left|].
  apply Forall_cons in Hw as [Hn Hw], Hlo as [Hlo1 Hlo]. cbn [ebitmap_scan].
  pose proof Hn as (Hl & Hm & Hal & Hst0 & Hst1).
  destruct (find_first_bit_spec (en_maps n) EBITMAP_SIZE Hm) as (Hr & Hz & Hb).
  { rewrite Hl. done. }
  set (ofs := find_first_bit _ _) in *.
  destruct (ofs <? EBITMAP_SIZE) eqn:E.
  - rewrite u32_small by eblia. right. exists [], n, ns. cbn [fst snd].
    split_and!; [done|done| |lia|].
    + rewrite node_bit_word by lia. apply Hb. lia.
    + intros b Hlob. case_bool_decide as Eb; [done|]. rewrite andb_false_l.
      destruct (decide (en_startbit n <= b)).
      * rewrite nodes_bit_head by (done || lia).
        replace b with (en_startbit n + (b - en_startbit n)) by lia.
        rewrite node_bit_word by lia. apply Hz. lia.
      * by apply nodes_bit_before; try done; lia.
  - assert (forall b, node_bit n b = false) as Hnone.
    { intros b. destruct (node_bit n b) eqn:Eb; [|done].
      assert (node_nonempty n) as Hne by by exists b.
      apply node_first_bit in Hne; [|done]. unfold ofs in E. congruence. }
    destruct (IH Hw Hlo) as [[-> Hz']|(pre & x & ns' & -> & Hx & Hxb & Hxlo & Hall)].
    + left. split; [done|]. intros b Hb'. rewrite nodes_bit_cons, Hnone. by apply Hz'.
    + right. exists (n :: pre), x, ns'. split_and!; try done.
      intros b Hb'. rewrite nodes_bit_cons, Hnone. by apply Hall.
Qed.

Lemma next_spec e n ns bit :
  Forall node_wf (n :: ns) -> StronglySorted node_lt (n :: ns) -> node_bit n bit = true ->
  at_first (ebitmap_length e) (bit + 1) (n :: ns) (ebitmap_next_positive e (n :: ns) bit).
Proof.
  intros Hw Hs Hbit. apply Forall_cons in Hw as [Hn Hw]. apply StronglySorted_inv in Hs as [Hs Hlt].
  pose proof (node_bit_range _ _ Hbit) as Hbr. pose proof Hn as (Hl & Hm & Hal & Hst0 & Hst1).
  cbn [ebitmap_next_positive]. rewrite u32_small by eblia.
  set (o := bit - en_startbit n + 1). set (ofs := find_next_bit _ _ _).
  assert (first_bit (word_bit (en_maps n)) o EBITMAP_SIZE ofs) as (Hr & Hz & Hb).
  { destruct (decide (o < EBITMAP_SIZE)).
    - apply find_next_bit_spec; [done|lia|]. rewrite Hl. done.
    - assert (ofs = EBITMAP_SIZE) as ->.
      { unfold ofs, find_next_bit. rewrite (proj2 (Z.leb_le _ _)) by lia. done. }
      split_and!; lia. }
  destruct (ofs <? EBITMAP_SIZE) eqn:E.
  - rewrite u32_small by eblia. right. exists [], n, ns. cbn [fst snd].
    split_and!; [done|done| |lia|].
    + rewrite Z.add_comm, node_bit_word by lia. apply Hb. lia.
    + intros b Hlob. case_bool_decide as Eb; [done|]. rewrite andb_false_l.
      rewrite nodes_bit_head by (done || lia).
      replace b with (en_startbit n + (b - en_startbit n)) by lia.
      rewrite node_bit_word by lia. apply Hz. lia.
  - assert (forall b, bit + 1 <= b -> nodes_bit (n :: ns) b = nodes_bit ns b) as Htl.
    { intros b Hb1. rewrite nodes_bit_cons.
      destruct (decide (b < en_startbit n + EBITMAP_SIZE)); [|by rewrite node_bit_outside by lia].
      replace b with (en_startbit n + (b - en_startbit n)) at 1 by lia.
      rewrite node_bit_word, Hz by lia. done. }
    destruct (scan_spec (ebitmap_length e) (bit + 1) ns) as [[-> Hz']|(pre & x & ns' & -> & Hx & Hxb & Hxlo & Hall)];
      [done|done| | |].
    + rewrite !Forall_forall in *. intros x Hx. assert (en_startbit n + EBITMAP_SIZE <= en_startbit x); [|lia].
      apply aligned_lt; [done|by apply Hw|]. by apply Hlt.
    + left. split; [done|]. intros b Hb'. rewrite Htl by done. by apply Hz'.
    + right. exists (n :: pre), x, ns'. split_and!; try done.
      intros b Hb'. rewrite Htl by done. by apply Hall.
Qed.

Lemma for_each_spec fuel e lo ns cur :
  ebitmap_wf e -> (exists pre, eb_node e = pre ++ ns) ->
  at_first (ebitmap_length e) lo ns cur ->
  (match cur.2 with [] => 0 | n :: ns' => en_startbit n + EBITMAP_SIZE - cur.1 + 128 * Z.of_nat (length ns') end
   < Z.of_nat fuel) ->
  StronglySorted Z.lt (ebitmap_for_each fuel e cur) /\
  forall b, b ∈ ebitmap_for_each fuel e cur <-> lo <= b /\ nodes_bit ns b = true.
Proof.
  intros Hwf. revert lo ns cur. induction fuel as [|fuel IH]; intros lo ns cur [pre0 Hpre] Hat Hf.
  { destruct cur as [bit [|n ns']]; cbn in Hf; [lia|].
    destruct Hat as [[[= ] _]|(pre & x & ns'' & -> & [= -> ->] & Hxb & _)].
    cbn in Hxb. apply node_bit_range in Hxb. lia. }
  cbn [ebitmap_for_each].
  destruct Hat as [[-> Hz]|(pre & n & ns' & -> & Hns' & Hnb & Hlo & Hall)].
  { rewrite Z.ltb_irrefl. split; [constructor|]. intros b. split; [by intros ?%not_elem_of_nil|].
    intros [Hb Hnb]. by rewrite Hz in Hnb. }
  destruct cur as [bit cns]. cbn [fst snd] in *. subst cns.
  assert (n ∈ eb_node e) as Hin.
  { rewrite Hpre, !elem_of_app. right. right. left. }
  pose proof Hwf as [Hw Hs Hbe Hh]. rewrite Hpre in Hw, Hs.
  apply Forall_app in Hw as [_ Hw]. apply Forall_app in Hw as [_ Hw].
  apply StronglySorted_app in Hs as (_ & _ & Hs). apply StronglySorted_app in Hs as (_ & _ & Hs).
  pose proof (node_bit_range _ _ Hnb) as Hbr.
  rewrite Forall_forall in Hbe. specialize (Hbe n Hin).
  rewrite (proj2 (Z.ltb_lt bit (ebitmap_length e))) by (unfold ebitmap_length; eblia).
  pose proof (next_spec e n ns' bit Hw Hs Hnb) as Hnext.
  destruct (IH (bit + 1) (n :: ns') _ ltac:(exists (pre0 ++ pre); by rewrite Hpre, <- app_assoc) Hnext)
    as [Hsort Hmem].
  { destruct Hnext as [[-> _]|(pre2 & x & ns2 & Heq & Hx & Hxb & Hxlo & _)]; [cbn; eblia|].
    rewrite Hx. set (nb := (ebitmap_next_positive e (n :: ns') bit).1) in *. clearbody nb.
    pose proof (node_bit_range _ _ Hxb).
    destruct pre2 as [|y pre2]; injection Heq; intros; subst; [eblia|].
    rewrite length_app, length_cons in Hf. cbn [length] in *. eblia. }
  split.
  - constructor; [done|]. apply Forall_forall. intros b Hb. apply Hmem in Hb. lia.
  - intros b. rewrite elem_of_cons, Hmem. split.
    + intros [->|[Hb Hnb']].
      * split; [done|]. rewrite Hall by lia. rewrite bool_decide_true by lia. cbn.
        by rewrite Hnb.
      * split; [lia|]. rewrite Hall by lia. rewrite bool_decide_true by lia. done.
    + intros [Hb Hnb']. rewrite Hall in Hnb' by done. apply andb_prop in Hnb' as [Hle Hnb'].
      apply bool_decide_eq_true in Hle. destruct (decide (b = bit)); [by left|right].
      split; [lia|done].
Qed.

(** [ebitmap_for_each_positive_bit] visits the set bits, each once, in
    increasing order. *)
Lemma bits_spec e :
  ebitmap_wf e ->
  StronglySorted Z.lt (ebitmap_bits e) /\ forall b, b ∈ ebitmap_bits e <-> ebit e b = true.
Proof.
  intros Hwf. pose proof Hwf as [Hw Hs Hbe Hh].
  assert (Forall (fun n => 0 <= en_startbit n) (eb_node e)) as Hpos.
  { eapply Forall_impl; [exact Hw|]. intros n (_ & _ & _ & ? & _). done. }
  pose proof (scan_spec (ebitmap_length e) 0 (eb_node e) Hw Hs Hpos) as Hat.
  destruct (for_each_spec (S (Z.to_nat EBITMAP_SIZE * length (eb_node e))) e 0 (eb_node e)
                          (ebitmap_start_positive e) Hwf) as [Hsort Hmem].
  { by exists []. }
  { done. }
  { unfold ebitmap_start_positive.
    destruct Hat as [[-> _]|(pre & n & ns' & Heq & Hx & Hxb & Hxlo & _)]; [cbn; lia|].
    rewrite Hx. apply node_bit_range in Hxb.
    assert (length (eb_node e) = length pre + S (length ns'))%nat as -> by by rewrite Heq, length_app.
    change (Z.to_nat EBITMAP_SIZE) with 128%nat. eblia. }
  split; [done|]. intros b. unfold ebitmap_bits. rewrite Hmem. unfold ebit. split; [by intros [_ ?]|].
  intros Hb. split; [|done]. apply nodes_bit_true in Hb as (n & Hn & Hnb).
  apply node_bit_range in Hnb. rewrite Forall_forall in Hpos. specialize (Hpos n Hn). lia.
Qed.

(** ** Properties *)

Lemma ebit_range e b : ebitmap_wf e -> ebit e b = true -> 0 <= b < 2 ^ 32.
Proof.
  intros [Hw _ _ _] Hb. apply nodes_bit_true in Hb as (n & Hn & Hb%node_bit_range).
  rewrite Forall_forall in Hw. destruct (Hw n Hn) as (_ & _ & _ & ? & ?). lia.
Qed.

(** [ebitmap_set_bit] keeps bitmaps in their canonical form, and after it
    [ebitmap_get_bit] reads the new value at the bit and the old value at
    every other; without memory for a node the bitmap is unchanged. *)
Theorem ebitmap_set_get e bit v m :
  ebitmap_canon e -> 0 <= bit -> bit - bit mod EBITMAP_SIZE + EBITMAP_SIZE < 2 ^ 32 ->
  exists rc e' m', ebitmap_set_bit e bit v m = Some (rc, e', m') /\ ebitmap_canon e' /\
    ((rc = 0 /\ forall b, 0 <= b < 2 ^ 32 ->
        ebitmap_get_bit e' b = if decide (b = bit) then Some v else ebitmap_get_bit e b)
     \/ (rc = - ENOMEM /\ v = true /\ e' = e)).
Proof.
  intros Hc H0 Hbit. destruct (set_bit_spec e bit v m (canon_wf _ Hc) H0 Hbit) as (rc & e' & m' & Heq & Hw & Hcan & Hr).
  exists rc, e', m'. split; [done|]. split; [by apply Hcan|]. destruct Hr as [[-> Hbits]|?]; [left|by right].
  split; [done|]. intros b Hb. rewrite !get_bit_spec by (done || by apply canon_wf). rewrite Hbits. by case_decide.
Qed.

(** Bits 128 and 130. *)
Definition two_bits : ebitmap := mk_ebitmap [mk_ebitmap_node [5; 0] 128] 256.

Lemma two_bits_canon : ebitmap_canon two_bits.
Proof.
  split; [split|..].
  - apply Forall_singleton. split; [done|].
    split; [apply Forall_cons; split; [|apply Forall_singleton]; unfold in_u; lia|]. split; [done|]. rewrite EBITMAP_SIZE_val. cbn. lia.
  - repeat constructor.
  - apply Forall_singleton. unfold below. rewrite EBITMAP_SIZE_val. cbn. lia.
  - cbn. lia.
  - apply Forall_singleton. by exists 128.
  - done.
Qed.

Lemma ebitmap_set_get_witness :
  exists e' m', ebitmap_set_bit two_bits 130 false [] = Some (0, e', m') /\ ebitmap_get_bit e' 130 = Some false.
Proof.
  destruct (ebitmap_set_get two_bits 130 false [] two_bits_canon) as (rc & e' & m' & H & _ & [[-> Hb]|(_ & [=] & _)]);
    [lia|vm_compute; reflexivity|].
  exists e', m'. split; [exact H|]. rewrite Hb by lia. reflexivity.
Defined.

(** C40: on canonical bitmaps [ebitmap_cmp] decides equality of the sets of bits
    and [ebitmap_contains] inclusion, although both compare nodes. *)
Theorem ebitmap_compares_sets e1 e2 :
  ebitmap_canon e1 -> ebitmap_canon e2 ->
  (ebitmap_cmp e1 e2 = true <-> forall b, 0 <= b < 2 ^ 32 -> ebitmap_get_bit e1 b = ebitmap_get_bit e2 b) /\
  (ebitmap_contains e1 e2 = true <->
     forall b, 0 <= b < 2 ^ 32 -> ebitmap_get_bit e2 b = Some true -> ebitmap_get_bit e1 b = Some true).
Proof.
  intros H1 H2. pose proof (canon_wf _ H1) as W1. pose proof (canon_wf _ H2) as W2. split.
  - rewrite ebitmap_cmp_eq. split; [by intros ->|]. intros H. apply canon_ext; [done|done|]. intros b.
    apply eq_true_iff_eq. split; intros Hb.
    + pose proof (ebit_range _ _ W1 Hb) as Hr. specialize (H b Hr). rewrite !get_bit_spec in H by done. congruence.
    + pose proof (ebit_range _ _ W2 Hb) as Hr. specialize (H b Hr). rewrite !get_bit_spec in H by done. congruence.
  - rewrite contains_spec by done. split.
    + intros H b Hb. rewrite !get_bit_spec by done. intros [= Hb2]. by rewrite H.
    + intros H b Hb. pose proof (ebit_range _ _ W2 Hb) as Hr. specialize (H b Hr). rewrite !get_bit_spec in H by done.
      rewrite Hb in H. by injection (H eq_refl).
Qed.

Lemma ebitmap_compares_sets_witness :
  ebitmap_contains two_bits ebitmap_init = true /\
  (ebitmap_contains two_bits ebitmap_init = true <->
     forall b, 0 <= b < 2 ^ 32 -> ebitmap_get_bit ebitmap_init b = Some true -> ebitmap_get_bit two_bits b = Some true).
Proof.
  split; [reflexivity|]. apply (ebitmap_compares_sets two_bits ebitmap_init two_bits_canon ebitmap_init_canon).
Defined.

(** [ebitmap_for_each_positive_bit] visits exactly the bits that are set,
    each once and in increasing order, and ends. *)
Theorem ebitmap_iterates e :
  ebitmap_wf e ->
  StronglySorted Z.lt (ebitmap_bits e) /\
  forall b, b ∈ ebitmap_bits e <-> 0 <= b < 2 ^ 32 /\ ebitmap_get_bit e b = Some true.
Proof.
  intros Hw. destruct (bits_spec e Hw) as [Hs Hb]. split; [done|]. intros b. rewrite Hb. split.
  - intros H. pose proof (ebit_range _ _ Hw H). rewrite get_bit_spec by done. split; [done|congruence].
  - intros [Hr H]. rewrite get_bit_spec in H by done. congruence.
Qed.

Lemma ebitmap_iterates_witness :
  ebitmap_bits two_bits = [128; 130] /\ StronglySorted Z.lt (ebitmap_bits two_bits).
Proof. split; [vm_compute; reflexivity|]. apply (ebitmap_iterates two_bits (canon_wf _ two_bits_canon)). Defined.
