(* ===== verification/Hashtab.v ===== *)
(** * Hash tables and symbol tables (security/selinux/ss/hashtab.c, symtab.c)

    A table is an array of chains; a chain is a list kept sorted by the
    comparison function the creator of the table supplies.  The two function
    pointers of [struct hashtab] are fields here too (the hash function is
    given [h->size], the only part of the table the hash functions of the
    security server look at).

    [table_ops] is the interface between the generic table and its users: the
    laws the two functions have to obey.  Everything about the table is proved
    against it; symbol tables discharge it.
    The refinement section shows that a table implements a finite map. *)

From Stdlib Require Import Ascii String.
From S2P Require Import Prelude.

(** ** Data *)

Definition HASHTAB_MAX_NODES : Z := 0xffffffff.

Section Data.
  Context {K D : Type}.

Record hashtab := mk_hashtab {
  ht_htable : list (list (K * D));
  ht_size : Z;
  ht_nel : Z;
  ht_hash_value : Z -> K -> Z;
  ht_keycmp : K -> K -> Z
}.

Record hashtab_info := mk_hashtab_info {
  hi_slots_used : Z;
  hi_max_chain_len : Z
}.

(** ** Operations

    A table pointer may be [NULL], hence the [option hashtab] arguments.  A
    result [None] of [hashtab_insert] and [hashtab_search] is an access past
    the end of the slot array. *)

Definition hashtab_create (hash_value : Z -> K -> Z) (keycmp : K -> K -> Z) (size : Z) (m : kmem)
    : option hashtab * kmem :=
  let '(ok, m) := kalloc m in
  if negb ok then (None, m)
  else
    let '(ok, m) := kalloc m in
    if negb ok then (None, m)
    else (Some (mk_hashtab (replicate (Z.to_nat size) []) size 0 hash_value keycmp), m).

(** The search for the position, the duplicate check, the allocation and the
    linking of [hashtab_insert], on one chain. *)
Fixpoint chain_insert (keycmp : K -> K -> Z) (key : K) (datum : D) (cur : list (K * D)) (m : kmem)
    : Z * list (K * D) * kmem :=
  let link_here :=
    let '(ok, m) := kalloc m in
    if ok then (0, (key, datum) :: cur, m) else (- ENOMEM, cur, m) in
  match cur with
  | n :: next =>
      if 0 <? keycmp key n.1 then
        let '(rc, l, m) := chain_insert keycmp key datum next m in (rc, n :: l, m)
      else if keycmp key n.1 =? 0 then (- EEXIST, cur, m)
      else link_here
  | [] => link_here
  end.

Definition hashtab_insert (h : option hashtab) (key : K) (datum : D) (m : kmem)
    : option (Z * option hashtab * kmem) :=
  match h with
  | None => Some (- EINVAL, None, m)
  | Some t =>
      if ht_nel t =? HASHTAB_MAX_NODES then Some (- EINVAL, h, m)
      else
        let hvalue := ht_hash_value t (ht_size t) key in
        cur ← ht_htable t !! Z.to_nat hvalue;
        let '(rc, l, m) := chain_insert (ht_keycmp t) key datum cur m in
        if nz rc then Some (rc, h, m)
        else Some (0, Some (mk_hashtab (<[Z.to_nat hvalue := l]> (ht_htable t)) (ht_size t)
                                       (u32 (ht_nel t + 1)) (ht_hash_value t) (ht_keycmp t)), m)
  end.

(** Skip the smaller keys, then test for equality. *)
Fixpoint chain_search (keycmp : K -> K -> Z) (key : K) (cur : list (K * D)) : option D :=
  match cur with
  | n :: next =>
      if 0 <? keycmp key n.1 then chain_search keycmp key next
      else if negb (keycmp key n.1 =? 0) then None
      else Some n.2
  | [] => None
  end.

Definition hashtab_search (h : option hashtab) (key : K) : option (option D) :=
  match h with
  | None => Some None
  | Some t =>
      let hvalue := ht_hash_value t (ht_size t) key in
      cur ← ht_htable t !! Z.to_nat hvalue;
      Some (chain_search (ht_keycmp t) key cur)
  end.

(** [apply] may change the object [args] points to: [S]. *)
Fixpoint chain_map {S} (apply : K -> D -> S -> Z * S) (cur : list (K * D)) (args : S) : Z * S :=
  match cur with
  | [] => (0, args)
  | n :: next =>
      let '(ret, args) := apply n.1 n.2 args in
      if nz ret then (ret, args) else chain_map apply next args
  end.

Fixpoint slots_map {S} (apply : K -> D -> S -> Z * S) (slots : list (list (K * D))) (args : S) : Z * S :=
  match slots with
  | [] => (0, args)
  | cur :: slots' =>
      let '(ret, args) := chain_map apply cur args in
      if nz ret then (ret, args) else slots_map apply slots' args
  end.

Definition hashtab_map {S} (h : option hashtab) (apply : K -> D -> S -> Z * S) (args : S) : Z * S :=
  match h with
  | None => (0, args)
  | Some t => slots_map apply (take (Z.to_nat (ht_size t)) (ht_htable t)) args
  end.

Definition hashtab_stat (t : hashtab) : hashtab_info :=
  let step (st : Z * Z) (cur : list (K * D)) :=
    match cur with
    | [] => st
    | _ :: _ =>
        let chain_len := Z.of_nat (length cur) in
        (st.1 + 1, if st.2 <? chain_len then chain_len else st.2)
    end in
  let '(used, mx) := fold_left step (take (Z.to_nat (ht_size t)) (ht_htable t)) (0, 0) in
  mk_hashtab_info used mx.
End Data.

Arguments hashtab : clear implicits.

(** ** The interface of a table's functions *)

Class table_ops {K : Type} (size : Z) (hash_value : Z -> K -> Z) (keycmp : K -> K -> Z) : Prop := {
  ops_hash : forall k, 0 <= hash_value size k < size;
  ops_eq : forall a b, keycmp a b = 0 <-> a = b;
  ops_anti : forall a b, 0 < keycmp a b <-> keycmp b a < 0;
  ops_trans : forall a b c, 0 < keycmp a b -> 0 < keycmp b c -> 0 < keycmp a c
}.

(** ** Refinement: a table is a finite map *)

Section Refinement.
  Context {K D : Type} `{Countable K}.
  Implicit Types (t : hashtab K D) (c : list (K * D)).

Definition key_lt (keycmp : K -> K -> Z) (a b : K * D) : Prop := 0 < keycmp b.1 a.1.

Record hashtab_wf (t : hashtab K D) : Prop := {
  hwf_ops :: table_ops (ht_size t) (ht_hash_value t) (ht_keycmp t);
  hwf_len : Z.of_nat (length (ht_htable t)) = ht_size t;
  hwf_slot : forall i c, ht_htable t !! i = Some c ->
    Forall (fun n => Z.to_nat (ht_hash_value t (ht_size t) n.1) = i) c;
  hwf_sorted : Forall (StronglySorted (key_lt (ht_keycmp t))) (ht_htable t);
  hwf_nel : ht_nel t = Z.of_nat (length (concat (ht_htable t))) /\ ht_nel t <= HASHTAB_MAX_NODES
}.

(** The finite map a table stands for. *)
Definition hashtab_abs (t : hashtab K D) : gmap K D := list_to_map (concat (ht_htable t)).

Lemma chain_search_lookup hash cmp size k c :
  table_ops size hash cmp -> StronglySorted (key_lt cmp) c ->
  chain_search cmp k c = (list_to_map c : gmap K D) !! k.
Proof.
  intros Hops Hs. induction Hs as [|[k1 d1] c Hs IH Hlt]; [done|].
  cbn [chain_search fst snd list_to_map foldr uncurry].
  destruct (0 <? cmp k k1) eqn:E1.
  - rewrite IH. rewrite lookup_insert_ne; [done|]. intros ->.
    pose proof (proj2 (ops_eq k k) eq_refl). lia.
  - destruct (cmp k k1 =? 0) eqn:E2; cbn.
    + apply Z.eqb_eq, ops_eq in E2 as ->. by rewrite lookup_insert_eq.
    + rewrite lookup_insert_ne by (intros ->; pose proof (proj2 (ops_eq k k) eq_refl); lia).
      symmetry. apply not_elem_of_list_to_map_1. rewrite list_elem_of_fmap.
      intros ([k2 d2] & -> & Hin). rewrite Forall_forall in Hlt. specialize (Hlt _ Hin).
      unfold key_lt in Hlt. cbn in *.
      assert (0 < cmp k1 k2) by (apply ops_anti; lia).
      pose proof (ops_trans k2 k1 k2 Hlt). pose proof (proj2 (ops_eq k2 k2) eq_refl). lia.
Qed.

(** Where a key of the table can be. *)
Lemma concat_lookup (ls : list (list (K * D))) i c k :
  ls !! i = Some c ->
  (forall j c', ls !! j = Some c' -> j <> i -> k ∉ c'.*1) ->
  (list_to_map (concat ls) : gmap K D) !! k = (list_to_map c : gmap K D) !! k.
Proof.
  revert i. induction ls as [|c0 ls IH]; intros i Hi Hother; [done|].
  cbn [concat]. rewrite list_to_map_app. destruct i as [|i].
  - injection Hi as ->. rewrite lookup_union.
    rewrite (not_elem_of_list_to_map_1 (concat ls)); [by destruct ((list_to_map c : gmap K D) !! k)|].
    rewrite list_elem_of_fmap. intros (x & -> & Hx%list_elem_of_In).
    apply in_concat in Hx as (c' & Hc'%list_elem_of_In & Hx%list_elem_of_In).
    apply list_elem_of_lookup in Hc' as [j Hj].
    apply (Hother (S j) c'); [done|done|]. rewrite list_elem_of_fmap. eauto.
  - rewrite lookup_union_r.
    + apply (IH i); [done|]. intros j c' Hj Hne. apply (Hother (S j)); [done|lia].
    + apply not_elem_of_list_to_map_1. by apply (Hother 0%nat).
Qed.

Lemma slot_range t k : hashtab_wf t ->
  (Z.to_nat (ht_hash_value t (ht_size t) k) < length (ht_htable t))%nat.
Proof.
  intros Hwf. pose proof (ops_hash k (table_ops := hwf_ops t Hwf)).
  pose proof (hwf_len t Hwf). lia.
Qed.

Lemma slot_other t k j c : hashtab_wf t ->
  ht_htable t !! j = Some c -> j <> Z.to_nat (ht_hash_value t (ht_size t) k) -> k ∉ c.*1.
Proof.
  intros Hwf Hj Hne. rewrite list_elem_of_fmap. intros (n & -> & Hn).
  pose proof (hwf_slot t Hwf j c Hj) as Hs. rewrite Forall_forall in Hs. by apply Hs in Hn.
Qed.

Lemma hashtab_search_abs t k :
  hashtab_wf t -> hashtab_search (Some t) k = Some (hashtab_abs t !! k).
Proof.
  intros Hwf. unfold hashtab_search.
  destruct (lookup_lt_is_Some_2 _ _ (slot_range t k Hwf)) as [c Hc]. rewrite Hc. cbn.
  f_equal. unfold hashtab_abs. rewrite (concat_lookup _ _ c k Hc).
  - eapply chain_search_lookup; [by apply hwf_ops|].
    eapply Forall_lookup_1; [by apply hwf_sorted|done].
  - intros j c' Hj Hne. by eapply slot_other.
Qed.

(** One chain: what [hashtab_insert] does to it. *)
Lemma chain_insert_spec hash cmp size k d c m :
  table_ops size hash cmp -> StronglySorted (key_lt cmp) c ->
  let '(rc, l, m') := chain_insert cmp k d c m in
  (rc = 0 /\ (list_to_map c : gmap K D) !! k = None /\ StronglySorted (key_lt cmp) l /\ l ≡ₚ (k, d) :: c)
  \/ (rc = - EEXIST /\ is_Some ((list_to_map c : gmap K D) !! k) /\ l = c)
  \/ (rc = - ENOMEM /\ l = c).
Proof.
  intros Hops Hs. rewrite <- (chain_search_lookup hash cmp size k c Hops Hs).
  revert m. induction Hs as [|[k1 d1] c Hs IH Hlt]; intros m; cbn [chain_insert chain_search fst snd].
  { destruct (kalloc m) as [[] m1]; [left|right; right]; [|done].
    split_and!; [done|done|by repeat constructor|done]. }
  destruct (0 <? cmp k k1) eqn:E1.
  - specialize (IH m). destruct (chain_insert cmp k d c m) as [[rc l] m'].
    destruct IH as [(-> & Hn & Hsl & Hp)|[(-> & Hsome & ->)|(-> & ->)]]; [left|right; left|right; right]; try done.
    split_and!; [done|done| |by rewrite Hp; constructor].
    constructor; [done|]. rewrite Hp. constructor; [|done]. unfold key_lt. cbn. lia.
  - destruct (cmp k k1 =? 0) eqn:E2; cbn.
    { right. left. split_and!; [done|by eexists|done]. }
    destruct (kalloc m) as [[] m1]; [left|right; right]; [|done].
    split_and!; [done|done| |done].
    assert (0 < cmp k1 k) by (apply ops_anti; lia).
    constructor; [by constructor|]. constructor; [done|].
    eapply Forall_impl; [exact Hlt|]. unfold key_lt. cbn. intros [k2 d2] H2. cbn in *.
    by apply (ops_trans k2 k1 k).
Qed.

(** What [chain_insert] returns, for any comparison. *)
Lemma chain_insert_rc cmp k d c m :
  (chain_insert cmp k d c m).1.1 = match chain_search cmp k c with Some _ => - EEXIST | None => if (kalloc m).1 then 0 else - ENOMEM end.
Proof.
  induction c as [|[k1 d1] c IH]; cbn [chain_insert chain_search fst snd]; [by destruct (kalloc m) as [[] ?]|].
  destruct (0 <? cmp k k1); [by destruct (chain_insert cmp k d c m) as [[rc l] m']|].
  destruct (cmp k k1 =? 0); cbn [negb]; [done|]. by destruct (kalloc m) as [[] ?].
Qed.

Lemma chain_keys_nodup hash cmp size c :
  table_ops size hash cmp -> StronglySorted (key_lt cmp) c -> NoDup c.*1.
Proof.
  intros Hops Hs. induction Hs as [|[k d] c Hs IH Hlt]; cbn; constructor; [|done].
  rewrite list_elem_of_fmap. intros ([k2 d2] & Hk & Hin). cbn in Hk. subst k2.
  rewrite Forall_forall in Hlt. specialize (Hlt _ Hin). unfold key_lt in Hlt. cbn in Hlt.
  pose proof (proj2 (ops_eq k k) eq_refl). lia.
Qed.

Lemma hashtab_insert_wf t k d i c l :
  hashtab_wf t -> i = Z.to_nat (ht_hash_value t (ht_size t) k) -> ht_htable t !! i = Some c ->
  ht_nel t <> HASHTAB_MAX_NODES ->
  StronglySorted (key_lt (ht_keycmp t)) l -> l ≡ₚ (k, d) :: c ->
  let t' := mk_hashtab (<[i := l]> (ht_htable t)) (ht_size t) (u32 (ht_nel t + 1))
                       (ht_hash_value t) (ht_keycmp t) in
  hashtab_wf t' /\ ht_nel t' = ht_nel t + 1.
Proof.
  intros Hwf Hi Hc Hmax Hs Hp t'. pose proof Hwf as [Hops Hlen Hslot Hsorted [Hnel Hle]].
  assert (u32 (ht_nel t + 1) = ht_nel t + 1) as Hu.
  { apply u32_small. unfold HASHTAB_MAX_NODES in *. lia. }
  split; [|done]. constructor; cbn.
  - done.
  - by rewrite length_insert.
  - intros j c' Hj. destruct (decide (i = j)) as [<-|Hne].
    + rewrite list_lookup_insert_eq in Hj by (eapply lookup_lt_Some; eassumption).
      injection Hj as <-. rewrite Hp. constructor; [done|]. by apply Hslot.
    + rewrite list_lookup_insert_ne in Hj by done. by apply Hslot.
  - apply Forall_insert; done.
  - rewrite Hu, (concat_insert_perm _ _ c _ (k, d)) by done. cbn [length].
    unfold HASHTAB_MAX_NODES in *. lia.
Qed.

Lemma hashtab_insert_abs t k d i c l :
  hashtab_wf t -> i = Z.to_nat (ht_hash_value t (ht_size t) k) -> ht_htable t !! i = Some c ->
  StronglySorted (key_lt (ht_keycmp t)) l -> l ≡ₚ (k, d) :: c ->
  forall nel,
  hashtab_abs (mk_hashtab (<[i := l]> (ht_htable t)) (ht_size t) nel (ht_hash_value t) (ht_keycmp t))
    = <[k := d]> (hashtab_abs t).
Proof.
  intros Hwf Hi Hc Hs Hp nel. apply map_eq. intros k'. unfold hashtab_abs. cbn [ht_htable].
  pose proof (lookup_lt_Some _ _ _ Hc) as Hlt.
  pose proof (hwf_ops t Hwf) as Hops.
  set (j := Z.to_nat (ht_hash_value t (ht_size t) k')).
  destruct (lookup_lt_is_Some_2 _ _ (slot_range t k' Hwf)) as [c' Hc'].
  assert (forall i' c0, <[i := l]> (ht_htable t) !! i' = Some c0 -> i' <> j -> k' ∉ c0.*1) as Hoth.
  { intros i' c0 Hi' Hne. destruct (decide (i = i')) as [<-|Hii].
    - rewrite list_lookup_insert_eq in Hi' by done. injection Hi' as <-. rewrite Hp. cbn.
      rewrite elem_of_cons. intros [->|Hin]; [by subst|]. by eapply slot_other in Hin.
    - rewrite list_lookup_insert_ne in Hi' by done. by eapply slot_other. }
  destruct (decide (i = j)) as [Hij|Hij].
  - rewrite <- Hij in Hoth. rewrite (concat_lookup _ i l k'); [|by apply list_lookup_insert_eq|done].
    assert (NoDup l.*1) by by eapply chain_keys_nodup.
    rewrite (list_to_map_proper l ((k, d) :: c)) by done. cbn.
    rewrite !lookup_insert. case_decide; [done|]. symmetry. apply (concat_lookup _ i); [done|].
    intros i' c0 Hi' Hne. eapply slot_other; [done..|]. subst j. congruence.
  - rewrite (concat_lookup _ j c' k'); [|by rewrite list_lookup_insert_ne|done].
    rewrite lookup_insert_ne by (intros ->; by subst).
    symmetry. apply (concat_lookup _ j); [done|]. intros i' c0 Hi' Hne. by eapply slot_other.
Qed.

Lemma hashtab_insert_spec t k d m :
  hashtab_wf t ->
  exists rc h' m', hashtab_insert (Some t) k d m = Some (rc, h', m') /\
    ((rc = 0 /\ hashtab_abs t !! k = None /\
      exists t', h' = Some t' /\ hashtab_wf t' /\ hashtab_abs t' = <[k := d]> (hashtab_abs t))
     \/ (rc = - EEXIST /\ is_Some (hashtab_abs t !! k) /\ h' = Some t)
     \/ (rc = - ENOMEM /\ h' = Some t)
     \/ (rc = - EINVAL /\ ht_nel t = HASHTAB_MAX_NODES /\ h' = Some t)).
Proof.
  intros Hwf. unfold hashtab_insert.
  destruct (ht_nel t =? HASHTAB_MAX_NODES) eqn:Emax.
  { eexists _, _, _. split; [done|]. do 3 right. split_and!; [done|lia|done]. }
  destruct (lookup_lt_is_Some_2 _ _ (slot_range t k Hwf)) as [c Hc]. rewrite Hc. cbn [mbind option_bind].
  assert (Habs : hashtab_abs t !! k = (list_to_map c : gmap K D) !! k).
  { apply (concat_lookup _ _ c k Hc). intros j c' Hj Hne. by eapply slot_other. }
  pose proof (hwf_ops t Hwf) as Hops.
  assert (StronglySorted (key_lt (ht_keycmp t)) c) as Hsc.
  { eapply Forall_lookup_1; [by apply hwf_sorted|done]. }
  pose proof (chain_insert_spec _ _ _ k d c m Hops Hsc) as Hci.
  destruct (chain_insert (ht_keycmp t) k d c m) as [[rc l] m'].
  destruct Hci as [(-> & Hn & Hs & Hp)|[(-> & Hsome & ->)|(-> & ->)]]; cbn.
  - eexists _, _, _. split; [done|]. left. split_and!; [done|congruence|].
    eexists. split_and!; [done| |].
    + eapply hashtab_insert_wf; eauto. lia.
    + by eapply hashtab_insert_abs.
  - eexists _, _, _. split; [done|]. right. left. split_and!; [done|by rewrite Habs|done].
  - eexists _, _, _. split; [done|]. right. right. by left.
Qed.

(** The result is determined by the table and the allocator. *)
Lemma hashtab_insert_rc t k d m :
  hashtab_wf t ->
  (fun r => r.1.1) <$> hashtab_insert (Some t) k d m =
  Some (if ht_nel t =? HASHTAB_MAX_NODES then - EINVAL
        else match hashtab_abs t !! k with Some _ => - EEXIST | None => if (kalloc m).1 then 0 else - ENOMEM end).
Proof.
  intros Hwf. unfold hashtab_insert. destruct (ht_nel t =? HASHTAB_MAX_NODES) eqn:Emax; [done|].
  destruct (lookup_lt_is_Some_2 _ _ (slot_range t k Hwf)) as [c Hc]. rewrite Hc. cbn [mbind option_bind].
  assert (Habs : hashtab_abs t !! k = (list_to_map c : gmap K D) !! k).
  { apply (concat_lookup _ _ c k Hc). intros j c' Hj Hne. by eapply slot_other. }
  assert (StronglySorted (key_lt (ht_keycmp t)) c) as Hsc by (eapply Forall_lookup_1; [by apply hwf_sorted|done]).
  pose proof (chain_insert_rc (ht_keycmp t) k d c m) as Hrc. rewrite (chain_search_lookup _ _ _ k c (hwf_ops t Hwf) Hsc), <- Habs in Hrc.
  destruct (chain_insert (ht_keycmp t) k d c m) as [[rc l] m']. cbn in Hrc. subst rc.
  by destruct (hashtab_abs t !! k), (kalloc m).1.
Qed.

Lemma hashtab_create_wf hash cmp size m :
  table_ops size hash cmp -> 0 <= size ->
  match hashtab_create hash cmp size m with
  | (Some t, _) => hashtab_wf t /\ hashtab_abs t = (∅ : gmap K D) /\ ht_size t = size
  | (None, _) => true
  end.
Proof.
  intros Hops Hs. unfold hashtab_create.
  destruct (kalloc m) as [[] m1]; cbn; [|done]. destruct (kalloc m1) as [[] m2]; cbn; [|done].
  assert (concat (replicate (Z.to_nat size) []) = ([] : list (K * D))) as Hc.
  { induction (Z.to_nat size); [done|by cbn]. }
  split_and!; [|unfold hashtab_abs; cbn; by rewrite Hc|done].
  constructor; cbn; [done|rewrite length_replicate; lia| | |by rewrite Hc].
  - intros i c [-> _]%lookup_replicate. constructor.
  - apply Forall_replicate. constructor.
Qed.
End Refinement.

(** ** Strings

    A [string] stands for the bytes of a C string before its NUL. *)

(** A [char] as [unsigned char], and promoted from (signed) [char]. *)
Definition uchar (c : ascii) : Z := Z.of_N (N_of_ascii c).
Definition schar (c : ascii) : Z := if uchar c <? 128 then uchar c else uchar c - 256.

(** lib/string.c *)
Fixpoint strcmp (cs ct : string) : Z :=
  match cs, ct with
  | EmptyString, EmptyString => 0
  | EmptyString, String _ _ => -1
  | String _ _, EmptyString => 1
  | String c1 cs', String c2 ct' =>
      if negb (uchar c1 =? uchar c2) then (if uchar c1 <? uchar c2 then -1 else 1)
      else strcmp cs' ct'
  end.

Lemma uchar_inj c1 c2 : uchar c1 = uchar c2 -> c1 = c2.
Proof.
  unfold uchar. intros H%N2Z.inj. apply (f_equal ascii_of_N) in H.
  by rewrite !ascii_N_embedding in H.
Qed.

Lemma strcmp_eq cs ct : strcmp cs ct = 0 <-> cs = ct.
Proof.
  revert ct. induction cs as [|c cs IH]; intros [|c' ct]; try done.
  cbn. destruct (uchar c =? uchar c') eqn:E; cbn.
  - apply Z.eqb_eq, uchar_inj in E as ->. rewrite IH. split; [by intros ->|by intros [= ->]].
  - split; [by case_all|]. intros [= -> ->]. lia.
Qed.

Lemma strcmp_anti cs ct : 0 < strcmp cs ct <-> strcmp ct cs < 0.
Proof.
  revert ct. induction cs as [|c cs IH]; intros [|c' ct]; try (cbn; lia).
  cbn. destruct (uchar c =? uchar c') eqn:E; cbn.
  - rewrite (proj2 (Z.eqb_eq (uchar c') (uchar c))) by lia. cbn. apply IH.
  - rewrite (proj2 (Z.eqb_neq (uchar c') (uchar c))) by lia. cbn.
    destruct (uchar c <? uchar c') eqn:E1, (uchar c' <? uchar c) eqn:E2; lia.
Qed.

Lemma strcmp_trans a b c : 0 < strcmp a b -> 0 < strcmp b c -> 0 < strcmp a c.
Proof.
  revert b c. induction a as [|x a IH]; intros [|y b] [|z c]; cbn; try lia.
  destruct (uchar x =? uchar y) eqn:Exy; cbn.
  - intros Hab. replace (uchar x) with (uchar y) by lia.
    destruct (uchar y =? uchar z) eqn:Eyz; cbn; [|done]. by apply IH.
  - destruct (uchar x <? uchar y) eqn:E1; [lia|]. intros _.
    destruct (uchar y =? uchar z) eqn:Eyz; cbn.
    + intros _. replace (uchar z) with (uchar y) by lia. rewrite Exy, E1. cbn. lia.
    + destruct (uchar y <? uchar z) eqn:E2; [lia|]. intros _.
      rewrite (proj2 (Z.eqb_neq (uchar x) (uchar z))), (proj2 (Z.ltb_ge (uchar x) (uchar z))) by lia.
      cbn. lia.
Qed.

(** ** Symbol tables *)

Fixpoint symhash_loop (p : string) (val : Z) : Z :=
  match p with
  | EmptyString => val
  | String c p' =>
      symhash_loop p' (u32 ((u32 (val .<< 4) .| (val .>> (8 * 4 - 4))) .^ schar c))
  end.

Definition symhash (size : Z) (key : string) : Z := symhash_loop key 0 .& u32 (size - 1).

Definition symcmp (key1 key2 : string) : Z := strcmp key1 key2.

Record symtab (D : Type) := mk_symtab {
  st_table : option (hashtab string D);
  st_nprim : Z
}.
Arguments mk_symtab {D} _ _.
Arguments st_table {D} _.
Arguments st_nprim {D} _.

(** Result: [rc], the new [*s] (its [nprim] is not written on failure). *)
Definition symtab_init {D} (s : symtab D) (size : Z) (m : kmem) : Z * symtab D * kmem :=
  match hashtab_create symhash symcmp size m with
  | (None, m) => (- ENOMEM, mk_symtab None (st_nprim s), m)
  | (Some t, m) => (0, mk_symtab (Some t) 0, m)
  end.

Lemma symhash_loop_range p val : 0 <= val < 2 ^ 32 -> 0 <= symhash_loop p val < 2 ^ 32.
Proof.
  revert val. induction p as [|c p IH]; intros val Hv; [done|]. apply IH, u32_range.
Qed.

Lemma land_le_r x y : 0 <= x -> 0 <= y -> x .& y <= y.
Proof.
  intros Hx Hy. assert (y = (x .& y) + Z.ldiff y x) as ->.
  { rewrite Z.add_nocarry_lxor.
    - bitwise i Hi. by destruct (Z.testbit x i), (Z.testbit y i).
    - bitwise i Hi. by destruct (Z.testbit x i), (Z.testbit y i). }
  assert (0 <= Z.ldiff y x) by (apply Z.ldiff_nonneg; lia).
  replace (x .& ((x .& y) + Z.ldiff y x)) with (x .& y); [lia|].
  rewrite Z.add_nocarry_lxor; bitwise i Hi; by destruct (Z.testbit x i), (Z.testbit y i).
Qed.

(** Symbol tables meet the interface of the hash table. *)
#[export] Instance symtab_ops size : 0 < size <= 2 ^ 31 -> table_ops size symhash symcmp | 100.
Proof.
  intros Hs. constructor.
  - intros k. unfold symhash. rewrite u32_small by lia.
    pose proof (symhash_loop_range k 0). split.
    + apply Z.land_nonneg. lia.
    + pose proof (land_le_r (symhash_loop k 0) (size - 1)). lia.
  - intros a b. apply strcmp_eq.
  - intros a b. apply strcmp_anti.
  - intros a b c. apply strcmp_trans.
Qed.

(** A symbol table as the map from names to data. *)
Definition symtab_ok {D} (s : symtab D) : Prop :=
  match st_table s with Some t => hashtab_wf t | None => False end.

Definition symtab_abs {D} (s : symtab D) : gmap string D :=
  match st_table s with Some t => hashtab_abs t | None => ∅ end.

Lemma symtab_search_abs {D} (s : symtab D) k :
  symtab_ok s -> hashtab_search (st_table s) k = Some (symtab_abs s !! k).
Proof.
  unfold symtab_ok, symtab_abs. destruct (st_table s) as [t|]; [|done].
  apply hashtab_search_abs.
Qed.

(** ** Properties *)

(** C33: a hash table is a finite map.  [hashtab_search] answers for every key,
    and [hashtab_insert] fails with [-EINVAL] exactly if the table is full,
    otherwise with [-EEXIST] exactly if the key is there, otherwise with
    [-ENOMEM] exactly if the allocator has no memory for the node; on every
    failure the table is unchanged.  If it succeeds, the new datum is found for
    the key and what was found before for every other key. *)
Theorem hashtab_refines_map {K D} `{Countable K} (t : hashtab K D) k d m :
  hashtab_wf t ->
  exists old rc h' m', hashtab_search (Some t) k = Some old /\ hashtab_insert (Some t) k d m = Some (rc, h', m') /\
    rc = (if ht_nel t =? HASHTAB_MAX_NODES then - EINVAL
          else match old with Some _ => - EEXIST | None => if (kalloc m).1 then 0 else - ENOMEM end) /\
    (rc <> 0 -> h' = Some t) /\
    (rc = 0 -> exists t', h' = Some t' /\ hashtab_wf t' /\
       forall k', hashtab_search (Some t') k' = if decide (k' = k) then Some (Some d) else hashtab_search (Some t) k').
Proof.
  intros Hwf. destruct (hashtab_insert_spec t k d m Hwf) as (rc & h' & m' & Heq & Hr). pose proof (hashtab_insert_rc t k d m Hwf) as Hrc.
  rewrite Heq in Hrc. injection Hrc as Hrc. exists (hashtab_abs t !! k), rc, h', m'.
  split; [by apply hashtab_search_abs|]. split; [done|]. split; [done|].
  destruct Hr as [(-> & _ & t' & -> & Hw & Habs)|[(-> & _ & ->)|[(-> & ->)|(-> & _ & ->)]]]; [|done..].
  split; [done|]. intros _. exists t'. split; [done|]. split; [done|]. intros k'.
  rewrite !hashtab_search_abs, Habs by done. case_decide as E; [subst; by rewrite lookup_insert_eq|by rewrite lookup_insert_ne].
Qed.

Definition small_table : hashtab string Z := mk_hashtab (replicate 16 []) 16 0 symhash symcmp.

Lemma small_table_wf : hashtab_wf small_table.
Proof.
  pose proof (hashtab_create_wf (D := Z) symhash symcmp 16 [] (symtab_ops 16 ltac:(lia)) ltac:(lia)) as H.
  exact (proj1 H).
Qed.

Lemma hashtab_refines_map_witness :
  exists rc h' m', hashtab_insert (Some small_table) "init_t"%string 1 [] = Some (rc, h', m') /\ rc = 0.
Proof.
  destruct (hashtab_refines_map small_table "init_t"%string 1 [] small_table_wf) as (old & rc & h' & m' & Hs & H & Hrc & _).
  exists rc, h', m'. split; [exact H|]. assert (hashtab_search (Some small_table) "init_t"%string = Some None) as E by (vm_compute; reflexivity).
  rewrite E in Hs. injection Hs as <-. exact Hrc.
Defined.
