(* ===== verification/PolicyFile.v ===== *)
(** * Policy files (security/selinux/ss/policydb.h, ebitmap.c)

    The byte stream a binary policy is read from and written to, and the
    reading and writing of bitmaps.

    A function that reads is a [reader]: from the rest of the file and the
    allocator it gives a value and the new rest, or an error code.  After an
    error nothing looks at the rest of the file or at what has been read,
    which is freed.  [put_entry] cannot fail, so a function that writes gives
    the bytes it appends. *)

From Stdlib Require Import Ascii String.
From S2P Require Import Prelude Ebitmap Hashtab.

(** ** Numbers as bytes *)

(** [le16_to_cpu], [le32_to_cpu], [le64_to_cpu] by the number of bytes. *)
Definition le_to_cpu (b : list ascii) : Z := foldr (fun c n => uchar c + 256 * n) 0 b.

Fixpoint cpu_to_le (n : nat) (z : Z) : list ascii :=
  match n with
  | O => []
  | S n' => ascii_of_N (Z.to_N (z mod 256)) :: cpu_to_le n' (z `div` 256)
  end.

Definition put_u16 (z : Z) : list ascii := cpu_to_le 2 z.
Definition put_u32 (z : Z) : list ascii := cpu_to_le 4 z.
Definition put_u64 (z : Z) : list ascii := cpu_to_le 8 z.

(** An array of [__le32] given to [put_entry]. *)
Definition put_u32s (l : list Z) : list ascii := concat (put_u32 <$> l).
Definition put_u16s (l : list Z) : list ascii := concat (put_u16 <$> l).

(** [put_entry(name, 1, strlen(name), fp)] *)
Definition put_name_bytes (name : string) : list ascii := list_ascii_of_string name.

(** ** Readers *)

Inductive result (A : Type) :=
| Done (a : A) (fp : list ascii) (m : kmem)
| Fails (rc : Z) (m : kmem).
Arguments Done {A} a fp m.
Arguments Fails {A} rc m.

(** [None] is a [BUG()] or an invalid access. *)
Definition reader (A : Type) : Type := list ascii -> kmem -> option (result A).

#[export] Instance reader_ret : MRet reader := fun A a fp m => Some (Done a fp m).
#[export] Instance reader_bind : MBind reader := fun A B f c fp m =>
  match c fp m with
  | Some (Done a fp m) => f a fp m
  | Some (Fails rc m) => Some (Fails rc m)
  | None => None
  end.

Definition fail {A} (rc : Z) : reader A := fun _ m => Some (Fails rc m).
Definition fault {A} : reader A := fun _ _ => None.

(** A step that does not read. *)
Definition lift {A} (o : option A) : reader A := match o with Some a => mret a | None => fault end.

(** [if (!p) { rc = -ENOMEM; goto bad; }] *)
Definition kmalloc : reader unit := fun fp m =>
  let '(ok, m) := kalloc m in if ok then Some (Done tt fp m) else Some (Fails (- ENOMEM) m).

(** A call that returns [rc] and changes an object: [if (rc) goto bad;]. *)
Definition call {A} (f : kmem -> option (Z * A * kmem)) : reader A := fun fp m =>
  match f m with
  | Some (rc, a, m) => if nz rc then Some (Fails rc m) else Some (Done a fp m)
  | None => None
  end.

Definition guard_ (ok : bool) : reader unit := if ok then mret tt else fail (- EINVAL).

(** [for (i = 0; i < n; i++)] with the objects the body changes. *)
Fixpoint for_loop {A} (n : nat) (body : A -> reader A) (a : A) : reader A :=
  match n with
  | O => mret a
  | S n' => a ← body a; for_loop n' body a
  end.

Definition next_entry (bytes : Z) : reader (list ascii) := fun fp m =>
  if Z.of_nat (length fp) <? bytes then Some (Fails (- EINVAL) m)
  else Some (Done (take (Z.to_nat bytes) fp) (drop (Z.to_nat bytes) fp) m).

(** [next_entry(buf, fp, sizeof(u32) * n)], each item converted. *)
Fixpoint le_items (w n : nat) (b : list ascii) : list Z :=
  match n with
  | O => []
  | S n' => le_to_cpu (take w b) :: le_items w n' (drop w b)
  end.

Definition next_u32s (n : nat) : reader (list Z) :=
  b ← next_entry (4 * Z.of_nat n); mret (le_items 4 n b).
Definition next_u16s (n : nat) : reader (list Z) :=
  b ← next_entry (2 * Z.of_nat n); mret (le_items 2 n b).

(** [buf[i]] *)
Definition item (buf : list Z) (i : nat) : Z := nth i buf 0.

Definition next_u32 : reader Z := buf ← next_u32s 1; mret (item buf 0).

(** The bytes of an array up to the first NUL. *)
Fixpoint cstring (b : list ascii) : string :=
  match b with
  | [] => EmptyString
  | c :: b' => if uchar c =? 0 then EmptyString else String c (cstring b')
  end.

(** [key = kmalloc(len + 1); next_entry(key, fp, len); key[len] = '\0';]; the
    sum is a [u32], and for the largest length no byte is allocated. *)
Definition read_name (len : Z) : reader string :=
  _ ← kmalloc;
  b ← next_entry len;
  if u32 (len + 1) =? 0 then fault else mret (cstring b).

(** ** Bitmaps (ebitmap.c) *)

Definition BITS_PER_U64 : Z := 8 * 8.

Definition EBITMAP_SHIFT_UNIT_SIZE (x : Z) : Z := (x .>> (EBITMAP_UNIT_SIZE `div` 2)) .>> (EBITMAP_UNIT_SIZE `div` 2).

(** [while (map) { n->maps[index++] = map & (-1UL); map = EBITMAP_SHIFT_UNIT_SIZE(map); }];
    one word holds the whole map: [store_map_word]. *)
Fixpoint store_map (fuel : nat) (map index : Z) (maps : list Z) : option (list Z) :=
  match fuel with
  | O => Some maps
  | S fuel' =>
      if nz map then
        if (0 <=? index) && (index <? Z.of_nat (length maps))
        then store_map fuel' (EBITMAP_SHIFT_UNIT_SIZE map) (index + 1) (<[Z.to_nat index := map .& Z.ones 64]> maps)
        else None
      else Some maps
  end.

(** The node [startbit] goes to: a new one, or the last one. *)
Definition read_node (n : option ebitmap_node) (startbit : Z) : reader (bool * ebitmap_node) :=
  let new :=
    _ ← kmalloc;
    mret (true, mk_ebitmap_node (repeat 0 (Z.to_nat EBITMAP_UNIT_NUMS)) (u32 (startbit - startbit mod EBITMAP_SIZE))) in
  match n with
  | None => new
  | Some n =>
      if en_startbit n + EBITMAP_SIZE <=? startbit then new
      else if startbit <=? en_startbit n then fail (- EINVAL)
      else mret (false, n)
  end.

(** The body of the loop; the nodes read so far are the last one first. *)
Definition read_map (mapunit highbit : Z) (nodes : list ebitmap_node) : reader (list ebitmap_node) :=
  startbit ← next_u32;
  _ ← guard_ (negb (nz (startbit .& (mapunit - 1))));
  _ ← guard_ (startbit <=? u32 (highbit - mapunit));
  '(new, n) ← read_node (head nodes) startbit;
  b ← next_entry 8;
  let index := u32 (startbit - en_startbit n) `div` EBITMAP_UNIT_SIZE in
  maps ← lift (store_map (Z.to_nat EBITMAP_UNIT_NUMS) (le_to_cpu b) index (en_maps n));
  mret (mk_ebitmap_node maps (en_startbit n) :: (if (new : bool) then nodes else tail nodes)).

Definition ebitmap_read : reader ebitmap :=
  buf ← next_u32s 3;
  let mapunit := item buf 0 in
  let highbit := item buf 1 in
  let count := item buf 2 in
  _ ← guard_ (mapunit =? BITS_PER_U64);
  let highbit := u32 (highbit + (EBITMAP_SIZE - 1)) in
  let highbit := highbit - highbit mod EBITMAP_SIZE in
  if highbit =? 0 then mret (mk_ebitmap [] 0)
  else
    nodes ← for_loop (Z.to_nat count) (read_map mapunit highbit) [];
    mret (mk_ebitmap (rev nodes) highbit).

(** [rounddown(bit, (int)BITS_PER_U64)], [rounddown(bit, BITS_PER_U64)] and
    [roundup(x, BITS_PER_U64)], the last two computed as [unsigned long]. *)
Definition rounddown_int (bit : Z) : Z := bit - Z.rem bit BITS_PER_U64.
Definition rounddown_ul (bit : Z) : Z := s32 (u64 (bit - u64 bit mod BITS_PER_U64)).
Definition roundup_ul (x : Z) : Z := s32 (u64 (x + (BITS_PER_U64 - 1)) `div` BITS_PER_U64 * BITS_PER_U64).

(** The first loop: [count], [last_bit] and [last_startbit]. *)
Definition count_step (st : Z * Z * Z) (bit : Z) : Z * Z * Z :=
  let '(count, last_bit, last_startbit) := st in
  let '(count, last_startbit) :=
    if last_startbit <? rounddown_int bit then (u32 (count + 1), rounddown_ul bit) else (count, last_startbit) in
  (count, roundup_ul (bit + 1), last_startbit).

Definition put_map (last_startbit map : Z) : list ascii := put_u32 (u32 last_startbit) ++ put_u64 map.

(** The second loop: [map], [last_startbit] and what it has written. *)
Definition write_step (st : Z * Z * list ascii) (bit : Z) : Z * Z * list ascii :=
  let '(map, last_startbit, out) := st in
  let set (map last_startbit : Z) := map .| u64 (1 .<< (bit - last_startbit)) in
  if last_startbit <? rounddown_int bit then
    if map =? 0 then (set 0 (rounddown_ul bit), rounddown_ul bit, out)
    else (set 0 (rounddown_ul bit), rounddown_ul bit, out ++ put_map last_startbit map)
  else (set map last_startbit, last_startbit, out).

Definition INT_MIN : Z := - 2 ^ 31.

Definition ebitmap_write (e : ebitmap) : list ascii :=
  let bits := s32 <$> ebitmap_bits e in
  let '(count, last_bit, _) := fold_left count_step bits (0, 0, -1) in
  let '(map, last_startbit, out) := fold_left write_step bits (0, INT_MIN, []) in
  put_u32s [BITS_PER_U64; u32 last_bit; count] ++ out ++ (if nz map then put_map last_startbit map else []).

(** ** Reading back what was written

    [reads c b a]: with enough memory, [c] reads exactly the bytes [b], whatever
    follows them, and gives [a]. *)

Definition reads {A} (c : reader A) (b : list ascii) (a : A) : Prop :=
  forall rest, c (b ++ rest) [] = Some (Done a rest []).

Lemma reads_ret {A} (a : A) : reads (mret a) [] a.
Proof. done. Qed.

Lemma reads_bind {A B} (c : reader A) (f : A -> reader B) b1 b2 a r :
  reads c b1 a -> reads (f a) b2 r -> reads (c ≫= f) (b1 ++ b2) r.
Proof. intros H1 H2 rest. unfold mbind, reader_bind. rewrite <- app_assoc, H1. apply H2. Qed.

(** The same when the first part reads nothing, and when it is the last. *)
Lemma reads_step {A B} (c : reader A) (f : A -> reader B) b a r :
  reads c [] a -> reads (f a) b r -> reads (c ≫= f) b r.
Proof. apply (reads_bind c f [] b). Qed.

Lemma reads_last {A B} (c : reader A) (f : A -> reader B) b a r :
  reads c b a -> reads (f a) [] r -> reads (c ≫= f) b r.
Proof. intros H1 H2. rewrite <- (app_nil_r b). by eapply reads_bind. Qed.

Lemma reads_eq {A} (c : reader A) b b' a : reads c b a -> b = b' -> reads c b' a.
Proof. by intros ? <-. Qed.

Lemma reads_kmalloc : reads kmalloc [] tt.
Proof. done. Qed.

Lemma reads_lift {A} (o : option A) a : o = Some a -> reads (lift o) [] a.
Proof. by intros ->. Qed.

Lemma reads_guard b : b = true -> reads (guard_ b) [] tt.
Proof. by intros ->. Qed.

Lemma reads_call {A} (f : kmem -> option (Z * A * kmem)) a : f [] = Some (0, a, []) -> reads (call f) [] a.
Proof. intros H rest. unfold call. by rewrite H. Qed.

Lemma reads_entry n b : Z.of_nat (length b) = n -> reads (next_entry n) b b.
Proof.
  intros <- rest. unfold next_entry. rewrite length_app.
  rewrite (proj2 (Z.ltb_ge _ _)) by lia. by rewrite Nat2Z.id, take_app_length, drop_app_length.
Qed.

Lemma length_cpu_to_le n z : length (cpu_to_le n z) = n.
Proof. revert z. induction n as [|n IH]; intros z; cbn; [done|]. by rewrite IH. Qed.

Lemma uchar_byte z : uchar (ascii_of_N (Z.to_N (z mod 256))) = z mod 256.
Proof.
  unfold uchar. pose proof (Z.mod_pos_bound z 256). rewrite N_ascii_embedding by lia. lia.
Qed.

Lemma le_cpu_to_le n z : 0 <= z < 256 ^ Z.of_nat n -> le_to_cpu (cpu_to_le n z) = z.
Proof.
  revert z. induction n as [|n IH]; intros z Hz.
  - change (256 ^ Z.of_nat 0) with 1 in Hz. cbn. lia.
  - cbn [cpu_to_le]. change (le_to_cpu (?c :: ?l)) with (uchar c + 256 * le_to_cpu l).
    rewrite uchar_byte, IH; [pose proof (Z.div_mod z 256); lia|]. rewrite Nat2Z.inj_succ, Z.pow_succ_r in Hz by lia.
    split; [apply Z.div_pos; lia|]. apply Z.div_lt_upper_bound; lia.
Qed.

Lemma le_put_u32 z : in_u 32 z -> le_to_cpu (put_u32 z) = z.
Proof. intros Hz. by apply le_cpu_to_le. Qed.
Lemma le_put_u64 z : in_u 64 z -> le_to_cpu (put_u64 z) = z.
Proof. intros Hz. by apply le_cpu_to_le. Qed.

(** Items of one width: what [put_u32s] and [put_u16s] write. *)
Lemma le_items_concat w l :
  Forall (fun z => 0 <= z < 256 ^ Z.of_nat w) l -> le_items w (length l) (concat (cpu_to_le w <$> l)) = l.
Proof.
  induction 1 as [|z l Hz _ IH]; [done|]. cbn [length le_items fmap list_fmap concat].
  rewrite take_app_length', drop_app_length' by (by rewrite length_cpu_to_le).
  f_equal; [by apply le_cpu_to_le|done].
Qed.

Lemma length_put_items w l : length (concat (cpu_to_le w <$> l)) = (w * length l)%nat.
Proof.
  induction l as [|z l IH]; cbn [fmap list_fmap concat length]; [lia|].
  rewrite length_app, length_cpu_to_le, IH. lia.
Qed.

Lemma reads_items w n l :
  length l = n -> Forall (fun z => 0 <= z < 256 ^ Z.of_nat w) l ->
  reads (b ← next_entry (Z.of_nat w * Z.of_nat n); mret (le_items w n b)) (concat (cpu_to_le w <$> l)) l.
Proof.
  intros <- Hl. eapply reads_last.
  - apply reads_entry. rewrite length_put_items. lia.
  - rewrite le_items_concat by done. apply reads_ret.
Qed.

Lemma reads_u32s n l : length l = n -> Forall (in_u 32) l -> reads (next_u32s n) (put_u32s l) l.
Proof. apply (reads_items 4). Qed.
Lemma reads_u16s n l : length l = n -> Forall (in_u 16) l -> reads (next_u16s n) (put_u16s l) l.
Proof. apply (reads_items 2). Qed.

Lemma reads_u32 z : in_u 32 z -> reads next_u32 (put_u32 z) z.
Proof.
  intros Hz. unfold next_u32. apply (reads_last _ _ _ [z]); [|apply reads_ret].
  eapply reads_eq; [apply (reads_u32s 1 [z]); [done|by constructor]|]. unfold put_u32s. cbn. by rewrite ?app_nil_r.
Qed.

(** A C string: no NUL inside. *)
Fixpoint no_nul (s : string) : bool :=
  match s with
  | EmptyString => true
  | String c s' => negb (uchar c =? 0) && no_nul s'
  end.

Definition name_ok (s : string) : Prop := no_nul s = true /\ Z.of_nat (String.length s) < 2 ^ 32 - 1.

Lemma cstring_name s : no_nul s = true -> cstring (list_ascii_of_string s) = s.
Proof.
  induction s as [|c s IH]; [done|]. cbn. intros [Hc Hs]%andb_prop.
  destruct (uchar c =? 0); [done|]. by rewrite IH.
Qed.

Lemma length_name_bytes s : length (put_name_bytes s) = String.length s.
Proof. unfold put_name_bytes. induction s; cbn; auto. Qed.

Lemma reads_name s n : name_ok s -> n = Z.of_nat (String.length s) -> reads (read_name n) (put_name_bytes s) s.
Proof.
  intros [Hn Hl] ->. unfold read_name. eapply reads_step; [apply reads_kmalloc|].
  eapply reads_last; [apply reads_entry; by rewrite length_name_bytes|].
  rewrite u32_small by lia. rewrite (proj2 (Z.eqb_neq _ _)) by lia.
  unfold put_name_bytes. rewrite cstring_name by done. apply reads_ret.
Qed.

(** A loop reads the concatenation of what its rounds read. *)
Inductive reads_rounds {A X} (body : A -> reader A) (bytes : X -> list ascii) (step : A -> X -> A)
    : A -> list X -> Prop :=
| rounds_nil a : reads_rounds body bytes step a []
| rounds_cons a x l : reads (body a) (bytes x) (step a x) -> reads_rounds body bytes step (step a x) l ->
    reads_rounds body bytes step a (x :: l).

Lemma reads_for {A X} (body : A -> reader A) (bytes : X -> list ascii) step a (l : list X) n :
  reads_rounds body bytes step a l -> n = length l ->
  reads (for_loop n body a) (concat (bytes <$> l)) (fold_left step l a).
Proof.
  intros H ->. induction H as [a|a x l Hx _ IH]; [apply reads_ret|].
  cbn [length for_loop fmap list_fmap concat fold_left]. by eapply reads_bind.
Qed.

Lemma reads_rounds_app {A X} (body : A -> reader A) (bytes : X -> list ascii) step a l1 l2 :
  reads_rounds body bytes step a l1 -> reads_rounds body bytes step (fold_left step l1 a) l2 ->
  reads_rounds body bytes step a (l1 ++ l2).
Proof. induction 1 as [|a x l1 Hx _ IH]; intros H2; [done|]. cbn in *. constructor; auto. Qed.

(** ** Bitmaps written and read back

    A bitmap is written as its non-zero words of 64 bits, each with the number
    of its first bit. *)

Definition word_bits (x : Z * Z) : list Z := filter (fun b => Z.testbit x.2 (b - x.1) = true) (seqZ x.1 64).

Definition node_words (n : ebitmap_node) : list (Z * Z) :=
  filter (fun x => x.2 ≠ 0)
         (imap (fun i w => (en_startbit n + 64 * Z.of_nat i, w)) (en_maps n)).

Definition ebitmap_words (e : ebitmap) : list (Z * Z) := eb_node e ≫= node_words.

Definition word_ok (x : Z * Z) : Prop := 0 < x.2 < 2 ^ 64 /\ x.1 mod 64 = 0 /\ 0 <= x.1 /\ x.1 + 64 < 2 ^ 31.
Definition word_lt (x y : Z * Z) : Prop := x.1 + 64 <= y.1.

Lemma elem_of_word_bits x b : b ∈ word_bits x <-> x.1 <= b < x.1 + 64 /\ Z.testbit x.2 (b - x.1) = true.
Proof. unfold word_bits. rewrite list_elem_of_filter, elem_of_seqZ. tauto. Qed.

Lemma elem_of_node_words n x :
  node_wf n -> x ∈ node_words n <->
    exists i w, en_maps n !! i = Some w /\ x = (en_startbit n + 64 * Z.of_nat i, w) /\ w ≠ 0.
Proof.
  intros _. unfold node_words. rewrite list_elem_of_filter, elem_of_lookup_imap. split.
  - intros (? & i & w & -> & ?). by exists i, w.
  - intros (i & w & ? & -> & ?). split; [done|]. by exists i, w.
Qed.

Lemma node_wf_two n : node_wf n -> exists w0 w1, en_maps n = [w0; w1] /\ in_u 64 w0 /\ in_u 64 w1 /\
  en_startbit n mod 128 = 0 /\ 0 <= en_startbit n /\ en_startbit n + 128 < 2 ^ 32.
Proof.
  intros (Hl & Hm & Ha & Hs & Hb). rewrite EBITMAP_SIZE_val in *.
  destruct (en_maps n) as [|w0 [|w1 [|]]]; try done. inv Hm as [|? ? Hw0 Hm']. inv Hm' as [|? ? Hw1 _].
  by exists w0, w1.
Qed.

Lemma node_words_two n w0 w1 : en_maps n = [w0; w1] ->
  node_words n = (if decide (w0 = 0) then [] else [(en_startbit n, w0)]) ++
                 (if decide (w1 = 0) then [] else [(en_startbit n + 64, w1)]).
Proof.
  intros E. unfold node_words. rewrite E. cbn [imap].
  replace (en_startbit n + 64 * Z.of_nat 0) with (en_startbit n) by lia.
  change (64 * Z.of_nat 1) with 64. rewrite !filter_cons, filter_nil. cbn [snd].
  repeat case_decide; done.
Qed.

Lemma mod64_of_128 s : s mod 128 = 0 -> s mod 64 = 0 /\ (s + 64) mod 64 = 0 /\ (s + 64) mod 128 = 64.
Proof.
  intros H. apply Z.mod_divide in H as [q ->]; [|done]. split_and!.
  - replace (q * 128) with (q * 2 * 64) by lia. apply Z_mod_mult.
  - replace (q * 128 + 64) with ((q * 2 + 1) * 64) by lia. apply Z_mod_mult.
  - rewrite Z.add_comm, Z_mod_plus_full. done.
Qed.

Lemma word_range n w0 w1 x :
  en_maps n = [w0; w1] -> x ∈ node_words n -> en_startbit n <= x.1 /\ x.1 + 64 <= en_startbit n + 128.
Proof.
  intros E. rewrite (node_words_two n w0 w1) by done. rewrite elem_of_app.
  intros [Hx|Hx]; case_decide; (by apply not_elem_of_nil in Hx) || (apply list_elem_of_singleton in Hx as ->; cbn; lia).
Qed.

Lemma ebitmap_words_ok e :
  ebitmap_wf e -> eb_highbit e < 2 ^ 31 -> Forall word_ok (ebitmap_words e) /\ StronglySorted word_lt (ebitmap_words e).
Proof.
  intros [Hw Hs Hb _] Hh. unfold ebitmap_words. destruct e as [ns hb]. cbn [eb_node eb_highbit] in *.
  induction ns as [|n ns IH]; cbn; [by split; constructor|].
  inv Hw as [|? ? Hn Hw']. inv Hb as [|? ? Hbn Hb']. apply StronglySorted_inv in Hs as [Hs Hlt].
  destruct (IH Hw' Hs Hb') as [IH1 IH2]. unfold below in Hbn. rewrite EBITMAP_SIZE_val in Hbn.
  destruct (node_wf_two n Hn) as (w0 & w1 & E & Hw0 & Hw1 & Ha & Hs0 & Hs1).
  destruct (mod64_of_128 _ Ha) as (A1 & A2 & _). unfold in_u in *. split.
  - apply Forall_app. split; [|done]. rewrite (node_words_two n w0 w1) by done.
    unfold word_ok. repeat case_decide; repeat constructor; cbn; lia.
  - assert (forall x, x ∈ node_words n -> Forall (word_lt x) (ns ≫= node_words)) as Hfar.
    { intros x Hx. apply (word_range n w0 w1) in Hx as [_ Hx]; [|done]. apply Forall_forall.
      intros y (n' & Hy & Hn')%list_elem_of_bind. rewrite Forall_forall in Hw', Hlt.
      destruct (node_wf_two n' (Hw' _ Hn')) as (v0 & v1 & E' & _ & _ & Ha' & _).
      apply (word_range n' v0 v1) in Hy as [Hy _]; [|done]. specialize (Hlt _ Hn').
      unfold node_lt, word_lt in *. pose proof (aligned_lt (en_startbit n) (en_startbit n')) as Hal.
      rewrite EBITMAP_SIZE_val in Hal. lia. }
    rewrite (node_words_two n w0 w1) in * by done.
    repeat case_decide; cbn; repeat constructor; try done; try (apply Hfar; cbn; rewrite ?elem_of_cons; tauto); unfold word_lt; cbn; lia.
Qed.

Lemma node_bit_words n b :
  node_wf n -> node_bit n b = true <-> exists x, x ∈ node_words n /\ b ∈ word_bits x.
Proof.
  intros Hn. destruct (node_wf_two n Hn) as (w0 & w1 & E & Hw0 & Hw1 & _).
  assert (forall s w, in_u 64 w -> (exists x, x ∈ (if decide (w = 0) then [] else [(s, w)]) /\ b ∈ word_bits x) <->
    s <= b < s + 64 /\ Z.testbit w (b - s) = true) as Hone.
  { intros s w Hw. split.
    - intros (x & Hx & Hb). case_decide; [by apply not_elem_of_nil in Hx|].
      apply list_elem_of_singleton in Hx as ->. by apply elem_of_word_bits in Hb.
    - intros [Hr Ht]. exists (s, w). rewrite elem_of_word_bits. split; [|done].
      case_decide; [subst; by rewrite Z.bits_0 in Ht|]. by apply list_elem_of_singleton. }
  rewrite (node_words_two n w0 w1) by done. setoid_rewrite elem_of_app. transitivity
    ((en_startbit n <= b < en_startbit n + 64 /\ Z.testbit w0 (b - en_startbit n) = true) \/
     (en_startbit n + 64 <= b < en_startbit n + 64 + 64 /\ Z.testbit w1 (b - (en_startbit n + 64)) = true)).
  - unfold node_bit. rewrite EBITMAP_SIZE_val, E, !andb_true_iff, Z.leb_le, Z.ltb_lt.
    destruct (decide (b < en_startbit n + 64)).
    + split; [|intros [?|?]; [|lia]]; intros.
      * left. destruct H as [? H]. rewrite word_bit_cons_low in H by lia. split; [lia|done].
      * rewrite word_bit_cons_low by lia. split; [lia|tauto].
    + split; [|intros [?|?]; [lia|]]; intros.
      * right. destruct H as [? H]. rewrite word_bit_cons_high, word_bit_cons_low in H by lia.
        split; [lia|]. by replace (b - (en_startbit n + 64)) with (b - en_startbit n - 64) by lia.
      * rewrite word_bit_cons_high, word_bit_cons_low by lia.
        replace (b - en_startbit n - 64) with (b - (en_startbit n + 64)) by lia. split; [lia|tauto].
  - rewrite <- (Hone _ w0), <- (Hone _ w1) by done.
    split; [intros [(x & ? & ?)|(x & ? & ?)]|intros (x & [?|?] & ?)]; eauto.
Qed.

Lemma word_bits_sorted x : StronglySorted Z.lt (word_bits x).
Proof.
  unfold word_bits. apply filter_sorted. cut (forall n s, StronglySorted Z.lt (seqZ s (Z.of_nat n))).
  { intros H. apply (H 64%nat). }
  induction n as [|n IH]; intros s; [constructor|]. rewrite Nat2Z.inj_succ, seqZ_cons by lia.
  constructor; [replace (Z.pred (Z.succ (Z.of_nat n))) with (Z.of_nat n) by lia; apply IH|].
  apply Forall_forall. intros b Hb%elem_of_seqZ. lia.
Qed.

Lemma words_bits_sorted ws :
  StronglySorted word_lt ws -> StronglySorted Z.lt (ws ≫= word_bits).
Proof.
  induction 1 as [|x ws Hs IH Hx]; cbn; [constructor|]. apply sorted_app; [apply word_bits_sorted|done|].
  intros b c Hb%elem_of_word_bits (y & Hc%elem_of_word_bits & Hy)%list_elem_of_bind.
  rewrite Forall_forall in Hx. specialize (Hx y Hy). unfold word_lt in Hx. lia.
Qed.

Lemma bits_of_words e :
  ebitmap_wf e -> eb_highbit e < 2 ^ 31 -> ebitmap_bits e = ebitmap_words e ≫= word_bits.
Proof.
  intros Hwf Hh. destruct (bits_spec e Hwf) as [Hs Hb]. destruct (ebitmap_words_ok e Hwf Hh) as [_ Hw].
  apply (sorted_unique Z.lt); [lia|done|by apply words_bits_sorted|]. intros b. rewrite Hb. unfold ebit, ebitmap_words.
  assert (Forall node_wf (eb_node e)) as Hn by apply Hwf. rewrite Forall_forall in Hn.
  rewrite list_elem_of_bind. setoid_rewrite list_elem_of_bind. split.
  - intros (n & Hin & Hnb)%nodes_bit_true. apply node_bit_words in Hnb as (x & Hx & Hxb); [|by apply Hn]. eauto.
  - intros (x & Hxb & n & Hx & Hin). apply nodes_bit_true. exists n. split; [done|]. apply node_bit_words; [by apply Hn|]. eauto.
Qed.

(** The arithmetic of the two loops on a bit of the word that starts at [s]. *)
Lemma round_word s b :
  0 <= s -> s mod 64 = 0 -> s + 64 < 2 ^ 31 -> s <= b < s + 64 ->
  s32 b = b /\ rounddown_int b = s /\ rounddown_ul b = s /\ roundup_ul (b + 1) = s + 64.
Proof.
  intros Hs Ha Hh Hb. apply Z.mod_divide in Ha as [q ->]; [|done].
  assert (b mod 64 = b - q * 64) as Hm by (symmetry; apply (Z.mod_unique_pos b 64 q); lia).
  assert ((b + 64) `div` 64 = q + 1) as Hd by (symmetry; apply (Z.div_unique_pos _ 64 _ (b - q * 64)); lia).
  unfold rounddown_int, rounddown_ul, roundup_ul. change BITS_PER_U64 with 64.
  rewrite Z.rem_mod_nonneg, (u64_small b), Hm by lia.
  replace (b - (b - q * 64)) with (q * 64) by lia.
  replace (b + 1 + (64 - 1)) with (b + 64) by lia.
  rewrite !u64_small by lia. rewrite Hd.
  rewrite !s32_small by lia. split_and!; lia.
Qed.

Lemma word_bits_in x : Forall (fun b => x.1 <= b < x.1 + 64) (word_bits x).
Proof. apply Forall_forall. by intros b [? _]%elem_of_word_bits. Qed.

Lemma word_bits_nonempty x : word_ok x -> word_bits x ≠ [].
Proof.
  intros (Hw & _ & Hs & _) E. destruct (ffs_nonzero x.2 Hw) as [Hr Ht].
  assert (x.1 + __ffs x.2 ∈ word_bits x) as H.
  { apply elem_of_word_bits. split; [lia|]. by replace (x.1 + __ffs x.2 - x.1) with (__ffs x.2) by lia. }
  rewrite E in H. by apply not_elem_of_nil in H.
Qed.

(** The first loop on the rest of a word, and on a whole word. *)
Lemma count_word_rest s l c :
  0 <= s -> s mod 64 = 0 -> s + 64 < 2 ^ 31 -> Forall (fun b => s <= b < s + 64) l ->
  fold_left count_step l (c, s + 64, s) = (c, s + 64, s).
Proof.
  intros Hs Ha Hh. induction 1 as [|b l Hb _ IH]; [done|]. cbn [fold_left].
  destruct (round_word s b) as (_ & R1 & R2 & R3); [done..|].
  replace (count_step (c, s + 64, s) b) with (c, s + 64, s); [done|].
  unfold count_step. by rewrite R1, R3, Z.ltb_irrefl.
Qed.

Lemma count_word x c lb ls :
  word_ok x -> ls < x.1 -> fold_left count_step (word_bits x) (c, lb, ls) = (u32 (c + 1), x.1 + 64, x.1).
Proof.
  intros Hx Hls. pose proof (word_bits_nonempty x Hx) as Hne. pose proof (word_bits_in x) as Hin.
  destruct Hx as (_ & Ha & Hs & Hh). destruct (word_bits x) as [|b l]; [done|]. inv Hin as [|? ? Hb Hl].
  cbn [fold_left]. destruct (round_word x.1 b) as (_ & R1 & R2 & R3); [done..|].
  replace (count_step (c, lb, ls) b) with (u32 (c + 1), x.1 + 64, x.1); [by apply count_word_rest|].
  unfold count_step. by rewrite R1, R2, R3, (proj2 (Z.ltb_lt _ _)).
Qed.

(** The second loop: the bits are collected in [map]. *)
Lemma write_word_rest s l map out :
  0 <= s -> s mod 64 = 0 -> s + 64 < 2 ^ 31 -> Forall (fun b => s <= b < s + 64) l ->
  fold_left write_step l (map, s, out) = (fold_left (fun w b => w .| u64 (1 .<< (b - s))) l map, s, out).
Proof.
  intros Hs Ha Hh Hl. revert map. induction Hl as [|b l Hb _ IH]; intros map; [done|]. cbn [fold_left].
  destruct (round_word s b) as (_ & R1 & R2 & R3); [done..|].
  rewrite <- IH. f_equal. unfold write_step. by rewrite R1, Z.ltb_irrefl.
Qed.

Lemma collect_bits s l map i :
  Forall (fun b => s <= b < s + 64) l -> 0 <= i ->
  Z.testbit (fold_left (fun w b => w .| u64 (1 .<< (b - s))) l map) i =
  Z.testbit map i || bool_decide (s + i ∈ l).
Proof.
  intros Hl Hi. revert map. induction Hl as [|b l Hb _ IH]; intros map; cbn [fold_left].
  - by rewrite bool_decide_false, orb_false_r by apply not_elem_of_nil.
  - rewrite IH, Z.lor_spec. destruct (pow2_u64 (b - s)) as [-> _]; [lia|]. rewrite testbit_pow2 by lia.
    rewrite (bool_decide_ext (s + i ∈ b :: l) (i = b - s \/ s + i ∈ l)) by (rewrite elem_of_cons; intuition lia).
    rewrite bool_decide_or. by destruct (Z.testbit map i), (bool_decide _).
Qed.

Lemma collect_word x : word_ok x -> fold_left (fun w b => w .| u64 (1 .<< (b - x.1))) (word_bits x) 0 = x.2.
Proof.
  intros (Hw & _ & Hs & _). bitwise i Hi. rewrite collect_bits, Z.bits_0 by (apply word_bits_in || done). cbn.
  rewrite (bool_decide_ext _ (i < 64 /\ Z.testbit x.2 i = true)).
  - destruct (decide (i < 64)).
    + destruct (Z.testbit x.2 i); [by apply bool_decide_true|]. apply bool_decide_false. by intros [_ ?].
    + rewrite (testbit_high 64) by lia. apply bool_decide_false. lia.
  - rewrite elem_of_word_bits. replace (x.1 + i - x.1) with i by lia. intuition lia.
Qed.

Definition flush (map last_startbit : Z) : list ascii := if nz map then put_map last_startbit map else [].

Lemma write_word x map ls out :
  word_ok x -> ls < x.1 ->
  fold_left write_step (word_bits x) (map, ls, out) = (x.2, x.1, out ++ flush map ls).
Proof.
  intros Hx Hls. pose proof (collect_word x Hx) as Hc. pose proof (word_bits_nonempty x Hx) as Hne.
  pose proof (word_bits_in x) as Hin. destruct Hx as (Hw & Ha & Hs & Hh).
  destruct (word_bits x) as [|b l]; [done|]. inv Hin as [|? ? Hb Hl].
  cbn [fold_left] in *. destruct (round_word x.1 b) as (_ & R1 & R2 & R3); [done..|].
  replace (write_step (map, ls, out) b) with (0 .| u64 (1 .<< (b - x.1)), x.1, out ++ flush map ls).
  - by rewrite write_word_rest, Hc.
  - unfold write_step, flush, nz. rewrite R1, R2, (proj2 (Z.ltb_lt _ _)) by done.
    destruct (map =? 0); cbn [negb]; [by rewrite app_nil_r|done].
Qed.

Lemma count_words ws c lb ls :
  Forall word_ok ws -> StronglySorted word_lt ws -> Forall (fun x => ls < x.1) ws ->
  0 <= c -> c + Z.of_nat (length ws) < 2 ^ 32 ->
  exists ls', fold_left count_step (ws ≫= word_bits) (c, lb, ls) =
    (c + Z.of_nat (length ws), match last ws with Some x => x.1 + 64 | None => lb end, ls').
Proof.
  intros Hok Hs. revert c lb ls. induction Hs as [|x ws Hs IH Hx]; intros c lb ls Hls Hc Hlen.
  - exists ls. cbn. by rewrite Z.add_0_r.
  - inv Hok as [|? ? Hxok Hok']. inv Hls as [|? ? Hlsx _]. cbn [length] in Hlen. cbn [mbind list_bind].
    rewrite fold_left_app, count_word, u32_small by (done || lia).
    destruct (IH Hok' (c + 1) (x.1 + 64) x.1) as [ls' ->]; [|lia|lia|].
    { eapply Forall_impl; [exact Hx|]. unfold word_lt. cbn. lia. }
    exists ls'. rewrite last_cons. cbn [length]. f_equal. f_equal; [lia|]. by destruct (last ws).
Qed.

Lemma write_words ws map ls out :
  Forall word_ok ws -> StronglySorted word_lt ws -> Forall (fun x => ls < x.1) ws ->
  exists map' ls' out', fold_left write_step (ws ≫= word_bits) (map, ls, out) = (map', ls', out') /\
    out' ++ flush map' ls' = out ++ flush map ls ++ concat ((fun x => put_map x.1 x.2) <$> ws).
Proof.
  intros Hok Hs. revert map ls out. induction Hs as [|x ws Hs IH Hx]; intros map ls out Hls.
  - exists map, ls, out. cbn. by rewrite app_nil_r.
  - inv Hok as [|? ? Hxok Hok']. inv Hls as [|? ? Hlsx _]. cbn [mbind list_bind].
    rewrite fold_left_app, write_word by done.
    destruct (IH Hok' x.2 x.1 (out ++ flush map ls)) as (m' & l' & o' & -> & Ho).
    { eapply Forall_impl; [exact Hx|]. unfold word_lt. cbn. lia. }
    exists m', l', o'. split; [done|]. rewrite Ho, <- !app_assoc. cbn [fmap list_fmap concat].
    do 3 f_equal. destruct Hxok as [Hw _]. unfold flush, nz. rewrite (proj2 (Z.eqb_neq _ _)) by lia. done.
Qed.

Lemma words_count ws lo hi :
  StronglySorted word_lt ws -> Forall (fun x => lo <= x.1 /\ x.1 + 64 <= hi) ws -> lo <= hi ->
  lo + 64 * Z.of_nat (length ws) <= hi.
Proof.
  intros Hs. revert lo. induction Hs as [|x ws Hs IH Hx]; intros lo Hr Hlo; cbn [length]; [lia|].
  inv Hr as [|? ? Hxr Hr']. specialize (IH (x.1 + 64)).
  enough (x.1 + 64 + 64 * Z.of_nat (length ws) <= hi) by lia. apply IH; [|lia].
  rewrite Forall_forall in *. intros y Hy. specialize (Hx y Hy). specialize (Hr' y Hy). unfold word_lt in Hx. lia.
Qed.

Definition words_top (ws : list (Z * Z)) : Z := match last ws with Some x => x.1 + 64 | None => 0 end.

(** What is written: a header and the words. *)
Lemma ebitmap_write_words e :
  ebitmap_wf e -> eb_highbit e < 2 ^ 31 ->
  let ws := ebitmap_words e in
  Z.of_nat (length ws) < 2 ^ 32 /\
  ebitmap_write e = put_u32s [64; words_top ws; Z.of_nat (length ws)] ++ concat ((fun x => put_map x.1 x.2) <$> ws).
Proof.
  intros Hwf Hh ws. destruct (ebitmap_words_ok e Hwf Hh) as [Hok Hs]. fold ws in Hok, Hs.
  assert (Forall (fun x : Z * Z => 0 <= x.1 /\ x.1 + 64 <= 2 ^ 31) ws) as Hr.
  { eapply Forall_impl; [exact Hok|]. intros x (_ & _ & ? & ?). lia. }
  pose proof (words_count ws 0 (2 ^ 31) Hs Hr ltac:(lia)) as Hcount. split; [lia|].
  unfold ebitmap_write. rewrite (bits_of_words e Hwf Hh). fold ws.
  assert (s32 <$> (ws ≫= word_bits) = ws ≫= word_bits) as ->.
  { rewrite <- (list_fmap_id (ws ≫= word_bits)) at 2. apply list_fmap_ext. intros i b Hb%list_elem_of_lookup_2.
    apply list_elem_of_bind in Hb as (x & Hb%elem_of_word_bits & Hx). rewrite Forall_forall in Hr.
    specialize (Hr x Hx). apply s32_small. unfold id. lia. }
  destruct (count_words ws 0 0 (-1) Hok Hs) as [ls ->]; [|lia|lia|].
  { eapply Forall_impl; [exact Hr|]. cbn. lia. }
  destruct (write_words ws 0 INT_MIN [] Hok Hs) as (mp & ls' & out & -> & Hout).
  { eapply Forall_impl; [exact Hr|]. unfold INT_MIN. cbn. lia. }
  fold (flush mp ls'). rewrite Hout. cbn [app flush nz Z.eqb negb]. fold (words_top ws).
  rewrite Z.add_0_l, u32_small; [done|]. unfold words_top.
  destruct (last ws) as [x|] eqn:E; [|lia]. apply last_Some in E as [l' E].
  rewrite Forall_forall in Hr. specialize (Hr x). rewrite E in Hr. cbn in Hr.
  assert (x ∈ l' ++ [x]) as Hx by (apply elem_of_app; right; by apply list_elem_of_singleton). specialize (Hr Hx). lia.
Qed.

(** What reading a word does to the nodes read so far. *)
Definition add_word (nodes : list ebitmap_node) (x : Z * Z) : list ebitmap_node :=
  let '(s, w) := x in
  let start := s - s mod 128 in
  let maps := if s =? start then [w; 0] else [0; w] in
  match nodes with
  | n :: ns =>
      if en_startbit n + 128 <=? s then mk_ebitmap_node maps start :: nodes
      else mk_ebitmap_node (<[1%nat := w]> (en_maps n)) (en_startbit n) :: ns
  | [] => [mk_ebitmap_node maps start]
  end.

(** The word can follow the nodes: it starts a node, or is the second of the last. *)
Definition word_fits (nodes : list ebitmap_node) (x : Z * Z) : Prop :=
  match nodes with
  | n :: _ => length (en_maps n) = 2%nat /\ (en_startbit n + 128 <= x.1 \/ x.1 = en_startbit n + 64)
  | [] => True
  end.

Lemma land_63 s : s mod 64 = 0 -> s .& (64 - 1) = 0.
Proof. intros H. change (64 - 1) with (Z.ones 6). by rewrite Z.land_ones by lia. Qed.

Lemma store_map_word map index maps :
  0 < map < 2 ^ 64 -> 0 <= index < Z.of_nat (length maps) ->
  store_map (Z.to_nat EBITMAP_UNIT_NUMS) map index maps = Some (<[Z.to_nat index := map]> maps).
Proof.
  intros Hm Hi. change (Z.to_nat EBITMAP_UNIT_NUMS) with 2%nat. cbn [store_map].
  unfold nz at 1. rewrite (proj2 (Z.eqb_neq map 0)) by lia. cbn [negb].
  rewrite (proj2 (Z.leb_le _ _)), (proj2 (Z.ltb_lt _ _)) by lia. cbn [andb].
  assert (EBITMAP_SHIFT_UNIT_SIZE map = 0) as ->.
  { unfold EBITMAP_SHIFT_UNIT_SIZE. change (EBITMAP_UNIT_SIZE `div` 2) with 32.
    rewrite !Z.shiftr_div_pow2, Z.div_div by lia. apply Z.div_small. lia. }
  cbn [nz Z.eqb negb]. by rewrite Z.land_ones, Z.mod_small by lia.
Qed.

(** The end of the loop body, once the node is known. *)
Lemma reads_store n s w (rest : list ebitmap_node) :
  en_startbit n <= s < en_startbit n + 128 -> s < 2 ^ 32 -> 0 <= en_startbit n -> length (en_maps n) = 2%nat -> 0 < w < 2 ^ 64 ->
  reads (b ← next_entry 8;
         maps ← lift (store_map (Z.to_nat EBITMAP_UNIT_NUMS) (le_to_cpu b)
                        (u32 (s - en_startbit n) `div` EBITMAP_UNIT_SIZE) (en_maps n));
         mret (mk_ebitmap_node maps (en_startbit n) :: rest))
        (put_u64 w)
        (mk_ebitmap_node (<[Z.to_nat ((s - en_startbit n) `div` 64) := w]> (en_maps n)) (en_startbit n) :: rest).
Proof.
  intros Hr Hs Hn Hl Hw. eapply reads_last; [apply reads_entry; unfold put_u64; by rewrite length_cpu_to_le|].
  rewrite le_put_u64 by (unfold in_u; lia). rewrite u32_small by lia. change EBITMAP_UNIT_SIZE with 64.
  eapply reads_step; [apply reads_lift, store_map_word; [done|]|apply reads_ret].
  rewrite Hl. split; [apply Z.div_pos; lia|]. apply Z.div_lt_upper_bound; lia.
Qed.

Lemma reads_node_new nodes s :
  0 <= s < 2 ^ 32 -> match nodes with n :: _ => en_startbit n + 128 <= s | [] => True end ->
  reads (read_node (head nodes) s) [] (true, mk_ebitmap_node [0; 0] (s - s mod 128)).
Proof.
  intros Hs Hn rest. unfold read_node. rewrite EBITMAP_SIZE_val.
  pose proof (Z.mod_pos_bound s 128). pose proof (Z.mod_le s 128).
  destruct nodes as [|n ns]; cbn [head].
  - by rewrite u32_small by lia.
  - rewrite (proj2 (Z.leb_le _ _)) by lia. by rewrite u32_small by lia.
Qed.

Lemma reads_map hb nodes x :
  word_ok x -> x.1 + 64 <= hb < 2 ^ 32 -> word_fits nodes x -> Forall (fun n => 0 <= en_startbit n) nodes ->
  reads (read_map 64 hb nodes) (put_map x.1 x.2) (add_word nodes x).
Proof.
  intros (Hw & Ha & Hs & Hs') Hhb Hfit Hpos. destruct x as [s w]. cbn [fst snd] in *.
  unfold put_map. rewrite u32_small by lia. unfold read_map.
  eapply reads_bind; [apply reads_u32; unfold in_u; lia|].
  eapply reads_step; [apply reads_guard; by rewrite land_63|].
  eapply reads_step; [apply reads_guard; rewrite u32_small by lia; apply Z.leb_le; lia|].
  destruct (round_down_bit s Hs) as (Hr1 & Hr2 & Hr3). rewrite EBITMAP_SIZE_val in *.
  assert (Z.to_nat ((s - (s - s mod 128)) `div` 64) = if s =? s - s mod 128 then 0%nat else 1%nat) as Hidx.
  { replace (s - (s - s mod 128)) with (s mod 128) by lia. apply Z.mod_divide in Ha as [q ->]; [|done].
    replace (q * 64) with (64 * q) by lia. replace 128 with (64 * 2) by lia. rewrite Z.mul_mod_distr_l by lia.
    rewrite (Z.mul_comm 64 (q mod 2)), Z.div_mul by lia. pose proof (Z.mod_pos_bound q 2).
    destruct (Z.eqb_spec (64 * q) (64 * q - q mod 2 * 64)); lia. }
  assert (reads (b ← next_entry 8;
         maps ← lift (store_map (Z.to_nat EBITMAP_UNIT_NUMS) (le_to_cpu b)
                        (u32 (s - (s - s mod 128)) `div` EBITMAP_UNIT_SIZE) [0; 0]);
         mret (mk_ebitmap_node maps (s - s mod 128) :: nodes)) (put_u64 w)
       (mk_ebitmap_node (if s =? s - s mod 128 then [w; 0] else [0; w]) (s - s mod 128) :: nodes)) as Hnew.
  { pose proof (reads_store (mk_ebitmap_node [0; 0] (s - s mod 128)) s w nodes) as H. cbn [en_startbit en_maps] in H.
    rewrite Hidx in H. destruct (s =? s - s mod 128); (apply H; [lia|lia|lia|done|done]). }
  destruct nodes as [|n ns]; cbn [add_word word_fits fst] in *.
  - eapply reads_step; [apply (reads_node_new []); [lia|done]|exact Hnew].
  - destruct Hfit as [Hl [Hfar|Hnear]].
    + rewrite (proj2 (Z.leb_le _ _)) by lia.
      eapply reads_step; [apply (reads_node_new (n :: ns)); [lia|done]|exact Hnew].
    + rewrite (proj2 (Z.leb_gt _ _)) by lia. inv Hpos.
      eapply (reads_step _ _ _ (false, n)); [|].
      * intros rest. unfold read_node. cbn [head]. rewrite EBITMAP_SIZE_val, (proj2 (Z.leb_gt _ _)) by lia.
        by rewrite (proj2 (Z.leb_gt _ _)) by lia.
      * pose proof (reads_store n (en_startbit n + 64) w ns) as H. replace (en_startbit n + 64 - en_startbit n) with 64 in * by lia.
        apply H; [lia..|done|done].
Qed.

(** A node can follow the nodes read so far. *)
Definition node_fits (acc : list ebitmap_node) (n : ebitmap_node) : Prop :=
  match acc with n0 :: _ => length (en_maps n0) = 2%nat /\ en_startbit n0 + 128 <= en_startbit n | [] => True end.

Lemma add_word_first acc s w :
  s mod 128 = 0 -> match acc with n0 :: _ => en_startbit n0 + 128 <= s | [] => True end ->
  add_word acc (s, w) = mk_ebitmap_node [w; 0] s :: acc.
Proof.
  intros Ha Hf. unfold add_word. rewrite Ha, Z.sub_0_r, Z.eqb_refl.
  destruct acc as [|n0 acc]; [done|]. by rewrite (proj2 (Z.leb_le _ _)).
Qed.

Lemma add_word_second acc s w :
  s mod 128 = 64 -> match acc with n0 :: _ => en_startbit n0 + 128 <= s - 64 | [] => True end ->
  add_word acc (s, w) = mk_ebitmap_node [0; w] (s - 64) :: acc.
Proof.
  intros Ha Hf. unfold add_word. rewrite Ha, (proj2 (Z.eqb_neq _ _)) by lia.
  destruct acc as [|n0 acc]; [done|]. by rewrite (proj2 (Z.leb_le _ _)) by lia.
Qed.

Lemma reads_node_words hb acc n :
  node_wf n -> node_nonempty n -> below hb n -> hb < 2 ^ 31 -> node_fits acc n ->
  Forall (fun n => 0 <= en_startbit n) acc ->
  reads_rounds (read_map 64 hb) (fun x => put_map x.1 x.2) add_word acc (node_words n) /\
  fold_left add_word (node_words n) acc = n :: acc.
Proof.
  intros Hn [b Hne] Hb Hh Hf Hpos. apply node_bit_words in Hne as (x & Hx & _); [|done].
  assert (ebitmap_wf (mk_ebitmap [n] hb)) as Hwf.
  { unfold below in Hb. rewrite EBITMAP_SIZE_val in Hb. destruct Hn as (? & ? & ? & ? & ?).
    constructor; cbn; repeat constructor; try done; try (unfold below; rewrite EBITMAP_SIZE_val); lia. }
  destruct (ebitmap_words_ok _ Hwf Hh) as [Hok _]. unfold ebitmap_words in Hok. cbn in Hok. rewrite app_nil_r in Hok.
  destruct (node_wf_two n Hn) as (w0 & w1 & E & _ & _ & Ha & Hs0 & _). destruct (mod64_of_128 _ Ha) as (_ & _ & A).
  unfold below in Hb. rewrite EBITMAP_SIZE_val in Hb. rewrite (node_words_two n w0 w1) in * by done.
  assert (n = mk_ebitmap_node [w0; w1] (en_startbit n)) as En by (destruct n; cbn in *; by rewrite E).
  assert (match acc with n0 :: _ => en_startbit n0 + 128 <= en_startbit n | [] => True end) as Hf'.
  { destruct acc; [done|]. apply Hf. }
  assert (forall x, word_ok x -> en_startbit n <= x.1 -> x.1 <= en_startbit n + 64 ->
            reads (read_map 64 hb acc) (put_map x.1 x.2) (add_word acc x)) as Hread.
  { intros y Hy H1 H2. apply reads_map; [done|lia| |done]. destruct acc as [|n0 acc]; [done|]. cbn. split; [apply Hf|]. lia. }
  destruct (decide (w0 = 0)) as [->|Hw0].
  - destruct (decide (w1 = 0)) as [->|Hw1]; [by apply not_elem_of_nil in Hx|]. cbn [app] in *.
    inv Hok as [|? ? Hok1 _]. split.
    + constructor; [apply Hread; [done|cbn; lia..]|constructor].
    + cbn [fold_left]. rewrite add_word_second; [|exact A|];
        replace (en_startbit n + 64 - 64) with (en_startbit n) by lia; [by rewrite <- En|exact Hf'].
  - destruct (decide (w1 = 0)) as [->|Hw1]; cbn [app] in *.
    + inv Hok as [|? ? Hok0 _]. split.
      * constructor; [apply Hread; [done|cbn; lia..]|constructor].
      * cbn [fold_left]. rewrite add_word_first by done. by rewrite <- En.
    + inv Hok as [|? ? Hok0 Hok']. inv Hok' as [|? ? Hok1 _].
      assert (add_word (mk_ebitmap_node [w0; 0] (en_startbit n) :: acc) (en_startbit n + 64, w1) = n :: acc) as Hadd.
      { unfold add_word. cbn [en_startbit en_maps]. rewrite (proj2 (Z.leb_gt _ _)) by lia. cbn. by rewrite <- En. }
      split.
      * constructor; [apply Hread; [done|cbn; lia..]|]. rewrite add_word_first by done.
        constructor; [|constructor]. apply reads_map; [done|cbn; lia|cbn; by split; [|right]|by constructor].
      * cbn [fold_left]. rewrite (add_word_first acc) by done. exact Hadd.
Qed.

Lemma reads_nodes hb ns acc :
  ebitmap_wf (mk_ebitmap ns hb) -> Forall node_nonempty ns -> hb < 2 ^ 31 -> Forall (node_fits acc) ns ->
  Forall (fun n => 0 <= en_startbit n) acc ->
  reads_rounds (read_map 64 hb) (fun x => put_map x.1 x.2) add_word acc (ns ≫= node_words) /\
  fold_left add_word (ns ≫= node_words) acc = rev ns ++ acc.
Proof.
  intros Hwf Hne Hh. revert acc. induction ns as [|n ns IH]; intros acc Hf Hpos; [by split; [constructor|]|].
  apply wf_cons in Hwf as (Hn & Hlt & Hb & Hwf). inv Hne as [|? ? Hn0 Hne']. inv Hf as [|? ? Hfn _].
  destruct (reads_node_words hb acc n Hn Hn0 Hb Hh Hfn Hpos) as [R1 F1]. destruct (IH Hwf Hne' (n :: acc)) as [R2 F2].
  - destruct Hwf as [Hw _ _ _]. cbn in Hw. rewrite Forall_forall in *. intros n' Hn'. destruct Hn as (Hl & _ & Ha & _).
    split; [done|]. destruct (Hw n' Hn') as (_ & _ & Ha' & _). specialize (Hlt n' Hn'). unfold node_lt in Hlt.
    pose proof (aligned_lt _ _ Ha Ha' Hlt) as H. by rewrite EBITMAP_SIZE_val in H.
  - constructor; [|done]. by destruct Hn as (_ & _ & _ & ? & _).
  - cbn [mbind list_bind]. split.
    + apply reads_rounds_app; [done|by rewrite F1].
    + rewrite fold_left_app, F1, F2. cbn [rev]. by rewrite <- app_assoc.
Qed.

(** The header gives back [highbit]. *)
Lemma words_top_round e :
  ebitmap_canon e -> eb_highbit e < 2 ^ 31 ->
  let hb := u32 (words_top (ebitmap_words e) + (EBITMAP_SIZE - 1)) in hb - hb mod EBITMAP_SIZE = eb_highbit e.
Proof.
  intros [Hwf Hne Htop] Hh. rewrite Htop, EBITMAP_SIZE_val. unfold nodes_top, words_top, ebitmap_words.
  destruct e as [ns hb]. cbn [eb_node eb_highbit] in *. destruct (last ns) as [n|] eqn:El.
  - apply last_Some in El as [ns' ->]. rewrite bind_app. cbn [mbind list_bind]. rewrite app_nil_r.
    destruct Hwf as [Hw _ Hb _]. cbn in Hw, Hb.
    apply Forall_app in Hw as [_ Hw]. apply Forall_app in Hne as [_ Hne]. apply Forall_app in Hb as [_ Hb].
    inv Hw as [|? ? Hn _]. inv Hne as [|? ? Hn0 _]. inv Hb as [|? ? Hbn _]. unfold below in Hbn. rewrite EBITMAP_SIZE_val in Hbn.
    destruct Hn0 as [b Hn0]. apply node_bit_words in Hn0 as (x & Hx & _); [|done].
    destruct (node_wf_two n Hn) as (w0 & w1 & E & _ & _ & Ha & Hs & _).
    assert (exists y, last ((ns' ≫= node_words) ++ node_words n) = Some y /\ en_startbit n <= y.1 <= en_startbit n + 64) as (y & -> & Hy).
    { rewrite last_app. destruct (last (node_words n)) as [y|] eqn:Ey.
      - exists y. split; [done|]. apply last_Some_elem_of in Ey. apply (word_range n w0 w1) in Ey; [lia|done].
      - apply last_None in Ey. rewrite Ey in Hx. by apply not_elem_of_nil in Hx. }
    rewrite EBITMAP_SIZE_val, u32_small by lia.
    apply Z.mod_divide in Ha as [q Hq]; [|done]. rewrite Hq in *.
    assert ((y.1 + 64 + (128 - 1)) mod 128 = y.1 + 64 + (128 - 1) - (q + 1) * 128) as ->; [|lia].
    symmetry. apply (Z.mod_unique_pos _ 128 (q + 1)); lia.
  - apply last_None in El as ->. done.
Qed.

(** What [ebitmap_write] writes for a bitmap in canonical form,
    [ebitmap_read] reads back: it consumes exactly these bytes and gives an
    equal bitmap, the same nodes and the same [highbit]. *)
Lemma reads_ebitmap e :
  ebitmap_canon e -> eb_highbit e < 2 ^ 31 -> reads ebitmap_read (ebitmap_write e) e.
Proof.
  intros Hc Hh. pose proof (canon_wf _ Hc) as Hwf. destruct (ebitmap_write_words e Hwf Hh) as [Hlen ->].
  pose proof (words_top_round e Hc Hh) as Htop. cbn zeta in Htop. unfold ebitmap_read.
  destruct (ebitmap_words_ok e Hwf Hh) as [Hok _].
  assert (in_u 32 (words_top (ebitmap_words e))) as Hwt.
  { unfold words_top. destruct (last (ebitmap_words e)) as [x|] eqn:E; [|unfold in_u; lia].
    apply last_Some_elem_of in E. rewrite Forall_forall in Hok. destruct (Hok x E) as (_ & _ & ? & ?). unfold in_u. lia. }
  eapply reads_bind.
  { apply reads_u32s; [done|]. repeat constructor; try done; unfold in_u in *; lia. }
  cbn [item nth]. eapply reads_step; [by apply reads_guard|]. rewrite Htop.
  destruct (Z.eqb_spec (eb_highbit e) 0) as [E0|_].
  - assert (eb_node e = []) as En.
    { destruct e as [[|n ns] hb]; [done|]. apply wf_cons in Hwf as (Hn & _ & Hb & _). cbn in E0. subst hb.
      unfold below in Hb. rewrite EBITMAP_SIZE_val in Hb. destruct Hn as (_ & _ & _ & ? & _). lia. }
    unfold ebitmap_words. rewrite En. destruct e as [ns hb]. cbn in *. subst. apply reads_ret.
  - destruct (reads_nodes (eb_highbit e) (eb_node e) []) as [R F].
    + by destruct e.
    + apply Hc.
    + done.
    + by apply Forall_true.
    + constructor.
    + eapply reads_last.
      * eapply reads_for; [exact R|]. by rewrite Nat2Z.id.
      * fold (ebitmap_words e) in F. unfold ebitmap_words. fold (ebitmap_words e). rewrite F, app_nil_r, rev_involutive.
        destruct e. apply reads_ret.
Qed.

(** ** What a successful read establishes *)

Definition gives {A} (c : reader A) (P : A -> Prop) : Prop :=
  forall fp m a fp' m', c fp m = Some (Done a fp' m') -> P a.

Lemma gives_ret {A} (a : A) (P : A -> Prop) : P a -> gives (mret a) P.
Proof. intros HP fp m a' fp' m' [= <- _ _]. done. Qed.

Lemma gives_bind {A B} (c : reader A) (f : A -> reader B) (P : A -> Prop) (Q : B -> Prop) :
  gives c P -> (forall a, P a -> gives (f a) Q) -> gives (c ≫= f) Q.
Proof.
  intros Hc Hf fp m b fp' m' H. unfold mbind, reader_bind in H.
  destruct (c fp m) as [[a fp1 m1|]|] eqn:E; try done. eapply Hf; [by eapply Hc|done].
Qed.

Lemma gives_impl {A} (c : reader A) (P Q : A -> Prop) : gives c P -> (forall a, P a -> Q a) -> gives c Q.
Proof. intros Hc HPQ fp m a fp' m' H. eapply HPQ, Hc, H. Qed.

Lemma gives_any {A} (c : reader A) : gives c (fun _ => True).
Proof. done. Qed.

Lemma gives_fail {A} rc (P : A -> Prop) : gives (fail rc) P.
Proof. by intros fp m a fp' m' H. Qed.

Lemma gives_fault {A} (P : A -> Prop) : gives fault P.
Proof. by intros fp m a fp' m' H. Qed.

Lemma gives_lift {A} (o : option A) : gives (lift o) (fun a => o = Some a).
Proof. destruct o; [|apply gives_fault]. by apply gives_ret. Qed.

Lemma gives_guard b : gives (guard_ b) (fun _ => b = true).
Proof. destruct b; [by apply gives_ret|apply gives_fail]. Qed.

Lemma gives_call {A} (f : kmem -> option (Z * A * kmem)) :
  gives (call f) (fun a => exists m m', f m = Some (0, a, m')).
Proof.
  intros fp m a fp' m' H. unfold call in H. destruct (f m) as [[[rc a'] m1]|] eqn:E; [|done].
  destruct (nz rc) eqn:Erc; [done|]. apply nz_false in Erc as ->. injection H as <- _ _. eauto.
Qed.

Lemma gives_for {A} n (body : A -> reader A) a (I : A -> Prop) :
  I a -> (forall a, I a -> gives (body a) I) -> gives (for_loop n body a) I.
Proof.
  intros Ha Hbody. revert a Ha. induction n as [|n IH]; intros a Ha; [by apply gives_ret|].
  eapply gives_bind; [by apply Hbody|]. intros a' Ha'. by apply IH.
Qed.

(** The same with the number of rounds made. *)
Lemma gives_for_count {A} n (body : A -> reader A) a (I : nat -> A -> Prop) :
  I 0%nat a -> (forall k a, (k < n)%nat -> I k a -> gives (body a) (I (S k))) -> gives (for_loop n body a) (I n).
Proof.
  intros H0 Hb.
  enough (forall k r a, (k + r = n)%nat -> I k a -> gives (for_loop r body a) (I n)) as H by by apply (H 0%nat n a).
  intros k r. revert k. induction r as [|r IH]; intros k a' Hk Ha.
  - apply gives_ret. by replace n with k by lia.
  - eapply gives_bind; [apply (Hb k); [lia|done]|]. intros a2 Ha2. apply (IH (S k)); [lia|done].
Qed.

Lemma le_to_cpu_range b : 0 <= le_to_cpu b < 256 ^ Z.of_nat (length b).
Proof.
  induction b as [|c b IH]; [done|]. change (le_to_cpu (c :: b)) with (uchar c + 256 * le_to_cpu b).
  assert (0 <= uchar c < 256). { unfold uchar. pose proof (N_ascii_bounded c). lia. }
  cbn [length]. rewrite Nat2Z.inj_succ, Z.pow_succ_r by lia. lia.
Qed.

Lemma gives_entry n : 0 <= n -> gives (next_entry n) (fun b => Z.of_nat (length b) = n).
Proof.
  intros Hn fp m b fp' m' H. unfold next_entry in H. destruct (Z.ltb_spec (Z.of_nat (length fp)) n); [done|].
  injection H as <- _ _. rewrite length_take. lia.
Qed.

Lemma le_items_range w n b :
  length b = (w * n)%nat ->
  length (le_items w n b) = n /\ Forall (fun z => 0 <= z < 256 ^ Z.of_nat w) (le_items w n b).
Proof.
  revert b. induction n as [|n IH]; intros b Hb; cbn [le_items]; [by split; [|constructor]|].
  destruct (IH (drop w b)) as [IH1 IH2]; [rewrite length_drop; lia|]. split; [cbn; by rewrite IH1|].
  constructor; [|done]. pose proof (le_to_cpu_range (take w b)) as H. rewrite length_take in H.
  by replace (Nat.min w (length b)) with w in H by lia.
Qed.

Lemma gives_u32s n : gives (next_u32s n) (fun l => length l = n /\ Forall (in_u 32) l).
Proof.
  eapply gives_bind; [apply gives_entry; lia|]. intros b Hb. cbn beta in Hb. apply gives_ret. apply (le_items_range 4). lia.
Qed.

Lemma gives_u16s n : gives (next_u16s n) (fun l => length l = n /\ Forall (in_u 16) l).
Proof.
  eapply gives_bind; [apply gives_entry; lia|]. intros b Hb. cbn beta in Hb. apply gives_ret. apply (le_items_range 2). lia.
Qed.

Lemma item_range w l i : 0 <= w -> Forall (in_u w) l -> in_u w (item l i).
Proof.
  intros Hw Hl. unfold item. rewrite nth_lookup. destruct (l !! i) eqn:E; [|unfold in_u; cbn; lia].
  eapply Forall_lookup_1; eauto.
Qed.

Lemma gives_u32 : gives next_u32 (in_u 32).
Proof. eapply gives_bind; [apply gives_u32s|]. intros l [_ Hl]. apply gives_ret, item_range; [lia|done]. Qed.

Lemma cstring_no_nul b : no_nul (cstring b) = true /\ (String.length (cstring b) <= length b)%nat.
Proof.
  induction b as [|c b [IH1 IH2]]; [done|]. cbn. destruct (uchar c =? 0) eqn:E; cbn; [split; [done|lia]|].
  rewrite E. split; [done|lia].
Qed.

Lemma gives_name n : in_u 32 n -> gives (read_name n) name_ok.
Proof.
  intros Hn. eapply gives_bind; [apply gives_any|]. intros _ _. eapply gives_bind; [apply gives_entry, Hn|].
  intros b Hb. cbn beta in Hb. destruct (Z.eqb_spec (u32 (n + 1)) 0) as [|Hne]; [apply gives_fault|]. apply gives_ret.
  destruct (cstring_no_nul b) as [H1 H2]. split; [done|]. unfold in_u in Hn.
  destruct (decide (n = 2 ^ 32 - 1)) as [->|]; [done|]. lia.
Qed.

#[export] Hint Resolve gives_any gives_fail gives_fault gives_u32 gives_u32s gives_u16s : reader.

(** The invariant of the loop of [ebitmap_read]. *)
Definition nodes_read (hb : Z) (nodes : list ebitmap_node) : Prop :=
  Forall node_wf nodes /\ Forall (below hb) nodes /\ StronglySorted (flip node_lt) nodes.

Lemma store_map_wf fuel map index maps maps' :
  0 <= map -> store_map fuel map index maps = Some maps' -> Forall (in_u 64) maps ->
  length maps' = length maps /\ Forall (in_u 64) maps'.
Proof.
  revert map index maps. induction fuel as [|fuel IH]; intros map index maps Hm H HF; cbn in H; [by injection H as <-|].
  destruct (nz map); [|by injection H as <-]. destruct (_ && _); [|done].
  apply IH in H as [H1 H2].
  - rewrite length_insert in H1. done.
  - unfold EBITMAP_SHIFT_UNIT_SIZE. by rewrite !Z.shiftr_nonneg.
  - apply Forall_insert; [done|]. rewrite Z.land_ones by lia. unfold in_u. apply Z.mod_pos_bound. lia.
Qed.

Lemma gives_read_node hb nodes startbit :
  nodes_read hb nodes -> 0 <= startbit -> startbit <= hb - 64 -> startbit mod 64 = 0 -> hb mod 128 = 0 -> hb < 2 ^ 32 ->
  gives (read_node (head nodes) startbit) (fun '(new, n) =>
    node_wf n /\ below hb n /\ Forall (fun n' => node_lt n' n) (if (new : bool) then nodes else tail nodes)).
Proof.
  intros (Hw & Hb & Hs) H0 Hhb Ha Hha Hhb'. unfold read_node.
  assert (gives (_ ← kmalloc; mret (true, mk_ebitmap_node (repeat 0 (Z.to_nat EBITMAP_UNIT_NUMS))
            (u32 (startbit - startbit mod EBITMAP_SIZE))))
    (fun '(new, n) => node_wf n /\ below hb n /\ en_startbit n <= startbit < en_startbit n + EBITMAP_SIZE /\ (new : bool) = true)) as Hnew.
  { eapply gives_bind; [apply gives_any|]. intros _ _. apply gives_ret.
    destruct (round_down_bit startbit H0) as (A1 & A2 & A3). rewrite u32_small by lia.
    assert (startbit - startbit mod EBITMAP_SIZE + EBITMAP_SIZE <= hb) as Hbe.
    { rewrite EBITMAP_SIZE_val in *. apply Z.mod_divide in A1 as [q Hq]; [|done]. apply Z.mod_divide in Hha as [r Hr]; [|done]. lia. }
    split_and!; cbn [en_startbit]; [|exact Hbe|lia..|done]. apply empty_node_wf; [done|done|].
    rewrite EBITMAP_SIZE_val in *. lia. }
  destruct nodes as [|n ns]; cbn [head].
  - eapply gives_impl; [exact Hnew|]. intros [new n] (? & ? & ? & ->). split_and!; [done|done|constructor].
  - destruct (Z.leb_spec (en_startbit n + EBITMAP_SIZE) startbit).
    + eapply gives_impl; [exact Hnew|]. intros [new n'] (Hw' & ? & ? & ->). split_and!; [done|done|].
      assert (node_lt n n') as Hlt.
      { unfold node_lt. rewrite EBITMAP_SIZE_val in *. lia. }
      constructor; [done|]. apply StronglySorted_inv in Hs as [_ Hs]. eapply Forall_impl; [exact Hs|].
      unfold flip, node_lt in *. intros x ?. lia.
    + destruct (startbit <=? en_startbit n); [apply gives_fail|]. apply gives_ret. cbn [tail].
      apply StronglySorted_inv in Hs as [_ Hs]. inv Hw. inv Hb. split_and!; [done|done|]. exact Hs.
Qed.

Lemma gives_read_map hb nodes :
  hb mod 128 = 0 -> 0 < hb < 2 ^ 32 -> nodes_read hb nodes -> gives (read_map 64 hb nodes) (nodes_read hb).
Proof.
  intros Ha Hhb HI.
  assert (64 <= hb). { apply Z.mod_divide in Ha as [q ->]; lia. }
  unfold read_map. eapply gives_bind; [apply gives_u32|]. intros startbit Hs.
  eapply gives_bind; [apply gives_guard|]. intros [] Hg. cbn beta in Hg.
  eapply gives_bind; [apply gives_guard|]. intros [] Hg'. cbn beta in Hg'. rewrite u32_small in Hg' by lia.
  assert (startbit mod 64 = 0) as Hal.
  { change (64 - 1) with (Z.ones 6) in Hg. rewrite Z.land_ones in Hg by lia. change (2 ^ 6) with 64 in Hg.
    unfold nz in Hg. destruct (Z.eqb_spec (startbit mod 64) 0); done. }
  unfold in_u in Hs. eapply gives_bind; [apply (gives_read_node hb); try done; lia|].
  intros [new n] (Hn & Hb & Hlt). eapply gives_bind; [apply gives_any|]. intros b _.
  eapply gives_bind; [apply gives_lift|]. intros maps Hm. cbn beta in Hm. apply gives_ret.
  pose proof Hn as (Hl & Hmw & Hsa & Hs0 & Hs1).
  apply store_map_wf in Hm as [Hl' Hm']; [|apply le_to_cpu_range|done].
  destruct HI as (Hw & Hbe & Hsort). split_and!.
  - constructor; [|destruct new; [done|]; destruct nodes; [done|by inv Hw]]. split; [by rewrite <- Hl, <- Hl'|done].
  - constructor; [exact Hb|]. destruct new; [done|]. destruct nodes; [done|by inv Hbe].
  - constructor; [destruct new; [done|]; destruct nodes; [done|by apply StronglySorted_inv in Hsort as [? _]]|].
    exact Hlt.
Qed.

(** Every bitmap read from a file is well-formed. *)
Lemma gives_ebitmap : gives ebitmap_read ebitmap_wf.
Proof.
  unfold ebitmap_read. eapply gives_bind; [apply gives_u32s|]. intros buf [Hlen Hb].
  eapply gives_bind; [apply gives_guard|]. intros [] Hg. cbn beta in Hg. apply Z.eqb_eq in Hg. rewrite Hg.
  set (hb0 := u32 (item buf 1 + (EBITMAP_SIZE - 1))). pose proof (u32_range (item buf 1 + (EBITMAP_SIZE - 1))) as Hr. fold hb0 in Hr.
  rewrite EBITMAP_SIZE_val. pose proof (Z.mod_pos_bound hb0 128 ltac:(lia)). pose proof (Z.div_mod hb0 128 ltac:(lia)).
  destruct (Z.eqb_spec (hb0 - hb0 mod 128) 0); [by apply gives_ret, (canon_wf _ ebitmap_init_canon)|].
  assert ((hb0 - hb0 mod 128) mod 128 = 0) as Ha.
  { replace (hb0 - hb0 mod 128) with (hb0 `div` 128 * 128) by lia. apply Z_mod_mult. }
  assert (0 <= hb0 `div` 128) by (apply Z.div_pos; lia).
  eapply gives_bind.
  { apply (gives_for _ _ _ (nodes_read (hb0 - hb0 mod 128))); [by split_and!; constructor|].
    intros nodes Hn. apply gives_read_map; [done|lia|done]. }
  intros nodes (Hw & Hbe & Hs). apply gives_ret. constructor; cbn.
  - by apply Forall_rev.
  - by apply sorted_rev.
  - by apply Forall_rev.
  - lia.
Qed.

#[export] Hint Resolve gives_ebitmap : reader.
