(* ===== verification/Context.v ===== *)
(** * MLS levels and security contexts (security/selinux/ss/mls_types.h, context.h)

    A copy operation writes a target and may run out of memory on the way, so
    it is modelled as a function from the old target to its return code and
    the new target, the partially written one on failure. *)

From S2P Require Import Prelude Ebitmap Hashtab.

(** ** Levels and ranges *)

Record mls_level := mk_mls_level {
  ml_sens : Z;
  ml_cat : ebitmap
}.

(** [level[2]]: low is [level[0]], high is [level[1]]. *)
Record mls_range := mk_mls_range {
  mr_low : mls_level;
  mr_high : mls_level
}.

#[export] Instance mls_level_eq_dec : EqDecision mls_level.
Proof. solve_decision. Defined.
#[export] Instance mls_range_eq_dec : EqDecision mls_range.
Proof. solve_decision. Defined.

Definition mls_level_eq (l1 l2 : mls_level) : bool :=
  (ml_sens l1 =? ml_sens l2) && ebitmap_cmp (ml_cat l1) (ml_cat l2).

Definition mls_level_dom (l1 l2 : mls_level) : bool :=
  (ml_sens l2 <=? ml_sens l1) && ebitmap_contains (ml_cat l1) (ml_cat l2).

Definition mls_level_incomp (l1 l2 : mls_level) : bool :=
  negb (mls_level_dom l1 l2) && negb (mls_level_dom l2 l1).

Definition mls_level_between (l1 l2 l3 : mls_level) : bool :=
  mls_level_dom l1 l2 && mls_level_dom l3 l1.

Definition mls_range_contains (r1 r2 : mls_range) : bool :=
  mls_level_dom (mr_low r2) (mr_low r1) && mls_level_dom (mr_high r1) (mr_high r2).

(** ** Contexts *)

Record context := mk_context {
  c_user : Z;
  c_role : Z;
  c_type : Z;
  c_len : Z;
  c_range : mls_range;
  c_str : option string      (* [None]: NULL *)
}.

#[export] Instance context_eq_dec : EqDecision context.
Proof. solve_decision. Defined.

Definition mls_level_zero : mls_level := mk_mls_level 0 ebitmap_init.
Definition mls_range_zero : mls_range := mk_mls_range mls_level_zero mls_level_zero.

Definition set_c_user (c : context) (v : Z) : context :=
  mk_context v (c_role c) (c_type c) (c_len c) (c_range c) (c_str c).
Definition set_c_role (c : context) (v : Z) : context :=
  mk_context (c_user c) v (c_type c) (c_len c) (c_range c) (c_str c).
Definition set_c_type (c : context) (v : Z) : context :=
  mk_context (c_user c) (c_role c) v (c_len c) (c_range c) (c_str c).
Definition set_c_range (c : context) (r : mls_range) : context :=
  mk_context (c_user c) (c_role c) (c_type c) (c_len c) r (c_str c).
Definition set_c_str (c : context) (len : Z) (s : option string) : context :=
  mk_context (c_user c) (c_role c) (c_type c) len (c_range c) s.

Definition mls_context_init (c : context) : context := set_c_range c mls_range_zero.

(** The body [mls_context_cpy] and [mls_context_cpy_low] share: the two levels
    of the target are set to copies of [low] and [high]. *)
Definition mls_levels_cpy (dst : context) (low high : mls_level) (m : kmem) : Z * context * kmem :=
  let '(rc, cat0, m) := ebitmap_cpy (ml_cat low) m in
  let lev0 := mk_mls_level (ml_sens low) cat0 in
  if nz rc then (rc, set_c_range dst (mk_mls_range lev0 (mr_high (c_range dst))), m)
  else
    let '(rc, cat1, m) := ebitmap_cpy (ml_cat high) m in
    let lev1 := mk_mls_level (ml_sens high) cat1 in
    if nz rc
    then (rc, set_c_range dst (mk_mls_range (mk_mls_level (ml_sens low) (ebitmap_destroy cat0)) lev1), m)
    else (rc, set_c_range dst (mk_mls_range lev0 lev1), m).

Definition mls_context_cpy (dst src : context) (m : kmem) : Z * context * kmem :=
  mls_levels_cpy dst (mr_low (c_range src)) (mr_high (c_range src)) m.

Definition mls_context_cpy_low (dst src : context) (m : kmem) : Z * context * kmem :=
  mls_levels_cpy dst (mr_low (c_range src)) (mr_low (c_range src)) m.

Definition mls_context_cmp (c1 c2 : context) : bool :=
  (ml_sens (mr_low (c_range c1)) =? ml_sens (mr_low (c_range c2))) &&
  ebitmap_cmp (ml_cat (mr_low (c_range c1))) (ml_cat (mr_low (c_range c2))) &&
  (ml_sens (mr_high (c_range c1)) =? ml_sens (mr_high (c_range c2))) &&
  ebitmap_cmp (ml_cat (mr_high (c_range c1))) (ml_cat (mr_high (c_range c2))).

Definition mls_context_destroy (c : context) : context := mls_context_init c.

Definition context_init : context := mk_context 0 0 0 0 mls_range_zero None.

Definition context_cpy (dst src : context) (m : kmem) : Z * context * kmem :=
  let dst := set_c_type (set_c_role (set_c_user dst (c_user src)) (c_role src)) (c_type src) in
  let finish dst m :=
    let '(rc, dst, m) := mls_context_cpy dst src m in
    if nz rc then (rc, dst, m) else (0, dst, m) in
  match c_str src with
  | Some s =>
      let '(ok, m) := kalloc m in                 (* kstrdup *)
      if negb ok then (- ENOMEM, set_c_str dst (c_len dst) None, m)
      else finish (set_c_str dst (c_len src) (Some s)) m
  | None => finish (set_c_str dst 0 None) m
  end.

Definition context_destroy (c : context) : context :=
  mls_context_destroy (set_c_str (set_c_type (set_c_role (set_c_user c 0) 0) 0) 0 None).

(** [str] is not NULL when [len] is not 0 ([context_wf]). *)
Definition context_cmp (c1 c2 : context) : bool :=
  if nz (c_len c1) && nz (c_len c2) then
    (c_len c1 =? c_len c2) &&
    match c_str c1, c_str c2 with
    | Some s1, Some s2 => strcmp s1 s2 =? 0
    | _, _ => false
    end
  else if nz (c_len c1) || nz (c_len c2) then false
  else
    (c_user c1 =? c_user c2) && (c_role c1 =? c_role c2) && (c_type c1 =? c_type c2) &&
    mls_context_cmp c1 c2.

(** ** Levels form a partial order *)

Definition level_canon (l : mls_level) : Prop := ebitmap_canon (ml_cat l).

Record range_canon (r : mls_range) : Prop := {
  rc_low : level_canon (mr_low r);
  rc_high : level_canon (mr_high r)
}.

(** Dominance read off the sensitivities and the category sets. *)
Lemma dom_spec l1 l2 :
  level_canon l1 -> level_canon l2 ->
  mls_level_dom l1 l2 = true <->
  ml_sens l2 <= ml_sens l1 /\ forall b, ebit (ml_cat l2) b = true -> ebit (ml_cat l1) b = true.
Proof.
  intros H1 H2. unfold mls_level_dom. rewrite andb_true_iff, Z.leb_le.
  by rewrite (contains_spec (ml_cat l1) (ml_cat l2) H1 H2).
Qed.

Lemma level_eq_spec l1 l2 : mls_level_eq l1 l2 = true <-> l1 = l2.
Proof.
  unfold mls_level_eq. rewrite andb_true_iff, Z.eqb_eq, ebitmap_cmp_eq.
  destruct l1, l2. cbn. split; [by intros [-> ->]|by intros [= -> ->]].
Qed.

Lemma dom_refl l : level_canon l -> mls_level_dom l l = true.
Proof. intros H. apply dom_spec; [done|done|]. split; [lia|done]. Qed.

Lemma dom_trans l1 l2 l3 :
  level_canon l1 -> level_canon l2 -> level_canon l3 ->
  mls_level_dom l1 l2 = true -> mls_level_dom l2 l3 = true -> mls_level_dom l1 l3 = true.
Proof.
  intros H1 H2 H3. rewrite !dom_spec by done. intros [? HA] [? HB]. split; [lia|auto].
Qed.

Lemma dom_antisym l1 l2 :
  level_canon l1 -> level_canon l2 ->
  mls_level_dom l1 l2 = true -> mls_level_dom l2 l1 = true -> l1 = l2.
Proof.
  intros H1 H2. rewrite !dom_spec by done. intros [? HA] [? HB].
  destruct l1 as [s1 c1], l2 as [s2 c2]. cbn in *. f_equal; [lia|].
  apply canon_ext; [done|done|]. intros b. apply eq_true_iff_eq. split; auto.
Qed.

(** ** Copies and comparison *)

Lemma mls_context_cmp_spec c1 c2 : mls_context_cmp c1 c2 = true <-> c_range c1 = c_range c2.
Proof.
  unfold mls_context_cmp. rewrite !andb_true_iff, !Z.eqb_eq, !ebitmap_cmp_eq.
  destruct c1 as [? ? ? ? [[? ?] [? ?]] ?], c2 as [? ? ? ? [[? ?] [? ?]] ?]. cbn.
  split; [by intros [[[-> ->] ->] ->]|by intros [= -> -> -> ->]].
Qed.

(** Well-formed contexts: an unmapped one has its string, a mapped one none. *)
Record context_wf (c : context) : Prop := {
  cwf_str : nz (c_len c) = true <-> is_Some (c_str c);
  cwf_range : range_canon (c_range c)
}.

(** What two contexts have to agree on to be the same for the SID table. *)
Definition context_key (c : context) : (Z * option string) + (Z * Z * Z * mls_range) :=
  if nz (c_len c) then inl (c_len c, c_str c)
  else inr (c_user c, c_role c, c_type c, c_range c).

Lemma context_cmp_key c1 c2 :
  (nz (c_len c1) = true -> is_Some (c_str c1)) -> (nz (c_len c2) = true -> is_Some (c_str c2)) ->
  context_cmp c1 c2 = true <-> context_key c1 = context_key c2.
Proof.
  intros H1 H2. unfold context_cmp, context_key.
  destruct (nz (c_len c1)) eqn:E1, (nz (c_len c2)) eqn:E2; cbn; [| |done|].
  - destruct (H1 eq_refl) as [s1 Hs1], (H2 eq_refl) as [s2 Hs2]. rewrite Hs1, Hs2.
    rewrite andb_true_iff, !Z.eqb_eq, strcmp_eq.
    split; [by intros [-> ->]|by intros [= -> ->]].
  - done.
  - rewrite !andb_true_iff, !Z.eqb_eq, mls_context_cmp_spec.
    split; [by intros [[[-> ->] ->] ->]|by intros [= -> -> -> ->]].
Qed.

Lemma context_cmp_refl c : (nz (c_len c) = true -> is_Some (c_str c)) -> context_cmp c c = true.
Proof. intros H. by apply context_cmp_key. Qed.

Lemma mls_levels_cpy_spec dst low high m :
  (exists m', mls_levels_cpy dst low high m = (0, set_c_range dst (mk_mls_range low high), m'))
  \/ (exists d' m', mls_levels_cpy dst low high m = (- ENOMEM, d', m')).
Proof.
  unfold mls_levels_cpy. destruct low as [s0 c0], high as [s1 c1]. cbn [ml_cat ml_sens].
  destruct (ebitmap_cpy_spec c0 m) as [[m1 ->]|[m1 ->]]; cbn; [|right; by eexists _, _].
  destruct (ebitmap_cpy_spec c1 m1) as [[m2 ->]|[m2 ->]]; cbn; [left|right; by eexists _, _].
  by eexists.
Qed.

Lemma mls_levels_cpy_ok dst low high :
  mls_levels_cpy dst low high [] = (0, set_c_range dst (mk_mls_range low high), []).
Proof. unfold mls_levels_cpy. rewrite !ebitmap_cpy_ok. cbn. by destruct low, high. Qed.

(** The value [context_cpy] gives its target: the source, with [len] cleared
    when there is no string. *)
Definition context_copy (src : context) : context :=
  match c_str src with Some _ => src | None => set_c_str src 0 None end.

Lemma context_cpy_spec dst src m :
  (exists m', context_cpy dst src m = (0, context_copy src, m'))
  \/ (exists d' m', context_cpy dst src m = (- ENOMEM, d', m')).
Proof.
  unfold context_cpy, context_copy, mls_context_cpy. destruct src as [u r t len [lo hi] [s|]]; cbn.
  - destruct (kalloc m) as [[] m1]; cbn; [|right; by eexists _, _].
    edestruct mls_levels_cpy_spec as [[m2 ->]|(d' & m2 & ->)]; cbn; [left|right; by eexists _, _].
    by eexists.
  - edestruct mls_levels_cpy_spec as [[m2 ->]|(d' & m2 & ->)]; cbn; [left|right; by eexists _, _].
    by eexists.
Qed.

Lemma context_cpy_ok dst src : context_cpy dst src [] = (0, context_copy src, []).
Proof.
  unfold context_cpy, context_copy, mls_context_cpy. destruct src as [u r t len [lo hi] [s|]]; cbn;
    by rewrite mls_levels_cpy_ok.
Qed.

Lemma context_copy_wf src : context_wf src -> context_copy src = src.
Proof.
  intros [Hs _]. unfold context_copy. destruct src as [u r t len rg [s|]]; cbn in *; [done|].
  assert (nz len = false) as ->%nz_false; [|done].
  destruct (nz len); [|done]. by destruct (proj1 Hs eq_refl).
Qed.

Lemma context_copy_len src : context_copy src = src \/ c_len (context_copy src) = 0.
Proof. unfold context_copy. destruct (c_str src); [by left|by right]. Qed.

(** ** Properties *)

(** Dominance is a partial order on levels: [mls_level_dom] is reflexive,
    transitive and antisymmetric up to [mls_level_eq], it compares
    sensitivities and category sets, and [mls_level_incomp] holds exactly when
    neither level dominates the other. *)
Theorem mls_dominance_order l1 l2 l3 :
  level_canon l1 -> level_canon l2 -> level_canon l3 ->
  mls_level_dom l1 l1 = true /\
  (mls_level_dom l1 l2 = true -> mls_level_dom l2 l3 = true -> mls_level_dom l1 l3 = true) /\
  (mls_level_dom l1 l2 = true /\ mls_level_dom l2 l1 = true <-> mls_level_eq l1 l2 = true) /\
  (mls_level_dom l1 l2 = true <->
     ml_sens l2 <= ml_sens l1 /\
     forall b, 0 <= b < 2 ^ 32 -> ebitmap_get_bit (ml_cat l2) b = Some true -> ebitmap_get_bit (ml_cat l1) b = Some true) /\
  (mls_level_incomp l1 l2 = true <-> mls_level_dom l1 l2 = false /\ mls_level_dom l2 l1 = false).
Proof.
  intros H1 H2 H3. split; [by apply dom_refl|]. split; [by apply dom_trans|]. split; [|split].
  - rewrite level_eq_spec. split; [intros []; by apply dom_antisym|]. intros ->. split; by apply dom_refl.
  - rewrite dom_spec by done. pose proof (canon_wf _ H1). pose proof (canon_wf _ H2). split; intros [Hs Hc]; (split; [done|]); intros b.
    + intros Hb. rewrite !get_bit_spec by done. intros [= ?]. by rewrite Hc.
    + intros Hb. pose proof (ebit_range _ b ltac:(done) Hb) as Hr. specialize (Hc b Hr). rewrite !get_bit_spec, Hb in Hc by done.
      by injection (Hc eq_refl).
  - unfold mls_level_incomp. by rewrite andb_true_iff, !negb_true_iff.
Qed.

Lemma mls_dominance_order_witness :
  mls_level_incomp (mk_mls_level 1 two_bits) (mk_mls_level 2 ebitmap_init) = true /\
  (mls_level_incomp (mk_mls_level 1 two_bits) (mk_mls_level 2 ebitmap_init) = true <->
     mls_level_dom (mk_mls_level 1 two_bits) (mk_mls_level 2 ebitmap_init) = false /\
     mls_level_dom (mk_mls_level 2 ebitmap_init) (mk_mls_level 1 two_bits) = false).
Proof.
  split; [reflexivity|].
  apply (mls_dominance_order (mk_mls_level 1 two_bits) (mk_mls_level 2 ebitmap_init) (mk_mls_level 1 two_bits)
           two_bits_canon ebitmap_init_canon two_bits_canon).
Defined.

(** [context_cpy] either copies the whole context, with both levels, their
    categories and the string, so that [context_cmp] holds of the copy and the
    source, or reports that there is no memory. *)
Theorem context_cpy_faithful dst src m :
  context_wf src ->
  exists rc d m', context_cpy dst src m = (rc, d, m') /\
    ((rc = 0 /\ d = src /\ context_cmp d src = true) \/ rc = - ENOMEM).
Proof.
  intros Hw. destruct (context_cpy_spec dst src m) as [[m' E]|(d' & m' & E)]; eexists _, _, m'; (split; [exact E|]); [left|by right].
  rewrite (context_copy_wf src Hw). split; [done|]. split; [done|]. apply context_cmp_refl.
  intros H. by apply (cwf_str _ Hw).
Qed.

Lemma context_cpy_faithful_witness :
  exists rc d m', context_cpy context_init (mk_context 1 2 3 0 (mk_mls_range (mk_mls_level 1 ebitmap_init) (mk_mls_level 2 two_bits)) None) [] = (rc, d, m') /\ rc = 0.
Proof.
  destruct (context_cpy_faithful context_init (mk_context 1 2 3 0 (mk_mls_range (mk_mls_level 1 ebitmap_init) (mk_mls_level 2 two_bits)) None) [])
    as (rc & d & m' & H & _).
  - split; [split; [discriminate|by intros [? [=]]]|]. split; [exact ebitmap_init_canon|exact two_bits_canon].
  - exists rc, d, m'. split; [exact H|]. vm_compute in H. injection H as <- _ _. reflexivity.
Defined.
