(* ===== verification/Sidtab.v ===== *)
(** * The SID table (security/selinux/ss/sidtab.c)

    The hash table of contexts indexed by SID, with its three-entry cache.  A
    cached [struct sidtab_node *] is the node it points to: nodes are never
    changed or freed while the table is in use, and [sidtab_set] empties the
    cache.  The slot array has [SIDTAB_SIZE] entries and every index is masked,
    so slot accesses are total ([slot]). *)

From S2P Require Import Prelude Ebitmap Hashtab Context.

(** ** Data *)

Definition SECSID_NULL : Z := 0.
Definition SECINITSID_KERNEL : Z := 1.
Definition SECINITSID_UNLABELED : Z := 3.
Definition SECINITSID_PORT : Z := 9.
Definition SECINITSID_NETIF : Z := 10.
Definition SECINITSID_NODE : Z := 12.
Definition SECINITSID_NUM : Z := 27.

Definition SIDTAB_SIZE : Z := 128.
Definition SIDTAB_HASH (sid : Z) : Z := sid .& (SIDTAB_SIZE - 1).
Definition SIDTAB_CACHE_LEN : nat := 3.

Record sidtab_node := mk_sidtab_node {
  sn_sid : Z;
  sn_context : context
}.

Record sidtab := mk_sidtab {
  si_htable : list (list sidtab_node);
  si_nel : Z;
  si_next_sid : Z;
  si_shutdown : bool;
  si_cache : list (option sidtab_node)
}.

Definition slot (s : sidtab) (hvalue : Z) : list sidtab_node :=
  nth (Z.to_nat hvalue) (si_htable s) [].

Definition set_si_cache (s : sidtab) (cache : list (option sidtab_node)) : sidtab :=
  mk_sidtab (si_htable s) (si_nel s) (si_next_sid s) (si_shutdown s) cache.
Definition set_si_next_sid (s : sidtab) (v : Z) : sidtab :=
  mk_sidtab (si_htable s) (si_nel s) v (si_shutdown s) (si_cache s).

(** ** Operations *)

(** [cache] is what the object holds before: [sidtab_init] does not write it. *)
Definition sidtab_init (cache : list (option sidtab_node)) (m : kmem) : Z * option sidtab * kmem :=
  let '(ok, m) := kalloc m in
  if negb ok then (- ENOMEM, None, m)
  else (0, Some (mk_sidtab (replicate (Z.to_nat SIDTAB_SIZE) []) 0 1 false cache), m).

(** The walk and the linking of [sidtab_insert], on one chain. *)
Fixpoint sidtab_chain_insert (sid : Z) (context : context) (cur : list sidtab_node) (m : kmem)
    : Z * list sidtab_node * kmem :=
  let link_here :=
    let '(ok, m) := kalloc m in
    if negb ok then (- ENOMEM, cur, m)
    else
      let '(rc, copy, m) := context_cpy context_init context m in
      if nz rc then (- ENOMEM, cur, m)
      else (0, mk_sidtab_node sid copy :: cur, m) in
  match cur with
  | n :: next =>
      if sn_sid n <? sid then
        let '(rc, l, m) := sidtab_chain_insert sid context next m in (rc, n :: l, m)
      else if sid =? sn_sid n then (- EEXIST, cur, m)
      else link_here
  | [] => link_here
  end.

Definition sidtab_insert (s : sidtab) (sid : Z) (context : context) (m : kmem) : Z * sidtab * kmem :=
  let hvalue := SIDTAB_HASH sid in
  let '(rc, l, m) := sidtab_chain_insert sid context (slot s hvalue) m in
  if nz rc then (rc, s, m)
  else
    (0, mk_sidtab (<[Z.to_nat hvalue := l]> (si_htable s)) (u32 (si_nel s + 1))
                  (if si_next_sid s <=? sid then u32 (sid + 1) else si_next_sid s)
                  (si_shutdown s) (si_cache s), m).

(** [while (cur && sid > cur->sid) cur = cur->next;] *)
Fixpoint sidtab_skip (sid : Z) (cur : list sidtab_node) : list sidtab_node :=
  match cur with
  | n :: next => if sn_sid n <? sid then sidtab_skip sid next else cur
  | [] => []
  end.

(** The second half of [sidtab_search_core]: the unlabeled SID. *)
Definition sidtab_search_unlabeled (s : sidtab) : option context :=
  match sidtab_skip SECINITSID_UNLABELED (slot s (SIDTAB_HASH SECINITSID_UNLABELED)) with
  | n :: _ => if negb (SECINITSID_UNLABELED =? sn_sid n) then None else Some (sn_context n)
  | [] => None
  end.

Definition sidtab_search_core (s : option sidtab) (sid : Z) (force : bool) : option context :=
  match s with
  | None => None
  | Some s =>
      match sidtab_skip sid (slot s (SIDTAB_HASH sid)) with
      | n :: _ =>
          if force && (sid =? sn_sid n) && nz (c_len (sn_context n)) then Some (sn_context n)
          else if negb (sid =? sn_sid n) || nz (c_len (sn_context n)) then sidtab_search_unlabeled s
          else Some (sn_context n)
      | [] => sidtab_search_unlabeled s
      end
  end.

Definition sidtab_search (s : option sidtab) (sid : Z) : option context := sidtab_search_core s sid false.
Definition sidtab_search_force (s : option sidtab) (sid : Z) : option context := sidtab_search_core s sid true.

(** [sidtab_map]; [apply] may change the context of the node it is given and
    the object behind [args]. *)
Fixpoint sidtab_chain_map {A} (apply : Z -> context -> A -> Z * context * A)
    (cur : list sidtab_node) (args : A) : Z * list sidtab_node * A :=
  match cur with
  | [] => (0, [], args)
  | n :: next =>
      let '(rc, c, args) := apply (sn_sid n) (sn_context n) args in
      let n := mk_sidtab_node (sn_sid n) c in
      if nz rc then (rc, n :: next, args)
      else let '(rc, l, args) := sidtab_chain_map apply next args in (rc, n :: l, args)
  end.

Fixpoint sidtab_slots_map {A} (apply : Z -> context -> A -> Z * context * A)
    (slots : list (list sidtab_node)) (args : A) : Z * list (list sidtab_node) * A :=
  match slots with
  | [] => (0, [], args)
  | cur :: slots' =>
      let '(rc, l, args) := sidtab_chain_map apply cur args in
      if nz rc then (rc, l :: slots', args)
      else let '(rc, ls, args) := sidtab_slots_map apply slots' args in (rc, l :: ls, args)
  end.

Definition sidtab_map {A} (s : sidtab) (apply : Z -> context -> A -> Z * context * A) (args : A)
    : Z * sidtab * A :=
  let '(rc, slots, args) := sidtab_slots_map apply (si_htable s) args in
  (rc, mk_sidtab slots (si_nel s) (si_next_sid s) (si_shutdown s) (si_cache s), args).

(** The [while (loc > 0)] of [sidtab_update_cache], then [cache[0] = n]. *)
Fixpoint update_cache_loop (n : sidtab_node) (loc : nat) (cache : list (option sidtab_node))
    : list (option sidtab_node) :=
  match loc with
  | O => <[O := Some n]> cache
  | S loc' => update_cache_loop n loc' (<[loc := nth loc' cache None]> cache)
  end.

(** [None]: [BUG_ON(loc >= SIDTAB_CACHE_LEN)]. *)
Definition sidtab_update_cache (s : sidtab) (n : sidtab_node) (loc : nat) : option sidtab :=
  if (SIDTAB_CACHE_LEN <=? loc)%nat then None
  else Some (set_si_cache s (update_cache_loop n loc (si_cache s))).

(** The nodes in the order of the nested loops over slots and chains. *)
Definition sidtab_nodes (s : sidtab) : list sidtab_node := concat (si_htable s).

Definition sidtab_search_context (s : sidtab) (context : context) : option (Z * sidtab) :=
  match List.find (fun cur => context_cmp (sn_context cur) context) (sidtab_nodes s) with
  | Some cur =>
      s' ← sidtab_update_cache s cur (SIDTAB_CACHE_LEN - 1);
      Some (sn_sid cur, s')
  | None => Some (0, s)
  end.

(** The loop over the cache; [n] counts the entries left to look at. *)
Fixpoint search_cache_loop (s : sidtab) (context : context) (n i : nat) : option (Z * sidtab) :=
  match n with
  | O => Some (0, s)
  | S n' =>
      match nth i (si_cache s) None with
      | None => Some (0, s)
      | Some node =>
          if context_cmp (sn_context node) context then
            s' ← sidtab_update_cache s node i;
            Some (sn_sid node, s')
          else search_cache_loop s context n' (S i)
      end
  end.

Definition sidtab_search_cache (s : sidtab) (context : context) : option (Z * sidtab) :=
  search_cache_loop s context SIDTAB_CACHE_LEN 0.

(** Result: [rc], [*out_sid], the table. *)
Definition sidtab_context_to_sid (s : sidtab) (context : context) (m : kmem)
    : option (Z * Z * sidtab * kmem) :=
  '(sid, s) ← sidtab_search_cache s context;
  '(sid, s) ← (if nz sid then Some (sid, s) else sidtab_search_context s context);
  if nz sid then Some (0, sid, s, m)
  else
    (* Rescan now that we hold the lock. *)
    '(sid, s) ← sidtab_search_context s context;
    if nz sid then Some (0, sid, s, m)
    else if (si_next_sid s =? UINT_MAX) || si_shutdown s then Some (- ENOMEM, SECSID_NULL, s, m)
    else
      let sid := si_next_sid s in
      let '(ret, s, m) := sidtab_insert (set_si_next_sid s (u32 (si_next_sid s + 1))) sid context m in
      if nz ret then Some (ret, SECSID_NULL, set_si_next_sid s (u32 (si_next_sid s - 1)), m)
      else Some (0, sid, s, m).

(** The statistics [sidtab_hash_eval] prints: slots used, longest chain. *)
Definition sidtab_hash_eval (h : sidtab) : Z * Z :=
  fold_left (fun (st : Z * Z) (cur : list sidtab_node) =>
    match cur with
    | [] => st
    | _ :: _ =>
        let chain_len := Z.of_nat (length cur) in
        (st.1 + 1, if st.2 <? chain_len then chain_len else st.2)
    end) (si_htable h) (0, 0).

Definition sidtab_set (src : sidtab) : sidtab :=
  mk_sidtab (si_htable src) (si_nel src) (si_next_sid src) false (replicate SIDTAB_CACHE_LEN None).

Definition sidtab_shutdown (s : sidtab) : sidtab :=
  mk_sidtab (si_htable s) (si_nel s) (si_next_sid s) true (si_cache s).

(** ** Specification

    Seen through [sidtab_ht], the table is a hash table of Hashtab.v with SIDs
    as keys, so the map it stands for and the reasoning about insertion are
    those of the hash table. *)

Definition node_pair (n : sidtab_node) : Z * context := (sn_sid n, sn_context n).

Definition sidtab_ht (s : sidtab) : hashtab Z context :=
  mk_hashtab (fmap (M := list) (fmap (M := list) node_pair) (si_htable s)) SIDTAB_SIZE (si_nel s)
             (fun _ sid => SIDTAB_HASH sid) (fun a b => a - b).

Definition sidtab_abs (s : sidtab) : gmap Z context := hashtab_abs (sidtab_ht s).

(** A context [context_cmp] can be applied to. *)
Definition str_ok (c : context) : Prop := nz (c_len c) = true -> is_Some (c_str c).

Record sidtab_wf (s : sidtab) : Prop := {
  swf_ht : hashtab_wf (sidtab_ht s);
  swf_range : Forall (fun n => 0 < sn_sid n < si_next_sid s) (sidtab_nodes s);
  swf_next : 1 <= si_next_sid s <= UINT_MAX;
  swf_ctx : Forall (fun n => str_ok (sn_context n)) (sidtab_nodes s);
  swf_cache_len : length (si_cache s) = SIDTAB_CACHE_LEN;
  swf_cache : forall n, Some n ∈ si_cache s -> n ∈ sidtab_nodes s
}.

Lemma sidtab_ops : table_ops SIDTAB_SIZE (fun _ sid => SIDTAB_HASH sid) (fun a b : Z => a - b).
Proof.
  constructor; intros; try lia. unfold SIDTAB_HASH, SIDTAB_SIZE.
  change (128 - 1) with (Z.ones 7). rewrite Z.land_ones by lia. by apply Z.mod_pos_bound.
Qed.

Lemma sidtab_pairs s : concat (ht_htable (sidtab_ht s)) = node_pair <$> sidtab_nodes s.
Proof. unfold sidtab_nodes. symmetry. apply concat_map. Qed.

Lemma sidtab_abs_nodes s : sidtab_abs s = list_to_map (node_pair <$> sidtab_nodes s).
Proof. unfold sidtab_abs, hashtab_abs. by rewrite sidtab_pairs. Qed.

Lemma sidtab_keys_nodup s : hashtab_wf (sidtab_ht s) -> NoDup (sn_sid <$> sidtab_nodes s).
Proof.
  intros Hwf. replace (sn_sid <$> sidtab_nodes s) with ((node_pair <$> sidtab_nodes s).*1)
    by by rewrite <- list_fmap_compose.
  rewrite <- sidtab_pairs. destruct Hwf as [Hops Hlen Hslot Hsort _].
  assert (forall i c, ht_htable (sidtab_ht s) !! i = Some c ->
            Forall (fun n => Z.to_nat (SIDTAB_HASH n.1) = (i + 0)%nat) c) as Hs.
  { intros i c Hc. rewrite Nat.add_0_r. by apply Hslot. }
  clear Hslot Hlen. revert Hs Hsort. generalize (ht_htable (sidtab_ht s)). generalize 0%nat.
  intros o ls. revert o. induction ls as [|c ls IH]; intros o Hs Hsort; [constructor|].
  apply Forall_cons in Hsort as [Hc Hsort]. cbn [concat]. rewrite fmap_app. apply NoDup_app.
  split_and!.
  - by eapply chain_keys_nodup.
  - intros k. rewrite !list_elem_of_fmap. intros (x & -> & Hx) (y & Hxy & Hy%list_elem_of_In).
    apply in_concat in Hy as (c' & Hc'%list_elem_of_In & Hy%list_elem_of_In).
    apply list_elem_of_lookup in Hc' as [j Hj].
    pose proof (Hs 0%nat c eq_refl) as H0. pose proof (Hs (S j) c' Hj) as H1.
    rewrite Forall_forall in H0, H1. specialize (H0 x Hx). specialize (H1 y Hy).
    rewrite <- Hxy in H1. lia.
  - apply (IH (S o)); [|done]. intros i c' Hi. rewrite Nat.add_succ_r. by apply (Hs (S i)).
Qed.

Lemma sidtab_abs_elem s sid c :
  hashtab_wf (sidtab_ht s) -> sidtab_abs s !! sid = Some c <-> mk_sidtab_node sid c ∈ sidtab_nodes s.
Proof.
  intros Hwf. rewrite sidtab_abs_nodes. rewrite <- elem_of_list_to_map.
  - rewrite list_elem_of_fmap. split.
    + intros ([] & [= -> ->] & Hin). done.
    + intros Hin. by exists (mk_sidtab_node sid c).
  - rewrite <- list_fmap_compose. by apply sidtab_keys_nodup.
Qed.

(** A list without repetition of numbers in a range is not longer than it. *)
Lemma nodup_range_length (l : list Z) lo hi :
  NoDup l -> Forall (fun x => lo <= x < hi) l -> lo <= hi -> Z.of_nat (length l) <= hi - lo.
Proof.
  intros Hnd Hr Hle. assert (l ⊆+ seqZ lo (hi - lo)) as Hsub.
  { apply NoDup_submseteq; [done|]. intros x Hx. apply elem_of_seqZ.
    rewrite Forall_forall in Hr. specialize (Hr x Hx). lia. }
  apply submseteq_length in Hsub. rewrite length_seqZ in Hsub. lia.
Qed.

Lemma sidtab_nel_lt s : sidtab_wf s -> si_nel s < si_next_sid s.
Proof.
  intros [Hht Hr Hn _ _ _]. pose proof (hwf_nel _ Hht) as [Hnel _]. cbn [sidtab_ht ht_nel] in Hnel.
  rewrite Hnel, sidtab_pairs, length_fmap, <- (length_fmap sn_sid).
  pose proof (nodup_range_length (sn_sid <$> sidtab_nodes s) 1 (si_next_sid s)) as H.
  specialize (H (sidtab_keys_nodup s Hht)). rewrite Forall_fmap in H. unfold UINT_MAX in *.
  enough (Z.of_nat (length (sn_sid <$> sidtab_nodes s)) <= si_next_sid s - 1) by lia.
  apply H; [|lia]. eapply Forall_impl; [exact Hr|]. cbn. lia.
Qed.

Definition sid_lt (a b : sidtab_node) : Prop := sn_sid a < sn_sid b.

Lemma chain_sorted_pairs c :
  StronglySorted (key_lt (fun a b : Z => a - b)) (node_pair <$> c) <-> StronglySorted sid_lt c.
Proof.
  induction c as [|n c IH]; [split; constructor|].
  rewrite fmap_cons, !StronglySorted_cons, IH, Forall_fmap.
  assert (forall P Q : Prop, P = Q -> (P /\ StronglySorted sid_lt c <-> Q /\ StronglySorted sid_lt c)) as E
    by (by intros P Q ->).
  split; intros [H1 H2]; split; try done; (eapply Forall_impl; [exact H1|]);
    unfold key_lt, sid_lt; cbn; lia.
Qed.

Lemma slot_lookup s k :
  hashtab_wf (sidtab_ht s) ->
  let i := Z.to_nat (SIDTAB_HASH k) in
  ht_htable (sidtab_ht s) !! i = Some (node_pair <$> slot s (SIDTAB_HASH k)) /\
  si_htable s !! i = Some (slot s (SIDTAB_HASH k)) /\
  StronglySorted sid_lt (slot s (SIDTAB_HASH k)).
Proof.
  intros Hwf i. pose proof (slot_range (sidtab_ht s) k Hwf) as Hlt. cbn in Hlt.
  rewrite length_fmap in Hlt. fold i in Hlt.
  assert (si_htable s !! i = Some (slot s (SIDTAB_HASH k))) as Hs.
  { unfold slot. rewrite nth_lookup. destruct (lookup_lt_is_Some_2 _ _ Hlt) as [c Hc].
    fold i. by rewrite Hc. }
  assert (ht_htable (sidtab_ht s) !! i = Some (node_pair <$> slot s (SIDTAB_HASH k))) as Hp.
  { cbn. by rewrite list_lookup_fmap, Hs. }
  split_and!; [done|done|]. apply chain_sorted_pairs.
  eapply Forall_lookup_1; [apply (hwf_sorted _ Hwf)|done].
Qed.

Lemma abs_slot s k :
  hashtab_wf (sidtab_ht s) ->
  sidtab_abs s !! k = (list_to_map (node_pair <$> slot s (SIDTAB_HASH k)) : gmap Z context) !! k.
Proof.
  intros Hwf. destruct (slot_lookup s k Hwf) as (Hp & _ & _).
  eapply concat_lookup; [exact Hp|]. intros j c' Hj Hne. by eapply (slot_other (sidtab_ht s)).
Qed.

Lemma skip_lookup sid c :
  StronglySorted sid_lt c ->
  match sidtab_skip sid c with
  | n :: _ => if sid =? sn_sid n then Some (sn_context n) else None
  | [] => None
  end = (list_to_map (node_pair <$> c) : gmap Z context) !! sid.
Proof.
  intros Hs. induction Hs as [|n c Hs IH Hlt]; [done|].
  rewrite fmap_cons. cbn [sidtab_skip list_to_map foldr uncurry node_pair fst snd].
  destruct (sn_sid n <? sid) eqn:E.
  - rewrite IH, lookup_insert_ne by lia. done.
  - destruct (sid =? sn_sid n) eqn:E2.
    + apply Z.eqb_eq in E2 as ->. by rewrite lookup_insert_eq.
    + rewrite lookup_insert_ne by lia. symmetry. apply not_elem_of_list_to_map_1.
      rewrite <- list_fmap_compose, list_elem_of_fmap. intros (x & -> & Hx).
      rewrite Forall_forall in Hlt. specialize (Hlt x Hx). unfold sid_lt in Hlt. cbn in *. lia.
Qed.

Lemma search_unlabeled_spec s :
  hashtab_wf (sidtab_ht s) -> sidtab_search_unlabeled s = sidtab_abs s !! SECINITSID_UNLABELED.
Proof.
  intros Hwf. destruct (slot_lookup s SECINITSID_UNLABELED Hwf) as (_ & _ & Hs).
  rewrite abs_slot, <- skip_lookup by done. unfold sidtab_search_unlabeled.
  destruct (sidtab_skip _ _) as [|n l]; [done|]. by destruct (_ =? sn_sid n).
Qed.

(** What a lookup returns: the context of the SID, the unlabeled context for
    an unknown SID or (without [force]) for a SID with an unmapped context. *)
Definition search_spec (t : gmap Z context) (sid : Z) (force : bool) : option context :=
  match t !! sid with
  | Some c => if nz (c_len c) && negb force then t !! SECINITSID_UNLABELED else Some c
  | None => t !! SECINITSID_UNLABELED
  end.

Lemma search_core_spec s sid force :
  hashtab_wf (sidtab_ht s) -> sidtab_search_core (Some s) sid force = search_spec (sidtab_abs s) sid force.
Proof.
  intros Hwf. destruct (slot_lookup s sid Hwf) as (_ & _ & Hs).
  unfold search_spec. rewrite (abs_slot s sid), <- skip_lookup by done.
  rewrite <- search_unlabeled_spec by done. unfold sidtab_search_core.
  destruct (sidtab_skip sid (slot s (SIDTAB_HASH sid))) as [|n l]; [done|].
  destruct (sid =? sn_sid n); cbn; [|by rewrite andb_false_r].
  destruct (nz (c_len (sn_context n))), force; done.
Qed.

Lemma sidtab_chain_insert_spec sid ctx c m :
  StronglySorted sid_lt c ->
  let '(rc, l, m') := sidtab_chain_insert sid ctx c m in
  (rc = 0 /\ (list_to_map (node_pair <$> c) : gmap Z context) !! sid = None /\
   StronglySorted sid_lt l /\ l ≡ₚ mk_sidtab_node sid (context_copy ctx) :: c)
  \/ (rc = - EEXIST /\ is_Some ((list_to_map (node_pair <$> c) : gmap Z context) !! sid) /\ l = c)
  \/ (rc = - ENOMEM /\ l = c).
Proof.
  intros Hs. rewrite <- skip_lookup by done. revert m.
  induction Hs as [|n c Hs IH Hlt]; intros m; cbn [sidtab_chain_insert sidtab_skip].
  { destruct (kalloc m) as [[] m1]; cbn; [|by right; right].
    destruct (context_cpy_spec context_init ctx m1) as [[m2 ->]|(d & m2 & ->)]; cbn; [|by right; right].
    left. split_and!; [done|done|by repeat constructor|done]. }
  destruct (sn_sid n <? sid) eqn:E1.
  - specialize (IH m). destruct (sidtab_chain_insert sid ctx c m) as [[rc l] m'].
    destruct IH as [(-> & Hn & Hsl & Hp)|[(-> & Hsome & ->)|(-> & ->)]]; [left|right; left|right; right]; try done.
    split_and!; [done|done| |by rewrite Hp; constructor].
    constructor; [done|]. rewrite Hp. constructor; [|done]. unfold sid_lt. cbn. lia.
  - destruct (sid =? sn_sid n) eqn:E2.
    { right. left. split_and!; [done|by eexists|done]. }
    destruct (kalloc m) as [[] m1]; cbn; [|by right; right].
    destruct (context_cpy_spec context_init ctx m1) as [[m2 ->]|(d & m2 & ->)]; cbn; [|by right; right].
    left. split_and!; [done|done| |done].
    constructor; [by constructor|]. constructor; [unfold sid_lt; cbn; lia|].
    eapply Forall_impl; [exact Hlt|]. unfold sid_lt. cbn. lia.
Qed.

Lemma sidtab_nodes_insert s sid c l :
  hashtab_wf (sidtab_ht s) -> l ≡ₚ mk_sidtab_node sid c :: slot s (SIDTAB_HASH sid) ->
  concat (<[Z.to_nat (SIDTAB_HASH sid) := l]> (si_htable s)) ≡ₚ mk_sidtab_node sid c :: sidtab_nodes s.
Proof.
  intros Hwf Hp. destruct (slot_lookup s sid Hwf) as (_ & Hs & _). unfold sidtab_nodes.
  by eapply concat_insert_perm.
Qed.

Lemma copy_str_ok c : str_ok (context_copy c).
Proof. unfold str_ok, context_copy. destruct (c_str c) as [str|] eqn:E; [intros _; rewrite E; by exists str|done]. Qed.

(** [sidtab_insert] adds one entry, or fails and changes nothing. *)
Lemma sidtab_insert_spec s sid ctx m :
  sidtab_wf s -> 0 < sid < UINT_MAX ->
  let '(rc, s', m') := sidtab_insert s sid ctx m in
  (rc = 0 /\ sidtab_abs s !! sid = None /\ sidtab_wf s' /\
   sidtab_abs s' = <[sid := context_copy ctx]> (sidtab_abs s) /\
   si_next_sid s' = Z.max (si_next_sid s) (sid + 1) /\ si_cache s' = si_cache s /\
   si_shutdown s' = si_shutdown s)
  \/ (rc = - EEXIST /\ is_Some (sidtab_abs s !! sid) /\ s' = s)
  \/ (rc = - ENOMEM /\ s' = s).
Proof.
  intros Hwf Hsid. pose proof Hwf as [Hht Hr Hn Hc Hcl Hca].
  destruct (slot_lookup s sid Hht) as (Hp & Hs & Hsort).
  unfold sidtab_insert. pose proof (sidtab_chain_insert_spec sid ctx _ m Hsort) as Hins.
  destruct (sidtab_chain_insert sid ctx (slot s (SIDTAB_HASH sid)) m) as [[rc l] m'].
  rewrite <- abs_slot in Hins by done.
  destruct Hins as [(-> & Hnone & Hsl & Hpl)|[(-> & Hsome & ->)|(-> & ->)]];
    [left|right; left; done|right; right; done].
  change (nz 0) with false. cbv iota.
  set (next := if si_next_sid s <=? sid then u32 (sid + 1) else si_next_sid s).
  assert (next = Z.max (si_next_sid s) (sid + 1)) as Hnext.
  { subst next. unfold UINT_MAX in *. destruct (si_next_sid s <=? sid) eqn:E; [rewrite u32_small|]; lia. }
  pose proof (sidtab_nodes_insert s sid (context_copy ctx) l Hht Hpl) as Hnodes.
  set (s' := mk_sidtab _ _ _ _ _).
  assert (Hlp : node_pair <$> l ≡ₚ (sid, context_copy ctx) :: (node_pair <$> slot s (SIDTAB_HASH sid)))
    by by rewrite Hpl.
  assert (Hlsort : StronglySorted (key_lt (ht_keycmp (sidtab_ht s))) (node_pair <$> l))
    by by apply chain_sorted_pairs.
  assert (sidtab_ht s' = mk_hashtab (<[Z.to_nat (SIDTAB_HASH sid) := node_pair <$> l]> (ht_htable (sidtab_ht s)))
            (ht_size (sidtab_ht s)) (u32 (ht_nel (sidtab_ht s) + 1))
            (ht_hash_value (sidtab_ht s)) (ht_keycmp (sidtab_ht s))) as Eht.
  { unfold sidtab_ht, s'. cbn. by rewrite list_fmap_insert. }
  split_and!; [done|done| | |done|done|done].
  - constructor.
    + rewrite Eht. eapply hashtab_insert_wf; [done|reflexivity|done| |done|done].
      pose proof (sidtab_nel_lt s Hwf). cbn. unfold HASHTAB_MAX_NODES, UINT_MAX in *. lia.
    + unfold sidtab_nodes, s' at 2. cbn [si_htable si_next_sid]. rewrite Hnodes.
      unfold s'. cbn [si_next_sid]. rewrite Hnext. constructor; [cbn; lia|].
      eapply Forall_impl; [exact Hr|]. cbn. lia.
    + unfold s'. cbn [si_next_sid]. rewrite Hnext. unfold UINT_MAX in *. lia.
    + unfold sidtab_nodes, s'. cbn [si_htable]. rewrite Hnodes. constructor; [|done]. apply copy_str_ok.
    + done.
    + intros n Hin. unfold sidtab_nodes, s'. cbn [si_htable]. rewrite Hnodes. right. by apply Hca.
  - unfold sidtab_abs. rewrite Eht. by eapply hashtab_insert_abs.
Qed.

(** *** The cache *)

Lemma update_cache_elem n loc cache x :
  (loc < length cache)%nat ->
  Some x ∈ update_cache_loop n loc cache -> x = n \/ Some x ∈ cache.
Proof.
  revert cache. induction loc as [|loc IH]; intros cache Hlt; cbn [update_cache_loop].
  - intros Hin. apply list_elem_of_lookup in Hin as [i Hi].
    destruct i as [|i]; [rewrite list_lookup_insert_eq in Hi by done; left; congruence|].
    rewrite list_lookup_insert_ne in Hi by done. right. by eapply list_elem_of_lookup_2.
  - intros Hin. apply IH in Hin; [|rewrite length_insert; lia].
    destruct Hin as [->|Hin]; [by left|]. right.
    apply list_elem_of_lookup in Hin as [i Hi]. destruct (decide (S loc = i)) as [<-|Hne].
    + rewrite list_lookup_insert_eq in Hi by done. injection Hi as Hi. rewrite nth_lookup in Hi.
      destruct (cache !! loc) as [o|] eqn:E; cbn in Hi; [|done]. subst o. by eapply list_elem_of_lookup_2.
    + rewrite list_lookup_insert_ne in Hi by done. by eapply list_elem_of_lookup_2.
Qed.

Lemma update_cache_length n loc cache : length (update_cache_loop n loc cache) = length cache.
Proof.
  revert cache. induction loc as [|loc IH]; intros cache; cbn [update_cache_loop];
    rewrite ?IH; by rewrite length_insert.
Qed.

(** [s'] is [s] up to its cache. *)
Definition same_table (s s' : sidtab) : Prop := s' = set_si_cache s (si_cache s').

Lemma same_table_refl s : same_table s s.
Proof. by destruct s. Qed.

Lemma same_table_abs s s' : same_table s s' -> sidtab_abs s' = sidtab_abs s.
Proof. unfold same_table. by intros ->. Qed.

Lemma update_cache_spec s n loc :
  sidtab_wf s -> n ∈ sidtab_nodes s -> (loc < SIDTAB_CACHE_LEN)%nat ->
  exists s', sidtab_update_cache s n loc = Some s' /\ same_table s s' /\ sidtab_wf s'.
Proof.
  intros Hwf Hn Hloc. pose proof Hwf as [Hht Hr Hnx Hc Hcl Hca]. unfold sidtab_update_cache.
  rewrite (proj2 (Nat.leb_gt _ _)) by done. eexists. split_and!; [done|done|].
  constructor; try done.
  - cbn. by rewrite update_cache_length.
  - cbn. intros x [->|Hx]%update_cache_elem; [done|by apply Hca|by rewrite Hcl].
Qed.

(** What a search for a context reports: nothing, or a SID of the table that
    has this context. *)
Definition search_hit (s : sidtab) (ctx : context) (sid : Z) : Prop :=
  0 < sid /\ exists c, sidtab_abs s !! sid = Some c /\ context_cmp c ctx = true.

Definition search_miss (s : sidtab) (ctx : context) : Prop :=
  forall sid c, sidtab_abs s !! sid = Some c -> context_cmp c ctx = false.

Lemma node_hit s n ctx :
  sidtab_wf s -> n ∈ sidtab_nodes s -> context_cmp (sn_context n) ctx = true -> search_hit s ctx (sn_sid n).
Proof.
  intros Hwf Hn Hc. pose proof (swf_range s Hwf) as Hr. rewrite Forall_forall in Hr.
  split; [specialize (Hr n Hn); cbn in Hr; lia|]. exists (sn_context n). split; [|done].
  apply sidtab_abs_elem; [apply Hwf|]. by destruct n.
Qed.

Lemma search_cache_loop_spec s ctx n i :
  sidtab_wf s -> (i + n = SIDTAB_CACHE_LEN)%nat ->
  exists sid s', search_cache_loop s ctx n i = Some (sid, s') /\ same_table s s' /\ sidtab_wf s' /\
    (sid = 0 \/ search_hit s ctx sid).
Proof.
  intros Hwf. revert i. induction n as [|n IH]; intros i Hi; cbn [search_cache_loop].
  { eexists _, _. split_and!; [done|apply same_table_refl|done|by left]. }
  destruct (nth i (si_cache s) None) as [nd|] eqn:E.
  2: { eexists _, _. split_and!; [done|apply same_table_refl|done|by left]. }
  destruct (context_cmp (sn_context nd) ctx) eqn:Ec; [|apply IH; lia].
  assert (nd ∈ sidtab_nodes s) as Hnd.
  { apply (swf_cache s Hwf). rewrite nth_lookup in E.
    destruct (si_cache s !! i) eqn:Ei; cbn in E; [|done]. subst. by eapply list_elem_of_lookup_2. }
  destruct (update_cache_spec s nd i Hwf Hnd) as (s' & -> & Hs & Hw); [lia|].
  eexists _, _. split_and!; [done|done|done|]. right. by apply node_hit.
Qed.

Lemma search_context_spec s ctx :
  sidtab_wf s ->
  exists sid s', sidtab_search_context s ctx = Some (sid, s') /\ same_table s s' /\ sidtab_wf s' /\
    ((sid = 0 /\ search_miss s ctx) \/ search_hit s ctx sid).
Proof.
  intros Hwf. unfold sidtab_search_context.
  destruct (List.find _ _) as [nd|] eqn:E.
  - apply find_some in E as [Hin%list_elem_of_In Hc].
    destruct (update_cache_spec s nd (SIDTAB_CACHE_LEN - 1) Hwf Hin) as (s' & -> & Hs & Hw);
      [unfold SIDTAB_CACHE_LEN; lia|].
    eexists _, _. split_and!; [done|done|done|]. right. by apply node_hit.
  - eexists _, _. split_and!; [done|apply same_table_refl|done|]. left. split; [done|].
    intros sid c Hc%sidtab_abs_elem; [|apply Hwf].
    apply (find_none _ _ E (mk_sidtab_node sid c)). by apply list_elem_of_In.
Qed.

Lemma set_next_wf s v :
  sidtab_wf s -> si_next_sid s <= v <= UINT_MAX -> sidtab_wf (set_si_next_sid s v).
Proof.
  intros [Hht Hr Hn Hc Hcl Hca] Hv. constructor; try done; cbn; [|lia].
  eapply Forall_impl; [exact Hr|]. cbn. lia.
Qed.

Lemma next_sid_fresh s : sidtab_wf s -> sidtab_abs s !! si_next_sid s = None.
Proof.
  intros Hwf. destruct (sidtab_abs s !! si_next_sid s) as [c|] eqn:E; [|done]. exfalso.
  apply sidtab_abs_elem in E; [|apply Hwf].
  pose proof (swf_range s Hwf) as Hr. rewrite Forall_forall in Hr. apply Hr in E. cbn in E. lia.
Qed.

(** The three outcomes of [sidtab_context_to_sid]. *)
Inductive to_sid_result (s : sidtab) (ctx : context) : Z -> Z -> sidtab -> Prop :=
| to_sid_found sid s' :
    search_hit s ctx sid -> same_table s s' ->
    to_sid_result s ctx 0 sid s'
| to_sid_added s' :
    search_miss s ctx -> sidtab_abs s !! si_next_sid s = None ->
    sidtab_abs s' = <[si_next_sid s := context_copy ctx]> (sidtab_abs s) ->
    si_next_sid s' = si_next_sid s + 1 -> si_shutdown s' = si_shutdown s -> si_shutdown s = false ->
    to_sid_result s ctx 0 (si_next_sid s) s'
| to_sid_nomem s' :
    search_miss s ctx -> same_table s s' ->
    to_sid_result s ctx (- ENOMEM) SECSID_NULL s'.

Lemma to_sid_insert s ctx m :
  sidtab_wf s -> search_miss s ctx -> si_next_sid s <> UINT_MAX -> si_shutdown s = false ->
  exists rc sid s' m',
    (let '(ret, t, m1) := sidtab_insert (set_si_next_sid s (u32 (si_next_sid s + 1))) (si_next_sid s) ctx m in
     if nz ret then Some (ret, SECSID_NULL, set_si_next_sid t (u32 (si_next_sid t - 1)), m1)
     else Some (0, si_next_sid s, t, m1)) = Some (rc, sid, s', m') /\
    sidtab_wf s' /\ to_sid_result s ctx rc sid s'.
Proof.
  intros Hwf Hmiss Hmax Hsh. pose proof (swf_next s Hwf) as Hn.
  pose proof (next_sid_fresh s Hwf) as Hfresh.
  rewrite (u32_small (si_next_sid s + 1)) by (unfold UINT_MAX in *; lia).
  assert (sidtab_wf (set_si_next_sid s (si_next_sid s + 1))) as Hwf1 by (apply set_next_wf; [done|lia]).
  pose proof (sidtab_insert_spec (set_si_next_sid s (si_next_sid s + 1)) (si_next_sid s) ctx m Hwf1) as H.
  destruct (sidtab_insert _ _ _ _) as [[rc t] m1].
  destruct H as [(-> & _ & Hw & Habs & Hnx & _ & Hsd)|[(-> & [c Hc] & _)|(-> & ->)]];
    [lia| | |]; cbn [nz Z.eqb negb].
  - eexists _, _, _, _. split_and!; [done|done|].
    apply to_sid_added; try done. rewrite Hnx. cbn. lia.
  - by change (sidtab_abs s !! si_next_sid s = Some c) in Hc; rewrite Hfresh in Hc.
  - change (nz (- ENOMEM)) with true. cbv iota. eexists _, _, _, _.
    assert (set_si_next_sid (set_si_next_sid s (si_next_sid s + 1))
              (u32 (si_next_sid (set_si_next_sid s (si_next_sid s + 1)) - 1)) = s) as E.
    { cbn [si_next_sid set_si_next_sid]. rewrite Z.add_simpl_r, u32_small by (unfold UINT_MAX in *; lia).
      by destruct s. }
    split_and!; [done|by rewrite E|]. rewrite E. by apply to_sid_nomem; [|apply same_table_refl].
Qed.

Lemma same_table_trans s1 s2 s3 : same_table s1 s2 -> same_table s2 s3 -> same_table s1 s3.
Proof. unfold same_table. intros E1 E2. rewrite E2 at 1. rewrite E1. done. Qed.

Lemma search_hit_same s s' ctx sid : same_table s s' -> search_hit s' ctx sid <-> search_hit s ctx sid.
Proof. intros H. unfold search_hit. by rewrite (same_table_abs s s' H). Qed.

Lemma search_miss_same s s' ctx : same_table s s' -> search_miss s' ctx <-> search_miss s ctx.
Proof. intros H. unfold search_miss. by rewrite (same_table_abs s s' H). Qed.

Lemma to_sid_result_same s s1 ctx rc sid s' :
  same_table s s1 -> to_sid_result s1 ctx rc sid s' -> to_sid_result s ctx rc sid s'.
Proof.
  intros Hs H. pose proof (same_table_abs _ _ Hs) as Habs.
  assert (si_next_sid s1 = si_next_sid s /\ si_shutdown s1 = si_shutdown s) as [Hnx Hsd] by by rewrite Hs.
  destruct H as [sid s' Hh Hs'|s' Hm Hf Ha Hnx' Hsd' Hsd''|s' Hm Hs'].
  - apply to_sid_found; [by rewrite <- search_hit_same|by eapply same_table_trans].
  - rewrite Hnx in *. rewrite Habs in *. rewrite Hsd in *. apply to_sid_added; try done.
    by rewrite <- search_miss_same.
  - apply to_sid_nomem; [by rewrite <- search_miss_same|by eapply same_table_trans].
Qed.

Lemma hit_nz s ctx sid : search_hit s ctx sid -> nz sid = true.
Proof. intros [H _]. apply nz_true. lia. Qed.

Lemma to_sid_locked s ctx m :
  sidtab_wf s ->
  exists rc sid s' m',
    ('(sid, s) ← sidtab_search_context s ctx;
     if nz sid then Some (0, sid, s, m)
     else if (si_next_sid s =? UINT_MAX) || si_shutdown s then Some (- ENOMEM, SECSID_NULL, s, m)
     else
       let sid := si_next_sid s in
       let '(ret, s, m) := sidtab_insert (set_si_next_sid s (u32 (si_next_sid s + 1))) sid ctx m in
       if nz ret then Some (ret, SECSID_NULL, set_si_next_sid s (u32 (si_next_sid s - 1)), m)
       else Some (0, sid, s, m)) = Some (rc, sid, s', m') /\
    sidtab_wf s' /\ to_sid_result s ctx rc sid s'.
Proof.
  intros Hwf. destruct (search_context_spec s ctx Hwf) as (sid & s1 & -> & Hs & Hw & Hr).
  cbn [mbind option_bind]. destruct Hr as [[-> Hmiss]|Hhit].
  2: { rewrite (hit_nz _ _ _ Hhit). eexists _, _, _, _. split_and!; [done|done|by apply to_sid_found]. }
  change (nz 0) with false. cbv iota.
  destruct ((si_next_sid s1 =? UINT_MAX) || si_shutdown s1) eqn:E.
  { eexists _, _, _, _. split_and!; [done|done|by apply to_sid_nomem]. }
  apply orb_false_iff in E as [E1 E2]. apply Z.eqb_neq in E1.
  destruct (to_sid_insert s1 ctx m) as (rc & sid & s' & m' & Heq & Hw' & Hr');
    [done|by rewrite search_miss_same|done|done|].
  eexists _, _, _, _. split_and!; [exact Heq|done|by eapply to_sid_result_same].
Qed.

Lemma context_to_sid_spec s ctx m :
  sidtab_wf s ->
  exists rc sid s' m', sidtab_context_to_sid s ctx m = Some (rc, sid, s', m') /\
    sidtab_wf s' /\ to_sid_result s ctx rc sid s'.
Proof.
  intros Hwf. unfold sidtab_context_to_sid, sidtab_search_cache.
  destruct (search_cache_loop_spec s ctx SIDTAB_CACHE_LEN 0 Hwf eq_refl) as (sid & s1 & -> & Hs & Hw & Hr).
  cbn [mbind option_bind]. destruct Hr as [->|Hhit].
  2: { rewrite (hit_nz _ _ _ Hhit). cbn. rewrite (hit_nz _ _ _ Hhit).
       eexists _, _, _, _. split_and!; [done|done|by apply to_sid_found]. }
  change (nz 0) with false. cbv iota.
  destruct (search_context_spec s1 ctx Hw) as (sid & s2 & -> & Hs2 & Hw2 & Hr).
  pose proof (same_table_trans _ _ _ Hs Hs2) as Hs02.
  cbn [mbind option_bind]. destruct Hr as [[-> Hmiss]|Hhit].
  2: { rewrite (hit_nz _ _ _ Hhit). eexists _, _, _, _. split_and!; [done|done|].
       apply to_sid_found; [by rewrite <- search_hit_same|done]. }
  change (nz 0) with false. cbv iota.
  destruct (to_sid_locked s2 ctx m Hw2) as (rc & sid & s' & m' & Heq & Hw' & Hr').
  eexists _, _, _, _. split_and!; [exact Heq|done|by eapply to_sid_result_same].
Qed.

(** *** Enough memory, and SIDs left *)

Lemma chain_insert_memory sid ctx c rc l m' :
  sidtab_chain_insert sid ctx c [] = (rc, l, m') -> rc <> - ENOMEM /\ m' = [].
Proof.
  revert rc l m'. induction c as [|n c IH]; intros rc l m'; cbn [sidtab_chain_insert].
  { cbn. rewrite context_cpy_ok. by intros [= <- _ <-]. }
  destruct (_ <? _).
  - destruct (sidtab_chain_insert sid ctx c []) as [[rc1 l1] m1]. intros [= <- _ <-]. by eapply IH.
  - destruct (_ =? _); [by intros [= <- _ <-]|]. cbn. rewrite context_cpy_ok. by intros [= <- _ <-].
Qed.

Lemma insert_memory s sid ctx rc s' m' : sidtab_insert s sid ctx [] = (rc, s', m') -> rc <> - ENOMEM /\ m' = [].
Proof.
  unfold sidtab_insert. destruct (sidtab_chain_insert sid ctx _ []) as [[rc1 l] m1] eqn:E. apply chain_insert_memory in E as [Hr ->].
  destruct (nz rc1); by intros [= <- _ <-].
Qed.

(** The table is in use and can give out [n] more SIDs. *)
Definition sids_left (s : sidtab) (n : Z) : Prop := si_shutdown s = false /\ si_next_sid s + n <= UINT_MAX.

Lemma context_to_sid_memory s ctx rc sid s' m' :
  sidtab_wf s -> sidtab_context_to_sid s ctx [] = Some (rc, sid, s', m') -> m' = [] /\ (sids_left s 1 -> rc <> - ENOMEM).
Proof.
  intros Hwf. unfold sidtab_context_to_sid, sidtab_search_cache.
  destruct (search_cache_loop_spec s ctx SIDTAB_CACHE_LEN 0 Hwf eq_refl) as (sid1 & s1 & -> & Hs1 & Hw1 & _). cbn [mbind option_bind].
  assert (exists sid2 s2, (if nz sid1 then Some (sid1, s1) else sidtab_search_context s1 ctx) = Some (sid2, s2) /\ same_table s s2 /\ sidtab_wf s2)
    as (sid2 & s2 & -> & Hs2 & Hw2).
  { destruct (nz sid1); [by eexists _, _|]. destruct (search_context_spec s1 ctx Hw1) as (sid2 & s2 & -> & Hs2 & Hw2 & _).
    eexists _, _. split_and!; [done|by eapply same_table_trans|done]. }
  cbn [mbind option_bind]. destruct (nz sid2); [by intros [= <- _ _ <-]|].
  destruct (search_context_spec s2 ctx Hw2) as (sid3 & s3 & -> & Hs3 & _). cbn [mbind option_bind]. destruct (nz sid3); [by intros [= <- _ _ <-]|].
  assert (same_table s s3) as Hs by by eapply same_table_trans. assert (si_next_sid s3 = si_next_sid s /\ si_shutdown s3 = si_shutdown s) as [-> ->] by by rewrite Hs.
  destruct ((si_next_sid s =? UINT_MAX) || si_shutdown s) eqn:E.
  { intros [= <- _ _ <-]. split; [done|]. intros [Hsd Hnx]. rewrite Hsd, orb_false_r in E. apply Z.eqb_eq in E. lia. }
  destruct (sidtab_insert _ _ _ []) as [[ret t] m1] eqn:E1. apply insert_memory in E1 as [Hr ->]. destruct (nz ret); by intros [= <- _ _ <-].
Qed.

(** The SIDs left do not become more. *)
Lemma to_sid_left s ctx rc sid s' n : to_sid_result s ctx rc sid s' -> sids_left s' n -> sids_left s n.
Proof.
  unfold sids_left. intros Hr. destruct Hr as [sid s' _ Hs|s' _ _ _ Hx Hd _|s' _ Hs]; [rewrite Hs|rewrite Hx, Hd|rewrite Hs]; cbn; intros [? ?]; split; (done || lia).
Qed.

Lemma context_to_sid_room s ctx n :
  sidtab_wf s -> sids_left s (n + 1) -> 0 <= n ->
  exists sid s', sidtab_context_to_sid s ctx [] = Some (0, sid, s', []) /\ sidtab_wf s' /\ sids_left s' n /\ to_sid_result s ctx 0 sid s'.
Proof.
  intros Hwf [Hsd Hnx] Hn. destruct (context_to_sid_spec s ctx [] Hwf) as (rc & sid & s' & m' & E & Hw & Hr).
  destruct (context_to_sid_memory s ctx rc sid s' m' Hwf E) as [-> Hrc]. assert (rc <> - ENOMEM) as Hne by (apply Hrc; split; [done|lia]).
  assert (rc = 0 /\ si_next_sid s' <= si_next_sid s + 1 /\ si_shutdown s' = si_shutdown s) as (-> & Hx & Hd).
  { destruct Hr as [sid s' _ Hs|s' _ _ _ Hx Hd _|]; [|split_and!; [done|lia|done]|done]. rewrite Hs. cbn. split_and!; [done|lia|done]. }
  exists sid, s'. split; [done|]. split; [done|]. split; [|done]. split; [congruence|lia].
Qed.

(** *** Repeated requests *)

Lemma update_cache_head n loc cache :
  (0 < length cache)%nat -> nth 0 (update_cache_loop n loc cache) None = Some n.
Proof.
  revert cache. induction loc as [|loc IH]; intros cache Hl; cbn [update_cache_loop].
  - by destruct cache; cbn in *; [lia|].
  - apply IH. by rewrite length_insert.
Qed.

(** The node that answered a request is at the head of the cache. *)
Definition cached (s : sidtab) (ctx : context) (sid : Z) : Prop :=
  exists n, nth 0 (si_cache s) None = Some n /\ sn_sid n = sid /\ context_cmp (sn_context n) ctx = true.

Lemma update_cached s n loc s' ctx :
  length (si_cache s) = SIDTAB_CACHE_LEN -> context_cmp (sn_context n) ctx = true ->
  sidtab_update_cache s n loc = Some s' -> cached s' ctx (sn_sid n).
Proof.
  intros Hl Hc. unfold sidtab_update_cache. destruct (_ <=? _)%nat; [done|]. intros [= <-].
  exists n. split_and!; [|done|done]. apply update_cache_head. rewrite Hl. unfold SIDTAB_CACHE_LEN. lia.
Qed.

Lemma search_cache_cached s ctx n i sid s' :
  length (si_cache s) = SIDTAB_CACHE_LEN ->
  search_cache_loop s ctx n i = Some (sid, s') -> nz sid = true -> cached s' ctx sid.
Proof.
  intros Hl. revert i. induction n as [|n IH]; intros i; cbn [search_cache_loop]; [by intros [= <- <-]|].
  destruct (nth i (si_cache s) None) as [nd|]; [|by intros [= <- <-]].
  destruct (context_cmp (sn_context nd) ctx) eqn:Ec; [|apply IH].
  destruct (sidtab_update_cache s nd i) as [s1|] eqn:E; [|done]. cbn. intros [= <- <-] _.
  by eapply update_cached.
Qed.

Lemma search_context_cached s ctx sid s' :
  length (si_cache s) = SIDTAB_CACHE_LEN ->
  sidtab_search_context s ctx = Some (sid, s') -> nz sid = true -> cached s' ctx sid.
Proof.
  intros Hl. unfold sidtab_search_context. destruct (List.find _ _) as [nd|] eqn:E; [|by intros [= <- <-]].
  apply find_some in E as [_ Hc]. destruct (sidtab_update_cache s nd _) as [s1|] eqn:E; [|done].
  cbn. intros [= <- <-] _. by eapply update_cached.
Qed.

Lemma cached_answer s ctx sid m :
  cached s ctx sid -> 0 < sid -> exists s', sidtab_context_to_sid s ctx m = Some (0, sid, s', m).
Proof.
  intros (n & Hn & <- & Hc) Hpos. unfold sidtab_context_to_sid, sidtab_search_cache, SIDTAB_CACHE_LEN.
  cbn [search_cache_loop]. rewrite Hn, Hc. unfold sidtab_update_cache. cbn.
  rewrite (proj2 (nz_true _)) by lia. cbn. rewrite (proj2 (nz_true _)) by lia. by eexists.
Qed.

(** A request that finds its context leaves the answer cached. *)
Lemma to_sid_found_cached s ctx sid s' m m' :
  sidtab_wf s -> str_ok ctx -> ~ search_miss s ctx ->
  sidtab_context_to_sid s ctx m = Some (0, sid, s', m') -> cached s' ctx sid.
Proof.
  intros Hwf Hctx Hnm. unfold sidtab_context_to_sid, sidtab_search_cache.
  destruct (search_cache_loop_spec s ctx SIDTAB_CACHE_LEN 0 Hwf eq_refl) as (sid1 & s1 & E1 & Hs & Hw & Hr).
  rewrite E1. cbn [mbind option_bind]. destruct (nz sid1) eqn:Enz.
  { cbn. rewrite Enz. intros [= <- <- _]. eapply search_cache_cached; [apply Hwf|done|done]. }
  destruct (search_context_spec s1 ctx Hw) as (sid2 & s2 & E2 & Hs2 & Hw2 & Hr2).
  rewrite E2. cbn [mbind option_bind]. destruct Hr2 as [[_ Hmiss]|Hhit].
  { exfalso. by apply Hnm, (search_miss_same s s1). }
  rewrite (hit_nz _ _ _ Hhit). intros [= <- <- _].
  eapply search_context_cached; [apply Hw|done|by eapply hit_nz].
Qed.

(** After an insertion the new entry is the only one that answers. *)
Lemma to_sid_again s ctx sid m :
  sidtab_wf s -> str_ok ctx -> 0 < sid ->
  (exists c, sidtab_abs s !! sid = Some c /\ context_cmp c ctx = true) ->
  (forall k c, sidtab_abs s !! k = Some c -> context_cmp c ctx = true -> k = sid) ->
  exists s', sidtab_context_to_sid s ctx m = Some (0, sid, s', m).
Proof.
  intros Hwf Hctx Hpos Hex Huniq. pose proof Hex as (c & Hc & Hcmp).
  assert (forall k, search_hit s ctx k -> k = sid) as Hk.
  { intros k (_ & c' & Hc' & Hcmp'). by apply (Huniq k c'). }
  unfold sidtab_context_to_sid, sidtab_search_cache.
  destruct (search_cache_loop_spec s ctx SIDTAB_CACHE_LEN 0 Hwf eq_refl) as (sid1 & s1 & -> & Hs & Hw & Hr).
  cbn [mbind option_bind]. assert (nz sid = true) as Hnz by (apply nz_true; lia).
  destruct Hr as [->|Hhit].
  2: { rewrite (hit_nz _ _ _ Hhit). cbn. apply Hk in Hhit as ->. rewrite Hnz. by eexists. }
  change (nz 0) with false. cbv iota.
  destruct (search_context_spec s1 ctx Hw) as (sid2 & s2 & -> & Hs2 & Hw2 & Hr2).
  cbn [mbind option_bind]. destruct Hr2 as [[_ Hmiss]|Hhit].
  { apply (search_miss_same s s1) in Hmiss; [|done]. specialize (Hmiss _ _ Hc). congruence. }
  apply (search_hit_same s s1) in Hhit; [|done]. apply Hk in Hhit as ->. rewrite Hnz. by eexists.
Qed.

(** Comparing with a copy is comparing with the original. *)
Lemma copy_cmp ctx : str_ok ctx -> context_cmp (context_copy ctx) ctx = true.
Proof.
  intros H. unfold context_copy. destruct (c_str ctx) eqn:E; [by apply context_cmp_refl|].
  assert (nz (c_len ctx) = false) as Hl.
  { destruct (nz (c_len ctx)) eqn:En; [|done]. destruct (H En). congruence. }
  unfold context_cmp. cbn. rewrite Hl. cbn. rewrite !Z.eqb_refl. cbn.
  by apply mls_context_cmp_spec.
Qed.

Lemma to_sid_stable s ctx sid s' m m' m1 :
  sidtab_wf s -> str_ok ctx ->
  sidtab_context_to_sid s ctx m = Some (0, sid, s', m') ->
  exists s'', sidtab_context_to_sid s' ctx m1 = Some (0, sid, s'', m1).
Proof.
  intros Hwf Hctx E. destruct (context_to_sid_spec s ctx m Hwf) as (rc & sid' & s1 & m2 & E' & Hw & Hr).
  rewrite E in E'. injection E' as <- <- <- <-. inversion Hr; subst.
  - eapply cached_answer; [|by destruct H].
    eapply to_sid_found_cached; [exact Hwf|done| |done].
    intros Hm. destruct H as (_ & c & Hc & Hcmp). specialize (Hm _ _ Hc). congruence.
  - pose proof (swf_next s Hwf). apply to_sid_again; [done|done|lia| |].
    + exists (context_copy ctx). rewrite H1, lookup_insert_eq. split; [done|by apply copy_cmp].
    + intros k c. rewrite H1, lookup_insert. case_decide; [done|]. intros Hk Hc.
      specialize (H _ _ Hk). congruence.
Qed.

Lemma empty_table_wf n :
  Z.of_nat n = SIDTAB_SIZE ->
  let s := mk_sidtab (replicate n []) 0 1 false (replicate SIDTAB_CACHE_LEN None) in
  sidtab_wf s /\ sidtab_abs s = ∅ /\ si_next_sid s = 1.
Proof.
  intros Hlen s. assert (concat (replicate n []) = ([] : list sidtab_node)) as Hc.
  { clear. by induction n. }
  assert (sidtab_nodes s = []) as Hnodes by done.
  assert (ht_htable (sidtab_ht s) = replicate n []) as Hf by (cbn; by rewrite fmap_replicate).
  split_and!; [|by rewrite sidtab_abs_nodes, Hnodes|done].
  constructor; rewrite ?Hnodes; try done.
  - constructor; rewrite ?Hf.
    + apply sidtab_ops.
    + by rewrite length_replicate.
    + intros i c [-> _]%lookup_replicate. constructor.
    + apply Forall_replicate. constructor.
    + by rewrite <- Hf, sidtab_pairs, Hnodes.
  - intros x Hx. apply elem_of_replicate in Hx. by destruct Hx.
Qed.

Lemma sidtab_init_wf m s m' rc :
  sidtab_init (replicate SIDTAB_CACHE_LEN None) m = (rc, Some s, m') ->
  sidtab_wf s /\ sidtab_abs s = ∅ /\ si_next_sid s = 1.
Proof.
  unfold sidtab_init. destruct (kalloc m) as [[] m1]; [|done].
  change (negb true) with false. cbv iota. intros E. apply (f_equal (fun x => x.1.2)) in E.
  cbv beta iota delta [fst snd] in E. apply (inj Some) in E as <-. by apply empty_table_wf.
Qed.

(** ** Properties *)

(** C29: [sidtab_context_to_sid] always returns.  It gives the SID of an equal
    context of the table, or a SID never used before, which it adds, or fails
    with [-ENOMEM] and leaves the table as it was; the table stays
    well-formed. *)
Theorem context_to_sid_outcome s ctx m :
  sidtab_wf s -> str_ok ctx ->
  exists rc sid s' m', sidtab_context_to_sid s ctx m = Some (rc, sid, s', m') /\
    sidtab_wf s' /\ to_sid_result s ctx rc sid s'.
Proof. intros Hwf _. by apply context_to_sid_spec. Qed.

(** The table [sidtab_init] makes. *)
Definition empty_sids : sidtab := mk_sidtab (replicate (Z.to_nat SIDTAB_SIZE) []) 0 1 false (replicate SIDTAB_CACHE_LEN None).

Lemma empty_sids_wf : sidtab_wf empty_sids.
Proof. by apply (empty_table_wf (Z.to_nat SIDTAB_SIZE)). Qed.

Definition some_ctx : context := mk_context 1 2 3 0 mls_range_zero None.

Lemma context_to_sid_outcome_witness :
  exists rc sid s' m', sidtab_context_to_sid empty_sids some_ctx [] = Some (rc, sid, s', m') /\
    sidtab_wf s' /\ to_sid_result empty_sids some_ctx rc sid s'.
Proof. apply (context_to_sid_outcome empty_sids some_ctx [] empty_sids_wf). discriminate. Defined.

Lemma context_cmp_len0 c ctx : context_cmp c ctx = true -> c_len ctx = 0 -> nz (c_len c) = false.
Proof. unfold context_cmp. intros H E. rewrite E in H. by destruct (nz (c_len c)). Qed.

Lemma to_sid_has s ctx sid s' :
  to_sid_result s ctx 0 sid s' -> str_ok ctx -> exists c, sidtab_abs s' !! sid = Some c /\ context_cmp c ctx = true.
Proof.
  intros Hr Hctx. inv Hr.
  - match goal with H : search_hit _ _ _ |- _ => destruct H as (_ & c & Hc & ?) end. exists c. by erewrite same_table_abs.
  - match goal with H : sidtab_abs s' = _ |- _ => rewrite H end. exists (context_copy ctx).
    rewrite lookup_insert_eq. split; [done|by apply copy_cmp].
Qed.

Lemma to_sid_rc s ctx rc sid s' : to_sid_result s ctx rc sid s' -> rc = 0 \/ rc = - ENOMEM.
Proof. intros Hr. inv Hr; [by left|by left|by right]. Qed.

Lemma sid_positive s sid : sidtab_wf s -> sid <= 0 -> sidtab_abs s !! sid = None.
Proof.
  intros Hwf Hs. destruct (sidtab_abs s !! sid) as [c|] eqn:E; [|done]. exfalso.
  apply sidtab_abs_elem in E; [|apply Hwf].
  pose proof (swf_range s Hwf) as Hr. rewrite Forall_forall in Hr. apply Hr in E. cbn in E. lia.
Qed.

Lemma to_sid_keeps s ctx rc sid s' i c :
  to_sid_result s ctx rc sid s' -> sidtab_abs s !! i = Some c -> sidtab_abs s' !! i = Some c.
Proof.
  intros Hr Hi. inv Hr; [by erewrite same_table_abs| |by erewrite same_table_abs].
  match goal with H : sidtab_abs s' = _ |- _ => rewrite H end. rewrite lookup_insert_ne; [done|]. intros <-. congruence.
Qed.

(** Every SID of [t] has the same context in [t']. *)
Definition keeps (t t' : sidtab) : Prop := forall sid c, sidtab_abs t !! sid = Some c -> sidtab_abs t' !! sid = Some c.

Lemma keeps_refl t : keeps t t.
Proof. by intros sid c. Qed.
Lemma keeps_trans t1 t2 t3 : keeps t1 t2 -> keeps t2 t3 -> keeps t1 t3.
Proof. intros H1 H2 sid c Hc. by apply H2, H1. Qed.

(** Whatever the context, SIDs that are in use keep their contexts. *)
Lemma to_sid_extends t ctx m rc sid t' m' :
  sidtab_wf t -> sidtab_context_to_sid t ctx m = Some (rc, sid, t', m') -> sidtab_wf t' /\ keeps t t'.
Proof.
  intros Hw H. destruct (context_to_sid_spec t ctx m Hw) as (rc1 & sid1 & t1 & m1 & E & Hwt & Hr).
  rewrite H in E. injection E as <- <- <- <-. split; [done|]. intros i c. by eapply to_sid_keeps.
Qed.

(** A SID for a context without a string. *)
Lemma record_sid t ctx m : sidtab_wf t -> c_len ctx = 0 ->
  exists rc sid t' m', sidtab_context_to_sid t ctx m = Some (rc, sid, t', m') /\ sidtab_wf t' /\ keeps t t' /\
    ((rc = - ENOMEM /\ sid = 0) \/ (rc = 0 /\ sid <> 0 /\ exists c, sidtab_abs t' !! sid = Some c /\ context_cmp c ctx = true)).
Proof.
  intros Hw Hl. assert (str_ok ctx) as Hs by (intros H; by rewrite Hl in H).
  destruct (context_to_sid_spec t ctx m Hw) as (rc & sid & t' & m' & E & Hwt & Hr). exists rc, sid, t', m'. split; [done|]. split; [done|].
  split; [intros i x; by eapply to_sid_keeps|]. destruct (to_sid_rc _ _ _ _ _ Hr) as [-> | ->]; [right|left].
  - destruct (to_sid_has _ _ _ _ Hr Hs) as (c & Hc & Hcmp). split; [done|]. split; [|by exists c]. intros ->.
    by rewrite (sid_positive t' 0 Hwt ltac:(lia)) in Hc.
  - split; [done|]. by inv Hr.
Qed.

Lemma to_sid_search s ctx sid s' :
  sidtab_wf s' -> str_ok ctx -> c_len ctx = 0 -> to_sid_result s ctx 0 sid s' ->
  exists c, sidtab_search (Some s') sid = Some c /\ context_cmp c ctx = true.
Proof.
  intros Hw Hctx Hlen Hr. unfold sidtab_search. rewrite search_core_spec by apply Hw. unfold search_spec.
  destruct (to_sid_has s ctx sid s' Hr Hctx) as (c & Hc & Hcmp). rewrite Hc. exists c. by rewrite (context_cmp_len0 c ctx).
Qed.

(** C30: a SID stands for its context: after [sidtab_context_to_sid] has given
    a SID to a valid context, [sidtab_search] returns an equal context for it,
    every SID already in the table still has its context, and asking again
    gives the same SID even without memory. *)
Theorem sid_stands_for_context s ctx m sid s' m' :
  sidtab_wf s -> str_ok ctx -> c_len ctx = 0 ->
  sidtab_context_to_sid s ctx m = Some (0, sid, s', m') ->
  (exists c, sidtab_search (Some s') sid = Some c /\ context_cmp c ctx = true) /\
  (forall i c, sidtab_abs s !! i = Some c -> sidtab_search_force (Some s') i = Some c) /\
  forall m1, exists s'', sidtab_context_to_sid s' ctx m1 = Some (0, sid, s'', m1).
Proof.
  intros Hwf Hctx Hlen E. split; [|split; [|intros m1; by eapply to_sid_stable]].
  - destruct (context_to_sid_spec s ctx m Hwf) as (rc & sid' & s1 & m2 & E' & Hw & Hr).
    rewrite E in E'. injection E' as <- <- <- <-. by eapply to_sid_search.
  - destruct (context_to_sid_spec s ctx m Hwf) as (rc & sid' & s1 & m2 & E' & Hw & Hr).
    rewrite E in E'. injection E' as <- <- <- <-. intros i c Hi.
    unfold sidtab_search_force. rewrite search_core_spec by apply Hw. unfold search_spec.
    by rewrite (to_sid_keeps _ _ _ _ _ _ _ Hr Hi), andb_false_r.
Qed.

Definition one_sid : sidtab :=
  match sidtab_context_to_sid empty_sids some_ctx [] with Some (_, _, s, _) => s | None => empty_sids end.

Lemma sid_stands_for_context_witness :
  exists c, sidtab_search (Some one_sid) 1 = Some c /\ context_cmp c some_ctx = true.
Proof.
  apply (sid_stands_for_context empty_sids some_ctx [] 1 one_sid []); [exact empty_sids_wf|discriminate|reflexivity|].
  vm_compute. reflexivity.
Defined.
