(* ===== verification/Avtab.v ===== *)
(** * The access vector table (security/selinux/ss/avtab.c, avtab.h)

    An array of chains sorted by source type, target type and class.  Other
    structures point into the table ([struct cond_av_list]), so every node
    carries an identity [an_id], the number of the allocation that made it;
    [at_ids] counts them.  A pointer into a chain that is only followed
    ([avtab_search_node], [avtab_search_node_next]) is the rest of the chain
    from that node on, [[]] standing for [NULL].

    A result [None] is an access past the end of the slot array. *)

From S2P Require Import Prelude.

(** ** Data *)

Definition AVTAB_ALLOWED : Z := 0x0001.
Definition AVTAB_AUDITALLOW : Z := 0x0002.
Definition AVTAB_AUDITDENY : Z := 0x0004.
Definition AVTAB_AV : Z := AVTAB_ALLOWED .| AVTAB_AUDITALLOW .| AVTAB_AUDITDENY.
Definition AVTAB_TRANSITION : Z := 0x0010.
Definition AVTAB_MEMBER : Z := 0x0020.
Definition AVTAB_CHANGE : Z := 0x0040.
Definition AVTAB_TYPE : Z := AVTAB_TRANSITION .| AVTAB_MEMBER .| AVTAB_CHANGE.
Definition AVTAB_ENABLED_OLD : Z := 0x80000000.
Definition AVTAB_ENABLED : Z := 0x8000.

Record avtab_key := mk_avtab_key {
  ak_source_type : Z;
  ak_target_type : Z;
  ak_target_class : Z;
  ak_specified : Z
}.

Record avtab_node := mk_avtab_node {
  an_id : nat;
  an_key : avtab_key;
  an_datum : Z
}.

Record avtab := mk_avtab {
  at_htable : option (list (list avtab_node));
  at_nel : Z;
  at_nslot : Z;
  at_mask : Z;
  at_ids : nat
}.

#[export] Instance avtab_key_eq_dec : EqDecision avtab_key.
Proof. solve_decision. Defined.
#[export] Instance avtab_node_eq_dec : EqDecision avtab_node.
Proof. solve_decision. Defined.

Definition MAX_AVTAB_HASH_BITS : Z := 11.
Definition MAX_AVTAB_HASH_BUCKETS : Z := 1 .<< MAX_AVTAB_HASH_BITS.

Definition set_ak_specified (k : avtab_key) (v : Z) : avtab_key :=
  mk_avtab_key (ak_source_type k) (ak_target_type k) (ak_target_class k) v.

(** ** Operations *)

Definition avtab_hash (keyp : avtab_key) (mask : Z) : Z :=
  (ak_target_class keyp + (ak_target_type keyp .<< 2) + (ak_source_type keyp .<< 9)) .& mask.

(** [key->specified & ~(AVTAB_ENABLED|AVTAB_ENABLED_OLD)], as a [u16]. *)
Definition avtab_spec (specified : Z) : Z :=
  u16 (specified .& not32 (AVTAB_ENABLED .| AVTAB_ENABLED_OLD)).

(** The two tests every walk along a chain makes. *)
Definition avtab_match (key : avtab_key) (specified : Z) (cur : avtab_key) : bool :=
  (ak_source_type key =? ak_source_type cur) && (ak_target_type key =? ak_target_type cur) &&
  (ak_target_class key =? ak_target_class cur) && nz (specified .& ak_specified cur).

Definition avtab_past (key cur : avtab_key) : bool :=
  (ak_source_type key <? ak_source_type cur) ||
  (ak_source_type key =? ak_source_type cur) && (ak_target_type key <? ak_target_type cur) ||
  (ak_source_type key =? ak_source_type cur) && (ak_target_type key =? ak_target_type cur) &&
  (ak_target_class key <? ak_target_class cur).

(** [avtab_insert_node] in front of [cur], on success the new chain. *)
Definition avtab_insert_node (id : nat) (key : avtab_key) (datum : Z) (cur : list avtab_node) (m : kmem)
    : option (list avtab_node) * kmem :=
  let '(ok, m) := kalloc m in
  if negb ok then (None, m) else (Some (mk_avtab_node id key datum :: cur), m).

(** The walks of [avtab_insert] and [avtab_insert_nonunique]; [dup] tells
    whether a matching node ends the walk with an error. *)
Fixpoint avtab_chain_insert (dup : bool) (id : nat) (key : avtab_key) (specified datum : Z)
    (cur : list avtab_node) (m : kmem) : Z * list avtab_node * kmem :=
  let link_here :=
    match avtab_insert_node id key datum cur m with
    | (Some l, m) => (0, l, m)
    | (None, m) => (- ENOMEM, cur, m)
    end in
  match cur with
  | n :: next =>
      if avtab_match key specified (an_key n) then (if dup then (- EEXIST, cur, m) else link_here)
      else if avtab_past key (an_key n) then link_here
      else
        let '(rc, l, m) := avtab_chain_insert dup id key specified datum next m in (rc, n :: l, m)
  | [] => link_here
  end.

Definition avtab_set_slot (h : avtab) (ht : list (list avtab_node)) (hvalue : Z) (l : list avtab_node) : avtab :=
  mk_avtab (Some (<[Z.to_nat hvalue := l]> ht)) (u32 (at_nel h + 1)) (at_nslot h) (at_mask h) (S (at_ids h)).

Definition avtab_insert (h : avtab) (key : avtab_key) (datum : Z) (m : kmem) : option (Z * avtab * kmem) :=
  match at_htable h with
  | None => Some (- EINVAL, h, m)
  | Some ht =>
      let specified := avtab_spec (ak_specified key) in
      let hvalue := avtab_hash key (at_mask h) in
      cur ← ht !! Z.to_nat hvalue;
      let '(rc, l, m) := avtab_chain_insert true (at_ids h) key specified datum cur m in
      if nz rc then Some (rc, h, m) else Some (0, avtab_set_slot h ht hvalue l, m)
  end.

(** Result: the node inserted (its identity), or [NULL]. *)
Definition avtab_insert_nonunique (h : avtab) (key : avtab_key) (datum : Z) (m : kmem)
    : option (option nat * avtab * kmem) :=
  match at_htable h with
  | None => Some (None, h, m)
  | Some ht =>
      let specified := avtab_spec (ak_specified key) in
      let hvalue := avtab_hash key (at_mask h) in
      cur ← ht !! Z.to_nat hvalue;
      let '(rc, l, m) := avtab_chain_insert false (at_ids h) key specified datum cur m in
      if nz rc then Some (None, h, m) else Some (Some (at_ids h), avtab_set_slot h ht hvalue l, m)
  end.

(** The walk of the three search functions. *)
Fixpoint avtab_chain_search (key : avtab_key) (specified : Z) (cur : list avtab_node) : list avtab_node :=
  match cur with
  | n :: next =>
      if avtab_match key specified (an_key n) then cur
      else if avtab_past key (an_key n) then []
      else avtab_chain_search key specified next
  | [] => []
  end.

Definition avtab_search_node (h : avtab) (key : avtab_key) : option (list avtab_node) :=
  match at_htable h with
  | None => Some []
  | Some ht =>
      let specified := avtab_spec (ak_specified key) in
      cur ← ht !! Z.to_nat (avtab_hash key (at_mask h));
      Some (avtab_chain_search key specified cur)
  end.

(** Result: [datum.data] of the node found, or [NULL]. *)
Definition avtab_search (h : avtab) (key : avtab_key) : option (option Z) :=
  match at_htable h with
  | None => Some None
  | Some ht =>
      let specified := avtab_spec (ak_specified key) in
      cur ← ht !! Z.to_nat (avtab_hash key (at_mask h));
      Some (match avtab_chain_search key specified cur with n :: _ => Some (an_datum n) | [] => None end)
  end.

Definition avtab_search_node_next (node : list avtab_node) (specified : Z) : list avtab_node :=
  match node with
  | [] => []
  | n :: next =>
      avtab_chain_search (an_key n) (specified .& not32 (AVTAB_ENABLED .| AVTAB_ENABLED_OLD)) next
  end.

(** [for (node = avtab_search_node(...); node; node = avtab_search_node_next(...))]:
    the nodes the loop visits.  Every step moves to a later node of the chain,
    so its length bounds the number of steps. *)
Fixpoint avtab_visit (fuel : nat) (specified : Z) (node : list avtab_node) : list avtab_node :=
  match fuel, node with
  | S fuel', n :: _ => n :: avtab_visit fuel' specified (avtab_search_node_next node specified)
  | _, _ => []
  end.

Definition avtab_for_each (h : avtab) (key : avtab_key) : option (list avtab_node) :=
  node ← avtab_search_node h key;
  Some (avtab_visit (length node) (ak_specified key) node).

Definition avtab_destroy (h : avtab) : avtab :=
  match at_htable h with
  | None => h
  | Some _ => mk_avtab None (at_nel h) 0 0 (at_ids h)
  end.

(** [avtab_init] writes [htable] and [nel] only. *)
Definition avtab_init (h : avtab) : avtab := mk_avtab None 0 (at_nslot h) (at_mask h) (at_ids h).

(** [while (work) { work = work >> 1; shift++; }]; 32 steps clear a [u32]. *)
Fixpoint avtab_shift (fuel : nat) (work shift : Z) : Z :=
  match fuel with
  | O => shift
  | S fuel' => if nz work then avtab_shift fuel' (work .>> 1) (u32 (shift + 1)) else shift
  end.

Definition avtab_alloc (h : avtab) (nrules : Z) (m : kmem) : Z * avtab * kmem :=
  if nrules =? 0 then (0, mk_avtab (at_htable h) 0 0 0 (at_ids h), m)
  else
    let shift := avtab_shift 32 nrules 0 in
    let shift := if 2 <? shift then shift - 2 else shift in
    let nslot := u32 (1 .<< shift) in
    let nslot := if MAX_AVTAB_HASH_BUCKETS <? nslot then MAX_AVTAB_HASH_BUCKETS else nslot in
    let mask := u16 (nslot - 1) in
    let '(ok, m) := kalloc m in
    if negb ok then (- ENOMEM, mk_avtab None (at_nel h) (at_nslot h) (at_mask h) (at_ids h), m)
    else (0, mk_avtab (Some (replicate (Z.to_nat nslot) [])) 0 nslot mask (at_ids h), m).

(** The figures [avtab_hash_eval] prints: buckets used, longest chain, sum of
    the squares of the chain lengths. *)
Definition avtab_hash_eval (h : avtab) : option (Z * Z * Z) :=
  slots ← (match at_htable h with
           | Some ht => if Z.of_nat (length ht) <? at_nslot h then None else Some (take (Z.to_nat (at_nslot h)) ht)
           | None => if 0 <? at_nslot h then None else Some []
           end);
  Some (fold_left (fun (st : Z * Z * Z) (cur : list avtab_node) =>
    let '(slots_used, max_chain_len, chain2_len_sum) := st in
    match cur with
    | [] => st
    | _ :: _ =>
        let chain_len := Z.of_nat (length cur) in
        (slots_used + 1, if max_chain_len <? chain_len then chain_len else max_chain_len,
         u64 (chain2_len_sum + s32 (chain_len * chain_len)))
    end) slots (0, 0, 0)).

(** [p->key.specified = f (p->key.specified)] for the node with identity [id]. *)
Definition node_specify (id : nat) (f : Z -> Z) (n : avtab_node) : avtab_node :=
  if decide (an_id n = id)
  then mk_avtab_node id (set_ak_specified (an_key n) (u16 (f (ak_specified (an_key n))))) (an_datum n)
  else n.

Definition avtab_specify (h : avtab) (id : nat) (f : Z -> Z) : avtab :=
  mk_avtab (fmap (M := option) (fmap (M := list) (fmap (M := list) (node_specify id f))) (at_htable h))
           (at_nel h) (at_nslot h) (at_mask h) (at_ids h).

(** ** Invariant *)

Record key_ok (k : avtab_key) : Prop := {
  kok_source : in_u 16 (ak_source_type k);
  kok_target : in_u 16 (ak_target_type k);
  kok_class : in_u 16 (ak_target_class k);
  kok_spec : in_u 16 (ak_specified k)
}.

(** [a] may stand before [b] in a chain. *)
Definition key_le (a b : avtab_node) : Prop := avtab_past (an_key b) (an_key a) = false.

Definition same_triple (a b : avtab_key) : Prop :=
  ak_source_type a = ak_source_type b /\ ak_target_type a = ak_target_type b /\
  ak_target_class a = ak_target_class b.

Definition avtab_nodes (h : avtab) : list avtab_node :=
  match at_htable h with Some ht => concat ht | None => [] end.

Record avtab_wf (h : avtab) : Prop := {
  awf_slot : forall ht i c, at_htable h = Some ht -> ht !! i = Some c ->
    Forall (fun n => Z.to_nat (avtab_hash (an_key n) (at_mask h)) = i) c;
  awf_sorted : forall ht, at_htable h = Some ht -> Forall (StronglySorted key_le) ht;
  awf_len : forall ht, at_htable h = Some ht ->
    Z.of_nat (length ht) = at_nslot h /\ exists b, 0 <= b <= 11 /\ at_mask h = Z.ones b /\ at_nslot h = 2 ^ b;
  awf_keys : Forall (fun n => key_ok (an_key n)) (avtab_nodes h);
  awf_ids : NoDup (an_id <$> avtab_nodes h) /\ Forall (fun n => (an_id n < at_ids h)%nat) (avtab_nodes h)
}.

(** ** Lemmas *)

Lemma avtab_match_triple key sp cur : avtab_match key sp cur = true -> same_triple key cur.
Proof. unfold avtab_match, same_triple. rewrite !andb_true_iff, !Z.eqb_eq. intuition. Qed.

Lemma triple_match a b sp cur : same_triple a b -> avtab_match a sp cur = avtab_match b sp cur.
Proof. intros (H1 & H2 & H3). unfold avtab_match. by rewrite H1, H2, H3. Qed.

Lemma triple_past a b cur : same_triple a b -> avtab_past a cur = avtab_past b cur.
Proof. intros (H1 & H2 & H3). unfold avtab_past. by rewrite H1, H2, H3. Qed.

Lemma avtab_past_spec a b :
  avtab_past a b = true <->
  ak_source_type a < ak_source_type b \/
  (ak_source_type a = ak_source_type b /\
    (ak_target_type a < ak_target_type b \/
     ak_target_type a = ak_target_type b /\ ak_target_class a < ak_target_class b)).
Proof. unfold avtab_past. rewrite !orb_true_iff, !andb_true_iff, !Z.eqb_eq, !Z.ltb_lt. lia. Qed.

Lemma avtab_past_false a b :
  avtab_past a b = false <->
  ~ (ak_source_type a < ak_source_type b \/
     (ak_source_type a = ak_source_type b /\
      (ak_target_type a < ak_target_type b \/
       ak_target_type a = ak_target_type b /\ ak_target_class a < ak_target_class b))).
Proof. rewrite <- avtab_past_spec. destruct (avtab_past a b); split; congruence. Qed.

(** Past a larger key there is no match. *)
Lemma past_no_match key sp n l :
  avtab_past key (an_key n) = true -> Forall (key_le n) l ->
  filter (fun x => avtab_match key sp (an_key x) = true) l = [].
Proof.
  intros Hp Hl. induction Hl as [|x l Hx Hl IH]; [done|]. rewrite filter_cons.
  case_decide as Hm; [|done]. exfalso. apply avtab_match_triple in Hm as (H1 & H2 & H3).
  unfold key_le in Hx. apply avtab_past_spec in Hp. apply avtab_past_false in Hx. lia.
Qed.

Lemma chain_search_cases key sp c :
  StronglySorted key_le c ->
  (avtab_chain_search key sp c = [] /\ filter (fun x => avtab_match key sp (an_key x) = true) c = [])
  \/ exists n c', avtab_chain_search key sp c = n :: c' /\ avtab_match key sp (an_key n) = true /\
       StronglySorted key_le c' /\ (length (n :: c') <= length c)%nat /\
       filter (fun x => avtab_match key sp (an_key x) = true) c
         = n :: filter (fun x => avtab_match key sp (an_key x) = true) c'.
Proof.
  intros Hs. induction Hs as [|n c Hs IH Hlt]; [by left|]. cbn [avtab_chain_search].
  rewrite filter_cons. destruct (avtab_match key sp (an_key n)) eqn:Em.
  { right. exists n, c. rewrite decide_True by done. split_and!; done. }
  rewrite decide_False by congruence. destruct (avtab_past key (an_key n)) eqn:Ep.
  { left. split; [done|]. by eapply past_no_match. }
  destruct IH as [IH|(n1 & c1 & IH1 & IH2 & IH3 & IH4 & IH5)]; [by left|right].
  exists n1, c1. split_and!; try done. cbn in *. lia.
Qed.

(** The search loop visits exactly the matching nodes of the chain. *)
Lemma visit_filter fuel key spec c :
  StronglySorted key_le c -> in_u 16 spec ->
  (length (avtab_chain_search key (avtab_spec spec) c) <= fuel)%nat ->
  avtab_visit fuel spec (avtab_chain_search key (avtab_spec spec) c)
  = filter (fun x => avtab_match key (avtab_spec spec) (an_key x) = true) c.
Proof.
  intros Hs Hspec. revert key c Hs. induction fuel as [|fuel IH]; intros key c Hs Hlen;
    destruct (chain_search_cases key (avtab_spec spec) c Hs)
      as [[E ->]|(n & c' & E & Hm & Hs' & Hl & ->)]; rewrite E in *; cbn in Hlen; try lia; [done|done|].
  cbn [avtab_visit avtab_search_node_next]. f_equal.
  assert (spec .& not32 (AVTAB_ENABLED .| AVTAB_ENABLED_OLD) = avtab_spec spec) as Esp.
  { unfold avtab_spec. rewrite u16_small; [done|]. apply land_range; [lia|done]. }
  rewrite Esp. pose proof (avtab_match_triple _ _ _ Hm) as Ht.
  assert (forall x : avtab_node, avtab_match (an_key n) (avtab_spec spec) (an_key x)
            = avtab_match key (avtab_spec spec) (an_key x)) as Hx.
  { intros x. symmetry. by apply triple_match. }
  rewrite IH; [|done|].
  - apply list_filter_iff. intros x. by rewrite Hx.
  - destruct (chain_search_cases (an_key n) (avtab_spec spec) c' Hs')
      as [[-> _]|(n' & c'' & E' & _ & _ & Hl' & _)]; [cbn; lia|].
    rewrite E'. lia.
Qed.

Lemma ones_mod x b : 0 <= b -> x .& Z.ones b = x mod 2 ^ b.
Proof. intros. by rewrite Z.land_ones. Qed.

Lemma hash_in_range h ht key :
  avtab_wf h -> at_htable h = Some ht ->
  (Z.to_nat (avtab_hash key (at_mask h)) < length ht)%nat.
Proof.
  intros Hwf Hht. destruct (awf_len h Hwf ht Hht) as [Hlen (b & Hb & Hm & Hn)].
  unfold avtab_hash. rewrite Hm, ones_mod by lia.
  pose proof (Z.mod_pos_bound (ak_target_class key + (ak_target_type key .<< 2) + (ak_source_type key .<< 9)) (2 ^ b)).
  lia.
Qed.

Lemma triple_hash a b mask : same_triple a b -> avtab_hash a mask = avtab_hash b mask.
Proof. intros (H1 & H2 & H3). unfold avtab_hash. by rewrite H1, H2, H3. Qed.

(** All matches are in the slot of the key. *)
Lemma filter_concat_slot (P : avtab_node -> Prop) `{!forall x, Decision (P x)} ht i c :
  ht !! i = Some c -> (forall j c', ht !! j = Some c' -> j <> i -> Forall (fun x => ~ P x) c') ->
  filter P (concat ht) = filter P c.
Proof.
  assert (forall l, Forall (fun x => ~ P x) l -> filter P l = []) as Hnone.
  { induction 1 as [|x l Hx Hl IH]; [done|]. rewrite filter_cons, decide_False by done. done. }
  revert i. induction ht as [|c0 ht IH]; intros i Hi Hother; [done|]. cbn. rewrite filter_app.
  destruct i as [|i].
  - injection Hi as ->. rewrite (Hnone (concat ht)), app_nil_r; [done|].
    apply Forall_concat. apply Forall_lookup. intros j c' Hj. by apply (Hother (S j)).
  - rewrite (Hnone c0), app_nil_l by by apply (Hother 0%nat).
    apply (IH i); [done|]. intros j c' Hj Hne. apply (Hother (S j)); [done|lia].
Qed.

(** Search and iteration find all the nodes of the table that match. *)
Lemma avtab_for_each_spec h key :
  avtab_wf h -> key_ok key ->
  avtab_for_each h key =
    Some (filter (fun n => avtab_match key (avtab_spec (ak_specified key)) (an_key n) = true) (avtab_nodes h)).
Proof.
  intros Hwf Hk. unfold avtab_for_each, avtab_search_node, avtab_nodes.
  destruct (at_htable h) as [ht|] eqn:Eht; [|done].
  destruct (lookup_lt_is_Some_2 _ _ (hash_in_range h ht key Hwf Eht)) as [c Hc]. rewrite Hc. cbn.
  assert (StronglySorted key_le c) as Hsc.
  { eapply Forall_lookup_1; [by apply (awf_sorted h Hwf)|done]. }
  rewrite visit_filter; [|done|apply Hk|done]. f_equal. symmetry. eapply filter_concat_slot; [done|].
  intros j c' Hj Hne. eapply Forall_impl; [by apply (awf_slot h Hwf ht j)|]. cbn.
  intros n Hn Hm%avtab_match_triple. apply Hne. rewrite <- Hn. f_equal. symmetry. by apply triple_hash.
Qed.

Lemma avtab_search_spec h key :
  avtab_wf h -> key_ok key ->
  avtab_search h key =
    Some (an_datum <$> head (filter (fun n => avtab_match key (avtab_spec (ak_specified key)) (an_key n) = true)
                                    (avtab_nodes h))).
Proof.
  intros Hwf Hk. unfold avtab_search, avtab_nodes. destruct (at_htable h) as [ht|] eqn:Eht; [|done].
  destruct (lookup_lt_is_Some_2 _ _ (hash_in_range h ht key Hwf Eht)) as [c Hc]. rewrite Hc. cbn. f_equal.
  assert (StronglySorted key_le c) as Hsc.
  { eapply Forall_lookup_1; [by apply (awf_sorted h Hwf)|done]. }
  rewrite (filter_concat_slot _ ht _ c Hc).
  - destruct (chain_search_cases key (avtab_spec (ak_specified key)) c Hsc)
      as [[-> ->]|(n & c' & -> & _ & _ & _ & ->)]; done.
  - intros j c' Hj Hne. eapply Forall_impl; [by apply (awf_slot h Hwf ht j)|]. cbn.
    intros n Hn Hm%avtab_match_triple. apply Hne. rewrite <- Hn. f_equal. symmetry. by apply triple_hash.
Qed.

(** *** Insertion *)

(** The nodes of a table a key overlaps with. *)
Definition avtab_hits (h : avtab) (key : avtab_key) : list avtab_node :=
  filter (fun n => avtab_match key (avtab_spec (ak_specified key)) (an_key n) = true) (avtab_nodes h).

Lemma chain_avtab_insert_spec dup id key sp d c m :
  StronglySorted key_le c ->
  let '(rc, l, m') := avtab_chain_insert dup id key sp d c m in
  let hits := filter (fun x => avtab_match key sp (an_key x) = true) c in
  (rc = 0 /\ StronglySorted key_le l /\ l ≡ₚ mk_avtab_node id key d :: c /\ (dup = true -> hits = []))
  \/ (rc = - EEXIST /\ dup = true /\ hits <> [] /\ l = c)
  \/ (rc = - ENOMEM /\ l = c /\ (dup = true -> hits = [])).
Proof.
  intros Hs. revert m. induction Hs as [|n c Hs IH Hlt]; intros m; cbn [avtab_chain_insert].
  { unfold avtab_insert_node. destruct (kalloc m) as [[] m1]; cbn; [left|right; right]; split_and!; try done.
    by repeat constructor. }
  rewrite filter_cons.
  assert (Hlink : avtab_match key sp (an_key n) = true \/ avtab_past key (an_key n) = true ->
     StronglySorted key_le (mk_avtab_node id key d :: n :: c)).
  { intros Hor. constructor; [by constructor|].
    assert (avtab_past (an_key n) key = false) as Hle.
    { apply avtab_past_false. destruct Hor as [(?&?&?)%avtab_match_triple|Hp%avtab_past_spec]; lia. }
    constructor; [done|]. eapply Forall_impl; [exact Hlt|]. unfold key_le. cbn.
    rewrite avtab_past_false in Hle. intros x. rewrite !avtab_past_false. lia. }
  destruct (avtab_match key sp (an_key n)) eqn:Em.
  - rewrite decide_True by done. destruct dup; [right; left; split_and!; done|].
    unfold avtab_insert_node. destruct (kalloc m) as [[] m1]; cbn; [left|right; right]; split_and!; try done.
    apply Hlink. by left.
  - rewrite decide_False by congruence. destruct (avtab_past key (an_key n)) eqn:Ep.
    + pose proof (past_no_match key sp n c Ep Hlt) as ->.
      unfold avtab_insert_node. destruct (kalloc m) as [[] m1]; cbn; [left|right; right]; split_and!; try done.
      apply Hlink. by right.
    + specialize (IH m). destruct (avtab_chain_insert dup id key sp d c m) as [[rc l] m'].
      destruct IH as [(-> & Hsl & Hp & Hh)|[(-> & -> & Hh & ->)|(-> & -> & Hh)]];
        [left|right; left; done|right; right; done].
      split_and!; [done| |by rewrite Hp; constructor|done]. constructor; [done|].
      rewrite Hp. constructor; [|done]. unfold key_le. done.
Qed.

Lemma set_slot_wf h ht key d c l :
  avtab_wf h -> key_ok key -> at_htable h = Some ht ->
  ht !! Z.to_nat (avtab_hash key (at_mask h)) = Some c ->
  StronglySorted key_le l -> l ≡ₚ mk_avtab_node (at_ids h) key d :: c ->
  avtab_wf (avtab_set_slot h ht (avtab_hash key (at_mask h)) l) /\
  avtab_nodes (avtab_set_slot h ht (avtab_hash key (at_mask h)) l)
    ≡ₚ mk_avtab_node (at_ids h) key d :: avtab_nodes h.
Proof.
  intros Hwf Hk Hht Hc Hs Hp. pose proof Hwf as [Hslot Hsort Hlen Hkeys [Hnd Hids]].
  set (hv := avtab_hash key (at_mask h)) in *.
  assert (avtab_nodes (avtab_set_slot h ht hv l) ≡ₚ mk_avtab_node (at_ids h) key d :: avtab_nodes h) as Hn.
  { unfold avtab_nodes. cbn [avtab_set_slot at_htable]. rewrite Hht. by eapply concat_insert_perm. }
  split; [|done]. constructor.
  - cbn [avtab_set_slot at_htable at_mask]. intros ht' i c' [= <-] Hi.
    destruct (decide (Z.to_nat hv = i)) as [<-|Hne].
    + rewrite list_lookup_insert_eq in Hi by by eapply lookup_lt_Some. injection Hi as <-.
      rewrite Hp. constructor; [done|]. by eapply Hslot.
    + rewrite list_lookup_insert_ne in Hi by done. by eapply Hslot.
  - cbn [avtab_set_slot at_htable]. intros ht' [= <-]. apply Forall_insert; [by apply Hsort|done].
  - cbn [avtab_set_slot at_htable at_nslot at_mask]. intros ht' [= <-]. rewrite length_insert. by apply Hlen.
  - rewrite Hn. by constructor.
  - rewrite Hn. cbn [fmap list_fmap an_id avtab_set_slot at_ids]. split.
    + constructor; [|done]. rewrite list_elem_of_fmap. intros (x & E & Hx).
      rewrite Forall_forall in Hids. specialize (Hids x Hx). lia.
    + constructor; [cbn; lia|]. eapply Forall_impl; [exact Hids|]. cbn. lia.
Qed.

Lemma slot_hits h ht key c :
  avtab_wf h -> at_htable h = Some ht -> ht !! Z.to_nat (avtab_hash key (at_mask h)) = Some c ->
  avtab_hits h key = filter (fun n => avtab_match key (avtab_spec (ak_specified key)) (an_key n) = true) c.
Proof.
  intros Hwf Hht Hc. unfold avtab_hits, avtab_nodes. rewrite Hht. eapply filter_concat_slot; [done|].
  intros j c' Hj Hne. eapply Forall_impl; [by apply (awf_slot h Hwf ht j)|]. cbn.
  intros n Hn Hm%avtab_match_triple. apply Hne. rewrite <- Hn. f_equal. symmetry. by apply triple_hash.
Qed.

(** [avtab_insert] on every branch. *)
Lemma avtab_insert_spec h key d m :
  avtab_wf h -> key_ok key ->
  exists rc h' m', avtab_insert h key d m = Some (rc, h', m') /\
    ((rc = - EINVAL /\ at_htable h = None /\ h' = h) \/
     (rc = - EEXIST /\ avtab_hits h key <> [] /\ h' = h) \/
     (rc = - ENOMEM /\ avtab_hits h key = [] /\ h' = h) \/
     (rc = 0 /\ avtab_hits h key = [] /\ avtab_wf h' /\
      avtab_nodes h' ≡ₚ mk_avtab_node (at_ids h) key d :: avtab_nodes h /\
      at_nel h' = u32 (at_nel h + 1) /\ at_ids h' = S (at_ids h))).
Proof.
  intros Hwf Hk. unfold avtab_insert. destruct (at_htable h) as [ht|] eqn:Hht.
  2: { eexists _, _, _. split; [done|]. by left. }
  destruct (lookup_lt_is_Some_2 _ _ (hash_in_range h ht key Hwf Hht)) as [c Hc]. rewrite Hc.
  cbn [mbind option_bind].
  assert (StronglySorted key_le c) as Hsc by (eapply Forall_lookup_1; [by apply (awf_sorted h Hwf)|done]).
  rewrite (slot_hits h ht key c) by done.
  pose proof (chain_avtab_insert_spec true (at_ids h) key (avtab_spec (ak_specified key)) d c m Hsc) as H.
  destruct (avtab_chain_insert _ _ _ _ _ _ _) as [[rc l] m1]. cbv zeta in H.
  destruct H as [(-> & Hsl & Hp & Hh)|[(-> & _ & Hh & ->)|(-> & -> & Hh)]]; cbn [nz].
  - eexists _, _, _. split; [done|]. do 3 right.
    destruct (set_slot_wf h ht key d c l) as [Hw Hn]; try done.
    split_and!; [done|by apply Hh|done|done|done|done].
  - eexists _, _, _. split; [done|]. right. by left.
  - eexists _, _, _. split; [done|]. do 2 right. left. split_and!; [done|by apply Hh|done].
Qed.

Lemma avtab_insert_nonunique_spec h key d m :
  avtab_wf h -> key_ok key ->
  exists r h' m', avtab_insert_nonunique h key d m = Some (r, h', m') /\
    ((r = None /\ h' = h) \/
     (r = Some (at_ids h) /\ at_htable h <> None /\ avtab_wf h' /\
      avtab_nodes h' ≡ₚ mk_avtab_node (at_ids h) key d :: avtab_nodes h /\
      at_nel h' = u32 (at_nel h + 1) /\ at_ids h' = S (at_ids h))).
Proof.
  intros Hwf Hk. unfold avtab_insert_nonunique. destruct (at_htable h) as [ht|] eqn:Hht.
  2: { eexists _, _, _. split; [done|]. by left. }
  destruct (lookup_lt_is_Some_2 _ _ (hash_in_range h ht key Hwf Hht)) as [c Hc]. rewrite Hc.
  cbn [mbind option_bind].
  assert (StronglySorted key_le c) as Hsc by (eapply Forall_lookup_1; [by apply (awf_sorted h Hwf)|done]).
  pose proof (chain_avtab_insert_spec false (at_ids h) key (avtab_spec (ak_specified key)) d c m Hsc) as H.
  destruct (avtab_chain_insert _ _ _ _ _ _ _) as [[rc l] m1]. cbv zeta in H.
  destruct H as [(-> & Hsl & Hp & Hh)|[(-> & [=] & Hh & ->)|(-> & -> & Hh)]]; cbn [nz].
  - eexists _, _, _. split; [done|]. right.
    destruct (set_slot_wf h ht key d c l) as [Hw Hn]; try done.
  - eexists _, _, _. split; [done|]. by left.
Qed.

(** Insertion, then lookup. *)
Lemma avtab_insert_search h key d m h' m' :
  avtab_wf h -> key_ok key -> nz (avtab_spec (ak_specified key) .& ak_specified key) = true ->
  avtab_insert h key d m = Some (0, h', m') -> avtab_search h' key = Some (Some d).
Proof.
  intros Hwf Hk Hsp E. destruct (avtab_insert_spec h key d m Hwf Hk) as (rc & h1 & m1 & E1 & H).
  rewrite E in E1. injection E1 as <- <- <-.
  destruct H as [[[=] _]|[[[=] _]|[[[=] _]|(_ & Hno & Hw & Hp & _)]]].
  rewrite avtab_search_spec by done.
  assert (filter (fun n => avtab_match key (avtab_spec (ak_specified key)) (an_key n) = true) (avtab_nodes h')
          = [mk_avtab_node (at_ids h) key d]) as ->; [|done].
  apply Permutation_singleton_r. rewrite Hp, filter_cons, decide_True.
  - unfold avtab_hits in Hno. by rewrite Hno.
  - unfold avtab_match. cbn. rewrite !Z.eqb_refl. done.
Qed.

(** *** Allocation *)

Lemma avtab_shift_range fuel work shift :
  0 <= shift -> shift + Z.of_nat fuel < 2 ^ 32 ->
  shift <= avtab_shift fuel work shift <= shift + Z.of_nat fuel.
Proof.
  revert work shift. induction fuel as [|fuel IH]; intros work shift H0 H1; cbn [avtab_shift]; [lia|].
  destruct (nz work); [|lia]. rewrite u32_small by lia.
  specialize (IH (work .>> 1) (shift + 1)). lia.
Qed.

Lemma empty_avtab_wf n b nel ids :
  0 <= b <= 11 -> Z.of_nat n = 2 ^ b ->
  let h := mk_avtab (Some (replicate n [])) nel (2 ^ b) (Z.ones b) ids in avtab_wf h /\ avtab_nodes h = [].
Proof.
  intros Hb Hn h. assert (avtab_nodes h = []) as Hnodes.
  { unfold h, avtab_nodes. cbn [at_htable]. clear. by induction n. }
  split; [|done]. constructor; rewrite ?Hnodes; cbn [h at_htable at_nslot at_mask].
  - intros ht i c [= <-] [-> _]%lookup_replicate. constructor.
  - intros ht [= <-]. apply Forall_replicate. constructor.
  - intros ht [= <-]. rewrite length_replicate. split; [done|]. by exists b.
  - constructor.
  - split; constructor.
Qed.

(** [avtab_alloc]: an empty table whose slots the hash cannot miss, no table
    at all for 0 rules, or [-ENOMEM]. *)
Lemma avtab_alloc_spec h nrules m :
  0 <= nrules < 2 ^ 32 ->
  let '(rc, h', m') := avtab_alloc h nrules m in
  at_ids h' = at_ids h /\
  ((rc = 0 /\ nrules = 0 /\ at_htable h' = at_htable h /\ at_nslot h' = 0 /\ at_nel h' = 0) \/
   (rc = 0 /\ nrules <> 0 /\ at_htable h' <> None /\ avtab_wf h' /\ avtab_nodes h' = [] /\ at_nel h' = 0) \/
   (rc = - ENOMEM /\ nrules <> 0 /\ at_htable h' = None)).
Proof.
  intros Hn. unfold avtab_alloc. destruct (nrules =? 0) eqn:E0.
  { split; [done|]. left. split_and!; try done. lia. }
  pose proof (avtab_shift_range 32 nrules 0 ltac:(lia) ltac:(lia)) as Hsh.
  set (sh := avtab_shift 32 nrules 0) in *. clearbody sh.
  set (sh' := if 2 <? sh then sh - 2 else sh).
  assert (0 <= sh' <= 30) as Hsh' by (subst sh'; destruct (2 <? sh) eqn:E; lia).
  clearbody sh'.
  assert (u32 (1 .<< sh') = 2 ^ sh') as Es.
  { rewrite Z.shiftl_1_l, u32_small; [done|]. split; [lia|]. by apply Z.pow_lt_mono_r; lia. }
  rewrite Es.
  assert (exists b, 0 <= b <= 11 /\
    (if MAX_AVTAB_HASH_BUCKETS <? 2 ^ sh' then MAX_AVTAB_HASH_BUCKETS else 2 ^ sh') = 2 ^ b) as (b & Hb & Eb).
  { change MAX_AVTAB_HASH_BUCKETS with (2 ^ 11). destruct (2 ^ 11 <? 2 ^ sh') eqn:E; [by exists 11|].
    exists sh'. split; [|done]. apply Z.ltb_ge in E. apply Z.pow_le_mono_r_iff in E; lia. }
  rewrite Eb. destruct (kalloc m) as [[] m1]; cbn [negb].
  - split; [done|]. right. left.
    assert (2 ^ b <= 2 ^ 11) by (apply Z.pow_le_mono_r; lia).
    assert (0 < 2 ^ b) by lia.
    replace (u16 (2 ^ b - 1)) with (Z.ones b) by (rewrite Z.ones_equiv, u16_small; lia).
    destruct (empty_avtab_wf (Z.to_nat (2 ^ b)) b 0 (at_ids h) Hb) as [Hw Hnd]; [lia|].
    split_and!; [done|lia|done|done|done|done].
  - split; [done|]. do 2 right. split_and!; [done|lia|done].
Qed.

(** *** Changing [specified] through a pointer *)

Lemma node_specify_triple id f n : same_triple (an_key (node_specify id f n)) (an_key n).
Proof. unfold node_specify. case_decide; done. Qed.

Lemma node_specify_id id f n : an_id (node_specify id f n) = an_id n.
Proof. unfold node_specify. by case_decide. Qed.

Lemma same_triple_sym a b : same_triple a b -> same_triple b a.
Proof. intros (?&?&?). done. Qed.

Lemma specify_nodes h id f : avtab_nodes (avtab_specify h id f) = node_specify id f <$> avtab_nodes h.
Proof.
  unfold avtab_nodes, avtab_specify. cbn. destruct (at_htable h) as [ht|]; [|done]. cbn.
  symmetry. apply concat_map.
Qed.

Lemma specify_sorted id f c : StronglySorted key_le c -> StronglySorted key_le (node_specify id f <$> c).
Proof.
  induction 1 as [|n c Hs IH Hlt]; cbn; constructor; [done|]. apply Forall_fmap.
  eapply Forall_impl; [exact Hlt|]. unfold key_le. cbn. intros x Hx. apply avtab_past_false.
  apply avtab_past_false in Hx.
  destruct (node_specify_triple id f n) as (-> & -> & ->), (node_specify_triple id f x) as (-> & -> & ->).
  done.
Qed.

Lemma specify_wf h id f : avtab_wf h -> avtab_wf (avtab_specify h id f).
Proof.
  intros [Hslot Hsort Hlen Hkeys [Hnd Hids]].
  constructor; rewrite ?specify_nodes; cbn [avtab_specify at_htable at_mask at_nslot at_ids].
  - intros ht i c. destruct (at_htable h) as [ht0|] eqn:E; [|done]. cbn. intros [= <-].
    rewrite list_lookup_fmap. destruct (ht0 !! i) as [c0|] eqn:Ei; [|done]. intros [= <-].
    apply Forall_fmap. eapply Forall_impl; [by eapply Hslot|]. cbn. intros x <-. f_equal.
    apply triple_hash, node_specify_triple.
  - intros ht. destruct (at_htable h) as [ht0|] eqn:E; [|done]. cbn. intros [= <-].
    apply Forall_fmap. eapply Forall_impl; [by apply Hsort|]. intros c. apply specify_sorted.
  - intros ht. destruct (at_htable h) as [ht0|] eqn:E; [|done]. cbn. intros [= <-].
    rewrite length_fmap. by apply Hlen.
  - apply Forall_fmap. eapply Forall_impl; [exact Hkeys|]. cbn. intros n [H1 H2 H3 H4].
    unfold node_specify. case_decide; [|done]. constructor; cbn; try done. apply u16_range.
  - rewrite <- list_fmap_compose. split.
    + erewrite list_fmap_ext; [exact Hnd|]. intros i x _. apply node_specify_id.
    + apply Forall_fmap. eapply Forall_impl; [exact Hids|]. cbn. intros x. by rewrite node_specify_id.
Qed.

(** ** Properties *)

(** The walk [avtab_search_node] .. [avtab_search_node_next] visits exactly
    the rules of the table that are for the key's two types and class and for
    one of its kinds, whatever the hash chains look like, and [avtab_search]
    returns the datum of the first of them. *)
Theorem avtab_lookup_complete h key :
  avtab_wf h -> key_ok key ->
  avtab_for_each h key = Some (avtab_hits h key) /\
  avtab_search h key = Some (an_datum <$> head (avtab_hits h key)) /\
  forall n, n ∈ avtab_hits h key <->
    n ∈ avtab_nodes h /\ same_triple key (an_key n) /\ nz (avtab_spec (ak_specified key) .& ak_specified (an_key n)) = true.
Proof.
  intros Hwf Hk. split; [by apply avtab_for_each_spec|]. split; [by apply avtab_search_spec|]. intros n.
  unfold avtab_hits. rewrite list_elem_of_filter. unfold avtab_match, same_triple. rewrite !andb_true_iff, !Z.eqb_eq. tauto.
Qed.

(** [avtab_insert] refuses a rule for a key the table already has, reports a
    missing table or memory, and otherwise adds exactly the new rule, which
    [avtab_search] then finds; on every failure the table is unchanged. *)
Theorem avtab_insert_outcome h key d m :
  avtab_wf h -> key_ok key -> nz (avtab_spec (ak_specified key) .& ak_specified key) = true ->
  exists rc h' m', avtab_insert h key d m = Some (rc, h', m') /\
    ((rc = - EINVAL /\ at_htable h = None /\ h' = h) \/
     (rc = - EEXIST /\ avtab_search h key <> Some None /\ h' = h) \/
     (rc = - ENOMEM /\ avtab_search h key = Some None /\ h' = h) \/
     (rc = 0 /\ avtab_search h key = Some None /\ avtab_search h' key = Some (Some d) /\ avtab_wf h' /\
      avtab_nodes h' ≡ₚ mk_avtab_node (at_ids h) key d :: avtab_nodes h)).
Proof.
  intros Hwf Hk Hsp. destruct (avtab_insert_spec h key d m Hwf Hk) as (rc & h' & m' & E & Hr). exists rc, h', m'. split; [done|].
  pose proof (avtab_search_spec h key Hwf Hk) as Hs. fold (avtab_hits h key) in Hs. rewrite Hs.
  destruct Hr as [Hr|[(-> & Hh & ->)|[(-> & Hh & ->)|(-> & Hh & Hw & Hp & _)]]].
  - by left.
  - right. left. split; [done|]. split; [|done]. by destruct (avtab_hits h key).
  - right. right. left. by rewrite Hh.
  - right. right. right. rewrite Hh. split; [done|]. split; [done|]. split; [|done]. by apply (avtab_insert_search h key d m h' m').
Qed.

(** An empty table for eight rules, and a table with one rule. *)
Definition empty_rules : avtab := (avtab_alloc (mk_avtab None 0 0 0 0) 8 []).1.2.

Lemma empty_rules_wf : avtab_wf empty_rules.
Proof.
  pose proof (avtab_alloc_spec (mk_avtab None 0 0 0 0) 8 [] ltac:(lia)) as Ha. unfold empty_rules.
  destruct (avtab_alloc _ 8 []) as [[rc h] m] eqn:E.
  destruct Ha as (_ & [(_ & [=] & _)|[(_ & _ & _ & Hw & _)|(Hrc & _)]]); [done|]. vm_compute in E. injection E as <- _ _. done.
Qed.

Definition etc_key : avtab_key := mk_avtab_key 1 3 2 AVTAB_ALLOWED.

Lemma etc_key_ok : key_ok etc_key.
Proof. split; vm_compute; split; congruence. Qed.

Lemma avtab_insert_outcome_witness :
  exists h' m', avtab_insert empty_rules etc_key 3 [] = Some (0, h', m') /\ avtab_search h' etc_key = Some (Some 3).
Proof.
  destruct (avtab_insert_outcome empty_rules etc_key 3 [] empty_rules_wf etc_key_ok) as (rc & h' & m' & H & Hr); [reflexivity|].
  exists h', m'. vm_compute in H. injection H as <- <- <-. split; [vm_compute; reflexivity|vm_compute; reflexivity].
Defined.

Definition one_rule : avtab := match avtab_insert empty_rules etc_key 3 [] with Some (_, h, _) => h | None => empty_rules end.

Lemma one_rule_wf : avtab_wf one_rule.
Proof.
  unfold one_rule. destruct (avtab_insert_spec empty_rules etc_key 3 [] empty_rules_wf etc_key_ok) as (rc & h' & m' & -> & Hr).
  destruct Hr as [(_ & _ & ->)|[(_ & _ & ->)|[(_ & _ & ->)|(_ & _ & Hw & _)]]]; done || exact empty_rules_wf.
Qed.

Lemma avtab_lookup_complete_witness :
  avtab_for_each one_rule (mk_avtab_key 1 3 2 AVTAB_AV) = Some (avtab_hits one_rule (mk_avtab_key 1 3 2 AVTAB_AV)) /\
  an_datum <$> avtab_hits one_rule (mk_avtab_key 1 3 2 AVTAB_AV) = [3].
Proof.
  split; [|vm_compute; reflexivity]. apply (avtab_lookup_complete one_rule (mk_avtab_key 1 3 2 AVTAB_AV) one_rule_wf).
  split; vm_compute; split; congruence.
Defined.
