(* ===== verification/Policydb.v ===== *)
(** * The policy database (security/selinux/ss/policydb.h, policydb.c, constraint.h)

    The data of a loaded policy and the functions of policydb.c that work on
    it: the construction of the index arrays, the checks for validity and for
    the hierarchy of bounds, the loading of the initial SIDs and the lookup of
    classes and permissions by name.  Linked lists are lists.

    Symbol data are never changed once a policy is loaded, so a pointer to one
    stands for the datum, with one exception: the state of a boolean, which is
    written through [bool_val_to_struct] and read through [p_bools] and the
    other way round.  Booleans live in [bool_store], and both the symbol table
    and the index array hold positions in it.

    An array made by [kmalloc] starts with unspecified contents, one made by
    [flex_array_alloc] with null pointers; [ptr] has both.  A result [None] is
    the use of such a pointer, an access outside an array, or [BUG()]. *)

From Stdlib Require Import Ascii String.
From S2P Require Import Prelude Ebitmap Hashtab Context Sidtab Avtab.

(** ** Pointers *)

Inductive ptr (A : Type) : Type :=
| Null
| Wild
| Ptr (a : A).
Arguments Null {A}.
Arguments Wild {A}.
Arguments Ptr {A} a.

Definition deref {A} (x : ptr A) : option A := match x with Ptr a => Some a | _ => None end.

(** [!x]; looking at unspecified contents is an error of its own. *)
Definition is_null {A} (x : ptr A) : option bool :=
  match x with Null => Some true | Wild => None | Ptr _ => Some false end.

(** [a[i]] on an array of pointers, then [->]. *)
Definition index {A} (a : list (ptr A)) (i : Z) : option (ptr A) :=
  if i <? 0 then None else a !! Z.to_nat i.

Definition index_deref {A} (a : list (ptr A)) (i : Z) : option A :=
  x ← index a i; deref x.

(** [flex_array_get_ptr]: [NULL] outside the array; the index is an unsigned int. *)
Definition flex_array_get_ptr {A} (fa : list (ptr A)) (i : Z) : ptr A :=
  if Z.of_nat (length fa) <=? u32 i then Null
  else match fa !! Z.to_nat (u32 i) with Some x => x | None => Null end.

Lemma flex_array_get_spec {A} (fa : list (ptr A)) i :
  flex_array_get_ptr fa i = match fa !! Z.to_nat (u32 i) with Some x => x | None => Null end.
Proof.
  unfold flex_array_get_ptr. destruct (Z.leb_spec (Z.of_nat (length fa)) (u32 i)) as [H|H]; [|done].
  by rewrite lookup_ge_None_2 by lia.
Qed.

(** ** Data *)

Definition POLICYDB_VERSION_BASE : Z := 15.
Definition POLICYDB_VERSION_BOOL : Z := 16.
Definition POLICYDB_VERSION_IPV6 : Z := 17.
Definition POLICYDB_VERSION_NLCLASS : Z := 18.
Definition POLICYDB_VERSION_VALIDATETRANS : Z := 19.
Definition POLICYDB_VERSION_MLS : Z := 19.
Definition POLICYDB_VERSION_AVTAB : Z := 20.
Definition POLICYDB_VERSION_RANGETRANS : Z := 21.
Definition POLICYDB_VERSION_POLCAP : Z := 22.
Definition POLICYDB_VERSION_PERMISSIVE : Z := 23.
Definition POLICYDB_VERSION_BOUNDARY : Z := 24.
Definition POLICYDB_VERSION_FILENAME_TRANS : Z := 25.
Definition POLICYDB_VERSION_MIN : Z := POLICYDB_VERSION_BASE.
Definition POLICYDB_VERSION_MAX : Z := POLICYDB_VERSION_FILENAME_TRANS.
Definition POLICYDB_BOUNDS_MAXDEPTH : Z := 4.

Definition CEXPR_MAXDEPTH : Z := 5.
Definition CEXPR_NOT : Z := 1.
Definition CEXPR_AND : Z := 2.
Definition CEXPR_OR : Z := 3.
Definition CEXPR_ATTR : Z := 4.
Definition CEXPR_NAMES : Z := 5.
Definition CEXPR_USER : Z := 1.
Definition CEXPR_ROLE : Z := 2.
Definition CEXPR_TYPE : Z := 4.
Definition CEXPR_TARGET : Z := 8.
Definition CEXPR_XTARGET : Z := 16.
Definition CEXPR_L1L2 : Z := 32.
Definition CEXPR_L1H2 : Z := 64.
Definition CEXPR_H1L2 : Z := 128.
Definition CEXPR_H1H2 : Z := 256.
Definition CEXPR_L1H1 : Z := 512.
Definition CEXPR_L2H2 : Z := 1024.
Definition CEXPR_EQ : Z := 1.
Definition CEXPR_NEQ : Z := 2.
Definition CEXPR_DOM : Z := 3.
Definition CEXPR_DOMBY : Z := 4.
Definition CEXPR_INCOMP : Z := 5.

Record constraint_expr := mk_constraint_expr {
  ce_expr_type : Z;
  ce_attr : Z;
  ce_op : Z;
  ce_names : ebitmap
}.

Record constraint_node := mk_constraint_node {
  cn_permissions : Z;
  cn_expr : list constraint_expr
}.

Record perm_datum := mk_perm_datum { pm_value : Z }.

Record common_datum := mk_common_datum {
  cm_value : Z;
  cm_permissions : symtab perm_datum
}.

Record class_datum := mk_class_datum {
  cl_value : Z;
  cl_comkey : option string;
  cl_comdatum : option common_datum;
  cl_permissions : symtab perm_datum;
  cl_constraints : list constraint_node;
  cl_validatetrans : list constraint_node
}.

Record role_datum := mk_role_datum {
  r_value : Z;
  r_bounds : Z;
  r_dominates : ebitmap;
  r_types : ebitmap
}.

Record role_trans := mk_role_trans {
  rt_role : Z;
  rt_type : Z;
  rt_new_role : Z
}.

Record filename_trans := mk_filename_trans {
  ft_stype : Z;
  ft_ttype : Z;
  ft_tclass : Z;
  ft_name : string;
  ft_otype : Z
}.

Record role_allow := mk_role_allow {
  ra_role : Z;
  ra_new_role : Z
}.

Record type_datum := mk_type_datum {
  t_value : Z;
  t_bounds : Z;
  t_primary : Z;
  t_attribute : Z
}.

Record user_datum := mk_user_datum {
  u_value : Z;
  u_bounds : Z;
  u_roles : ebitmap;
  u_range : mls_range;
  u_dfltlevel : mls_level
}.

Record level_datum := mk_level_datum {
  l_level : mls_level;
  l_isalias : Z
}.

Record cat_datum := mk_cat_datum {
  cat_value : Z;
  cat_isalias : Z
}.

Record range_trans := mk_range_trans {
  rg_source_type : Z;
  rg_target_type : Z;
  rg_target_class : Z
}.

Record cond_bool_datum := mk_cond_bool_datum {
  cb_value : Z;
  cb_state : Z
}.

(** conditional.h *)
Record cond_expr := mk_cond_expr {
  cx_expr_type : Z;
  cx_bool : Z
}.

(** [true_list] and [false_list]: the identities of nodes of [te_cond_avtab]. *)
Record cond_node := mk_cond_node {
  cd_cur_state : Z;
  cd_expr : list cond_expr;
  cd_true_list : list nat;
  cd_false_list : list nat
}.

(** The union [u] of [struct ocontext]. *)
Inductive ocon_key :=
| OName (name : string)
| OPort (protocol low_port high_port : Z)
| ONode (addr mask : Z)
| ONode6 (addr mask : list Z)
| ONone.

(** [oc_v]: [v.sclass] or [v.behavior]. *)
Record ocontext := mk_ocontext {
  oc_u : ocon_key;
  oc_v : Z;
  oc_context0 : context;
  oc_context1 : context;
  oc_sid0 : Z;
  oc_sid1 : Z
}.

Record genfs := mk_genfs {
  g_fstype : string;
  g_head : list ocontext
}.

Definition SYM_COMMONS : nat := 0.
Definition SYM_CLASSES : nat := 1.
Definition SYM_ROLES : nat := 2.
Definition SYM_TYPES : nat := 3.
Definition SYM_USERS : nat := 4.
Definition SYM_BOOLS : nat := 5.
Definition SYM_LEVELS : nat := 6.
Definition SYM_CATS : nat := 7.
Definition SYM_NUM : nat := 8.

Definition OCON_ISID : nat := 0.
Definition OCON_FS : nat := 1.
Definition OCON_PORT : nat := 2.
Definition OCON_NETIF : nat := 3.
Definition OCON_NODE : nat := 4.
Definition OCON_FSUSE : nat := 5.
Definition OCON_NODE6 : nat := 6.
Definition OCON_NUM : nat := 7.

Definition OBJECT_R : string := "object_r".
Definition OBJECT_R_VAL : Z := 1.
Definition PERM_SYMTAB_SIZE : Z := 32.

(** security.h *)
Definition SECURITY_FS_USE_GENFS : Z := 4.
Definition SECURITY_FS_USE_NONE : Z := 5.

#[export] Instance range_trans_eq_dec : EqDecision range_trans.
Proof. solve_decision. Defined.
#[export] Instance range_trans_countable : Countable range_trans.
Proof.
  apply (inj_countable' (fun k => (rg_source_type k, rg_target_type k, rg_target_class k))
                        (fun '(a, b, c) => mk_range_trans a b c)).
  by intros [].
Defined.

Record policydb := mk_policydb {
  mls_enabled : bool;
  p_commons : symtab common_datum;
  p_classes : symtab class_datum;
  p_roles : symtab role_datum;
  p_types : symtab type_datum;
  p_users : symtab user_datum;
  p_bools : symtab nat;
  p_levels : symtab level_datum;
  p_cats : symtab cat_datum;
  sym_val_to_name : list (option (list (ptr string)));
  class_val_to_struct : list (ptr class_datum);
  role_val_to_struct : list (ptr role_datum);
  user_val_to_struct : list (ptr user_datum);
  type_val_to_struct_array : list (ptr type_datum);
  te_avtab : avtab;
  role_tr : list role_trans;
  filename_trans_list : list filename_trans;
  bool_store : list cond_bool_datum;
  bool_val_to_struct : list (ptr nat);
  te_cond_avtab : avtab;
  cond_list : list cond_node;
  role_allow_list : list role_allow;
  ocontexts : list (list ocontext);
  genfs_list : list genfs;
  range_tr : option (hashtab range_trans mls_range);
  type_attr_map_array : list ebitmap;
  policycaps : ebitmap;
  permissive_map : ebitmap;
  pd_len : Z;
  policyvers : Z;
  reject_unknown : bool;
  allow_unknown : bool;
  process_class : Z;
  process_trans_perms : Z
}.

(** Assignment to one field. *)
Definition set_mls_enabled (p : policydb) (v : bool) : policydb :=
  mk_policydb v (p_commons p) (p_classes p) (p_roles p) (p_types p) (p_users p) (p_bools p) (p_levels p)
    (p_cats p) (sym_val_to_name p) (class_val_to_struct p) (role_val_to_struct p) (user_val_to_struct p)
    (type_val_to_struct_array p) (te_avtab p) (role_tr p) (filename_trans_list p) (bool_store p)
    (bool_val_to_struct p) (te_cond_avtab p) (cond_list p) (role_allow_list p) (ocontexts p) (genfs_list p)
    (range_tr p) (type_attr_map_array p) (policycaps p) (permissive_map p) (pd_len p) (policyvers p)
    (reject_unknown p) (allow_unknown p) (process_class p) (process_trans_perms p).
Definition set_p_commons (p : policydb) (v : symtab common_datum) : policydb :=
  mk_policydb (mls_enabled p) v (p_classes p) (p_roles p) (p_types p) (p_users p) (p_bools p) (p_levels p)
    (p_cats p) (sym_val_to_name p) (class_val_to_struct p) (role_val_to_struct p) (user_val_to_struct p)
    (type_val_to_struct_array p) (te_avtab p) (role_tr p) (filename_trans_list p) (bool_store p)
    (bool_val_to_struct p) (te_cond_avtab p) (cond_list p) (role_allow_list p) (ocontexts p) (genfs_list p)
    (range_tr p) (type_attr_map_array p) (policycaps p) (permissive_map p) (pd_len p) (policyvers p)
    (reject_unknown p) (allow_unknown p) (process_class p) (process_trans_perms p).
Definition set_p_classes (p : policydb) (v : symtab class_datum) : policydb :=
  mk_policydb (mls_enabled p) (p_commons p) v (p_roles p) (p_types p) (p_users p) (p_bools p) (p_levels p)
    (p_cats p) (sym_val_to_name p) (class_val_to_struct p) (role_val_to_struct p) (user_val_to_struct p)
    (type_val_to_struct_array p) (te_avtab p) (role_tr p) (filename_trans_list p) (bool_store p)
    (bool_val_to_struct p) (te_cond_avtab p) (cond_list p) (role_allow_list p) (ocontexts p) (genfs_list p)
    (range_tr p) (type_attr_map_array p) (policycaps p) (permissive_map p) (pd_len p) (policyvers p)
    (reject_unknown p) (allow_unknown p) (process_class p) (process_trans_perms p).
Definition set_p_roles (p : policydb) (v : symtab role_datum) : policydb :=
  mk_policydb (mls_enabled p) (p_commons p) (p_classes p) v (p_types p) (p_users p) (p_bools p) (p_levels p)
    (p_cats p) (sym_val_to_name p) (class_val_to_struct p) (role_val_to_struct p) (user_val_to_struct p)
    (type_val_to_struct_array p) (te_avtab p) (role_tr p) (filename_trans_list p) (bool_store p)
    (bool_val_to_struct p) (te_cond_avtab p) (cond_list p) (role_allow_list p) (ocontexts p) (genfs_list p)
    (range_tr p) (type_attr_map_array p) (policycaps p) (permissive_map p) (pd_len p) (policyvers p)
    (reject_unknown p) (allow_unknown p) (process_class p) (process_trans_perms p).
Definition set_p_types (p : policydb) (v : symtab type_datum) : policydb :=
  mk_policydb (mls_enabled p) (p_commons p) (p_classes p) (p_roles p) v (p_users p) (p_bools p) (p_levels p)
    (p_cats p) (sym_val_to_name p) (class_val_to_struct p) (role_val_to_struct p) (user_val_to_struct p)
    (type_val_to_struct_array p) (te_avtab p) (role_tr p) (filename_trans_list p) (bool_store p)
    (bool_val_to_struct p) (te_cond_avtab p) (cond_list p) (role_allow_list p) (ocontexts p) (genfs_list p)
    (range_tr p) (type_attr_map_array p) (policycaps p) (permissive_map p) (pd_len p) (policyvers p)
    (reject_unknown p) (allow_unknown p) (process_class p) (process_trans_perms p).
Definition set_p_users (p : policydb) (v : symtab user_datum) : policydb :=
  mk_policydb (mls_enabled p) (p_commons p) (p_classes p) (p_roles p) (p_types p) v (p_bools p) (p_levels p)
    (p_cats p) (sym_val_to_name p) (class_val_to_struct p) (role_val_to_struct p) (user_val_to_struct p)
    (type_val_to_struct_array p) (te_avtab p) (role_tr p) (filename_trans_list p) (bool_store p)
    (bool_val_to_struct p) (te_cond_avtab p) (cond_list p) (role_allow_list p) (ocontexts p) (genfs_list p)
    (range_tr p) (type_attr_map_array p) (policycaps p) (permissive_map p) (pd_len p) (policyvers p)
    (reject_unknown p) (allow_unknown p) (process_class p) (process_trans_perms p).
Definition set_p_bools (p : policydb) (v : symtab nat) : policydb :=
  mk_policydb (mls_enabled p) (p_commons p) (p_classes p) (p_roles p) (p_types p) (p_users p) v (p_levels p)
    (p_cats p) (sym_val_to_name p) (class_val_to_struct p) (role_val_to_struct p) (user_val_to_struct p)
    (type_val_to_struct_array p) (te_avtab p) (role_tr p) (filename_trans_list p) (bool_store p)
    (bool_val_to_struct p) (te_cond_avtab p) (cond_list p) (role_allow_list p) (ocontexts p) (genfs_list p)
    (range_tr p) (type_attr_map_array p) (policycaps p) (permissive_map p) (pd_len p) (policyvers p)
    (reject_unknown p) (allow_unknown p) (process_class p) (process_trans_perms p).
Definition set_p_levels (p : policydb) (v : symtab level_datum) : policydb :=
  mk_policydb (mls_enabled p) (p_commons p) (p_classes p) (p_roles p) (p_types p) (p_users p) (p_bools p) v
    (p_cats p) (sym_val_to_name p) (class_val_to_struct p) (role_val_to_struct p) (user_val_to_struct p)
    (type_val_to_struct_array p) (te_avtab p) (role_tr p) (filename_trans_list p) (bool_store p)
    (bool_val_to_struct p) (te_cond_avtab p) (cond_list p) (role_allow_list p) (ocontexts p) (genfs_list p)
    (range_tr p) (type_attr_map_array p) (policycaps p) (permissive_map p) (pd_len p) (policyvers p)
    (reject_unknown p) (allow_unknown p) (process_class p) (process_trans_perms p).
Definition set_p_cats (p : policydb) (v : symtab cat_datum) : policydb :=
  mk_policydb (mls_enabled p) (p_commons p) (p_classes p) (p_roles p) (p_types p) (p_users p) (p_bools p)
    (p_levels p) v (sym_val_to_name p) (class_val_to_struct p) (role_val_to_struct p) (user_val_to_struct p)
    (type_val_to_struct_array p) (te_avtab p) (role_tr p) (filename_trans_list p) (bool_store p)
    (bool_val_to_struct p) (te_cond_avtab p) (cond_list p) (role_allow_list p) (ocontexts p) (genfs_list p)
    (range_tr p) (type_attr_map_array p) (policycaps p) (permissive_map p) (pd_len p) (policyvers p)
    (reject_unknown p) (allow_unknown p) (process_class p) (process_trans_perms p).
Definition set_sym_val_to_name (p : policydb) (v : list (option (list (ptr string)))) : policydb :=
  mk_policydb (mls_enabled p) (p_commons p) (p_classes p) (p_roles p) (p_types p) (p_users p) (p_bools p)
    (p_levels p) (p_cats p) v (class_val_to_struct p) (role_val_to_struct p) (user_val_to_struct p)
    (type_val_to_struct_array p) (te_avtab p) (role_tr p) (filename_trans_list p) (bool_store p)
    (bool_val_to_struct p) (te_cond_avtab p) (cond_list p) (role_allow_list p) (ocontexts p) (genfs_list p)
    (range_tr p) (type_attr_map_array p) (policycaps p) (permissive_map p) (pd_len p) (policyvers p)
    (reject_unknown p) (allow_unknown p) (process_class p) (process_trans_perms p).
Definition set_class_val_to_struct (p : policydb) (v : list (ptr class_datum)) : policydb :=
  mk_policydb (mls_enabled p) (p_commons p) (p_classes p) (p_roles p) (p_types p) (p_users p) (p_bools p)
    (p_levels p) (p_cats p) (sym_val_to_name p) v (role_val_to_struct p) (user_val_to_struct p)
    (type_val_to_struct_array p) (te_avtab p) (role_tr p) (filename_trans_list p) (bool_store p)
    (bool_val_to_struct p) (te_cond_avtab p) (cond_list p) (role_allow_list p) (ocontexts p) (genfs_list p)
    (range_tr p) (type_attr_map_array p) (policycaps p) (permissive_map p) (pd_len p) (policyvers p)
    (reject_unknown p) (allow_unknown p) (process_class p) (process_trans_perms p).
Definition set_role_val_to_struct (p : policydb) (v : list (ptr role_datum)) : policydb :=
  mk_policydb (mls_enabled p) (p_commons p) (p_classes p) (p_roles p) (p_types p) (p_users p) (p_bools p)
    (p_levels p) (p_cats p) (sym_val_to_name p) (class_val_to_struct p) v (user_val_to_struct p)
    (type_val_to_struct_array p) (te_avtab p) (role_tr p) (filename_trans_list p) (bool_store p)
    (bool_val_to_struct p) (te_cond_avtab p) (cond_list p) (role_allow_list p) (ocontexts p) (genfs_list p)
    (range_tr p) (type_attr_map_array p) (policycaps p) (permissive_map p) (pd_len p) (policyvers p)
    (reject_unknown p) (allow_unknown p) (process_class p) (process_trans_perms p).
Definition set_user_val_to_struct (p : policydb) (v : list (ptr user_datum)) : policydb :=
  mk_policydb (mls_enabled p) (p_commons p) (p_classes p) (p_roles p) (p_types p) (p_users p) (p_bools p)
    (p_levels p) (p_cats p) (sym_val_to_name p) (class_val_to_struct p) (role_val_to_struct p) v
    (type_val_to_struct_array p) (te_avtab p) (role_tr p) (filename_trans_list p) (bool_store p)
    (bool_val_to_struct p) (te_cond_avtab p) (cond_list p) (role_allow_list p) (ocontexts p) (genfs_list p)
    (range_tr p) (type_attr_map_array p) (policycaps p) (permissive_map p) (pd_len p) (policyvers p)
    (reject_unknown p) (allow_unknown p) (process_class p) (process_trans_perms p).
Definition set_type_val_to_struct_array (p : policydb) (v : list (ptr type_datum)) : policydb :=
  mk_policydb (mls_enabled p) (p_commons p) (p_classes p) (p_roles p) (p_types p) (p_users p) (p_bools p)
    (p_levels p) (p_cats p) (sym_val_to_name p) (class_val_to_struct p) (role_val_to_struct p)
    (user_val_to_struct p) v (te_avtab p) (role_tr p) (filename_trans_list p) (bool_store p)
    (bool_val_to_struct p) (te_cond_avtab p) (cond_list p) (role_allow_list p) (ocontexts p) (genfs_list p)
    (range_tr p) (type_attr_map_array p) (policycaps p) (permissive_map p) (pd_len p) (policyvers p)
    (reject_unknown p) (allow_unknown p) (process_class p) (process_trans_perms p).
Definition set_te_avtab (p : policydb) (v : avtab) : policydb :=
  mk_policydb (mls_enabled p) (p_commons p) (p_classes p) (p_roles p) (p_types p) (p_users p) (p_bools p)
    (p_levels p) (p_cats p) (sym_val_to_name p) (class_val_to_struct p) (role_val_to_struct p)
    (user_val_to_struct p) (type_val_to_struct_array p) v (role_tr p) (filename_trans_list p) (bool_store p)
    (bool_val_to_struct p) (te_cond_avtab p) (cond_list p) (role_allow_list p) (ocontexts p) (genfs_list p)
    (range_tr p) (type_attr_map_array p) (policycaps p) (permissive_map p) (pd_len p) (policyvers p)
    (reject_unknown p) (allow_unknown p) (process_class p) (process_trans_perms p).
Definition set_role_tr (p : policydb) (v : list role_trans) : policydb :=
  mk_policydb (mls_enabled p) (p_commons p) (p_classes p) (p_roles p) (p_types p) (p_users p) (p_bools p)
    (p_levels p) (p_cats p) (sym_val_to_name p) (class_val_to_struct p) (role_val_to_struct p)
    (user_val_to_struct p) (type_val_to_struct_array p) (te_avtab p) v (filename_trans_list p)
    (bool_store p) (bool_val_to_struct p) (te_cond_avtab p) (cond_list p) (role_allow_list p) (ocontexts p)
    (genfs_list p) (range_tr p) (type_attr_map_array p) (policycaps p) (permissive_map p) (pd_len p)
    (policyvers p) (reject_unknown p) (allow_unknown p) (process_class p) (process_trans_perms p).
Definition set_filename_trans_list (p : policydb) (v : list filename_trans) : policydb :=
  mk_policydb (mls_enabled p) (p_commons p) (p_classes p) (p_roles p) (p_types p) (p_users p) (p_bools p)
    (p_levels p) (p_cats p) (sym_val_to_name p) (class_val_to_struct p) (role_val_to_struct p)
    (user_val_to_struct p) (type_val_to_struct_array p) (te_avtab p) (role_tr p) v (bool_store p)
    (bool_val_to_struct p) (te_cond_avtab p) (cond_list p) (role_allow_list p) (ocontexts p) (genfs_list p)
    (range_tr p) (type_attr_map_array p) (policycaps p) (permissive_map p) (pd_len p) (policyvers p)
    (reject_unknown p) (allow_unknown p) (process_class p) (process_trans_perms p).
Definition set_bool_store (p : policydb) (v : list cond_bool_datum) : policydb :=
  mk_policydb (mls_enabled p) (p_commons p) (p_classes p) (p_roles p) (p_types p) (p_users p) (p_bools p)
    (p_levels p) (p_cats p) (sym_val_to_name p) (class_val_to_struct p) (role_val_to_struct p)
    (user_val_to_struct p) (type_val_to_struct_array p) (te_avtab p) (role_tr p) (filename_trans_list p) v
    (bool_val_to_struct p) (te_cond_avtab p) (cond_list p) (role_allow_list p) (ocontexts p) (genfs_list p)
    (range_tr p) (type_attr_map_array p) (policycaps p) (permissive_map p) (pd_len p) (policyvers p)
    (reject_unknown p) (allow_unknown p) (process_class p) (process_trans_perms p).
Definition set_bool_val_to_struct (p : policydb) (v : list (ptr nat)) : policydb :=
  mk_policydb (mls_enabled p) (p_commons p) (p_classes p) (p_roles p) (p_types p) (p_users p) (p_bools p)
    (p_levels p) (p_cats p) (sym_val_to_name p) (class_val_to_struct p) (role_val_to_struct p)
    (user_val_to_struct p) (type_val_to_struct_array p) (te_avtab p) (role_tr p) (filename_trans_list p)
    (bool_store p) v (te_cond_avtab p) (cond_list p) (role_allow_list p) (ocontexts p) (genfs_list p)
    (range_tr p) (type_attr_map_array p) (policycaps p) (permissive_map p) (pd_len p) (policyvers p)
    (reject_unknown p) (allow_unknown p) (process_class p) (process_trans_perms p).
Definition set_te_cond_avtab (p : policydb) (v : avtab) : policydb :=
  mk_policydb (mls_enabled p) (p_commons p) (p_classes p) (p_roles p) (p_types p) (p_users p) (p_bools p)
    (p_levels p) (p_cats p) (sym_val_to_name p) (class_val_to_struct p) (role_val_to_struct p)
    (user_val_to_struct p) (type_val_to_struct_array p) (te_avtab p) (role_tr p) (filename_trans_list p)
    (bool_store p) (bool_val_to_struct p) v (cond_list p) (role_allow_list p) (ocontexts p) (genfs_list p)
    (range_tr p) (type_attr_map_array p) (policycaps p) (permissive_map p) (pd_len p) (policyvers p)
    (reject_unknown p) (allow_unknown p) (process_class p) (process_trans_perms p).
Definition set_cond_list (p : policydb) (v : list cond_node) : policydb :=
  mk_policydb (mls_enabled p) (p_commons p) (p_classes p) (p_roles p) (p_types p) (p_users p) (p_bools p)
    (p_levels p) (p_cats p) (sym_val_to_name p) (class_val_to_struct p) (role_val_to_struct p)
    (user_val_to_struct p) (type_val_to_struct_array p) (te_avtab p) (role_tr p) (filename_trans_list p)
    (bool_store p) (bool_val_to_struct p) (te_cond_avtab p) v (role_allow_list p) (ocontexts p)
    (genfs_list p) (range_tr p) (type_attr_map_array p) (policycaps p) (permissive_map p) (pd_len p)
    (policyvers p) (reject_unknown p) (allow_unknown p) (process_class p) (process_trans_perms p).
Definition set_role_allow_list (p : policydb) (v : list role_allow) : policydb :=
  mk_policydb (mls_enabled p) (p_commons p) (p_classes p) (p_roles p) (p_types p) (p_users p) (p_bools p)
    (p_levels p) (p_cats p) (sym_val_to_name p) (class_val_to_struct p) (role_val_to_struct p)
    (user_val_to_struct p) (type_val_to_struct_array p) (te_avtab p) (role_tr p) (filename_trans_list p)
    (bool_store p) (bool_val_to_struct p) (te_cond_avtab p) (cond_list p) v (ocontexts p) (genfs_list p)
    (range_tr p) (type_attr_map_array p) (policycaps p) (permissive_map p) (pd_len p) (policyvers p)
    (reject_unknown p) (allow_unknown p) (process_class p) (process_trans_perms p).
Definition set_ocontexts (p : policydb) (v : list (list ocontext)) : policydb :=
  mk_policydb (mls_enabled p) (p_commons p) (p_classes p) (p_roles p) (p_types p) (p_users p) (p_bools p)
    (p_levels p) (p_cats p) (sym_val_to_name p) (class_val_to_struct p) (role_val_to_struct p)
    (user_val_to_struct p) (type_val_to_struct_array p) (te_avtab p) (role_tr p) (filename_trans_list p)
    (bool_store p) (bool_val_to_struct p) (te_cond_avtab p) (cond_list p) (role_allow_list p) v
    (genfs_list p) (range_tr p) (type_attr_map_array p) (policycaps p) (permissive_map p) (pd_len p)
    (policyvers p) (reject_unknown p) (allow_unknown p) (process_class p) (process_trans_perms p).
Definition set_genfs_list (p : policydb) (v : list genfs) : policydb :=
  mk_policydb (mls_enabled p) (p_commons p) (p_classes p) (p_roles p) (p_types p) (p_users p) (p_bools p)
    (p_levels p) (p_cats p) (sym_val_to_name p) (class_val_to_struct p) (role_val_to_struct p)
    (user_val_to_struct p) (type_val_to_struct_array p) (te_avtab p) (role_tr p) (filename_trans_list p)
    (bool_store p) (bool_val_to_struct p) (te_cond_avtab p) (cond_list p) (role_allow_list p)
    (ocontexts p) v (range_tr p) (type_attr_map_array p) (policycaps p) (permissive_map p) (pd_len p)
    (policyvers p) (reject_unknown p) (allow_unknown p) (process_class p) (process_trans_perms p).
Definition set_range_tr (p : policydb) (v : option (hashtab range_trans mls_range)) : policydb :=
  mk_policydb (mls_enabled p) (p_commons p) (p_classes p) (p_roles p) (p_types p) (p_users p) (p_bools p)
    (p_levels p) (p_cats p) (sym_val_to_name p) (class_val_to_struct p) (role_val_to_struct p)
    (user_val_to_struct p) (type_val_to_struct_array p) (te_avtab p) (role_tr p) (filename_trans_list p)
    (bool_store p) (bool_val_to_struct p) (te_cond_avtab p) (cond_list p) (role_allow_list p) (ocontexts p)
    (genfs_list p) v (type_attr_map_array p) (policycaps p) (permissive_map p) (pd_len p) (policyvers p)
    (reject_unknown p) (allow_unknown p) (process_class p) (process_trans_perms p).
Definition set_type_attr_map_array (p : policydb) (v : list ebitmap) : policydb :=
  mk_policydb (mls_enabled p) (p_commons p) (p_classes p) (p_roles p) (p_types p) (p_users p) (p_bools p)
    (p_levels p) (p_cats p) (sym_val_to_name p) (class_val_to_struct p) (role_val_to_struct p)
    (user_val_to_struct p) (type_val_to_struct_array p) (te_avtab p) (role_tr p) (filename_trans_list p)
    (bool_store p) (bool_val_to_struct p) (te_cond_avtab p) (cond_list p) (role_allow_list p) (ocontexts p)
    (genfs_list p) (range_tr p) v (policycaps p) (permissive_map p) (pd_len p) (policyvers p)
    (reject_unknown p) (allow_unknown p) (process_class p) (process_trans_perms p).
Definition set_policycaps (p : policydb) (v : ebitmap) : policydb :=
  mk_policydb (mls_enabled p) (p_commons p) (p_classes p) (p_roles p) (p_types p) (p_users p) (p_bools p)
    (p_levels p) (p_cats p) (sym_val_to_name p) (class_val_to_struct p) (role_val_to_struct p)
    (user_val_to_struct p) (type_val_to_struct_array p) (te_avtab p) (role_tr p) (filename_trans_list p)
    (bool_store p) (bool_val_to_struct p) (te_cond_avtab p) (cond_list p) (role_allow_list p) (ocontexts p)
    (genfs_list p) (range_tr p) (type_attr_map_array p) v (permissive_map p) (pd_len p) (policyvers p)
    (reject_unknown p) (allow_unknown p) (process_class p) (process_trans_perms p).
Definition set_permissive_map (p : policydb) (v : ebitmap) : policydb :=
  mk_policydb (mls_enabled p) (p_commons p) (p_classes p) (p_roles p) (p_types p) (p_users p) (p_bools p)
    (p_levels p) (p_cats p) (sym_val_to_name p) (class_val_to_struct p) (role_val_to_struct p)
    (user_val_to_struct p) (type_val_to_struct_array p) (te_avtab p) (role_tr p) (filename_trans_list p)
    (bool_store p) (bool_val_to_struct p) (te_cond_avtab p) (cond_list p) (role_allow_list p) (ocontexts p)
    (genfs_list p) (range_tr p) (type_attr_map_array p) (policycaps p) v (pd_len p) (policyvers p)
    (reject_unknown p) (allow_unknown p) (process_class p) (process_trans_perms p).
Definition set_pd_len (p : policydb) (v : Z) : policydb :=
  mk_policydb (mls_enabled p) (p_commons p) (p_classes p) (p_roles p) (p_types p) (p_users p) (p_bools p)
    (p_levels p) (p_cats p) (sym_val_to_name p) (class_val_to_struct p) (role_val_to_struct p)
    (user_val_to_struct p) (type_val_to_struct_array p) (te_avtab p) (role_tr p) (filename_trans_list p)
    (bool_store p) (bool_val_to_struct p) (te_cond_avtab p) (cond_list p) (role_allow_list p) (ocontexts p)
    (genfs_list p) (range_tr p) (type_attr_map_array p) (policycaps p) (permissive_map p) v (policyvers p)
    (reject_unknown p) (allow_unknown p) (process_class p) (process_trans_perms p).
Definition set_policyvers (p : policydb) (v : Z) : policydb :=
  mk_policydb (mls_enabled p) (p_commons p) (p_classes p) (p_roles p) (p_types p) (p_users p) (p_bools p)
    (p_levels p) (p_cats p) (sym_val_to_name p) (class_val_to_struct p) (role_val_to_struct p)
    (user_val_to_struct p) (type_val_to_struct_array p) (te_avtab p) (role_tr p) (filename_trans_list p)
    (bool_store p) (bool_val_to_struct p) (te_cond_avtab p) (cond_list p) (role_allow_list p) (ocontexts p)
    (genfs_list p) (range_tr p) (type_attr_map_array p) (policycaps p) (permissive_map p) (pd_len p) v
    (reject_unknown p) (allow_unknown p) (process_class p) (process_trans_perms p).
Definition set_reject_unknown (p : policydb) (v : bool) : policydb :=
  mk_policydb (mls_enabled p) (p_commons p) (p_classes p) (p_roles p) (p_types p) (p_users p) (p_bools p)
    (p_levels p) (p_cats p) (sym_val_to_name p) (class_val_to_struct p) (role_val_to_struct p)
    (user_val_to_struct p) (type_val_to_struct_array p) (te_avtab p) (role_tr p) (filename_trans_list p)
    (bool_store p) (bool_val_to_struct p) (te_cond_avtab p) (cond_list p) (role_allow_list p) (ocontexts p)
    (genfs_list p) (range_tr p) (type_attr_map_array p) (policycaps p) (permissive_map p) (pd_len p)
    (policyvers p) v (allow_unknown p) (process_class p) (process_trans_perms p).
Definition set_allow_unknown (p : policydb) (v : bool) : policydb :=
  mk_policydb (mls_enabled p) (p_commons p) (p_classes p) (p_roles p) (p_types p) (p_users p) (p_bools p)
    (p_levels p) (p_cats p) (sym_val_to_name p) (class_val_to_struct p) (role_val_to_struct p)
    (user_val_to_struct p) (type_val_to_struct_array p) (te_avtab p) (role_tr p) (filename_trans_list p)
    (bool_store p) (bool_val_to_struct p) (te_cond_avtab p) (cond_list p) (role_allow_list p) (ocontexts p)
    (genfs_list p) (range_tr p) (type_attr_map_array p) (policycaps p) (permissive_map p) (pd_len p)
    (policyvers p) (reject_unknown p) v (process_class p) (process_trans_perms p).
Definition set_process_class (p : policydb) (v : Z) : policydb :=
  mk_policydb (mls_enabled p) (p_commons p) (p_classes p) (p_roles p) (p_types p) (p_users p) (p_bools p)
    (p_levels p) (p_cats p) (sym_val_to_name p) (class_val_to_struct p) (role_val_to_struct p)
    (user_val_to_struct p) (type_val_to_struct_array p) (te_avtab p) (role_tr p) (filename_trans_list p)
    (bool_store p) (bool_val_to_struct p) (te_cond_avtab p) (cond_list p) (role_allow_list p) (ocontexts p)
    (genfs_list p) (range_tr p) (type_attr_map_array p) (policycaps p) (permissive_map p) (pd_len p)
    (policyvers p) (reject_unknown p) (allow_unknown p) v (process_trans_perms p).
Definition set_process_trans_perms (p : policydb) (v : Z) : policydb :=
  mk_policydb (mls_enabled p) (p_commons p) (p_classes p) (p_roles p) (p_types p) (p_users p) (p_bools p)
    (p_levels p) (p_cats p) (sym_val_to_name p) (class_val_to_struct p) (role_val_to_struct p)
    (user_val_to_struct p) (type_val_to_struct_array p) (te_avtab p) (role_tr p) (filename_trans_list p)
    (bool_store p) (bool_val_to_struct p) (te_cond_avtab p) (cond_list p) (role_allow_list p) (ocontexts p)
    (genfs_list p) (range_tr p) (type_attr_map_array p) (policycaps p) (permissive_map p) (pd_len p)
    (policyvers p) (reject_unknown p) (allow_unknown p) (process_class p) v.

(** [memset(p, 0, sizeof( *p))] *)
Definition avtab_zero : avtab := mk_avtab None 0 0 0 0.

Definition policydb_zero : policydb :=
  mk_policydb false (mk_symtab None 0) (mk_symtab None 0) (mk_symtab None 0) (mk_symtab None 0)
    (mk_symtab None 0) (mk_symtab None 0) (mk_symtab None 0) (mk_symtab None 0)
    (replicate SYM_NUM None) [] [] [] [] avtab_zero [] [] [] [] avtab_zero [] []
    (replicate OCON_NUM []) [] None [] ebitmap_init ebitmap_init 0 0 false false 0 0.
