(* ===== verification/Mls.v ===== *)
(** * Multi-level security (security/selinux/ss/mls.c)

    Printing and parsing of the MLS part of a context, its validity, its
    conversion to another policy and the MLS part of a computed context.

    [mls_sid_to_context] appends to a buffer the caller has allocated with
    [mls_compute_context_len]; here it returns the characters it writes.
    [mls_context_to_sid] cuts its input in place; here a [char *] is the rest
    of the buffer from that position (a NUL inside it ends the C string), and
    the new value of [*scontext] is given as the distance it has moved. *)

From Stdlib Require Import Ascii String.
From S2P Require Import Prelude Ebitmap Hashtab Context Sidtab Avtab Policydb.

(** ** Names *)

(** [sym_name]; an array that was never made is [Wild]. *)
Definition sym_name (p : policydb) (sym_num : nat) (element_nr : Z) : ptr string :=
  match nth sym_num (sym_val_to_name p) None with
  | Some fa => flex_array_get_ptr fa element_nr
  | None => Wild
  end.

Definition strlen (s : string) : Z := Z.of_nat (String.length s).

(** ** Printing *)

(** One iteration of the loop over the categories in
    [mls_compute_context_len]; the state is [len], [head] and [prev]. *)
Definition cats_len_step (p : policydb) (st : Z * Z * Z) (bit : Z) : option (Z * Z * Z) :=
  let '(len, head, prev) := st in
  let i := s32 bit in
  if 1 <? i - prev then
    len ← (if negb (head =? prev) then
             nm ← deref (sym_name p SYM_CATS prev);
             Some (s32 (len + (strlen nm + 1)))
           else Some len);
    nm ← deref (sym_name p SYM_CATS i);
    Some (s32 (len + (strlen nm + 1)), i, i)
  else Some (len, head, i).

Fixpoint cats_fold {A} (step : A -> Z -> option A) (bits : list Z) (st : A) : option A :=
  match bits with
  | [] => Some st
  | b :: bits' => st ← step st b; cats_fold step bits' st
  end.

Definition level_len (p : policydb) (l : mls_level) (len : Z) : option Z :=
  let index_sens := s32 (ml_sens l) in
  nm ← deref (sym_name p SYM_LEVELS (index_sens - 1));
  '(len, head, prev) ← cats_fold (cats_len_step p) (ebitmap_bits (ml_cat l)) (s32 (len + strlen nm), -2, -2);
  if negb (prev =? head) then
    nm ← deref (sym_name p SYM_CATS prev);
    Some (s32 (len + (strlen nm + 1)))
  else Some len.

Definition mls_compute_context_len (p : policydb) (context : context) : option Z :=
  if negb (mls_enabled p) then Some 0
  else
    let l0 := mr_low (c_range context) in
    let l1 := mr_high (c_range context) in
    len ← level_len p l0 1;
    if mls_level_eq l0 l1 then Some len
    else level_len p l1 (s32 (len + 1)).

Open Scope string_scope.

(** ['.'] when categories in between were skipped over, [','] otherwise. *)
Definition range_sep (head prev : Z) : string := if (1 <? prev - head)%Z then "." else ",".

(** The same loop in [mls_sid_to_context]; the state is what has been written,
    [head] and [prev]. *)
Definition cats_print_step (p : policydb) (st : string * Z * Z) (bit : Z) : option (string * Z * Z) :=
  let '(out, head, prev) := st in
  let i := s32 bit in
  if (1 <? i - prev)%Z then
    out ← (if negb (prev =? head)%Z then
             nm ← deref (sym_name p SYM_CATS prev);
             Some (out ++ range_sep head prev ++ nm)
           else Some out);
    nm ← deref (sym_name p SYM_CATS i);
    Some (out ++ (if (prev <? 0)%Z then ":" else ",") ++ nm, i, i)
  else Some (out, head, i).

Definition level_print (p : policydb) (l : mls_level) (out : string) : option string :=
  nm ← deref (sym_name p SYM_LEVELS (u32 (ml_sens l - 1)%Z));
  '(out, head, prev) ← cats_fold (cats_print_step p) (ebitmap_bits (ml_cat l)) (out ++ nm, (-2)%Z, (-2)%Z);
  if negb (prev =? head)%Z then
    nm ← deref (sym_name p SYM_CATS prev);
    Some (out ++ range_sep head prev ++ nm)
  else Some out.

Definition mls_sid_to_context (p : policydb) (context : context) : option string :=
  if negb (mls_enabled p) then Some ""
  else
    let l0 := mr_low (c_range context) in
    let l1 := mr_high (c_range context) in
    out ← level_print p l0 ":";
    if mls_level_eq l0 l1 then Some out
    else level_print p l1 (out ++ "-").

Close Scope string_scope.

(** ** Validity *)

(** The loop over the categories of the level. *)
Fixpoint cats_isvalid (nprim : Z) (allowed : ebitmap) (bits : list Z) : option bool :=
  match bits with
  | [] => Some true
  | i :: bits' =>
      if nprim <? i then Some false
      else
        b ← ebitmap_get_bit allowed (u64 (s32 i));
        if (b : bool) then cats_isvalid nprim allowed bits' else Some false
  end.

Definition mls_level_isvalid (p : policydb) (l : mls_level) : option bool :=
  if (ml_sens l =? 0) || (st_nprim (p_levels p) <? ml_sens l) then Some false
  else
    nm ← deref (sym_name p SYM_LEVELS (u32 (ml_sens l - 1)));
    levdatum ← hashtab_search (st_table (p_levels p)) nm;
    match levdatum with
    | None => Some false
    | Some levdatum => cats_isvalid (st_nprim (p_cats p)) (ml_cat (l_level levdatum)) (ebitmap_bits (ml_cat l))
    end.

Definition mls_range_isvalid (p : policydb) (r : mls_range) : option bool :=
  b ← mls_level_isvalid p (mr_low r);
  if negb b then Some false
  else
    b ← mls_level_isvalid p (mr_high r);
    if negb b then Some false
    else Some (mls_level_dom (mr_high r) (mr_low r)).

Definition mls_context_isvalid (p : policydb) (c : context) : option bool :=
  if negb (mls_enabled p) then Some true
  else
    b ← mls_range_isvalid p (c_range c);
    if negb b then Some false
    else if c_role c =? OBJECT_R_VAL then Some true
    else if (c_user c =? 0) || (st_nprim (p_users p) <? c_user c) then Some false
    else
      usrdatum ← index_deref (user_val_to_struct p) (c_user c - 1);
      Some (mls_range_contains (u_range usrdatum) (c_range c)).

(** ** Parsing *)

Definition is_char (n : nat) (c : ascii) : bool := Nat.eqb (nat_of_ascii c) n.
Definition is_nul : ascii -> bool := is_char 0.
Definition is_comma : ascii -> bool := is_char 44.
Definition is_dash : ascii -> bool := is_char 45.
Definition is_dot : ascii -> bool := is_char 46.
Definition is_colon : ascii -> bool := is_char 58.

(** [while ( *p && !stop( *p)) p++]: the characters passed over, and [p]. *)
Fixpoint scan (stop : ascii -> bool) (p : string) : string * string :=
  match p with
  | EmptyString => (EmptyString, EmptyString)
  | String c p' =>
      if is_nul c || stop c then (EmptyString, p)
      else let '(tok, rest) := scan stop p' in (String c tok, rest)
  end.

(** [delim = *p; if (delim != '\0') *p++ = '\0';], [None] for the NUL. *)
Definition take_delim (p : string) : option ascii * string :=
  match p with
  | EmptyString => (None, EmptyString)
  | String c p' => if is_nul c then (None, p) else (Some c, p')
  end.

Definition delim_is (f : ascii -> bool) (delim : option ascii) : bool :=
  match delim with Some c => f c | None => false end.

(** [rngptr = strchr(scontextp, '.')] and the removal of the dot. *)
Definition split_range (tok : string) : string * option string :=
  match scan is_dot tok with
  | (cat, EmptyString) => (cat, None)
  | (cat, String _ rng) => (cat, Some rng)
  end.

(** [for (i = catdatum->value; i < rngdatum->value; i++)]; [n] is the number
    of categories left. *)
Fixpoint set_cat_range (n : nat) (i : Z) (cat : ebitmap) (m : kmem) : option (Z * ebitmap * kmem) :=
  match n with
  | O => Some (0, cat, m)
  | S n' =>
      '(rc, cat, m) ← ebitmap_set_bit cat (u64 (s32 i)) true m;
      if nz rc then Some (rc, cat, m) else set_cat_range n' (i + 1) cat m
  end.

(** What the body of the [while (1)] does with the names it cut out. *)
Definition add_category (pol : policydb) (tok : string) (cat : ebitmap) (m : kmem) : option (Z * ebitmap * kmem) :=
  let '(name, rngptr) := split_range tok in
  catdatum ← hashtab_search (st_table (p_cats pol)) name;
  match catdatum with
  | None => Some (- EINVAL, cat, m)
  | Some catdatum =>
      '(rc, cat, m) ← ebitmap_set_bit cat (u32 (cat_value catdatum - 1)) true m;
      if nz rc then Some (rc, cat, m)
      else
        match rngptr with
        | None => Some (0, cat, m)
        | Some rng =>
            rngdatum ← hashtab_search (st_table (p_cats pol)) rng;
            match rngdatum with
            | None => Some (- EINVAL, cat, m)
            | Some rngdatum =>
                if cat_value rngdatum <=? cat_value catdatum then Some (- EINVAL, cat, m)
                else set_cat_range (Z.to_nat (cat_value rngdatum - cat_value catdatum)) (cat_value catdatum) cat m
            end
        end
  end.

(** [while (1)]: every round but the last consumes a comma, so the length of
    the rest bounds the number of rounds.  Result: [rc], the categories, the
    last [delim] and [p]. *)
Fixpoint parse_cats (fuel : nat) (pol : policydb) (p : string) (cat : ebitmap) (m : kmem)
    : option (Z * ebitmap * option ascii * string * kmem) :=
  match fuel with
  | O => None
  | S fuel' =>
      let '(tok, rest) := scan (fun c => is_comma c || is_dash c) p in
      let '(delim, p) := take_delim rest in
      '(rc, cat, m) ← add_category pol tok cat m;
      if nz rc then Some (rc, cat, delim, p, m)
      else if delim_is is_comma delim then parse_cats fuel' pol p cat m
      else Some (0, cat, delim, p, m)
  end.

(** One round of the [for] over the two levels: the name [tok] of the
    sensitivity is followed by [delim] and then [p]. *)
Definition parse_level (pol : policydb) (tok : string) (delim : option ascii) (p : string)
    (lev : mls_level) (m : kmem) : option (Z * mls_level * option ascii * string * kmem) :=
  levdatum ← hashtab_search (st_table (p_levels pol)) tok;
  match levdatum with
  | None => Some (- EINVAL, lev, delim, p, m)
  | Some levdatum =>
      let sens := ml_sens (l_level levdatum) in
      if delim_is is_colon delim then
        '(rc, cat, delim, p, m) ← parse_cats (S (String.length p)) pol p (ml_cat lev) m;
        Some (rc, mk_mls_level sens cat, delim, p, m)
      else Some (0, mk_mls_level sens (ml_cat lev), delim, p, m)
  end.

(** The part of [mls_context_to_sid] that parses.  Result: [rc], the range and
    the distance [*scontext] moves. *)
Definition parse_range (pol : policydb) (scontext : string) (r : mls_range) (m : kmem)
    : option (Z * mls_range * Z * kmem) :=
  let '(tok, rest) := scan (fun c => is_colon c || is_dash c) scontext in
  let '(delim, p) := take_delim rest in
  '(rc, lev0, delim, p, m) ← parse_level pol tok delim p (mr_low r) m;
  let r := mk_mls_range lev0 (mr_high r) in
  if nz rc then Some (rc, r, 0, m)
  else if delim_is is_dash delim then
    let '(tok, rest) := scan is_colon p in
    let '(delim, p) := take_delim rest in
    '(rc, lev1, delim, p, m) ← parse_level pol tok delim p (mr_high r) m;
    let r := mk_mls_range lev0 lev1 in
    if nz rc then Some (rc, r, 0, m)
    else
      (* a '-' after the categories of the high level ends the loop, too, with
         [p] moved past the next ':' *)
      let p :=
        if delim_is is_dash delim then (take_delim (scan is_colon p).2).2 else p in
      Some (0, r, strlen scontext - strlen p + 1, m)
  else
    let '(rc, cat, m) := ebitmap_cpy (ml_cat lev0) m in
    let r := mk_mls_range lev0 (mk_mls_level (ml_sens lev0) cat) in
    if nz rc then Some (rc, r, 0, m)
    else Some (0, r, strlen scontext - strlen p + 1, m).

Definition mls_context_to_sid (pol : policydb) (oldc : bool) (scontext : string) (context : context)
    (s : option sidtab) (def_sid : Z) (m : kmem) : option (Z * Context.context * Z * kmem) :=
  if negb (mls_enabled pol) then
    Some (0, context, if negb (def_sid =? SECSID_NULL) && oldc
                      then strlen (scan (fun _ => false) scontext).1 + 1 else 0, m)
  else if negb oldc then
    if def_sid =? SECSID_NULL then Some (- EINVAL, context, 0, m)
    else
      match sidtab_search s def_sid with
      | None => Some (- EINVAL, context, 0, m)
      | Some defcon =>
          let '(rc, context, m) := mls_context_cpy context defcon m in
          Some (rc, context, 0, m)
      end
  else
    '(rc, r, moved, m) ← parse_range pol scontext (c_range context) m;
    Some (rc, set_c_range context r, moved, m).

(** [p] is the global [policydb]. *)
Definition mls_from_string (p : policydb) (str : string) (context : context) (m : kmem)
    : option (Z * Context.context * kmem) :=
  if negb (mls_enabled p) then Some (- EINVAL, context, m)
  else
    let '(ok, m) := kalloc m in
    if negb ok then Some (- ENOMEM, context, m)
    else
      '(rc, context, _, m) ← mls_context_to_sid p true str context None SECSID_NULL m;
      Some (rc, context, m).

(** ** Computing contexts *)

Definition mls_range_set (context : context) (range : mls_range) (m : kmem) : Z * Context.context * kmem :=
  let '(rc, cat, m) := ebitmap_cpy (ml_cat (mr_low range)) m in
  let lev0 := mk_mls_level (ml_sens (mr_low range)) cat in
  let context := set_c_range context (mk_mls_range lev0 (mr_high (c_range context))) in
  if nz rc then (rc, context, m)
  else
    let '(rc, cat, m) := ebitmap_cpy (ml_cat (mr_high range)) m in
    (rc, set_c_range context (mk_mls_range lev0 (mk_mls_level (ml_sens (mr_high range)) cat)), m).

Definition mls_setup_user_range (p : policydb) (fromcon : context) (user : user_datum) (usercon : context)
    : Z * context :=
  if mls_enabled p then
    let fromcon_sen := mr_low (c_range fromcon) in
    let fromcon_clr := mr_high (c_range fromcon) in
    let user_low := mr_low (u_range user) in
    let user_clr := mr_high (u_range user) in
    let user_def := u_dfltlevel user in
    let set_sen l := set_c_range usercon (mk_mls_range l (mr_high (c_range usercon))) in
    let set_clr c l := set_c_range c (mk_mls_range (mr_low (c_range c)) l) in
    let clearance usercon :=
      if mls_level_dom user_clr fromcon_clr then (0, set_clr usercon fromcon_clr)
      else if mls_level_dom fromcon_clr user_clr then (0, set_clr usercon user_clr)
      else (- EINVAL, usercon) in
    (* Honor the user's default level if we can *)
    if mls_level_between user_def fromcon_sen fromcon_clr then clearance (set_sen user_def)
    else if mls_level_between fromcon_sen user_def user_clr then clearance (set_sen fromcon_sen)
    else if mls_level_between fromcon_clr user_low user_def then clearance (set_sen user_low)
    else (- EINVAL, usercon)
  else (0, usercon).

(** The loop over the categories of one level in [mls_convert_context]. *)
Fixpoint convert_cats (oldp newp : policydb) (bits : list Z) (bitmap : ebitmap) (m : kmem)
    : option (Z * ebitmap * kmem) :=
  match bits with
  | [] => Some (0, bitmap, m)
  | i :: bits' =>
      nm ← deref (sym_name oldp SYM_CATS i);
      catdatum ← hashtab_search (st_table (p_cats newp)) nm;
      match catdatum with
      | None => Some (- EINVAL, bitmap, m)
      | Some catdatum =>
          '(rc, bitmap, m) ← ebitmap_set_bit bitmap (u32 (cat_value catdatum - 1)) true m;
          if nz rc then Some (rc, bitmap, m) else convert_cats oldp newp bits' bitmap m
      end
  end.

(** One level; the categories are replaced only when all were converted. *)
Definition convert_level (oldp newp : policydb) (l : mls_level) (m : kmem) : option (Z * mls_level * kmem) :=
  nm ← deref (sym_name oldp SYM_LEVELS (u32 (ml_sens l - 1)));
  levdatum ← hashtab_search (st_table (p_levels newp)) nm;
  match levdatum with
  | None => Some (- EINVAL, l, m)
  | Some levdatum =>
      let sens := ml_sens (l_level levdatum) in
      '(rc, bitmap, m) ← convert_cats oldp newp (ebitmap_bits (ml_cat l)) ebitmap_init m;
      Some (rc, mk_mls_level sens (if nz rc then ml_cat l else bitmap), m)
  end.

(** [policydb]: the global one, which decides whether there is work to do. *)
Definition mls_convert_context (policydb oldp newp : policydb) (c : context) (m : kmem)
    : option (Z * context * kmem) :=
  if negb (mls_enabled policydb) then Some (0, c, m)
  else
    '(rc, l0, m) ← convert_level oldp newp (mr_low (c_range c)) m;
    let c := set_c_range c (mk_mls_range l0 (mr_high (c_range c))) in
    if nz rc then Some (rc, c, m)
    else
      '(rc, l1, m) ← convert_level oldp newp (mr_high (c_range c)) m;
      Some (rc, set_c_range c (mk_mls_range l0 l1), m).

Definition mls_compute_sid (p : policydb) (scontext tcontext : context) (tclass specified : Z)
    (newcontext : context) (sock : bool) (m : kmem) : option (Z * context * kmem) :=
  let change :=
    if (tclass =? process_class p) || sock then mls_context_cpy newcontext scontext m
    else mls_context_cpy_low newcontext scontext m in
  if negb (mls_enabled p) then Some (0, newcontext, m)
  else if specified =? AVTAB_TRANSITION then
    r ← hashtab_search (range_tr p) (mk_range_trans (c_type scontext) (c_type tcontext) tclass);
    match r with
    | Some r => Some (mls_range_set newcontext r m)
    | None => Some change
    end
  else if specified =? AVTAB_CHANGE then Some change
  else if specified =? AVTAB_MEMBER then Some (mls_context_cpy_low newcontext scontext m)
  else Some (- EINVAL, newcontext, m).

(** ** Strings *)

Lemma append_cons c x y : (String c x ++ y = String c (x ++ y))%string.
Proof. done. Qed.

Lemma append_nil_l y : (EmptyString ++ y = y)%string.
Proof. done. Qed.

Lemma string_length_app x y : String.length (x ++ y)%string = (String.length x + String.length y)%nat.
Proof. induction x as [|c x IH]; [done|]. rewrite append_cons. cbn. by rewrite IH. Qed.

Lemma strlen_app x y : strlen (x ++ y)%string = strlen x + strlen y.
Proof. unfold strlen. rewrite string_length_app. lia. Qed.

Lemma strlen_nonneg x : 0 <= strlen x.
Proof. unfold strlen. lia. Qed.

Lemma string_app_assoc (x y z : string) : ((x ++ y) ++ z = x ++ y ++ z)%string.
Proof. induction x as [|c x IH]; [done|]. rewrite !append_cons. by rewrite IH. Qed.

Lemma string_app_nil (x : string) : (x ++ EmptyString = x)%string.
Proof. induction x as [|c x IH]; [done|]. rewrite append_cons. by rewrite IH. Qed.

(** ** The length computed is the length printed *)

Lemma u32_s32_sub x y : u32 (s32 x - y) = u32 (x - y).
Proof.
  unfold s32, u32. replace ((x + 2 ^ 31) mod 2 ^ 32 - 2 ^ 31 - y) with ((x + 2 ^ 31) mod 2 ^ 32 - (2 ^ 31 + y)) by lia.
  rewrite Zminus_mod_idemp_l. f_equal. lia.
Qed.

Lemma flex_get_u32 {A} (fa : list (ptr A)) i j : u32 i = u32 j -> flex_array_get_ptr fa i = flex_array_get_ptr fa j.
Proof. intros H. unfold flex_array_get_ptr. by rewrite H. Qed.

Lemma sym_name_u32 p sym i j : u32 i = u32 j -> sym_name p sym i = sym_name p sym j.
Proof. intros H. unfold sym_name. destruct (nth sym (sym_val_to_name p) None); [by apply flex_get_u32|done]. Qed.

Lemma range_sep_len head prev : strlen (range_sep head prev) = 1.
Proof. unfold range_sep. by destruct (1 <? prev - head). Qed.

(** The state of the length loop for a state of the printing loop. *)
Definition len_state (st : string * Z * Z) : Z * Z * Z := let '(out, head, prev) := st in (s32 (strlen out), head, prev).

Lemma cats_step_len p st bit :
  cats_len_step p (len_state st) bit = len_state <$> cats_print_step p st bit.
Proof.
  destruct st as [[out head] prev]. unfold cats_len_step, cats_print_step. cbn [len_state].
  rewrite (Z.eqb_sym head prev).
  destruct (1 <? s32 bit - prev); [|done]. destruct (prev =? head); cbn [negb mbind option_bind].
  - destruct (deref (sym_name p SYM_CATS (s32 bit))) as [nm|]; [|done]. cbn. do 3 f_equal.
    rewrite s32_add_l, !strlen_app.
    replace (strlen (if (prev <? 0)%Z then ":" else ",")%string) with 1 by (by destruct (prev <? 0)). f_equal. lia.
  - destruct (deref (sym_name p SYM_CATS prev)) as [nm0|]; [|done]. cbn [mbind option_bind].
    destruct (deref (sym_name p SYM_CATS (s32 bit))) as [nm|]; [|done]. cbn [mbind option_bind fmap option_fmap option_map len_state].
    do 3 f_equal. rewrite !s32_add_l, !strlen_app, range_sep_len.
    replace (strlen (if (prev <? 0)%Z then ":" else ",")%string) with 1 by (by destruct (prev <? 0)). rewrite <- Z.add_assoc, s32_add_l. f_equal. lia.
Qed.

Lemma cats_fold_len p bits st :
  cats_fold (cats_len_step p) bits (len_state st) = len_state <$> cats_fold (cats_print_step p) bits st.
Proof.
  revert st. induction bits as [|b bits IH]; intros st; cbn [cats_fold]; [done|].
  rewrite cats_step_len. destruct (cats_print_step p st b) as [st'|]; cbn [fmap option_fmap option_map mbind option_bind]; [apply IH|done].
Qed.

Lemma level_len_print p l out :
  level_len p l (s32 (strlen out)) = (fun s => s32 (strlen s)) <$> level_print p l out.
Proof.
  unfold level_len, level_print.
  rewrite (sym_name_u32 p SYM_LEVELS (s32 (ml_sens l) - 1) (u32 (ml_sens l - 1)%Z)).
  2: { rewrite u32_s32_sub. unfold u32. by rewrite Zmod_mod. }
  destruct (deref (sym_name p SYM_LEVELS _)) as [nm|]; [|done]. cbn [mbind option_bind].
  rewrite s32_add_l, <- strlen_app.
  change (s32 (strlen (out ++ nm)%string), -2, -2) with (len_state ((out ++ nm)%string, -2, -2)).
  rewrite cats_fold_len. destruct (cats_fold _ _ _) as [[[out' head] prev]|]; [|done].
  cbn [fmap option_fmap option_map mbind option_bind len_state].
  destruct (prev =? head); [done|]. cbn [negb]. destruct (deref (sym_name p SYM_CATS prev)) as [nm'|]; [|done].
  cbn. f_equal. rewrite s32_add_l, !strlen_app, range_sep_len. f_equal. lia.
Qed.

Lemma mls_len_print p c : mls_compute_context_len p c = (fun s => s32 (strlen s)) <$> mls_sid_to_context p c.
Proof.
  unfold mls_compute_context_len, mls_sid_to_context. destruct (mls_enabled p); [|done]. cbn [negb].
  pose proof (level_len_print p (mr_low (c_range c)) ":"%string) as E. change (s32 (strlen ":")) with 1 in E. rewrite E.
  destruct (level_print p (mr_low (c_range c)) ":") as [out|]; [|done]. cbn [fmap option_fmap option_map mbind option_bind].
  destruct (mls_level_eq _ _); [done|].
  replace (s32 (s32 (strlen out) + 1)) with (s32 (strlen (out ++ "-")%string)); [apply level_len_print|].
  by rewrite s32_add_l, strlen_app.
Qed.
