(* ===== verification/PolicydbOps.v ===== *)
(** * Functions on the policy database (security/selinux/ss/policydb.c)

    The creation of an empty database, the index arrays, validity of contexts,
    the bounds hierarchy, the initial SIDs and lookups by name.

    A flex array (lib/flex_array.c) is an array of null pointers to begin
    with; making one takes two allocations that may fail, the base and its
    parts.  Function pointers given to [hashtab_map] thread an [option]: [None]
    after a [BUG()] or an invalid access. *)

From Stdlib Require Import Ascii String.
From S2P Require Import Prelude Ebitmap Hashtab Context Sidtab Avtab Policydb Mls.

(** ** An empty database *)

Definition symtab_sizes : list Z := [2; 32; 16; 512; 128; 16; 16; 16].

Record policydb_compat_info := mk_compat {
  pc_version : Z;
  pc_sym_num : Z;
  pc_ocon_num : Z
}.

Definition policydb_compat : list policydb_compat_info :=
  let sym_num := Z.of_nat SYM_NUM in
  let ocon_num := Z.of_nat OCON_NUM in
  [ mk_compat POLICYDB_VERSION_BASE (sym_num - 3) (ocon_num - 1);
    mk_compat POLICYDB_VERSION_BOOL (sym_num - 2) (ocon_num - 1);
    mk_compat POLICYDB_VERSION_IPV6 (sym_num - 2) ocon_num;
    mk_compat POLICYDB_VERSION_NLCLASS (sym_num - 2) ocon_num;
    mk_compat POLICYDB_VERSION_MLS sym_num ocon_num;
    mk_compat POLICYDB_VERSION_AVTAB sym_num ocon_num;
    mk_compat POLICYDB_VERSION_RANGETRANS sym_num ocon_num;
    mk_compat POLICYDB_VERSION_POLCAP sym_num ocon_num;
    mk_compat POLICYDB_VERSION_PERMISSIVE sym_num ocon_num;
    mk_compat POLICYDB_VERSION_BOUNDARY sym_num ocon_num;
    mk_compat POLICYDB_VERSION_FILENAME_TRANS sym_num ocon_num ].

Definition policydb_lookup_compat (version : Z) : option policydb_compat_info :=
  List.find (fun info => pc_version info =? version) policydb_compat.

Definition rangetr_hash (size : Z) (key : range_trans) : Z :=
  u32 (rg_source_type key + u32 (rg_target_type key .<< 3) + u32 (rg_target_class key .<< 5)) .& u32 (size - 1).

Definition rangetr_cmp (key1 key2 : range_trans) : Z :=
  let v := s32 (rg_source_type key1 - rg_source_type key2) in
  if nz v then v
  else
    let v := s32 (rg_target_type key1 - rg_target_type key2) in
    if nz v then v else s32 (rg_target_class key1 - rg_target_class key2).

Definition roles_init (p : policydb) (m : kmem) : option (Z * policydb * kmem) :=
  let '(ok, m) := kalloc m in
  if negb ok then Some (- ENOMEM, p, m)
  else
    let value := u32 (st_nprim (p_roles p) + 1) in
    let p := set_p_roles p (mk_symtab (st_table (p_roles p)) value) in
    if negb (value =? OBJECT_R_VAL) then Some (- EINVAL, p, m)
    else
      let '(ok, m) := kalloc m in
      if negb ok then Some (- ENOMEM, p, m)
      else
        '(rc, table, m) ← hashtab_insert (st_table (p_roles p)) OBJECT_R
                            (mk_role_datum value 0 ebitmap_init ebitmap_init) m;
        Some (rc, set_p_roles p (mk_symtab table value), m).

Definition cond_policydb_init (p : policydb) : Z * policydb :=
  let p := set_cond_list (set_bool_val_to_struct p []) [] in
  (0, set_te_cond_avtab p (avtab_init (te_cond_avtab p))).

(** [symtab_init] for each of the eight tables, until one fails. *)
Definition init_symtabs (p : policydb) (m : kmem) : Z * policydb * kmem :=
  let size i := nth i symtab_sizes 0 in
  let '(rc, s, m) := symtab_init (p_commons p) (size SYM_COMMONS) m in
  let p := set_p_commons p s in
  if nz rc then (rc, p, m) else
  let '(rc, s, m) := symtab_init (p_classes p) (size SYM_CLASSES) m in
  let p := set_p_classes p s in
  if nz rc then (rc, p, m) else
  let '(rc, s, m) := symtab_init (p_roles p) (size SYM_ROLES) m in
  let p := set_p_roles p s in
  if nz rc then (rc, p, m) else
  let '(rc, s, m) := symtab_init (p_types p) (size SYM_TYPES) m in
  let p := set_p_types p s in
  if nz rc then (rc, p, m) else
  let '(rc, s, m) := symtab_init (p_users p) (size SYM_USERS) m in
  let p := set_p_users p s in
  if nz rc then (rc, p, m) else
  let '(rc, s, m) := symtab_init (p_bools p) (size SYM_BOOLS) m in
  let p := set_p_bools p s in
  if nz rc then (rc, p, m) else
  let '(rc, s, m) := symtab_init (p_levels p) (size SYM_LEVELS) m in
  let p := set_p_levels p s in
  if nz rc then (rc, p, m) else
  let '(rc, s, m) := symtab_init (p_cats p) (size SYM_CATS) m in
  (rc, set_p_cats p s, m).

(** Result: [rc], the database, and whether its symbol tables have been freed
    again (the code after [out:]). *)
Definition policydb_init (m : kmem) : option (Z * policydb * bool * kmem) :=
  let '(rc, p, m) := init_symtabs policydb_zero m in
  if nz rc then Some (rc, p, true, m)
  else
    let p := set_te_avtab p (avtab_init (te_avtab p)) in
    '(rc, p, m) ← roles_init p m;
    if nz rc then Some (rc, p, true, m)
    else
      let '(rc, p) := cond_policydb_init p in
      if nz rc then Some (rc, p, true, m)
      else
        let '(h, m) := hashtab_create rangetr_hash rangetr_cmp 256 m in
        let p := set_range_tr p h in
        match h with
        | None => Some (rc, p, true, m)
        | Some _ => Some (0, set_permissive_map (set_policycaps p ebitmap_init) ebitmap_init, false, m)
        end.

(** ** The index arrays *)

(** [if (flex_array_put_ptr(p->sym_val_to_name[sym], value - 1, key, ...)) BUG();] *)
Definition put_name (p : policydb) (sym : nat) (value : Z) (key : string) : option policydb :=
  fa ← nth sym (sym_val_to_name p) None;
  let i := Z.to_nat (u32 (value - 1)) in
  if decide (i < length fa)%nat
  then Some (set_sym_val_to_name p (<[sym := Some (<[i := Ptr key]> fa)]> (sym_val_to_name p)))
  else None.

(** [a[value - 1] = datum] *)
Definition put_struct {A} (a : list (ptr A)) (value : Z) (datum : A) : option (list (ptr A)) :=
  let i := Z.to_nat (u32 (value - 1)) in
  if decide (i < length a)%nat then Some (<[i := Ptr datum]> a) else None.

(** The value of a function called by [hashtab_map]. *)
Definition indexed (r : option policydb) : Z * option policydb :=
  match r with Some p => (0, Some p) | None => (- EFAULT, None) end.

Definition on_policydb (f : policydb -> Z * option policydb) (p : option policydb) : Z * option policydb :=
  match p with Some p => f p | None => (- EFAULT, None) end.

Definition out_of (value nprim : Z) : bool := (value =? 0) || (nprim <? value).

Definition common_index (key : string) (comdatum : common_datum) (p : policydb) : Z * option policydb :=
  if out_of (cm_value comdatum) (st_nprim (p_commons p)) then (- EINVAL, Some p)
  else indexed (put_name p SYM_COMMONS (cm_value comdatum) key).

Definition class_index (key : string) (cladatum : class_datum) (p : policydb) : Z * option policydb :=
  if out_of (cl_value cladatum) (st_nprim (p_classes p)) then (- EINVAL, Some p)
  else
    indexed (p ← put_name p SYM_CLASSES (cl_value cladatum) key;
          a ← put_struct (class_val_to_struct p) (cl_value cladatum) cladatum;
          Some (set_class_val_to_struct p a)).

Definition role_index (key : string) (role : role_datum) (p : policydb) : Z * option policydb :=
  if out_of (r_value role) (st_nprim (p_roles p)) || (st_nprim (p_roles p) <? r_bounds role)
  then (- EINVAL, Some p)
  else
    indexed (p ← put_name p SYM_ROLES (r_value role) key;
          a ← put_struct (role_val_to_struct p) (r_value role) role;
          Some (set_role_val_to_struct p a)).

Definition type_index (key : string) (typdatum : type_datum) (p : policydb) : Z * option policydb :=
  if nz (t_primary typdatum) then
    if out_of (t_value typdatum) (st_nprim (p_types p)) || (st_nprim (p_types p) <? t_bounds typdatum)
    then (- EINVAL, Some p)
    else
      indexed (p ← put_name p SYM_TYPES (t_value typdatum) key;
            a ← put_struct (type_val_to_struct_array p) (t_value typdatum) typdatum;
            Some (set_type_val_to_struct_array p a))
  else (0, Some p).

Definition user_index (key : string) (usrdatum : user_datum) (p : policydb) : Z * option policydb :=
  if out_of (u_value usrdatum) (st_nprim (p_users p)) || (st_nprim (p_users p) <? u_bounds usrdatum)
  then (- EINVAL, Some p)
  else
    indexed (p ← put_name p SYM_USERS (u_value usrdatum) key;
          a ← put_struct (user_val_to_struct p) (u_value usrdatum) usrdatum;
          Some (set_user_val_to_struct p a)).

(** conditional.c; the datum is a position in [bool_store]. *)
Definition cond_index_bool (key : string) (datum : nat) (p : policydb) : Z * option policydb :=
  match bool_store p !! datum with
  | None => (- EFAULT, None)
  | Some booldatum =>
      if out_of (cb_value booldatum) (st_nprim (p_bools p)) then (- EINVAL, Some p)
      else
        indexed (p ← put_name p SYM_BOOLS (cb_value booldatum) key;
              a ← put_struct (bool_val_to_struct p) (cb_value booldatum) datum;
              Some (set_bool_val_to_struct p a))
  end.

Definition sens_index (key : string) (levdatum : level_datum) (p : policydb) : Z * option policydb :=
  if negb (nz (l_isalias levdatum)) then
    if out_of (ml_sens (l_level levdatum)) (st_nprim (p_levels p)) then (- EINVAL, Some p)
    else indexed (put_name p SYM_LEVELS (ml_sens (l_level levdatum)) key)
  else (0, Some p).

Definition cat_index (key : string) (catdatum : cat_datum) (p : policydb) : Z * option policydb :=
  if negb (nz (cat_isalias catdatum)) then
    if out_of (cat_value catdatum) (st_nprim (p_cats p)) then (- EINVAL, Some p)
    else indexed (put_name p SYM_CATS (cat_value catdatum) key)
  else (0, Some p).

Definition cond_init_bool_indexes (p : policydb) (m : kmem) : Z * policydb * kmem :=
  let '(ok, m) := kalloc m in
  if negb ok then (- ENOMEM, set_bool_val_to_struct p [], m)
  else (0, set_bool_val_to_struct p (replicate (Z.to_nat (st_nprim (p_bools p))) Wild), m).

(** One round of the loop of [policydb_index] over the symbol tables. *)
Definition index_symtab {D} (sym : nat) (s : symtab D) (f : string -> D -> policydb -> Z * option policydb)
    (p : policydb) (m : kmem) : option (Z * policydb * kmem) :=
  let '(ok, m) := kalloc m in
  if negb ok then Some (- ENOMEM, set_sym_val_to_name p (<[sym := None]> (sym_val_to_name p)), m)
  else
    let fa := replicate (Z.to_nat (st_nprim s)) Null in
    let p := set_sym_val_to_name p (<[sym := Some fa]> (sym_val_to_name p)) in
    let '(ok, m) := kalloc m in
    if negb ok then Some (- ENOMEM, p, m)
    else
      let '(rc, p) := hashtab_map (st_table s) (fun key datum => on_policydb (f key datum)) (Some p) in
      p ← p;
      Some (rc, p, m).

Definition policydb_index (p : policydb) (m : kmem) : option (Z * policydb * kmem) :=
  let '(ok, m) := kalloc m in
  if negb ok then Some (- ENOMEM, set_class_val_to_struct p [], m) else
  let p := set_class_val_to_struct p (replicate (Z.to_nat (st_nprim (p_classes p))) Wild) in
  let '(ok, m) := kalloc m in
  if negb ok then Some (- ENOMEM, set_role_val_to_struct p [], m) else
  let p := set_role_val_to_struct p (replicate (Z.to_nat (st_nprim (p_roles p))) Wild) in
  let '(ok, m) := kalloc m in
  if negb ok then Some (- ENOMEM, set_user_val_to_struct p [], m) else
  let p := set_user_val_to_struct p (replicate (Z.to_nat (st_nprim (p_users p))) Wild) in
  let '(ok, m) := kalloc m in
  if negb ok then Some (- ENOMEM, set_type_val_to_struct_array p [], m) else
  let p := set_type_val_to_struct_array p (replicate (Z.to_nat (st_nprim (p_types p))) Null) in
  let '(ok, m) := kalloc m in
  if negb ok then Some (- ENOMEM, p, m) else
  let '(rc, p, m) := cond_init_bool_indexes p m in
  if nz rc then Some (rc, p, m) else
  '(rc, p, m) ← index_symtab SYM_COMMONS (p_commons p) common_index p m;
  if nz rc then Some (rc, p, m) else
  '(rc, p, m) ← index_symtab SYM_CLASSES (p_classes p) class_index p m;
  if nz rc then Some (rc, p, m) else
  '(rc, p, m) ← index_symtab SYM_ROLES (p_roles p) role_index p m;
  if nz rc then Some (rc, p, m) else
  '(rc, p, m) ← index_symtab SYM_TYPES (p_types p) type_index p m;
  if nz rc then Some (rc, p, m) else
  '(rc, p, m) ← index_symtab SYM_USERS (p_users p) user_index p m;
  if nz rc then Some (rc, p, m) else
  '(rc, p, m) ← index_symtab SYM_BOOLS (p_bools p) cond_index_bool p m;
  if nz rc then Some (rc, p, m) else
  '(rc, p, m) ← index_symtab SYM_LEVELS (p_levels p) sens_index p m;
  if nz rc then Some (rc, p, m) else
  index_symtab SYM_CATS (p_cats p) cat_index p m.

(** ** Initial SIDs *)

Fixpoint load_isids_loop (s : sidtab) (head : list ocontext) (m : kmem) : Z * sidtab * kmem :=
  match head with
  | [] => (0, s, m)
  | c :: next =>
      if negb (nz (c_user (oc_context0 c))) then (- EINVAL, s, m)
      else
        let '(rc, s, m) := sidtab_insert s (oc_sid0 c) (oc_context0 c) m in
        if nz rc then (rc, s, m) else load_isids_loop s next m
  end.

(** [cache]: the cache of the table before, see [sidtab_init]. *)
Definition policydb_load_isids (p : policydb) (cache : list (option sidtab_node)) (m : kmem)
    : Z * option sidtab * kmem :=
  match sidtab_init cache m with
  | (rc, Some s, m) =>
      let '(rc, s, m) := load_isids_loop s (nth OCON_ISID (ocontexts p) []) m in (rc, Some s, m)
  | (rc, None, m) => (rc, None, m)
  end.

(** ** Validity *)

Definition policydb_class_isvalid (p : policydb) (class : Z) : bool :=
  if (class =? 0) || (st_nprim (p_classes p) <? class) then false else true.

Definition policydb_role_isvalid (p : policydb) (role : Z) : bool :=
  if (role =? 0) || (st_nprim (p_roles p) <? role) then false else true.

Definition policydb_type_isvalid (p : policydb) (type : Z) : bool :=
  if (type =? 0) || (st_nprim (p_types p) <? type) then false else true.

Definition policydb_context_isvalid (p : policydb) (c : context) : option bool :=
  if (c_role c =? 0) || (st_nprim (p_roles p) <? c_role c) then Some false
  else if (c_user c =? 0) || (st_nprim (p_users p) <? c_user c) then Some false
  else if (c_type c =? 0) || (st_nprim (p_types p) <? c_type c) then Some false
  else
    b ← (if negb (c_role c =? OBJECT_R_VAL) then
           role ← index_deref (role_val_to_struct p) (c_role c - 1);
           b ← ebitmap_get_bit (r_types role) (u32 (c_type c - 1));
           if negb b then Some false
           else
             u ← index (user_val_to_struct p) (c_user c - 1);
             null ← is_null u;
             if (null : bool) then Some false
             else
               usrdatum ← deref u;
               ebitmap_get_bit (u_roles usrdatum) (u32 (c_role c - 1))
         else Some true);
    if negb b then Some false else mls_context_isvalid p c.

(** ** The bounds hierarchy *)

(** [ebitmap_for_each_positive_bit(&lower, ...)]: every bit is in [upper]. *)
Fixpoint bits_bounded (bits : list Z) (upper : ebitmap) : option bool :=
  match bits with
  | [] => Some true
  | bit :: bits' =>
      b ← ebitmap_get_bit upper bit;
      if (b : bool) then bits_bounded bits' upper else Some false
  end.

(** The [while (upper->bounds)] of the three checks.  The depth is limited to
    [POLICYDB_BOUNDS_MAXDEPTH], one more than the number of rounds: running
    out of rounds is the [-EINVAL] of the depth test. *)
Section Bounds.
  Context {D : Type} (bounds : D -> Z) (get : Z -> option D) (inside : D -> option bool).

Fixpoint bounds_loop (depth : nat) (upper : D) : option Z :=
  if nz (bounds upper) then
    match depth with
    | O => Some (- EINVAL)
    | S depth' =>
        upper ← get (bounds upper - 1);
        ok ← inside upper;
        if (ok : bool) then bounds_loop depth' upper else Some (- EINVAL)
    end
  else Some 0.
End Bounds.

Definition bounds_rounds : nat := Z.to_nat (POLICYDB_BOUNDS_MAXDEPTH - 1).

Definition user_bounds_sanity_check (p : policydb) (user : user_datum) : option Z :=
  bounds_loop u_bounds (index_deref (user_val_to_struct p))
              (fun upper => bits_bounded (ebitmap_bits (u_roles user)) (u_roles upper))
              bounds_rounds user.

Definition role_bounds_sanity_check (p : policydb) (role : role_datum) : option Z :=
  bounds_loop r_bounds (index_deref (role_val_to_struct p))
              (fun upper => bits_bounded (ebitmap_bits (r_types role)) (r_types upper))
              bounds_rounds role.

Definition type_bounds_sanity_check (p : policydb) (type : type_datum) : option Z :=
  bounds_loop t_bounds (fun i => deref (flex_array_get_ptr (type_val_to_struct_array p) i))
              (fun upper => Some (negb (nz (t_attribute upper))))
              bounds_rounds type.

(** [hashtab_map] with a check that does not change anything; [false] in the
    state after an invalid access. *)
Definition map_check {D} (t : option (hashtab string D)) (f : D -> option Z) : option Z :=
  let '(rc, ok) := hashtab_map t (fun _ d ok => match f d with Some rc => (rc, ok) | None => (- EFAULT, false) end) true in
  if (ok : bool) then Some rc else None.

Definition policydb_bounds_sanity_check (p : policydb) : option Z :=
  if policyvers p <? POLICYDB_VERSION_BOUNDARY then Some 0
  else
    rc ← map_check (st_table (p_users p)) (user_bounds_sanity_check p);
    if nz rc then Some rc
    else
      rc ← map_check (st_table (p_roles p)) (role_bounds_sanity_check p);
      if nz rc then Some rc
      else
        rc ← map_check (st_table (p_types p)) (type_bounds_sanity_check p);
        if nz rc then Some rc else Some 0.

(** ** Classes and permissions by name *)

Definition string_to_security_class (p : policydb) (name : string) : option Z :=
  cladatum ← hashtab_search (st_table (p_classes p)) name;
  match cladatum with
  | None => Some 0
  | Some cladatum => Some (u16 (cl_value cladatum))
  end.

(** [1U << (perdatum->value-1)], with the shift count reduced as the
    processor does it. *)
Definition perm_bit (value : Z) : Z := u32 (1 .<< (u32 (value - 1) .& 31)).

Definition string_to_av_perm (p : policydb) (tclass : Z) (name : string) : option Z :=
  if (tclass =? 0) || (st_nprim (p_classes p) <? tclass) then Some 0
  else
    cladatum ← index_deref (class_val_to_struct p) (tclass - 1);
    perdatum ← (match cl_comdatum cladatum with
                | Some comdatum => hashtab_search (st_table (cm_permissions comdatum)) name
                | None => Some None
                end);
    perdatum ← (match perdatum with
                | None => hashtab_search (st_table (cl_permissions cladatum)) name
                | Some _ => Some perdatum
                end);
    match perdatum with
    | None => Some 0
    | Some perdatum => Some (perm_bit (pm_value perdatum))
    end.
