(* ===== verification/Sample.v ===== *)
(** * A small policy

    The concrete policy the theorems are applied to.  Its symbol tables are
    filled with [hashtab_insert] and its index arrays are the result of
    [policydb_index], so it is what the modelled code makes of these data: two
    classes, four types (one of them bounded by another), two roles, one user,
    two sensitivities, five categories and a boolean. *)

From Stdlib Require Import Ascii String.
From S2P Require Import Prelude Ebitmap Hashtab Context Sidtab Avtab Policydb Mls PolicydbOps.

Definition table_of {D} (l : list (string * D)) : symtab D :=
  let '(_, s, _) := symtab_init (mk_symtab None 0) 16 [] in
  let t := fold_left (fun t '(key, d) => match hashtab_insert t key d [] with Some (_, t, _) => t | None => t end)
                     l (st_table s) in
  mk_symtab t (Z.of_nat (length l)).

Definition bitmap_of (l : list Z) : ebitmap :=
  fold_left (fun e b => match ebitmap_set_bit e b true [] with Some (_, e, _) => e | None => e end) l ebitmap_init.

Definition avtab_of (l : list (avtab_key * Z)) : avtab :=
  let '(_, h, _) := avtab_alloc avtab_zero 8 [] in
  fold_left (fun h '(key, d) => match avtab_insert h key d [] with Some (_, h, _) => h | None => h end) l h.

Definition level (sens : Z) (cats : list Z) : mls_level := mk_mls_level sens (bitmap_of cats).
Definition full_range : mls_range := mk_mls_range (level 1 []) (level 2 [0; 1; 2; 3; 4]).

Definition perms_process : symtab perm_datum := table_of [("fork"%string, mk_perm_datum 1); ("transition"%string, mk_perm_datum 2)].
Definition perms_file : symtab perm_datum := table_of [("read"%string, mk_perm_datum 1); ("write"%string, mk_perm_datum 2)].

(** [constrain file { write } ( u1 == u2 or not t2 == etc_t )] *)
Definition write_constraint : constraint_node :=
  mk_constraint_node 2
    [mk_constraint_expr CEXPR_ATTR CEXPR_USER CEXPR_EQ ebitmap_init;
     mk_constraint_expr CEXPR_NAMES (CEXPR_TYPE .| CEXPR_TARGET) CEXPR_EQ (bitmap_of [2]);
     mk_constraint_expr CEXPR_NOT 0 0 ebitmap_init;
     mk_constraint_expr CEXPR_OR 0 0 ebitmap_init].

Definition te_rules : list (avtab_key * Z) :=
  [(mk_avtab_key 1 3 2 AVTAB_ALLOWED, 3); (mk_avtab_key 2 3 2 AVTAB_ALLOWED, 7);
   (mk_avtab_key 2 4 2 AVTAB_AUDITALLOW, 1); (mk_avtab_key 1 2 1 AVTAB_ALLOWED, 2)].
Definition cond_rules : list (avtab_key * Z) :=
  [(mk_avtab_key 1 4 2 (AVTAB_ALLOWED .| AVTAB_ENABLED), 3);
   (mk_avtab_key 2 4 2 (AVTAB_ALLOWED .| AVTAB_ENABLED), 1)].

Definition sample_data : policydb :=
  let p := policydb_zero in
  let p := set_mls_enabled p true in
  let p := set_p_commons p (table_of []) in
  let p := set_p_classes p
    (table_of [("process"%string, mk_class_datum 1 None None perms_process [] []);
               ("file"%string, mk_class_datum 2 None None perms_file [write_constraint] [])]) in
  let p := set_p_roles p
    (table_of [(OBJECT_R, mk_role_datum 1 0 (bitmap_of [0]) ebitmap_init);
               ("staff_r"%string, mk_role_datum 2 0 (bitmap_of [1]) (bitmap_of [0; 1; 3]))]) in
  let p := set_p_types p
    (table_of [("init_t"%string, mk_type_datum 1 0 1 0); ("user_t"%string, mk_type_datum 2 1 1 0);
               ("etc_t"%string, mk_type_datum 3 0 1 0); ("tmp_t"%string, mk_type_datum 4 0 1 0)]) in
  let p := set_p_users p
    (table_of [("root"%string, mk_user_datum 1 0 (bitmap_of [0; 1]) full_range (level 1 []))]) in
  let p := set_bool_store p [mk_cond_bool_datum 1 1] in
  let p := set_p_bools p (table_of [("allow_tmp"%string, 0%nat)]) in
  let p := set_p_levels p
    (table_of [("s0"%string, mk_level_datum (level 1 [0; 1; 2; 3; 4]) 0);
               ("s1"%string, mk_level_datum (level 2 [0; 1; 2; 3; 4]) 0)]) in
  let p := set_p_cats p
    (table_of [("c0"%string, mk_cat_datum 1 0); ("c1"%string, mk_cat_datum 2 0); ("c2"%string, mk_cat_datum 3 0);
               ("c3"%string, mk_cat_datum 4 0); ("c4"%string, mk_cat_datum 5 0)]) in
  let p := set_te_avtab p (avtab_of te_rules) in
  let p := set_te_cond_avtab p (avtab_of cond_rules) in
  let p := set_cond_list p [mk_cond_node 1 [mk_cond_expr 1 1] [0%nat; 1%nat] []] in
  let p := set_type_attr_map_array p [bitmap_of [0]; bitmap_of [1]; bitmap_of [2]; bitmap_of [3]] in
  let p := set_policyvers p POLICYDB_VERSION_MAX in
  let p := set_process_class p 1 in
  set_process_trans_perms p 2.

Definition sample : policydb :=
  match policydb_index sample_data [] with Some (_, p, _) => p | None => policydb_zero end.

(** The indexing succeeds. *)
Lemma sample_indexed : (fun r => r.1.1) <$> policydb_index sample_data [] = Some 0.
Proof. vm_compute. reflexivity. Qed.

Definition init_ctx : context := mk_context 1 2 1 0 full_range None.
Definition user_ctx : context := mk_context 1 2 2 0 (mk_mls_range (level 1 []) (level 2 [0; 1; 2; 4])) None.
Definition etc_ctx : context := mk_context 1 1 3 0 (mk_mls_range (level 1 [1; 2]) (level 1 [1; 2])) None.
Definition tmp_ctx : context := mk_context 1 1 4 0 (mk_mls_range (level 1 []) (level 1 [])) None.

Lemma sample_contexts_valid :
  policydb_context_isvalid sample init_ctx = Some true /\ policydb_context_isvalid sample user_ctx = Some true /\
  policydb_context_isvalid sample etc_ctx = Some true /\ policydb_context_isvalid sample tmp_ctx = Some true.
Proof. vm_compute. done. Qed.

Lemma sample_bounds : policydb_bounds_sanity_check sample = Some 0.
Proof. vm_compute. reflexivity. Qed.

(** ** The parts are well-formed *)

(** With enough memory a bit is set. *)
Lemma add_node_kmem ns hb bit v rc e m : ebitmap_add_node ns hb bit v [] = Some (rc, e, m) -> rc = 0 /\ m = [].
Proof.
  unfold ebitmap_add_node. destruct v; cbn [negb kalloc]; [|by intros [= <- _ <-]].
  intros H. apply bind_Some in H as (new & _ & H). by injection H as <- _ <-.
Qed.

Lemma set_bit_kmem prev ns hb bit v rc e m :
  ebitmap_set_bit_nodes prev ns hb bit v [] = Some (rc, e, m) -> rc = 0 /\ m = [].
Proof.
  revert prev rc e m. induction ns as [|n ns IH]; intros prev rc e m; cbn [ebitmap_set_bit_nodes]; [apply add_node_kmem|].
  destruct (en_startbit n <=? bit); [|apply add_node_kmem]. destruct (bit <? _).
  - destruct v; intros H; apply bind_Some in H as (n' & _ & H); [by injection H as <- _ <-|].
    destruct (_ <? _); by injection H as <- _ <-.
  - intros H. apply bind_Some in H as ([[rc' e'] m'] & H & Heq). injection Heq as <- _ <-. by eapply IH.
Qed.

Lemma set_bit_mem cat bit :
  ebitmap_canon cat -> 0 <= bit < 2 ^ 31 ->
  exists cat' m', ebitmap_set_bit cat bit true [] = Some (0, cat', m') /\ ebitmap_canon cat' /\
    forall b, ebit cat' b = (b =? bit) || ebit cat b.
Proof.
  intros Hc Hb. destruct (set_bit_spec cat bit true [] (canon_wf _ Hc)) as (rc & cat' & m' & H & _ & Hcan & Hcase);
    [lia|rewrite EBITMAP_SIZE_val; pose proof (Z.mod_pos_bound bit 128); lia|].
  assert (rc = 0) as -> by (by eapply set_bit_kmem in H as [-> _]).
  exists cat', m'. split; [done|]. split; [by apply Hcan|]. destruct Hcase as [[_ Hbits]|([=] & _)].
  intros b. rewrite Hbits. case_decide; destruct (Z.eqb_spec b bit); done.
Qed.

Lemma bitmap_of_canon l :
  Forall (fun b => 0 <= b < 2 ^ 31) l -> ebitmap_canon (bitmap_of l) /\ forall b, ebit (bitmap_of l) b = bool_decide (b ∈ l).
Proof.
  unfold bitmap_of. intros HF.
  assert (forall e, ebitmap_canon e ->
    let e' := fold_left (fun e b => match ebitmap_set_bit e b true [] with Some (_, e, _) => e | None => e end) l e in
    ebitmap_canon e' /\ forall b, ebit e' b = bool_decide (b ∈ l) || ebit e b) as H.
  { induction HF as [|x l Hx HF IH]; intros e He; cbn [fold_left].
    - split; [done|]. intros b. by rewrite bool_decide_false by apply not_elem_of_nil.
    - destruct (set_bit_mem e x He Hx) as (e1 & m1 & E1 & He1 & Hb1). rewrite E1. destruct (IH e1 He1) as [H1 H2]. split; [done|].
      intros b. rewrite H2, Hb1. rewrite (bool_decide_ext (b ∈ x :: l) (b = x \/ b ∈ l)) by apply elem_of_cons.
      rewrite bool_decide_or. destruct (bool_decide (b ∈ l)), (bool_decide_reflect (b = x)), (Z.eqb_spec b x); done || lia. }
  destruct (H ebitmap_init ebitmap_init_canon) as [H1 H2]. split; [done|]. intros b. by rewrite H2, ebit_init, orb_false_r.
Qed.

(** A table filled by [avtab_insert] is well-formed. *)
Lemma avtab_of_wf l : Forall (fun x => key_ok x.1) l -> avtab_wf (avtab_of l).
Proof.
  intros HF. unfold avtab_of. pose proof (avtab_alloc_spec avtab_zero 8 [] ltac:(lia)) as Ha.
  destruct (avtab_alloc avtab_zero 8 []) as [[rc h] m] eqn:Eal.
  assert (avtab_wf h) as Hh.
  { destruct Ha as (_ & [(_ & [=] & _)|[(_ & _ & _ & Hw & _)|(Hrc & _)]]); [done|].
    vm_compute in Eal. injection Eal as <- _ _. done. }
  clear Ha Eal. revert h Hh. induction HF as [|[key d] l Hk _ IH]; intros h Hh; cbn [fold_left]; [done|].
  destruct (avtab_insert_spec h key d [] Hh Hk) as (rc1 & h1 & m1 & -> & Hcase). apply IH.
  destruct Hcase as [(_ & _ & ->)|[(_ & _ & ->)|[(_ & _ & ->)|(_ & _ & Hw & _)]]]; done.
Qed.

Lemma sample_tables : te_avtab sample = avtab_of te_rules /\ te_cond_avtab sample = avtab_of cond_rules.
Proof. split; vm_compute; reflexivity. Qed.
