(* ===== verification/MlsText.v ===== *)
(** * MLS ranges as text: parsing undoes printing (security/selinux/ss/mls.c)

    [mls_sid_to_context] writes a level as the name of its sensitivity and the
    names of its categories, with runs of three and more categories shortened
    to their ends.  [cat_toks] is that list of items, and the lemmas here show
    that the printing loop writes it and that [mls_context_to_sid] reads it
    back, given a policy whose names can be told apart ([mls_names]). *)

From Stdlib Require Import Ascii String.
From S2P Require Import Prelude Ebitmap Hashtab Context Sidtab Avtab Policydb Mls PolicydbOps Sample.

(** ** Names *)

Fixpoint str_all (f : ascii -> bool) (s : string) : bool :=
  match s with EmptyString => true | String c s' => f c && str_all f s' end.

(** Names the parser does not cut. *)
Definition sens_name (s : string) : bool := str_all (fun c => negb (is_nul c || (is_colon c || is_dash c))) s.
Definition cat_name (s : string) : bool := str_all (fun c => negb (is_nul c || (is_comma c || is_dash c) || is_dot c)) s.

Definition ncats (p : policydb) : Z := st_nprim (p_cats p).
Definition nlevels (p : policydb) : Z := st_nprim (p_levels p).

(** The name arrays and the symbol tables of an indexed policy. *)
Record mls_names (p : policydb) : Prop := mk_mls_names {
  mn_sens : forall v, 0 < v <= nlevels p -> exists nm lev,
    sym_name p SYM_LEVELS (v - 1) = Ptr nm /\ hashtab_search (st_table (p_levels p)) nm = Some (Some lev) /\
    ml_sens (l_level lev) = v /\ sens_name nm = true;
  mn_cat : forall v, 0 < v <= ncats p -> exists nm d,
    sym_name p SYM_CATS (v - 1) = Ptr nm /\ hashtab_search (st_table (p_cats p)) nm = Some (Some d) /\
    cat_value d = v /\ cat_name nm = true;
  mn_nlevels : nlevels p < 2 ^ 31;
  mn_ncats : ncats p < 2 ^ 31 - EBITMAP_SIZE
}.

Definition name_at (p : policydb) (sym : nat) (i : Z) : string :=
  match sym_name p sym i with Ptr nm => nm | _ => EmptyString end.

(** ** Items *)

(** A category, or a range of them. *)
Definition tok_text (p : policydb) (tok : Z * option Z) : string :=
  match tok with
  | (h, None) => name_at p SYM_CATS h
  | (h, Some q) => (name_at p SYM_CATS h ++ "." ++ name_at p SYM_CATS q)%string
  end.

Fixpoint join_toks (p : policydb) (toks : list (Z * option Z)) : string :=
  match toks with
  | [] => EmptyString
  | [t] => tok_text p t
  | t :: toks' => (tok_text p t ++ "," ++ join_toks p toks')%string
  end.

(** The run [head .. prev]. *)
Definition run_toks (head prev : Z) : list (Z * option Z) :=
  if prev =? head then [(head, None)]
  else if 1 <? prev - head then [(head, Some prev)]
  else [(head, None); (prev, None)].

Fixpoint cat_toks (head prev : Z) (bits : list Z) : list (Z * option Z) :=
  match bits with
  | [] => run_toks head prev
  | i :: bits' => if 1 <? i - prev then run_toks head prev ++ cat_toks i i bits' else cat_toks head i bits'
  end.

Definition cats_text (p : policydb) (bits : list Z) : string :=
  match bits with
  | [] => EmptyString
  | b :: bits' => (":" ++ join_toks p (cat_toks b b bits'))%string
  end.

Definition level_text (p : policydb) (l : mls_level) : string :=
  (name_at p SYM_LEVELS (ml_sens l - 1) ++ cats_text p (ebitmap_bits (ml_cat l)))%string.

Definition range_text (p : policydb) (r : mls_range) : string :=
  if mls_level_eq (mr_low r) (mr_high r) then level_text p (mr_low r)
  else (level_text p (mr_low r) ++ "-" ++ level_text p (mr_high r))%string.

(** A level whose names exist. *)
Record level_ok (p : policydb) (l : mls_level) : Prop := mk_level_ok {
  lo_sens : 0 < ml_sens l <= nlevels p;
  lo_canon : level_canon l;
  lo_cats : forall b, ebit (ml_cat l) b = true -> 0 <= b < ncats p
}.

(** ** Printing *)

(** What follows the name of [head] in the run [head .. prev]. *)
Definition run_tail (p : policydb) (head prev : Z) : string :=
  if prev =? head then EmptyString else (range_sep head prev ++ name_at p SYM_CATS prev)%string.

Lemma run_text p head prev :
  join_toks p (run_toks head prev) = (name_at p SYM_CATS head ++ run_tail p head prev)%string.
Proof.
  unfold run_toks, run_tail, range_sep. destruct (prev =? head); [by rewrite string_app_nil|].
  by destruct (1 <? prev - head).
Qed.

Lemma join_app p t1 t2 : t1 <> [] -> t2 <> [] -> join_toks p (t1 ++ t2) = (join_toks p t1 ++ "," ++ join_toks p t2)%string.
Proof.
  intros H1 H2. induction t1 as [|a [|b t1] IH]; [done| |].
  - cbn. by destruct t2.
  - change ((a :: b :: t1) ++ t2) with (a :: (b :: t1) ++ t2).
    change (join_toks p (a :: (b :: t1) ++ t2)) with (tok_text p a ++ "," ++ join_toks p ((b :: t1) ++ t2))%string.
    rewrite IH by done. change (join_toks p (a :: b :: t1)) with (tok_text p a ++ "," ++ join_toks p (b :: t1))%string.
    by rewrite !string_app_assoc.
Qed.

Lemma run_toks_ne head prev : run_toks head prev <> [].
Proof. unfold run_toks. by repeat case_match. Qed.

Lemma cat_toks_ne head prev bits : cat_toks head prev bits <> [].
Proof.
  revert head prev. induction bits as [|i bits IH]; intros head prev; cbn; [apply run_toks_ne|].
  destruct (1 <? i - prev); [|apply IH]. intros H. apply app_eq_nil in H as [H _]. by apply run_toks_ne in H.
Qed.

Lemma cat_name_at p i : mls_names p -> 0 <= i < ncats p -> sym_name p SYM_CATS i = Ptr (name_at p SYM_CATS i).
Proof.
  intros Hn Hi. destruct (mn_cat p Hn (i + 1) ltac:(lia)) as (nm & d & H & _).
  replace (i + 1 - 1) with i in H by lia. unfold name_at. by rewrite H.
Qed.

Fixpoint tail_text (p : policydb) (head prev : Z) (bits : list Z) : string :=
  match bits with
  | [] => run_tail p head prev
  | i :: bits' =>
      if 1 <? i - prev then (run_tail p head prev ++ "," ++ name_at p SYM_CATS i ++ tail_text p i i bits')%string
      else tail_text p head i bits'
  end.

Lemma tail_text_toks p head prev bits :
  join_toks p (cat_toks head prev bits) = (name_at p SYM_CATS head ++ tail_text p head prev bits)%string.
Proof.
  revert head prev. induction bits as [|i bits IH]; intros head prev; cbn [cat_toks tail_text]; [apply run_text|].
  destruct (1 <? i - prev); [|apply IH].
  rewrite join_app by (apply run_toks_ne || apply cat_toks_ne). rewrite run_text, IH. by rewrite !string_app_assoc.
Qed.

(** The end of a level, after the loop over its categories. *)
Definition cats_finish (p : policydb) (st : string * Z * Z) : option string :=
  let '(out, head, prev) := st in
  if negb (prev =? head) then
    nm ← deref (sym_name p SYM_CATS prev); Some (out ++ range_sep head prev ++ nm)%string
  else Some out.

Lemma finish_text p out head prev :
  mls_names p -> 0 <= prev < ncats p -> cats_finish p (out, head, prev) = Some (out ++ run_tail p head prev)%string.
Proof.
  intros Hn Hp. unfold cats_finish, run_tail. destruct (prev =? head); cbn [negb]; [by rewrite string_app_nil|].
  by rewrite cat_name_at by done.
Qed.

Lemma cats_print_spec p bits out head prev :
  mls_names p -> 0 <= prev < ncats p -> Forall (fun b => 0 <= b < ncats p) bits ->
  (st ← cats_fold (cats_print_step p) bits (out, head, prev); cats_finish p st)
    = Some (out ++ tail_text p head prev bits)%string.
Proof.
  intros Hn. pose proof (mn_ncats p Hn) as Hnc. rewrite EBITMAP_SIZE_val in Hnc.
  revert out head prev. induction bits as [|i bits IH]; intros out head prev Hp HF; cbn [cats_fold tail_text].
  { by apply finish_text. }
  apply Forall_cons in HF as [Hi HF]. unfold cats_print_step at 2. rewrite (s32_small i) by lia.
  destruct (1 <? i - prev); cbn [mbind option_bind]; [|by apply IH].
  assert ((if negb (prev =? head) then nm ← deref (sym_name p SYM_CATS prev); Some (out ++ range_sep head prev ++ nm)%string
           else Some out) = Some (out ++ run_tail p head prev)%string) as E by by apply finish_text.
  rewrite (bind_step _ _ _ E), (cat_name_at p i) by done. cbn [deref mbind option_bind].
  destruct (Z.ltb_spec prev 0); [lia|]. specialize (IH ((out ++ run_tail p head prev) ++ "," ++ name_at p SYM_CATS i)%string i i Hi HF).
  etrans; [exact IH|]. by rewrite !string_app_assoc.
Qed.

Lemma level_print_text p l out :
  mls_names p -> level_ok p l -> level_print p l out = Some (out ++ level_text p l)%string.
Proof.
  intros Hn [Hs Hc Hb]. unfold level_print, level_text.
  destruct (mn_sens p Hn (ml_sens l) Hs) as (nm & lev & Hnm & _).
  pose proof (mn_nlevels p Hn). rewrite u32_small by lia. unfold name_at at 1. rewrite Hnm. cbn [deref mbind option_bind].
  destruct (bits_spec (ml_cat l) (canon_wf _ Hc)) as [Hsort Hmem].
  assert (Forall (fun b => 0 <= b < ncats p) (ebitmap_bits (ml_cat l))) as HF.
  { apply Forall_forall. intros b Hin. apply Hb. by apply Hmem. }
  change (fun '(out, head, prev) => _) with (cats_finish p).
  destruct (ebitmap_bits (ml_cat l)) as [|b bits]; cbn [cats_text cats_fold].
  { cbn. by rewrite string_app_nil. }
  apply Forall_cons in HF as [Hb0 HF]. pose proof (mn_ncats p Hn) as Hnc. rewrite EBITMAP_SIZE_val in Hnc.
  unfold cats_print_step at 2. rewrite (s32_small b) by lia.
  destruct (Z.ltb_spec 1 (b - -2)); [|lia]. change (negb (-2 =? -2)) with false. cbv iota. cbn [mbind option_bind].
  rewrite (cat_name_at p b) by done. cbn [deref mbind option_bind]. change (-2 <? 0) with true. cbv iota.
  etrans; [apply cats_print_spec; done|]. rewrite tail_text_toks, !string_app_assoc. done.
Qed.

(** The text [mls_sid_to_context] writes. *)
Lemma mls_print_text p c :
  mls_names p -> mls_enabled p = true -> level_ok p (mr_low (c_range c)) -> level_ok p (mr_high (c_range c)) ->
  mls_sid_to_context p c = Some (":" ++ range_text p (c_range c))%string.
Proof.
  intros Hn He H0 H1. unfold mls_sid_to_context, range_text. rewrite He. cbn [negb].
  rewrite level_print_text by done. cbn [mbind option_bind]. destruct (mls_level_eq _ _); [done|].
  rewrite level_print_text by done. by rewrite !string_app_assoc.
Qed.

(** ** Scanning *)

Lemma str_all_impl (f g : ascii -> bool) s : (forall c, f c = true -> g c = true) -> str_all f s = true -> str_all g s = true.
Proof.
  intros Hfg. induction s as [|c s IH]; cbn; [done|]. rewrite !andb_true_iff. intros [H1 H2]. split; [by apply Hfg|by apply IH].
Qed.

Lemma str_all_app f x y : str_all f (x ++ y)%string = str_all f x && str_all f y.
Proof. induction x as [|c x IH]; [done|]. rewrite append_cons. cbn. by rewrite IH, andb_assoc. Qed.

(** The text starts with a delimiter, or is at its end. *)
Definition stops (stop : ascii -> bool) (s : string) : bool :=
  match s with EmptyString => true | String c _ => is_nul c || stop c end.

Lemma scan_stop stop tok rest :
  str_all (fun c => negb (is_nul c || stop c)) tok = true -> stops stop rest = true -> scan stop (tok ++ rest) = (tok, rest).
Proof.
  intros Ht Hr. induction tok as [|c tok IH].
  - rewrite append_nil_l. destruct rest as [|c rest]; [done|]. cbn in *. by rewrite Hr.
  - rewrite append_cons. cbn in *. apply andb_prop in Ht as [Hc Ht]. apply negb_true_iff in Hc. rewrite Hc.
    by rewrite IH.
Qed.

Lemma scan_all stop tok : str_all (fun c => negb (is_nul c || stop c)) tok = true -> scan stop tok = (tok, EmptyString).
Proof. intros H. rewrite <- (string_app_nil tok) at 1. by apply scan_stop. Qed.

Ltac chars := repeat rewrite negb_orb; rewrite ?andb_true_iff; tauto.

Lemma cat_name_split s : cat_name s = true -> scan is_dot s = (s, EmptyString).
Proof. intros H. apply scan_all. eapply str_all_impl; [|exact H]. intros c. cbn. chars. Qed.

Lemma cat_name_token s : cat_name s = true -> str_all (fun c => negb (is_nul c || (is_comma c || is_dash c))) s = true.
Proof. intros H. eapply str_all_impl; [|exact H]. intros c. cbn. chars. Qed.

(** ** Reading categories *)

(** The categories of an item. *)
Definition in_tok (tok : Z * option Z) (b : Z) : bool :=
  match tok with (h, None) => b =? h | (h, Some q) => (h <=? b) && (b <=? q) end.

Definition tok_ok (p : policydb) (tok : Z * option Z) : Prop :=
  match tok with (h, None) => 0 <= h < ncats p | (h, Some q) => 0 <= h < q /\ q < ncats p end.

(** The outcome of an operation that adds bits: done, or out of memory. *)
Definition adds (f : Z -> bool) (cat : ebitmap) (rc : Z) (cat' : ebitmap) : Prop :=
  ebitmap_canon cat' /\ ((rc = 0 /\ forall b, ebit cat' b = f b || ebit cat b) \/ rc = - ENOMEM).

Lemma adds_trans f g cat cat1 rc cat2 :
  adds f cat 0 cat1 -> adds g cat1 rc cat2 -> adds (fun b => g b || f b) cat rc cat2.
Proof.
  intros [H1 [[_ H2]|[=]]] [H3 H4]. split; [done|]. destruct H4 as [[-> H4]| ->]; [left|by right].
  split; [done|]. intros b. by rewrite H4, H2, orb_assoc.
Qed.

Lemma adds_ext f g cat rc cat' : (forall b, f b = g b) -> adds f cat rc cat' -> adds g cat rc cat'.
Proof.
  intros He [H1 H2]. split; [done|]. destruct H2 as [[-> H2]| ->]; [left|by right]. split; [done|]. intros b. by rewrite H2, He.
Qed.

Lemma adds_bit cat bit m :
  ebitmap_canon cat -> 0 <= bit < 2 ^ 31 ->
  exists rc cat' m', ebitmap_set_bit cat bit true m = Some (rc, cat', m') /\ adds (fun b => b =? bit) cat rc cat'.
Proof.
  intros Hc Hb. destruct (set_bit_spec cat bit true m (canon_wf _ Hc)) as (rc & cat' & m' & H & _ & Hcan & Hcase); [lia|rewrite EBITMAP_SIZE_val; pose proof (Z.mod_pos_bound bit 128); lia|].
  exists rc, cat', m'. split; [done|]. split; [by apply Hcan|]. destruct Hcase as [[-> Hbits]|(-> & _)]; [left|by right].
  split; [done|]. intros b. rewrite Hbits. case_decide; destruct (Z.eqb_spec b bit); done.
Qed.

Lemma set_cat_range_spec n i cat m :
  ebitmap_canon cat -> 0 <= i -> i + Z.of_nat n < 2 ^ 31 ->
  exists rc cat' m', set_cat_range n i cat m = Some (rc, cat', m') /\
    adds (fun b => (i <=? b) && (b <? i + Z.of_nat n)) cat rc cat'.
Proof.
  revert i cat m. induction n as [|n IH]; intros i cat m Hc Hi Hn; cbn [set_cat_range].
  { exists 0, cat, m. split; [done|]. split; [done|]. left. split; [done|]. intros b.
    destruct (Z.leb_spec i b), (Z.ltb_spec b (i + Z.of_nat 0)); done || lia. }
  rewrite s32_small, u64_small by lia. destruct (adds_bit cat i m Hc ltac:(lia)) as (rc & c1 & m1 & H1 & Ha).
  rewrite (bind_step _ _ _ H1). pose proof Ha as [Hc1 [[-> Hb1]| ->]].
  - change (nz 0) with false. cbv iota. destruct (IH (i + 1) c1 m1 Hc1 ltac:(lia) ltac:(lia)) as (rc2 & c2 & m2 & H2 & Ha2).
    exists rc2, c2, m2. split; [done|]. eapply adds_ext; [|by eapply adds_trans]. intros b. cbv beta.
    destruct (Z.leb_spec (i + 1) b), (Z.ltb_spec b (i + 1 + Z.of_nat n)), (Z.eqb_spec b i),
      (Z.leb_spec i b), (Z.ltb_spec b (i + Z.of_nat (S n))); done || lia.
  - exists (- ENOMEM), c1, m1. split; [done|]. split; [done|]. by right.
Qed.

Lemma cat_at p i :
  mls_names p -> 0 <= i < ncats p ->
  cat_name (name_at p SYM_CATS i) = true /\
  exists d, hashtab_search (st_table (p_cats p)) (name_at p SYM_CATS i) = Some (Some d) /\ cat_value d = i + 1.
Proof.
  intros Hn Hi. destruct (mn_cat p Hn (i + 1) ltac:(lia)) as (nm & d & Hnm & Hs & Hv & Hname).
  replace (i + 1 - 1) with i in Hnm by lia. unfold name_at. rewrite Hnm. split; [done|]. by exists d.
Qed.

Lemma tok_split p tok :
  mls_names p -> tok_ok p tok ->
  split_range (tok_text p tok) = (name_at p SYM_CATS tok.1, name_at p SYM_CATS <$> tok.2).
Proof.
  intros Hn Ht. unfold split_range. destruct tok as [h [q|]]; cbn [tok_text tok_ok fst snd] in *.
  - destruct (cat_at p h Hn ltac:(lia)) as [Hname _].
    rewrite (scan_stop is_dot (name_at p SYM_CATS h) ("." ++ name_at p SYM_CATS q)%string).
    + done.
    + eapply str_all_impl; [|exact Hname]. intros c. cbn. chars.
    + done.
  - destruct (cat_at p h Hn Ht) as [Hname _]. by rewrite (cat_name_split _ Hname).
Qed.

Lemma tok_text_token p tok :
  mls_names p -> tok_ok p tok -> str_all (fun c => negb (is_nul c || (is_comma c || is_dash c))) (tok_text p tok) = true.
Proof.
  intros Hn Ht. destruct tok as [h [q|]]; cbn [tok_text tok_ok] in *.
  - destruct (cat_at p h Hn ltac:(lia)) as [H1 _], (cat_at p q Hn ltac:(lia)) as [H2 _].
    rewrite !str_all_app, (cat_name_token _ H1), (cat_name_token _ H2). done.
  - destruct (cat_at p h Hn Ht) as [H1 _]. by apply cat_name_token.
Qed.

Lemma add_category_spec p tok cat m :
  mls_names p -> tok_ok p tok -> ebitmap_canon cat ->
  exists rc cat' m', add_category p (tok_text p tok) cat m = Some (rc, cat', m') /\ adds (in_tok tok) cat rc cat'.
Proof.
  intros Hn Ht Hc. pose proof (mn_ncats p Hn) as Hnc. rewrite EBITMAP_SIZE_val in Hnc.
  unfold add_category. rewrite tok_split by done. destruct tok as [h o]. cbn [fst snd].
  assert (0 <= h < ncats p) as Hh by (destruct o; cbn in Ht; lia).
  destruct (cat_at p h Hn Hh) as [_ (d & Hd & Hv)]. rewrite (bind_step _ _ _ Hd), Hv.
  replace (h + 1 - 1) with h by lia. rewrite u32_small by lia.
  destruct (adds_bit cat h m Hc ltac:(lia)) as (rc & c1 & m1 & H1 & Ha). rewrite (bind_step _ _ _ H1).
  pose proof Ha as [Hc1 [[-> Hb1]| ->]]; [change (nz 0) with false; cbv iota|by eexists _, _, _; split; [done|]; split; [|right]].
  destruct o as [q|]; cbn [fmap option_fmap option_map].
  - cbn in Ht. destruct (cat_at p q Hn ltac:(lia)) as [_ (d2 & Hd2 & Hv2)]. rewrite (bind_step _ _ _ Hd2), Hv2.
    destruct (Z.leb_spec (q + 1) (h + 1)); [lia|].
    destruct (set_cat_range_spec (Z.to_nat (q + 1 - (h + 1))) (h + 1) c1 m1 Hc1 ltac:(lia) ltac:(lia)) as (rc2 & c2 & m2 & H2 & Ha2).
    exists rc2, c2, m2. split; [done|]. eapply adds_ext; [|by eapply adds_trans]. intros b. cbn [in_tok].
    destruct (Z.leb_spec (h + 1) b), (Z.ltb_spec b (h + 1 + Z.of_nat (Z.to_nat (q + 1 - (h + 1))))), (Z.eqb_spec b h),
      (Z.leb_spec h b), (Z.leb_spec b q); done || lia.
  - exists 0, c1, m1. split; [done|]. exact Ha.
Qed.

Definition in_toks (toks : list (Z * option Z)) (b : Z) : bool := existsb (fun tok => in_tok tok b) toks.

Lemma stops_comma_app x : stops (fun c => is_comma c || is_dash c) ("," ++ x)%string = true.
Proof. done. Qed.

(** The loop over the items, up to a delimiter or the end of the text. *)
Lemma parse_cats_spec p toks rest fuel cat m :
  mls_names p -> toks <> [] -> Forall (tok_ok p) toks -> ebitmap_canon cat ->
  stops is_dash rest = true -> (String.length (join_toks p toks ++ rest) < fuel)%nat ->
  exists rc cat' delim p' m', parse_cats fuel p (join_toks p toks ++ rest)%string cat m = Some (rc, cat', delim, p', m') /\
    adds (in_toks toks) cat rc cat' /\ (rc = 0 -> (delim, p') = take_delim rest).
Proof.
  intros Hn. revert fuel cat m. induction toks as [|t toks IH]; intros fuel cat m Hne HF Hc Hrest Hfuel; [done|].
  apply Forall_cons in HF as [Ht HF]. destruct fuel as [|fuel]; [lia|]. cbn [parse_cats].
  assert (exists tail, (join_toks p (t :: toks) ++ rest = tok_text p t ++ tail)%string /\
            ((toks = [] /\ tail = rest) \/ (toks <> [] /\ tail = "," ++ join_toks p toks ++ rest)%string)) as (tail & Etext & Htail).
  { destruct toks as [|t' toks].
    - exists rest. split; [done|]. by left.
    - exists ("," ++ join_toks p (t' :: toks) ++ rest)%string. split; [|by right].
      change (join_toks p (t :: t' :: toks)) with (tok_text p t ++ "," ++ join_toks p (t' :: toks))%string.
      by rewrite !string_app_assoc. }
  rewrite Etext in Hfuel |- *. rewrite scan_stop.
  2: { by apply tok_text_token. }
  2: { destruct Htail as [[_ ->]|[_ ->]]; [|done]. destruct rest as [|c rest]; [done|]. cbn in *.
       destruct (is_nul c), (is_dash c), (is_comma c); done. }
  destruct (take_delim tail) as [delim p1] eqn:Edel.
  destruct (add_category_spec p t cat m Hn Ht Hc) as (rc & c1 & m1 & H1 & Ha). rewrite (bind_step _ _ _ H1).
  pose proof Ha as [Hc1 [[-> Hb1]| ->]].
  2: { change (nz (- ENOMEM)) with true. cbv iota. do 5 eexists. split; [done|]. split; [split; [done|by right]|done]. }
  change (nz 0) with false. cbv iota. destruct Htail as [[-> ->]|[Htoks ->]].
  - assert (delim_is is_comma delim = false) as ->.
    { destruct rest as [|c rest]; cbn in Edel; [by injection Edel as <- <-|].
      destruct (is_nul c) eqn:En; [by injection Edel as <- <-|]. injection Edel as <- <-. cbn in *. rewrite En in Hrest. cbn in Hrest.
      unfold is_dash, is_comma, is_char in *. apply Nat.eqb_eq in Hrest. by rewrite Hrest. }
    do 5 eexists. split; [done|]. split; [|done]. eapply adds_ext; [|exact Ha]. intros b. cbn. by rewrite orb_false_r.
  - injection Edel as <- <-. cbn [delim_is]. change (is_comma ",") with true. cbv iota.
    destruct (IH fuel c1 m1 Htoks HF Hc1 Hrest) as (rc2 & c2 & d2 & p2 & m2 & H2 & Ha2 & Hd2).
    { rewrite !string_length_app in Hfuel. change (String.length ",") with 1%nat in Hfuel. rewrite string_length_app. lia. }
    do 5 eexists. split; [exact H2|]. split; [|done]. eapply adds_ext; [|by eapply adds_trans].
    intros b. cbn. apply orb_comm.
Qed.

(** The items of a run of bits are those bits. *)
Lemma run_toks_bits head prev b :
  head <= prev -> in_toks (run_toks head prev) b = (head <=? b) && (b <=? prev).
Proof.
  intros H. unfold run_toks. destruct (Z.eqb_spec prev head) as [E|E]; [|destruct (Z.ltb_spec 1 (prev - head))]; cbn;
    rewrite ?orb_false_r;
    destruct (Z.leb_spec head b), (Z.leb_spec b prev), (Z.eqb_spec b head), (Z.eqb_spec b prev); done || lia.
Qed.

Lemma cat_toks_bits head prev bits b :
  head <= prev -> StronglySorted Z.lt (prev :: bits) ->
  in_toks (cat_toks head prev bits) b = ((head <=? b) && (b <=? prev)) || bool_decide (b ∈ bits).
Proof.
  revert head prev. induction bits as [|i bits IH]; intros head prev Hle Hs; cbn [cat_toks].
  { rewrite run_toks_bits by done. rewrite bool_decide_false by apply not_elem_of_nil. by rewrite orb_false_r. }
  apply StronglySorted_cons in Hs as [Hi Hs]. apply Forall_cons in Hi as [Hi _].
  assert (bool_decide (b ∈ i :: bits) = (b =? i) || bool_decide (b ∈ bits)) as ->.
  { rewrite (bool_decide_ext _ (b = i \/ b ∈ bits)) by apply elem_of_cons.
    destruct (Z.eqb_spec b i), (bool_decide_reflect (b ∈ bits)); apply bool_decide_eq_true || apply bool_decide_eq_false; tauto. }
  destruct (Z.ltb_spec 1 (i - prev)) as [Hgap|Hgap].
  - unfold in_toks. rewrite existsb_app. fold (in_toks (run_toks head prev) b). fold (in_toks (cat_toks i i bits) b).
    rewrite run_toks_bits, IH by (done || lia). f_equal. f_equal.
    destruct (Z.leb_spec i b), (Z.leb_spec b i), (Z.eqb_spec b i); done || lia.
  - rewrite IH by (done || lia). rewrite orb_assoc. f_equal.
    destruct (Z.leb_spec head b), (Z.leb_spec b i), (Z.leb_spec b prev), (Z.eqb_spec b i); done || lia.
Qed.

Lemma cat_toks_ok p head prev bits :
  0 <= head <= prev -> prev < ncats p -> Forall (fun b => 0 <= b < ncats p) bits -> StronglySorted Z.lt (prev :: bits) ->
  Forall (tok_ok p) (cat_toks head prev bits).
Proof.
  assert (forall head prev, 0 <= head <= prev -> prev < ncats p -> Forall (tok_ok p) (run_toks head prev)) as Hrun.
  { intros h q H1 H2. unfold run_toks. destruct (Z.eqb_spec q h) as [->|]; [|destruct (Z.ltb_spec 1 (q - h))];
      repeat constructor; cbn; lia. }
  revert head prev. induction bits as [|i bits IH]; intros head prev Hh Hp HF Hs; cbn [cat_toks]; [by apply Hrun|].
  apply StronglySorted_cons in Hs as [Hi Hs]. apply Forall_cons in Hi as [Hi _]. apply Forall_cons in HF as [Hi0 HF].
  destruct (1 <? i - prev); [apply Forall_app; split; [by apply Hrun|apply IH; (done || lia)]|apply IH; (done || lia)].
Qed.

(** ** Reading levels and ranges *)

(** The outcome of reading a value: it, or out of memory. *)
Definition reads {A} (x : A) (rc : Z) (y : A) : Prop := (rc = 0 /\ y = x) \/ rc = - ENOMEM.

Lemma dash_not_colon tail : stops is_dash tail = true -> delim_is is_colon (take_delim tail).1 = false.
Proof.
  destruct tail as [|c tail]; [done|]. cbn. destruct (is_nul c); [done|]. cbn. unfold is_dash, is_colon, is_char.
  intros H. apply Nat.eqb_eq in H. by rewrite H.
Qed.

Lemma parse_level_spec p l tail lev m :
  mls_names p -> level_ok p l -> ml_cat lev = ebitmap_init -> stops is_dash tail = true ->
  let '(delim, q) := take_delim (cats_text p (ebitmap_bits (ml_cat l)) ++ tail)%string in
  exists rc lev' delim' q' m',
    parse_level p (name_at p SYM_LEVELS (ml_sens l - 1)) delim q lev m = Some (rc, lev', delim', q', m') /\
    reads (l, take_delim tail) rc (lev', (delim', q')).
Proof.
  intros Hn [Hs Hc Hb] Hlev Htail. destruct (mn_sens p Hn (ml_sens l) Hs) as (nm & d & Hnm & Hsearch & Hd & _).
  assert (name_at p SYM_LEVELS (ml_sens l - 1) = nm) as -> by (unfold name_at; by rewrite Hnm).
  destruct (bits_spec (ml_cat l) (canon_wf _ Hc)) as [Hsort Hmem].
  assert (forall cat, ebitmap_canon cat -> (forall b, ebit cat b = ebit (ml_cat l) b) -> mk_mls_level (ml_sens (l_level d)) cat = l) as Heq.
  { intros cat Hcat Hbits. rewrite Hd. destruct l as [s c]. cbn in *. f_equal. by apply canon_ext. }
  assert (Forall (fun b => 0 <= b < ncats p) (ebitmap_bits (ml_cat l))) as HF.
  { apply Forall_forall. intros b Hin. apply Hb. by apply Hmem. }
  destruct (ebitmap_bits (ml_cat l)) as [|b0 bits]; cbn [cats_text].
  - rewrite append_nil_l. pose proof (dash_not_colon _ Htail) as Hdc. destruct (take_delim tail) as [delim q].
    unfold parse_level. rewrite (bind_step _ _ _ Hsearch). cbn [fst] in Hdc. rewrite Hdc.
    do 5 eexists. split; [done|]. left. split; [done|]. f_equal. rewrite Hlev. apply Heq; [apply ebitmap_init_canon|].
    intros b. rewrite ebit_init. symmetry. apply not_true_is_false. intros H. apply Hmem in H. by apply elem_of_nil in H.
  - rewrite string_app_assoc. change (take_delim (":" ++ ?x)%string) with (Some ":"%char, x). cbv beta iota.
    apply Forall_cons in HF as [Hb0 HF]. unfold parse_level. rewrite (bind_step _ _ _ Hsearch). cbn [delim_is].
    change (is_colon ":") with true. cbv iota. rewrite Hlev.
    destruct (parse_cats_spec p (cat_toks b0 b0 bits) tail (S (String.length (join_toks p (cat_toks b0 b0 bits) ++ tail))) ebitmap_init m)
      as (rc & cat & delim & q & m' & Hpc & Ha & Hdel);
      [done|apply cat_toks_ne|apply cat_toks_ok; (done || lia)|apply ebitmap_init_canon|done|lia|].
    rewrite (bind_step _ _ _ Hpc). do 5 eexists. split; [done|].
    destruct Ha as [Hcan [[-> Hbits]| ->]]; [left|by right]. split; [done|]. f_equal; [|by apply Hdel].
    apply Heq; [done|]. intros b. rewrite Hbits, ebit_init, orb_false_r, cat_toks_bits by (done || lia).
    apply eq_true_iff_eq. rewrite <- Hmem, orb_true_iff, andb_true_iff, !Z.leb_le, bool_decide_eq_true, elem_of_cons. split; [intros [?|?]; [left; lia|by right]|intros [->|?]; [left; lia|by right]].
Qed.

Lemma sens_name_at p v : mls_names p -> 0 < v <= nlevels p -> sens_name (name_at p SYM_LEVELS (v - 1)) = true.
Proof.
  intros Hn Hv. destruct (mn_sens p Hn v Hv) as (nm & d & Hnm & _ & _ & Hs). unfold name_at. by rewrite Hnm.
Qed.

Lemma cats_text_stops p bits tail :
  stops is_dash tail = true -> stops (fun c => is_colon c || is_dash c) (cats_text p bits ++ tail)%string = true.
Proof.
  intros H. destruct bits as [|b bits]; cbn [cats_text]; [|done]. rewrite append_nil_l.
  destruct tail as [|c tail]; [done|]. cbn in *. destruct (is_nul c), (is_dash c), (is_colon c); done.
Qed.

(** Reading the text of a range, into a range that is still empty. *)
Lemma parse_range_spec p r m :
  mls_names p -> level_ok p (mr_low r) -> level_ok p (mr_high r) ->
  exists rc r' moved m', parse_range p (range_text p r) mls_range_zero m = Some (rc, r', moved, m') /\
    reads (r, strlen (range_text p r) + 1) rc (r', moved).
Proof.
  intros Hn H0 H1. unfold parse_range.
  pose proof (sens_name_at p _ Hn (lo_sens _ _ H0)) as Hs0. pose proof (sens_name_at p _ Hn (lo_sens _ _ H1)) as Hs1.
  set (tail := if mls_level_eq (mr_low r) (mr_high r) then EmptyString else ("-" ++ level_text p (mr_high r))%string).
  assert (range_text p r = name_at p SYM_LEVELS (ml_sens (mr_low r) - 1) ++ (cats_text p (ebitmap_bits (ml_cat (mr_low r))) ++ tail))%string as E.
  { unfold range_text, tail, level_text. destruct (mls_level_eq _ _); [by rewrite string_app_nil|by rewrite !string_app_assoc]. }
  assert (stops is_dash tail = true) as Htail by (unfold tail; by destruct (mls_level_eq _ _)).
  assert (scan (fun c => is_colon c || is_dash c) (range_text p r) =
            (name_at p SYM_LEVELS (ml_sens (mr_low r) - 1), cats_text p (ebitmap_bits (ml_cat (mr_low r))) ++ tail)%string) as Hscan.
  { rewrite E. apply scan_stop; [done|by apply cats_text_stops]. }
  rewrite Hscan. clear Hscan.
  pose proof (parse_level_spec p (mr_low r) tail mls_level_zero m Hn H0 eq_refl Htail) as Hp.
  destruct (take_delim _) as [delim q]. destruct Hp as (rc & lev0 & d1 & q1 & m1 & Hp & Hr).
  change (mr_low mls_range_zero) with mls_level_zero. rewrite (bind_step _ _ _ Hp).
  destruct Hr as [[-> Hr]| ->]; [injection Hr as -> Hd1|by do 4 eexists; split; [done|right]].
  change (nz 0) with false. cbv iota. unfold tail in Hd1.
  destruct (mls_level_eq (mr_low r) (mr_high r)) eqn:Heq; cbn in Hd1; injection Hd1 as -> ->.
  - cbn [delim_is]. apply level_eq_spec in Heq.
    destruct (ebitmap_cpy_spec (ml_cat (mr_low r)) m1) as [[m2 ->]|[m2 ->]]; cbn [fst snd];
      [change (nz 0) with false|change (nz (- ENOMEM)) with true]; cbv iota; do 4 eexists; (split; [done|]); [left|by right].
    split; [done|]. f_equal; [|change (strlen EmptyString) with 0; lia].
    destruct r as [[s0 c0] [s1 c1]]. cbn in *. by injection Heq as -> ->.
  - cbn [delim_is]. change (is_dash "-") with true. cbv iota.
    rewrite append_nil_l. unfold level_text. rewrite <- (string_app_nil (cats_text p (ebitmap_bits (ml_cat (mr_high r))))).
    rewrite scan_stop.
    2: { eapply str_all_impl; [|exact Hs1]. intros c. cbn. chars. }
    2: { destruct (ebitmap_bits (ml_cat (mr_high r))); done. }
    pose proof (parse_level_spec p (mr_high r) EmptyString mls_level_zero m1 Hn H1 eq_refl eq_refl) as Hp1.
    destruct (take_delim _) as [delim2 q2]. destruct Hp1 as (rc & lev1 & d3 & q3 & m3 & Hp1 & Hr).
    cbn [mr_high mls_range_zero]. rewrite (bind_step _ _ _ Hp1).
    destruct Hr as [[-> Hr]| ->]; [injection Hr as -> -> ->|by do 4 eexists; split; [done|right]].
    change (nz 0) with false. cbv iota. cbn [delim_is]. do 4 eexists. split; [done|]. left. split; [done|].
    f_equal; [by destruct r|]. change (strlen EmptyString) with 0. lia.
Qed.

(** Reading the text of a range into a context without one. *)
Lemma mls_read_text p c r s d m :
  mls_names p -> mls_enabled p = true -> level_ok p (mr_low r) -> level_ok p (mr_high r) -> c_range c = mls_range_zero ->
  exists rc c' moved m', mls_context_to_sid p true (range_text p r) c s d m = Some (rc, c', moved, m') /\
    reads (set_c_range c r, strlen (range_text p r) + 1) rc (c', moved).
Proof.
  intros Hn He H0 H1 Hz. destruct (parse_range_spec p r m Hn H0 H1) as (rc & r' & moved & m' & Hp & Hr).
  exists rc, (set_c_range c r'), moved, m'. split.
  - unfold mls_context_to_sid. rewrite He, Hz. cbn [negb]. by rewrite (bind_step _ _ _ Hp).
  - destruct Hr as [[-> Hr]| ->]; [left|by right]. by injection Hr as -> ->.
Qed.

(** *** With memory *)

Lemma cat_range_memory n i cat rc cat' m' : set_cat_range n i cat [] = Some (rc, cat', m') -> rc <> - ENOMEM /\ m' = [].
Proof.
  revert i cat. induction n as [|n IH]; intros i cat; cbn [set_cat_range]; [by intros [= <- _ <-]|].
  intros ([[rc1 c1] m1] & E & H)%bind_Some. apply set_bit_memory in E as [-> ->]. cbn [nz Z.eqb negb] in H. by eapply IH.
Qed.

Lemma add_category_memory p tok cat rc cat' m' : add_category p tok cat [] = Some (rc, cat', m') -> rc <> - ENOMEM /\ m' = [].
Proof.
  unfold add_category. destruct (split_range tok) as [name rng]. intros ([d|] & _ & H)%bind_Some; [|by injection H as <- _ <-].
  apply bind_Some in H as ([[rc1 c1] m1] & E & H). apply set_bit_memory in E as [-> ->]. change (nz 0) with false in H. cbv iota in H.
  destruct rng as [rng|]; [|by injection H as <- _ <-]. apply bind_Some in H as ([d'|] & _ & H); [|by injection H as <- _ <-].
  destruct (_ <=? _); [by injection H as <- _ <-|by eapply cat_range_memory].
Qed.

Lemma parse_cats_memory fuel p text cat rc cat' delim q m' :
  parse_cats fuel p text cat [] = Some (rc, cat', delim, q, m') -> rc <> - ENOMEM /\ m' = [].
Proof.
  revert text cat. induction fuel as [|fuel IH]; intros text cat; cbn [parse_cats]; [done|].
  destruct (scan _ text) as [tok rest]. destruct (take_delim rest) as [d q1].
  intros ([[rc1 c1] m1] & E & H)%bind_Some. apply add_category_memory in E as [Hr ->]. destruct (nz rc1); [by injection H as <- _ _ _ <-|].
  destruct (delim_is is_comma d); [by eapply IH|by injection H as <- _ _ _ <-].
Qed.

Lemma parse_level_memory p tok delim text lev rc lev' delim' q m' :
  parse_level p tok delim text lev [] = Some (rc, lev', delim', q, m') -> rc <> - ENOMEM /\ m' = [].
Proof.
  unfold parse_level. intros ([d|] & _ & H)%bind_Some; [|by injection H as <- _ _ _ <-].
  destruct (delim_is is_colon delim); [|by injection H as <- _ _ _ <-].
  apply bind_Some in H as ([[[[rc1 c1] d1] q1] m1] & E & H). injection H as <- _ _ _ <-. by eapply parse_cats_memory.
Qed.

Lemma parse_range_memory p text r rc r' moved m' :
  parse_range p text r [] = Some (rc, r', moved, m') -> rc <> - ENOMEM /\ m' = [].
Proof.
  unfold parse_range. destruct (scan _ text) as [tok rest]. destruct (take_delim rest) as [d q].
  intros ([[[[rc1 l1] d1] q1] m1] & E & H)%bind_Some. apply parse_level_memory in E as [Hr ->]. destruct (nz rc1); [by injection H as <- _ _ <-|].
  destruct (delim_is is_dash d1).
  - destruct (scan is_colon q1) as [tok2 rest2]. destruct (take_delim rest2) as [d2 q2].
    apply bind_Some in H as ([[[[rc2 l2] d3] q3] m2] & E & H). apply parse_level_memory in E as [Hr2 ->].
    destruct (nz rc2); by injection H as <- _ _ <-.
  - rewrite ebitmap_cpy_ok in H. by injection H as <- _ _ <-.
Qed.

Lemma mls_to_sid_memory p oldc text c s d rc c' moved m' :
  mls_context_to_sid p oldc text c s d [] = Some (rc, c', moved, m') -> rc <> - ENOMEM /\ m' = [].
Proof.
  unfold mls_context_to_sid. destruct (negb (mls_enabled p)); [by intros [= <- _ _ <-]|]. destruct (negb oldc).
  - destruct (_ =? _); [by intros [= <- _ _ <-]|]. destruct (sidtab_search s d) as [dc|]; [|by intros [= <- _ _ <-]].
    unfold mls_context_cpy. rewrite mls_levels_cpy_ok. by intros [= <- _ _ <-].
  - intros ([[[rc1 r] mv] m1] & E & [= <- _ _ <-])%bind_Some. by eapply parse_range_memory.
Qed.

(** ** Properties *)

(** [mls_compute_context_len], by which callers size their buffers, and
    [mls_sid_to_context], which fills them, agree for every context: both
    fault or none does, and the length is that of the text (as a C [int]). *)
Theorem mls_len_is_text_len p c :
  mls_compute_context_len p c = (fun text => s32 (strlen text)) <$> mls_sid_to_context p c.
Proof. apply mls_len_print. Qed.

(** C28: parsing undoes printing.  With a policy whose names can be told apart,
    the range of a context is printed without a fault, and parsing the text
    behind the ':' gives the same range and consumes all of it, unless memory
    runs out ([-ENOMEM]). *)
Theorem mls_text_roundtrip p c m :
  mls_names p -> mls_enabled p = true -> level_ok p (mr_low (c_range c)) -> level_ok p (mr_high (c_range c)) ->
  exists text rc c' moved m',
    mls_sid_to_context p c = Some (":" ++ text)%string /\
    mls_context_to_sid p true text (set_c_range c mls_range_zero) None SECSID_NULL m = Some (rc, c', moved, m') /\
    ((rc = 0 /\ c' = c /\ moved = strlen text + 1) \/ rc = - ENOMEM).
Proof.
  intros Hn He H0 H1.
  destruct (mls_read_text p (set_c_range c mls_range_zero) (c_range c) None SECSID_NULL m Hn He H0 H1 eq_refl) as (rc & c' & moved & m' & Hp & Hr).
  exists (range_text p (c_range c)), rc, c', moved, m'. split; [by apply mls_print_text|]. split; [done|].
  destruct Hr as [[-> Hr]| ->]; [left|by right]. injection Hr as -> ->. split; [done|]. by destruct c.
Qed.

Lemma sample_names : mls_names sample.
Proof.
  assert (nlevels sample = 2) as El by (vm_compute; reflexivity).
  assert (ncats sample = 5) as Ec by (vm_compute; reflexivity).
  split.
  - rewrite El. intros v Hv. assert (v = 1 \/ v = 2) as [-> | ->] by lia; do 2 eexists;
      (split; [vm_compute; reflexivity|split; [vm_compute; reflexivity|split; vm_compute; reflexivity]]).
  - rewrite Ec. intros v Hv. assert (v = 1 \/ v = 2 \/ v = 3 \/ v = 4 \/ v = 5) as [->|[->|[->|[-> | ->]]]] by lia; do 2 eexists;
      (split; [vm_compute; reflexivity|split; [vm_compute; reflexivity|split; vm_compute; reflexivity]]).
  - rewrite El. lia.
  - rewrite Ec, EBITMAP_SIZE_val. lia.
Qed.

Lemma sample_level_ok s l :
  0 < s <= 2 -> Forall (fun b => 0 <= b < 5) l -> level_ok sample (level s l).
Proof.
  intros Hs HF. destruct (bitmap_of_canon l) as [Hc Hb]; [eapply Forall_impl; [done|]; cbn; lia|].
  assert (nlevels sample = 2) as El by (vm_compute; reflexivity).
  assert (ncats sample = 5) as Ec by (vm_compute; reflexivity).
  split; [rewrite El; done|done|]. rewrite Ec. intros b Hbit. cbn in Hbit. rewrite Hb in Hbit. apply bool_decide_eq_true in Hbit.
  rewrite Forall_forall in HF. by apply HF.
Qed.

Lemma mls_text_roundtrip_witness :
  exists text, mls_sid_to_context sample user_ctx = Some (":" ++ text)%string /\ text = "s0-s1:c0.c2,c4"%string.
Proof.
  destruct (mls_text_roundtrip sample user_ctx []) as (text & rc & c' & moved & m' & H & _).
  - exact sample_names.
  - reflexivity.
  - apply sample_level_ok; [lia|constructor].
  - apply sample_level_ok; [lia|repeat constructor; lia].
  - exists text. split; [exact H|]. vm_compute in H. injection H as <-. reflexivity.
Defined.
