(* ===== verification/Conditional.v ===== *)
(** * Conditional rules (security/selinux/ss/conditional.c, conditional.h)

    The evaluation of the boolean expressions, the switching of the rules they
    control, and the contribution of the enabled rules to a decision.  The
    rules of a conditional are nodes of [te_cond_avtab] that are changed
    through pointers: [cd_true_list] and [cd_false_list] hold the identities
    of the nodes, [avtab_specify] is the write through such a pointer. *)

From S2P Require Import Prelude Avtab Policydb.

(** ** Data *)

Definition COND_EXPR_MAXDEPTH : Z := 10.
Definition COND_BOOL : Z := 1.
Definition COND_NOT : Z := 2.
Definition COND_OR : Z := 3.
Definition COND_AND : Z := 4.
Definition COND_XOR : Z := 5.
Definition COND_EQ : Z := 6.
Definition COND_NEQ : Z := 7.
Definition COND_LAST : Z := COND_NEQ.

(** security.h: the part of a decision computed here and in services.c. *)
Record av_decision := mk_av_decision {
  allowed : Z;
  auditallow : Z;
  auditdeny : Z;
  seqno : Z;
  flags : Z
}.

Definition set_allowed (avd : av_decision) (v : Z) : av_decision :=
  mk_av_decision v (auditallow avd) (auditdeny avd) (seqno avd) (flags avd).
Definition set_auditallow (avd : av_decision) (v : Z) : av_decision :=
  mk_av_decision (allowed avd) v (auditdeny avd) (seqno avd) (flags avd).
Definition set_auditdeny (avd : av_decision) (v : Z) : av_decision :=
  mk_av_decision (allowed avd) (auditallow avd) v (seqno avd) (flags avd).
Definition set_flags (avd : av_decision) (v : Z) : av_decision :=
  mk_av_decision (allowed avd) (auditallow avd) (auditdeny avd) (seqno avd) v.

(** ** Operations *)

(** [p->bool_val_to_struct[bool - 1]->state]; the index is unsigned. *)
Definition bool_state (p : policydb) (b : Z) : option Z :=
  loc ← index_deref (bool_val_to_struct p) (u32 (b - 1));
  d ← bool_store p !! loc;
  Some (cb_state d).

(** One operator.  The stack [s[0..sp]] is a list with its top first.  Inner
    [None]: the expression is undefined and the function returns [-1]. *)
Definition cond_step (p : policydb) (cur : cond_expr) (s : list Z) : option (option (list Z)) :=
  let binary (f : Z -> Z -> Z) :=
    match s with
    | y :: x :: s' => Some (Some (f x y :: s'))
    | _ => Some None
    end in
  let t := cx_expr_type cur in
  if t =? COND_BOOL then
    if Z.of_nat (length s) - 1 =? COND_EXPR_MAXDEPTH - 1 then Some None
    else
      st ← bool_state p (cx_bool cur);
      Some (Some (st :: s))
  else if t =? COND_NOT then
    match s with
    | x :: s' => Some (Some (b2i (x =? 0) :: s'))
    | [] => Some None
    end
  else if t =? COND_OR then binary Z.lor
  else if t =? COND_AND then binary Z.land
  else if t =? COND_XOR then binary Z.lxor
  else if t =? COND_EQ then binary (fun x y => b2i (x =? y))
  else if t =? COND_NEQ then binary (fun x y => b2i (negb (x =? y)))
  else Some None.

Fixpoint cond_eval_loop (p : policydb) (expr : list cond_expr) (s : list Z) : option (option (list Z)) :=
  match expr with
  | [] => Some (Some s)
  | cur :: next =>
      r ← cond_step p cur s;
      match r with
      | None => Some None
      | Some s => cond_eval_loop p next s
      end
  end.

(** [return s[0]]: the bottom of the stack, which is unspecified ([None]) when
    nothing was ever pushed. *)
Definition cond_evaluate_expr (p : policydb) (expr : list cond_expr) : option Z :=
  r ← cond_eval_loop p expr [];
  match r with
  | None => Some (-1)
  | Some s => last s
  end.

(** [cur->node->key.specified &= ~AVTAB_ENABLED] or [|= AVTAB_ENABLED] along a list. *)
Fixpoint switch_rules (on : bool) (l : list nat) (h : avtab) : avtab :=
  match l with
  | [] => h
  | id :: l' =>
      switch_rules on l'
        (avtab_specify h id (fun s => if on then s .| AVTAB_ENABLED else s .& not32 AVTAB_ENABLED))
  end.

(** The assignment and the loops of [evaluate_cond_node]; result: the table
    and the node. *)
Definition evaluate_cond_node (p : policydb) (node : cond_node) : option (policydb * cond_node) :=
  new_state ← cond_evaluate_expr p (cd_expr node);
  if negb (new_state =? cd_cur_state node) then
    let h := te_cond_avtab p in
    let h := switch_rules (0 <? new_state) (cd_true_list node) h in
    let h := switch_rules (new_state =? 0) (cd_false_list node) h in
    Some (set_te_cond_avtab p h, mk_cond_node new_state (cd_expr node) (cd_true_list node) (cd_false_list node))
  else Some (p, node).

(** [for (cur = policydb.cond_list; cur; cur = cur->next) evaluate_cond_node(...)] *)
Fixpoint evaluate_cond_list (p : policydb) (l : list cond_node) : option (policydb * list cond_node) :=
  match l with
  | [] => Some (p, [])
  | node :: next =>
      '(p, node) ← evaluate_cond_node p node;
      '(p, next) ← evaluate_cond_list p next;
      Some (p, node :: next)
  end.

(** The body of the loop of [cond_compute_av]. *)
Definition cond_add_node (avd : av_decision) (node : avtab_node) : av_decision :=
  let enabled what :=
    u16 (what .| AVTAB_ENABLED) =? ak_specified (an_key node) .& (what .| AVTAB_ENABLED) in
  let avd := if enabled AVTAB_ALLOWED then set_allowed avd (allowed avd .| an_datum node) else avd in
  let avd := if enabled AVTAB_AUDITDENY then set_auditdeny avd (auditdeny avd .& an_datum node) else avd in
  if enabled AVTAB_AUDITALLOW then set_auditallow avd (auditallow avd .| an_datum node) else avd.

Definition cond_compute_av (ctab : avtab) (key : avtab_key) (avd : av_decision) : option av_decision :=
  nodes ← avtab_for_each ctab key;
  Some (fold_left cond_add_node nodes avd).

(** ** Expressions

    The policy compiler writes an expression in postfix order; [compile] is
    that order, [denote] the value of the expression, [height] the room its
    evaluation needs on the stack. *)

Inductive cond_op := OpOr | OpAnd | OpXor | OpEq | OpNeq.

Inductive cexp :=
| CBool (b : Z)
| CNot (e : cexp)
| CBin (op : cond_op) (x y : cexp).

Definition op_code (op : cond_op) : Z :=
  match op with OpOr => COND_OR | OpAnd => COND_AND | OpXor => COND_XOR | OpEq => COND_EQ | OpNeq => COND_NEQ end.

Definition op_value (op : cond_op) (x y : Z) : Z :=
  match op with
  | OpOr => x .| y
  | OpAnd => x .& y
  | OpXor => x .^ y
  | OpEq => b2i (x =? y)
  | OpNeq => b2i (negb (x =? y))
  end.

Fixpoint compile (e : cexp) : list cond_expr :=
  match e with
  | CBool b => [mk_cond_expr COND_BOOL b]
  | CNot e => compile e ++ [mk_cond_expr COND_NOT 0]
  | CBin op x y => compile x ++ compile y ++ [mk_cond_expr (op_code op) 0]
  end.

Fixpoint denote (p : policydb) (e : cexp) : Z :=
  match e with
  | CBool b => default 0 (bool_state p b)
  | CNot e => b2i (denote p e =? 0)
  | CBin op x y => op_value op (denote p x) (denote p y)
  end.

Fixpoint height (e : cexp) : nat :=
  match e with
  | CBool _ => 1
  | CNot e => height e
  | CBin _ x y => height x `max` S (height y)
  end.

(** The booleans of an expression exist. *)
Fixpoint bools_ok (p : policydb) (e : cexp) : Prop :=
  match e with
  | CBool b => is_Some (bool_state p b)
  | CNot e => bools_ok p e
  | CBin _ x y => bools_ok p x /\ bools_ok p y
  end.

Lemma cond_loop_app p l1 l2 s :
  cond_eval_loop p (l1 ++ l2) s =
    (r ← cond_eval_loop p l1 s;
     match r with None => Some None | Some s => cond_eval_loop p l2 s end).
Proof.
  revert s. induction l1 as [|c l1 IH]; intros s; cbn [app cond_eval_loop]; [done|].
  destruct (cond_step p c s) as [[s'|]|]; cbn [mbind option_bind]; [apply IH|done|done].
Qed.

Lemma height_pos e : (1 <= height e)%nat.
Proof. induction e; cbn; lia. Qed.

(** The loop either pushes the value of the expression or finds no room. *)
Lemma compile_spec p e s :
  bools_ok p e -> (length s <= Z.to_nat COND_EXPR_MAXDEPTH)%nat ->
  cond_eval_loop p (compile e) s =
    Some (if (length s + height e <=? Z.to_nat COND_EXPR_MAXDEPTH)%nat then Some (denote p e :: s) else None).
Proof.
  revert s. induction e as [b|e IH|op x IHx y IHy]; intros s Hb Hs; cbn [compile height denote bools_ok] in *.
  - destruct Hb as [v Hv]. cbn [cond_eval_loop]. unfold cond_step. cbn [cx_expr_type cx_bool].
    change (COND_BOOL =? COND_BOOL) with true. cbv iota. unfold COND_EXPR_MAXDEPTH in *. change (Z.to_nat 10) with 10%nat in *.
    rewrite Hv. destruct (Z.eqb_spec (Z.of_nat (length s) - 1) (10 - 1)), (Nat.leb_spec (length s + 1) 10); try lia; done.
  - rewrite cond_loop_app, IH by done. cbn [mbind option_bind].
    destruct (Nat.leb _ _); done.
  - destruct Hb as [Hx Hy]. rewrite cond_loop_app, IHx by done. cbn [mbind option_bind].
    pose proof (height_pos x). pose proof (height_pos y).
    destruct (Nat.leb_spec (length s + height x) (Z.to_nat COND_EXPR_MAXDEPTH)) as [Hlx|Hlx].
    2: { destruct (Nat.leb_spec (length s + (height x `max` S (height y))) (Z.to_nat COND_EXPR_MAXDEPTH)); [lia|done]. }
    rewrite cond_loop_app, IHy by (done || (cbn [length]; lia)). cbn [mbind option_bind length].
    destruct (Nat.leb_spec (S (length s) + height y) (Z.to_nat COND_EXPR_MAXDEPTH)),
      (Nat.leb_spec (length s + (height x `max` S (height y))) (Z.to_nat COND_EXPR_MAXDEPTH)); try lia; [|done].
    by destruct op.
Qed.

(** An expression that is not empty and whose booleans exist is evaluated,
    however it is made up. *)
Lemma cond_step_some p c s :
  (cx_expr_type c = COND_BOOL -> is_Some (bool_state p (cx_bool c))) ->
  exists r, cond_step p c s = Some r /\ forall s', r = Some s' -> s' <> [].
Proof.
  intros Hb. unfold cond_step.
  destruct (Z.eqb_spec (cx_expr_type c) COND_BOOL) as [E|].
  { destruct (Hb E) as [v Hv]. rewrite Hv. destruct (_ =? _); (eexists; split; [done|]); by intros s' [= <-]. }
  repeat (match goal with |- context [if ?b then _ else _] => destruct b end);
    destruct s as [|y [|x s]]; (eexists; split; [done|]); by intros ? [= <-].
Qed.

Lemma cond_loop_total p l s :
  (forall c, c ∈ l -> cx_expr_type c = COND_BOOL -> is_Some (bool_state p (cx_bool c))) ->
  s <> [] -> exists r, cond_eval_loop p l s = Some r /\ forall s', r = Some s' -> s' <> [].
Proof.
  revert s. induction l as [|c l IH]; intros s Hl Hs; cbn [cond_eval_loop].
  { eexists. split; [done|]. by intros s' [= <-]. }
  destruct (cond_step_some p c s) as ([s1|] & Hc & Hr); [apply Hl; constructor| |];
    rewrite (bind_step _ _ _ Hc); [|by eexists].
  apply IH; [|by apply Hr]. intros c' Hc'. apply Hl. by constructor.
Qed.

Lemma cond_evaluate_total p l :
  l <> [] -> (forall c, c ∈ l -> cx_expr_type c = COND_BOOL -> is_Some (bool_state p (cx_bool c))) ->
  is_Some (cond_evaluate_expr p l).
Proof.
  intros Hne Hl. destruct l as [|c l]; [done|]. unfold cond_evaluate_expr. cbn [cond_eval_loop].
  destruct (cond_step_some p c []) as ([s1|] & Hc & Hr); [apply Hl; constructor| |];
    rewrite (bind_step _ _ _ Hc); [|by eexists].
  destruct (cond_loop_total p l s1) as ([s2|] & H2 & Hr2); [|by apply Hr| |].
  - intros c' Hc'. apply Hl. by constructor.
  - rewrite (bind_step _ _ _ H2). apply last_is_Some. by apply Hr2.
  - rewrite (bind_step _ _ _ H2). by eexists.
Qed.

(** ** Switching rules *)

Definition rule_enabled (n : avtab_node) : bool := Z.testbit (ak_specified (an_key n)) 15.

(** The node with its [AVTAB_ENABLED] bit set or cleared. *)
Definition set_enabled (on : bool) (n : avtab_node) : avtab_node :=
  mk_avtab_node (an_id n)
    (set_ak_specified (an_key n)
       (u16 (if on then ak_specified (an_key n) .| AVTAB_ENABLED else ak_specified (an_key n) .& not32 AVTAB_ENABLED)))
    (an_datum n).

Definition switch_node (on : bool) (l : list nat) (n : avtab_node) : avtab_node :=
  if decide (an_id n ∈ l) then set_enabled on n else n.

Lemma u16_spec z i : 0 <= i -> Z.testbit (u16 z) i = bool_decide (i < 16) && Z.testbit z i.
Proof.
  intros Hi. unfold u16. case_bool_decide.
  - by rewrite Z.mod_pow2_bits_low by lia.
  - rewrite Z.mod_pow2_bits_high by lia. done.
Qed.

Lemma enabled_bit i : 0 <= i -> Z.testbit AVTAB_ENABLED i = bool_decide (i = 15).
Proof.
  intros Hi. change AVTAB_ENABLED with (2 ^ 15). rewrite Z.pow2_bits_eqb by lia.
  case_bool_decide; destruct (Z.eqb_spec 15 i); lia || done.
Qed.

(** The bits of [specified] after a switch. *)
Lemma set_enabled_bit on n i : 0 <= i < 16 ->
  Z.testbit (ak_specified (an_key (set_enabled on n))) i =
    if decide (i = 15) then on else Z.testbit (ak_specified (an_key n)) i.
Proof.
  intros Hi. cbn [set_enabled an_key set_ak_specified ak_specified]. rewrite u16_spec by lia.
  rewrite bool_decide_true by lia. destruct on.
  - rewrite Z.lor_spec, enabled_bit by lia. destruct (decide (i = 15)) as [E|E];
      [rewrite (bool_decide_true (i = 15)) by done; apply orb_true_r|rewrite (bool_decide_false (i = 15)) by done; apply orb_false_r].
  - rewrite Z.land_spec, not32_spec, enabled_bit by lia. rewrite (bool_decide_true (i < 32)) by lia.
    destruct (decide (i = 15)) as [E|E];
      [rewrite (bool_decide_true (i = 15)) by done; apply andb_false_r|rewrite (bool_decide_false (i = 15)) by done; apply andb_true_r].
Qed.

Lemma set_enabled_twice on on' n : set_enabled on (set_enabled on' n) = set_enabled on n.
Proof.
  unfold set_enabled. cbn. unfold set_ak_specified at 1 3. cbn. do 2 f_equal.
  bitwise i Hi. rewrite !u16_spec by done. case_bool_decide; [|done]. cbn.
  destruct on, on'; rewrite ?Z.lor_spec, ?Z.land_spec, ?u16_spec, ?Z.lor_spec, ?Z.land_spec, ?not32_spec, !enabled_bit by lia;
    rewrite bool_decide_true by lia; try rewrite (bool_decide_true (i < 32)) by lia;
    destruct (Z.testbit _ i); case_bool_decide; done.
Qed.

Lemma specify_switch (on : bool) id n :
  node_specify id (fun s => if on then s .| AVTAB_ENABLED else s .& not32 AVTAB_ENABLED) n = switch_node on [id] n.
Proof.
  unfold node_specify, switch_node, set_enabled. case_decide; case_decide as Hin; try done.
  - by subst.
  - exfalso. apply Hin. subst. constructor.
  - apply list_elem_of_singleton in Hin. done.
Qed.

Lemma switch_node_cons on id l n : switch_node on l (switch_node on [id] n) = switch_node on (id :: l) n.
Proof.
  unfold switch_node. destruct (decide (an_id n ∈ [id])) as [H1|H1]; cbn [set_enabled an_id].
  - apply list_elem_of_singleton in H1. rewrite (decide_True (P := an_id n ∈ id :: l)) by (subst; constructor).
    case_decide; [apply set_enabled_twice|done].
  - rewrite list_elem_of_singleton in H1. case_decide as H2; case_decide as H3; try done.
    + exfalso. apply H3. by constructor.
    + apply elem_of_cons in H3 as [H3|H3]; done.
Qed.

Lemma switch_nodes on l h : avtab_nodes (switch_rules on l h) = switch_node on l <$> avtab_nodes h.
Proof.
  revert h. induction l as [|id l IH]; intros h; cbn [switch_rules].
  { symmetry. rewrite <- (list_fmap_id (avtab_nodes h)) at 2. apply list_fmap_ext. intros i n _.
    unfold switch_node. by rewrite decide_False by apply not_elem_of_nil. }
  rewrite IH, specify_nodes, <- list_fmap_compose. apply list_fmap_ext. intros i n _. cbn [compose].
  by rewrite specify_switch, switch_node_cons.
Qed.

Lemma switch_wf on l h : avtab_wf h -> avtab_wf (switch_rules on l h).
Proof. revert h. induction l as [|id l IH]; intros h Hh; cbn [switch_rules]; [done|]. apply IH. by apply specify_wf. Qed.

(** The switch of a conditional whose expression has the value [v]: true rules
    are enabled for a positive value, false rules for 0, none for -1. *)
Definition cond_switch (v : Z) (node : cond_node) (n : avtab_node) : avtab_node :=
  switch_node (v =? 0) (cd_false_list node) (switch_node (0 <? v) (cd_true_list node) n).

Lemma switch_node_id on l n : an_id (switch_node on l n) = an_id n.
Proof. unfold switch_node. by case_decide. Qed.

Lemma switch_enabled on l n : rule_enabled (switch_node on l n) = if decide (an_id n ∈ l) then on else rule_enabled n.
Proof.
  unfold switch_node. case_decide; [|done]. unfold rule_enabled. rewrite set_enabled_bit by lia. done.
Qed.

(** ** Conditionals and the state of their rules *)

Definition cond_ids (node : cond_node) : list nat := cd_true_list node ++ cd_false_list node.

(** The rules of the conditional are enabled as its [cur_state] says. *)
Record cond_ok (h : avtab) (node : cond_node) : Prop := mk_cond_ok {
  co_true : forall n, n ∈ avtab_nodes h -> an_id n ∈ cd_true_list node -> rule_enabled n = (0 <? cd_cur_state node);
  co_false : forall n, n ∈ avtab_nodes h -> an_id n ∈ cd_false_list node -> rule_enabled n = (cd_cur_state node =? 0)
}.

Definition set_cur_state (node : cond_node) (v : Z) : cond_node :=
  mk_cond_node v (cd_expr node) (cd_true_list node) (cd_false_list node).

(** [h'] is [h] with changes to nodes of [ids] only. *)
Definition touches (ids : list nat) (h h' : avtab) : Prop :=
  exists f, avtab_nodes h' = f <$> avtab_nodes h /\
    (forall n, an_id (f n) = an_id n /\ an_datum (f n) = an_datum n /\ same_triple (an_key (f n)) (an_key n)) /\
    (forall n, an_id n ∉ ids -> f n = n).

Lemma touches_refl ids h : touches ids h h.
Proof.
  exists id. split; [by rewrite list_fmap_id|]. split; [|done]. intros n. split; [done|]. by split.
Qed.

Lemma touches_trans ids1 ids2 h1 h2 h3 : touches ids1 h1 h2 -> touches ids2 h2 h3 -> touches (ids1 ++ ids2) h1 h3.
Proof.
  intros (f & Hf & Hid & Hfr) (g & Hg & Hid' & Hfr'). exists (g ∘ f).
  split; [by rewrite Hg, Hf, list_fmap_compose|]. split.
  - intros n. cbn. destruct (Hid n) as (H1 & H2 & (H3 & H4 & H5)), (Hid' (f n)) as (K1 & K2 & (K3 & K4 & K5)).
    rewrite K1, K2. unfold same_triple. by rewrite K3, K4, K5.
  - intros n Hn. cbn. rewrite not_elem_of_app in Hn. destruct Hn. rewrite Hfr by done. by apply Hfr'.
Qed.

Lemma cond_ok_frame ids h h' node :
  touches ids h h' -> (forall i, i ∈ cond_ids node -> i ∉ ids) -> cond_ok h node -> cond_ok h' node.
Proof.
  intros (f & Hf & Hid & Hfr) Hdis [H1 H2]. split; rewrite Hf; intros n Hn Hl;
    apply list_elem_of_fmap in Hn as (n0 & -> & Hn0); rewrite (proj1 (Hid n0)) in Hl;
    (rewrite Hfr; [|apply Hdis; unfold cond_ids; rewrite elem_of_app; auto]); [by apply H1|by apply H2].
Qed.

Lemma bool_state_frame p h b : bool_state (set_te_cond_avtab p h) b = bool_state p b.
Proof. by destruct p. Qed.

(** The value of an expression depends on the booleans only. *)
Lemma cond_evaluate_frame p h l : cond_evaluate_expr (set_te_cond_avtab p h) l = cond_evaluate_expr p l.
Proof.
  unfold cond_evaluate_expr.
  assert (forall s, cond_eval_loop (set_te_cond_avtab p h) l s = cond_eval_loop p l s) as ->; [|done].
  induction l as [|c l IH]; intros s; cbn [cond_eval_loop]; [done|].
  assert (cond_step (set_te_cond_avtab p h) c s = cond_step p c s) as ->.
  { unfold cond_step. by rewrite bool_state_frame. }
  destruct (cond_step p c s) as [[s'|]|]; cbn; [apply IH|done|done].
Qed.

Lemma set_te_cond_avtab_id p : set_te_cond_avtab p (te_cond_avtab p) = p.
Proof. by destruct p. Qed.

Lemma set_te_cond_avtab_twice p h h' : set_te_cond_avtab (set_te_cond_avtab p h) h' = set_te_cond_avtab p h'.
Proof. by destruct p. Qed.

Lemma te_cond_avtab_set p h : te_cond_avtab (set_te_cond_avtab p h) = h.
Proof. by destruct p. Qed.

Lemma cond_switch_touches v node h h' :
  avtab_nodes h' = cond_switch v node <$> avtab_nodes h -> touches (cond_ids node) h h'.
Proof.
  intros Hn. exists (cond_switch v node). split; [done|]. split.
  - intros n. unfold cond_switch, switch_node. by repeat case_decide.
  - intros n Hi. unfold cond_ids in Hi. rewrite not_elem_of_app in Hi. destruct Hi.
    unfold cond_switch, switch_node. by rewrite !decide_False by (repeat case_decide; done).
Qed.

(** [evaluate_cond_node]: the rules of the node follow the new value. *)
Lemma evaluate_cond_node_spec p node v :
  avtab_wf (te_cond_avtab p) -> NoDup (cond_ids node) -> cond_ok (te_cond_avtab p) node ->
  cond_evaluate_expr p (cd_expr node) = Some v ->
  exists h', evaluate_cond_node p node = Some (set_te_cond_avtab p h', set_cur_state node v) /\
    avtab_wf h' /\ cond_ok h' (set_cur_state node v) /\ touches (cond_ids node) (te_cond_avtab p) h'.
Proof.
  intros Hwf Hnd Hok Hv. unfold evaluate_cond_node. rewrite (bind_step _ _ _ Hv).
  destruct (Z.eqb_spec v (cd_cur_state node)) as [->|Hne]; cbn [negb].
  { exists (te_cond_avtab p). rewrite set_te_cond_avtab_id. unfold set_cur_state.
    destruct node; cbn in *. split; [done|]. split; [done|]. split; [done|]. apply touches_refl. }
  set (h' := switch_rules (v =? 0) (cd_false_list node) (switch_rules (0 <? v) (cd_true_list node) (te_cond_avtab p))).
  assert (avtab_nodes h' = cond_switch v node <$> avtab_nodes (te_cond_avtab p)) as Hn.
  { unfold h', cond_switch. rewrite !switch_nodes, <- list_fmap_compose. done. }
  exists h'. split; [done|]. split; [by do 2 apply switch_wf|]. split; [|by eapply cond_switch_touches].
  unfold cond_ids in Hnd. apply NoDup_app in Hnd as (_ & Hdis & _).
  split; cbn [set_cur_state cd_true_list cd_false_list cd_cur_state]; rewrite Hn; intros n Hin Hl;
    apply list_elem_of_fmap in Hin as (n0 & -> & _); unfold cond_switch in Hl |- *;
    rewrite !switch_node_id in Hl; rewrite !switch_enabled, switch_node_id.
  - rewrite decide_False by (by apply Hdis). by rewrite decide_True.
  - by rewrite decide_True.
Qed.

(** All conditionals of a policy: no rule belongs to two of them. *)
Record conds_ok (p : policydb) (l : list cond_node) : Prop := mk_conds_ok {
  cs_wf : avtab_wf (te_cond_avtab p);
  cs_ids : NoDup (concat (cond_ids <$> l));
  cs_ok : Forall (cond_ok (te_cond_avtab p)) l
}.

(** The node with its state brought up to date. *)
Definition evaluated (p : policydb) (node node' : cond_node) : Prop :=
  exists v, cond_evaluate_expr p (cd_expr node) = Some v /\ node' = set_cur_state node v.

Lemma evaluated_ids p l l' : Forall2 (evaluated p) l l' -> concat (cond_ids <$> l') = concat (cond_ids <$> l).
Proof. induction 1 as [|node node' l l' (v & _ & ->) _ IH]; cbn; [done|]. by rewrite IH. Qed.

Lemma evaluate_cond_list_spec p l :
  conds_ok p l -> Forall (fun node => is_Some (cond_evaluate_expr p (cd_expr node))) l ->
  exists h' l', evaluate_cond_list p l = Some (set_te_cond_avtab p h', l') /\
    Forall2 (evaluated p) l l' /\ conds_ok (set_te_cond_avtab p h') l' /\
    touches (concat (cond_ids <$> l)) (te_cond_avtab p) h'.
Proof.
  revert p. induction l as [|node l IH]; intros p [Hwf Hnd Hok] Hev; cbn [evaluate_cond_list].
  { exists (te_cond_avtab p), []. rewrite set_te_cond_avtab_id. split; [done|]. split; [constructor|].
    split; [by split|apply touches_refl]. }
  apply Forall_cons in Hok as [Hok Hoks]. apply Forall_cons in Hev as [[v Hv] Hev].
  cbn [fmap list_fmap concat] in *. pose proof Hnd as Hnd0. apply NoDup_app in Hnd as (Hn1 & Hdis & Hn2).
  destruct (evaluate_cond_node_spec p node v Hwf Hn1 Hok Hv) as (h1 & H1 & Hwf1 & Hok1 & Ht1).
  rewrite (bind_step _ _ _ H1).
  destruct (IH (set_te_cond_avtab p h1)) as (h2 & l2 & H2 & HF & Hcs & Ht2).
  - split; rewrite ?te_cond_avtab_set; [done|done|]. rewrite Forall_forall in Hoks |- *. intros node' Hin.
    eapply cond_ok_frame; [done| |by apply Hoks]. intros i Hi Hi'. apply (Hdis i Hi').
    rewrite list_elem_of_In, in_concat. exists (cond_ids node'). rewrite <- !list_elem_of_In.
    split; [by apply list_elem_of_fmap_2|done].
  - eapply Forall_impl; [done|]. intros node'. by rewrite cond_evaluate_frame.
  - rewrite te_cond_avtab_set in Ht2. rewrite set_te_cond_avtab_twice in H2, Hcs.
    assert (Forall2 (evaluated p) l l2) as HF'.
    { eapply Forall2_impl; [done|]. intros x y (w & Hw & ->). rewrite cond_evaluate_frame in Hw. by exists w. }
    exists h2, (set_cur_state node v :: l2). rewrite (bind_step _ _ _ H2). split; [done|].
    split; [constructor; [by exists v|done]|]. split; [|by eapply touches_trans].
    destruct Hcs as [Hw2 Hnd2 Hok2]. rewrite te_cond_avtab_set in Hw2, Hok2.
    split; rewrite ?te_cond_avtab_set; [done| |].
    + cbn [fmap list_fmap concat]. change (cond_ids (set_cur_state node v)) with (cond_ids node).
      by rewrite (evaluated_ids _ _ _ HF').
    + constructor; [|done]. eapply cond_ok_frame; [done| |done]. intros i Hi. by apply Hdis.
Qed.

(** ** The contribution to a decision *)

(** Two flags of [specified] are set. *)
Definition rule_says (what : Z) (n : avtab_node) : bool :=
  (what .| AVTAB_ENABLED) =? ak_specified (an_key n) .& (what .| AVTAB_ENABLED).

(** A bit is set in some of the data. *)
Definition some_bit (nodes : list avtab_node) (i : Z) : bool := existsb (fun n => Z.testbit (an_datum n) i) nodes.
(** A bit is set in all of the data. *)
Definition all_bit (nodes : list avtab_node) (i : Z) : bool := forallb (fun n => Z.testbit (an_datum n) i) nodes.

Lemma cond_add_node_spec avd n :
  cond_add_node avd n =
    mk_av_decision (if rule_says AVTAB_ALLOWED n then allowed avd .| an_datum n else allowed avd)
      (if rule_says AVTAB_AUDITALLOW n then auditallow avd .| an_datum n else auditallow avd)
      (if rule_says AVTAB_AUDITDENY n then auditdeny avd .& an_datum n else auditdeny avd)
      (seqno avd) (flags avd).
Proof.
  unfold cond_add_node, rule_says.
  change (u16 (AVTAB_ALLOWED .| AVTAB_ENABLED)) with (AVTAB_ALLOWED .| AVTAB_ENABLED).
  change (u16 (AVTAB_AUDITALLOW .| AVTAB_ENABLED)) with (AVTAB_AUDITALLOW .| AVTAB_ENABLED).
  change (u16 (AVTAB_AUDITDENY .| AVTAB_ENABLED)) with (AVTAB_AUDITDENY .| AVTAB_ENABLED).
  repeat case_match; by destruct avd.
Qed.

(** The bits of the decision after a list of rules. *)
Lemma cond_fold_bits nodes avd i : 0 <= i ->
  let avd' := fold_left cond_add_node nodes avd in
  Z.testbit (allowed avd') i =
    Z.testbit (allowed avd) i || some_bit (filter (fun n => rule_says AVTAB_ALLOWED n = true) nodes) i /\
  Z.testbit (auditallow avd') i =
    Z.testbit (auditallow avd) i || some_bit (filter (fun n => rule_says AVTAB_AUDITALLOW n = true) nodes) i /\
  Z.testbit (auditdeny avd') i =
    Z.testbit (auditdeny avd) i && all_bit (filter (fun n => rule_says AVTAB_AUDITDENY n = true) nodes) i /\
  seqno avd' = seqno avd /\ flags avd' = flags avd.
Proof.
  intros Hi. revert avd. induction nodes as [|n nodes IH]; intros avd; cbn [fold_left].
  { cbn. rewrite !orb_false_r, andb_true_r. done. }
  specialize (IH (cond_add_node avd n)). cbv zeta in *. destruct IH as (-> & -> & -> & -> & ->).
  rewrite cond_add_node_spec, !filter_cons. cbn [allowed auditallow auditdeny seqno flags].
  split_and!; [| | |done|done].
  - destruct (rule_says AVTAB_ALLOWED n); [|done]. rewrite decide_True, Z.lor_spec by done. cbn. by rewrite orb_assoc.
  - destruct (rule_says AVTAB_AUDITALLOW n); [|done]. rewrite decide_True, Z.lor_spec by done. cbn. by rewrite orb_assoc.
  - destruct (rule_says AVTAB_AUDITDENY n); [|done]. rewrite decide_True, Z.land_spec by done. cbn. by rewrite andb_assoc.
Qed.

(** ** Properties *)

(** A boolean expression in the postfix order of the policy file evaluates
    to its value; one that needs more than [COND_EXPR_MAXDEPTH] places on the
    stack is undefined and gives -1, never an access outside the stack. *)
Theorem cond_expr_value p e :
  bools_ok p e ->
  cond_evaluate_expr p (compile e) =
    Some (if (height e <=? Z.to_nat COND_EXPR_MAXDEPTH)%nat then denote p e else -1).
Proof.
  intros Hb. unfold cond_evaluate_expr. rewrite (bind_step _ _ _ (compile_spec p e [] Hb ltac:(cbn; lia))).
  cbn [length Nat.add]. by destruct (height e <=? _)%nat.
Qed.

(** A policy with two booleans, true and false. *)
Definition two_bools : policydb :=
  set_bool_val_to_struct (set_bool_store policydb_zero [mk_cond_bool_datum 1 1; mk_cond_bool_datum 2 0]) [Ptr 0%nat; Ptr 1%nat].

Lemma cond_expr_value_witness :
  cond_evaluate_expr two_bools (compile (CBin OpAnd (CBool 1) (CNot (CBool 2)))) = Some 1.
Proof.
  rewrite (cond_expr_value two_bools (CBin OpAnd (CBool 1) (CNot (CBool 2)))); [reflexivity|].
  split; eexists; reflexivity.
Defined.

(** C31: [evaluate_cond_list] does not fault when the expressions of the
    conditionals can be evaluated.  Afterwards every conditional holds the
    current value of its expression, its true rules are enabled exactly when
    the value is positive and its false rules exactly when it is 0, the table
    of rules is still well-formed, and rules of no conditional are untouched. *)
Theorem cond_rules_follow_booleans p l :
  conds_ok p l -> Forall (fun node => is_Some (cond_evaluate_expr p (cd_expr node))) l ->
  exists p' l', evaluate_cond_list p l = Some (p', l') /\
    Forall2 (fun node node' => cond_evaluate_expr p (cd_expr node) = Some (cd_cur_state node') /\
                               cond_ids node' = cond_ids node) l l' /\
    conds_ok p' l' /\ touches (concat (cond_ids <$> l)) (te_cond_avtab p) (te_cond_avtab p').
Proof.
  intros Hcs Hev. destruct (evaluate_cond_list_spec p l Hcs Hev) as (h' & l' & H & HF & Hcs' & Ht).
  exists (set_te_cond_avtab p h'), l'. split; [done|]. split; [|by rewrite te_cond_avtab_set].
  eapply Forall2_impl; [done|]. by intros node node' (v & Hv & ->).
Qed.

Definition rule (id : nat) (s t c spec datum : Z) : avtab_node := mk_avtab_node id (mk_avtab_key s t c spec) datum.

(** One conditional with a rule on either side, both disabled. *)
Definition one_cond : policydb :=
  set_te_cond_avtab two_bools
    (mk_avtab (Some [[rule 0 1 2 1 AVTAB_ALLOWED 3; rule 1 1 2 1 AVTAB_ALLOWED 8]]) 2 1 0 2).
Definition cond1 : cond_node := mk_cond_node (-1) (compile (CBool 1)) [0%nat] [1%nat].

Lemma one_cond_wf : avtab_wf (te_cond_avtab one_cond).
Proof.
  split.
  - intros ht [|i] c [= <-]; cbn; [|done]. intros [= <-]. repeat constructor.
  - intros ht [= <-]. repeat constructor.
  - intros ht [= <-]. split; [done|]. exists 0. split; [lia|done].
  - repeat apply Forall_cons_2; [split; vm_compute; split; congruence..|constructor].
  - split; [|repeat constructor; cbn; lia]. cbn. constructor; [|constructor; [|constructor]];
      rewrite ?list_elem_of_singleton; [lia|apply not_elem_of_nil].
Qed.

Lemma one_cond_ok : conds_ok one_cond [cond1].
Proof.
  split; [apply one_cond_wf| |constructor; [|constructor]].
  - cbn. constructor; [|constructor; [|constructor]]; rewrite ?list_elem_of_singleton; [lia|apply not_elem_of_nil].
  - split; cbn [cd_true_list cd_false_list cd_cur_state cond1]; intros n Hn _;
      repeat (apply elem_of_cons in Hn as [->|Hn]; [reflexivity|]); by apply elem_of_nil in Hn.
Qed.

Lemma cond_rules_follow_booleans_witness :
  exists p' l', evaluate_cond_list one_cond [cond1] = Some (p', l') /\
    rule_enabled <$> avtab_nodes (te_cond_avtab p') = [true; false].
Proof.
  destruct (cond_rules_follow_booleans one_cond [cond1]) as (p' & l' & H & _).
  - exact one_cond_ok.
  - repeat constructor. eexists. reflexivity.
  - exists p', l'. split; [exact H|]. vm_compute in H. injection H as <- _. reflexivity.
Defined.

(** The contribution of the conditional rules to a decision.  With a
    well-formed table [cond_compute_av] does not fault; a permission is added
    to [allowed] (or [auditallow]) exactly when an enabled allow (auditallow)
    rule for the key grants it, and it stays in [auditdeny] exactly when every
    enabled auditdeny rule for the key has it. *)
Theorem cond_compute_av_bits h key avd :
  avtab_wf h -> key_ok key ->
  exists avd', cond_compute_av h key avd = Some avd' /\ seqno avd' = seqno avd /\ flags avd' = flags avd /\
    forall i, 0 <= i ->
      let rules what := filter (fun n => rule_says what n = true) (avtab_hits h key) in
      Z.testbit (allowed avd') i = Z.testbit (allowed avd) i || some_bit (rules AVTAB_ALLOWED) i /\
      Z.testbit (auditallow avd') i = Z.testbit (auditallow avd) i || some_bit (rules AVTAB_AUDITALLOW) i /\
      Z.testbit (auditdeny avd') i = Z.testbit (auditdeny avd) i && all_bit (rules AVTAB_AUDITDENY) i.
Proof.
  intros Hwf Hk. unfold cond_compute_av. rewrite (bind_step _ _ _ (avtab_for_each_spec h key Hwf Hk)).
  fold (avtab_hits h key). eexists. split; [done|].
  destruct (cond_fold_bits (avtab_hits h key) avd 0 ltac:(lia)) as (_ & _ & _ & -> & ->).
  split; [done|]. split; [done|]. intros i Hi.
  destruct (cond_fold_bits (avtab_hits h key) avd i Hi) as (-> & -> & -> & _). done.
Qed.

Lemma cond_compute_av_bits_witness :
  exists avd', cond_compute_av (te_cond_avtab one_cond) (mk_avtab_key 1 2 1 AVTAB_AV) (mk_av_decision 4 0 0 0 0) = Some avd'
    /\ allowed avd' = 4.
Proof.
  destruct (cond_compute_av_bits (te_cond_avtab one_cond) (mk_avtab_key 1 2 1 AVTAB_AV) (mk_av_decision 4 0 0 0 0))
    as (avd' & H & _).
  - exact one_cond_wf.
  - split; vm_compute; split; congruence.
  - exists avd'. split; [exact H|]. vm_compute in H. injection H as <-. reflexivity.
Defined.
