(* ===== verification/PolicyRead.v ===== *)
(** * Reading a binary policy (security/selinux/ss/policydb.c, avtab.c, conditional.c)

    The functions [*_read], up to [policydb_read].  A function that is given a
    hash table and inserts what it has read is a function from the old table
    to a reader of the new one.  A count read from the file bounds a
    structural loop, so every reader ends. *)

From Stdlib Require Import Ascii String.
From S2P Require Import Prelude Ebitmap Hashtab PolicyFile Context Sidtab Avtab Policydb Mls PolicydbOps Conditional.

Definition POLICYDB_MAGIC : Z := 0xf97cff8c.
Definition POLICYDB_STRING : string := "SE Linux".
Definition POLICYDB_CONFIG_MLS : Z := 1.
Definition REJECT_UNKNOWN : Z := 0x00000002.
Definition ALLOW_UNKNOWN : Z := 0x00000004.
Definition TYPEDATUM_PROPERTY_PRIMARY : Z := 0x0001.
Definition TYPEDATUM_PROPERTY_ATTRIBUTE : Z := 0x0002.

(** ** Levels, ranges and contexts *)

(** When [items] is 0 nothing is read into [buf], and [buf[0]] is still
    [items]. *)
Definition mls_read_range_helper : reader mls_range :=
  items ← next_u32;
  _ ← guard_ (items <=? 2);
  buf ← next_u32s (Z.to_nat items);
  let sens0 := nth 0 buf items in
  let sens1 := if 1 <? items then item buf 1 else sens0 in
  cat0 ← ebitmap_read;
  cat1 ← (if 1 <? items then ebitmap_read else call (fun m => Some (ebitmap_cpy cat0 m)));
  mret (mk_mls_range (mk_mls_level sens0 cat0) (mk_mls_level sens1 cat1)).

Definition mls_read_level : reader mls_level :=
  sens ← next_u32;
  cat ← ebitmap_read;
  mret (mk_mls_level sens cat).

Definition context_read_and_validate (p : policydb) : reader context :=
  buf ← next_u32s 3;
  range ← (if POLICYDB_VERSION_MLS <=? policyvers p then mls_read_range_helper else mret mls_range_zero);
  let c := mk_context (item buf 0) (item buf 1) (item buf 2) 0 range None in
  valid ← lift (policydb_context_isvalid p c);
  _ ← guard_ valid;
  mret c.

(** ** Symbols *)

Abbreviation table D := (option (hashtab string D)).

Definition perm_read (h : table perm_datum) : reader (table perm_datum) :=
  _ ← kmalloc;
  buf ← next_u32s 2;
  key ← read_name (item buf 0);
  call (hashtab_insert h key (mk_perm_datum (item buf 1))).

(** [symtab_init(&s, PERM_SYMTAB_SIZE)] on a zeroed table. *)
Definition perm_symtab : reader (table perm_datum) :=
  s ← call (fun m => Some (symtab_init (mk_symtab None 0) PERM_SYMTAB_SIZE m));
  mret (st_table s).

Definition common_read (h : table common_datum) : reader (table common_datum) :=
  _ ← kmalloc;
  buf ← next_u32s 4;
  perms ← perm_symtab;
  key ← read_name (item buf 0);
  perms ← for_loop (Z.to_nat (item buf 3)) perm_read perms;
  call (hashtab_insert h key (mk_common_datum (item buf 1) (mk_symtab perms (item buf 2)))).

(** The body of the inner loop of [read_cons_helper]. *)
Definition read_cons_expr (allowxtarget : bool) (st : Z * list constraint_expr) : reader (Z * list constraint_expr) :=
  let '(depth, expr) := st in
  _ ← kmalloc;
  buf ← next_u32s 3;
  let t := item buf 0 in
  let e names := mk_constraint_expr t (item buf 1) (item buf 2) names in
  if t =? CEXPR_NOT then
    _ ← guard_ (negb (depth <? 0));
    mret (depth, expr ++ [e ebitmap_init])
  else if (t =? CEXPR_AND) || (t =? CEXPR_OR) then
    _ ← guard_ (negb (depth <? 1));
    mret (depth - 1, expr ++ [e ebitmap_init])
  else if t =? CEXPR_ATTR then
    _ ← guard_ (negb (depth =? CEXPR_MAXDEPTH - 1));
    mret (depth + 1, expr ++ [e ebitmap_init])
  else if t =? CEXPR_NAMES then
    _ ← guard_ (allowxtarget || negb (nz (item buf 1 .& CEXPR_XTARGET)));
    _ ← guard_ (negb (depth =? CEXPR_MAXDEPTH - 1));
    names ← ebitmap_read;
    mret (depth + 1, expr ++ [e names])
  else fail (- EINVAL).

Definition read_cons_node (allowxtarget : bool) (l : list constraint_node) : reader (list constraint_node) :=
  _ ← kmalloc;
  buf ← next_u32s 2;
  '(depth, expr) ← for_loop (Z.to_nat (item buf 1)) (read_cons_expr allowxtarget) (-1, []);
  _ ← guard_ (depth =? 0);
  mret (l ++ [mk_constraint_node (item buf 0) expr]).

(** [ncons] is an [int]. *)
Definition read_cons_helper (ncons : Z) (allowxtarget : bool) : reader (list constraint_node) :=
  for_loop (Z.to_nat (s32 ncons)) (read_cons_node allowxtarget) [].

(** The name of the common and the datum it stands for. *)
Definition read_common_key (p : policydb) (len2 : Z) : reader (option string * option common_datum) :=
  if nz len2 then
    comkey ← read_name len2;
    found ← lift (hashtab_search (st_table (p_commons p)) comkey);
    match found with
    | Some comdatum => mret (Some comkey, Some comdatum)
    | None => fail (- EINVAL)
    end
  else mret (None, None).

Definition class_read (p : policydb) (h : table class_datum) : reader (table class_datum) :=
  _ ← kmalloc;
  buf ← next_u32s 6;
  perms ← perm_symtab;
  key ← read_name (item buf 0);
  '(comkey, comdatum) ← read_common_key p (item buf 1);
  perms ← for_loop (Z.to_nat (item buf 4)) perm_read perms;
  constraints ← read_cons_helper (item buf 5) false;
  validatetrans ← (if POLICYDB_VERSION_VALIDATETRANS <=? policyvers p then
                     ncons ← next_u32;
                     read_cons_helper ncons true
                   else mret []);
  call (hashtab_insert h key
          (mk_class_datum (item buf 2) comkey comdatum (mk_symtab perms (item buf 3)) constraints validatetrans)).

Definition has_bounds (p : policydb) : bool := POLICYDB_VERSION_BOUNDARY <=? policyvers p.

Definition role_read (p : policydb) (h : table role_datum) : reader (table role_datum) :=
  _ ← kmalloc;
  buf ← next_u32s (if has_bounds p then 3 else 2);
  let bounds := if has_bounds p then item buf 2 else 0 in
  key ← read_name (item buf 0);
  dominates ← ebitmap_read;
  types ← ebitmap_read;
  if strcmp key OBJECT_R =? 0 then
    _ ← guard_ (item buf 1 =? OBJECT_R_VAL);
    mret h
  else call (hashtab_insert h key (mk_role_datum (item buf 1) bounds dominates types)).

Definition type_read (p : policydb) (h : table type_datum) : reader (table type_datum) :=
  _ ← kmalloc;
  buf ← next_u32s (if has_bounds p then 4 else 3);
  let prop := item buf 2 in
  let datum :=
    if has_bounds p then
      mk_type_datum (item buf 1) (item buf 3) (b2i (nz (prop .& TYPEDATUM_PROPERTY_PRIMARY)))
                    (b2i (nz (prop .& TYPEDATUM_PROPERTY_ATTRIBUTE)))
    else mk_type_datum (item buf 1) 0 (u8 prop) 0 in
  key ← read_name (item buf 0);
  call (hashtab_insert h key datum).

Definition user_read (p : policydb) (h : table user_datum) : reader (table user_datum) :=
  _ ← kmalloc;
  buf ← next_u32s (if has_bounds p then 3 else 2);
  let bounds := if has_bounds p then item buf 2 else 0 in
  key ← read_name (item buf 0);
  roles ← ebitmap_read;
  '(range, dfltlevel) ← (if POLICYDB_VERSION_MLS <=? policyvers p then
                           range ← mls_read_range_helper;
                           dfltlevel ← mls_read_level;
                           mret (range, dfltlevel)
                         else mret (mls_range_zero, mls_level_zero));
  call (hashtab_insert h key (mk_user_datum (item buf 1) bounds roles range dfltlevel)).

Definition sens_read (h : table level_datum) : reader (table level_datum) :=
  _ ← kmalloc;
  buf ← next_u32s 2;
  key ← read_name (item buf 0);
  _ ← kmalloc;
  level ← mls_read_level;
  call (hashtab_insert h key (mk_level_datum level (u8 (item buf 1)))).

Definition cat_read (h : table cat_datum) : reader (table cat_datum) :=
  _ ← kmalloc;
  buf ← next_u32s 3;
  key ← read_name (item buf 0);
  call (hashtab_insert h key (mk_cat_datum (item buf 1) (u8 (item buf 2)))).

(** conditional.c; the new datum is put at the end of the store of booleans. *)
Definition bool_isvalid (b : cond_bool_datum) : bool := (cb_state b =? 0) || (cb_state b =? 1).

Definition cond_read_bool (st : list cond_bool_datum * table nat) : reader (list cond_bool_datum * table nat) :=
  let '(store, h) := st in
  _ ← kmalloc;
  buf ← next_u32s 3;
  let booldatum := mk_cond_bool_datum (item buf 0) (s32 (item buf 1)) in
  _ ← guard_ (bool_isvalid booldatum);
  key ← read_name (item buf 2);
  h ← call (hashtab_insert h key (length store));
  mret (store ++ [booldatum], h).

(** ** Access vector tables (avtab.c) *)

Definition spec_order : list Z :=
  [AVTAB_ALLOWED; AVTAB_AUDITDENY; AVTAB_AUDITALLOW; AVTAB_TRANSITION; AVTAB_CHANGE; AVTAB_MEMBER].

Section Item.
  Context {A : Type} (pol : policydb) (insertf : avtab_key -> Z -> A -> kmem -> option (Z * A * kmem)).

(** [buf32[i]] after [items2] items have been read into it: the first one was
    used for [items2] itself, the others are uninitialised. *)
Definition buf32_at (buf : list Z) (items2 : Z) (i : nat) : reader Z :=
  match buf !! i with
  | Some v => mret v
  | None => if decide (i = 0%nat) then mret items2 else fault
  end.

(** [key.f = (u16)val; if (key.f != val) ...] *)
Definition read_u16_of (buf : list Z) (items2 : Z) (i : nat) : reader Z :=
  val ← buf32_at buf items2 i;
  _ ← guard_ (u16 val =? val);
  mret (u16 val).

(** The loop over [spec_order]; [items] is the next index of [buf32]. *)
Fixpoint read_specs (specs : list Z) (key : Z -> avtab_key) (val : Z) (buf : list Z) (items2 : Z)
    (items : nat) (a : A) : reader (nat * A) :=
  match specs with
  | [] => mret (items, a)
  | spec :: specs' =>
      if nz (val .& spec) then
        data ← buf32_at buf items2 items;
        a ← call (insertf (key spec) data a);
        read_specs specs' key val buf items2 (S items) a
      else read_specs specs' key val buf items2 items a
  end.

(** Versions before [POLICYDB_VERSION_AVTAB]. *)
Definition avtab_read_old (a : A) : reader A :=
  items2 ← next_u32;
  _ ← guard_ (items2 <=? 7);
  buf ← next_u32s (Z.to_nat items2);
  source ← read_u16_of buf items2 0;
  target ← read_u16_of buf items2 1;
  class ← read_u16_of buf items2 2;
  val ← buf32_at buf items2 3;
  let enabled := if nz (val .& AVTAB_ENABLED_OLD) then AVTAB_ENABLED else 0 in
  _ ← guard_ (nz (val .& (AVTAB_AV .| AVTAB_TYPE)));
  _ ← guard_ (negb (nz (val .& AVTAB_AV) && nz (val .& AVTAB_TYPE)));
  '(items, a) ← read_specs spec_order (fun spec => mk_avtab_key source target class (spec .| enabled))
                           val buf items2 4 a;
  _ ← guard_ (Z.of_nat items =? items2);
  mret a.

Definition avtab_read_item (a : A) : reader A :=
  if policyvers pol <? POLICYDB_VERSION_AVTAB then avtab_read_old a
  else
    buf ← next_u16s 4;
    let key := mk_avtab_key (item buf 0) (item buf 1) (item buf 2) (item buf 3) in
    _ ← guard_ (policydb_type_isvalid pol (ak_source_type key) && policydb_type_isvalid pol (ak_target_type key) &&
                policydb_class_isvalid pol (ak_target_class key));
    let set := length (List.filter (fun spec => nz (ak_specified key .& spec)) spec_order) in
    _ ← guard_ (Z.of_nat set =? 1);
    data ← next_u32;
    _ ← guard_ (negb (nz (ak_specified key .& AVTAB_TYPE)) || policydb_type_isvalid pol data);
    call (insertf key data a).
End Item.

Definition avtab_insertf (k : avtab_key) (d : Z) (a : avtab) (m : kmem) : option (Z * avtab * kmem) :=
  avtab_insert a k d m.

Definition avtab_read (a : avtab) (pol : policydb) : reader avtab :=
  nel ← next_u32;
  _ ← guard_ (nz nel);
  a ← call (fun m => Some (avtab_alloc a nel m));
  for_loop (Z.to_nat nel) (avtab_read_item pol avtab_insertf) a.

(** ** Conditional rules (conditional.c) *)

(** [struct cond_insertf_data]: the table of conditional rules and the list of
    the rules read so far.  [other] is the true list while the false list is
    read; an empty list is [NULL]. *)
Definition cond_conflict (p : policydb) (other : list nat) (k : avtab_key) (h : avtab) : option bool :=
  if nz (ak_specified k .& AVTAB_TYPE) then
    outside ← avtab_search (te_avtab p) k;
    match outside with
    | Some _ => Some true
    | None =>
        match other with
        | _ :: _ =>
            node_ptr ← avtab_search_node h k;
            match node_ptr with
            | [] => Some false
            | n :: _ =>
                match avtab_search_node_next node_ptr (ak_specified k) with
                | _ :: _ => Some true
                | [] => Some (negb (existsb (Nat.eqb (an_id n)) other))
                end
            end
        | [] =>
            found ← avtab_search h k;
            Some (match found with Some _ => true | None => false end)
        end
    end
  else Some false.

Definition cond_insertf (p : policydb) (other : list nat) (k : avtab_key) (d : Z) (data : avtab * list nat) (m : kmem)
    : option (Z * (avtab * list nat) * kmem) :=
  let '(h, head) := data in
  conflict ← cond_conflict p other k h;
  if (conflict : bool) then Some (- EINVAL, (h, []), m)
  else
    '(node_ptr, h, m) ← avtab_insert_nonunique h k d m;
    match node_ptr with
    | None => Some (- ENOMEM, (h, []), m)
    | Some id =>
        let '(ok, m) := kalloc m in
        if negb ok then Some (- ENOMEM, (h, []), m) else Some (0, (h, head ++ [id]), m)
    end.

Definition cond_read_av_list (p : policydb) (h : avtab) (other : list nat) : reader (avtab * list nat) :=
  len ← next_u32;
  if len =? 0 then mret (h, [])
  else for_loop (Z.to_nat len) (avtab_read_item p (cond_insertf p other)) (h, []).

Definition expr_isvalid (p : policydb) (expr : cond_expr) : bool :=
  if (cx_expr_type expr <=? 0) || (COND_LAST <? cx_expr_type expr) then false
  else if st_nprim (p_bools p) <? cx_bool expr then false
  else true.

Definition cond_read_expr (p : policydb) (l : list cond_expr) : reader (list cond_expr) :=
  buf ← next_u32s 2;
  _ ← kmalloc;
  let expr := mk_cond_expr (item buf 0) (item buf 1) in
  _ ← guard_ (expr_isvalid p expr);
  mret (l ++ [expr]).

Definition cond_read_node (p : policydb) (h : avtab) : reader (avtab * cond_node) :=
  cur_state ← next_u32;
  len ← next_u32;
  expr ← for_loop (Z.to_nat len) (cond_read_expr p) [];
  '(h, true_list) ← cond_read_av_list p h [];
  '(h, false_list) ← cond_read_av_list p h true_list;
  mret (h, mk_cond_node (s32 cur_state) expr true_list false_list).

(** The body of the loop of [cond_read_list]. *)
Definition cond_read_step (p : policydb) (st : avtab * list cond_node) : reader (avtab * list cond_node) :=
  let '(h, l) := st in
  _ ← kmalloc;
  '(h, node) ← cond_read_node p h;
  mret (h, l ++ [node]).

Definition cond_read_list (p : policydb) : reader policydb :=
  len ← next_u32;
  h ← call (fun m => Some (avtab_alloc (te_cond_avtab p) (at_nel (te_avtab p)) m));
  '(h, l) ← for_loop (Z.to_nat len) (cond_read_step p) (h, []);
  mret (set_cond_list (set_te_cond_avtab p h) l).

(** ** Role rules and file name transitions *)

Definition role_trans_read (p : policydb) (l : list role_trans) : reader (list role_trans) :=
  _ ← kmalloc;
  buf ← next_u32s 3;
  let tr := mk_role_trans (item buf 0) (item buf 1) (item buf 2) in
  _ ← guard_ (policydb_role_isvalid p (rt_role tr) && policydb_type_isvalid p (rt_type tr) &&
              policydb_role_isvalid p (rt_new_role tr));
  mret (l ++ [tr]).

Definition role_allow_read (p : policydb) (l : list role_allow) : reader (list role_allow) :=
  _ ← kmalloc;
  buf ← next_u32s 2;
  let ra := mk_role_allow (item buf 0) (item buf 1) in
  _ ← guard_ (policydb_role_isvalid p (ra_role ra) && policydb_role_isvalid p (ra_new_role ra));
  mret (l ++ [ra]).

Definition filename_trans_item (l : list filename_trans) : reader (list filename_trans) :=
  _ ← kmalloc;
  len ← next_u32;
  name ← read_name len;
  buf ← next_u32s 4;
  mret (l ++ [mk_filename_trans (item buf 0) (item buf 1) (u16 (item buf 2)) name (item buf 3)]).

Definition filename_trans_read (p : policydb) : reader (list filename_trans) :=
  if policyvers p <? POLICYDB_VERSION_FILENAME_TRANS then mret (filename_trans_list p)
  else
    nel ← next_u32;
    for_loop (Z.to_nat nel) filename_trans_item (filename_trans_list p).

(** ** Object contexts *)

(** [c = kzalloc(...)] with its key and first context. *)
Definition ocon (u : ocon_key) (v : Z) (context0 context1 : context) (sid0 : Z) : ocontext :=
  mk_ocontext u v context0 context1 sid0 0.

(** The [switch (i)] of [ocontext_read]. *)
Definition ocontext_item (p : policydb) (i : nat) : reader ocontext :=
  if decide (i = OCON_ISID) then
    sid ← next_u32;
    c ← context_read_and_validate p;
    mret (ocon ONone 0 c context_init sid)
  else if decide (i = OCON_FS \/ i = OCON_NETIF) then
    len ← next_u32;
    name ← read_name len;
    c0 ← context_read_and_validate p;
    c1 ← context_read_and_validate p;
    mret (ocon (OName name) 0 c0 c1 0)
  else if decide (i = OCON_PORT) then
    buf ← next_u32s 3;
    c ← context_read_and_validate p;
    mret (ocon (OPort (u8 (item buf 0)) (u16 (item buf 1)) (u16 (item buf 2))) 0 c context_init 0)
  else if decide (i = OCON_NODE) then
    buf ← next_u32s 2;
    c ← context_read_and_validate p;
    mret (ocon (ONode (item buf 0) (item buf 1)) 0 c context_init 0)
  else if decide (i = OCON_FSUSE) then
    buf ← next_u32s 2;
    _ ← guard_ (item buf 0 <=? SECURITY_FS_USE_NONE);
    name ← read_name (item buf 1);
    c ← context_read_and_validate p;
    mret (ocon (OName name) (item buf 0) c context_init 0)
  else if decide (i = OCON_NODE6) then
    buf ← next_u32s 8;
    c ← context_read_and_validate p;
    mret (ocon (ONode6 (take 4 buf) (drop 4 buf)) 0 c context_init 0)
  else mret (ocon ONone 0 context_init context_init 0).

Definition ocontext_step (p : policydb) (i : nat) (l : list ocontext) : reader (list ocontext) :=
  _ ← kmalloc;
  c ← ocontext_item p i;
  mret (l ++ [c]).

(** [for (i = 0; i < info->ocon_num; i++)]; [n] kinds are left. *)
Fixpoint ocontext_read (p : policydb) (n i : nat) : reader (list (list ocontext)) :=
  match n with
  | O => mret []
  | S n' =>
      nel ← next_u32;
      l ← for_loop (Z.to_nat nel) (ocontext_step p i) [];
      rest ← ocontext_read p n' (S i);
      mret (l :: rest)
  end.

(** The place of a new file system type: the types before and after it.
    [None]: the type is there already. *)
Fixpoint genfs_place (fstype : string) (l : list genfs) : option (list genfs * list genfs) :=
  match l with
  | [] => Some ([], [])
  | g :: l' =>
      if strcmp fstype (g_fstype g) =? 0 then None
      else if strcmp fstype (g_fstype g) <? 0 then Some ([], l)
      else '(before, after) ← genfs_place fstype l'; Some (g :: before, after)
  end.

(** The insertion of an entry, longer paths first; [None]: a conflict. *)
Definition ocon_name (c : ocontext) : string := match oc_u c with OName name => name | _ => EmptyString end.

Fixpoint genfs_entry (newc : ocontext) (l : list ocontext) : option (list ocontext) :=
  match l with
  | [] => Some [newc]
  | c :: l' =>
      if (strcmp (ocon_name newc) (ocon_name c) =? 0) &&
         (negb (nz (oc_v c)) || negb (nz (oc_v newc)) || (oc_v newc =? oc_v c))
      then None
      else if (String.length (ocon_name c) <? String.length (ocon_name newc))%nat then Some (newc :: l)
      else l ← genfs_entry newc l'; Some (c :: l)
  end.

(** A failed check: [rc = -EINVAL; goto out;]. *)
Definition valid {A} (o : option A) : reader A := match o with Some a => mret a | None => fail (- EINVAL) end.

Definition genfs_read_entry (p : policydb) (head : list ocontext) : reader (list ocontext) :=
  len ← next_u32;
  _ ← kmalloc;
  name ← read_name len;
  sclass ← next_u32;
  c ← context_read_and_validate p;
  valid (genfs_entry (ocon (OName name) sclass c context_init 0) head).

Definition genfs_read_type (p : policydb) (l : list genfs) : reader (list genfs) :=
  len ← next_u32;
  _ ← kmalloc;
  fstype ← read_name len;
  '(before, after) ← valid (genfs_place fstype l);
  nel2 ← next_u32;
  head ← for_loop (Z.to_nat nel2) (genfs_read_entry p) [];
  mret (before ++ mk_genfs fstype head :: after).

Definition genfs_read (p : policydb) : reader (list genfs) :=
  nel ← next_u32;
  for_loop (Z.to_nat nel) (genfs_read_type p) (genfs_list p).

(** ** Range transitions *)

Definition range_read_item (p : policydb) (h : option (hashtab range_trans mls_range))
    : reader (option (hashtab range_trans mls_range)) :=
  _ ← kmalloc;
  buf ← next_u32s 2;
  target_class ← (if POLICYDB_VERSION_RANGETRANS <=? policyvers p then next_u32 else mret (process_class p));
  let rt := mk_range_trans (item buf 0) (item buf 1) target_class in
  _ ← guard_ (policydb_type_isvalid p (rg_source_type rt) && policydb_type_isvalid p (rg_target_type rt) &&
              policydb_class_isvalid p (rg_target_class rt));
  _ ← kmalloc;
  r ← mls_read_range_helper;
  ok ← lift (mls_range_isvalid p r);
  _ ← guard_ ok;
  call (hashtab_insert h rt r).

Definition range_read (p : policydb) : reader (option (hashtab range_trans mls_range)) :=
  if policyvers p <? POLICYDB_VERSION_MLS then mret (range_tr p)
  else
    nel ← next_u32;
    for_loop (Z.to_nat nel) (range_read_item p) (range_tr p).

(** ** The whole policy *)

(** [next_entry] of the sizes and [read_f[i]] for each symbol of a table. *)
Definition read_symtab {A} (read : A -> reader A) (table : A) : reader (Z * A) :=
  buf ← next_u32s 2;
  table ← for_loop (Z.to_nat (item buf 1)) read table;
  mret (item buf 0, table).

(** The loop over the symbol tables; [sym_num] of them are in the file. *)
Definition read_symtabs (p : policydb) (sym_num : Z) : reader policydb :=
  '(nprim, t) ← read_symtab common_read (st_table (p_commons p));
  let p := set_p_commons p (mk_symtab t nprim) in
  '(nprim, t) ← read_symtab (class_read p) (st_table (p_classes p));
  let p := set_p_classes p (mk_symtab t nprim) in
  '(nprim, t) ← read_symtab (role_read p) (st_table (p_roles p));
  let p := set_p_roles p (mk_symtab t nprim) in
  '(nprim, t) ← read_symtab (type_read p) (st_table (p_types p));
  let p := set_p_types p (mk_symtab t nprim) in
  '(nprim, t) ← read_symtab (user_read p) (st_table (p_users p));
  let p := set_p_users p (mk_symtab t nprim) in
  p ← (if 5 <? sym_num then
         '(nprim, (store, t)) ← read_symtab cond_read_bool (bool_store p, st_table (p_bools p));
         mret (set_bool_store (set_p_bools p (mk_symtab t nprim)) store)
       else mret p);
  p ← (if 6 <? sym_num then
         '(nprim, t) ← read_symtab sens_read (st_table (p_levels p));
         mret (set_p_levels p (mk_symtab t nprim))
       else mret p);
  if 7 <? sym_num then
    '(nprim, t) ← read_symtab cat_read (st_table (p_cats p));
    mret (set_p_cats p (mk_symtab t nprim))
  else mret p.

(** The magic number, the string, the version and the configuration.  Result:
    the database and the two table sizes. *)
Definition read_header (p : policydb) : reader (policydb * Z * Z) :=
  buf ← next_u32s 2;
  _ ← guard_ (item buf 0 =? POLICYDB_MAGIC);
  let len := item buf 1 in
  _ ← guard_ (len =? strlen POLICYDB_STRING);
  policydb_str ← read_name len;
  _ ← guard_ (strcmp policydb_str POLICYDB_STRING =? 0);
  buf ← next_u32s 4;
  let vers := item buf 0 in
  let config := item buf 1 in
  _ ← guard_ ((POLICYDB_VERSION_MIN <=? vers) && (vers <=? POLICYDB_VERSION_MAX));
  let mls := nz (config .& POLICYDB_CONFIG_MLS) in
  _ ← guard_ (negb mls || (POLICYDB_VERSION_MLS <=? vers));
  let p := set_policyvers p vers in
  let p := set_mls_enabled p (if mls then true else mls_enabled p) in
  let p := set_reject_unknown p (nz (config .& REJECT_UNKNOWN)) in
  let p := set_allow_unknown p (nz (config .& ALLOW_UNKNOWN)) in
  mret (p, item buf 2, item buf 3).

(** The bitmaps of capabilities and of permissive types. *)
Definition read_maps (p : policydb) : reader policydb :=
  p ← (if POLICYDB_VERSION_POLCAP <=? policyvers p then
         e ← ebitmap_read; mret (set_policycaps p e)
       else mret p);
  if POLICYDB_VERSION_PERMISSIVE <=? policyvers p then
    e ← ebitmap_read; mret (set_permissive_map p e)
  else mret p.

(** A counted list: role transitions and role allow rules. *)
Definition read_list {A} (read : list A -> reader (list A)) : reader (list A) :=
  nel ← next_u32; for_loop (Z.to_nat nel) read [].

(** The class [process] and its transition permissions. *)
Definition find_process (p : policydb) : reader policydb :=
  class ← lift (string_to_security_class p "process");
  let p := set_process_class p class in
  _ ← guard_ (nz class);
  t ← lift (string_to_av_perm p class "transition");
  d ← lift (string_to_av_perm p class "dyntransition");
  let p := set_process_trans_perms p (t .| d) in
  _ ← guard_ (nz (process_trans_perms p));
  mret p.

(** [for (i = 0; i < p->p_types.nprim; i++)]; [n] types are left. *)
Fixpoint read_type_attrs (p : policydb) (n : nat) (i : Z) : reader (list ebitmap) :=
  match n with
  | O => mret []
  | S n' =>
      e ← (if POLICYDB_VERSION_AVTAB <=? policyvers p then ebitmap_read else mret ebitmap_init);
      e ← call (ebitmap_set_bit e i true);
      rest ← read_type_attrs p n' (i + 1);
      mret (e :: rest)
  end.

(** Everything before the index arrays are built, and the index arrays. *)
Definition read_rules (p : policydb) (info : policydb_compat_info) : reader policydb :=
  p ← read_symtabs p (pc_sym_num info);
  h ← avtab_read (te_avtab p) p;
  let p := set_te_avtab p h in
  p ← (if POLICYDB_VERSION_BOOL <=? policyvers p then cond_read_list p else mret p);
  tr ← read_list (role_trans_read p);
  let p := set_role_tr p tr in
  ra ← read_list (role_allow_read p);
  let p := set_role_allow_list p ra in
  ft ← filename_trans_read p;
  let p := set_filename_trans_list p ft in
  call (policydb_index p).

(** What follows, with the names and values looked up in the index arrays. *)
Definition read_objects (p : policydb) (info : policydb_compat_info) : reader policydb :=
  p ← find_process p;
  oc ← ocontext_read p (Z.to_nat (pc_ocon_num info)) 0;
  let p := set_ocontexts p (oc ++ drop (length oc) (ocontexts p)) in
  g ← genfs_read p;
  let p := set_genfs_list p g in
  r ← range_read p;
  let p := set_range_tr p r in
  _ ← kmalloc;
  _ ← kmalloc;
  attrs ← read_type_attrs p (Z.to_nat (st_nprim (p_types p))) 0;
  mret (set_type_attr_map_array p attrs).

(** The file, read into the database [policydb_init] has set up. *)
Definition read_file (p : policydb) : reader policydb :=
  '(p, sym_num, ocon_num) ← read_header p;
  p ← read_maps p;
  info ← valid (policydb_lookup_compat (policyvers p));
  _ ← guard_ ((sym_num =? pc_sym_num info) && (ocon_num =? pc_ocon_num info));
  p ← read_rules p info;
  p ← read_objects p info;
  _ ← call (fun m => rc ← policydb_bounds_sanity_check p; Some (rc, tt, m));
  mret p.

(** [policydb_init] may report success for a database it has freed again: what
    is done with it then is undefined. *)
Definition policydb_read : reader policydb :=
  fun fp m =>
    match policydb_init m with
    | None => None
    | Some (rc, p, freed, m) =>
        if nz rc then Some (Fails rc m)
        else if (freed : bool) then None
        else read_file p fp m
    end.
