(* ===== verification/PolicyWrite.v ===== *)
(** * Writing a binary policy (security/selinux/ss/policydb.c, avtab.c, conditional.c)

    The functions [*_write], up to [policydb_write].  [put_entry] cannot fail,
    so the value of such a function is what it appends to the file; [None] is
    the use of a pointer that does not point to what the function expects.
    The functions called by [hashtab_map] append to the bytes written so far. *)

From Stdlib Require Import Ascii String.
From S2P Require Import Prelude Ebitmap Hashtab PolicyFile Context Sidtab Avtab Policydb Mls PolicydbOps Conditional PolicyRead.

(** ** Levels, ranges and contexts *)

Definition mls_write_level (l : mls_level) : list ascii := put_u32 (ml_sens l) ++ ebitmap_write (ml_cat l).

Definition mls_write_range_helper (r : mls_range) : list ascii :=
  let eq := mls_level_eq (mr_high r) (mr_low r) in
  put_u32s (if eq then [1; ml_sens (mr_low r)] else [2; ml_sens (mr_low r); ml_sens (mr_high r)]) ++
  ebitmap_write (ml_cat (mr_low r)) ++
  (if eq then [] else ebitmap_write (ml_cat (mr_high r))).

Definition context_write (c : context) : list ascii :=
  put_u32s [c_user c; c_role c; c_type c] ++ mls_write_range_helper (c_range c).

(** ** Symbols *)

(** [hashtab_map(h, write, fp)] *)
Definition write_table {K D} (h : option (hashtab K D)) (write : K -> D -> option (list ascii)) : option (list ascii) :=
  (hashtab_map h (fun key datum out =>
     match out, write key datum with
     | Some out, Some b => (0, Some (out ++ b))
     | _, _ => (- EFAULT, None)
     end) (Some [])).2.

Definition perm_write (key : string) (perdatum : perm_datum) : option (list ascii) :=
  Some (put_u32s [strlen key; pm_value perdatum] ++ put_name_bytes key).

Definition common_write (key : string) (comdatum : common_datum) : option (list ascii) :=
  table ← st_table (cm_permissions comdatum);
  perms ← write_table (Some table) perm_write;
  Some (put_u32s [strlen key; cm_value comdatum; st_nprim (cm_permissions comdatum); ht_nel table] ++
        put_name_bytes key ++ perms).

Definition write_cons_expr (e : constraint_expr) : list ascii :=
  put_u32s [ce_expr_type e; ce_attr e; ce_op e] ++
  (if ce_expr_type e =? CEXPR_NAMES then ebitmap_write (ce_names e) else []).

Definition write_cons_node (c : constraint_node) : list ascii :=
  put_u32s [cn_permissions c; Z.of_nat (length (cn_expr c))] ++ concat (write_cons_expr <$> cn_expr c).

Definition write_cons_helper (l : list constraint_node) : list ascii := concat (write_cons_node <$> l).

Definition class_write (key : string) (cladatum : class_datum) : option (list ascii) :=
  let len2 := match cl_comkey cladatum with Some comkey => strlen comkey | None => 0 end in
  let nel := match st_table (cl_permissions cladatum) with Some table => ht_nel table | None => 0 end in
  perms ← write_table (st_table (cl_permissions cladatum)) perm_write;
  Some (put_u32s [strlen key; len2; cl_value cladatum; st_nprim (cl_permissions cladatum); nel;
                  Z.of_nat (length (cl_constraints cladatum))] ++
        put_name_bytes key ++
        (match cl_comkey cladatum with Some comkey => put_name_bytes comkey | None => [] end) ++
        perms ++
        write_cons_helper (cl_constraints cladatum) ++
        put_u32 (Z.of_nat (length (cl_validatetrans cladatum))) ++
        write_cons_helper (cl_validatetrans cladatum)).

Definition role_write (p : policydb) (key : string) (role : role_datum) : option (list ascii) :=
  Some (put_u32s ([strlen key; r_value role] ++ (if has_bounds p then [r_bounds role] else [])) ++
        put_name_bytes key ++ ebitmap_write (r_dominates role) ++ ebitmap_write (r_types role)).

Definition type_properties (t : type_datum) : Z :=
  (if nz (t_primary t) then TYPEDATUM_PROPERTY_PRIMARY else 0) .|
  (if nz (t_attribute t) then TYPEDATUM_PROPERTY_ATTRIBUTE else 0).

Definition type_write (p : policydb) (key : string) (typdatum : type_datum) : option (list ascii) :=
  Some (put_u32s ([strlen key; t_value typdatum] ++
                  (if has_bounds p then [type_properties typdatum; t_bounds typdatum] else [t_primary typdatum])) ++
        put_name_bytes key).

Definition user_write (p : policydb) (key : string) (usrdatum : user_datum) : option (list ascii) :=
  Some (put_u32s ([strlen key; u_value usrdatum] ++ (if has_bounds p then [u_bounds usrdatum] else [])) ++
        put_name_bytes key ++ ebitmap_write (u_roles usrdatum) ++
        mls_write_range_helper (u_range usrdatum) ++ mls_write_level (u_dfltlevel usrdatum)).

Definition sens_write (key : string) (levdatum : level_datum) : option (list ascii) :=
  Some (put_u32s [strlen key; l_isalias levdatum] ++ put_name_bytes key ++ mls_write_level (l_level levdatum)).

Definition cat_write (key : string) (catdatum : cat_datum) : option (list ascii) :=
  Some (put_u32s [strlen key; cat_value catdatum; cat_isalias catdatum] ++ put_name_bytes key).

Definition cond_write_bool (p : policydb) (key : string) (datum : nat) : option (list ascii) :=
  booldatum ← bool_store p !! datum;
  Some (put_u32s [cb_value booldatum; cb_state booldatum; strlen key] ++ put_name_bytes key).

(** ** Access vector tables and conditional rules *)

Definition avtab_write_item (cur : avtab_node) : list ascii :=
  put_u16s [ak_source_type (an_key cur); ak_target_type (an_key cur); ak_target_class (an_key cur);
            ak_specified (an_key cur)] ++ put_u32 (an_datum cur).

Definition avtab_write (a : avtab) : option (list ascii) :=
  slots ← (match at_htable a with
           | Some ht => if Z.of_nat (length ht) <? at_nslot a then None else Some (take (Z.to_nat (at_nslot a)) ht)
           | None => if 0 <? at_nslot a then None else Some []
           end);
  Some (put_u32 (at_nel a) ++ concat (avtab_write_item <$> concat slots)).

(** The node a [cond_av_list] points to. *)
Definition avtab_node_at (h : avtab) (id : nat) : option avtab_node :=
  List.find (fun n => Nat.eqb (an_id n) id) (avtab_nodes h).

Definition cond_write_av_list (p : policydb) (l : list nat) : option (list ascii) :=
  nodes ← mapM (avtab_node_at (te_cond_avtab p)) l;
  Some (put_u32 (Z.of_nat (length l)) ++ concat (avtab_write_item <$> nodes)).

Definition cond_write_node (p : policydb) (node : cond_node) : option (list ascii) :=
  true_list ← cond_write_av_list p (cd_true_list node);
  false_list ← cond_write_av_list p (cd_false_list node);
  Some (put_u32 (u32 (cd_cur_state node)) ++ put_u32 (Z.of_nat (length (cd_expr node))) ++
        concat ((fun e => put_u32s [cx_expr_type e; cx_bool e]) <$> cd_expr node) ++ true_list ++ false_list).

Definition cond_write_list (p : policydb) (l : list cond_node) : option (list ascii) :=
  nodes ← mapM (cond_write_node p) l;
  Some (put_u32 (Z.of_nat (length l)) ++ concat nodes).

(** ** Role rules, file name transitions, object contexts, range transitions *)

Definition role_trans_write (l : list role_trans) : list ascii :=
  put_u32 (Z.of_nat (length l)) ++ concat ((fun tr => put_u32s [rt_role tr; rt_type tr; rt_new_role tr]) <$> l).

Definition role_allow_write (l : list role_allow) : list ascii :=
  put_u32 (Z.of_nat (length l)) ++ concat ((fun ra => put_u32s [ra_role ra; ra_new_role ra]) <$> l).

Definition filename_trans_put (ft : filename_trans) : list ascii :=
  put_u32 (strlen (ft_name ft)) ++ put_name_bytes (ft_name ft) ++
  put_u32s [ft_stype ft; ft_ttype ft; ft_tclass ft; ft_otype ft].

Definition filename_trans_write (p : policydb) : list ascii :=
  put_u32 (Z.of_nat (length (filename_trans_list p))) ++ concat (filename_trans_put <$> filename_trans_list p).

Definition ocontext_put (i : nat) (c : ocontext) : option (list ascii) :=
  if decide (i = OCON_ISID) then Some (put_u32 (oc_sid0 c) ++ context_write (oc_context0 c))
  else if decide (i = OCON_FS \/ i = OCON_NETIF) then
    match oc_u c with
    | OName name => Some (put_u32 (strlen name) ++ put_name_bytes name ++
                          context_write (oc_context0 c) ++ context_write (oc_context1 c))
    | _ => None
    end
  else if decide (i = OCON_PORT) then
    match oc_u c with
    | OPort protocol low_port high_port =>
        Some (put_u32s [protocol; low_port; high_port] ++ context_write (oc_context0 c))
    | _ => None
    end
  else if decide (i = OCON_NODE) then
    match oc_u c with
    | ONode addr mask => Some (put_u32s [addr; mask] ++ context_write (oc_context0 c))
    | _ => None
    end
  else if decide (i = OCON_FSUSE) then
    match oc_u c with
    | OName name => Some (put_u32s [oc_v c; strlen name] ++ put_name_bytes name ++ context_write (oc_context0 c))
    | _ => None
    end
  else if decide (i = OCON_NODE6) then
    match oc_u c with
    | ONode6 addr mask => Some (put_u32s (addr ++ mask) ++ context_write (oc_context0 c))
    | _ => None
    end
  else Some [].

(** [for (i = 0; i < info->ocon_num; i++)] *)
Fixpoint ocontext_write (l : list (list ocontext)) (n i : nat) : option (list ascii) :=
  match n with
  | O => Some []
  | S n' =>
      let cs := nth i l [] in
      here ← mapM (ocontext_put i) cs;
      rest ← ocontext_write l n' (S i);
      Some (put_u32 (Z.of_nat (length cs)) ++ concat here ++ rest)
  end.

Definition genfs_put_entry (c : ocontext) : option (list ascii) :=
  match oc_u c with
  | OName name => Some (put_u32 (strlen name) ++ put_name_bytes name ++ put_u32 (oc_v c) ++ context_write (oc_context0 c))
  | _ => None
  end.

Definition genfs_put (g : genfs) : option (list ascii) :=
  entries ← mapM genfs_put_entry (g_head g);
  Some (put_u32 (strlen (g_fstype g)) ++ put_name_bytes (g_fstype g) ++
        put_u32 (Z.of_nat (length (g_head g))) ++ concat entries).

Definition genfs_write (p : policydb) : option (list ascii) :=
  l ← mapM genfs_put (genfs_list p);
  Some (put_u32 (Z.of_nat (length (genfs_list p))) ++ concat l).

Definition range_count (key : range_trans) (data : mls_range) (cnt : Z) : Z * Z := (0, s32 (cnt + 1)).

Definition range_write_helper (p : policydb) (rt : range_trans) (r : mls_range) : option (list ascii) :=
  Some (put_u32s [rg_source_type rt; rg_target_type rt] ++
        (if POLICYDB_VERSION_RANGETRANS <=? policyvers p then put_u32 (rg_target_class rt) else []) ++
        mls_write_range_helper r).

Definition range_write (p : policydb) : option (list ascii) :=
  let nel := (hashtab_map (range_tr p) range_count 0).2 in
  l ← write_table (range_tr p) (range_write_helper p);
  Some (put_u32 nel ++ l).

(** ** The whole policy *)

(** The sizes of a table and its symbols. *)
Definition write_symtab {D} (s : symtab D) (write : string -> D -> option (list ascii)) : option (list ascii) :=
  table ← st_table s;
  syms ← write_table (Some table) write;
  Some (put_u32s [st_nprim s; ht_nel table] ++ syms).

(** [num_syms] is 8 in every version that is written. *)
Definition write_symtabs (p : policydb) (num_syms : Z) : option (list ascii) :=
  s0 ← write_symtab (p_commons p) common_write;
  s1 ← write_symtab (p_classes p) class_write;
  s2 ← write_symtab (p_roles p) (role_write p);
  s3 ← write_symtab (p_types p) (type_write p);
  s4 ← write_symtab (p_users p) (user_write p);
  s5 ← (if 5 <? num_syms then write_symtab (p_bools p) (cond_write_bool p) else Some []);
  s6 ← (if 6 <? num_syms then write_symtab (p_levels p) sens_write else Some []);
  s7 ← (if 7 <? num_syms then write_symtab (p_cats p) cat_write else Some []);
  Some (s0 ++ s1 ++ s2 ++ s3 ++ s4 ++ s5 ++ s6 ++ s7).

Definition write_config (p : policydb) : Z :=
  (if mls_enabled p then POLICYDB_CONFIG_MLS else 0) .| (if reject_unknown p then REJECT_UNKNOWN else 0) .|
  (if allow_unknown p then ALLOW_UNKNOWN else 0).

Definition write_header (p : policydb) (info : policydb_compat_info) : list ascii :=
  put_u32s [POLICYDB_MAGIC; strlen POLICYDB_STRING] ++ put_name_bytes POLICYDB_STRING ++
  put_u32s [policyvers p; write_config p; pc_sym_num info; pc_ocon_num info].

Definition write_maps (p : policydb) : list ascii :=
  (if POLICYDB_VERSION_POLCAP <=? policyvers p then ebitmap_write (policycaps p) else []) ++
  (if POLICYDB_VERSION_PERMISSIVE <=? policyvers p then ebitmap_write (permissive_map p) else []).

Definition write_type_attrs (p : policydb) : option (list ascii) :=
  if Z.of_nat (length (type_attr_map_array p)) <? st_nprim (p_types p) then None
  else Some (concat (ebitmap_write <$> take (Z.to_nat (st_nprim (p_types p))) (type_attr_map_array p))).

(** Result: [rc] and the bytes written. *)
Definition policydb_write (p : policydb) : option (Z * list ascii) :=
  if policyvers p <? POLICYDB_VERSION_AVTAB then Some (- EINVAL, [])
  else
    match policydb_lookup_compat (policyvers p) with
    | None => Some (- EINVAL, put_u32s [POLICYDB_MAGIC; strlen POLICYDB_STRING] ++ put_name_bytes POLICYDB_STRING)
    | Some info =>
        syms ← write_symtabs p (pc_sym_num info);
        te ← avtab_write (te_avtab p);
        cond ← cond_write_list p (cond_list p);
        oc ← ocontext_write (ocontexts p) (Z.to_nat (pc_ocon_num info)) 0;
        g ← genfs_write p;
        r ← range_write p;
        attrs ← write_type_attrs p;
        Some (0, write_header p info ++ write_maps p ++ syms ++ te ++ cond ++ role_trans_write (role_tr p) ++
                 role_allow_write (role_allow_list p) ++ filename_trans_write p ++ oc ++ g ++ r ++ attrs)
    end.
