(* ===== verification/PolicyTables.v ===== *)
(** * Tables in policy files

    A hash table is written entry by entry in the order of its slots.  A
    well-formed table is determined by the finite map it stands for, so
    inserting the entries again, into a table of the same size, gives the same
    table, whatever the order. *)

From Stdlib Require Import Ascii String.
From S2P Require Import Prelude Ebitmap Hashtab PolicyFile Policydb PolicydbOps PolicyRead PolicyWrite.

Section Tables.
  Context {K D : Type} `{Countable K}.
  Implicit Types (t : hashtab K D).

Definition entries (t : hashtab K D) : list (K * D) := concat (ht_htable t).

(** Same size and functions. *)
Definition same_ops (t1 t2 : hashtab K D) : Prop :=
  ht_size t1 = ht_size t2 /\ ht_hash_value t1 = ht_hash_value t2 /\ ht_keycmp t1 = ht_keycmp t2.

Lemma elem_of_entries t kd :
  kd ∈ entries t <-> exists i c, ht_htable t !! i = Some c /\ kd ∈ c.
Proof.
  unfold entries. rewrite list_elem_of_In, in_concat. split.
  - intros (c & Hc%list_elem_of_In & Hk%list_elem_of_In). apply list_elem_of_lookup in Hc as [i Hi]. eauto.
  - intros (i & c & Hi & Hk). exists c. split; apply list_elem_of_In; [by eapply list_elem_of_lookup_2|done].
Qed.

Lemma entries_nodup t : hashtab_wf t -> NoDup (entries t).*1.
Proof.
  intros Hwf. unfold entries. pose proof (hwf_sorted t Hwf) as Hs. pose proof (hwf_slot t Hwf) as Hslot.
  pose proof (hwf_ops t Hwf) as Hops. revert Hs Hslot.
  assert (forall (ls : list (list (K * D))) off, Forall (StronglySorted (key_lt (ht_keycmp t))) ls ->
    (forall i c, ls !! i = Some c -> Forall (fun n => Z.to_nat (ht_hash_value t (ht_size t) n.1) = (off + i)%nat) c) ->
    NoDup (concat ls).*1) as Hgen.
  { induction ls as [|c ls IH]; intros off Hs Hi; [constructor|]. inv Hs as [|? ? Hc Hs']. cbn. rewrite fmap_app.
    apply NoDup_app. split_and!.
    - by eapply chain_keys_nodup.
    - intros k Hk Hk'. apply list_elem_of_fmap in Hk as (x & -> & Hx). apply list_elem_of_fmap in Hk' as (y & E & Hy).
      apply list_elem_of_In, in_concat in Hy as (c' & Hc'%list_elem_of_In & Hy%list_elem_of_In).
      apply list_elem_of_lookup in Hc' as [j Hj]. pose proof (Hi 0%nat c eq_refl) as H0. pose proof (Hi (S j) c' Hj) as H1.
      rewrite Forall_forall in H0, H1. specialize (H0 x Hx). specialize (H1 y Hy). rewrite <- E in H1. lia.
    - apply (IH (S off)); [done|]. intros i c' Hc'. specialize (Hi (S i) c' Hc').
      eapply Forall_impl; [exact Hi|]. cbn. lia. }
  intros Hs Hslot. apply (Hgen _ 0%nat); [done|]. intros i c Hc. by apply Hslot.
Qed.

Lemma entries_abs t k d : hashtab_wf t -> (k, d) ∈ entries t <-> hashtab_abs t !! k = Some d.
Proof. intros Hwf. unfold hashtab_abs. apply elem_of_list_to_map. by apply entries_nodup. Qed.

Lemma nel_size t : hashtab_wf t -> ht_nel t = Z.of_nat (size (hashtab_abs t)).
Proof.
  intros Hwf. destruct (hwf_nel t Hwf) as [-> _]. unfold hashtab_abs.
  rewrite map_size_list_to_map by by apply entries_nodup. by rewrite ?length_fmap.
Qed.

(** A table is determined by its map. *)
Lemma table_ext t1 t2 :
  hashtab_wf t1 -> hashtab_wf t2 -> same_ops t1 t2 -> hashtab_abs t1 = hashtab_abs t2 -> t1 = t2.
Proof.
  intros W1 W2 (Es & Eh & Ec) Ha.
  assert (ht_htable t1 = ht_htable t2) as Et.
  { apply list_eq_same_length with (length (ht_htable t1)); [|done|].
    - pose proof (hwf_len t1 W1). pose proof (hwf_len t2 W2). lia.
    - intros i c1 c2 _ H1 H2. apply (sorted_unique (key_lt (ht_keycmp t1))).
      + pose proof (hwf_ops t1 W1) as Hops. intros x y Hxy Hyx. unfold key_lt in *. apply ops_anti in Hxy. lia.
      + eapply Forall_lookup_1; [by apply hwf_sorted|done].
      + rewrite Ec. eapply Forall_lookup_1; [by apply hwf_sorted|done].
      + assert (forall t c, hashtab_wf t -> ht_htable t !! i = Some c -> forall kd, kd ∈ c <->
          hashtab_abs t !! kd.1 = Some kd.2 /\ Z.to_nat (ht_hash_value t (ht_size t) kd.1) = i) as Hslot.
        { intros t c Hw Hc [k d]. cbn. rewrite <- entries_abs, elem_of_entries by done. split.
          - intros Hk. split; [eauto|]. pose proof (hwf_slot t Hw i c Hc) as HF. rewrite Forall_forall in HF. by apply HF in Hk.
          - intros ((j & c' & Hj & Hk) & Hi). pose proof (hwf_slot t Hw j c' Hj) as HF. rewrite Forall_forall in HF.
            specialize (HF _ Hk). cbn in HF. assert (i = j) as -> by lia. congruence. }
        intros kd. rewrite (Hslot t1 c1), (Hslot t2 c2) by done. by rewrite Ha, Es, Eh. }
  pose proof (nel_size t1 W1) as N1. pose proof (nel_size t2 W2) as N2. rewrite Ha in N1.
  destruct t1, t2; cbn in *. congruence.
Qed.

Lemma chain_insert_mem cmp (k : K) (d : D) c rc l m : chain_insert cmp k d c [] = (rc, l, m) -> rc <> - ENOMEM /\ m = [].
Proof.
  revert rc l m. induction c as [|n c IH]; intros rc l m Hc; cbn [chain_insert kalloc] in Hc.
  - by injection Hc as <- _ <-.
  - destruct (0 <? _).
    + destruct (chain_insert cmp k d c []) as [[rc' l'] m'] eqn:E. injection Hc as <- _ <-. by eapply IH.
    + destruct (_ =? 0); by injection Hc as <- _ <-.
Qed.

(** An insertion that succeeds does not depend on the allocator. *)
Lemma hashtab_insert_mem h (k : K) (d : D) m h' m' :
  hashtab_insert h k d m = Some (0, h', m') -> hashtab_insert h k d [] = Some (0, h', []).
Proof.
  assert (forall cmp c m l m', chain_insert cmp k d c m = (0, l, m') -> chain_insert cmp k d c [] = (0, l, [])) as Hc.
  { intros cmp c. induction c as [|n c IH]; intros m1 l m1'; cbn [chain_insert kalloc].
    - destruct (kalloc m1) as [[] m2]; by intros [= <- _].
    - destruct (0 <? _).
      + destruct (chain_insert cmp k d c m1) as [[rc l1] m2] eqn:E. intros [= -> <- _]. by rewrite (IH _ _ _ E).
      + destruct (_ =? 0); [done|]. destruct (kalloc m1) as [[] m2]; by intros [= <- _]. }
  destruct h as [t|]; cbn; [|done]. destruct (_ =? HASHTAB_MAX_NODES); [done|]. destruct (ht_htable t !! _) as [c|]; [|done]. cbn.
  destruct (chain_insert (ht_keycmp t) k d c m) as [[rc l] m1] eqn:E. destruct (nz rc) eqn:Er; [by intros [= -> _ _]|].
  apply nz_false in Er as ->. rewrite (Hc _ _ _ _ _ E). by intros [= <- _].
Qed.

(** With enough memory and room a new key is inserted. *)
Lemma hashtab_insert_new t k d :
  hashtab_wf t -> hashtab_abs t !! k = None -> ht_nel t < HASHTAB_MAX_NODES ->
  exists t', hashtab_insert (Some t) k d [] = Some (0, Some t', []) /\ hashtab_wf t' /\ same_ops t' t /\
    hashtab_abs t' = <[k := d]> (hashtab_abs t).
Proof.
  intros Hwf Hk Hn. destruct (hashtab_insert_spec t k d [] Hwf) as (rc & h' & m' & E & Hcase). rewrite E.
  assert (rc <> - ENOMEM /\ m' = []) as [Hrc ->].
  { unfold hashtab_insert in E. rewrite (proj2 (Z.eqb_neq _ _)) in E by lia.
    apply bind_Some in E as (c & _ & E). destruct (chain_insert (ht_keycmp t) k d c []) as [[rc' l] m1] eqn:Ec.
    apply chain_insert_mem in Ec as [? ->]. destruct (nz rc'); by injection E as <- _ <-. }
  destruct Hcase as [(-> & _ & t' & -> & Hw & Ha)|[(_ & [? Hs] & _)|[(? & _)|(_ & ? & _)]]]; [|congruence|done|lia].
  exists t'. split_and!; try done. unfold hashtab_insert in E. rewrite (proj2 (Z.eqb_neq _ _)) in E by lia.
  apply bind_Some in E as (c & _ & E). destruct (chain_insert (ht_keycmp t) k d c []) as [[rc' l] m1].
  destruct (nz rc') eqn:Er; [injection E as -> _ _; done|]. injection E as <-. by split_and!.
Qed.

(** ** Writing *)

Lemma chain_write (write : K -> D -> option (list ascii)) bytes c out :
  (forall k d, (k, d) ∈ c -> write k d = Some (bytes (k, d))) ->
  chain_map (fun key datum out => match out, write key datum with
                                  | Some out, Some b => (0, Some (out ++ b))
                                  | _, _ => (- EFAULT, None)
                                  end) c (Some out) = (0, Some (out ++ concat (bytes <$> c))).
Proof.
  revert out. induction c as [|[k d] c IH]; intros out Hw; cbn [chain_map fst snd]; [by rewrite app_nil_r|].
  rewrite (Hw k d) by apply list_elem_of_here. cbn [nz Z.eqb negb]. rewrite IH.
  - cbn. by rewrite <- app_assoc.
  - intros k' d' Hk. apply Hw. by apply list_elem_of_further.
Qed.

Lemma write_table_spec t write bytes :
  hashtab_wf t -> (forall k d, (k, d) ∈ entries t -> write k d = Some (bytes (k, d))) ->
  write_table (Some t) write = Some (concat (bytes <$> entries t)).
Proof.
  intros Hwf Hw. unfold write_table, hashtab_map. pose proof (hwf_len t Hwf) as Hlen.
  rewrite <- Hlen, Nat2Z.id, take_ge by lia. unfold entries in *.
  enough (forall ls out, (forall k d, (k, d) ∈ concat ls -> write k d = Some (bytes (k, d))) ->
    slots_map (fun key datum out => match out, write key datum with
                                    | Some out, Some b => (0, Some (out ++ b))
                                    | _, _ => (- EFAULT, None)
                                    end) ls (Some out) = (0, Some (out ++ concat (bytes <$> concat ls)))) as Hgen.
  { by rewrite Hgen. }
  induction ls as [|c ls IH]; intros out Hc; cbn [slots_map concat]; [by rewrite app_nil_r|].
  rewrite (chain_write write bytes) by (intros k d Hk; apply Hc; cbn; rewrite elem_of_app; by left).
  cbn [nz Z.eqb negb]. rewrite IH by (intros k d Hk; apply Hc; cbn; rewrite elem_of_app; by right).
  by rewrite fmap_app, concat_app, app_assoc.
Qed.

(** ** Reading

    [read] inserts the entry it reads, or, for the keys in [skip], which the
    table has from the beginning, leaves the table alone. *)

Lemma elem_snoc_ne (k k' : K) (d : D) l :
  k' <> k -> bool_decide (k' ∈ (l ++ [(k, d)]).*1) = bool_decide (k' ∈ l.*1).
Proof.
  intros Hne. apply bool_decide_ext. rewrite fmap_app, elem_of_app. cbn. rewrite list_elem_of_singleton. tauto.
Qed.

Lemma reads_table_with {X} (read : X -> reader X) (mk : nat -> option (hashtab K D) -> X) bytes skip t0 t n :
  hashtab_wf t0 -> hashtab_wf t -> same_ops t0 t ->
  (forall k, hashtab_abs t0 !! k = if (skip k : bool) then hashtab_abs t !! k else None) ->
  (forall i k d tc h', entries t !! i = Some (k, d) -> skip k = false -> same_ops tc t ->
     (forall x, x ∈ entries tc -> x ∈ entries t) -> hashtab_insert (Some tc) k d [] = Some (0, h', []) -> reads (read (mk i (Some tc))) (bytes (k, d)) (mk (S i) h')) ->
  (forall i k d h, entries t !! i = Some (k, d) -> skip k = true -> reads (read (mk i h)) (bytes (k, d)) (mk (S i) h)) ->
  n = length (entries t) ->
  reads (for_loop n read (mk 0%nat (Some t0))) (concat (bytes <$> entries t)) (mk n (Some t)).
Proof.
  intros W0 W Hops H0 Hread Hskip ->.
  enough (forall l1 l2 tc, entries t = l1 ++ l2 -> hashtab_wf tc -> same_ops tc t ->
    (forall k, hashtab_abs tc !! k = if skip k || bool_decide (k ∈ l1.*1) then hashtab_abs t !! k else None) ->
    reads (for_loop (length l2) read (mk (length l1) (Some tc))) (concat (bytes <$> l2)) (mk (length (entries t)) (Some t))) as Hgen.
  { apply (Hgen [] (entries t) t0); try done. intros k. rewrite H0. cbn.
    rewrite bool_decide_false, orb_false_r by apply not_elem_of_nil. done. }
  intros l1 l2. revert l1. induction l2 as [|[k d] l2 IH]; intros l1 tc El Wc Oc Hc.
  - cbn. rewrite app_nil_r in El. rewrite El. assert (tc = t) as ->; [|apply reads_ret].
    apply table_ext; [done..|]. apply map_eq. intros k. rewrite Hc.
    case_bool_decide as Hk; [by rewrite orb_true_r|]. rewrite orb_false_r.
    destruct (skip k); [done|]. destruct (hashtab_abs t !! k) as [d|] eqn:E; [|done].
    apply entries_abs in E; [|done]. destruct Hk. rewrite <- El. apply list_elem_of_fmap. by exists (k, d).
  - assert (entries t !! length l1 = Some (k, d)) as Hat by (rewrite El; by apply list_lookup_middle).
    pose proof (list_elem_of_lookup_2 _ _ _ Hat) as Hin.
    assert (k ∉ l1.*1) as Hnew.
    { pose proof (entries_nodup t W) as Hnd. rewrite El, fmap_app, NoDup_app in Hnd. destruct Hnd as (_ & Hnd & _).
      intros Hk. apply (Hnd k Hk). cbn. apply list_elem_of_here. }
    cbn [length for_loop fmap list_fmap concat].
    assert (forall tc', hashtab_wf tc' -> same_ops tc' t ->
      (forall k', hashtab_abs tc' !! k' = if skip k' || bool_decide (k' ∈ (l1 ++ [(k, d)]).*1) then hashtab_abs t !! k' else None) ->
      reads (read (mk (length l1) (Some tc))) (bytes (k, d)) (mk (S (length l1)) (Some tc')) ->
      reads (a ← read (mk (length l1) (Some tc)); for_loop (length l2) read a) (bytes (k, d) ++ concat (bytes <$> l2))
            (mk (length (entries t)) (Some t))) as Hnext.
    { intros tc' W' O' H' Hr. eapply reads_bind; [exact Hr|]. specialize (IH (l1 ++ [(k, d)]) tc').
      rewrite length_app, Nat.add_1_r in IH. apply IH; try done. by rewrite <- app_assoc. }
    destruct (skip k) eqn:Ek.
    + apply (Hnext tc); [done..| |by apply Hskip]. intros k'. rewrite Hc.
      destruct (decide (k' = k)) as [->|Hne]; [by rewrite Ek|]. by rewrite elem_snoc_ne.
    + assert (hashtab_abs tc !! k = None) as Hnone by (rewrite Hc, Ek, bool_decide_false by done; done).
      destruct (hashtab_insert_new tc k d Wc Hnone) as (tc' & Eins & W' & O' & A').
      * rewrite (nel_size tc Wc). destruct (hwf_nel t W) as [_ Hmax]. rewrite (nel_size t W) in Hmax.
        enough (size (hashtab_abs tc) < size (hashtab_abs t))%nat by lia. apply map_subset_size.
        apply map_subset_alt. split.
        -- intros k'. rewrite Hc. destruct (skip k' || _); cbn; [|by destruct (hashtab_abs t !! k')]. by destruct (hashtab_abs t !! k').
        -- exists k. split; [done|]. apply entries_abs in Hin; [|done]. by exists d.
      * apply (Hnext tc'); [done| | |].
        -- destruct O' as (? & ? & ?), Oc as (? & ? & ?). split_and!; congruence.
        -- intros k'. rewrite A'. destruct (decide (k' = k)) as [->|Hne].
           ++ rewrite lookup_insert_eq, Ek, bool_decide_true; [symmetry; by apply entries_abs|].
              rewrite fmap_app. apply elem_of_app. right. cbn. by apply list_elem_of_singleton.
           ++ by rewrite lookup_insert_ne, Hc, elem_snoc_ne.
        -- eapply Hread; [done|done|done| |done]. intros [k' d'] Hx%entries_abs; [|done]. apply entries_abs; [done|].
           rewrite Hc in Hx. by destruct (skip k' || _).
Qed.

Lemma reads_table (read : option (hashtab K D) -> reader (option (hashtab K D))) bytes skip t0 t n :
  hashtab_wf t0 -> hashtab_wf t -> same_ops t0 t ->
  (forall k, hashtab_abs t0 !! k = if (skip k : bool) then hashtab_abs t !! k else None) ->
  (forall k d h h', (k, d) ∈ entries t -> skip k = false -> hashtab_insert h k d [] = Some (0, h', []) ->
     reads (read h) (bytes (k, d)) h') ->
  (forall k d h, (k, d) ∈ entries t -> skip k = true -> reads (read h) (bytes (k, d)) h) ->
  n = length (entries t) ->
  reads (for_loop n read (Some t0)) (concat (bytes <$> entries t)) (Some t).
Proof.
  intros W0 W Ho H0 Hr Hs Hn. apply (reads_table_with read (fun _ h => h) bytes skip); try done.
  - intros i k d tc h' Hi%list_elem_of_lookup_2 Hk _ _. by apply Hr.
  - intros i k d h Hi%list_elem_of_lookup_2. by apply Hs.
Qed.

(** A table that only insertions have changed keeps its functions, and its
    entries are the old ones and the new one. *)
Lemma hashtab_insert_ok t k d m h' m' :
  hashtab_wf t -> hashtab_insert (Some t) k d m = Some (0, h', m') ->
  exists t', h' = Some t' /\ hashtab_wf t' /\ same_ops t' t /\
    (forall kd, kd ∈ entries t' <-> kd = (k, d) \/ kd ∈ entries t).
Proof.
  intros Hwf E. destruct (hashtab_insert_spec t k d m Hwf) as (rc & h1 & m1 & E1 & Hcase). rewrite E in E1. injection E1 as <- <- <-.
  destruct Hcase as [(_ & Hn & t' & -> & Hw & Ha)|[([=] & _)|[([=] & _)|([=] & _)]]].
  exists t'. split_and!; try done.
  - unfold hashtab_insert in E. destruct (_ =? HASHTAB_MAX_NODES); [done|]. apply bind_Some in E as (c & _ & E).
    destruct (chain_insert (ht_keycmp t) k d c m) as [[rc' l] m2]. destruct (nz rc') eqn:Er; [injection E as -> _ _; done|].
    injection E as <- _. by split_and!.
  - intros [k' d']. rewrite !entries_abs, Ha by done. destruct (decide (k' = k)) as [->|Hne].
    + rewrite lookup_insert_eq, Hn. split; [intros [= ->]; by left|]. by intros [[= ->]|?].
    + rewrite lookup_insert_ne by done. split; [by right|]. by intros [[= -> _]|?].
Qed.
End Tables.
