(* ===== verification/PolicyCodec.v ===== *)
(** * What is read from a policy file can be written and read again

    A reader and a writer of the same kind of data meet in [codec]: what the
    reader promises of the values it gives, whatever the bytes, and what the
    writer needs of a value for the reader to give it back.  The numbers of
    such a value fit their fields and its bitmaps are well-formed; that they
    are in canonical form is a matter of the file, since [ebitmap_read] keeps
    empty nodes and [ebitmap_write] does not write them.

    [codec_item] and [codec_entry] are the same interface for the readers that
    extend a list or a symbol table, and the lemmas on loops are proved once
    against them. *)

From Stdlib Require Import Ascii String.
From S2P Require Import Prelude Ebitmap Hashtab PolicyFile Context Sidtab Avtab Policydb Mls PolicydbOps Conditional PolicyRead PolicyWrite PolicyTables.

#[global] Arguments put_u32 : simpl never.
#[global] Arguments put_u32s : simpl never.
#[global] Arguments put_u16s : simpl never.
#[global] Arguments put_name_bytes : simpl never.
#[global] Arguments ebitmap_write : simpl never.
#[global] Arguments strlen : simpl never.

(** A bitmap that is written and read back unchanged. *)
Definition storable (e : ebitmap) : Prop := ebitmap_canon e /\ eb_highbit e < 2 ^ 31.

Lemma reads_storable e : storable e -> reads ebitmap_read (ebitmap_write e) e.
Proof. intros [? ?]. by apply reads_ebitmap. Qed.

Section Interfaces.
  Context {A : Type}.

Class codec (c : reader A) (w : A -> option (list ascii)) (P : A -> Prop) (B : A -> list ebitmap) : Prop := mk_codec {
  codec_gives : gives c (fun a => P a /\ Forall ebitmap_wf (B a));
  codec_reads : forall a, P a -> Forall storable (B a) -> exists b, w a = Some b /\ reads c b a
}.

Class codec_item (c : list A -> reader (list A)) (w : A -> option (list ascii)) (P : A -> Prop) (B : A -> list ebitmap) : Prop :=
  mk_codec_item {
  item_gives : forall l, gives (c l) (fun l' => exists a, l' = l ++ [a] /\ P a /\ Forall ebitmap_wf (B a));
  item_reads : forall l a, P a -> Forall storable (B a) -> exists b, w a = Some b /\ reads (c l) b (l ++ [a])
}.

Lemma Forall_concat_fmap {X Y} (P : Y -> Prop) (f : X -> list Y) (l : list X) :
  Forall P (concat (f <$> l)) <-> Forall (fun x => Forall P (f x)) l.
Proof. by rewrite Forall_concat, Forall_fmap. Qed.

(** A counted loop over such a reader. *)
Lemma gives_items (c : list A -> reader (list A)) P B n l0 :
  (forall l, gives (c l) (fun l' => exists a, l' = l ++ [a] /\ P a /\ Forall ebitmap_wf (B a))) ->
  gives (for_loop n c l0) (fun l => exists l1, l = l0 ++ l1 /\ length l1 = n /\ Forall P l1 /\ Forall ebitmap_wf (concat (B <$> l1))).
Proof.
  intros Hc. apply (gives_for_count _ _ _ (fun k l => exists l1, l = l0 ++ l1 /\ length l1 = k /\ Forall P l1 /\ Forall ebitmap_wf (concat (B <$> l1)))).
  - exists []. rewrite app_nil_r. by repeat constructor.
  - intros k l _ (l1 & -> & Hl & HP & HB). eapply gives_impl; [apply Hc|]. intros l' (a & -> & Ha & Hb).
    exists (l1 ++ [a]). rewrite app_assoc, length_app, fmap_app, concat_app, !Forall_app. cbn. rewrite app_nil_r.
    split_and!; [done|lia|done|by constructor|done|done].
Qed.

Lemma reads_items_loop c w P B l0 l n :
  codec_item c w P B -> Forall P l -> Forall storable (concat (B <$> l)) -> n = length l ->
  exists bs, mapM w l = Some bs /\ reads (for_loop n c l0) (concat bs) (l0 ++ l).
Proof.
  intros Hc HP HB ->. rewrite Forall_concat_fmap in HB. revert l0. induction HP as [|a l Ha _ IH]; intros l0.
  - exists []. rewrite app_nil_r. by split; [|apply reads_ret].
  - inv HB as [|? ? Hb HB']. destruct (item_reads l0 a Ha Hb) as (b & Ew & Hr). destruct (IH HB' (l0 ++ [a])) as (bs & Em & Hl).
    exists (b :: bs). cbn [mapM]. rewrite Ew. cbn. rewrite Em. split; [done|]. eapply reads_bind; [exact Hr|].
    by rewrite <- app_assoc in Hl.
Qed.
End Interfaces.

(** ** Symbol tables *)

Record table_fits {D} (size : Z) (P : string -> D -> Prop) (t : hashtab string D) : Prop := mk_table_fits {
  tf_wf : hashtab_wf t;
  tf_size : ht_size t = size;
  tf_hash : ht_hash_value t = symhash;
  tf_cmp : ht_keycmp t = symcmp;
  tf_entries : forall k d, (k, d) ∈ entries t -> name_ok k /\ P k d
}.

Definition otable_fits {D} (size : Z) (P : string -> D -> Prop) (h : option (hashtab string D)) : Prop :=
  exists t, h = Some t /\ table_fits size P t.

Definition empty_table {D} (size : Z) : hashtab string D := mk_hashtab (replicate (Z.to_nat size) []) size 0 symhash symcmp.

Lemma concat_replicate_nil {X} n : concat (replicate n []) = ([] : list X).
Proof. induction n; [done|by cbn]. Qed.

Lemma empty_table_fits {D} size (P : string -> D -> Prop) : 0 < size <= 2 ^ 31 -> table_fits size P (empty_table size).
Proof.
  intros Hs. pose proof (symtab_ops size Hs) as Hops.
  pose proof (hashtab_create_wf (D := D) symhash symcmp size [] Hops ltac:(lia)) as [Hw _]. cbn in Hw.
  constructor; try done. intros k d Hk. unfold entries in Hk. cbn in Hk. rewrite concat_replicate_nil in Hk. by apply not_elem_of_nil in Hk.
Qed.

Lemma empty_table_abs {D} size : hashtab_abs (empty_table (D := D) size) = ∅.
Proof. unfold hashtab_abs, empty_table. cbn [ht_htable]. by rewrite concat_replicate_nil. Qed.

Lemma table_fits_impl {D} size (P Q : string -> D -> Prop) t :
  table_fits size P t -> (forall k d, P k d -> Q k d) -> table_fits size Q t.
Proof. intros [? ? ? ? He] HPQ. constructor; try done. intros k d Hk. destruct (He k d Hk). auto. Qed.

Lemma gives_insert {D} size (P : string -> D -> Prop) h k d :
  otable_fits size P h -> name_ok k -> P k d -> gives (call (hashtab_insert h k d)) (otable_fits size P).
Proof.
  intros (t & -> & [Hw Hs Hh Hc He]) Hk Hd. eapply gives_impl; [apply gives_call|].
  intros h' (m & m' & E). apply hashtab_insert_ok in E as (t' & -> & Hw' & (Es & Eh & Ec) & Hin); [|done].
  exists t'. split; [done|]. constructor; [done|congruence..|]. intros k' d' [[= -> ->]|Hk']%Hin; auto.
Qed.

(** A fresh table of a given size. *)
Lemma symtab_init_ok {D} (s s' : symtab D) size m m' :
  symtab_init s size m = (0, s', m') -> s' = mk_symtab (Some (empty_table size)) 0.
Proof.
  unfold symtab_init, hashtab_create. destruct (kalloc m) as [[] m1]; cbn; [|done].
  destruct (kalloc m1) as [[] m2]; cbn; [|done]. by intros [= <- _].
Qed.

Section Entries.
  Context {D : Type}.

Class codec_entry (size : Z) (c : option (hashtab string D) -> reader (option (hashtab string D)))
    (w : string -> D -> option (list ascii)) (P : string -> D -> Prop) (B : D -> list ebitmap) : Prop := mk_codec_entry {
  entry_gives : forall h, otable_fits size (fun k d => P k d /\ Forall ebitmap_wf (B d)) h ->
    gives (c h) (otable_fits size (fun k d => P k d /\ Forall ebitmap_wf (B d)));
  entry_reads : forall k d h h', name_ok k -> P k d -> Forall storable (B d) -> hashtab_insert h k d [] = Some (0, h', []) ->
    exists b, w k d = Some b /\ reads (c h) b h'
}.

Definition table_bitmaps (B : D -> list ebitmap) (t : hashtab string D) : list ebitmap := concat ((fun kd => B kd.2) <$> entries t).

Lemma gives_entries size c w P B n h :
  codec_entry size c w P B -> otable_fits size (fun k d => P k d /\ Forall ebitmap_wf (B d)) h ->
  gives (for_loop n c h) (otable_fits size (fun k d => P k d /\ Forall ebitmap_wf (B d))).
Proof. intros Hc Hh. apply gives_for; [done|]. intros h' Hh'. by apply entry_gives. Qed.

Lemma table_split size (P : string -> D -> Prop) B t :
  table_fits size (fun k d => P k d /\ Forall ebitmap_wf (B d)) t <-> table_fits size P t /\ Forall ebitmap_wf (table_bitmaps B t).
Proof.
  unfold table_bitmaps. rewrite Forall_concat_fmap, Forall_forall. split.
  - intros [? ? ? ? He]. split; [constructor; try done; intros k d Hk; destruct (He k d Hk) as (? & ? & ?); done|].
    intros [k d] Hk. by destruct (He k d Hk) as (? & ? & ?).
  - intros [[? ? ? ? He] HB]. constructor; try done. intros k d Hk. destruct (He k d Hk). split; [done|].
    split; [done|]. by apply (HB (k, d)).
Qed.

Lemma nel_entries size (P : string -> D -> Prop) t : table_fits size P t -> ht_nel t = Z.of_nat (length (entries t)) /\ in_u 32 (ht_nel t).
Proof. intros Ht. destruct (hwf_nel t (tf_wf _ _ _ Ht)) as [E H]. split; [done|]. unfold in_u, HASHTAB_MAX_NODES in *. lia. Qed.

(** A table that was written is read back into an empty one. *)
Lemma reads_entries size c w P B t n :
  codec_entry size c w P B -> 0 < size <= 2 ^ 31 -> table_fits size P t -> Forall storable (table_bitmaps B t) -> n = Z.to_nat (ht_nel t) ->
  exists b, write_table (Some t) w = Some b /\ reads (for_loop n c (Some (empty_table size))) b (Some t).
Proof.
  intros Hc Hsz Ht HB ->. pose proof (nel_entries _ _ _ Ht) as [-> _]. rewrite Nat2Z.id.
  unfold table_bitmaps in HB. rewrite Forall_concat_fmap, Forall_forall in HB.
  assert (forall k d, (k, d) ∈ entries t -> exists b, w k d = Some b) as Hw.
  { intros k d Hk. destruct (tf_entries _ _ _ Ht k d Hk) as [Hn HP].
    destruct (hashtab_insert_new (empty_table size) k d) as (t' & E & _).
    - apply (tf_wf _ _ _ (empty_table_fits size P Hsz)).
    - by rewrite empty_table_abs.
    - done.
    - destruct (entry_reads k d _ _ Hn HP (HB (k, d) Hk) E) as (b & ? & _). eauto. }
  set (bytes := fun kd : string * D => default [] (w kd.1 kd.2)).
  exists (concat (bytes <$> entries t)). split.
  - apply write_table_spec; [apply Ht|]. intros k d Hk. destruct (Hw k d Hk) as [b E]. unfold bytes. cbn. by rewrite E.
  - pose proof (empty_table_fits (D := D) size P Hsz) as H0.
    apply (reads_table c bytes (fun _ => false)); [apply H0|apply Ht| | | |done|done].
    + destruct Ht as [_ Hs Hh Hcmp _]. by split_and!.
    + intros k. by rewrite empty_table_abs.
    + intros k d h h' Hk _ E. destruct (tf_entries _ _ _ Ht k d Hk) as [Hn HP].
      destruct (entry_reads k d h h' Hn HP (HB (k, d) Hk) E) as (b & Ew & Hr). unfold bytes. cbn. by rewrite Ew.
Qed.
End Entries.

(** ** Proof steps *)

(** One statement of a reader, on the side of the bytes written. *)
Ltac rd_with tac := first [eapply reads_bind; [solve [tac]|] | eapply reads_last; [solve [tac]|]]; cbn beta.

Ltac in_range := repeat constructor; try assumption; try (unfold in_u in *; lia).

Ltac rd :=
  match goal with
  | |- reads (mret _) _ _ => apply reads_ret
  | |- reads (mbind _ kmalloc) _ _ => eapply reads_step; [apply reads_kmalloc|cbn beta]
  | |- reads (mbind _ (guard_ _)) _ _ => eapply reads_step; [apply reads_guard|cbn beta]
  | |- reads (mbind _ (lift _)) _ _ => eapply reads_step; [apply reads_lift|cbv beta iota]
  | |- reads (mbind _ (mret _)) _ _ => eapply reads_step; [apply reads_ret|cbn beta]
  | |- reads (mbind _ (next_u32s _)) _ _ => rd_with ltac:(apply reads_u32s; [reflexivity|in_range]); cbn [item nth]
  | |- reads (mbind _ (next_u16s _)) _ _ => rd_with ltac:(apply reads_u16s; [reflexivity|in_range]); cbn [item nth]
  | |- reads (mbind _ next_u32) _ _ => rd_with ltac:(apply reads_u32; in_range)
  | |- reads (mbind _ (read_name _)) _ _ => rd_with ltac:(apply reads_name; [assumption|reflexivity])
  | |- reads (mbind _ ebitmap_read) _ _ => rd_with ltac:(apply reads_storable; assumption)
  | |- reads (call _) _ _ => apply reads_call
  end.

(** The same on the side of what a successful read establishes. *)
Ltac gv_with lem := eapply gives_bind; [apply lem|cbn beta].

Ltac gv :=
  match goal with
  | |- gives (mret _) _ => apply gives_ret
  | |- gives (fail _) _ => apply gives_fail
  | |- gives fault _ => apply gives_fault
  | |- gives (mbind _ kmalloc) _ => gv_with @gives_any; intros _ _
  | |- gives (mbind _ (guard_ _)) _ => gv_with gives_guard; intros [] ?
  | |- gives (mbind _ (lift _)) _ => gv_with @gives_lift; intros ? ?
  | |- gives (mbind _ (next_u32s _)) _ => gv_with gives_u32s; intros ? [? ?]
  | |- gives (mbind _ (next_u16s _)) _ => gv_with gives_u16s; intros ? [? ?]
  | |- gives (mbind _ next_u32) _ => gv_with gives_u32; intros ? ?
  | |- gives (mbind _ ebitmap_read) _ => gv_with gives_ebitmap; intros ? ?
  | |- gives (mbind _ (read_name _)) _ => gv_with gives_name; [try (apply item_range; [lia|assumption])|intros ? ?]
  end.

Ltac bitmaps_ok := repeat (apply Forall_cons_2; [assumption|]); apply Forall_nil_2.

Lemma item32 l i : Forall (in_u 32) l -> in_u 32 (item l i).
Proof. by apply item_range. Qed.
Lemma item16 l i : Forall (in_u 16) l -> in_u 16 (item l i).
Proof. by apply item_range. Qed.
Lemma u8_in z : in_u 8 (u8 z).
Proof. unfold u8, in_u. apply Z.mod_pos_bound. lia. Qed.
Lemma u16_in z : in_u 16 (u16 z).
Proof. apply u16_range. Qed.

Lemma name_len s : name_ok s -> in_u 32 (strlen s).
Proof. intros [_ H]. unfold in_u, strlen. lia. Qed.

Create HintDb fits.
#[export] Hint Resolve item32 item16 u8_in u16_in name_len : fits.

(** ** Levels, ranges and contexts *)

Definition level_bitmaps (l : mls_level) : list ebitmap := [ml_cat l].
Definition level_fits (l : mls_level) : Prop := in_u 32 (ml_sens l).

#[export] Instance level_codec : codec mls_read_level (fun l => Some (mls_write_level l)) level_fits level_bitmaps.
Proof.
  split.
  - unfold mls_read_level. repeat gv. split; [done|]. bitmaps_ok.
  - intros [sens cat] Hf HB. inv HB as [|? ? Hc _]. unfold level_fits in Hf. cbn in *. eexists. split; [done|].
    unfold mls_write_level, mls_read_level. cbn [ml_sens ml_cat]. repeat rd.
Qed.

Definition range_bitmaps (r : mls_range) : list ebitmap := [ml_cat (mr_low r); ml_cat (mr_high r)].
Definition range_fits (r : mls_range) : Prop := level_fits (mr_low r) /\ level_fits (mr_high r).

#[export] Instance range_codec : codec mls_read_range_helper (fun r => Some (mls_write_range_helper r)) range_fits range_bitmaps.
Proof.
  split.
  - unfold mls_read_range_helper. repeat gv.
    assert (in_u 32 (nth 0 a0 a)) as Hs by (destruct a0; [done|by apply (Forall_cons_1 _ _ _ H2)]).
    eapply (gives_bind _ _ ebitmap_wf).
    + destruct (1 <? a); [apply gives_ebitmap|]. eapply gives_impl; [apply gives_call|]. intros e (m & m' & E).
      injection E as E. destruct (ebitmap_cpy_spec a1 m) as [[m1 E1]|[m1 E1]]; rewrite E1 in E; [by injection E as <- _|done].
    + intros e He. gv. split; [|bitmaps_ok]. split; [done|]. unfold level_fits. cbn. destruct (1 <? a); auto with fits.
  - intros [[s0 c0] [s1 c1]] [H0 H1] HB. unfold level_fits in *. cbn in *. inv HB as [|? ? Hc0 HB']. inv HB' as [|? ? Hc1 _].
    eexists. split; [done|]. unfold mls_write_range_helper, mls_read_range_helper. cbn [mr_low mr_high ml_sens ml_cat].
    destruct (mls_level_eq (mk_mls_level s1 c1) (mk_mls_level s0 c0)) eqn:E.
    + apply andb_prop in E as [Es Ec]. apply Z.eqb_eq in Es. apply ebitmap_cmp_eq in Ec. cbn in Es, Ec. subst.
      change (put_u32s [1; s0]) with (put_u32 1 ++ put_u32s [s0]). rewrite <- app_assoc.
      repeat (rd || done). eapply reads_step; [apply reads_call; by rewrite ebitmap_cpy_ok|]. rd.
    + change (put_u32s [2; s0; s1]) with (put_u32 2 ++ put_u32s [s0; s1]). rewrite <- app_assoc.
      repeat (rd || done). cbn. repeat rd.
Qed.

Definition context_bitmaps (c : context) : list ebitmap := range_bitmaps (c_range c).
Record context_fits (p : policydb) (c : context) : Prop := mk_context_fits {
  xf_user : in_u 32 (c_user c);
  xf_role : in_u 32 (c_role c);
  xf_type : in_u 32 (c_type c);
  xf_range : range_fits (c_range c);
  xf_len : c_len c = 0;
  xf_str : c_str c = None;
  xf_valid : policydb_context_isvalid p c = Some true
}.

Lemma range_zero_fits : range_fits mls_range_zero /\ Forall ebitmap_wf (range_bitmaps mls_range_zero).
Proof. split; [by split|]. pose proof (canon_wf _ ebitmap_init_canon). bitmaps_ok. Qed.

(** Written with ranges, whatever the version. *)
Lemma context_gives p :
  gives (context_read_and_validate p) (fun c => context_fits p c /\ Forall ebitmap_wf (context_bitmaps c)).
Proof.
  unfold context_read_and_validate. gv.
  eapply (gives_bind _ _ (fun r => range_fits r /\ Forall ebitmap_wf (range_bitmaps r))).
  - destruct (_ <=? _); [apply range_codec|apply gives_ret, range_zero_fits].
  - intros r [Hr HB]. repeat gv. subst. split; [|done]. constructor; cbn; auto with fits.
Qed.

Lemma context_reads p c :
  POLICYDB_VERSION_MLS <= policyvers p -> context_fits p c -> Forall storable (context_bitmaps c) ->
  reads (context_read_and_validate p) (context_write c) c.
Proof.
  intros Hv [Hu Hr Ht Hra Hl Hs Hval] HB. destruct c as [u r t l ra s]. cbn in *. subst.
  destruct (codec_reads ra Hra HB) as (b & [= <-] & Hread). unfold context_write, context_read_and_validate. cbn.
  rd. rewrite (proj2 (Z.leb_le _ _)) by done. eapply reads_last; [exact Hread|]. repeat (rd || done).
Qed.

(** ** Permissions and commons *)

Definition no_bitmaps {D} (d : D) : list ebitmap := [].
Definition perm_fits (k : string) (d : perm_datum) : Prop := in_u 32 (pm_value d).

#[export] Instance perm_codec : codec_entry PERM_SYMTAB_SIZE perm_read perm_write perm_fits no_bitmaps.
Proof.
  split.
  - intros h Hh. unfold perm_read. repeat gv. apply gives_insert; [done|done|]. split; [|constructor]. unfold perm_fits. cbn. auto with fits.
  - intros k [v] h h' Hk Hv _ E. pose proof (name_len k Hk). unfold perm_fits in Hv. cbn in Hv. eexists. split; [done|].
    unfold perm_read. cbn [pm_value]. repeat rd. done.
Qed.

Lemma gives_perm_symtab : gives perm_symtab (fun h => h = Some (empty_table PERM_SYMTAB_SIZE)).
Proof.
  unfold perm_symtab. gv_with @gives_call. intros s (m & m' & E). injection E as E. apply symtab_init_ok in E as ->. by gv.
Qed.

Lemma reads_perm_symtab : reads perm_symtab [] (Some (empty_table PERM_SYMTAB_SIZE)).
Proof. eapply reads_step; [by apply reads_call|]. rd. Qed.

(** The permissions of a common or a class. *)
Definition perms_fit (s : symtab perm_datum) : Prop :=
  in_u 32 (st_nprim s) /\ otable_fits PERM_SYMTAB_SIZE perm_fits (st_table s).

Lemma otable_fits_nil {D} size (P : string -> D -> Prop) h :
  otable_fits size (fun k d => P k d /\ Forall ebitmap_wf (no_bitmaps d)) h <-> otable_fits size P h.
Proof.
  split; intros (t & -> & Ht); exists t; (split; [done|]); eapply table_fits_impl; [exact Ht|by intros k d [? _]|exact Ht|].
  intros k d ?. split; [done|constructor].
Qed.

Lemma gives_perms n : gives (for_loop n perm_read (Some (empty_table PERM_SYMTAB_SIZE))) (otable_fits PERM_SYMTAB_SIZE perm_fits).
Proof.
  eapply gives_impl; [apply (gives_entries PERM_SYMTAB_SIZE perm_read perm_write perm_fits no_bitmaps); [apply perm_codec|apply otable_fits_nil]|].
  - eexists. split; [done|]. by apply empty_table_fits.
  - intros h Hh. by apply otable_fits_nil.
Qed.

Lemma reads_perms t n :
  table_fits PERM_SYMTAB_SIZE perm_fits t -> n = Z.to_nat (ht_nel t) ->
  exists b, write_table (Some t) perm_write = Some b /\ reads (for_loop n perm_read (Some (empty_table PERM_SYMTAB_SIZE))) b (Some t).
Proof.
  intros Ht Hn. apply (reads_entries _ _ _ perm_fits no_bitmaps); [apply perm_codec|done|done| |done].
  unfold table_bitmaps, no_bitmaps. apply Forall_concat_fmap. apply Forall_forall. by constructor.
Qed.

Record common_fits (k : string) (d : common_datum) : Prop := mk_common_fits {
  cf_value : in_u 32 (cm_value d);
  cf_perms : perms_fit (cm_permissions d)
}.

#[export] Instance common_codec : codec_entry 2 common_read common_write common_fits no_bitmaps.
Proof.
  split.
  - intros h Hh. unfold common_read. repeat gv. eapply gives_bind; [apply gives_perm_symtab|]. intros perms Hp. cbn beta in Hp. subst perms.
    gv. eapply gives_bind; [apply gives_perms|]. intros perms Hp. apply gives_insert; [done|done|].
    split; [|constructor]. split; [cbn; auto with fits|]. split; cbn; auto with fits.
  - intros k [v [tab np]] h h' Hk [Hv [Hnp (t & Et & Ht)]] _ E. cbn in *. subst tab. destruct (reads_perms t _ Ht eq_refl) as (b & Ew & Hr).
    pose proof (name_len k Hk). destruct (nel_entries _ _ _ Ht) as [_ Hnel]. unfold common_write. cbn. rewrite Ew. eexists. split; [done|].
    unfold common_read. repeat rd. eapply reads_step; [apply reads_perm_symtab|cbn beta]. rd. eapply reads_last; [exact Hr|]. by rd.
Qed.

(** ** Constraints *)

(** The depth of the stack after an operator, as the reader counts it. *)
Definition cons_expr_depth (allowxtarget : bool) (depth : Z) (e : constraint_expr) : option Z :=
  let t := ce_expr_type e in
  if t =? CEXPR_NOT then if depth <? 0 then None else Some depth
  else if (t =? CEXPR_AND) || (t =? CEXPR_OR) then if depth <? 1 then None else Some (depth - 1)
  else if t =? CEXPR_ATTR then if depth =? CEXPR_MAXDEPTH - 1 then None else Some (depth + 1)
  else if t =? CEXPR_NAMES then
    if allowxtarget || negb (nz (ce_attr e .& CEXPR_XTARGET))
    then if depth =? CEXPR_MAXDEPTH - 1 then None else Some (depth + 1)
    else None
  else None.

Fixpoint cons_depths (allowxtarget : bool) (l : list constraint_expr) (depth : Z) : option Z :=
  match l with
  | [] => Some depth
  | e :: l' => depth ← cons_expr_depth allowxtarget depth e; cons_depths allowxtarget l' depth
  end.

Lemma cons_depths_snoc ax l e depth :
  cons_depths ax (l ++ [e]) depth = d ← cons_depths ax l depth; cons_expr_depth ax d e.
Proof.
  revert depth. induction l as [|e0 l IH]; intros depth; cbn [app cons_depths].
  - cbn [mbind option_bind]. by destruct (cons_expr_depth ax depth e).
  - destruct (cons_expr_depth ax depth e0); [|done]. apply IH.
Qed.

Record cexpr_fits (e : constraint_expr) : Prop := mk_cexpr_fits {
  ef_type : in_u 32 (ce_expr_type e);
  ef_attr : in_u 32 (ce_attr e);
  ef_op : in_u 32 (ce_op e);
  ef_names : ce_expr_type e <> CEXPR_NAMES -> ce_names e = ebitmap_init
}.

Lemma gives_cons_expr ax depth expr :
  gives (read_cons_expr ax (depth, expr)) (fun st => exists e, st.2 = expr ++ [e] /\
    cons_expr_depth ax depth e = Some st.1 /\ cexpr_fits e /\ ebitmap_wf (ce_names e)).
Proof.
  assert (ebitmap_wf ebitmap_init) by apply (canon_wf _ ebitmap_init_canon).
  unfold read_cons_expr. repeat gv. unfold cons_expr_depth.
  destruct (item a 0 =? CEXPR_NOT) eqn:E1; [|destruct ((item a 0 =? CEXPR_AND) || (item a 0 =? CEXPR_OR)) eqn:E2;
    [|destruct (item a 0 =? CEXPR_ATTR) eqn:E3; [|destruct (item a 0 =? CEXPR_NAMES) eqn:E4]]]; repeat gv;
    (eexists; split; [done|]; cbn [fst snd ce_expr_type ce_attr ce_op ce_names]; rewrite ?E1, ?E2, ?E3, ?E4;
     split; [|split; [constructor; cbn; auto with fits|done]]).
  - by rewrite (proj1 (negb_true_iff _) H2).
  - by rewrite (proj1 (negb_true_iff _) H2).
  - by rewrite (proj1 (negb_true_iff _) H2).
  - by rewrite H2, (proj1 (negb_true_iff _) H3).
  - intros Hne. by apply Z.eqb_eq in E4.
Qed.

Lemma reads_cons_expr ax depth depth' expr e :
  cexpr_fits e -> storable (ce_names e) -> cons_expr_depth ax depth e = Some depth' ->
  reads (read_cons_expr ax (depth, expr)) (write_cons_expr e) (depth', expr ++ [e]).
Proof.
  intros [Ht Ha Ho Hn] Hs Hd. destruct e as [t at_ op names]. unfold cons_expr_depth in Hd. cbn in *. unfold read_cons_expr, write_cons_expr. cbn.
  destruct (Z.eqb_spec t CEXPR_NAMES) as [->|Hne].
  - cbn in Hd |- *. destruct (ax || _) eqn:Ex; [|done]. destruct (depth =? _) eqn:Ed; [done|]. injection Hd as <-.
    rd. rd. cbn [Z.eqb Pos.eqb orb CEXPR_NAMES CEXPR_NOT CEXPR_AND CEXPR_OR CEXPR_ATTR]. rd; [by rewrite Ex|]. rd; [by apply negb_true_iff|]. repeat rd.
  - rewrite (Hn Hne), app_nil_r. rd. rd. destruct (t =? CEXPR_NOT) eqn:E1; [|destruct ((t =? CEXPR_AND) || (t =? CEXPR_OR)) eqn:E2;
    [|destruct (t =? CEXPR_ATTR) eqn:E3; [|done]]].
    + destruct (depth <? 0) eqn:Ed; [done|]. injection Hd as <-. by repeat rd.
    + destruct (depth <? 1) eqn:Ed; [done|]. injection Hd as <-. by repeat rd.
    + destruct (depth =? CEXPR_MAXDEPTH - 1) eqn:Ed; [done|]. injection Hd as <-. by repeat rd.
Qed.

Record cons_fits (ax : bool) (c : constraint_node) : Prop := mk_cons_fits {
  nf_perms : in_u 32 (cn_permissions c);
  nf_len : in_u 32 (Z.of_nat (length (cn_expr c)));
  nf_expr : Forall cexpr_fits (cn_expr c);
  nf_depth : cons_depths ax (cn_expr c) (-1) = Some 0
}.
Definition cons_bitmaps (c : constraint_node) : list ebitmap := ce_names <$> cn_expr c.

Lemma gives_cons_exprs ax n :
  gives (for_loop n (read_cons_expr ax) (-1, [])) (fun st => length st.2 = n /\ Forall cexpr_fits st.2 /\
    Forall ebitmap_wf (ce_names <$> st.2) /\ cons_depths ax st.2 (-1) = Some st.1).
Proof.
  apply (gives_for_count _ _ _ (fun k st => length st.2 = k /\ Forall cexpr_fits st.2 /\
    Forall ebitmap_wf (ce_names <$> st.2) /\ cons_depths ax st.2 (-1) = Some st.1)); [by repeat constructor|].
  intros k [depth expr] _ (Hl & Hf & Hw & Hd). cbn [fst snd] in *. eapply gives_impl; [apply gives_cons_expr|].
  intros [d' l'] (e & -> & He & Hfe & Hwe). cbn [fst snd] in *. rewrite length_app, fmap_app, !Forall_app, cons_depths_snoc, Hd.
  cbn. rewrite He. split_and!; [lia|done|by constructor|done|by constructor|done].
Qed.

Lemma reads_cons_exprs ax l depth depth' acc :
  Forall cexpr_fits l -> Forall storable (ce_names <$> l) -> cons_depths ax l depth = Some depth' ->
  reads (for_loop (length l) (read_cons_expr ax) (depth, acc)) (concat (write_cons_expr <$> l)) (depth', acc ++ l).
Proof.
  intros Hf. revert depth acc. induction Hf as [|e l He _ IH]; intros depth acc Hs Hd; cbn in *.
  - injection Hd as <-. rewrite app_nil_r. apply reads_ret.
  - inv Hs as [|? ? Hse Hs']. destruct (cons_expr_depth ax depth e) as [d1|] eqn:E1; [|done]. cbn in Hd.
    eapply reads_bind; [by apply reads_cons_expr|]. specialize (IH d1 (acc ++ [e]) Hs' Hd). by rewrite <- app_assoc in IH.
Qed.

#[export] Instance cons_codec ax : codec_item (read_cons_node ax) (fun c => Some (write_cons_node c)) (cons_fits ax) cons_bitmaps.
Proof.
  split.
  - intros l. unfold read_cons_node. repeat gv. eapply gives_bind; [apply gives_cons_exprs|]. intros [depth expr] (Hl & Hf & Hw & Hd).
    cbn [fst snd] in *. gv. gv. eexists. split; [done|]. split; [|done]. apply Z.eqb_eq in H1 as ->.
    constructor; cbn; [auto with fits| |done|done]. rewrite Hl. assert (in_u 32 (item a 1)) as Hr by auto with fits. unfold in_u in *. lia.
  - intros l [perms expr] [Hp Hl He Hd] Hs. cbn in *. eexists. split; [done|]. unfold read_cons_node, write_cons_node. cbn. rd. rd.
    rewrite Nat2Z.id. eapply reads_last; [by apply reads_cons_exprs|]. by repeat rd.
Qed.

Lemma in_u_nat n z : in_u 32 z -> n = Z.to_nat z -> in_u 32 (Z.of_nat n).
Proof. unfold in_u. lia. Qed.

(** A counted list of constraints; the count is an [int]. *)
Definition conss_fit (ax : bool) (l : list constraint_node) : Prop :=
  Forall (cons_fits ax) l /\ Z.of_nat (length l) < 2 ^ 31.
Definition conss_bitmaps (l : list constraint_node) : list ebitmap := concat (cons_bitmaps <$> l).

Lemma gives_conss ax ncons :
  in_u 32 ncons -> gives (read_cons_helper ncons ax) (fun l => conss_fit ax l /\ Forall ebitmap_wf (conss_bitmaps l)).
Proof.
  intros Hn. eapply gives_impl; [apply gives_items, (cons_codec ax)|]. intros l (l1 & -> & Hl & HP & HB). cbn [app].
  split; [|done]. split; [done|]. rewrite Hl. pose proof (s32_range ncons). lia.
Qed.

Lemma reads_conss ax l ncons :
  conss_fit ax l -> Forall storable (conss_bitmaps l) -> ncons = Z.of_nat (length l) ->
  reads (read_cons_helper ncons ax) (write_cons_helper l) l.
Proof.
  intros [Hl Hlen] HB ->. unfold read_cons_helper. rewrite s32_small by lia.
  destruct (reads_items_loop _ _ _ _ [] l (Z.to_nat (Z.of_nat (length l))) (cons_codec ax) Hl HB) as (bs & Em & Hr); [lia|].
  assert (bs = write_cons_node <$> l) as ->; [|done].
  clear -Em. revert bs Em. induction l as [|x l IH]; intros bs; cbn; [by intros [= <-]|].
  destruct (mapM _ l) as [bs'|] eqn:E; [|done]. intros [= <-]. by rewrite (IH bs').
Qed.

(** ** Classes *)

Record class_fits (commons : option (hashtab string common_datum)) (k : string) (d : class_datum) : Prop := mk_class_fits {
  lf_value : in_u 32 (cl_value d);
  lf_perms : perms_fit (cl_permissions d);
  lf_common : match cl_comkey d with
              | Some ck => name_ok ck /\ exists cd, cl_comdatum d = Some cd /\ hashtab_search commons ck = Some (Some cd)
              | None => cl_comdatum d = None
              end;
  lf_constraints : conss_fit false (cl_constraints d);
  lf_validatetrans : conss_fit true (cl_validatetrans d)
}.
Definition class_bitmaps (d : class_datum) : list ebitmap := conss_bitmaps (cl_constraints d) ++ conss_bitmaps (cl_validatetrans d).

Lemma gives_common_key p len2 :
  in_u 32 len2 -> gives (read_common_key p len2) (fun kd => match kd.1 with
    | Some ck => name_ok ck /\ exists cd, kd.2 = Some cd /\ hashtab_search (st_table (p_commons p)) ck = Some (Some cd)
    | None => kd.2 = None
    end).
Proof.
  intros Hl. unfold read_common_key. destruct (nz len2); [|by gv]. gv; [done|]. gv. destruct a0 as [cd|]; gv. cbn. eauto.
Qed.

Lemma class_gives p h :
  otable_fits 32 (fun k d => class_fits (st_table (p_commons p)) k d /\ Forall ebitmap_wf (class_bitmaps d)) h ->
  gives (class_read p h) (otable_fits 32 (fun k d => class_fits (st_table (p_commons p)) k d /\ Forall ebitmap_wf (class_bitmaps d))).
Proof.
  intros Hh. unfold class_read. repeat gv. eapply gives_bind; [apply gives_perm_symtab|]. intros perms Hp. cbn beta in Hp. subst perms. gv.
  eapply gives_bind; [apply gives_common_key; auto with fits|]. intros [comkey comdatum] Hcom. cbn [fst snd] in Hcom.
  eapply gives_bind; [apply gives_perms|]. intros perms Hp. eapply gives_bind; [apply gives_conss; auto with fits|]. intros constraints [Hc HcB].
  eapply (gives_bind _ _ (fun l => conss_fit true l /\ Forall ebitmap_wf (conss_bitmaps l))).
  { destruct (_ <=? _); [|gv; by repeat constructor]. gv. by apply gives_conss. }
  intros validatetrans [Hv HvB]. apply gives_insert; [done|done|]. split; [|by apply Forall_app].
  constructor; cbn; auto with fits. split; cbn; auto with fits.
Qed.

(** No common has the empty name, which a class could not refer to in a file. *)
Definition commons_named (p : policydb) : Prop := forall cd, hashtab_search (st_table (p_commons p)) EmptyString <> Some (Some cd).

#[export] Instance class_codec p :
  POLICYDB_VERSION_VALIDATETRANS <= policyvers p -> commons_named p -> codec_entry 32 (class_read p) class_write (class_fits (st_table (p_commons p))) class_bitmaps | 100.
Proof.
  intros Hvers Hnamed. split; [intros h; apply class_gives|].
  intros k [v ck cd [tab np] cs vt] h h' Hk [Hv [Hnp (t & Et & Ht)] Hcom Hc Hvt] HB E. cbn in *. subst tab.
  apply Forall_app in HB as [HB1 HB2]. destruct (reads_perms t _ Ht eq_refl) as (b & Ew & Hr).
  pose proof (name_len k Hk). destruct (nel_entries _ _ _ Ht) as [_ Hnel]. unfold class_write. cbn. rewrite Ew. eexists. split; [done|].
  assert (in_u 32 (Z.of_nat (length cs)) /\ in_u 32 (Z.of_nat (length vt))) as [Hl1 Hl2].
  { destruct Hc as [_ ?], Hvt as [_ ?]. unfold in_u. lia. }
  set (len2 := match ck with Some ck => strlen ck | None => 0 end).
  assert (in_u 32 len2 /\ reads (read_common_key p len2) (match ck with Some ck => put_name_bytes ck | None => [] end) (ck, cd)) as [Hl3 Hcr].
  { subst len2. destruct ck as [ck|]; [|subst cd; split; [by unfold in_u|apply reads_ret]]. destruct Hcom as (Hck & cd' & -> & Hs).
    pose proof (name_len ck Hck) as Hlen. split; [done|]. unfold read_common_key. unfold nz. rewrite (proj2 (Z.eqb_neq _ _)); cbn [negb].
    - rd. rd; [exact Hs|]. cbv iota. rd.
    - unfold strlen. intros E0. destruct ck; [|cbn in E0; lia]. by eapply Hnamed. }
  unfold class_read. repeat rd. eapply reads_step; [apply reads_perm_symtab|cbn beta]. rd.
  eapply reads_bind; [exact Hcr|]. cbn beta iota. eapply reads_bind; [exact Hr|cbn beta].
  eapply reads_bind; [by apply reads_conss|cbn beta]. rewrite (proj2 (Z.leb_le _ _)) by done. cbv iota.
  eapply reads_last; [rd; by apply reads_conss|]. by rd.
Qed.

(** ** Roles, types, users *)

Record role_fits (k : string) (d : role_datum) : Prop := mk_role_fits {
  rf_value : in_u 32 (r_value d);
  rf_bounds : in_u 32 (r_bounds d)
}.
Definition role_bitmaps (d : role_datum) : list ebitmap := [r_dominates d; r_types d].

Lemma in_u_0 : in_u 32 0.
Proof. done. Qed.
#[export] Hint Resolve in_u_0 : fits.

(** The role [object_r] is in every table and stays as [roles_init] made it. *)
Definition object_role : role_datum := mk_role_datum OBJECT_R_VAL 0 ebitmap_init ebitmap_init.

Lemma role_gives p h :
  otable_fits 16 (fun k d => role_fits k d /\ Forall ebitmap_wf (role_bitmaps d)) h ->
  gives (role_read p h) (otable_fits 16 (fun k d => role_fits k d /\ Forall ebitmap_wf (role_bitmaps d))).
Proof.
  intros Hh. unfold role_read. repeat gv. destruct (_ =? 0); [by repeat gv|]. apply gives_insert; [done|done|].
  split; [|bitmaps_ok]. split; cbn; [auto with fits|]. destruct (has_bounds p); auto with fits.
Qed.

Lemma role_reads p k d h h' :
  name_ok k -> k <> OBJECT_R -> role_fits k d -> Forall storable (role_bitmaps d) -> has_bounds p = true ->
  hashtab_insert h k d [] = Some (0, h', []) -> exists b, role_write p k d = Some b /\ reads (role_read p h) b h'.
Proof.
  intros Hk Hne [Hv Hb] HB Hbd E. destruct d as [v bd dom types]. cbn in *. inv HB as [|? ? Hd HB']. inv HB' as [|? ? Ht _].
  pose proof (name_len k Hk). unfold role_write, role_read. rewrite Hbd. cbn. eexists. split; [done|]. repeat rd.
  rewrite (proj2 (Z.eqb_neq _ _)) by (by rewrite strcmp_eq). by rd.
Qed.

Lemma object_r_reads p h : has_bounds p = true ->
  exists b, role_write p OBJECT_R object_role = Some b /\ reads (role_read p h) b h.
Proof.
  intros Hbd. unfold role_write, role_read. rewrite Hbd. cbn. eexists. split; [done|].
  assert (name_ok OBJECT_R) as Hn by (by split). pose proof (name_len OBJECT_R Hn). assert (in_u 32 OBJECT_R_VAL) by done.
  assert (storable ebitmap_init) by (split; [apply ebitmap_init_canon|done]). repeat rd.
  change (strcmp OBJECT_R OBJECT_R =? 0) with true. cbv iota. by repeat rd.
Qed.

Record type_fits (bounds : bool) (k : string) (d : type_datum) : Prop := mk_type_fits {
  yf_value : in_u 32 (t_value d);
  yf_bounds : in_u 32 (t_bounds d);
  yf_flags : bounds = true -> (t_primary d = 0 \/ t_primary d = 1) /\ (t_attribute d = 0 \/ t_attribute d = 1);
  yf_old : bounds = false -> t_bounds d = 0
}.

Lemma b2i_01 b : b2i b = 0 \/ b2i b = 1.
Proof. destruct b; auto. Qed.
#[export] Hint Resolve b2i_01 : fits.

#[export] Instance type_codec p : has_bounds p = true -> codec_entry 512 (type_read p) (type_write p) (type_fits (has_bounds p)) no_bitmaps | 100.
Proof.
  intros Hbd. split.
  - intros h Hh. rewrite Hbd in Hh. unfold type_read. repeat gv. rewrite Hbd. apply gives_insert; [done|done|]. split; [|constructor].
    constructor; cbn; auto with fits. done.
  - intros k [v bd pr at_] h h' Hk [Hv Hb Hf _] _ E. cbn in *. destruct (Hf Hbd) as [Hpr Hat]. clear Hf. pose proof (name_len k Hk).
    unfold type_write, type_read. rewrite Hbd. cbn. eexists. split; [done|].
    set (prop := type_properties (mk_type_datum v bd pr at_)).
    assert (in_u 32 prop /\ b2i (nz (prop .& TYPEDATUM_PROPERTY_PRIMARY)) = pr /\ b2i (nz (prop .& TYPEDATUM_PROPERTY_ATTRIBUTE)) = at_) as (Hp & E1 & E2).
    { subst prop. destruct Hpr as [-> | ->], Hat as [-> | ->]; by vm_compute. }
    repeat rd. rewrite E1, E2. done.
Qed.

Lemma type_gives p h :
  otable_fits 512 (type_fits (has_bounds p)) h -> gives (type_read p h) (otable_fits 512 (type_fits (has_bounds p))).
Proof.
  intros Hh. unfold type_read. repeat gv. apply gives_insert; [done|done|].
  destruct (has_bounds p) eqn:E; constructor; rewrite ?E; cbn; auto with fits; done.
Qed.

Record user_fits (k : string) (d : user_datum) : Prop := mk_user_fits {
  sf_value : in_u 32 (u_value d);
  sf_bounds : in_u 32 (u_bounds d);
  sf_range : range_fits (u_range d);
  sf_level : level_fits (u_dfltlevel d)
}.
Definition user_bitmaps (d : user_datum) : list ebitmap := u_roles d :: range_bitmaps (u_range d) ++ level_bitmaps (u_dfltlevel d).

Lemma user_gives p h :
  otable_fits 128 (fun k d => user_fits k d /\ Forall ebitmap_wf (user_bitmaps d)) h ->
  gives (user_read p h) (otable_fits 128 (fun k d => user_fits k d /\ Forall ebitmap_wf (user_bitmaps d))).
Proof.
  intros Hh. unfold user_read. repeat gv.
  eapply (gives_bind _ _ (fun rl => (range_fits rl.1 /\ level_fits rl.2) /\ Forall ebitmap_wf (range_bitmaps rl.1 ++ level_bitmaps rl.2))).
  - destruct (_ <=? _).
    + eapply gives_bind; [apply range_codec|]. intros r [Hr HB]. eapply gives_bind; [apply level_codec|]. intros l [Hl HBl]. gv.
      rewrite Forall_app. done.
    + gv. pose proof (canon_wf _ ebitmap_init_canon). split; [done|]. cbn. bitmaps_ok.
  - intros [r l] [[Hr Hl] HB]. cbn [fst snd] in *. apply gives_insert; [done|done|]. split; [|by constructor].
    constructor; cbn; auto with fits. destruct (has_bounds p); auto with fits.
Qed.

#[export] Instance user_codec p :
  has_bounds p = true -> codec_entry 128 (user_read p) (user_write p) user_fits user_bitmaps | 100.
Proof.
  intros Hbd. split; [intros h; apply user_gives|].
  intros k [v bd roles r l] h h' Hk [Hv Hb Hr Hl] HB E. cbn in *. inv HB as [|? ? Hroles HB']. pose proof (name_len k Hk).
  apply (Forall_app _ (range_bitmaps r)) in HB' as [HBr HBl].
  destruct (codec_reads (c := mls_read_range_helper) r Hr HBr) as (br & [= <-] & Hrr).
  destruct (codec_reads (c := mls_read_level) l Hl HBl) as (bl & [= <-] & Hrl).
  unfold user_write, user_read. rewrite Hbd. cbn. eexists. split; [done|]. repeat rd.
  unfold has_bounds in Hbd. rewrite (proj2 (Z.leb_le _ _)) by (apply Z.leb_le in Hbd; unfold POLICYDB_VERSION_MLS, POLICYDB_VERSION_BOUNDARY in *; lia).
  eapply reads_last; [eapply reads_bind; [exact Hrr|]; eapply reads_last; [exact Hrl|]; apply reads_ret|]. cbv beta iota. by rd.
Qed.

(** ** Levels, categories, booleans *)

Record sens_fits (k : string) (d : level_datum) : Prop := mk_sens_fits {
  ff_level : level_fits (l_level d);
  ff_alias : in_u 8 (l_isalias d)
}.
Definition sens_bitmaps (d : level_datum) : list ebitmap := level_bitmaps (l_level d).

Lemma u8_small z : in_u 8 z -> u8 z = z /\ in_u 32 z.
Proof. unfold in_u, u8. intros H. split; [apply Z.mod_small|]; lia. Qed.

#[export] Instance sens_codec : codec_entry 16 sens_read sens_write sens_fits sens_bitmaps.
Proof.
  split.
  - intros h Hh. unfold sens_read. repeat gv. eapply gives_bind; [apply level_codec|]. intros l [Hl HB]. apply gives_insert; [done|done|].
    split; [|done]. split; cbn; auto with fits.
  - intros k [l al] h h' Hk [Hl Ha] HB E. cbn in *. pose proof (name_len k Hk). destruct (u8_small al Ha) as [Ea Ha'].
    destruct (codec_reads (c := mls_read_level) l Hl HB) as (bl & [= <-] & Hrl). unfold sens_write, sens_read. cbn. eexists. split; [done|].
    repeat rd. eapply reads_last; [exact Hrl|]. rd. by rewrite Ea.
Qed.

Record cat_fits (k : string) (d : cat_datum) : Prop := mk_cat_fits {
  kf_value : in_u 32 (cat_value d);
  kf_alias : in_u 8 (cat_isalias d)
}.

#[export] Instance cat_codec : codec_entry 16 cat_read cat_write cat_fits no_bitmaps.
Proof.
  split.
  - intros h Hh. unfold cat_read. repeat gv. apply gives_insert; [done|done|]. split; [|constructor]. split; cbn; auto with fits.
  - intros k [v al] h h' Hk [Hv Ha] _ E. cbn in *. pose proof (name_len k Hk). destruct (u8_small al Ha) as [Ea Ha'].
    unfold cat_write, cat_read. cbn. eexists. split; [done|]. repeat rd. by rewrite Ea.
Qed.

(** The booleans: a store and a table of positions in it. *)
Record bool_fits (store : list cond_bool_datum) (k : string) (loc : nat) : Prop := mk_bool_fits {
  bf_loc : (loc < length store)%nat;
  bf_datum : forall d, store !! loc = Some d -> in_u 32 (cb_value d) /\ (cb_state d = 0 \/ cb_state d = 1)
}.

Lemma bool_gives store h :
  otable_fits 16 (bool_fits store) h ->
  gives (cond_read_bool (store, h)) (fun st => otable_fits 16 (bool_fits st.1) st.2).
Proof.
  intros Hh. unfold cond_read_bool. repeat gv. unfold bool_isvalid in *. cbn in *.
  eapply gives_bind; [apply (gives_insert 16 (bool_fits (store ++ [mk_cond_bool_datum (item a 0) (s32 (item a 1))])))|].
  - destruct Hh as (t & -> & Ht). exists t. split; [done|]. eapply table_fits_impl; [exact Ht|]. intros k loc [Hl Hd].
    split; [rewrite length_app; cbn; lia|]. intros d. rewrite lookup_app_l by done. apply Hd.
  - done.
  - split; [rewrite length_app; cbn; lia|]. intros d. rewrite list_lookup_middle by done. intros [= <-]. cbn.
    split; [auto with fits|]. apply orb_prop in H1 as [?|?]; [left|right]; by apply Z.eqb_eq.
  - intros h' Hh'. gv. done.
Qed.

(** The positions are those of the order in which the table is written. *)
Definition in_order (t : hashtab string nat) (store : list cond_bool_datum) : Prop := (entries t).*2 = seq 0 (length store).

Lemma bools_reads p t :
  table_fits 16 (bool_fits (bool_store p)) t -> in_order t (bool_store p) ->
  exists b, write_table (Some t) (cond_write_bool p) = Some b /\
    reads (for_loop (Z.to_nat (ht_nel t)) cond_read_bool ([], Some (empty_table 16))) b (bool_store p, Some t).
Proof.
  intros Ht Ho. pose proof (nel_entries _ _ _ Ht) as [-> _]. rewrite Nat2Z.id. set (store := bool_store p) in *.
  set (bytes := fun kd : string * nat => default [] (cond_write_bool p kd.1 kd.2)).
  assert (length (entries t) = length store) as Hlen by (rewrite <- (length_fmap snd), Ho; apply length_seq).
  exists (concat (bytes <$> entries t)). split.
  - apply write_table_spec; [apply Ht|]. intros k loc Hk. destruct (tf_entries _ _ _ Ht k loc Hk) as [_ [Hl _]].
    unfold bytes, cond_write_bool. cbn. fold store. by destruct (lookup_lt_is_Some_2 _ _ Hl) as [d ->].
  - pose proof (empty_table_fits (D := nat) 16 (fun _ _ => True) ltac:(lia)) as H0.
    pose proof (reads_table_with cond_read_bool (fun i h => (take i store, h)) bytes (fun _ => false) (empty_table 16) t (length (entries t))) as H.
    cbn beta in H. replace (take (length (entries t)) store) with store in H by (by rewrite Hlen, firstn_all).
    apply H; [apply H0|apply Ht| | | |done|done].
    + destruct Ht as [_ Hs Hh Hcmp _]. by split_and!.
    + intros k. by rewrite empty_table_abs.
    + intros i k loc tc h' Hi _ _ _ E. destruct (tf_entries _ _ _ Ht k loc (list_elem_of_lookup_2 _ _ _ Hi)) as [Hk [Hl Hd]].
      assert (loc = i) as ->.
      { assert ((entries t).*2 !! i = Some loc) as Hi' by (by rewrite list_lookup_fmap, Hi). rewrite Ho in Hi'.
        apply lookup_seq in Hi' as [-> _]. done. }
      destruct (lookup_lt_is_Some_2 _ _ Hl) as [d Ed]. destruct (Hd d Ed) as [Hv Hst]. unfold bytes, cond_write_bool. cbn.
      fold store. rewrite Ed. cbn. pose proof (name_len k Hk). unfold cond_read_bool.
      assert (in_u 32 (cb_state d) /\ s32 (cb_state d) = cb_state d) as [Hs1 Hs2] by (destruct Hst as [-> | ->]; done).
      rd. rd. rewrite Hs2. rd; [unfold bool_isvalid; cbn; destruct Hst as [-> | ->]; done|]. rd.
      eapply reads_step; [apply reads_call; rewrite length_take_le by lia; exact E|]. cbn beta.
      rewrite (take_S_r _ _ d) by done. destruct d. rd.
Qed.
