(* ===== verification/PolicyRules.v ===== *)
(** * Rules read and written: access vector tables and conditionals

    The table of unconditional rules is written slot by slot, so that reading
    it back appends every rule to its chain.  The rules of the conditionals are
    written in the order of the lists that point to them, the order in which
    they were inserted: reading repeats the insertions one by one. *)

From Stdlib Require Import Ascii String.
From S2P Require Import Prelude Ebitmap Hashtab PolicyFile Context Sidtab Avtab Policydb Mls PolicydbOps Conditional PolicyRead PolicyWrite PolicyTables PolicyCodec.

(** ** One rule *)

Record rule_valid (p : policydb) (key : avtab_key) (d : Z) : Prop := mk_rule_valid {
  rv_key : key_ok key;
  rv_ids : policydb_type_isvalid p (ak_source_type key) && policydb_type_isvalid p (ak_target_type key) &&
           policydb_class_isvalid p (ak_target_class key) = true;
  rv_spec : length (List.filter (fun spec => nz (ak_specified key .& spec)) spec_order) = 1%nat;
  rv_datum : in_u 32 d;
  rv_type : negb (nz (ak_specified key .& AVTAB_TYPE)) || policydb_type_isvalid p d = true
}.

Section Item.
  Context {A : Type} (p : policydb) (insertf : avtab_key -> Z -> A -> kmem -> option (Z * A * kmem)).

Lemma gives_avtab_item a :
  POLICYDB_VERSION_AVTAB <= policyvers p ->
  gives (avtab_read_item p insertf a) (fun a' => exists key d m m', rule_valid p key d /\ insertf key d a m = Some (0, a', m')).
Proof.
  intros Hv. unfold avtab_read_item. rewrite (proj2 (Z.ltb_ge _ _)) by done. repeat gv. eapply gives_impl; [apply gives_call|].
  intros a' (m & m' & E). eexists _, _, m, m'. split; [|exact E]. apply Z.eqb_eq in H2. constructor; try done; [|lia].
  split; cbn; auto with fits.
Qed.

Lemma reads_avtab_item a a' n :
  POLICYDB_VERSION_AVTAB <= policyvers p -> rule_valid p (an_key n) (an_datum n) ->
  insertf (an_key n) (an_datum n) a [] = Some (0, a', []) -> reads (avtab_read_item p insertf a) (avtab_write_item n) a'.
Proof.
  intros Hv [[K1 K2 K3 K4] Hids Hsp Hd Ht] E. unfold avtab_read_item, avtab_write_item. rewrite (proj2 (Z.ltb_ge _ _)) by done.
  destruct n as [id [s t c sp] d]. cbn [an_key an_datum ak_source_type ak_target_type ak_target_class ak_specified] in *.
  rd. rd; [done|]. rd; [by rewrite Hsp|]. rd. rd; [done|]. by rd.
Qed.

Lemma spec_range spec (b : bool) : spec ∈ spec_order -> in_u 16 (spec .| (if b then AVTAB_ENABLED else 0)).
Proof.
  assert (Forall (fun spec => in_u 16 (spec .| AVTAB_ENABLED) /\ in_u 16 (spec .| 0)) spec_order) as H.
  { unfold spec_order. repeat (apply Forall_cons_2; [split; vm_compute; split; congruence|]). apply Forall_nil_2. }
  intros Hin. rewrite Forall_forall in H. destruct (H spec Hin). by destruct b.
Qed.

(** Whatever the version, only keys that fit are inserted. *)
Lemma item_inv (J : A -> Prop) a :
  (forall k d a m a' m', J a -> key_ok k -> insertf k d a m = Some (0, a', m') -> J a') ->
  J a -> gives (avtab_read_item p insertf a) J.
Proof.
  intros Hins Ha. unfold avtab_read_item. destruct (_ <? _).
  - unfold avtab_read_old. repeat gv.
    assert (forall i, gives (read_u16_of a1 a0 i) (in_u 16)) as Hu.
    { intros i. unfold read_u16_of. eapply gives_bind; [apply gives_any|]. intros v _. repeat gv. auto with fits. }
    eapply gives_bind; [apply Hu|]. intros source Hs. eapply gives_bind; [apply Hu|]. intros target Ht.
    eapply gives_bind; [apply Hu|]. intros class Hc. eapply gives_bind; [apply gives_any|]. intros val _. repeat gv.
    eapply (gives_bind _ _ (fun r => J r.2)); [|intros [items a'] Ha'; gv; by gv].
    set (enabled := if nz _ then AVTAB_ENABLED else 0). clear H3 H4.
    assert (forall specs items a, Forall (fun spec => spec ∈ spec_order) specs -> J a ->
      gives (read_specs insertf specs (fun spec => mk_avtab_key source target class (spec .| enabled)) val a1 a0 items a) (fun r => J r.2)) as Hloop.
    { induction specs as [|spec specs IH]; intros items a2 Hsp Ha2; cbn [read_specs]; [by gv|]. inv Hsp as [|? ? Hin Hsp'].
      destruct (nz (val .& spec)); [|by apply IH]. eapply gives_bind; [apply gives_any|]. intros data _.
      eapply gives_bind; [apply gives_call|]. intros a3 (m & m' & E). apply IH; [done|]. eapply Hins; [exact Ha2| |exact E].
      split; [done..|]. by apply spec_range. }
    apply Hloop; [|done]. apply Forall_forall. auto.
  - repeat gv. eapply gives_impl; [apply gives_call|]. intros a' (m & m' & E). eapply Hins; [exact Ha| |exact E]. split; cbn; auto with fits.
Qed.
End Item.

(** ** Insertions do not depend on the allocator, once they succeed *)

Lemma avtab_chain_mem dup id key sp d c m l m' :
  avtab_chain_insert dup id key sp d c m = (0, l, m') -> avtab_chain_insert dup id key sp d c [] = (0, l, []).
Proof.
  revert l m'. induction c as [|n c IH]; intros l m'; cbn [avtab_chain_insert]; unfold avtab_insert_node; cbn [kalloc].
  - destruct (kalloc m) as [[] m1]; cbn; [|done]. by intros [= <- _].
  - destruct (avtab_match _ _ _).
    + destruct dup; [done|]. destruct (kalloc m) as [[] m1]; cbn; [|done]. by intros [= <- _].
    + destruct (avtab_past _ _); [destruct (kalloc m) as [[] m1]; cbn; [|done]; by intros [= <- _]|].
      destruct (avtab_chain_insert dup id key sp d c m) as [[rc l1] m1] eqn:E. intros [= -> <- _]. by rewrite (IH _ _ eq_refl).
Qed.

Lemma avtab_insert_mem h k d m h' m' : avtab_insert h k d m = Some (0, h', m') -> avtab_insert h k d [] = Some (0, h', []).
Proof.
  unfold avtab_insert. destruct (at_htable h) as [ht|]; [|done]. destruct (ht !! _) as [c|]; [|done]. cbn [mbind option_bind].
  destruct (avtab_chain_insert _ _ _ _ _ _ m) as [[rc l] m1] eqn:E. destruct (nz rc) eqn:Er; [by intros [= -> _ _]|].
  apply nz_false in Er as ->. rewrite (avtab_chain_mem _ _ _ _ _ _ _ _ _ E). by intros [= <- _].
Qed.

Lemma avtab_nonunique_mem h k d m id h' m' :
  avtab_insert_nonunique h k d m = Some (Some id, h', m') -> avtab_insert_nonunique h k d [] = Some (Some id, h', []).
Proof.
  unfold avtab_insert_nonunique. destruct (at_htable h) as [ht|]; [|done]. destruct (ht !! _) as [c|]; [|done]. cbn [mbind option_bind].
  destruct (avtab_chain_insert _ _ _ _ _ _ m) as [[rc l] m1] eqn:E. destruct (nz rc) eqn:Er; [done|].
  apply nz_false in Er as ->. rewrite (avtab_chain_mem _ _ _ _ _ _ _ _ _ E). by intros [= <- <- _].
Qed.

Lemma avtab_alloc_mem h n m h' m' : avtab_alloc h n m = (0, h', m') -> avtab_alloc h n [] = (0, h', []).
Proof.
  unfold avtab_alloc. destruct (n =? 0); [by intros [= <- _]|]. generalize (avtab_shift 32 n 0). intros sh.
  generalize (u32 (1 .<< (if 2 <? sh then sh - 2 else sh))). intros ns.
  generalize (if MAX_AVTAB_HASH_BUCKETS <? ns then MAX_AVTAB_HASH_BUCKETS else ns). intros ns'.
  destruct (kalloc m) as [[] m1]; cbn [negb kalloc]; [|discriminate]. intros H. apply pair_eq in H as [H _]. by rewrite H.
Qed.

(** ** The table of rules *)

(** The table [avtab_alloc] makes for a number of rules. *)
Definition fresh_avtab (n : Z) : avtab := (avtab_alloc avtab_zero n []).1.2.

(** No two rules overlap: what [avtab_insert] checks. *)
Definition avtab_unique (h : avtab) : Prop := forall n1 n2, n1 ∈ avtab_nodes h -> n2 ∈ avtab_nodes h ->
  avtab_match (an_key n1) (avtab_spec (ak_specified (an_key n1))) (an_key n2) = true -> n1 = n2.

Record avtab_fits (p : policydb) (h : avtab) : Prop := mk_avtab_fits {
  vf_wf : avtab_wf h;
  vf_table : at_htable h <> None;
  vf_unique : avtab_unique h;
  vf_rules : Forall (fun n => rule_valid p (an_key n) (an_datum n)) (avtab_nodes h);
  vf_ids : at_ids h = length (avtab_nodes h);
  vf_nel : at_nel h = Z.of_nat (length (avtab_nodes h))
}.

Definition same_slots (h1 h2 : avtab) : Prop := at_nslot h1 = at_nslot h2 /\ at_mask h1 = at_mask h2.

Lemma match_sym a b :
  avtab_match a (avtab_spec (ak_specified a)) b = avtab_match b (avtab_spec (ak_specified b)) a.
Proof.
  unfold avtab_match. rewrite (Z.eqb_sym (ak_source_type a)), (Z.eqb_sym (ak_target_type a)), (Z.eqb_sym (ak_target_class a)).
  f_equal. f_equal. unfold avtab_spec, u16. rewrite <- !Z.land_ones by lia. bitwise i Hi.
  by destruct (Z.testbit (ak_specified a) i), (Z.testbit (ak_specified b) i), (Z.testbit (not32 _) i), (Z.testbit (Z.ones 16) i).
Qed.

Lemma insert_slots h k d m h' m' : avtab_insert h k d m = Some (0, h', m') -> same_slots h' h /\ at_htable h' <> None.
Proof.
  unfold avtab_insert. destruct (at_htable h) as [ht|]; [|done]. destruct (ht !! _) as [c|]; [|done]. cbn [mbind option_bind].
  destruct (avtab_chain_insert _ _ _ _ _ _ m) as [[rc l] m1]. destruct (nz rc) eqn:Er; [by intros [= -> _ _]|].
  by intros [= <- _].
Qed.

Lemma insert_fits p h k d m h' m' :
  avtab_fits p h -> rule_valid p k d -> avtab_insert h k d m = Some (0, h', m') -> Z.of_nat (length (avtab_nodes h)) + 1 < 2 ^ 32 ->
  avtab_fits p h' /\ length (avtab_nodes h') = S (length (avtab_nodes h)).
Proof.
  intros [Hw Ht Hu Hr Hi Hn] Hv E Hlen. destruct (avtab_insert_spec h k d m Hw (rv_key _ _ _ Hv)) as (rc & h1 & m1 & E1 & Hcase).
  pose proof (insert_slots _ _ _ _ _ _ E) as [_ Ht']. rewrite E in E1. injection E1 as <- <- <-.
  destruct Hcase as [([=] & _)|[([=] & _)|[([=] & _)|(_ & Hno & Hw' & Hp & Hn' & Hi')]]].
  assert (length (avtab_nodes h') = S (length (avtab_nodes h))) as Hl by (by rewrite Hp).
  split; [|done]. constructor; try done; [|by rewrite Hp; constructor|by rewrite Hl, Hi', Hi|by rewrite Hn', Hl, Hn, u32_small; lia].
  assert (forall n, n ∈ avtab_nodes h -> avtab_match k (avtab_spec (ak_specified k)) (an_key n) = true -> False) as Hnone.
  { intros n Hin Hm. unfold avtab_hits in Hno. assert (n ∈ ([] : list avtab_node)) as []%not_elem_of_nil.
    rewrite <- Hno. by apply list_elem_of_filter. }
  intros n1 n2 H1 H2 Hm. rewrite Hp in H1, H2. apply elem_of_cons in H1 as [->|H1], H2 as [->|H2]; [done| | |by apply Hu].
  - cbn in Hm. by destruct (Hnone n2).
  - cbn in Hm. rewrite match_sym in Hm. by destruct (Hnone n1).
Qed.

Lemma avtab_alloc_rc h n rc h' m' : avtab_alloc h n [] = (rc, h', m') -> rc = 0.
Proof.
  intros E. enough ((avtab_alloc h n []).1.1 = 0) by by rewrite E in *. unfold avtab_alloc. by destruct (n =? 0).
Qed.

Lemma fresh_fits p n : 0 < n < 2 ^ 32 -> avtab_fits p (fresh_avtab n) /\ avtab_nodes (fresh_avtab n) = [].
Proof.
  intros Hn. pose proof (avtab_alloc_spec avtab_zero n [] ltac:(lia)) as Ha. unfold fresh_avtab.
  destruct (avtab_alloc avtab_zero n []) as [[rc h] m] eqn:E. destruct Ha as (Hi & [(_ & ? & _)|[(_ & _ & Ht & Hw & Hnd & Hnel)|(-> & _)]]); [lia| |].
  - cbn [fst snd]. split; [|done]. constructor; rewrite ?Hnd; try done. intros n1 n2 H1. rewrite Hnd in H1. by apply not_elem_of_nil in H1.
  - by apply avtab_alloc_rc in E.
Qed.

Lemma avtab_alloc_fresh h n m h' m' :
  at_ids h = 0%nat -> n <> 0 -> avtab_alloc h n m = (0, h', m') -> h' = fresh_avtab n.
Proof.
  intros Hi Hn E. apply avtab_alloc_mem in E. unfold fresh_avtab. revert E. unfold avtab_alloc.
  rewrite (proj2 (Z.eqb_neq _ _)) by done. cbn [kalloc negb fst snd]. rewrite Hi. cbn [avtab_zero at_ids].
  generalize (if MAX_AVTAB_HASH_BUCKETS <? u32 (1 .<< (if 2 <? avtab_shift 32 n 0 then avtab_shift 32 n 0 - 2 else avtab_shift 32 n 0))
              then MAX_AVTAB_HASH_BUCKETS else u32 (1 .<< (if 2 <? avtab_shift 32 n 0 then avtab_shift 32 n 0 - 2 else avtab_shift 32 n 0))).
  intros ns H. apply pair_eq in H as [H _]. apply pair_eq in H as [_ H]. done.
Qed.

(** What [avtab_read] gives. *)
Lemma gives_avtab p a :
  POLICYDB_VERSION_AVTAB <= policyvers p -> at_ids a = 0%nat ->
  gives (avtab_read a p) (fun h => avtab_fits p h /\ 0 < at_nel h < 2 ^ 32 /\ same_slots h (fresh_avtab (at_nel h))).
Proof.
  intros Hv Ha. unfold avtab_read. gv. gv. eapply gives_bind; [apply gives_call|]. intros h0 (m & m' & E). injection E as E.
  assert (a0 <> 0) as Hne by (unfold nz in H0; destruct (Z.eqb_spec a0 0); done).
  apply avtab_alloc_fresh in E as ->; [|done..]. unfold in_u in H. destruct (fresh_fits p a0 ltac:(lia)) as [Hf Hnd].
  eapply gives_impl.
  - apply (gives_for_count _ _ _ (fun k h => avtab_fits p h /\ length (avtab_nodes h) = k /\ same_slots h (fresh_avtab a0))).
    + by rewrite Hnd.
    + intros k h Hk (Hfh & Hl & Hs). eapply gives_impl; [by apply gives_avtab_item|]. intros h' (key & d & m1 & m1' & Hr & Ei).
      destruct (insert_fits p h key d m1 h' m1' Hfh Hr Ei ltac:(lia)) as [Hf' Hl']. split; [done|]. split; [lia|].
      destruct (insert_slots _ _ _ _ _ _ Ei) as [[E1 E2] _], Hs. split; congruence.
  - intros h (Hfh & Hl & Hs). cbn beta. assert (at_nel h = a0) as -> by (rewrite (vf_nel _ _ Hfh); lia). split; [done|]. split; [lia|done].
Qed.

(** *** Reading the table back *)

(** The rules of a table are numbered in the order in which they are written. *)
Definition rules_in_order (h : avtab) : Prop := an_id <$> avtab_nodes h = seq 0 (length (avtab_nodes h)).

(** The table when the first [i] rules have been read. *)
Definition first_rules (h : avtab) (i : nat) : avtab :=
  mk_avtab (fmap (M := list) (filter (fun n => (an_id n < i)%nat)) <$> at_htable h) (Z.of_nat i) (at_nslot h) (at_mask h) i.

Lemma avtab_chain_append dup id key sp d c :
  Forall (fun n => avtab_match key sp (an_key n) = false /\ avtab_past key (an_key n) = false) c ->
  avtab_chain_insert dup id key sp d c [] = (0, c ++ [mk_avtab_node id key d], []).
Proof.
  induction 1 as [|n c [Hm Hp] _ IH]; [done|]. cbn [avtab_chain_insert app]. by rewrite Hm, Hp, IH.
Qed.

Definition id_lt (a b : avtab_node) : Prop := (an_id a < an_id b)%nat.

Lemma in_order_sorted l k : an_id <$> l = seq k (length l) -> StronglySorted id_lt l.
Proof.
  revert k. induction l as [|n l IH]; intros k; cbn; [constructor|]. intros [= Hn Hl]. constructor; [by apply (IH (S k))|].
  apply Forall_forall. intros x Hx. apply (list_elem_of_fmap_2 an_id) in Hx. unfold id_lt. rewrite Hl in Hx. apply elem_of_seq in Hx. lia.
Qed.

Lemma sorted_concat {X} (R : X -> X -> Prop) ls i c :
  StronglySorted R (concat ls) -> ls !! i = Some c -> StronglySorted R c.
Proof.
  revert i. induction ls as [|c0 ls IH]; intros i Hs Hi; [done|]. cbn in Hs.
  assert (StronglySorted R c0 /\ StronglySorted R (concat ls)) as [H0 H1].
  { split; [by eapply StronglySorted_app_1_l|by eapply StronglySorted_app_1_r]. }
  destruct i; [by injection Hi as <-|by eapply IH].
Qed.

(** Cutting a chain at a rule it has. *)
Lemma filter_next c n :
  StronglySorted id_lt c -> n ∈ c ->
  filter (fun x => (an_id x < S (an_id n))%nat) c = filter (fun x => (an_id x < an_id n)%nat) c ++ [n].
Proof.
  assert (forall i c, Forall (fun x => ~ (an_id x < i)%nat) c -> filter (fun x => (an_id x < i)%nat) c = []) as Hnone.
  { intros i c'. induction 1 as [|x l Hx _ IH]; [done|]. by rewrite filter_cons, decide_False. }
  induction 1 as [|x c Hs IH Hx]; [by intros ?%not_elem_of_nil|]. rewrite elem_of_cons. intros Hn. rewrite Forall_forall in Hx.
  destruct (decide (x = n)) as [->|Hne].
  - rewrite !filter_cons, decide_True, decide_False by lia. rewrite !Hnone; [done|..]; apply Forall_forall; intros y Hy%Hx; unfold id_lt in Hy; lia.
  - destruct Hn as [->|Hn]; [done|]. specialize (Hx n Hn) as Hlt. unfold id_lt in Hlt.
    rewrite !filter_cons, !decide_True by lia. cbn. by rewrite IH.
Qed.

Lemma filter_same (c : list avtab_node) n :
  (forall x, x ∈ c -> an_id x <> an_id n) ->
  filter (fun x => (an_id x < S (an_id n))%nat) c = filter (fun x => (an_id x < an_id n)%nat) c.
Proof.
  induction c as [|x c IH]; intros Hne; [done|]. rewrite !filter_cons, IH by (intros y Hy; apply Hne; by apply list_elem_of_further).
  specialize (Hne x (list_elem_of_here _ _)). repeat case_decide; done || lia.
Qed.

Lemma sorted_before (R : avtab_node -> avtab_node -> Prop) c x n :
  StronglySorted R c -> StronglySorted id_lt c -> x ∈ c -> n ∈ c -> (an_id x < an_id n)%nat -> R x n.
Proof.
  induction 1 as [|y c Hs IH Hy]; intros Hid Hx Hn Hlt; [by apply not_elem_of_nil in Hx|].
  apply StronglySorted_inv in Hid as [Hid Hyid]. rewrite Forall_forall in Hy, Hyid.
  apply elem_of_cons in Hx as [->|Hx], Hn as [->|Hn]; [lia|by apply Hy| |by apply IH].
  specialize (Hyid x Hx). unfold id_lt in Hyid. lia.
Qed.

Section Replay.
  Context (p : policydb) (h : avtab) (Hfit : avtab_fits p h) (Hord : rules_in_order h) (Hlen : Z.of_nat (length (avtab_nodes h)) < 2 ^ 32).

Lemma replay_id i n : avtab_nodes h !! i = Some n -> an_id n = i.
Proof.
  intros Hi. assert ((an_id <$> avtab_nodes h) !! i = Some (an_id n)) as H by (by rewrite list_lookup_fmap, Hi).
  rewrite Hord in H. apply lookup_seq in H as [-> _]. done.
Qed.

Lemma replay_slot ht n : at_htable h = Some ht -> n ∈ avtab_nodes h ->
  exists c, ht !! Z.to_nat (avtab_hash (an_key n) (at_mask h)) = Some c /\ n ∈ c.
Proof.
  intros Hht Hn. unfold avtab_nodes in Hn. rewrite Hht in Hn. apply list_elem_of_In, in_concat in Hn as (c & Hc & Hn).
  apply list_elem_of_In in Hc, Hn. apply list_elem_of_lookup in Hc as [j Hj].
  pose proof (awf_slot h (vf_wf _ _ Hfit) ht j c Hht Hj) as HF. rewrite Forall_forall in HF. exists c. by rewrite (HF n Hn).
Qed.

(** The next rule is appended to its chain. *)
Lemma first_rules_step i n :
  avtab_nodes h !! i = Some n ->
  avtab_insertf (an_key n) (an_datum n) (first_rules h i) [] = Some (0, first_rules h (S i), []).
Proof.
  intros Hi. pose proof (replay_id i n Hi) as Hid. pose proof (list_elem_of_lookup_2 _ _ _ Hi) as Hn.
  destruct (at_htable h) as [ht|] eqn:Hht; [|by destruct (vf_table _ _ Hfit)].
  destruct (replay_slot ht n Hht Hn) as (c & Hc & Hnc). set (s := Z.to_nat (avtab_hash (an_key n) (at_mask h))) in *.
  assert (StronglySorted id_lt (concat ht)) as Hsid.
  { pose proof (in_order_sorted _ 0 Hord) as H. unfold avtab_nodes in H. by rewrite Hht in H. }
  assert (forall j c', ht !! j = Some c' -> Forall (fun x => x ∈ avtab_nodes h) c') as Hin.
  { intros j c' Hj. apply Forall_forall. intros x Hx. unfold avtab_nodes. rewrite Hht.
    apply list_elem_of_In, in_concat. exists c'. split; apply list_elem_of_In; [by eapply list_elem_of_lookup_2|done]. }
  pose proof (sorted_concat _ _ _ _ Hsid Hc) as Hcid. pose proof (Hin _ _ Hc) as Hcin. rewrite Forall_forall in Hcin.
  assert (StronglySorted key_le c) as Hcs by (eapply Forall_lookup_1; [by apply (awf_sorted h (vf_wf _ _ Hfit))|done]).
  unfold avtab_insertf, avtab_insert. unfold first_rules at 1. cbn [at_htable at_mask at_ids]. rewrite Hht. cbn [fmap option_fmap option_map].
  change (at_mask (first_rules h i)) with (at_mask h). change (at_ids (first_rules h i)) with i.
  fold s. rewrite list_lookup_fmap, Hc. cbn [fmap option_fmap option_map mbind option_bind].
  rewrite avtab_chain_append.
  2: { apply Forall_forall. intros x [Hx Hxc]%list_elem_of_filter. split.
       - destruct (avtab_match _ _ _) eqn:Em; [|done]. apply (vf_unique _ _ Hfit) in Em; [|done|by apply Hcin]. subst x. lia.
       - apply (sorted_before key_le c x n); [done..|lia]. }
  cbn [nz Z.eqb negb]. do 3 f_equal. unfold avtab_set_slot, first_rules. cbn [at_htable at_nel at_nslot at_mask at_ids]. rewrite Hht.
  rewrite u32_small by (apply lookup_lt_Some in Hi; lia). f_equal; [|lia]. cbn [fmap option_fmap option_map]. f_equal.
  replace (mk_avtab_node i (an_key n) (an_datum n)) with n by (destruct n; cbn in *; by subst). fold s. apply list_eq. intros j.
  rewrite list_lookup_fmap. destruct (decide (j = s)) as [->|Hne].
  - rewrite list_lookup_insert_eq by (rewrite length_fmap; by eapply lookup_lt_Some). rewrite Hc. cbn. f_equal.
    rewrite <- Hid. symmetry. by apply filter_next.
  - rewrite list_lookup_insert_ne, list_lookup_fmap by done. destruct (ht !! j) as [c'|] eqn:Hj; [|done]. cbn. f_equal.
    rewrite <- Hid. symmetry. apply filter_same. intros x Hx Hxid.
    assert (x = n) as ->.
    { pose proof (Hin _ _ Hj) as HF. rewrite Forall_forall in HF. specialize (HF x Hx). apply list_elem_of_lookup in HF as [k Hk].
      pose proof (replay_id k x Hk). assert (k = i) as -> by lia. congruence. }
    pose proof (awf_slot h (vf_wf _ _ Hfit) ht j c' Hht Hj) as HF. rewrite Forall_forall in HF. apply Hne. symmetry. exact (HF n Hx).
Qed.

Lemma reads_rules l1 l2 :
  POLICYDB_VERSION_AVTAB <= policyvers p -> avtab_nodes h = l1 ++ l2 ->
  reads (for_loop (length l2) (avtab_read_item p avtab_insertf) (first_rules h (length l1))) (concat (avtab_write_item <$> l2))
        (first_rules h (length (avtab_nodes h))).
Proof.
  intros Hv. revert l1. induction l2 as [|n l2 IH]; intros l1 E.
  - rewrite E, app_nil_r. apply reads_ret.
  - cbn [length for_loop fmap list_fmap concat]. assert (avtab_nodes h !! length l1 = Some n) as Hn by (rewrite E; by apply list_lookup_middle).
    eapply reads_bind.
    + apply reads_avtab_item; [done| |by apply first_rules_step].
      exact (Forall_lookup_1 _ _ _ _ (vf_rules _ _ Hfit) Hn).
    + specialize (IH (l1 ++ [n])). rewrite length_app, Nat.add_1_r in IH. apply IH. by rewrite <- app_assoc.
Qed.

Lemma first_rules_all : first_rules h (length (avtab_nodes h)) = h.
Proof.
  unfold first_rules. rewrite <- (vf_nel _ _ Hfit), <- (vf_ids _ _ Hfit). destruct h as [[ht|] nel ns mask ids] eqn:Eh; [|done].
  cbn. f_equal. f_equal. rewrite <- (list_fmap_id ht) at 2. apply list_fmap_ext. intros j c Hj. unfold id.
  pose proof (awf_ids _ (vf_wf _ _ Hfit)) as [_ Hids]. unfold avtab_nodes in Hids. cbn in Hids. rewrite Forall_concat in Hids.
  pose proof (Forall_lookup_1 _ _ _ _ Hids Hj) as Hc. cbn in Hc. clear -Hc.
  induction Hc as [|n c Hn _ IH]; [done|]. rewrite filter_cons, decide_True by done. by rewrite IH.
Qed.

Lemma first_rules_none ns mask : at_nslot h = ns -> at_mask h = mask ->
  first_rules h 0 = mk_avtab (Some (replicate (Z.to_nat ns) [])) 0 ns mask 0.
Proof.
  intros <- <-. unfold first_rules. destruct (at_htable h) as [ht|] eqn:Hht; [|by destruct (vf_table _ _ Hfit)].
  destruct (awf_len h (vf_wf _ _ Hfit) ht Hht) as [<- _]. cbn. f_equal. f_equal. rewrite Nat2Z.id. clear.
  induction ht as [|c ht IH]; cbn; [done|]. rewrite IH. f_equal. induction c as [|n c IHc]; [done|]. by rewrite filter_cons, decide_False by lia.
Qed.
End Replay.

Lemma fresh_avtab_eq n : n <> 0 ->
  fresh_avtab n = mk_avtab (Some (replicate (Z.to_nat (at_nslot (fresh_avtab n))) [])) 0 (at_nslot (fresh_avtab n)) (at_mask (fresh_avtab n)) 0.
Proof. intros Hn. unfold fresh_avtab, avtab_alloc. rewrite (proj2 (Z.eqb_neq _ _)) by done. reflexivity. Qed.

Lemma reads_avtab p h a :
  POLICYDB_VERSION_AVTAB <= policyvers p -> at_ids a = 0%nat -> avtab_fits p h -> rules_in_order h -> 0 < at_nel h < 2 ^ 32 ->
  same_slots h (fresh_avtab (at_nel h)) ->
  exists b, avtab_write h = Some b /\ reads (avtab_read a p) b h.
Proof.
  intros Hv Ha Hf Ho Hn [Hs Hm]. pose proof (vf_nel _ _ Hf) as Hnel. unfold avtab_write.
  destruct (at_htable h) as [ht|] eqn:Hht; [|by destruct (vf_table _ _ Hf)]. destruct (awf_len h (vf_wf _ _ Hf) ht Hht) as [Hlen _].
  rewrite (proj2 (Z.ltb_ge _ _)) by lia. rewrite take_ge by lia. eexists. split; [done|]. unfold avtab_read.
  eapply reads_bind; [apply reads_u32; in_range|cbn beta]. rd; [unfold nz; by rewrite (proj2 (Z.eqb_neq _ _)) by lia|].
  eapply reads_step.
  { apply reads_call. destruct (avtab_alloc a (at_nel h) []) as [[rc h0] m'] eqn:E. pose proof (avtab_alloc_rc _ _ _ _ _ E) as ->.
    pose proof (avtab_alloc_mem _ _ _ _ _ E) as E'. rewrite E in E'. injection E' as ->.
    apply avtab_alloc_fresh in E as ->; [done|done|lia]. }
  cbn beta. rewrite fresh_avtab_eq, <- (first_rules_none p h Hf _ _ Hs Hm) by lia.
  pose proof (reads_rules p h Hf Ho ltac:(lia) [] (avtab_nodes h) Hv eq_refl) as Hr.
  rewrite (first_rules_all p h Hf Ho ltac:(lia)) in Hr. unfold avtab_nodes in Hr at 2. rewrite Hht in Hr. cbn [length] in Hr.
  by rewrite Hnel, Nat2Z.id.
Qed.

(** ** Conditionals *)

Lemma for_loop_snoc {A} k (body : A -> reader A) a fp m : for_loop (S k) body a fp m = (a1 ← for_loop k body a; body a1) fp m.
Proof.
  revert a fp m. induction k as [|k IH]; intros a fp m.
  - cbn [for_loop]. unfold mbind, reader_bind, mret, reader_ret. by destruct (body a fp m) as [[]|].
  - change (for_loop (S (S k)) body a fp m) with ((a1 ← body a; for_loop (S k) body a1) fp m).
    change (for_loop (S k) body a) with (a1 ← body a; for_loop k body a1). unfold mbind, reader_bind in *.
    destruct (body a fp m) as [[a1 fp1 m1|]|]; [|done|done]. apply IH.
Qed.

Lemma reads_for_snoc {A} k (body : A -> reader A) a a1 a2 b1 b2 :
  reads (for_loop k body a) b1 a1 -> reads (body a1) b2 a2 -> reads (for_loop (S k) body a) (b1 ++ b2) a2.
Proof. intros H1 H2 rest. rewrite for_loop_snoc. pose proof (reads_bind _ _ _ _ _ _ H1 H2 rest) as H. exact H. Qed.

Definition rule_at (h : avtab) (id : nat) (n : avtab_node) : Prop := n ∈ avtab_nodes h /\ an_id n = id.
Definition extends (h h' : avtab) : Prop := forall n, n ∈ avtab_nodes h -> n ∈ avtab_nodes h'.

Lemma rules_at_extends h h' l nodes : extends h h' -> Forall2 (rule_at h) l nodes -> Forall2 (rule_at h') l nodes.
Proof. intros He HF. eapply Forall2_impl; [exact HF|]. intros id n [Hn Hid]. split; [by apply He|done]. Qed.

Lemma rule_at_find h id n : avtab_wf h -> rule_at h id n -> avtab_node_at h id = Some n.
Proof.
  intros Hw [Hn <-]. pose proof (awf_ids h Hw) as [Hnd _]. unfold avtab_node_at. induction (avtab_nodes h) as [|x l IH]; [by apply not_elem_of_nil in Hn|].
  cbn in Hnd. apply NoDup_cons in Hnd as [Hx Hnd]. cbn [List.find]. destruct (Nat.eqb_spec (an_id x) (an_id n)) as [E|E].
  - apply elem_of_cons in Hn as [->|Hn]; [done|]. destruct Hx. rewrite E. by apply (list_elem_of_fmap_2 an_id).
  - apply elem_of_cons in Hn as [->|Hn]; [done|]. by apply IH.
Qed.

Lemma cond_insertf_ok p other k d h head m st m' :
  avtab_wf h -> key_ok k -> cond_insertf p other k d (h, head) m = Some (0, st, m') ->
  exists h', st = (h', head ++ [at_ids h]) /\ avtab_wf h' /\ avtab_nodes h' ≡ₚ mk_avtab_node (at_ids h) k d :: avtab_nodes h /\
    cond_insertf p other k d (h, head) [] = Some (0, st, []).
Proof.
  intros Hw Hk. unfold cond_insertf. destruct (cond_conflict p other k h) as [[]|]; cbn [mbind option_bind]; [done| |done].
  destruct (avtab_insert_nonunique_spec h k d m Hw Hk) as (r & h' & m1 & E & Hcase). rewrite E. cbn [mbind option_bind].
  destruct r as [id|]; [|by intros [= _ _]]. destruct (kalloc m1) as [[] m2]; cbn [negb]; [|done]. intros [= <- <-].
  destruct Hcase as [[[=] _]|([= ->] & _ & Hw' & Hp & _)]. exists h'. split_and!; try done. by rewrite (avtab_nonunique_mem _ _ _ _ _ _ _ E).
Qed.

(** A list of rules and what is written for it. *)
Definition list_bytes (h : avtab) (l : list nat) (b : list ascii) : Prop :=
  exists nodes, Forall2 (rule_at h) l nodes /\ b = put_u32 (Z.of_nat (length l)) ++ concat (avtab_write_item <$> nodes).

Lemma list_bytes_extends h h' l b : extends h h' -> list_bytes h l b -> list_bytes h' l b.
Proof. intros He (nodes & Hn & ->). exists nodes. split; [by eapply rules_at_extends|done]. Qed.

Lemma list_bytes_write p l b : avtab_wf (te_cond_avtab p) -> list_bytes (te_cond_avtab p) l b -> cond_write_av_list p l = Some b.
Proof.
  intros Hw (nodes & Hn & ->). unfold cond_write_av_list. assert (mapM (avtab_node_at (te_cond_avtab p)) l = Some nodes) as ->; [|done].
  apply mapM_Some. eapply Forall2_impl; [exact Hn|]. intros id n. by apply rule_at_find.
Qed.

Section Conditionals.
  Context (p : policydb) (Hv : POLICYDB_VERSION_AVTAB <= policyvers p).

Lemma gives_av_list h other :
  avtab_wf h -> gives (cond_read_av_list p h other) (fun st => avtab_wf st.1 /\ extends h st.1 /\
    exists b, list_bytes st.1 st.2 b /\ reads (cond_read_av_list p h other) b st).
Proof.
  intros Hw. unfold cond_read_av_list. gv. destruct (Z.eqb_spec a 0) as [->|Hne].
  - gv. split; [done|]. split; [by intros n|]. exists (put_u32 0). split; [|by repeat rd]. exists []. split; [constructor|]. by rewrite app_nil_r.
  - eapply gives_impl.
    + apply (gives_for_count _ _ _ (fun k st => avtab_wf st.1 /\ extends h st.1 /\ length st.2 = k /\ exists nodes,
        Forall2 (rule_at st.1) st.2 nodes /\
        reads (for_loop k (avtab_read_item p (cond_insertf p other)) (h, [])) (concat (avtab_write_item <$> nodes)) st)).
      * split; [done|]. split; [by intros n|]. split; [done|]. exists []. split; [constructor|apply reads_ret].
      * intros k [h1 l1] _ (Hw1 & He1 & Hl & nodes & Hn & Hr). cbn [fst snd] in *. eapply gives_impl; [by apply gives_avtab_item|].
        intros [h2 l2] (key & d & m & m' & Hrv & E). pose proof (rv_key _ _ _ Hrv) as Hk.
        apply cond_insertf_ok in E as (h2' & [= -> ->] & Hw2 & Hp & E0); [|done|done]. cbn [fst snd].
        assert (extends h1 h2') as He2 by (intros n Hin; rewrite Hp; by apply list_elem_of_further).
        split; [done|]. split; [by intros n Hin; apply He2, He1|]. split; [rewrite length_app; cbn; lia|].
        exists (nodes ++ [mk_avtab_node (at_ids h1) key d]). split.
        -- apply Forall2_app; [by eapply rules_at_extends|]. constructor; [|constructor]. split; [|done]. rewrite Hp. apply list_elem_of_here.
        -- rewrite fmap_app, concat_app. eapply reads_for_snoc; [exact Hr|]. cbn [fmap list_fmap concat]. rewrite app_nil_r.
           by apply reads_avtab_item.
    + intros [h' l'] (Hw' & He & Hl & nodes & Hn & Hr). cbn [fst snd] in *. split; [done|]. split; [done|].
      eexists. split; [exists nodes; split; [exact Hn|done]|]. unfold in_u in H. rewrite Hl, Z2Nat.id by lia.
      rd. rewrite (proj2 (Z.eqb_neq _ _)) by done. exact Hr.
Qed.

(** An expression. *)
Definition cexprs_bytes (l : list cond_expr) : list ascii := concat ((fun e => put_u32s [cx_expr_type e; cx_bool e]) <$> l).

#[export] Instance cond_expr_codec : codec_item (cond_read_expr p) (fun e => Some (put_u32s [cx_expr_type e; cx_bool e]))
  (fun e => in_u 32 (cx_expr_type e) /\ in_u 32 (cx_bool e) /\ expr_isvalid p e = true) no_bitmaps.
Proof.
  split.
  - intros l. unfold cond_read_expr. repeat gv. eexists. split; [done|]. cbn. split; [auto with fits|constructor].
  - intros l [t b] (Ht & Hb & Hval) _. eexists. split; [done|]. cbn in *. unfold cond_read_expr. repeat (rd || done).
Qed.

Lemma no_bitmaps_ok {X} (P : ebitmap -> Prop) (l : list X) : Forall P (concat (no_bitmaps <$> l)).
Proof. apply Forall_concat_fmap, Forall_forall. by constructor. Qed.

Lemma mapM_total {X Y} (f : X -> Y) (l : list X) bs : mapM (fun x => Some (f x)) l = Some bs -> bs = f <$> l.
Proof. intros H. apply mapM_Some in H. induction H as [|x y l bs [= <-] _ IH]; [done|]. cbn. by rewrite IH. Qed.

(** A conditional and what is written for it. *)
Definition node_bytes (h : avtab) (node : cond_node) (b : list ascii) : Prop :=
  exists bt bf, list_bytes h (cd_true_list node) bt /\ list_bytes h (cd_false_list node) bf /\
    b = put_u32 (u32 (cd_cur_state node)) ++ put_u32 (Z.of_nat (length (cd_expr node))) ++ cexprs_bytes (cd_expr node) ++ bt ++ bf.

Lemma node_bytes_extends h h' node b : extends h h' -> node_bytes h node b -> node_bytes h' node b.
Proof. intros He (bt & bf & Ht & Hf & ->). exists bt, bf. split_and!; [by eapply list_bytes_extends..|done]. Qed.

Lemma gives_cond_node h :
  avtab_wf h -> gives (cond_read_node p h) (fun st => avtab_wf st.1 /\ extends h st.1 /\
    exists b, node_bytes st.1 st.2 b /\ reads (cond_read_node p h) b st).
Proof.
  intros Hw. unfold cond_read_node. gv. gv. eapply gives_bind; [apply gives_items, cond_expr_codec|].
  intros expr (expr' & -> & Hlen & HP & _). cbn [app].
  eapply gives_bind; [by apply gives_av_list|]. intros [h1 tl] (Hw1 & He1 & bt & Hbt & Hrt). cbn [fst snd] in *.
  eapply gives_bind; [by apply gives_av_list|]. intros [h2 fl] (Hw2 & He2 & bf & Hbf & Hrf). cbn [fst snd] in *. gv. cbn [fst snd].
  split; [done|]. split; [by intros n Hn; apply He2, He1|]. eexists. split.
  { exists bt, bf. cbn. split_and!; [by eapply list_bytes_extends|done|done]. }
  unfold in_u in *. destruct (reads_items_loop _ _ _ _ [] expr' (Z.to_nat a0) cond_expr_codec HP (no_bitmaps_ok _ _)) as (bs & Em & Hr); [lia|].
  apply mapM_total in Em as ->. cbn [cd_cur_state cd_expr]. rewrite u32_s32, u32_small by lia.
  rd. rewrite Hlen, Z2Nat.id by lia. rd. eapply reads_bind; [exact Hr|]. cbn beta. eapply reads_bind; [exact Hrt|]. cbv beta iota.
  eapply reads_last; [exact Hrf|]. cbv beta iota. rd.
Qed.

Lemma node_bytes_write q node b :
  avtab_wf (te_cond_avtab q) -> node_bytes (te_cond_avtab q) node b -> cond_write_node q node = Some b.
Proof.
  intros Hw (bt & bf & Ht & Hf & ->). unfold cond_write_node.
  by rewrite (list_bytes_write q _ bt Hw Ht), (list_bytes_write q _ bf Hw Hf).
Qed.

(** What is read as the list of conditionals is written as bytes from which
    the same list and the same table are read. *)
Lemma gives_cond_list :
  at_ids (te_cond_avtab p) = 0%nat -> 0 < at_nel (te_avtab p) < 2 ^ 32 ->
  gives (cond_read_list p) (fun q => exists h l b, q = set_cond_list (set_te_cond_avtab p h) l /\ avtab_wf h /\
    cond_write_list q l = Some b /\ reads (cond_read_list p) b q).
Proof.
  intros Hids Hnel. unfold cond_read_list. gv. eapply gives_bind; [apply gives_call|]. intros h0 (m & m' & E). injection E as E.
  pose proof (avtab_alloc_mem _ _ _ _ _ E) as E0. apply avtab_alloc_fresh in E as ->; [|done|lia].
  destruct (fresh_fits p (at_nel (te_avtab p)) Hnel) as [Hf _]. set (h0 := fresh_avtab (at_nel (te_avtab p))) in *.
  eapply gives_bind.
  - apply (gives_for_count _ (cond_read_step p) _ (fun k st => avtab_wf st.1 /\ length st.2 = k /\ exists bs,
      Forall2 (node_bytes st.1) st.2 bs /\ reads (for_loop k (cond_read_step p) (h0, [])) (concat bs) st)).
    + split; [apply Hf|]. split; [done|]. exists []. split; [constructor|apply reads_ret].
    + intros k [h l] _ (Hw & Hl & bs & Hbs & Hr). cbn [fst snd] in *. unfold cond_read_step. gv. eapply gives_bind; [by apply gives_cond_node|].
      intros [h' node] (Hw' & He & b & Hb & Hrb). gv. cbn [fst snd] in *. split; [done|]. split; [rewrite length_app; cbn; lia|].
      exists (bs ++ [b]). split.
      * apply Forall2_app; [|by constructor; [|constructor]]. eapply Forall2_impl; [exact Hbs|]. intros ? ?. by apply node_bytes_extends.
      * rewrite concat_app. eapply reads_for_snoc; [exact Hr|]. cbn [concat]. rewrite app_nil_r. unfold cond_read_step. rd.
        eapply reads_last; [exact Hrb|]. cbv beta iota. rd.
  - intros [h l] (Hw & Hl & bs & Hbs & Hr). cbn [fst snd] in *. gv. eexists h, l, _. split; [done|]. split; [done|]. split.
    + unfold cond_write_list. assert (mapM (cond_write_node (set_cond_list (set_te_cond_avtab p h) l)) l = Some bs) as ->; [|done].
      apply mapM_Some. eapply Forall2_impl; [exact Hbs|]. intros node b.
      by apply (node_bytes_write (set_cond_list (set_te_cond_avtab p h) l)).
    + unfold in_u in *. rewrite Hl, Z2Nat.id by lia. rd. eapply reads_step; [apply reads_call; by rewrite E0|]. cbn beta.
      eapply reads_last; [exact Hr|]. cbv beta iota. rd.
Qed.
End Conditionals.
