(* ===== verification/PolicyObjects.v ===== *)
(** * Role rules, object contexts, range transitions and type attributes in policy files

    The readers and writers that follow the rules in a file.  Lists are
    written in their order and read back by appending; [genfs] entries are
    kept sorted, so that in this order each one is read back at the end. *)

From Stdlib Require Import Ascii String.
From S2P Require Import Prelude Ebitmap Hashtab PolicyFile Context Sidtab Avtab Policydb Mls PolicydbOps Sample Conditional PolicyRead PolicyWrite PolicyTables PolicyCodec PolicyRules.

(** ** Counted lists *)

Definition list_fits {A} (P : A -> Prop) (l : list A) : Prop := Forall P l /\ in_u 32 (Z.of_nat (length l)).

Lemma gives_counted {A} (c : list A -> reader (list A)) (P : A -> Prop) B n l0 :
  (forall l, gives (c l) (fun l' => exists a, l' = l ++ [a] /\ P a /\ Forall ebitmap_wf (B a))) -> in_u 32 n ->
  gives (for_loop (Z.to_nat n) c l0) (fun l => exists l1, l = l0 ++ l1 /\ list_fits P l1 /\ Forall ebitmap_wf (concat (B <$> l1))).
Proof.
  intros Hc Hn. eapply gives_impl; [by apply (gives_items c P B)|]. intros l (l1 & -> & Hl & HP & HB). exists l1.
  split; [done|]. split; [|done]. split; [done|]. by eapply in_u_nat.
Qed.

Lemma reads_counted {A} c w (P : A -> Prop) B l0 l :
  codec_item c w P B -> list_fits P l -> Forall storable (concat (B <$> l)) ->
  exists bs, mapM w l = Some bs /\
    reads (n ← next_u32; for_loop (Z.to_nat n) c l0) (put_u32 (Z.of_nat (length l)) ++ concat bs) (l0 ++ l).
Proof.
  intros Hc [HP Hl] HB. destruct (reads_items_loop c w P B l0 l (Z.to_nat (Z.of_nat (length l))) Hc HP HB) as (bs & Em & Hr); [lia|].
  exists bs. split; [done|]. by rd.
Qed.

(** *** Role transitions and role allow rules *)

Definition role_trans_fits (p : policydb) (tr : role_trans) : Prop :=
  in_u 32 (rt_role tr) /\ in_u 32 (rt_type tr) /\ in_u 32 (rt_new_role tr) /\
  policydb_role_isvalid p (rt_role tr) && policydb_type_isvalid p (rt_type tr) && policydb_role_isvalid p (rt_new_role tr) = true.

#[export] Instance role_trans_codec p :
  codec_item (role_trans_read p) (fun tr => Some (put_u32s [rt_role tr; rt_type tr; rt_new_role tr])) (role_trans_fits p) no_bitmaps.
Proof.
  split.
  - intros l. unfold role_trans_read. repeat gv. eexists. split; [done|]. split; [|constructor]. split_and!; cbn; auto with fits.
  - intros l [r t n] (Hr & Ht & Hn & Hval) _. eexists. split; [done|]. cbn in *. unfold role_trans_read. repeat (rd || done).
Qed.

Definition role_allow_fits (p : policydb) (ra : role_allow) : Prop :=
  in_u 32 (ra_role ra) /\ in_u 32 (ra_new_role ra) /\
  policydb_role_isvalid p (ra_role ra) && policydb_role_isvalid p (ra_new_role ra) = true.

#[export] Instance role_allow_codec p :
  codec_item (role_allow_read p) (fun ra => Some (put_u32s [ra_role ra; ra_new_role ra])) (role_allow_fits p) no_bitmaps.
Proof.
  split.
  - intros l. unfold role_allow_read. repeat gv. eexists. split; [done|]. split; [|constructor]. split_and!; cbn; auto with fits.
  - intros l [r n] (Hr & Hn & Hval) _. eexists. split; [done|]. cbn in *. unfold role_allow_read. repeat (rd || done).
Qed.

Definition filename_fits (ft : filename_trans) : Prop :=
  in_u 32 (ft_stype ft) /\ in_u 32 (ft_ttype ft) /\ in_u 16 (ft_tclass ft) /\ in_u 32 (ft_otype ft) /\ name_ok (ft_name ft).

Lemma u16_id z : in_u 16 z -> u16 z = z /\ in_u 32 z.
Proof. unfold in_u. intros H. split; [by apply u16_small|lia]. Qed.

#[export] Instance filename_codec : codec_item filename_trans_item (fun ft => Some (filename_trans_put ft)) filename_fits no_bitmaps.
Proof.
  split.
  - intros l. unfold filename_trans_item. repeat (gv; try done). eexists. split; [done|]. split; [|constructor].
    split_and!; cbn; auto with fits; apply H2.
  - intros l [s t c n o] (Hs & Ht & Hc & Ho & Hn) _. eexists. split; [done|]. cbn in *. destruct (u16_id c Hc) as [Ec Hc'].
    pose proof (name_len n Hn). unfold filename_trans_item, filename_trans_put. cbn. repeat rd. rewrite Ec. rd.
Qed.

(** ** Object contexts *)

Definition ocontext_bitmaps (c : ocontext) : list ebitmap := context_bitmaps (oc_context0 c) ++ context_bitmaps (oc_context1 c).

(** The data of each kind of object context. *)
Definition ocon_key_fits (i : nat) (c : ocontext) : Prop :=
  match i, oc_u c with
  | 0, ONone => in_u 32%Z (oc_sid0 c) /\ oc_v c = 0%Z
  | 1, OName name | 3, OName name => name_ok name /\ oc_v c = 0%Z /\ oc_sid0 c = 0%Z
  | 2, OPort protocol low_port high_port => in_u 8%Z protocol /\ in_u 16%Z low_port /\ in_u 16%Z high_port /\ oc_v c = 0%Z /\ oc_sid0 c = 0%Z
  | 4, ONode addr mask => in_u 32%Z addr /\ in_u 32%Z mask /\ oc_v c = 0%Z /\ oc_sid0 c = 0%Z
  | 5, OName name => name_ok name /\ (oc_v c <=? SECURITY_FS_USE_NONE)%Z = true /\ in_u 32%Z (oc_v c) /\ oc_sid0 c = 0%Z
  | 6, ONode6 addr mask => length addr = 4%nat /\ length mask = 4%nat /\ Forall (in_u 32%Z) (addr ++ mask) /\ oc_v c = 0%Z /\ oc_sid0 c = 0%Z
  | _, _ => False
  end%nat.

Record ocon_fits (p : policydb) (i : nat) (c : ocontext) : Prop := mk_ocon_fits {
  of_key : ocon_key_fits i c;
  of_context0 : context_fits p (oc_context0 c);
  of_context1 : if decide (i = OCON_FS \/ i = OCON_NETIF) then context_fits p (oc_context1 c) else oc_context1 c = context_init;
  of_sid1 : oc_sid1 c = 0
}.

Lemma context_init_wf : Forall ebitmap_wf (context_bitmaps context_init).
Proof. pose proof (canon_wf _ ebitmap_init_canon). unfold context_bitmaps, range_bitmaps. cbn. bitmaps_ok. Qed.

(** The branch of the [switch] for a given kind. *)
Ltac which_kind :=
  repeat first [rewrite decide_True by (vm_compute; tauto) | rewrite decide_False by (vm_compute; intuition discriminate)].

Lemma gives_ocontext p i :
  (i < OCON_NUM)%nat -> gives (ocontext_item p i) (fun c => ocon_fits p i c /\ Forall ebitmap_wf (ocontext_bitmaps c)).
Proof.
  intros Hi. pose proof context_init_wf as H0. unfold ocontext_bitmaps. unfold OCON_NUM in Hi.
  assert (forall Q, (forall c, context_fits p c -> Forall ebitmap_wf (context_bitmaps c) -> gives (Q c)
     (fun c => ocon_fits p i c /\ Forall ebitmap_wf (ocontext_bitmaps c))) -> gives (context_read_and_validate p ≫= Q)
     (fun c => ocon_fits p i c /\ Forall ebitmap_wf (ocontext_bitmaps c))) as Hctx.
  { intros Q HQ. eapply gives_bind; [apply context_gives|]. intros c [Hc HB]. by apply HQ. }
  destruct i as [|[|[|[|[|[|[|i]]]]]]]; [..|lia]; unfold ocontext_item; which_kind.
  all: repeat (gv; try done); apply Hctx; intros c Hc HB.
  2, 4: apply Hctx; intros c1 Hc1 HB1.
  all: gv; split; [constructor; which_kind; cbn; auto with fits|apply Forall_app; split; done].
  rewrite length_take, length_drop, take_drop, H. split_and!; done.
Qed.

Lemma reads_ocontext p i c :
  POLICYDB_VERSION_MLS <= policyvers p -> (i < OCON_NUM)%nat -> ocon_fits p i c -> Forall storable (ocontext_bitmaps c) ->
  exists b, ocontext_put i c = Some b /\ reads (ocontext_item p i) b c.
Proof.
  intros Hv Hi [Hk H0 H1 Hs] HB. unfold OCON_NUM in Hi. apply Forall_app in HB as [HB0 HB1].
  pose proof (context_reads p _ Hv H0 HB0) as R0. destruct c as [u v c0 c1 s0 s1]. cbn in *. subst s1.
  destruct i as [|[|[|[|[|[|[|i]]]]]]]; [..|lia]; unfold ocontext_item, ocontext_put; which_kind;
    rewrite ?decide_True in H1 by (vm_compute; tauto); rewrite ?decide_False in H1 by (vm_compute; intuition discriminate);
    destruct u; try done; cbn in *; destruct_and?; subst; eexists; (split; [done|]).
  - rd. eapply reads_last; [exact R0|]. rd.
  - pose proof (context_reads p _ Hv H1 HB1) as R1. pose proof (name_len name H). repeat rd. eapply reads_bind; [exact R0|]. cbn beta.
    eapply reads_last; [exact R1|]. rd.
  - destruct (u8_small protocol H) as [E1 ?], (u16_id low_port ltac:(assumption)) as [E2 ?], (u16_id high_port ltac:(assumption)) as [E3 ?]. rd.
    eapply reads_last; [exact R0|]. cbn beta. rewrite E1, E2, E3. rd.
  - pose proof (context_reads p _ Hv H1 HB1) as R1. pose proof (name_len name H). repeat rd. eapply reads_bind; [exact R0|]. cbn beta.
    eapply reads_last; [exact R1|]. rd.
  - rd. eapply reads_last; [exact R0|]. rd.
  - pose proof (name_len name H). rd. rd; [done|]. rd. eapply reads_last; [exact R0|]. rd.
  - eapply reads_bind; [apply reads_u32s; [rewrite length_app; lia|done]|cbn beta]. eapply reads_last; [exact R0|]. cbn beta.
    rewrite take_app_length' , drop_app_length' by done. rd.
Qed.

(** The body of the loop for one kind. *)
Lemma gives_ocontext_step p i :
  (i < OCON_NUM)%nat -> forall l, gives (ocontext_step p i l) (fun l' => exists c, l' = l ++ [c] /\ ocon_fits p i c /\ Forall ebitmap_wf (ocontext_bitmaps c)).
Proof. intros Hi l. unfold ocontext_step. gv. eapply gives_bind; [by apply gives_ocontext|]. intros c Hc. gv. eauto. Qed.

#[export] Instance ocontext_codec p i :
  POLICYDB_VERSION_MLS <= policyvers p -> (i < OCON_NUM)%nat ->
  codec_item (ocontext_step p i) (ocontext_put i) (ocon_fits p i) ocontext_bitmaps | 100.
Proof.
  intros Hv Hi. split.
  - by apply gives_ocontext_step.
  - intros l c Hc HB. destruct (reads_ocontext p i c Hv Hi Hc HB) as (b & Ew & Hr). exists b. split; [done|]. unfold ocontext_step. rd.
    eapply reads_last; [exact Hr|]. rd.
Qed.

(** All kinds from [i] on. *)
Definition ocontexts_fit (p : policydb) (i : nat) (ls : list (list ocontext)) : Prop :=
  forall j l, ls !! j = Some l -> list_fits (ocon_fits p (i + j)) l.
Definition ocontexts_bitmaps (ls : list (list ocontext)) : list ebitmap := concat ((fun l => concat (ocontext_bitmaps <$> l)) <$> ls).

Lemma gives_ocontexts p n i :
  (i + n <= OCON_NUM)%nat ->
  gives (ocontext_read p n i) (fun ls => length ls = n /\ ocontexts_fit p i ls /\ Forall ebitmap_wf (ocontexts_bitmaps ls)).
Proof.
  revert i. induction n as [|n IH]; intros i Hi; cbn [ocontext_read].
  - gv. split; [done|]. split; [by intros j l|constructor].
  - gv. eapply gives_bind; [apply gives_counted; [apply gives_ocontext_step; lia|done]|]. intros l (l1 & -> & Hl & HB). cbn [app].
    eapply gives_bind; [apply (IH (S i)); lia|]. intros ls (Hn & Hf & HB'). gv. split; [cbn; lia|]. split; [|by apply Forall_app].
    intros [|j] l; cbn; [intros [= <-]; by rewrite Nat.add_0_r|]. intros Hj. replace (i + S j)%nat with (S i + j)%nat by lia. by apply Hf.
Qed.

Lemma reads_ocontexts p L n i :
  POLICYDB_VERSION_MLS <= policyvers p -> (i + n = length L)%nat -> length L = OCON_NUM -> ocontexts_fit p 0 L ->
  Forall storable (ocontexts_bitmaps L) ->
  exists b, ocontext_write L n i = Some b /\ reads (ocontext_read p n i) b (drop i L).
Proof.
  intros Hv Hn HL Hf HB. unfold ocontexts_bitmaps in HB. rewrite Forall_concat_fmap in HB.
  revert i Hn. induction n as [|n IH]; intros i Hn; cbn [ocontext_write ocontext_read].
  - exists []. split; [done|]. rewrite drop_ge by lia. apply reads_ret.
  - destruct (lookup_lt_is_Some_2 L i) as [l Hl]; [lia|]. rewrite (nth_lookup_Some _ _ _ _ Hl).
    destruct (Hf i l Hl) as [Hfl Hlen].
    destruct (reads_items_loop _ _ _ _ [] l (Z.to_nat (Z.of_nat (length l))) (ocontext_codec p i Hv ltac:(lia)) Hfl (Forall_lookup_1 _ _ _ _ HB Hl))
      as (bs & Em & Hr); [lia|].
    destruct (IH (S i)) as (b & Ew & Hrb); [lia|]. rewrite Em, Ew. cbn [mbind option_bind]. eexists. split; [done|].
    rewrite (drop_S L l i Hl). rd. eapply reads_bind; [exact Hr|]. cbn [app]. eapply reads_last; [exact Hrb|]. rd.
Qed.

(** ** Contexts for file systems without labels *)

(** A list kept in an order by the reader: in this order it appends. *)
Lemma reads_sorted_loop {A} (c : list A -> reader (list A)) w (P : A -> Prop) B (R : A -> A -> Prop) l1 l2 :
  (forall l a, Forall (fun x => R x a) l -> P a -> Forall storable (B a) -> exists b, w a = Some b /\ reads (c l) b (l ++ [a])) ->
  StronglySorted R (l1 ++ l2) -> Forall P l2 -> Forall storable (concat (B <$> l2)) ->
  exists bs, mapM w l2 = Some bs /\ reads (for_loop (length l2) c l1) (concat bs) (l1 ++ l2).
Proof.
  intros Hc Hs HP HB. rewrite Forall_concat_fmap in HB. revert l1 Hs. induction HP as [|a l2 Ha _ IH]; intros l1 Hs.
  - exists []. rewrite app_nil_r. split; [done|apply reads_ret].
  - inv HB as [|? ? HBa HB']. destruct (Hc l1 a) as (b & Ew & Hr); [|done|done|].
    + clear -Hs. induction l1 as [|x l1 IH]; [constructor|]. apply StronglySorted_inv in Hs as [Hs Hx]. constructor; [|by apply IH].
      rewrite Forall_forall in Hx. apply Hx. apply elem_of_app. right. apply list_elem_of_here.
    + destruct (IH HB' (l1 ++ [a])) as (bs & Em & Hl); [by rewrite <- app_assoc|]. exists (b :: bs). cbn [mapM]. rewrite Ew. cbn. rewrite Em.
      split; [done|]. eapply reads_bind; [exact Hr|]. by rewrite <- app_assoc in Hl.
Qed.

(** The order of the entries of a file system: longer names first, and no two
    entries for the same file. *)
Definition genfs_conflict (newc c : ocontext) : bool :=
  (strcmp (ocon_name newc) (ocon_name c) =? 0) && (negb (nz (oc_v c)) || negb (nz (oc_v newc)) || (oc_v newc =? oc_v c)).

Definition entry_before (x y : ocontext) : Prop :=
  (String.length (ocon_name y) <= String.length (ocon_name x))%nat /\ genfs_conflict y x = false.

Lemma genfs_entry_sorted newc l l' :
  StronglySorted entry_before l -> genfs_entry newc l = Some l' -> StronglySorted entry_before l' /\ l' ≡ₚ newc :: l.
Proof.
  intros Hs. revert l'. induction Hs as [|c l Hs IH Hc]; intros l'; cbn [genfs_entry].
  - intros [= <-]. split; [by repeat constructor|done].
  - fold (genfs_conflict newc c). destruct (genfs_conflict newc c) eqn:Ec; [done|]. rewrite Forall_forall in Hc.
    destruct (Nat.ltb_spec (String.length (ocon_name c)) (String.length (ocon_name newc))) as [Hlt|Hge].
    + intros [= <-]. split; [|done]. constructor; [by constructor; [|apply Forall_forall]|]. apply Forall_forall. intros x Hx.
      assert (String.length (ocon_name x) < String.length (ocon_name newc))%nat as Hx'.
      { apply elem_of_cons in Hx as [->|Hx]; [done|]. destruct (Hc x Hx). lia. }
      split; [lia|]. unfold genfs_conflict. destruct (Z.eqb_spec (strcmp (ocon_name x) (ocon_name newc)) 0) as [E|]; [|done].
      apply strcmp_eq in E. rewrite E in Hx'. lia.
    + destruct (genfs_entry newc l) as [l1|]; [|done]. intros [= <-]. destruct (IH l1 eq_refl) as [Hs1 Hp].
      split; [|rewrite Hp; by constructor]. constructor; [done|]. rewrite Hp. constructor; [by split|by apply Forall_forall].
Qed.

Lemma genfs_entry_append newc l : Forall (fun x => entry_before x newc) l -> genfs_entry newc l = Some (l ++ [newc]).
Proof.
  induction 1 as [|c l [Hlen Hc] _ IH]; [done|]. cbn [genfs_entry]. fold (genfs_conflict newc c). rewrite Hc.
  rewrite (proj2 (Nat.ltb_ge _ _)) by done. by rewrite IH.
Qed.

Record genfs_entry_fits (p : policydb) (c : ocontext) : Prop := mk_genfs_entry_fits {
  gf_name : exists name, oc_u c = OName name /\ name_ok name;
  gf_class : in_u 32 (oc_v c);
  gf_context : context_fits p (oc_context0 c);
  gf_rest : oc_context1 c = context_init /\ oc_sid0 c = 0 /\ oc_sid1 c = 0
}.

Definition genfs_bitmaps (g : genfs) : list ebitmap := concat (ocontext_bitmaps <$> g_head g).

Record genfs_fits (p : policydb) (g : genfs) : Prop := mk_genfs_fits {
  gs_name : name_ok (g_fstype g);
  gs_entries : list_fits (genfs_entry_fits p) (g_head g);
  gs_sorted : StronglySorted entry_before (g_head g)
}.

Lemma gives_genfs_entry p head :
  Forall (genfs_entry_fits p) head -> StronglySorted entry_before head -> Forall ebitmap_wf (concat (ocontext_bitmaps <$> head)) ->
  gives (genfs_read_entry p head) (fun l => length l = S (length head) /\ Forall (genfs_entry_fits p) l /\ StronglySorted entry_before l /\
    Forall ebitmap_wf (concat (ocontext_bitmaps <$> l))).
Proof.
  intros Hf Hs HB. rewrite Forall_concat_fmap in HB. unfold genfs_read_entry. repeat (gv; try done).
  eapply gives_bind; [apply context_gives|]. intros c [Hc HBc].
  set (newc := ocon (OName a0) a1 c context_init 0). destruct (genfs_entry newc head) as [l|] eqn:E; [|apply gives_fail]. cbn [valid]. gv.
  destruct (genfs_entry_sorted newc head l Hs E) as [Hsl Hp]. split; [by rewrite Hp|]. split; [|split; [done|]].
  - rewrite Hp. constructor; [|done]. constructor; cbn; eauto.
  - rewrite Forall_concat_fmap, Hp. constructor; [|done]. apply Forall_app. split; [done|apply context_init_wf].
Qed.

Lemma reads_genfs_entry p l c :
  POLICYDB_VERSION_MLS <= policyvers p -> Forall (fun x => entry_before x c) l -> genfs_entry_fits p c -> Forall storable (ocontext_bitmaps c) ->
  exists b, genfs_put_entry c = Some b /\ reads (genfs_read_entry p l) b (l ++ [c]).
Proof.
  intros Hv Hl [(name & Hu & Hn) Hcl Hc (H1 & H2 & H3)] HB. apply Forall_app in HB as [HB _].
  pose proof (context_reads p _ Hv Hc HB) as Hr. pose proof (name_len name Hn). destruct c as [u v c0 c1 s0 s1]. cbn in *. subst.
  unfold genfs_put_entry. cbn. eexists. split; [done|]. unfold genfs_read_entry. repeat rd. eapply reads_last; [exact Hr|]. cbn beta.
  unfold ocon. rewrite genfs_entry_append by done. cbn [valid]. rd.
Qed.

Definition fstype_before (x y : genfs) : Prop := 0 < strcmp (g_fstype y) (g_fstype x).

Lemma genfs_place_spec fstype l before after :
  StronglySorted fstype_before l -> genfs_place fstype l = Some (before, after) ->
  l = before ++ after /\ Forall (fun g => 0 < strcmp fstype (g_fstype g)) before /\ Forall (fun g => 0 < strcmp (g_fstype g) fstype) after.
Proof.
  intros Hs. revert before. induction Hs as [|g l Hs IH Hg]; intros before; cbn [genfs_place]; [by intros [= <- <-]|].
  destruct (Z.eqb_spec (strcmp fstype (g_fstype g)) 0); [done|]. destruct (Z.ltb_spec (strcmp fstype (g_fstype g)) 0) as [Hlt|Hge].
  - intros [= <- <-]. split; [done|]. split; [constructor|]. apply strcmp_anti in Hlt. constructor; [done|].
    eapply Forall_impl; [exact Hg|]. intros x Hx. by eapply strcmp_trans.
  - destruct (genfs_place fstype l) as [[b a]|]; [|done]. intros [= <- <-]. destruct (IH b eq_refl) as (-> & Hb & Ha).
    split; [done|]. split; [|done]. constructor; [lia|done].
Qed.

Lemma genfs_place_append fstype l : Forall (fun g => 0 < strcmp fstype (g_fstype g)) l -> genfs_place fstype l = Some (l, []).
Proof.
  induction 1 as [|g l Hg _ IH]; [done|]. cbn [genfs_place]. rewrite (proj2 (Z.eqb_neq _ _)), (proj2 (Z.ltb_ge _ _)) by lia. by rewrite IH.
Qed.

Definition genfs_list_fits (p : policydb) (l : list genfs) : Prop := list_fits (genfs_fits p) l /\ StronglySorted fstype_before l.

Lemma gives_genfs_type p l :
  Forall (genfs_fits p) l -> StronglySorted fstype_before l -> Forall ebitmap_wf (concat (genfs_bitmaps <$> l)) ->
  gives (genfs_read_type p l) (fun l' => length l' = S (length l) /\ Forall (genfs_fits p) l' /\ StronglySorted fstype_before l' /\
    Forall ebitmap_wf (concat (genfs_bitmaps <$> l'))).
Proof.
  intros Hf Hs HB. rewrite Forall_concat_fmap in HB. unfold genfs_read_type. repeat (gv; try done).
  destruct (genfs_place a0 l) as [[before after]|] eqn:E; [|apply gives_fail]. cbn [valid].
  eapply (gives_bind _ _ (fun ba => ba = (before, after))); [by gv|]. intros ? ->. gv.
  destruct (genfs_place_spec a0 l before after Hs E) as (-> & Hb & Ha). apply Forall_app in Hf as [Hf1 Hf2], HB as [HB1 HB2].
  eapply gives_bind.
  { apply (gives_for_count _ _ _ (fun k head => length head = k /\ Forall (genfs_entry_fits p) head /\ StronglySorted entry_before head /\
      Forall ebitmap_wf (concat (ocontext_bitmaps <$> head)))); [by repeat constructor|].
    intros k head _ (Hk & H3 & H4 & H5). eapply gives_impl; [by apply gives_genfs_entry|]. intros head' (H6 & ? & ? & ?). split; [lia|done]. }
  intros head (Hlen & Hh & Hhs & HhB). gv. split; [rewrite !length_app; cbn; lia|]. split; [|split].
  - apply Forall_app. split; [done|]. constructor; [|done]. split; cbn; [done| |done]. split; [done|]. by eapply in_u_nat.
  - assert (StronglySorted fstype_before before /\ StronglySorted fstype_before after /\
      forall x y, x ∈ before -> y ∈ after -> fstype_before x y) as (S1 & S2 & S3).
    { split; [by eapply StronglySorted_app_1_l|]. split; [by eapply StronglySorted_app_1_r|]. intros x y Hx Hy.
      rewrite Forall_forall in Hb, Ha. unfold fstype_before. by apply (strcmp_trans _ a0); [apply Ha|apply Hb]. }
    apply sorted_app; [done| |].
    + constructor; [done|]. exact Ha.
    + intros x y Hx Hy. apply elem_of_cons in Hy as [->|Hy]; [|by apply S3]. rewrite Forall_forall in Hb. by apply Hb.
  - rewrite Forall_concat_fmap. apply Forall_app. split; [done|]. by constructor.
Qed.

Lemma reads_genfs_type p l g :
  POLICYDB_VERSION_MLS <= policyvers p -> Forall (fun x => fstype_before x g) l -> genfs_fits p g -> Forall storable (genfs_bitmaps g) ->
  exists b, genfs_put g = Some b /\ reads (genfs_read_type p l) b (l ++ [g]).
Proof.
  intros Hv Hl [Hn [He Hlen] Hs] HB. pose proof (name_len _ Hn). destruct g as [fstype head]. unfold genfs_put. cbn in *.
  destruct (reads_sorted_loop (genfs_read_entry p) genfs_put_entry (genfs_entry_fits p) ocontext_bitmaps entry_before [] head) as (bs & Em & Hr);
    [intros l' c ? ? ?; by apply reads_genfs_entry|done|done|done|].
  rewrite Em. eexists. split; [done|]. unfold genfs_read_type. repeat rd. unfold fstype_before in Hl. cbn in Hl. rewrite genfs_place_append by done.
  cbn [valid]. rd. cbv beta iota. rd. rewrite Nat2Z.id. eapply reads_last; [exact Hr|]. cbn. rd.
Qed.

Lemma gives_genfs p :
  genfs_list p = [] -> gives (genfs_read p) (fun l => genfs_list_fits p l /\ Forall ebitmap_wf (concat (genfs_bitmaps <$> l))).
Proof.
  intros H0. unfold genfs_read. gv. rewrite H0. eapply gives_impl.
  - apply (gives_for_count _ _ _ (fun k l => length l = k /\ Forall (genfs_fits p) l /\ StronglySorted fstype_before l /\
      Forall ebitmap_wf (concat (genfs_bitmaps <$> l)))); [by repeat constructor|].
    intros k l _ (Hk & H3 & H4 & H5). eapply gives_impl; [by apply gives_genfs_type|]. intros l' (H6 & ? & ? & ?). split; [lia|done].
  - intros l (Hl & Hf & Hs & HB). split; [|done]. split; [|done]. split; [done|]. by eapply in_u_nat.
Qed.

Lemma reads_genfs p q :
  POLICYDB_VERSION_MLS <= policyvers p -> genfs_list p = [] -> genfs_list_fits p (genfs_list q) ->
  Forall storable (concat (genfs_bitmaps <$> genfs_list q)) ->
  exists b, genfs_write q = Some b /\ reads (genfs_read p) b (genfs_list q).
Proof.
  intros Hv H0 [[Hf Hlen] Hs] HB. unfold genfs_write, genfs_read. rewrite H0.
  destruct (reads_sorted_loop (genfs_read_type p) genfs_put (genfs_fits p) genfs_bitmaps fstype_before [] (genfs_list q)) as (bs & Em & Hr);
    [intros l' c ? ? ?; by apply reads_genfs_type|done|done|done|].
  rewrite Em. eexists. split; [done|]. rd. by rewrite Nat2Z.id.
Qed.

(** ** Range transitions

    [rangetr_cmp] compares by differences that wrap around: it is an order
    only on numbers below [2 ^ 31], which valid types and classes are. *)

Definition rangetr_lex (key1 key2 : range_trans) : Z :=
  let v := rg_source_type key1 - rg_source_type key2 in
  if nz v then v
  else
    let v := rg_target_type key1 - rg_target_type key2 in
    if nz v then v else rg_target_class key1 - rg_target_class key2.

#[export] Instance rangetr_ops : table_ops 256 rangetr_hash rangetr_lex.
Proof.
  constructor.
  - intros k. unfold rangetr_hash. generalize (rg_source_type k + u32 (rg_target_type k .<< 3) + u32 (rg_target_class k .<< 5)). intros x.
    change (u32 (256 - 1)) with 255.
    pose proof (u32_range x). split; [apply Z.land_nonneg; lia|]. pose proof (land_le_r (u32 x) 255). lia.
  - intros [a1 a2 a3] [b1 b2 b3]. unfold rangetr_lex, nz. cbn.
    destruct (Z.eqb_spec (a1 - b1) 0); cbn; [destruct (Z.eqb_spec (a2 - b2) 0); cbn|]; (split; [|intros [= -> -> ->]; lia]); intros; f_equal; lia.
  - intros [a1 a2 a3] [b1 b2 b3]. unfold rangetr_lex, nz. cbn.
    destruct (Z.eqb_spec (a1 - b1) 0), (Z.eqb_spec (b1 - a1) 0); cbn; try lia. destruct (Z.eqb_spec (a2 - b2) 0), (Z.eqb_spec (b2 - a2) 0); cbn; lia.
  - intros [a1 a2 a3] [b1 b2 b3] [c1 c2 c3]. unfold rangetr_lex, nz. cbn.
    destruct (Z.eqb_spec (a1 - b1) 0), (Z.eqb_spec (b1 - c1) 0), (Z.eqb_spec (a1 - c1) 0); cbn; try lia;
      destruct (Z.eqb_spec (a2 - b2) 0), (Z.eqb_spec (b2 - c2) 0), (Z.eqb_spec (a2 - c2) 0); cbn; lia.
Qed.

Definition small_key (k : range_trans) : Prop := in_u 31 (rg_source_type k) /\ in_u 31 (rg_target_type k) /\ in_u 31 (rg_target_class k).

Lemma small_cmp a b : small_key a -> small_key b -> rangetr_cmp a b = rangetr_lex a b.
Proof. intros (A1 & A2 & A3) (B1 & B2 & B3). unfold rangetr_cmp, rangetr_lex, in_u in *. by rewrite !s32_small by lia. Qed.

(** The same table with the order that [rangetr_cmp] computes. *)
Definition with_cmp {K D} (cmp : K -> K -> Z) (t : hashtab K D) : hashtab K D :=
  mk_hashtab (ht_htable t) (ht_size t) (ht_nel t) (ht_hash_value t) cmp.

Abbreviation rtable := (hashtab range_trans mls_range).

Lemma small_chain k d (c : list (range_trans * mls_range)) m :
  small_key k -> Forall (fun n => small_key n.1) c -> chain_insert rangetr_cmp k d c m = chain_insert rangetr_lex k d c m.
Proof.
  intros Hk. induction 1 as [|n c Hn _ IH]; [done|]. cbn [chain_insert]. by rewrite small_cmp, IH.
Qed.

Lemma small_insert (t : rtable) k d m :
  small_key k -> (forall x, x ∈ entries t -> small_key x.1) -> ht_keycmp t = rangetr_lex ->
  hashtab_insert (Some (with_cmp rangetr_cmp t)) k d m =
    (fun r : Z * option rtable * kmem => (r.1.1, with_cmp rangetr_cmp <$> r.1.2, r.2)) <$> hashtab_insert (Some t) k d m.
Proof.
  intros Hk He Hc. unfold hashtab_insert. cbn [with_cmp ht_nel ht_hash_value ht_size ht_htable ht_keycmp]. rewrite Hc.
  destruct (_ =? HASHTAB_MAX_NODES); [done|]. destruct (ht_htable t !! _) as [c|] eqn:E; [|done]. cbn [mbind option_bind].
  rewrite small_chain; [|done|].
  - destruct (chain_insert rangetr_lex k d c m) as [[rc l] m1]. by destruct (nz rc).
  - apply Forall_forall. intros x Hx. apply He. apply elem_of_entries. eauto.
Qed.

Record range_entry_fits (p : policydb) (k : range_trans) (r : mls_range) : Prop := mk_range_entry_fits {
  gr_small : small_key k;
  gr_valid : policydb_type_isvalid p (rg_source_type k) && policydb_type_isvalid p (rg_target_type k) &&
             policydb_class_isvalid p (rg_target_class k) = true;
  gr_range : range_fits r;
  gr_isvalid : mls_range_isvalid p r = Some true
}.

Record ranges_fit (p : policydb) (t : rtable) : Prop := mk_ranges_fit {
  rr_wf : hashtab_wf t;
  rr_size : ht_size t = 256;
  rr_hash : ht_hash_value t = rangetr_hash;
  rr_cmp : ht_keycmp t = rangetr_lex;
  rr_entries : forall k r, (k, r) ∈ entries t -> range_entry_fits p k r
}.
Definition ranges_bitmaps (t : rtable) : list ebitmap := concat ((fun kr => range_bitmaps kr.2) <$> entries t).

Definition small_policy (p : policydb) : Prop := st_nprim (p_types p) < 2 ^ 31 /\ st_nprim (p_classes p) < 2 ^ 31.

Lemma valid_small p k :
  small_policy p -> in_u 32 (rg_source_type k) -> in_u 32 (rg_target_type k) -> in_u 32 (rg_target_class k) ->
  policydb_type_isvalid p (rg_source_type k) && policydb_type_isvalid p (rg_target_type k) &&
  policydb_class_isvalid p (rg_target_class k) = true -> small_key k.
Proof.
  intros [Ht Hc] H1 H2 H3 [[V1 V2]%andb_prop V3]%andb_prop. unfold policydb_type_isvalid, policydb_class_isvalid in *.
  destruct (_ || (_ <? rg_source_type k)) eqn:E1; [done|]. destruct (_ || (_ <? rg_target_type k)) eqn:E2; [done|].
  destruct (_ || (_ <? rg_target_class k)) eqn:E3; [done|].
  apply orb_false_iff in E1 as [_ E1], E2 as [_ E2], E3 as [_ E3]. unfold small_key, in_u in *. lia.
Qed.

Lemma gives_range_item p t :
  small_policy p -> in_u 32 (process_class p) -> ranges_fit p t -> Forall ebitmap_wf (ranges_bitmaps t) ->
  gives (range_read_item p (Some (with_cmp rangetr_cmp t))) (fun h => exists t', h = Some (with_cmp rangetr_cmp t') /\ ranges_fit p t' /\
    Forall ebitmap_wf (ranges_bitmaps t')).
Proof.
  intros Hsm Hpc [Hw Hs Hh Hc He] HB. unfold range_read_item. repeat gv. eapply (gives_bind _ _ (in_u 32)).
  { destruct (_ <=? _); [apply gives_u32|by gv]. }
  intros target_class Htc. gv. gv. eapply gives_bind; [apply range_codec|]. intros r [Hr HBr]. gv. gv.
  eapply gives_impl; [apply gives_call|]. intros h' (m & m' & E). set (k := mk_range_trans (item a 0) (item a 1) target_class) in *.
  assert (small_key k) as Hk by (apply (valid_small p); cbn; auto with fits).
  rewrite small_insert in E; [|done|intros [k' r'] Hx; apply (He k' r' Hx)|done].
  destruct (hashtab_insert (Some t) k r m) as [[[rc h1] m1]|] eqn:Ei; [|done]. cbn in E. injection E as -> <- <-.
  apply hashtab_insert_ok in Ei as (t' & -> & Hw' & (Es & Eh & Ec) & Hin); [|done]. exists t'. split; [done|]. unfold ranges_bitmaps in *.
  rewrite Forall_concat_fmap in *. rewrite Forall_forall in *. split.
  - constructor; [done|congruence..|]. intros k' r' [[= -> ->]|Hx]%Hin; [|by apply He]. subst. by constructor.
  - intros x [->|Hx]%Hin; [exact HBr|by apply HB].
Qed.

Lemma empty_ranges_fit p : ranges_fit p (mk_hashtab (replicate 256 []) 256 0 rangetr_hash rangetr_lex).
Proof.
  pose proof (hashtab_create_wf (D := mls_range) rangetr_hash rangetr_lex 256 [] rangetr_ops ltac:(lia)) as [Hw _]. cbn in Hw.
  constructor; try done. intros k d Hk. unfold entries in Hk. cbn [ht_htable] in Hk. rewrite concat_replicate_nil in Hk. by apply not_elem_of_nil in Hk.
Qed.

Definition empty_ranges : rtable := mk_hashtab (replicate 256 []) 256 0 rangetr_hash rangetr_cmp.

Lemma gives_ranges p :
  small_policy p -> in_u 32 (process_class p) -> range_tr p = Some empty_ranges ->
  gives (range_read p) (fun h => exists t, h = Some (with_cmp rangetr_cmp t) /\ ranges_fit p t /\ Forall ebitmap_wf (ranges_bitmaps t)).
Proof.
  intros Hsm Hpc H0. unfold range_read. rewrite H0.
  assert (exists t, Some empty_ranges = Some (with_cmp rangetr_cmp t) /\ ranges_fit p t /\ Forall ebitmap_wf (ranges_bitmaps t)) as Hini.
  { eexists. split; [|split; [apply empty_ranges_fit|]]; [done|]. unfold ranges_bitmaps, entries. cbn [ht_htable]. rewrite concat_replicate_nil. constructor. }
  destruct (_ <? _); [by gv|]. gv. apply gives_for; [done|]. intros h (t & -> & Hf & HB). by apply gives_range_item.
Qed.

(** The number of transitions, as [range_write] counts them. *)
Lemma range_count_chain c n : 0 <= n -> n + Z.of_nat (length c) < 2 ^ 31 ->
  chain_map range_count c n = (0, n + Z.of_nat (length c)).
Proof.
  revert n. induction c as [|x c IH]; intros n Hn Hl; cbn [chain_map length] in *; [by rewrite Z.add_0_r|].
  unfold range_count at 1. cbn [nz Z.eqb negb]. rewrite s32_small by lia. rewrite IH by lia. f_equal. lia.
Qed.

Lemma range_count_slots ls n : 0 <= n -> n + Z.of_nat (length (concat ls)) < 2 ^ 31 ->
  slots_map range_count ls n = (0, n + Z.of_nat (length (concat ls))).
Proof.
  revert n. induction ls as [|c ls IH]; intros n Hn Hl; cbn [slots_map concat] in *; [by rewrite Z.add_0_r|].
  rewrite length_app in *. rewrite range_count_chain by lia. cbn [nz Z.eqb negb]. rewrite IH by lia. f_equal. lia.
Qed.

Lemma reads_ranges p q t :
  POLICYDB_VERSION_RANGETRANS <= policyvers p -> policyvers q = policyvers p -> range_tr p = Some empty_ranges ->
  range_tr q = Some (with_cmp rangetr_cmp t) -> ranges_fit p t -> Forall storable (ranges_bitmaps t) ->
  Z.of_nat (length (entries t)) < 2 ^ 31 ->
  exists b, range_write q = Some b /\ reads (range_read p) b (range_tr q).
Proof.
  intros Hv Hq H0 Hr Hf HB Hlen. unfold range_write, range_read. rewrite Hr, H0.
  unfold POLICYDB_VERSION_RANGETRANS in Hv. rewrite (proj2 (Z.ltb_ge _ POLICYDB_VERSION_MLS)) by (unfold POLICYDB_VERSION_MLS; lia).
  set (bytes := fun kr : range_trans * mls_range => put_u32s [rg_source_type kr.1; rg_target_type kr.1] ++ put_u32 (rg_target_class kr.1) ++ mls_write_range_helper kr.2).
  assert (write_table (Some (with_cmp rangetr_cmp t)) (range_write_helper q) = Some (concat (bytes <$> entries t))) as ->.
  { change (write_table (Some t) (range_write_helper q) = Some (concat (bytes <$> entries t))). apply write_table_spec; [apply Hf|].
    intros k r _. unfold range_write_helper. rewrite Hq, (proj2 (Z.leb_le _ _)) by done. done. }
  destruct (hwf_len t (rr_wf _ _ Hf)). cbn [hashtab_map with_cmp ht_size ht_htable].
  rewrite take_ge by (rewrite <- (hwf_len t (rr_wf _ _ Hf)); lia). rewrite range_count_slots by (fold (entries t); lia). fold (entries t).
  rewrite Z.add_0_l. cbn [snd]. cbv iota. eexists. split; [done|]. rd. rewrite Nat2Z.id.
  pose proof (empty_ranges_fit p) as [W0 S0 Hs0 C0 _]. unfold ranges_bitmaps in HB. rewrite Forall_concat_fmap, Forall_forall in HB.
  pose proof (reads_table_with (range_read_item p) (fun _ h => with_cmp rangetr_cmp <$> h) bytes (fun _ => false)
                (mk_hashtab (replicate 256 []) 256 0 rangetr_hash rangetr_lex) t (length (entries t))) as Hloop.
  cbn [fmap option_fmap option_map] in Hloop. apply Hloop; clear Hloop; [done|apply Hf| | | |done|done].
  - destruct Hf as [_ ? ? ? _]. by split_and!.
  - intros k. unfold hashtab_abs. cbn [ht_htable]. by rewrite concat_replicate_nil.
  - intros i k r tc h' Hi%list_elem_of_lookup_2 _ (_ & _ & Hcmp) Hsub E. rewrite (rr_cmp _ _ Hf) in Hcmp.
    destruct (rr_entries _ _ Hf k r Hi) as [Hk Hval Hrf Hrv]. destruct (codec_reads (c := mls_read_range_helper) r Hrf (HB _ Hi)) as (b & [= <-] & Hread).
    assert (forall z, in_u 31 z -> in_u 32 z) as Hw by (unfold in_u; lia). destruct Hk as (K1 & K2 & K3) eqn:Ek.
    unfold bytes, range_read_item. cbn [fst snd fmap option_fmap option_map]. destruct k as [k1 k2 k3]. cbn [rg_source_type rg_target_type rg_target_class] in *.
    apply Hw in K1 as ?, K2 as ?, K3 as ?. rd. rd. rewrite (proj2 (Z.leb_le _ _)) by done. rd. rd; [done|]. rd.
    eapply reads_last; [exact Hread|]. cbn beta. rd; [exact Hrv|]. rd; [done|]. apply reads_call.
    rewrite small_insert, E; [done|by split_and!| |done]. intros [k' r'] Hx%Hsub. by apply (rr_entries _ _ Hf k' r').
Qed.

(** ** The attributes of the types *)

Definition attr_fits (i : Z) (e : ebitmap) : Prop := ebitmap_wf e /\ ebit e i = true.

Definition attrs_fit (i : Z) (l : list ebitmap) : Prop := forall j e, l !! j = Some e -> attr_fits (i + Z.of_nat j) e.

Lemma gives_type_attrs p n i :
  0 <= i -> i + Z.of_nat n <= 2 ^ 31 -> gives (read_type_attrs p n i) (fun l => length l = n /\ attrs_fit i l).
Proof.
  revert i. induction n as [|n IH]; intros i Hi Hn; cbn [read_type_attrs]; [gv; split; [done|]; by intros j e|].
  eapply (gives_bind _ _ ebitmap_wf).
  { destruct (_ <=? _); [apply gives_ebitmap|gv; apply (canon_wf _ ebitmap_init_canon)]. }
  intros e He. eapply gives_bind; [apply gives_call|]. intros e' (m & m' & E).
  destruct (set_bit_spec e i true m He Hi) as (rc & e1 & m1 & E1 & Hw & _ & Hcase);
    [rewrite EBITMAP_SIZE_val; pose proof (Z.mod_pos_bound i 128); lia|].
  rewrite E in E1. injection E1 as <- <- <-. destruct Hcase as [[_ Hb]|([=] & _)].
  eapply gives_bind; [apply (IH (i + 1)); lia|]. intros l [Hl Hf]. gv. split; [cbn; lia|]. intros [|j] x; cbn.
  - intros [= <-]. split; [done|]. rewrite Hb, decide_True by lia. done.
  - intros Hx. replace (i + Z.of_nat (S j)) with (i + 1 + Z.of_nat j) by lia. by apply Hf.
Qed.

(** Setting a bit that is set changes nothing. *)
Lemma set_bit_again e i : storable e -> ebit e i = true -> ebitmap_set_bit e i true [] = Some (0, e, []).
Proof.
  intros [Hc Hh] Hb. pose proof (canon_wf _ Hc) as Hw.
  assert (0 <= i < 2 ^ 31) as Hi.
  { unfold ebit in Hb. apply nodes_bit_true in Hb as (n & Hn & Hnb). apply node_bit_range in Hnb.
    destruct Hw as [Hw _ Hbl _]. rewrite Forall_forall in Hw, Hbl. specialize (Hbl n Hn). destruct (Hw n Hn) as (_ & _ & _ & ? & _).
    unfold below in Hbl. lia. }
  destruct (set_bit_spec e i true [] Hw) as (rc & e1 & m1 & E1 & _ & Hcan & Hcase);
    [lia|rewrite EBITMAP_SIZE_val; pose proof (Z.mod_pos_bound i 128); lia|].
  rewrite E1. destruct (set_bit_kmem _ _ _ _ _ _ _ _ E1) as [-> ->]. destruct Hcase as [[_ Hbits]|([=] & _)]. do 3 f_equal.
  apply canon_ext; [by apply Hcan|done|]. intros b. rewrite Hbits. by case_decide; subst.
Qed.

Lemma reads_type_attrs p l i :
  POLICYDB_VERSION_AVTAB <= policyvers p -> attrs_fit i l -> Forall storable l ->
  reads (read_type_attrs p (length l) i) (concat (ebitmap_write <$> l)) l.
Proof.
  intros Hv Hf Hs. revert i Hf. induction Hs as [|e l He Hs IH]; intros i Hf; [apply reads_ret|]. cbn [length read_type_attrs fmap list_fmap concat].
  rewrite (proj2 (Z.leb_le _ _)) by done. cbv iota. rd. eapply reads_step.
  { apply reads_call, set_bit_again; [done|]. destruct (Hf 0%nat e eq_refl) as [_ H]. by rewrite Z.add_0_r in H. }
  cbn beta. eapply reads_last; [apply (IH (i + 1))|rd]. intros j x Hx. replace (i + 1 + Z.of_nat j) with (i + Z.of_nat (S j)) by lia. by apply Hf.
Qed.

(** ** The table of roles *)

Definition role_table (t : hashtab string role_datum) : Prop := (OBJECT_R, object_role) ∈ entries t.

(** The table [policydb_init] leaves. *)
Definition initial_roles : hashtab string role_datum :=
  match hashtab_insert (Some (empty_table 16)) OBJECT_R object_role [] with Some (_, Some t, _) => t | _ => empty_table 16 end.

Lemma initial_roles_eq : hashtab_insert (Some (empty_table 16)) OBJECT_R object_role [] = Some (0, Some initial_roles, []).
Proof.
  destruct (hashtab_insert_new (empty_table 16) OBJECT_R object_role) as (t & E & _); [|by rewrite empty_table_abs|done|unfold initial_roles; by rewrite E].
  apply (tf_wf _ _ _ (empty_table_fits 16 role_fits ltac:(lia))).
Qed.

Lemma initial_roles_fit :
  table_fits 16 (fun k d => role_fits k d /\ Forall ebitmap_wf (role_bitmaps d)) initial_roles /\
  hashtab_abs initial_roles = {[OBJECT_R := object_role]}.
Proof.
  pose proof (empty_table_fits (D := role_datum) 16 (fun k d => role_fits k d /\ Forall ebitmap_wf (role_bitmaps d)) ltac:(lia)) as H0.
  pose proof (empty_table_abs (D := role_datum) 16) as He.
  destruct (hashtab_insert_new (empty_table 16) OBJECT_R object_role) as (t & E & Hw & (Es & Eh & Ec) & Ha); [apply H0|by rewrite He|done|].
  unfold initial_roles. rewrite E. split; [|by rewrite Ha, He]. cbn in Es, Eh, Ec.
  constructor; [done|congruence..|]. intros k d Hk%entries_abs; [|done]. rewrite Ha, He in Hk. apply lookup_insert_Some in Hk as [[<- <-]|[_ Hk]]; [|done].
  pose proof (canon_wf _ ebitmap_init_canon). split; [by split|]. split; [by split|]. unfold role_bitmaps. cbn. bitmaps_ok.
Qed.

#[global] Opaque initial_roles.

Lemma role_gives_object p h :
  (exists t, h = Some t /\ hashtab_wf t /\ role_table t) -> gives (role_read p h) (fun h' => exists t, h' = Some t /\ hashtab_wf t /\ role_table t).
Proof.
  intros (t & -> & Hw & Ho). unfold role_read. repeat gv. destruct (_ =? 0); [repeat gv; eauto|].
  eapply gives_impl; [apply gives_call|]. intros h' (m & m' & E). apply hashtab_insert_ok in E as (t' & -> & Hw' & _ & Hin); [|done].
  exists t'. split; [done|]. split; [done|]. apply Hin. by right.
Qed.

Lemma gives_roles p n :
  gives (for_loop n (role_read p) (Some initial_roles)) (fun h =>
    otable_fits 16 (fun k d => role_fits k d /\ Forall ebitmap_wf (role_bitmaps d)) h /\ exists t, h = Some t /\ hashtab_wf t /\ role_table t).
Proof.
  apply gives_for.
  - destruct initial_roles_fit as [Hi Ha]. split; [exists initial_roles; split; [reflexivity|exact Hi]|]. exists initial_roles. split; [reflexivity|].
    split; [apply Hi|]. apply entries_abs; [apply Hi|]. by rewrite Ha, lookup_singleton_eq.
  - intros h [H1 H2] fp m a fp' m' E. split; [by eapply role_gives|by eapply role_gives_object].
Qed.

Lemma reads_roles p t n :
  has_bounds p = true -> table_fits 16 role_fits t -> role_table t -> Forall storable (table_bitmaps role_bitmaps t) -> n = Z.to_nat (ht_nel t) ->
  exists b, write_table (Some t) (role_write p) = Some b /\ reads (for_loop n (role_read p) (Some initial_roles)) b (Some t).
Proof.
  intros Hb Ht Ho HB ->. pose proof (nel_entries _ _ _ Ht) as [-> _]. rewrite Nat2Z.id.
  unfold table_bitmaps in HB. rewrite Forall_concat_fmap, Forall_forall in HB. destruct initial_roles_fit as [Hi Hia].
  set (bytes := fun kd : string * role_datum => default [] (role_write p kd.1 kd.2)). exists (concat (bytes <$> entries t)). split.
  - apply write_table_spec; [apply Ht|]. done.
  - apply (reads_table (role_read p) bytes (fun k => bool_decide (k = OBJECT_R))); [apply Hi|apply Ht| | | | |done].
    + destruct Ht as [_ Hs Hh Hcmp _], Hi as [_ Hs0 Hh0 Hcmp0 _]. split_and!; congruence.
    + intros k. rewrite Hia. case_bool_decide as Hk; [subst|by rewrite lookup_singleton_ne].
      rewrite lookup_singleton_eq. symmetry. apply entries_abs; [apply Ht|done].
    + intros k d h h' Hk Hne%bool_decide_eq_false E. destruct (tf_entries _ _ _ Ht k d Hk) as [Hn HP].
      destruct (role_reads p k d h h' Hn Hne HP (HB (k, d) Hk) Hb E) as (b & Ew & Hr). unfold bytes. cbn [fst snd]. by rewrite Ew.
    + intros k d h Hk ->%bool_decide_eq_true. assert (d = object_role) as ->.
      { apply entries_abs in Hk, Ho; [congruence|apply Ht..]. }
      destruct (object_r_reads p h Hb) as (b & Ew & Hr). unfold bytes. cbn [fst snd]. by rewrite Ew.
Qed.
