(* ===== verification/Classmap.v ===== *)
(** * Kernel classes and permissions (security/selinux/include/classmap.h)

    The table of the classes and permissions the kernel knows, and what
    scripts/selinux/genheaders/genheaders.c derives from it: the numbers
    [SECCLASS_*] and [*__*], and [security_is_socket_class]. *)

From Stdlib Require Import Ascii String.
From S2P Require Import Prelude Hashtab.

Record security_class_mapping := mk_scm {
  scm_name : string;
  scm_perms : list string
}.

Open Scope string_scope.
Open Scope list_scope.

Definition COMMON_FILE_SOCK_PERMS : list string :=
  ["ioctl"; "read"; "write"; "create"; "getattr"; "setattr"; "lock"; "relabelfrom"; "relabelto";
   "append"].

Definition COMMON_FILE_PERMS : list string :=
  COMMON_FILE_SOCK_PERMS ++
  ["unlink"; "link"; "rename"; "execute"; "swapon"; "quotaon"; "mounton"; "audit_access"; "open";
   "execmod"].

Definition COMMON_SOCK_PERMS : list string :=
  COMMON_FILE_SOCK_PERMS ++
  ["bind"; "connect"; "listen"; "accept"; "getopt"; "setopt"; "shutdown"; "recvfrom"; "sendto";
   "recv_msg"; "send_msg"; "name_bind"].

Definition COMMON_IPC_PERMS : list string :=
  ["create"; "destroy"; "getattr"; "setattr"; "read"; "write"; "associate"; "unix_read"; "unix_write"].

(** The entry with a null name that ends the array is the end of the list. *)
Definition secclass_map : list security_class_mapping := [
    mk_scm "security"
      (["compute_av"; "compute_create"; "compute_member"; "check_context"; "load_policy";
        "compute_relabel"; "compute_user"; "setenforce"; "setbool"; "setsecparam";
        "setcheckreqprot"; "read_policy"]);
    mk_scm "process"
      (["fork"; "transition"; "sigchld"; "sigkill"; "sigstop"; "signull"; "signal"; "ptrace"; "getsched";
        "setsched"; "getsession"; "getpgid"; "setpgid"; "getcap"; "setcap"; "share"; "getattr";
        "setexec"; "setfscreate"; "noatsecure"; "siginh"; "setrlimit"; "rlimitinh";
        "dyntransition"; "setcurrent"; "execmem"; "execstack"; "execheap"; "setkeycreate";
        "setsockcreate"]);
    mk_scm "system"
      (["ipc_info"; "syslog_read"; "syslog_mod"; "syslog_console"; "module_request"]);
    mk_scm "capability"
      (["chown"; "dac_override"; "dac_read_search"; "fowner"; "fsetid"; "kill"; "setgid"; "setuid";
        "setpcap"; "linux_immutable"; "net_bind_service"; "net_broadcast"; "net_admin"; "net_raw";
        "ipc_lock"; "ipc_owner"; "sys_module"; "sys_rawio"; "sys_chroot"; "sys_ptrace";
        "sys_pacct"; "sys_admin"; "sys_boot"; "sys_nice"; "sys_resource"; "sys_time";
        "sys_tty_config"; "mknod"; "lease"; "audit_write"; "audit_control"; "setfcap"]);
    mk_scm "filesystem"
      (["mount"; "remount"; "unmount"; "getattr"; "relabelfrom"; "relabelto"; "transition"; "associate";
        "quotamod"; "quotaget"]);
    mk_scm "file"
      (COMMON_FILE_PERMS ++
       ["execute_no_trans"; "entrypoint"]);
    mk_scm "dir"
      (COMMON_FILE_PERMS ++
       ["add_name"; "remove_name"; "reparent"; "search"; "rmdir"]);
    mk_scm "fd"
      (["use"]);
    mk_scm "lnk_file"
      (COMMON_FILE_PERMS);
    mk_scm "chr_file"
      (COMMON_FILE_PERMS);
    mk_scm "blk_file"
      (COMMON_FILE_PERMS);
    mk_scm "sock_file"
      (COMMON_FILE_PERMS);
    mk_scm "fifo_file"
      (COMMON_FILE_PERMS);
    mk_scm "socket"
      (COMMON_SOCK_PERMS);
    mk_scm "tcp_socket"
      (COMMON_SOCK_PERMS ++
       ["connectto"; "newconn"; "acceptfrom"; "node_bind"; "name_connect"]);
    mk_scm "udp_socket"
      (COMMON_SOCK_PERMS ++
       ["node_bind"]);
    mk_scm "rawip_socket"
      (COMMON_SOCK_PERMS ++
       ["node_bind"]);
    mk_scm "node"
      (["tcp_recv"; "tcp_send"; "udp_recv"; "udp_send"; "rawip_recv"; "rawip_send"; "enforce_dest";
        "dccp_recv"; "dccp_send"; "recvfrom"; "sendto"]);
    mk_scm "netif"
      (["tcp_recv"; "tcp_send"; "udp_recv"; "udp_send"; "rawip_recv"; "rawip_send"; "dccp_recv";
        "dccp_send"; "ingress"; "egress"]);
    mk_scm "netlink_socket"
      (COMMON_SOCK_PERMS);
    mk_scm "packet_socket"
      (COMMON_SOCK_PERMS);
    mk_scm "key_socket"
      (COMMON_SOCK_PERMS);
    mk_scm "unix_stream_socket"
      (COMMON_SOCK_PERMS ++
       ["connectto"; "newconn"; "acceptfrom"]);
    mk_scm "unix_dgram_socket"
      (COMMON_SOCK_PERMS);
    mk_scm "sem"
      (COMMON_IPC_PERMS);
    mk_scm "msg"
      (["send"; "receive"]);
    mk_scm "msgq"
      (COMMON_IPC_PERMS ++
       ["enqueue"]);
    mk_scm "shm"
      (COMMON_IPC_PERMS ++
       ["lock"]);
    mk_scm "ipc"
      (COMMON_IPC_PERMS);
    mk_scm "netlink_route_socket"
      (COMMON_SOCK_PERMS ++
       ["nlmsg_read"; "nlmsg_write"]);
    mk_scm "netlink_firewall_socket"
      (COMMON_SOCK_PERMS ++
       ["nlmsg_read"; "nlmsg_write"]);
    mk_scm "netlink_tcpdiag_socket"
      (COMMON_SOCK_PERMS ++
       ["nlmsg_read"; "nlmsg_write"]);
    mk_scm "netlink_nflog_socket"
      (COMMON_SOCK_PERMS);
    mk_scm "netlink_xfrm_socket"
      (COMMON_SOCK_PERMS ++
       ["nlmsg_read"; "nlmsg_write"]);
    mk_scm "netlink_selinux_socket"
      (COMMON_SOCK_PERMS);
    mk_scm "netlink_audit_socket"
      (COMMON_SOCK_PERMS ++
       ["nlmsg_read"; "nlmsg_write"; "nlmsg_relay"; "nlmsg_readpriv"; "nlmsg_tty_audit"]);
    mk_scm "netlink_ip6fw_socket"
      (COMMON_SOCK_PERMS ++
       ["nlmsg_read"; "nlmsg_write"]);
    mk_scm "netlink_dnrt_socket"
      (COMMON_SOCK_PERMS);
    mk_scm "association"
      (["sendto"; "recvfrom"; "setcontext"; "polmatch"]);
    mk_scm "netlink_kobject_uevent_socket"
      (COMMON_SOCK_PERMS);
    mk_scm "appletalk_socket"
      (COMMON_SOCK_PERMS);
    mk_scm "packet"
      (["send"; "recv"; "relabelto"; "forward_in"; "forward_out"]);
    mk_scm "key"
      (["view"; "read"; "write"; "search"; "link"; "setattr"; "create"]);
    mk_scm "dccp_socket"
      (COMMON_SOCK_PERMS ++
       ["node_bind"; "name_connect"]);
    mk_scm "memprotect"
      (["mmap_zero"]);
    mk_scm "peer"
      (["recv"]);
    mk_scm "capability2"
      (["mac_override"; "mac_admin"; "syslog"]);
    mk_scm "kernel_service"
      (["use_as_override"; "create_files_as"]);
    mk_scm "tun_socket"
      (COMMON_SOCK_PERMS)
].

Close Scope string_scope.

(** ** genheaders.c *)

Definition toupper (c : ascii) : ascii :=
  let n := nat_of_ascii c in
  if (97 <=? n)%nat && (n <=? 122)%nat then ascii_of_nat (n - 32) else c.

Fixpoint stoupperx (s : string) : string :=
  match s with
  | EmptyString => EmptyString
  | String c s' => String (toupper c) (stoupperx s')
  end.

(** [strstr]: the rest of [s] from the first occurrence on. *)
Fixpoint strstr (s needle : string) : option string :=
  if String.prefix needle s then Some s
  else match s with
       | EmptyString => None
       | String _ s' => strstr s' needle
       end.

Definition needle : string := "SOCKET".

(** Whether genheaders writes a [case] for the class. *)
Definition socket_case (map : security_class_mapping) : bool :=
  match strstr (stoupperx (scm_name map)) needle with
  | Some substr => strcmp substr needle =? 0
  | None => false
  end.

(** The generated function: class [i + 1] is entry [i] of the table. *)
Definition security_is_socket_class (kern_tclass : Z) : bool :=
  if kern_tclass <=? 0 then false
  else match secclass_map !! Z.to_nat (kern_tclass - 1) with
       | Some map => socket_case map
       | None => false
       end.

(** [SECCLASS_<name>]: position in the table plus one, 0 for no such class. *)
Fixpoint class_number (maps : list security_class_mapping) (i : Z) (name : string) : Z :=
  match maps with
  | [] => 0
  | map :: maps' => if strcmp (stoupperx (scm_name map)) name =? 0 then i else class_number maps' (i + 1) name
  end.

Definition SECCLASS (name : string) : Z := class_number secclass_map 1 name.

(** [<class>__<perm>]: [1 << j] for the permission at position [j]. *)
Fixpoint perm_number (perms : list string) (j : Z) (name : string) : Z :=
  match perms with
  | [] => 0
  | perm :: perms' => if strcmp (stoupperx perm) name =? 0 then u32 (1 .<< j) else perm_number perms' (j + 1) name
  end.

Definition PERM (class name : string) : Z :=
  match secclass_map !! Z.to_nat (SECCLASS class - 1) with
  | Some map => perm_number (scm_perms map) 0 name
  | None => 0
  end.

Definition SECCLASS_NULL : Z := 0.
Definition SECCLASS_PROCESS : Z := Eval vm_compute in SECCLASS "PROCESS".
Definition SECCLASS_DIR : Z := Eval vm_compute in SECCLASS "DIR".
Definition PROCESS__TRANSITION : Z := Eval vm_compute in PERM "PROCESS" "TRANSITION".
