(* ===== verification/Services.v ===== *)
(** * The security server: access decisions (security/selinux/ss/services.c)

    Class mapping, constraint expressions and access vectors.  The globals of
    services.c are the fields of [ss].  Functions read them under the read lock
    and change them under the write lock (or the SID table's own lock), so a
    call is a function of the state and, where it writes, a new state.

    Messages to the kernel log and to the audit subsystem are left out, but
    not the look-ups made for them that can fail.  [None] is [BUG()] or an
    invalid access. *)

From Stdlib Require Import Ascii String.
From S2P Require Import Prelude Ebitmap Hashtab Context Sidtab Avtab Policydb Mls PolicydbOps Sample Conditional Classmap.

(** ** State *)

Record selinux_mapping := mk_selinux_mapping {
  mp_value : Z;
  mp_num_perms : Z;
  mp_perms : list Z      (* perms[32] *)
}.

Record ss := mk_ss {
  ss_policydb : policydb;
  ss_sidtab : sidtab;
  ss_initialized : bool;
  latest_granting : Z;
  current_mapping : list selinux_mapping;
  current_mapping_size : Z;
  selinux_enforcing : bool;
  selinux_policycap_netpeer : bool;
  selinux_policycap_openperm : bool
}.

Definition set_ss_policydb (s : ss) (v : policydb) : ss :=
  mk_ss v (ss_sidtab s) (ss_initialized s) (latest_granting s) (current_mapping s) (current_mapping_size s)
    (selinux_enforcing s) (selinux_policycap_netpeer s) (selinux_policycap_openperm s).
Definition set_ss_sidtab (s : ss) (v : sidtab) : ss :=
  mk_ss (ss_policydb s) v (ss_initialized s) (latest_granting s) (current_mapping s) (current_mapping_size s)
    (selinux_enforcing s) (selinux_policycap_netpeer s) (selinux_policycap_openperm s).

(** ** Class mapping *)

Definition mapping_zero : selinux_mapping := mk_selinux_mapping 0 0 (replicate 32 0).

(** [while (p_in->perms && p_in->perms[k])]; [None] inside: [goto err].  A
    store past the end of [perms] is an invalid access. *)
Fixpoint map_perms (pol : policydb) (value : Z) (names : list string) (k : nat) (perms : list Z)
    : option (option (nat * list Z)) :=
  match names with
  | [] => Some (Some (k, perms))
  | name :: names' =>
      if String.eqb name EmptyString then map_perms pol value names' (S k) perms
      else if decide (k < length perms)%nat then
        perm ← string_to_av_perm pol value name;
        if negb (nz perm) && reject_unknown pol then Some None
        else map_perms pol value names' (S k) (<[k := perm]> perms)
      else None
  end.

Fixpoint map_classes (pol : policydb) (map : list security_class_mapping) : option (option (list selinux_mapping)) :=
  match map with
  | [] => Some (Some [])
  | p_in :: map' =>
      p_out ← (if String.eqb (scm_name p_in) EmptyString then Some (Some mapping_zero)
               else
                 value ← string_to_security_class pol (scm_name p_in);
                 if negb (nz value) then
                   if reject_unknown pol then Some None else Some (Some mapping_zero)
                 else
                   r ← map_perms pol value (scm_perms p_in) 0 (replicate 32 0);
                   match r with
                   | None => Some None
                   | Some (k, perms) => Some (Some (mk_selinux_mapping value (Z.of_nat k) perms))
                   end);
      match p_out with
      | None => Some None
      | Some p_out =>
          rest ← map_classes pol map';
          match rest with
          | None => Some None
          | Some rest => Some (Some (p_out :: rest))
          end
      end
  end.

(** Result: [rc], and [( *out_map_p, *out_map_size)] when it is 0.  Entry 0 of
    the new map is class zero. *)
Definition selinux_set_mapping (pol : policydb) (map : list security_class_mapping) (m : kmem)
    : option (Z * option (list selinux_mapping * Z) * kmem) :=
  let i := u16 (Z.of_nat (length map) + 1) in
  let '(ok, m) := kalloc m in
  if negb ok then Some (- ENOMEM, None, m)
  else
    r ← map_classes pol map;
    match r with
    | None => Some (- EINVAL, None, m)
    | Some out => Some (0, Some (mapping_zero :: out, i), m)
    end.

Definition mapping_at (s : ss) (tclass : Z) : option selinux_mapping := current_mapping s !! Z.to_nat tclass.

Definition unmap_class (s : ss) (tclass : Z) : option Z :=
  if tclass <? current_mapping_size s then
    mp ← mapping_at s tclass; Some (mp_value mp)
  else Some tclass.

(** [for (i = 1; i < current_mapping_size; i++)]; [n] entries are left. *)
Fixpoint map_class_loop (s : ss) (pol_value : Z) (n : nat) (i : Z) : option Z :=
  match n with
  | O => Some SECCLASS_NULL
  | S n' =>
      mp ← mapping_at s i;
      if mp_value mp =? pol_value then Some i else map_class_loop s pol_value n' (i + 1)
  end.

Definition map_class (s : ss) (pol_value : Z) : option Z :=
  map_class_loop s pol_value (Z.to_nat (current_mapping_size s - 1)) 1.

(** [for (i = 0, result = 0; i < n; i++) if (...) result |= 1<<i;] *)
Fixpoint bits_where (n : nat) (f : nat -> bool) : Z :=
  match n with
  | O => 0
  | S i => let result := bits_where i f in if f i then result .| u32 (1 .<< Z.of_nat i) else result
  end.

Definition map_decision (s : ss) (tclass : Z) (avd : av_decision) (allow_unknown : bool) : option av_decision :=
  if tclass <? current_mapping_size s then
    mp ← mapping_at s tclass;
    let n := Z.to_nat (mp_num_perms mp) in
    let perm i := nth i (mp_perms mp) 0 in
    let allowed' :=
      bits_where n (fun i => nz (allowed avd .& perm i) || allow_unknown && negb (nz (perm i))) in
    let auditallow' := bits_where n (fun i => nz (auditallow avd .& perm i)) in
    let auditdeny' :=
      bits_where (n `max` 32)
        (fun i => (n <=? i)%nat || nz (auditdeny avd .& perm i) || negb allow_unknown && negb (nz (perm i))) in
    Some (set_auditdeny (set_auditallow (set_allowed avd allowed') auditallow') auditdeny')
  else Some avd.

Definition security_mls_enabled (s : ss) : bool := mls_enabled (ss_policydb s).

(** ** Constraint expressions *)

(** The two contexts an MLS comparison looks at. *)
Definition mls_operands (scontext tcontext : context) (attr : Z) : option (mls_level * mls_level) :=
  let low c := mr_low (c_range c) in
  let high c := mr_high (c_range c) in
  if attr =? CEXPR_L1L2 then Some (low scontext, low tcontext)
  else if attr =? CEXPR_L1H2 then Some (low scontext, high tcontext)
  else if attr =? CEXPR_H1L2 then Some (high scontext, low tcontext)
  else if attr =? CEXPR_H1H2 then Some (high scontext, high tcontext)
  else if attr =? CEXPR_L1H1 then Some (low scontext, high scontext)
  else if attr =? CEXPR_L2H2 then Some (low tcontext, high tcontext)
  else None.

(** [switch (e->op)] after [mls_ops:]. *)
Definition mls_op (op : Z) (l1 l2 : mls_level) : option bool :=
  if op =? CEXPR_EQ then Some (mls_level_eq l1 l2)
  else if op =? CEXPR_NEQ then Some (negb (mls_level_eq l1 l2))
  else if op =? CEXPR_DOM then Some (mls_level_dom l1 l2)
  else if op =? CEXPR_DOMBY then Some (mls_level_dom l2 l1)
  else if op =? CEXPR_INCOMP then Some (mls_level_incomp l2 l1)
  else None.

(** The last [switch (e->op)] of [CEXPR_ATTR]. *)
Definition value_op (op val1 val2 : Z) : option bool :=
  if op =? CEXPR_EQ then Some (val1 =? val2)
  else if op =? CEXPR_NEQ then Some (negb (val1 =? val2))
  else None.

Definition role_op (p : policydb) (op val1 val2 : Z) : option bool :=
  r1 ← index (role_val_to_struct p) (u32 (val1 - 1));
  r2 ← index (role_val_to_struct p) (u32 (val2 - 1));
  if op =? CEXPR_DOM then
    r1 ← deref r1; ebitmap_get_bit (r_dominates r1) (u32 (val2 - 1))
  else if op =? CEXPR_DOMBY then
    r2 ← deref r2; ebitmap_get_bit (r_dominates r2) (u32 (val1 - 1))
  else if op =? CEXPR_INCOMP then
    r1 ← deref r1;
    b1 ← ebitmap_get_bit (r_dominates r1) (u32 (val2 - 1));
    if (b1 : bool) then Some false
    else
      r2 ← deref r2;
      b2 ← ebitmap_get_bit (r_dominates r2) (u32 (val1 - 1));
      Some (negb b2)
  else value_op op val1 val2.

(** The value pushed for [CEXPR_ATTR]. *)
Definition cexpr_attr (p : policydb) (scontext tcontext : context) (e : constraint_expr) : option bool :=
  if ce_attr e =? CEXPR_USER then value_op (ce_op e) (c_user scontext) (c_user tcontext)
  else if ce_attr e =? CEXPR_TYPE then value_op (ce_op e) (c_type scontext) (c_type tcontext)
  else if ce_attr e =? CEXPR_ROLE then role_op p (ce_op e) (c_role scontext) (c_role tcontext)
  else
    '(l1, l2) ← mls_operands scontext tcontext (ce_attr e);
    mls_op (ce_op e) l1 l2.

(** The value pushed for [CEXPR_NAMES]. *)
Definition cexpr_names (scontext tcontext : context) (xcontext : option context) (e : constraint_expr) : option bool :=
  c ← (if nz (ce_attr e .& CEXPR_TARGET) then Some tcontext
       else if nz (ce_attr e .& CEXPR_XTARGET) then xcontext
       else Some scontext);
  val1 ← (if nz (ce_attr e .& CEXPR_USER) then Some (c_user c)
          else if nz (ce_attr e .& CEXPR_ROLE) then Some (c_role c)
          else if nz (ce_attr e .& CEXPR_TYPE) then Some (c_type c)
          else None);
  if ce_op e =? CEXPR_EQ then ebitmap_get_bit (ce_names e) (u32 (val1 - 1))
  else if ce_op e =? CEXPR_NEQ then
    b ← ebitmap_get_bit (ce_names e) (u32 (val1 - 1)); Some (negb b)
  else None.

(** One expression; the stack has its top first.  Inner [None]: the stack is
    full and the function returns 0. *)
Definition cexpr_step (p : policydb) (scontext tcontext : context) (xcontext : option context)
    (e : constraint_expr) (s : list bool) : option (option (list bool)) :=
  let push (v : option bool) :=
    if Z.of_nat (length s) - 1 =? CEXPR_MAXDEPTH - 1 then Some None
    else v ← v; Some (Some (v :: s)) in
  let t := ce_expr_type e in
  if t =? CEXPR_NOT then
    match s with x :: s' => Some (Some (negb x :: s')) | [] => None end
  else if t =? CEXPR_AND then
    match s with y :: x :: s' => Some (Some ((x && y) :: s')) | _ => None end
  else if t =? CEXPR_OR then
    match s with y :: x :: s' => Some (Some ((x || y) :: s')) | _ => None end
  else if t =? CEXPR_ATTR then push (cexpr_attr p scontext tcontext e)
  else if t =? CEXPR_NAMES then push (cexpr_names scontext tcontext xcontext e)
  else None.

Fixpoint cexpr_loop (p : policydb) (scontext tcontext : context) (xcontext : option context)
    (cexpr : list constraint_expr) (s : list bool) : option (option (list bool)) :=
  match cexpr with
  | [] => Some (Some s)
  | e :: next =>
      r ← cexpr_step p scontext tcontext xcontext e s;
      match r with
      | None => Some None
      | Some s => cexpr_loop p scontext tcontext xcontext next s
      end
  end.

Definition constraint_expr_eval (p : policydb) (scontext tcontext : context) (xcontext : option context)
    (cexpr : list constraint_expr) : option bool :=
  r ← cexpr_loop p scontext tcontext xcontext cexpr [];
  match r with
  | None => Some false
  | Some [v] => Some v
  | Some _ => None
  end.

(** ** Access vectors *)

Definition AVD_FLAGS_PERMISSIVE : Z := 0x0001.
Definition ALL_PERMS : Z := 0xffffffff.

(** [dump_masked_av_helper] run over a table of permissions by [hashtab_map]. *)
Definition dump_masked_av_helper (k : string) (pdatum : perm_datum) (names : option (list (ptr string)))
    : Z * option (list (ptr string)) :=
  match names with
  | None => (- EFAULT, None)
  | Some names =>
      if (pm_value pdatum <? 1) || (32 <? pm_value pdatum) then (- EFAULT, None)
      else (0, Some (<[Z.to_nat (pm_value pdatum - 1) := Ptr k]> names))
  end.

(** The names [security_dump_masked_av] has for the masked permissions when it
    goes on to write the audit record ([permission_names] starts out
    unspecified). *)
Definition security_dump_masked_av (p : policydb) (tclass permissions : Z) : option (list (ptr string)) :=
  if negb (nz permissions) then Some []
  else
    tclass_dat ← index_deref (class_val_to_struct p) (tclass - 1);
    names ← (match cl_comdatum tclass_dat with
             | Some common_dat =>
                 (hashtab_map (st_table (cm_permissions common_dat)) dump_masked_av_helper
                              (Some (replicate 32 Wild))).2
             | None => Some (replicate 32 Wild)
             end);
    names ← (hashtab_map (st_table (cl_permissions tclass_dat)) dump_masked_av_helper (Some names)).2;
    Some ((fun i => nth i names Wild) <$> filter (fun i => Z.testbit permissions (Z.of_nat i) = true) (seq 0 32)).

(** The rules for one pair of attributes: the loop over [te_avtab]. *)
Definition te_add_node (avd : av_decision) (node : avtab_node) : av_decision :=
  let specified := ak_specified (an_key node) in
  if specified =? AVTAB_ALLOWED then set_allowed avd (allowed avd .| an_datum node)
  else if specified =? AVTAB_AUDITALLOW then set_auditallow avd (auditallow avd .| an_datum node)
  else if specified =? AVTAB_AUDITDENY then set_auditdeny avd (auditdeny avd .& an_datum node)
  else avd.

Definition te_compute_pair (p : policydb) (tclass i j : Z) (avd : av_decision) : option av_decision :=
  let avkey := mk_avtab_key (u16 (i + 1)) (u16 (j + 1)) tclass AVTAB_AV in
  nodes ← avtab_for_each (te_avtab p) avkey;
  cond_compute_av (te_cond_avtab p) avkey (fold_left te_add_node nodes avd).

(** The nested loops over the attributes of the source and target types. *)
Fixpoint te_compute_targets (p : policydb) (tclass i : Z) (tbits : list Z) (avd : av_decision) : option av_decision :=
  match tbits with
  | [] => Some avd
  | j :: tbits' => avd ← te_compute_pair p tclass i j avd; te_compute_targets p tclass i tbits' avd
  end.

Fixpoint te_compute (p : policydb) (tclass : Z) (sbits tbits : list Z) (avd : av_decision) : option av_decision :=
  match sbits with
  | [] => Some avd
  | i :: sbits' => avd ← te_compute_targets p tclass i tbits avd; te_compute p tclass sbits' tbits avd
  end.

(** [while (constraint)] *)
Fixpoint apply_constraints (p : policydb) (scontext tcontext : context) (l : list constraint_node) (allowed : Z)
    : option Z :=
  match l with
  | [] => Some allowed
  | constraint :: next =>
      masked ← (if nz (cn_permissions constraint .& allowed) then
                  v ← constraint_expr_eval p scontext tcontext None (cn_expr constraint);
                  Some (negb v)
                else Some false);
      apply_constraints p scontext tcontext next
        (if (masked : bool) then allowed .& not32 (cn_permissions constraint) else allowed)
  end.

(** The check of the [(current_role, new_role)] pair. *)
Definition role_allowed (p : policydb) (role new_role : Z) : bool :=
  existsb (fun ra => (role =? ra_role ra) && (new_role =? ra_new_role ra)) (role_allow_list p).

Definition apply_role_allow (p : policydb) (scontext tcontext : context) (tclass allowed : Z) : Z :=
  if (tclass =? process_class p) && nz (allowed .& process_trans_perms p) &&
     negb (c_role scontext =? c_role tcontext)
  then if negb (role_allowed p (c_role scontext) (c_role tcontext))
       then allowed .& not32 (process_trans_perms p) else allowed
  else allowed.

(** [flex_array_get]: the bitmap at an index, or [BUG_ON(!e)]. *)
Definition type_attr_map (p : policydb) (type : Z) : option ebitmap :=
  type_attr_map_array p !! Z.to_nat (u32 (type - 1)).

(** [context_struct_compute_av] up to the boundary check; [None] inside: the
    class is invalid and the function has returned. *)
Definition compute_av_rules (p : policydb) (scontext tcontext : context) (tclass : Z) (avd : av_decision)
    : option (bool * av_decision) :=
  let avd := set_auditdeny (set_auditallow (set_allowed avd 0) 0) ALL_PERMS in
  if (tclass =? 0) || (st_nprim (p_classes p) <? tclass) then Some (false, avd)
  else
    x ← index (class_val_to_struct p) (tclass - 1);
    sattr ← type_attr_map p (c_type scontext);
    tattr ← type_attr_map p (c_type tcontext);
    avd ← te_compute p tclass (ebitmap_bits sattr) (ebitmap_bits tattr) avd;
    tclass_datum ← deref x;
    allowed' ← apply_constraints p scontext tcontext (cl_constraints tclass_datum) (allowed avd);
    Some (true, set_allowed avd (apply_role_allow p scontext tcontext tclass allowed')).

(** One of the three tests of [type_attribute_bounds_av]: [None] inside means
    [return] (nothing masked), otherwise the new value of [masked]. *)
Definition bounds_masked (lo_avd avd : av_decision) : option Z :=
  if allowed lo_avd .& allowed avd =? allowed avd then None
  else Some (not32 (allowed lo_avd) .& allowed avd).

(** [type_attribute_bounds_av], given the computation of the decision for
    other contexts. *)
Definition bounds_av (compute : context -> context -> option av_decision)
    (p : policydb) (scontext tcontext : context) (tclass : Z) (avd : av_decision) : option av_decision :=
  source ← deref (flex_array_get_ptr (type_val_to_struct_array p) (c_type scontext - 1));
  target ← deref (flex_array_get_ptr (type_val_to_struct_array p) (c_type tcontext - 1));
  let lo_scontext := set_c_type scontext (t_bounds source) in
  let lo_tcontext := set_c_type tcontext (t_bounds target) in
  let finish (masked : Z) :=
    if nz masked then
      _ ← security_dump_masked_av p tclass masked;
      Some (set_allowed avd (allowed avd .& not32 masked))
    else Some avd in
  let test (cond : bool) (s t : context) (masked : Z) (k : Z -> option av_decision) :=
    if cond then
      lo_avd ← compute s t;
      match bounds_masked lo_avd avd with
      | None => Some avd
      | Some masked => k masked
      end
    else k masked in
  test (nz (t_bounds source)) lo_scontext tcontext 0 (fun masked =>
  test (nz (t_bounds target)) scontext lo_tcontext masked (fun masked =>
  test (nz (t_bounds source) && nz (t_bounds target)) lo_scontext lo_tcontext masked finish)).

Definition avd_zero : av_decision := mk_av_decision 0 0 0 0 0.

(** The recursion of [context_struct_compute_av] through
    [type_attribute_bounds_av]: every call goes one step up the bounds of the
    source or of the target type. *)
Fixpoint compute_av_fuel (fuel : nat) (p : policydb) (scontext tcontext : context) (tclass : Z) (avd : av_decision)
    : option av_decision :=
  match fuel with
  | O => None
  | S fuel' =>
      '(valid, avd) ← compute_av_rules p scontext tcontext tclass avd;
      if (valid : bool)
      then bounds_av (fun s t => compute_av_fuel fuel' p s t tclass avd_zero) p scontext tcontext tclass avd
      else Some avd
  end.

(** A type has at most [POLICYDB_BOUNDS_MAXDEPTH - 1] types above it in a
    policy that passed [type_bounds_sanity_check]; see [compute_av_total]. *)
Definition compute_av_depth : nat := S (2 * bounds_rounds).

Definition context_struct_compute_av (p : policydb) (scontext tcontext : context) (tclass : Z) (avd : av_decision)
    : option av_decision :=
  compute_av_fuel compute_av_depth p scontext tcontext tclass avd.

Definition avd_init (s : ss) : av_decision := mk_av_decision 0 0 ALL_PERMS (latest_granting s) 0.

(** The decision for kernel classes: the class is translated to the policy's
    and the decision back. *)
Definition security_compute_av (s : ss) (ssid tsid orig_tclass : Z) : option av_decision :=
  let avd := avd_init s in
  if negb (ss_initialized s) then Some (set_allowed avd ALL_PERMS)
  else
    match sidtab_search (Some (ss_sidtab s)) ssid with
    | None => Some avd
    | Some scontext =>
        permissive ← ebitmap_get_bit (permissive_map (ss_policydb s)) (c_type scontext);
        let avd := if (permissive : bool) then set_flags avd (flags avd .| AVD_FLAGS_PERMISSIVE) else avd in
        match sidtab_search (Some (ss_sidtab s)) tsid with
        | None => Some avd
        | Some tcontext =>
            tclass ← unmap_class s orig_tclass;
            if nz orig_tclass && negb (nz tclass) then
              if allow_unknown (ss_policydb s) then Some (set_allowed avd ALL_PERMS) else Some avd
            else
              avd ← context_struct_compute_av (ss_policydb s) scontext tcontext tclass avd;
              map_decision s orig_tclass avd (allow_unknown (ss_policydb s))
        end
    end.

Definition security_compute_av_user (s : ss) (ssid tsid tclass : Z) : option av_decision :=
  let avd := avd_init s in
  if negb (ss_initialized s) then Some (set_allowed avd ALL_PERMS)
  else
    match sidtab_search (Some (ss_sidtab s)) ssid with
    | None => Some avd
    | Some scontext =>
        permissive ← ebitmap_get_bit (permissive_map (ss_policydb s)) (c_type scontext);
        let avd := if (permissive : bool) then set_flags avd (flags avd .| AVD_FLAGS_PERMISSIVE) else avd in
        match sidtab_search (Some (ss_sidtab s)) tsid with
        | None => Some avd
        | Some tcontext =>
            if negb (nz tclass) then
              if allow_unknown (ss_policydb s) then Some (set_allowed avd ALL_PERMS) else Some avd
            else context_struct_compute_av (ss_policydb s) scontext tcontext tclass avd
        end
    end.

(** ** Transitions between types *)

(** [security_validtrans_handle_fail], without the audit record. *)
Definition security_validtrans_handle_fail (s : ss) : Z := if negb (selinux_enforcing s) then 0 else - EPERM.

Fixpoint validatetrans_loop (s : ss) (ocontext ncontext tcontext : context) (l : list constraint_node) : option Z :=
  match l with
  | [] => Some 0
  | constraint :: next =>
      v ← constraint_expr_eval (ss_policydb s) ocontext ncontext (Some tcontext) (cn_expr constraint);
      if negb v then Some (security_validtrans_handle_fail s)
      else validatetrans_loop s ocontext ncontext tcontext next
  end.

Definition security_validate_transition (s : ss) (oldsid newsid tasksid orig_tclass : Z) : option Z :=
  if negb (ss_initialized s) then Some 0
  else
    tclass ← unmap_class s orig_tclass;
    if (tclass =? 0) || (st_nprim (p_classes (ss_policydb s)) <? tclass) then Some (- EINVAL)
    else
      x ← index (class_val_to_struct (ss_policydb s)) (tclass - 1);
      match sidtab_search (Some (ss_sidtab s)) oldsid,
            sidtab_search (Some (ss_sidtab s)) newsid,
            sidtab_search (Some (ss_sidtab s)) tasksid with
      | Some ocontext, Some ncontext, Some tcontext =>
          tclass_datum ← deref x;
          validatetrans_loop s ocontext ncontext tcontext (cl_validatetrans tclass_datum)
      | _, _, _ => Some (- EINVAL)
      end.

(** [while (true)] going up the bounds of [index]. *)
Fixpoint bounded_loop (fuel : nat) (p : policydb) (old_type idx : Z) : option Z :=
  match fuel with
  | O => None
  | S fuel' =>
      type ← deref (flex_array_get_ptr (type_val_to_struct_array p) (idx - 1));
      if negb (nz (t_bounds type)) then Some (- EPERM)
      else if t_bounds type =? old_type then Some 0
      else bounded_loop fuel' p old_type (t_bounds type)
  end.

Definition security_bounded_transition (s : ss) (old_sid new_sid : Z) : option Z :=
  match sidtab_search (Some (ss_sidtab s)) old_sid, sidtab_search (Some (ss_sidtab s)) new_sid with
  | Some old_context, Some new_context =>
      if c_type old_context =? c_type new_context then Some 0
      else bounded_loop (S bounds_rounds) (ss_policydb s) (c_type old_context) (c_type new_context)
  | _, _ => Some (- EINVAL)
  end.

(** ** Constraint expressions: meaning and well-formedness

    The expressions of a policy are in postfix order.  [cons_depth] is the
    running depth check the policy reader makes on them ([read_cons_helper] in
    policydb.c), as the number of values on the stack. *)

Definition cons_depth_step (e : constraint_expr) (depth : nat) : option nat :=
  let t := ce_expr_type e in
  if t =? CEXPR_NOT then (if (depth <? 1)%nat then None else Some depth)
  else if (t =? CEXPR_AND) || (t =? CEXPR_OR) then (if (depth <? 2)%nat then None else Some (depth - 1)%nat)
  else if (t =? CEXPR_ATTR) || (t =? CEXPR_NAMES) then
    (if (depth =? Z.to_nat CEXPR_MAXDEPTH)%nat then None else Some (S depth))
  else None.

Fixpoint cons_depth (l : list constraint_expr) (depth : nat) : option nat :=
  match l with
  | [] => Some depth
  | e :: l' => d ← cons_depth_step e depth; cons_depth l' d
  end.

(** What a leaf compares exists. *)
Definition leaf_ok (p : policydb) (scontext tcontext : context) (xcontext : option context) (e : constraint_expr) : Prop :=
  (ce_expr_type e = CEXPR_ATTR -> is_Some (cexpr_attr p scontext tcontext e)) /\
  (ce_expr_type e = CEXPR_NAMES -> is_Some (cexpr_names scontext tcontext xcontext e)).

Lemma cexpr_step_depth p s t x e st d :
  leaf_ok p s t x e -> cons_depth_step e (length st) = Some d ->
  exists st', cexpr_step p s t x e st = Some (Some st') /\ length st' = d.
Proof.
  intros [Ha Hn]. unfold cons_depth_step, cexpr_step.
  destruct (Z.eqb_spec (ce_expr_type e) CEXPR_NOT) as [E|E].
  { destruct st as [|v st]; cbn; [done|]. intros [= <-]. by eexists. }
  destruct (Z.eqb_spec (ce_expr_type e) CEXPR_AND) as [E1|E1]; cbn [orb].
  { destruct st as [|v [|w st]]; cbn; [done|done|]. intros [= <-]. by eexists. }
  destruct (Z.eqb_spec (ce_expr_type e) CEXPR_OR) as [E2|E2]; cbn [orb].
  { destruct st as [|v [|w st]]; cbn; [done|done|]. intros [= <-]. by eexists. }
  change (Z.to_nat CEXPR_MAXDEPTH) with 5%nat. unfold CEXPR_MAXDEPTH.
  destruct (Z.eqb_spec (ce_expr_type e) CEXPR_ATTR) as [E3|E3]; cbn [orb].
  { destruct (Ha E3) as [v ->]. destruct (Nat.eqb_spec (length st) 5) as [|Hne]; [done|]. intros [= <-].
    destruct (Z.eqb_spec (Z.of_nat (length st) - 1) (5 - 1)); [lia|]. cbn. by eexists. }
  destruct (Z.eqb_spec (ce_expr_type e) CEXPR_NAMES) as [E4|E4]; cbn [orb]; [|done].
  destruct (Hn E4) as [v ->]. destruct (Nat.eqb_spec (length st) 5) as [|Hne]; [done|]. intros [= <-].
  destruct (Z.eqb_spec (Z.of_nat (length st) - 1) (5 - 1)); [lia|]. cbn. by eexists.
Qed.

(** A checked expression is evaluated: no [BUG_ON], no full stack. *)
Lemma cexpr_loop_depth p s t x l st d :
  Forall (leaf_ok p s t x) l -> cons_depth l (length st) = Some d ->
  exists st', cexpr_loop p s t x l st = Some (Some st') /\ length st' = d.
Proof.
  intros HF. revert st. induction HF as [|e l He _ IH]; intros st Hd; cbn [cons_depth cexpr_loop] in *.
  { injection Hd as <-. by eexists. }
  apply bind_Some in Hd as (d1 & H1 & Hd). destruct (cexpr_step_depth p s t x e st d1 He H1) as (st1 & Hs & <-).
  rewrite (bind_step _ _ _ Hs). by apply IH.
Qed.

Lemma constraint_eval_total p s t x l :
  Forall (leaf_ok p s t x) l -> cons_depth l 0 = Some 1%nat -> is_Some (constraint_expr_eval p s t x l).
Proof.
  intros HF Hd. destruct (cexpr_loop_depth p s t x l [] 1 HF Hd) as (st & Hs & Hl).
  unfold constraint_expr_eval. rewrite (bind_step _ _ _ Hs). destruct st as [|v [|w st]]; done.
Qed.

(** Expression trees. *)
Inductive ctree :=
| TLeaf (e : constraint_expr)
| TNot (x : ctree)
| TAnd (x y : ctree)
| TOr (x y : ctree).

Definition op_node (t : Z) : constraint_expr := mk_constraint_expr t 0 0 ebitmap_init.

Fixpoint ctree_list (x : ctree) : list constraint_expr :=
  match x with
  | TLeaf e => [e]
  | TNot x => ctree_list x ++ [op_node CEXPR_NOT]
  | TAnd x y => ctree_list x ++ ctree_list y ++ [op_node CEXPR_AND]
  | TOr x y => ctree_list x ++ ctree_list y ++ [op_node CEXPR_OR]
  end.

Definition leaf_value (p : policydb) (s t : context) (x : option context) (e : constraint_expr) : option bool :=
  if ce_expr_type e =? CEXPR_ATTR then cexpr_attr p s t e
  else if ce_expr_type e =? CEXPR_NAMES then cexpr_names s t x e
  else None.

(** The value of a tree, if its leaves have one. *)
Fixpoint ctree_value (p : policydb) (s t : context) (x : option context) (tr : ctree) : option bool :=
  match tr with
  | TLeaf e => leaf_value p s t x e
  | TNot a => v ← ctree_value p s t x a; Some (negb v)
  | TAnd a b => v ← ctree_value p s t x a; w ← ctree_value p s t x b; Some (v && w)
  | TOr a b => v ← ctree_value p s t x a; w ← ctree_value p s t x b; Some (v || w)
  end.

Fixpoint ctree_height (x : ctree) : nat :=
  match x with
  | TLeaf _ => 1
  | TNot x => ctree_height x
  | TAnd x y | TOr x y => ctree_height x `max` S (ctree_height y)
  end.

Lemma cexpr_loop_app p s t x l1 l2 st :
  cexpr_loop p s t x (l1 ++ l2) st =
    (r ← cexpr_loop p s t x l1 st; match r with None => Some None | Some st => cexpr_loop p s t x l2 st end).
Proof.
  revert st. induction l1 as [|e l1 IH]; intros st; cbn [app cexpr_loop]; [done|].
  destruct (cexpr_step p s t x e st) as [[st'|]|]; cbn [mbind option_bind]; [apply IH|done|done].
Qed.

Lemma ctree_loop p s t x tr v st :
  ctree_value p s t x tr = Some v -> (length st + ctree_height tr <= Z.to_nat CEXPR_MAXDEPTH)%nat ->
  cexpr_loop p s t x (ctree_list tr) st = Some (Some (v :: st)).
Proof.
  change (Z.to_nat CEXPR_MAXDEPTH) with 5%nat.
  revert v st. induction tr as [e|a IHa|a IHa b IHb|a IHa b IHb]; intros v st Hv Hh; cbn [ctree_list ctree_value ctree_height] in *.
  - cbn [cexpr_loop]. unfold cexpr_step, leaf_value, CEXPR_MAXDEPTH in *.
    destruct (Z.eqb_spec (Z.of_nat (length st) - 1) (5 - 1)); [lia|].
    destruct (Z.eqb_spec (ce_expr_type e) CEXPR_ATTR) as [E|E]; [rewrite E; cbn; by rewrite Hv|].
    destruct (Z.eqb_spec (ce_expr_type e) CEXPR_NAMES) as [E1|E1]; [rewrite E1; cbn; by rewrite Hv|done].
  - apply bind_Some in Hv as (w & Hw & Hv). injection Hv as <-. rewrite cexpr_loop_app, (IHa w st) by done. done.
  - apply bind_Some in Hv as (w & Hw & Hv). apply bind_Some in Hv as (u & Hu & Hv). injection Hv as <-.
    rewrite cexpr_loop_app, (IHa w st) by (done || lia). cbn [mbind option_bind].
    rewrite cexpr_loop_app, (IHb u (w :: st)) by (done || (cbn [length]; lia)). done.
  - apply bind_Some in Hv as (w & Hw & Hv). apply bind_Some in Hv as (u & Hu & Hv). injection Hv as <-.
    rewrite cexpr_loop_app, (IHa w st) by (done || lia). cbn [mbind option_bind].
    rewrite cexpr_loop_app, (IHb u (w :: st)) by (done || (cbn [length]; lia)). done.
Qed.

(** ** Access vectors: what the rules say *)

Definition te_says (what : Z) (n : avtab_node) : bool := ak_specified (an_key n) =? what.

Definition pair_key (tclass i j : Z) : avtab_key := mk_avtab_key (u16 (i + 1)) (u16 (j + 1)) tclass AVTAB_AV.

(** A permission is in some rule of the kind for the pair of attributes, in
    the unconditional or among the enabled conditional rules. *)
Definition pair_some (p : policydb) (tclass what k i j : Z) : bool :=
  existsb (fun n => te_says what n && Z.testbit (an_datum n) k) (avtab_hits (te_avtab p) (pair_key tclass i j)) ||
  existsb (fun n => rule_says what n && Z.testbit (an_datum n) k) (avtab_hits (te_cond_avtab p) (pair_key tclass i j)).

(** A permission is in every such rule. *)
Definition pair_all (p : policydb) (tclass what k i j : Z) : bool :=
  forallb (fun n => negb (te_says what n) || Z.testbit (an_datum n) k) (avtab_hits (te_avtab p) (pair_key tclass i j)) &&
  forallb (fun n => negb (rule_says what n) || Z.testbit (an_datum n) k) (avtab_hits (te_cond_avtab p) (pair_key tclass i j)).

(** The tables of a policy. *)
Record rules_wf (p : policydb) : Prop := mk_rules_wf {
  rw_te : avtab_wf (te_avtab p);
  rw_cond : avtab_wf (te_cond_avtab p)
}.

Lemma te_add_node_spec avd n :
  te_add_node avd n =
    mk_av_decision (if te_says AVTAB_ALLOWED n then allowed avd .| an_datum n else allowed avd)
      (if te_says AVTAB_AUDITALLOW n then auditallow avd .| an_datum n else auditallow avd)
      (if te_says AVTAB_AUDITDENY n then auditdeny avd .& an_datum n else auditdeny avd)
      (seqno avd) (flags avd).
Proof.
  unfold te_add_node, te_says.
  destruct (Z.eqb_spec (ak_specified (an_key n)) AVTAB_ALLOWED) as [E|]; [rewrite ?E; by destruct avd|].
  destruct (Z.eqb_spec (ak_specified (an_key n)) AVTAB_AUDITALLOW) as [E|]; [rewrite ?E; by destruct avd|].
  destruct (Z.eqb_spec (ak_specified (an_key n)) AVTAB_AUDITDENY); by destruct avd.
Qed.

(** The decision [avd'] is [avd] with the bits of [some] and [all] mixed in. *)
Record mixes (k : Z) (sa sl : bool) (ad : bool) (avd avd' : av_decision) : Prop := mk_mixes {
  mx_allowed : Z.testbit (allowed avd') k = Z.testbit (allowed avd) k || sa;
  mx_auditallow : Z.testbit (auditallow avd') k = Z.testbit (auditallow avd) k || sl;
  mx_auditdeny : Z.testbit (auditdeny avd') k = Z.testbit (auditdeny avd) k && ad
}.

Lemma mixes_refl k avd : mixes k false false true avd avd.
Proof. split; by rewrite ?orb_false_r, ?andb_true_r. Qed.

Lemma mixes_trans k sa sl ad sa' sl' ad' a b c :
  mixes k sa sl ad a b -> mixes k sa' sl' ad' b c -> mixes k (sa || sa') (sl || sl') (ad && ad') a c.
Proof.
  intros [H1 H2 H3] [K1 K2 K3]. split; [rewrite K1, H1|rewrite K2, H2|rewrite K3, H3]; by rewrite ?orb_assoc, ?andb_assoc.
Qed.

Lemma mixes_ext k sa sl ad sa' sl' ad' a b : sa = sa' -> sl = sl' -> ad = ad' -> mixes k sa sl ad a b -> mixes k sa' sl' ad' a b.
Proof. by intros -> -> ->. Qed.

Lemma te_fold_mixes nodes avd k : 0 <= k ->
  let avd' := fold_left te_add_node nodes avd in
  mixes k (existsb (fun n => te_says AVTAB_ALLOWED n && Z.testbit (an_datum n) k) nodes)
          (existsb (fun n => te_says AVTAB_AUDITALLOW n && Z.testbit (an_datum n) k) nodes)
          (forallb (fun n => negb (te_says AVTAB_AUDITDENY n) || Z.testbit (an_datum n) k) nodes) avd avd' /\
  seqno avd' = seqno avd /\ flags avd' = flags avd.
Proof.
  intros Hk. revert avd. induction nodes as [|n nodes IH]; intros avd; cbn [fold_left existsb forallb].
  { split; [apply mixes_refl|done]. }
  destruct (IH (te_add_node avd n)) as (Hm & Hs & Hf). rewrite Hs, Hf. split; [|by rewrite te_add_node_spec].
  eapply mixes_trans; [|exact Hm]. rewrite te_add_node_spec. split; cbn [allowed auditallow auditdeny].
  - destruct (te_says AVTAB_ALLOWED n); [by rewrite Z.lor_spec|by rewrite orb_false_r].
  - destruct (te_says AVTAB_AUDITALLOW n); [by rewrite Z.lor_spec|by rewrite orb_false_r].
  - destruct (te_says AVTAB_AUDITDENY n); [by rewrite Z.land_spec|by rewrite andb_true_r].
Qed.

Lemma filter_existsb (f g : avtab_node -> bool) l :
  existsb g (filter (fun n => f n = true) l) = existsb (fun n => f n && g n) l.
Proof.
  induction l as [|n l IH]; [done|]. rewrite filter_cons. cbn [existsb]. destruct (f n) eqn:E.
  - rewrite decide_True by done. cbn. by rewrite IH.
  - rewrite decide_False by done. by rewrite IH.
Qed.

Lemma filter_forallb (f g : avtab_node -> bool) l :
  forallb g (filter (fun n => f n = true) l) = forallb (fun n => negb (f n) || g n) l.
Proof.
  induction l as [|n l IH]; [done|]. rewrite filter_cons. cbn [forallb]. destruct (f n) eqn:E.
  - rewrite decide_True by done. cbn. by rewrite IH.
  - rewrite decide_False by done. by rewrite IH.
Qed.

Lemma pair_key_ok tclass i j : in_u 16 tclass -> key_ok (pair_key tclass i j).
Proof. intros H. split; cbn; [apply u16_range|apply u16_range|done|vm_compute; split; congruence]. Qed.

Lemma te_pair_spec p tclass i j avd :
  rules_wf p -> in_u 16 tclass ->
  exists avd', te_compute_pair p tclass i j avd = Some avd' /\ seqno avd' = seqno avd /\ flags avd' = flags avd /\
    forall k, 0 <= k -> mixes k (pair_some p tclass AVTAB_ALLOWED k i j) (pair_some p tclass AVTAB_AUDITALLOW k i j)
                              (pair_all p tclass AVTAB_AUDITDENY k i j) avd avd'.
Proof.
  intros [Hte Hcond] Hc. unfold te_compute_pair. fold (pair_key tclass i j).
  pose proof (pair_key_ok tclass i j Hc) as Hk. rewrite (bind_step _ _ _ (avtab_for_each_spec _ _ Hte Hk)).
  fold (avtab_hits (te_avtab p) (pair_key tclass i j)). unfold cond_compute_av.
  rewrite (bind_step _ _ _ (avtab_for_each_spec _ _ Hcond Hk)). fold (avtab_hits (te_cond_avtab p) (pair_key tclass i j)).
  eexists. split; [done|].
  set (avd1 := fold_left te_add_node (avtab_hits (te_avtab p) (pair_key tclass i j)) avd).
  destruct (te_fold_mixes (avtab_hits (te_avtab p) (pair_key tclass i j)) avd 0 ltac:(lia)) as (_ & Hs & Hf).
  destruct (cond_fold_bits (avtab_hits (te_cond_avtab p) (pair_key tclass i j)) avd1 0 ltac:(lia)) as (_ & _ & _ & -> & ->).
  split; [done|]. split; [done|]. intros k Hk0.
  destruct (te_fold_mixes (avtab_hits (te_avtab p) (pair_key tclass i j)) avd k Hk0) as (Hm & _).
  destruct (cond_fold_bits (avtab_hits (te_cond_avtab p) (pair_key tclass i j)) avd1 k Hk0) as (Ha & Hl & Hd & _).
  eapply mixes_trans; [exact Hm|]. fold avd1. unfold some_bit, all_bit in *.
  rewrite filter_existsb in Ha, Hl. rewrite filter_forallb in Hd. by split.
Qed.

Lemma te_targets_spec p tclass i tbits avd :
  rules_wf p -> in_u 16 tclass ->
  exists avd', te_compute_targets p tclass i tbits avd = Some avd' /\ seqno avd' = seqno avd /\ flags avd' = flags avd /\
    forall k, 0 <= k -> mixes k (existsb (pair_some p tclass AVTAB_ALLOWED k i) tbits)
                              (existsb (pair_some p tclass AVTAB_AUDITALLOW k i) tbits)
                              (forallb (pair_all p tclass AVTAB_AUDITDENY k i) tbits) avd avd'.
Proof.
  intros Hw Hc. revert avd. induction tbits as [|j tbits IH]; intros avd; cbn [te_compute_targets existsb forallb].
  { exists avd. do 3 (split; [done|]). intros k _. apply mixes_refl. }
  destruct (te_pair_spec p tclass i j avd Hw Hc) as (avd1 & H1 & Hs1 & Hf1 & Hm1). rewrite (bind_step _ _ _ H1).
  destruct (IH avd1) as (avd2 & H2 & Hs2 & Hf2 & Hm2). exists avd2. split; [done|]. split; [congruence|]. split; [congruence|].
  intros k Hk. eapply mixes_trans; [by apply Hm1|by apply Hm2].
Qed.

Lemma te_compute_spec p tclass sbits tbits avd :
  rules_wf p -> in_u 16 tclass ->
  exists avd', te_compute p tclass sbits tbits avd = Some avd' /\ seqno avd' = seqno avd /\ flags avd' = flags avd /\
    forall k, 0 <= k -> mixes k (existsb (fun i => existsb (pair_some p tclass AVTAB_ALLOWED k i) tbits) sbits)
                              (existsb (fun i => existsb (pair_some p tclass AVTAB_AUDITALLOW k i) tbits) sbits)
                              (forallb (fun i => forallb (pair_all p tclass AVTAB_AUDITDENY k i) tbits) sbits) avd avd'.
Proof.
  intros Hw Hc. revert avd. induction sbits as [|i sbits IH]; intros avd; cbn [te_compute existsb forallb].
  { exists avd. do 3 (split; [done|]). intros k _. apply mixes_refl. }
  destruct (te_targets_spec p tclass i tbits avd Hw Hc) as (avd1 & H1 & Hs1 & Hf1 & Hm1). rewrite (bind_step _ _ _ H1).
  destruct (IH avd1) as (avd2 & H2 & Hs2 & Hf2 & Hm2). exists avd2. split; [done|]. split; [congruence|]. split; [congruence|].
  intros k Hk. eapply mixes_trans; [by apply Hm1|by apply Hm2].
Qed.

(** *** Constraints and role changes *)

Definition constraint_holds (p : policydb) (s t : context) (c : constraint_node) : bool :=
  default false (constraint_expr_eval p s t None (cn_expr c)).

(** Permission [k] passes the constraint. *)
Definition constraint_passes (p : policydb) (s t : context) (k : Z) (c : constraint_node) : bool :=
  negb (Z.testbit (cn_permissions c) k) || constraint_holds p s t c.

Lemma testbit_land_nz x y k : Z.testbit x k = true -> Z.testbit y k = true -> nz (x .& y) = true.
Proof.
  intros Hx Hy. apply nz_true. intros H. assert (Z.testbit (x .& y) k = true) as Hb by by rewrite Z.land_spec, Hx, Hy.
  by rewrite H, Z.bits_0 in Hb.
Qed.

Lemma clear_bits x y k : 0 <= k < 32 -> Z.testbit (x .& not32 y) k = Z.testbit x k && negb (Z.testbit y k).
Proof. intros Hk. rewrite Z.land_spec, not32_spec by lia. by rewrite bool_decide_true by lia. Qed.

Lemma apply_constraints_spec p s t l allowed :
  Forall (fun c => is_Some (constraint_expr_eval p s t None (cn_expr c))) l ->
  exists allowed', apply_constraints p s t l allowed = Some allowed' /\
    forall k, 0 <= k < 32 -> Z.testbit allowed' k = Z.testbit allowed k && forallb (constraint_passes p s t k) l.
Proof.
  intros HF. revert allowed. induction HF as [|c l [v Hv] _ IH]; intros allowed; cbn [apply_constraints forallb].
  { exists allowed. split; [done|]. intros k _. by rewrite andb_true_r. }
  assert ((if nz (cn_permissions c .& allowed) then v ← constraint_expr_eval p s t None (cn_expr c); Some (negb v)
           else Some false) = Some (nz (cn_permissions c .& allowed) && negb v)) as E.
  { rewrite Hv. by destruct (nz _). }
  rewrite (bind_step _ _ _ E). destruct (IH (if nz (cn_permissions c .& allowed) && negb v then allowed .& not32 (cn_permissions c) else allowed))
    as (a' & Ha & Hbits).
  exists a'. split; [done|]. intros k Hk. rewrite Hbits by done.
  unfold constraint_passes at 2, constraint_holds. rewrite Hv. cbn [default]. rewrite andb_assoc. f_equal.
  destruct (Z.testbit allowed k) eqn:Ha0, (Z.testbit (cn_permissions c) k) eqn:Hc0, v;
    rewrite ?andb_false_r, ?andb_true_r; cbn [negb andb orb]; rewrite ?Ha0; try done;
    try (rewrite (testbit_land_nz _ _ k Hc0 Ha0)); try (destruct (nz _));
    rewrite ?clear_bits, ?Ha0, ?Hc0 by done; done.
Qed.

(** The role change of a process transition is not allowed by any rule. *)
Definition role_denied (p : policydb) (s t : context) (tclass : Z) : bool :=
  (tclass =? process_class p) && negb (c_role s =? c_role t) && negb (role_allowed p (c_role s) (c_role t)).

Lemma apply_role_allow_spec p s t tclass allowed k :
  0 <= k < 32 ->
  Z.testbit (apply_role_allow p s t tclass allowed) k =
    Z.testbit allowed k && negb (role_denied p s t tclass && Z.testbit (process_trans_perms p) k).
Proof.
  intros Hk. unfold apply_role_allow, role_denied.
  destruct (tclass =? process_class p); cbn [andb]; [|by rewrite andb_true_r].
  destruct (negb (c_role s =? c_role t)); [|rewrite andb_false_r; cbn; by rewrite andb_true_r]. rewrite andb_true_r.
  destruct (negb (role_allowed p (c_role s) (c_role t))); cbn [andb].
  - destruct (nz (allowed .& process_trans_perms p)) eqn:E; [by rewrite clear_bits|].
    destruct (Z.testbit allowed k) eqn:Ha; [|done]. destruct (Z.testbit (process_trans_perms p) k) eqn:Hp; [|done].
    by rewrite (testbit_land_nz _ _ k Ha Hp) in E.
  - rewrite andb_true_r. by destruct (nz _).
Qed.

(** ** Policies the decision code can work with

    These are the conditions under which no look-up of
    [context_struct_compute_av] fails.  They speak about the index arrays, the
    rule tables, the shape of the constraints and the depth of the bounds. *)

Definition ntypes (p : policydb) : Z := st_nprim (p_types p).
Definition nclasses (p : policydb) : Z := st_nprim (p_classes p).
Definition nroles (p : policydb) : Z := st_nprim (p_roles p).

Definition type_at (p : policydb) (v : Z) : option type_datum :=
  deref (flex_array_get_ptr (type_val_to_struct_array p) (v - 1)).

(** [n] steps up the bounds lead from a type to one without. *)
Inductive type_depth (p : policydb) : nat -> Z -> Prop :=
| depth_root v d : type_at p v = Some d -> t_bounds d = 0 -> type_depth p 0 v
| depth_step v d n : type_at p v = Some d -> t_bounds d <> 0 -> type_depth p n (t_bounds d) -> type_depth p (S n) v.

Definition mls_attr (attr : Z) : bool :=
  (attr =? CEXPR_L1L2) || (attr =? CEXPR_L1H2) || (attr =? CEXPR_H1L2) || (attr =? CEXPR_H1H2) ||
  (attr =? CEXPR_L1H1) || (attr =? CEXPR_L2H2).

Definition op_eq (op : Z) : bool := (op =? CEXPR_EQ) || (op =? CEXPR_NEQ).
Definition op_any (op : Z) : bool :=
  op_eq op || (op =? CEXPR_DOM) || (op =? CEXPR_DOMBY) || (op =? CEXPR_INCOMP).

(** Attributes and operators that [constraint_expr_eval] knows. *)
Definition leaf_shape (xtarget : bool) (e : constraint_expr) : bool :=
  if ce_expr_type e =? CEXPR_ATTR then
    if (ce_attr e =? CEXPR_USER) || (ce_attr e =? CEXPR_TYPE) then op_eq (ce_op e)
    else ((ce_attr e =? CEXPR_ROLE) || mls_attr (ce_attr e)) && op_any (ce_op e)
  else if ce_expr_type e =? CEXPR_NAMES then
    op_eq (ce_op e) &&
    (nz (ce_attr e .& CEXPR_USER) || nz (ce_attr e .& CEXPR_ROLE) || nz (ce_attr e .& CEXPR_TYPE)) &&
    (xtarget || nz (ce_attr e .& CEXPR_TARGET) || negb (nz (ce_attr e .& CEXPR_XTARGET)))
  else true.

Record expr_ok (xtarget : bool) (l : list constraint_expr) : Prop := mk_expr_ok {
  ex_depth : cons_depth l 0 = Some 1%nat;
  ex_shape : Forall (fun e => leaf_shape xtarget e = true) l;
  ex_names : Forall (fun e => ebitmap_wf (ce_names e)) l
}.

(** A table of permissions with values from 1 to 32. *)
Definition perms_ok (s : symtab perm_datum) : Prop :=
  forall t, st_table s = Some t -> Forall (fun n => 1 <= pm_value n.2 <= 32) (concat (ht_htable t)).

Record class_ok (d : class_datum) : Prop := mk_class_ok {
  ck_constraints : Forall (fun c => expr_ok false (cn_expr c)) (cl_constraints d);
  ck_perms : perms_ok (cl_permissions d);
  ck_common : forall c, cl_comdatum d = Some c -> perms_ok (cm_permissions c)
}.

Record policy_ok (p : policydb) : Prop := mk_policy_ok {
  po_rules : rules_wf p;
  po_nclasses : nclasses p < 2 ^ 16;
  po_ntypes : ntypes p < 2 ^ 32;
  po_nroles : nroles p < 2 ^ 32;
  po_class : forall v, 0 < v <= nclasses p -> exists d, index (class_val_to_struct p) (v - 1) = Some (Ptr d) /\ class_ok d;
  po_role : forall v, 0 < v <= nroles p ->
    exists r, index (role_val_to_struct p) (v - 1) = Some (Ptr r) /\ ebitmap_wf (r_dominates r);
  po_type : forall v, 0 < v <= ntypes p -> exists n, (n <= bounds_rounds)%nat /\ type_depth p n v;
  po_bounds : forall v d, 0 < v <= ntypes p -> type_at p v = Some d -> 0 <= t_bounds d <= ntypes p;
  po_attr : forall v, 0 < v <= ntypes p -> is_Some (type_attr_map p v)
}.

(** A context whose parts exist. *)
Record ctx_ok (p : policydb) (c : context) : Prop := mk_ctx_ok {
  cx_type_ok : 0 < c_type c <= ntypes p;
  cx_role_ok : 0 < c_role c <= nroles p;
  cx_user_ok : 0 < c_user c < 2 ^ 32
}.

Lemma ctx_ok_type p c v : ctx_ok p c -> 0 < v <= ntypes p -> ctx_ok p (set_c_type c v).
Proof. intros [? ? ?] ?. by split. Qed.

Lemma role_op_total p op v1 v2 :
  policy_ok p -> op_any op = true -> 0 < v1 <= nroles p -> 0 < v2 <= nroles p -> is_Some (role_op p op v1 v2).
Proof.
  intros Hp Hop H1 H2. pose proof (po_nroles _ Hp). unfold role_op.
  destruct (po_role _ Hp v1 H1) as (r1 & Hr1 & Hw1), (po_role _ Hp v2 H2) as (r2 & Hr2 & Hw2).
  rewrite !u32_small by lia. rewrite (bind_step _ _ _ Hr1), (bind_step _ _ _ Hr2). cbn [deref mbind option_bind].
  rewrite !get_bit_spec by (done || lia). unfold value_op, op_any, op_eq in *.
  destruct (op =? CEXPR_DOM); [done|]. destruct (op =? CEXPR_DOMBY); [done|].
  destruct (op =? CEXPR_INCOMP); [cbn; by destruct (ebit _ _)|].
  destruct (op =? CEXPR_EQ); [done|]. destruct (op =? CEXPR_NEQ); done.
Qed.

Lemma mls_op_total op l1 l2 : op_any op = true -> is_Some (mls_op op l1 l2).
Proof.
  unfold op_any, op_eq, mls_op.
  destruct (op =? CEXPR_EQ); [done|]. destruct (op =? CEXPR_NEQ); [done|].
  destruct (op =? CEXPR_DOM); [done|]. destruct (op =? CEXPR_DOMBY); [done|]. by destruct (op =? CEXPR_INCOMP).
Qed.

Lemma mls_operands_total s t attr : mls_attr attr = true -> is_Some (mls_operands s t attr).
Proof.
  unfold mls_attr, mls_operands.
  destruct (attr =? CEXPR_L1L2); [done|]. destruct (attr =? CEXPR_L1H2); [done|]. destruct (attr =? CEXPR_H1L2); [done|].
  destruct (attr =? CEXPR_H1H2); [done|]. destruct (attr =? CEXPR_L1H1); [done|]. by destruct (attr =? CEXPR_L2H2).
Qed.

Lemma value_op_total op v1 v2 : op_eq op = true -> is_Some (value_op op v1 v2).
Proof. unfold op_eq, value_op. destruct (op =? CEXPR_EQ); [done|]. by destruct (op =? CEXPR_NEQ). Qed.

Lemma names_total p s t x e :
  policy_ok p -> ctx_ok p s -> ctx_ok p t -> (forall c, x = Some c -> ctx_ok p c) ->
  ce_expr_type e = CEXPR_NAMES -> leaf_shape (bool_decide (is_Some x)) e = true -> ebitmap_wf (ce_names e) ->
  is_Some (cexpr_names s t x e).
Proof.
  intros Hp Hs Ht Hx Et Hsh Hw. unfold leaf_shape in Hsh. rewrite Et in Hsh. cbn in Hsh.
  apply andb_prop in Hsh as [Hsh Hxt]. apply andb_prop in Hsh as [Hop Hattr]. unfold cexpr_names.
  assert (exists c, (if nz (ce_attr e .& CEXPR_TARGET) then Some t else if nz (ce_attr e .& CEXPR_XTARGET) then x else Some s)
             = Some c /\ ctx_ok p c) as (c & Hc & Hok).
  { destruct (nz (ce_attr e .& CEXPR_TARGET)); [by exists t|]. destruct (nz (ce_attr e .& CEXPR_XTARGET)); [|by exists s].
    destruct x as [x|]; [exists x; split; [done|by apply Hx]|]. by rewrite bool_decide_false in Hxt by apply is_Some_None. }
  rewrite (bind_step _ _ _ Hc). destruct Hok as [Hty Hro Hus]. pose proof (po_ntypes _ Hp). pose proof (po_nroles _ Hp).
  assert (exists v, (if nz (ce_attr e .& CEXPR_USER) then Some (c_user c)
             else if nz (ce_attr e .& CEXPR_ROLE) then Some (c_role c)
             else if nz (ce_attr e .& CEXPR_TYPE) then Some (c_type c) else None) = Some v /\ 0 < v < 2 ^ 32) as (v & Hv & Hr).
  { destruct (nz (ce_attr e .& CEXPR_USER)); [eexists; split; [done|lia]|].
    destruct (nz (ce_attr e .& CEXPR_ROLE)); [eexists; split; [done|lia]|].
    destruct (nz (ce_attr e .& CEXPR_TYPE)); [eexists; split; [done|lia]|done]. }
  rewrite (bind_step _ _ _ Hv). rewrite u32_small, get_bit_spec by (done || lia). unfold op_eq in Hop.
  destruct (ce_op e =? CEXPR_EQ); [done|]. by destruct (ce_op e =? CEXPR_NEQ).
Qed.

Lemma attr_total p s t e :
  policy_ok p -> ctx_ok p s -> ctx_ok p t ->
  ce_expr_type e = CEXPR_ATTR -> leaf_shape false e = true -> is_Some (cexpr_attr p s t e).
Proof.
  intros Hp [_ Hs _] [_ Ht _] Et Hsh. unfold leaf_shape in Hsh. rewrite Et in Hsh. cbn in Hsh. unfold cexpr_attr.
  destruct (ce_attr e =? CEXPR_USER); cbn in Hsh; [by apply value_op_total|].
  destruct (ce_attr e =? CEXPR_TYPE); [by apply value_op_total|].
  destruct (ce_attr e =? CEXPR_ROLE); cbn in Hsh; [by apply role_op_total|].
  apply andb_prop in Hsh as [Ha Ho]. destruct (mls_operands_total s t _ Ha) as [[l1 l2] H]. rewrite (bind_step _ _ _ H).
  by apply mls_op_total.
Qed.

(** A well-formed expression is evaluated for all contexts. *)
Lemma expr_ok_total p s t x l :
  policy_ok p -> ctx_ok p s -> ctx_ok p t -> (forall c, x = Some c -> ctx_ok p c) ->
  expr_ok (bool_decide (is_Some x)) l -> is_Some (constraint_expr_eval p s t x l).
Proof.
  intros Hp Hs Ht Hx [Hd Hsh Hn]. apply constraint_eval_total; [|done].
  rewrite Forall_forall in Hsh, Hn. apply Forall_forall. intros e He. specialize (Hsh e He). specialize (Hn e He). split; intros Et.
  - apply attr_total; try done. unfold leaf_shape in *. rewrite Et in *. done.
  - by eapply names_total.
Qed.

(** *** The permission names of a class *)

Lemma dump_chain_total l names :
  Forall (fun n => 1 <= pm_value n.2 <= 32) l ->
  exists names', chain_map dump_masked_av_helper l (Some names) = (0, Some names').
Proof.
  intros HF. revert names. induction HF as [|[k d] l Hd _ IH]; intros names; cbn [chain_map fst snd]; [by eexists|].
  unfold dump_masked_av_helper at 1. cbn in Hd.
  destruct (Z.ltb_spec (pm_value d) 1); [lia|]. destruct (Z.ltb_spec 32 (pm_value d)); [lia|]. cbn [orb].
  change (nz 0) with false. cbv iota. apply IH.
Qed.

Lemma dump_slots_total ls names :
  Forall (fun n => 1 <= pm_value n.2 <= 32) (concat ls) ->
  exists names', slots_map dump_masked_av_helper ls (Some names) = (0, Some names').
Proof.
  revert names. induction ls as [|c ls IH]; intros names HF; cbn [slots_map concat] in *; [by eexists|].
  apply Forall_app in HF as [H1 H2]. destruct (dump_chain_total c names H1) as [n1 ->].
  change (nz 0) with false. cbv iota. by apply IH.
Qed.

Lemma dump_map_total s names :
  perms_ok s -> exists names', (hashtab_map (st_table s) dump_masked_av_helper (Some names)).2 = Some names'.
Proof.
  intros Hs. unfold hashtab_map. destruct (st_table s) as [t|] eqn:Et; [|by eexists]. specialize (Hs t Et).
  destruct (dump_slots_total (take (Z.to_nat (ht_size t)) (ht_htable t)) names) as [n' ->]; [|by eexists].
  rewrite <- (take_drop (Z.to_nat (ht_size t)) (ht_htable t)) in Hs. rewrite concat_app in Hs. by apply Forall_app in Hs as [Hs _].
Qed.

Lemma dump_masked_total p tclass perms :
  policy_ok p -> 0 < tclass <= nclasses p -> is_Some (security_dump_masked_av p tclass perms).
Proof.
  intros Hp Hc. unfold security_dump_masked_av. destruct (nz perms); cbn [negb]; [|done].
  destruct (po_class _ Hp tclass Hc) as (d & Hd & [_ Hperms Hcommon]). unfold index_deref. rewrite Hd. cbn [deref mbind option_bind].
  assert (exists n1, (match cl_comdatum d with
            | Some common_dat => (hashtab_map (st_table (cm_permissions common_dat)) dump_masked_av_helper (Some (replicate 32 Wild))).2
            | None => Some (replicate 32 Wild) end) = Some n1) as [n1 H1].
  { destruct (cl_comdatum d) as [c|]; [|by eexists]. apply dump_map_total. by apply Hcommon. }
  rewrite (bind_step _ _ _ H1). destruct (dump_map_total _ n1 Hperms) as [n2 H2]. rewrite (bind_step _ _ _ H2). by eexists.
Qed.

(** *** The decision without bounds *)

Definition attrs (p : policydb) (c : context) : list Z := default [] (ebitmap_bits <$> type_attr_map p (c_type c)).

(** Some rule of the kind names permission [k] for attributes of the two types. *)
Definition te_some (p : policydb) (s t : context) (tclass what k : Z) : bool :=
  existsb (fun i => existsb (pair_some p tclass what k i) (attrs p t)) (attrs p s).
Definition te_all (p : policydb) (s t : context) (tclass what k : Z) : bool :=
  forallb (fun i => forallb (pair_all p tclass what k i) (attrs p t)) (attrs p s).

Definition class_constraints (p : policydb) (tclass : Z) : list constraint_node :=
  match index_deref (class_val_to_struct p) (tclass - 1) with Some d => cl_constraints d | None => [] end.

(** Permission [k] by the rules, the constraints and the role rules. *)
Definition rules_allow (p : policydb) (s t : context) (tclass k : Z) : bool :=
  te_some p s t tclass AVTAB_ALLOWED k && forallb (constraint_passes p s t k) (class_constraints p tclass) &&
  negb (role_denied p s t tclass && Z.testbit (process_trans_perms p) k).

Lemma ones32_bit k : 0 <= k < 32 -> Z.testbit ALL_PERMS k = true.
Proof. intros Hk. change ALL_PERMS with (Z.ones 32). rewrite Z.testbit_ones_nonneg by lia. lia. Qed.

Record rules_decide (p : policydb) (s t : context) (tclass : Z) (avd avd' : av_decision) : Prop := mk_rules_decide {
  rd_allowed : forall k, 0 <= k < 32 -> Z.testbit (allowed avd') k = rules_allow p s t tclass k;
  rd_auditallow : forall k, 0 <= k < 32 -> Z.testbit (auditallow avd') k = te_some p s t tclass AVTAB_AUDITALLOW k;
  rd_auditdeny : forall k, 0 <= k < 32 -> Z.testbit (auditdeny avd') k = te_all p s t tclass AVTAB_AUDITDENY k;
  rd_seqno : seqno avd' = seqno avd;
  rd_flags : flags avd' = flags avd
}.

Lemma compute_av_rules_spec p s t tclass avd :
  policy_ok p -> ctx_ok p s -> ctx_ok p t -> 0 < tclass <= nclasses p ->
  exists avd', compute_av_rules p s t tclass avd = Some (true, avd') /\ rules_decide p s t tclass avd avd'.
Proof.
  intros Hp Hs Ht Hc. pose proof (po_nclasses _ Hp). unfold compute_av_rules.
  destruct (Z.eqb_spec tclass 0); [lia|]. fold (nclasses p). destruct (Z.ltb_spec (nclasses p) tclass); [lia|]. cbn [orb].
  destruct (po_class _ Hp tclass Hc) as (d & Hd & Hdok). rewrite (bind_step _ _ _ Hd).
  destruct (po_attr _ Hp _ (cx_type_ok _ _ Hs)) as [es Hes], (po_attr _ Hp _ (cx_type_ok _ _ Ht)) as [et Het].
  rewrite (bind_step _ _ _ Hes), (bind_step _ _ _ Het).
  set (avd0 := set_auditdeny _ _).
  destruct (te_compute_spec p tclass (ebitmap_bits es) (ebitmap_bits et) avd0 (po_rules _ Hp)) as (avd1 & H1 & Hs1 & Hf1 & Hm);
    [unfold in_u; lia|]. rewrite (bind_step _ _ _ H1). cbn [deref mbind option_bind].
  destruct (apply_constraints_spec p s t (cl_constraints d) (allowed avd1)) as (a' & Ha & Hbits).
  { eapply Forall_impl; [apply (ck_constraints _ Hdok)|]. intros c Hce. by apply expr_ok_total. }
  rewrite (bind_step _ _ _ Ha). eexists. split; [done|].
  assert (class_constraints p tclass = cl_constraints d) as Ecl by (unfold class_constraints, index_deref; by rewrite Hd).
  assert (attrs p s = ebitmap_bits es) as Eas by (unfold attrs; by rewrite Hes).
  assert (attrs p t = ebitmap_bits et) as Eat by (unfold attrs; by rewrite Het).
  split; cbn [set_allowed allowed auditallow auditdeny seqno flags]; [| | |exact Hs1|exact Hf1]; intros k Hk;
    specialize (Hm k ltac:(lia)); destruct Hm as [Hma Hml Hmd]; unfold rules_allow, te_some, te_all; rewrite Eas, Eat.
  - rewrite apply_role_allow_spec, Hbits, Hma, Ecl by done. unfold avd0. cbn. rewrite Z.bits_0. done.
  - rewrite Hml. unfold avd0. cbn. by rewrite Z.bits_0.
  - rewrite Hmd. unfold avd0. cbn [auditdeny set_auditdeny]. rewrite ones32_bit by done. done.
Qed.

(** *** Bounds *)

Definition allows_le (a b : av_decision) : Prop := forall k, 0 <= k < 32 -> Z.testbit (allowed a) k = true -> Z.testbit (allowed b) k = true.

Lemma masked_bits lo avd k : 0 <= k < 32 ->
  Z.testbit (allowed avd .& not32 (not32 (allowed lo) .& allowed avd)) k = Z.testbit (allowed avd) k && Z.testbit (allowed lo) k.
Proof.
  intros Hk. rewrite clear_bits, Z.land_spec, not32_spec, bool_decide_true by lia.
  by destruct (Z.testbit (allowed avd) k), (Z.testbit (allowed lo) k).
Qed.

Section BoundsAv.
  Context (p : policydb) (s t : context) (tclass : Z) (compute : context -> context -> option av_decision).
  Context (Hp : policy_ok p) (Hs : ctx_ok p s) (Ht : ctx_ok p t) (Hc : 0 < tclass <= nclasses p).
  Context (ds dt : type_datum) (Hds : type_at p (c_type s) = Some ds) (Hdt : type_at p (c_type t) = Some dt).
  Context (Hsrc : t_bounds ds <> 0 -> is_Some (compute (set_c_type s (t_bounds ds)) t)).
  Context (Htgt : t_bounds dt <> 0 -> is_Some (compute s (set_c_type t (t_bounds dt)))).
  Context (Hboth : t_bounds ds <> 0 -> t_bounds dt <> 0 ->
                   is_Some (compute (set_c_type s (t_bounds ds)) (set_c_type t (t_bounds dt)))).

(** Only [allowed] changes, and it loses permissions or stays. *)
Definition restricts (avd avd' : av_decision) : Prop :=
  allows_le avd' avd /\ auditallow avd' = auditallow avd /\ auditdeny avd' = auditdeny avd /\
  seqno avd' = seqno avd /\ flags avd' = flags avd.

Lemma restricts_refl avd : restricts avd avd.
Proof. split; [by intros k|done]. Qed.

Lemma restricts_mask avd masked : restricts avd (set_allowed avd (allowed avd .& not32 masked)).
Proof. split; [|done]. intros k Hk. cbn. rewrite clear_bits by done. by intros [H _]%andb_prop. Qed.

Lemma bounds_av_total avd : exists avd', bounds_av compute p s t tclass avd = Some avd' /\ restricts avd avd'.
Proof.
  unfold bounds_av. unfold type_at in Hds, Hdt. rewrite (bind_step _ _ _ Hds), (bind_step _ _ _ Hdt).
  assert (forall masked, exists avd', (if nz masked then _ ← security_dump_masked_av p tclass masked;
            Some (set_allowed avd (allowed avd .& not32 masked)) else Some avd) = Some avd' /\ restricts avd avd') as Hfin.
  { intros masked. destruct (nz masked); [|by exists avd; split; [|apply restricts_refl]].
    destruct (dump_masked_total p tclass masked Hp Hc) as [n Hn]. rewrite (bind_step _ _ _ Hn).
    eexists. split; [done|apply restricts_mask]. }
  destruct (Z.eqb_spec (t_bounds ds) 0) as [Es|Es], (Z.eqb_spec (t_bounds dt) 0) as [Et|Et].
  - rewrite (proj2 (nz_false _) Es), (proj2 (nz_false _) Et). cbn [andb]. apply (Hfin 0).
  - rewrite (proj2 (nz_false _) Es), (proj2 (nz_true _) Et). cbn [andb].
    destruct (Htgt Et) as [lo Hlo]. rewrite (bind_step _ _ _ Hlo). destruct (bounds_masked lo avd); [apply Hfin|].
    by exists avd; split; [|apply restricts_refl].
  - rewrite (proj2 (nz_true _) Es), (proj2 (nz_false _) Et). cbn [andb].
    destruct (Hsrc Es) as [lo Hlo]. rewrite (bind_step _ _ _ Hlo). destruct (bounds_masked lo avd); [apply Hfin|].
    by exists avd; split; [|apply restricts_refl].
  - rewrite (proj2 (nz_true _) Es), (proj2 (nz_true _) Et). cbn [andb].
    destruct (Hsrc Es) as [lo Hlo]. rewrite (bind_step _ _ _ Hlo).
    destruct (bounds_masked lo avd); [|by exists avd; split; [|apply restricts_refl]].
    destruct (Htgt Et) as [lo2 Hlo2]. rewrite (bind_step _ _ _ Hlo2).
    destruct (bounds_masked lo2 avd); [|by exists avd; split; [|apply restricts_refl]].
    destruct (Hboth Es Et) as [lo3 Hlo3]. rewrite (bind_step _ _ _ Hlo3).
    destruct (bounds_masked lo3 avd); [apply Hfin|]. by exists avd; split; [|apply restricts_refl].
Qed.

(** A bounded source type gets no more than its bounds. *)
Lemma bounds_av_source avd lo :
  t_bounds ds <> 0 -> t_bounds dt = 0 -> compute (set_c_type s (t_bounds ds)) t = Some lo ->
  exists avd', bounds_av compute p s t tclass avd = Some avd' /\
    forall k, 0 <= k < 32 -> Z.testbit (allowed avd') k = Z.testbit (allowed avd) k && Z.testbit (allowed lo) k.
Proof.
  intros Es Et Hlo. unfold bounds_av. unfold type_at in Hds, Hdt. rewrite (bind_step _ _ _ Hds), (bind_step _ _ _ Hdt).
  rewrite (proj2 (nz_true _) Es), (proj2 (nz_false _) Et). cbn [andb]. rewrite (bind_step _ _ _ Hlo). unfold bounds_masked.
  destruct (Z.eqb_spec (allowed lo .& allowed avd) (allowed avd)) as [E|E].
  { exists avd. split; [done|]. intros k Hk. rewrite <- E at 1. rewrite Z.land_spec. apply andb_comm. }
  set (masked := not32 (allowed lo) .& allowed avd). destruct (nz masked) eqn:Em.
  - destruct (dump_masked_total p tclass masked Hp Hc) as [n Hn]. rewrite (bind_step _ _ _ Hn).
    eexists. split; [done|]. intros k Hk. cbn. unfold masked. by apply masked_bits.
  - exists avd. split; [done|]. intros k Hk. apply nz_false in Em. pose proof (masked_bits lo avd k Hk) as Hb.
    fold masked in Hb. rewrite Em in Hb. rewrite clear_bits, Z.bits_0 in Hb by done. cbn in Hb. by rewrite andb_true_r in Hb.
Qed.
End BoundsAv.

(** ** The recursion over the bounds ends *)

Lemma type_depth_at p n v : type_depth p n v -> exists d, type_at p v = Some d /\ (t_bounds d <> 0 -> exists n', n = S n' /\ type_depth p n' (t_bounds d)).
Proof. destruct 1 as [v d Hd H0|v d n Hd H0 Hn]; exists d; (split; [done|]); [done|]. intros _. by exists n. Qed.

Lemma compute_av_total p fuel ns nt s t tclass avd :
  policy_ok p -> ctx_ok p s -> ctx_ok p t -> 0 < tclass <= nclasses p ->
  type_depth p ns (c_type s) -> type_depth p nt (c_type t) -> (ns + nt < fuel)%nat ->
  exists avd1 avd', compute_av_rules p s t tclass avd = Some (true, avd1) /\ rules_decide p s t tclass avd avd1 /\
    compute_av_fuel fuel p s t tclass avd = Some avd' /\ restricts avd1 avd'.
Proof.
  intros Hp. revert ns nt s t avd. induction fuel as [|fuel IH]; intros ns nt s t avd Hs Ht Hc Hns Hnt Hlt; [lia|].
  destruct (compute_av_rules_spec p s t tclass avd Hp Hs Ht Hc) as (avd1 & H1 & Hr). exists avd1. cbn [compute_av_fuel].
  destruct (type_depth_at _ _ _ Hns) as (ds & Hds & Hups), (type_depth_at _ _ _ Hnt) as (dt & Hdt & Hupt).
  pose proof (po_bounds _ Hp _ _ (cx_type_ok _ _ Hs) Hds) as Hbs. pose proof (po_bounds _ Hp _ _ (cx_type_ok _ _ Ht) Hdt) as Hbt.
  destruct (bounds_av_total p s t tclass (fun s t => compute_av_fuel fuel p s t tclass avd_zero) Hp Hc ds dt Hds Hdt) with (avd := avd1)
    as (avd' & Hb & Hres).
  - intros Hn. destruct (Hups Hn) as (n' & -> & Hd'). destruct (IH n' nt (set_c_type s (t_bounds ds)) t avd_zero)
      as (? & lo & _ & _ & Hlo & _); [apply ctx_ok_type; [done|lia]|done|done|done|done|lia|]. by eexists.
  - intros Hn. destruct (Hupt Hn) as (n' & -> & Hd'). destruct (IH ns n' s (set_c_type t (t_bounds dt)) avd_zero)
      as (? & lo & _ & _ & Hlo & _); [done|apply ctx_ok_type; [done|lia]|done|done|done|lia|]. by eexists.
  - intros Hn Hn2. destruct (Hups Hn) as (n' & -> & Hd'), (Hupt Hn2) as (n2 & -> & Hd2).
    destruct (IH n' n2 (set_c_type s (t_bounds ds)) (set_c_type t (t_bounds dt)) avd_zero)
      as (? & lo & _ & _ & Hlo & _); [apply ctx_ok_type; [done|lia]|apply ctx_ok_type; [done|lia]|done|done|done|lia|]. by eexists.
  - exists avd'. split; [done|]. split; [done|]. split; [|done]. by rewrite (bind_step _ _ _ H1).
Qed.

Lemma compute_av_depth_ok p s t tclass avd :
  policy_ok p -> ctx_ok p s -> ctx_ok p t -> 0 < tclass <= nclasses p ->
  exists avd1 avd', compute_av_rules p s t tclass avd = Some (true, avd1) /\ rules_decide p s t tclass avd avd1 /\
    context_struct_compute_av p s t tclass avd = Some avd' /\ restricts avd1 avd'.
Proof.
  intros Hp Hs Ht Hc. destruct (po_type _ Hp _ (cx_type_ok _ _ Hs)) as (ns & Hns & Hds), (po_type _ Hp _ (cx_type_ok _ _ Ht)) as (nt & Hnt & Hdt).
  eapply compute_av_total; try done. unfold compute_av_depth. change bounds_rounds with 3%nat in *. lia.
Qed.

(** More fuel does not change a result. *)
Lemma bounds_av_mono c c' p s t tclass avd r :
  (forall s t x, c s t = Some x -> c' s t = Some x) ->
  bounds_av c p s t tclass avd = Some r -> bounds_av c' p s t tclass avd = Some r.
Proof.
  intros Hm. unfold bounds_av. intros H. apply bind_Some in H as (ds & Hds & H). apply bind_Some in H as (dt & Hdt & H).
  rewrite (bind_step _ _ _ Hds), (bind_step _ _ _ Hdt). revert H.
  destruct (nz (t_bounds ds)), (nz (t_bounds dt)); cbn [andb]; try done.
  - intros H. apply bind_Some in H as (lo & Hlo & H). rewrite (bind_step _ _ _ (Hm _ _ _ Hlo)).
    destruct (bounds_masked lo avd); [|done]. apply bind_Some in H as (lo2 & Hlo2 & H). rewrite (bind_step _ _ _ (Hm _ _ _ Hlo2)).
    destruct (bounds_masked lo2 avd); [|done]. apply bind_Some in H as (lo3 & Hlo3 & H). by rewrite (bind_step _ _ _ (Hm _ _ _ Hlo3)).
  - intros H. apply bind_Some in H as (lo & Hlo & H). by rewrite (bind_step _ _ _ (Hm _ _ _ Hlo)).
  - intros H. apply bind_Some in H as (lo & Hlo & H). by rewrite (bind_step _ _ _ (Hm _ _ _ Hlo)).
Qed.

Lemma compute_av_fuel_mono n n' p s t tclass avd r :
  (n <= n')%nat -> compute_av_fuel n p s t tclass avd = Some r -> compute_av_fuel n' p s t tclass avd = Some r.
Proof.
  revert n' s t avd r. induction n as [|n IH]; intros n' s t avd r Hle; [done|]. destruct n' as [|n']; [lia|].
  cbn [compute_av_fuel]. intros H. apply bind_Some in H as ([valid avd1] & H1 & H). rewrite (bind_step _ _ _ H1).
  destruct valid; [|done]. eapply bounds_av_mono; [|exact H]. intros s' t' x. apply IH. lia.
Qed.

(** *** Transitions within bounds *)

(** [old] lies above [v] in the hierarchy of bounds. *)
Inductive above (p : policydb) (old : Z) : Z -> Prop :=
| above_here v d : type_at p v = Some d -> t_bounds d <> 0 -> t_bounds d = old -> above p old v
| above_there v d : type_at p v = Some d -> t_bounds d <> 0 -> above p old (t_bounds d) -> above p old v.

Lemma bounded_loop_spec p old n v fuel :
  type_depth p n v -> (n < fuel)%nat ->
  (bounded_loop fuel p old v = Some 0 /\ above p old v) \/ (bounded_loop fuel p old v = Some (- EPERM) /\ ~ above p old v).
Proof.
  revert v fuel. induction n as [|n IH]; intros v fuel Hd Hlt; destruct fuel as [|fuel]; try lia; cbn [bounded_loop]; inv Hd.
  - match goal with H : type_at p v = Some _ |- _ => rename H into Hv end. unfold type_at in Hv. rewrite (bind_step _ _ _ Hv).
    rewrite (proj2 (nz_false _) ltac:(done)). right. split; [done|]. intros Ha.
    inv Ha; unfold type_at in *; congruence.
  - match goal with H : type_at p v = Some _ |- _ => rename H into Hv end.
    match goal with H : type_depth p n _ |- _ => rename H into Hn end.
    pose proof Hv as Hv'. unfold type_at in Hv'. rewrite (bind_step _ _ _ Hv').
    rewrite (proj2 (nz_true _) ltac:(done)). cbn [negb]. destruct (Z.eqb_spec (t_bounds d) old) as [E|E].
    + left. split; [done|]. by eapply above_here.
    + destruct (IH (t_bounds d) fuel Hn ltac:(lia)) as [[H Ha]|[H Ha]]; [left|right]; (split; [done|]).
      * by eapply above_there.
      * intros Hab. inv Hab; unfold type_at in *; congruence.
Qed.

(** *** The class mapping *)

Lemma bits_where_spec n f k : 0 <= k < 32 -> Z.testbit (bits_where n f) k = bool_decide (k < Z.of_nat n) && f (Z.to_nat k).
Proof.
  intros Hk. induction n as [|n IH]; cbn [bits_where].
  - rewrite Z.testbit_0_l. by case_bool_decide; [lia|].
  - assert (Z.testbit (u32 (1 .<< Z.of_nat n)) k = (k =? Z.of_nat n)) as Hbit.
    { rewrite u32_spec by lia. rewrite bool_decide_true by lia. rewrite Z.shiftl_1_l, Z.pow2_bits_eqb by lia. apply Z.eqb_sym. }
    destruct (Z.eqb_spec k (Z.of_nat n)) as [->|Hne].
    + rewrite bool_decide_true by lia. rewrite Nat2Z.id. destruct (f n); [rewrite Z.lor_spec, Hbit; apply orb_true_r|].
      rewrite IH. by rewrite bool_decide_false by lia.
    + destruct (f n); rewrite ?Z.lor_spec, ?Hbit, IH, ?orb_false_r; f_equal; apply bool_decide_ext; lia.
Qed.

(** The entry of a class: the policy's values of the permissions with the
    names in the kernel's order. *)
Lemma map_perms_spec pol value names k perms k' perms' :
  map_perms pol value names k perms = Some (Some (k', perms')) ->
  k' = (k + length names)%nat /\ (forall i, (i < k)%nat -> perms' !! i = perms !! i) /\
  forall j name, names !! j = Some name -> name <> EmptyString ->
    exists perm, string_to_av_perm pol value name = Some perm /\ perms' !! (k + j)%nat = Some perm.
Proof.
  revert k perms. induction names as [|n names IH]; intros k perms; cbn [map_perms].
  { intros [= <- <-]. split; [cbn; lia|]. split; done. }
  destruct (String.eqb_spec n EmptyString) as [->|Hne].
  - intros H. destruct (IH _ _ H) as (-> & Hlow & Hnames). split; [cbn; lia|]. split; [intros; apply Hlow; lia|].
    intros [|j] name; cbn; [by intros [= <-]|]. intros Hj Hn. destruct (Hnames j name Hj Hn) as (perm & ? & Hp).
    exists perm. split; [done|]. by replace (k + S j)%nat with (S k + j)%nat by lia.
  - case_decide as Hk; [|done]. intros H. apply bind_Some in H as (perm & Hperm & H). destruct (_ && _); [done|].
    destruct (IH _ _ H) as (-> & Hlow & Hnames). split; [cbn; lia|]. split.
    + intros i Hi. rewrite Hlow by lia. apply list_lookup_insert_ne. lia.
    + intros [|j] name; cbn.
      * intros [= <-] _. exists perm. split; [done|]. rewrite Nat.add_0_r, Hlow by lia. by apply list_lookup_insert_eq.
      * intros Hj Hn. destruct (Hnames j name Hj Hn) as (perm' & ? & Hp). exists perm'. split; [done|].
        by replace (k + S j)%nat with (S k + j)%nat by lia.
Qed.

Lemma map_classes_spec pol map out i e v :
  map_classes pol map = Some (Some out) -> map !! i = Some e -> scm_name e <> EmptyString ->
  string_to_security_class pol (scm_name e) = Some v -> v <> 0 ->
  exists perms, out !! i = Some (mk_selinux_mapping v (Z.of_nat (length (scm_perms e))) perms) /\
    forall j name, scm_perms e !! j = Some name -> name <> EmptyString ->
      exists perm, string_to_av_perm pol v name = Some perm /\ perms !! j = Some perm.
Proof.
  revert out i. induction map as [|x map IH]; intros out i; [done|]. cbn [map_classes]. intros H He Hn Hv Hnz.
  apply bind_Some in H as ([y|] & Hx & H); [|done]. apply bind_Some in H as ([rest|] & Hrest & H); [|done]. injection H as <-.
  destruct i as [|i]; [|by apply (IH rest i)]. cbn in He. injection He as ->.
  destruct (String.eqb_spec (scm_name e) EmptyString) as [?|_]; [done|]. rewrite (bind_step _ _ _ Hv) in Hx.
  rewrite (proj2 (nz_true v) Hnz) in Hx. cbn [negb] in Hx. apply bind_Some in Hx as ([[k perms]|] & Hp & Hx); [|done].
  injection Hx as <-. destruct (map_perms_spec _ _ _ _ _ _ _ Hp) as (-> & _ & Hnames). exists perms. split; [done|]. exact Hnames.
Qed.

(** ** The sample policy can be worked with *)

Lemma keys_ok_decide (l : list (avtab_key * Z)) :
  forallb (fun x => (0 <=? ak_source_type x.1) && (ak_source_type x.1 <? 2 ^ 16) && (0 <=? ak_target_type x.1) &&
    (ak_target_type x.1 <? 2 ^ 16) && (0 <=? ak_target_class x.1) && (ak_target_class x.1 <? 2 ^ 16) &&
    (0 <=? ak_specified x.1) && (ak_specified x.1 <? 2 ^ 16)) l = true ->
  Forall (fun x => key_ok x.1) l.
Proof.
  intros H. rewrite forallb_forall in H. apply Forall_forall. intros x Hx. rewrite list_elem_of_In in Hx. specialize (H x Hx).
  repeat (apply andb_prop in H as [H ?]). split; unfold in_u; lia.
Qed.

Lemma sample_rules : rules_wf sample.
Proof.
  destruct sample_tables as [H1 H2].
  split; [rewrite H1|rewrite H2]; apply avtab_of_wf, keys_ok_decide; vm_compute; reflexivity.
Qed.

(** The parts of a class datum [class_ok] looks at. *)
Definition perm_values (s : symtab perm_datum) : option (list Z) :=
  (fun t => (fun n => pm_value n.2) <$> concat (ht_htable t)) <$> st_table s.
Definition class_view (d : class_datum) : list constraint_node * option (list Z) * option common_datum :=
  (cl_constraints d, perm_values (cl_permissions d), cl_comdatum d).

Lemma perms_ok_values s l : perm_values s = Some l -> Forall (fun v => 1 <= v <= 32) l -> perms_ok s.
Proof.
  unfold perm_values. intros H HF t Et. rewrite Et in H. injection H as <-. by apply Forall_fmap in HF.
Qed.

Lemma class_view_at (a : list (ptr class_datum)) i vw :
  0 <= i -> ((fun x => class_view <$> deref x) <$> a) !! Z.to_nat i = Some (Some vw) ->
  exists d, index a i = Some (Ptr d) /\ class_view d = vw.
Proof.
  intros Hi. unfold index. destruct (Z.ltb_spec i 0); [lia|]. rewrite list_lookup_fmap.
  destruct (a !! Z.to_nat i) as [[| |d]|]; try done. cbn. intros [= <-]. by exists d.
Qed.

Lemma sample_classes :
  ((fun x => class_view <$> deref x) <$> class_val_to_struct sample) =
    [Some ([], Some [2; 1], None); Some ([write_constraint], Some [1; 2], None)].
Proof. vm_compute. reflexivity. Qed.

Lemma sample_roles :
  role_val_to_struct sample =
    [Ptr (mk_role_datum 1 0 (bitmap_of [0]) ebitmap_init); Ptr (mk_role_datum 2 0 (bitmap_of [1]) (bitmap_of [0; 1; 3]))].
Proof. vm_compute. reflexivity. Qed.

Lemma write_constraint_ok : expr_ok false (cn_expr write_constraint).
Proof.
  split; [reflexivity|repeat constructor|].
  repeat apply Forall_cons_2; try apply Forall_nil_2; try apply ebitmap_init_canon.
  apply (bitmap_of_canon [2]). repeat constructor; lia.
Qed.

Lemma sample_ok : policy_ok sample.
Proof.
  assert (ntypes sample = 4) as Et by (vm_compute; reflexivity).
  assert (nclasses sample = 2) as Ec by (vm_compute; reflexivity).
  assert (nroles sample = 2) as Er by (vm_compute; reflexivity).
  assert (forall v, 0 < v <= 4 -> v = 1 \/ v = 2 \/ v = 3 \/ v = 4) as H4 by lia.
  assert (forall v, 0 < v <= 2 -> v = 1 \/ v = 2) as H2 by lia.
  split; rewrite ?Et, ?Ec, ?Er; try lia.
  - exact sample_rules.
  - intros v Hv. destruct (class_view_at (class_val_to_struct sample) (v - 1)
      (if decide (v = 1) then ([], Some [2; 1], None) else ([write_constraint], Some [1; 2], None))) as (d & Hd & Hvw);
      [lia|rewrite sample_classes; by apply H2 in Hv as [-> | ->]|].
    exists d. split; [exact Hd|]. unfold class_view in Hvw. destruct (decide (v = 1)); injection Hvw as E1 E2 E3; split.
    + rewrite E1. constructor.
    + eapply perms_ok_values; [exact E2|]. repeat constructor; lia.
    + rewrite E3. discriminate.
    + rewrite E1. constructor; [apply write_constraint_ok|constructor].
    + eapply perms_ok_values; [exact E2|]. repeat constructor; lia.
    + rewrite E3. discriminate.
  - rewrite sample_roles. intros v [-> | ->]%H2; eexists; (split; [reflexivity|]); cbn [r_dominates].
    + apply (bitmap_of_canon [0]). repeat constructor; lia.
    + apply (bitmap_of_canon [1]). repeat constructor; lia.
  - intros v [->|[->|[-> | ->]]]%H4; [exists 0%nat|exists 1%nat|exists 0%nat|exists 0%nat]; (split; [unfold bounds_rounds, POLICYDB_BOUNDS_MAXDEPTH; lia|]).
    2: { eapply depth_step; [vm_compute; reflexivity|done|]. eapply depth_root; [vm_compute; reflexivity|done]. }
    all: eapply depth_root; [vm_compute; reflexivity|done].
  - intros v d [->|[->|[-> | ->]]]%H4 Hd; vm_compute in Hd; injection Hd as <-; cbn; lia.
  - intros v [->|[->|[-> | ->]]]%H4; eexists; vm_compute; reflexivity.
Qed.

Lemma sample_ctx c : 0 < c_type c <= 4 -> 0 < c_role c <= 2 -> 0 < c_user c < 2 ^ 32 -> ctx_ok sample c.
Proof.
  assert (ntypes sample = 4) as Et by (vm_compute; reflexivity). assert (nroles sample = 2) as Er by (vm_compute; reflexivity).
  intros. split; rewrite ?Et, ?Er; done.
Qed.

(** ** Properties *)

(** A constraint in the postfix order of the policy file evaluates to the
    value of the expression it encodes, if the expression needs at most
    [CEXPR_MAXDEPTH] places on the stack. *)
Theorem constraint_value p s t x tr v :
  ctree_value p s t x tr = Some v -> (ctree_height tr <= Z.to_nat CEXPR_MAXDEPTH)%nat ->
  constraint_expr_eval p s t x (ctree_list tr) = Some v.
Proof.
  intros Hv Hh. unfold constraint_expr_eval. by rewrite (bind_step _ _ _ (ctree_loop p s t x tr v [] Hv Hh)).
Qed.

(** The tree of the sample's constraint. *)
Definition write_tree : ctree :=
  TOr (TLeaf (mk_constraint_expr CEXPR_ATTR CEXPR_USER CEXPR_EQ ebitmap_init))
      (TNot (TLeaf (mk_constraint_expr CEXPR_NAMES (CEXPR_TYPE .| CEXPR_TARGET) CEXPR_EQ (bitmap_of [2])))).

Lemma constraint_value_witness :
  constraint_expr_eval sample (set_c_user user_ctx 2) etc_ctx None (cn_expr write_constraint) = Some false.
Proof. apply (constraint_value sample (set_c_user user_ctx 2) etc_ctx None write_tree false); [vm_compute; reflexivity|vm_compute; lia]. Defined.

(** No constraint whose depth, attributes and operators are those of a
    valid policy makes [constraint_expr_eval] run into a [BUG], for any
    contexts whose parts exist in the policy. *)
Theorem constraint_never_bugs p s t x l :
  policy_ok p -> ctx_ok p s -> ctx_ok p t -> (forall c, x = Some c -> ctx_ok p c) ->
  expr_ok (bool_decide (is_Some x)) l -> exists v, constraint_expr_eval p s t x l = Some v.
Proof. intros Hp Hs Ht Hx Hl. by apply expr_ok_total. Qed.

Lemma constraint_never_bugs_witness :
  exists v, constraint_expr_eval sample user_ctx etc_ctx None (cn_expr write_constraint) = Some v.
Proof.
  apply (constraint_never_bugs sample user_ctx etc_ctx None (cn_expr write_constraint)).
  - exact sample_ok.
  - apply sample_ctx; cbn; lia.
  - apply sample_ctx; cbn; lia.
  - discriminate.
  - exact write_constraint_ok.
Defined.

(** C6: [context_struct_compute_av] always returns a decision for existing
    contexts and classes (its recursion over bounded types ends).  The audit
    vectors are exactly what the rules for the attributes of the two types
    say; [allowed] never has a permission that the allow rules, the
    constraints and the role rules do not all grant, and it has all of these
    if neither type is bounded. *)
Theorem compute_av_decision p s t tclass avd :
  policy_ok p -> ctx_ok p s -> ctx_ok p t -> 0 < tclass <= nclasses p ->
  exists avd', context_struct_compute_av p s t tclass avd = Some avd' /\
    seqno avd' = seqno avd /\ flags avd' = flags avd /\
    forall k, 0 <= k < 32 ->
      Z.testbit (auditallow avd') k = te_some p s t tclass AVTAB_AUDITALLOW k /\
      Z.testbit (auditdeny avd') k = te_all p s t tclass AVTAB_AUDITDENY k /\
      (Z.testbit (allowed avd') k = true -> rules_allow p s t tclass k = true) /\
      (forall ds dt, type_at p (c_type s) = Some ds -> type_at p (c_type t) = Some dt ->
         t_bounds ds = 0 -> t_bounds dt = 0 -> Z.testbit (allowed avd') k = rules_allow p s t tclass k).
Proof.
  intros Hp Hs Ht Hc. destruct (compute_av_depth_ok p s t tclass avd Hp Hs Ht Hc) as (avd1 & avd' & H1 & [Ra Rl Rd Rs Rf] & Hav & (Hle & Hl & Hd & Hs' & Hf')).
  exists avd'. split; [done|]. split; [congruence|]. split; [congruence|]. intros k Hk. rewrite Hl, Hd.
  split; [by apply Rl|]. split; [by apply Rd|]. split; [intros Hb; rewrite <- Ra by done; by apply Hle|].
  intros ds dt Hds Hdt Es Et. rewrite <- Ra by done. f_equal. f_equal.
  unfold context_struct_compute_av, compute_av_depth in Hav. cbn [compute_av_fuel] in Hav. rewrite (bind_step _ _ _ H1) in Hav.
  unfold bounds_av in Hav. unfold type_at in Hds, Hdt. rewrite (bind_step _ _ _ Hds), (bind_step _ _ _ Hdt) in Hav.
  rewrite (proj2 (nz_false _) Es), (proj2 (nz_false _) Et) in Hav. cbn in Hav. by injection Hav as <-.
Qed.

Lemma compute_av_decision_witness :
  exists avd', context_struct_compute_av sample init_ctx etc_ctx 2 avd_zero = Some avd' /\ allowed avd' = 3.
Proof.
  destruct (compute_av_decision sample init_ctx etc_ctx 2 avd_zero) as (avd' & H & _).
  - exact sample_ok.
  - apply sample_ctx; cbn; lia.
  - apply sample_ctx; cbn; lia.
  - vm_compute. split; congruence.
  - exists avd'. split; [exact H|]. vm_compute in H. injection H as <-. reflexivity.
Defined.

(** C8: a domain bounded by another type never gets more than that type: for a
    target type without bounds, a permission is allowed exactly when the
    domain's own rules allow it and the decision for the bounding type does. *)
Theorem bounded_domain_restricted p s t tclass avd ds dt :
  policy_ok p -> ctx_ok p s -> ctx_ok p t -> 0 < tclass <= nclasses p ->
  type_at p (c_type s) = Some ds -> type_at p (c_type t) = Some dt -> t_bounds ds <> 0 -> t_bounds dt = 0 ->
  exists avd' lo, context_struct_compute_av p s t tclass avd = Some avd' /\
    context_struct_compute_av p (set_c_type s (t_bounds ds)) t tclass avd_zero = Some lo /\
    forall k, 0 <= k < 32 -> Z.testbit (allowed avd') k = rules_allow p s t tclass k && Z.testbit (allowed lo) k.
Proof.
  intros Hp Hs Ht Hc Hds Hdt Es Et.
  pose proof (po_bounds _ Hp _ _ (cx_type_ok _ _ Hs) Hds) as Hb.
  assert (ctx_ok p (set_c_type s (t_bounds ds))) as Hs2 by (apply ctx_ok_type; [done|lia]).
  destruct (po_type _ Hp _ (cx_type_ok _ _ Hs)) as (ns & Hns & Hdep), (po_type _ Hp _ (cx_type_ok _ _ Ht)) as (nt & Hnt & Hdept).
  destruct (type_depth_at _ _ _ Hdep) as (ds' & Hds' & Hup). rewrite Hds in Hds'. injection Hds' as <-.
  destruct (Hup Es) as (n' & -> & Hdep').
  assert (nt = 0%nat) as ->.
  { inv Hdept; congruence. }
  destruct (compute_av_total p 6 n' 0 (set_c_type s (t_bounds ds)) t tclass avd_zero Hp Hs2 Ht Hc Hdep' Hdept) as (_ & lo & _ & _ & Hlo & _).
  { change bounds_rounds with 3%nat in *. lia. }
  destruct (compute_av_rules_spec p s t tclass avd Hp Hs Ht Hc) as (avd1 & H1 & Hr).
  destruct (bounds_av_source p s t tclass (fun s t => compute_av_fuel 6 p s t tclass avd_zero) Hp Hc ds dt Hds Hdt avd1 lo Es Et Hlo)
    as (avd' & Hav & Hbits).
  exists avd', lo. split; [|split].
  - unfold context_struct_compute_av, compute_av_depth. change (S (2 * bounds_rounds)) with 7%nat. cbn [compute_av_fuel].
    by rewrite (bind_step _ _ _ H1).
  - eapply compute_av_fuel_mono; [|exact Hlo]. unfold compute_av_depth. change bounds_rounds with 3%nat. lia.
  - intros k Hk. rewrite Hbits by done. by rewrite (rd_allowed _ _ _ _ _ _ Hr) by done.
Qed.

(** user_t, bounded by init_t, has a rule with permission 4, which init_t has not. *)
Lemma bounded_domain_restricted_witness :
  exists avd' lo, context_struct_compute_av sample user_ctx etc_ctx 2 avd_zero = Some avd' /\
    context_struct_compute_av sample init_ctx etc_ctx 2 avd_zero = Some lo /\ allowed avd' = 3 /\ rules_allow sample user_ctx etc_ctx 2 2 = true.
Proof.
  destruct (bounded_domain_restricted sample user_ctx etc_ctx 2 avd_zero (mk_type_datum 2 1 1 0) (mk_type_datum 3 0 1 0))
    as (avd' & lo & H1 & H2 & _).
  - exact sample_ok.
  - apply sample_ctx; cbn; lia.
  - apply sample_ctx; cbn; lia.
  - vm_compute. split; congruence.
  - vm_compute. reflexivity.
  - vm_compute. reflexivity.
  - discriminate.
  - reflexivity.
  - vm_compute in H1. injection H1 as <-. vm_compute in H2. injection H2 as <-.
    do 2 eexists. split; [vm_compute; reflexivity|]. split; [vm_compute; reflexivity|]. split; [reflexivity|vm_compute; reflexivity].
Defined.

(** C35: [security_bounded_transition] lets a process change its type exactly
    when the new type is the old one or lies below it in the hierarchy of
    bounded types, and the walk up the hierarchy ends. *)
Theorem bounded_transition_iff s old_sid new_sid old new :
  policy_ok (ss_policydb s) -> sidtab_search (Some (ss_sidtab s)) old_sid = Some old ->
  sidtab_search (Some (ss_sidtab s)) new_sid = Some new -> ctx_ok (ss_policydb s) new ->
  exists rc, security_bounded_transition s old_sid new_sid = Some rc /\ (rc = 0 \/ rc = - EPERM) /\
    (rc = 0 <-> c_type new = c_type old \/ above (ss_policydb s) (c_type old) (c_type new)).
Proof.
  intros Hp Ho Hn Hctx. unfold security_bounded_transition. rewrite Ho, Hn. destruct (Z.eqb_spec (c_type old) (c_type new)) as [E|E].
  { exists 0. split; [done|]. split; [by left|]. split; [by left|done]. }
  destruct (po_type _ Hp _ (cx_type_ok _ _ Hctx)) as (n & Hle & Hd).
  destruct (bounded_loop_spec _ (c_type old) n _ (S bounds_rounds) Hd ltac:(lia)) as [[-> Ha]|[-> Ha]]; eexists; (split; [done|]).
  - split; [by left|]. split; [by right|done].
  - split; [by right|]. split; [done|]. intros [?|?]; [congruence|done].
Qed.

(** Two SIDs for the sample: init_t and user_t, which init_t bounds. *)
Definition sample_sids : sidtab :=
  let st := (sidtab_insert empty_sids 1 init_ctx []).1.2 in
  (sidtab_insert st 2 user_ctx []).1.2.

Definition sample_ss : ss := mk_ss sample sample_sids true 1 [] 0 true false false.

Lemma bounded_transition_iff_witness :
  exists rc, security_bounded_transition sample_ss 1 2 = Some rc /\ (rc = 0 \/ rc = - EPERM) /\
    (rc = 0 <-> c_type user_ctx = c_type init_ctx \/ above (ss_policydb sample_ss) (c_type init_ctx) (c_type user_ctx)).
Proof.
  apply (bounded_transition_iff sample_ss 1 2 init_ctx user_ctx).
  - unfold sample_ss, ss_policydb. exact sample_ok.
  - vm_compute. reflexivity.
  - vm_compute. reflexivity.
  - unfold sample_ss, ss_policydb. apply sample_ctx; cbn; lia.
Defined.

(** C36: the mapping between the kernel's classes and the policy's, once
    [selinux_set_mapping] has built it, is faithful: the kernel class at
    position [i] becomes the policy's class of the same name, and in a mapped
    decision every bit of the kernel's permission [j] is the policy's decision
    on the permission of the same name; permissions the policy does not know
    are granted exactly if [allow_unknown], and those the class does not have
    are denied and audited. *)
Theorem class_mapping_faithful pol map m s out size m' i e v avd au :
  selinux_set_mapping pol map m = Some (0, Some (out, size), m') ->
  current_mapping s = out -> current_mapping_size s = size -> Z.of_nat (length map) < 2 ^ 16 - 1 ->
  map !! i = Some e -> scm_name e <> EmptyString -> string_to_security_class pol (scm_name e) = Some v -> v <> 0 ->
  unmap_class s (Z.of_nat i + 1) = Some v /\
  exists avd', map_decision s (Z.of_nat i + 1) avd au = Some avd' /\
    (forall j name, scm_perms e !! j = Some name -> name <> EmptyString -> (j < 32)%nat ->
       exists perm, string_to_av_perm pol v name = Some perm /\
         Z.testbit (allowed avd') (Z.of_nat j) = nz (allowed avd .& perm) || au && negb (nz perm) /\
         Z.testbit (auditallow avd') (Z.of_nat j) = nz (auditallow avd .& perm) /\
         Z.testbit (auditdeny avd') (Z.of_nat j) = nz (auditdeny avd .& perm) || negb au && negb (nz perm)) /\
    (forall j, Z.of_nat (length (scm_perms e)) <= j < 32 ->
       Z.testbit (allowed avd') j = false /\ Z.testbit (auditallow avd') j = false /\ Z.testbit (auditdeny avd') j = true).
Proof.
  unfold selinux_set_mapping. intros H Hout Hsize Hlen He Hn Hv Hnz. destruct (kalloc m) as [[] m1]; [|done]. cbn [negb] in H.
  apply bind_Some in H as ([out'|] & Hmap & H); [|done]. injection H as <- <- <-.
  destruct (map_classes_spec _ _ _ _ _ _ Hmap He Hn Hv Hnz) as (perms & Hi & Hperms).
  pose proof (lookup_lt_Some _ _ _ He) as Hlt.
  assert (mapping_at s (Z.of_nat i + 1) = Some (mk_selinux_mapping v (Z.of_nat (length (scm_perms e))) perms)) as Hat.
  { unfold mapping_at. rewrite Hout. by replace (Z.to_nat (Z.of_nat i + 1)) with (S i) by lia. }
  assert ((Z.of_nat i + 1 <? current_mapping_size s) = true) as Hsz.
  { rewrite Hsize. apply Z.ltb_lt. unfold u16. rewrite Z.mod_small by lia. lia. }
  unfold unmap_class, map_decision. rewrite Hsz, !(bind_step _ _ _ Hat). split; [done|]. eexists. split; [done|]. cbn [mp_num_perms mp_perms].
  rewrite Nat2Z.id. unfold set_allowed, set_auditallow, set_auditdeny. cbn [allowed auditallow auditdeny]. split.
  - intros j name Hj Hne Hj32. destruct (Hperms j name Hj Hne) as (perm & Hperm & Hp). pose proof (lookup_lt_Some _ _ _ Hj).
    exists perm. split; [done|]. rewrite !bits_where_spec, !bool_decide_true, Nat2Z.id by lia. cbn [andb].
    rewrite (nth_lookup_Some _ _ _ _ Hp), (proj2 (Nat.leb_gt _ j)) by lia. done.
  - intros j Hj. rewrite !bits_where_spec by lia. rewrite (bool_decide_true (j < Z.of_nat (_ `max` _))) by lia.
    rewrite bool_decide_false by lia. rewrite (proj2 (Nat.leb_le _ (Z.to_nat j))) by lia. done.
Qed.

(** The kernel lists write before read, and a permission the sample has not. *)
Definition sample_map : list security_class_mapping :=
  [mk_scm "process" ["fork"]%string; mk_scm "file" ["write"; "read"; "execute"]%string]%string.

Definition mapped_ss : ss :=
  mk_ss sample sample_sids true 1
    (mapping_zero :: default [] (mjoin (map_classes sample sample_map))) 3 true false false.

Lemma class_mapping_faithful_witness :
  unmap_class mapped_ss 2 = Some 2 /\
  exists avd', map_decision mapped_ss 2 (mk_av_decision 1 0 0 0 0) false = Some avd' /\ allowed avd' = 2.
Proof.
  destruct (class_mapping_faithful sample sample_map [] mapped_ss (current_mapping mapped_ss) 3 [] 1
              (mk_scm "file" ["write"; "read"; "execute"]%string) 2 (mk_av_decision 1 0 0 0 0) false)
    as (Hu & avd' & H & _); [vm_compute; reflexivity|reflexivity|reflexivity|cbn; lia|reflexivity|discriminate|vm_compute; reflexivity|discriminate|].
  split; [exact Hu|]. exists avd'. split; [exact H|]. vm_compute in H. injection H as <-. reflexivity.
Defined.
