(* ===== verification/PolicydbProofs.v ===== *)
(** * What loading a policy establishes (security/selinux/ss/policydb.c)

    [policydb_index] fills the arrays from values to data and names out of
    the symbol tables, and [policydb_bounds_sanity_check] walks up the
    hierarchies of users, roles and types.  This file shows what holds of a
    database after they have returned 0; the decisions of Services rely on
    it. *)

From S2P Require Import Prelude Ebitmap Hashtab Context Sidtab Avtab Policydb Mls PolicydbOps Sample Services.

(** ** Walks over a hash table *)

Definition table_list {D} (t : option (hashtab string D)) : list (string * D) :=
  match t with Some t => concat (take (Z.to_nat (ht_size t)) (ht_htable t)) | None => [] end.

Section MapInv.
  Context {D S : Type} (apply : string -> D -> S -> Z * S) (I : S -> Prop).

Lemma chain_map_inv cur args :
  (forall k d s, (k, d) ∈ cur -> I s -> I (apply k d s).2) -> I args -> I (chain_map apply cur args).2.
Proof.
  revert args. induction cur as [|[k d] cur IH]; intros args Hstep HI; cbn [chain_map fst snd]; [done|].
  pose proof (Hstep k d args (list_elem_of_here _ _) HI) as H. destruct (apply k d args) as [ret s]. cbn [fst snd] in *.
  destruct (nz ret); [exact H|]. apply IH; [|exact H]. intros k' d' s' Hk. apply Hstep. by apply list_elem_of_further.
Qed.

Lemma slots_map_inv slots args :
  (forall k d s, (k, d) ∈ concat slots -> I s -> I (apply k d s).2) -> I args -> I (slots_map apply slots args).2.
Proof.
  revert args. induction slots as [|c slots IH]; intros args Hstep HI; cbn [slots_map]; [done|].
  pose proof (chain_map_inv c args) as H. destruct (chain_map apply c args) as [ret s]. cbn [fst snd] in *.
  assert (I s) as Hs. { apply H; [|done]. intros k d s' Hk. apply Hstep. cbn. rewrite elem_of_app. by left. }
  destruct (nz ret); [exact Hs|]. apply IH; [|exact Hs]. intros k d s' Hk. apply Hstep. cbn. rewrite elem_of_app. by right.
Qed.

Lemma hashtab_map_inv t args :
  (forall k d s, (k, d) ∈ table_list t -> I s -> I (apply k d s).2) -> I args -> I (hashtab_map t apply args).2.
Proof. destruct t as [t|]; [apply slots_map_inv|done]. Qed.
End MapInv.

(** A walk that returns 0 has had 0 from every call. *)
Section MapZero.
  Context {D S : Type} (apply : string -> D -> S -> Z * S) (I : S -> Prop).

Lemma chain_map_zero cur args s :
  chain_map apply cur args = (0, s) -> forall k d, (k, d) ∈ cur -> exists s' s'', apply k d s' = (0, s'').
Proof.
  revert args. induction cur as [|[k d] cur IH]; intros args H k' d'; cbn [chain_map fst snd] in H; [by intros ?%elem_of_nil|].
  destruct (apply k d args) as [ret s1] eqn:E. destruct (nz ret) eqn:Er; [injection H as -> _; done|].
  apply nz_false in Er as ->. rewrite elem_of_cons. intros [[= -> ->]|Hk]; [by exists args, s1|by eapply IH].
Qed.

Lemma slots_map_zero slots args s :
  slots_map apply slots args = (0, s) -> forall k d, (k, d) ∈ concat slots -> exists s' s'', apply k d s' = (0, s'').
Proof.
  revert args. induction slots as [|c slots IH]; intros args H k d; cbn [slots_map] in H; [by intros ?%elem_of_nil|].
  destruct (chain_map apply c args) as [ret s1] eqn:E. destruct (nz ret) eqn:Er; [injection H as -> _; done|].
  apply nz_false in Er as ->. cbn. rewrite elem_of_app. intros [Hk|Hk]; [by eapply chain_map_zero|by eapply IH].
Qed.
End MapZero.

Lemma map_check_zero {D} (t : option (hashtab string D)) f k d :
  map_check t f = Some 0 -> (k, d) ∈ table_list t -> f d = Some 0.
Proof.
  unfold map_check. intros H Hk. destruct (hashtab_map t _ true) as [rc ok] eqn:E. destruct ok; [|done]. injection H as ->.
  destruct t as [t|]; [|by apply elem_of_nil in Hk]. cbn [hashtab_map table_list] in *.
  destruct (slots_map_zero _ _ _ _ E k d Hk) as (s' & s'' & Hz). destruct (f d) as [rc|]; [by injection Hz as ->|done].
Qed.

(** ** The hierarchy of bounds *)

Section Chain.
  Context {D : Type} (bounds : D -> Z) (get : Z -> option D).

(** [bounded_by d l]: [l] are the data above [d], the nearest first. *)
Inductive bounded_by : D -> list D -> Prop :=
| by_none d : bounds d = 0 -> bounded_by d []
| by_upper d upper l : bounds d <> 0 -> get (bounds d - 1) = Some upper -> bounded_by upper l -> bounded_by d (upper :: l).

Lemma bounds_loop_zero inside n d :
  bounds_loop bounds get inside n d = Some 0 <->
  exists l, bounded_by d l /\ (length l <= n)%nat /\ Forall (fun upper => inside upper = Some true) l.
Proof.
  revert d. induction n as [|n IH]; intros d; cbn [bounds_loop].
  - destruct (nz (bounds d)) eqn:E.
    + split; [done|]. intros ([|x l] & Hb & Hl & _); [|cbn in Hl; lia]. inv Hb. apply nz_true in E. done.
    + apply nz_false in E. split; [|done]. intros _. exists []. split; [by constructor|done].
  - destruct (nz (bounds d)) eqn:E.
    + apply nz_true in E. split.
      * intros H. apply bind_Some in H as (upper & Hg & H). apply bind_Some in H as (ok & Hin & H). destruct ok; [|done].
        apply IH in H as (l & Hb & Hl & HF). exists (upper :: l). split; [by constructor|]. split; [cbn; lia|]. by constructor.
      * intros (l & Hb & Hl & HF). inv Hb.
        match goal with H : Forall _ (_ :: _) |- _ => apply Forall_cons in H as [Hi HF'] end.
        match goal with H : get _ = Some _ |- _ => rewrite (bind_step _ _ _ H) end. rewrite (bind_step _ _ _ Hi).
        apply IH. cbn in Hl. eexists. split; [done|]. split; [lia|done].
    + apply nz_false in E. split; [|done]. intros _. exists []. split; [by constructor|]. split; [cbn; lia|done].
Qed.
End Chain.

Lemma bits_bounded_true bits upper :
  bits_bounded bits upper = Some true -> forall b, b ∈ bits -> ebitmap_get_bit upper b = Some true.
Proof.
  induction bits as [|x bits IH]; cbn [bits_bounded]; [intros _ b ?%elem_of_nil; done|].
  intros H b. apply bind_Some in H as (v & Hv & H). destruct v; [|done]. rewrite elem_of_cons. intros [->|Hb]; [done|by apply IH].
Qed.

Definition type_get (p : policydb) (i : Z) : option type_datum := deref (flex_array_get_ptr (type_val_to_struct_array p) i).

Lemma bounds_checked p :
  policydb_bounds_sanity_check p = Some 0 -> POLICYDB_VERSION_BOUNDARY <= policyvers p ->
  (forall k d, (k, d) ∈ table_list (st_table (p_users p)) -> user_bounds_sanity_check p d = Some 0) /\
  (forall k d, (k, d) ∈ table_list (st_table (p_roles p)) -> role_bounds_sanity_check p d = Some 0) /\
  (forall k d, (k, d) ∈ table_list (st_table (p_types p)) -> type_bounds_sanity_check p d = Some 0).
Proof.
  unfold policydb_bounds_sanity_check. intros H Hv. destruct (Z.ltb_spec (policyvers p) POLICYDB_VERSION_BOUNDARY); [lia|].
  apply bind_Some in H as (r1 & H1 & H). destruct (nz r1) eqn:E1; [injection H as ->; done|]. apply nz_false in E1 as ->.
  apply bind_Some in H as (r2 & H2 & H). destruct (nz r2) eqn:E2; [injection H as ->; done|]. apply nz_false in E2 as ->.
  apply bind_Some in H as (r3 & H3 & H). destruct (nz r3) eqn:E3; [injection H as ->; done|]. apply nz_false in E3 as ->.
  split; [|split]; intros k d; by apply map_check_zero.
Qed.

(** ** The arrays [policydb_index] fills *)

(** Every pointer in the array is to a datum of the table whose value is its
    position plus one. *)
Definition structs_from {D} (t : option (hashtab string D)) (value : D -> Z) (a : list (ptr D)) : Prop :=
  forall i d, a !! i = Some (Ptr d) -> value d = Z.of_nat i + 1 /\ exists k, (k, d) ∈ table_list t.

Definition names_from {D} (t : option (hashtab string D)) (value : D -> Z) (fa : option (list (ptr string))) : Prop :=
  forall l i k, fa = Some l -> l !! i = Some (Ptr k) -> exists d, value d = Z.of_nat i + 1 /\ (k, d) ∈ table_list t.

Lemma structs_from_wild {D} (t : option (hashtab string D)) value n : structs_from t value (replicate n Wild).
Proof. intros i d H. by apply lookup_replicate in H as [? _]. Qed.

Lemma structs_from_null {D} (t : option (hashtab string D)) value n : structs_from t value (replicate n Null).
Proof. intros i d H. by apply lookup_replicate in H as [? _]. Qed.

Lemma names_from_null {D} (t : option (hashtab string D)) value n : names_from t value (Some (replicate n Null)).
Proof. intros l i d [= <-] H. by apply lookup_replicate in H as [? _]. Qed.

Definition values_in {D} (s : symtab D) (value : D -> Z) : Prop :=
  st_nprim s < 2 ^ 32 /\ forall k d, (k, d) ∈ table_list (st_table s) -> 0 <= value d.

Lemma put_struct_from {D} (s : symtab D) value a k d a' :
  values_in s value -> structs_from (st_table s) value a -> (k, d) ∈ table_list (st_table s) -> out_of (value d) (st_nprim s) = false ->
  put_struct a (value d) d = Some a' -> structs_from (st_table s) value a'.
Proof.
  unfold put_struct, out_of. intros [Hp H0] Ha Hk [Hz Hn]%orb_false_iff H. specialize (H0 k d Hk). case_decide as Hi; [|done]. injection H as <-.
  rewrite u32_small in Hi |- * by lia. intros i d'. destruct (decide (i = Z.to_nat (value d - 1))) as [->|Hne].
  - rewrite list_lookup_insert_eq by done. intros [= <-]. split; [lia|by exists k].
  - rewrite list_lookup_insert_ne by done. apply Ha.
Qed.

Lemma put_name_from {D} (s : symtab D) value fa k d :
  values_in s value -> names_from (st_table s) value (Some fa) -> (k, d) ∈ table_list (st_table s) ->
  out_of (value d) (st_nprim s) = false -> names_from (st_table s) value (Some (<[Z.to_nat (u32 (value d - 1)) := Ptr k]> fa)).
Proof.
  unfold out_of. intros [Hp H0] Ha Hk [Hz Hn]%orb_false_iff l i k' [= <-]. specialize (H0 k d Hk). rewrite u32_small by lia.
  destruct (decide (i = Z.to_nat (value d - 1))) as [->|Hne].
  - intros H. pose proof (lookup_lt_Some _ _ _ H) as Hlt. rewrite length_insert in Hlt. rewrite list_lookup_insert_eq in H by done.
    injection H as <-. exists d. split; [lia|done].
  - rewrite list_lookup_insert_ne by done. by apply Ha.
Qed.

(** The value of the boolean at a position of the store. *)
Definition bool_value (p : policydb) (loc : nat) : Z := default 0 (cb_value <$> bool_store p !! loc).

(** The names array of each symbol table. *)
Definition sym_names (p : policydb) (sym : nat) (fa : option (list (ptr string))) : Prop :=
  match sym with
  | 0 => names_from (st_table (p_commons p)) cm_value fa
  | 1 => names_from (st_table (p_classes p)) cl_value fa
  | 2 => names_from (st_table (p_roles p)) r_value fa
  | 3 => names_from (st_table (p_types p)) t_value fa
  | 4 => names_from (st_table (p_users p)) u_value fa
  | 5 => names_from (st_table (p_bools p)) (bool_value p) fa
  | 6 => names_from (st_table (p_levels p)) (fun d => ml_sens (l_level d)) fa
  | 7 => names_from (st_table (p_cats p)) cat_value fa
  | _ => True
  end%nat.

Record index_inv (p0 p : policydb) : Prop := mk_index_inv {
  ii_commons : p_commons p = p_commons p0;
  ii_classes : p_classes p = p_classes p0;
  ii_roles : p_roles p = p_roles p0;
  ii_types : p_types p = p_types p0;
  ii_users : p_users p = p_users p0;
  ii_bools : p_bools p = p_bools p0;
  ii_levels : p_levels p = p_levels p0;
  ii_cats : p_cats p = p_cats p0;
  ii_store : bool_store p = bool_store p0;
  ii_class : structs_from (st_table (p_classes p0)) cl_value (class_val_to_struct p);
  ii_role : structs_from (st_table (p_roles p0)) r_value (role_val_to_struct p);
  ii_user : structs_from (st_table (p_users p0)) u_value (user_val_to_struct p);
  ii_type : structs_from (st_table (p_types p0)) t_value (type_val_to_struct_array p);
  ii_bounds : forall i d, type_val_to_struct_array p !! i = Some (Ptr d) -> t_bounds d <= ntypes p0;
  ii_bool : structs_from (st_table (p_bools p0)) (bool_value p0) (bool_val_to_struct p);
  ii_names : forall sym, sym_names p0 sym (nth sym (sym_val_to_name p) None)
}.

(** The fields of the tables are 32-bit numbers. *)
Record values_ok (p : policydb) : Prop := mk_values_ok {
  vo_common : values_in (p_commons p) cm_value;
  vo_class : values_in (p_classes p) cl_value;
  vo_role : values_in (p_roles p) r_value;
  vo_type : values_in (p_types p) t_value;
  vo_bounds : values_in (p_types p) t_bounds;
  vo_user : values_in (p_users p) u_value;
  vo_bool : values_in (p_bools p) (bool_value p);
  vo_level : values_in (p_levels p) (fun d => ml_sens (l_level d));
  vo_cat : values_in (p_cats p) cat_value
}.

Lemma nth_insert_sym {A} (l : list A) sym sym' x d : nth sym' (<[sym := x]> l) d = x /\ sym' = sym \/ nth sym' (<[sym := x]> l) d = nth sym' l d.
Proof.
  rewrite !nth_lookup. destruct (decide (sym' = sym)) as [->|Hne].
  - destruct (decide (sym < length l)%nat) as [Hlt|Hge].
    + left. by rewrite list_lookup_insert_eq.
    + right. by rewrite list_insert_ge by lia.
  - right. by rewrite list_lookup_insert_ne.
Qed.

Lemma inv_names p0 p sym fa :
  index_inv p0 p -> sym_names p0 sym fa ->
  index_inv p0 (set_sym_val_to_name p (<[sym := fa]> (sym_val_to_name p))).
Proof.
  intros Hi Hfa. pose proof (ii_names _ _ Hi) as Hn. destruct Hi. split; try done. intros sym'. cbn [sym_val_to_name set_sym_val_to_name].
  destruct (nth_insert_sym (sym_val_to_name p) sym sym' fa None) as [[-> ->]| -> ]; done.
Qed.

Lemma inv_put_name p0 p sym v key p' :
  index_inv p0 p -> put_name p sym v key = Some p' ->
  (forall fa, sym_names p0 sym (Some fa) -> sym_names p0 sym (Some (<[Z.to_nat (u32 (v - 1)) := Ptr key]> fa))) ->
  index_inv p0 p'.
Proof.
  unfold put_name. intros Hi H Hput. apply bind_Some in H as (fa & Hfa & H). case_decide; [|done]. injection H as <-.
  apply inv_names; [done|]. apply Hput. rewrite <- Hfa. by apply ii_names.
Qed.

(** [index_inv] of the database a function called by [hashtab_map] leaves. *)
Definition leaves_inv (p0 : policydb) (s : option policydb) : Prop := forall p, s = Some p -> index_inv p0 p.

Lemma indexed_inv p0 r : leaves_inv p0 r -> leaves_inv p0 (indexed r).2.
Proof. by destruct r. Qed.

(** Each [*_index] function keeps the invariant. *)
Section Indexes.
  Context (p0 : policydb) (Hv : values_ok p0).

Lemma put_name_sym {D} p sym (s : symtab D) value k d p' :
  (forall fa, sym_names p0 sym fa = names_from (st_table s) value fa) -> values_in s value ->
  index_inv p0 p -> (k, d) ∈ table_list (st_table s) -> out_of (value d) (st_nprim s) = false ->
  put_name p sym (value d) k = Some p' -> index_inv p0 p'.
Proof.
  intros Hs Hin Hi Hk Ho H. eapply inv_put_name; [done..|]. intros fa. rewrite !Hs. intros Hfa. by apply put_name_from.
Qed.

Lemma common_index_inv k d p :
  (k, d) ∈ table_list (st_table (p_commons p0)) -> index_inv p0 p -> leaves_inv p0 (common_index k d p).2.
Proof.
  intros Hk Hi. unfold common_index. rewrite (ii_commons _ _ Hi). destruct (out_of _ _) eqn:Ho; [by intros p' [= <-]|].
  apply indexed_inv. intros p' H. by apply (put_name_sym p SYM_COMMONS (p_commons p0) cm_value k d p' ltac:(done) (vo_common _ Hv)).
Qed.

Lemma class_index_inv k d p :
  (k, d) ∈ table_list (st_table (p_classes p0)) -> index_inv p0 p -> leaves_inv p0 (class_index k d p).2.
Proof.
  intros Hk Hi. unfold class_index. rewrite (ii_classes _ _ Hi). destruct (out_of _ _) eqn:Ho; [by intros p' [= <-]|].
  apply indexed_inv. intros p' H. apply bind_Some in H as (p1 & H1 & H). apply bind_Some in H as (a & H2 & [= <-]).
  pose proof (put_name_sym p SYM_CLASSES (p_classes p0) cl_value k d p1 ltac:(done) (vo_class _ Hv) Hi Hk Ho H1) as Hi1.
  pose proof (put_struct_from (p_classes p0) cl_value _ k d a (vo_class _ Hv) (ii_class _ _ Hi1) Hk Ho H2). by destruct Hi1.
Qed.

Lemma role_index_inv k d p :
  (k, d) ∈ table_list (st_table (p_roles p0)) -> index_inv p0 p -> leaves_inv p0 (role_index k d p).2.
Proof.
  intros Hk Hi. unfold role_index. rewrite (ii_roles _ _ Hi). destruct (_ || _) eqn:Ho; [by intros p' [= <-]|].
  apply orb_false_iff in Ho as [Ho _]. apply indexed_inv. intros p' H. apply bind_Some in H as (p1 & H1 & H). apply bind_Some in H as (a & H2 & [= <-]).
  pose proof (put_name_sym p SYM_ROLES (p_roles p0) r_value k d p1 ltac:(done) (vo_role _ Hv) Hi Hk Ho H1) as Hi1.
  pose proof (put_struct_from (p_roles p0) r_value _ k d a (vo_role _ Hv) (ii_role _ _ Hi1) Hk Ho H2). by destruct Hi1.
Qed.

Lemma user_index_inv k d p :
  (k, d) ∈ table_list (st_table (p_users p0)) -> index_inv p0 p -> leaves_inv p0 (user_index k d p).2.
Proof.
  intros Hk Hi. unfold user_index. rewrite (ii_users _ _ Hi). destruct (_ || _) eqn:Ho; [by intros p' [= <-]|].
  apply orb_false_iff in Ho as [Ho _]. apply indexed_inv. intros p' H. apply bind_Some in H as (p1 & H1 & H). apply bind_Some in H as (a & H2 & [= <-]).
  pose proof (put_name_sym p SYM_USERS (p_users p0) u_value k d p1 ltac:(done) (vo_user _ Hv) Hi Hk Ho H1) as Hi1.
  pose proof (put_struct_from (p_users p0) u_value _ k d a (vo_user _ Hv) (ii_user _ _ Hi1) Hk Ho H2). by destruct Hi1.
Qed.

Lemma type_index_inv k d p :
  (k, d) ∈ table_list (st_table (p_types p0)) -> index_inv p0 p -> leaves_inv p0 (type_index k d p).2.
Proof.
  intros Hk Hi. unfold type_index. rewrite (ii_types _ _ Hi). destruct (nz _); [|by intros p' [= <-]].
  destruct (_ || _) eqn:Ho; [by intros p' [= <-]|]. apply orb_false_iff in Ho as [Ho Hb].
  apply indexed_inv. intros p' H. apply bind_Some in H as (p1 & H1 & H). apply bind_Some in H as (a & H2 & [= <-]).
  pose proof (put_name_sym p SYM_TYPES (p_types p0) t_value k d p1 ltac:(done) (vo_type _ Hv) Hi Hk Ho H1) as Hi1.
  pose proof (put_struct_from (p_types p0) t_value _ k d a (vo_type _ Hv) (ii_type _ _ Hi1) Hk Ho H2) as Ht.
  pose proof (ii_bounds _ _ Hi1) as Hbs. destruct Hi1. split; try done.
  intros i d'. cbn [type_val_to_struct_array set_type_val_to_struct_array]. unfold put_struct in H2. case_decide; [|done]. injection H2 as <-.
  destruct (decide (i = Z.to_nat (u32 (t_value d - 1)))) as [->|Hne].
  - rewrite list_lookup_insert_eq by done. intros [= <-]. unfold ntypes. lia.
  - rewrite list_lookup_insert_ne by done. apply Hbs.
Qed.

Lemma bool_index_inv k d p :
  (k, d) ∈ table_list (st_table (p_bools p0)) -> index_inv p0 p -> leaves_inv p0 (cond_index_bool k d p).2.
Proof.
  intros Hk Hi. unfold cond_index_bool. rewrite (ii_store _ _ Hi), (ii_bools _ _ Hi). destruct (bool_store p0 !! d) as [b|] eqn:Eb; [|done].
  assert (cb_value b = bool_value p0 d) as -> by (unfold bool_value; by rewrite Eb).
  destruct (out_of _ _) eqn:Ho; [by intros p' [= <-]|].
  apply indexed_inv. intros p' H. apply bind_Some in H as (p1 & H1 & H). apply bind_Some in H as (a & H2 & [= <-]).
  pose proof (put_name_sym p SYM_BOOLS (p_bools p0) (bool_value p0) k d p1 ltac:(done) (vo_bool _ Hv) Hi Hk Ho H1) as Hi1.
  pose proof (put_struct_from (p_bools p0) (bool_value p0) _ k d a (vo_bool _ Hv) (ii_bool _ _ Hi1) Hk Ho H2). by destruct Hi1.
Qed.

Lemma sens_index_inv k d p :
  (k, d) ∈ table_list (st_table (p_levels p0)) -> index_inv p0 p -> leaves_inv p0 (sens_index k d p).2.
Proof.
  intros Hk Hi. unfold sens_index. rewrite (ii_levels _ _ Hi). destruct (negb _); [|by intros p' [= <-]].
  destruct (out_of _ _) eqn:Ho; [by intros p' [= <-]|]. apply indexed_inv. intros p' H.
  by apply (put_name_sym p SYM_LEVELS (p_levels p0) (fun d => ml_sens (l_level d)) k d p' ltac:(done) (vo_level _ Hv)).
Qed.

Lemma cat_index_inv k d p :
  (k, d) ∈ table_list (st_table (p_cats p0)) -> index_inv p0 p -> leaves_inv p0 (cat_index k d p).2.
Proof.
  intros Hk Hi. unfold cat_index. rewrite (ii_cats _ _ Hi). destruct (negb _); [|by intros p' [= <-]].
  destruct (out_of _ _) eqn:Ho; [by intros p' [= <-]|]. apply indexed_inv. intros p' H.
  by apply (put_name_sym p SYM_CATS (p_cats p0) cat_value k d p' ltac:(done) (vo_cat _ Hv)).
Qed.
End Indexes.

Lemma index_symtab_inv {D} p0 sym (s : symtab D) f p m rc p' m' :
  (forall k d q, (k, d) ∈ table_list (st_table s) -> index_inv p0 q -> leaves_inv p0 (f k d q).2) ->
  (forall n, sym_names p0 sym (Some (replicate n Null))) ->
  index_inv p0 p -> index_symtab sym s f p m = Some (rc, p', m') -> nz rc = false -> index_inv p0 p'.
Proof.
  intros Hf Hnull Hi. unfold index_symtab. destruct (kalloc m) as [[] m1]; cbn [negb]; [|by intros [= <- _ _]].
  destruct (kalloc m1) as [[] m2]; cbn [negb]; [|by intros [= <- _ _]].
  pose proof (inv_names p0 p sym _ Hi (Hnull (Z.to_nat (st_nprim s)))) as Hi1.
  destruct (hashtab_map _ _ _) as [rc1 q] eqn:E. destruct q as [q|]; [|done]. cbn. intros [= <- <- _] _.
  assert (leaves_inv p0 (rc1, Some q).2) as Hq; [|by apply Hq]. rewrite <- E. apply hashtab_map_inv.
  - intros k d [r|] Hk Hr; [|done]. cbn [on_policydb]. apply Hf; [done|]. by apply Hr.
  - by intros r [= <-].
Qed.

Lemma null_names p sym n : sym_names p sym (Some (replicate n Null)).
Proof. do 8 (destruct sym as [|sym]; [apply names_from_null|]). done. Qed.

Lemma policydb_index_inv p0 m p m' :
  values_ok p0 -> sym_val_to_name p0 = replicate SYM_NUM None -> policydb_index p0 m = Some (0, p, m') -> index_inv p0 p.
Proof.
  intros Hv Hnames. unfold policydb_index, cond_init_bool_indexes.
  do 5 (destruct (kalloc m) as [[] m1]; cbn [negb]; [clear m; rename m1 into m|done]).
  destruct (kalloc m) as [[] m1]; cbn [negb]; [clear m; rename m1 into m|done]. change (nz 0) with false. cbv iota.
  match goal with |- context [index_symtab SYM_COMMONS _ _ ?q _] => assert (index_inv p0 q) as Hi; [|generalize dependent q] end.
  { split; try done; try apply structs_from_wild.
    - apply structs_from_null.
    - intros i d H. by apply lookup_replicate in H as [? _].
    - intros sym. cbn. rewrite Hnames. do 8 (destruct sym as [|sym]; [by intros l i k|]). done. }
  intros q Hi H. clear Hnames.
  apply bind_Some in H as ([[rc1 p1] n1] & H1 & H). destruct (nz rc1) eqn:E1; [by injection H as -> _ _|].
  rewrite (ii_commons _ _ Hi) in H1.
  pose proof (index_symtab_inv p0 _ _ _ _ _ _ _ _ (common_index_inv p0 Hv) (null_names p0 _) Hi H1 E1) as I1.
  apply bind_Some in H as ([[rc2 p2] n2] & H2 & H). destruct (nz rc2) eqn:E2; [by injection H as -> _ _|].
  rewrite (ii_classes _ _ I1) in H2.
  pose proof (index_symtab_inv p0 _ _ _ _ _ _ _ _ (class_index_inv p0 Hv) (null_names p0 _) I1 H2 E2) as I2.
  apply bind_Some in H as ([[rc3 p3] n3] & H3 & H). destruct (nz rc3) eqn:E3; [by injection H as -> _ _|].
  rewrite (ii_roles _ _ I2) in H3.
  pose proof (index_symtab_inv p0 _ _ _ _ _ _ _ _ (role_index_inv p0 Hv) (null_names p0 _) I2 H3 E3) as I3.
  apply bind_Some in H as ([[rc4 p4] n4] & H4 & H). destruct (nz rc4) eqn:E4; [by injection H as -> _ _|].
  rewrite (ii_types _ _ I3) in H4.
  pose proof (index_symtab_inv p0 _ _ _ _ _ _ _ _ (type_index_inv p0 Hv) (null_names p0 _) I3 H4 E4) as I4.
  apply bind_Some in H as ([[rc5 p5] n5] & H5 & H). destruct (nz rc5) eqn:E5; [by injection H as -> _ _|].
  rewrite (ii_users _ _ I4) in H5.
  pose proof (index_symtab_inv p0 _ _ _ _ _ _ _ _ (user_index_inv p0 Hv) (null_names p0 _) I4 H5 E5) as I5.
  apply bind_Some in H as ([[rc6 p6] n6] & H6 & H). destruct (nz rc6) eqn:E6; [by injection H as -> _ _|].
  rewrite (ii_bools _ _ I5) in H6.
  pose proof (index_symtab_inv p0 _ _ _ _ _ _ _ _ (bool_index_inv p0 Hv) (null_names p0 _) I5 H6 E6) as I6.
  apply bind_Some in H as ([[rc7 p7] n7] & H7 & H). destruct (nz rc7) eqn:E7; [by injection H as -> _ _|].
  rewrite (ii_levels _ _ I6) in H7.
  pose proof (index_symtab_inv p0 _ _ _ _ _ _ _ _ (sens_index_inv p0 Hv) (null_names p0 _) I6 H7 E7) as I7.
  rewrite (ii_cats _ _ I7) in H.
  exact (index_symtab_inv p0 _ _ _ _ _ _ _ _ (cat_index_inv p0 Hv) (null_names p0 _) I7 H eq_refl).
Qed.

(** The walk the check makes and the depth Services works with agree. *)
Lemma bounded_by_depth p v d l :
  bounded_by t_bounds (type_get p) d l -> type_at p v = Some d -> type_depth p (length l) v.
Proof.
  intros Hb. revert v. induction Hb as [d H0|d upper l H0 Hg Hb IH]; intros v Hv; cbn [length]; [by eapply depth_root|].
  eapply depth_step; [done..|]. by apply IH.
Qed.

(** ** Every symbol gets its entry *)

(** Pointers of [a] are pointers in [a']. *)
Definition still_ptr {D} (a a' : list (ptr D)) : Prop := forall i d, a !! i = Some (Ptr d) -> exists d', a' !! i = Some (Ptr d').

#[export] Instance still_ptr_preorder {D} : PreOrder (@still_ptr D).
Proof.
  split; [intros a i d H; by exists d|]. intros a b c H1 H2 i d H. destruct (H1 i d H) as [d' H']. by eapply H2.
Qed.

Lemma put_struct_ptr {D} (a : list (ptr D)) v d a' :
  put_struct a v d = Some a' -> still_ptr a a' /\ a' !! Z.to_nat (u32 (v - 1)) = Some (Ptr d).
Proof.
  unfold put_struct. case_decide as Hi; [|done]. intros [= <-]. split; [|by apply list_lookup_insert_eq]. intros i x Hx.
  destruct (decide (i = Z.to_nat (u32 (v - 1)))) as [->|Hne]; [exists d; by rewrite list_lookup_insert_eq|exists x; by rewrite list_lookup_insert_ne].
Qed.

(** One database is further indexed than another. *)
Record indexes_more (p p' : policydb) : Prop := mk_indexes_more {
  im_tables : (p_commons p', p_classes p', p_roles p', p_types p', p_users p', p_bools p', p_levels p', p_cats p') =
              (p_commons p, p_classes p, p_roles p, p_types p, p_users p, p_bools p, p_levels p, p_cats p);
  im_class : still_ptr (class_val_to_struct p) (class_val_to_struct p');
  im_role : still_ptr (role_val_to_struct p) (role_val_to_struct p');
  im_type : still_ptr (type_val_to_struct_array p) (type_val_to_struct_array p');
  im_user : still_ptr (user_val_to_struct p) (user_val_to_struct p')
}.

#[export] Instance indexes_more_preorder : PreOrder indexes_more.
Proof. split; [intros p; by split|]. intros p q r [A1 A2 A3 A4 A5] [B1 B2 B3 B4 B5]. split; [congruence|etrans; done..]. Qed.

(** The same for what a function called by [hashtab_map] leaves. *)
Definition more_left (s s' : option policydb) : Prop :=
  match s, s' with Some p, Some p' => indexes_more p p' | Some _, None => True | None, _ => s' = None end.
#[export] Instance more_left_preorder : PreOrder more_left.
Proof. split; [by intros [p|]|]. intros [p|] [q|] [r|] H1 H2; cbn in *; try done. by etrans. Qed.

Lemma put_name_more p sym v key p' : put_name p sym v key = Some p' -> indexes_more p p'.
Proof. unfold put_name. intros (fa & _ & H)%bind_Some. case_decide; [|done]. injection H as <-. by split. Qed.

Lemma indexed_more p r : (forall p', r = Some p' -> indexes_more p p') -> more_left (Some p) (indexed r).2.
Proof. intros H. destruct r; [by apply H|done]. Qed.

(** [put_name] and then [put_struct]. *)
Ltac index_more := repeat case_match; cbn [fst snd]; try done; apply indexed_more;
  let p' := fresh "p'" in let HH := fresh "HH" in intros p' HH;
  first [ by eapply put_name_more
        | apply bind_Some in HH as (? & ?%put_name_more & HH); apply bind_Some in HH as (? & [? _]%put_struct_ptr & [= <-]);
          etrans; [eassumption|]; by split ].

Section MapEach.
  Context {D S : Type} (apply : string -> D -> S -> Z * S) (R : S -> S -> Prop) `{!PreOrder R}.
  Context (Hstep : forall k d s, R s (apply k d s).2).

(** A walk that returns 0 has called the function for each entry, with result
    0, and every call leaves more than was there. *)
Lemma chain_map_each cur args s :
  chain_map apply cur args = (0, s) -> R args s /\ forall k d, (k, d) ∈ cur -> exists s1, (apply k d s1).1 = 0 /\ R (apply k d s1).2 s.
Proof.
  revert args. induction cur as [|[k d] cur IH]; intros args H; cbn [chain_map fst snd] in H.
  { injection H as <-. split; [done|by intros ?? ?%elem_of_nil]. }
  pose proof (Hstep k d args) as H0. destruct (apply k d args) as [ret s1] eqn:E. destruct (nz ret) eqn:Er; [injection H as -> _; done|].
  apply nz_false in Er as ->. apply IH in H as [H1 H2]. split; [by etrans|]. intros k' d'. rewrite elem_of_cons. intros [[= -> ->]|Hk].
  - exists args. by rewrite E.
  - by apply H2.
Qed.

Lemma slots_map_each slots args s :
  slots_map apply slots args = (0, s) -> R args s /\ forall k d, (k, d) ∈ concat slots -> exists s1, (apply k d s1).1 = 0 /\ R (apply k d s1).2 s.
Proof.
  revert args. induction slots as [|c slots IH]; intros args H; cbn [slots_map] in H.
  { injection H as <-. split; [done|by intros ?? ?%elem_of_nil]. }
  destruct (chain_map apply c args) as [ret s1] eqn:E. destruct (nz ret) eqn:Er; [injection H as -> _; done|].
  apply nz_false in Er as ->. apply chain_map_each in E as [H1 H2]. apply IH in H as [H3 H4]. split; [by etrans|].
  intros k d. cbn. rewrite elem_of_app. intros [Hk|Hk]; [|by apply H4]. destruct (H2 k d Hk) as (s' & E & HR). exists s'. split; [done|by etrans].
Qed.

Lemma hashtab_map_each t args s :
  hashtab_map t apply args = (0, s) -> R args s /\ forall k d, (k, d) ∈ table_list t -> exists s1, (apply k d s1).1 = 0 /\ R (apply k d s1).2 s.
Proof.
  destruct t as [t|]; [apply slots_map_each|]. intros [= <-]. split; [done|by intros ?? ?%elem_of_nil].
Qed.
End MapEach.

(** A symbol table is indexed: [done_] holds for each of its entries. *)
Lemma index_symtab_each {D} sym (s : symtab D) f p m p' m' :
  (forall k d p, more_left (Some p) (f k d p).2) -> index_symtab sym s f p m = Some (0, p', m') ->
  indexes_more p p' /\ forall k d, (k, d) ∈ table_list (st_table s) -> exists p1 p2, f k d p1 = (0, Some p2) /\ indexes_more p2 p'.
Proof.
  intros Hf. unfold index_symtab. destruct (kalloc m) as [[] m1]; cbn [negb]; [|done]. destruct (kalloc m1) as [[] m2]; cbn [negb]; [|done].
  destruct (hashtab_map _ _ _) as [rc q] eqn:E. intros (q' & Eq & [= -> -> _])%bind_Some. subst q.
  apply (hashtab_map_each _ more_left) in E as [H1 H2].
  - split; [etrans; [|exact H1]; by split|]. intros k d Hk. destruct (H2 k d Hk) as ([p1|] & E1 & E2); [|done].
    cbn [on_policydb] in *. destruct (f k d p1) as [rc1 [p2|]] eqn:Ef; [|done]. cbn in E1. subst rc1. by exists p1, p2.
  - intros k d [q|]; [apply Hf|done].
Qed.

Lemma class_index_more k d p : more_left (Some p) (class_index k d p).2.
Proof. unfold class_index. index_more. Qed.
Lemma role_index_more k d p : more_left (Some p) (role_index k d p).2.
Proof. unfold role_index. index_more. Qed.
Lemma type_index_more k d p : more_left (Some p) (type_index k d p).2.
Proof. unfold type_index. index_more. Qed.
Lemma user_index_more k d p : more_left (Some p) (user_index k d p).2.
Proof. unfold user_index. index_more. Qed.
Lemma common_index_more k d p : more_left (Some p) (common_index k d p).2.
Proof. unfold common_index. index_more. Qed.
Lemma bool_index_more k d p : more_left (Some p) (cond_index_bool k d p).2.
Proof. unfold cond_index_bool. index_more. Qed.
Lemma sens_index_more k d p : more_left (Some p) (sens_index k d p).2.
Proof. unfold sens_index. index_more. Qed.
Lemma cat_index_more k d p : more_left (Some p) (cat_index k d p).2.
Proof. unfold cat_index. index_more. Qed.

(** The entry a successful call has made. *)
Lemma class_index_ptr k d p p' : class_index k d p = (0, Some p') -> class_val_to_struct p' !! Z.to_nat (u32 (cl_value d - 1)) = Some (Ptr d).
Proof.
  unfold class_index. destruct (out_of _ _); [done|]. destruct (_ ≫= _) as [q|] eqn:E; [|done]. intros [= <-].
  apply bind_Some in E as (p1 & _ & E). by apply bind_Some in E as (a & [_ H]%put_struct_ptr & [= <-]).
Qed.
Lemma role_index_ptr k d p p' : role_index k d p = (0, Some p') -> role_val_to_struct p' !! Z.to_nat (u32 (r_value d - 1)) = Some (Ptr d).
Proof.
  unfold role_index. destruct (_ || _); [done|]. destruct (_ ≫= _) as [q|] eqn:E; [|done]. intros [= <-].
  apply bind_Some in E as (p1 & _ & E). by apply bind_Some in E as (a & [_ H]%put_struct_ptr & [= <-]).
Qed.
Lemma type_index_ptr k d p p' : nz (t_primary d) = true -> type_index k d p = (0, Some p') ->
  type_val_to_struct_array p' !! Z.to_nat (u32 (t_value d - 1)) = Some (Ptr d).
Proof.
  unfold type_index. intros ->. destruct (_ || _); [done|]. destruct (_ ≫= _) as [q|] eqn:E; [|done]. intros [= <-].
  apply bind_Some in E as (p1 & _ & E). by apply bind_Some in E as (a & [_ H]%put_struct_ptr & [= <-]).
Qed.
Lemma user_index_ptr k d p p' : user_index k d p = (0, Some p') -> user_val_to_struct p' !! Z.to_nat (u32 (u_value d - 1)) = Some (Ptr d).
Proof.
  unfold user_index. destruct (_ || _); [done|]. destruct (_ ≫= _) as [q|] eqn:E; [|done]. intros [= <-].
  apply bind_Some in E as (p1 & _ & E). by apply bind_Some in E as (a & [_ H]%put_struct_ptr & [= <-]).
Qed.

(** After a successful [policydb_index] the value of every class, role, user and
    primary type leads to a datum. *)
Record index_filled (p0 p : policydb) : Prop := mk_index_filled {
  if_class : forall k d, (k, d) ∈ table_list (st_table (p_classes p0)) -> exists d', class_val_to_struct p !! Z.to_nat (u32 (cl_value d - 1)) = Some (Ptr d');
  if_role : forall k d, (k, d) ∈ table_list (st_table (p_roles p0)) -> exists d', role_val_to_struct p !! Z.to_nat (u32 (r_value d - 1)) = Some (Ptr d');
  if_type : forall k d, (k, d) ∈ table_list (st_table (p_types p0)) -> nz (t_primary d) = true ->
    exists d', type_val_to_struct_array p !! Z.to_nat (u32 (t_value d - 1)) = Some (Ptr d');
  if_user : forall k d, (k, d) ∈ table_list (st_table (p_users p0)) -> exists d', user_val_to_struct p !! Z.to_nat (u32 (u_value d - 1)) = Some (Ptr d')
}.

Lemma policydb_index_fills p0 m p m' : policydb_index p0 m = Some (0, p, m') -> index_filled p0 p.
Proof.
  unfold policydb_index, cond_init_bool_indexes.
  do 5 (destruct (kalloc m) as [[] m1]; cbn [negb]; [clear m; rename m1 into m|done]).
  destruct (kalloc m) as [[] m1]; cbn [negb]; [clear m; rename m1 into m|done]. change (nz 0) with false. cbv iota.
  match goal with |- context [index_symtab SYM_COMMONS _ _ ?q _] =>
    assert ((p_classes q, p_roles q, p_types q, p_users q) = (p_classes p0, p_roles p0, p_types p0, p_users p0)) as Ht by done; generalize dependent q end.
  intros q [= T1 T2 T3 T4] H.
  apply bind_Some in H as ([[rc1 p1] n1] & S1 & H). destruct (nz rc1) eqn:N1; [by injection H as -> _ _|]. apply nz_false in N1 as ->.
  apply index_symtab_each in S1 as [M1 F1]; [|apply common_index_more]. injection (im_tables _ _ M1) as _ C1 R1 Y1 U1 _ _ _.
  apply bind_Some in H as ([[rc2 p2] n2] & S2 & H). destruct (nz rc2) eqn:N2; [by injection H as -> _ _|]. apply nz_false in N2 as ->.
  apply index_symtab_each in S2 as [M2 F2]; [|apply class_index_more]. injection (im_tables _ _ M2) as _ C2 R2 Y2 U2 _ _ _.
  apply bind_Some in H as ([[rc3 p3] n3] & S3 & H). destruct (nz rc3) eqn:N3; [by injection H as -> _ _|]. apply nz_false in N3 as ->.
  apply index_symtab_each in S3 as [M3 F3]; [|apply role_index_more]. injection (im_tables _ _ M3) as _ C3 R3 Y3 U3 _ _ _.
  apply bind_Some in H as ([[rc4 p4] n4] & S4 & H). destruct (nz rc4) eqn:N4; [by injection H as -> _ _|]. apply nz_false in N4 as ->.
  apply index_symtab_each in S4 as [M4 F4]; [|apply type_index_more]. injection (im_tables _ _ M4) as _ C4 R4 Y4 U4 _ _ _.
  apply bind_Some in H as ([[rc5 p5] n5] & S5 & H). destruct (nz rc5) eqn:N5; [by injection H as -> _ _|]. apply nz_false in N5 as ->.
  apply index_symtab_each in S5 as [M5 F5]; [|apply user_index_more].
  apply bind_Some in H as ([[rc6 p6] n6] & S6 & H). destruct (nz rc6) eqn:N6; [by injection H as -> _ _|]. apply nz_false in N6 as ->.
  apply index_symtab_each in S6 as [M6 F6]; [|apply bool_index_more].
  apply bind_Some in H as ([[rc7 p7] n7] & S7 & H). destruct (nz rc7) eqn:N7; [by injection H as -> _ _|]. apply nz_false in N7 as ->.
  apply index_symtab_each in S7 as [M7 F7]; [|apply sens_index_more].
  apply index_symtab_each in H as [M8 _]; [|apply cat_index_more].
  assert (indexes_more p5 p) as L5 by (etrans; [exact M6|etrans; [exact M7|exact M8]]).
  assert (indexes_more p4 p) as L4 by by etrans. assert (indexes_more p3 p) as L3 by by etrans. assert (indexes_more p2 p) as L2 by by etrans.
  split; intros k d.
  - rewrite <- T1, <- C1. intros Hk. destruct (F2 k d Hk) as (q1 & q2 & E%class_index_ptr & L). by eapply (im_class q2 p); [etrans|].
  - rewrite <- T2, <- R1, <- R2. intros Hk. destruct (F3 k d Hk) as (q1 & q2 & E%role_index_ptr & L). by eapply (im_role q2 p); [etrans|].
  - rewrite <- T3, <- Y1, <- Y2, <- Y3. intros Hk Hp. destruct (F4 k d Hk) as (q1 & q2 & E%type_index_ptr & L); [|done]. by eapply (im_type q2 p); [etrans|].
  - rewrite <- T4, <- U1, <- U2, <- U3, <- U4. intros Hk. destruct (F5 k d Hk) as (q1 & q2 & E%user_index_ptr & L). by eapply (im_user q2 p); [etrans|].
Qed.

Lemma type_at_slot p v d :
  0 < v < 2 ^ 32 -> type_at p v = Some d -> type_val_to_struct_array p !! Z.to_nat (v - 1) = Some (Ptr d).
Proof.
  intros Hv. unfold type_at. rewrite flex_array_get_spec, u32_small by lia. destruct (_ !! _) as [[| |x]|]; try done. by intros [= ->].
Qed.

(** A policy with its arrays filled and its bounds checked. *)
Lemma types_bounded p0 p v d :
  values_ok p0 -> index_inv p0 p -> POLICYDB_VERSION_BOUNDARY <= policyvers p -> policydb_bounds_sanity_check p = Some 0 ->
  0 < v < 2 ^ 32 -> type_at p v = Some d ->
  t_value d = v /\ 0 <= t_bounds d <= ntypes p /\ exists n, (n <= bounds_rounds)%nat /\ type_depth p n v.
Proof.
  intros Hv Hi Hvers Hchk H0 Hd.
  pose proof (type_at_slot p v d H0 Hd) as Hslot. destruct (ii_type _ _ Hi _ _ Hslot) as (Hval & k & Hk).
  split; [lia|]. split.
  { split; [by eapply vo_bounds|]. unfold ntypes. rewrite (ii_types _ _ Hi). by eapply ii_bounds. }
  destruct (bounds_checked p Hchk Hvers) as (_ & _ & Ht). rewrite (ii_types _ _ Hi) in Ht. specialize (Ht k d Hk).
  apply bounds_loop_zero in Ht as (l & Hb & Hl & _). exists (length l). split; [done|]. by eapply bounded_by_depth.
Qed.

(** The sample data can be indexed. *)
Lemma values_in_decide {D} (s : symtab D) value :
  (st_nprim s <? 2 ^ 32) && forallb (fun kd => 0 <=? value kd.2) (table_list (st_table s)) = true -> values_in s value.
Proof.
  intros [Hn Hf]%andb_prop. split; [lia|]. intros k d Hk. rewrite forallb_forall in Hf. rewrite list_elem_of_In in Hk.
  specialize (Hf _ Hk). cbn in Hf. lia.
Qed.

Lemma sample_values : values_ok sample_data.
Proof. split; apply values_in_decide; vm_compute; reflexivity. Qed.

Lemma sample_index : exists m', policydb_index sample_data [] = Some (0, sample, m').
Proof.
  pose proof sample_indexed as H. unfold sample. destruct (policydb_index sample_data []) as [[[rc p] m']|]; [|done].
  cbn in H. injection H as ->. by exists m'.
Qed.

(** ** Properties *)

(** After [policydb_index] has returned 0, the arrays are indexes of the
    symbol tables: the datum found for a class, role, user, type or boolean
    value is one of the table's with this value, and so is the one with the
    name [sym_name] gives for the value, in each of the eight tables. *)
Theorem index_inverts_tables p0 m p m' :
  values_ok p0 -> sym_val_to_name p0 = replicate SYM_NUM None -> policydb_index p0 m = Some (0, p, m') -> index_inv p0 p.
Proof. apply policydb_index_inv. Qed.

Lemma index_inverts_tables_witness : exists m', policydb_index sample_data [] = Some (0, sample, m') /\ index_inv sample_data sample.
Proof.
  destruct sample_index as [m' H]. exists m'. split; [exact H|].
  apply (index_inverts_tables sample_data [] sample m'); [exact sample_values|vm_compute; reflexivity|exact H].
Defined.



(** In a policy [policydb_bounds_sanity_check] accepts, a bounded user has
    only roles that every user above it has, a bounded role only types that
    every role above it has, and no type is bounded by an attribute; each
    hierarchy has at most three levels above a datum. *)
Theorem bounds_check_sound p :
  policydb_bounds_sanity_check p = Some 0 -> POLICYDB_VERSION_BOUNDARY <= policyvers p ->
  (forall k d, (k, d) ∈ table_list (st_table (p_users p)) ->
     exists l, bounded_by u_bounds (index_deref (user_val_to_struct p)) d l /\ (length l <= 3)%nat /\
       Forall (fun up => forall b, b ∈ ebitmap_bits (u_roles d) -> ebitmap_get_bit (u_roles up) b = Some true) l) /\
  (forall k d, (k, d) ∈ table_list (st_table (p_roles p)) ->
     exists l, bounded_by r_bounds (index_deref (role_val_to_struct p)) d l /\ (length l <= 3)%nat /\
       Forall (fun up => forall b, b ∈ ebitmap_bits (r_types d) -> ebitmap_get_bit (r_types up) b = Some true) l) /\
  (forall k d, (k, d) ∈ table_list (st_table (p_types p)) ->
     exists l, bounded_by t_bounds (type_get p) d l /\ (length l <= 3)%nat /\ Forall (fun up => t_attribute up = 0) l).
Proof.
  intros Hchk Hvers. destruct (bounds_checked p Hchk Hvers) as (Hu & Hr & Ht). split; [|split]; intros k d Hk.
  - specialize (Hu k d Hk). apply bounds_loop_zero in Hu as (l & Hb & Hl & HF). exists l. split; [done|]. split; [done|].
    eapply Forall_impl; [exact HF|]. intros up. apply bits_bounded_true.
  - specialize (Hr k d Hk). apply bounds_loop_zero in Hr as (l & Hb & Hl & HF). exists l. split; [done|]. split; [done|].
    eapply Forall_impl; [exact HF|]. intros up. apply bits_bounded_true.
  - specialize (Ht k d Hk). apply bounds_loop_zero in Ht as (l & Hb & Hl & HF). exists l. split; [done|]. split; [done|].
    eapply Forall_impl; [exact HF|]. cbn. intros up [= ->%negb_true_iff%nz_false]. done.
Qed.

Lemma bounds_check_sound_witness :
  exists l, bounded_by t_bounds (type_get sample) (mk_type_datum 2 1 1 0) l /\ (length l <= 3)%nat /\ Forall (fun up => t_attribute up = 0) l.
Proof.
  apply (proj2 (proj2 (bounds_check_sound sample sample_bounds ltac:(vm_compute; congruence))) "user_t"%string).
  assert (exists i, table_list (st_table (p_types sample)) !! i = Some ("user_t"%string, mk_type_datum 2 1 1 0)) as [i Hi].
  { exists 3%nat. vm_compute. reflexivity. }
  by eapply list_elem_of_lookup_2.
Defined.
