(* ===== verification/ServicesSid.v ===== *)
(** * The security server: contexts and SIDs (security/selinux/ss/services.c)

    Conversion between contexts, their text and SIDs, and the computation of
    the SIDs of new subjects and objects.

    A buffer handed in with its length is the string of its bytes; the C string
    in it ends at its first NUL ([cstr]).  An output that is written only on
    some paths is an [option], [None] when it is left alone. *)

From Stdlib Require Import Ascii String.
From S2P Require Import Prelude Ebitmap Hashtab Context Sidtab Avtab Policydb Mls PolicydbOps Sample MlsText Conditional Classmap Services.

(** The C string at the start of a buffer. *)
Definition cstr (buf : string) : string := (scan (fun _ => false) buf).1.

(** ** From contexts to text *)

(** [want]: whether the caller passes a place for the string.  Result: [rc],
    [*scontext], [*scontext_len]. *)
Definition context_struct_to_string (p : policydb) (context : context) (want : bool) (m : kmem)
    : option (Z * option string * Z * kmem) :=
  if nz (c_len context) then
    if negb want then None
    else
      str ← c_str context;
      let '(ok, m) := kalloc m in
      if negb ok then Some (- ENOMEM, None, c_len context, m)
      else Some (0, Some str, c_len context, m)
  else
    user ← deref (sym_name p SYM_USERS (u32 (c_user context - 1)));
    role ← deref (sym_name p SYM_ROLES (u32 (c_role context - 1)));
    type ← deref (sym_name p SYM_TYPES (u32 (c_type context - 1)));
    mls_len ← mls_compute_context_len p context;
    let len := u32 (u32 (u32 (u32 (strlen user + 1) + (strlen role + 1)) + (strlen type + 1)) + mls_len) in
    if negb want then Some (0, None, len, m)
    else
      let '(ok, m) := kalloc m in
      if negb ok then Some (- ENOMEM, None, len, m)
      else
        mls ← mls_sid_to_context p context;
        Some (0, Some (user ++ ":" ++ role ++ ":" ++ type ++ mls)%string, len, m).

(** include/initial_sid_to_string.h *)
Definition initial_sid_to_string : list string :=
  ["null"; "kernel"; "security"; "unlabeled"; "fs"; "file"; "file_labels"; "init"; "any_socket";
   "port"; "netif"; "netmsg"; "node"; "igmp_packet"; "icmp_socket"; "tcp_socket";
   "sysctl_modprobe"; "sysctl"; "sysctl_fs"; "sysctl_kernel"; "sysctl_net"; "sysctl_net_unix";
   "sysctl_vm"; "sysctl_dev"; "kmod"; "policy"; "scmp_packet"; "devnull"]%string.

Definition security_get_initial_sid_context (sid : Z) : option string :=
  if SECINITSID_NUM <? sid then None else initial_sid_to_string !! Z.to_nat sid.

Definition security_sid_to_context_core (s : ss) (sid : Z) (want force : bool) (m : kmem)
    : option (Z * option string * Z * kmem) :=
  if negb (ss_initialized s) then
    if sid <=? SECINITSID_NUM then
      name ← initial_sid_to_string !! Z.to_nat sid;
      let len := strlen name + 1 in
      if negb want then Some (0, None, len, m)
      else
        let '(ok, m) := kalloc m in
        if negb ok then Some (- ENOMEM, None, len, m) else Some (0, Some name, len, m)
    else Some (- EINVAL, None, 0, m)
  else
    match (if force then sidtab_search_force (Some (ss_sidtab s)) sid
           else sidtab_search (Some (ss_sidtab s)) sid) with
    | None => Some (- EINVAL, None, 0, m)
    | Some context => context_struct_to_string (ss_policydb s) context want m
    end.

Definition security_sid_to_context (s : ss) (sid : Z) (want : bool) (m : kmem) :=
  security_sid_to_context_core s sid want false m.

Definition security_sid_to_context_force (s : ss) (sid : Z) (want : bool) (m : kmem) :=
  security_sid_to_context_core s sid want true m.

(** ** From text to contexts *)

(** [if ( *p == 0) goto out; *p++ = 0;] *)
Definition after_field (p : string) : option string :=
  match p with
  | EmptyString => None
  | String c p' => if is_nul c then None else Some p'
  end.

(** The fields of the context after [context_init], up to the check of the
    length; the last component is [p - scontext]. *)
Definition parse_context (pol : policydb) (sidtabp : option sidtab) (scontext : string) (def_sid : Z) (m : kmem)
    : option (Z * context * Z * kmem) :=
  let fail ctx := Some (- EINVAL, ctx, 0, m) in
  let '(user, p) := scan is_colon scontext in
  match after_field p with
  | None => fail context_init
  | Some p =>
      usrdatum ← hashtab_search (st_table (p_users pol)) user;
      match usrdatum with
      | None => fail context_init
      | Some usrdatum =>
          let ctx := set_c_user context_init (u_value usrdatum) in
          let '(role, p) := scan is_colon p in
          match after_field p with
          | None => fail ctx
          | Some p =>
              roledatum ← hashtab_search (st_table (p_roles pol)) role;
              match roledatum with
              | None => fail ctx
              | Some roledatum =>
                  let ctx := set_c_role ctx (r_value roledatum) in
                  let '(type, p) := scan is_colon p in
                  let '(oldc, p) :=
                    match p with
                    | EmptyString => (false, EmptyString)
                    | String c p' => (negb (is_nul c), p')
                    end in
                  typdatum ← hashtab_search (st_table (p_types pol)) type;
                  match typdatum with
                  | None => fail ctx
                  | Some typdatum =>
                      if nz (t_attribute typdatum) then fail ctx
                      else
                        let ctx := set_c_type ctx (t_value typdatum) in
                        '(rc, ctx, moved, m) ← mls_context_to_sid pol oldc p ctx sidtabp def_sid m;
                        let pos := strlen user + 1 + strlen role + 1 + strlen type + 1 in
                        Some (rc, ctx, pos + moved, m)
                  end
              end
          end
      end
  end.

Definition string_to_context_struct (pol : policydb) (sidtabp : option sidtab) (scontext : string)
    (scontext_len def_sid : Z) (m : kmem) : option (Z * context * kmem) :=
  '(rc, ctx, pos, m) ← parse_context pol sidtabp scontext def_sid m;
  if nz rc then Some (rc, context_destroy ctx, m)
  else if pos <? scontext_len then Some (- EINVAL, context_destroy ctx, m)
  else
    valid ← policydb_context_isvalid pol ctx;
    if negb valid then Some (- EINVAL, context_destroy ctx, m)
    else Some (0, ctx, m).

(** [for (i = 1; i < SECINITSID_NUM; i++)] *)
Fixpoint find_initial_sid (n : nat) (i : Z) (scontext : string) : option Z :=
  match n with
  | O => Some SECINITSID_KERNEL
  | S n' =>
      name ← initial_sid_to_string !! Z.to_nat i;
      if strcmp name scontext =? 0 then Some i else find_initial_sid n' (i + 1) scontext
  end.

(** [scontext]: the [scontext_len] bytes at [scontext].  Result: [rc], [*sid],
    the state. *)
Definition security_context_to_sid_core (s : ss) (scontext : string) (def_sid : Z) (force : bool) (m : kmem)
    : option (Z * Z * ss * kmem) :=
  let scontext_len := strlen scontext in
  if negb (ss_initialized s) then
    sid ← find_initial_sid (Z.to_nat (SECINITSID_NUM - 1)) 1 (cstr scontext);
    Some (0, sid, s, m)
  else
    let '(ok, m) := kalloc m in
    if negb ok then Some (- ENOMEM, SECSID_NULL, s, m)
    else
      let '(ok, m) := if force then kalloc m else (true, m) in
      if negb ok then Some (- ENOMEM, SECSID_NULL, s, m)
      else
        '(rc, context, m) ← string_to_context_struct (ss_policydb s) (Some (ss_sidtab s)) scontext scontext_len def_sid m;
        let '(rc, context) :=
          if (rc =? - EINVAL) && force then (0, set_c_str context scontext_len (Some (cstr scontext)))
          else (rc, context) in
        if nz rc then Some (rc, SECSID_NULL, s, m)
        else
          '(rc, sid, t, m) ← sidtab_context_to_sid (ss_sidtab s) context m;
          Some (rc, sid, set_ss_sidtab s t, m).

Definition security_context_to_sid (s : ss) (scontext : string) (m : kmem) :=
  security_context_to_sid_core s scontext SECSID_NULL false m.

Definition security_context_to_sid_default (s : ss) (scontext : string) (def_sid : Z) (m : kmem) :=
  security_context_to_sid_core s scontext def_sid true m.

Definition security_context_to_sid_force (s : ss) (scontext : string) (m : kmem) :=
  security_context_to_sid_core s scontext SECSID_NULL true m.

(** ** New subjects and objects *)

(** [compute_sid_handle_invalid_context], without the audit record. *)
Definition compute_sid_handle_invalid_context (s : ss) : Z := if negb (selinux_enforcing s) then 0 else - EACCES.

Fixpoint filename_compute_type (l : list filename_trans) (newcontext : context) (scon tcon tclass : Z) (name : string)
    : context :=
  match l with
  | [] => newcontext
  | ft :: next =>
      if (ft_stype ft =? scon) && (ft_ttype ft =? tcon) && (ft_tclass ft =? tclass) && (strcmp (ft_name ft) name =? 0)
      then set_c_type newcontext (ft_otype ft)
      else filename_compute_type next newcontext scon tcon tclass name
  end.

(** The type transition, member or change rule that applies. *)
Definition compute_sid_rule (p : policydb) (avkey : avtab_key) : option (option Z) :=
  avdatum ← avtab_search (te_avtab p) avkey;
  match avdatum with
  | Some d => Some (Some d)
  | None =>
      nodes ← avtab_for_each (te_cond_avtab p) avkey;
      Some (an_datum <$> List.find (fun n => nz (ak_specified (an_key n) .& AVTAB_ENABLED)) nodes)
  end.

Definition compute_sid_role (p : policydb) (scontext tcontext : context) (tclass specified role : Z) : Z :=
  if (tclass =? process_class p) && nz (specified .& AVTAB_TRANSITION) then
    match List.find (fun tr => (rt_role tr =? c_role scontext) && (rt_type tr =? c_type tcontext)) (role_tr p) with
    | Some tr => rt_new_role tr
    | None => role
    end
  else role.

(** [newcontext] before its MLS part is set. *)
Definition compute_sid_base (p : policydb) (scontext tcontext : context) (tclass specified : Z)
    (name : option string) (sock : bool) : option context :=
  let newcontext := context_init in
  let newcontext :=
    if (specified =? AVTAB_TRANSITION) || (specified =? AVTAB_CHANGE) then set_c_user newcontext (c_user scontext)
    else if specified =? AVTAB_MEMBER then set_c_user newcontext (c_user tcontext)
    else newcontext in
  let newcontext :=
    if (tclass =? process_class p) || sock
    then set_c_type (set_c_role newcontext (c_role scontext)) (c_type scontext)
    else set_c_type (set_c_role newcontext OBJECT_R_VAL) (c_type tcontext) in
  rule ← compute_sid_rule p (mk_avtab_key (u16 (c_type scontext)) (u16 (c_type tcontext)) tclass (u16 specified));
  let newcontext := match rule with Some d => set_c_type newcontext d | None => newcontext end in
  let newcontext :=
    match name with
    | Some n => filename_compute_type (filename_trans_list p) newcontext (c_type scontext) (c_type tcontext) tclass n
    | None => newcontext
    end in
  Some (set_c_role newcontext (compute_sid_role p scontext tcontext tclass specified (c_role newcontext))).

(** [name]: the string of [qstr].  Result: [rc], [*out_sid], the state. *)
Definition security_compute_sid (s : ss) (ssid tsid orig_tclass specified : Z) (name : option string) (kern : bool)
    (m : kmem) : option (Z * option Z * ss * kmem) :=
  let p := ss_policydb s in
  if negb (ss_initialized s) then
    Some (0, Some (if orig_tclass =? SECCLASS_PROCESS then ssid else tsid), s, m)
  else
    '(tclass, sock) ← (if kern then
                         tclass ← unmap_class s orig_tclass;
                         Some (tclass, security_is_socket_class orig_tclass)
                       else
                         k ← map_class s orig_tclass;
                         Some (orig_tclass, security_is_socket_class k));
    match sidtab_search (Some (ss_sidtab s)) ssid, sidtab_search (Some (ss_sidtab s)) tsid with
    | Some scontext, Some tcontext =>
        newcontext ← compute_sid_base p scontext tcontext tclass specified name sock;
        '(rc, newcontext, m) ← mls_compute_sid p scontext tcontext tclass specified newcontext sock m;
        if nz rc then Some (rc, None, s, m)
        else
          valid ← policydb_context_isvalid p newcontext;
          let rc := if (valid : bool) then 0 else compute_sid_handle_invalid_context s in
          if nz rc then Some (rc, None, s, m)
          else
            '(rc, sid, t, m) ← sidtab_context_to_sid (ss_sidtab s) newcontext m;
            Some (rc, Some sid, set_ss_sidtab s t, m)
    | _, _ => Some (- EINVAL, None, s, m)
    end.

Definition security_transition_sid (s : ss) (ssid tsid tclass : Z) (name : option string) (m : kmem) :=
  security_compute_sid s ssid tsid tclass AVTAB_TRANSITION name true m.

Definition security_transition_sid_user (s : ss) (ssid tsid tclass : Z) (m : kmem) :=
  security_compute_sid s ssid tsid tclass AVTAB_TRANSITION None false m.

Definition security_member_sid (s : ss) (ssid tsid tclass : Z) (m : kmem) :=
  security_compute_sid s ssid tsid tclass AVTAB_MEMBER None false m.

Definition security_change_sid (s : ss) (ssid tsid tclass : Z) (m : kmem) :=
  security_compute_sid s ssid tsid tclass AVTAB_CHANGE None false m.

(** ** Contexts as text *)

(** A name a context can be cut at, and the names of a context's parts. *)
Definition plain_name (s : string) : bool := str_all (fun c => negb (is_nul c || is_colon c)) s.

Record ctx_names (p : policydb) (c : context) (un rn tn : string) : Prop := mk_ctx_names {
  cn_user : sym_name p SYM_USERS (u32 (c_user c - 1)) = Ptr un;
  cn_role : sym_name p SYM_ROLES (u32 (c_role c - 1)) = Ptr rn;
  cn_type : sym_name p SYM_TYPES (u32 (c_type c - 1)) = Ptr tn;
  cn_users : exists d, hashtab_search (st_table (p_users p)) un = Some (Some d) /\ u_value d = c_user c;
  cn_roles : exists d, hashtab_search (st_table (p_roles p)) rn = Some (Some d) /\ r_value d = c_role c;
  cn_types : exists d, hashtab_search (st_table (p_types p)) tn = Some (Some d) /\ t_value d = c_type c /\ t_attribute d = 0;
  cn_plain : plain_name un = true /\ plain_name rn = true /\ plain_name tn = true;
  cn_levels : level_ok p (mr_low (c_range c)) /\ level_ok p (mr_high (c_range c))
}.

Definition ctx_text (p : policydb) (c : context) (un rn tn : string) : string :=
  (un ++ ":" ++ rn ++ ":" ++ tn ++ ":" ++ range_text p (c_range c))%string.

Lemma context_prints p c un rn tn m :
  mls_names p -> mls_enabled p = true -> c_len c = 0 -> ctx_names p c un rn tn ->
  exists len, context_struct_to_string p c true m =
    (let '(ok, m) := kalloc m in
     if negb ok then Some (- ENOMEM, None, len, m) else Some (0, Some (ctx_text p c un rn tn), len, m)).
Proof.
  intros Hn He Hl [Hu Hr Ht _ _ _ _ [H0 H1]]. pose proof (mls_print_text p c Hn He H0 H1) as Hp.
  unfold context_struct_to_string. rewrite Hl, Hu, Hr, Ht. change (nz 0) with false. cbn [deref mbind option_bind].
  pose proof (mls_len_print p c) as Hlen. rewrite Hp in Hlen. cbn [fmap option_fmap option_map] in Hlen. rewrite (bind_step _ _ _ Hlen).
  cbn [negb]. eexists. destruct (kalloc m) as [[] m1]; cbn [negb]; [|done]. by rewrite (bind_step _ _ _ Hp).
Qed.

Lemma scan_field name rest :
  plain_name name = true -> scan is_colon (name ++ ":" ++ rest)%string = (name, (":" ++ rest)%string).
Proof. intros H. by apply scan_stop. Qed.

Lemma after_colon rest : after_field (":" ++ rest)%string = Some rest.
Proof. done. Qed.

Lemma rest_colon rest :
  match (":" ++ rest)%string with EmptyString => (false, EmptyString) | String c p' => (negb (is_nul c), p') end = (true, rest).
Proof. done. Qed.

Lemma parse_context_spec p c un rn tn s d m :
  mls_names p -> mls_enabled p = true -> c_len c = 0 -> c_str c = None -> ctx_names p c un rn tn ->
  exists rc c' pos m', parse_context p s (ctx_text p c un rn tn) d m = Some (rc, c', pos, m') /\
    reads (c, strlen (ctx_text p c un rn tn) + 1) rc (c', pos).
Proof.
  intros Hn He Hl Hs [Hu Hr Ht (ud & Hud & Eu) (rd & Hrd & Er) (td & Htd & Et & Ha) (Pu & Pr & Pt) [H0 H1]].
  unfold parse_context, ctx_text. rewrite (scan_field un) by done. cbv beta iota. rewrite after_colon. cbv beta iota.
  rewrite (bind_step _ _ _ Hud), (scan_field rn) by done. cbv beta iota. rewrite after_colon. cbv beta iota.
  rewrite (bind_step _ _ _ Hrd), (scan_field tn) by done. rewrite rest_colon. cbv beta iota.
  rewrite (bind_step _ _ _ Htd), Ha. change (nz 0) with false. cbv iota.
  destruct (mls_read_text p (set_c_type (set_c_role (set_c_user context_init (u_value ud)) (r_value rd)) (t_value td)) (c_range c) s d m
              Hn He H0 H1 eq_refl) as (rc & c' & moved & m' & Hp & Hread).
  rewrite (bind_step _ _ _ Hp). do 4 eexists. split; [done|].
  destruct Hread as [[-> Hread]| ->]; [left|by right]. split; [done|]. injection Hread as -> ->. f_equal.
  - rewrite Eu, Er, Et. destruct c. cbn in *. by subst.
  - rewrite !strlen_app. change (strlen ":") with 1. lia.
Qed.

Lemma string_to_context_spec p c un rn tn s len d m :
  mls_names p -> mls_enabled p = true -> c_len c = 0 -> c_str c = None -> ctx_names p c un rn tn ->
  policydb_context_isvalid p c = Some true -> len <= strlen (ctx_text p c un rn tn) + 1 ->
  exists rc c' m', string_to_context_struct p s (ctx_text p c un rn tn) len d m = Some (rc, c', m') /\ reads c rc c'.
Proof.
  intros Hn He Hl Hs Hc Hv Hlen. destruct (parse_context_spec p c un rn tn s d m Hn He Hl Hs Hc) as (rc & c' & pos & m' & Hp & Hr).
  unfold string_to_context_struct. rewrite (bind_step _ _ _ Hp). destruct Hr as [[-> Hr]| ->].
  - injection Hr as -> ->. change (nz 0) with false. rewrite (proj2 (Z.ltb_ge _ _)) by done. rewrite (bind_step _ _ _ Hv).
    do 3 eexists. split; [done|]. by left.
  - do 3 eexists. split; [done|]. by right.
Qed.

(** *** With memory *)

Lemma parse_context_memory p s text d rc c pos m' :
  parse_context p s text d [] = Some (rc, c, pos, m') -> rc <> - ENOMEM /\ m' = [].
Proof.
  unfold parse_context. destruct (scan is_colon text) as [user p1]. destruct (after_field p1) as [p2|]; [|by intros [= <- _ _ <-]].
  intros ([usr|] & _ & H)%bind_Some; [|by injection H as <- _ _ <-]. destruct (scan is_colon p2) as [role p3].
  destruct (after_field p3) as [p4|]; [|by injection H as <- _ _ <-]. apply bind_Some in H as ([rd|] & _ & H); [|by injection H as <- _ _ <-].
  destruct (scan is_colon p4) as [type p5]. destruct (match p5 with EmptyString => _ | String c p' => _ end) as [oldc p6].
  apply bind_Some in H as ([td|] & _ & H); [|by injection H as <- _ _ <-]. destruct (nz (t_attribute td)); [by injection H as <- _ _ <-|].
  apply bind_Some in H as ([[[r1 c1] mv] m1] & Hm & H). injection H as <- _ _ <-. by eapply mls_to_sid_memory.
Qed.

Lemma string_to_context_memory p s text len d rc c m' :
  string_to_context_struct p s text len d [] = Some (rc, c, m') -> rc <> - ENOMEM /\ m' = [].
Proof.
  unfold string_to_context_struct. intros ([[[rc1 c1] pos] m1] & E & H)%bind_Some. apply parse_context_memory in E as [Hr ->].
  destruct (nz rc1); [by injection H as <- _ <-|]. destruct (_ <? _); [by injection H as <- _ <-|].
  apply bind_Some in H as ([] & _ & H); by injection H as <- _ <-.
Qed.

(** ** Properties *)

(** C39: [context_struct_to_string] reports the size of exactly the buffer the
    text and its NUL need, so that the [sprintf] and the MLS part written
    behind it stay inside the allocation. *)
Theorem context_string_fits p c m text len m' :
  c_len c = 0 -> context_struct_to_string p c true m = Some (0, Some text, len, m') -> len = u32 (strlen text + 1).
Proof.
  intros Hl. unfold context_struct_to_string. rewrite Hl. change (nz 0) with false. cbv iota. intros H.
  apply bind_Some in H as (user & _ & H). apply bind_Some in H as (role & _ & H). apply bind_Some in H as (type & _ & H).
  rewrite mls_len_print in H. destruct (mls_sid_to_context p c) as [mls|] eqn:E; [|done]. cbn [fmap option_fmap option_map mbind option_bind negb] in H.
  destruct (kalloc m) as [[] m1]; cbn [negb] in H; [|done]. injection H as <- <- _.
  rewrite !strlen_app. change (strlen ":") with 1.
  set (a := strlen user). set (b := strlen role). set (d := strlen type). set (l := strlen mls). clearbody a b d l.
  rewrite !u32_add_l, <- (u32_add_r _ (s32 l)), u32_s32, u32_add_r, <- Z.add_assoc, u32_add_l.
  match goal with |- u32 ?x = u32 ?y => by replace x with y by lia end.
Qed.

Lemma context_string_fits_witness :
  exists text len m', context_struct_to_string sample user_ctx true [] = Some (0, Some text, len, m') /\
    text = "root:staff_r:user_t:s0-s1:c0.c2,c4"%string /\ len = u32 (strlen text + 1).
Proof.
  do 3 eexists. split; [vm_compute; reflexivity|]. split; [reflexivity|].
  eapply (context_string_fits sample user_ctx []); [reflexivity|vm_compute; reflexivity].
Defined.

(** A context that a SID stands for is found again. *)
Lemma search_not_missed t sid c : sidtab_wf t -> sidtab_search (Some t) sid = Some c -> str_ok c -> ~ search_miss t c.
Proof.
  intros Hw. unfold sidtab_search. rewrite search_core_spec by apply Hw. unfold search_spec. intros Hs Hc Hm.
  assert (exists i, sidtab_abs t !! i = Some c) as [i Hi].
  { destruct (sidtab_abs t !! sid) as [c0|] eqn:E; [|by eexists]. destruct (_ && _); [by eexists|]. exists sid. congruence. }
  apply Hm in Hi. rewrite context_cmp_refl in Hi by exact Hc. done.
Qed.


Lemma insert_wf s sid ctx : sidtab_wf s -> 0 < sid < UINT_MAX -> str_ok ctx -> sidtab_wf (sidtab_insert s sid ctx []).1.2.
Proof.
  intros Hw Hs Hc. pose proof (sidtab_insert_spec s sid ctx [] Hw Hs) as H. destruct (sidtab_insert s sid ctx []) as [[rc s'] m'].
  cbn [fst snd]. destruct H as [(_ & _ & H & _)|[(_ & _ & ->)|(_ & ->)]]; done.
Qed.

Lemma sample_sids_wf : sidtab_wf sample_sids.
Proof. apply insert_wf; [apply insert_wf; [exact empty_sids_wf|done|discriminate]|done|discriminate]. Qed.

Lemma user_ctx_names : ctx_names sample user_ctx "root" "staff_r" "user_t".
Proof.
  split.
  - vm_compute. reflexivity.
  - vm_compute. reflexivity.
  - vm_compute. reflexivity.
  - eexists. split; vm_compute; reflexivity.
  - eexists. split; vm_compute; reflexivity.
  - eexists. split; [vm_compute; reflexivity|split; reflexivity].
  - split; [reflexivity|split; reflexivity].
  - split; apply sample_level_ok; [lia|constructor|lia|repeat constructor; lia].
Qed.


(** ** Where the code departs from its intent *)

(** A zero-length context set by force is not recognised as unmapped, since its
    [len] is 0: it gets a SID whose context has user, role and type 0, and
    printing it takes the name of user [0 - 1], a null pointer. *)
Theorem empty_context_crashes :
  exists sid s', security_context_to_sid_force sample_ss EmptyString [] = Some (0, sid, s', []) /\
    security_sid_to_context s' sid true [] = None.
Proof.
  assert ((fun r => r.1.1) <$> security_context_to_sid_force sample_ss EmptyString [] = Some (0, 3)) as Hr by (vm_compute; reflexivity).
  assert ((fun r => r.2) <$> security_context_to_sid_force sample_ss EmptyString [] = Some []) as Hm by (vm_compute; reflexivity).
  assert (security_context_to_sid_force sample_ss EmptyString [] ≫= (fun r => security_sid_to_context r.1.2 3 true []) = None)
    as Hp by (vm_compute; reflexivity).
  destruct (security_context_to_sid_force sample_ss EmptyString []) as [[[[rc sid] s'] m]|]; [|done].
  cbn in Hr, Hm, Hp. injection Hr as -> ->. injection Hm as ->. by exists 3, s'.
Qed.

(** Before a policy is loaded every initial SID has its name as its context,
    but the search for a name leaves out the last one. *)
Theorem last_initial_sid_not_found s m :
  ss_initialized s = false ->
  security_sid_to_context s SECINITSID_NUM true [] = Some (0, Some "devnull"%string, 8, []) /\
  security_context_to_sid s "devnull" m = Some (0, SECINITSID_KERNEL, s, m).
Proof.
  intros Hi. unfold security_sid_to_context, security_sid_to_context_core, security_context_to_sid, security_context_to_sid_core.
  rewrite Hi. cbn [negb]. split; [vm_compute; reflexivity|].
  by rewrite (bind_step _ _ _ (eq_refl : find_initial_sid (Z.to_nat (SECINITSID_NUM - 1)) 1 (cstr "devnull") = Some SECINITSID_KERNEL)).
Qed.
