(* ===== verification/ServicesObj.v ===== *)
(** * The security server: object contexts, booleans, conversion (security/selinux/ss/services.c)

    The SIDs of ports, interfaces, nodes and file systems (computed on first
    use and kept in the policy's [ocontext] records), the booleans, peer
    labels, and the conversion of the SID table to a new policy. *)

From Stdlib Require Import Ascii String.
From S2P Require Import Prelude Ebitmap Hashtab Context Sidtab Avtab Policydb Mls PolicydbOps Sample Conditional Classmap Services ServicesSid.

(** ** Object contexts *)

(** The loop for the first record that matches: the records before it, the
    record, and the records after it. *)
Fixpoint ocon_find (f : ocontext -> bool) (l : list ocontext)
    : option (list ocontext * ocontext * list ocontext) :=
  match l with
  | [] => None
  | c :: next =>
      if f c then Some ([], c, next)
      else match ocon_find f next with
           | Some (before, c', after) => Some (c :: before, c', after)
           | None => None
           end
  end.

Definition set_oc_sid0 (c : ocontext) (v : Z) : ocontext :=
  mk_ocontext (oc_u c) (oc_v c) (oc_context0 c) (oc_context1 c) v (oc_sid1 c).
Definition set_oc_sid1 (c : ocontext) (v : Z) : ocontext :=
  mk_ocontext (oc_u c) (oc_v c) (oc_context0 c) (oc_context1 c) (oc_sid0 c) v.

(** [if (!c->sid[0]) rc = sidtab_context_to_sid(&sidtab, &c->context[0], &c->sid[0]);] *)
Definition fill_sid0 (s : ss) (c : ocontext) (m : kmem) : option (Z * ocontext * ss * kmem) :=
  if negb (nz (oc_sid0 c)) then
    '(rc, sid, t, m) ← sidtab_context_to_sid (ss_sidtab s) (oc_context0 c) m;
    Some (rc, set_oc_sid0 c sid, set_ss_sidtab s t, m)
  else Some (0, c, s, m).

Definition put_ocontexts (s : ss) (i : nat) (l : list ocontext) : ss :=
  set_ss_policydb s (set_ocontexts (ss_policydb s) (<[i := l]> (ocontexts (ss_policydb s)))).

Definition ocontexts_at (s : ss) (i : nat) : list ocontext := nth i (ocontexts (ss_policydb s)) [].

(** What the functions below do with the record they found; [dflt] is the SID
    when there is none.  Result: [rc], the SID, the state. *)
Definition ocon_sid (s : ss) (i : nat) (f : ocontext -> bool) (dflt : Z) (m : kmem)
    : option (Z * option Z * ss * kmem) :=
  match ocon_find f (ocontexts_at s i) with
  | None => Some (0, Some dflt, s, m)
  | Some (before, c, after) =>
      '(rc, c, s, m) ← fill_sid0 s c m;
      let s := put_ocontexts s i (before ++ c :: after) in
      if nz rc then Some (rc, None, s, m) else Some (0, Some (oc_sid0 c), s, m)
  end.

Definition port_match (protocol port : Z) (c : ocontext) : bool :=
  match oc_u c with
  | OPort pr lo hi => (pr =? protocol) && (lo <=? port) && (port <=? hi)
  | _ => false
  end.

Definition security_port_sid (s : ss) (protocol port : Z) (m : kmem) :=
  ocon_sid s OCON_PORT (port_match protocol port) SECINITSID_PORT m.

Definition name_match (name : string) (c : ocontext) : bool :=
  match oc_u c with OName n => strcmp name n =? 0 | _ => false end.

Definition security_netif_sid (s : ss) (name : string) (m : kmem) : option (Z * option Z * ss * kmem) :=
  match ocon_find (name_match name) (ocontexts_at s OCON_NETIF) with
  | None => Some (0, Some SECINITSID_NETIF, s, m)
  | Some (before, c, after) =>
      let put s c := put_ocontexts s OCON_NETIF (before ++ c :: after) in
      if negb (nz (oc_sid0 c)) || negb (nz (oc_sid1 c)) then
        '(rc, sid, t, m) ← sidtab_context_to_sid (ss_sidtab s) (oc_context0 c) m;
        let c := set_oc_sid0 c sid in
        let s := set_ss_sidtab s t in
        if nz rc then Some (rc, None, put s c, m)
        else
          '(rc, sid, t, m) ← sidtab_context_to_sid (ss_sidtab s) (oc_context1 c) m;
          let c := set_oc_sid1 c sid in
          let s := set_ss_sidtab s t in
          if nz rc then Some (rc, None, put s c, m) else Some (0, Some (oc_sid0 c), put s c, m)
      else Some (0, Some (oc_sid0 c), s, m)
  end.

Definition match_ipv6_addrmask (input addr mask : list Z) : bool :=
  forallb (fun i => nth i addr 0 =? nth i input 0 .& nth i mask 0) [0%nat; 1%nat; 2%nat; 3%nat].

Definition AF_INET : Z := 2.
Definition AF_INET6 : Z := 10.

(** [addr]: the words at [addrp]. *)
Definition security_node_sid (s : ss) (domain : Z) (addr : list Z) (addrlen : Z) (m : kmem)
    : option (Z * option Z * ss * kmem) :=
  if domain =? AF_INET then
    if negb (addrlen =? 4) then Some (- EINVAL, None, s, m)
    else
      ocon_sid s OCON_NODE
        (fun c => match oc_u c with ONode a mask => a =? nth 0 addr 0 .& mask | _ => false end)
        SECINITSID_NODE m
  else if domain =? AF_INET6 then
    if negb (addrlen =? 16) then Some (- EINVAL, None, s, m)
    else
      ocon_sid s OCON_NODE6
        (fun c => match oc_u c with ONode6 a mask => match_ipv6_addrmask addr a mask | _ => false end)
        SECINITSID_NODE m
  else Some (0, Some SECINITSID_NODE, s, m).

(** [while (path[0] == '/' && path[1] == '/') path++;] *)
Fixpoint skip_slashes (path : string) : string :=
  match path with
  | String c p => 
      match p with
      | String c' _ => if is_char 47 c && is_char 47 c' then skip_slashes p else path
      | EmptyString => path
      end
  | EmptyString => path
  end.

(** The record of a file system: its name compared with the sorted list. *)
Fixpoint genfs_find (fstype : string) (l : list genfs) : option (list genfs * genfs * list genfs) :=
  match l with
  | [] => None
  | g :: next =>
      if strcmp fstype (g_fstype g) <=? 0 then
        if strcmp fstype (g_fstype g) =? 0 then Some ([], g, next) else None
      else match genfs_find fstype next with
           | Some (before, g', after) => Some (g :: before, g', after)
           | None => None
           end
  end.

(** [strncmp(name, path, strlen(name)) == 0]: [name] is a prefix of [path]. *)
Definition genfs_match (sclass : Z) (path : string) (c : ocontext) : bool :=
  match oc_u c with
  | OName name => (negb (nz (oc_v c)) || (sclass =? oc_v c)) && String.prefix name path
  | _ => false
  end.

(** Result: [rc], [*sid], the state. *)
Definition security_genfs_sid (s : ss) (fstype path : string) (orig_sclass : Z) (m : kmem)
    : option (Z * Z * ss * kmem) :=
  let path := skip_slashes path in
  sclass ← unmap_class s orig_sclass;
  match genfs_find fstype (genfs_list (ss_policydb s)) with
  | None => Some (- ENOENT, SECINITSID_UNLABELED, s, m)
  | Some (gbefore, g, gafter) =>
      match ocon_find (genfs_match sclass path) (g_head g) with
      | None => Some (- ENOENT, SECINITSID_UNLABELED, s, m)
      | Some (before, c, after) =>
          '(rc, c, s, m) ← fill_sid0 s c m;
          let g := mk_genfs (g_fstype g) (before ++ c :: after) in
          let s := set_ss_policydb s (set_genfs_list (ss_policydb s) (gbefore ++ g :: gafter)) in
          if nz rc then Some (rc, SECINITSID_UNLABELED, s, m) else Some (0, oc_sid0 c, s, m)
      end
  end.

(** Result: [rc], [*behavior], [*sid], the state. *)
Definition security_fs_use (s : ss) (fstype : string) (m : kmem) : option (Z * Z * option Z * ss * kmem) :=
  match ocon_find (name_match fstype) (ocontexts_at s OCON_FSUSE) with
  | Some (before, c, after) =>
      '(rc, c', s, m) ← fill_sid0 s c m;
      let s := put_ocontexts s OCON_FSUSE (before ++ c' :: after) in
      if nz rc then Some (rc, oc_v c, None, s, m) else Some (0, oc_v c, Some (oc_sid0 c'), s, m)
  | None =>
      '(rc, sid, s, m) ← security_genfs_sid s fstype "/" SECCLASS_DIR m;
      Some (0, if nz rc then SECURITY_FS_USE_NONE else SECURITY_FS_USE_GENFS, Some sid, s, m)
  end.

(** ** Booleans *)

(** The loop of [security_get_bools]; [n] booleans are left. *)
Fixpoint get_bools_loop (p : policydb) (n : nat) (i : Z) (m : kmem)
    : option (Z * list string * list Z * kmem) :=
  match n with
  | O => Some (0, [], [], m)
  | S n' =>
      value ← bool_state p (i + 1);
      name ← deref (sym_name p SYM_BOOLS i);
      let '(ok, m) := kalloc m in
      if negb ok then Some (- ENOMEM, [], [], m)
      else
        '(rc, names, values, m) ← get_bools_loop p n' (i + 1) m;
        Some (rc, name :: names, value :: values, m)
  end.

(** Result: [rc], the names and the values (meaningful when it is 0). *)
Definition security_get_bools (s : ss) (m : kmem) : option (Z * list string * list Z * kmem) :=
  let n := st_nprim (p_bools (ss_policydb s)) in
  if n =? 0 then Some (0, [], [], m)
  else
    let '(ok, m) := kalloc m in
    if negb ok then Some (- ENOMEM, [], [], m)
    else
      let '(ok, m) := kalloc m in
      if negb ok then Some (- ENOMEM, [], [], m)
      else get_bools_loop (ss_policydb s) (Z.to_nat n) 0 m.

(** [p->bool_val_to_struct[i]->state = v] *)
Definition put_bool_state (p : policydb) (loc : nat) (v : Z) : option policydb :=
  d ← bool_store p !! loc;
  Some (set_bool_store p (<[loc := mk_cond_bool_datum (cb_value d) v]> (bool_store p))).

Fixpoint set_bools_loop (p : policydb) (i : Z) (values : list Z) : option policydb :=
  match values with
  | [] => Some p
  | v :: values' =>
      loc ← index_deref (bool_val_to_struct p) i;
      p ← put_bool_state p loc (if nz v then 1 else 0);
      set_bools_loop p (i + 1) values'
  end.

(** [evaluate_cond_node] for every conditional of the policy. *)
Definition evaluate_conds (p : policydb) : option policydb :=
  '(p, l) ← evaluate_cond_list p (cond_list p);
  Some (set_cond_list p l).

(** Result: [rc], the state, and the sequence number [avc_ss_reset] and the
    other parts of the kernel are told. *)
Definition security_set_bools (s : ss) (values : list Z) : option (Z * ss * option Z) :=
  let p := ss_policydb s in
  if negb (Z.of_nat (length values) =? st_nprim (p_bools p)) then Some (- EFAULT, s, None)
  else
    p ← set_bools_loop p 0 values;
    p ← evaluate_conds p;
    let seqno := u32 (latest_granting s + 1) in
    Some (0, mk_ss p (ss_sidtab s) (ss_initialized s) seqno (current_mapping s) (current_mapping_size s)
               (selinux_enforcing s) (selinux_policycap_netpeer s) (selinux_policycap_openperm s), Some seqno).

Definition security_get_bool_value (s : ss) (b : Z) : option Z :=
  if s32 (st_nprim (p_bools (ss_policydb s))) <=? b then Some (- EFAULT)
  else
    loc ← index_deref (bool_val_to_struct (ss_policydb s)) b;
    d ← bool_store (ss_policydb s) !! loc;
    Some (cb_state d).

(** The states the old policy's booleans have in the new one. *)
Fixpoint preserve_loop (p : policydb) (names : list string) (values : list Z) : option policydb :=
  match names, values with
  | name :: names', value :: values' =>
      r ← hashtab_search (st_table (p_bools p)) name;
      p ← (match r with Some loc => put_bool_state p loc value | None => Some p end);
      preserve_loop p names' values'
  | _, _ => Some p
  end.

Definition security_preserve_bools (s : ss) (p : policydb) (m : kmem) : option (Z * policydb * kmem) :=
  '(rc, names, values, m) ← security_get_bools s m;
  if nz rc then Some (rc, p, m)
  else
    p ← preserve_loop p names values;
    p ← evaluate_conds p;
    Some (0, p, m).

(** ** Labels of peers *)

(** [convert_context_handle_invalid_context], without the message. *)
Definition convert_context_handle_invalid_context (s : ss) : Z := if selinux_enforcing s then - EINVAL else 0.

(** Result: [rc], [*new_sid], the state. *)
Definition security_sid_mls_copy (s : ss) (sid mls_sid : Z) (m : kmem) : option (Z * option Z * ss * kmem) :=
  if negb (ss_initialized s) || negb (mls_enabled (ss_policydb s)) then Some (0, Some sid, s, m)
  else
    match sidtab_search (Some (ss_sidtab s)) sid, sidtab_search (Some (ss_sidtab s)) mls_sid with
    | Some context1, Some context2 =>
        let newcon := set_c_type (set_c_role (set_c_user context_init (c_user context1)) (c_role context1)) (c_type context1) in
        let '(rc, newcon, m) := mls_context_cpy newcon context2 m in
        if nz rc then Some (rc, None, s, m)
        else
          valid ← policydb_context_isvalid (ss_policydb s) newcon;
          let rc := if (valid : bool) then 0 else convert_context_handle_invalid_context s in
          if nz rc then Some (rc, None, s, m)
          else
            '(rc, new_sid, t, m) ← sidtab_context_to_sid (ss_sidtab s) newcon m;
            Some (rc, Some new_sid, set_ss_sidtab s t, m)
    | _, _ => Some (- EINVAL, None, s, m)
    end.

Definition NETLBL_NLTYPE_UNLABELED : Z := 5.

(** Result: [rc], [*peer_sid]. *)
Definition security_net_peersid_resolve (s : ss) (nlbl_sid nlbl_type xfrm_sid : Z) : Z * Z :=
  if xfrm_sid =? SECSID_NULL then (0, nlbl_sid)
  else if (nlbl_sid =? SECSID_NULL) || (nlbl_type =? NETLBL_NLTYPE_UNLABELED) then (0, xfrm_sid)
  else if negb (mls_enabled (ss_policydb s)) then (0, SECSID_NULL)
  else
    match sidtab_search (Some (ss_sidtab s)) nlbl_sid, sidtab_search (Some (ss_sidtab s)) xfrm_sid with
    | Some nlbl_ctx, Some xfrm_ctx =>
        if mls_context_cmp nlbl_ctx xfrm_ctx then (0, xfrm_sid) else (- EACCES, SECSID_NULL)
    | _, _ => (- EINVAL, SECSID_NULL)
    end.

(** ** Queries *)

Definition security_get_reject_unknown (s : ss) : bool := reject_unknown (ss_policydb s).
Definition security_get_allow_unknown (s : ss) : bool := allow_unknown (ss_policydb s).
Definition security_policydb_len (s : ss) : Z := pd_len (ss_policydb s).
Definition security_policycap_supported (s : ss) (req_cap : Z) : option bool :=
  ebitmap_get_bit (policycaps (ss_policydb s)) req_cap.

Definition POLICYDB_CAPABILITY_NETPEER : Z := 0.
Definition POLICYDB_CAPABILITY_OPENPERM : Z := 1.

Definition security_load_policycaps (s : ss) : option ss :=
  netpeer ← security_policycap_supported s POLICYDB_CAPABILITY_NETPEER;
  openperm ← security_policycap_supported s POLICYDB_CAPABILITY_OPENPERM;
  Some (mk_ss (ss_policydb s) (ss_sidtab s) (ss_initialized s) (latest_granting s) (current_mapping s)
          (current_mapping_size s) (selinux_enforcing s) netpeer openperm).

(** [classes[value] = kstrdup(name)], run over a table of names by
    [hashtab_map]; the state holds the array and the memory, [None] after a
    store outside the array. *)
Definition get_names_callback (value : Z) (name : string) (args : option (list (ptr string) * kmem))
    : Z * option (list (ptr string) * kmem) :=
  match args with
  | None => (- EFAULT, None)
  | Some (names, m) =>
      let i := s32 (u32 (value - 1)) in
      if (0 <=? i) && (i <? Z.of_nat (length names)) then
        let '(ok, m) := kalloc m in
        if negb ok then (- ENOMEM, Some (<[Z.to_nat i := Null]> names, m))
        else (0, Some (<[Z.to_nat i := Ptr name]> names, m))
      else (- EFAULT, None)
  end.

Definition get_classes_callback (k : string) (datum : class_datum) := get_names_callback (cl_value datum) k.
Definition get_permissions_callback (k : string) (datum : perm_datum) := get_names_callback (pm_value datum) k.

(** Result: [rc], and the array when it is 0. *)
Definition security_get_classes (s : ss) (m : kmem) : option (Z * list (ptr string) * kmem) :=
  let nclasses := st_nprim (p_classes (ss_policydb s)) in
  let '(ok, m) := kalloc m in
  if negb ok then Some (- ENOMEM, [], m)
  else
    let '(rc, r) := hashtab_map (st_table (p_classes (ss_policydb s))) get_classes_callback
                                (Some (replicate (Z.to_nat nclasses) Null, m)) in
    '(names, m) ← r;
    Some (rc, if nz rc then [] else names, m).

Definition security_get_permissions (s : ss) (class : string) (m : kmem) : option (Z * list (ptr string) * kmem) :=
  r ← hashtab_search (st_table (p_classes (ss_policydb s))) class;
  match r with
  | None => Some (- EINVAL, [], m)
  | Some cladatum =>
      let nperms := st_nprim (cl_permissions cladatum) in
      let '(ok, m) := kalloc m in
      if negb ok then Some (- ENOMEM, [], m)
      else
        let perms := replicate (Z.to_nat nperms) Null in
        let '(rc, r) :=
          match cl_comdatum cladatum with
          | Some comdatum =>
              hashtab_map (st_table (cm_permissions comdatum)) get_permissions_callback (Some (perms, m))
          | None => (0, Some (perms, m))
          end in
        '(perms, m) ← r;
        if nz rc then Some (rc, [], m)
        else
          let '(rc, r) := hashtab_map (st_table (cl_permissions cladatum)) get_permissions_callback (Some (perms, m)) in
          '(perms, m) ← r;
          Some (rc, if nz rc then [] else perms, m)
  end.

(** ** Audit rules *)

Definition EOPNOTSUPP : Z := 95.
Definition ESTALE : Z := 116.

Definition AUDIT_SUBJ_USER : Z := 13.
Definition AUDIT_SUBJ_ROLE : Z := 14.
Definition AUDIT_SUBJ_TYPE : Z := 15.
Definition AUDIT_SUBJ_SEN : Z := 16.
Definition AUDIT_SUBJ_CLR : Z := 17.
Definition AUDIT_OBJ_USER : Z := 19.
Definition AUDIT_OBJ_ROLE : Z := 20.
Definition AUDIT_OBJ_TYPE : Z := 21.
Definition AUDIT_OBJ_LEV_LOW : Z := 22.
Definition AUDIT_OBJ_LEV_HIGH : Z := 23.

(** include/linux/audit.h: [Audit_equal] and so on. *)
Inductive audit_op := Audit_equal | Audit_not_equal | Audit_bitmask | Audit_bittest
                    | Audit_lt | Audit_gt | Audit_le | Audit_ge | Audit_bad.

Record selinux_audit_rule := mk_selinux_audit_rule {
  au_seqno : Z;
  au_ctxt : context
}.

Definition field_in (field : Z) (l : list Z) : bool := existsb (Z.eqb field) l.

Definition is_user_field (field : Z) : bool := field_in field [AUDIT_SUBJ_USER; AUDIT_OBJ_USER].
Definition is_role_field (field : Z) : bool := field_in field [AUDIT_SUBJ_ROLE; AUDIT_OBJ_ROLE].
Definition is_type_field (field : Z) : bool := field_in field [AUDIT_SUBJ_TYPE; AUDIT_OBJ_TYPE].
Definition is_level_field (field : Z) : bool :=
  field_in field [AUDIT_SUBJ_SEN; AUDIT_SUBJ_CLR; AUDIT_OBJ_LEV_LOW; AUDIT_OBJ_LEV_HIGH].

(** Result: [rc] and [*vrule]. *)
Definition selinux_audit_rule_init (s : ss) (field : Z) (op : audit_op) (rulestr : string) (m : kmem)
    : option (Z * option selinux_audit_rule * kmem) :=
  let p := ss_policydb s in
  let fits := match op with Audit_equal | Audit_not_equal => true | _ => false end in
  if negb (ss_initialized s) then Some (- EOPNOTSUPP, None, m)
  else if is_user_field field || is_role_field field || is_type_field field || is_level_field field then
    if negb (is_level_field field) && negb fits then Some (- EINVAL, None, m)
    else if is_level_field field && nz (strlen (scan is_dash rulestr).2) then Some (- EINVAL, None, m)
    else
      let '(ok, m) := kalloc m in
      if negb ok then Some (- ENOMEM, None, m)
      else
        let rule c := Some (mk_selinux_audit_rule (latest_granting s) c) in
        if is_user_field field then
          r ← hashtab_search (st_table (p_users p)) rulestr;
          match r with
          | None => Some (- EINVAL, None, m)
          | Some d => Some (0, rule (set_c_user context_init (u_value d)), m)
          end
        else if is_role_field field then
          r ← hashtab_search (st_table (p_roles p)) rulestr;
          match r with
          | None => Some (- EINVAL, None, m)
          | Some d => Some (0, rule (set_c_role context_init (r_value d)), m)
          end
        else if is_type_field field then
          r ← hashtab_search (st_table (p_types p)) rulestr;
          match r with
          | None => Some (- EINVAL, None, m)
          | Some d => Some (0, rule (set_c_type context_init (t_value d)), m)
          end
        else
          '(rc, c, m) ← mls_from_string p rulestr context_init m;
          Some (rc, if nz rc then None else rule c, m)
  else Some (- EINVAL, None, m).

(** [fields]: the types of the fields of the rule. *)
Definition selinux_audit_rule_known (fields : list Z) : bool :=
  existsb (fun f => is_user_field f || is_role_field f || is_type_field f || is_level_field f) fields.

(** The comparisons that make sense for names and for levels. *)
Definition audit_match_value (op : audit_op) (x y : Z) : bool :=
  match op with
  | Audit_equal => x =? y
  | Audit_not_equal => negb (x =? y)
  | _ => false
  end.

Definition audit_match_level (op : audit_op) (rule level : mls_level) : bool :=
  match op with
  | Audit_equal => mls_level_eq rule level
  | Audit_not_equal => negb (mls_level_eq rule level)
  | Audit_lt => mls_level_dom rule level && negb (mls_level_eq rule level)
  | Audit_le => mls_level_dom rule level
  | Audit_gt => mls_level_dom level rule && negb (mls_level_eq level rule)
  | Audit_ge => mls_level_dom level rule
  | _ => false
  end.

Definition selinux_audit_rule_match (s : ss) (sid field : Z) (op : audit_op) (rule : option selinux_audit_rule) : Z :=
  match rule with
  | None => - ENOENT
  | Some rule =>
      if au_seqno rule <? latest_granting s then - ESTALE
      else
        match sidtab_search (Some (ss_sidtab s)) sid with
        | None => - ENOENT
        | Some ctxt =>
            if is_user_field field then b2i (audit_match_value op (c_user ctxt) (c_user (au_ctxt rule)))
            else if is_role_field field then b2i (audit_match_value op (c_role ctxt) (c_role (au_ctxt rule)))
            else if is_type_field field then b2i (audit_match_value op (c_type ctxt) (c_type (au_ctxt rule)))
            else if is_level_field field then
              b2i (audit_match_level op (mr_low (c_range (au_ctxt rule)))
                     (if (field =? AUDIT_SUBJ_SEN) || (field =? AUDIT_OBJ_LEV_LOW)
                      then mr_low (c_range ctxt) else mr_high (c_range ctxt)))
            else 0
        end
  end.

(** ** Conversion of the SID table *)

Definition clone_sid (sid : Z) (context : context) (arg : sidtab * kmem) : Z * Context.context * (sidtab * kmem) :=
  let '(s, m) := arg in
  if SECINITSID_NUM <? sid then
    let '(rc, s, m) := sidtab_insert s sid context m in (rc, context, (s, m))
  else (0, context, arg).

(** The code after [bad:]: keep the text of the old context. *)
Definition convert_bad (oldp : policydb) (oldc c : context) (m : kmem) : option (Z * context * kmem) :=
  '(rc, str, len, m) ← context_struct_to_string oldp oldc true m;
  if nz rc then Some (rc, c, m)
  else
    str ← str;
    Some (0, set_c_str (context_destroy c) len (Some str), m).

(** The conversion of the MLS fields. *)
Definition convert_mls (oldp newp : policydb) (c : context) (m : kmem) : option (Z * context * kmem) :=
  if mls_enabled oldp && mls_enabled newp then mls_convert_context oldp oldp newp c m
  else if mls_enabled oldp && negb (mls_enabled newp) then Some (0, mls_context_destroy c, m)
  else if negb (mls_enabled oldp) && mls_enabled newp then
    match List.find (fun oc => oc_sid0 oc =? SECINITSID_UNLABELED) (nth OCON_ISID (ocontexts newp) []) with
    | None => Some (- EINVAL, c, m)
    | Some oc => Some (mls_range_set c (c_range (oc_context0 oc)) m)
    end
  else Some (0, c, m).

(** A context that is in the table as text only. *)
Definition convert_unmapped (newp : policydb) (c : context) (str : string) (m : kmem) : option (Z * context * kmem) :=
  let '(ok, m) := kalloc m in
  if negb ok then Some (- ENOMEM, c, m)
  else
    '(rc, ctx, m) ← string_to_context_struct newp None str (c_len c) SECSID_NULL m;
    if nz rc then Some (if rc =? - EINVAL then 0 else rc, c, m)
    else Some (0, ctx, m).

(** [oldp] is the global [policydb]. *)
Definition convert_context (s : ss) (newp : policydb) (key : Z) (c : context) (m : kmem)
    : option (Z * context * kmem) :=
  let oldp := ss_policydb s in
  if key <=? SECINITSID_NUM then Some (0, c, m)
  else
    match c_str c with
    | Some str => convert_unmapped newp c str m
    | None =>
        let '(rc, oldc, m) := context_cpy context_init c m in
        if nz rc then Some (rc, c, m)
        else
          name ← deref (sym_name oldp SYM_USERS (u32 (c_user c - 1)));
          usrdatum ← hashtab_search (st_table (p_users newp)) name;
          match usrdatum with
          | None => convert_bad oldp oldc c m
          | Some usrdatum =>
              let c := set_c_user c (u_value usrdatum) in
              name ← deref (sym_name oldp SYM_ROLES (u32 (c_role c - 1)));
              role ← hashtab_search (st_table (p_roles newp)) name;
              match role with
              | None => convert_bad oldp oldc c m
              | Some role =>
                  let c := set_c_role c (r_value role) in
                  name ← deref (sym_name oldp SYM_TYPES (u32 (c_type c - 1)));
                  typdatum ← hashtab_search (st_table (p_types newp)) name;
                  match typdatum with
                  | None => convert_bad oldp oldc c m
                  | Some typdatum =>
                      let c := set_c_type c (t_value typdatum) in
                      '(rc, c, m) ← convert_mls oldp newp c m;
                      if nz rc then convert_bad oldp oldc c m
                      else
                        valid ← policydb_context_isvalid newp c;
                        let rc := if (valid : bool) then 0 else convert_context_handle_invalid_context s in
                        if nz rc then convert_bad oldp oldc c m else Some (0, c, m)
                  end
              end
          end
    end.

(** As it is called by [sidtab_map]; the state is the memory, [None] after an
    invalid access. *)
Definition convert_step (s : ss) (newp : policydb) (key : Z) (c : context) (args : option kmem)
    : Z * context * option kmem :=
  match args with
  | None => (- EFAULT, c, None)
  | Some m =>
      match convert_context s newp key c m with
      | Some (rc, c, m) => (rc, c, Some m)
      | None => (- EFAULT, c, None)
      end
  end.

(** ** Booleans *)

(** The array of booleans of an indexed policy: each entry is a datum of its own. *)
Record bools_indexed (p : policydb) : Prop := mk_bools_indexed {
  bi_len : Z.of_nat (length (bool_val_to_struct p)) = st_nprim (p_bools p);
  bi_small : st_nprim (p_bools p) < 2 ^ 31;
  bi_ptr : forall i x, bool_val_to_struct p !! i = Some x -> exists loc, x = Ptr loc /\ (loc < length (bool_store p))%nat;
  bi_inj : forall i j loc, bool_val_to_struct p !! i = Some (Ptr loc) -> bool_val_to_struct p !! j = Some (Ptr loc) -> i = j
}.

Lemma bools_indexed_store p store :
  bools_indexed p -> length store = length (bool_store p) -> bools_indexed (set_bool_store p store).
Proof. intros [H1 H2 H3 H4] Hl. split; try done. cbn. by rewrite Hl. Qed.

Lemma bool_ptr p i : bools_indexed p -> (i < length (bool_val_to_struct p))%nat ->
  exists loc, bool_val_to_struct p !! i = Some (Ptr loc) /\ (loc < length (bool_store p))%nat /\
    index_deref (bool_val_to_struct p) (Z.of_nat i) = Some loc.
Proof.
  intros Hp [x Hx]%lookup_lt_is_Some_2. destruct (bi_ptr p Hp i x Hx) as (loc & -> & Hloc). exists loc. split; [done|]. split; [done|].
  unfold index_deref, index. rewrite (proj2 (Z.ltb_ge _ _)) by lia. rewrite Nat2Z.id. by rewrite Hx.
Qed.

(** The state of the boolean at position [i]. *)
Definition state_at (p : policydb) (i : nat) : option Z :=
  loc ← index_deref (bool_val_to_struct p) (Z.of_nat i);
  cb_state <$> bool_store p !! loc.

Lemma state_at_total p i : bools_indexed p -> (i < length (bool_val_to_struct p))%nat -> is_Some (state_at p i).
Proof.
  intros Hp Hi. destruct (bool_ptr p i Hp Hi) as (loc & _ & Hloc & H). unfold state_at. rewrite (bind_step _ _ _ H).
  destruct (lookup_lt_is_Some_2 _ _ Hloc) as [d ->]. by eexists.
Qed.

Lemma put_bool_state_spec p i loc v :
  bools_indexed p -> bool_val_to_struct p !! i = Some (Ptr loc) ->
  exists p', put_bool_state p loc v = Some p' /\ bools_indexed p' /\ (exists store, p' = set_bool_store p store) /\
    forall j, (j < length (bool_val_to_struct p))%nat -> state_at p' j = if decide (j = i) then Some v else state_at p j.
Proof.
  intros Hp Hi. destruct (bi_ptr p Hp i _ Hi) as (loc' & [= <-] & Hloc). unfold put_bool_state.
  destruct (lookup_lt_is_Some_2 _ _ Hloc) as [d Hd]. rewrite (bind_step _ _ _ Hd). eexists. split; [done|].
  split; [apply bools_indexed_store; [done|apply length_insert]|]. split; [by eexists|].
  intros j Hj. destruct (bool_ptr p j Hp Hj) as (locj & Hj1 & Hlj & Hj2). unfold state_at.
  change (bool_val_to_struct (set_bool_store p ?x)) with (bool_val_to_struct p). rewrite (bind_step _ _ _ Hj2), (bind_step _ _ _ Hj2).
  change (bool_store (set_bool_store p ?x)) with x. case_decide as E.
  - subst j. rewrite Hi in Hj1. injection Hj1 as <-. by rewrite list_lookup_insert_eq.
  - rewrite list_lookup_insert_ne; [done|]. intros <-. apply E. by eapply (bi_inj p Hp).
Qed.

Lemma set_bools_loop_spec values p i :
  bools_indexed p -> (i + length values <= length (bool_val_to_struct p))%nat ->
  exists p', set_bools_loop p (Z.of_nat i) values = Some p' /\ bools_indexed p' /\ (exists store, p' = set_bool_store p store) /\
    (forall j v, values !! j = Some v -> state_at p' (i + j) = Some (if nz v then 1 else 0)) /\
    (forall j, (j < i)%nat -> state_at p' j = state_at p j).
Proof.
  revert p i. induction values as [|v values IH]; intros p i Hp Hl; cbn [set_bools_loop].
  { exists p. split; [done|]. split; [done|]. split; [|done]. exists (bool_store p). by destruct p. }
  cbn [length] in Hl. destruct (bool_ptr p i Hp ltac:(lia)) as (loc & Hi & _ & Hd). rewrite (bind_step _ _ _ Hd).
  destruct (put_bool_state_spec p i loc (if nz v then 1 else 0) Hp Hi) as (p1 & H1 & Hp1 & [store1 E1] & Hs1). rewrite (bind_step _ _ _ H1).
  replace (Z.of_nat i + 1) with (Z.of_nat (S i)) by lia.
  destruct (IH p1 (S i) Hp1) as (p' & H' & Hp' & [store' E'] & Hset & Hlow); [subst p1; cbn; lia|].
  exists p'. split; [done|]. split; [done|]. split; [exists store'; by subst|]. split.
  - intros [|j] w; cbn.
    + intros [= <-]. rewrite Nat.add_0_r, Hlow, Hs1 by lia. by rewrite decide_True.
    + intros Hw. rewrite Nat.add_succ_r. by apply (Hset j).
  - intros j Hj. rewrite Hlow, Hs1 by lia. by rewrite decide_False by lia.
Qed.

Lemma bool_state_at p b :
  0 < b <= Z.of_nat (length (bool_val_to_struct p)) -> Z.of_nat (length (bool_val_to_struct p)) < 2 ^ 32 ->
  bool_state p b = state_at p (Z.to_nat (b - 1)).
Proof.
  intros Hb Hl. unfold bool_state, state_at. rewrite u32_small, Z2Nat.id by lia.
  destruct (index_deref _ _) as [loc|]; cbn; [|done]. by destruct (bool_store p !! loc).
Qed.

(** The value of an expression depends on the booleans only. *)
Lemma cond_evaluate_ext p q l :
  bool_val_to_struct p = bool_val_to_struct q -> bool_store p = bool_store q -> cond_evaluate_expr p l = cond_evaluate_expr q l.
Proof.
  intros Ha Hs. unfold cond_evaluate_expr.
  assert (forall c s, cond_step p c s = cond_step q c s) as Hstep by (intros c s; unfold cond_step, bool_state; by rewrite Ha, Hs).
  assert (forall s, cond_eval_loop p l s = cond_eval_loop q l s) as ->; [|done].
  induction l as [|c l IH]; intros s; cbn [cond_eval_loop]; [done|]. rewrite Hstep.
  destruct (cond_step q c s) as [[s'|]|]; cbn; [apply IH|done|done].
Qed.

(** The expressions of the conditionals are not empty and name booleans that exist. *)
Definition conds_closed (p : policydb) : Prop :=
  Forall (fun node => cd_expr node <> [] /\
    Forall (fun c => cx_expr_type c = COND_BOOL -> 0 < cx_bool c <= st_nprim (p_bools p)) (cd_expr node)) (cond_list p).

Lemma conds_closed_total p :
  bools_indexed p -> conds_closed p -> Forall (fun node => is_Some (cond_evaluate_expr p (cd_expr node))) (cond_list p).
Proof.
  intros Hp Hc. eapply Forall_impl; [exact Hc|]. intros node [Hne HF]. apply cond_evaluate_total; [done|].
  intros c Hin Ht. rewrite Forall_forall in HF. specialize (HF c Hin Ht). pose proof (bi_len p Hp). pose proof (bi_small p Hp).
  rewrite bool_state_at by lia. apply state_at_total; [done|lia].
Qed.

(** ** Object contexts *)

Lemma ocon_find_spec f l :
  match ocon_find f l with
  | Some (before, c, after) => l = before ++ c :: after /\ f c = true /\ Forall (fun x => f x = false) before /\ List.find f l = Some c
  | None => List.find f l = None
  end.
Proof.
  induction l as [|c l IH]; cbn [ocon_find List.find]; [done|]. destruct (f c) eqn:E; [done|].
  destruct (ocon_find f l) as [[[before c'] after]|]; [|done]. destruct IH as (-> & Hf & HF & Hfind). by repeat split; [|constructor|].
Qed.

(** A record is not labelled yet, or its SID stands for its context. *)
Definition labelled (t : sidtab) (c : ocontext) : Prop :=
  c_len (oc_context0 c) = 0 /\
  (oc_sid0 c = 0 \/ exists c', sidtab_abs t !! oc_sid0 c = Some c' /\ context_cmp c' (oc_context0 c) = true).

Lemma labelled_keeps t t' c : keeps t t' -> labelled t c -> labelled t' c.
Proof. intros Hk [Hl Hc]. split; [done|]. destruct Hc as [Hc|(c' & Ha & Hb)]; [by left|right]. exists c'. split; [by apply Hk|done]. Qed.

Lemma labelled_search t c :
  sidtab_wf t -> labelled t c -> oc_sid0 c <> 0 ->
  exists c', sidtab_search (Some t) (oc_sid0 c) = Some c' /\ context_cmp c' (oc_context0 c) = true.
Proof.
  intros Hw [Hl [H0|(c' & Habs & Hcmp)]] Hnz; [done|]. exists c'. split; [|done].
  unfold sidtab_search. rewrite search_core_spec by apply Hw. unfold search_spec. by rewrite Habs, (context_cmp_len0 _ _ Hcmp Hl).
Qed.

Lemma fill_sid0_spec s c m :
  sidtab_wf (ss_sidtab s) -> labelled (ss_sidtab s) c ->
  exists rc c' t m', fill_sid0 s c m = Some (rc, c', set_ss_sidtab s t, m') /\ sidtab_wf t /\
    oc_u c' = oc_u c /\ oc_context0 c' = oc_context0 c /\ oc_context1 c' = oc_context1 c /\ labelled t c' /\
    (rc = - ENOMEM \/ rc = 0 /\ oc_sid0 c' <> 0) /\ keeps (ss_sidtab s) t.
Proof.
  intros Hw Hc. unfold fill_sid0. destruct (nz (oc_sid0 c)) eqn:E; cbn [negb].
  - apply nz_true in E. exists 0, c, (ss_sidtab s), m. split; [by destruct s|]. repeat (split; [done|]). split; [by right|apply keeps_refl].
  - destruct Hc as [Hl _]. assert (str_ok (oc_context0 c)) as Hs by (unfold str_ok; by rewrite Hl).
    destruct (context_to_sid_spec (ss_sidtab s) (oc_context0 c) m Hw) as (rc & sid & t & m' & Hto & Hwt & Hr).
    rewrite (bind_step _ _ _ Hto). exists rc, (set_oc_sid0 c sid), t, m'. split; [done|]. repeat (split; [done|]).
    assert (keeps (ss_sidtab s) t) as Hk by (intros i x; by eapply to_sid_keeps).
    destruct (to_sid_rc _ _ _ _ _ Hr) as [-> | ->].
    + destruct (to_sid_has _ _ _ _ Hr Hs) as (c' & Hc' & Hcmp). split; [split; [done|right; by exists c']|].
      split; [right; split; [done|]|done]. cbn. intros ->.
      by rewrite (sid_positive t 0 Hwt ltac:(lia)) in Hc'.
    + split; [split; [done|left]|split; [by left|done]]. inv Hr. done.
Qed.

(** ** Properties *)

(** C32: [security_set_bools] with a value for every boolean succeeds.  Every
    boolean then reads as its new value, every conditional holds the value its
    expression now has, exactly the matching rules of the conditionals are
    enabled, and the sequence number that invalidates cached decisions is
    new. *)
Theorem set_bools_effect s values :
  bools_indexed (ss_policydb s) -> conds_ok (ss_policydb s) (cond_list (ss_policydb s)) -> conds_closed (ss_policydb s) ->
  Z.of_nat (length values) = st_nprim (p_bools (ss_policydb s)) ->
  exists s', security_set_bools s values = Some (0, s', Some (latest_granting s')) /\
    latest_granting s' = u32 (latest_granting s + 1) /\ ss_sidtab s' = ss_sidtab s /\
    (forall i v, values !! i = Some v -> security_get_bool_value s' (Z.of_nat i) = Some (if nz v then 1 else 0)) /\
    conds_ok (ss_policydb s') (cond_list (ss_policydb s')) /\
    Forall (fun node => cond_evaluate_expr (ss_policydb s') (cd_expr node) = Some (cd_cur_state node)) (cond_list (ss_policydb s')).
Proof.
  intros Hp Hok Hc Hlen. unfold security_set_bools. rewrite Hlen, Z.eqb_refl. cbn [negb].
  pose proof (bi_len _ Hp) as Hbl. pose proof (bi_small _ Hp) as Hbs.
  destruct (set_bools_loop_spec values (ss_policydb s) 0 Hp ltac:(lia)) as (p1 & H1 & Hp1 & [store E1] & Hset & _).
  change (Z.of_nat 0) with 0 in H1. rewrite (bind_step _ _ _ H1).
  assert (conds_ok p1 (cond_list p1)) as Hok1 by (subst p1; destruct Hok; by split).
  assert (conds_closed p1) as Hc1 by (subst p1; exact Hc).
  destruct (evaluate_cond_list_spec p1 (cond_list p1) Hok1 (conds_closed_total p1 Hp1 Hc1)) as (h & l & H2 & HF & Hok2 & _).
  assert (evaluate_conds p1 = Some (set_cond_list (set_te_cond_avtab p1 h) l)) as H3 by (unfold evaluate_conds; by rewrite (bind_step _ _ _ H2)).
  rewrite (bind_step _ _ _ H3). eexists (mk_ss _ _ _ _ _ _ _ _ _). split; [reflexivity|]. split; [done|]. split; [done|]. split; [|split].
  - intros i v Hi. pose proof (lookup_lt_Some _ _ _ Hi). specialize (Hset i v Hi). unfold security_get_bool_value. cbn [ss_policydb].
    change (p_bools (set_cond_list (set_te_cond_avtab p1 h) l)) with (p_bools p1).
    replace (p_bools p1) with (p_bools (ss_policydb s)) by (by subst p1).
    rewrite s32_small, (proj2 (Z.leb_gt _ _)) by lia. revert Hset. unfold state_at.
    change (bool_val_to_struct (set_cond_list (set_te_cond_avtab p1 h) l)) with (bool_val_to_struct p1).
    change (bool_store (set_cond_list (set_te_cond_avtab p1 h) l)) with (bool_store p1).
    change (0 + i)%nat with i. destruct (index_deref _ _) as [loc|]; cbn; [|done]. by destruct (bool_store p1 !! loc).
  - destruct Hok2. by split.
  - cbn [ss_policydb]. change (cond_list (set_cond_list _ l)) with l. eapply Forall2_Forall_r; [exact HF|].
    apply Forall_forall. intros node _ node' (v & Hv & ->). cbn [cd_expr set_cur_state cd_cur_state]. rewrite <- Hv. by apply cond_evaluate_ext.
Qed.

(** The SID of a port or node is that of the first record that matches.
    [ocon_sid], the common part of [security_port_sid] and [security_node_sid],
    returns for it a SID that stands for the record's context, whether it was
    assigned before or not, and the default without a match; records stay
    labelled correctly; only memory can be missing. *)
Theorem ocon_sid_labels s i f dflt m :
  sidtab_wf (ss_sidtab s) -> Forall (labelled (ss_sidtab s)) (ocontexts_at s i) -> (i < length (ocontexts (ss_policydb s)))%nat ->
  exists rc osid s' m', ocon_sid s i f dflt m = Some (rc, osid, s', m') /\
    sidtab_wf (ss_sidtab s') /\ Forall (labelled (ss_sidtab s')) (ocontexts_at s' i) /\
    match List.find f (ocontexts_at s i) with
    | None => rc = 0 /\ osid = Some dflt /\ s' = s
    | Some c => rc = - ENOMEM \/ rc = 0 /\ exists sid c', osid = Some sid /\
        sidtab_search (Some (ss_sidtab s')) sid = Some c' /\ context_cmp c' (oc_context0 c) = true
    end.
Proof.
  intros Hw HF Hi. unfold ocon_sid. pose proof (ocon_find_spec f (ocontexts_at s i)) as Hfind.
  destruct (ocon_find f (ocontexts_at s i)) as [[[before c] after]|]; [|rewrite Hfind; by do 4 eexists].
  destruct Hfind as (El & _ & _ & ->). rewrite El in HF. apply Forall_app in HF as [HF1 HF2]. apply Forall_cons in HF2 as [Hc HF2].
  destruct (fill_sid0_spec s c m Hw Hc) as (rc & c1 & t & m1 & Hfill & Hwt & _ & Hctx & _ & Hc1 & Hrc & Hk).
  assert (forall x, labelled (ss_sidtab s) x -> labelled t x) as Hmono by (intros x; by apply labelled_keeps).
  rewrite (bind_step _ _ _ Hfill).
  assert (Forall (labelled t) (ocontexts_at (put_ocontexts (set_ss_sidtab s t) i (before ++ c1 :: after)) i)) as HF'.
  { unfold ocontexts_at, put_ocontexts. cbn. rewrite nth_lookup, list_lookup_insert_eq by done. cbn.
    apply Forall_app. split; [by eapply Forall_impl|]. constructor; [done|by eapply Forall_impl]. }
  destruct Hrc as [-> |[-> Hnz]].
  - do 4 eexists. split; [done|]. split; [done|]. split; [done|]. by left.
  - do 4 eexists. split; [done|]. split; [done|]. split; [done|]. right. split; [done|]. rewrite <- Hctx.
    destruct (labelled_search t c1 Hwt Hc1 Hnz) as (c' & H1 & H2). by exists (oc_sid0 c1), c'.
Qed.

Lemma sample_bools : bools_indexed sample /\ conds_closed sample.
Proof.
  assert (bool_val_to_struct sample = [Ptr 0%nat]) as Ea by (vm_compute; reflexivity).
  assert (bool_store sample = [mk_cond_bool_datum 1 1]) as Es by (vm_compute; reflexivity).
  assert (st_nprim (p_bools sample) = 1) as En by (vm_compute; reflexivity).
  split.
  - split; rewrite ?Ea, ?Es, ?En.
    + reflexivity.
    + lia.
    + intros [|i] x; [|discriminate]. intros [= <-]. exists 0%nat. split; [done|cbn; lia].
    + by intros [|i] [|j] loc.
  - unfold conds_closed. rewrite En.
    assert (cond_list sample = [mk_cond_node 1 [mk_cond_expr 1 1] [0%nat; 1%nat] []]) as -> by (vm_compute; reflexivity).
    apply Forall_singleton. split; [done|]. apply Forall_singleton. cbn. lia.
Qed.

Lemma sample_conds : conds_ok sample (cond_list sample).
Proof.
  assert (cond_list sample = [mk_cond_node 1 [mk_cond_expr 1 1] [0%nat; 1%nat] []]) as -> by (vm_compute; reflexivity).
  split.
  - apply sample_rules.
  - cbn. constructor; [|constructor; [|constructor]]; rewrite ?list_elem_of_singleton; [lia|apply not_elem_of_nil].
  - apply Forall_singleton. split; cbn [cd_true_list cd_false_list cd_cur_state]; [|intros n _ H; by apply elem_of_nil in H].
    assert (Forall (fun n => rule_enabled n = true) (avtab_nodes (te_cond_avtab sample))) as HF.
    { assert (avtab_nodes (te_cond_avtab sample) =
        [mk_avtab_node 0 (mk_avtab_key 1 4 2 0x8001) 3; mk_avtab_node 1 (mk_avtab_key 2 4 2 0x8001) 1]) as -> by (vm_compute; reflexivity).
      repeat constructor. }
    intros n Hn _. rewrite Forall_forall in HF. by apply HF.
Qed.

(** Switching the boolean off takes the rules on tmp_t away. *)
Lemma set_bools_effect_witness :
  exists s', security_set_bools sample_ss [0] = Some (0, s', Some (latest_granting s')) /\ security_get_bool_value s' 0 = Some 0.
Proof.
  destruct (set_bools_effect sample_ss [0]) as (s' & H & _ & _ & Hv & _); unfold sample_ss, ss_policydb.
  - exact (proj1 sample_bools).
  - exact sample_conds.
  - exact (proj2 sample_bools).
  - vm_compute. reflexivity.
  - exists s'. split; [exact H|]. apply (Hv 0%nat 0). reflexivity.
Defined.

(** The sample with a record for the TCP ports 80 to 443. *)
Definition web_port : ocontext := mk_ocontext (OPort 6 80 443) 0 etc_ctx context_init 0 0.
Definition port_ss : ss := put_ocontexts sample_ss OCON_PORT [web_port].

Lemma ocon_sid_labels_witness :
  exists rc osid s' m', security_port_sid port_ss 6 443 [] = Some (rc, osid, s', m') /\ rc = 0 /\ osid = Some 3 /\
    sidtab_wf (ss_sidtab s').
Proof.
  destruct (ocon_sid_labels port_ss OCON_PORT (port_match 6 443) SECINITSID_PORT []) as (rc & osid & s' & m' & H & Hw & _).
  - exact sample_sids_wf.
  - assert (ocontexts_at port_ss OCON_PORT = [web_port]) as -> by (vm_compute; reflexivity).
    apply Forall_singleton. split; [reflexivity|by left].
  - vm_compute. lia.
  - exists rc, osid, s', m'. split; [exact H|].
    assert ((fun r => (r.1.1.1, r.1.1.2)) <$> security_port_sid port_ss 6 443 [] = Some (0, Some 3)) as Hr by (vm_compute; reflexivity).
    unfold security_port_sid in Hr. rewrite H in Hr. injection Hr as -> ->. split; [reflexivity|split; [reflexivity|exact Hw]].
Defined.
