(* ===== verification/PolicyLoad.v ===== *)
(** * A whole policy file

    The stages of [policydb_read] put together: what a policy that was
    accepted is like, and that [policydb_write] writes for it a file from which
    the same policy is read again. *)

From Stdlib Require Import Ascii String.
From S2P Require Import Prelude Ebitmap Hashtab PolicyFile Context Sidtab Avtab Policydb Mls PolicydbOps Sample Conditional PolicyRead PolicyWrite PolicyTables PolicyCodec PolicyRules PolicyObjects Classmap Services PolicydbProofs.

(** ** The empty database *)

Definition initial_policydb : policydb :=
  mk_policydb false (mk_symtab (Some (empty_table 2)) 0) (mk_symtab (Some (empty_table 32)) 0) (mk_symtab (Some initial_roles) 1)
    (mk_symtab (Some (empty_table 512)) 0) (mk_symtab (Some (empty_table 128)) 0) (mk_symtab (Some (empty_table 16)) 0)
    (mk_symtab (Some (empty_table 16)) 0) (mk_symtab (Some (empty_table 16)) 0)
    (replicate SYM_NUM None) [] [] [] [] avtab_zero [] [] [] [] avtab_zero [] []
    (replicate OCON_NUM []) [] (Some empty_ranges) [] ebitmap_init ebitmap_init 0 0 false false 0 0.

Lemma symtab_init_mem {D} (s : symtab D) size : symtab_init s size [] = (0, mk_symtab (Some (empty_table size)) 0, []).
Proof. done. Qed.

Lemma symtab_init_cases {D} (s : symtab D) size m :
  (exists m', symtab_init s size m = (- ENOMEM, mk_symtab None (st_nprim s), m')) \/
  (exists m', symtab_init s size m = (0, mk_symtab (Some (empty_table size)) 0, m')).
Proof.
  unfold symtab_init, hashtab_create. destruct (kalloc m) as [[] m1]; cbn; [|left; eauto]. destruct (kalloc m1) as [[] m2]; cbn; [right|left]; eauto.
Qed.

Ltac init_step :=
  match goal with
  | |- context [symtab_init ?s ?n ?m] =>
      destruct (symtab_init_cases s n m) as [[? ->]|[? ->]]; [discriminate|cbn [nz Z.eqb negb]]
  end.

Lemma policydb_init_ok m p freed m' : policydb_init m = Some (0, p, freed, m') -> freed = false -> p = initial_policydb.
Proof.
  unfold policydb_init, init_symtabs. cbv zeta. change (nth SYM_COMMONS symtab_sizes 0) with 2. change (nth SYM_CLASSES symtab_sizes 0) with 32.
  change (nth SYM_ROLES symtab_sizes 0) with 16. change (nth SYM_TYPES symtab_sizes 0) with 512. change (nth SYM_USERS symtab_sizes 0) with 128.
  change (nth SYM_BOOLS symtab_sizes 0) with 16. change (nth SYM_LEVELS symtab_sizes 0) with 16. change (nth SYM_CATS symtab_sizes 0) with 16.
  do 8 init_step. unfold roles_init. destruct (kalloc _) as [[] m1]; cbn [negb]; [|discriminate].
  cbn [p_roles st_nprim st_table set_te_avtab set_p_cats set_p_levels set_p_bools set_p_users set_p_types set_p_roles set_p_classes set_p_commons].
  change (u32 (0 + 1)) with 1. change (negb (1 =? OBJECT_R_VAL)) with false. cbv iota.
  destruct (kalloc m1) as [[] m2]; cbn [negb]; [|discriminate].
  destruct (hashtab_insert _ _ _ m2) as [[[rc h] m3]|] eqn:E; [|discriminate]. cbn [mbind option_bind].
  destruct (nz rc) eqn:Er.
  { intros H ->. by apply (f_equal (fun o : option (Z * policydb * bool * kmem) => match o with Some r => r.1.2 | None => false end)) in H. }
  apply nz_false in Er as ->. apply hashtab_insert_mem in E.
  assert (h = Some initial_roles) as ->.
  { pose proof initial_roles_eq as E'. unfold object_role, OBJECT_R_VAL in E'. congruence. }
  unfold cond_policydb_init. cbn [nz Z.eqb negb]. destruct (hashtab_create _ _ 256 m3) as [h m4] eqn:Eh.
  destruct h as [t|]; [|intros [= _ <- _]; discriminate]. intros [= <- _ _] _.
  assert (t = empty_ranges) as ->.
  { unfold hashtab_create in Eh. destruct (kalloc m3) as [[] m5]; cbn [negb] in Eh; [|discriminate].
    destruct (kalloc m5) as [[] m6]; cbn [negb] in Eh; [|discriminate]. by injection Eh as <- _. }
  reflexivity.
Qed.

Lemma policydb_init_mem : policydb_init [] = Some (0, initial_policydb, false, []).
Proof.
  unfold policydb_init, init_symtabs. cbv zeta. do 7 (rewrite symtab_init_mem; cbn [nz Z.eqb negb]). rewrite symtab_init_mem. cbn [nz Z.eqb negb].
  unfold roles_init. cbn [kalloc negb].
  cbn [p_roles st_nprim st_table set_te_avtab set_p_cats set_p_levels set_p_bools set_p_users set_p_types set_p_roles set_p_classes set_p_commons].
  change (u32 (0 + 1)) with OBJECT_R_VAL. change (negb (OBJECT_R_VAL =? OBJECT_R_VAL)) with false. cbv iota. fold object_role.
  change (nth SYM_ROLES symtab_sizes 0) with 16. rewrite initial_roles_eq. reflexivity.
Qed.

(** ** The header and the bitmaps *)

Record header := mk_header {
  hd_vers : Z;
  hd_mls : bool;
  hd_reject : bool;
  hd_allow : bool;
  hd_caps : ebitmap;
  hd_permissive : ebitmap
}.

Definition opened (h : header) : policydb :=
  set_allow_unknown (set_reject_unknown (set_mls_enabled (set_policyvers initial_policydb (hd_vers h)) (hd_mls h)) (hd_reject h)) (hd_allow h).

(** The database before the symbols are read. *)
Definition stage1 (h : header) : policydb := set_permissive_map (set_policycaps (opened h) (hd_caps h)) (hd_permissive h).

Definition header_fits (h : header) : Prop :=
  POLICYDB_VERSION_MIN <= hd_vers h <= POLICYDB_VERSION_MAX /\ (hd_mls h = true -> POLICYDB_VERSION_MLS <= hd_vers h).

Lemma gives_header :
  gives (read_header initial_policydb) (fun r => exists h, r.1.1 = opened h /\ header_fits h /\ hd_caps h = ebitmap_init /\ hd_permissive h = ebitmap_init).
Proof.
  unfold read_header. repeat gv.
  exists (mk_header (item a1 0) (nz (item a1 1 .& POLICYDB_CONFIG_MLS)) (nz (item a1 1 .& REJECT_UNKNOWN)) (nz (item a1 1 .& ALLOW_UNKNOWN)) ebitmap_init ebitmap_init).
  split; [|split; [|done]].
  - cbn [fst opened hd_vers hd_mls hd_reject hd_allow]. destruct (nz (item a1 1 .& POLICYDB_CONFIG_MLS)); reflexivity.
  - unfold header_fits. cbn. apply andb_prop in H7 as [H7 H7']. split; [lia|]. intros Hm. unfold POLICYDB_CONFIG_MLS in *. rewrite Hm in H8. cbn in H8. lia.
Qed.

Lemma config_bits (m r a : bool) :
  let config := (if m then POLICYDB_CONFIG_MLS else 0) .| (if r then REJECT_UNKNOWN else 0) .| (if a then ALLOW_UNKNOWN else 0) in
  in_u 32 config /\ nz (config .& POLICYDB_CONFIG_MLS) = m /\ nz (config .& REJECT_UNKNOWN) = r /\ nz (config .& ALLOW_UNKNOWN) = a.
Proof. destruct m, r, a; by vm_compute. Qed.

Lemma reads_header h q info :
  header_fits h -> policyvers q = hd_vers h -> mls_enabled q = hd_mls h -> reject_unknown q = hd_reject h -> allow_unknown q = hd_allow h ->
  in_u 32 (pc_sym_num info) -> in_u 32 (pc_ocon_num info) ->
  reads (read_header initial_policydb) (write_header q info) (opened h, pc_sym_num info, pc_ocon_num info).
Proof.
  intros [Hv Hm] E1 E2 E3 E4 Hs Ho. unfold read_header, write_header, write_config. rewrite E1, E2, E3, E4.
  destruct (config_bits (hd_mls h) (hd_reject h) (hd_allow h)) as (Hc & C1 & C2 & C3). set (config := _ .| _ .| _) in *. clearbody config.
  assert (name_ok POLICYDB_STRING) as Hn by (by split). pose proof (name_len _ Hn). assert (in_u 32 POLICYDB_MAGIC) by done.
  assert (in_u 32 (hd_vers h)) by (unfold in_u, POLICYDB_VERSION_MIN, POLICYDB_VERSION_MAX, POLICYDB_VERSION_BASE, POLICYDB_VERSION_FILENAME_TRANS in *; lia).
  rd. rd; [done|]. rd; [done|]. rd. rd; [done|]. rd. rd; [apply andb_true_intro; split; lia|].
  rd; [rewrite C1; destruct (hd_mls h); [cbn; apply Z.leb_le; auto|done]|]. rewrite C1, C2, C3.
  replace (if hd_mls h then true else _) with (hd_mls h) by (by destruct (hd_mls h)). rd.
Qed.

Lemma gives_maps h :
  hd_caps h = ebitmap_init -> hd_permissive h = ebitmap_init ->
  gives (read_maps (opened h)) (fun p => exists e1 e2, p = stage1 (mk_header (hd_vers h) (hd_mls h) (hd_reject h) (hd_allow h) e1 e2) /\
    ebitmap_wf e1 /\ ebitmap_wf e2).
Proof.
  intros Hc Hp. pose proof (canon_wf _ ebitmap_init_canon) as H0. unfold read_maps.
  eapply (gives_bind _ _ (fun p => exists e1, p = set_policycaps (opened h) e1 /\ ebitmap_wf e1)).
  - destruct (_ <=? _); gv; [gv; eauto|]. exists ebitmap_init. split; [reflexivity|done].
  - intros p (e1 & -> & He1). destruct (_ <=? _); gv; [gv; by exists e1, a|]. exists e1, ebitmap_init. split; [reflexivity|done].
Qed.

Lemma reads_maps h q :
  POLICYDB_VERSION_PERMISSIVE <= hd_vers h -> policyvers q = hd_vers h -> policycaps q = hd_caps h -> permissive_map q = hd_permissive h ->
  storable (hd_caps h) -> storable (hd_permissive h) -> reads (read_maps (opened h)) (write_maps q) (stage1 h).
Proof.
  intros Hv E1 E2 E3 H1 H2. unfold read_maps, write_maps. rewrite E1, E2, E3. unfold POLICYDB_VERSION_PERMISSIVE, POLICYDB_VERSION_POLCAP in *.
  change (policyvers (opened h)) with (hd_vers h). rewrite (proj2 (Z.leb_le 22 _)), (proj2 (Z.leb_le 23 _)) by lia. cbv iota.
  eapply reads_bind; [rd; rd|]. cbn beta.
  change (policyvers (set_policycaps (opened h) (hd_caps h))) with (hd_vers h). rewrite (proj2 (Z.leb_le 23 _)) by lia. cbv iota. rd. rd.
Qed.

(** ** The symbols *)

Definition symtab_fits {D} (size : Z) (P : string -> D -> Prop) (s : symtab D) : Prop :=
  in_u 32 (st_nprim s) /\ otable_fits size P (st_table s).

Definition symtab_bitmaps {D} (B : D -> list ebitmap) (s : symtab D) : list ebitmap :=
  match st_table s with Some t => table_bitmaps B t | None => [] end.

Record syms_fit (p : policydb) : Prop := mk_syms_fit {
  sy_commons : symtab_fits 2 common_fits (p_commons p);
  sy_classes : symtab_fits 32 (class_fits (st_table (p_commons p))) (p_classes p);
  sy_roles : symtab_fits 16 role_fits (p_roles p) /\ exists t, st_table (p_roles p) = Some t /\ role_table t;
  sy_types : symtab_fits 512 (type_fits (has_bounds p)) (p_types p);
  sy_users : symtab_fits 128 user_fits (p_users p);
  sy_bools : symtab_fits 16 (bool_fits (bool_store p)) (p_bools p);
  sy_levels : symtab_fits 16 sens_fits (p_levels p);
  sy_cats : symtab_fits 16 cat_fits (p_cats p)
}.

Definition syms_bitmaps (p : policydb) : list ebitmap :=
  symtab_bitmaps class_bitmaps (p_classes p) ++ symtab_bitmaps role_bitmaps (p_roles p) ++
  symtab_bitmaps user_bitmaps (p_users p) ++ symtab_bitmaps sens_bitmaps (p_levels p).

Record symbols := mk_symbols {
  sb_commons : symtab common_datum;
  sb_classes : symtab class_datum;
  sb_roles : symtab role_datum;
  sb_types : symtab type_datum;
  sb_users : symtab user_datum;
  sb_bools : symtab nat;
  sb_store : list cond_bool_datum;
  sb_levels : symtab level_datum;
  sb_cats : symtab cat_datum
}.

Definition with_symbols (p : policydb) (s : symbols) : policydb :=
  mk_policydb (mls_enabled p) (sb_commons s) (sb_classes s) (sb_roles s) (sb_types s) (sb_users s) (sb_bools s) (sb_levels s)
    (sb_cats s) (sym_val_to_name p) (class_val_to_struct p) (role_val_to_struct p) (user_val_to_struct p)
    (type_val_to_struct_array p) (te_avtab p) (role_tr p) (filename_trans_list p) (sb_store s)
    (bool_val_to_struct p) (te_cond_avtab p) (cond_list p) (role_allow_list p) (ocontexts p) (genfs_list p)
    (range_tr p) (type_attr_map_array p) (policycaps p) (permissive_map p) (pd_len p) (policyvers p)
    (reject_unknown p) (allow_unknown p) (process_class p) (process_trans_perms p).

(** The tables as [policydb_init] leaves them. *)
Record no_symbols (p : policydb) : Prop := mk_no_symbols {
  ns_commons : p_commons p = mk_symtab (Some (empty_table 2)) 0;
  ns_classes : p_classes p = mk_symtab (Some (empty_table 32)) 0;
  ns_roles : p_roles p = mk_symtab (Some initial_roles) 1;
  ns_types : p_types p = mk_symtab (Some (empty_table 512)) 0;
  ns_users : p_users p = mk_symtab (Some (empty_table 128)) 0;
  ns_bools : p_bools p = mk_symtab (Some (empty_table 16)) 0;
  ns_store : bool_store p = [];
  ns_levels : p_levels p = mk_symtab (Some (empty_table 16)) 0;
  ns_cats : p_cats p = mk_symtab (Some (empty_table 16)) 0
}.

Lemma gives_symtab {A} (c : A -> reader A) a (Q : A -> Prop) :
  (forall n, gives (for_loop n c a) Q) -> gives (read_symtab c a) (fun r => in_u 32 r.1 /\ Q r.2).
Proof. intros Hc. unfold read_symtab. gv. eapply gives_bind; [apply Hc|]. intros a' Ha. gv. cbn. auto with fits. Qed.

Lemma empty_otable {D} size (P : string -> D -> Prop) : 0 < size <= 2 ^ 31 -> otable_fits size P (Some (empty_table size)).
Proof. intros Hs. eexists. split; [done|]. by apply empty_table_fits. Qed.

Lemma otable_split {D} size (P : string -> D -> Prop) B h :
  otable_fits size (fun k d => P k d /\ Forall ebitmap_wf (B d)) h ->
  otable_fits size P h /\ Forall ebitmap_wf (symtab_bitmaps B (mk_symtab h 0)).
Proof. intros (t & -> & Ht). apply table_split in Ht as [Ht HB]. split; [by exists t|done]. Qed.

Section Tables.

Context {D : Type} (size : Z) (c : option (hashtab string D) -> reader (option (hashtab string D))).
Context (w : string -> D -> option (list ascii)) (P : string -> D -> Prop) (B : D -> list ebitmap).
Context (Hsize : 0 < size <= 2 ^ 31).

Lemma gives_symtab_bitmaps :
  (forall h, otable_fits size (fun k d => P k d /\ Forall ebitmap_wf (B d)) h -> gives (c h) (otable_fits size (fun k d => P k d /\ Forall ebitmap_wf (B d)))) ->
  gives (read_symtab c (Some (empty_table size))) (fun r => symtab_fits size P (mk_symtab r.2 r.1) /\ Forall ebitmap_wf (symtab_bitmaps B (mk_symtab r.2 r.1))).
Proof using Hsize.
  intros Hc. eapply gives_impl; [apply gives_symtab; intros n; apply gives_for; [by apply empty_otable|exact Hc]|].
  intros [n t] [Hn [Ht HB]%otable_split]. by split.
Qed.

Lemma gives_symtab_plain :
  (forall h, otable_fits size P h -> gives (c h) (otable_fits size P)) ->
  gives (read_symtab c (Some (empty_table size))) (fun r => symtab_fits size P (mk_symtab r.2 r.1)).
Proof using Hsize.
  intros Hc. eapply gives_impl; [apply gives_symtab; intros n; apply gives_for; [by apply empty_otable|exact Hc]|]. by intros [n t].
Qed.

End Tables.

Lemma reads_symtab_with {D A} (s : symtab D) w (c : A -> reader A) a0 a t b :
  in_u 32 (st_nprim s) -> st_table s = Some t -> in_u 32 (ht_nel t) -> write_table (Some t) w = Some b ->
  reads (for_loop (Z.to_nat (ht_nel t)) c a0) b a -> exists b', write_symtab s w = Some b' /\ reads (read_symtab c a0) b' (st_nprim s, a).
Proof.
  intros Hn Et Hl Ew Hr. unfold write_symtab, read_symtab. rewrite Et. cbn [mbind option_bind]. rewrite Ew. cbn [mbind option_bind].
  eexists. split; [done|]. rd. cbn [item nth]. rd_with ltac:(exact Hr). rd.
Qed.

Lemma reads_symtab {D} size c w (P : string -> D -> Prop) B (s : symtab D) :
  codec_entry size c w P B -> 0 < size <= 2 ^ 31 -> symtab_fits size P s -> Forall storable (symtab_bitmaps B s) ->
  exists b, write_symtab s w = Some b /\ reads (read_symtab c (Some (empty_table size))) b (st_nprim s, st_table s).
Proof.
  intros Hc Hs [Hn (t & Et & Ht)] HB. unfold symtab_bitmaps in HB. rewrite Et in *.
  destruct (reads_entries size c w P B t _ Hc Hs Ht HB eq_refl) as (b & Ew & Hr). destruct (nel_entries _ _ _ Ht) as [_ Hl].
  by apply (reads_symtab_with s w c _ _ t b).
Qed.

Lemma gives_symtabs p :
  no_symbols p -> gives (read_symtabs p 8) (fun p' => exists s, p' = with_symbols p s /\ syms_fit p' /\ Forall ebitmap_wf (syms_bitmaps p')).
Proof.
  intros [E1 E2 E3 E4 E5 E6 E7 E8 E9]. unfold read_symtabs. cbv zeta. change (5 <? 8) with true. change (6 <? 8) with true. change (7 <? 8) with true. cbv iota.
  rewrite E1. eapply gives_bind; [apply (gives_symtab_bitmaps 2 common_read common_fits no_bitmaps); [lia|]; exact entry_gives|].
  intros [ncm cm] [Hcm _]. cbn [fst snd] in Hcm. cbv beta iota. set (p1 := set_p_commons p (mk_symtab cm ncm)).
  change (p_classes p1) with (p_classes p). rewrite E2.
  eapply gives_bind; [apply (gives_symtab_bitmaps 32 (class_read p1) (class_fits cm) class_bitmaps); [lia|]; exact (class_gives p1)|].
  intros [ncl cl] [Hcl HBcl]. cbn [fst snd] in Hcl, HBcl. cbv beta iota. set (p2 := set_p_classes p1 (mk_symtab cl ncl)).
  change (p_roles p2) with (p_roles p). rewrite E3. eapply gives_bind; [apply gives_symtab; intros n; apply gives_roles|].
  intros [nro ro] (Hnro & [Hro HBro]%otable_split & t' & Et & _ & Hobj). cbn [fst snd] in Hnro, Hro, HBro, Et. cbv beta iota.
  set (p3 := set_p_roles p2 (mk_symtab ro nro)). change (p_types p3) with (p_types p). rewrite E4.
  eapply gives_bind; [apply (gives_symtab_plain 512 (type_read p3) (type_fits (has_bounds p))); [lia|]; exact (type_gives p3)|].
  intros [nty ty] Hty. cbn [fst snd] in Hty. cbv beta iota. set (p4 := set_p_types p3 (mk_symtab ty nty)).
  change (p_users p4) with (p_users p). rewrite E5.
  eapply gives_bind; [apply (gives_symtab_bitmaps 128 (user_read p4) user_fits user_bitmaps); [lia|]; exact (user_gives p4)|].
  intros [nus us] [Hus HBus]. cbn [fst snd] in Hus, HBus. cbv beta iota. set (p5 := set_p_users p4 (mk_symtab us nus)).
  change (p_bools p5) with (p_bools p). change (bool_store p5) with (bool_store p). rewrite E6, E7.
  eapply (gives_bind _ _ (fun p => exists nbo bo store, p = set_bool_store (set_p_bools p5 (mk_symtab bo nbo)) store /\ symtab_fits 16 (bool_fits store) (mk_symtab bo nbo))).
  { eapply gives_bind; [apply (gives_symtab cond_read_bool _ (fun st => otable_fits 16 (bool_fits st.1) st.2)); intros n|].
    { apply gives_for; [by apply empty_otable|]. intros [store t]. apply bool_gives. }
    intros [nbo [store bo]] [Hnbo Hbo]. cbn [fst snd] in Hnbo, Hbo. gv. by exists nbo, bo, store. }
  intros _p6 (nbo & bo & store & -> & Hbo). set (p6 := set_bool_store _ store). change (p_levels p6) with (p_levels p). rewrite E8.
  eapply (gives_bind _ _ (fun p => exists nle le, p = set_p_levels p6 (mk_symtab le nle) /\ symtab_fits 16 sens_fits (mk_symtab le nle) /\
     Forall ebitmap_wf (symtab_bitmaps sens_bitmaps (mk_symtab le nle)))).
  { eapply gives_bind; [apply (gives_symtab_bitmaps 16 sens_read sens_fits sens_bitmaps); [lia|]; exact entry_gives|].
    intros [nle le] [Hle HBle]. gv. by exists nle, le. }
  intros _p7 (nle & le & -> & Hle & HBle). set (p7 := set_p_levels p6 _). change (p_cats p7) with (p_cats p). rewrite E9.
  eapply gives_bind; [apply (gives_symtab_bitmaps 16 cat_read cat_fits no_bitmaps); [lia|]; exact entry_gives|].
  intros [nca ca] [Hca _]. cbn [fst snd] in Hca. gv.
  exists (mk_symbols (mk_symtab cm ncm) (mk_symtab cl ncl) (mk_symtab ro nro) (mk_symtab ty nty) (mk_symtab us nus) (mk_symtab bo nbo) store (mk_symtab le nle) (mk_symtab ca nca)).
  split; [reflexivity|]. split.
  - apply mk_syms_fit; [exact Hcm|exact Hcl|exact (conj (conj Hnro Hro) (ex_intro _ t' (conj Et Hobj)))|exact Hty|exact Hus|exact Hbo|exact Hle|exact Hca].
  - unfold syms_bitmaps. rewrite !Forall_app. split; [exact HBcl|]. split; [exact HBro|]. split; [exact HBus|exact HBle].
Qed.

Definition symbols_of (q : policydb) : symbols :=
  mk_symbols (p_commons q) (p_classes q) (p_roles q) (p_types q) (p_users q) (p_bools q) (bool_store q) (p_levels q) (p_cats q).

Definition bools_in_order (q : policydb) : Prop :=
  match st_table (p_bools q) with Some t => in_order t (bool_store q) | None => False end.

Lemma symtab_eta {D} (s : symtab D) : mk_symtab (st_table s) (st_nprim s) = s.
Proof. by destruct s. Qed.

Lemma symtab_no_bitmaps {D} (s : symtab D) : Forall storable (symtab_bitmaps no_bitmaps s).
Proof. unfold symtab_bitmaps. destruct (st_table s); [|constructor]. apply no_bitmaps_ok. Qed.

(** The tables of [q] are written, and read into a database without symbols. *)
Lemma reads_symtabs p q :
  no_symbols p -> policyvers q = policyvers p -> has_bounds p = true -> syms_fit q -> Forall storable (syms_bitmaps q) ->
  commons_named q -> bools_in_order q ->
  exists b, write_symtabs q 8 = Some b /\ reads (read_symtabs p 8) b (with_symbols p (symbols_of q)).
Proof.
  intros [E1 E2 E3 E4 E5 E6 E7 E8 E9] Hv Hb [S1 S2 [[S3n S3] (tr & Er & Htr)] S4 S5 [S6n (tb & Eb & S6)] S7 S8] HB Hcn Hbo.
  assert (POLICYDB_VERSION_BOUNDARY <= policyvers p) as Hvb by (by apply Z.leb_le). unfold POLICYDB_VERSION_BOUNDARY in Hvb.
  unfold syms_bitmaps in HB. rewrite !Forall_app in HB. destruct HB as (HB2 & HB3 & HB5 & HB7).
  set (p1 := set_p_commons p (p_commons q)). set (p2 := set_p_classes p1 (p_classes q)). set (p3 := set_p_roles p2 (p_roles q)).
  set (p4 := set_p_types p3 (p_types q)).
  assert (type_fits (has_bounds q) = type_fits (has_bounds p3)) as Et by (unfold has_bounds; by rewrite Hv). rewrite Et in S4.
  assert (type_write q = type_write p3) as Ew4 by (unfold type_write, has_bounds; by rewrite Hv).
  assert (role_write q = role_write p2) as Ew3 by (unfold role_write, has_bounds; by rewrite Hv).
  assert (user_write q = user_write p4) as Ew5 by (unfold user_write, has_bounds; by rewrite Hv).
  destruct (reads_symtab 2 common_read common_write common_fits no_bitmaps _ _ ltac:(lia) S1 (symtab_no_bitmaps _)) as (b1 & W1 & R1).
  destruct (reads_symtab 32 (class_read p1) class_write (class_fits (st_table (p_commons q))) class_bitmaps _ (class_codec p1 ltac:(unfold POLICYDB_VERSION_VALIDATETRANS; change (policyvers p1) with (policyvers p); lia) Hcn) ltac:(lia) S2 HB2) as (b2 & W2 & R2).
  unfold symtab_bitmaps in HB3. rewrite Er in HB3, S3. destruct S3 as (t3 & [= <-] & S3).
  destruct (reads_roles p2 tr _ Hb S3 Htr HB3 eq_refl) as (b3' & W3' & R3').
  destruct (nel_entries _ _ _ S3) as [_ Hl3]. destruct (reads_symtab_with (p_roles q) (role_write p2) (role_read p2) _ _ tr b3' S3n Er Hl3 W3' R3') as (b3 & W3 & R3).
  destruct (reads_symtab 512 (type_read p3) (type_write p3) _ no_bitmaps _ (type_codec p3 Hb) ltac:(lia) S4 (symtab_no_bitmaps _)) as (b4 & W4 & R4).
  destruct (reads_symtab 128 (user_read p4) (user_write p4) _ user_bitmaps _ (user_codec p4 Hb) ltac:(lia) S5 HB5) as (b5 & W5 & R5).
  unfold bools_in_order in Hbo. rewrite Eb in Hbo. destruct (bools_reads q tb S6 Hbo) as (b6' & W6' & R6').
  destruct (nel_entries _ _ _ S6) as [_ Hl6]. destruct (reads_symtab_with (p_bools q) (cond_write_bool q) cond_read_bool _ _ tb b6' S6n Eb Hl6 W6' R6') as (b6 & W6 & R6).
  destruct (reads_symtab 16 sens_read sens_write sens_fits sens_bitmaps _ _ ltac:(lia) S7 HB7) as (b7 & W7 & R7).
  destruct (reads_symtab 16 cat_read cat_write cat_fits no_bitmaps _ _ ltac:(lia) S8 (symtab_no_bitmaps _)) as (b8 & W8 & R8).
  exists (b1 ++ b2 ++ b3 ++ b4 ++ b5 ++ b6 ++ b7 ++ b8). split.
  { unfold write_symtabs. change (5 <? 8) with true. change (6 <? 8) with true. change (7 <? 8) with true. cbv iota.
    rewrite Ew3, Ew4, Ew5, W1, W2, W3, W4, W5, W6, W7, W8. reflexivity. }
  unfold read_symtabs. cbv zeta. change (5 <? 8) with true. change (6 <? 8) with true. change (7 <? 8) with true. cbv iota.
  rewrite E1. eapply reads_bind; [exact R1|]. cbv beta iota. rewrite symtab_eta. fold p1. change (p_classes p1) with (p_classes p). rewrite E2.
  eapply reads_bind; [exact R2|]. cbv beta iota. rewrite symtab_eta. fold p2. change (p_roles p2) with (p_roles p). rewrite E3.
  eapply reads_bind; [exact R3|]. cbv beta iota. rewrite <- Er, symtab_eta. fold p3. change (p_types p3) with (p_types p). rewrite E4.
  eapply reads_bind; [exact R4|]. cbv beta iota. rewrite symtab_eta. fold p4. change (p_users p4) with (p_users p). rewrite E5.
  eapply reads_bind; [exact R5|]. cbv beta iota. rewrite symtab_eta. set (p5 := set_p_users p4 (p_users q)).
  change (p_bools p5) with (p_bools p). change (bool_store p5) with (bool_store p). rewrite E6, E7.
  eapply reads_bind; [rd_with ltac:(exact R6); cbv beta iota; apply reads_ret|]. cbv beta. rewrite <- Eb, symtab_eta.
  set (p6 := set_bool_store _ _). change (p_levels p6) with (p_levels p). rewrite E8.
  eapply reads_bind; [rd_with ltac:(exact R7); cbv beta iota; apply reads_ret|]. cbv beta. rewrite symtab_eta.
  set (p7 := set_p_levels p6 _). change (p_cats p7) with (p_cats p). rewrite E9.
  rd_with ltac:(exact R8). cbv beta iota. rewrite symtab_eta. apply reads_ret.
Qed.

(** ** The index arrays *)

Record index_arrays := mk_index_arrays {
  ix_names : list (option (list (ptr string)));
  ix_class : list (ptr class_datum);
  ix_role : list (ptr role_datum);
  ix_user : list (ptr user_datum);
  ix_type : list (ptr type_datum);
  ix_bool : list (ptr nat)
}.

Definition with_index (p : policydb) (ix : index_arrays) : policydb :=
  mk_policydb (mls_enabled p) (p_commons p) (p_classes p) (p_roles p) (p_types p) (p_users p) (p_bools p) (p_levels p)
    (p_cats p) (ix_names ix) (ix_class ix) (ix_role ix) (ix_user ix)
    (ix_type ix) (te_avtab p) (role_tr p) (filename_trans_list p) (bool_store p)
    (ix_bool ix) (te_cond_avtab p) (cond_list p) (role_allow_list p) (ocontexts p) (genfs_list p)
    (range_tr p) (type_attr_map_array p) (policycaps p) (permissive_map p) (pd_len p) (policyvers p)
    (reject_unknown p) (allow_unknown p) (process_class p) (process_trans_perms p).

(** [p] differs from [p0] only in its index arrays. *)
Definition reindexed (p0 p : policydb) : Prop := exists ix, p = with_index p0 ix.

Create HintDb reindex.

Section Reindexed.

Context (p0 : policydb).

Lemma reindexed_refl : reindexed p0 p0.
Proof.
  exists (mk_index_arrays (sym_val_to_name p0) (class_val_to_struct p0) (role_val_to_struct p0) (user_val_to_struct p0)
    (type_val_to_struct_array p0) (bool_val_to_struct p0)). by destruct p0.
Qed.

Lemma reindexed_names p l : reindexed p0 p -> reindexed p0 (set_sym_val_to_name p l).
Proof. intros [ix ->]. exists (mk_index_arrays l (ix_class ix) (ix_role ix) (ix_user ix) (ix_type ix) (ix_bool ix)). reflexivity. Qed.
Lemma reindexed_class p l : reindexed p0 p -> reindexed p0 (set_class_val_to_struct p l).
Proof. intros [ix ->]. exists (mk_index_arrays (ix_names ix) l (ix_role ix) (ix_user ix) (ix_type ix) (ix_bool ix)). reflexivity. Qed.
Lemma reindexed_role p l : reindexed p0 p -> reindexed p0 (set_role_val_to_struct p l).
Proof. intros [ix ->]. exists (mk_index_arrays (ix_names ix) (ix_class ix) l (ix_user ix) (ix_type ix) (ix_bool ix)). reflexivity. Qed.
Lemma reindexed_user p l : reindexed p0 p -> reindexed p0 (set_user_val_to_struct p l).
Proof. intros [ix ->]. exists (mk_index_arrays (ix_names ix) (ix_class ix) (ix_role ix) l (ix_type ix) (ix_bool ix)). reflexivity. Qed.
Lemma reindexed_type p l : reindexed p0 p -> reindexed p0 (set_type_val_to_struct_array p l).
Proof. intros [ix ->]. exists (mk_index_arrays (ix_names ix) (ix_class ix) (ix_role ix) (ix_user ix) l (ix_bool ix)). reflexivity. Qed.
Lemma reindexed_bool p l : reindexed p0 p -> reindexed p0 (set_bool_val_to_struct p l).
Proof. intros [ix ->]. exists (mk_index_arrays (ix_names ix) (ix_class ix) (ix_role ix) (ix_user ix) (ix_type ix) l). reflexivity. Qed.

Lemma reindexed_put_name p sym v k p' : reindexed p0 p -> put_name p sym v k = Some p' -> reindexed p0 p'.
Proof. unfold put_name. intros Hp (fa & _ & H)%bind_Some. case_decide; [|done]. injection H as <-. by apply reindexed_names. Qed.

Definition leaves (s : option policydb) : Prop := forall p, s = Some p -> reindexed p0 p.

Lemma leaves_indexed r : leaves r -> leaves (indexed r).2.
Proof. by destruct r. Qed.

End Reindexed.

#[export] Hint Resolve reindexed_refl reindexed_names reindexed_class reindexed_role reindexed_user reindexed_type reindexed_bool reindexed_put_name : reindex.

(** Each [*_index] function writes only to the arrays. *)
Ltac index_frame :=
  repeat match goal with |- leaves _ (if ?b then _ else _).2 => destruct b end; try (by intros ? [= <-]);
  apply leaves_indexed; intros ? ?;
  repeat match goal with H : _ ≫= _ = Some _ |- _ => apply bind_Some in H as (? & ? & H) end;
  try match goal with H : Some _ = Some _ |- _ => injection H as <- end; eauto with reindex.

Lemma common_frame p0 k d p : reindexed p0 p -> leaves p0 (common_index k d p).2.
Proof. intros Hp. unfold common_index. index_frame. Qed.
Lemma class_frame p0 k d p : reindexed p0 p -> leaves p0 (class_index k d p).2.
Proof. intros Hp. unfold class_index. index_frame. Qed.
Lemma role_frame p0 k d p : reindexed p0 p -> leaves p0 (role_index k d p).2.
Proof. intros Hp. unfold role_index. index_frame. Qed.
Lemma type_frame p0 k d p : reindexed p0 p -> leaves p0 (type_index k d p).2.
Proof. intros Hp. unfold type_index. index_frame. Qed.
Lemma user_frame p0 k d p : reindexed p0 p -> leaves p0 (user_index k d p).2.
Proof. intros Hp. unfold user_index. index_frame. Qed.
Lemma bool_frame p0 k d p : reindexed p0 p -> leaves p0 (cond_index_bool k d p).2.
Proof. intros Hp. unfold cond_index_bool. destruct (bool_store p !! d); [|done]. index_frame. Qed.
Lemma sens_frame p0 k d p : reindexed p0 p -> leaves p0 (sens_index k d p).2.
Proof. intros Hp. unfold sens_index. index_frame. Qed.
Lemma cat_frame p0 k d p : reindexed p0 p -> leaves p0 (cat_index k d p).2.
Proof. intros Hp. unfold cat_index. index_frame. Qed.

Lemma index_symtab_frame {D} p0 sym (s : symtab D) f p m rc p' m' :
  (forall k d q, reindexed p0 q -> leaves p0 (f k d q).2) ->
  reindexed p0 p -> index_symtab sym s f p m = Some (rc, p', m') -> nz rc = false ->
  reindexed p0 p' /\ index_symtab sym s f p [] = Some (0, p', []).
Proof.
  intros Hf Hp. unfold index_symtab. cbn [kalloc negb]. destruct (kalloc m) as [[] m1]; cbn [negb]; [|by intros [= <- _ _]].
  destruct (kalloc m1) as [[] m2]; cbn [negb]; [|by intros [= <- _ _]].
  destruct (hashtab_map _ _ _) as [rc1 q] eqn:E. destruct q as [q|]; [|done]. cbn [mbind option_bind]. intros [= <- <- _] ->%nz_false.
  split; [|done]. assert (leaves p0 (0, Some q).2) as Hq; [|by apply Hq]. rewrite <- E. apply hashtab_map_inv.
  - intros k d [r|] _ Hr; [|done]. cbn [on_policydb]. apply Hf. by apply Hr.
  - intros r [= <-]. eauto with reindex.
Qed.

(** One table more: the loop over the tables goes on when the result is 0. *)
Lemma index_step_frame {D} p0 sym (s : symtab D) f p m (K : policydb -> kmem -> option (Z * policydb * kmem)) p' m' :
  (forall k d q, reindexed p0 q -> leaves p0 (f k d q).2) -> reindexed p0 p ->
  ('(rc, p, m) ← index_symtab sym s f p m; if nz rc then Some (rc, p, m) else K p m) = Some (0, p', m') ->
  (forall q m, reindexed p0 q -> K q m = Some (0, p', m') -> reindexed p0 p' /\ K q [] = Some (0, p', [])) ->
  reindexed p0 p' /\ ('(rc, p, m) ← index_symtab sym s f p []; if nz rc then Some (rc, p, m) else K p m) = Some (0, p', []).
Proof.
  intros Hf Hp ([[rc q] n] & E & H)%bind_Some HK. destruct (nz rc) eqn:Er; [by injection H as -> _ _|].
  destruct (index_symtab_frame p0 sym s f p m rc q n Hf Hp E Er) as [Hq ->]. by apply (HK q n).
Qed.

Lemma policydb_index_frame p m p' m' :
  policydb_index p m = Some (0, p', m') -> reindexed p p' /\ policydb_index p [] = Some (0, p', []).
Proof.
  unfold policydb_index, cond_init_bool_indexes. cbn [kalloc negb].
  do 6 (destruct (kalloc m) as [[] m1]; cbn [negb]; [clear m; rename m1 into m|done]). change (nz 0) with false. cbv iota zeta.
  match goal with |- context [index_symtab SYM_COMMONS _ _ ?q _] => assert (reindexed p q) as Hp by eauto 8 with reindex; generalize dependent q end.
  intros q Hq H. eapply index_step_frame; [apply common_frame|exact Hq|exact H|]. clear. intros q m Hq H.
  eapply index_step_frame; [apply class_frame|exact Hq|exact H|]. clear. intros q m Hq H.
  eapply index_step_frame; [apply role_frame|exact Hq|exact H|]. clear. intros q m Hq H.
  eapply index_step_frame; [apply type_frame|exact Hq|exact H|]. clear. intros q m Hq H.
  eapply index_step_frame; [apply user_frame|exact Hq|exact H|]. clear. intros q m Hq H.
  eapply index_step_frame; [apply bool_frame|exact Hq|exact H|]. clear. intros q m Hq H.
  eapply index_step_frame; [apply sens_frame|exact Hq|exact H|]. clear. intros q m Hq H.
  by eapply index_symtab_frame; [apply cat_frame|..].
Qed.

(** ** The rules *)

Record rules := mk_rules {
  ru_te : avtab;
  ru_cond_te : avtab;
  ru_cond : list cond_node;
  ru_role_tr : list role_trans;
  ru_role_allow : list role_allow;
  ru_filename : list filename_trans
}.

Definition with_rules (p : policydb) (r : rules) : policydb :=
  mk_policydb (mls_enabled p) (p_commons p) (p_classes p) (p_roles p) (p_types p) (p_users p) (p_bools p) (p_levels p)
    (p_cats p) (sym_val_to_name p) (class_val_to_struct p) (role_val_to_struct p) (user_val_to_struct p)
    (type_val_to_struct_array p) (ru_te r) (ru_role_tr r) (ru_filename r) (bool_store p)
    (bool_val_to_struct p) (ru_cond_te r) (ru_cond r) (ru_role_allow r) (ocontexts p) (genfs_list p)
    (range_tr p) (type_attr_map_array p) (policycaps p) (permissive_map p) (pd_len p) (policyvers p)
    (reject_unknown p) (allow_unknown p) (process_class p) (process_trans_perms p).

Record no_rules (p : policydb) : Prop := mk_no_rules {
  nr_te : at_ids (te_avtab p) = 0%nat;
  nr_cond_te : at_ids (te_cond_avtab p) = 0%nat;
  nr_filename : filename_trans_list p = []
}.

(** [p] has the symbols. *)
Record rules_fit (p : policydb) (r : rules) : Prop := mk_rules_fit {
  uf_te : avtab_fits p (ru_te r);
  uf_nel : 0 < at_nel (ru_te r) < 2 ^ 32;
  uf_slots : same_slots (ru_te r) (fresh_avtab (at_nel (ru_te r)));
  uf_cond_te : avtab_wf (ru_cond_te r);
  uf_cond : exists b, cond_write_list (with_rules p r) (ru_cond r) = Some b /\
    reads (cond_read_list (set_te_avtab p (ru_te r))) b (set_cond_list (set_te_cond_avtab (set_te_avtab p (ru_te r)) (ru_cond_te r)) (ru_cond r));
  uf_role_tr : list_fits (role_trans_fits p) (ru_role_tr r);
  uf_role_allow : list_fits (role_allow_fits p) (ru_role_allow r);
  uf_filename : list_fits filename_fits (ru_filename r)
}.

Lemma cond_write_same p q l : te_cond_avtab p = te_cond_avtab q -> cond_write_list p l = cond_write_list q l.
Proof. intros E. unfold cond_write_list, cond_write_node, cond_write_av_list. by rewrite E. Qed.

Lemma gives_read_list {A} (c : list A -> reader (list A)) w (P : A -> Prop) B : codec_item c w P B -> gives (read_list c) (list_fits P).
Proof.
  intros Hc. unfold read_list. gv. eapply gives_impl; [apply (gives_counted c P B a []); [apply Hc|done]|].
  by intros l (l1 & -> & Hl & _).
Qed.

Lemma gives_filename p :
  filename_trans_list p = [] -> gives (filename_trans_read p) (list_fits filename_fits).
Proof.
  intros H0. unfold filename_trans_read. rewrite H0. destruct (_ <? _); gv; [by split|].
  eapply gives_impl; [apply (gives_counted _ filename_fits no_bitmaps _ []); [apply filename_codec|done]|]. by intros l (l1 & -> & Hl & _).
Qed.

Lemma gives_rules p info :
  no_symbols p -> no_rules p -> POLICYDB_VERSION_AVTAB <= policyvers p -> pc_sym_num info = 8 ->
  gives (read_rules p info) (fun q => exists s r ix,
    q = with_index (with_rules (with_symbols p s) r) ix /\ syms_fit (with_symbols p s) /\ Forall ebitmap_wf (syms_bitmaps (with_symbols p s)) /\
    rules_fit (with_symbols p s) r /\ policydb_index (with_rules (with_symbols p s) r) [] = Some (0, q, [])).
Proof.
  intros Hs [H1 H2 H3] Hv En. unfold read_rules. rewrite En. eapply gives_bind; [by apply gives_symtabs|]. intros p2 (s & E & Hf & HB).
  assert (te_avtab p2 = te_avtab p /\ te_cond_avtab p2 = te_cond_avtab p /\ filename_trans_list p2 = filename_trans_list p /\ policyvers p2 = policyvers p) as (E1 & E2 & E3 & E4) by (by rewrite E).
  eapply gives_bind; [apply gives_avtab; [by rewrite E4|by rewrite E1]|]. intros te (Hte & Hnel & Hslots). cbv zeta.
  change (policyvers (set_te_avtab p2 te)) with (policyvers p2). rewrite E4, (proj2 (Z.leb_le _ _)) by (unfold POLICYDB_VERSION_AVTAB, POLICYDB_VERSION_BOOL in *; lia).
  eapply gives_bind; [apply gives_cond_list; [by rewrite <- E4 in Hv|by rewrite <- E2 in H2|exact Hnel]|].
  intros p4 (ct & cl & b & E5 & Hct & Hw & Hr).
  eapply gives_bind; [apply (gives_read_list _ _ _ _ (role_trans_codec p4))|]. intros tr Htr.
  eapply gives_bind; [apply (gives_read_list _ _ _ _ (role_allow_codec (set_role_tr p4 tr)))|]. intros ra Hra.
  eapply gives_bind; [apply gives_filename; rewrite E5, <- H3; exact E3|]. intros ft Hft.
  eapply gives_impl; [apply gives_call|]. intros q (m & m' & Ei). apply policydb_index_frame in Ei as [[ix Eq] Ei].
  assert (set_filename_trans_list (set_role_allow_list (set_role_tr p4 tr) ra) ft = with_rules p2 (mk_rules te ct cl tr ra ft)) as E6 by (rewrite E5; reflexivity).
  rewrite E6 in Ei, Eq. rewrite E5 in Htr, Hra, Hr, Hw. exists s, (mk_rules te ct cl tr ra ft), ix. rewrite <- E.
  split; [exact Eq|]. split; [done|]. split; [done|]. split; [|exact Ei].
  apply mk_rules_fit; [exact Hte|exact Hnel|exact Hslots|exact Hct| |exact Htr|exact Hra|exact Hft].
  exists b. split; [|exact Hr]. rewrite <- Hw. by apply cond_write_same.
Qed.

(** A counted list whose items are all written. *)
Lemma reads_read_list {A} c (put : A -> list ascii) (P : A -> Prop) l :
  codec_item c (fun a => Some (put a)) P no_bitmaps -> list_fits P l ->
  reads (read_list c) (put_u32 (Z.of_nat (length l)) ++ concat (put <$> l)) l.
Proof.
  intros Hc Hl. destruct (reads_counted c _ P no_bitmaps [] l Hc Hl (no_bitmaps_ok _ _)) as (bs & Em & Hr).
  by apply mapM_total in Em as ->.
Qed.

Lemma reads_rules_stage p p2 r info q bs :
  no_rules p2 -> POLICYDB_VERSION_FILENAME_TRANS <= policyvers p2 -> pc_sym_num info = 8 ->
  reads (read_symtabs p 8) bs p2 -> rules_fit p2 r -> rules_in_order (ru_te r) -> policydb_index (with_rules p2 r) [] = Some (0, q, []) ->
  exists bt bc, avtab_write (ru_te r) = Some bt /\ cond_write_list (with_rules p2 r) (ru_cond r) = Some bc /\
    reads (read_rules p info) (bs ++ bt ++ bc ++ role_trans_write (ru_role_tr r) ++ role_allow_write (ru_role_allow r) ++
      filename_trans_write (with_rules p2 r)) q.
Proof.
  intros [H1 H2 H3] Hv En Hs [Hte Hnel Hsl Hct (bc & Wc & Rc) Htr Hra Hft] Ho Ei. unfold POLICYDB_VERSION_FILENAME_TRANS in Hv.
  destruct (reads_avtab p2 (ru_te r) (te_avtab p2) ltac:(unfold POLICYDB_VERSION_AVTAB; lia) H1 Hte Ho Hnel Hsl) as (bt & Wt & Rt).
  exists bt, bc. split; [exact Wt|]. split; [exact Wc|]. unfold read_rules. rewrite En. eapply reads_bind; [exact Hs|]. cbn beta.
  eapply reads_bind; [exact Rt|]. cbv beta zeta. set (p3 := set_te_avtab p2 (ru_te r)) in *. change (policyvers p3) with (policyvers p2).
  rewrite (proj2 (Z.leb_le _ _)) by (unfold POLICYDB_VERSION_BOOL; lia). eapply reads_bind; [exact Rc|]. cbv beta.
  set (p4 := set_cond_list (set_te_cond_avtab p3 (ru_cond_te r)) (ru_cond r)).
  eapply reads_bind; [exact (reads_read_list _ _ _ _ (role_trans_codec p4) Htr)|]. cbv beta.
  eapply reads_bind; [exact (reads_read_list _ _ _ _ (role_allow_codec (set_role_tr p4 (ru_role_tr r))) Hra)|]. cbv beta.
  set (p5 := set_role_allow_list _ _). eapply reads_last.
  - unfold filename_trans_read, filename_trans_write. change (policyvers p5) with (policyvers p2). change (filename_trans_list p5) with (filename_trans_list p2).
    rewrite (proj2 (Z.ltb_ge _ _)), H3 by (unfold POLICYDB_VERSION_FILENAME_TRANS; lia). exact (reads_read_list _ _ _ _ filename_codec Hft).
  - cbv beta. apply reads_call. exact Ei.
Qed.

(** ** The objects *)

Record objects := mk_objects {
  ob_class : Z;
  ob_trans : Z;
  ob_ocontexts : list (list ocontext);
  ob_genfs : list genfs;
  ob_ranges : option (hashtab range_trans mls_range);
  ob_attrs : list ebitmap
}.

Definition with_process (p : policydb) (c t : Z) : policydb := set_process_trans_perms (set_process_class p c) t.

Definition with_objects (p : policydb) (o : objects) : policydb :=
  mk_policydb (mls_enabled p) (p_commons p) (p_classes p) (p_roles p) (p_types p) (p_users p) (p_bools p) (p_levels p)
    (p_cats p) (sym_val_to_name p) (class_val_to_struct p) (role_val_to_struct p) (user_val_to_struct p)
    (type_val_to_struct_array p) (te_avtab p) (role_tr p) (filename_trans_list p) (bool_store p)
    (bool_val_to_struct p) (te_cond_avtab p) (cond_list p) (role_allow_list p) (ob_ocontexts o) (ob_genfs o)
    (ob_ranges o) (ob_attrs o) (policycaps p) (permissive_map p) (pd_len p) (policyvers p)
    (reject_unknown p) (allow_unknown p) (ob_class o) (ob_trans o).

Record no_objects (p : policydb) : Prop := mk_no_objects {
  no_ocontexts : ocontexts p = replicate OCON_NUM [];
  no_genfs : genfs_list p = [];
  no_ranges : range_tr p = Some empty_ranges
}.

Definition objects_bitmaps (o : objects) : list ebitmap :=
  ocontexts_bitmaps (ob_ocontexts o) ++ concat (genfs_bitmaps <$> ob_genfs o) ++
  (match ob_ranges o with Some t => ranges_bitmaps t | None => [] end) ++ ob_attrs o.

(** [p] has its index arrays. *)
Record objects_fit (p : policydb) (o : objects) : Prop := mk_objects_fit {
  bf_process : reads (find_process p) [] (with_process p (ob_class o) (ob_trans o));
  bf_class : in_u 32 (ob_class o);
  bf_ocontexts : length (ob_ocontexts o) = OCON_NUM /\ ocontexts_fit (with_process p (ob_class o) (ob_trans o)) 0 (ob_ocontexts o);
  bf_genfs : genfs_list_fits (set_ocontexts (with_process p (ob_class o) (ob_trans o)) (ob_ocontexts o)) (ob_genfs o);
  bf_ranges : exists t, ob_ranges o = Some (with_cmp rangetr_cmp t) /\
    ranges_fit (set_genfs_list (set_ocontexts (with_process p (ob_class o) (ob_trans o)) (ob_ocontexts o)) (ob_genfs o)) t;
  bf_attrs : length (ob_attrs o) = Z.to_nat (st_nprim (p_types p)) /\ attrs_fit 0 (ob_attrs o)
}.

Lemma gives_process p :
  gives (find_process p) (fun q => exists c t, q = with_process p c t /\ in_u 32 c /\ reads (find_process p) [] q).
Proof.
  unfold find_process. repeat gv. eexists _, _. split; [reflexivity|]. split.
  - unfold string_to_security_class in H. apply bind_Some in H as ([d|] & _ & [= <-]); [|done]. unfold u16, in_u. pose proof (Z.mod_pos_bound (cl_value d) (2 ^ 16)). lia.
  - repeat (rd; try eassumption).
Qed.

Lemma gives_objects p info :
  no_objects p -> small_policy p -> 0 <= st_nprim (p_types p) -> pc_ocon_num info = 7 ->
  gives (read_objects p info) (fun q => exists o, q = with_objects p o /\ objects_fit p o /\ Forall ebitmap_wf (objects_bitmaps o)).
Proof.
  intros [H1 H2 H3] Hsm Hty En. unfold read_objects. rewrite En. eapply gives_bind; [apply gives_process|]. intros p1 (c & t & E & Hc & Hr).
  eapply gives_bind; [apply (gives_ocontexts p1 7 0); done|]. intros oc (Hoc & Hfo & HBo). cbv zeta.
  assert (drop (length oc) (ocontexts p1) = []) as Ed. { rewrite E, Hoc. change (ocontexts (with_process p c t)) with (ocontexts p). by rewrite H1. }
  rewrite Ed, app_nil_r. eapply gives_bind; [apply gives_genfs; by rewrite E|]. intros g (Hg & HBg).
  eapply gives_bind; [apply gives_ranges; [rewrite E; exact Hsm|rewrite E; exact Hc|rewrite E; exact H3]|]. intros rt (rt' & Ert & Hrt & HBr).
  gv. gv. eapply gives_bind; [apply gives_type_attrs; [lia|]|]. { rewrite E. destruct Hsm. change (p_types _) with (p_types p). lia. }
  intros attrs (Hla & Hat). gv. exists (mk_objects c t oc g rt attrs). rewrite E. split; [reflexivity|]. rewrite E in Hr, Hfo, Hg, Hrt, Hla. split.
  - apply mk_objects_fit; [exact Hr|exact Hc|exact (conj Hoc Hfo)|exact Hg|exact (ex_intro _ rt' (conj Ert Hrt))|exact (conj Hla Hat)].
  - unfold objects_bitmaps. cbn [ob_ocontexts ob_genfs ob_ranges ob_attrs]. rewrite Ert, !Forall_app. split_and!; [done|done|exact HBr|].
    apply Forall_lookup. intros j e He. by apply (Hat j e).
Qed.

(** [range_write] counts in an [int]. *)
Definition few_ranges (h : option (hashtab range_trans mls_range)) : Prop :=
  match h with Some t => Z.of_nat (length (entries t)) < 2 ^ 31 | None => True end.

Lemma reads_objects_stage p info o :
  no_objects p -> POLICYDB_VERSION_RANGETRANS <= policyvers p -> 0 <= st_nprim (p_types p) -> pc_ocon_num info = 7 -> objects_fit p o ->
  Forall storable (objects_bitmaps o) -> few_ranges (ob_ranges o) ->
  exists bo bg br ba, ocontext_write (ob_ocontexts o) 7 0 = Some bo /\ genfs_write (with_objects p o) = Some bg /\
    range_write (with_objects p o) = Some br /\ write_type_attrs (with_objects p o) = Some ba /\
    reads (read_objects p info) (bo ++ bg ++ br ++ ba) (with_objects p o).
Proof.
  intros [H1 H2 H3] Hv Hty En [Hr Hc [Hlo Hfo] Hg (t & Et & Ht) [Hla Hat]] HB Hfew. unfold POLICYDB_VERSION_RANGETRANS in Hv.
  unfold objects_bitmaps in HB. rewrite Et, !Forall_app in HB. destruct HB as (HBo & HBg & HBr & HBa).
  set (p1 := with_process p (ob_class o) (ob_trans o)) in *. set (p2 := set_ocontexts p1 (ob_ocontexts o)) in *. set (p3 := set_genfs_list p2 (ob_genfs o)) in *.
  destruct (reads_ocontexts p1 (ob_ocontexts o) 7 0) as (bo & Wo & Ro); [unfold POLICYDB_VERSION_MLS; change (policyvers p1) with (policyvers p); lia|by rewrite Hlo|done..|].
  destruct (reads_genfs p2 (with_objects p o)) as (bg & Wg & Rg); [unfold POLICYDB_VERSION_MLS; change (policyvers p2) with (policyvers p); lia|exact H2|exact Hg|exact HBg|].
  destruct (reads_ranges p3 (with_objects p o) t) as (br & Wr & Rr); [exact Hv|reflexivity|exact H3|exact Et|exact Ht|exact HBr|rewrite Et in Hfew; exact Hfew|].
  set (p4 := set_range_tr p3 (ob_ranges o)).
  assert (POLICYDB_VERSION_AVTAB <= policyvers p4) as Hv4 by (unfold POLICYDB_VERSION_AVTAB; change (policyvers p4) with (policyvers p); lia).
  pose proof (reads_type_attrs p4 (ob_attrs o) 0 Hv4 Hat HBa) as Ra. rewrite Hla in Ra.
  exists bo, bg, br, (concat (ebitmap_write <$> ob_attrs o)). split; [exact Wo|]. split; [exact Wg|]. split; [exact Wr|]. split.
  { unfold write_type_attrs. change (type_attr_map_array (with_objects p o)) with (ob_attrs o). change (p_types (with_objects p o)) with (p_types p).
    rewrite Hla, (proj2 (Z.ltb_ge _ _)), <- Hla, take_ge by lia. reflexivity. }
  unfold read_objects. rewrite En. eapply reads_step; [exact Hr|]. cbv beta. fold p1. eapply reads_bind; [exact Ro|]. cbv beta zeta.
  assert (drop (length (ob_ocontexts o)) (ocontexts p1) = []) as Ed. { change (ocontexts p1) with (ocontexts p). by rewrite H1, Hlo. }
  rewrite drop_0, Ed, app_nil_r. fold p2. eapply reads_bind; [exact Rg|]. cbv beta. change (genfs_list (with_objects p o)) with (ob_genfs o). fold p3.
  eapply reads_bind; [exact Rr|]. cbv beta. change (range_tr (with_objects p o)) with (ob_ranges o). fold p4. rd. rd.
  eapply reads_last; [exact Ra|]. apply reads_ret.
Qed.

(** ** The whole file *)

Definition assembled (p : policydb) (s : symbols) (r : rules) (ix : index_arrays) (o : objects) : policydb :=
  with_objects (with_index (with_rules (with_symbols p s) r) ix) o.

(** The database [p] has its header and nothing else. *)
Record unread (p : policydb) : Prop := mk_unread {
  un_symbols : no_symbols p;
  un_rules : no_rules p;
  un_objects : no_objects p;
  un_names : sym_val_to_name p = replicate SYM_NUM None
}.

Lemma stage1_unread h : unread (stage1 h).
Proof. split; [split; reflexivity..|reflexivity]. Qed.

(** What [policydb_read] has established of the parts when it returns 0. *)
Record accepted (p : policydb) (s : symbols) (r : rules) (ix : index_arrays) (o : objects) : Prop := mk_accepted {
  ac_unread : unread p;
  ac_syms : syms_fit (with_symbols p s);
  ac_syms_bitmaps : Forall ebitmap_wf (syms_bitmaps (with_symbols p s));
  ac_rules : rules_fit (with_symbols p s) r;
  ac_index : policydb_index (with_rules (with_symbols p s) r) [] = Some (0, with_index (with_rules (with_symbols p s) r) ix, []);
  ac_objects : objects_fit (with_index (with_rules (with_symbols p s) r) ix) o;
  ac_objects_bitmaps : Forall ebitmap_wf (objects_bitmaps o);
  ac_bounds : policydb_bounds_sanity_check (assembled p s r ix o) = Some 0
}.

(** Reading never changes the version, nor the objects the tables of types and classes. *)
Ltac any := eapply gives_bind; [apply gives_any|cbv beta; let x := fresh in intros x _; match type of x with prod _ _ => destruct x as [? ?] | _ => idtac end; cbv beta iota zeta].

Definition same_frame (p q : policydb) : Prop := policyvers q = policyvers p /\ ocontexts q = ocontexts p.

Lemma symtabs_frame p n : gives (read_symtabs p n) (same_frame p).
Proof.
  unfold read_symtabs. cbv zeta. do 5 any.
  eapply (gives_bind _ _ (same_frame p)).
  { destruct (_ <? _); [|by gv]. any. match goal with x : prod _ _ |- _ => destruct x end. by gv. }
  intros q Hq. eapply (gives_bind _ _ (same_frame p)); [destruct (_ <? _); [any|]; by gv|].
  intros q' Hq'. destruct (_ <? _); [any|]; by gv.
Qed.

Lemma rules_frame p info : gives (read_rules p info) (same_frame p).
Proof.
  unfold read_rules. eapply gives_bind; [apply symtabs_frame|]. intros p1 E1. any.
  eapply (gives_bind _ _ (same_frame p)).
  { destruct (_ <=? _); [|by gv]. unfold cond_read_list. do 3 any. by gv. }
  intros p2 E2. do 3 any. eapply gives_impl; [apply gives_call|]. intros q (m & m' & [[ix ->] _]%policydb_index_frame). exact E2.
Qed.

Lemma objects_frame p info : gives (read_objects p info) (fun q => policyvers q = policyvers p /\ (small_policy q -> small_policy p)).
Proof.
  unfold read_objects. eapply gives_bind; [apply gives_process|]. intros p1 (c & t & -> & _). do 6 any. by gv.
Qed.

Lemma compat_info v :
  POLICYDB_VERSION_AVTAB <= v <= POLICYDB_VERSION_MAX -> policydb_lookup_compat v = Some (mk_compat v 8 7).
Proof.
  intros Hv. assert (v = 20 \/ v = 21 \/ v = 22 \/ v = 23 \/ v = 24 \/ v = 25) as Hc.
  { unfold POLICYDB_VERSION_AVTAB, POLICYDB_VERSION_MAX, POLICYDB_VERSION_FILENAME_TRANS in Hv. lia. }
  by repeat destruct Hc as [->|Hc]; subst.
Qed.

Lemma gives_file :
  gives (read_file initial_policydb) (fun q => POLICYDB_VERSION_AVTAB <= policyvers q -> small_policy q ->
    exists h s r ix o, header_fits h /\ ebitmap_wf (hd_caps h) /\ ebitmap_wf (hd_permissive h) /\
      q = assembled (stage1 h) s r ix o /\ accepted (stage1 h) s r ix o).
Proof.
  unfold read_file. eapply gives_bind; [apply gives_header|]. intros [[p0 sn] on] (h0 & E0 & Hh & Hc0 & Hp0). cbn [fst] in E0. rewrite E0. clear p0 E0.
  eapply gives_bind; [by apply gives_maps|]. intros p1 (e1 & e2 & E1 & He1 & He2). set (h := mk_header _ _ _ _ _ _) in E1.
  assert (header_fits h) as Hh1 by exact Hh. assert (ebitmap_wf (hd_caps h)) as Hb1 by exact He1. assert (ebitmap_wf (hd_permissive h)) as Hb2 by exact He2.
  clearbody h. clear h0 Hh Hc0 Hp0 e1 e2 He1 He2.
  assert (policyvers p1 = hd_vers h) as Ev by (rewrite E1; reflexivity). pose proof (stage1_unread h) as Hun. rewrite <- E1 in Hun.
  destruct (Z.leb_spec POLICYDB_VERSION_AVTAB (hd_vers h)) as [Hv|Hv].
  - rewrite Ev, compat_info by (split; [exact Hv|apply Hh1]). cbn [valid].
    eapply (gives_bind _ _ (fun i => i = mk_compat (hd_vers h) 8 7)); [by gv|]. intros _ ->. any.
    eapply gives_bind; [apply gives_rules; [apply Hun|apply Hun|by rewrite Ev|reflexivity]|].
    intros q (s & r & ix & Eq & Hs & HBs & Hr & Hi).
    assert (0 <= st_nprim (p_types q) /\ no_objects q) as [Hty Hno].
    { rewrite Eq. split; [apply (sy_types _ Hs)|]. destruct (un_objects _ Hun) as [N1 N2 N3]. split; [exact N1|exact N2|exact N3]. }
    destruct (decide (st_nprim (p_types q) < 2 ^ 31 /\ st_nprim (p_classes q) < 2 ^ 31)) as [Hsm|Hsm].
    + eapply gives_bind; [apply gives_objects; [exact Hno|exact Hsm|exact Hty|reflexivity]|]. intros q' (o & Eq' & Ho & HBo).
      eapply gives_bind; [apply gives_call|]. intros [] (m & m' & Hbd). gv. intros _ _. exists h, s, r, ix, o.
      split; [done|]. split; [done|]. split; [done|]. rewrite Eq', Eq in *. rewrite <- E1. split; [reflexivity|].
      apply bind_Some in Hbd as (rc & Hbd & Hrc). assert (rc = 0) as -> by congruence.
      by apply mk_accepted.
    + eapply gives_bind; [apply objects_frame|]. intros q' [_ Hq]. any. gv. intros _ Hsm'. destruct Hsm. apply (Hq Hsm').
  - any. any. eapply gives_bind; [apply rules_frame|]. intros q [Eq _]. eapply gives_bind; [apply objects_frame|]. intros q' [Eq' _]. any. gv.
    intros Hv'. rewrite Eq', Eq, Ev in Hv'. lia.
Qed.

Lemma gives_policydb :
  gives policydb_read (fun q => POLICYDB_VERSION_AVTAB <= policyvers q -> small_policy q ->
    exists h s r ix o, header_fits h /\ ebitmap_wf (hd_caps h) /\ ebitmap_wf (hd_permissive h) /\
      q = assembled (stage1 h) s r ix o /\ accepted (stage1 h) s r ix o).
Proof.
  intros fp m q fp' m' H. unfold policydb_read in H. destruct (policydb_init m) as [[[[rc p] freed] m1]|] eqn:E; [|done].
  destruct (nz rc) eqn:Er; [done|]. apply nz_false in Er as ->. destruct freed; [done|]. apply policydb_init_ok in E as ->; [|done].
  exact (gives_file _ _ _ _ _ H).
Qed.

(** The object contexts, whatever the version: contexts of the policy, and no
    SIDs but the initial ones. *)
Record plain_objects (q : policydb) : Prop := mk_plain_objects {
  po_len : length (ocontexts q) = OCON_NUM;
  po_plain : forall i l c, ocontexts q !! i = Some l -> c ∈ l ->
    c_len (oc_context0 c) = 0 /\ c_len (oc_context1 c) = 0 /\ (i <> OCON_ISID -> oc_sid0 c = 0)
}.

Lemma ocon_fits_plain p i c :
  ocon_fits p i c -> c_len (oc_context0 c) = 0 /\ c_len (oc_context1 c) = 0 /\ (i <> OCON_ISID -> oc_sid0 c = 0).
Proof.
  intros [Hk H0 H1 _]. split; [apply H0|]. split.
  - destruct (decide _); [apply H1|by rewrite H1].
  - unfold ocon_key_fits, OCON_ISID in *. destruct i as [|[|[|[|[|[|[|i]]]]]]]; [done|..|by destruct (oc_u c)];
      intros _; destruct (oc_u c); try done; by destruct_and!.
Qed.

Lemma objects_plain p info :
  ocontexts p = replicate OCON_NUM [] -> 0 <= pc_ocon_num info <= 7 -> gives (read_objects p info) plain_objects.
Proof.
  intros Hp Hn. unfold read_objects. eapply gives_bind; [apply gives_process|]. intros p1 (c & t & -> & _).
  eapply gives_bind; [apply gives_ocontexts; unfold OCON_NUM; lia|]. intros oc (Hl & Hf & _). do 5 any. gv.
  change (ocontexts (with_process p c t)) with (ocontexts p). rewrite Hp. split; cbn [ocontexts set_type_attr_map_array set_range_tr set_genfs_list set_ocontexts].
  - rewrite length_app, length_drop, length_replicate, Hl. unfold OCON_NUM. lia.
  - intros i l x Hi Hx. apply lookup_app_Some in Hi as [Hi|[_ Hi]].
    + destruct (Hf i l Hi) as [HF _]. rewrite Forall_forall in HF. by eapply ocon_fits_plain, HF.
    + rewrite lookup_drop in Hi. apply lookup_replicate in Hi as [-> _]. by apply elem_of_nil in Hx.
Qed.

Lemma compat_ocons v info : policydb_lookup_compat v = Some info -> 0 <= pc_ocon_num info <= 7.
Proof.
  unfold policydb_lookup_compat. intros H. apply List.find_some in H as [H _]. revert info H. apply List.Forall_forall.
  unfold policydb_compat. repeat (apply List.Forall_cons; [by vm_compute|]). apply List.Forall_nil.
Qed.

Lemma gives_plain_objects : gives policydb_read plain_objects.
Proof.
  intros fp m q fp' m' H. unfold policydb_read in H. destruct (policydb_init m) as [[[[rc p] freed] m1]|] eqn:E; [|done].
  destruct (nz rc) eqn:Er; [done|]. apply nz_false in Er as ->. destruct freed; [done|]. apply policydb_init_ok in E as ->; [|done].
  revert fp m1 q fp' m' H. change (gives (read_file initial_policydb) plain_objects). unfold read_file.
  eapply gives_bind; [apply gives_header|]. intros [[p0 sn] on] (h0 & E0 & Hh & Hc0 & Hp0). cbn [fst] in E0. rewrite E0.
  eapply gives_bind; [by apply gives_maps|]. intros p1 (e1 & e2 & E1 & _). assert (ocontexts p1 = replicate OCON_NUM []) as Ho by by rewrite E1.
  eapply (gives_bind _ _ (fun i => policydb_lookup_compat (policyvers p1) = Some i)).
  { unfold valid. destruct (policydb_lookup_compat (policyvers p1)); by gv. }
  intros info Hi%compat_ocons. any. eapply gives_bind; [apply rules_frame|]. intros p2 [_ E2].
  eapply gives_bind; [apply objects_plain; [by rewrite E2|done]|]. intros q Hq. any. by gv.
Qed.

(** ** What can be written so that the same policy is read *)

Definition objects_of (q : policydb) : objects :=
  mk_objects (process_class q) (process_trans_perms q) (ocontexts q) (genfs_list q) (range_tr q) (type_attr_map_array q).

Definition policy_bitmaps (q : policydb) : list ebitmap :=
  policycaps q :: permissive_map q :: syms_bitmaps q ++ objects_bitmaps (objects_of q).

(** [sp_bools] and [sp_rules] compare addresses: booleans and rules were
    allocated in the order in which the writer finds them in their tables, as
    they are when the file was itself written by [policydb_write]. *)
Record storable_policy (q : policydb) : Prop := mk_storable_policy {
  sp_vers : policyvers q = POLICYDB_VERSION_FILENAME_TRANS;
  sp_small : small_policy q;
  sp_bitmaps : Forall storable (policy_bitmaps q);
  sp_commons : commons_named q;
  sp_bools : bools_in_order q;
  sp_rules : rules_in_order (te_avtab q);
  sp_ranges : few_ranges (range_tr q)
}.

Lemma syms_fit_assembled p s r ix o : syms_fit (with_symbols p s) -> syms_fit (assembled p s r ix o).
Proof. intros [S1 S2 S3 S4 S5 S6 S7 S8]. apply mk_syms_fit; [exact S1|exact S2|exact S3|exact S4|exact S5|exact S6|exact S7|exact S8]. Qed.

(** The part of the file after the bitmaps. *)
Lemma reads_body p s r ix o info :
  let q := assembled p s r ix o in
  accepted p s r ix o -> storable_policy q -> pc_sym_num info = 8 -> pc_ocon_num info = 7 ->
  exists syms te cond oc g rt attrs, write_symtabs q 8 = Some syms /\ avtab_write (te_avtab q) = Some te /\
    cond_write_list q (cond_list q) = Some cond /\ ocontext_write (ocontexts q) 7 0 = Some oc /\ genfs_write q = Some g /\
    range_write q = Some rt /\ write_type_attrs q = Some attrs /\
    reads (p1 ← read_rules p info; p2 ← read_objects p1 info;
           _ ← call (fun m => rc ← policydb_bounds_sanity_check p2; Some (rc, tt, m)); mret p2)
          (syms ++ te ++ cond ++ role_trans_write (role_tr q) ++ role_allow_write (role_allow_list q) ++ filename_trans_write q ++ oc ++ g ++ rt ++ attrs) q.
Proof.
  intros q [[Hns Hnr Hno _] Hsy HBs Hru Hix Hob HBo Hbd] [Hv Hsm HB Hcn Hbo Hro Hfew] En Eo. unfold policy_bitmaps in HB.
  apply Forall_cons in HB as [_ HB]. apply Forall_cons in HB as [_ HB]. apply Forall_app in HB as [HB1 HB2].
  change (policyvers q) with (policyvers p) in Hv. unfold POLICYDB_VERSION_FILENAME_TRANS in Hv.
  destruct (reads_symtabs p q Hns eq_refl) as (bs & Ws & Rs); [unfold has_bounds; by rewrite Hv|by apply syms_fit_assembled|exact HB1|exact Hcn|exact Hbo|].
  assert (with_symbols p (symbols_of q) = with_symbols p s) as E by (by destruct s). rewrite E in Rs.
  destruct (reads_rules_stage p (with_symbols p s) r info (with_index (with_rules (with_symbols p s) r) ix) bs) as (bt & bc & Wt & Wc & Rr);
    [destruct Hnr as [N1 N2 N3]; split; [exact N1|exact N2|exact N3]|unfold POLICYDB_VERSION_FILENAME_TRANS; change (policyvers (with_symbols p s)) with (policyvers p); lia|exact En|exact Rs|exact Hru|exact Hro|exact Hix|].
  set (p1 := with_index (with_rules (with_symbols p s) r) ix) in *.
  destruct (reads_objects_stage p1 info o) as (bo & bg & br & ba & Wo & Wg & Wr & Wa & Ro);
    [destruct Hno as [N1 N2 N3]; split; [exact N1|exact N2|exact N3]|unfold POLICYDB_VERSION_RANGETRANS; change (policyvers p1) with (policyvers p); lia|apply (sy_types _ Hsy)|exact Eo|exact Hob|exact HB2|exact Hfew|].
  exists bs, bt, bc, bo, bg, br, ba. split_and!; [exact Ws|exact Wt| |exact Wo|exact Wg|exact Wr|exact Wa|].
  { rewrite <- Wc. by apply cond_write_same. }
  replace (bs ++ _) with ((bs ++ bt ++ bc ++ role_trans_write (role_tr q) ++ role_allow_write (role_allow_list q) ++ filename_trans_write q) ++ (bo ++ bg ++ br ++ ba))
    by (rewrite <- !app_assoc; reflexivity).
  eapply reads_bind; [exact Rr|]. cbv beta. eapply reads_last; [exact Ro|]. cbv beta. change (with_objects p1 o) with q. eapply reads_step.
  - apply reads_call. change (policydb_bounds_sanity_check q = Some 0) in Hbd. rewrite Hbd. reflexivity.
  - apply reads_ret.
Qed.

Lemma reads_policydb b q : reads (read_file initial_policydb) b q -> reads policydb_read b q.
Proof. intros H rest. unfold policydb_read. rewrite policydb_init_mem. exact (H rest). Qed.

(** The bytes [policydb_write] writes for [q], given those of its parts. *)
Lemma policydb_write_parts q syms te cond oc g rt attrs :
  policyvers q = POLICYDB_VERSION_FILENAME_TRANS ->
  write_symtabs q 8 = Some syms -> avtab_write (te_avtab q) = Some te -> cond_write_list q (cond_list q) = Some cond ->
  ocontext_write (ocontexts q) 7 0 = Some oc -> genfs_write q = Some g -> range_write q = Some rt -> write_type_attrs q = Some attrs ->
  policydb_write q = Some (0, write_header q (mk_compat 25 8 7) ++ write_maps q ++ syms ++ te ++ cond ++ role_trans_write (role_tr q) ++
    role_allow_write (role_allow_list q) ++ filename_trans_write q ++ oc ++ g ++ rt ++ attrs).
Proof.
  intros Hv W1 W2 W3 W4 W5 W6 W7. unfold policydb_write. rewrite Hv.
  change (policydb_lookup_compat POLICYDB_VERSION_FILENAME_TRANS) with (Some (mk_compat 25 8 7)).
  change (POLICYDB_VERSION_FILENAME_TRANS <? POLICYDB_VERSION_AVTAB) with false. cbn [pc_sym_num pc_ocon_num].
  change (Z.to_nat 7) with 7%nat. rewrite W1, W2, W3, W4, W5, W6, W7. reflexivity.
Qed.

(** What [stage1] takes from the header. *)
Record header_of (h : header) (p : policydb) : Prop := mk_header_of {
  ho_vers : policyvers p = hd_vers h;
  ho_mls : mls_enabled p = hd_mls h;
  ho_reject : reject_unknown p = hd_reject h;
  ho_allow : allow_unknown p = hd_allow h;
  ho_caps : policycaps p = hd_caps h;
  ho_permissive : permissive_map p = hd_permissive h
}.

Lemma stage1_header h : header_of h (stage1 h).
Proof. split; reflexivity. Qed.

Lemma reads_file h p q b :
  p = stage1 h -> header_fits h -> header_of h q -> policyvers q = POLICYDB_VERSION_FILENAME_TRANS -> storable (policycaps q) -> storable (permissive_map q) ->
  reads (p1 ← read_rules p (mk_compat 25 8 7); p2 ← read_objects p1 (mk_compat 25 8 7);
         _ ← call (fun m => rc ← policydb_bounds_sanity_check p2; Some (rc, tt, m)); mret p2) b q ->
  reads (read_file initial_policydb) (write_header q (mk_compat 25 8 7) ++ write_maps q ++ b) q.
Proof.
  intros Ep Hh [E1 E2 E3 E4 E5 E6] Hv B1 B2 R. unfold read_file. eapply reads_bind; [by apply (reads_header h)|]. cbv beta iota.
  eapply reads_bind; [apply (reads_maps h); [rewrite <- E1, Hv; done|done|done|done|by rewrite <- E5|by rewrite <- E6]|]. cbv beta.
  assert (policyvers p = 25) as Ev by (rewrite Ep, (ho_vers _ _ (stage1_header h)), <- E1; exact Hv).
  rewrite <- Ep, Ev. change (policydb_lookup_compat 25) with (Some (mk_compat 25 8 7)). cbn [valid]. rd. rd; [done|]. exact R.
Qed.

Lemma roundtrip_parts h p s r ix o :
  p = stage1 h -> header_fits h -> accepted p s r ix o -> storable_policy (assembled p s r ix o) ->
  exists b, policydb_write (assembled p s r ix o) = Some (0, b) /\ reads policydb_read b (assembled p s r ix o).
Proof.
  intros Ep Hh Hac Hsp. pose proof (sp_vers _ Hsp) as Hv.
  pose proof (sp_bitmaps _ Hsp) as HB. unfold policy_bitmaps in HB. apply Forall_cons in HB as [B1 HB]. apply Forall_cons in HB as [B2 _].
  destruct (reads_body p s r ix o (mk_compat 25 8 7) Hac Hsp eq_refl eq_refl) as (syms & te & cond & oc & g & rt & attrs & W1 & W2 & W3 & W4 & W5 & W6 & W7 & R).
  pose proof (stage1_header h) as Hho. rewrite <- Ep in Hho. destruct Hho as [E1 E2 E3 E4 E5 E6].
  assert (header_of h (assembled p s r ix o)) as Hho by (split; [exact E1|exact E2|exact E3|exact E4|exact E5|exact E6]).
  eexists. split; [by apply policydb_write_parts|]. apply reads_policydb. by apply (reads_file h p).
Qed.

(** ** A file with every kind of object *)

Definition sample_ranges : option (hashtab range_trans mls_range) :=
  match hashtab_insert (Some empty_ranges) (mk_range_trans 1 2 1) (mk_mls_range (level 1 []) (level 2 [1; 3])) [] with
  | Some (_, h, _) => h
  | None => None
  end.

Definition sample_objects : policydb :=
  let p := set_ocontexts sample
    [[ocon ONone 0 init_ctx context_init 1; ocon ONone 0 tmp_ctx context_init 3];
     [];
     [ocon (OPort 6 80 80) 0 etc_ctx context_init 0];
     [ocon (OName "eth0"%string) 0 init_ctx etc_ctx 0];
     [ocon (ONode 16777343 4294967295) 0 user_ctx context_init 0];
     [ocon (OName "ext3"%string) 1 init_ctx context_init 0];
     [ocon (ONode6 [0; 0; 0; 1] [1; 2; 3; 4]) 0 user_ctx context_init 0]] in
  let p := set_genfs_list p
    [mk_genfs "proc"%string [ocon (OName "/kmsg"%string) 0 etc_ctx context_init 0; ocon (OName "/"%string) 0 tmp_ctx context_init 0]] in
  let p := set_range_tr p sample_ranges in
  let p := set_role_tr p [mk_role_trans 2 3 2] in
  let p := set_role_allow_list p [mk_role_allow 2 1] in
  let p := set_policycaps p (bitmap_of [0]) in
  set_filename_trans_list p [mk_filename_trans 1 3 2 "tmpfile"%string 4].

Definition file_of (p : policydb) : list ascii := match policydb_write p with Some (_, b) => b | None => [] end.
Definition policy_of (b : list ascii) : policydb := match policydb_read b [] with Some (Done p _ _) => p | _ => policydb_zero end.

(** The file of the policy that was read from the file of [sample_objects]. *)
Definition sample_file : list ascii := file_of (policy_of (file_of sample_objects)).
Definition sample_read : policydb := policy_of sample_file.

Definition reads_well (b : list ascii) : bool := match policydb_read b [] with Some (Done _ [] []) => true | _ => false end.

Lemma reads_well_done b : reads_well b = true -> policydb_read b [] = Some (Done (policy_of b) [] []).
Proof. unfold reads_well, policy_of. by destruct (policydb_read b []) as [[p [|] []|]|]. Qed.

Lemma sample_file_reads : policydb_read sample_file [] = Some (Done sample_read [] []).
Proof. apply reads_well_done. vm_compute. reflexivity. Qed.

(** A bitmap is canonical when it is the one its bits make. *)
Definition storableb (e : ebitmap) : bool :=
  ebitmap_cmp e (bitmap_of (ebitmap_bits e)) && forallb (fun b => (0 <=? b) && (b <? 2 ^ 31)) (ebitmap_bits e) && (eb_highbit e <? 2 ^ 31).

Lemma storableb_sound e : storableb e = true -> storable e.
Proof.
  intros [[H1 H2]%andb_prop H3]%andb_prop. apply ebitmap_cmp_eq in H1. split; [|lia]. rewrite H1. apply bitmap_of_canon.
  rewrite forallb_forall in H2. apply Forall_forall. intros b Hb. specialize (H2 b (proj1 (list_elem_of_In _ _) Hb)). lia.
Qed.

(** The other conditions, computed. *)
Lemma bools_in_order_by p l :
  (fun t => (entries t).*2) <$> st_table (p_bools p) = Some l -> l = seq 0 (length (bool_store p)) -> bools_in_order p.
Proof. unfold bools_in_order, in_order. destruct (st_table (p_bools p)); [|done]. by intros [= ->] ->. Qed.

Lemma few_ranges_by h n : (fun t => Z.of_nat (length (entries t))) <$> h = Some n -> n < 2 ^ 31 -> few_ranges h.
Proof. destruct h; [|done]. by intros [= <-]. Qed.

Lemma commons_named_by p :
  match hashtab_search (st_table (p_commons p)) EmptyString with Some (Some _) => false | _ => true end = true -> commons_named p.
Proof. intros H cd E. by rewrite E in H. Qed.

Lemma storable_by l : forallb storableb l = true -> Forall storable l.
Proof. rewrite forallb_forall. intros H. apply Forall_forall. intros e He. by apply storableb_sound, H, list_elem_of_In. Qed.

Lemma sample_read_storable : storable_policy sample_read.
Proof.
  apply mk_storable_policy.
  - vm_compute. reflexivity.
  - split; vm_compute; reflexivity.
  - apply storable_by. vm_compute. reflexivity.
  - apply commons_named_by. vm_compute. reflexivity.
  - eapply bools_in_order_by; vm_compute; reflexivity.
  - vm_compute. reflexivity.
  - apply (few_ranges_by _ 1); [vm_compute; reflexivity|lia].
Qed.

(** ** Properties *)

(** C19: the policy [policydb_read] has accepted is written by [policydb_write]
    without an error, and from the bytes written, whatever follows them in the
    file, [policydb_read] reads exactly the same policy and stops behind them.
    The policy is of the newest version, its bitmaps are in the form
    [ebitmap_set_bit] keeps, its types and classes are numbered below 2^31, it
    has less than 2^31 range transitions, no common has the empty name, and its
    booleans and rules were allocated in the order of their tables. *)
Theorem policy_file_roundtrip fp m q fp' m' :
  policydb_read fp m = Some (Done q fp' m') -> storable_policy q ->
  exists b, policydb_write q = Some (0, b) /\ forall rest, policydb_read (b ++ rest) [] = Some (Done q rest []).
Proof.
  intros H Hs. pose proof (sp_vers _ Hs) as Hv.
  destruct (gives_policydb _ _ _ _ _ H) as (h & s & r & ix & o & Hh & _ & _ & -> & Ha); [by rewrite Hv|apply Hs|].
  exact (roundtrip_parts h (stage1 h) s r ix o eq_refl Hh Ha Hs).
Qed.

Lemma policy_file_roundtrip_witness :
  policydb_read sample_file [] = Some (Done sample_read [] []) /\
  exists b, policydb_write sample_read = Some (0, b) /\ forall rest, policydb_read (b ++ rest) [] = Some (Done sample_read rest []).
Proof.
  split; [exact sample_file_reads|].
  apply (policy_file_roundtrip sample_file [] sample_read [] [] sample_file_reads sample_read_storable).
Defined.
