(* ===== verification/PolicyAccepted.v ===== *)
(** * What an accepted policy promises to the security server

    [policydb_read] checks a policy file while it reads it; the decisions of
    the security server rely on more than it checks.  [compiled] is what is
    left to the policy compiler; together they give [policy_ok], under which
    access decisions never fail. *)

From Stdlib Require Import Ascii String.
From S2P Require Import Prelude Ebitmap Hashtab PolicyFile Context Sidtab Avtab Policydb Mls PolicydbOps Sample Conditional PolicyRead PolicyWrite PolicyTables PolicyCodec PolicyRules PolicyObjects Classmap Services PolicydbProofs PolicyLoad.

(** ** Not checked by the kernel *)

(** The number [v] is the value of a symbol of the table. *)
Definition defines {D} (s : symtab D) (value : D -> Z) (v : Z) : Prop := exists k d, (k, d) ∈ table_list (st_table s) /\ value d = v.

(** Class numbers fit in [u16], type numbers in [int]; every number up to the
    declared one is the value of a symbol (of a type, not an alias of one), so
    that the index the kernel builds has no gaps; the constraints use the attributes and operators the
    kernel knows; a class has at most 32 permissions. *)
Record compiled (p : policydb) : Prop := mk_compiled {
  cp_nclasses : nclasses p < 2 ^ 16;
  cp_ntypes : ntypes p < 2 ^ 31;
  cp_class : forall v, 0 < v <= nclasses p -> defines (p_classes p) cl_value v;
  cp_role : forall v, 0 < v <= nroles p -> defines (p_roles p) r_value v;
  cp_type : forall v, 0 < v <= ntypes p -> exists k d, (k, d) ∈ table_list (st_table (p_types p)) /\ t_value d = v /\ nz (t_primary d) = true;
  cp_shape : forall k d, (k, d) ∈ table_list (st_table (p_classes p)) ->
    Forall (fun c => Forall (fun e => leaf_shape false e = true) (cn_expr c)) (cl_constraints d);
  cp_perms : forall k d, (k, d) ∈ table_list (st_table (p_classes p)) ->
    perms_ok (cl_permissions d) /\ forall c, cl_comdatum d = Some c -> perms_ok (cm_permissions c)
}.

(** ** The tables *)

Lemma table_list_fits {D} size (P : string -> D -> Prop) h k d : otable_fits size P h -> (k, d) ∈ table_list h -> P k d.
Proof.
  intros (t & -> & Ht) Hk. apply (tf_entries _ _ _ Ht k d). unfold entries. cbn [table_list] in Hk.
  rewrite <- (take_drop (Z.to_nat (ht_size t)) (ht_htable t)), concat_app. apply elem_of_app. by left.
Qed.

Lemma table_list_bitmaps {D} (B : D -> list ebitmap) (s : symtab D) k d :
  Forall ebitmap_wf (symtab_bitmaps B s) -> (k, d) ∈ table_list (st_table s) -> Forall ebitmap_wf (B d).
Proof.
  unfold symtab_bitmaps, table_bitmaps. destruct (st_table s) as [t|]; [|by intros _ ?%elem_of_nil].
  rewrite Forall_concat_fmap, Forall_forall. intros HB Hk. apply (HB (k, d)). unfold entries. cbn [table_list] in Hk.
  rewrite <- (take_drop (Z.to_nat (ht_size t)) (ht_htable t)), concat_app. apply elem_of_app. by left.
Qed.

Lemma fits_values {D} size (P : string -> D -> Prop) (s : symtab D) value :
  symtab_fits size P s -> (forall k d, P k d -> 0 <= value d) -> values_in s value.
Proof. intros [Hn Ht] HP. split; [apply Hn|]. intros k d Hk. eapply HP, table_list_fits; [exact Ht|exact Hk]. Qed.

Lemma syms_values p : syms_fit p -> values_ok p.
Proof.
  intros [S1 S2 [S3 _] S4 S5 S6 S7 S8]. split.
  - apply (fits_values _ _ _ _ S1). intros k d H. apply (cf_value _ _ H).
  - apply (fits_values _ _ _ _ S2). intros k d H. apply (lf_value _ _ _ H).
  - apply (fits_values _ _ _ _ S3). intros k d H. apply (rf_value _ _ H).
  - apply (fits_values _ _ _ _ S4). intros k d H. apply (yf_value _ _ _ H).
  - apply (fits_values _ _ _ _ S4). intros k d H. apply (yf_bounds _ _ _ H).
  - apply (fits_values _ _ _ _ S5). intros k d H. apply (sf_value _ _ H).
  - apply (fits_values _ _ _ _ S6). intros k d H. unfold bool_value. destruct (bool_store p !! d) as [b|] eqn:E; [|done].
    apply (bf_datum _ _ _ H b E).
  - apply (fits_values _ _ _ _ S7). intros k d H. apply (ff_level _ _ H).
  - apply (fits_values _ _ _ _ S8). intros k d H. apply (kf_value _ _ H).
Qed.

(** ** Constraints *)

(** The depth the reader counts from -1 is the number of values on the stack less one. *)
Lemma cons_expr_depth_step e n depth' :
  cons_expr_depth false (Z.of_nat n - 1) e = Some depth' -> exists n', depth' = Z.of_nat n' - 1 /\ cons_depth_step e n = Some n'.
Proof.
  unfold cons_expr_depth, cons_depth_step. destruct (_ =? CEXPR_NOT).
  { destruct (Z.ltb_spec (Z.of_nat n - 1) 0); [done|]. intros [= <-]. exists n. split; [done|]. by rewrite (proj2 (Nat.ltb_ge _ _)) by lia. }
  destruct (_ || _).
  { destruct (Z.ltb_spec (Z.of_nat n - 1) 1); [done|]. intros [= <-]. exists (n - 1)%nat. split; [lia|]. by rewrite (proj2 (Nat.ltb_ge _ _)) by lia. }
  change (Z.to_nat CEXPR_MAXDEPTH) with 5%nat. unfold CEXPR_MAXDEPTH.
  assert (forall o, (if Z.of_nat n - 1 =? 5 - 1 then None else Some (Z.of_nat n - 1 + 1)) = Some o ->
    exists n', o = Z.of_nat n' - 1 /\ (if (n =? 5)%nat then None else Some (S n)) = Some n') as Hpush.
  { intros o. destruct (Z.eqb_spec (Z.of_nat n - 1) (5 - 1)); [done|]. intros [= <-]. exists (S n). split; [lia|]. by rewrite (proj2 (Nat.eqb_neq _ _)) by lia. }
  destruct (_ =? CEXPR_ATTR); cbn [orb]; [apply Hpush|]. destruct (_ =? CEXPR_NAMES); [|done]. destruct (negb _); [apply Hpush|done].
Qed.

Lemma cons_depths_depth l n depth' :
  cons_depths false l (Z.of_nat n - 1) = Some depth' -> exists n', depth' = Z.of_nat n' - 1 /\ cons_depth l n = Some n'.
Proof.
  revert n. induction l as [|e l IH]; intros n; cbn [cons_depths cons_depth]; [intros [= <-]; by exists n|].
  intros (d & He & H)%bind_Some. apply cons_expr_depth_step in He as (n1 & -> & ->). by apply IH.
Qed.

Lemma cons_fits_depth c : cons_fits false c -> cons_depth (cn_expr c) 0 = Some 1%nat.
Proof. intros Hc. destruct (cons_depths_depth (cn_expr c) 0 0) as (n' & E & ->); [apply Hc|]. f_equal. lia. Qed.

Lemma accepted_class commons k d :
  class_fits commons k d -> Forall ebitmap_wf (class_bitmaps d) ->
  Forall (fun c => Forall (fun e => leaf_shape false e = true) (cn_expr c)) (cl_constraints d) ->
  perms_ok (cl_permissions d) -> (forall c, cl_comdatum d = Some c -> perms_ok (cm_permissions c)) -> class_ok d.
Proof.
  intros Hf HB Hs Hp Hc. split; [|done|done]. destruct (lf_constraints _ _ _ Hf) as [Hcf _]. apply Forall_app in HB as [HB _].
  unfold conss_bitmaps in HB. rewrite Forall_concat_fmap in HB. apply Forall_forall. intros c Hin.
  rewrite Forall_forall in Hcf, HB, Hs. split; [by apply cons_fits_depth, Hcf|by apply Hs|].
  specialize (HB c Hin). unfold cons_bitmaps in HB. by rewrite Forall_fmap in HB.
Qed.

(** ** Contexts *)

Lemma accepted_context p q c :
  context_fits p c -> p_roles q = p_roles p -> p_users q = p_users p -> p_types q = p_types p -> st_nprim (p_users p) < 2 ^ 32 -> ctx_ok q c.
Proof.
  intros [Hu Hr Ht _ _ _ Hv] E1 E2 E3 Hn. unfold policydb_context_isvalid in Hv. unfold in_u in *.
  destruct (_ || _) eqn:B1 in Hv; [done|]. destruct (_ || _) eqn:B2 in Hv; [done|]. destruct (_ || _) eqn:B3 in Hv; [done|].
  apply orb_false_iff in B1, B2, B3. split; unfold ntypes, nroles; rewrite ?E1, ?E3; lia.
Qed.

(** A context of the policy: its numbers are in range, and it is one of the
    combinations of user, role, type and levels that the policy allows. *)
Definition own_context (p : policydb) (c : context) : Prop := ctx_ok p c /\ policydb_context_isvalid p c = Some true.

(** ** The parts put together *)

Section Accepted.

Context (p : policydb) (s : symbols) (r : rules) (ix : index_arrays) (o : objects).
Context (Ha : accepted p s r ix o).

Let p0 := with_rules (with_symbols p s) r.
Let q := assembled p s r ix o.

Lemma accepted_syms : syms_fit p0.
Proof. destruct (ac_syms _ _ _ _ _ Ha) as [S1 S2 S3 S4 S5 S6 S7 S8]. apply mk_syms_fit; [exact S1|exact S2|exact S3|exact S4|exact S5|exact S6|exact S7|exact S8]. Qed.

Lemma accepted_index : index_inv p0 q.
Proof.
  pose proof (un_names _ (ac_unread _ _ _ _ _ Ha)) as Hn.
  destruct (policydb_index_inv p0 [] _ [] (syms_values _ accepted_syms) Hn (ac_index _ _ _ _ _ Ha)) as [I1 I2 I3 I4 I5 I6 I7 I8 I9 I10 I11 I12 I13 I14 I15 I16].
  apply mk_index_inv; [exact I1|exact I2|exact I3|exact I4|exact I5|exact I6|exact I7|exact I8|exact I9|exact I10|exact I11|exact I12|exact I13|exact I14|exact I15|exact I16].
Qed.

(** A number in an index array leads to a datum of the table. *)
Lemma accepted_struct {D} (t : option (hashtab string D)) value a v d :
  structs_from t value a -> index a (v - 1) = Some (Ptr d) -> exists k, (k, d) ∈ table_list t.
Proof. unfold index. intros Hs H. destruct (_ <? _); [done|]. by destruct (Hs _ _ H). Qed.

Lemma accepted_type v d :
  POLICYDB_VERSION_AVTAB <= policyvers q -> 0 < v < 2 ^ 32 -> type_at q v = Some d ->
  0 <= t_bounds d <= ntypes q /\ exists n, (n <= bounds_rounds)%nat /\ type_depth q n v.
Proof.
  intros Hv H0 Hd. destruct (Z.leb_spec POLICYDB_VERSION_BOUNDARY (policyvers q)) as [Hb|Hb].
  { apply (types_bounded p0 q v d (syms_values _ accepted_syms) accepted_index Hb (ac_bounds _ _ _ _ _ Ha) H0 Hd). }
  destruct (ii_type _ _ accepted_index _ _ (type_at_slot q v d H0 Hd)) as (_ & k & Hk).
  destruct (sy_types _ accepted_syms) as [Hn Ht]. pose proof (table_list_fits _ _ _ _ _ Ht Hk) as Hf.
  assert (t_bounds d = 0) as E. { apply (yf_old _ _ _ Hf). unfold has_bounds. change (policyvers p0) with (policyvers q). lia. }
  rewrite E. split; [|exists 0%nat; split; [lia|by eapply depth_root]]. split; [done|]. apply Hn.
Qed.

Lemma accepted_filled : index_filled p0 q.
Proof. destruct (policydb_index_fills p0 [] _ [] (ac_index _ _ _ _ _ Ha)) as [F1 F2 F3 F4]. split; [exact F1|exact F2|exact F3|exact F4]. Qed.

(** A number of a symbol leads to a datum. *)
Lemma filled_index {D} (a : list (ptr D)) v : 0 < v < 2 ^ 32 -> (exists d, a !! Z.to_nat (u32 (v - 1)) = Some (Ptr d)) -> exists d, index a (v - 1) = Some (Ptr d).
Proof. intros Hv [d H]. exists d. unfold index. rewrite (proj2 (Z.ltb_ge _ _)) by lia. by rewrite u32_small in H by lia. Qed.

Lemma filled_type v : 0 < v < 2 ^ 32 -> (exists d, type_val_to_struct_array q !! Z.to_nat (u32 (v - 1)) = Some (Ptr d)) -> is_Some (type_at q v).
Proof. intros Hv [d H]. unfold type_at. rewrite flex_array_get_spec, H. by eexists. Qed.

(** Contexts are checked when the index has been built. *)
Lemma accepted_own c : context_fits (with_index p0 ix) c -> own_context q c.
Proof.
  intros H. split; [|exact (xf_valid _ _ H)]. eapply accepted_context; [exact H|reflexivity..|].
  apply (proj1 (sy_users _ accepted_syms)).
Qed.

Lemma accepted_contexts i l c : ocontexts q !! i = Some l -> c ∈ l ->
  own_context q (oc_context0 c) /\ (i = OCON_FS \/ i = OCON_NETIF -> own_context q (oc_context1 c)).
Proof.
  intros Hi Hc. destruct (bf_ocontexts _ _ (ac_objects _ _ _ _ _ Ha)) as [_ Hf]. destruct (Hf i l Hi) as [Hl _].
  rewrite Forall_forall in Hl. destruct (Hl c Hc) as [_ H0 H1 _]. split; [by apply accepted_own; destruct H0|].
  intros Hk. rewrite decide_True in H1 by done. by apply accepted_own; destruct H1.
Qed.

Lemma accepted_genfs g c : g ∈ genfs_list q -> c ∈ g_head g -> own_context q (oc_context0 c).
Proof.
  intros Hg Hc. destruct (bf_genfs _ _ (ac_objects _ _ _ _ _ Ha)) as [[Hf _] _]. rewrite Forall_forall in Hf.
  destruct (Hf g Hg) as [_ [He _] _]. rewrite Forall_forall in He. destruct (He c Hc) as [_ _ H0 _]. by apply accepted_own; destruct H0.
Qed.

Lemma accepted_ok : POLICYDB_VERSION_AVTAB <= policyvers q -> compiled q -> policy_ok q.
Proof.
  intros Hv [C1 C2 C3 C4 C5 C6 C7]. pose proof accepted_index as Hi. pose proof accepted_filled as Hx. pose proof (ac_syms_bitmaps _ _ _ _ _ Ha) as HB.
  unfold syms_bitmaps in HB. rewrite !Forall_app in HB. destruct HB as (HBc & HBr & _).
  assert (nclasses q < 2 ^ 16 /\ ntypes q < 2 ^ 32 /\ nroles q < 2 ^ 32) as (N1 & N2 & N3).
  { split; [done|]. split; [lia|]. apply (proj1 (proj1 (sy_roles _ accepted_syms))). }
  split; [|done|done|done|..].
  - destruct (ac_rules _ _ _ _ _ Ha) as [[Hw _ _ _ _ _] _ _ Hc _ _ _ _]. split; [exact Hw|exact Hc].
  - intros v H. destruct (C3 v H) as (k0 & d0 & Hk0 & Ev). destruct (filled_index (class_val_to_struct q) v) as [d Hd];
      [lia|rewrite <- Ev; exact (if_class _ _ Hx k0 d0 Hk0)|]. exists d. split; [done|]. destruct (accepted_struct _ _ _ _ _ (ii_class _ _ Hi) Hd) as [k Hk].
    destruct (C7 k d Hk) as [Hp Hcm]. eapply accepted_class; [|by eapply table_list_bitmaps|by eapply C6|done|done].
    eapply table_list_fits; [apply (proj2 (sy_classes _ accepted_syms))|exact Hk].
  - intros v H. destruct (C4 v H) as (k0 & d0 & Hk0 & Ev). destruct (filled_index (role_val_to_struct q) v) as [d Hd];
      [lia|rewrite <- Ev; exact (if_role _ _ Hx k0 d0 Hk0)|]. exists d. split; [done|]. destruct (accepted_struct _ _ _ _ _ (ii_role _ _ Hi) Hd) as [k Hk].
    pose proof (table_list_bitmaps role_bitmaps _ _ _ HBr Hk) as HBd. by inv HBd.
  - intros v H. destruct (C5 v H) as (k0 & d0 & Hk0 & Ev & Hp0). destruct (filled_type v) as [d Hd];
      [lia|rewrite <- Ev; exact (if_type _ _ Hx k0 d0 Hk0 Hp0)|]. by apply (accepted_type v d Hv); [lia|].
  - intros v d H Hd. by apply (accepted_type v d Hv); [lia|].
  - intros v H. unfold type_attr_map. apply lookup_lt_is_Some_2. destruct (bf_attrs _ _ (ac_objects _ _ _ _ _ Ha)) as [Hl _].
    change (type_attr_map_array q) with (ob_attrs o). rewrite Hl. change (p_types (with_index _ ix)) with (p_types q). fold (ntypes q). rewrite u32_small by lia. lia.
Qed.

End Accepted.

(** ** The policy of the sample file *)

Definition values_to (n : Z) : list Z := seqZ 1 n.

Lemma values_to_spec n (f : Z -> bool) : forallb f (values_to n) = true -> forall v, 0 < v <= n -> f v = true.
Proof. rewrite forallb_forall. intros H v Hv. apply H, list_elem_of_In, elem_of_seqZ. lia. Qed.

Lemma existsb_entry {D} (f : string * D -> bool) l : existsb f l = true -> exists k d, (k, d) ∈ l /\ f (k, d) = true.
Proof. intros ([k d] & H & E)%existsb_exists. exists k, d. split; [by apply list_elem_of_In|done]. Qed.

Definition perms_okb (s : symtab perm_datum) : bool :=
  match st_table s with Some t => forallb (fun n => (1 <=? pm_value n.2) && (pm_value n.2 <=? 32)) (concat (ht_htable t)) | None => true end.

Lemma perms_okb_sound s : perms_okb s = true -> perms_ok s.
Proof.
  unfold perms_okb. intros H t Et. rewrite Et, forallb_forall in H. apply Forall_forall. intros n Hn.
  specialize (H n (proj1 (list_elem_of_In _ _) Hn)). lia.
Qed.

Definition class_okb (kd : string * class_datum) : bool :=
  forallb (fun c => forallb (leaf_shape false) (cn_expr c)) (cl_constraints kd.2) && perms_okb (cl_permissions kd.2) &&
  match cl_comdatum kd.2 with Some c => perms_okb (cm_permissions c) | None => true end.

Definition compiledb (p : policydb) : bool :=
  (nclasses p <? 2 ^ 16) && (ntypes p <? 2 ^ 31) &&
  forallb (fun v => existsb (fun kd => cl_value kd.2 =? v) (table_list (st_table (p_classes p)))) (values_to (nclasses p)) &&
  forallb (fun v => existsb (fun kd => r_value kd.2 =? v) (table_list (st_table (p_roles p)))) (values_to (nroles p)) &&
  forallb (fun v => existsb (fun kd => (t_value kd.2 =? v) && nz (t_primary kd.2)) (table_list (st_table (p_types p)))) (values_to (ntypes p)) &&
  forallb class_okb (table_list (st_table (p_classes p))).

Lemma forallb_Forall {A} (f : A -> bool) l : forallb f l = true <-> Forall (fun x => f x = true) l.
Proof.
  rewrite forallb_forall, Forall_forall. split; intros H x Hx.
  - apply H. by apply list_elem_of_In.
  - apply H. by apply list_elem_of_In.
Qed.

Lemma compiledb_sound p : compiledb p = true -> compiled p.
Proof.
  intros [[[[[H1 H2]%andb_prop H3]%andb_prop H4]%andb_prop H5]%andb_prop H6]%andb_prop. rewrite forallb_Forall, Forall_forall in H6.
  split; [lia|lia|..].
  - intros v Hv. destruct (existsb_entry _ _ (values_to_spec _ _ H3 v Hv)) as (k & d & Hk & E%Z.eqb_eq). by exists k, d.
  - intros v Hv. destruct (existsb_entry _ _ (values_to_spec _ _ H4 v Hv)) as (k & d & Hk & E%Z.eqb_eq). by exists k, d.
  - intros v Hv. destruct (existsb_entry _ _ (values_to_spec _ _ H5 v Hv)) as (k & d & Hk & [E%Z.eqb_eq Ep]%andb_prop). by exists k, d.
  - intros k d Hk. specialize (H6 _ Hk). apply andb_prop in H6 as [[H6 _]%andb_prop _]. rewrite forallb_Forall in H6.
    eapply Forall_impl; [exact H6|]. intros c Hc. by apply forallb_Forall.
  - intros k d Hk. specialize (H6 _ Hk). apply andb_prop in H6 as [[_ H6]%andb_prop H7]. split; [by apply perms_okb_sound|].
    intros c Ec. cbn [snd] in H7. rewrite Ec in H7. by apply perms_okb_sound.
Qed.

Lemma sample_read_compiled : compiled sample_read.
Proof. apply compiledb_sound. vm_compute. reflexivity. Qed.

(** ** Properties *)

(** C20: a policy file of version 20 ([POLICYDB_VERSION_AVTAB]) or later that
    [policydb_read] accepts gives a policy on which the security server is
    safe, if the compiler that wrote it kept to [compiled]: it left no gaps in
    the numbers of classes, roles and types, used the operators the kernel knows
    and at most 32 permissions.  The policy satisfies [policy_ok]: every index
    array entry that a decision follows is a pointer, every constraint leaves
    one value on its stack, the bounds of types end within the allowed depth,
    and the type attribute map covers every type.  All contexts of initial
    SIDs, file systems, ports, interfaces (both of them), nodes and paths are
    valid in this policy. *)
Theorem accepted_policy_ok fp m q fp' m' :
  policydb_read fp m = Some (Done q fp' m') -> POLICYDB_VERSION_AVTAB <= policyvers q -> compiled q ->
  policy_ok q /\
  (forall i l c, ocontexts q !! i = Some l -> c ∈ l ->
     own_context q (oc_context0 c) /\ (i = OCON_FS \/ i = OCON_NETIF -> own_context q (oc_context1 c))) /\
  (forall g c, g ∈ genfs_list q -> c ∈ g_head g -> own_context q (oc_context0 c)).
Proof.
  intros H Hv Hc. destruct (gives_policydb _ _ _ _ _ H) as (h & s & r & ix & o & _ & _ & _ & -> & Ha); [done| |].
  { pose proof (cp_ntypes _ Hc) as H1. pose proof (cp_nclasses _ Hc) as H2. split; [exact H1|]. unfold nclasses in H2. lia. }
  split; [by apply (accepted_ok _ _ _ _ _ Ha)|]. split; [apply (accepted_contexts _ _ _ _ _ Ha)|apply (accepted_genfs _ _ _ _ _ Ha)].
Qed.

Lemma accepted_policy_ok_witness :
  policydb_read sample_file [] = Some (Done sample_read [] []) /\ POLICYDB_VERSION_AVTAB <= policyvers sample_read /\
  policy_ok sample_read /\ forall i l c, ocontexts sample_read !! i = Some l -> c ∈ l -> own_context sample_read (oc_context0 c).
Proof.
  assert (POLICYDB_VERSION_AVTAB <= policyvers sample_read) as Hv by (vm_compute; discriminate).
  split; [exact sample_file_reads|]. split; [exact Hv|].
  destruct (accepted_policy_ok sample_file [] sample_read [] [] sample_file_reads Hv sample_read_compiled) as (H1 & H2 & _).
  split; [exact H1|]. intros i l c Hi Hc. exact (proj1 (H2 i l c Hi Hc)).
Defined.
