(* ===== verification/ServicesLoad.v ===== *)
(** * The security server: loading and reading a policy (security/selinux/ss/services.c)

    [security_load_policy] reads a binary policy, converts the SID table to it
    and installs both; [security_read_policy] writes the policy in force to a
    buffer.  The sequence number a call gives to the other parts of the kernel
    ([avc_ss_reset], the notifications) is part of its result. *)

From Stdlib Require Import Ascii String.
From S2P Require Import Prelude Ebitmap Hashtab PolicyFile Context Sidtab Avtab Policydb Mls PolicydbOps Sample MlsText Conditional PolicyRead PolicyWrite Classmap Services ServicesSid ServicesObj PolicyLoad.

(** ** Loading *)

(** [policydb_read] into the global [policydb] has cleared it; after a failure
    what it holds is freed, and the next load clears it again. *)
Definition policydb_freed (len : Z) : policydb := set_pd_len policydb_zero len.

Definition set_mapping (s : ss) (mapping : list selinux_mapping) (size : Z) : ss :=
  mk_ss (ss_policydb s) (ss_sidtab s) (ss_initialized s) (latest_granting s) mapping size
    (selinux_enforcing s) (selinux_policycap_netpeer s) (selinux_policycap_openperm s).

(** [ss_initialized = 1; seqno = ++latest_granting;] *)
Definition next_seqno (s : ss) : Z := u32 (latest_granting s + 1).
Definition set_loaded (s : ss) : ss :=
  mk_ss (ss_policydb s) (ss_sidtab s) true (next_seqno s) (current_mapping s) (current_mapping_size s)
    (selinux_enforcing s) (selinux_policycap_netpeer s) (selinux_policycap_openperm s).

(** The first policy.  Result: [rc], the state, the sequence number. *)
Definition load_first (s : ss) (data : list ascii) (m : kmem) : option (Z * ss * option Z * kmem) :=
  r ← policydb_read data m;
  match r with
  | Fails rc m => Some (rc, set_ss_policydb s (policydb_freed 0), None, m)
  | Done p _ m =>
      let len := Z.of_nat (length data) in
      let p := set_pd_len p len in
      '(rc, map, m) ← selinux_set_mapping p secclass_map m;
      match map with
      | None => Some (rc, set_ss_policydb s (policydb_freed len), None, m)
      | Some (mapping, size) =>
          let s := set_mapping s mapping size in
          let '(rc, t, m) := policydb_load_isids p (si_cache (ss_sidtab s)) m in
          let s := match t with Some t => set_ss_sidtab s t | None => s end in
          if nz rc then Some (rc, set_ss_policydb s (policydb_freed len), None, m)
          else
            s ← security_load_policycaps (set_ss_policydb s p);
            let s := set_loaded s in
            Some (0, s, Some (latest_granting s), m)
      end
  end.

(** [sidtab_map(&sidtab, clone_sid, &newsidtab)], then
    [sidtab_map(&newsidtab, convert_context, &args)].  Result: [rc] and the
    new table. *)
Definition convert_sidtab (s : ss) (newp : policydb) (new : sidtab) (m : kmem) : option (Z * sidtab * kmem) :=
  let '(rc, _, (new, m)) := sidtab_map (ss_sidtab s) clone_sid (new, m) in
  if nz rc then Some (rc, new, m)
  else
    let '(rc, new, m) := sidtab_map new (convert_step s newp) (Some m) in
    m ← m;
    Some (rc, new, m).

(** A later policy; [newsidtab] and its cache are on the stack. *)
Definition load_next (s : ss) (data : list ascii) (m : kmem) : option (Z * ss * option Z * kmem) :=
  r ← policydb_read data m;
  match r with
  | Fails rc m => Some (rc, s, None, m)
  | Done newp _ m =>
      let newp := set_pd_len newp (Z.of_nat (length data)) in
      let '(rc, new, m) := policydb_load_isids newp (replicate SIDTAB_CACHE_LEN None) m in
      match new with
      | None => Some (rc, s, None, m)
      | Some new =>
          if nz rc then Some (rc, s, None, m)
          else
            '(rc, map, m) ← selinux_set_mapping newp secclass_map m;
            match map with
            | None => Some (rc, s, None, m)
            | Some (mapping, size) =>
                '(rc, newp, m) ← security_preserve_bools s newp m;
                if nz rc then Some (rc, s, None, m)
                else
                  let s := set_ss_sidtab s (sidtab_shutdown (ss_sidtab s)) in
                  '(rc, new, m) ← convert_sidtab s newp new m;
                  if nz rc then Some (rc, s, None, m)
                  else
                    let s := set_ss_sidtab (set_ss_policydb s newp) (sidtab_set new) in
                    s ← security_load_policycaps s;
                    let s := set_loaded (set_mapping s mapping size) in
                    Some (0, s, Some (latest_granting s), m)
            end
      end
  end.

Definition security_load_policy (s : ss) (data : list ascii) (m : kmem) : option (Z * ss * option Z * kmem) :=
  if negb (ss_initialized s) then load_first s data m else load_next s data m.

(** ** Reading *)

(** Result: [rc], and the contents of the buffer.  [put_entry] does not look at
    the room that is left: writing past the end of the buffer is [None]. *)
Definition security_read_policy (s : ss) (m : kmem) : option (Z * option (list ascii) * kmem) :=
  if negb (ss_initialized s) then Some (- EINVAL, None, m)
  else
    let '(ok, m) := kalloc m in
    if negb ok then Some (- ENOMEM, None, m)
    else
      '(rc, b) ← policydb_write (ss_policydb s);
      if security_policydb_len s <? Z.of_nat (length b) then None
      else if nz rc then Some (rc, None, m)
      else Some (0, Some b, m).

(** ** The walk over the SID table *)

(** A walk that returned 0 has called [apply] on every node in turn. *)
Inductive mapped {A} (apply : Z -> context -> A -> Z * context * A) : list sidtab_node -> A -> list sidtab_node -> A -> Prop :=
| mapped_nil a : mapped apply [] a [] a
| mapped_cons n l a c a1 l' a2 :
    apply (sn_sid n) (sn_context n) a = (0, c, a1) -> mapped apply l a1 l' a2 ->
    mapped apply (n :: l) a (mk_sidtab_node (sn_sid n) c :: l') a2.

Lemma mapped_app {A} (apply : Z -> context -> A -> Z * context * A) l1 l2 a a1 a2 l1' l2' :
  mapped apply l1 a l1' a1 -> mapped apply l2 a1 l2' a2 -> mapped apply (l1 ++ l2) a (l1' ++ l2') a2.
Proof. intros H1 H2. induction H1 as [|n l a c a1 l' a' E _ IH]; [done|]. cbn. econstructor; [exact E|by apply IH]. Qed.

Lemma mapped_sids {A} (apply : Z -> context -> A -> Z * context * A) l a l' a' :
  mapped apply l a l' a' -> sn_sid <$> l' = sn_sid <$> l.
Proof. induction 1 as [|n l a c a1 l' a' E _ IH]; [done|]. cbn. by rewrite IH. Qed.

Lemma chain_map_zero_mapped {A} (apply : Z -> context -> A -> Z * context * A) cur a l a' :
  sidtab_chain_map apply cur a = (0, l, a') -> mapped apply cur a l a'.
Proof.
  revert a l. induction cur as [|n cur IH]; intros a l; cbn [sidtab_chain_map]; [intros [= <- <-]; constructor|].
  destruct (apply _ _ a) as [[rc c] a1] eqn:E. destruct (nz rc) eqn:Er; [by intros [= -> _ _]|]. apply nz_false in Er as ->.
  destruct (sidtab_chain_map apply cur a1) as [[rc l1] a2] eqn:E1. intros [= -> <- <-]. econstructor; [exact E|by apply IH].
Qed.

Lemma slots_map_zero_mapped {A} (apply : Z -> context -> A -> Z * context * A) slots a ls a' :
  sidtab_slots_map apply slots a = (0, ls, a') ->
  mapped apply (concat slots) a (concat ls) a' /\ (fun c : list sidtab_node => sn_sid <$> c) <$> ls = (fun c : list sidtab_node => sn_sid <$> c) <$> slots.
Proof.
  revert a ls. induction slots as [|cur slots IH]; intros a ls; cbn [sidtab_slots_map]; [intros [= <- <-]; split; [constructor|done]|].
  destruct (sidtab_chain_map apply cur a) as [[rc l] a1] eqn:E. destruct (nz rc) eqn:Er; [by intros [= -> _ _]|]. apply nz_false in Er as ->.
  destruct (sidtab_slots_map apply slots a1) as [[rc ls1] a2] eqn:E1. intros [= -> <- <-]. apply chain_map_zero_mapped in E.
  destruct (IH _ _ E1) as [Hm Hs]. split; [cbn; by eapply mapped_app|]. cbn. by rewrite (mapped_sids _ _ _ _ _ E), Hs.
Qed.

Lemma sidtab_map_zero {A} (s : sidtab) (apply : Z -> context -> A -> Z * context * A) a s' a' :
  sidtab_map s apply a = (0, s', a') ->
  mapped apply (sidtab_nodes s) a (sidtab_nodes s') a' /\
  (fun c : list sidtab_node => sn_sid <$> c) <$> si_htable s' = (fun c : list sidtab_node => sn_sid <$> c) <$> si_htable s /\
  si_nel s' = si_nel s /\ si_next_sid s' = si_next_sid s.
Proof.
  unfold sidtab_map. destruct (sidtab_slots_map apply (si_htable s) a) as [[rc ls] a1] eqn:E. intros [= -> <- <-].
  destruct (slots_map_zero_mapped _ _ _ _ _ E) as [Hm Hs]. done.
Qed.

(** *** Tables with the same keys *)

Lemma keys_sorted {K D} (cmp : K -> K -> Z) (c c' : list (K * D)) :
  c'.*1 = c.*1 -> StronglySorted (key_lt cmp) c -> StronglySorted (key_lt cmp) c'.
Proof.
  intros E Hs. revert c' E. induction Hs as [|x c Hs IH Hx]; intros [|y c'] E; try done; [constructor|].
  cbn in E. injection E as E1 E2. constructor; [by apply IH|]. apply Forall_forall. intros z Hz.
  apply (list_elem_of_fmap_2 fst) in Hz. rewrite E2 in Hz. apply list_elem_of_fmap in Hz as (w & Ew & Hw).
  rewrite Forall_forall in Hx. specialize (Hx w Hw). unfold key_lt in *. congruence.
Qed.

Lemma hashtab_wf_keys {K D} `{Countable K} (t t' : hashtab K D) :
  hashtab_wf t -> (fun c : list (K * D) => c.*1) <$> ht_htable t' = (fun c : list (K * D) => c.*1) <$> ht_htable t ->
  ht_size t' = ht_size t -> ht_nel t' = ht_nel t -> ht_hash_value t' = ht_hash_value t -> ht_keycmp t' = ht_keycmp t -> hashtab_wf t'.
Proof.
  intros [Ho Hl Hs Hsort [Hn Hmax]] E Es En Eh Ec.
  assert (forall i c', ht_htable t' !! i = Some c' -> exists c, ht_htable t !! i = Some c /\ c'.*1 = c.*1) as Hslot.
  { intros i c' Hi. assert (((fun c : list (K * D) => c.*1) <$> ht_htable t') !! i = Some c'.*1) as Hf by (by rewrite list_lookup_fmap, Hi).
    rewrite E, list_lookup_fmap in Hf. destruct (ht_htable t !! i) as [c|]; [|done]. injection Hf as Hf. by exists c. }
  split; rewrite ?Es, ?En, ?Eh, ?Ec; [done| | | |].
  - rewrite <- Hl, <- (length_fmap (fun c : list (K * D) => c.*1) (ht_htable t)), <- E, length_fmap. done.
  - intros i c' Hi. destruct (Hslot i c' Hi) as (c & Hc & Ek). specialize (Hs i c Hc). apply Forall_forall. intros n Hin.
    apply (list_elem_of_fmap_2 fst) in Hin. rewrite Ek in Hin. apply list_elem_of_fmap in Hin as (w & Ew & Hw).
    rewrite Forall_forall in Hs. rewrite Ew. by apply Hs.
  - apply Forall_lookup. intros i c' Hi. destruct (Hslot i c' Hi) as (c & Hc & Ek). eapply keys_sorted; [exact Ek|]. by eapply Forall_lookup_1.
  - split; [|done]. rewrite Hn. f_equal. rewrite <- !(length_fmap fst (concat _)).
    assert (forall l : list (list (K * D)), (concat l).*1 = concat ((fun c : list (K * D) => c.*1) <$> l)) as Hc.
    { intros l. apply (concat_map fst). } by rewrite !Hc, E.
Qed.

(** *** Cloning *)

Definition dynamic (sid : Z) : Prop := SECINITSID_NUM < sid.

Lemma clone_all l new m l' new' m' :
  mapped clone_sid l (new, m) l' (new', m') -> sidtab_wf new -> Forall (fun n => 0 < sn_sid n < UINT_MAX /\ str_ok (sn_context n)) l ->
  sidtab_wf new' /\ (forall sid c, sidtab_abs new !! sid = Some c -> sidtab_abs new' !! sid = Some c) /\
  (forall n, n ∈ l -> dynamic (sn_sid n) -> sidtab_abs new' !! sn_sid n = Some (context_copy (sn_context n))) /\
  (forall sid, is_Some (sidtab_abs new' !! sid) -> is_Some (sidtab_abs new !! sid) \/ exists n, n ∈ l /\ sn_sid n = sid).
Proof.
  intros H. remember (new, m) as a eqn:Ea. remember (new', m') as a' eqn:Ea'. revert new m Ea new' m' Ea'.
  induction H as [a|n l a c a1 l' a2 E _ IH]; intros new m Ea new' m' Ea' Hw Hf.
  { rewrite Ea in Ea'. injection Ea' as <- <-. split; [done|]. split; [done|]. split; [by intros n ?%elem_of_nil|by left]. }
  apply Forall_cons in Hf as [[Hsid Hstr] Hf]. rewrite Ea in E. unfold clone_sid in E. destruct (Z.ltb_spec SECINITSID_NUM (sn_sid n)) as [Hd|Hd].
  - pose proof (sidtab_insert_spec new (sn_sid n) (sn_context n) m Hw Hsid) as Hins.
    destruct (sidtab_insert new (sn_sid n) (sn_context n) m) as [[rc new1] m1]. injection E as -> _ <-.
    destruct Hins as [(_ & Hnone & Hw1 & Habs & _)|[([=] & _)|([=] & _)]].
    destruct (IH _ _ eq_refl _ _ Ea' Hw1 Hf) as (Hw' & Hkeep & Hnew & Honly). rewrite Habs in Hkeep, Honly. split; [done|].
    assert (sidtab_abs new' !! sn_sid n = Some (context_copy (sn_context n))) as Hn by (by apply Hkeep; rewrite lookup_insert_eq).
    split_and!.
    + intros sid c' Hc. apply Hkeep. rewrite lookup_insert_ne; [done|]. intros <-. by rewrite Hnone in Hc.
    + intros n' [->|Hin]%elem_of_cons; [done|by apply Hnew].
    + intros sid Hs. destruct (Honly sid Hs) as [Hs'|(n' & Hin & En)].
      * destruct (decide (sid = sn_sid n)) as [->|Hne]; [right; exists n; split; [apply list_elem_of_here|done]|].
        rewrite lookup_insert_ne in Hs' by done. by left.
      * right. exists n'. split; [by apply list_elem_of_further|done].
  - injection E as _ <-. destruct (IH _ _ eq_refl _ _ Ea' Hw Hf) as (Hw' & Hkeep & Hnew & Honly). split; [done|]. split_and!; [done| |].
    + intros n' [->|Hin]%elem_of_cons Hdn; [unfold dynamic in Hdn; lia|by apply Hnew].
    + intros sid Hs. destruct (Honly sid Hs) as [Hs'|(n' & Hin & En)]; [by left|]. right. exists n'. split; [by apply list_elem_of_further|done].
Qed.

(** *** Converting *)

Definition converts (s : ss) (newp : policydb) (n n' : sidtab_node) : Prop :=
  sn_sid n' = sn_sid n /\ exists m m', convert_context s newp (sn_sid n) (sn_context n) m = Some (0, sn_context n', m').

Lemma convert_all s newp l m l' m' :
  mapped (convert_step s newp) l (Some m) l' (Some m') -> Forall2 (converts s newp) l l'.
Proof.
  intros H. remember (Some m) as a eqn:Ea. remember (Some m') as a' eqn:Ea'. revert m Ea m' Ea'.
  induction H as [a|n l a c a1 l' a2 E Hm IH]; intros m Ea m' Ea'; [constructor|]. rewrite Ea in E. cbn [convert_step] in E.
  destruct (convert_context s newp (sn_sid n) (sn_context n) m) as [[[rc c1] m1]|] eqn:Ec.
  - injection E as -> <- <-. constructor; [|by apply (IH m1 eq_refl m')]. split; [done|]. cbn. by exists m, m1.
  - by injection E as E _ _.
Qed.

(** A context with its parts in the policy, and one that is kept as text. *)
Definition plain (c : context) : Prop := c_len c = 0 /\ c_str c = None.
Definition text_context (len : Z) (str : string) : context := mk_context 0 0 0 len mls_range_zero (Some str).

Lemma plain_str_ok c : plain c -> str_ok c.
Proof. intros [E _]. unfold str_ok. by rewrite E. Qed.

Lemma levels_cpy_plain dst low high m rc d m' : mls_levels_cpy dst low high m = (rc, d, m') -> plain dst -> plain d.
Proof.
  unfold mls_levels_cpy. destruct (ebitmap_cpy (ml_cat low) m) as [[r1 c1] m1]. destruct (nz r1); [by intros [= _ <- _]|].
  destruct (ebitmap_cpy (ml_cat high) m1) as [[r2 c2] m2]. destruct (nz r2); by intros [= _ <- _].
Qed.

Lemma to_sid_plain pol oldc sc c s d m rc c' moved m' :
  mls_context_to_sid pol oldc sc c s d m = Some (rc, c', moved, m') -> plain c -> plain c'.
Proof.
  unfold mls_context_to_sid. destruct (negb (mls_enabled pol)); [by intros [= _ <- _ _]|]. destruct (negb oldc).
  - destruct (_ =? _); [by intros [= _ <- _ _]|]. destruct (sidtab_search s d) as [defcon|]; [|by intros [= _ <- _ _]].
    destruct (mls_context_cpy c defcon m) as [[r1 c1] m1] eqn:E. intros [= _ <- _ _]. by eapply levels_cpy_plain.
  - intros ([[[r1 r] mv] m1] & _ & [= _ <- _ _])%bind_Some Hc. exact Hc.
Qed.

Lemma parse_context_plain pol s sc d m rc c pos m' : parse_context pol s sc d m = Some (rc, c, pos, m') -> plain c.
Proof.
  unfold parse_context. destruct (scan is_colon sc) as [user p]. destruct (after_field p) as [p1|]; [|by intros [= _ <- _ _]].
  intros ([usr|] & _ & H)%bind_Some; [|by injection H as _ <- _ _]. destruct (scan is_colon p1) as [role p2].
  destruct (after_field p2) as [p3|]; [|by injection H as _ <- _ _]. apply bind_Some in H as ([rd|] & _ & H); [|by injection H as _ <- _ _].
  destruct (scan is_colon p3) as [type p4]. destruct (match p4 with EmptyString => _ | String c p' => _ end) as [oldc p5].
  apply bind_Some in H as ([td|] & _ & H); [|by injection H as _ <- _ _]. destruct (nz (t_attribute td)); [by injection H as _ <- _ _|].
  apply bind_Some in H as ([[[r1 c1] mv] m1] & Hm & H). injection H as _ <- _ _. by eapply to_sid_plain.
Qed.

Lemma string_to_context_plain pol s sc len d m c m' :
  string_to_context_struct pol s sc len d m = Some (0, c, m') -> plain c /\ policydb_context_isvalid pol c = Some true.
Proof.
  unfold string_to_context_struct. intros ([[[rc ctx] pos] m1] & Hp & H)%bind_Some.
  destruct (nz rc) eqn:Er; [injection H as -> _ _; done|]. destruct (_ <? _); [by injection H|].
  apply bind_Some in H as (v & Hv & H). destruct v; cbn [negb] in H; [|by injection H]. injection H as <- _.
  split; [by eapply parse_context_plain|done].
Qed.

Lemma convert_mls_plain oldp newp c m rc c' m' : convert_mls oldp newp c m = Some (rc, c', m') -> plain c -> plain c'.
Proof.
  unfold convert_mls. destruct (_ && mls_enabled newp).
  { unfold mls_convert_context. destruct (negb _); [by intros [= _ <- _]|]. intros ([[r1 l0] m1] & _ & H)%bind_Some.
    destruct (nz r1); [by injection H as _ <- _|]. apply bind_Some in H as ([[r2 l1] m2] & _ & H). by injection H as _ <- _. }
  destruct (_ && negb _); [by intros [= _ <- _]|]. destruct (_ && _); [|by intros [= _ <- _]].
  destruct (List.find _ _) as [oc|]; [|by intros [= _ <- _]]. unfold mls_range_set. destruct (ebitmap_cpy _ m) as [[r1 c1] m1].
  destruct (nz r1); [by intros [= _ <- _]|]. destruct (ebitmap_cpy _ m1) as [[r2 c2] m2]. by intros [= _ <- _].
Qed.

(** ** What becomes of a context *)

(** The number [v] of the old policy has a name, and [d] is what the table [t]
    of the new policy has under that name. *)
Definition known_as {D} (oldp : policydb) (sym : nat) (v : Z) (t : option (hashtab string D)) (d : D) : Prop :=
  exists name, deref (sym_name oldp sym v) = Some name /\ hashtab_search t name = Some (Some d).

(** The level with the same sensitivity and the same categories by name. *)
Definition level_translated (oldp newp : policydb) (l l' : mls_level) : Prop :=
  (exists d, known_as oldp SYM_LEVELS (u32 (ml_sens l - 1)) (st_table (p_levels newp)) d /\ ml_sens l' = ml_sens (l_level d)) /\
  exists ds, Forall2 (fun i d => known_as oldp SYM_CATS i (st_table (p_cats newp)) d) (ebitmap_bits (ml_cat l)) ds /\
    (Forall (fun d => 0 < cat_value d < 2 ^ 31) ds -> forall b, ebit (ml_cat l') b = true <-> exists d, d ∈ ds /\ b = cat_value d - 1).

(** Between a policy with levels and one without, the levels are dropped or
    taken from the initial SID of unlabeled objects. *)
Definition range_translated (oldp newp : policydb) (r r' : mls_range) : Prop :=
  match mls_enabled oldp, mls_enabled newp with
  | true, true => level_translated oldp newp (mr_low r) (mr_low r') /\ level_translated oldp newp (mr_high r) (mr_high r')
  | true, false => r' = mls_range_zero
  | false, true => exists oc, oc ∈ nth OCON_ISID (ocontexts newp) [] /\ oc_sid0 oc = SECINITSID_UNLABELED /\ r' = c_range (oc_context0 oc)
  | false, false => r' = r
  end.

Record translated (oldp newp : policydb) (c c' : context) : Prop := mk_translated {
  tr_user : exists d, known_as oldp SYM_USERS (u32 (c_user c - 1)) (st_table (p_users newp)) d /\ c_user c' = u_value d;
  tr_role : exists d, known_as oldp SYM_ROLES (u32 (c_role c - 1)) (st_table (p_roles newp)) d /\ c_role c' = r_value d;
  tr_type : exists d, known_as oldp SYM_TYPES (u32 (c_type c - 1)) (st_table (p_types newp)) d /\ c_type c' = t_value d;
  tr_range : range_translated oldp newp (c_range c) (c_range c')
}.

(** The number has a name in the old policy, and the new one does not know it. *)
Definition unknown {D} (oldp : policydb) (sym : nat) (v : Z) (t : option (hashtab string D)) : Prop :=
  exists name, deref (sym_name oldp sym v) = Some name /\ hashtab_search t name = Some None.

(** Why a context is not translated: the new policy lacks its user, role or
    type, its levels cannot be converted (a name is lacking, or there is no
    memory), or the new policy does not allow the
    translation and is enforced. *)
Definition untranslatable (s : ss) (newp : policydb) (c : context) : Prop :=
  let oldp := ss_policydb s in
  unknown oldp SYM_USERS (u32 (c_user c - 1)) (st_table (p_users newp)) \/
  unknown oldp SYM_ROLES (u32 (c_role c - 1)) (st_table (p_roles newp)) \/
  unknown oldp SYM_TYPES (u32 (c_type c - 1)) (st_table (p_types newp)) \/
  (exists c1 rc c2 m m', c_range c1 = c_range c /\ convert_mls oldp newp c1 m = Some (rc, c2, m') /\ rc <> 0) \/
  (selinux_enforcing s = true /\ exists c1, translated oldp newp c c1 /\ policydb_context_isvalid newp c1 = Some false).

(** A context is translated to the new policy by the names of its parts (in
    permissive mode perhaps to a context the new policy does not allow); one
    that was text becomes what the new policy reads from it, or stays as it is
    if the new policy reads nothing from it; one that cannot be translated
    becomes the text it had under the old policy. *)
Definition converted (s : ss) (newp : policydb) (c c' : context) : Prop :=
  match c_str c with
  | None =>
      (plain c' /\ translated (ss_policydb s) newp c c' /\
       (policydb_context_isvalid newp c' = Some true \/ (policydb_context_isvalid newp c' = Some false /\ selinux_enforcing s = false))) \/
      (untranslatable s newp c /\
       exists str len n n', context_struct_to_string (ss_policydb s) (context_copy c) true n = Some (0, Some str, len, n') /\
         c' = text_context len str)
  | Some str =>
      exists rc ctx n n', string_to_context_struct newp None str (c_len c) SECSID_NULL n = Some (rc, ctx, n') /\
        ((rc = 0 /\ c' = ctx /\ plain c' /\ policydb_context_isvalid newp c' = Some true) \/ (rc = - EINVAL /\ c' = c))
  end.

Lemma convert_cats_names oldp newp bits e m e' m' :
  convert_cats oldp newp bits e m = Some (0, e', m') ->
  exists ds, Forall2 (fun i d => known_as oldp SYM_CATS i (st_table (p_cats newp)) d) bits ds /\
    (ebitmap_wf e -> Forall (fun d => 0 < cat_value d < 2 ^ 31) ds ->
     forall b, ebit e' b = true <-> ebit e b = true \/ exists d, d ∈ ds /\ b = cat_value d - 1).
Proof.
  revert e m. induction bits as [|i bits IH]; intros e m; cbn [convert_cats].
  { intros [= <- _]. exists []. split; [constructor|]. intros _ _ b. split; [by left|]. intros [?|(d & Hd & _)]; [done|by apply elem_of_nil in Hd]. }
  intros (nm & En & H)%bind_Some. apply bind_Some in H as ([d|] & Ed & H); [|by injection H].
  apply bind_Some in H as ([[rc e1] m1] & Es & H). destruct (nz rc) eqn:Er; [injection H as -> _ _; done|]. apply nz_false in Er as ->.
  destruct (IH _ _ H) as (ds & Hds & Hb). exists (d :: ds). split; [constructor; [by exists nm|done]|]. intros Hw [Hd Hall]%Forall_cons b.
  rewrite u32_small in Es by (split; lia). destruct (set_bit_spec e (cat_value d - 1) true m) as (rc & e2 & m2 & E2 & Hw2 & _ & Hr); [done|lia| |].
  { rewrite EBITMAP_SIZE_val. pose proof (Z.mod_pos_bound (cat_value d - 1) 128). lia. }
  rewrite Es in E2. injection E2 as <- <- <-. destruct Hr as [[_ Hr]|[? _]]; [|done]. rewrite (Hb Hw2 Hall b), Hr.
  destruct (decide (b = cat_value d - 1)) as [->|Hne].
  - split; [|by left]. intros _. right. exists d. split; [apply list_elem_of_here|done].
  - split; (intros [?|(d' & Hd' & ->)]; [by left|]).
    + right. exists d'. split; [by apply list_elem_of_further|done].
    + right. exists d'. split; [|done]. by apply elem_of_cons in Hd' as [->|].
Qed.

Lemma convert_level_names oldp newp l m l' m' :
  convert_level oldp newp l m = Some (0, l', m') -> level_translated oldp newp l l'.
Proof.
  unfold convert_level. intros (nm & En & H)%bind_Some. apply bind_Some in H as ([d|] & Ed & H); [|by injection H].
  apply bind_Some in H as ([[rc e] m1] & Ec & H). injection H as -> <- _. split; [exists d; split; [by exists nm|done]|].
  apply convert_cats_names in Ec as (ds & Hds & Hb). exists ds. split; [done|]. intros Hall b. cbn. rewrite (Hb (canon_wf _ ebitmap_init_canon) Hall b), ebit_init.
  split; [by intros [|]|by right].
Qed.

Lemma range_set_ok c r m c' m' : mls_range_set c r m = (0, c', m') -> c_range c' = r.
Proof.
  unfold mls_range_set. destruct (ebitmap_cpy_spec (ml_cat (mr_low r)) m) as [[m1 ->]|[m1 ->]]; [|by intros [=]]. cbn [nz].
  destruct (ebitmap_cpy_spec (ml_cat (mr_high r)) m1) as [[m2 ->]|[m2 ->]]; [|by intros [=]]. intros [= <- _]. by destruct r as [[] []].
Qed.

Lemma convert_mls_names oldp newp c m c' m' :
  convert_mls oldp newp c m = Some (0, c', m') ->
  range_translated oldp newp (c_range c) (c_range c') /\ c_user c' = c_user c /\ c_role c' = c_role c /\ c_type c' = c_type c.
Proof.
  unfold convert_mls, range_translated. destruct (mls_enabled oldp) eqn:Eo, (mls_enabled newp); cbn [andb negb].
  - unfold mls_convert_context. rewrite Eo. cbn [negb]. intros ([[r1 l0] m1] & E0 & H)%bind_Some.
    destruct (nz r1) eqn:Er; [injection H as -> _ _; done|]. apply nz_false in Er as ->.
    apply bind_Some in H as ([[r2 l1] m2] & E1 & H). injection H as -> <- _. apply convert_level_names in E0, E1. done.
  - by intros [= <- _].
  - destruct (List.find _ _) as [oc|] eqn:Ef; [|by intros [=]]. intros [= H]. apply find_some in Ef as [Hin Hs].
    split; [|unfold mls_range_set in H; destruct (ebitmap_cpy _ m) as [[r1 c1] m1]; destruct (nz r1); [by injection H as _ <- _|];
      destruct (ebitmap_cpy _ m1) as [[r2 c2] m2]; by injection H as _ <- _].
    exists oc. split; [by apply list_elem_of_In|]. split; [by apply Z.eqb_eq|]. by eapply range_set_ok.
  - by intros [= <- _].
Qed.

Lemma convert_bad_outcome s newp c c0 m c' m' :
  c_str c = None -> untranslatable s newp c -> convert_bad (ss_policydb s) (context_copy c) c0 m = Some (0, c', m') ->
  converted s newp c c' /\ str_ok c'.
Proof.
  intros Hs Hu. unfold convert_bad, converted. rewrite Hs. intros ([[[rc str] len] m1] & E & H)%bind_Some. destruct (nz rc) eqn:Er; [injection H as -> _ _; done|].
  apply nz_false in Er as ->. apply bind_Some in H as (str' & -> & H). injection H as <- _. split; [|by eexists].
  right. split; [done|]. by exists str', len, m, m1.
Qed.

Lemma convert_unmapped_outcome s newp c str m c' m' :
  c_str c = Some str -> convert_unmapped newp c str m = Some (0, c', m') -> str_ok c -> converted s newp c c' /\ str_ok c'.
Proof.
  intros Es. unfold convert_unmapped, converted. rewrite Es. destruct (kalloc m) as [[] m1]; cbn [negb]; [|done].
  intros ([[rc ctx] m2] & E & H)%bind_Some Hok. destruct (nz rc) eqn:Er.
  - destruct (Z.eqb_spec rc (- EINVAL)) as [->|Hne]; [|injection H as -> _ _; done]. injection H as <- _. split; [|done].
    exists (- EINVAL), ctx, m1, m2. split; [done|by right].
  - apply nz_false in Er as ->. injection H as <- _. destruct (string_to_context_plain _ _ _ _ _ _ _ _ E) as [Hp Hv].
    split; [|by apply plain_str_ok]. exists 0, ctx, m1, m2. split; [done|by left].
Qed.

Lemma convert_outcome s newp key c m c' m' :
  dynamic key -> str_ok c -> convert_context s newp key c m = Some (0, c', m') -> converted s newp c c' /\ str_ok c'.
Proof.
  intros Hd Hok. unfold convert_context. rewrite (proj2 (Z.leb_gt _ _)) by done. destruct (c_str c) as [str|] eqn:Es.
  { intros H. by eapply convert_unmapped_outcome. }
  assert (plain c) as Hp. { split; [|done]. destruct (nz (c_len c)) eqn:En; [destruct (Hok En); congruence|by apply nz_false]. }
  destruct (context_cpy_spec context_init c m) as [[m1 ->]|(d & m1 & ->)]; [|done]. change (nz 0) with false. cbv iota.
  intros (un & Eu & H)%bind_Some. apply bind_Some in H as ([usr|] & Eu' & H);
    [|eapply convert_bad_outcome; [done|left; by exists un|done]].
  apply bind_Some in H as (rn & Er & H). apply bind_Some in H as ([role|] & Er' & H);
    [|eapply convert_bad_outcome; [done|right; left; by exists rn|done]].
  apply bind_Some in H as (tn & Et & H). apply bind_Some in H as ([typ|] & Et' & H);
    [|eapply convert_bad_outcome; [done|right; right; left; by exists tn|done]].
  apply bind_Some in H as ([[rc c1] m2] & Hm & H). destruct (nz rc) eqn:Erc.
  { eapply convert_bad_outcome; [done| |done]. do 3 right. left. eexists _, rc, c1, _, _. split; [|split; [exact Hm|]]; [done|]. intros ->. done. }
  apply nz_false in Erc as ->. pose proof (convert_mls_names _ _ _ _ _ _ Hm) as (Hr & E1 & E2 & E3). apply convert_mls_plain in Hm; [|exact Hp].
  assert (translated (ss_policydb s) newp c c1) as Ht.
  { split; [exists usr|exists role|exists typ|exact Hr]; (split; [by eexists|done]). }
  apply bind_Some in H as (v & Hv & H). unfold convert_context_handle_invalid_context in H.
  destruct (nz (if v then 0 else _)) eqn:Ev.
  - eapply convert_bad_outcome; [done| |done]. do 4 right. destruct v, (selinux_enforcing s); try done. split; [done|by exists c1].
  - injection H as <- _. split; [|by apply plain_str_ok]. unfold converted. rewrite Es. left. split; [done|]. split; [done|].
    destruct v, (selinux_enforcing s); try done; [by left|by left|by right].
Qed.

Lemma converts_ok s newp n n' : converts s newp n n' -> str_ok (sn_context n) -> str_ok (sn_context n').
Proof.
  intros [_ (m & m' & H)] Hok. destruct (Z.leb_spec (sn_sid n) SECINITSID_NUM) as [Hs|Hs]; [|by eapply convert_outcome].
  unfold convert_context in H. rewrite (proj2 (Z.leb_le _ _)) in H by done. injection H as <- _. done.
Qed.

(** The table with the contexts replaced is as well-formed as before. *)
Lemma converted_wf s newp new new2 :
  sidtab_wf new -> Forall2 (converts s newp) (sidtab_nodes new) (sidtab_nodes new2) ->
  (fun c : list sidtab_node => sn_sid <$> c) <$> si_htable new2 = (fun c : list sidtab_node => sn_sid <$> c) <$> si_htable new ->
  si_nel new2 = si_nel new -> si_next_sid new2 = si_next_sid new -> sidtab_wf (sidtab_set new2).
Proof.
  intros [Hht Hr Hn Hc _ _] Hall Hk En Ex. split; cbn [si_next_sid sidtab_set si_cache]; rewrite ?Ex; try done.
  - eapply hashtab_wf_keys; [exact Hht| |done|exact En|done|done]. cbn [ht_htable sidtab_ht sidtab_set si_htable].
    rewrite <- !list_fmap_compose.
    assert (forall l : list (list sidtab_node), (compose (fun c : list (Z * context) => c.*1) (fmap node_pair)) <$> l = (fun c : list sidtab_node => sn_sid <$> c) <$> l) as E.
    { intros l. apply list_fmap_ext. intros _ c _. cbn. by rewrite <- list_fmap_compose. }
    rewrite !E. exact Hk.
  - change (sidtab_nodes (sidtab_set new2)) with (sidtab_nodes new2). apply Forall_forall. intros n' Hn'.
    apply list_elem_of_lookup in Hn' as [i Hi]. destruct (Forall2_lookup_r _ _ _ _ _ Hall Hi) as (n & Hi' & [-> _]). by eapply (Forall_lookup_1 _ _ i n Hr).
  - change (sidtab_nodes (sidtab_set new2)) with (sidtab_nodes new2). apply Forall_forall. intros n' Hn'.
    apply list_elem_of_lookup in Hn' as [i Hi]. destruct (Forall2_lookup_r _ _ _ _ _ Hall Hi) as (n & Hi' & Hcv).
    eapply converts_ok; [exact Hcv|]. by eapply (Forall_lookup_1 _ _ i n Hc).
  - intros x Hx. apply elem_of_replicate in Hx. by destruct Hx.
Qed.

Lemma converts_lookup s newp new new2 sid c :
  hashtab_wf (sidtab_ht new) -> hashtab_wf (sidtab_ht new2) -> Forall2 (converts s newp) (sidtab_nodes new) (sidtab_nodes new2) ->
  sidtab_abs new !! sid = Some c -> exists c', sidtab_abs new2 !! sid = Some c' /\ converts s newp (mk_sidtab_node sid c) (mk_sidtab_node sid c').
Proof.
  intros Hw Hw2 Hall Hc. apply sidtab_abs_elem in Hc; [|done]. apply list_elem_of_lookup in Hc as [i Hi].
  destruct (Forall2_lookup_l _ _ _ _ _ Hall Hi) as ([sid' c'] & Hi' & Hcv). pose proof (proj1 Hcv) as E. cbn in E. subst sid'.
  exists c'. split; [|done]. apply sidtab_abs_elem; [done|]. by eapply list_elem_of_lookup_2.
Qed.

Lemma converts_back s newp new new2 sid :
  hashtab_wf (sidtab_ht new) -> hashtab_wf (sidtab_ht new2) -> Forall2 (converts s newp) (sidtab_nodes new) (sidtab_nodes new2) ->
  is_Some (sidtab_abs new2 !! sid) -> is_Some (sidtab_abs new !! sid).
Proof.
  intros Hw Hw2 Hall [c' Hc]. apply sidtab_abs_elem in Hc; [|done]. apply list_elem_of_lookup in Hc as [i Hi].
  destruct (Forall2_lookup_r _ _ _ _ _ Hall Hi) as ([sid' c] & Hi' & Hcv). pose proof (proj1 Hcv) as E. cbn in E. subst sid'.
  exists c. apply sidtab_abs_elem; [done|]. by eapply list_elem_of_lookup_2.
Qed.

Lemma convert_sidtab_spec s newp new m new2 m' :
  sidtab_wf (ss_sidtab s) -> sidtab_wf new -> convert_sidtab s newp new m = Some (0, new2, m') ->
  sidtab_wf (sidtab_set new2) /\
  (forall sid c, dynamic sid -> sidtab_abs (ss_sidtab s) !! sid = Some c ->
     exists c', sidtab_abs new2 !! sid = Some c' /\ converted s newp (context_copy c) c') /\
  (forall sid c, ~ dynamic sid -> sidtab_abs new !! sid = Some c -> sidtab_abs new2 !! sid = Some c) /\
  (forall sid, is_Some (sidtab_abs new2 !! sid) -> is_Some (sidtab_abs new !! sid) \/ is_Some (sidtab_abs (ss_sidtab s) !! sid)).
Proof.
  intros Hold Hw. unfold convert_sidtab. destruct (sidtab_map (ss_sidtab s) clone_sid (new, m)) as [[rc s1] [new1 m1]] eqn:E1.
  destruct (nz rc) eqn:Er; [by intros [= -> _ _]|]. apply nz_false in Er as ->. apply sidtab_map_zero in E1 as (Hcl & _).
  assert (Forall (fun n => 0 < sn_sid n < UINT_MAX /\ str_ok (sn_context n)) (sidtab_nodes (ss_sidtab s))) as Hf.
  { apply Forall_forall. intros n Hn. pose proof (swf_range _ Hold) as Hr. pose proof (swf_ctx _ Hold) as Hc. rewrite Forall_forall in Hr, Hc.
    specialize (Hr n Hn). pose proof (swf_next _ Hold). split; [lia|by apply Hc]. }
  destruct (clone_all _ _ _ _ _ _ Hcl Hw Hf) as (Hw1 & Hkeep & Hnew & Honly).
  destruct (sidtab_map new1 (convert_step s newp) (Some m1)) as [[rc new2'] om] eqn:E2. intros (m2 & -> & H)%bind_Some.
  injection H as -> -> _. apply sidtab_map_zero in E2 as (Hcv & Hk & En & Ex). apply convert_all in Hcv.
  pose proof (converted_wf s newp new1 new2 Hw1 Hcv Hk En Ex) as Hw2. pose proof (swf_ht _ Hw1) as Ht1. pose proof (swf_ht _ Hw2) as Ht2.
  split; [done|]. split_and!.
  - intros sid c Hd Hc. apply sidtab_abs_elem in Hc; [|apply Hold]. pose proof (Hnew _ Hc Hd) as Hc1. cbn in Hc1.
    destruct (converts_lookup s newp new1 new2 sid _ Ht1 Ht2 Hcv Hc1) as (c' & Hc' & _ & k & k' & Hconv). cbn in Hconv.
    exists c'. split; [done|]. by destruct (convert_outcome _ _ _ _ _ _ _ Hd (copy_str_ok c) Hconv).
  - intros sid c Hd Hc. destruct (converts_lookup s newp new1 new2 sid c Ht1 Ht2 Hcv (Hkeep _ _ Hc)) as (c' & Hc' & _ & k & k' & Hconv).
    unfold convert_context in Hconv. cbn in Hconv. unfold dynamic in Hd. rewrite (proj2 (Z.leb_le _ _)) in Hconv by lia. by injection Hconv as -> _.
  - intros sid Hs. apply (converts_back s newp new1 new2 sid Ht1 Ht2 Hcv) in Hs. destruct (Honly sid Hs) as [?|(n & Hin & <-)]; [by left|].
    right. exists (sn_context n). apply sidtab_abs_elem; [apply Hold|]. by destruct n.
Qed.

(** ** The initial SIDs *)

Definition isids (p : policydb) : list ocontext := nth OCON_ISID (ocontexts p) [].

(** The reader takes any number for an initial SID. *)
Definition initial_sids_ok (p : policydb) : Prop := Forall (fun c => 0 < oc_sid0 c < UINT_MAX /\ str_ok (oc_context0 c)) (isids p).

Lemma load_isids_loop_spec l t m t' m' :
  Forall (fun c => 0 < oc_sid0 c < UINT_MAX /\ str_ok (oc_context0 c)) l -> sidtab_wf t -> load_isids_loop t l m = (0, t', m') ->
  sidtab_wf t' /\ (forall sid c, sidtab_abs t !! sid = Some c -> sidtab_abs t' !! sid = Some c) /\
  (forall c, c ∈ l -> sidtab_abs t' !! oc_sid0 c = Some (context_copy (oc_context0 c))) /\
  (forall sid, is_Some (sidtab_abs t' !! sid) -> is_Some (sidtab_abs t !! sid) \/ exists c, c ∈ l /\ oc_sid0 c = sid).
Proof.
  intros Hf. revert t m. induction Hf as [|c l [Hs Hok] _ IH]; intros t m Hw; cbn [load_isids_loop].
  { intros [= <- _]. split; [done|]. split; [done|]. split; [by intros c ?%elem_of_nil|by left]. }
  destruct (negb _); [done|]. pose proof (sidtab_insert_spec t (oc_sid0 c) (oc_context0 c) m Hw Hs) as Hins.
  destruct (sidtab_insert t (oc_sid0 c) (oc_context0 c) m) as [[rc t1] m1]. destruct (nz rc) eqn:Er; [by intros [= -> _ _]|].
  apply nz_false in Er as ->. destruct Hins as [(_ & Hnone & Hw1 & Habs & _)|[([=] & _)|([=] & _)]]. intros H.
  destruct (IH _ _ Hw1 H) as (Hw' & Hkeep & Hnew & Honly). rewrite Habs in Hkeep, Honly. split; [done|].
  assert (sidtab_abs t' !! oc_sid0 c = Some (context_copy (oc_context0 c))) as Hn by (by apply Hkeep; rewrite lookup_insert_eq). split_and!.
  - intros sid c' Hc. apply Hkeep. rewrite lookup_insert_ne; [done|]. intros <-. by rewrite Hnone in Hc.
  - intros c' [->|Hin]%elem_of_cons; [done|by apply Hnew].
  - intros sid Hs'. destruct (Honly sid Hs') as [Hs1|(c' & Hin & E)].
    + destruct (decide (sid = oc_sid0 c)) as [->|Hne]; [right; exists c; split; [apply list_elem_of_here|done]|].
      rewrite lookup_insert_ne in Hs1 by done. by left.
    + right. exists c'. split; [by apply list_elem_of_further|done].
Qed.

Lemma load_isids_spec p m t m' :
  initial_sids_ok p -> policydb_load_isids p (replicate SIDTAB_CACHE_LEN None) m = (0, Some t, m') ->
  sidtab_wf t /\ (forall c, c ∈ isids p -> sidtab_abs t !! oc_sid0 c = Some (context_copy (oc_context0 c))) /\
  (forall sid, is_Some (sidtab_abs t !! sid) -> exists c, c ∈ isids p /\ oc_sid0 c = sid).
Proof.
  intros Hok. unfold policydb_load_isids. destruct (sidtab_init (replicate SIDTAB_CACHE_LEN None) m) as [[rc [t0|]] m0] eqn:E; [|done].
  apply sidtab_init_wf in E as (Hw & Ha & _). destruct (load_isids_loop t0 (nth OCON_ISID (ocontexts p) []) m0) as [[rc1 t1] m1] eqn:E1.
  intros [= -> <- _]. destruct (load_isids_loop_spec _ _ _ _ _ Hok Hw E1) as (Hw' & _ & Hnew & Honly). split; [done|]. split; [done|].
  intros sid Hs. destruct (Honly sid Hs) as [H|H]; [rewrite Ha, lookup_empty in H; by destruct H|done].
Qed.

(** Keeping the booleans does not touch the object contexts. *)
Lemma evaluate_list_objects p l p' l' : evaluate_cond_list p l = Some (p', l') -> ocontexts p' = ocontexts p.
Proof.
  revert p p' l'. induction l as [|node l IH]; intros p p' l'; cbn [evaluate_cond_list]; [by intros [= <- _]|].
  intros ([p1 n1] & Hn & H)%bind_Some. apply bind_Some in H as ([p2 l2] & Hl & [= <- _]). rewrite (IH _ _ _ Hl).
  unfold evaluate_cond_node in Hn. apply bind_Some in Hn as (v & _ & Hn). destruct (negb _); by injection Hn as <- _.
Qed.

Lemma preserve_loop_objects p names values p' : preserve_loop p names values = Some p' -> ocontexts p' = ocontexts p.
Proof.
  revert p values. induction names as [|name names IH]; intros p [|v values]; cbn [preserve_loop]; try by intros [= <-].
  intros (r & _ & H)%bind_Some. apply bind_Some in H as (p1 & H1 & H). rewrite (IH _ _ H). destruct r as [loc|]; [|by injection H1 as <-].
  unfold put_bool_state in H1. by apply bind_Some in H1 as (d & _ & [= <-]).
Qed.

Lemma preserve_bools_objects s p m rc p' m' : security_preserve_bools s p m = Some (rc, p', m') -> ocontexts p' = ocontexts p.
Proof.
  unfold security_preserve_bools. intros ([[[rc1 names] values] m1] & _ & H)%bind_Some. destruct (nz rc1); [by injection H as _ <- _|].
  apply bind_Some in H as (p1 & H1 & H). apply bind_Some in H as (p2 & H2 & [= _ <- _]). unfold evaluate_conds in H2.
  apply bind_Some in H2 as ([p3 l] & H3 & [= <-]). cbn. by rewrite (evaluate_list_objects _ _ _ _ H3), (preserve_loop_objects _ _ _ _ H1).
Qed.

(** ** A system with a policy and a SID of its own *)

Definition system_sids : sidtab := (sidtab_insert empty_sids 28 user_ctx []).1.2.
Definition sample_system : ss := mk_ss sample_read system_sids true 1 [] 0 true false false.

Lemma system_sids_wf : sidtab_wf system_sids.
Proof.
  pose proof (sidtab_insert_spec empty_sids 28 user_ctx [] empty_sids_wf ltac:(done)) as H. unfold system_sids.
  destruct (sidtab_insert empty_sids 28 user_ctx []) as [[rc t] m]. cbn. destruct H as [(_ & _ & H & _)|[(_ & _ & ->)|(_ & ->)]]; [done|exact empty_sids_wf..].
Qed.

Definition load_of (s : ss) (data : list ascii) : Z * ss * option Z * kmem :=
  match security_load_policy s data [] with Some r => r | None => (- EFAULT, s, None, []) end.
Definition loads (s : ss) (data : list ascii) : bool :=
  match security_load_policy s data [] with Some (_, _, Some _, _) => true | _ => false end.
Definition seqno_of (s : ss) (data : list ascii) : Z := match (load_of s data).1.2 with Some seq => seq | None => 0 end.

Lemma loads_equation s data :
  loads s data = true ->
  security_load_policy s data [] = Some ((load_of s data).1.1.1, (load_of s data).1.1.2, Some (seqno_of s data), (load_of s data).2).
Proof. unfold loads, seqno_of, load_of. by destruct (security_load_policy s data []) as [[[[rc s'] [seq|]] m']|]. Qed.

Definition initial_sids_okb (p : policydb) : bool :=
  forallb (fun c => (0 <? oc_sid0 c) && (oc_sid0 c <? UINT_MAX) && negb (nz (c_len (oc_context0 c)))) (isids p).

Lemma initial_sids_okb_sound p : initial_sids_okb p = true -> initial_sids_ok p.
Proof.
  unfold initial_sids_okb. rewrite forallb_forall. intros H. apply Forall_forall. intros c Hc. apply list_elem_of_In in Hc.
  specialize (H c Hc). apply andb_prop in H as [[H1 H2]%andb_prop H3%negb_true_iff]. split; [lia|]. unfold str_ok. by rewrite H3.
Qed.

(** ** The outcomes of a load *)

Lemma load_next_success s data m rc s' seq m' :
  load_next s data m = Some (rc, s', Some seq, m') ->
  exists newp0 newp new new2 m1 m2 m3 m4 m5,
    security_preserve_bools s newp0 m3 = Some (0, newp, m4) /\
    policydb_load_isids newp0 (replicate SIDTAB_CACHE_LEN None) m1 = (0, Some new, m2) /\
    convert_sidtab (set_ss_sidtab s (sidtab_shutdown (ss_sidtab s))) newp new m4 = Some (0, new2, m5) /\
    rc = 0 /\ latest_granting s' = seq /\ seq = u32 (latest_granting s + 1) /\
    ss_policydb s' = newp /\ ss_sidtab s' = sidtab_set new2 /\ ss_initialized s' = true /\ plain_objects newp0.
Proof.
  unfold load_next. intros ([newp0 fp' m1|rc1 m1] & Hrd & H)%bind_Some; [|done].
  assert (plain_objects (set_pd_len newp0 (Z.of_nat (length data)))) as Hpl by (destruct (gives_plain_objects _ _ _ _ _ Hrd); by split).
  clear Hrd. generalize dependent (set_pd_len newp0 (Z.of_nat (length data))). clear newp0. intros newp0 H Hpl.
  destruct (policydb_load_isids newp0 _ m1) as [[rc1 [new|]] m2] eqn:El; [|done]. destruct (nz rc1) eqn:E1; [done|]. apply nz_false in E1 as ->.
  apply bind_Some in H as ([[rc2 map] m3] & _ & H). destruct map as [[mapping size]|]; [|done].
  apply bind_Some in H as ([[rc3 newp] m4] & Hp & H). destruct (nz rc3) eqn:E3; [done|]. apply nz_false in E3 as ->.
  apply bind_Some in H as ([[rc4 new2] m5] & Hc & H). destruct (nz rc4) eqn:E4; [done|]. apply nz_false in E4 as ->.
  apply bind_Some in H as (s1 & Hs1 & H). unfold security_load_policycaps in Hs1. apply bind_Some in Hs1 as (np & _ & Hs1).
  apply bind_Some in Hs1 as (op & _ & Hs1). injection Hs1 as <-. injection H as <- <- Hseq _. cbn in Hseq.
  exists newp0, newp, new, new2, m1, m2, m3, m4, m5. by split_and!.
Qed.

Lemma load_next_failure s data m rc s' m' :
  load_next s data m = Some (rc, s', None, m') -> s' = s \/ s' = set_ss_sidtab s (sidtab_shutdown (ss_sidtab s)).
Proof.
  unfold load_next. intros ([newp0 fp' m1|rc1 m1] & _ & H)%bind_Some; [|by injection H as _ <- _; left].
  generalize dependent (set_pd_len newp0 (Z.of_nat (length data))). clear newp0. intros newp0 H.
  destruct (policydb_load_isids newp0 _ m1) as [[rc1 [new|]] m2]; [|by injection H as _ <- _; left].
  destruct (nz rc1); [by injection H as _ <- _; left|]. apply bind_Some in H as ([[rc2 map] m3] & _ & H).
  destruct map as [[mapping size]|]; [|by injection H as _ <- _; left]. apply bind_Some in H as ([[rc3 newp] m4] & _ & H).
  destruct (nz rc3); [by injection H as _ <- _; left|]. apply bind_Some in H as ([[rc4 new2] m5] & _ & H).
  destruct (nz rc4); [injection H as _ <- _; by right|]. by apply bind_Some in H as (s1 & _ & H).
Qed.

Lemma load_first_failure s data m rc s' seq m' :
  load_first s data m = Some (rc, s', seq, m') -> rc <> 0 ->
  seq = None /\ latest_granting s' = latest_granting s /\ ss_initialized s' = ss_initialized s.
Proof.
  unfold load_first. intros ([p fp' m1|rc1 m1] & _ & H)%bind_Some Hrc; [|by injection H as _ <- <- _].
  apply bind_Some in H as ([[rc2 map] m2] & _ & H). destruct map as [[mapping size]|]; [|by injection H as _ <- <- _].
  destruct (policydb_load_isids _ _ m2) as [[rc3 t] m3]. destruct (nz rc3); [injection H as _ <- <- _; by destruct t|].
  apply bind_Some in H as (s1 & _ & H). by injection H as <- _ _ _.
Qed.

Lemma shutdown_wf t : sidtab_wf t -> sidtab_wf (sidtab_shutdown t).
Proof. intros Hw. destruct Hw; split; done. Qed.

Lemma load_initialized s data m : ss_initialized s = true -> security_load_policy s data m = load_next s data m.
Proof. intros H. unfold security_load_policy. by rewrite H. Qed.

(** What another part of the kernel finds after a load. *)
Lemma loaded_parts s data m rc s' seq m' :
  ss_initialized s = true -> sidtab_wf (ss_sidtab s) -> security_load_policy s data m = Some (rc, s', Some seq, m') ->
  initial_sids_ok (ss_policydb s') ->
  sidtab_wf (ss_sidtab s') /\ plain_objects (ss_policydb s') /\ ss_initialized s' = true.
Proof.
  intros Hini Hw H Hok. rewrite load_initialized in H by done. apply load_next_success in H as
    (newp0 & newp & new & new2 & m1 & m2 & m3 & m4 & m5 & Hp & El & Ec & _ & _ & _ & E1 & E2 & E3 & Hpl).
  pose proof (preserve_bools_objects _ _ _ _ _ _ Hp) as Eo. rewrite E1 in Hok |- *.
  assert (initial_sids_ok newp0) as Hok0 by (unfold initial_sids_ok, isids in *; by rewrite <- Eo).
  destruct (load_isids_spec newp0 _ _ _ Hok0 El) as (Hwn & _).
  destruct (convert_sidtab_spec (set_ss_sidtab s (sidtab_shutdown (ss_sidtab s))) _ _ _ _ _ (shutdown_wf _ Hw) Hwn Ec) as (Hw2 & _).
  rewrite E2. split; [exact Hw2|]. split; [|exact E3]. destruct Hpl as [P1 P2]. split; by rewrite Eo.
Qed.

(** ** Properties *)

(** C21: loading a new policy keeps the SIDs.  When a load has made the new
    policy known with a sequence number, it returned 0 and the number is the
    next one; the SID table is well-formed and in use.  Every SID that was given
    out keeps its context: it has the user, role, type, sensitivities and
    categories of the same names in the new policy; or, when the new policy
    lacks one of the names or does not allow the combination and is enforced,
    it has the text of the old context; one that was only text is read by the
    new policy, and stays that text if it cannot be read.  The initial SIDs
    have the contexts of the new policy, and there are no other SIDs.  The
    initial SIDs of the new policy are assumed to be in range. *)
Theorem policy_reload_keeps_sids s data m rc s' seq m' :
  ss_initialized s = true -> sidtab_wf (ss_sidtab s) -> security_load_policy s data m = Some (rc, s', Some seq, m') ->
  initial_sids_ok (ss_policydb s') ->
  rc = 0 /\ seq = u32 (latest_granting s + 1) /\ latest_granting s' = seq /\ ss_initialized s' = true /\
  sidtab_wf (ss_sidtab s') /\ si_shutdown (ss_sidtab s') = false /\
  (forall sid c, SECINITSID_NUM < sid -> sidtab_abs (ss_sidtab s) !! sid = Some c ->
     exists c', sidtab_abs (ss_sidtab s') !! sid = Some c' /\ converted s (ss_policydb s') (context_copy c) c') /\
  (forall c, c ∈ isids (ss_policydb s') -> oc_sid0 c <= SECINITSID_NUM ->
     sidtab_abs (ss_sidtab s') !! oc_sid0 c = Some (context_copy (oc_context0 c))) /\
  (forall sid, is_Some (sidtab_abs (ss_sidtab s') !! sid) ->
     is_Some (sidtab_abs (ss_sidtab s) !! sid) \/ exists c, c ∈ isids (ss_policydb s') /\ oc_sid0 c = sid).
Proof.
  intros Hini Hw H Hok. rewrite load_initialized in H by done. apply load_next_success in H as
    (newp0 & newp & new & new2 & m1 & m2 & m3 & m4 & m5 & Hp & El & Ec & -> & Es & -> & E1 & E2 & E3 & _).
  pose proof (preserve_bools_objects _ _ _ _ _ _ Hp) as Eo. rewrite E1 in Hok |- *.
  assert (isids newp = isids newp0) as Ei by (unfold isids; by rewrite Eo).
  assert (initial_sids_ok newp0) as Hok0 by (unfold initial_sids_ok in *; by rewrite <- Ei).
  destruct (load_isids_spec newp0 _ _ _ Hok0 El) as (Hwn & Hnew & Honly).
  destruct (convert_sidtab_spec (set_ss_sidtab s (sidtab_shutdown (ss_sidtab s))) _ _ _ _ _ (shutdown_wf _ Hw) Hwn Ec) as (Hw2 & Hdyn & Hini' & Hback). rewrite E2, Ei.
  split_and!; [done|done|exact Es|exact E3|exact Hw2|done|exact Hdyn| |].
  - intros c Hc Hs. apply Hini'; [unfold dynamic; lia|by apply Hnew].
  - intros sid Hs. destruct (Hback sid Hs) as [Hs'|Hs']; [right; by apply Honly|left; exact Hs'].
Qed.

Lemma policy_reload_keeps_sids_witness :
  let s' := (load_of sample_system sample_file).1.1.2 in
  sidtab_abs system_sids !! 28 = Some (context_copy user_ctx) /\
  exists c', sidtab_abs (ss_sidtab s') !! 28 = Some c' /\ converted sample_system (ss_policydb s') (context_copy (context_copy user_ctx)) c'.
Proof.
  assert (sidtab_abs system_sids !! 28 = Some (context_copy user_ctx)) as H28 by (vm_compute; reflexivity).
  split; [exact H28|].
  assert (loads sample_system sample_file = true) as El by (vm_compute; reflexivity). apply loads_equation in El.
  apply (policy_reload_keeps_sids sample_system sample_file [] _ _ _ _ eq_refl system_sids_wf El); [|done|exact H28].
  apply initial_sids_okb_sound. vm_compute. reflexivity.
Defined.

(** C22: a load that fails leaves the system as it was.  If it returns an error,
    no sequence number is given out, and a policy that was in force stays in
    force: the policy, the class mapping, the mode and the contexts of all SIDs
    are unchanged, only the SID table may be left shut down.  If it was the
    first load, the security server goes on without a policy. *)
Theorem failed_load_keeps_policy s data m rc s' seq m' :
  security_load_policy s data m = Some (rc, s', seq, m') -> rc <> 0 ->
  seq = None /\ latest_granting s' = latest_granting s /\ ss_initialized s' = ss_initialized s /\
  (ss_initialized s = true -> s' = s \/ s' = set_ss_sidtab s (sidtab_shutdown (ss_sidtab s))).
Proof.
  unfold security_load_policy. destruct (ss_initialized s) eqn:Ei; cbn [negb]; intros H Hrc.
  - destruct seq as [seq|]; [by apply load_next_success in H as (? & ? & ? & ? & ? & ? & ? & ? & ? & _ & _ & _ & -> & _)|].
    apply load_next_failure in H as [-> | ->]; (split; [done|]); (split; [done|]); (split; [done|]); [by left|by right].
  - apply load_first_failure in H as (-> & E1 & E2); [|done]. by rewrite E2, Ei.
Qed.

Lemma failed_load_keeps_policy_witness :
  exists s', security_load_policy sample_system [] [] = Some (- EINVAL, s', None, []) /\
  (s' = sample_system \/ s' = set_ss_sidtab sample_system (sidtab_shutdown system_sids)).
Proof.
  destruct (security_load_policy sample_system [] []) as [[[[rc s'] seq] m']|] eqn:E; [|discriminate E]. cbn in E. injection E as <- <- <- <-.
  eexists. split; [reflexivity|].
  apply (failed_load_keeps_policy sample_system [] [] (- EINVAL) sample_system None []); [reflexivity|discriminate|reflexivity].
Defined.

(** The number of an initial SID is not compared with [SECINITSID_NUM] when a
    policy is read.  One that is already given out makes the load fail after
    the table was shut down, and from then on no new context gets a SID. *)
Definition clashing_file : list ascii := file_of (set_ocontexts sample_read ([ocon ONone 0 init_ctx context_init 28] :: drop 1 (ocontexts sample_read))).

Example failed_load_stops_sids :
  let r := load_of sample_system clashing_file in
  r.1.1.1 = - EEXIST /\ si_shutdown (ss_sidtab r.1.1.2) = true /\
  (fun x => x.1.1.1) <$> sidtab_context_to_sid (ss_sidtab sample_system) etc_ctx [] = Some 0 /\
  (fun x => x.1.1.1) <$> sidtab_context_to_sid (ss_sidtab r.1.1.2) etc_ctx [] = Some (- ENOMEM).
Proof. split_and!; vm_compute; reflexivity. Qed.

(** [policydb_write] writes the file name transitions whatever the version,
    and [filename_trans_read] reads them from version 25 on: the file it writes
    for an older policy has four bytes too many. *)
Definition old_policy : policydb := set_filename_trans_list (set_policyvers sample_read POLICYDB_VERSION_BOUNDARY) [].

(** The file of an older version as [filename_trans_read] expects it. *)
Definition after_filenames (p : policydb) : nat :=
  length (default [] (ocontext_write (ocontexts p) 7 0)) + length (default [] (genfs_write p)) +
  length (default [] (range_write p)) + length (default [] (write_type_attrs p)).
Definition old_file : list ascii :=
  let b := file_of old_policy in let n := (length b - after_filenames old_policy - 4)%nat in take n b ++ drop (n + 4) b.

Definition load_system : ss := (load_of sample_system old_file).1.1.2.

Example old_policy_not_reread :
  reads_well (file_of old_policy) = false /\ reads_well old_file = true /\
  loads sample_system old_file = true /\ security_policydb_len load_system = Z.of_nat (length old_file) /\
  security_read_policy load_system [] = None.
Proof. split_and!; vm_compute; reflexivity. Qed.
