(* ===== verification/Avc.v ===== *)
(** * The access vector cache (security/selinux/avc.c, include/avc.h)

    512 chains of decisions, hashed by source SID, target SID and class.  A
    node is never changed in place: an update replaces it by a new one and the
    old one is freed after a grace period, so a node a reader still holds is
    the decision it found.  Chains are lists of entries.

    Whether [spin_trylock] succeeds is decided by the environment like an
    allocation, and read from the same list. *)

From Stdlib Require Import Ascii String.
From S2P Require Import Prelude Ebitmap Hashtab Context Sidtab Avtab Policydb PolicydbOps Conditional Classmap Services.

(** ** Data *)

Definition AVC_CACHE_SLOTS : Z := 512.
Definition AVC_DEF_CACHE_THRESHOLD : Z := 512.
Definition AVC_CACHE_RECLAIM : Z := 16.
Definition SECSID_WILD : Z := 0xffffffff.
Definition AVC_STRICT : Z := 1.

Definition AVC_CALLBACK_GRANT : Z := 1.
Definition AVC_CALLBACK_TRY_REVOKE : Z := 2.
Definition AVC_CALLBACK_REVOKE : Z := 4.
Definition AVC_CALLBACK_RESET : Z := 8.
Definition AVC_CALLBACK_AUDITALLOW_ENABLE : Z := 16.
Definition AVC_CALLBACK_AUDITALLOW_DISABLE : Z := 32.
Definition AVC_CALLBACK_AUDITDENY_ENABLE : Z := 64.
Definition AVC_CALLBACK_AUDITDENY_DISABLE : Z := 128.

Record avc_entry := mk_avc_entry {
  ae_ssid : Z;
  ae_tsid : Z;
  ae_tclass : Z;
  ae_avd : av_decision
}.

(** A callback is known by what it returns for (event, ssid, tsid, tclass, perms). *)
Record avc_callback_node := mk_avc_callback_node {
  ac_callback : Z -> Z -> Z -> Z -> Z -> Z;
  ac_events : Z;
  ac_ssid : Z;
  ac_tsid : Z;
  ac_tclass : Z;
  ac_perms : Z
}.

(** [avc_cache], [avc_callbacks] and [avc_cache_threshold]. *)
Record avc := mk_avc {
  slots : list (list avc_entry);
  lru_hint : Z;
  active_nodes : Z;
  latest_notif : Z;
  avc_callbacks : list avc_callback_node;
  avc_cache_threshold : Z
}.

Definition set_slot (a : avc) (hvalue : Z) (l : list avc_entry) : avc :=
  mk_avc (<[Z.to_nat hvalue := l]> (slots a)) (lru_hint a) (active_nodes a) (latest_notif a)
         (avc_callbacks a) (avc_cache_threshold a).
Definition set_active_nodes (a : avc) (v : Z) : avc :=
  mk_avc (slots a) (lru_hint a) v (latest_notif a) (avc_callbacks a) (avc_cache_threshold a).
Definition set_lru_hint (a : avc) (v : Z) : avc :=
  mk_avc (slots a) v (active_nodes a) (latest_notif a) (avc_callbacks a) (avc_cache_threshold a).
Definition set_latest_notif (a : avc) (v : Z) : avc :=
  mk_avc (slots a) (lru_hint a) (active_nodes a) v (avc_callbacks a) (avc_cache_threshold a).

Definition slot_at (a : avc) (hvalue : Z) : list avc_entry := nth (Z.to_nat hvalue) (slots a) [].

(** ** Operations *)

Definition avc_hash (ssid tsid tclass : Z) : Z :=
  (ssid .^ u32 (tsid .<< 2) .^ (tclass .<< 4)) .& (AVC_CACHE_SLOTS - 1).

Definition avc_init (a : avc) : avc :=
  mk_avc (replicate (Z.to_nat AVC_CACHE_SLOTS) []) 0 0 (latest_notif a) (avc_callbacks a) (avc_cache_threshold a).

(** The figures [avc_get_hash_stats] prints. *)
Definition avc_get_hash_stats (a : avc) : Z * Z * Z :=
  let '(slots_used, max_chain_len) :=
    fold_left (fun (st : Z * Z) (head : list avc_entry) =>
      match head with
      | [] => st
      | _ :: _ =>
          let chain_len := Z.of_nat (length head) in
          (st.1 + 1, if st.2 <? chain_len then chain_len else st.2)
      end) (slots a) (0, 0) in
  (active_nodes a, slots_used, max_chain_len).

(** The nodes of a chain are deleted from its head until [AVC_CACHE_RECLAIM]
    of them have gone; [n] tries are left. *)
Fixpoint reclaim_loop (n : nat) (ecx : Z) (a : avc) (m : kmem) : Z * avc * kmem :=
  match n with
  | O => (ecx, a, m)
  | S n' =>
      let a := set_lru_hint a (s32 (lru_hint a + 1)) in
      let hvalue := lru_hint a .& (AVC_CACHE_SLOTS - 1) in
      let '(ok, m) := kalloc m in                 (* spin_trylock *)
      if negb ok then reclaim_loop n' ecx a m
      else
        let head := slot_at a hvalue in
        let k := (length head `min` Z.to_nat (AVC_CACHE_RECLAIM - ecx))%nat in
        let a := set_active_nodes (set_slot a hvalue (drop k head)) (s32 (active_nodes a - Z.of_nat k)) in
        let ecx := ecx + Z.of_nat k in
        if AVC_CACHE_RECLAIM <=? ecx then (ecx, a, m) else reclaim_loop n' ecx a m
  end.

Definition avc_reclaim_node (a : avc) (m : kmem) : Z * avc * kmem :=
  reclaim_loop (Z.to_nat AVC_CACHE_SLOTS) 0 a m.

(** Result: whether there is a node. *)
Definition avc_alloc_node (a : avc) (m : kmem) : bool * avc * kmem :=
  let '(ok, m) := kalloc m in
  if negb ok then (false, a, m)
  else
    let a := set_active_nodes a (s32 (active_nodes a + 1)) in
    if avc_cache_threshold a <? u32 (active_nodes a) then
      let '(_, a, m) := avc_reclaim_node a m in (true, a, m)
    else (true, a, m).

Definition entry_is (ssid tsid tclass : Z) (e : avc_entry) : bool :=
  (ssid =? ae_ssid e) && (tclass =? ae_tclass e) && (tsid =? ae_tsid e).

Definition avc_search_node (a : avc) (ssid tsid tclass : Z) : option avc_entry :=
  List.find (entry_is ssid tsid tclass) (slot_at a (avc_hash ssid tsid tclass)).

(** [avc_lookup] without the statistics. *)
Definition avc_lookup (a : avc) (ssid tsid tclass : Z) : option avc_entry := avc_search_node a ssid tsid tclass.

(** [seqno] is an [int] compared with an unsigned value. *)
Definition avc_latest_notif_update (a : avc) (seqno : Z) (is_insert : bool) : Z * avc :=
  if is_insert then
    if u32 seqno <? latest_notif a then (- EAGAIN, a) else (0, a)
  else if latest_notif a <? u32 seqno then (0, set_latest_notif a (u32 seqno))
  else (0, a).

(** [avc_node_replace(node, pos)] for the first match; [None]: no match. *)
Fixpoint replace_first (f : avc_entry -> bool) (e : avc_entry) (l : list avc_entry) : option (list avc_entry) :=
  match l with
  | [] => None
  | pos :: next =>
      if f pos then Some (e :: next)
      else match replace_first f e next with Some l' => Some (pos :: l') | None => None end
  end.

(** Result: the node inserted, or [NULL]. *)
Definition avc_insert (a : avc) (ssid tsid tclass : Z) (avd : av_decision) (m : kmem)
    : option avc_entry * avc * kmem :=
  let '(rc, a) := avc_latest_notif_update a (seqno avd) true in
  if nz rc then (None, a, m)
  else
    let '(ok, a, m) := avc_alloc_node a m in
    if negb ok then (None, a, m)
    else
      let hvalue := avc_hash ssid tsid tclass in
      let node := mk_avc_entry ssid tsid tclass avd in
      let head := slot_at a hvalue in
      match replace_first (entry_is ssid tsid tclass) node head with
      | Some l => (Some node, set_active_nodes (set_slot a hvalue l) (s32 (active_nodes a - 1)), m)
      | None => (Some node, set_slot a hvalue (node :: head), m)
      end.

(** [switch (event)] of [avc_update_node]. *)
Definition update_avd (event perms : Z) (avd : av_decision) : av_decision :=
  if event =? AVC_CALLBACK_GRANT then set_allowed avd (allowed avd .| perms)
  else if (event =? AVC_CALLBACK_TRY_REVOKE) || (event =? AVC_CALLBACK_REVOKE)
  then set_allowed avd (allowed avd .& not32 perms)
  else if event =? AVC_CALLBACK_AUDITALLOW_ENABLE then set_auditallow avd (auditallow avd .| perms)
  else if event =? AVC_CALLBACK_AUDITALLOW_DISABLE then set_auditallow avd (auditallow avd .& not32 perms)
  else if event =? AVC_CALLBACK_AUDITDENY_ENABLE then set_auditdeny avd (auditdeny avd .| perms)
  else if event =? AVC_CALLBACK_AUDITDENY_DISABLE then set_auditdeny avd (auditdeny avd .& not32 perms)
  else avd.

Definition avc_update_node (a : avc) (event perms ssid tsid tclass seq : Z) (m : kmem) : Z * avc * kmem :=
  let '(ok, a, m) := avc_alloc_node a m in
  if negb ok then (- ENOMEM, a, m)
  else
    let hvalue := avc_hash ssid tsid tclass in
    let f e := entry_is ssid tsid tclass e && (seq =? seqno (ae_avd e)) in
    let head := slot_at a hvalue in
    match List.find f head with
    | None => (- ENOENT, set_active_nodes a (s32 (active_nodes a - 1)), m)
    | Some orig =>
        let node := mk_avc_entry ssid tsid tclass (update_avd event perms (ae_avd orig)) in
        match replace_first f node head with
        | Some l => (0, set_active_nodes (set_slot a hvalue l) (s32 (active_nodes a - 1)), m)
        | None => (0, a, m)
        end
    end.

Definition avc_flush (a : avc) : avc :=
  mk_avc (fmap (M := list) (fun _ => []) (slots a)) (lru_hint a)
         (s32 (active_nodes a - Z.of_nat (length (concat (slots a))))) (latest_notif a)
         (avc_callbacks a) (avc_cache_threshold a).

(** The loop over the callbacks: the first error is kept. *)
Definition run_callbacks (l : list avc_callback_node) : Z :=
  fold_left (fun rc c =>
    if nz (ac_events c .& AVC_CALLBACK_RESET) then
      let tmprc := ac_callback c AVC_CALLBACK_RESET 0 0 0 0 in
      if nz rc then rc else tmprc
    else rc) l 0.

Definition avc_ss_reset (a : avc) (seqno : Z) : Z * avc :=
  let a := avc_flush a in
  let rc := run_callbacks (avc_callbacks a) in
  let '(_, a) := avc_latest_notif_update a seqno false in
  (rc, a).

(** [junk]: what the allocated memory holds, [tclass] is not assigned. *)
Definition avc_add_callback (a : avc) (callback : Z -> Z -> Z -> Z -> Z -> Z) (events ssid tsid tclass perms junk : Z)
    (m : kmem) : Z * avc * kmem :=
  let '(ok, m) := kalloc m in
  if negb ok then (- ENOMEM, a, m)
  else
    (0, mk_avc (slots a) (lru_hint a) (active_nodes a) (latest_notif a)
               (mk_avc_callback_node callback events ssid tsid junk perms :: avc_callbacks a)
               (avc_cache_threshold a), m).

Definition avc_sidcmp (x y : Z) : bool := (x =? y) || (x =? SECSID_WILD) || (y =? SECSID_WILD).

Definition avc_policy_seqno (a : avc) : Z := latest_notif a.

(** ** Permission checks *)

(** What [avc_dump_av] prints: the names of the bits it knows and the bits
    left over. *)
Fixpoint dump_bits (n : nat) (i : nat) (perms : list string) (av : Z) : list string * Z :=
  match n with
  | O => ([], av)
  | S n' =>
      match perms !! i with
      | Some name =>
          if nz (u32 (1 .<< Z.of_nat i) .& av) then
            let '(l, av) := dump_bits n' (S i) perms (av .& not32 (u32 (1 .<< Z.of_nat i))) in (name :: l, av)
          else dump_bits n' (S i) perms av
      | None => dump_bits n' (S i) perms av
      end
  end.

Definition avc_dump_av (tclass av : Z) : option (list string * Z) :=
  if av =? 0 then Some ([], 0)
  else
    map ← (if tclass <=? 0 then None else secclass_map !! Z.to_nat (tclass - 1));
    Some (dump_bits 32 0 (scm_perms map) av).

(** The part of [struct common_audit_data] looked at here. *)
Record audit_data := mk_audit_data {
  ad_fs : bool;          (* type == LSM_AUDIT_DATA_FS *)
  ad_auditdeny : Z
}.

Record audit_record := mk_audit_record {
  ar_ssid : Z;
  ar_tsid : Z;
  ar_tclass : Z;
  ar_requested : Z;
  ar_audited : Z;
  ar_denied : Z
}.

Definition IPERM_FLAG_RCU : Z := 0x0001.

(** Result: the return value and the record given to [common_lsm_audit]. *)
Definition avc_audit (ssid tsid tclass requested : Z) (avd : av_decision) (result : Z) (a : option audit_data)
    (flags : Z) : Z * option audit_record :=
  let denied := requested .& not32 (allowed avd) in
  let '(denied, audited) :=
    if nz denied then
      let audited := denied .& auditdeny avd in
      match a with
      | Some a =>
          if nz (ad_auditdeny a) && negb (nz (ad_auditdeny a .& auditdeny avd)) then (denied, 0) else (denied, audited)
      | None => (denied, audited)
      end
    else if nz result then (requested, requested)
    else (denied, requested .& auditallow avd) in
  if negb (nz audited) then (0, None)
  else if (match a with Some a => ad_fs a | None => false end) && nz (flags .& IPERM_FLAG_RCU) then (- ECHILD, None)
  else (0, Some (mk_audit_record ssid tsid tclass requested audited denied)).

(** [None] also stands for [BUG_ON(!requested)].  Result: [rc], the decision,
    the cache. *)
Definition avc_has_perm_noaudit (s : ss) (a : avc) (ssid tsid tclass requested flags : Z) (m : kmem)
    : option (Z * av_decision * avc * kmem) :=
  if negb (nz requested) then None
  else
    '(avd, a, m) ← (match avc_lookup a ssid tsid tclass with
                    | None =>
                        avd ← security_compute_av s ssid tsid tclass;
                        let '(_, a, m) := avc_insert a ssid tsid tclass avd m in
                        Some (avd, a, m)
                    | Some node => Some (ae_avd node, a, m)
                    end);
    let denied := requested .& not32 (allowed avd) in
    if nz denied then
      if nz (flags .& AVC_STRICT) then Some (- EACCES, avd, a, m)
      else if negb (selinux_enforcing s) || nz (Conditional.flags avd .& AVD_FLAGS_PERMISSIVE) then
        let '(_, a, m) := avc_update_node a AVC_CALLBACK_GRANT requested ssid tsid tclass (seqno avd) m in
        Some (0, avd, a, m)
      else Some (- EACCES, avd, a, m)
    else Some (0, avd, a, m).

Definition avc_disable (a : avc) : avc := avc_flush a.

(** ** The result of a check *)

Lemma noaudit_rc s a ssid tsid tclass requested fl m rc avd a' m' :
  avc_has_perm_noaudit s a ssid tsid tclass requested fl m = Some (rc, avd, a', m') -> rc = 0 \/ rc = - EACCES.
Proof.
  unfold avc_has_perm_noaudit. destruct (nz requested); [|done]. cbn [negb]. intros H.
  apply bind_Some in H as ([[avd0 a0] m0] & _ & H).
  repeat case_match; simplify_eq; auto.
Qed.

(** ** Invariant of the cache *)

Definition entry_key (e : avc_entry) : Z * Z * Z := (ae_ssid e, ae_tsid e, ae_tclass e).
Definition entry_hash (e : avc_entry) : Z := avc_hash (ae_ssid e) (ae_tsid e) (ae_tclass e).

Definition chain_wf (i : nat) (c : list avc_entry) : Prop :=
  Forall (fun e => Z.to_nat (entry_hash e) = i) c /\ NoDup (entry_key <$> c).

(** The number of nodes in the cache. *)
Definition node_count (a : avc) : Z := Z.of_nat (length (concat (slots a))).

(** [x] nodes have been counted that are not linked in yet. *)
Record avc_wf_with (x : Z) (a : avc) : Prop := mk_avc_wf {
  vwf_len : length (slots a) = Z.to_nat AVC_CACHE_SLOTS;
  vwf_chain : forall i c, slots a !! i = Some c -> chain_wf i c;
  vwf_active : active_nodes a = s32 (node_count a + x)
}.

Definition avc_wf : avc -> Prop := avc_wf_with 0.

(** Every entry satisfies [P]. *)
Definition cached_all (P : avc_entry -> Prop) (a : avc) : Prop := Forall (Forall P) (slots a).

Lemma avc_hash_range ssid tsid tclass : 0 <= avc_hash ssid tsid tclass < AVC_CACHE_SLOTS.
Proof.
  unfold avc_hash, AVC_CACHE_SLOTS. change (512 - 1) with (Z.ones 9). rewrite Z.land_ones by lia.
  by apply Z.mod_pos_bound.
Qed.

Lemma slot_lookup_at x a h : avc_wf_with x a -> 0 <= h < AVC_CACHE_SLOTS -> slots a !! Z.to_nat h = Some (slot_at a h).
Proof.
  intros Hwf Hh. unfold slot_at. rewrite nth_lookup.
  destruct (lookup_lt_is_Some_2 (slots a) (Z.to_nat h)) as [c Hc]; [|by rewrite Hc].
  rewrite (vwf_len _ _ Hwf). unfold AVC_CACHE_SLOTS in *. lia.
Qed.

Lemma slot_at_all P a h : cached_all P a -> Forall P (slot_at a h).
Proof.
  intros Hall. unfold slot_at. rewrite nth_lookup. destruct (slots a !! Z.to_nat h) as [c|] eqn:Hc; [|constructor].
  by eapply Forall_lookup_1.
Qed.

Lemma set_slot_all P a h l : cached_all P a -> Forall P l -> cached_all P (set_slot a h l).
Proof. intros Hall Hl. unfold cached_all. cbn. by apply Forall_insert. Qed.

Lemma concat_insert_length {A} (ls : list (list A)) i c l :
  ls !! i = Some c -> (length (concat (<[i := l]> ls)) + length c = length (concat ls) + length l)%nat.
Proof.
  revert i. induction ls as [|c0 ls IH]; intros [|i] Hi; try done.
  - injection Hi as ->. change (<[0%nat:=l]> (c :: ls)) with (l :: ls). cbn [concat]. rewrite !length_app. lia.
  - change (<[S i:=l]> (c0 :: ls)) with (c0 :: <[i:=l]> ls). cbn [concat]. rewrite !length_app.
    specialize (IH i Hi). lia.
Qed.

(** Replacing the chain of one slot; [k] is the change of the counter. *)
Lemma set_slot_avc_wf x y a h l k :
  avc_wf_with x a -> 0 <= h < AVC_CACHE_SLOTS -> chain_wf (Z.to_nat h) l ->
  s32 (active_nodes a + k) = s32 (node_count a + y + (Z.of_nat (length l) - Z.of_nat (length (slot_at a h)))) ->
  avc_wf_with y (set_active_nodes (set_slot a h l) (s32 (active_nodes a + k))).
Proof.
  intros Hwf Hh Hl Hk. pose proof (slot_lookup_at x a h Hwf Hh) as Hs. split; cbn.
  - rewrite length_insert. apply Hwf.
  - intros i c Hc. destruct (decide (i = Z.to_nat h)) as [->|Hne].
    + rewrite list_lookup_insert_eq in Hc by by eapply lookup_lt_Some. by injection Hc as <-.
    + rewrite list_lookup_insert_ne in Hc by done. by apply (vwf_chain _ _ Hwf).
  - rewrite Hk. unfold node_count. cbn. pose proof (concat_insert_length (slots a) (Z.to_nat h) _ l Hs) as Hlen.
    f_equal. lia.
Qed.

Lemma chain_wf_drop i c k : chain_wf i c -> chain_wf i (drop k c).
Proof.
  intros [H1 H2]. split; [by apply Forall_drop|]. rewrite fmap_drop. eapply sublist_NoDup; [done|apply sublist_drop].
Qed.

(** Dropping nodes is all that reclaiming does. *)
Record shrunk (a a' : avc) : Prop := mk_shrunk {
  sh_notif : latest_notif a' = latest_notif a;
  sh_cb : avc_callbacks a' = avc_callbacks a;
  sh_thr : avc_cache_threshold a' = avc_cache_threshold a;
  sh_len : length (slots a') = length (slots a);
  sh_slots : forall i c', slots a' !! i = Some c' -> exists c k, slots a !! i = Some c /\ c' = drop k c
}.

Lemma shrunk_refl a : shrunk a a.
Proof. split; try done. intros i c Hc. by exists c, 0%nat. Qed.

Lemma shrunk_trans a1 a2 a3 : shrunk a1 a2 -> shrunk a2 a3 -> shrunk a1 a3.
Proof.
  intros [H1 H2 H3 H4 H5] [K1 K2 K3 K4 K5]. split; [congruence..|]. intros i c Hc.
  destruct (K5 i c Hc) as (c2 & k2 & Hc2 & ->). destruct (H5 i c2 Hc2) as (c1 & k1 & Hc1 & ->).
  exists c1, (k1 + k2)%nat. split; [done|]. by rewrite drop_drop.
Qed.

Lemma shrunk_all P a a' : shrunk a a' -> cached_all P a -> cached_all P a'.
Proof.
  intros [_ _ _ _ Hs] Hall. apply Forall_lookup. intros i c Hc. destruct (Hs i c Hc) as (c0 & k & Hc0 & ->).
  apply Forall_drop. by apply (Forall_lookup_1 _ _ i c0 Hall).
Qed.

Lemma reclaim_step x a h k :
  avc_wf_with x a -> 0 <= h < AVC_CACHE_SLOTS -> (k <= length (slot_at a h))%nat ->
  let a' := set_active_nodes (set_slot a h (drop k (slot_at a h))) (s32 (active_nodes a - Z.of_nat k)) in
  avc_wf_with x a' /\ shrunk a a'.
Proof.
  intros Hwf Hh Hk. pose proof (slot_lookup_at x a h Hwf Hh) as Hs. split.
  - apply (set_slot_avc_wf x x a h _ (- Z.of_nat k)); [done|done|apply chain_wf_drop; by apply (vwf_chain _ _ Hwf)|].
    rewrite (vwf_active _ _ Hwf), s32_add_l, length_drop. f_equal. lia.
  - split; cbn; try done; [by rewrite length_insert|]. intros i c Hc.
    destruct (decide (i = Z.to_nat h)) as [->|Hne].
    + rewrite list_lookup_insert_eq in Hc by by eapply lookup_lt_Some. injection Hc as <-. by eexists _, k.
    + rewrite list_lookup_insert_ne in Hc by done. by exists c, 0%nat.
Qed.

Lemma set_lru_hint_wf x a v : avc_wf_with x a -> avc_wf_with x (set_lru_hint a v) /\ shrunk a (set_lru_hint a v).
Proof. intros [H1 H2 H3]. split; [by split|]. split; try done. intros i c Hc. by exists c, 0%nat. Qed.

Lemma land_slots x : 0 <= x .& (AVC_CACHE_SLOTS - 1) < AVC_CACHE_SLOTS.
Proof.
  unfold AVC_CACHE_SLOTS. change (512 - 1) with (Z.ones 9). rewrite Z.land_ones by lia. by apply Z.mod_pos_bound.
Qed.

Lemma reclaim_loop_spec x n ecx a m :
  avc_wf_with x a -> let '(_, a', _) := reclaim_loop n ecx a m in avc_wf_with x a' /\ shrunk a a'.
Proof.
  revert ecx a m. induction n as [|n IH]; intros ecx a m Hwf; cbn [reclaim_loop]; [by split; [|apply shrunk_refl]|].
  destruct (set_lru_hint_wf x a (s32 (lru_hint a + 1)) Hwf) as [Hw1 Hs1].
  set (a1 := set_lru_hint a (s32 (lru_hint a + 1))) in *. destruct (kalloc m) as [[] m1]; cbn [negb].
  - pose proof (land_slots (lru_hint a1)) as Hh. set (h := lru_hint a1 .& (AVC_CACHE_SLOTS - 1)) in *.
    set (k := (length (slot_at a1 h) `min` Z.to_nat (AVC_CACHE_RECLAIM - ecx))%nat).
    destruct (reclaim_step x a1 h k Hw1 Hh ltac:(subst k; lia)) as [Hw2 Hs2].
    set (a2 := set_active_nodes _ _) in *.
    destruct (AVC_CACHE_RECLAIM <=? ecx + Z.of_nat k).
    + split; [done|by eapply shrunk_trans].
    + specialize (IH (ecx + Z.of_nat k) a2 m1 Hw2). destruct (reclaim_loop _ _ _ _) as [[e3 a3] m3].
      destruct IH as [Hw3 Hs3]. split; [done|]. eapply shrunk_trans; [by eapply shrunk_trans|done].
  - specialize (IH ecx a1 m1 Hw1). destruct (reclaim_loop _ _ _ _) as [[e3 a3] m3].
    destruct IH as [Hw3 Hs3]. split; [done|]. by eapply shrunk_trans.
Qed.

Lemma set_active_wf x a : avc_wf_with x a -> avc_wf_with (x + 1) (set_active_nodes a (s32 (active_nodes a + 1))).
Proof.
  intros [H1 H2 H3]. split; try done. cbn. rewrite H3, s32_add_l. unfold node_count. cbn. f_equal. lia.
Qed.

Lemma shrunk_active a v : shrunk a (set_active_nodes a v).
Proof. split; try done. intros i c Hc. by exists c, 0%nat. Qed.

Lemma avc_alloc_node_spec x a m :
  avc_wf_with x a ->
  let '(ok, a', _) := avc_alloc_node a m in
  shrunk a a' /\ if (ok : bool) then avc_wf_with (x + 1) a' else a' = a.
Proof.
  intros Hwf. unfold avc_alloc_node. destruct (kalloc m) as [[] m1]; cbn [negb]; [|by split; [apply shrunk_refl|]].
  pose proof (set_active_wf x a Hwf) as Hw1. pose proof (shrunk_active a (s32 (active_nodes a + 1))) as Hs1.
  destruct (avc_cache_threshold _ <? _); [|done]. unfold avc_reclaim_node.
  pose proof (reclaim_loop_spec (x + 1) (Z.to_nat AVC_CACHE_SLOTS) 0 _ m1 Hw1) as Hr.
  destruct (reclaim_loop _ _ _ _) as [[e a2] m2]. destruct Hr as [Hw2 Hs2]. split; [by eapply shrunk_trans|done].
Qed.

Lemma entry_is_key ssid tsid tclass e : entry_is ssid tsid tclass e = true <-> entry_key e = (ssid, tsid, tclass).
Proof.
  unfold entry_is, entry_key. rewrite !andb_true_iff, !Z.eqb_eq. split.
  - by intros [[-> ->] ->].
  - by intros [= <- <- <-].
Qed.

Lemma replace_first_spec f e l :
  match replace_first f e l with
  | Some l' => exists l1 pos l2, l = l1 ++ pos :: l2 /\ l' = l1 ++ e :: l2 /\ f pos = true /\ List.find f l = Some pos
  | None => List.find f l = None /\ Forall (fun x => f x = false) l
  end.
Proof.
  induction l as [|pos l IH]; cbn [replace_first List.find]; [by split; [|constructor]|].
  destruct (f pos) eqn:Hf; [by exists [], pos, l|].
  destruct (replace_first f e l) as [l'|].
  - destruct IH as (l1 & p & l2 & -> & -> & Hp & Hfind). exists (pos :: l1), p, l2. done.
  - destruct IH as [Hn HF]. by split; [|constructor].
Qed.

(** Putting a node into its chain, in place of another of the same key or in
    front. *)
Lemma chain_wf_replace i l1 pos l2 e :
  chain_wf i (l1 ++ pos :: l2) -> entry_key e = entry_key pos -> chain_wf i (l1 ++ e :: l2).
Proof.
  intros [HF HN] He. split.
  - apply Forall_app in HF as [H1 H2]. apply Forall_cons in H2 as [H2 H3]. apply Forall_app. split; [done|].
    constructor; [|done]. unfold entry_key in He. injection He as E1 E2 E3. unfold entry_hash in *. by rewrite E1, E2, E3.
  - rewrite fmap_app, fmap_cons in HN |- *. by rewrite He.
Qed.

Lemma chain_wf_cons ssid tsid tclass avd l :
  chain_wf (Z.to_nat (avc_hash ssid tsid tclass)) l -> Forall (fun x => entry_is ssid tsid tclass x = false) l ->
  chain_wf (Z.to_nat (avc_hash ssid tsid tclass)) (mk_avc_entry ssid tsid tclass avd :: l).
Proof.
  intros [HF HN] Hno. split; [by constructor|]. cbn. constructor; [|done].
  rewrite list_elem_of_fmap. intros (x & Hx & Hin). rewrite Forall_forall in Hno. specialize (Hno x Hin).
  symmetry in Hx. change (entry_key x = (ssid, tsid, tclass)) in Hx. apply entry_is_key in Hx. congruence.
Qed.

(** The first node of a key is the only one. *)
Lemma lookup_entry x a e :
  avc_wf_with x a -> e ∈ slot_at a (entry_hash e) -> avc_lookup a (ae_ssid e) (ae_tsid e) (ae_tclass e) = Some e.
Proof.
  intros Hwf He. unfold avc_lookup, avc_search_node. fold (entry_hash e).
  pose proof (slot_lookup_at x a (entry_hash e) Hwf (avc_hash_range _ _ _)) as Hs.
  destruct (vwf_chain _ _ Hwf _ _ Hs) as [_ HN]. revert He HN. generalize (slot_at a (entry_hash e)) as l.
  induction l as [|y l IH]; intros He HN; [by apply elem_of_nil in He|].
  cbn [List.find fmap list_fmap] in *. apply NoDup_cons in HN as [Hy HN].
  destruct (entry_is _ _ _ y) eqn:Hk.
  - apply entry_is_key in Hk. apply elem_of_cons in He as [->|He]; [done|]. exfalso. apply Hy.
    rewrite Hk. change (ae_ssid e, ae_tsid e, ae_tclass e) with (entry_key e). by apply list_elem_of_fmap_2.
  - apply elem_of_cons in He as [->|He]; [|by apply IH].
    exfalso. assert (entry_is (ae_ssid y) (ae_tsid y) (ae_tclass y) y = true) by by apply entry_is_key. congruence.
Qed.

Lemma find_elem {A} (f : A -> bool) l x : List.find f l = Some x -> x ∈ l /\ f x = true.
Proof. intros H. apply find_some in H as [H1 H2]. by rewrite <- list_elem_of_In in H1. Qed.

Lemma lookup_key a ssid tsid tclass e :
  avc_lookup a ssid tsid tclass = Some e -> entry_key e = (ssid, tsid, tclass) /\ e ∈ slot_at a (avc_hash ssid tsid tclass).
Proof. intros H. apply find_elem in H as [H1 H2]. by apply entry_is_key in H2. Qed.

(** Linking one counted node into its slot; [d] nodes go. *)
Lemma link_wf a h l d :
  avc_wf_with 1 a -> 0 <= h < AVC_CACHE_SLOTS -> chain_wf (Z.to_nat h) l ->
  Z.of_nat (length l) = Z.of_nat (length (slot_at a h)) + 1 - d ->
  avc_wf (set_active_nodes (set_slot a h l) (s32 (active_nodes a + (- d)))).
Proof.
  intros Hwf Hh Hl Hd. apply (set_slot_avc_wf 1 0); [done|done|done|].
  rewrite (vwf_active _ _ Hwf), s32_add_l. f_equal. lia.
Qed.

Lemma set_active_same a : set_active_nodes a (active_nodes a) = a.
Proof. by destruct a. Qed.

Lemma s32_idemp z : s32 (s32 z + 0) = s32 z.
Proof. rewrite s32_add_l. f_equal. lia. Qed.

Lemma slot_at_set a h l v : avc_wf_with v a -> 0 <= h < AVC_CACHE_SLOTS -> slot_at (set_slot a h l) h = l.
Proof.
  intros Hwf Hh. unfold slot_at. cbn. rewrite nth_lookup.
  rewrite list_lookup_insert_eq; [done|]. eapply lookup_lt_Some. by eapply slot_lookup_at.
Qed.

(** [avc_insert]: an old decision, or one for which there is no memory, leaves
    the cache alone; otherwise the decision is found from now on, and the
    other entries are some of those that were there. *)
Lemma avc_insert_spec a ssid tsid tclass avd m :
  avc_wf a ->
  let node := mk_avc_entry ssid tsid tclass avd in
  let '(r, a', _) := avc_insert a ssid tsid tclass avd m in
  avc_wf a' /\ latest_notif a' = latest_notif a /\
  ((r = None /\ a' = a) \/
   (r = Some node /\ latest_notif a <= u32 (seqno avd) /\ avc_lookup a' ssid tsid tclass = Some node /\
    forall P, cached_all P a -> P node -> cached_all P a')).
Proof.
  intros Hwf node. unfold avc_insert, avc_latest_notif_update.
  destruct (Z.ltb_spec (u32 (seqno avd)) (latest_notif a)) as [Hold|Hnew].
  { change (nz (- EAGAIN)) with true. cbv iota. split; [done|]. split; [done|]. by left. }
  change (nz 0) with false. cbv iota. pose proof (avc_alloc_node_spec 0 a m Hwf) as Hal.
  destruct (avc_alloc_node a m) as [[ok a1] m1]. destruct Hal as [Hsh Hal]. destruct ok; cbn [negb].
  2: { subst a1. split; [done|]. split; [done|]. by left. }
  pose proof (avc_hash_range ssid tsid tclass) as Hh. set (h := avc_hash ssid tsid tclass) in *.
  pose proof (vwf_chain _ _ Hal _ _ (slot_lookup_at 1 a1 h Hal Hh)) as Hch.
  pose proof (replace_first_spec (entry_is ssid tsid tclass) node (slot_at a1 h)) as Hrep.
  assert (forall P, cached_all P a -> Forall P (slot_at a1 h)) as HP.
  { intros P HPa. apply slot_at_all. by eapply shrunk_all. }
  fold node. destruct (replace_first _ _ _) as [l|].
  - destruct Hrep as (l1 & pos & l2 & Hl & -> & Hpos & Hfind). apply entry_is_key in Hpos.
    assert (chain_wf (Z.to_nat h) (l1 ++ node :: l2)) as Hc'.
    { rewrite Hl in Hch. eapply chain_wf_replace; [done|]. by rewrite Hpos. }
    assert (avc_wf (set_active_nodes (set_slot a1 h (l1 ++ node :: l2)) (s32 (active_nodes a1 - 1)))) as Hw2.
    { apply (link_wf a1 h _ 1); [done|done|done|]. rewrite Hl, !length_app. cbn. lia. }
    split; [done|]. split; [apply Hsh|]. right. split; [done|]. split; [done|]. split.
    + apply (lookup_entry 0 _ node Hw2). change (entry_hash node) with h.
      change (slot_at (set_active_nodes ?x _) h) with (slot_at x h). rewrite (slot_at_set a1 h _ 1) by done.
      apply elem_of_app. right. constructor.
    + intros P HPa Hn. apply (set_slot_all P a1); [by eapply shrunk_all|].
      specialize (HP P HPa). rewrite Hl in HP. apply Forall_app in HP as [H1 H2]. apply Forall_cons in H2 as [_ H2].
      apply Forall_app. split; [done|]. by constructor.
  - destruct Hrep as [_ Hno].
    assert (chain_wf (Z.to_nat h) (node :: slot_at a1 h)) as Hc' by (by apply chain_wf_cons).
    assert (avc_wf (set_slot a1 h (node :: slot_at a1 h))) as Hw2.
    { pose proof (link_wf a1 h (node :: slot_at a1 h) 0 Hal Hh Hc' ltac:(cbn [length]; lia)) as Hw.
      change (- 0) with 0 in Hw. rewrite (vwf_active _ _ Hal), s32_idemp, <- (vwf_active _ _ Hal) in Hw.
      change (active_nodes a1) with (active_nodes (set_slot a1 h (node :: slot_at a1 h))) in Hw.
      by rewrite set_active_same in Hw. }
    split; [done|]. split; [apply Hsh|]. right. split; [done|]. split; [done|]. split.
    + apply (lookup_entry 0 _ node Hw2). change (entry_hash node) with h. rewrite (slot_at_set a1 h _ 1) by done.
      constructor.
    + intros P HPa Hn. apply set_slot_all; [by eapply shrunk_all|]. constructor; [done|]. by apply HP.
Qed.

(** [avc_update_node] changes at most the entry of the key, and only by
    [update_avd]. *)
Lemma avc_update_node_spec a event perms ssid tsid tclass seq m :
  avc_wf a ->
  let '(rc, a', _) := avc_update_node a event perms ssid tsid tclass seq m in
  avc_wf a' /\ latest_notif a' = latest_notif a /\
  forall P : avc_entry -> Prop,
    (forall e, P e -> entry_key e = (ssid, tsid, tclass) -> seqno (ae_avd e) = seq ->
       P (mk_avc_entry ssid tsid tclass (update_avd event perms (ae_avd e)))) ->
    cached_all P a -> cached_all P a'.
Proof.
  intros Hwf. unfold avc_update_node. pose proof (avc_alloc_node_spec 0 a m Hwf) as Hal.
  destruct (avc_alloc_node a m) as [[ok a1] m1]. destruct Hal as [Hsh Hal]. destruct ok; cbn [negb]; [|by subst a1].
  pose proof (avc_hash_range ssid tsid tclass) as Hh. set (h := avc_hash ssid tsid tclass) in *.
  pose proof (vwf_chain _ _ Hal _ _ (slot_lookup_at 1 a1 h Hal Hh)) as Hch.
  set (f := fun e => entry_is ssid tsid tclass e && (seq =? seqno (ae_avd e))).
  destruct (List.find f (slot_at a1 h)) as [orig|] eqn:Hfind.
  - set (node := mk_avc_entry ssid tsid tclass (update_avd event perms (ae_avd orig))).
    pose proof (replace_first_spec f node (slot_at a1 h)) as Hrep.
    destruct (replace_first f node (slot_at a1 h)) as [l|]; [|destruct Hrep as [Hno _]; congruence].
    destruct Hrep as (l1 & pos & l2 & Hl & -> & Hpos & Hf). rewrite Hfind in Hf. injection Hf as <-.
    unfold f in Hpos. apply andb_prop in Hpos as [Hpos Hseq]. apply entry_is_key in Hpos. apply Z.eqb_eq in Hseq.
    split; [|split; [apply Hsh|]].
    + apply (link_wf a1 h _ 1); [done|done| |rewrite Hl, !length_app; cbn; lia].
      rewrite Hl in Hch. eapply chain_wf_replace; [done|]. by rewrite Hpos.
    + intros P HP HPa. assert (cached_all P a1) as HPa1 by by eapply shrunk_all.
      apply (set_slot_all P a1); [done|]. pose proof (slot_at_all P a1 h HPa1) as Hs. rewrite Hl in Hs.
      apply Forall_app in Hs as [H1 H2]. apply Forall_cons in H2 as [Ho H2].
      apply Forall_app. split; [done|]. constructor; [by apply HP|done].
  - split; [|split; [apply Hsh|intros P _ HPa; by eapply (shrunk_all P a a1)]].
    destruct Hal as [H1 H2 H3]. split; try done. cbn [set_active_nodes active_nodes].
    rewrite H3, <- Z.add_opp_r, s32_add_l. unfold node_count. cbn [set_active_nodes slots]. f_equal. lia.
Qed.

Lemma avc_flush_spec a : avc_wf a -> avc_wf (avc_flush a) /\ forall P, cached_all P (avc_flush a).
Proof.
  intros Hwf. assert (concat (fmap (M := list) (fun _ : list avc_entry => @nil avc_entry) (slots a)) = []) as E.
  { induction (slots a) as [|c l IH]; [done|]. cbn. exact IH. }
  split.
  - split; cbn [avc_flush slots active_nodes].
    + rewrite length_fmap. apply (vwf_len _ _ Hwf).
    + intros i c. rewrite list_lookup_fmap. destruct (slots a !! i); [|done]. intros [= <-]. split; constructor.
    + rewrite (vwf_active _ _ Hwf). unfold node_count. cbn [avc_flush slots]. rewrite E.
      rewrite <- Z.add_opp_r, s32_add_l. f_equal. change (Z.of_nat (length (@nil avc_entry))) with 0. lia.
  - intros P. unfold cached_all. cbn. apply Forall_fmap. apply Forall_true. intros c. constructor.
Qed.

Lemma cached_none a ssid tsid tclass : (forall P, cached_all P a) -> avc_lookup a ssid tsid tclass = None.
Proof.
  intros H. destruct (avc_lookup a ssid tsid tclass) as [e|] eqn:E; [|done]. exfalso.
  apply lookup_key in E as [_ E]. pose proof (slot_at_all (fun _ => False) a (avc_hash ssid tsid tclass) (H _)) as HF.
  rewrite Forall_forall in HF. by apply (HF e).
Qed.

(** ** The cache is transparent

    An entry holds the decision of the security server, except that
    permissions may have been added to [allowed] while the kernel or the
    subject's domain is permissive. *)

Definition permissive_for (s : ss) (avd : av_decision) : bool :=
  negb (selinux_enforcing s) || nz (Conditional.flags avd .& AVD_FLAGS_PERMISSIVE).

Definition grants (avd avd' : av_decision) : Prop :=
  exists more, avd' = set_allowed avd (allowed avd .| more).

Definition entry_ok (s : ss) (e : avc_entry) : Prop :=
  exists avd, security_compute_av s (ae_ssid e) (ae_tsid e) (ae_tclass e) = Some avd /\
    (ae_avd e = avd \/ (permissive_for s avd = true /\ grants avd (ae_avd e))).

Lemma grants_permissive s avd avd' : grants avd avd' -> permissive_for s avd' = permissive_for s avd.
Proof. by intros (more & ->). Qed.

Lemma grants_more avd avd' more : grants avd avd' -> grants avd (set_allowed avd' (allowed avd' .| more)).
Proof. intros (x & ->). exists (x .| more). cbn. by rewrite Z.lor_assoc. Qed.

Lemma grants_refl avd more : grants avd (set_allowed avd (allowed avd .| more)).
Proof. by exists more. Qed.

Lemma entry_grant s e perms ssid tsid tclass :
  entry_ok s e -> entry_key e = (ssid, tsid, tclass) -> permissive_for s (ae_avd e) = true ->
  entry_ok s (mk_avc_entry ssid tsid tclass (update_avd AVC_CALLBACK_GRANT perms (ae_avd e))).
Proof.
  intros (avd & Hc & Hcase) Hk Hp. unfold entry_key in Hk. injection Hk as <- <- <-.
  exists avd. split; [done|]. right. cbn [ae_avd]. unfold update_avd. change (AVC_CALLBACK_GRANT =? AVC_CALLBACK_GRANT) with true.
  cbv iota. destruct Hcase as [<-|[Hp' Hg]]; [split; [done|apply grants_refl]|]. split; [done|by apply grants_more].
Qed.

(** What a check without [AVC_STRICT] answers for a decision. *)
Definition decision_rc (s : ss) (avd : av_decision) (requested : Z) : Z :=
  if nz (requested .& not32 (allowed avd)) && negb (permissive_for s avd) then - EACCES else 0.

Lemma decision_rc_grants s avd avd' requested :
  avd' = avd \/ (permissive_for s avd = true /\ grants avd avd') -> decision_rc s avd' requested = decision_rc s avd requested.
Proof.
  intros [->|[Hp Hg]]; [done|]. unfold decision_rc. rewrite (grants_permissive s avd avd' Hg), Hp.
  cbn. by rewrite !andb_false_r.
Qed.

(** The decision a check works with: from the cache, or computed and then put
    into the cache. *)
Definition avc_decision (s : ss) (a : avc) (ssid tsid tclass : Z) (m : kmem) : option (av_decision * avc * kmem) :=
  match avc_lookup a ssid tsid tclass with
  | None =>
      avd ← security_compute_av s ssid tsid tclass;
      let '(_, a, m) := avc_insert a ssid tsid tclass avd m in
      Some (avd, a, m)
  | Some node => Some (ae_avd node, a, m)
  end.

Lemma avc_decision_spec s a ssid tsid tclass avd m :
  avc_wf a -> cached_all (entry_ok s) a -> security_compute_av s ssid tsid tclass = Some avd ->
  exists avd1 a1 m1, avc_decision s a ssid tsid tclass m = Some (avd1, a1, m1) /\ avc_wf a1 /\ cached_all (entry_ok s) a1 /\
    latest_notif a1 = latest_notif a /\ (avd1 = avd \/ (permissive_for s avd = true /\ grants avd avd1)).
Proof.
  intros Hwf Hok Hav. unfold avc_decision. destruct (avc_lookup a ssid tsid tclass) as [e|] eqn:Hl.
  - apply lookup_key in Hl as [Hk Hin]. exists (ae_avd e), a, m. do 4 (split; [done|]).
    pose proof (slot_at_all _ a (avc_hash ssid tsid tclass) Hok) as HF. rewrite Forall_forall in HF.
    destruct (HF e Hin) as (avd0 & Hc & Hcase). unfold entry_key in Hk. injection Hk as E1 E2 E3.
    rewrite E1, E2, E3, Hav in Hc. injection Hc as <-. exact Hcase.
  - rewrite (bind_step _ _ _ Hav). pose proof (avc_insert_spec a ssid tsid tclass avd m Hwf) as Hi.
    cbv zeta in Hi. destruct (avc_insert a ssid tsid tclass avd m) as [[r a1] m1]. destruct Hi as (Hw & Hn & Hi).
    exists avd, a1, m1. split; [done|]. split; [done|]. split; [|by split; [|left]].
    destruct Hi as [[_ ->]|(_ & _ & _ & HP)]; [done|]. apply HP; [done|]. exists avd. by split; [|left].
Qed.

(** A check with [AVC_STRICT] that succeeds was allowed, or had been granted in
    permissive mode. *)
Lemma strict_check s a ssid tsid tclass requested m rc avd' a' m' :
  avc_wf a -> cached_all (entry_ok s) a -> avc_has_perm_noaudit s a ssid tsid tclass requested AVC_STRICT m = Some (rc, avd', a', m') ->
  avc_wf a' /\ cached_all (entry_ok s) a' /\
  (rc = 0 -> exists avd, security_compute_av s ssid tsid tclass = Some avd /\
     (nz (requested .& not32 (allowed avd)) = false \/ permissive_for s avd = true)).
Proof.
  intros Hwf Hok. unfold avc_has_perm_noaudit. destruct (negb (nz requested)); [done|]. fold (avc_decision s a ssid tsid tclass m).
  intros ([[avd1 a1] m1] & Hd & H)%bind_Some.
  assert (exists avd, security_compute_av s ssid tsid tclass = Some avd) as [avd Hav].
  { unfold avc_decision in Hd. destruct (avc_lookup a ssid tsid tclass) as [e|] eqn:Hl; [|apply bind_Some in Hd as (avd & Hav & _); by exists avd].
    apply lookup_key in Hl as [Hk Hin]. pose proof (slot_at_all _ a (avc_hash ssid tsid tclass) Hok) as HF. rewrite Forall_forall in HF.
    destruct (HF e Hin) as (avd0 & Hc & _). unfold entry_key in Hk. injection Hk as E1 E2 E3. rewrite E1, E2, E3 in Hc. by exists avd0. }
  destruct (avc_decision_spec s a ssid tsid tclass avd m Hwf Hok Hav) as (avd2 & a2 & m2 & Hd' & Hw2 & Hok2 & _ & Hg).
  rewrite Hd in Hd'. injection Hd' as <- <- <-. change (nz (AVC_STRICT .& AVC_STRICT)) with true in H. cbv iota in H.
  destruct (nz (requested .& not32 (allowed avd1))) eqn:En; injection H as <- _ <- _; (split; [done|]); (split; [done|]); intros Hrc; [done|].
  exists avd. split; [done|]. destruct Hg as [->|[Hp _]]; [by left|by right].
Qed.

(** ** Properties *)

(** C5: the cache is transparent.  From a well-formed cache that agrees with
    the security server, a check answers what the security server's decision
    says ([-EACCES] exactly when a requested permission is not allowed and
    neither the kernel nor the domain is permissive), whether the entry was
    cached or not and whatever the allocator does, and the cache stays
    well-formed and in agreement. *)
Theorem avc_transparent s a ssid tsid tclass requested avd m :
  avc_wf a -> cached_all (entry_ok s) a -> nz requested = true ->
  security_compute_av s ssid tsid tclass = Some avd ->
  exists avd' a' m',
    avc_has_perm_noaudit s a ssid tsid tclass requested 0 m = Some (decision_rc s avd requested, avd', a', m') /\
    avc_wf a' /\ cached_all (entry_ok s) a' /\ latest_notif a' = latest_notif a.
Proof.
  intros Hwf Hok Hreq Hav. unfold avc_has_perm_noaudit. rewrite Hreq. cbn [negb].
  fold (avc_decision s a ssid tsid tclass m).
  destruct (avc_decision_spec s a ssid tsid tclass avd m Hwf Hok Hav) as (avd1 & a1 & m1 & H1 & Hwf1 & Hok1 & Hn1 & Hg).
  rewrite (bind_step _ _ _ H1). rewrite <- (decision_rc_grants s avd avd1 requested Hg).
  unfold decision_rc. destruct (nz (requested .& not32 (allowed avd1))); cbn [andb]; [|by eexists _, _, _].
  change (nz (0 .& AVC_STRICT)) with false. cbv iota. fold (permissive_for s avd1).
  destruct (permissive_for s avd1) eqn:Hperm; cbn [negb]; [|by eexists _, _, _].
  pose proof (avc_update_node_spec a1 AVC_CALLBACK_GRANT requested ssid tsid tclass (seqno avd1) m1 Hwf1) as Hu.
  destruct (avc_update_node _ _ _ _ _ _ _ _) as [[rc a2] m2]. destruct Hu as (Hw2 & Hn2 & HP).
  exists avd1, a2, m2. split; [done|]. split; [done|]. split; [|by rewrite Hn2].
  apply HP; [|done]. intros e He Hk _. apply entry_grant; [done|done|].
  destruct He as (avd0 & Hc & Hcase). unfold entry_key in Hk. injection Hk as E1 E2 E3.
  rewrite E1, E2, E3, Hav in Hc. injection Hc as <-.
  assert (permissive_for s avd = true) as Hpa.
  { destruct Hg as [->|[? _]]; done. }
  destruct Hcase as [->|[_ Hg']]; [done|]. by rewrite (grants_permissive s avd _ Hg').
Qed.

Definition ss_start : ss :=
  mk_ss policydb_zero (mk_sidtab [] 0 0 false []) false 7 [] 0 true false false.
Definition cache_empty : avc := avc_init (mk_avc [] 0 0 0 [] AVC_DEF_CACHE_THRESHOLD).

Lemma cache_empty_wf : avc_wf cache_empty /\ forall P, cached_all P cache_empty.
Proof.
  assert (forall n (i : nat) (c : list avc_entry), replicate n [] !! i = Some c -> c = []) as Hr.
  { intros n i c Hc. by apply lookup_replicate in Hc as [-> _]. }
  split; [split|].
  - reflexivity.
  - intros i c Hc. apply Hr in Hc as ->. split; constructor.
  - reflexivity.
  - intros P. apply Forall_lookup. intros i c Hc. apply Hr in Hc as ->. constructor.
Qed.

Lemma avc_transparent_witness :
  exists avd' a' m', avc_has_perm_noaudit ss_start cache_empty 1 2 7 2 0 [false] = Some (0, avd', a', m') /\ avc_wf a'.
Proof.
  destruct (avc_transparent ss_start cache_empty 1 2 7 2 (mk_av_decision ALL_PERMS 0 ALL_PERMS 7 0) [false])
    as (avd' & a' & m' & H & Hw & _).
  - apply cache_empty_wf.
  - apply cache_empty_wf.
  - reflexivity.
  - reflexivity.
  - exists avd', a', m'. split; [exact H|exact Hw].
Defined.

(** [avc_insert] keeps the cache well-formed (every node in the slot of
    its hash, one node per key, [active_nodes] their number).  It refuses a
    decision that is older than the latest notification and then, like when
    there is no memory, changes nothing; otherwise a lookup finds the decision
    and every other entry was there before. *)
Theorem avc_insert_lookup a ssid tsid tclass avd m :
  avc_wf a ->
  let '(r, a', _) := avc_insert a ssid tsid tclass avd m in
  avc_wf a' /\
  match r with
  | None => a' = a
  | Some node =>
      node = mk_avc_entry ssid tsid tclass avd /\ latest_notif a <= u32 (seqno avd) /\
      avc_lookup a' ssid tsid tclass = Some node /\
      forall ssid' tsid' tclass' e, avc_lookup a' ssid' tsid' tclass' = Some e ->
        (ssid', tsid', tclass') <> (ssid, tsid, tclass) -> avc_lookup a ssid' tsid' tclass' = Some e
  end.
Proof.
  intros Hwf. pose proof (avc_insert_spec a ssid tsid tclass avd m Hwf) as Hi. cbv zeta in Hi.
  destruct (avc_insert a ssid tsid tclass avd m) as [[r a'] m']. destruct Hi as (Hw & _ & Hi). split; [done|].
  destruct Hi as [[-> ->]|(-> & Hseq & Hl & HP)]; [done|]. split; [done|]. split; [done|]. split; [done|].
  intros ssid' tsid' tclass' e He Hne. apply lookup_key in He as [Hk Hin].
  specialize (HP (fun e => entry_key e = (ssid, tsid, tclass) \/
                           avc_lookup a (ae_ssid e) (ae_tsid e) (ae_tclass e) = Some e)).
  assert (cached_all (fun e => entry_key e = (ssid, tsid, tclass) \/
                               avc_lookup a (ae_ssid e) (ae_tsid e) (ae_tclass e) = Some e) a') as Hall.
  { apply HP; [|by left]. apply Forall_lookup. intros i c Hc. destruct (vwf_chain _ _ Hwf i c Hc) as [HF _].
    rewrite Forall_forall in HF |- *. intros x Hx. right. apply (lookup_entry 0 a x Hwf).
    unfold slot_at. rewrite nth_lookup, (HF x Hx), Hc. done. }
  pose proof (slot_at_all _ a' (avc_hash ssid' tsid' tclass') Hall) as HF. rewrite Forall_forall in HF.
  destruct (HF e Hin) as [E|E]; [congruence|]. unfold entry_key in Hk. by injection Hk as <- <- <-.
Qed.

Lemma avc_insert_lookup_witness :
  avc_lookup (avc_insert cache_empty 1 2 7 (mk_av_decision 3 0 0 5 0) []).1.2 1 2 7
    = Some (mk_avc_entry 1 2 7 (mk_av_decision 3 0 0 5 0)).
Proof.
  pose proof (avc_insert_lookup cache_empty 1 2 7 (mk_av_decision 3 0 0 5 0) [] (proj1 cache_empty_wf)) as H.
  destruct (avc_insert cache_empty 1 2 7 (mk_av_decision 3 0 0 5 0) []) as [[[node|] a'] m'] eqn:E.
  - destruct H as (_ & -> & _ & H & _). exact H.
  - vm_compute in E. discriminate E.
Defined.

(** After [avc_ss_reset] the cache is empty and well-formed, the latest
    notification is at least the number of the new policy, and no decision
    older than it can enter the cache again. *)
Theorem avc_reset_empties a seqno_ :
  avc_wf a ->
  let '(_, a') := avc_ss_reset a seqno_ in
  avc_wf a' /\ (forall ssid tsid tclass, avc_lookup a' ssid tsid tclass = None) /\
  latest_notif a' = latest_notif a `max` u32 seqno_ /\
  forall ssid tsid tclass avd m, u32 (seqno avd) < u32 seqno_ ->
    (avc_insert a' ssid tsid tclass avd m).1 = (None, a').
Proof.
  intros Hwf. unfold avc_ss_reset, avc_latest_notif_update. destruct (avc_flush_spec a Hwf) as [Hf Hall].
  change (latest_notif (avc_flush a)) with (latest_notif a).
  assert (forall a', slots a' = slots (avc_flush a) -> forall ssid tsid tclass, avc_lookup a' ssid tsid tclass = None) as Hnone.
  { intros a' E ssid tsid tclass. apply cached_none. intros P. unfold cached_all. rewrite E. apply Hall. }
  assert (forall a' ssid tsid tclass avd m, u32 seqno_ <= latest_notif a' -> u32 (seqno avd) < u32 seqno_ ->
            (avc_insert a' ssid tsid tclass avd m).1 = (None, a')) as Hold.
  { intros a' ssid tsid tclass avd m Hle Hlt. unfold avc_insert, avc_latest_notif_update.
    destruct (Z.ltb_spec (u32 (seqno avd)) (latest_notif a')); [done|lia]. }
  destruct (Z.ltb_spec (latest_notif a) (u32 seqno_)) as [Hlt|Hge].
  - split; [by destruct Hf; split|]. split; [by apply Hnone|]. split; [cbn; lia|].
    intros. apply Hold; [cbn; lia|done].
  - split; [done|]. split; [by apply Hnone|]. split; [cbn; lia|]. intros. apply Hold; [cbn; lia|done].
Qed.

Lemma avc_reset_empties_witness : latest_notif (avc_ss_reset cache_empty 3).2 = 3.
Proof.
  pose proof (avc_reset_empties cache_empty 3 (proj1 cache_empty_wf)) as H.
  destruct (avc_ss_reset cache_empty 3) as [rc a']. destruct H as (_ & _ & H & _). exact H.
Defined.

(** ** Findings *)

(** [AVC_STRICT] is to ignore permissive mode, but an entry that permissive
    mode has extended answers a strict check with success. *)
Example strict_sees_permissive :
  let s := mk_ss policydb_zero (mk_sidtab (replicate 128 []) 0 1 false []) true 0 [] 0 false false false in
  exists avd a m, avc_has_perm_noaudit s cache_empty 1 2 7 2 0 [] = Some (0, avd, a, m) /\
    (exists avd1 a1 m1, avc_has_perm_noaudit s cache_empty 1 2 7 2 AVC_STRICT [] = Some (- EACCES, avd1, a1, m1)) /\
    (exists avd2 a2 m2, avc_has_perm_noaudit s a 1 2 7 2 AVC_STRICT [] = Some (0, avd2, a2, m2)).
Proof. eexists _, _, _. split; [vm_compute; reflexivity|]. split; eexists _, _, _; vm_compute; reflexivity. Qed.

(** A policy load and a check that misses the cache, step by step.  [rs_seq]
    is the number of the policy in force ([latest_granting]), [rs_pending] a
    decision computed but not inserted yet. *)
Inductive phase := Quiet | Loaded | Flushed.

Record race_state := mk_race_state {
  rs_seq : Z;
  rs_avc : avc;
  rs_pending : option av_decision;
  rs_phase : phase
}.

(** [avc_ss_reset] is its flush followed by its notification. *)
Inductive race_step (decide_ : Z -> av_decision) : race_state -> race_state -> Prop :=
| race_compute q a ph :
    race_step decide_ (mk_race_state q a None ph) (mk_race_state q a (Some (decide_ q)) ph)
| race_insert q a avd ph :
    race_step decide_ (mk_race_state q a (Some avd) ph) (mk_race_state q (avc_insert a 1 2 7 avd []).1.2 None ph)
| race_load q a pd :
    race_step decide_ (mk_race_state q a pd Quiet) (mk_race_state (u32 (q + 1)) a pd Loaded)
| race_flush q a pd :
    race_step decide_ (mk_race_state q a pd Loaded) (mk_race_state q (avc_flush a) pd Flushed)
| race_notify q a pd :
    race_step decide_ (mk_race_state q a pd Flushed) (mk_race_state q (avc_latest_notif_update a q false).2 pd Quiet).

(** The cache is flushed before the number is raised: a decision of the old
    policy that is inserted in between stays in the cache of the new one. *)
Example stale_decision_survives :
  let decide_ q := mk_av_decision q 0 0 q 0 in
  exists st, rtc (race_step decide_) (mk_race_state 1 (avc_latest_notif_update cache_empty 1 false).2 None Quiet) st /\
    rs_phase st = Quiet /\ rs_seq st = 2 /\
    avc_lookup (rs_avc st) 1 2 7 = Some (mk_avc_entry 1 2 7 (mk_av_decision 1 0 0 1 0)).
Proof.
  intros decide_. eexists. split.
  - eapply rtc_l; [apply race_compute|]. eapply rtc_l; [apply race_load|]. eapply rtc_l; [apply race_flush|].
    eapply rtc_l; [apply race_insert|]. eapply rtc_l; [apply race_notify|]. apply rtc_refl.
  - split; [reflexivity|]. split; [reflexivity|]. vm_compute. reflexivity.
Qed.
