(* ===== verification/NetCache.v ===== *)
(** * Caches of network labels (security/selinux/netport.c, netnode.c, netif.c)

    Hash tables in front of [security_port_sid], [security_node_sid] and
    [security_netif_sid], emptied when the policy changes.  What the three
    files share is written once: the tables of netport.c and netnode.c with
    their bounded buckets, and the interface [policy_labels], which states what
    a table needs from the security server.  RCU and the locks are left out:
    a lookup that misses computes and inserts its entry under the lock that
    [flush] takes, so both are single steps. *)

From Stdlib Require Import String.
From S2P Require Import Prelude Hashtab Ebitmap Context Sidtab Avtab Policydb Mls PolicydbOps Sample Services ServicesSid ServicesObj PolicyLoad ServicesLoad Avc.

(** ** Tables with bounded buckets (netport.c, netnode.c) *)

Record bkt (E : Type) := mk_bkt { bk_size : Z; bk_list : list E }.
Arguments mk_bkt {E} bk_size bk_list.
Arguments bk_size {E} b : rename.
Arguments bk_list {E} b : rename.

(** [list_add_rcu], and [list_del_rcu] of the last entry of a full bucket. *)
Definition bkt_add {E} (limit : Z) (e : E) (b : bkt E) : bkt E :=
  let l := e :: bk_list b in
  if bk_size b =? limit then mk_bkt (bk_size b) (take (length l - 1) l) else mk_bkt (bk_size b + 1) l.

Section label_table.
Context {K E : Type} (hash : K -> option nat) (matches : K -> E -> bool) (sid_of : E -> Z) (entry : K -> Z -> E) (limit : Z)
  (call : ss -> K -> kmem -> option (Z * option Z * ss * kmem)).

(** [None]: a [BUG()] of the hash function. *)
Definition find_entry (t : list (bkt E)) (k : K) : option (option E) :=
  idx ← hash k; b ← t !! idx; Some (List.find (matches k) (bk_list b)).

Definition insert_entry (t : list (bkt E)) (k : K) (e : E) : option (list (bkt E)) :=
  idx ← hash k; b ← t !! idx; Some (<[idx := bkt_add limit e b]> t).

(** Result: the return value, [*sid], the security server, the table. *)
Definition table_sid_slow (s : ss) (t : list (bkt E)) (k : K) (m : kmem) : option (Z * option Z * ss * list (bkt E) * kmem) :=
  found ← find_entry t k;
  match found with
  | Some e => Some (0, Some (sid_of e), s, t, m)
  | None =>
      let '(ok, m) := kalloc m in
      if negb ok then Some (- ENOMEM, None, s, t, m)
      else
        '(rc, osid, s, m) ← call s k m;
        match osid with
        | Some sid => if nz rc then Some (rc, osid, s, t, m) else t ← insert_entry t k (entry k sid); Some (0, Some sid, s, t, m)
        | None => Some (rc, None, s, t, m)
        end
  end.

Definition table_sid (s : ss) (t : list (bkt E)) (k : K) (m : kmem) : option (Z * option Z * ss * list (bkt E) * kmem) :=
  found ← find_entry t k;
  match found with
  | Some e => Some (0, Some (sid_of e), s, t, m)
  | None => table_sid_slow s t k m
  end.

Definition table_flush (t : list (bkt E)) : list (bkt E) := (fun _ => mk_bkt 0 []) <$> t.
End label_table.



(** ** Ports (netport.c) *)

Definition SEL_NETPORT_HASH_SIZE : nat := 256.
Definition SEL_NETPORT_HASH_BKT_LIMIT : Z := 16.

Record sel_netport := mk_sel_netport { np_protocol : Z; np_port : Z; np_sid : Z }.
Definition netport_table := list (bkt sel_netport).

Definition sel_netport_hashfn (pnum : Z) : Z := pnum .& (Z.of_nat SEL_NETPORT_HASH_SIZE - 1).

Definition port_hash (k : Z * Z) : option nat := Some (Z.to_nat (sel_netport_hashfn k.2)).
Definition port_is (k : Z * Z) (port : sel_netport) : bool := (np_port port =? k.2) && (np_protocol port =? k.1).
Definition new_port (k : Z * Z) (sid : Z) : sel_netport := mk_sel_netport k.1 k.2 sid.
Definition port_call (s : ss) (k : Z * Z) (m : kmem) := security_port_sid s k.1 k.2 m.

Definition sel_netport_find (t : netport_table) (protocol pnum : Z) : option (option sel_netport) :=
  find_entry port_hash port_is t (protocol, pnum).
Definition sel_netport_insert (t : netport_table) (port : sel_netport) : option netport_table :=
  insert_entry port_hash SEL_NETPORT_HASH_BKT_LIMIT t (np_protocol port, np_port port) port.
Definition sel_netport_sid_slow (s : ss) (t : netport_table) (protocol pnum : Z) (m : kmem) :=
  table_sid_slow port_hash port_is np_sid new_port SEL_NETPORT_HASH_BKT_LIMIT port_call s t (protocol, pnum) m.
Definition sel_netport_sid (s : ss) (t : netport_table) (protocol pnum : Z) (m : kmem) :=
  table_sid port_hash port_is np_sid new_port SEL_NETPORT_HASH_BKT_LIMIT port_call s t (protocol, pnum) m.
Definition sel_netport_flush (t : netport_table) : netport_table := table_flush t.
Definition sel_netport_avc_callback (t : netport_table) (event : Z) : Z * netport_table :=
  (0, if event =? AVC_CALLBACK_RESET then sel_netport_flush t else t).
Definition sel_netport_init : netport_table := replicate SEL_NETPORT_HASH_SIZE (mk_bkt 0 []).

(** ** Addresses (netnode.c) *)

Definition SEL_NETNODE_HASH_SIZE : nat := 256.
Definition SEL_NETNODE_HASH_BKT_LIMIT : Z := 16.
Definition PF_INET : Z := AF_INET.
Definition PF_INET6 : Z := AF_INET6.

(** [addr]: the words of the address, one or four. *)
Record sel_netnode := mk_sel_netnode { nn_addr : list Z; nn_family : Z; nn_sid : Z }.
Definition netnode_table := list (bkt sel_netnode).

Definition sel_netnode_hashfn_ipv4 (addr : list Z) : Z := nth 0 addr 0 .& (Z.of_nat SEL_NETNODE_HASH_SIZE - 1).
Definition sel_netnode_hashfn_ipv6 (addr : list Z) : Z := nth 3 addr 0 .& (Z.of_nat SEL_NETNODE_HASH_SIZE - 1).

Definition node_hash (k : list Z * Z) : option nat :=
  if k.2 =? PF_INET then Some (Z.to_nat (sel_netnode_hashfn_ipv4 k.1))
  else if k.2 =? PF_INET6 then Some (Z.to_nat (sel_netnode_hashfn_ipv6 k.1))
  else None.

Definition ipv6_addr_equal (a b : list Z) : bool :=
  forallb (fun i => nth i a 0 =? nth i b 0) [0%nat; 1%nat; 2%nat; 3%nat].

Definition node_is (k : list Z * Z) (node : sel_netnode) : bool :=
  (nn_family node =? k.2) &&
  (if k.2 =? PF_INET then nth 0 (nn_addr node) 0 =? nth 0 k.1 0
   else if k.2 =? PF_INET6 then ipv6_addr_equal (nn_addr node) k.1 else false).
Definition new_node (k : list Z * Z) (sid : Z) : sel_netnode := mk_sel_netnode k.1 k.2 sid.
Definition node_call (s : ss) (k : list Z * Z) (m : kmem) :=
  if k.2 =? PF_INET then security_node_sid s PF_INET k.1 4 m else security_node_sid s PF_INET6 k.1 16 m.

Definition sel_netnode_find (t : netnode_table) (addr : list Z) (family : Z) : option (option sel_netnode) :=
  find_entry node_hash node_is t (addr, family).
Definition sel_netnode_insert (t : netnode_table) (node : sel_netnode) : option netnode_table :=
  insert_entry node_hash SEL_NETNODE_HASH_BKT_LIMIT t (nn_addr node, nn_family node) node.
Definition sel_netnode_sid_slow (s : ss) (t : netnode_table) (addr : list Z) (family : Z) (m : kmem) :=
  table_sid_slow node_hash node_is nn_sid new_node SEL_NETNODE_HASH_BKT_LIMIT node_call s t (addr, family) m.
Definition sel_netnode_sid (s : ss) (t : netnode_table) (addr : list Z) (family : Z) (m : kmem) :=
  table_sid node_hash node_is nn_sid new_node SEL_NETNODE_HASH_BKT_LIMIT node_call s t (addr, family) m.
Definition sel_netnode_flush (t : netnode_table) : netnode_table := table_flush t.
Definition sel_netnode_avc_callback (t : netnode_table) (event : Z) : Z * netnode_table :=
  (0, if event =? AVC_CALLBACK_RESET then sel_netnode_flush t else t).
Definition sel_netnode_init : netnode_table := replicate SEL_NETNODE_HASH_SIZE (mk_bkt 0 []).

(** ** Interfaces (netif.c) *)

Definition SEL_NETIF_HASH_SIZE : nat := 64.
Definition SEL_NETIF_HASH_MAX : Z := 1024.
Definition ENOSPC : Z := 28.

Record sel_netif := mk_sel_netif { ni_ifindex : Z; ni_sid : Z }.
Record netif_table := mk_netif_table { nt_hash : list (list sel_netif); sel_netif_total : Z }.

Definition sel_netif_hashfn (ifindex : Z) : Z := u32 ifindex .& (Z.of_nat SEL_NETIF_HASH_SIZE - 1).
Definition netif_is (ifindex : Z) (netif : sel_netif) : bool := ni_ifindex netif =? ifindex.

Definition sel_netif_find (t : netif_table) (ifindex : Z) : option (option sel_netif) :=
  l ← nt_hash t !! Z.to_nat (sel_netif_hashfn ifindex); Some (List.find (netif_is ifindex) l).

Definition sel_netif_insert (t : netif_table) (netif : sel_netif) : option (Z * netif_table) :=
  if SEL_NETIF_HASH_MAX <=? sel_netif_total t then Some (- ENOSPC, t)
  else
    let idx := Z.to_nat (sel_netif_hashfn (ni_ifindex netif)) in
    l ← nt_hash t !! idx;
    Some (0, mk_netif_table (<[idx := netif :: l]> (nt_hash t)) (u32 (sel_netif_total t + 1))).

(** [dev ifindex]: the name of the device, if there is one. *)
Definition sel_netif_sid_slow (dev : Z -> option string) (s : ss) (t : netif_table) (ifindex : Z) (m : kmem)
    : option (Z * option Z * ss * netif_table * kmem) :=
  match dev ifindex with
  | None => Some (- ENOENT, None, s, t, m)
  | Some name =>
      found ← sel_netif_find t ifindex;
      match found with
      | Some netif => Some (0, Some (ni_sid netif), s, t, m)
      | None =>
          let '(ok, m) := kalloc m in
          if negb ok then Some (- ENOMEM, None, s, t, m)
          else
            '(rc, osid, s, m) ← security_netif_sid s name m;
            match osid with
            | Some sid =>
                if nz rc then Some (rc, None, s, t, m)
                else
                  '(rc, t) ← sel_netif_insert t (mk_sel_netif ifindex sid);
                  if nz rc then Some (rc, None, s, t, m) else Some (0, Some sid, s, t, m)
            | None => Some (rc, None, s, t, m)
            end
      end
  end.

Definition sel_netif_sid (dev : Z -> option string) (s : ss) (t : netif_table) (ifindex : Z) (m : kmem) :=
  found ← sel_netif_find t ifindex;
  match found with
  | Some netif => Some (0, Some (ni_sid netif), s, t, m)
  | None => sel_netif_sid_slow dev s t ifindex m
  end.

(** [sel_netif_destroy] of the entry [sel_netif_find] gives. *)
Fixpoint del_netif (ifindex : Z) (l : list sel_netif) : list sel_netif :=
  match l with [] => [] | e :: l' => if netif_is ifindex e then l' else e :: del_netif ifindex l' end.

Definition sel_netif_kill (t : netif_table) (ifindex : Z) : option netif_table :=
  let idx := Z.to_nat (sel_netif_hashfn ifindex) in
  l ← nt_hash t !! idx;
  match List.find (netif_is ifindex) l with
  | Some _ => Some (mk_netif_table (<[idx := del_netif ifindex l]> (nt_hash t)) (u32 (sel_netif_total t - 1)))
  | None => Some t
  end.

(** Every entry is destroyed, and counted down. *)
Definition sel_netif_flush (t : netif_table) : netif_table :=
  mk_netif_table ((fun _ => []) <$> nt_hash t)
    (foldl (fun n (l : list sel_netif) => foldl (fun n _ => u32 (n - 1)) n l) (sel_netif_total t) (nt_hash t)).

Definition sel_netif_avc_callback (t : netif_table) (event : Z) : Z * netif_table :=
  (0, if event =? AVC_CALLBACK_RESET then sel_netif_flush t else t).

Definition NETDEV_DOWN : Z := 2.

(** [init]: whether the device is in the initial network namespace. *)
Definition sel_netif_netdev_notifier_handler (t : netif_table) (init : bool) (event ifindex : Z) : option netif_table :=
  if negb init then Some t else if event =? NETDEV_DOWN then sel_netif_kill t ifindex else Some t.

Definition sel_netif_init : netif_table := mk_netif_table (replicate SEL_NETIF_HASH_SIZE []) 0.

(** ** What the security server answers *)

(** The records of a policy, up to the SIDs filled in. *)
Definition same_record (c c' : ocontext) : Prop :=
  oc_u c' = oc_u c /\ oc_context0 c' = oc_context0 c /\ oc_context1 c' = oc_context1 c.
Definition relabels (s s' : ss) : Prop :=
  (forall i, Forall2 same_record (ocontexts_at s i) (ocontexts_at s' i)) /\ keeps (ss_sidtab s) (ss_sidtab s').

Definition net_ocons : list nat := [OCON_PORT; OCON_NETIF; OCON_NODE; OCON_NODE6].

Record ready (s : ss) : Prop := mk_ready {
  rd_sids : sidtab_wf (ss_sidtab s);
  rd_oc : forall i, i ∈ net_ocons -> (i < length (ocontexts (ss_policydb s)))%nat /\ Forall (labelled (ss_sidtab s)) (ocontexts_at s i);
  rd_packet : Forall (fun c => c_len (oc_context1 c) = 0) (ocontexts_at s OCON_NETIF);
  rd_init : ss_initialized s = true
}.

(** [sid] is the label the policy gives to what [f] describes. *)
Definition label_right (s : ss) (i : nat) (f : ocontext -> bool) (dflt sid : Z) : Prop :=
  match List.find f (ocontexts_at s i) with
  | None => sid = dflt
  | Some c => exists c', sidtab_abs (ss_sidtab s) !! sid = Some c' /\ context_cmp c' (oc_context0 c) = true
  end.

(** An allocation may fail, or the SIDs run out. *)
Definition wanting (s : ss) (m : kmem) : Prop := m <> [] \/ ~ sids_left (ss_sidtab s) 2.

(** What a table needs of the function it stands in front of. *)
Class policy_labels {K : Type} (call : ss -> K -> kmem -> option (Z * option Z * ss * kmem)) (right : ss -> K -> Z -> Prop) : Prop := {
  pl_call s k m : ready s ->
    exists rc osid s' m', call s k m = Some (rc, osid, s', m') /\ ready s' /\ relabels s s' /\
      ((rc = - ENOMEM /\ osid = None) \/ exists sid, rc = 0 /\ osid = Some sid /\ right s' k sid);
  pl_room s k : ready s -> sids_left (ss_sidtab s) 2 -> exists sid s', call s k [] = Some (0, Some sid, s', []);
  pl_right s s' k sid : relabels s s' -> right s k sid -> right s' k sid
}.

#[export] Instance sids_left_dec t n : Decision (sids_left t n).
Proof. apply _. Defined.

Lemma pl_fails {K} call right {Hl : policy_labels (K := K) call right} s k m osid s' m' :
  ready s -> call s k m = Some (- ENOMEM, osid, s', m') -> wanting s m.
Proof.
  intros Hr E. destruct m as [|b m]; [right|by left]. intros Hs. destruct (pl_room s k Hr Hs) as (sid & s1 & E1). rewrite E in E1. discriminate E1.
Qed.

Lemma kalloc_wanting s m m1 : kalloc m = (true, m1) -> wanting s m1 -> wanting s m.
Proof. destruct m as [|b m]; [by intros [= <-]|by left]. Qed.

Lemma kalloc_fails s m m1 : kalloc m = (false, m1) -> wanting s m.
Proof. destruct m as [|b m]; [done|by left]. Qed.

#[export] Instance same_record_preorder : PreOrder same_record.
Proof.
  split; [done|]. intros x y z (E1 & E2 & E3) (F1 & F2 & F3). unfold same_record. by rewrite F1, F2, F3.
Qed.
#[export] Instance relabels_preorder : PreOrder relabels.
Proof.
  split.
  - intros s. split; [done|apply keeps_refl].
  - intros s1 s2 s3 [H1 K1] [H2 K2]. split; [|by eapply keeps_trans]. intros i. etrans; [apply H1|apply H2].
Qed.

Lemma find_same f l l' :
  (forall c c', same_record c c' -> f c' = f c) -> Forall2 same_record l l' ->
  match List.find f l, List.find f l' with Some c, Some c' => same_record c c' | None, None => True | _, _ => False end.
Proof.
  intros Hf H. induction H as [|c c' l l' Hc _ IH]; cbn; [done|]. rewrite (Hf c c') by done. by destruct (f c).
Qed.

Lemma label_right_relabels s s' i f dflt sid :
  (forall c c', same_record c c' -> f c' = f c) -> relabels s s' -> label_right s i f dflt sid -> label_right s' i f dflt sid.
Proof.
  intros Hf [Ho Hk]. unfold label_right. pose proof (find_same f _ _ Hf (Ho i)) as H.
  destruct (List.find f (ocontexts_at s i)) as [c|], (List.find f (ocontexts_at s' i)) as [c1|]; try done.
  intros (c' & Hs & Hcmp). destruct H as (_ & -> & _). exists c'. split; [by apply Hk|done].
Qed.

(** Storing a record with other SIDs. *)
Lemma ocontexts_put s t i l j : (i < length (ocontexts (ss_policydb s)))%nat ->
  ocontexts_at (put_ocontexts (set_ss_sidtab s t) i l) j = if decide (i = j) then l else ocontexts_at s j.
Proof.
  intros Hi. unfold ocontexts_at, put_ocontexts. cbn. rewrite !nth_lookup.
  destruct (decide (i = j)) as [<-|Hne]; [by rewrite list_lookup_insert_eq|by rewrite list_lookup_insert_ne].
Qed.

Lemma put_ready s t i before c c1 after :
  ready s -> sidtab_wf t -> keeps (ss_sidtab s) t -> i ∈ net_ocons -> ocontexts_at s i = before ++ c :: after ->
  same_record c c1 -> labelled t c1 ->
  let s' := put_ocontexts (set_ss_sidtab s t) i (before ++ c1 :: after) in ready s' /\ relabels s s'.
Proof.
  intros [Hw Ho Hp Hin] Hwt Hk Hi El Hc Hl1. cbn zeta. pose proof (proj1 (Ho i Hi)) as Hlen.
  assert (forall l, Forall2 same_record l l) as Hsame by done.
  split; [split|split].
  - done.
  - intros j Hj. rewrite ocontexts_put by done. split; [cbn; rewrite length_insert; by apply Ho|]. cbn [put_ocontexts set_ss_policydb set_ss_sidtab ss_sidtab].
    destruct (Ho j Hj) as [_ HF]. apply (Forall_impl _ (labelled t)) in HF; [|intros x; by apply labelled_keeps].
    destruct (decide (i = j)) as [<-|]; [|done]. rewrite El in HF. apply Forall_app in HF as [H1 H2]. apply Forall_cons in H2 as [_ H2].
    apply Forall_app. by split; [|constructor].
  - rewrite ocontexts_put by done. destruct (decide (i = OCON_NETIF)) as [->|]; [|done]. rewrite El in Hp.
    apply Forall_app in Hp as [H1 H2]. apply Forall_cons in H2 as [H3 H2]. apply Forall_app. split; [done|]. constructor; [|done].
    by destruct Hc as (_ & _ & ->).
  - exact Hin.
  - intros j. rewrite ocontexts_put by done. destruct (decide (i = j)) as [<-|]; [|apply Hsame]. rewrite El.
    apply Forall2_app; [apply Hsame|]. by constructor.
  - exact Hk.
Qed.

Lemma ocon_sid_ready s i f dflt m :
  ready s -> i ∈ net_ocons -> (forall c c', same_record c c' -> f c' = f c) ->
  exists rc osid s' m', ocon_sid s i f dflt m = Some (rc, osid, s', m') /\ ready s' /\ relabels s s' /\
    ((rc = - ENOMEM /\ osid = None) \/ exists sid, rc = 0 /\ osid = Some sid /\ label_right s' i f dflt sid).
Proof.
  intros Hr Hi Hf. pose proof (ocon_find_spec f (ocontexts_at s i)) as Hfind. unfold ocon_sid, label_right.
  destruct (ocon_find f (ocontexts_at s i)) as [[[before c] after]|].
  2: { exists 0, (Some dflt), s, m. split; [done|]. split; [done|]. split; [done|]. right. exists dflt. by rewrite Hfind. }
  destruct Hfind as (El & _ & _ & Hfind). destruct (rd_oc s Hr i Hi) as [Hlen HF]. rewrite El in HF.
  apply Forall_app in HF as [_ HF]. apply Forall_cons in HF as [Hc _].
  destruct (fill_sid0_spec s c m (rd_sids s Hr) Hc) as (rc & c1 & t & m1 & Hfill & Hwt & Hu & Hc0 & Hc1 & Hl1 & Hrc & Hk).
  rewrite (bind_step _ _ _ Hfill). destruct (put_ready s t i before c c1 after) as [Hr' Hrl]; [done..|].
  destruct Hrc as [-> |[-> Hnz]].
  - do 4 eexists. split; [done|]. split; [done|]. split; [done|]. by left.
  - do 4 eexists. split; [done|]. split; [done|]. split; [done|]. right. exists (oc_sid0 c1). split; [done|]. split; [done|].
    pose proof (find_same f _ _ Hf (proj1 Hrl i)) as Hs. rewrite Hfind in Hs.
    destruct (List.find f (ocontexts_at (put_ocontexts _ _ _) i)) as [c2|]; [|done]. destruct Hs as (_ & -> & _). rewrite <- Hc0.
    destruct Hl1 as [_ [?|(c' & Ha & Hb)]]; [done|]. by exists c'.
Qed.

Lemma ocon_sid_room s i f dflt : ready s -> sids_left (ss_sidtab s) 2 -> exists sid s', ocon_sid s i f dflt [] = Some (0, Some sid, s', []).
Proof.
  intros Hr Hl. unfold ocon_sid. destruct (ocon_find f (ocontexts_at s i)) as [[[before c] after]|]; [|by eexists _, _].
  assert (exists c1 s1, fill_sid0 s c [] = Some (0, c1, s1, [])) as (c1 & s1 & E); [|rewrite (bind_step _ _ _ E); by eexists _, _].
  unfold fill_sid0. destruct (nz (oc_sid0 c)); cbn [negb]; [by eexists _, _|].
  destruct (context_to_sid_room (ss_sidtab s) (oc_context0 c) 1 (rd_sids s Hr) Hl ltac:(lia)) as (sid & t & E & _).
  rewrite (bind_step _ _ _ E). by eexists _, _.
Qed.

(** *** Ports *)

Definition port_right (s : ss) (k : Z * Z) (sid : Z) : Prop := label_right s OCON_PORT (port_match k.1 k.2) SECINITSID_PORT sid.

#[export] Instance port_labels : policy_labels port_call port_right.
Proof.
  assert (forall k c c', same_record c c' -> port_match k.1 k.2 c' = port_match k.1 k.2 c) as Hf by (intros k c c' (Hu & _); unfold port_match; by rewrite Hu).
  split.
  - intros s k m Hr. apply ocon_sid_ready; [done|unfold net_ocons; set_solver|apply (Hf k)].
  - intros s k. apply ocon_sid_room.
  - intros s s' k sid. apply label_right_relabels. apply (Hf k).
Qed.

(** *** Addresses *)

Definition node_match4 (addr : list Z) (c : ocontext) : bool :=
  match oc_u c with ONode a mask => a =? nth 0 addr 0 .& mask | _ => false end.
Definition node_match6 (addr : list Z) (c : ocontext) : bool :=
  match oc_u c with ONode6 a mask => match_ipv6_addrmask addr a mask | _ => false end.

Definition node_right (s : ss) (k : list Z * Z) (sid : Z) : Prop :=
  if k.2 =? PF_INET then label_right s OCON_NODE (node_match4 k.1) SECINITSID_NODE sid
  else label_right s OCON_NODE6 (node_match6 k.1) SECINITSID_NODE sid.

#[export] Instance node_labels : policy_labels node_call node_right.
Proof.
  assert (forall k c c', same_record c c' -> node_match4 k c' = node_match4 k c) as H4 by (intros k c c' (Hu & _); unfold node_match4; by rewrite Hu).
  assert (forall k c c', same_record c c' -> node_match6 k c' = node_match6 k c) as H6 by (intros k c c' (Hu & _); unfold node_match6; by rewrite Hu).
  split.
  - intros s k m Hr. unfold node_call, node_right. destruct (k.2 =? PF_INET).
    + apply (ocon_sid_ready s OCON_NODE (node_match4 k.1)); [done|unfold net_ocons; set_solver|apply H4].
    + apply (ocon_sid_ready s OCON_NODE6 (node_match6 k.1)); [done|unfold net_ocons; set_solver|apply H6].
  - intros s k Hr Hl. unfold node_call. destruct (k.2 =? PF_INET); by apply ocon_sid_room.
  - intros s s' k sid. unfold node_right. destruct (k.2 =? PF_INET); apply label_right_relabels; auto.
Qed.

(** *** Interfaces, by name *)

Definition netif_right (s : ss) (name : string) (sid : Z) : Prop := label_right s OCON_NETIF (name_match name) SECINITSID_NETIF sid.

Lemma name_match_same name c c' : same_record c c' -> name_match name c' = name_match name c.
Proof. intros (Hu & _). unfold name_match. by rewrite Hu. Qed.

(** The first SID of a record, once it has been filled in. *)
Lemma right_filled s s' c c1 name :
  List.find (name_match name) (ocontexts_at s OCON_NETIF) = Some c -> relabels s s' ->
  same_record c c1 -> labelled (ss_sidtab s') c1 -> oc_sid0 c1 <> 0 -> netif_right s' name (oc_sid0 c1).
Proof.
  intros Hfind Hrl (_ & Hc0 & _) [_ Hl] Hnz. unfold netif_right, label_right.
  pose proof (find_same _ _ _ (name_match_same name) (proj1 Hrl OCON_NETIF)) as Hs. rewrite Hfind in Hs.
  destruct (List.find _ (ocontexts_at s' OCON_NETIF)) as [c2|]; [|done]. destruct Hs as (_ & -> & _). rewrite <- Hc0.
  destruct Hl as [?|(c' & Ha & Hb)]; [done|]. by exists c'.
Qed.

Lemma netif_fill s name before c after m :
  ready s -> ocontexts_at s OCON_NETIF = before ++ c :: after -> List.find (name_match name) (ocontexts_at s OCON_NETIF) = Some c ->
  c_len (oc_context0 c) = 0 -> c_len (oc_context1 c) = 0 ->
  exists rc osid s' m',
    (let put s c := put_ocontexts s OCON_NETIF (before ++ c :: after) in
     '(rc, sid, t, m) ← sidtab_context_to_sid (ss_sidtab s) (oc_context0 c) m;
     let c := set_oc_sid0 c sid in
     let s := set_ss_sidtab s t in
     if nz rc then Some (rc, None, put s c, m)
     else
       '(rc, sid, t, m) ← sidtab_context_to_sid (ss_sidtab s) (oc_context1 c) m;
       let c := set_oc_sid1 c sid in
       let s := set_ss_sidtab s t in
       if nz rc then Some (rc, None, put s c, m) else Some (0, Some (oc_sid0 c), put s c, m)) = Some (rc, osid, s', m') /\
    ready s' /\ relabels s s' /\ ((rc = - ENOMEM /\ osid = None) \/ exists sid, rc = 0 /\ osid = Some sid /\ netif_right s' name sid).
Proof.
  intros Hr El Hfind H0 H1. assert (OCON_NETIF ∈ net_ocons) as Hi by (unfold net_ocons; set_solver).
  destruct (record_sid (ss_sidtab s) (oc_context0 c) m (rd_sids s Hr) H0) as (rc & sid & t & m1 & E & Hwt & Hk & Hrc).
  rewrite (bind_step _ _ _ E). clear E. cbv zeta. destruct Hrc as [[Hrc ->]|(-> & Hnz & c' & Ha & Hb)].
  - assert (nz rc = true) as -> by by rewrite Hrc.
    destruct (put_ready s t OCON_NETIF before c (set_oc_sid0 c 0) after) as [Hr' Hrl]; [done..|split; [done|by left]|].
    do 4 eexists. split; [done|]. split; [done|]. split; [done|]. by left.
  - change (nz 0) with false. cbv iota.
    destruct (record_sid t (oc_context1 c) m1 Hwt H1) as (rc & sid2 & t2 & m2 & E & Hwt2 & Hk2 & Hrc).
    change (ss_sidtab (set_ss_sidtab s t)) with t. change (oc_context1 (set_oc_sid0 c sid)) with (oc_context1 c).
    rewrite (bind_step _ _ _ E). clear E. cbv zeta. change (set_ss_sidtab (set_ss_sidtab s t) t2) with (set_ss_sidtab s t2).
    set (c2 := set_oc_sid1 (set_oc_sid0 c sid) sid2). assert (labelled t2 c2) as Hl2 by (split; [done|right; exists c'; split; [by apply Hk2|done]]).
    destruct (put_ready s t2 OCON_NETIF before c c2 after) as [Hr' Hrl]; [done|done|by eapply keeps_trans|done..|].
    destruct Hrc as [[Hrc _]|(-> & _ & _)].
    + assert (nz rc = true) as -> by by rewrite Hrc. do 4 eexists. split; [done|]. split; [done|]. split; [done|]. by left.
    + do 4 eexists. split; [done|]. split; [done|]. split; [done|]. right. exists sid. split; [done|]. split; [done|].
      apply (right_filled s _ c c2); done.
Qed.

Lemma netif_room s name : ready s -> sids_left (ss_sidtab s) 2 -> exists sid s', security_netif_sid s name [] = Some (0, Some sid, s', []).
Proof.
  intros Hr Hl. unfold security_netif_sid. destruct (ocon_find _ _) as [[[before c] after]|]; [|by eexists _, _].
  destruct (_ || _); [|by eexists _, _].
  destruct (context_to_sid_room (ss_sidtab s) (oc_context0 c) 1 (rd_sids s Hr) Hl ltac:(lia)) as (sid & t & E & Hw & Hl1 & _).
  rewrite (bind_step _ _ _ E). cbv zeta. change (nz 0) with false. cbv iota.
  destruct (context_to_sid_room t (oc_context1 c) 0 Hw Hl1 ltac:(lia)) as (sid2 & t2 & E2 & _).
  change (ss_sidtab (set_ss_sidtab s t)) with t. change (oc_context1 (set_oc_sid0 c sid)) with (oc_context1 c).
  rewrite (bind_step _ _ _ E2). by eexists _, _.
Qed.

#[export] Instance netif_labels : policy_labels security_netif_sid netif_right.
Proof.
  split; [|apply netif_room|intros s s' k sid; apply label_right_relabels, name_match_same]. intros s name m Hr.
  assert (OCON_NETIF ∈ net_ocons) as Hi by (unfold net_ocons; set_solver).
  pose proof (ocon_find_spec (name_match name) (ocontexts_at s OCON_NETIF)) as Hfind. unfold security_netif_sid.
  destruct (ocon_find _ _) as [[[before c] after]|].
  2: { exists 0, (Some SECINITSID_NETIF), s, m. split; [done|]. split; [done|]. split; [done|]. right. exists SECINITSID_NETIF.
       unfold netif_right, label_right. by rewrite Hfind. }
  destruct Hfind as (El & _ & _ & Hfind). destruct (rd_oc s Hr _ Hi) as [_ HF]. pose proof (rd_packet s Hr) as HP. rewrite El in HF, HP.
  apply Forall_app in HF as [_ HF]. apply Forall_cons in HF as [Hc _]. apply Forall_app in HP as [_ HP]. apply Forall_cons in HP as [Hc1 _].
  destruct (nz (oc_sid0 c)) eqn:E0; cbn [negb orb]; [destruct (nz (oc_sid1 c)) eqn:E1; cbn [negb]|].
  { apply nz_true in E0. exists 0, (Some (oc_sid0 c)), s, m. split; [done|]. split; [done|]. split; [done|]. right. exists (oc_sid0 c).
    split; [done|]. split; [done|]. by apply (right_filled s s c). }
  all: apply netif_fill; [done|done|done|apply Hc|done].
Qed.

(** ** Tables give the labels of the policy *)

Section tables.
Context {K E : Type} {hash : K -> option nat} {matches : K -> E -> bool} {sid_of : E -> Z} {entry : K -> Z -> E} {limit : Z}
  {call : ss -> K -> kmem -> option (Z * option Z * ss * kmem)} {right : ss -> K -> Z -> Prop} {Hlabels : policy_labels call right}.
Context (n : nat) (Hhash : forall k idx, hash k = Some idx -> (idx < n)%nat) (Hlimit : 0 < limit).
Context (Hsid : forall k sid, sid_of (entry k sid) = sid).
Context (Hself : forall k sid, is_Some (hash k) -> matches k (entry k sid) = true).
Context (Hkey : forall s k k' sid, matches k' (entry k sid) = true -> right s k sid -> right s k' sid).

Abbreviation find_in := (find_entry hash matches).
Abbreviation sid_in := (table_sid hash matches sid_of entry limit call).

(** Buckets hold as many entries as they say, and not too many; entries hold
    the label of whatever they match. *)
Record table_ok (s : ss) (t : list (bkt E)) : Prop := mk_table_ok {
  to_len : length t = n;
  to_bkts : Forall (fun b => bk_size b = Z.of_nat (length (bk_list b)) /\ bk_size b <= limit) t;
  to_right : forall b e k, b ∈ t -> e ∈ bk_list b -> matches k e = true -> right s k (sid_of e)
}.

Lemma table_empty s : table_ok s (replicate n (mk_bkt 0 [])).
Proof.
  split; [apply length_replicate|apply Forall_replicate; cbn; lia|].
  intros b e k [-> _]%elem_of_replicate He. by apply elem_of_nil in He.
Qed.

Lemma table_relabels s s' t : relabels s s' -> table_ok s t -> table_ok s' t.
Proof. intros Hr [H1 H2 H3]. split; [done|done|]. intros b e k Hb He Hm. eapply pl_right; [done|]. by eapply H3. Qed.

Lemma bkt_add_list (e : E) b x : x ∈ bk_list (bkt_add limit e b) -> x = e \/ x ∈ bk_list b.
Proof.
  unfold bkt_add. intros H. assert (x ∈ e :: bk_list b) as Hx; [|by apply elem_of_cons in Hx].
  destruct (bk_size b =? limit); [|done]. cbn [bk_list] in H. by eapply elem_of_take in H as (? & ? & _); eapply list_elem_of_lookup_2.
Qed.

Lemma bkt_add_size (e : E) b : bk_size b = Z.of_nat (length (bk_list b)) -> bk_size b <= limit ->
  bk_size (bkt_add limit e b) = Z.of_nat (length (bk_list (bkt_add limit e b))) /\ bk_size (bkt_add limit e b) <= limit.
Proof.
  intros Hs Hl. unfold bkt_add. destruct (Z.eqb_spec (bk_size b) limit); cbn [bk_size bk_list]; [rewrite length_take|]; cbn [length]; lia.
Qed.

Lemma insert_ok s t k sid idx :
  hash k = Some idx -> table_ok s t -> right s k sid ->
  exists b, t !! idx = Some b /\ insert_entry hash limit t k (entry k sid) = Some (<[idx := bkt_add limit (entry k sid) b]> t) /\
    table_ok s (<[idx := bkt_add limit (entry k sid) b]> t).
Proof.
  intros Hk [Hlen Hb Hr] Hright. destruct (lookup_lt_is_Some_2 t idx) as [b Hi]; [rewrite Hlen; by eapply Hhash|]. exists b. split; [done|].
  unfold insert_entry. rewrite Hk. cbn [mbind option_bind]. rewrite Hi. split; [done|].
  pose proof (proj1 (Forall_lookup _ _) Hb idx b Hi) as [Hs Hl]. split; [by rewrite length_insert| |].
  - apply Forall_insert; [done|]. by apply bkt_add_size.
  - intros b' e k' Hb' He Hm. apply list_elem_of_lookup in Hb' as [j Hj].
    apply list_lookup_insert_Some in Hj as [(<- & <- & _)|[_ Hj]]; [|apply (Hr b' e k'); [by eapply list_elem_of_lookup_2|done|done]].
    apply bkt_add_list in He as [->|He]; [rewrite Hsid; by eapply Hkey|].
    apply (Hr b e k'); [by eapply list_elem_of_lookup_2|done|done].
Qed.

Lemma find_right s t k idx e : hash k = Some idx -> table_ok s t -> find_in t k = Some (Some e) -> right s k (sid_of e).
Proof.
  intros Hk H Hf. unfold find_entry in Hf. rewrite Hk in Hf. cbn [mbind option_bind] in Hf. apply bind_Some in Hf as (b & Hb & [= Hf]).
  apply find_some in Hf as [He Hm]. apply list_elem_of_In in He. eapply to_right; [done|by eapply list_elem_of_lookup_2|done|done].
Qed.

Lemma find_total s t k idx : hash k = Some idx -> table_ok s t -> exists r, find_in t k = Some r.
Proof.
  intros Hk H. unfold find_entry. rewrite Hk. cbn [mbind option_bind].
  destruct (lookup_lt_is_Some_2 t idx) as [b ->]; [rewrite (to_len _ _ H); by eapply Hhash|]. by eexists.
Qed.

Lemma find_inserted s t k idx b sid :
  hash k = Some idx -> table_ok s t -> t !! idx = Some b ->
  find_in (<[idx := bkt_add limit (entry k sid) b]> t) k = Some (Some (entry k sid)).
Proof.
  intros Hk H Hb. unfold find_entry. rewrite Hk. cbn [mbind option_bind].
  rewrite list_lookup_insert_eq by by eapply lookup_lt_Some. cbn [mbind option_bind]. f_equal.
  pose proof (proj1 (Forall_lookup _ _) (to_bkts _ _ H) idx b Hb) as [Hs _]. assert (matches k (entry k sid) = true) as Hm by (apply Hself; by rewrite Hk).
  unfold bkt_add. destruct (Z.eqb_spec (bk_size b) limit); cbn [bk_list]; [|cbn; by rewrite Hm].
  destruct (bk_list b) as [|x l]; [cbn in Hs; lia|]. cbn. by rewrite Hm.
Qed.

(** A lookup gives the label of the policy, whatever the table held, or fails
    for want of memory; the next lookup gives the same, from the table. *)
Lemma table_sid_spec s t k idx m :
  hash k = Some idx -> ready s -> table_ok s t ->
  exists rc osid s' t' m', sid_in s t k m = Some (rc, osid, s', t', m') /\ ready s' /\ relabels s s' /\ table_ok s' t' /\
    ((rc = - ENOMEM /\ osid = None /\ t' = t /\ wanting s m) \/
     exists sid, rc = 0 /\ osid = Some sid /\ right s' k sid /\ forall s2 m2, sid_in s2 t' k m2 = Some (0, Some sid, s2, t', m2)).
Proof.
  intros Hk Hr Ht. destruct (find_total s t k idx Hk Ht) as [[e|] Hf]; unfold table_sid.
  - rewrite (bind_step _ _ _ Hf). do 5 eexists. split; [done|]. split; [done|]. split; [done|]. split; [done|]. right.
    exists (sid_of e). split; [done|]. split; [done|]. split; [by eapply find_right|]. intros s2 m2. by rewrite (bind_step _ _ _ Hf).
  - rewrite (bind_step _ _ _ Hf). unfold table_sid_slow. rewrite (bind_step _ _ _ Hf). destruct (kalloc m) as [[] m1] eqn:Ek; cbn [negb].
    2: { do 5 eexists. split; [done|]. split; [done|]. split; [done|]. split; [done|]. left. by eauto using kalloc_fails. }
    destruct (pl_call s k m1 Hr) as (rc & osid & s' & m' & E1 & Hr' & Hrl & Hres). rewrite (bind_step _ _ _ E1).
    pose proof (table_relabels s s' t Hrl Ht) as Ht'. destruct Hres as [[-> ->]|(sid & -> & -> & Hright)].
    { do 5 eexists. split; [done|]. split; [done|]. split; [done|]. split; [done|]. left. split_and!; [done..|].
      eapply kalloc_wanting; [exact Ek|]. eapply (pl_fails call right); [exact Hr|exact E1]. }
    change (nz 0) with false. cbv iota. destruct (insert_ok s' t k sid idx Hk Ht' Hright) as (b & Hb & Hi & Hok). rewrite (bind_step _ _ _ Hi).
    do 5 eexists. split; [done|]. split; [done|]. split; [done|]. split; [done|]. right. exists sid. split; [done|]. split; [done|].
    split; [done|]. intros s2 m2. rewrite (bind_step _ _ _ (find_inserted s' t k idx b sid Hk Ht' Hb)). by rewrite Hsid.
Qed.
End tables.

(** The same, when nothing is known of the labels the table holds. *)
Definition rights {K : Type} (stale : bool) (right : ss -> K -> Z -> Prop) : ss -> K -> Z -> Prop :=
  if stale then fun _ _ _ => True else right.

#[export] Instance rights_labels {K} (call : ss -> K -> kmem -> option (Z * option Z * ss * kmem)) right stale :
  policy_labels call right -> policy_labels call (rights stale right).
Proof.
  intros [Hc Hl Hr]. split; [|exact Hl|destruct stale; [done|apply Hr]]. intros s k m Hs.
  destruct (Hc s k m Hs) as (rc & osid & s' & m' & E & Hs' & Hrl & H). exists rc, osid, s', m'. split; [done|]. split; [done|]. split; [done|].
  destruct stale; [|done]. destruct H as [H|(sid & -> & -> & _)]; [by left|right; by exists sid].
Qed.

Lemma mask_bound x k : 0 <= k -> (Z.to_nat (x .& (2 ^ k - 1)) < Z.to_nat (2 ^ k))%nat.
Proof.
  intros Hk. replace (2 ^ k - 1) with (Z.ones k) by (rewrite Z.ones_equiv; lia). rewrite Z.land_ones by done.
  pose proof (Z.mod_pos_bound x (2 ^ k) ltac:(lia)). lia.
Qed.

Abbreviation port_table_ok stale := (table_ok (matches := port_is) (sid_of := np_sid) (limit := SEL_NETPORT_HASH_BKT_LIMIT) (right := rights stale port_right) SEL_NETPORT_HASH_SIZE).

Lemma netport_sid_spec stale s t protocol pnum m :
  ready s -> port_table_ok stale s t ->
  exists rc osid s' t' m', sel_netport_sid s t protocol pnum m = Some (rc, osid, s', t', m') /\ ready s' /\ relabels s s' /\ port_table_ok stale s' t' /\
    ((rc = - ENOMEM /\ osid = None /\ t' = t /\ wanting s m) \/
     exists sid, rc = 0 /\ osid = Some sid /\ rights stale port_right s' (protocol, pnum) sid /\
       forall s2 m2, sel_netport_sid s2 t' protocol pnum m2 = Some (0, Some sid, s2, t', m2)).
Proof.
  intros Hs Ht. unfold sel_netport_sid. eapply (table_sid_spec (entry := new_port) SEL_NETPORT_HASH_SIZE).
  all: try (eassumption || reflexivity || exact _).
  - intros k idx [= <-]. apply (mask_bound _ 8). lia.
  - intros k sid _. unfold port_is, new_port. cbn. by rewrite !Z.eqb_refl.
  - intros s0 [pr pn] [pr' pn'] sid. unfold port_is, new_port. cbn. intros [->%Z.eqb_eq ->%Z.eqb_eq]%andb_prop. done.
Qed.

Abbreviation node_table_ok stale := (table_ok (matches := node_is) (sid_of := nn_sid) (limit := SEL_NETNODE_HASH_BKT_LIMIT) (right := rights stale node_right) SEL_NETNODE_HASH_SIZE).

Lemma find_ext {A} (f g : A -> bool) l : (forall x, f x = g x) -> List.find f l = List.find g l.
Proof. intros H. induction l as [|x l IH]; cbn; [done|]. by rewrite H, IH. Qed.

(** The label of an address depends on the words that are compared. *)
Lemma node_key s k k' sid : node_is k' (new_node k sid) = true -> node_right s k sid -> node_right s k' sid.
Proof.
  destruct k as [a f], k' as [a' f']. unfold node_is, new_node, node_right, label_right. cbn. intros [->%Z.eqb_eq H]%andb_prop.
  destruct (f' =? PF_INET).
  - apply Z.eqb_eq in H. by rewrite (find_ext (node_match4 a) (node_match4 a')) by (intros c; unfold node_match4; by rewrite H).
  - destruct (f' =? PF_INET6); [|done]. unfold ipv6_addr_equal in H. cbn in H. rewrite !andb_true_iff, !Z.eqb_eq in H. destruct H as (H0 & H1 & H2 & H3 & _).
    rewrite (find_ext (node_match6 a) (node_match6 a')); [done|]. intros c. unfold node_match6. destruct (oc_u c); try done.
    unfold match_ipv6_addrmask. cbn. by rewrite H0, H1, H2, H3.
Qed.

Lemma netnode_sid_spec stale s t addr family m :
  ready s -> node_table_ok stale s t -> family = PF_INET \/ family = PF_INET6 ->
  exists rc osid s' t' m', sel_netnode_sid s t addr family m = Some (rc, osid, s', t', m') /\ ready s' /\ relabels s s' /\ node_table_ok stale s' t' /\
    ((rc = - ENOMEM /\ osid = None /\ t' = t /\ wanting s m) \/
     exists sid, rc = 0 /\ osid = Some sid /\ rights stale node_right s' (addr, family) sid /\
       forall s2 m2, sel_netnode_sid s2 t' addr family m2 = Some (0, Some sid, s2, t', m2)).
Proof.
  intros Hs Ht Hf. assert (exists idx, node_hash (addr, family) = Some idx) as [idx Hi] by (destruct Hf as [-> | ->]; by eexists).
  unfold sel_netnode_sid. eapply (table_sid_spec (entry := new_node) SEL_NETNODE_HASH_SIZE).
  all: try (eassumption || reflexivity || exact _).
  - intros k i. unfold node_hash. destruct (_ =? _); [|destruct (_ =? _); [|done]]; intros [= <-]; apply (mask_bound _ 8); lia.
  - intros [a f] sid. unfold node_hash, node_is, new_node, ipv6_addr_equal. cbn. rewrite !Z.eqb_refl. cbn.
    destruct (f =? PF_INET); [done|]. destruct (f =? PF_INET6); [done|by intros []].
  - intros s0 k k' sid. destruct stale; [done|apply node_key].
Qed.

(** *** Interfaces *)

Definition netif_count (h : list (list sel_netif)) : Z := Z.of_nat (length (concat h)).

(** The entries are counted; they hold the labels of the devices' names. *)
Record netif_ok (stale : bool) (dev : Z -> option string) (s : ss) (t : netif_table) : Prop := mk_netif_ok {
  no_len : length (nt_hash t) = SEL_NETIF_HASH_SIZE;
  no_total : sel_netif_total t = netif_count (nt_hash t);
  no_max : sel_netif_total t <= SEL_NETIF_HASH_MAX;
  no_right : forall e name, e ∈ concat (nt_hash t) -> dev (ni_ifindex e) = Some name -> rights stale netif_right s name (ni_sid e)
}.

Lemma concat_insert {A} (h : list (list A)) i l l' :
  h !! i = Some l -> exists a b, concat h = a ++ l ++ b /\ concat (<[i := l']> h) = a ++ l' ++ b.
Proof.
  intros Hi. exists (concat (take i h)), (concat (drop (S i) h)).
  rewrite <- (take_drop_middle h i l Hi) at 1. rewrite insert_take_drop by by eapply lookup_lt_Some. by rewrite !concat_app.
Qed.

Lemma netif_slot stale dev s t ifindex : netif_ok stale dev s t -> exists l, nt_hash t !! Z.to_nat (sel_netif_hashfn ifindex) = Some l.
Proof. intros H. apply lookup_lt_is_Some_2. rewrite (no_len _ _ _ _ H). apply (mask_bound _ 6). lia. Qed.

Lemma netif_relabels stale dev s s' t : relabels s s' -> netif_ok stale dev s t -> netif_ok stale dev s' t.
Proof.
  intros Hr [H1 H2 H3 H4]. split; [done..|]. intros e name He Hd. specialize (H4 e name He Hd). destruct stale; [done|].
  by eapply (pl_right (policy_labels := netif_labels)).
Qed.

Lemma netif_find_ok stale dev s t ifindex : netif_ok stale dev s t ->
  exists r, sel_netif_find t ifindex = Some r /\
    forall e, r = Some e -> forall name, dev ifindex = Some name -> rights stale netif_right s name (ni_sid e).
Proof.
  intros H. destruct (netif_slot _ _ _ _ ifindex H) as [l Hl]. unfold sel_netif_find. rewrite (bind_step _ _ _ Hl). eexists. split; [done|].
  intros e Hf name Hn. apply find_some in Hf as [He%list_elem_of_In Hi]. unfold netif_is in Hi. apply Z.eqb_eq in Hi.
  eapply no_right; [done| |by rewrite Hi]. apply list_elem_of_In, in_concat. exists l. split; apply list_elem_of_In; [by eapply list_elem_of_lookup_2|done].
Qed.

Lemma netif_insert_ok stale dev s t ifindex name sid :
  netif_ok stale dev s t -> dev ifindex = Some name -> rights stale netif_right s name sid ->
  (sel_netif_insert t (mk_sel_netif ifindex sid) = Some (- ENOSPC, t) /\ sel_netif_total t = SEL_NETIF_HASH_MAX) \/
  exists t', sel_netif_insert t (mk_sel_netif ifindex sid) = Some (0, t') /\ netif_ok stale dev s t' /\
    sel_netif_find t' ifindex = Some (Some (mk_sel_netif ifindex sid)).
Proof.
  intros H Hd Hr. unfold sel_netif_insert. destruct (Z.leb_spec SEL_NETIF_HASH_MAX (sel_netif_total t)) as [Hm|Hm].
  { left. split; [done|]. pose proof (no_max _ _ _ _ H). lia. }
  right. destruct (netif_slot _ _ _ _ ifindex H) as [l Hl]. cbn [ni_ifindex]. rewrite (bind_step _ _ _ Hl). eexists. split; [done|].
  destruct (concat_insert _ _ _ (mk_sel_netif ifindex sid :: l) Hl) as (a & b & E1 & E2). destruct H as [H1 H2 H3 H4].
  split; [split; cbn [nt_hash sel_netif_total]|].
  - by rewrite length_insert.
  - unfold netif_count in *. rewrite E2. rewrite E1 in H2. rewrite !length_app in *. cbn [length]. unfold SEL_NETIF_HASH_MAX in *. rewrite u32_small; lia.
  - unfold SEL_NETIF_HASH_MAX, netif_count in *. rewrite u32_small; lia.
  - intros e n He. rewrite E2 in He. assert (e = mk_sel_netif ifindex sid \/ e ∈ concat (nt_hash t)) as [-> |He'].
    { rewrite E1. rewrite !elem_of_app, elem_of_cons in *. tauto. }
    + cbn. congruence.
    + by apply H4.
  - unfold sel_netif_find. cbn [nt_hash]. rewrite list_lookup_insert_eq by by eapply lookup_lt_Some. cbn. unfold netif_is. cbn. by rewrite Z.eqb_refl.
Qed.

(** Why a lookup fails: there is no such interface, an allocation may fail or
    the SIDs run out, or the table is full. *)
Definition netif_failure (dev : Z -> option string) (s : ss) (t : netif_table) (ifindex : Z) (m : kmem) (rc : Z) : Prop :=
  (rc = - ENOENT /\ dev ifindex = None) \/ (rc = - ENOMEM /\ wanting s m) \/ (rc = - ENOSPC /\ sel_netif_total t = SEL_NETIF_HASH_MAX).

(** What a lookup may give: an error, or the label, which is then in the table. *)
Definition netif_answers (stale : bool) (dev : Z -> option string) (s : ss) (t : netif_table) (ifindex : Z) (m : kmem)
    (r : option (Z * option Z * ss * netif_table * kmem)) : Prop :=
  exists rc osid s' t' m', r = Some (rc, osid, s', t', m') /\ ready s' /\ relabels s s' /\ netif_ok stale dev s' t' /\
    ((netif_failure dev s t ifindex m rc /\ osid = None /\ t' = t) \/
     exists sid, rc = 0 /\ osid = Some sid /\ (forall name, dev ifindex = Some name -> rights stale netif_right s' name sid) /\
       forall dev2 s2 m2, sel_netif_sid dev2 s2 t' ifindex m2 = Some (0, Some sid, s2, t', m2)).

Lemma netif_error stale dev s t ifindex m rc s' m' :
  netif_ok stale dev s t -> netif_failure dev s t ifindex m rc -> ready s' -> relabels s s' ->
  netif_answers stale dev s t ifindex m (Some (rc, None, s', t, m')).
Proof. intros Ht Hrc Hs' Hrl. do 5 eexists. split; [done|]. split; [done|]. split; [done|]. split; [by eapply netif_relabels|]. by left. Qed.

Lemma netif_sid_spec stale dev s t ifindex m :
  ready s -> netif_ok stale dev s t -> netif_answers stale dev s t ifindex m (sel_netif_sid dev s t ifindex m).
Proof.
  intros Hs Ht. destruct (netif_find_ok _ _ _ _ ifindex Ht) as (r & Hf & Hr). unfold sel_netif_sid. rewrite (bind_step _ _ _ Hf). destruct r as [e|].
  { do 5 eexists. split; [done|]. split; [done|]. split; [done|]. split; [done|]. right. exists (ni_sid e). split; [done|]. split; [done|].
    split; [by apply Hr|]. intros dev2 s2 m2. unfold sel_netif_sid. by rewrite (bind_step _ _ _ Hf). }
  unfold sel_netif_sid_slow. destruct (dev ifindex) as [name|] eqn:Hd; [|by apply netif_error; [|left|..]].
  rewrite (bind_step _ _ _ Hf). destruct (kalloc m) as [[] m1] eqn:Ek; cbn [negb]; [|apply netif_error; [done| |done..]; right; left; by eauto using kalloc_fails].
  destruct (pl_call (policy_labels := rights_labels _ _ stale netif_labels) s name m1 Hs) as (rc & osid & s' & m' & E1 & Hs' & Hrl & Hres).
  rewrite (bind_step _ _ _ E1). destruct Hres as [[-> ->]|(sid & -> & -> & Hright)];
    [apply netif_error; [done| |done..]; right; left; (split; [done|]); eapply kalloc_wanting; [exact Ek|];
     eapply (pl_fails security_netif_sid netif_right); [exact Hs|exact E1]|].
  change (nz 0) with false. cbv iota. pose proof (netif_relabels _ _ _ _ _ Hrl Ht) as Ht'.
  destruct (netif_insert_ok stale dev s' t ifindex name sid Ht' Hd Hright) as [[Hi Hfull]|(t' & Hi & Hok & Hfind)]; rewrite (bind_step _ _ _ Hi).
  { change (nz (- ENOSPC)) with true. apply netif_error; [done| |done..]. by right; right. }
  change (nz 0) with false. do 5 eexists. split; [done|]. split; [done|]. split; [done|]. split; [done|]. right. exists sid. split; [done|]. split; [done|].
  split; [congruence|]. intros dev2 s2 m2. unfold sel_netif_sid. by rewrite (bind_step _ _ _ Hfind).
Qed.

Lemma count_down (l : list sel_netif) n : Z.of_nat (length l) <= n < 2 ^ 32 -> foldl (fun n _ => u32 (n - 1)) n l = n - Z.of_nat (length l).
Proof.
  revert n. induction l as [|x l IH]; intros n Hn; cbn [foldl length] in *; [lia|]. rewrite u32_small by lia. rewrite IH by lia. lia.
Qed.

Lemma flush_total h n : netif_count h <= n < 2 ^ 32 ->
  foldl (fun n (l : list sel_netif) => foldl (fun n _ => u32 (n - 1)) n l) n h = n - netif_count h.
Proof.
  unfold netif_count. revert n. induction h as [|l h IH]; intros n Hn; cbn [foldl concat length] in *; [lia|]. rewrite length_app in *.
  rewrite count_down by lia. rewrite IH by lia. lia.
Qed.

Lemma netif_flush_ok stale stale' dev s s' t : netif_ok stale dev s t -> netif_ok stale' dev s' (sel_netif_flush t) /\ sel_netif_total (sel_netif_flush t) = 0.
Proof.
  intros [H1 H2 H3 _]. unfold SEL_NETIF_HASH_MAX in H3. assert (concat ((fun _ => []) <$> nt_hash t) = @nil sel_netif) as E.
  { clear. induction (nt_hash t) as [|l h IH]; cbn; [done|exact IH]. }
  assert (sel_netif_total (sel_netif_flush t) = 0) as E0 by (cbn; rewrite flush_total; lia). split; [|done]. split.
  - cbn. by rewrite length_fmap.
  - rewrite E0. unfold netif_count. cbn. by rewrite E.
  - by rewrite E0.
  - cbn. rewrite E. by intros e name He%elem_of_nil.
Qed.

Lemma del_netif_elem i l x : x ∈ del_netif i l -> x ∈ l.
Proof.
  induction l as [|e l IH]; cbn; [done|]. destruct (netif_is i e); [by apply list_elem_of_further|].
  rewrite !elem_of_cons. intros [?|?]; [by left|right; by apply IH].
Qed.
Lemma del_netif_length i l e : List.find (netif_is i) l = Some e -> length l = S (length (del_netif i l)).
Proof. induction l as [|x l IH]; cbn; [done|]. destruct (netif_is i x); [done|]. intros H. cbn. by rewrite IH. Qed.

Lemma netif_kill_ok stale dev s t ifindex : netif_ok stale dev s t -> exists t', sel_netif_kill t ifindex = Some t' /\ netif_ok stale dev s t'.
Proof.
  intros H. destruct (netif_slot _ _ _ _ ifindex H) as [l Hl]. unfold sel_netif_kill. rewrite (bind_step _ _ _ Hl).
  destruct (List.find (netif_is ifindex) l) as [e|] eqn:Hf; [|by eexists]. eexists. split; [done|].
  destruct (concat_insert _ _ _ (del_netif ifindex l) Hl) as (a & b & E1 & E2). apply del_netif_length in Hf. destruct H as [H1 H2 H3 H4].
  unfold netif_count, SEL_NETIF_HASH_MAX in *. rewrite E1, !length_app in H2. split; unfold netif_count, SEL_NETIF_HASH_MAX; cbn [nt_hash sel_netif_total].
  - by rewrite length_insert.
  - rewrite E2, !length_app, u32_small; lia.
  - rewrite u32_small; lia.
  - intros x name Hx. apply H4. rewrite E2 in Hx. rewrite E1. rewrite !elem_of_app in *. pose proof (del_netif_elem ifindex l x). tauto.
Qed.

Lemma netif_handler_ok stale dev s t init event ifindex :
  netif_ok stale dev s t -> exists t', sel_netif_netdev_notifier_handler t init event ifindex = Some t' /\ netif_ok stale dev s t'.
Proof.
  intros H. unfold sel_netif_netdev_notifier_handler. destruct init; cbn [negb]; [|by eexists]. destruct (_ =? _); [by apply netif_kill_ok|by eexists].
Qed.

Lemma netif_init_ok stale dev s : netif_ok stale dev s sel_netif_init.
Proof.
  assert (concat (nt_hash sel_netif_init) = []) as E by (vm_compute; reflexivity).
  split; [done|unfold netif_count; by rewrite E|done|]. rewrite E. by intros e name He%elem_of_nil.
Qed.

(** ** A loaded policy is ready *)

Lemma net_ocon i : i ∈ net_ocons -> (i < OCON_NUM)%nat /\ i <> OCON_ISID.
Proof.
  revert i. apply Forall_forall. unfold net_ocons. repeat (apply Forall_cons_2; [split; [by apply Nat.ltb_lt|done]|]). apply Forall_nil_2.
Qed.

Lemma loaded_ready s : sidtab_wf (ss_sidtab s) -> plain_objects (ss_policydb s) -> ss_initialized s = true -> ready s.
Proof.
  intros Hw [Hl Hp] Hini. assert (forall i c, c ∈ ocontexts_at s i -> exists l, ocontexts (ss_policydb s) !! i = Some l /\ c ∈ l) as Hin.
  { intros i c. unfold ocontexts_at. rewrite nth_lookup. destruct (_ !! i) as [l|]; [by exists l|by intros ?%elem_of_nil]. }
  split; [done| | |done].
  - intros i [Hi Hne]%net_ocon. split; [by rewrite Hl|].
    apply Forall_forall. intros c (l & El & Hc)%Hin. destruct (Hp i l c El Hc) as (H0 & _ & H2). split; [done|]. left. by apply H2.
  - apply Forall_forall. intros c (l & El & Hc)%Hin. by destruct (Hp _ l c El Hc) as (_ & H1 & _).
Qed.

Lemma shutdown_ready s : ready s -> let s' := set_ss_sidtab s (sidtab_shutdown (ss_sidtab s)) in ready s' /\ relabels s s'.
Proof.
  intros [Hw Ho Hp Hin]. split; [split; [by apply shutdown_wf|exact Ho|exact Hp|exact Hin]|]. split; [intros i; cbn; done|]. by intros i c.
Qed.

(** ** The tables in the running system *)

(** [nw_stale]: a policy was loaded and the tables are not emptied yet. *)
Record network := mk_network {
  nw_ss : ss;
  nw_dev : Z -> option string;
  nw_ports : netport_table;
  nw_nodes : netnode_table;
  nw_netifs : netif_table;
  nw_stale : bool
}.

Definition network_init (s : ss) (dev : Z -> option string) : network :=
  mk_network s dev sel_netport_init sel_netnode_init sel_netif_init false.

(** What happens in between: lookups, SIDs given out by the other services, a
    load and the reset that ends it ([avc_ss_reset] calls the three callbacks),
    notifications of the network devices, and changes of devices that are not
    in the table. *)
Inductive net_step (w : network) : network -> Prop :=
| step_port protocol pnum m rc osid s t m' :
    sel_netport_sid (nw_ss w) (nw_ports w) protocol pnum m = Some (rc, osid, s, t, m') ->
    net_step w (mk_network s (nw_dev w) t (nw_nodes w) (nw_netifs w) (nw_stale w))
| step_node addr family m rc osid s t m' :
    sel_netnode_sid (nw_ss w) (nw_nodes w) addr family m = Some (rc, osid, s, t, m') ->
    net_step w (mk_network s (nw_dev w) (nw_ports w) t (nw_netifs w) (nw_stale w))
| step_netif ifindex m rc osid s t m' :
    sel_netif_sid (nw_dev w) (nw_ss w) (nw_netifs w) ifindex m = Some (rc, osid, s, t, m') ->
    net_step w (mk_network s (nw_dev w) (nw_ports w) (nw_nodes w) t (nw_stale w))
| step_sid ctx m rc sid t m' :
    c_len ctx = 0 -> sidtab_context_to_sid (ss_sidtab (nw_ss w)) ctx m = Some (rc, sid, t, m') ->
    net_step w (mk_network (set_ss_sidtab (nw_ss w) t) (nw_dev w) (nw_ports w) (nw_nodes w) (nw_netifs w) (nw_stale w))
| step_load data m rc s seq m' :
    security_load_policy (nw_ss w) data m = Some (rc, s, Some seq, m') -> initial_sids_ok (ss_policydb s) ->
    net_step w (mk_network s (nw_dev w) (nw_ports w) (nw_nodes w) (nw_netifs w) true)
| step_load_failed data m rc s m' :
    security_load_policy (nw_ss w) data m = Some (rc, s, None, m') ->
    net_step w (mk_network s (nw_dev w) (nw_ports w) (nw_nodes w) (nw_netifs w) (nw_stale w))
| step_reset :
    net_step w (mk_network (nw_ss w) (nw_dev w) (sel_netport_avc_callback (nw_ports w) AVC_CALLBACK_RESET).2
      (sel_netnode_avc_callback (nw_nodes w) AVC_CALLBACK_RESET).2 (sel_netif_avc_callback (nw_netifs w) AVC_CALLBACK_RESET).2 false)
| step_notify init event ifindex t :
    sel_netif_netdev_notifier_handler (nw_netifs w) init event ifindex = Some t ->
    net_step w (mk_network (nw_ss w) (nw_dev w) (nw_ports w) (nw_nodes w) t (nw_stale w))
| step_device dev :
    (forall e, e ∈ concat (nt_hash (nw_netifs w)) -> dev (ni_ifindex e) = nw_dev w (ni_ifindex e) \/ dev (ni_ifindex e) = None) ->
    net_step w (mk_network (nw_ss w) dev (nw_ports w) (nw_nodes w) (nw_netifs w) (nw_stale w)).

Record net_inv (w : network) : Prop := mk_net_inv {
  ni_ready : ready (nw_ss w);
  ni_ports : port_table_ok (nw_stale w) (nw_ss w) (nw_ports w);
  ni_nodes : node_table_ok (nw_stale w) (nw_ss w) (nw_nodes w);
  ni_netifs : netif_ok (nw_stale w) (nw_dev w) (nw_ss w) (nw_netifs w)
}.

Lemma init_net_inv s dev : ready s -> net_inv (network_init s dev).
Proof. intros Hr. split; [done|by apply table_empty..|apply netif_init_ok]. Qed.

Lemma table_any {K E} {matches : K -> E -> bool} {sid_of : E -> Z} {limit right right' n} s s' t :
  table_ok (matches := matches) (sid_of := sid_of) (limit := limit) (right := right) n s t ->
  table_ok (matches := matches) (sid_of := sid_of) (limit := limit) (right := rights true right') n s' t.
Proof. intros [H1 H2 _]. by split. Qed.

Lemma table_flush_ok {K E} {matches : K -> E -> bool} {sid_of : E -> Z} {limit right right' n} s s' t :
  0 < limit -> table_ok (matches := matches) (sid_of := sid_of) (limit := limit) (right := right) n s t ->
  table_ok (matches := matches) (sid_of := sid_of) (limit := limit) (right := right') n s' (table_flush t).
Proof.
  intros Hlimit H. unfold table_flush. split; [by rewrite length_fmap, (to_len _ _ _ H)| |].
  - apply Forall_fmap, Forall_true. cbn. intros _. split; [done|lia].
  - intros b e k Hb He. apply list_elem_of_fmap in Hb as (b' & -> & _). by apply elem_of_nil in He.
Qed.

(** Filling in SIDs keeps all tables. *)
Lemma inv_relabels w s : net_inv w -> ready s -> relabels (nw_ss w) s ->
  net_inv (mk_network s (nw_dev w) (nw_ports w) (nw_nodes w) (nw_netifs w) (nw_stale w)).
Proof.
  intros [H1 H2 H3 H4] Hr Hrl. split; cbn; [done|..].
  - by eapply table_relabels.
  - by eapply table_relabels.
  - by eapply netif_relabels.
Qed.

Lemma sid_relabels s ctx m rc sid t m' :
  ready s -> c_len ctx = 0 -> sidtab_context_to_sid (ss_sidtab s) ctx m = Some (rc, sid, t, m') ->
  ready (set_ss_sidtab s t) /\ relabels s (set_ss_sidtab s t).
Proof.
  intros [Hw Ho Hp Hin] Hl E. destruct (record_sid _ _ m Hw Hl) as (rc' & sid' & t' & m1 & E' & Hwt & Hk & _). rewrite E in E'.
  injection E' as <- <- <- <-. split; [split; [done| |exact Hp|exact Hin]|split; [intros i; cbn; done|done]].
  intros i Hi. destruct (Ho i Hi) as [H1 H2]. split; [exact H1|]. eapply Forall_impl; [exact H2|]. intros c. by apply labelled_keeps.
Qed.

Lemma port_step_inv w protocol pnum m rc osid s t m' :
  net_inv w -> sel_netport_sid (nw_ss w) (nw_ports w) protocol pnum m = Some (rc, osid, s, t, m') ->
  net_inv (mk_network s (nw_dev w) t (nw_nodes w) (nw_netifs w) (nw_stale w)).
Proof.
  intros H E. destruct (netport_sid_spec _ _ _ protocol pnum m (ni_ready _ H) (ni_ports _ H)) as (rc' & o' & s' & t' & m1 & E' & Hr & Hrl & Hok & _).
  rewrite E in E'. injection E' as <- <- <- <- <-. destruct (inv_relabels w s H Hr Hrl). by split.
Qed.

Lemma node_family s t addr family m r : sel_netnode_sid s t addr family m = Some r -> family = PF_INET \/ family = PF_INET6.
Proof.
  unfold sel_netnode_sid, table_sid, find_entry, node_hash. cbn [snd].
  destruct (Z.eqb_spec family PF_INET) as [->|]; [by left|]. destruct (Z.eqb_spec family PF_INET6) as [->|]; [by right|done].
Qed.

Lemma node_step_inv w addr family m rc osid s t m' :
  net_inv w -> sel_netnode_sid (nw_ss w) (nw_nodes w) addr family m = Some (rc, osid, s, t, m') ->
  net_inv (mk_network s (nw_dev w) (nw_ports w) t (nw_netifs w) (nw_stale w)).
Proof.
  intros H E. destruct (netnode_sid_spec _ _ _ addr family m (ni_ready _ H) (ni_nodes _ H) (node_family _ _ _ _ _ _ E)) as (rc' & o' & s' & t' & m1 & E' & Hr & Hrl & Hok & _).
  rewrite E in E'. injection E' as <- <- <- <- <-. destruct (inv_relabels w s H Hr Hrl). by split.
Qed.

Lemma netif_step_inv w ifindex m rc osid s t m' :
  net_inv w -> sel_netif_sid (nw_dev w) (nw_ss w) (nw_netifs w) ifindex m = Some (rc, osid, s, t, m') ->
  net_inv (mk_network s (nw_dev w) (nw_ports w) (nw_nodes w) t (nw_stale w)).
Proof.
  intros H E. destruct (netif_sid_spec _ _ _ _ ifindex m (ni_ready _ H) (ni_netifs _ H)) as (rc' & o' & s' & t' & m1 & E' & Hr & Hrl & Hok & _).
  rewrite E in E'. injection E' as <- <- <- <- <-. destruct (inv_relabels w s H Hr Hrl). by split.
Qed.

Lemma load_step_inv w data m rc s seq m' :
  net_inv w -> security_load_policy (nw_ss w) data m = Some (rc, s, Some seq, m') -> initial_sids_ok (ss_policydb s) ->
  net_inv (mk_network s (nw_dev w) (nw_ports w) (nw_nodes w) (nw_netifs w) true).
Proof.
  intros [[Hw _ _ Hin] Hp Hn [Hi1 Hi2 Hi3 _]] E Hok. destruct (loaded_parts _ _ _ _ _ _ _ Hin Hw E Hok) as (Hw' & Hpl & Hin').
  split; cbn [nw_ss nw_stale nw_ports nw_nodes nw_netifs]; [by apply loaded_ready|by eapply table_any..|by split].
Qed.

Lemma failed_load_inv w data m rc s m' :
  net_inv w -> security_load_policy (nw_ss w) data m = Some (rc, s, None, m') ->
  net_inv (mk_network s (nw_dev w) (nw_ports w) (nw_nodes w) (nw_netifs w) (nw_stale w)).
Proof.
  intros H E. pose proof (ni_ready _ H) as Hr. rewrite (load_initialized _ _ _ (rd_init _ Hr)) in E.
  apply load_next_failure in E as [-> | ->]; [by apply inv_relabels|]. destruct (shutdown_ready _ Hr). by apply inv_relabels.
Qed.

Lemma net_inv_step w w' : net_step w w' -> net_inv w -> net_inv w'.
Proof.
  intros Hst H. destruct Hst as [pr pn m rc osid s t m' E|a f m rc osid s t m' E|ix m rc osid s t m' E|ctx m rc sid t m' Hl E|data m rc s seq m' E Hok|data m rc s m' E| |init ev ix t E|dev Hd].
  - by eapply port_step_inv.
  - by eapply node_step_inv.
  - by eapply netif_step_inv.
  - destruct (sid_relabels _ _ _ _ _ _ _ (ni_ready _ H) Hl E). by apply inv_relabels.
  - by eapply load_step_inv.
  - by eapply failed_load_inv.
  - destruct H as [Hr Hp Hn Hi]. split; cbn; [done|eapply table_flush_ok; [done|exact Hp]|eapply table_flush_ok; [done|exact Hn]|by eapply netif_flush_ok].
  - destruct H as [Hr Hp Hn Hi]. destruct (netif_handler_ok _ _ _ _ init ev ix Hi) as (t' & E' & Hok). split; cbn; [done..|congruence].
  - destruct H as [Hr Hp Hn [H1 H2 H3 H4]]. split; cbn; [done..|]. split; [done..|]. intros e name He Hname. destruct (Hd e He) as [Ed|Ed]; [|congruence].
    apply H4; congruence.
Qed.

(** ** Properties *)

(** C23: the labels of ports, addresses and interfaces are those of the policy in
    force.  After any history of lookups, loads and resets, and once the tables
    were emptied after the last load, a lookup of a port, of an IPv4 or IPv6
    address or of an interface that exists succeeds, unless an allocation may
    fail, the SID table is shut down or has no two numbers left, or the table
    of interfaces is full.  A label it gives, from the table or not, is a SID
    whose context is the one the policy has for the port, the address or the
    name of the interface, or the initial SID if the policy has none; and the
    next lookup is answered from the table with the same label.  Loads are
    assumed to bring initial SIDs in range, and an interface that is in the
    table to keep its name. *)
Theorem network_labels_right s dev w :
  ready s -> rtc net_step (network_init s dev) w -> nw_stale w = false ->
  (forall protocol pnum m, exists rc osid s' t m', sel_netport_sid (nw_ss w) (nw_ports w) protocol pnum m = Some (rc, osid, s', t, m') /\
     ((rc = - ENOMEM /\ osid = None /\ wanting (nw_ss w) m) \/
      exists sid, rc = 0 /\ osid = Some sid /\ port_right s' (protocol, pnum) sid /\
        forall s2 m2, sel_netport_sid s2 t protocol pnum m2 = Some (0, Some sid, s2, t, m2))) /\
  (forall addr family m, family = PF_INET \/ family = PF_INET6 ->
     exists rc osid s' t m', sel_netnode_sid (nw_ss w) (nw_nodes w) addr family m = Some (rc, osid, s', t, m') /\
     ((rc = - ENOMEM /\ osid = None /\ wanting (nw_ss w) m) \/
      exists sid, rc = 0 /\ osid = Some sid /\ node_right s' (addr, family) sid /\
        forall s2 m2, sel_netnode_sid s2 t addr family m2 = Some (0, Some sid, s2, t, m2))) /\
  (forall ifindex name m, nw_dev w ifindex = Some name ->
     exists rc osid s' t m', sel_netif_sid (nw_dev w) (nw_ss w) (nw_netifs w) ifindex m = Some (rc, osid, s', t, m') /\
     ((((rc = - ENOMEM /\ wanting (nw_ss w) m) \/ (rc = - ENOSPC /\ sel_netif_total (nw_netifs w) = SEL_NETIF_HASH_MAX)) /\ osid = None) \/
      exists sid, rc = 0 /\ osid = Some sid /\ netif_right s' name sid /\
        forall dev2 s2 m2, sel_netif_sid dev2 s2 t ifindex m2 = Some (0, Some sid, s2, t, m2))).
Proof.
  intros Hr Hst Hs. assert (net_inv w) as [Hw Hp Hn Hi].
  { pose proof (init_net_inv s dev Hr) as H0. clear Hs. induction Hst as [|w1 w2 w3 H12 _ IH]; [done|]. by apply IH; eapply net_inv_step. }
  rewrite Hs in Hp, Hn, Hi. split_and!.
  - intros protocol pnum m. destruct (netport_sid_spec _ _ _ protocol pnum m Hw Hp) as (rc & osid & s' & t & m' & E & _ & _ & _ & H).
    exists rc, osid, s', t, m'. split; [done|]. destruct H as [(? & ? & _ & ?)|H]; [by left|by right].
  - intros addr family m Hf. destruct (netnode_sid_spec _ _ _ addr family m Hw Hn Hf) as (rc & osid & s' & t & m' & E & _ & _ & _ & H).
    exists rc, osid, s', t, m'. split; [done|]. destruct H as [(? & ? & _ & ?)|H]; [by left|by right].
  - intros ifindex name m Hd. destruct (netif_sid_spec _ _ _ _ ifindex m Hw Hi) as (rc & osid & s' & t & m' & E & _ & _ & _ & H).
    exists rc, osid, s', t, m'. split; [done|]. destruct H as [([[_ ?]|Hc] & -> & _)|(sid & ? & ? & H & H2)]; [congruence|by left|right].
    exists sid. by split_and!; [| |apply H|].
Qed.

(** The sample after its policy was loaded again. *)
Definition lo_dev (ifindex : Z) : option string := if ifindex =? 1 then Some "lo"%string else None.
Definition reloaded_ss : ss := (load_of sample_system sample_file).1.1.2.

Lemma sample_system_ready : ready sample_system.
Proof. apply loaded_ready; [exact system_sids_wf|exact (gives_plain_objects _ _ _ _ _ sample_file_reads)|done]. Qed.

Lemma sample_reloaded : exists rc seq m', security_load_policy sample_system sample_file [] = Some (rc, reloaded_ss, Some seq, m') /\
  initial_sids_ok (ss_policydb reloaded_ss).
Proof.
  assert (loads sample_system sample_file = true) as El by (vm_compute; reflexivity). apply loads_equation in El.
  unfold reloaded_ss. do 3 eexists. split; [exact El|]. apply initial_sids_okb_sound. vm_compute. reflexivity.
Qed.

Lemma network_labels_right_witness :
  exists w, nw_ss w = reloaded_ss /\
    forall protocol pnum m, exists rc osid s' t m', sel_netport_sid (nw_ss w) (nw_ports w) protocol pnum m = Some (rc, osid, s', t, m') /\
     ((rc = - ENOMEM /\ osid = None /\ wanting (nw_ss w) m) \/
      exists sid, rc = 0 /\ osid = Some sid /\ port_right s' (protocol, pnum) sid /\
        forall s2 m2, sel_netport_sid s2 t protocol pnum m2 = Some (0, Some sid, s2, t, m2)).
Proof.
  destruct sample_reloaded as (rc & seq & m' & El & Hok).
  pose proof (step_load (network_init sample_system lo_dev) sample_file [] rc reloaded_ss seq m' El Hok) as Hload.
  set (w1 := mk_network _ _ _ _ _ _) in Hload. pose proof (step_reset w1) as Hreset.
  eexists. split; [|exact (proj1 (network_labels_right sample_system lo_dev _ sample_system_ready (rtc_l _ _ _ _ Hload (rtc_once _ _ Hreset)) eq_refl))].
  reflexivity.
Defined.

(** *** A renamed interface

    An interface is renamed only while it is down, and [NETDEV_DOWN] removes its
    entry.  A lookup in between stores the label of the old name again, and
    nothing removes that entry when the name changes. *)
Definition eth_record : ocontext := mk_ocontext (OName "eth0") 0 etc_ctx etc_ctx 0 0.
Definition netif_ss : ss := put_ocontexts sample_ss OCON_NETIF [eth_record].
Definition named (name : string) (ifindex : Z) : option string := if ifindex =? 2 then Some name else None.

Definition down_then_lookup : option (Z * option Z * ss * netif_table * kmem) :=
  t ← sel_netif_netdev_notifier_handler sel_netif_init true NETDEV_DOWN 2;
  sel_netif_sid (named "eth0") netif_ss t 2 [].
Definition renamed_lookup (name : string) : option (Z * option Z * ss * netif_table * kmem) :=
  '(_, _, s, t, m) ← down_then_lookup; sel_netif_sid (named name) s t 2 m.
Definition other_lookup (name : string) : option (Z * option Z * ss * netif_table * kmem) :=
  '(_, _, s, _, m) ← down_then_lookup; sel_netif_sid (named name) s sel_netif_init 2 m.

Example renamed_netif_keeps_label :
  (fun r => r.1.1.1) <$> down_then_lookup = Some (0, Some 3) /\
  (fun r => r.1.1.1) <$> renamed_lookup "wan0" = Some (0, Some 3) /\
  (fun r => r.1.1.1) <$> other_lookup "wan0" = Some (0, Some SECINITSID_NETIF).
Proof. split_and!; vm_compute; reflexivity. Qed.
