(* ===== verification/NetLabel.v ===== *)
(** * NetLabel (CONFIG_NETLABEL in ss/ebitmap.c, ss/mls.c and ss/services.c)

    The level of a packet travels as a NetLabel security attribute: a
    sensitivity and a list of 256-bit maps of categories (include/net/netlabel.h).
    Two functions translate between these maps and the 128-bit nodes of
    extensible bitmaps, and the security server translates attributes to SIDs
    and back. *)

From Stdlib Require Import String.
From S2P Require Import Prelude Hashtab Ebitmap PolicyFile Context Sidtab Avtab Policydb Mls PolicydbOps Sample Services ServicesSid ServicesObj.

(** ** Attributes (include/net/netlabel.h) *)

Definition NETLBL_CATMAP_MAPCNT : Z := 4.
Definition NETLBL_CATMAP_MAPSIZE : Z := 8 * 8.
Definition NETLBL_CATMAP_SIZE : Z := NETLBL_CATMAP_MAPSIZE * NETLBL_CATMAP_MAPCNT.

Record catmap_node := mk_catmap_node {
  cm_startbit : Z;       (* u32 *)
  cm_bitmap : list Z     (* u64 bitmap[NETLBL_CATMAP_MAPCNT] *)
}.

(** The list of maps behind a pointer; [[]] is the null pointer. *)
Definition catmap := list catmap_node.

Definition NETLBL_SECATTR_DOMAIN : Z := 0x1.
Definition NETLBL_SECATTR_CACHE : Z := 0x2.
Definition NETLBL_SECATTR_MLS_LVL : Z := 0x4.
Definition NETLBL_SECATTR_MLS_CAT : Z := 0x8.
Definition NETLBL_SECATTR_SECID : Z := 0x10.
Definition NETLBL_SECATTR_FREE_DOMAIN : Z := 0x1000000.
Definition NETLBL_SECATTR_DOMAIN_CPY : Z := NETLBL_SECATTR_DOMAIN .| NETLBL_SECATTR_FREE_DOMAIN.

(** [sa_cache]: the SID the cache entry holds; [sa_cat] is [Wild] for a list
    that was freed. *)
Record secattr := mk_secattr {
  sa_flags : Z;
  sa_domain : option string;
  sa_cache : option Z;
  sa_cat : ptr catmap;
  sa_lvl : Z;
  sa_secid : Z
}.

Definition netlbl_secattr_init : secattr := mk_secattr 0 None None Null 0 0.
Definition set_sa_flags (a : secattr) (v : Z) : secattr := mk_secattr v (sa_domain a) (sa_cache a) (sa_cat a) (sa_lvl a) (sa_secid a).
Definition set_sa_domain (a : secattr) (v : option string) : secattr := mk_secattr (sa_flags a) v (sa_cache a) (sa_cat a) (sa_lvl a) (sa_secid a).
Definition set_sa_cache (a : secattr) (v : option Z) : secattr := mk_secattr (sa_flags a) (sa_domain a) v (sa_cat a) (sa_lvl a) (sa_secid a).
Definition set_sa_cat (a : secattr) (v : ptr catmap) : secattr := mk_secattr (sa_flags a) (sa_domain a) (sa_cache a) v (sa_lvl a) (sa_secid a).
Definition set_sa_lvl (a : secattr) (v : Z) : secattr := mk_secattr (sa_flags a) (sa_domain a) (sa_cache a) (sa_cat a) v (sa_secid a).
Definition set_sa_secid (a : secattr) (v : Z) : secattr := mk_secattr (sa_flags a) (sa_domain a) (sa_cache a) (sa_cat a) (sa_lvl a) v.
Definition has_flag (a : secattr) (flag : Z) : bool := nz (sa_flags a .& flag).
Definition add_flag (a : secattr) (flag : Z) : secattr := set_sa_flags a (sa_flags a .| flag).

(** ** Bitmaps (ss/ebitmap.c) *)

(** [netlbl_secattr_catmap_alloc], and [startbit = bit & ~(NETLBL_CATMAP_SIZE - 1)]. *)
Definition new_catmap (bit : Z) : catmap_node :=
  mk_catmap_node (bit .& not32 (NETLBL_CATMAP_SIZE - 1)) (replicate (Z.to_nat NETLBL_CATMAP_MAPCNT) 0).

(** [c_iter->bitmap[cmap_idx] |= e_iter->maps[i] << cmap_sft] *)
Definition catmap_or (c : catmap_node) (e_startbit map : Z) : option catmap_node :=
  let delta := u32 (e_startbit - cm_startbit c) in
  let cmap_idx := Z.to_nat (delta `div` NETLBL_CATMAP_MAPSIZE) in
  let cmap_sft := delta mod NETLBL_CATMAP_MAPSIZE in
  w ← cm_bitmap c !! cmap_idx;
  Some (mk_catmap_node (cm_startbit c) (<[cmap_idx := w .| u64 (map .<< cmap_sft)]> (cm_bitmap c))).

(** The loop over the words of a node, from the [i]-th on; [c] is [c_iter] and
    [done] what precedes it.  [false]: out of memory. *)
Fixpoint export_maps (startbit i : Z) (maps : list Z) (done : catmap) (c : catmap_node) (m : kmem)
    : option (bool * catmap * catmap_node * kmem) :=
  match maps with
  | [] => Some (true, done, c, m)
  | map :: maps' =>
      let e_startbit := u32 (startbit + i * EBITMAP_UNIT_SIZE) in
      let c_endbit := u32 (cm_startbit c + NETLBL_CATMAP_SIZE) in
      if c_endbit <=? e_startbit then
        let '(ok, m) := kalloc m in
        if negb ok then Some (false, done, c, m)
        else
          c' ← catmap_or (new_catmap e_startbit) e_startbit map;
          export_maps startbit (i + 1) maps' (done ++ [c]) c' m
      else
        c' ← catmap_or c e_startbit map;
        export_maps startbit (i + 1) maps' done c' m
  end.

Fixpoint export_nodes (ns : list ebitmap_node) (done : catmap) (c : catmap_node) (m : kmem)
    : option (bool * catmap * catmap_node * kmem) :=
  match ns with
  | [] => Some (true, done, c, m)
  | e_iter :: ns' =>
      '(ok, done, c, m) ← export_maps (en_startbit e_iter) 0 (en_maps e_iter) done c m;
      if negb ok then Some (false, done, c, m) else export_nodes ns' done c m
  end.

(** Result: the return value and [*catmap], which was [old]. *)
Definition ebitmap_netlbl_export (e : ebitmap) (old : ptr catmap) (m : kmem) : option (Z * ptr catmap * kmem) :=
  match eb_node e with
  | [] => Some (0, Null, m)
  | e_iter :: _ =>
      let '(ok, m) := kalloc m in
      if negb ok then Some (- ENOMEM, old, m)
      else
        '(ok, done, c, m) ← export_nodes (eb_node e) [] (new_catmap (en_startbit e_iter)) m;
        if negb ok then Some (- ENOMEM, Wild, m) else Some (0, Ptr (done ++ [c]), m)
  end.

(** [while (map) { e_iter->maps[e_idx++] |= map & (-1UL); map = EBITMAP_SHIFT_UNIT_SIZE(map); }] *)
Fixpoint or_map (fuel : nat) (map e_idx : Z) (maps : list Z) : option (list Z) :=
  match fuel with
  | O => Some maps
  | S fuel' =>
      if nz map then
        w ← maps !! Z.to_nat e_idx;
        or_map fuel' (EBITMAP_SHIFT_UNIT_SIZE map) (e_idx + 1) (<[Z.to_nat e_idx := w .| (map .& Z.ones 64)]> maps)
      else Some maps
  end.

(** The body of the loop for a map that is not empty; [done] and [cur] are the
    nodes before [e_iter] and [e_iter]. *)
Definition import_map (c_pos map : Z) (done : list ebitmap_node) (cur : option ebitmap_node) (m : kmem)
    : option (bool * list ebitmap_node * option ebitmap_node * kmem) :=
  let fresh := match cur with None => true | Some e => en_startbit e + EBITMAP_SIZE <=? c_pos end in
  let '(ok, m) := if fresh then kalloc m else (true, m) in
  if negb ok then Some (false, done, cur, m)
  else
    let '(done, e) :=
      match cur with
      | Some e => if fresh then (done ++ [e], mk_ebitmap_node (repeat 0 (Z.to_nat EBITMAP_UNIT_NUMS)) (c_pos - c_pos mod EBITMAP_SIZE)) else (done, e)
      | None => (done, mk_ebitmap_node (repeat 0 (Z.to_nat EBITMAP_UNIT_NUMS)) (c_pos - c_pos mod EBITMAP_SIZE))
      end in
    let delta := u32 (c_pos - en_startbit e) in
    maps ← or_map 2 map (delta `div` EBITMAP_UNIT_SIZE) (en_maps e);
    Some (true, done, Some (mk_ebitmap_node maps (en_startbit e)), m).

(** The loop over the words of a map, from the [c_idx]-th on. *)
Fixpoint import_maps (startbit c_idx : Z) (bitmap : list Z) (done : list ebitmap_node) (cur : option ebitmap_node) (m : kmem)
    : option (bool * list ebitmap_node * option ebitmap_node * kmem) :=
  match bitmap with
  | [] => Some (true, done, cur, m)
  | map :: bitmap' =>
      if negb (nz map) then import_maps startbit (c_idx + 1) bitmap' done cur m
      else
        '(ok, done, cur, m) ← import_map (u32 (startbit + c_idx * NETLBL_CATMAP_MAPSIZE)) map done cur m;
        if negb ok then Some (false, done, cur, m) else import_maps startbit (c_idx + 1) bitmap' done cur m
  end.

Fixpoint import_nodes (l : catmap) (done : list ebitmap_node) (cur : option ebitmap_node) (m : kmem)
    : option (bool * list ebitmap_node * option ebitmap_node * kmem) :=
  match l with
  | [] => Some (true, done, cur, m)
  | c_iter :: l' =>
      '(ok, done, cur, m) ← import_maps (cm_startbit c_iter) 0 (cm_bitmap c_iter) done cur m;
      if negb ok then Some (false, done, cur, m) else import_nodes l' done cur m
  end.

(** What the bitmap was before does not matter.  The first map is read without
    a test of the pointer. *)
Definition ebitmap_netlbl_import (cat : ptr catmap) (m : kmem) : option (Z * ebitmap * kmem) :=
  match cat with
  | Ptr ((_ :: _) as l) =>
      '(ok, done, cur, m) ← import_nodes l [] None m;
      if negb ok then Some (- ENOMEM, ebitmap_init, m)
      else
        match cur with
        | Some e => Some (0, mk_ebitmap (done ++ [e]) (u32 (en_startbit e + EBITMAP_SIZE)), m)
        | None => Some (0, ebitmap_init, m)
        end
  | _ => None
  end.

(** ** Levels (ss/mls.c) *)

Definition mls_export_netlbl_lvl (p : policydb) (c : context) (a : secattr) : secattr :=
  if negb (mls_enabled p) then a
  else add_flag (set_sa_lvl a (u32 (ml_sens (mr_low (c_range c)) - 1))) NETLBL_SECATTR_MLS_LVL.

Definition mls_import_netlbl_lvl (p : policydb) (c : context) (a : secattr) : context :=
  if negb (mls_enabled p) then c
  else
    let sens := u32 (sa_lvl a + 1) in
    set_c_range c (mk_mls_range (mk_mls_level sens (ml_cat (mr_low (c_range c))))
                                      (mk_mls_level sens (ml_cat (mr_high (c_range c))))).

Definition mls_export_netlbl_cat (p : policydb) (c : context) (a : secattr) (m : kmem) : option (Z * secattr * kmem) :=
  if negb (mls_enabled p) then Some (0, a, m)
  else
    '(rc, cat, m) ← ebitmap_netlbl_export (ml_cat (mr_low (c_range c))) (sa_cat a) m;
    let a := set_sa_cat a cat in
    let present := match cat with Null => false | _ => true end in
    Some (rc, if (rc =? 0) && present then add_flag a NETLBL_SECATTR_MLS_CAT else a, m).

Definition mls_import_netlbl_cat (p : policydb) (c : context) (a : secattr) (m : kmem) : option (Z * context * kmem) :=
  if negb (mls_enabled p) then Some (0, c, m)
  else
    let put lo hi := set_c_range c (mk_mls_range (mk_mls_level (ml_sens (mr_low (c_range c))) lo)
                                                       (mk_mls_level (ml_sens (mr_high (c_range c))) hi)) in
    '(rc, low, m) ← ebitmap_netlbl_import (sa_cat a) m;
    if nz rc then Some (rc, put ebitmap_init ebitmap_init, m)
    else
      let '(rc, high, m) := ebitmap_cpy low m in
      if nz rc then Some (rc, put ebitmap_init ebitmap_init, m) else Some (0, put low high, m).

(** ** SIDs (ss/services.c) *)

Definition SECINITSID_NETMSG : Z := 11.
Definition EIDRM : Z := 43.

Definition security_netlbl_cache_add (a : secattr) (sid : Z) (m : kmem) : secattr * kmem :=
  let '(ok, m) := kalloc m in
  if negb ok then (a, m)
  else
    let '(ok, m) := kalloc m in
    if negb ok then (set_sa_cache a None, m)
    else (add_flag (set_sa_cache a (Some sid)) NETLBL_SECATTR_CACHE, m).

(** [ctx_new] before the categories: the initial context of network messages
    with the level of the attributes. *)
Definition netmsg_context (p : policydb) (ctx : context) (a : secattr) : context :=
  mls_import_netlbl_lvl p (mk_context (c_user ctx) (c_role ctx) (c_type ctx) 0 mls_range_zero None) a.

(** Result: the return value, [*sid], the attributes. *)
Definition security_netlbl_secattr_to_sid (s : ss) (a : secattr) (m : kmem) : option (Z * option Z * secattr * ss * kmem) :=
  if negb (ss_initialized s) then Some (0, Some SECSID_NULL, a, s, m)
  else if has_flag a NETLBL_SECATTR_CACHE then sid ← sa_cache a; Some (0, Some sid, a, s, m)
  else if has_flag a NETLBL_SECATTR_SECID then Some (0, Some (sa_secid a), a, s, m)
  else if has_flag a NETLBL_SECATTR_MLS_LVL then
    match sidtab_search (Some (ss_sidtab s)) SECINITSID_NETMSG with
    | None => Some (- EIDRM, None, a, s, m)
    | Some ctx =>
        let ctx_new := netmsg_context (ss_policydb s) ctx a in
        '(rc, cat, m) ← (if has_flag a NETLBL_SECATTR_MLS_CAT then ebitmap_netlbl_import (sa_cat a) m
                         else Some (0, ml_cat (mr_low (c_range ctx_new)), m));
        if nz rc then Some (rc, None, a, s, m)
        else
          (* memcpy: the two levels share the nodes *)
          let ctx_new := set_c_range ctx_new (mk_mls_range (mk_mls_level (ml_sens (mr_low (c_range ctx_new))) cat)
                                                           (mk_mls_level (ml_sens (mr_high (c_range ctx_new))) cat)) in
          valid ← mls_context_isvalid (ss_policydb s) ctx_new;
          if negb valid then Some (- EIDRM, None, a, s, m)
          else
            '(rc, sid, t, m) ← sidtab_context_to_sid (ss_sidtab s) ctx_new m;
            let s := set_ss_sidtab s t in
            if nz rc then Some (rc, Some sid, a, s, m)
            else
              let '(a, m) := security_netlbl_cache_add a sid m in
              Some (0, Some sid, a, s, m)
    end
  else Some (0, Some SECSID_NULL, a, s, m).

Definition security_netlbl_sid_to_secattr (s : ss) (sid : Z) (a : secattr) (m : kmem) : option (Z * secattr * kmem) :=
  if negb (ss_initialized s) then Some (0, a, m)
  else
    match sidtab_search (Some (ss_sidtab s)) sid with
    | None => Some (- ENOENT, a, m)
    | Some ctx =>
        match sym_name (ss_policydb s) SYM_TYPES (u32 (c_type ctx - 1)) with
        | Wild => None
        | Null => Some (- ENOMEM, set_sa_domain a None, m)
        | Ptr name =>
            let '(ok, m) := kalloc m in
            if negb ok then Some (- ENOMEM, set_sa_domain a None, m)
            else
              let a := add_flag (set_sa_secid (set_sa_domain a (Some name)) sid) (NETLBL_SECATTR_DOMAIN_CPY .| NETLBL_SECATTR_SECID) in
              mls_export_netlbl_cat (ss_policydb s) ctx (mls_export_netlbl_lvl (ss_policydb s) ctx a) m
        end
    end.

(** ** Words and their positions *)

Definition placed (start : Z) (ws : list Z) : list (Z * Z) := imap (fun i w => (start + 64 * Z.of_nat i, w)) ws.
Definition cat_words (l : catmap) : list (Z * Z) := concat ((fun c => placed (cm_startbit c) (cm_bitmap c)) <$> l).
Definition node_words (ns : list ebitmap_node) : list (Z * Z) := concat ((fun n => placed (en_startbit n) (en_maps n)) <$> ns).

(** The words that hold a bit. *)
Definition full (ws : list (Z * Z)) : list (Z * Z) := filter (fun x => x.2 <> 0) ws.

Definition at_bit (b : Z) (x : Z * Z) : bool := (x.1 <=? b) && (b <? x.1 + 64) && Z.testbit x.2 (b - x.1).
Definition words_bit (ws : list (Z * Z)) (b : Z) : bool := existsb (at_bit b) ws.

Lemma placed_cons start w ws : placed start (w :: ws) = (start, w) :: placed (start + 64) ws.
Proof.
  unfold placed. rewrite imap_cons. f_equal; [f_equal; lia|]. apply imap_ext. intros i x _. cbn. f_equal. lia.
Qed.

Lemma full_app ws ws' : full (ws ++ ws') = full ws ++ full ws'.
Proof. apply filter_app. Qed.

Lemma cat_words_app l l' : cat_words (l ++ l') = cat_words l ++ cat_words l'.
Proof. unfold cat_words. by rewrite fmap_app, concat_app. Qed.

Lemma words_bit_app ws ws' b : words_bit (ws ++ ws') b = words_bit ws b || words_bit ws' b.
Proof. apply existsb_app. Qed.

Lemma words_bit_full ws b : words_bit (full ws) b = words_bit ws b.
Proof.
  unfold words_bit, full. induction ws as [|[p w] ws IH]; [done|]. rewrite filter_cons. cbn [snd]. case_decide as Hw; cbn [existsb].
  - by rewrite IH.
  - rewrite IH. unfold at_bit at 2. cbn [fst snd]. replace w with 0 by lia. by rewrite Z.bits_0, andb_false_r.
Qed.

(** The bits of a node are those of its words. *)
Lemma node_words_bit n b : node_wf n -> words_bit (placed (en_startbit n) (en_maps n)) b = node_bit n b.
Proof.
  intros (Hl & _). destruct (en_maps n) as [|a [|c [|]]] eqn:Em; try done. rewrite !placed_cons. unfold words_bit, placed, node_bit, at_bit.
  rewrite Em, EBITMAP_SIZE_val. cbn [imap existsb fst snd]. rewrite orb_false_r.
  destruct (Z.leb_spec (en_startbit n) b), (Z.ltb_spec b (en_startbit n + 128)); cbn [andb].
  - destruct (Z.ltb_spec b (en_startbit n + 64)); cbn [andb].
    + rewrite word_bit_cons_low by lia. rewrite (proj2 (Z.leb_gt _ _)) by lia. by rewrite orb_false_r.
    + rewrite word_bit_cons_high by lia. rewrite (proj2 (Z.leb_le _ _)), (proj2 (Z.ltb_lt _ _)) by lia.
      rewrite word_bit_cons_low by lia. cbn. f_equal. lia.
  - rewrite !(proj2 (Z.ltb_ge _ _)) by lia. by rewrite !andb_false_r.
  - rewrite !(proj2 (Z.leb_gt _ _)) by lia. done.
  - rewrite !(proj2 (Z.leb_gt _ _)) by lia. done.
Qed.

Lemma nodes_words_bit ns b : Forall node_wf ns -> words_bit (node_words ns) b = nodes_bit ns b.
Proof.
  intros H. unfold node_words. induction H as [|n ns Hn _ IH]; [done|]. cbn [fmap list_fmap concat].
  rewrite words_bit_app, node_words_bit, nodes_bit_cons by done. f_equal. exact IH.
Qed.

(** ** Export *)

Record cat_wf (c : catmap_node) : Prop := mk_cat_wf {
  cw_len : length (cm_bitmap c) = 4%nat;
  cw_aligned : cm_startbit c mod 256 = 0;
  cw_range : 0 <= cm_startbit c < 2 ^ 32
}.

(** From position [pos] on the map is empty. *)
Definition empty_from (pos : Z) (c : catmap_node) : Prop :=
  forall j w, cm_bitmap c !! j = Some w -> pos <= cm_startbit c + 64 * Z.of_nat j -> w = 0.

Lemma placed_zero s ws : (forall j w, ws !! j = Some w -> w = 0) -> full (placed s ws) = [].
Proof.
  revert s. induction ws as [|x ws IH]; intros s H; [done|]. rewrite placed_cons. unfold full. rewrite filter_cons. cbn [snd].
  rewrite (H 0%nat x eq_refl). case_decide; [done|]. apply IH. intros j w Hj. by apply (H (S j)).
Qed.

Lemma placed_insert s ws k w :
  (k < length ws)%nat -> (forall j x, ws !! j = Some x -> (k <= j)%nat -> x = 0) ->
  full (placed s (<[k := w]> ws)) = full (placed s ws) ++ full [(s + 64 * Z.of_nat k, w)].
Proof.
  revert s k. induction ws as [|x ws IH]; intros s k Hk H; [cbn in Hk; lia|]. destruct k as [|k].
  - rewrite (placed_zero s (x :: ws)) by (intros j y Hj; apply (H j); [done|lia]). change (<[0%nat := w]> (x :: ws)) with (w :: ws). rewrite placed_cons.
    change ((s, w) :: placed (s + 64) ws) with ([(s, w)] ++ placed (s + 64) ws). rewrite full_app, (placed_zero (s + 64) ws).
    2: { intros j y Hj. apply (H (S j)); [done|lia]. }
    rewrite app_nil_r. cbn [app]. do 3 f_equal. lia.
  - change (<[S k := w]> (x :: ws)) with (x :: <[k := w]> ws). rewrite !placed_cons.
    change ((s, x) :: placed (s + 64) (<[k:=w]> ws)) with ([(s, x)] ++ placed (s + 64) (<[k:=w]> ws)).
    change ((s, x) :: placed (s + 64) ws) with ([(s, x)] ++ placed (s + 64) ws). rewrite !full_app, IH, <- app_assoc; [|cbn in Hk; lia|].
    + do 2 f_equal. do 3 f_equal. lia.
    + intros j y Hj Hkj. apply (H (S j)); [done|lia].
Qed.

Lemma new_catmap_wf bit : 0 <= bit < 2 ^ 32 ->
  cat_wf (new_catmap bit) /\ cm_startbit (new_catmap bit) <= bit < cm_startbit (new_catmap bit) + 256 /\
  full (placed (cm_startbit (new_catmap bit)) (cm_bitmap (new_catmap bit))) = [].
Proof.
  intros H. assert (cm_startbit (new_catmap bit) = bit - bit mod 256) as E.
  { unfold new_catmap. cbn [cm_startbit]. change (NETLBL_CATMAP_SIZE - 1) with (Z.ones 8). rewrite land_not32, Z.ldiff_ones_r by lia.
    rewrite Z.shiftl_mul_pow2, Z.shiftr_div_pow2 by lia. change (2 ^ 8) with 256. pose proof (Z.div_mod bit 256 ltac:(lia)). lia. }
  pose proof (Z.mod_pos_bound bit 256 ltac:(lia)). pose proof (Z.div_mod bit 256 ltac:(lia)).
  split; [|split; [rewrite E; lia|by vm_compute]]. split; [done| |rewrite E; lia].
  rewrite E. replace (bit - bit mod 256) with (bit `div` 256 * 256) by lia. by apply Z.mod_mul.
Qed.

(** A word stored behind the others. *)
Lemma catmap_or_spec c pos w :
  cat_wf c -> cm_startbit c <= pos < cm_startbit c + 256 -> pos mod 64 = 0 -> in_u 64 w -> empty_from pos c ->
  exists c', catmap_or c pos w = Some c' /\ cat_wf c' /\ cm_startbit c' = cm_startbit c /\ empty_from (pos + 64) c' /\
    full (placed (cm_startbit c') (cm_bitmap c')) = full (placed (cm_startbit c) (cm_bitmap c)) ++ full [(pos, w)].
Proof.
  intros [Hlen Hal Hr] Hpos Hm Hw He. set (s := cm_startbit c) in *. assert (exists k, pos = s + 64 * k /\ 0 <= k < 4) as (k & -> & Hk).
  { exists ((pos - s) `div` 64). assert ((pos - s) mod 64 = 0). { rewrite Zminus_mod, Hm. replace (s mod 64) with 0; [done|].
      rewrite (Z.div_mod s 256), Hal by lia. replace (256 * (s `div` 256) + 0) with (4 * (s `div` 256) * 64) by lia. by rewrite Z.mod_mul. }
    pose proof (Z.div_mod (pos - s) 64 ltac:(lia)). lia. }
  unfold catmap_or. fold s. replace (s + 64 * k - s) with (64 * k) by lia. rewrite u32_small by lia.
  change NETLBL_CATMAP_MAPSIZE with 64. rewrite (Z.mul_comm 64 k), Z.div_mul, Z.mod_mul by lia. rewrite Z.shiftl_0_r, u64_small by done.
  unfold empty_from in He. fold s in He. destruct (lookup_lt_is_Some_2 (cm_bitmap c) (Z.to_nat k)) as [x Hx]; [rewrite Hlen; lia|].
  rewrite (bind_step _ _ _ Hx). rewrite (He _ _ Hx) by lia. rewrite Z.lor_0_l. eexists. split; [done|]. cbn [cm_startbit cm_bitmap]. fold s.
  split; [split; [cbn; by rewrite length_insert|done|done]|]. split; [done|]. split.
  - intros j y. cbn [cm_startbit cm_bitmap]. intros Hj Hpj. apply list_lookup_insert_Some in Hj as [(<- & _ & _)|[_ Hj]]; [lia|]. apply (He _ _ Hj). lia.
  - rewrite placed_insert; [|rewrite Hlen; lia|]; [do 3 f_equal; f_equal; lia|]. intros j y Hj Hkj. apply (He _ _ Hj). lia.
Qed.

(** [done] and [c] hold the words [ws], all of them before [pos]. *)
Record exported (pos : Z) (ws : list (Z * Z)) (done : catmap) (c : catmap_node) : Prop := mk_exported {
  xp_wf : Forall cat_wf (done ++ [c]);
  xp_words : full (cat_words (done ++ [c])) = full ws;
  xp_start : cm_startbit c <= pos;
  xp_rest : empty_from pos c
}.

Lemma cat_words_last done c : full (cat_words (done ++ [c])) = full (cat_words done) ++ full (placed (cm_startbit c) (cm_bitmap c)).
Proof. rewrite cat_words_app, full_app. do 2 f_equal. unfold cat_words. cbn. apply app_nil_r. Qed.

Lemma empty_from_later pos pos' c : pos <= pos' -> empty_from pos c -> empty_from pos' c.
Proof. intros Hp H j w Hj Hw. apply (H j w Hj). lia. Qed.

Lemma export_maps_spec start i maps done c m pos ws :
  exported pos ws done c -> pos <= start + 64 * i -> (start + 64 * i) mod 64 = 0 -> 0 <= start + 64 * i ->
  start + 64 * (i + Z.of_nat (length maps)) <= 2 ^ 32 -> Forall (in_u 64) maps ->
  exists ok done' c' m', export_maps start i maps done c m = Some (ok, done', c', m') /\
    (ok = true -> exported (start + 64 * (i + Z.of_nat (length maps))) (ws ++ placed (start + 64 * i) maps) done' c').
Proof.
  revert i done c m pos ws. induction maps as [|w maps IH]; intros i done c m pos ws Hx Hp Hal H0 Hb Hw; cbn [export_maps length] in *.
  { do 4 eexists. split; [done|]. intros _. cbn. rewrite app_nil_r. destruct Hx as [H1 H2 H3 H4]. split; [done|done|lia|]. eapply empty_from_later; [|done]. lia. }
  apply Forall_cons in Hw as [Hw Hws]. unfold EBITMAP_UNIT_SIZE, BITS_PER_LONG. replace (start + i * 64) with (start + 64 * i) by lia.
  set (e := start + 64 * i) in *. rewrite (u32_small e) by lia.
  assert (forall done1 c1 m1, Forall cat_wf (done1 ++ [c1]) -> full (cat_words (done1 ++ [c1])) = full ws -> cm_startbit c1 <= e < cm_startbit c1 + 256 -> empty_from e c1 ->
    exists ok done' c' m', (c' ← catmap_or c1 e w; export_maps start (i + 1) maps done1 c' m1) = Some (ok, done', c', m') /\
    (ok = true -> exported (start + 64 * (i + Z.of_nat (S (length maps)))) (ws ++ placed e (w :: maps)) done' c')) as Hstep.
  { intros done1 c1 m1 Hf Hws1 He Hemp. apply Forall_app in Hf as [Hf1 Hf2]. apply Forall_cons in Hf2 as [Hf2 _].
    destruct (catmap_or_spec c1 e w Hf2 He Hal Hw Hemp) as (c2 & E2 & Hwf2 & Hst2 & Hemp2 & Hfull2). rewrite (bind_step _ _ _ E2).
    destruct (IH (i + 1) done1 c2 m1 (e + 64) (ws ++ [(e, w)])) as (ok & d' & c' & m' & E & Hok).
    - split; [apply Forall_app; split; [done|by apply Forall_singleton]| |rewrite Hst2; lia|done].
      rewrite cat_words_last in Hws1 |- *. by rewrite Hfull2, full_app, app_assoc, Hws1.
    - lia.
    - replace (start + 64 * (i + 1)) with (e + 1 * 64) by lia. by rewrite Z.mod_add.
    - lia.
    - lia.
    - done.
    - exists ok, d', c', m'. split; [done|]. intros Ht. specialize (Hok Ht). rewrite placed_cons. replace (e + 64) with (start + 64 * (i + 1)) by lia.
      rewrite <- app_assoc in Hok. replace (i + Z.of_nat (S (length maps))) with (i + 1 + Z.of_nat (length maps)) by lia. exact Hok. }
  destruct Hx as [H1 H2 H3 H4]. pose proof H1 as Hcw. apply Forall_app in Hcw as [_ Hcw]. apply Forall_cons in Hcw as [Hcw _].
  unfold NETLBL_CATMAP_SIZE, NETLBL_CATMAP_MAPSIZE, NETLBL_CATMAP_MAPCNT. change (8 * 8 * 4) with 256.
  destruct (Z.leb_spec (u32 (cm_startbit c + 256)) e) as [Hnew|Hold].
  - destruct (kalloc m) as [[] m1]; cbn [negb]; [|by do 4 eexists]. destruct (new_catmap_wf e ltac:(lia)) as (Hnw & Hns & Hnf). apply Hstep.
    + apply Forall_app. split; [done|by apply Forall_singleton].
    + by rewrite cat_words_last, Hnf, app_nil_r.
    + done.
    + intros j x Hj _. cbn in Hj. by apply lookup_replicate in Hj as [-> _].
  - apply Hstep; [done|done| |by eapply empty_from_later; [|done]]. destruct Hcw as [_ _ Hr].
    destruct (decide (cm_startbit c + 256 < 2 ^ 32)); [rewrite u32_small in Hold; lia|lia].
Qed.

Lemma node_aligned n : node_wf n -> en_startbit n mod 64 = 0.
Proof.
  intros (_ & _ & Hal & _). rewrite EBITMAP_SIZE_val in Hal. rewrite (Z.div_mod (en_startbit n) 128), Hal by lia.
  replace (128 * (en_startbit n `div` 128) + 0) with (2 * (en_startbit n `div` 128) * 64) by lia. by rewrite Z.mod_mul.
Qed.

Lemma export_nodes_spec ns done c m pos ws :
  exported pos ws done c -> Forall node_wf ns -> StronglySorted node_lt ns -> Forall (fun n => pos <= en_startbit n) ns ->
  exists ok done' c' m', export_nodes ns done c m = Some (ok, done', c', m') /\
    (ok = true -> exists pos', exported pos' (ws ++ node_words ns) done' c').
Proof.
  intros Hx Hf Hs. revert done c m pos ws Hx. induction Hs as [|n ns _ IH Hlt]; intros done c m pos ws Hx Hp; cbn [export_nodes].
  { do 4 eexists. split; [done|]. intros _. exists pos. unfold node_words. cbn. by rewrite app_nil_r. }
  apply Forall_cons in Hf as [Hn Hf], Hp as [Hpn _]. pose proof Hn as (Hl & Hm & Hal & H0 & Hb). rewrite EBITMAP_SIZE_val in Hb.
  destruct (export_maps_spec (en_startbit n) 0 (en_maps n) done c m pos ws) as (ok & d & c1 & m1 & E & Hok);
    [done|lia|rewrite Z.mul_0_r, Z.add_0_r; by apply node_aligned|lia|rewrite Hl; lia|done|]. rewrite (bind_step _ _ _ E).
  destruct ok; cbn [negb]; [|by do 4 eexists]. specialize (Hok eq_refl). rewrite Z.mul_0_r, Z.add_0_r, Hl in Hok.
  destruct (IH Hf d c1 m1 _ _ Hok) as (ok & d2 & c2 & m2 & E2 & Hok2).
  { rewrite Forall_forall in Hlt, Hf |- *. intros n' Hin. pose proof (Hlt n' Hin) as Hl'. pose proof (Hf n' Hin) as (_ & _ & Hal' & _).
    pose proof (aligned_lt (en_startbit n) (en_startbit n') Hal Hal' Hl'). eblia. }
  do 4 eexists. split; [exact E2|]. intros Ht. destruct (Hok2 Ht) as [pos' Hx']. exists pos'. unfold node_words. cbn. by rewrite app_assoc.
Qed.

Lemma kalloc_nil : kalloc [] = (true, []).
Proof. done. Qed.

(** Enough memory is enough. *)
Lemma export_maps_mem start i maps done c r : export_maps start i maps done c [] = Some r -> r.1.1.1 = true /\ r.2 = [].
Proof.
  revert i done c. induction maps as [|w maps IH]; intros i done c; cbn [export_maps]; [by intros [= <-]|].
  destruct (_ <=? _); [rewrite kalloc_nil; cbn [negb]|]; intros (c' & _ & H)%bind_Some; by eapply IH.
Qed.

Lemma export_nodes_mem ns done c r : export_nodes ns done c [] = Some r -> r.1.1.1 = true /\ r.2 = [].
Proof.
  revert done c. induction ns as [|n ns IH]; intros done c; cbn [export_nodes]; [by intros [= <-]|].
  intros ([[[ok d] c1] m1] & E & H)%bind_Some. apply export_maps_mem in E as [E1 E2]. cbn in E1, E2. subst. cbn [negb] in H. by eapply IH.
Qed.

Lemma export_spec e old m :
  ebitmap_wf e ->
  exists rc cat m', ebitmap_netlbl_export e old m = Some (rc, cat, m') /\ (m = [] -> rc = 0 /\ m' = []) /\
    (rc = - ENOMEM \/ (rc = 0 /\ cat = Null /\ eb_node e = []) \/
     rc = 0 /\ exists c l, cat = Ptr (c :: l) /\ Forall cat_wf (c :: l) /\ full (cat_words (c :: l)) = full (node_words (eb_node e))).
Proof.
  intros [Hf Hs _ _]. unfold ebitmap_netlbl_export. destruct (eb_node e) as [|n ns] eqn:En.
  { do 3 eexists. split; [done|]. split; [done|]. right. by left. }
  destruct (kalloc m) as [ok m1] eqn:Ek. assert (m = [] -> ok = true /\ m1 = []) as Hm by (intros ->; by injection Ek as <- <-).
  destruct ok; cbn [negb]; [|do 3 eexists; split; [done|]; split; [by intros H; destruct (Hm H)|by left]].
  pose proof Hf as Hf'. apply Forall_cons in Hf' as [(_ & _ & _ & H0 & Hb) Hf']. rewrite EBITMAP_SIZE_val in Hb.
  destruct (new_catmap_wf (en_startbit n) ltac:(lia)) as (Hnw & Hns & Hnf).
  destruct (export_nodes_spec (n :: ns) [] (new_catmap (en_startbit n)) m1 (en_startbit n) []) as (ok & d & c & m2 & E & Hok).
  - split; [by apply Forall_singleton| |lia|intros j x Hj _; cbn in Hj; by apply lookup_replicate in Hj as [-> _]].
    change ([] ++ [new_catmap (en_startbit n)]) with ([] ++ [new_catmap (en_startbit n)]). by rewrite cat_words_last, Hnf.
  - done.
  - done.
  - apply Forall_cons. split; [lia|]. apply StronglySorted_inv in Hs as [_ Hlt]. eapply Forall_impl; [exact Hlt|]. intros x. unfold node_lt. lia.
  - rewrite (bind_step _ _ _ E). assert (m = [] -> ok = true /\ m2 = []) as Hm2.
    { intros ->. destruct (Hm eq_refl) as [_ ->]. by apply export_nodes_mem in E. }
    destruct ok; cbn [negb]; do 3 eexists; (split; [done|]); [|split; [by intros H; destruct (Hm2 H)|by left]].
    split; [intros H; by destruct (Hm2 H)|]. right. right. split; [done|]. destruct (Hok eq_refl) as (pos' & [X1 X2 _ _]).
    destruct d as [|c0 d]; [exists c, []|exists c0, (d ++ [c])]; by split_and!.
Qed.

(** ** Import *)

Definition all_nodes (done : list ebitmap_node) (cur : option ebitmap_node) : list ebitmap_node :=
  match cur with Some e => done ++ [e] | None => done end.

(** The nodes hold the words [ws]. *)
Record imported (ws : list (Z * Z)) (done : list ebitmap_node) (cur : option ebitmap_node) : Prop := mk_imported {
  im_wf : Forall node_wf (all_nodes done cur);
  im_sorted : StronglySorted node_lt (all_nodes done cur);
  im_nonempty : Forall node_nonempty (all_nodes done cur);
  im_bits : forall b, nodes_bit (all_nodes done cur) b = words_bit ws b;
  im_cur : match cur with Some e => exists x, x ∈ ws /\ en_startbit e <= x.1 | None => done = [] end
}.

Lemma or_map_word map idx w maps : in_u 64 map -> map <> 0 -> maps !! Z.to_nat idx = Some w ->
  or_map 2 map idx maps = Some (<[Z.to_nat idx := w .| map]> maps).
Proof.
  intros Hm Hnz Hi. unfold in_u in Hm. cbn [or_map]. unfold nz at 1. rewrite (proj2 (Z.eqb_neq map 0)) by lia. cbn [negb]. rewrite (bind_step _ _ _ Hi).
  assert (EBITMAP_SHIFT_UNIT_SIZE map = 0) as ->.
  { unfold EBITMAP_SHIFT_UNIT_SIZE. change (EBITMAP_UNIT_SIZE `div` 2) with 32. rewrite !Z.shiftr_div_pow2, Z.div_div by lia. apply Z.div_small. lia. }
  cbn [nz Z.eqb negb]. by rewrite Z.land_ones, Z.mod_small by lia.
Qed.

Lemma at_bit_or b p v w : at_bit b (p, v .| w) = at_bit b (p, v) || at_bit b (p, w).
Proof. unfold at_bit. cbn [fst snd]. rewrite Z.lor_spec. by destruct ((p <=? b) && (b <? p + 64)). Qed.

Lemma at_bit_some p w : in_u 64 w -> w <> 0 -> exists b, at_bit b (p, w) = true.
Proof.
  intros Hw Hnz. destruct (ffs_nonzero w ltac:(unfold in_u in Hw; lia)) as [Hr Ht]. exists (p + __ffs w). unfold at_bit. cbn [fst snd].
  replace (p + __ffs w - p) with (__ffs w) by lia. rewrite Ht, (proj2 (Z.leb_le _ _)), (proj2 (Z.ltb_lt _ _)) by lia. done.
Qed.

(** A word stored in a node. *)
Lemma node_or n pos map :
  node_wf n -> en_startbit n <= pos < en_startbit n + EBITMAP_SIZE -> pos mod 64 = 0 -> in_u 64 map -> map <> 0 ->
  exists maps, or_map 2 map (u32 (pos - en_startbit n) `div` EBITMAP_UNIT_SIZE) (en_maps n) = Some maps /\
    let n' := mk_ebitmap_node maps (en_startbit n) in
    node_wf n' /\ node_nonempty n' /\ forall b, node_bit n' b = node_bit n b || at_bit b (pos, map).
Proof.
  intros (Hl & Hw & Hal & H0 & Hb) Hpos Hm Hmap Hnz. pose proof (node_aligned n ltac:(done)) as Ha64. rewrite EBITMAP_SIZE_val in *.
  set (s := en_startbit n) in *. assert (exists k, pos = s + 64 * k /\ (k = 0 \/ k = 1)) as (k & -> & Hk).
  { exists ((pos - s) `div` 64). assert ((pos - s) mod 64 = 0) by by rewrite Zminus_mod, Hm, Ha64.
    pose proof (Z.div_mod (pos - s) 64 ltac:(lia)). lia. }
  replace (s + 64 * k - s) with (k * 64) by lia. rewrite u32_small by lia. change EBITMAP_UNIT_SIZE with 64. rewrite Z.div_mul by lia.
  destruct n as [[|a [|c [|]]] s']; try done. cbn [en_maps en_startbit] in *. subst s.
  apply Forall_cons in Hw as [Ha Hc]. apply Forall_cons in Hc as [Hc _].
  assert (exists maps, or_map 2 map k [a; c] = Some maps /\ length maps = 2%nat /\ Forall (in_u 64) maps /\
    forall b, words_bit (placed s' maps) b = words_bit (placed s' [a; c]) b || at_bit b (s' + 64 * k, map)) as (maps & Em & Hlen & Hf & Hbits).
  { destruct Hk as [-> | ->]; [exists [a .| map; c]; split; [exact (or_map_word map 0 a [a; c] Hmap Hnz eq_refl)|]|
      exists [a; c .| map]; split; [exact (or_map_word map 1 c [a; c] Hmap Hnz eq_refl)|]];
      (split; [done|]); (split; [apply Forall_cons; split; [|apply Forall_singleton]; by try apply lor_range|]); intros b;
      rewrite !placed_cons; unfold words_bit, placed; cbn [imap existsb]; rewrite at_bit_or, ?Z.mul_0_r, ?Z.add_0_r, ?Z.mul_1_r, !orb_false_r.
    - by destruct (at_bit b (s', a)), (at_bit b (s', map)), (at_bit b (s' + 64, c)).
    - by rewrite orb_assoc. }
  exists maps. split; [done|]. cbn zeta. assert (node_wf (mk_ebitmap_node maps s')) as Hwf by (unfold node_wf; by rewrite EBITMAP_SIZE_val).
  assert (forall b, node_bit (mk_ebitmap_node maps s') b = node_bit (mk_ebitmap_node [a; c] s') b || at_bit b (s' + 64 * k, map)) as Hnb.
  { intros b. rewrite <- (node_words_bit _ b Hwf), <- (node_words_bit (mk_ebitmap_node [a; c] s')); [apply Hbits|].
    unfold node_wf. rewrite EBITMAP_SIZE_val. cbn [en_maps en_startbit]. split_and!; try done. apply Forall_cons; split; [done|by apply Forall_singleton]. }
  split; [done|]. split; [|done]. destruct (at_bit_some (s' + 64 * k) map Hmap Hnz) as [b Hbt]. exists b. by rewrite Hnb, Hbt, orb_true_r.
Qed.

Lemma nodes_bit_snoc ns n b : nodes_bit (ns ++ [n]) b = nodes_bit ns b || node_bit n b.
Proof. unfold nodes_bit. rewrite existsb_app. cbn [existsb]. by rewrite orb_false_r. Qed.

Lemma im_last ws done e x : imported ws done (Some e) -> Forall (fun y => y.1 < x) ws -> en_startbit e < x.
Proof. intros [_ _ _ _ (y & Hy & He)] Hx. rewrite Forall_forall in Hx. specialize (Hx y Hy). lia. Qed.

Lemma import_map_spec ws pos map done cur m :
  imported ws done cur -> Forall (fun y => y.1 < pos) ws -> 0 <= pos -> pos + EBITMAP_SIZE < 2 ^ 32 -> pos mod 64 = 0 -> in_u 64 map -> map <> 0 ->
  exists ok done' cur' m', import_map pos map done cur m = Some (ok, done', cur', m') /\ (m = [] -> ok = true /\ m' = []) /\
    (ok = true -> imported (ws ++ [(pos, map)]) done' cur').
Proof.
  intros Him Hlt H0 Hb Hm Hmap Hnz. destruct (round_down_bit pos H0) as (Hal & Hr0 & Hr).
  assert (node_wf (mk_ebitmap_node (repeat 0 (Z.to_nat EBITMAP_UNIT_NUMS)) (pos - pos mod EBITMAP_SIZE))) as Hnew.
  { apply empty_node_wf; [done|done|eblia]. }
  assert (forall done1 e (m1 : kmem), Forall node_wf (done1 ++ [e]) -> StronglySorted node_lt (done1 ++ [e]) -> Forall node_nonempty done1 ->
    (forall b, nodes_bit (done1 ++ [e]) b = words_bit ws b) -> en_startbit e <= pos < en_startbit e + EBITMAP_SIZE ->
    exists done' cur' m', (maps ← or_map 2 map (u32 (pos - en_startbit e) `div` EBITMAP_UNIT_SIZE) (en_maps e);
      Some (true, done1, Some (mk_ebitmap_node maps (en_startbit e)), m1)) = Some (true, done', cur', m') /\ m' = m1 /\
      imported (ws ++ [(pos, map)]) done' cur') as Hstep.
  { intros done1 e m1 Hf Hs Hne Hbits He. apply Forall_app in Hf as [Hf1 Hf2]. apply Forall_cons in Hf2 as [Hf2 _].
    destruct (node_or e pos map Hf2 He Hm Hmap Hnz) as (maps & E & Hwf & Hn & Hnb). rewrite (bind_step _ _ _ E). do 3 eexists. split; [done|]. split; [done|].
    split; cbn [all_nodes].
    - apply Forall_app. split; [done|by apply Forall_singleton].
    - apply StronglySorted_app in Hs as (Hs1 & Hs2 & Hs3). apply StronglySorted_app. split; [|split; [done|by repeat constructor]].
      intros x y Hx Hy%list_elem_of_singleton. subst y. apply (Hs1 x e Hx). by apply list_elem_of_singleton.
    - apply Forall_app. split; [done|by apply Forall_singleton].
    - intros b. rewrite words_bit_app, <- Hbits, !nodes_bit_snoc, Hnb. unfold words_bit. cbn [existsb]. by rewrite orb_false_r, orb_assoc.
    - exists (pos, map). split; [apply elem_of_app; right; by apply list_elem_of_singleton|cbn; lia]. }
  destruct Him as [Hf Hs Hne Hbits Hcur] eqn:Ei. clear Ei. unfold import_map. destruct cur as [e|].
  - pose proof (im_last _ _ _ _ (mk_imported _ _ _ Hf Hs Hne Hbits Hcur) Hlt) as He. cbn [all_nodes] in *.
    destruct (Z.leb_spec (en_startbit e + EBITMAP_SIZE) pos) as [Hfresh|Hsame]; cbv zeta iota.
    + destruct (kalloc m) as [ok m1] eqn:Ek. assert (m = [] -> ok = true /\ m1 = []) as Hmem by (intros ->; by injection Ek as <- <-).
      destruct ok; cbn [negb]; [|do 4 eexists; split; [done|]; split; [done|done]].
      destruct (Hstep (done ++ [e]) (mk_ebitmap_node (repeat 0 (Z.to_nat EBITMAP_UNIT_NUMS)) (pos - pos mod EBITMAP_SIZE)) m1) as (d' & c' & m' & E & -> & Hi).
      * apply Forall_app. split; [done|by apply Forall_singleton].
      * apply StronglySorted_app. split; [|split; [done|by repeat constructor]]. intros x y Hx Hy%list_elem_of_singleton. subst y. unfold node_lt. cbn [en_startbit].
        apply elem_of_app in Hx as [Hx|Hx%list_elem_of_singleton].
        -- apply StronglySorted_app in Hs as (Hs1 & _). specialize (Hs1 x e Hx ltac:(by apply list_elem_of_singleton)). unfold node_lt in Hs1. lia.
        -- subst x. lia.
      * done.
      * intros b. rewrite nodes_bit_snoc, Hbits, (empty_node_bit (pos - pos mod EBITMAP_SIZE) b). by rewrite orb_false_r.
      * cbn [en_startbit]. lia.
      * exists true, d', c', m1. split; [exact E|]. split; [done|done].
    + cbn [negb]. apply Forall_app in Hne as [Hne1 _]. destruct (Hstep done e m Hf Hs Hne1 Hbits ltac:(lia)) as (d' & c' & m' & E & -> & Hi).
      exists true, d', c', m. split; [exact E|]. split; [done|done].
  - subst done. cbv zeta iota. destruct (kalloc m) as [ok m1] eqn:Ek. assert (m = [] -> ok = true /\ m1 = []) as Hmem by (intros ->; by injection Ek as <- <-).
    destruct ok; cbn [negb]; [|do 4 eexists; split; [done|]; split; [done|done]].
    destruct (Hstep [] (mk_ebitmap_node (repeat 0 (Z.to_nat EBITMAP_UNIT_NUMS)) (pos - pos mod EBITMAP_SIZE)) m1) as (d' & c' & m' & E & -> & Hi).
    + by apply Forall_singleton.
    + by repeat constructor.
    + done.
    + intros b. rewrite <- Hbits, nodes_bit_snoc. exact (empty_node_bit (pos - pos mod EBITMAP_SIZE) b).
    + cbn [en_startbit]. lia.
    + exists true, d', c', m1. split; [exact E|]. split; [done|done].
Qed.

Definition word_ok (x : Z * Z) : Prop := 0 <= x.1 /\ x.1 + EBITMAP_SIZE < 2 ^ 32 /\ x.1 mod 64 = 0 /\ in_u 64 x.2.
Definition word_lt (x y : Z * Z) : Prop := x.1 < y.1.

(** Words in order, as a list of category maps has them. *)
Record words_ok (ws : list (Z * Z)) : Prop := mk_words_ok {
  wo_words : Forall word_ok ws;
  wo_sorted : StronglySorted word_lt ws
}.

Lemma import_maps_spec start c_idx bitmap ws rest done cur m :
  imported ws done cur -> words_ok (ws ++ full (placed (start + 64 * c_idx) bitmap) ++ rest) ->
  exists ok done' cur' m', import_maps start c_idx bitmap done cur m = Some (ok, done', cur', m') /\ (m = [] -> ok = true /\ m' = []) /\
    (ok = true -> imported (ws ++ full (placed (start + 64 * c_idx) bitmap)) done' cur').
Proof.
  revert c_idx ws done cur m. induction bitmap as [|w bitmap IH]; intros c_idx ws done cur m Him Hok; cbn [import_maps].
  { do 4 eexists. split; [done|]. split; [done|]. intros _. cbn. by rewrite app_nil_r. }
  rewrite placed_cons in *. replace (start + 64 * c_idx + 64) with (start + 64 * (c_idx + 1)) in * by lia.
  set (p := start + 64 * c_idx) in *. unfold full in *. rewrite filter_cons in *. cbn [snd] in *. unfold nz.
  destruct (Z.eqb_spec w 0) as [->|Hw]; cbn [negb]; [rewrite decide_False in * by (intros H; by apply H); by apply IH|].
  rewrite decide_True in * by done. cbn [app] in Hok. pose proof Hok as [Hf Hs].
  apply Forall_app in Hf as [_ Hf]. apply Forall_cons in Hf as [(H1 & H2 & H3 & H4) _]. cbn [fst snd] in *.
  replace (start + c_idx * NETLBL_CATMAP_MAPSIZE) with p by (unfold NETLBL_CATMAP_MAPSIZE; lia). rewrite u32_small by eblia.
  destruct (import_map_spec ws p w done cur m Him) as (ok & d & c & m1 & E & Hmem & Hi); try done.
  { apply StronglySorted_app in Hs as (Hs & _). apply Forall_forall. intros y Hy. apply (Hs y (p, w) Hy). apply list_elem_of_here. }
  rewrite (bind_step _ _ _ E). destruct ok; cbn [negb]; [|do 4 eexists; split; [done|]; split; [by intros H; destruct (Hmem H)|done]].
  destruct (IH (c_idx + 1) (ws ++ [(p, w)]) d c m1 (Hi eq_refl)) as (ok & d' & c' & m' & E' & Hmem' & Hi').
  { by rewrite <- app_assoc. }
  do 4 eexists. split; [exact E'|]. split; [intros H; destruct (Hmem H) as [_ ->]; by apply Hmem'|]. intros Ht. specialize (Hi' Ht). by rewrite <- app_assoc in Hi'.
Qed.

Lemma import_nodes_spec l ws done cur m :
  imported ws done cur -> words_ok (ws ++ full (cat_words l)) ->
  exists ok done' cur' m', import_nodes l done cur m = Some (ok, done', cur', m') /\ (m = [] -> ok = true /\ m' = []) /\
    (ok = true -> imported (ws ++ full (cat_words l)) done' cur').
Proof.
  revert ws done cur m. induction l as [|c l IH]; intros ws done cur m Him Hok; cbn [import_nodes].
  { do 4 eexists. split; [done|]. split; [done|]. intros _. unfold cat_words, full in *. cbn in *. by rewrite app_nil_r. }
  change (cat_words (c :: l)) with (placed (cm_startbit c) (cm_bitmap c) ++ cat_words l) in *. rewrite full_app in *.
  pose proof (import_maps_spec (cm_startbit c) 0 (cm_bitmap c) ws (full (cat_words l)) done cur m Him) as Hone.
  rewrite Z.mul_0_r, Z.add_0_r in Hone. destruct (Hone Hok) as (ok & d & c1 & m1 & E & Hmem & Hi). clear Hone.
  rewrite (bind_step _ _ _ E). destruct ok; cbn [negb]; [|do 4 eexists; split; [done|]; split; [by intros H; destruct (Hmem H)|done]].
  destruct (IH _ d c1 m1 (Hi eq_refl)) as (ok & d' & c' & m' & E' & Hmem' & Hi'); [by rewrite <- app_assoc|].
  do 4 eexists. split; [exact E'|]. split; [intros H; destruct (Hmem H) as [_ ->]; by apply Hmem'|]. intros Ht. specialize (Hi' Ht). by rewrite <- app_assoc in Hi'.
Qed.

Lemma imported_nil : imported [] [] None.
Proof. split; [done|constructor|done|done|done]. Qed.

(** The bitmap that was imported has the bits of the words, and only nodes
    that are needed. *)
Lemma import_spec c l m :
  words_ok (full (cat_words (c :: l))) ->
  exists rc e m', ebitmap_netlbl_import (Ptr (c :: l)) m = Some (rc, e, m') /\ (m = [] -> rc = 0 /\ m' = []) /\
    (rc = - ENOMEM /\ e = ebitmap_init \/ rc = 0 /\ ebitmap_canon e /\ forall b, ebit e b = words_bit (cat_words (c :: l)) b).
Proof.
  intros Hok. destruct (import_nodes_spec (c :: l) [] [] None m imported_nil Hok) as (ok & d & cur & m' & E & Hmem & Hi).
  unfold ebitmap_netlbl_import. rewrite (bind_step _ _ _ E). destruct ok; cbn [negb].
  2: { do 3 eexists. split; [done|]. split; [by intros H; destruct (Hmem H)|by left]. }
  specialize (Hi eq_refl). cbn [app] in Hi. destruct Hi as [Hf Hs Hne Hbits Hcur]. destruct cur as [e|].
  - do 3 eexists. split; [done|]. split; [intros H; by destruct (Hmem H)|]. right. split; [done|]. cbn [all_nodes] in *.
    assert (0 <= en_startbit e /\ en_startbit e + EBITMAP_SIZE < 2 ^ 32) as [He1 He2].
    { apply Forall_app in Hf as [_ Hf]. apply Forall_cons in Hf as [(_ & _ & _ & ? & ?) _]. done. }
    rewrite u32_small by eblia. split; [|intros b; unfold ebit; cbn [eb_node]; rewrite Hbits; apply words_bit_full].
    split; [split; cbn; [done|done| |eblia]|done|]; cbn.
    + apply StronglySorted_app in Hs as (Hs1 & _ & _). apply Forall_app. split; [|apply Forall_singleton; eblia]. apply Forall_forall. intros x Hx.
      specialize (Hs1 x e Hx ltac:(by apply list_elem_of_singleton)). eblia.
    + unfold nodes_top. by rewrite last_snoc.
  - do 3 eexists. split; [done|]. split; [intros H; by destruct (Hmem H)|]. right. split; [done|]. split; [exact ebitmap_init_canon|].
    intros b. rewrite ebit_init, <- words_bit_full, <- Hbits. cbn. by rewrite Hcur.
Qed.

(** The words of a well-formed bitmap are in order. *)
Lemma node_placed n x : node_wf n -> x ∈ placed (en_startbit n) (en_maps n) ->
  word_ok x /\ en_startbit n <= x.1 < en_startbit n + EBITMAP_SIZE.
Proof.
  intros Hn Hx. pose proof (node_aligned n Hn) as Ha. destruct Hn as (Hl & Hw & H128 & H0 & Hb). destruct (en_maps n) as [|a [|b [|]]]; try done.
  pose proof (Z.div_mod (en_startbit n) EBITMAP_SIZE ltac:(done)) as Hdm. apply Forall_cons in Hw as [Hwa Hw]. apply Forall_cons in Hw as [Hwb _]. rewrite !placed_cons in Hx. unfold word_ok. rewrite EBITMAP_SIZE_val in *.
  apply elem_of_cons in Hx as [->|Hx]; [|apply elem_of_cons in Hx as [->|Hx]; [|by apply elem_of_nil in Hx]]; cbn [fst snd].
  - split; [split_and!; try done; lia|lia].
  - split; [|lia]. split_and!; try done; try lia.
    replace (en_startbit n + 64) with (en_startbit n + 1 * 64) by lia. by rewrite Z.mod_add by lia.
Qed.

Lemma node_words_ok ns : Forall node_wf ns -> StronglySorted node_lt ns -> words_ok (node_words ns).
Proof.
  intros Hf Hs. induction Hs as [|n ns _ IH Hlt]; [split; constructor|]. apply Forall_cons in Hf as [Hn Hf]. destruct (IH Hf) as [H1 H2].
  change (node_words (n :: ns)) with (placed (en_startbit n) (en_maps n) ++ node_words ns). split.
  - apply Forall_app. split; [|done]. apply Forall_forall. intros x Hx. by apply (node_placed n x Hn).
  - apply StronglySorted_app. split; [|split; [|done]].
    + intros x y Hx Hy. apply (node_placed n x Hn) in Hx as [_ Hx]. unfold node_words in Hy. apply list_elem_of_In, in_concat in Hy as (ws & Hws & Hy).
      apply list_elem_of_In, list_elem_of_fmap in Hws as (n' & -> & Hn'). apply list_elem_of_In in Hy. rewrite Forall_forall in Hf, Hlt.
      pose proof (Hf n' Hn') as Hwf. pose proof (Hlt n' Hn') as Hl. apply (node_placed n' y Hwf) in Hy as [_ Hy]. unfold word_lt.
      destruct Hn as (_ & _ & Ha & _), Hwf as (_ & _ & Ha' & _). pose proof (aligned_lt _ _ Ha Ha' Hl). lia.
    + destruct Hn as (Hl & _). destruct (en_maps n) as [|a [|b [|]]]; try done. rewrite !placed_cons. repeat constructor. unfold word_lt. cbn. lia.
Qed.

Lemma full_ok ws : words_ok ws -> words_ok (full ws).
Proof.
  assert (forall P l, Forall P l -> Forall P (full l)) as Hsub.
  { intros P l H. rewrite Forall_forall in *. intros x Hx. apply H. unfold full in Hx. by apply list_elem_of_filter in Hx as [_ Hx]. }
  intros [H1 H2]. split; [by apply Hsub|]. clear H1. induction H2 as [|x ws _ IH Hlt]; [constructor|].
  unfold full in *. rewrite filter_cons. case_decide; [|done]. constructor; [done|by apply Hsub].
Qed.

(** ** Properties *)

(** Categories survive the translation to NetLabel and back.  With enough
    memory the categories of a level are exported, and importing them gives
    the same bitmap; an empty bitmap becomes the null pointer.  When memory is
    short either function fails with ENOMEM and nothing else happens. *)
Theorem netlbl_categories_roundtrip e old m :
  ebitmap_canon e ->
  exists rc cat m', ebitmap_netlbl_export e old m = Some (rc, cat, m') /\ (m = [] -> rc = 0 /\ m' = []) /\
    (rc = - ENOMEM \/ rc = 0 /\ (e = ebitmap_init /\ cat = Null \/
      forall m1, exists rc1 e1 m2, ebitmap_netlbl_import cat m1 = Some (rc1, e1, m2) /\ (m1 = [] -> rc1 = 0 /\ m2 = []) /\
        (rc1 = - ENOMEM /\ e1 = ebitmap_init \/ rc1 = 0 /\ e1 = e))).
Proof.
  intros Hc. pose proof (canon_wf _ Hc) as Hw. destruct (export_spec e old m Hw) as (rc & cat & m' & E & Hmem & Hres).
  exists rc, cat, m'. split; [done|]. split; [done|]. destruct Hres as [?|[(-> & -> & En)|(-> & c & l & -> & _ & Hfull)]]; [by left|..].
  - right. split; [done|]. left. split; [|done]. destruct Hc as [_ _ Ht]. destruct e as [ns hb]. cbn in *. subst. done.
  - right. split; [done|]. right. intros m1. assert (words_ok (full (cat_words (c :: l)))) as Hok.
    { rewrite Hfull. apply full_ok, node_words_ok; apply Hw. }
    destruct (import_spec c l m1 Hok) as (rc1 & e1 & m2 & E1 & Hmem1 & Hres1). exists rc1, e1, m2. split; [done|]. split; [done|].
    destruct Hres1 as [Hr|(-> & Hc1 & Hbits)]; [by left|right]. split; [done|]. apply canon_ext; [done|done|]. intros b.
    rewrite Hbits, <- words_bit_full, Hfull, words_bit_full. apply nodes_words_bit, Hw.
Qed.

Lemma netlbl_categories_roundtrip_witness :
  exists rc cat m', ebitmap_netlbl_export two_bits Null [] = Some (rc, cat, m') /\ rc = 0 /\
    (two_bits = ebitmap_init /\ cat = Null \/ exists e1 m2, ebitmap_netlbl_import cat [] = Some (0, e1, m2) /\ e1 = two_bits).
Proof.
  destruct (netlbl_categories_roundtrip two_bits Null [] two_bits_canon) as (rc & cat & m' & E & Hmem & Hres). exists rc, cat, m'. split; [exact E|].
  destruct (Hmem eq_refl) as [-> _]. split; [reflexivity|]. destruct Hres as [|[_ [H|H]]]; [discriminate|left; exact H|right].
  destruct (H []) as (rc1 & e1 & m2 & E1 & Hmem1 & Hres1). destruct (Hmem1 eq_refl) as [-> _]. exists e1, m2. split; [exact E1|].
  destruct Hres1 as [[H1 _]|[_ H1]]; [discriminate|exact H1].
Defined.

(** What a labelling protocol carries: level and categories. *)
Definition on_wire (a : secattr) : secattr :=
  mk_secattr (sa_flags a .& (NETLBL_SECATTR_MLS_LVL .| NETLBL_SECATTR_MLS_CAT)) None None (sa_cat a) (sa_lvl a) 0.

Definition level_of_message (netmsg : context) (l : mls_level) : context :=
  mk_context (c_user netmsg) (c_role netmsg) (c_type netmsg) 0 (mk_mls_range l l) None.

(** With enough memory. *)
Lemma export_import e old : ebitmap_canon e ->
  exists cat, ebitmap_netlbl_export e old [] = Some (0, cat, []) /\
    (e = ebitmap_init /\ cat = Null \/ (exists l, cat = Ptr l) /\ ebitmap_netlbl_import cat [] = Some (0, e, [])).
Proof.
  intros Hc. pose proof (canon_wf _ Hc) as Hw. destruct (export_spec e old [] Hw) as (rc & cat & m' & E & Hmem & Hres).
  destruct (Hmem eq_refl) as [-> ->]. exists cat. split; [done|]. destruct Hres as [|[(_ & -> & En)|(_ & c & l & -> & _ & Hfull)]]; [done|..].
  - left. split; [|done]. destruct Hc as [_ _ Ht]. destruct e as [ns hb]. cbn in *. by subst.
  - right. split; [by eexists|]. assert (words_ok (full (cat_words (c :: l)))) as Hok by (rewrite Hfull; apply full_ok, node_words_ok; apply Hw).
    destruct (import_spec c l [] Hok) as (rc1 & e1 & m2 & E1 & Hmem1 & Hres1). destruct (Hmem1 eq_refl) as [-> ->].
    destruct Hres1 as [[]|(_ & Hc1 & Hbits)]; [done|]. replace e with e1; [done|]. apply canon_ext; [done|done|]. intros b.
    rewrite Hbits, <- words_bit_full, Hfull, words_bit_full. apply nodes_words_bit, Hw.
Qed.

(** The attributes of a SID. *)
Lemma sid_attributes s sid ctx name :
  ss_initialized s = true -> mls_enabled (ss_policydb s) = true -> sidtab_search (Some (ss_sidtab s)) sid = Some ctx ->
  sym_name (ss_policydb s) SYM_TYPES (u32 (c_type ctx - 1)) = Ptr name -> ebitmap_canon (ml_cat (mr_low (c_range ctx))) ->
  exists cat, let e := ml_cat (mr_low (c_range ctx)) in
    let flags := NETLBL_SECATTR_DOMAIN_CPY .| NETLBL_SECATTR_SECID .| NETLBL_SECATTR_MLS_LVL in
    security_netlbl_sid_to_secattr s sid netlbl_secattr_init [] =
      Some (0, mk_secattr (match cat with Null => flags | _ => flags .| NETLBL_SECATTR_MLS_CAT end) (Some name) None cat
                 (u32 (ml_sens (mr_low (c_range ctx)) - 1)) sid, []) /\
    (e = ebitmap_init /\ cat = Null \/ (exists l, cat = Ptr l) /\ ebitmap_netlbl_import cat [] = Some (0, e, [])).
Proof.
  intros Hini Hmls Hs Hn Hc. destruct (export_import _ Null Hc) as (cat & E & Hcat). exists cat. cbv zeta. split; [|done].
  unfold security_netlbl_sid_to_secattr. rewrite Hini, Hs, Hn. cbn [negb]. rewrite kalloc_nil. cbn [negb].
  unfold mls_export_netlbl_cat, mls_export_netlbl_lvl. rewrite Hmls. cbn [negb].
  change (sa_cat (add_flag _ NETLBL_SECATTR_MLS_LVL)) with (@Null catmap). rewrite (bind_step _ _ _ E).
  destruct Hcat as [[_ ->]|[[l ->] _]]; reflexivity.
Qed.

(** C25: the level of a message is that of its sender.  The attributes the kernel
    makes for a SID give that SID back (under a policy with levels, and with
    memory).  Of what is sent, level and categories,
    the receiving kernel (here with the same policy) makes the context of the
    initial SID for network messages with the sender's low level as its range:
    if the policy allows this context it gets the SID that stands for it,
    unless the SID table is full or shut down, and the answer may be kept with
    the attributes; if not the message is refused. *)
Theorem netlbl_level_kept s sid ctx netmsg name valid :
  ss_initialized s = true -> mls_enabled (ss_policydb s) = true -> sidtab_wf (ss_sidtab s) ->
  sidtab_search (Some (ss_sidtab s)) sid = Some ctx -> sidtab_search (Some (ss_sidtab s)) SECINITSID_NETMSG = Some netmsg ->
  sym_name (ss_policydb s) SYM_TYPES (u32 (c_type ctx - 1)) = Ptr name ->
  ebitmap_canon (ml_cat (mr_low (c_range ctx))) -> in_u 32 (ml_sens (mr_low (c_range ctx))) ->
  let ctx_new := level_of_message netmsg (mr_low (c_range ctx)) in
  mls_context_isvalid (ss_policydb s) ctx_new = Some valid ->
  exists a, security_netlbl_sid_to_secattr s sid netlbl_secattr_init [] = Some (0, a, []) /\
    security_netlbl_secattr_to_sid s a [] = Some (0, Some sid, a, s, []) /\
    exists rc osid a' s' m', security_netlbl_secattr_to_sid s (on_wire a) [] = Some (rc, osid, a', s', m') /\
      if valid then
        rc = - ENOMEM \/ exists sid' c, rc = 0 /\ osid = Some sid' /\ sidtab_abs (ss_sidtab s') !! sid' = Some c /\ context_cmp c ctx_new = true /\
          (has_flag a' NETLBL_SECATTR_CACHE = true -> security_netlbl_secattr_to_sid s' a' m' = Some (0, Some sid', a', s', m'))
      else rc = - EIDRM /\ osid = None /\ s' = s.
Proof.
  intros Hini Hmls Hw Hs Hnm Hn Hc Hsens ctx_new Hv. destruct (sid_attributes s sid ctx name Hini Hmls Hs Hn Hc) as (cat & E & Hcat).
  eexists. split; [exact E|]. split.
  { unfold security_netlbl_secattr_to_sid. rewrite Hini. destruct Hcat as [[_ ->]|[[l ->] _]]; reflexivity. }
  unfold security_netlbl_secattr_to_sid. rewrite Hini. cbn [negb].
  set (a := on_wire _). assert (has_flag a NETLBL_SECATTR_CACHE = false /\ has_flag a NETLBL_SECATTR_SECID = false /\ has_flag a NETLBL_SECATTR_MLS_LVL = true /\
    has_flag a NETLBL_SECATTR_MLS_CAT = match cat with Null => false | _ => true end) as (-> & -> & -> & ->).
  { destruct Hcat as [[_ ->]|[[l ->] _]]; done. }
  rewrite Hnm. assert (netmsg_context (ss_policydb s) netmsg a = level_of_message netmsg (mk_mls_level (ml_sens (mr_low (c_range ctx))) ebitmap_init)) as ->.
  { unfold netmsg_context, mls_import_netlbl_lvl. rewrite Hmls. unfold a. cbn. rewrite u32_add_l, Z.sub_add, u32_small by exact Hsens. reflexivity. }
  assert ((if match cat with Null => false | _ => true end then ebitmap_netlbl_import (sa_cat a) [] else Some (0, ebitmap_init, [])) =
    Some (0, ml_cat (mr_low (c_range ctx)), [])) as Ecat by (destruct Hcat as [[-> ->]|[[l ->] H]]; [done|exact H]).
  rewrite (bind_step _ _ _ Ecat). change (nz 0) with false. cbv iota zeta. set (c := set_c_range _ _). assert (c = ctx_new) as ->.
  { subst c ctx_new. unfold level_of_message. cbn. by destruct (mr_low (c_range ctx)). }
  rewrite (bind_step _ _ _ Hv). destruct valid; cbn [negb]; [|by do 5 eexists].
  destruct (record_sid (ss_sidtab s) ctx_new [] Hw eq_refl) as (rc & sid' & t & m1 & Et & Hwt & _ & Hres). rewrite (bind_step _ _ _ Et).
  destruct Hres as [[-> _]|(-> & _ & c' & Hc' & Hcmp)]; [do 5 eexists; split; [done|by left]|].
  change (nz 0) with false. cbv iota. destruct (security_netlbl_cache_add a sid' m1) as [a' m2] eqn:Ea.
  do 5 eexists. split; [done|]. right. exists sid', c'. split_and!; try done.
  intros Hfl. unfold security_netlbl_secattr_to_sid. change (ss_initialized (set_ss_sidtab s t)) with (ss_initialized s). rewrite Hini, Hfl. cbn [negb].
  assert (sa_cache a' = Some sid') as ->; [|done]. unfold security_netlbl_cache_add in Ea. destruct (kalloc m1) as [[] m3]; cbn [negb] in Ea.
  - destruct (kalloc m3) as [[] m4]; injection Ea as <- _; [done|]. by destruct Hcat as [[_ ->]|[[l ->] _]].
  - injection Ea as <- _. by destruct Hcat as [[_ ->]|[[l ->] _]].
Qed.

(** The sample with a sender at level [s0:c0,c2] and the SID of messages. *)
Definition sender_ctx : context := mk_context 1 2 2 0 (mk_mls_range (level 1 [0; 2]) (level 2 [0; 1; 2; 3; 4])) None.
Definition netmsg_sids : sidtab := (sidtab_insert ((sidtab_insert empty_sids SECINITSID_NETMSG init_ctx []).1.2) 28 sender_ctx []).1.2.
Definition netmsg_ss : ss := mk_ss sample netmsg_sids true 1 [] 0 true false false.

Lemma insert_keeps_wf t sid c : sidtab_wf t -> 0 < sid < UINT_MAX -> str_ok c -> sidtab_wf (sidtab_insert t sid c []).1.2.
Proof.
  intros Hw Hs Hc. pose proof (sidtab_insert_spec t sid c [] Hw Hs) as H. destruct (sidtab_insert t sid c []) as [[rc t'] m].
  cbn. destruct H as [(_ & _ & H & _)|[(_ & _ & ->)|(_ & ->)]]; done.
Qed.

Lemma netmsg_sids_wf : sidtab_wf netmsg_sids.
Proof. apply insert_keeps_wf; [apply insert_keeps_wf; [exact empty_sids_wf|done|done]|done|done]. Qed.

Lemma netlbl_level_kept_witness :
  exists a, security_netlbl_sid_to_secattr netmsg_ss 28 netlbl_secattr_init [] = Some (0, a, []) /\ sa_flags a = 0x100001D /\ sa_lvl a = 0 /\
    exists rc osid a' s' m', security_netlbl_secattr_to_sid netmsg_ss (on_wire a) [] = Some (rc, osid, a', s', m') /\
      (rc = - ENOMEM \/ exists sid' c, osid = Some sid' /\ sidtab_abs (ss_sidtab s') !! sid' = Some c /\
        context_cmp c (level_of_message init_ctx (mr_low (c_range sender_ctx))) = true).
Proof.
  destruct (netlbl_level_kept netmsg_ss 28 sender_ctx init_ctx "user_t" true) as (a & E & _ & rc & osid & a' & s' & m' & E' & Hres).
  - reflexivity.
  - reflexivity.
  - exact netmsg_sids_wf.
  - vm_compute. reflexivity.
  - vm_compute. reflexivity.
  - vm_compute. reflexivity.
  - apply (bitmap_of_canon [0; 2]). repeat constructor; lia.
  - vm_compute. split; [discriminate|reflexivity].
  - vm_compute. reflexivity.
  - exists a. split; [exact E|].
    assert ((fun r => (sa_flags r.1.2, sa_lvl r.1.2)) <$> security_netlbl_sid_to_secattr netmsg_ss 28 netlbl_secattr_init [] = Some (0x100001D, 0)) as Hf
      by (vm_compute; reflexivity).
    rewrite E in Hf. injection Hf as Hf1 Hf2. split; [exact Hf1|]. split; [exact Hf2|]. exists rc, osid, a', s', m'. split; [exact E'|].
    destruct Hres as [Hr|(sid' & c & _ & Ho & Ha & Hc & _)]; [left; exact Hr|right]. exists sid', c. split; [exact Ho|]. split; [exact Ha|exact Hc].
Defined.

(** Without MLS the level of a message is ignored, but its categories are
    stored: two messages that differ in their categories only get two SIDs
    with the same text. *)
Definition plain_net_ss : ss := mk_ss (set_mls_enabled sample false) netmsg_sids true 1 [] 0 true false false.
Definition received (cats : list Z) : secattr :=
  mk_secattr (NETLBL_SECATTR_MLS_LVL .| NETLBL_SECATTR_MLS_CAT) None None (Ptr [mk_catmap_node 0 cats]) 0 0.
Definition sid_and_text (s : ss) (a : secattr) : option (option Z * option string) :=
  '(_, osid, _, s, _) ← security_netlbl_secattr_to_sid s a [];
  sid ← osid;
  '(_, text, _, _) ← security_sid_to_context s sid true [];
  Some (osid, text).
Definition after_message (s : ss) (a : secattr) : ss :=
  match security_netlbl_secattr_to_sid s a [] with Some (_, _, _, s, _) => s | None => s end.

Example categories_without_mls :
  sid_and_text plain_net_ss (received [1; 0; 0; 0]) = Some (Some 29, Some "root:staff_r:init_t"%string) /\
  sid_and_text (after_message plain_net_ss (received [1; 0; 0; 0])) (received [2; 0; 0; 0]) = Some (Some 30, Some "root:staff_r:init_t"%string).
Proof. split; vm_compute; reflexivity. Qed.
