(* ===== verification/Flask.v ===== *)
(** The numbers of classes and permissions that the hooks (hooks.c, netlabel.c, xfrm.c, nlmsgtab.c) use: what genheaders
    writes to flask.h and av_permissions.h from the table in classmap.h. *)

From S2P Require Import Prelude Classmap.
From Stdlib Require Import String ZArith.
Open Scope Z_scope.
Open Scope string_scope.
Definition SECCLASS_APPLETALK_SOCKET : Z := Eval vm_compute in SECCLASS "APPLETALK_SOCKET".
Definition SECCLASS_ASSOCIATION : Z := Eval vm_compute in SECCLASS "ASSOCIATION".
Definition SECCLASS_BLK_FILE : Z := Eval vm_compute in SECCLASS "BLK_FILE".
Definition SECCLASS_CAPABILITY : Z := Eval vm_compute in SECCLASS "CAPABILITY".
Definition SECCLASS_CAPABILITY2 : Z := Eval vm_compute in SECCLASS "CAPABILITY2".
Definition SECCLASS_CHR_FILE : Z := Eval vm_compute in SECCLASS "CHR_FILE".
Definition SECCLASS_DCCP_SOCKET : Z := Eval vm_compute in SECCLASS "DCCP_SOCKET".
Definition SECCLASS_FD : Z := Eval vm_compute in SECCLASS "FD".
Definition SECCLASS_FIFO_FILE : Z := Eval vm_compute in SECCLASS "FIFO_FILE".
Definition SECCLASS_FILE : Z := Eval vm_compute in SECCLASS "FILE".
Definition SECCLASS_FILESYSTEM : Z := Eval vm_compute in SECCLASS "FILESYSTEM".
Definition SECCLASS_KERNEL_SERVICE : Z := Eval vm_compute in SECCLASS "KERNEL_SERVICE".
Definition SECCLASS_KEY : Z := Eval vm_compute in SECCLASS "KEY".
Definition SECCLASS_KEY_SOCKET : Z := Eval vm_compute in SECCLASS "KEY_SOCKET".
Definition SECCLASS_LNK_FILE : Z := Eval vm_compute in SECCLASS "LNK_FILE".
Definition SECCLASS_MEMPROTECT : Z := Eval vm_compute in SECCLASS "MEMPROTECT".
Definition SECCLASS_MSG : Z := Eval vm_compute in SECCLASS "MSG".
Definition SECCLASS_MSGQ : Z := Eval vm_compute in SECCLASS "MSGQ".
Definition SECCLASS_NETIF : Z := Eval vm_compute in SECCLASS "NETIF".
Definition SECCLASS_NETLINK_AUDIT_SOCKET : Z := Eval vm_compute in SECCLASS "NETLINK_AUDIT_SOCKET".
Definition SECCLASS_NETLINK_DNRT_SOCKET : Z := Eval vm_compute in SECCLASS "NETLINK_DNRT_SOCKET".
Definition SECCLASS_NETLINK_FIREWALL_SOCKET : Z := Eval vm_compute in SECCLASS "NETLINK_FIREWALL_SOCKET".
Definition SECCLASS_NETLINK_IP6FW_SOCKET : Z := Eval vm_compute in SECCLASS "NETLINK_IP6FW_SOCKET".
Definition SECCLASS_NETLINK_KOBJECT_UEVENT_SOCKET : Z := Eval vm_compute in SECCLASS "NETLINK_KOBJECT_UEVENT_SOCKET".
Definition SECCLASS_NETLINK_NFLOG_SOCKET : Z := Eval vm_compute in SECCLASS "NETLINK_NFLOG_SOCKET".
Definition SECCLASS_NETLINK_ROUTE_SOCKET : Z := Eval vm_compute in SECCLASS "NETLINK_ROUTE_SOCKET".
Definition SECCLASS_NETLINK_SELINUX_SOCKET : Z := Eval vm_compute in SECCLASS "NETLINK_SELINUX_SOCKET".
Definition SECCLASS_NETLINK_SOCKET : Z := Eval vm_compute in SECCLASS "NETLINK_SOCKET".
Definition SECCLASS_NETLINK_TCPDIAG_SOCKET : Z := Eval vm_compute in SECCLASS "NETLINK_TCPDIAG_SOCKET".
Definition SECCLASS_NETLINK_XFRM_SOCKET : Z := Eval vm_compute in SECCLASS "NETLINK_XFRM_SOCKET".
Definition SECCLASS_NODE : Z := Eval vm_compute in SECCLASS "NODE".
Definition SECCLASS_PACKET : Z := Eval vm_compute in SECCLASS "PACKET".
Definition SECCLASS_PACKET_SOCKET : Z := Eval vm_compute in SECCLASS "PACKET_SOCKET".
Definition SECCLASS_PEER : Z := Eval vm_compute in SECCLASS "PEER".
Definition SECCLASS_RAWIP_SOCKET : Z := Eval vm_compute in SECCLASS "RAWIP_SOCKET".
Definition SECCLASS_SEM : Z := Eval vm_compute in SECCLASS "SEM".
Definition SECCLASS_SHM : Z := Eval vm_compute in SECCLASS "SHM".
Definition SECCLASS_SOCKET : Z := Eval vm_compute in SECCLASS "SOCKET".
Definition SECCLASS_SOCK_FILE : Z := Eval vm_compute in SECCLASS "SOCK_FILE".
Definition SECCLASS_SYSTEM : Z := Eval vm_compute in SECCLASS "SYSTEM".
Definition SECCLASS_TCP_SOCKET : Z := Eval vm_compute in SECCLASS "TCP_SOCKET".
Definition SECCLASS_TUN_SOCKET : Z := Eval vm_compute in SECCLASS "TUN_SOCKET".
Definition SECCLASS_UDP_SOCKET : Z := Eval vm_compute in SECCLASS "UDP_SOCKET".
Definition SECCLASS_UNIX_DGRAM_SOCKET : Z := Eval vm_compute in SECCLASS "UNIX_DGRAM_SOCKET".
Definition SECCLASS_UNIX_STREAM_SOCKET : Z := Eval vm_compute in SECCLASS "UNIX_STREAM_SOCKET".
Definition ASSOCIATION__POLMATCH : Z := Eval vm_compute in PERM "ASSOCIATION" "POLMATCH".
Definition ASSOCIATION__RECVFROM : Z := Eval vm_compute in PERM "ASSOCIATION" "RECVFROM".
Definition ASSOCIATION__SENDTO : Z := Eval vm_compute in PERM "ASSOCIATION" "SENDTO".
Definition ASSOCIATION__SETCONTEXT : Z := Eval vm_compute in PERM "ASSOCIATION" "SETCONTEXT".
Definition DCCP_SOCKET__NAME_CONNECT : Z := Eval vm_compute in PERM "DCCP_SOCKET" "NAME_CONNECT".
Definition DCCP_SOCKET__NODE_BIND : Z := Eval vm_compute in PERM "DCCP_SOCKET" "NODE_BIND".
Definition DIR__ADD_NAME : Z := Eval vm_compute in PERM "DIR" "ADD_NAME".
Definition DIR__READ : Z := Eval vm_compute in PERM "DIR" "READ".
Definition DIR__REMOVE_NAME : Z := Eval vm_compute in PERM "DIR" "REMOVE_NAME".
Definition DIR__REPARENT : Z := Eval vm_compute in PERM "DIR" "REPARENT".
Definition DIR__RMDIR : Z := Eval vm_compute in PERM "DIR" "RMDIR".
Definition DIR__SEARCH : Z := Eval vm_compute in PERM "DIR" "SEARCH".
Definition DIR__WRITE : Z := Eval vm_compute in PERM "DIR" "WRITE".
Definition FD__USE : Z := Eval vm_compute in PERM "FD" "USE".
Definition FILESYSTEM__ASSOCIATE : Z := Eval vm_compute in PERM "FILESYSTEM" "ASSOCIATE".
Definition FILESYSTEM__GETATTR : Z := Eval vm_compute in PERM "FILESYSTEM" "GETATTR".
Definition FILESYSTEM__MOUNT : Z := Eval vm_compute in PERM "FILESYSTEM" "MOUNT".
Definition FILESYSTEM__QUOTAGET : Z := Eval vm_compute in PERM "FILESYSTEM" "QUOTAGET".
Definition FILESYSTEM__QUOTAMOD : Z := Eval vm_compute in PERM "FILESYSTEM" "QUOTAMOD".
Definition FILESYSTEM__RELABELFROM : Z := Eval vm_compute in PERM "FILESYSTEM" "RELABELFROM".
Definition FILESYSTEM__RELABELTO : Z := Eval vm_compute in PERM "FILESYSTEM" "RELABELTO".
Definition FILESYSTEM__REMOUNT : Z := Eval vm_compute in PERM "FILESYSTEM" "REMOUNT".
Definition FILESYSTEM__UNMOUNT : Z := Eval vm_compute in PERM "FILESYSTEM" "UNMOUNT".
Definition FILE__APPEND : Z := Eval vm_compute in PERM "FILE" "APPEND".
Definition FILE__AUDIT_ACCESS : Z := Eval vm_compute in PERM "FILE" "AUDIT_ACCESS".
Definition FILE__CREATE : Z := Eval vm_compute in PERM "FILE" "CREATE".
Definition FILE__ENTRYPOINT : Z := Eval vm_compute in PERM "FILE" "ENTRYPOINT".
Definition FILE__EXECMOD : Z := Eval vm_compute in PERM "FILE" "EXECMOD".
Definition FILE__EXECUTE : Z := Eval vm_compute in PERM "FILE" "EXECUTE".
Definition FILE__EXECUTE_NO_TRANS : Z := Eval vm_compute in PERM "FILE" "EXECUTE_NO_TRANS".
Definition FILE__GETATTR : Z := Eval vm_compute in PERM "FILE" "GETATTR".
Definition FILE__IOCTL : Z := Eval vm_compute in PERM "FILE" "IOCTL".
Definition FILE__LINK : Z := Eval vm_compute in PERM "FILE" "LINK".
Definition FILE__LOCK : Z := Eval vm_compute in PERM "FILE" "LOCK".
Definition FILE__MOUNTON : Z := Eval vm_compute in PERM "FILE" "MOUNTON".
Definition FILE__OPEN : Z := Eval vm_compute in PERM "FILE" "OPEN".
Definition FILE__QUOTAON : Z := Eval vm_compute in PERM "FILE" "QUOTAON".
Definition FILE__READ : Z := Eval vm_compute in PERM "FILE" "READ".
Definition FILE__RELABELFROM : Z := Eval vm_compute in PERM "FILE" "RELABELFROM".
Definition FILE__RELABELTO : Z := Eval vm_compute in PERM "FILE" "RELABELTO".
Definition FILE__RENAME : Z := Eval vm_compute in PERM "FILE" "RENAME".
Definition FILE__SETATTR : Z := Eval vm_compute in PERM "FILE" "SETATTR".
Definition FILE__UNLINK : Z := Eval vm_compute in PERM "FILE" "UNLINK".
Definition FILE__WRITE : Z := Eval vm_compute in PERM "FILE" "WRITE".
Definition IPC__UNIX_READ : Z := Eval vm_compute in PERM "IPC" "UNIX_READ".
Definition IPC__UNIX_WRITE : Z := Eval vm_compute in PERM "IPC" "UNIX_WRITE".
Definition KERNEL_SERVICE__CREATE_FILES_AS : Z := Eval vm_compute in PERM "KERNEL_SERVICE" "CREATE_FILES_AS".
Definition KERNEL_SERVICE__USE_AS_OVERRIDE : Z := Eval vm_compute in PERM "KERNEL_SERVICE" "USE_AS_OVERRIDE".
Definition KEY__CREATE : Z := Eval vm_compute in PERM "KEY" "CREATE".
Definition MEMPROTECT__MMAP_ZERO : Z := Eval vm_compute in PERM "MEMPROTECT" "MMAP_ZERO".
Definition MSGQ__ASSOCIATE : Z := Eval vm_compute in PERM "MSGQ" "ASSOCIATE".
Definition MSGQ__CREATE : Z := Eval vm_compute in PERM "MSGQ" "CREATE".
Definition MSGQ__DESTROY : Z := Eval vm_compute in PERM "MSGQ" "DESTROY".
Definition MSGQ__ENQUEUE : Z := Eval vm_compute in PERM "MSGQ" "ENQUEUE".
Definition MSGQ__GETATTR : Z := Eval vm_compute in PERM "MSGQ" "GETATTR".
Definition MSGQ__READ : Z := Eval vm_compute in PERM "MSGQ" "READ".
Definition MSGQ__SETATTR : Z := Eval vm_compute in PERM "MSGQ" "SETATTR".
Definition MSGQ__WRITE : Z := Eval vm_compute in PERM "MSGQ" "WRITE".
Definition MSG__RECEIVE : Z := Eval vm_compute in PERM "MSG" "RECEIVE".
Definition MSG__SEND : Z := Eval vm_compute in PERM "MSG" "SEND".
Definition NETIF__EGRESS : Z := Eval vm_compute in PERM "NETIF" "EGRESS".
Definition NETIF__INGRESS : Z := Eval vm_compute in PERM "NETIF" "INGRESS".
Definition NETLINK_AUDIT_SOCKET__NLMSG_READ : Z := Eval vm_compute in PERM "NETLINK_AUDIT_SOCKET" "NLMSG_READ".
Definition NETLINK_AUDIT_SOCKET__NLMSG_READPRIV : Z := Eval vm_compute in PERM "NETLINK_AUDIT_SOCKET" "NLMSG_READPRIV".
Definition NETLINK_AUDIT_SOCKET__NLMSG_RELAY : Z := Eval vm_compute in PERM "NETLINK_AUDIT_SOCKET" "NLMSG_RELAY".
Definition NETLINK_AUDIT_SOCKET__NLMSG_TTY_AUDIT : Z := Eval vm_compute in PERM "NETLINK_AUDIT_SOCKET" "NLMSG_TTY_AUDIT".
Definition NETLINK_AUDIT_SOCKET__NLMSG_WRITE : Z := Eval vm_compute in PERM "NETLINK_AUDIT_SOCKET" "NLMSG_WRITE".
Definition NETLINK_FIREWALL_SOCKET__NLMSG_WRITE : Z := Eval vm_compute in PERM "NETLINK_FIREWALL_SOCKET" "NLMSG_WRITE".
Definition NETLINK_ROUTE_SOCKET__NLMSG_READ : Z := Eval vm_compute in PERM "NETLINK_ROUTE_SOCKET" "NLMSG_READ".
Definition NETLINK_ROUTE_SOCKET__NLMSG_WRITE : Z := Eval vm_compute in PERM "NETLINK_ROUTE_SOCKET" "NLMSG_WRITE".
Definition NETLINK_TCPDIAG_SOCKET__NLMSG_READ : Z := Eval vm_compute in PERM "NETLINK_TCPDIAG_SOCKET" "NLMSG_READ".
Definition NETLINK_XFRM_SOCKET__NLMSG_READ : Z := Eval vm_compute in PERM "NETLINK_XFRM_SOCKET" "NLMSG_READ".
Definition NETLINK_XFRM_SOCKET__NLMSG_WRITE : Z := Eval vm_compute in PERM "NETLINK_XFRM_SOCKET" "NLMSG_WRITE".
Definition NODE__RECVFROM : Z := Eval vm_compute in PERM "NODE" "RECVFROM".
Definition NODE__SENDTO : Z := Eval vm_compute in PERM "NODE" "SENDTO".
Definition PACKET__FORWARD_IN : Z := Eval vm_compute in PERM "PACKET" "FORWARD_IN".
Definition PACKET__FORWARD_OUT : Z := Eval vm_compute in PERM "PACKET" "FORWARD_OUT".
Definition PACKET__RECV : Z := Eval vm_compute in PERM "PACKET" "RECV".
Definition PACKET__RELABELTO : Z := Eval vm_compute in PERM "PACKET" "RELABELTO".
Definition PACKET__SEND : Z := Eval vm_compute in PERM "PACKET" "SEND".
Definition PEER__RECV : Z := Eval vm_compute in PERM "PEER" "RECV".
Definition PROCESS__DYNTRANSITION : Z := Eval vm_compute in PERM "PROCESS" "DYNTRANSITION".
Definition PROCESS__EXECHEAP : Z := Eval vm_compute in PERM "PROCESS" "EXECHEAP".
Definition PROCESS__EXECMEM : Z := Eval vm_compute in PERM "PROCESS" "EXECMEM".
Definition PROCESS__EXECSTACK : Z := Eval vm_compute in PERM "PROCESS" "EXECSTACK".
Definition PROCESS__FORK : Z := Eval vm_compute in PERM "PROCESS" "FORK".
Definition PROCESS__GETATTR : Z := Eval vm_compute in PERM "PROCESS" "GETATTR".
Definition PROCESS__GETCAP : Z := Eval vm_compute in PERM "PROCESS" "GETCAP".
Definition PROCESS__GETPGID : Z := Eval vm_compute in PERM "PROCESS" "GETPGID".
Definition PROCESS__GETSCHED : Z := Eval vm_compute in PERM "PROCESS" "GETSCHED".
Definition PROCESS__GETSESSION : Z := Eval vm_compute in PERM "PROCESS" "GETSESSION".
Definition PROCESS__NOATSECURE : Z := Eval vm_compute in PERM "PROCESS" "NOATSECURE".
Definition PROCESS__PTRACE : Z := Eval vm_compute in PERM "PROCESS" "PTRACE".
Definition PROCESS__RLIMITINH : Z := Eval vm_compute in PERM "PROCESS" "RLIMITINH".
Definition PROCESS__SETCAP : Z := Eval vm_compute in PERM "PROCESS" "SETCAP".
Definition PROCESS__SETCURRENT : Z := Eval vm_compute in PERM "PROCESS" "SETCURRENT".
Definition PROCESS__SETEXEC : Z := Eval vm_compute in PERM "PROCESS" "SETEXEC".
Definition PROCESS__SETFSCREATE : Z := Eval vm_compute in PERM "PROCESS" "SETFSCREATE".
Definition PROCESS__SETKEYCREATE : Z := Eval vm_compute in PERM "PROCESS" "SETKEYCREATE".
Definition PROCESS__SETPGID : Z := Eval vm_compute in PERM "PROCESS" "SETPGID".
Definition PROCESS__SETRLIMIT : Z := Eval vm_compute in PERM "PROCESS" "SETRLIMIT".
Definition PROCESS__SETSCHED : Z := Eval vm_compute in PERM "PROCESS" "SETSCHED".
Definition PROCESS__SETSOCKCREATE : Z := Eval vm_compute in PERM "PROCESS" "SETSOCKCREATE".
Definition PROCESS__SHARE : Z := Eval vm_compute in PERM "PROCESS" "SHARE".
Definition PROCESS__SIGCHLD : Z := Eval vm_compute in PERM "PROCESS" "SIGCHLD".
Definition PROCESS__SIGINH : Z := Eval vm_compute in PERM "PROCESS" "SIGINH".
Definition PROCESS__SIGKILL : Z := Eval vm_compute in PERM "PROCESS" "SIGKILL".
Definition PROCESS__SIGNAL : Z := Eval vm_compute in PERM "PROCESS" "SIGNAL".
Definition PROCESS__SIGNULL : Z := Eval vm_compute in PERM "PROCESS" "SIGNULL".
Definition PROCESS__SIGSTOP : Z := Eval vm_compute in PERM "PROCESS" "SIGSTOP".
Definition RAWIP_SOCKET__NODE_BIND : Z := Eval vm_compute in PERM "RAWIP_SOCKET" "NODE_BIND".
Definition RAWIP_SOCKET__RECVFROM : Z := Eval vm_compute in PERM "RAWIP_SOCKET" "RECVFROM".
Definition SEM__ASSOCIATE : Z := Eval vm_compute in PERM "SEM" "ASSOCIATE".
Definition SEM__CREATE : Z := Eval vm_compute in PERM "SEM" "CREATE".
Definition SEM__DESTROY : Z := Eval vm_compute in PERM "SEM" "DESTROY".
Definition SEM__GETATTR : Z := Eval vm_compute in PERM "SEM" "GETATTR".
Definition SEM__READ : Z := Eval vm_compute in PERM "SEM" "READ".
Definition SEM__SETATTR : Z := Eval vm_compute in PERM "SEM" "SETATTR".
Definition SEM__WRITE : Z := Eval vm_compute in PERM "SEM" "WRITE".
Definition SHM__ASSOCIATE : Z := Eval vm_compute in PERM "SHM" "ASSOCIATE".
Definition SHM__CREATE : Z := Eval vm_compute in PERM "SHM" "CREATE".
Definition SHM__DESTROY : Z := Eval vm_compute in PERM "SHM" "DESTROY".
Definition SHM__GETATTR : Z := Eval vm_compute in PERM "SHM" "GETATTR".
Definition SHM__LOCK : Z := Eval vm_compute in PERM "SHM" "LOCK".
Definition SHM__READ : Z := Eval vm_compute in PERM "SHM" "READ".
Definition SHM__SETATTR : Z := Eval vm_compute in PERM "SHM" "SETATTR".
Definition SHM__WRITE : Z := Eval vm_compute in PERM "SHM" "WRITE".
Definition SOCKET__ACCEPT : Z := Eval vm_compute in PERM "SOCKET" "ACCEPT".
Definition SOCKET__BIND : Z := Eval vm_compute in PERM "SOCKET" "BIND".
Definition SOCKET__CONNECT : Z := Eval vm_compute in PERM "SOCKET" "CONNECT".
Definition SOCKET__CREATE : Z := Eval vm_compute in PERM "SOCKET" "CREATE".
Definition SOCKET__GETATTR : Z := Eval vm_compute in PERM "SOCKET" "GETATTR".
Definition SOCKET__GETOPT : Z := Eval vm_compute in PERM "SOCKET" "GETOPT".
Definition SOCKET__LISTEN : Z := Eval vm_compute in PERM "SOCKET" "LISTEN".
Definition SOCKET__NAME_BIND : Z := Eval vm_compute in PERM "SOCKET" "NAME_BIND".
Definition SOCKET__READ : Z := Eval vm_compute in PERM "SOCKET" "READ".
Definition SOCKET__SENDTO : Z := Eval vm_compute in PERM "SOCKET" "SENDTO".
Definition SOCKET__SETOPT : Z := Eval vm_compute in PERM "SOCKET" "SETOPT".
Definition SOCKET__SHUTDOWN : Z := Eval vm_compute in PERM "SOCKET" "SHUTDOWN".
Definition SOCKET__WRITE : Z := Eval vm_compute in PERM "SOCKET" "WRITE".
Definition SYSTEM__IPC_INFO : Z := Eval vm_compute in PERM "SYSTEM" "IPC_INFO".
Definition SYSTEM__MODULE_REQUEST : Z := Eval vm_compute in PERM "SYSTEM" "MODULE_REQUEST".
Definition SYSTEM__SYSLOG_CONSOLE : Z := Eval vm_compute in PERM "SYSTEM" "SYSLOG_CONSOLE".
Definition SYSTEM__SYSLOG_MOD : Z := Eval vm_compute in PERM "SYSTEM" "SYSLOG_MOD".
Definition SYSTEM__SYSLOG_READ : Z := Eval vm_compute in PERM "SYSTEM" "SYSLOG_READ".
Definition TCP_SOCKET__NAME_CONNECT : Z := Eval vm_compute in PERM "TCP_SOCKET" "NAME_CONNECT".
Definition TCP_SOCKET__NODE_BIND : Z := Eval vm_compute in PERM "TCP_SOCKET" "NODE_BIND".
Definition TCP_SOCKET__RECVFROM : Z := Eval vm_compute in PERM "TCP_SOCKET" "RECVFROM".
Definition TUN_SOCKET__CREATE : Z := Eval vm_compute in PERM "TUN_SOCKET" "CREATE".
Definition TUN_SOCKET__RELABELFROM : Z := Eval vm_compute in PERM "TUN_SOCKET" "RELABELFROM".
Definition TUN_SOCKET__RELABELTO : Z := Eval vm_compute in PERM "TUN_SOCKET" "RELABELTO".
Definition UDP_SOCKET__NODE_BIND : Z := Eval vm_compute in PERM "UDP_SOCKET" "NODE_BIND".
Definition UDP_SOCKET__RECVFROM : Z := Eval vm_compute in PERM "UDP_SOCKET" "RECVFROM".
Definition UNIX_STREAM_SOCKET__CONNECTTO : Z := Eval vm_compute in PERM "UNIX_STREAM_SOCKET" "CONNECTTO".

(** Every name is one of the table. *)
Lemma flask_numbers_defined :
  forallb nz [
    SECCLASS_APPLETALK_SOCKET; SECCLASS_ASSOCIATION; SECCLASS_BLK_FILE; SECCLASS_CAPABILITY;
    SECCLASS_CAPABILITY2; SECCLASS_CHR_FILE; SECCLASS_DCCP_SOCKET; SECCLASS_FD;
    SECCLASS_FIFO_FILE; SECCLASS_FILE; SECCLASS_FILESYSTEM; SECCLASS_KERNEL_SERVICE;
    SECCLASS_KEY; SECCLASS_KEY_SOCKET; SECCLASS_LNK_FILE; SECCLASS_MEMPROTECT; SECCLASS_MSG;
    SECCLASS_MSGQ; SECCLASS_NETIF; SECCLASS_NETLINK_AUDIT_SOCKET; SECCLASS_NETLINK_DNRT_SOCKET;
    SECCLASS_NETLINK_FIREWALL_SOCKET; SECCLASS_NETLINK_IP6FW_SOCKET;
    SECCLASS_NETLINK_KOBJECT_UEVENT_SOCKET; SECCLASS_NETLINK_NFLOG_SOCKET;
    SECCLASS_NETLINK_ROUTE_SOCKET; SECCLASS_NETLINK_SELINUX_SOCKET; SECCLASS_NETLINK_SOCKET;
    SECCLASS_NETLINK_TCPDIAG_SOCKET; SECCLASS_NETLINK_XFRM_SOCKET; SECCLASS_NODE;
    SECCLASS_PACKET; SECCLASS_PACKET_SOCKET; SECCLASS_PEER; SECCLASS_RAWIP_SOCKET; SECCLASS_SEM;
    SECCLASS_SHM; SECCLASS_SOCKET; SECCLASS_SOCK_FILE; SECCLASS_SYSTEM; SECCLASS_TCP_SOCKET;
    SECCLASS_TUN_SOCKET; SECCLASS_UDP_SOCKET; SECCLASS_UNIX_DGRAM_SOCKET;
    SECCLASS_UNIX_STREAM_SOCKET; ASSOCIATION__POLMATCH; ASSOCIATION__RECVFROM;
    ASSOCIATION__SENDTO; ASSOCIATION__SETCONTEXT; DCCP_SOCKET__NAME_CONNECT;
    DCCP_SOCKET__NODE_BIND; DIR__ADD_NAME; DIR__READ; DIR__REMOVE_NAME; DIR__REPARENT;
    DIR__RMDIR; DIR__SEARCH; DIR__WRITE; FD__USE; FILESYSTEM__ASSOCIATE; FILESYSTEM__GETATTR;
    FILESYSTEM__MOUNT; FILESYSTEM__QUOTAGET; FILESYSTEM__QUOTAMOD; FILESYSTEM__RELABELFROM;
    FILESYSTEM__RELABELTO; FILESYSTEM__REMOUNT; FILESYSTEM__UNMOUNT; FILE__APPEND;
    FILE__AUDIT_ACCESS; FILE__CREATE; FILE__ENTRYPOINT; FILE__EXECMOD; FILE__EXECUTE;
    FILE__EXECUTE_NO_TRANS; FILE__GETATTR; FILE__IOCTL; FILE__LINK; FILE__LOCK; FILE__MOUNTON;
    FILE__OPEN; FILE__QUOTAON; FILE__READ; FILE__RELABELFROM; FILE__RELABELTO; FILE__RENAME;
    FILE__SETATTR; FILE__UNLINK; FILE__WRITE; IPC__UNIX_READ; IPC__UNIX_WRITE;
    KERNEL_SERVICE__CREATE_FILES_AS; KERNEL_SERVICE__USE_AS_OVERRIDE; KEY__CREATE;
    MEMPROTECT__MMAP_ZERO; MSGQ__ASSOCIATE; MSGQ__CREATE; MSGQ__DESTROY; MSGQ__ENQUEUE;
    MSGQ__GETATTR; MSGQ__READ; MSGQ__SETATTR; MSGQ__WRITE; MSG__RECEIVE; MSG__SEND;
    NETIF__EGRESS; NETIF__INGRESS; NETLINK_AUDIT_SOCKET__NLMSG_READ;
    NETLINK_AUDIT_SOCKET__NLMSG_READPRIV; NETLINK_AUDIT_SOCKET__NLMSG_RELAY;
    NETLINK_AUDIT_SOCKET__NLMSG_TTY_AUDIT; NETLINK_AUDIT_SOCKET__NLMSG_WRITE;
    NETLINK_FIREWALL_SOCKET__NLMSG_WRITE; NETLINK_ROUTE_SOCKET__NLMSG_READ;
    NETLINK_ROUTE_SOCKET__NLMSG_WRITE; NETLINK_TCPDIAG_SOCKET__NLMSG_READ;
    NETLINK_XFRM_SOCKET__NLMSG_READ; NETLINK_XFRM_SOCKET__NLMSG_WRITE; NODE__RECVFROM;
    NODE__SENDTO; PACKET__FORWARD_IN; PACKET__FORWARD_OUT; PACKET__RECV; PACKET__RELABELTO;
    PACKET__SEND; PEER__RECV; PROCESS__DYNTRANSITION; PROCESS__EXECHEAP; PROCESS__EXECMEM;
    PROCESS__EXECSTACK; PROCESS__FORK; PROCESS__GETATTR; PROCESS__GETCAP; PROCESS__GETPGID;
    PROCESS__GETSCHED; PROCESS__GETSESSION; PROCESS__NOATSECURE; PROCESS__PTRACE;
    PROCESS__RLIMITINH; PROCESS__SETCAP; PROCESS__SETCURRENT; PROCESS__SETEXEC;
    PROCESS__SETFSCREATE; PROCESS__SETKEYCREATE; PROCESS__SETPGID; PROCESS__SETRLIMIT;
    PROCESS__SETSCHED; PROCESS__SETSOCKCREATE; PROCESS__SHARE; PROCESS__SIGCHLD;
    PROCESS__SIGINH; PROCESS__SIGKILL; PROCESS__SIGNAL; PROCESS__SIGNULL; PROCESS__SIGSTOP;
    RAWIP_SOCKET__NODE_BIND; RAWIP_SOCKET__RECVFROM; SEM__ASSOCIATE; SEM__CREATE; SEM__DESTROY;
    SEM__GETATTR; SEM__READ; SEM__SETATTR; SEM__WRITE; SHM__ASSOCIATE; SHM__CREATE;
    SHM__DESTROY; SHM__GETATTR; SHM__LOCK; SHM__READ; SHM__SETATTR; SHM__WRITE; SOCKET__ACCEPT;
    SOCKET__BIND; SOCKET__CONNECT; SOCKET__CREATE; SOCKET__GETATTR; SOCKET__GETOPT;
    SOCKET__LISTEN; SOCKET__NAME_BIND; SOCKET__READ; SOCKET__SENDTO; SOCKET__SETOPT;
    SOCKET__SHUTDOWN; SOCKET__WRITE; SYSTEM__IPC_INFO; SYSTEM__MODULE_REQUEST;
    SYSTEM__SYSLOG_CONSOLE; SYSTEM__SYSLOG_MOD; SYSTEM__SYSLOG_READ; TCP_SOCKET__NAME_CONNECT;
    TCP_SOCKET__NODE_BIND; TCP_SOCKET__RECVFROM; TUN_SOCKET__CREATE; TUN_SOCKET__RELABELFROM;
    TUN_SOCKET__RELABELTO; UDP_SOCKET__NODE_BIND; UDP_SOCKET__RECVFROM;
    UNIX_STREAM_SOCKET__CONNECTTO] = true.
Proof. vm_compute. reflexivity. Qed.
