(* ===== verification/HookBase.v ===== *)
(** The security hooks (hooks.c) as programs that call the rest of the module:
    the access vector cache, the security server, the network tables and the
    kernel outside of SELinux.  A hook is a tree of calls and answers; this
    file has the trees, their runs, the security blobs (include/objsec.h) and
    the permissions the hooks ask for. *)

From S2P Require Import Prelude Sidtab Conditional Classmap Services NetLabel Avc Flask.
From stdpp Require Import strings.
From Stdlib Require Import String.
Open Scope Z_scope.

Definition ERANGE : Z := 34.
Definition ENOMSG : Z := 42.

(** ** Calls *)

(** Values a hook reads from global variables. *)
Inductive global := g_ss_initialized | g_policycap_netpeer | g_policycap_openperm | g_policy_seqno | g_secmark_refcount
| g_xfrm_refcount | g_enforcing | g_allow_unknown.

Inductive call :=
| HasPerm (ssid tsid tclass requested : Z) (auditdata : option audit_data) (flags : Z)
| HasPermNoaudit (ssid tsid tclass requested flags : Z)
| TransitionSid (ssid tsid tclass : Z) (name : option string)
| ContextToSid (scontext : string)
| ContextToSidForce (scontext : string)
| ContextToSidDefault (scontext : string) (def_sid : Z)
| SidToContext (sid : Z)
| SidToContextForce (sid : Z)
| FsUse (fstype : string)
| GenfsSid (fstype path : string) (sclass : Z)
| BoundedTransition (old_sid new_sid : Z)
| ValidateTransition (oldsid newsid tasksid tclass : Z)
| SidMlsCopy (sid mls_sid : Z)
| PeersidResolve (nlbl_sid nlbl_type xfrm_sid : Z)
| NetportSid (protocol pnum : Z)
| NetnodeSid (addr : list Z) (family : Z)
| NetifSid (ifindex : Z)
| NetlblSecattrToSid (a : secattr)
| NetlblSidToSecattr (sid : Z) (a : secattr)
| NetlblSet (f : string) (a : secattr)      (* a function of NetLabel that attaches attributes *)
| Global (g : global)
| Kalloc
| Outside (f : string) (args : list Z).  (* a function of the kernel outside of the module *)

(** An answer: the return value, what is written through the pointers (nothing
    where the callee leaves the variable alone), a decision, and NetLabel
    attributes. *)
Record answer := mk_answer_attr {
  an_rc : Z;
  an_out : option Z;
  an_out2 : option Z;
  an_text : option string;
  an_avd : option av_decision;
  an_attr : option secattr
}.
Definition mk_answer (rc : Z) (out out2 : option Z) (text : option string) (avd : option av_decision) : answer :=
  mk_answer_attr rc out out2 text avd None.

Definition rc_only (rc : Z) : answer := mk_answer rc None None None None.

(** ** Hooks *)

Inductive hook (A : Type) :=
| Ret (a : A)
| Bug
| Call (c : call) (k : answer -> hook A).
Arguments Ret {A} a.
Arguments Bug {A}.
Arguments Call {A} c k.

Fixpoint hook_bind {A B} (f : A -> hook B) (p : hook A) : hook B :=
  match p with
  | Ret a => f a
  | Bug => Bug
  | Call c k => Call c (fun an => hook_bind f (k an))
  end.

#[export] Instance hook_ret : MRet hook := fun A a => Ret a.
#[export] Instance hook_mbind : MBind hook := fun A B f p => hook_bind f p.

Definition of_option {A} (o : option A) : hook A := match o with Some a => Ret a | None => Bug end.

(** A run of a hook: the calls it makes and the answers it gets. *)
Definition trace := list (call * answer).

Fixpoint runs {A} (p : hook A) (tr : trace) (a : A) : Prop :=
  match p with
  | Ret b => tr = [] /\ a = b
  | Bug => False
  | Call c k => match tr with [] => False | (c', an) :: tr' => c' = c /\ runs (k an) tr' a end
  end.

(** The calls a hook makes are those of its parts. *)
Lemma runs_bind {A B} (p : hook A) (f : A -> hook B) tr b :
  runs (p ≫= f) tr b <-> exists tr1 tr2 a, tr = tr1 ++ tr2 /\ runs p tr1 a /\ runs (f a) tr2 b.
Proof.
  revert tr. induction p as [a| |c k IH]; intros tr; cbn.
  - split.
    + intros H. by exists [], tr, a.
    + by intros (tr1 & tr2 & a' & -> & [-> ->] & H).
  - split; [done|]. by intros (? & ? & ? & _ & [] & _).
  - destruct tr as [|[c' an] tr].
    + split; [done|]. intros ([|[] ?] & ? & ? & E & H & _); [done|discriminate E].
    + unfold mbind, hook_mbind in IH. rewrite IH. split.
      * intros (-> & tr1 & tr2 & a & -> & H1 & H2). by exists ((c, an) :: tr1), tr2, a.
      * intros ([|[c1 an1] tr1] & tr2 & a & E & H1 & H2); [done|]. cbn in E. injection E as -> -> ->.
        destruct H1 as [-> H1]. split; [done|]. by exists tr1, tr2, a.
Qed.

Lemma runs_ret {A} (a b : A) tr : runs (mret a) tr b <-> tr = [] /\ b = a.
Proof. done. Qed.

(** Answers chosen by a function of the call: an executable run. *)
Fixpoint with_answers {A} (ans : call -> answer) (p : hook A) : option (A * trace) :=
  match p with
  | Ret a => Some (a, [])
  | Bug => None
  | Call c k => '(a, tr) ← with_answers ans (k (ans c)); Some (a, (c, ans c) :: tr)
  end.

Lemma with_answers_runs {A} ans (p : hook A) a tr : with_answers ans p = Some (a, tr) -> runs p tr a.
Proof.
  revert a tr. induction p as [b| |c k IH]; cbn; intros a tr H; [by injection H as <- <-|done|].
  apply bind_Some in H as ([a' tr'] & H & E). injection E as <- <-. split; [done|]. by apply IH.
Qed.

(** The result alone, which composes along [bind]. *)
Fixpoint eval {A} (ans : call -> answer) (p : hook A) : option A :=
  match p with
  | Ret a => Some a
  | Bug => None
  | Call c k => eval ans (k (ans c))
  end.

Lemma eval_bind {A B} ans (p : hook A) (f : A -> hook B) : eval ans (p ≫= f) = eval ans p ≫= fun a => eval ans (f a).
Proof. induction p as [a| |c k IH]; [done|done|]. cbn. apply IH. Qed.

Lemma eval_answers {A} ans (p : hook A) : eval ans p = fst <$> with_answers ans p.
Proof. induction p as [a| |c k IH]; [done|done|]. cbn. rewrite IH. by destruct (with_answers ans (k (ans c))) as [[]|]. Qed.

(** All answers of a run are those of one function: nothing changes meanwhile. *)
Definition answered_by (ans : call -> answer) (tr : trace) : Prop := Forall (fun e => e.2 = ans e.1) tr.

Lemma with_answers_by {A} ans (p : hook A) a tr : with_answers ans p = Some (a, tr) -> answered_by ans tr.
Proof.
  revert a tr. induction p as [b| |c k IH]; cbn; intros a tr H; [injection H as <- <-; constructor|done|].
  apply bind_Some in H as ([a' tr'] & H & E). injection E as <- <-. constructor; [done|by eapply IH].
Qed.

(** The permission was asked for in the run and granted. *)
Definition granted (tr : trace) (ssid tsid tclass requested : Z) : Prop :=
  exists ad fl an, (HasPerm ssid tsid tclass requested ad fl, an) ∈ tr /\ an_rc an = 0.

(** ** The calls by their names *)

Definition avc_has_perm_flags (ssid tsid tclass requested : Z) (ad : option audit_data) (flags : Z) : hook Z :=
  Call (HasPerm ssid tsid tclass requested ad flags) (fun an => Ret (an_rc an)).
Definition avc_has_perm (ssid tsid tclass requested : Z) (ad : option audit_data) : hook Z :=
  avc_has_perm_flags ssid tsid tclass requested ad 0.

(** A call that writes a SID: [old] is what the variable held. *)
Definition ask_sid (c : call) (old : Z) : hook (Z * Z) :=
  Call c (fun an => Ret (an_rc an, default old (an_out an))).
Definition ask_rc (c : call) : hook Z := Call c (fun an => Ret (an_rc an)).
Definition ask_bool (c : call) : hook bool := Call c (fun an => Ret (nz (an_rc an))).
Definition security_transition_sid (ssid tsid tclass : Z) (name : option string) (old : Z) : hook (Z * Z) :=
  ask_sid (TransitionSid ssid tsid tclass name) old.
Definition security_context_to_sid (scontext : string) (old : Z) : hook (Z * Z) := ask_sid (ContextToSid scontext) old.
Definition security_context_to_sid_force (scontext : string) (old : Z) : hook (Z * Z) := ask_sid (ContextToSidForce scontext) old.
Definition security_context_to_sid_default (scontext : string) (def_sid old : Z) : hook (Z * Z) :=
  ask_sid (ContextToSidDefault scontext def_sid) old.
(** The text and its length; [None] and 0 when nothing was written. *)
Definition security_sid_to_context (sid : Z) : hook (Z * option string * Z) :=
  Call (SidToContext sid) (fun an => Ret (an_rc an, an_text an, default 0 (an_out an))).
Definition security_sid_to_context_force (sid : Z) : hook (Z * option string * Z) :=
  Call (SidToContextForce sid) (fun an => Ret (an_rc an, an_text an, default 0 (an_out an))).
Definition security_bounded_transition (old_sid new_sid : Z) : hook Z := ask_rc (BoundedTransition old_sid new_sid).
Definition security_validate_transition (oldsid newsid tasksid tclass : Z) : hook Z :=
  ask_rc (ValidateTransition oldsid newsid tasksid tclass).
Definition kernel_alloc : hook bool := ask_bool Kalloc.
Definition outside (f : string) (args : list Z) : hook Z := ask_rc (Outside f args).

(** [COMMON_AUDIT_DATA_INIT(&ad, FS)], and the other types. *)
Definition ad_of_fs : option audit_data := Some (mk_audit_data true 0).
Definition ad_other : option audit_data := Some (mk_audit_data false 0).

(** ** Runs of the calls *)

Lemma runs_call {A} c (k : answer -> hook A) tr a :
  runs (Call c k) tr a <-> exists an tr', tr = (c, an) :: tr' /\ runs (k an) tr' a.
Proof.
  cbn. destruct tr as [|[c' an] tr]; split; [done|by intros (? & ? & ? & _)| |].
  - intros [-> H]. by exists an, tr.
  - intros (an' & tr' & E & H). by injection E as -> -> ->.
Qed.

#[global] Arguments runs : simpl never.

(** Runs with answers of one function, step by step. *)
Definition runs_by {A} (ans : call -> answer) (p : hook A) (tr : trace) (a : A) : Prop := runs p tr a /\ answered_by ans tr.

Lemma runs_by_bind {A B} ans (p : hook A) (f : A -> hook B) tr b :
  runs_by ans (p ≫= f) tr b -> exists tr1 tr2 a, tr = tr1 ++ tr2 /\ runs_by ans p tr1 a /\ runs_by ans (f a) tr2 b.
Proof. intros [(tr1 & tr2 & a & -> & H1 & H2)%runs_bind [A1 A2]%Forall_app]. by exists tr1, tr2, a. Qed.

Lemma runs_by_call {A} ans c (k : answer -> hook A) tr a :
  runs_by ans (Call c k) tr a -> exists tr', tr = (c, ans c) :: tr' /\ runs_by ans (k (ans c)) tr' a.
Proof.
  intros [(an & tr' & -> & H)%runs_call Ha]. apply Forall_cons in Ha as [E Ha]. cbn in E. subst an. by exists tr'.
Qed.

Lemma runs_by_ret {A} ans (a b : A) tr : runs_by ans (Ret a) tr b -> tr = [] /\ b = a.
Proof. by intros [[-> ->] _]. Qed.

Lemma runs_by_eval {A} ans (p : hook A) tr a : runs_by ans p tr a -> eval ans p = Some a.
Proof.
  revert tr. induction p as [b| |c k IH]; intros tr H.
  - by apply runs_by_ret in H as [_ ->].
  - by destruct H.
  - apply runs_by_call in H as (tr' & -> & H). by eapply IH.
Qed.

Lemma runs_perm ssid tsid tclass requested ad fl tr rc :
  runs (avc_has_perm_flags ssid tsid tclass requested ad fl) tr rc <->
  exists an, tr = [(HasPerm ssid tsid tclass requested ad fl, an)] /\ rc = an_rc an.
Proof.
  unfold avc_has_perm_flags. rewrite runs_call. split.
  - intros (an & tr' & -> & [-> ->]). by exists an.
  - intros (an & -> & ->). by exists an, [].
Qed.

Lemma granted_here ssid tsid tclass requested ad fl an tr :
  an_rc an = 0 -> (HasPerm ssid tsid tclass requested ad fl, an) ∈ tr -> granted tr ssid tsid tclass requested.
Proof. intros H0 Hin. by exists ad, fl, an. Qed.

Lemma granted_app_l tr1 tr2 s t c r : granted tr1 s t c r -> granted (tr1 ++ tr2) s t c r.
Proof. intros (ad & fl & an & Hin & H). exists ad, fl, an. split; [apply elem_of_app; by left|done]. Qed.

Lemma granted_app_r tr1 tr2 s t c r : granted tr2 s t c r -> granted (tr1 ++ tr2) s t c r.
Proof. intros (ad & fl & an & Hin & H). exists ad, fl, an. split; [apply elem_of_app; by right|done]. Qed.

Lemma granted_head s t c r ad fl an tr : an_rc an = 0 -> granted ((HasPerm s t c r ad fl, an) :: tr) s t c r.
Proof. intros H. exists ad, fl, an. split; [constructor|done]. Qed.

Lemma granted_cons e tr s t c r : granted tr s t c r -> granted (e :: tr) s t c r.
Proof. apply (granted_app_r [e]). Qed.

Create HintDb hooks.
#[export] Hint Resolve granted_app_l granted_app_r granted_head granted_cons : hooks.

(** Walks through a run: one call, one result, one bind or one choice at a
    time; [run_all] until nothing is left. *)
Ltac run_step H :=
  lazymatch type of H with
  | runs (mbind _ _) _ _ => apply runs_bind in H as (? & ? & ? & ? & ? & H)
  | runs (mret _) _ _ => apply runs_ret in H as [? ?]
  | runs (Ret _) _ _ => destruct H as [? ?]
  | runs Bug _ _ => destruct H
  | runs (avc_has_perm _ _ _ _ _) _ _ => apply runs_perm in H as (? & ? & ?)
  | runs (avc_has_perm_flags _ _ _ _ _ _) _ _ => apply runs_perm in H as (? & ? & ?)
  | runs (Call _ _) _ _ => apply runs_call in H as (? & ? & ? & H)
  | runs (ask_sid _ _) _ _ => unfold ask_sid in H
  | runs (ask_rc _) _ _ => unfold ask_rc in H
  | runs (ask_bool _) _ _ => unfold ask_bool in H
  | runs kernel_alloc _ _ => unfold kernel_alloc in H
  | runs (outside _ _) _ _ => unfold outside in H
  | runs (security_transition_sid _ _ _ _ _) _ _ => unfold security_transition_sid in H
  | runs (security_context_to_sid _ _) _ _ => unfold security_context_to_sid in H
  | runs (security_context_to_sid_force _ _) _ _ => unfold security_context_to_sid_force in H
  | runs (security_validate_transition _ _ _ _) _ _ => unfold security_validate_transition in H
  | runs (security_bounded_transition _ _) _ _ => unfold security_bounded_transition in H
  | runs (match ?x with _ => _ end) _ _ => destruct x eqn:?
  end.

Ltac run_all :=
  repeat match goal with H : runs _ _ _ |- _ => progress (run_step H) end; simplify_eq/=;
  repeat match goal with H : nz (an_rc _) = false |- _ => apply nz_false in H end;
  try match goal with H : nz ?x = true, E : 0 = ?x |- _ => rewrite <- E in H; discriminate H end;
  try match goal with H : nz ?x = true, E : ?x = 0 |- _ => rewrite E in H; discriminate H end.

Ltac run_by H :=
  lazymatch type of H with
  | runs_by _ (mbind _ _) _ _ => apply runs_by_bind in H as (? & ? & ? & ? & ? & H)
  | runs_by _ (Ret _) _ _ => apply runs_by_ret in H as [? ?]
  | runs_by _ Bug _ _ => destruct H as [[] _]
  | runs_by _ (Call _ _) _ _ => apply runs_by_call in H as (? & ? & H)
  | runs_by _ (avc_has_perm _ _ _ _ _) _ _ => unfold avc_has_perm, avc_has_perm_flags in H
  | runs_by _ (ask_sid _ _) _ _ => unfold ask_sid in H
  | runs_by _ (ask_rc _) _ _ => unfold ask_rc in H
  | runs_by _ (ask_bool _) _ _ => unfold ask_bool in H
  | runs_by _ (outside _ _) _ _ => unfold outside in H
  | runs_by _ (match ?x with _ => _ end) _ _ => destruct x eqn:?
  end.

Ltac run_by_all :=
  repeat match goal with H : runs_by _ _ _ _ |- _ => progress (run_by H) end; simplify_eq/=;
  repeat match goal with H : nz (an_rc _) = false |- _ => apply nz_false in H end;
  try match goal with H : nz ?x = true, E : 0 = ?x |- _ => rewrite <- E in H; discriminate H end;
  try match goal with H : nz ?x = true, E : ?x = 0 |- _ => rewrite E in H; discriminate H end.

(** A permission granted in a part of the trace. *)
Ltac in_trace := repeat first [eassumption | apply granted_app_l; eassumption | apply granted_app_r].

(** ** Security blobs (include/objsec.h) *)

Record task_security := mk_task_security {
  osid : Z;
  sid : Z;
  exec_sid : Z;
  create_sid : Z;
  keycreate_sid : Z;
  sockcreate_sid : Z
}.

Record inode_security := mk_inode_security {
  i_task_sid : Z;
  i_sid : Z;
  i_sclass : Z;
  i_initialized : bool
}.

Record file_security := mk_file_security {
  f_sid : Z;
  f_fown_sid : Z;
  f_isid : Z;
  f_pseqno : Z
}.

Record superblock_security := mk_superblock_security {
  sb_sid : Z;
  sb_def_sid : Z;
  sb_mntpoint_sid : Z;
  sb_behavior : Z;
  sb_flags : Z
}.

(** What the hooks read of inodes, files and tasks.  A set of credentials is
    its security blob; a task has objective and subjective ones. *)
Record inode := mk_inode {
  i_mode : Z;
  i_private : bool;
  i_security : inode_security;
  i_sb : superblock_security
}.

Record file := mk_file {
  f_mode : Z;
  f_flags : Z;
  f_inode : inode;
  f_security : file_security
}.

Record task := mk_task {
  t_real_cred : task_security;
  t_cred : task_security
}.

#[export] Instance task_security_eq : EqDecision task_security.
Proof. solve_decision. Defined.
#[export] Instance inode_security_eq : EqDecision inode_security.
Proof. solve_decision. Defined.
#[export] Instance file_security_eq : EqDecision file_security.
Proof. solve_decision. Defined.
#[export] Instance superblock_security_eq : EqDecision superblock_security.
Proof. solve_decision. Defined.
#[export] Instance inode_eq : EqDecision inode.
Proof. solve_decision. Defined.
#[export] Instance file_eq : EqDecision file.
Proof. solve_decision. Defined.

Definition cred_sid (c : task_security) : Z := sid c.
Definition task_sid (t : task) : Z := cred_sid (t_real_cred t).
Definition current_sid (cur : task) : Z := sid (t_cred cur).
