(* ===== verification/HookTask.v ===== *)
(** Hooks on processes: checks between tasks, capabilities, execution of a
    program, and the attributes a process sets for itself (hooks.c). *)

From S2P Require Import Prelude Sidtab Classmap Avc Flask HookBase.
From stdpp Require Import strings.
From Stdlib Require Import String.
Open Scope Z_scope.

(** ** Checks between tasks *)

Definition SIGKILL : Z := 9.
Definition SIGCHLD : Z := 17.
Definition SIGSTOP : Z := 19.

Definition signal_to_av (sig : Z) : Z :=
  if sig =? SIGCHLD then PROCESS__SIGCHLD
  else if sig =? SIGKILL then PROCESS__SIGKILL
  else if sig =? SIGSTOP then PROCESS__SIGSTOP
  else PROCESS__SIGNAL.

Definition cred_has_perm (actor target : task_security) (perms : Z) : hook Z :=
  avc_has_perm (cred_sid actor) (cred_sid target) SECCLASS_PROCESS perms None.

Definition task_has_perm (tsk1 tsk2 : task) (perms : Z) : hook Z :=
  avc_has_perm (sid (t_real_cred tsk1)) (sid (t_real_cred tsk2)) SECCLASS_PROCESS perms None.

Definition current_has_perm (cur tsk : task) (perms : Z) : hook Z :=
  avc_has_perm (current_sid cur) (task_sid tsk) SECCLASS_PROCESS perms None.

Definition CAP_TO_INDEX (x : Z) : Z := x .>> 5.
Definition CAP_TO_MASK (x : Z) : Z := u32 (1 .<< (x .& 31)).
Definition SECURITY_CAP_NOAUDIT : Z := 0.
Definition SECURITY_CAP_AUDIT : Z := 1.
Definition CAP_SYS_ADMIN : Z := 21.
Definition CAP_MAC_ADMIN : Z := 33.

(** The check does not go through [avc_has_perm_flags]. *)
Definition task_has_capability (cred : task_security) (cap audit : Z) : hook Z :=
  let sid := cred_sid cred in
  let av := CAP_TO_MASK cap in
  sclass ← (if CAP_TO_INDEX cap =? 0 then Ret SECCLASS_CAPABILITY
            else if CAP_TO_INDEX cap =? 1 then Ret SECCLASS_CAPABILITY2
            else Bug);
  Call (HasPermNoaudit sid sid sclass av 0) (fun an =>
    let rc := an_rc an in
    if audit =? SECURITY_CAP_AUDIT then
      avd ← of_option (an_avd an);
      let rc2 := (avc_audit sid sid sclass av avd rc ad_other 0).1 in
      if nz rc2 then Ret rc2 else Ret rc
    else Ret rc).

Definition task_has_system (tsk : task) (perms : Z) : hook Z :=
  avc_has_perm (task_sid tsk) SECINITSID_KERNEL SECCLASS_SYSTEM perms None.

Definition may_create_key (ksid : Z) (ctx : task) : hook Z :=
  avc_has_perm (task_sid ctx) ksid SECCLASS_KEY KEY__CREATE None.

(** ** Hooks on tasks *)

Definition PTRACE_MODE_READ : Z := 1.

Definition selinux_ptrace_access_check (cur child : task) (mode : Z) : hook Z :=
  rc ← outside "cap_ptrace_access_check" [mode];
  if nz rc then Ret rc
  else if mode =? PTRACE_MODE_READ then avc_has_perm (current_sid cur) (task_sid child) SECCLASS_FILE FILE__READ None
  else current_has_perm cur child PROCESS__PTRACE.

Definition selinux_ptrace_traceme (cur parent : task) : hook Z :=
  rc ← outside "cap_ptrace_traceme" [];
  if nz rc then Ret rc else task_has_perm parent cur PROCESS__PTRACE.

Definition selinux_capget (cur target : task) : hook Z :=
  error ← current_has_perm cur target PROCESS__GETCAP;
  if nz error then Ret error else outside "cap_capget" [].

Definition selinux_capset (new old : task_security) : hook Z :=
  error ← outside "cap_capset" [];
  if nz error then Ret error else cred_has_perm old new PROCESS__SETCAP.

Definition selinux_capable (cred : task_security) (cap audit : Z) : hook Z :=
  rc ← outside "cap_capable" [cap; audit];
  if nz rc then Ret rc else task_has_capability cred cap audit.

(** [capable] (kernel/capability.c): this hook, and then grsecurity. *)
Definition capable (cur : task) (cap : Z) : hook bool :=
  rc ← selinux_capable (t_cred cur) cap SECURITY_CAP_AUDIT;
  if rc =? 0 then gr ← outside "gr_is_capable" [cap]; Ret (nz gr) else Ret false.

Definition SYSLOG_ACTION_READ_ALL : Z := 3.
Definition SYSLOG_ACTION_CONSOLE_OFF : Z := 6.
Definition SYSLOG_ACTION_CONSOLE_ON : Z := 7.
Definition SYSLOG_ACTION_CONSOLE_LEVEL : Z := 8.
Definition SYSLOG_ACTION_SIZE_BUFFER : Z := 10.

Definition selinux_syslog (cur : task) (type : Z) : hook Z :=
  if (type =? SYSLOG_ACTION_READ_ALL) || (type =? SYSLOG_ACTION_SIZE_BUFFER) then task_has_system cur SYSTEM__SYSLOG_READ
  else if (type =? SYSLOG_ACTION_CONSOLE_OFF) || (type =? SYSLOG_ACTION_CONSOLE_ON) || (type =? SYSLOG_ACTION_CONSOLE_LEVEL)
  then task_has_system cur SYSTEM__SYSLOG_CONSOLE
  else task_has_system cur SYSTEM__SYSLOG_MOD.

Definition selinux_vm_enough_memory (cur : task) (pages : Z) : hook Z :=
  rc ← selinux_capable (t_cred cur) CAP_SYS_ADMIN SECURITY_CAP_NOAUDIT;
  outside "__vm_enough_memory" [pages; b2i (rc =? 0)].

Definition selinux_task_create (cur : task) : hook Z := current_has_perm cur cur PROCESS__FORK.

Definition no_security : task_security := mk_task_security 0 0 0 0 0 0.

Definition selinux_cred_alloc_blank : hook (Z * option task_security) :=
  ok ← kernel_alloc;
  if negb ok then Ret (- ENOMEM, None) else Ret (0, Some no_security).

Definition selinux_cred_prepare (old : task_security) : hook (Z * option task_security) :=
  ok ← kernel_alloc;
  if negb ok then Ret (- ENOMEM, None) else Ret (0, Some old).

(** Result: the return value and the blob of [new]. *)
Definition selinux_kernel_act_as (cur : task) (new : task_security) (secid : Z) : hook (Z * task_security) :=
  ret ← avc_has_perm (current_sid cur) secid SECCLASS_KERNEL_SERVICE KERNEL_SERVICE__USE_AS_OVERRIDE None;
  Ret (ret, if ret =? 0 then mk_task_security (osid new) secid (exec_sid new) 0 0 0 else new).

Definition selinux_kernel_create_files_as (cur : task) (new : task_security) (isec : inode_security)
    : hook (Z * task_security) :=
  ret ← avc_has_perm (current_sid cur) (i_sid isec) SECCLASS_KERNEL_SERVICE KERNEL_SERVICE__CREATE_FILES_AS None;
  Ret (ret, if ret =? 0
            then mk_task_security (osid new) (sid new) (exec_sid new) (i_sid isec) (keycreate_sid new) (sockcreate_sid new)
            else new).

Definition selinux_kernel_module_request (cur : task) : hook Z :=
  avc_has_perm (task_sid cur) SECINITSID_KERNEL SECCLASS_SYSTEM SYSTEM__MODULE_REQUEST ad_other.

(** [cap_task_setnice], [cap_task_setioprio] and [cap_task_setscheduler] come first. *)
Definition selinux_task_setsched (cap_check : string) (cur p : task) : hook Z :=
  rc ← outside cap_check [];
  if nz rc then Ret rc else current_has_perm cur p PROCESS__SETSCHED.

Definition selinux_task_setrlimit (cur p : task) (old_max new_max : Z) : hook Z :=
  if negb (old_max =? new_max) then current_has_perm cur p PROCESS__SETRLIMIT else Ret 0.

Definition selinux_task_kill (cur p : task) (sig secid : Z) : hook Z :=
  let perm := if sig =? 0 then PROCESS__SIGNULL else signal_to_av sig in
  if nz secid then avc_has_perm secid (task_sid p) SECCLASS_PROCESS perm None
  else current_has_perm cur p perm.

Definition selinux_task_wait (cur p : task) : hook Z := task_has_perm p cur PROCESS__SIGCHLD.

Definition selinux_task_to_inode (p : task) (isec : inode_security) : inode_security :=
  mk_inode_security (i_task_sid isec) (task_sid p) (i_sclass isec) true.

(** ** Execution of a program *)

Definition LSM_UNSAFE_SHARE : Z := 1.
Definition LSM_UNSAFE_PTRACE : Z := 2.
Definition LSM_UNSAFE_PTRACE_CAP : Z := 4.
Definition MNT_NOSUID : Z := 1.
(** READ_IMPLIES_EXEC | ADDR_NO_RANDOMIZE | ADDR_COMPAT_LAYOUT | MMAP_PAGE_ZERO *)
Definition PER_CLEAR_ON_SETID : Z := 0x0400000 .| 0x0040000 .| 0x0200000 .| 0x0100000.

(** What the hook reads and writes of [struct linux_binprm]. *)
Record binprm := mk_binprm {
  bp_cred : task_security;
  bp_cred_prepared : bool;
  bp_unsafe : Z;
  bp_per_clear : Z;
  bp_inode : inode;
  bp_mnt_flags : Z
}.

Definition set_bp_cred (b : binprm) (c : task_security) : binprm :=
  mk_binprm c (bp_cred_prepared b) (bp_unsafe b) (bp_per_clear b) (bp_inode b) (bp_mnt_flags b).
Definition set_bp_per_clear (b : binprm) (v : Z) : binprm :=
  mk_binprm (bp_cred b) (bp_cred_prepared b) (bp_unsafe b) v (bp_inode b) (bp_mnt_flags b).
Definition set_sid (t : task_security) (v : Z) : task_security :=
  mk_task_security (osid t) v (exec_sid t) (create_sid t) (keycreate_sid t) (sockcreate_sid t).

(** The tests for shared state and for a tracer. *)
Definition transition_unsafe (old new : Z) (unsafe : Z) (tracer : option task) : hook Z :=
  rc ← (if nz (unsafe .& LSM_UNSAFE_SHARE) then avc_has_perm old new SECCLASS_PROCESS PROCESS__SHARE None else Ret 0);
  if nz rc then Ret (- EPERM)
  else if nz (unsafe .& (LSM_UNSAFE_PTRACE .| LSM_UNSAFE_PTRACE_CAP)) then
    let ptsid := match tracer with Some t => sid (t_real_cred t) | None => 0 end in
    rc ← (if negb (ptsid =? 0) then avc_has_perm ptsid new SECCLASS_PROCESS PROCESS__PTRACE None else Ret 0);
    if nz rc then Ret (- EPERM) else Ret 0
  else Ret 0.

(** [tracer] is [tracehook_tracer_task(current)].  Result: the return value and
    the program descriptor with the credentials it has then. *)
Definition selinux_bprm_set_creds (cur : task) (tracer : option task) (b : binprm) : hook (Z * binprm) :=
  rc ← outside "cap_bprm_set_creds" [];
  if nz rc then Ret (rc, b)
  else if bp_cred_prepared b then Ret (0, b)
  else
    let old := t_cred cur in
    let isec := i_security (bp_inode b) in
    let new := mk_task_security (sid old) (sid old) (exec_sid (bp_cred b)) 0 0 0 in
    '(rc, new) ← (if nz (exec_sid old) then Ret (0, mk_task_security (osid new) (exec_sid old) 0 0 0 0)
                  else
                    '(rc, newsid) ← security_transition_sid (sid old) (i_sid isec) SECCLASS_PROCESS None (sid new);
                    Ret (rc, set_sid new newsid));
    if nz rc then Ret (rc, set_bp_cred b new)
    else
      let new := if nz (bp_mnt_flags b .& MNT_NOSUID) then set_sid new (sid old) else new in
      let b := set_bp_cred b new in
      if sid new =? sid old then
        rc ← avc_has_perm (sid old) (i_sid isec) SECCLASS_FILE FILE__EXECUTE_NO_TRANS ad_of_fs;
        Ret (rc, b)
      else
        rc ← avc_has_perm (sid old) (sid new) SECCLASS_PROCESS PROCESS__TRANSITION ad_of_fs;
        if nz rc then Ret (rc, b)
        else
          rc ← avc_has_perm (sid new) (i_sid isec) SECCLASS_FILE FILE__ENTRYPOINT ad_of_fs;
          if nz rc then Ret (rc, b)
          else
            rc ← transition_unsafe (sid old) (sid new) (bp_unsafe b) tracer;
            if nz rc then Ret (rc, b)
            else Ret (0, set_bp_per_clear b (bp_per_clear b .| PER_CLEAR_ON_SETID)).

Definition selinux_bprm_secureexec (cur : task) : hook bool :=
  let tsec := t_cred cur in
  atsecure ← (if negb (osid tsec =? sid tsec)
              then avc_has_perm (osid tsec) (sid tsec) SECCLASS_PROCESS PROCESS__NOATSECURE None
              else Ret 0);
  if nz atsecure then Ret true
  else rc ← outside "cap_bprm_secureexec" []; Ret (nz rc).
