(* ===== verification/HookFile.v ===== *)
(** Hooks on inodes and open files: the access checks of hooks.c, the
    revalidation of open files, and what it relies on. *)

From S2P Require Import Prelude Sidtab Classmap Avc Flask HookBase HookTask.
From stdpp Require Import strings.
From Stdlib Require Import String.
Open Scope Z_scope.

(** ** Access vectors of files *)

Definition S_IFMT : Z := 0xf000.
Definition S_IFSOCK : Z := 0xc000.
Definition S_IFLNK : Z := 0xa000.
Definition S_IFREG : Z := 0x8000.
Definition S_IFBLK : Z := 0x6000.
Definition S_IFDIR : Z := 0x4000.
Definition S_IFCHR : Z := 0x2000.
Definition S_IFIFO : Z := 0x1000.
Definition S_ISDIR (mode : Z) : bool := mode .& S_IFMT =? S_IFDIR.

Definition inode_mode_to_security_class (mode : Z) : Z :=
  let t := mode .& S_IFMT in
  if t =? S_IFSOCK then SECCLASS_SOCK_FILE
  else if t =? S_IFLNK then SECCLASS_LNK_FILE
  else if t =? S_IFREG then SECCLASS_FILE
  else if t =? S_IFBLK then SECCLASS_BLK_FILE
  else if t =? S_IFDIR then SECCLASS_DIR
  else if t =? S_IFCHR then SECCLASS_CHR_FILE
  else if t =? S_IFIFO then SECCLASS_FIFO_FILE
  else SECCLASS_FILE.

Definition MAY_EXEC : Z := 1.
Definition MAY_WRITE : Z := 2.
Definition MAY_READ : Z := 4.
Definition MAY_APPEND : Z := 8.
Definition MAY_ACCESS : Z := 16.
Definition FMODE_READ : Z := 1.
Definition FMODE_WRITE : Z := 2.
Definition O_APPEND : Z := 0x400.

(** [if (c) av |= bit] *)
Definition or_if (c : bool) (bit av : Z) : Z := if c then av .| bit else av.

Definition file_mask_to_av (mode mask : Z) : Z :=
  if negb (mode .& S_IFMT =? S_IFDIR) then
    let av := or_if (nz (mask .& MAY_EXEC)) FILE__EXECUTE 0 in
    let av := or_if (nz (mask .& MAY_READ)) FILE__READ av in
    if nz (mask .& MAY_APPEND) then av .| FILE__APPEND else or_if (nz (mask .& MAY_WRITE)) FILE__WRITE av
  else
    let av := or_if (nz (mask .& MAY_EXEC)) DIR__SEARCH 0 in
    let av := or_if (nz (mask .& MAY_WRITE)) DIR__WRITE av in
    or_if (nz (mask .& MAY_READ)) DIR__READ av.

Definition file_to_av (f : file) : Z :=
  let av := or_if (nz (f_mode f .& FMODE_READ)) FILE__READ 0 in
  let av := if nz (f_mode f .& FMODE_WRITE)
            then if nz (f_flags f .& O_APPEND) then av .| FILE__APPEND else av .| FILE__WRITE
            else av in
  if av =? 0 then FILE__IOCTL else av.

Definition open_file_to_av (f : file) : hook Z :=
  openperm ← ask_bool (Global g_policycap_openperm);
  Ret (or_if openperm FILE__OPEN (file_to_av f)).

(** ** Checks *)

Definition inode_has_perm (cred : task_security) (i : inode) (perms : Z) (adp : option audit_data) (flags : Z) : hook Z :=
  if i_private i then Ret 0
  else
    let adp := match adp with Some _ => adp | None => ad_of_fs end in
    avc_has_perm_flags (cred_sid cred) (i_sid (i_security i)) (i_sclass (i_security i)) perms adp flags.

Definition dentry_has_perm (cred : task_security) (i : inode) (av : Z) : hook Z := inode_has_perm cred i av ad_of_fs 0.

Definition file_has_perm (cred : task_security) (f : file) (av : Z) : hook Z :=
  let sid := cred_sid cred in
  rc ← (if negb (sid =? f_sid (f_security f)) then avc_has_perm sid (f_sid (f_security f)) SECCLASS_FD FD__USE ad_of_fs
        else Ret 0);
  if nz rc then Ret rc
  else if nz av then inode_has_perm cred (f_inode f) av ad_of_fs 0
  else Ret 0.

Definition superblock_has_perm (cred : task_security) (sb : superblock_security) (perms : Z) (ad : option audit_data) : hook Z :=
  avc_has_perm (cred_sid cred) (sb_sid sb) SECCLASS_FILESYSTEM perms ad.

(** [SE_SBLABELSUPP]: the file system stores labels. *)
Definition SE_SBINITIALIZED : Z := 0x10.
Definition SE_SBPROC : Z := 0x20.
Definition SE_SBLABELSUPP : Z := 0x40.

Definition may_create (cur : task) (dir : inode) (name : string) (tclass : Z) : hook Z :=
  let tsec := t_cred cur in
  let dsec := i_security dir in
  let sbsec := i_sb dir in
  let newsid := create_sid tsec in
  rc ← avc_has_perm (sid tsec) (i_sid dsec) SECCLASS_DIR (DIR__ADD_NAME .| DIR__SEARCH) ad_of_fs;
  if nz rc then Ret rc
  else
    '(rc, newsid) ← (if (newsid =? 0) || negb (nz (sb_flags sbsec .& SE_SBLABELSUPP))
                     then security_transition_sid (sid tsec) (i_sid dsec) tclass (Some name) newsid
                     else Ret (0, newsid));
    if nz rc then Ret rc
    else
      rc ← avc_has_perm (sid tsec) newsid tclass FILE__CREATE ad_of_fs;
      if nz rc then Ret rc
      else avc_has_perm newsid (sb_sid sbsec) SECCLASS_FILESYSTEM FILESYSTEM__ASSOCIATE ad_of_fs.

Definition MAY_LINK : Z := 0.
Definition MAY_UNLINK : Z := 1.
Definition MAY_RMDIR : Z := 2.

Definition may_link (cur : task) (dir i : inode) (kind : Z) : hook Z :=
  let sid := current_sid cur in
  let av := DIR__SEARCH .| (if nz kind then DIR__REMOVE_NAME else DIR__ADD_NAME) in
  rc ← avc_has_perm sid (i_sid (i_security dir)) SECCLASS_DIR av ad_of_fs;
  if nz rc then Ret rc
  else
    let check av := avc_has_perm sid (i_sid (i_security i)) (i_sclass (i_security i)) av ad_of_fs in
    if kind =? MAY_LINK then check FILE__LINK
    else if kind =? MAY_UNLINK then check FILE__UNLINK
    else if kind =? MAY_RMDIR then check DIR__RMDIR
    else Ret 0.

(** [same_dir]: the two directories are one inode; [new]: the inode the new
    name refers to, if any. *)
Definition may_rename (cur : task) (old_dir old new_dir : inode) (same_dir : bool) (new : option inode) : hook Z :=
  let sid := current_sid cur in
  let old_isec := i_security old in
  rc ← avc_has_perm sid (i_sid (i_security old_dir)) SECCLASS_DIR (DIR__REMOVE_NAME .| DIR__SEARCH) ad_of_fs;
  if nz rc then Ret rc
  else
    rc ← avc_has_perm sid (i_sid old_isec) (i_sclass old_isec) FILE__RENAME ad_of_fs;
    if nz rc then Ret rc
    else
      rc ← (if S_ISDIR (i_mode old) && negb same_dir
            then avc_has_perm sid (i_sid old_isec) (i_sclass old_isec) DIR__REPARENT ad_of_fs
            else Ret 0);
      if nz rc then Ret rc
      else
        let av := DIR__ADD_NAME .| DIR__SEARCH in
        let av := match new with Some _ => av .| DIR__REMOVE_NAME | None => av end in
        rc ← avc_has_perm sid (i_sid (i_security new_dir)) SECCLASS_DIR av ad_of_fs;
        if nz rc then Ret rc
        else
          match new with
          | Some n =>
              rc ← avc_has_perm sid (i_sid (i_security n)) (i_sclass (i_security n))
                     (if S_ISDIR (i_mode n) then DIR__RMDIR else FILE__UNLINK) ad_of_fs;
              if nz rc then Ret rc else Ret 0
          | None => Ret 0
          end.

(** ** Hooks on inodes *)

Definition XATTR_SECURITY_PREFIX : string := "security.".
Definition XATTR_SELINUX_SUFFIX : string := "selinux".
Definition XATTR_NAME_SELINUX : string := "security.selinux".
Definition XATTR_NAME_CAPS : string := "security.capability".

Definition SECINITSID_FILE : Z := 5.

(** [kmem_cache_zalloc] and the fields written then. *)
Definition inode_alloc_security (cur : task) : hook (Z * option inode_security) :=
  ok ← kernel_alloc;
  if negb ok then Ret (- ENOMEM, None)
  else Ret (0, Some (mk_inode_security (current_sid cur) SECINITSID_UNLABELED SECCLASS_FILE false)).

Definition selinux_inode_create (cur : task) (dir : inode) (name : string) : hook Z := may_create cur dir name SECCLASS_FILE.
Definition selinux_inode_symlink (cur : task) (dir : inode) (name : string) : hook Z := may_create cur dir name SECCLASS_LNK_FILE.
Definition selinux_inode_mkdir (cur : task) (dir : inode) (name : string) : hook Z := may_create cur dir name SECCLASS_DIR.
Definition selinux_inode_mknod (cur : task) (dir : inode) (name : string) (mode : Z) : hook Z :=
  may_create cur dir name (inode_mode_to_security_class mode).
Definition selinux_inode_link (cur : task) (dir old : inode) : hook Z := may_link cur dir old MAY_LINK.
Definition selinux_inode_unlink (cur : task) (dir i : inode) : hook Z := may_link cur dir i MAY_UNLINK.
Definition selinux_inode_rmdir (cur : task) (dir i : inode) : hook Z := may_link cur dir i MAY_RMDIR.

Definition selinux_inode_permission (cur : task) (i : inode) (mask flags : Z) : hook Z :=
  let from_access := nz (mask .& MAY_ACCESS) in
  let mask := mask .& (MAY_READ .| MAY_WRITE .| MAY_EXEC .| MAY_APPEND) in
  if mask =? 0 then Ret 0
  else
    let ad := Some (mk_audit_data true (if from_access then FILE__AUDIT_ACCESS else 0)) in
    inode_has_perm (t_cred cur) i (file_mask_to_av (i_mode i) mask) ad flags.

Definition ATTR_MODE : Z := 1.
Definition ATTR_UID : Z := 2.
Definition ATTR_GID : Z := 4.
Definition ATTR_ATIME_SET : Z := 0x80.
Definition ATTR_MTIME_SET : Z := 0x100.
Definition ATTR_FORCE : Z := 0x200.
Definition ATTR_KILL_SUID : Z := 0x800.
Definition ATTR_KILL_SGID : Z := 0x1000.
Definition ATTR_TIMES_SET : Z := 0x10000.

Definition selinux_inode_setattr (cur : task) (i : inode) (ia_valid : Z) : hook Z :=
  let forced := nz (ia_valid .& ATTR_FORCE) in
  let ia_valid := if forced
                  then ia_valid .& not32 (ATTR_KILL_SUID .| ATTR_KILL_SGID .| ATTR_MODE .| ATTR_FORCE)
                  else ia_valid in
  if forced && (ia_valid =? 0) then Ret 0
  else if nz (ia_valid .& (ATTR_MODE .| ATTR_UID .| ATTR_GID .| ATTR_ATIME_SET .| ATTR_MTIME_SET .| ATTR_TIMES_SET))
  then dentry_has_perm (t_cred cur) i FILE__SETATTR
  else dentry_has_perm (t_cred cur) i FILE__WRITE.

Definition CAP_SETFCAP : Z := 31.

Definition selinux_inode_setotherxattr (cur : task) (i : inode) (name : string) : hook Z :=
  ok ← (if String.prefix XATTR_SECURITY_PREFIX name
        then if bool_decide (name = XATTR_NAME_CAPS) then capable cur CAP_SETFCAP else capable cur CAP_SYS_ADMIN
        else Ret true);
  if negb ok then Ret (- EPERM) else dentry_has_perm (t_cred cur) i FILE__SETATTR.

(** The SID of the new label: [security_context_to_sid], and for a context the
    policy does not know, with [CAP_MAC_ADMIN], the forced conversion. *)
Definition relabel_sid (cur : task) (value : string) : hook (Z * Z) :=
  '(rc, newsid) ← security_context_to_sid value 0;
  if rc =? - EINVAL then
    ok ← capable cur CAP_MAC_ADMIN;
    if negb ok then Ret (rc, newsid) else security_context_to_sid_force value newsid
  else Ret (rc, newsid).

Definition EOPNOTSUPP : Z := 95.

Definition selinux_inode_setxattr (cur : task) (i : inode) (name value : string) : hook Z :=
  let isec := i_security i in
  let sbsec := i_sb i in
  let sid := current_sid cur in
  if negb (bool_decide (name = XATTR_NAME_SELINUX)) then selinux_inode_setotherxattr cur i name
  else if negb (nz (sb_flags sbsec .& SE_SBLABELSUPP)) then Ret (- EOPNOTSUPP)
  else
    owner ← outside "inode_owner_or_capable" [];
    if owner =? 0 then Ret (- EPERM)
    else
      rc ← avc_has_perm sid (i_sid isec) (i_sclass isec) FILE__RELABELFROM ad_of_fs;
      if nz rc then Ret rc
      else
        '(rc, newsid) ← relabel_sid cur value;
        if nz rc then Ret rc
        else
          rc ← avc_has_perm sid newsid (i_sclass isec) FILE__RELABELTO ad_of_fs;
          if nz rc then Ret rc
          else
            rc ← security_validate_transition (i_sid isec) newsid sid (i_sclass isec);
            if nz rc then Ret rc
            else avc_has_perm newsid (sb_sid sbsec) SECCLASS_FILESYSTEM FILESYSTEM__ASSOCIATE ad_of_fs.

(** Result: the blob of the inode. *)
Definition selinux_inode_post_setxattr (isec : inode_security) (name value : string) : hook inode_security :=
  if negb (bool_decide (name = XATTR_NAME_SELINUX)) then Ret isec
  else
    '(rc, newsid) ← security_context_to_sid_force value 0;
    if nz rc then Ret isec
    else Ret (mk_inode_security (i_task_sid isec) newsid (i_sclass isec) (i_initialized isec)).

Definition selinux_inode_removexattr (cur : task) (i : inode) (name : string) : hook Z :=
  if negb (bool_decide (name = XATTR_NAME_SELINUX)) then selinux_inode_setotherxattr cur i name else Ret (- EACCES).

(** Result: the size of the context or an error, and the context. *)
Definition selinux_inode_getsecurity (cur : task) (isec : inode_security) (name : string) (alloc : bool)
    : hook (Z * option string) :=
  if negb (bool_decide (name = XATTR_SELINUX_SUFFIX)) then Ret (- EOPNOTSUPP, None)
  else
    error ← selinux_capable (t_cred cur) CAP_MAC_ADMIN SECURITY_CAP_NOAUDIT;
    '(error, context, size) ← (if error =? 0 then security_sid_to_context_force (i_sid isec)
                               else security_sid_to_context (i_sid isec));
    if nz error then Ret (error, None) else Ret (size, if alloc then context else None).

(** [value] and [size]: [None] and the empty string are refused. *)
Definition selinux_inode_setsecurity (isec : inode_security) (name : string) (value : option string)
    : hook (Z * inode_security) :=
  if negb (bool_decide (name = XATTR_SELINUX_SUFFIX)) then Ret (- EOPNOTSUPP, isec)
  else
    match value with
    | None | Some EmptyString => Ret (- EACCES, isec)
    | Some v =>
        '(rc, newsid) ← security_context_to_sid v 0;
        if nz rc then Ret (rc, isec)
        else Ret (0, mk_inode_security (i_task_sid isec) newsid (i_sclass isec) true)
    end.

(** ** Hooks on open files *)

Definition selinux_revalidate_file_permission (cur : task) (f : file) (mask : Z) : hook Z :=
  let mask := if nz (f_flags f .& O_APPEND) && nz (mask .& MAY_WRITE) then mask .| MAY_APPEND else mask in
  file_has_perm (t_cred cur) f (file_mask_to_av (i_mode (f_inode f)) mask).

Definition selinux_file_permission (cur : task) (f : file) (mask : Z) : hook Z :=
  let fsec := f_security f in
  if mask =? 0 then Ret 0
  else
    same ← (if (current_sid cur =? f_sid fsec) && (f_isid fsec =? i_sid (i_security (f_inode f)))
            then Call (Global g_policy_seqno) (fun an => Ret (f_pseqno fsec =? an_rc an))
            else Ret false);
    if same : bool then Ret 0 else selinux_revalidate_file_permission cur f mask.

(** [file_alloc_security] *)
Definition selinux_file_alloc_security (cur : task) : hook (Z * option file_security) :=
  ok ← kernel_alloc;
  if negb ok then Ret (- ENOMEM, None)
  else Ret (0, Some (mk_file_security (current_sid cur) (current_sid cur) 0 0)).

Definition getattr_cmds : list Z :=
  [0x541b; 0x1; 0x2; 0x80086601; 0x80087601].  (* FIONREAD FIBMAP FIGETBSZ EXT2_IOC_GETFLAGS EXT2_IOC_GETVERSION *)
Definition setattr_cmds : list Z := [0x40086602; 0x40087602].  (* EXT2_IOC_SETFLAGS EXT2_IOC_SETVERSION *)
Definition descriptor_cmds : list Z := [0x5421; 0x5452].       (* FIONBIO FIOASYNC *)
Definition keyboard_cmds : list Z := [0x4b47; 0x4b49].         (* KDSKBENT KDSKBSENT *)
Definition CAP_SYS_TTY_CONFIG : Z := 26.

Definition selinux_file_ioctl (cur : task) (f : file) (cmd : Z) : hook Z :=
  let cred := t_cred cur in
  if bool_decide (cmd ∈ getattr_cmds) then file_has_perm cred f FILE__GETATTR
  else if bool_decide (cmd ∈ setattr_cmds) then file_has_perm cred f FILE__SETATTR
  else if bool_decide (cmd ∈ descriptor_cmds) then file_has_perm cred f 0
  else if bool_decide (cmd ∈ keyboard_cmds) then task_has_capability cred CAP_SYS_TTY_CONFIG SECURITY_CAP_AUDIT
  else file_has_perm cred f FILE__IOCTL.

(** ** Memory mappings *)

Definition PROT_WRITE : Z := 2.
Definition PROT_EXEC : Z := 4.
Definition MAP_TYPE : Z := 0x0f.
Definition MAP_SHARED : Z := 1.
Definition VM_EXEC : Z := 4.
Definition VM_SHARED : Z := 8.

(** What is read of [struct vm_area_struct] and its [mm_struct]. *)
Record vm_area := mk_vm_area {
  vm_start : Z;
  vm_end : Z;
  vm_flags : Z;
  vm_file : option file;
  vm_anon : bool;          (* anon_vma *)
  mm_start_brk : Z;
  mm_brk : Z;
  mm_start_stack : Z
}.

Section mappings.
(** [default_noexec], [selinux_checkreqprot] and [CONFIG_LSM_MMAP_MIN_ADDR]. *)
Context (default_noexec selinux_checkreqprot : bool) (CONFIG_LSM_MMAP_MIN_ADDR : Z).

Definition file_map_prot_check (cur : task) (f : option file) (prot : Z) (shared : bool) : hook Z :=
  let cred := t_cred cur in
  let anonymous := match f with None => true | Some _ => false end in
  rc ← (if default_noexec && nz (prot .& PROT_EXEC) && (anonymous || (negb shared && nz (prot .& PROT_WRITE)))
        then cred_has_perm cred cred PROCESS__EXECMEM else Ret 0);
  if nz rc then Ret rc
  else
    match f with
    | Some f =>
        let av := or_if (shared && nz (prot .& PROT_WRITE)) FILE__WRITE FILE__READ in
        let av := or_if (nz (prot .& PROT_EXEC)) FILE__EXECUTE av in
        file_has_perm cred f av
    | None => Ret rc
    end.

Definition selinux_file_mmap (cur : task) (f : option file) (reqprot prot flags addr : Z) (addr_only : bool) : hook Z :=
  let sid := current_sid cur in
  rc ← (if addr <? CONFIG_LSM_MMAP_MIN_ADDR then avc_has_perm sid sid SECCLASS_MEMPROTECT MEMPROTECT__MMAP_ZERO None
        else Ret 0);
  if nz rc then Ret rc
  else
    rc ← outside "cap_file_mmap" [reqprot; prot; flags; addr; b2i addr_only];
    if nz rc || addr_only then Ret rc
    else file_map_prot_check cur f (if selinux_checkreqprot then reqprot else prot) (flags .& MAP_TYPE =? MAP_SHARED).

Definition selinux_file_mprotect (cur : task) (vma : vm_area) (reqprot prot : Z) : hook Z :=
  let cred := t_cred cur in
  let prot := if selinux_checkreqprot then reqprot else prot in
  rc ← (if default_noexec && nz (prot .& PROT_EXEC) && negb (nz (vm_flags vma .& VM_EXEC)) then
          if (mm_start_brk vma <=? vm_start vma) && (vm_end vma <=? mm_brk vma) then cred_has_perm cred cred PROCESS__EXECHEAP
          else
            match vm_file vma with
            | None =>
                if (vm_start vma <=? mm_start_stack vma) && (mm_start_stack vma <=? vm_end vma)
                then current_has_perm cur cur PROCESS__EXECSTACK else Ret 0
            | Some f => if vm_anon vma then file_has_perm cred f FILE__EXECMOD else Ret 0
            end
        else Ret 0);
  if nz rc then Ret rc else file_map_prot_check cur (vm_file vma) prot (nz (vm_flags vma .& VM_SHARED)).

End mappings.

(** ** Control of open files *)

Definition F_GETFL : Z := 3.
Definition F_SETFL : Z := 4.
Definition F_GETLK : Z := 5.
Definition F_SETLK : Z := 6.
Definition F_SETLKW : Z := 7.
Definition F_SETOWN : Z := 8.
Definition F_GETOWN : Z := 9.
Definition F_SETSIG : Z := 10.
Definition F_GETSIG : Z := 11.

(** On a machine with 64-bit words; the file has an inode. *)
Definition selinux_file_fcntl (cur : task) (f : file) (cmd arg : Z) : hook Z :=
  let cred := t_cred cur in
  if (cmd =? F_SETFL) && nz (f_flags f .& O_APPEND) && negb (nz (arg .& O_APPEND)) then file_has_perm cred f FILE__WRITE
  else if bool_decide (cmd ∈ [F_SETFL; F_SETOWN; F_SETSIG; F_GETFL; F_GETOWN; F_GETSIG]) then file_has_perm cred f 0
  else if bool_decide (cmd ∈ [F_GETLK; F_SETLK; F_SETLKW]) then file_has_perm cred f FILE__LOCK
  else Ret 0.

Definition selinux_file_set_fowner (cur : task) (fsec : file_security) : file_security :=
  mk_file_security (f_sid fsec) (current_sid cur) (f_isid fsec) (f_pseqno fsec).

Definition SIGIO : Z := 29.

Definition selinux_file_send_sigiotask (tsk : task) (fsec : file_security) (signum : Z) : hook Z :=
  let perm := if signum =? 0 then signal_to_av SIGIO else signal_to_av signum in
  avc_has_perm (f_fown_sid fsec) (task_sid tsk) SECCLASS_PROCESS perm None.

Definition selinux_file_receive (cur : task) (f : file) : hook Z := file_has_perm (t_cred cur) f (file_to_av f).

Definition set_f_security (f : file) (fsec : file_security) : file := mk_file (f_mode f) (f_flags f) (f_inode f) fsec.

(** Result: the return value and the file with the label and the sequence
    number of the policy saved in it. *)
Definition selinux_dentry_open (cred : task_security) (f : file) : hook (Z * file) :=
  let fsec := f_security f in
  Call (Global g_policy_seqno) (fun an =>
    let f := set_f_security f (mk_file_security (f_sid fsec) (f_fown_sid fsec) (i_sid (i_security (f_inode f))) (an_rc an)) in
    av ← open_file_to_av f;
    rc ← inode_has_perm cred (f_inode f) av None 0;
    Ret (rc, f)).
