(* ===== verification/HookOpen.v ===== *)
(** Open files: the label and the policy saved when a file is opened stand for
    the check made then, so that reading and writing need not repeat it
    ([selinux_dentry_open], [selinux_file_permission]).  The life of an open
    file as a step relation, and when the shortcut is right. *)

From S2P Require Import Prelude Sidtab Classmap Avc Flask HookBase HookTask HookFile.
From stdpp Require Import strings.
From Stdlib Require Import String.
Open Scope Z_scope.

(** ** The life of an open file *)

(** An open file, the sequence number of the policy in force, and the calls
    made for the file so far, each with the number in force then. *)
Record open_state := mk_open_state {
  os_file : file;
  os_seqno : Z;
  os_log : list (Z * (call * answer))
}.

(** The answers of a run agree with the sequence number in force. *)
Definition reads_seqno (n : Z) (tr : trace) : Prop :=
  forall an, (Global g_policy_seqno, an) ∈ tr -> an_rc an = n.

Definition log_run (st : open_state) (tr : trace) : list (Z * (call * answer)) :=
  os_log st ++ (pair (os_seqno st) <$> tr).

Definition set_flags (f : file) (flags : Z) : file := mk_file (f_mode f) flags (f_inode f) (f_security f).
Definition set_label (f : file) (sid : Z) : file :=
  let i := f_inode f in
  let isec := i_security i in
  mk_file (f_mode f) (f_flags f)
    (mk_inode (i_mode i) (i_private i) (mk_inode_security (i_task_sid isec) sid (i_sclass isec) (i_initialized isec)) (i_sb i))
    (f_security f).

(** O_APPEND | O_NONBLOCK | O_NDELAY | O_DIRECT | O_NOATIME *)
Definition SETFL_MASK : Z := O_APPEND .| 0x800 .| 0x800 .| 0x4000 .| 0x40000.

(** The assignment of [setfl] (fs/fcntl.c). *)
Definition setfl (f : file) (arg : Z) : file := set_flags f ((arg .& SETFL_MASK) .| (f_flags f .& not32 SETFL_MASK)).

Definition appends (f : file) : bool := nz (f_flags f .& O_APPEND).

(** A check, a change of the flags, a new label, a new policy. *)
Inductive open_step : open_state -> open_state -> Prop :=
| open_check st cur mask tr rc :
    runs (selinux_file_permission cur (os_file st) mask) tr rc -> reads_seqno (os_seqno st) tr ->
    open_step st (mk_open_state (os_file st) (os_seqno st) (log_run st tr))
| open_setfl st cur arg tr :
    runs (selinux_file_fcntl cur (os_file st) F_SETFL arg) tr 0 -> reads_seqno (os_seqno st) tr ->
    (appends (os_file st) = true -> nz (arg .& O_APPEND) = false ->
     current_sid cur = f_sid (f_security (os_file st)) /\
     i_sid (i_security (f_inode (os_file st))) = f_isid (f_security (os_file st))) ->
    open_step st (mk_open_state (setfl (os_file st) arg) (os_seqno st) (log_run st tr))
| open_relabel st sid :
    open_step st (mk_open_state (set_label (os_file st) sid) (os_seqno st) (os_log st))
| open_load st n :
    os_seqno st < n -> open_step st (mk_open_state (os_file st) n (os_log st)).

(** The file was opened with success by a task with the SID of the file. *)
Definition opened (st : open_state) : Prop :=
  exists cred f n tr,
    runs (selinux_dentry_open cred f) tr (0, os_file st) /\ reads_seqno n tr /\
    cred_sid cred = f_sid (f_security f) /\ i_private (f_inode f) = false /\
    (S_ISDIR (i_mode (f_inode f)) = true -> nz (f_mode f .& FMODE_WRITE) = false) /\
    os_seqno st = n /\ os_log st = (pair n <$> tr).

(** While policy [n] was in force, the cache was asked for at least [av], and
    granted it. *)
Definition granted_at (n : Z) (log : list (Z * (call * answer))) (ssid tsid tclass av : Z) : Prop :=
  exists req ad fl an, (n, (HasPerm ssid tsid tclass req ad fl, an)) ∈ log /\ an_rc an = 0 /\ req .& av = av.

(** What reading or writing the file needs: an append is covered by write. *)
Definition access_granted (st : open_state) (log : list (Z * (call * answer))) (ssid : Z) (write : bool) : Prop :=
  let isec := i_security (f_inode (os_file st)) in
  let at_ := granted_at (os_seqno st) log ssid (i_sid isec) (i_sclass isec) in
  if write then at_ FILE__WRITE \/ (appends (os_file st) = true /\ at_ FILE__APPEND) else at_ FILE__READ.

(** ** Proofs *)

Lemma granted_at_app_l n l1 l2 s t c av : granted_at n l1 s t c av -> granted_at n (l1 ++ l2) s t c av.
Proof. intros (req & ad & fl & an & Hin & H). exists req, ad, fl, an. split; [apply elem_of_app; by left|done]. Qed.

Lemma granted_at_run n l tr s t c req ad fl an av :
  (HasPerm s t c req ad fl, an) ∈ tr -> an_rc an = 0 -> req .& av = av -> granted_at n (l ++ (pair n <$> tr)) s t c av.
Proof.
  intros Hin H0 Hav. exists req, ad, fl, an. split; [|done]. apply elem_of_app. right.
  by apply (list_elem_of_fmap_2 (pair n)).
Qed.

Lemma inode_has_perm_granted cred i av ad fl tr :
  runs (inode_has_perm cred i av ad fl) tr 0 -> i_private i = false ->
  exists ad' an, (HasPerm (cred_sid cred) (i_sid (i_security i)) (i_sclass (i_security i)) av ad' fl, an) ∈ tr /\ an_rc an = 0.
Proof.
  unfold inode_has_perm. intros H Hp. rewrite Hp in H. apply runs_perm in H as (an & -> & H).
  eexists _, an. split; [constructor|done].
Qed.

Lemma file_has_perm_granted cred f av tr :
  runs (file_has_perm cred f av) tr 0 -> nz av = true -> i_private (f_inode f) = false ->
  exists ad' an, (HasPerm (cred_sid cred) (i_sid (i_security (f_inode f))) (i_sclass (i_security (f_inode f))) av ad' 0, an) ∈ tr /\
    an_rc an = 0.
Proof.
  unfold file_has_perm. intros H Hav Hp. run_step H. subst tr. destruct (nz x1) eqn:E; [destruct H as [_ <-]; discriminate E|].
  rewrite Hav in H. apply inode_has_perm_granted in H as (ad & an & Hin & Hrc); [|done].
  exists ad, an. split; [apply elem_of_app; by right|done].
Qed.

(** *** Bits *)

Lemma covers_read f : nz (f_mode f .& FMODE_READ) = true -> file_to_av f .& FILE__READ = FILE__READ.
Proof. unfold file_to_av. intros ->. by destruct (nz (f_mode f .& FMODE_WRITE)), (nz (f_flags f .& O_APPEND)). Qed.

Lemma covers_write f :
  nz (f_mode f .& FMODE_WRITE) = true ->
  file_to_av f .& (if appends f then FILE__APPEND else FILE__WRITE) = if appends f then FILE__APPEND else FILE__WRITE.
Proof. unfold file_to_av, appends. intros ->. by destruct (nz (f_mode f .& FMODE_READ)), (nz (f_flags f .& O_APPEND)). Qed.

Lemma covers_or b av x bit : av .& x = x -> or_if b bit av .& x = x.
Proof.
  intros H. destruct b; cbn [or_if]; [|done]. unfold or_if. rewrite Z.land_lor_distr_l, H. apply Z.bits_inj. intros i.
  rewrite Z.lor_spec, Z.land_spec. destruct (Z.testbit x i), (Z.testbit bit i); done.
Qed.

Lemma setfl_appends f arg : appends (setfl f arg) = nz (arg .& O_APPEND).
Proof.
  unfold appends, setfl, set_flags. cbn [f_flags]. f_equal.
  rewrite Z.land_lor_distr_l, <- !Z.land_assoc.
  change (SETFL_MASK .& O_APPEND) with O_APPEND. change (not32 SETFL_MASK .& O_APPEND) with 0.
  by rewrite Z.land_0_r, Z.lor_0_r.
Qed.

(** *** The invariant *)

(** The parts of the file that no step changes, and what was granted when the
    label and the policy were those saved in the file. *)
Record open_inv (st : open_state) : Prop := mk_open_inv {
  oi_private : i_private (f_inode (os_file st)) = false;
  oi_dir : S_ISDIR (i_mode (f_inode (os_file st))) = true -> nz (f_mode (os_file st) .& FMODE_WRITE) = false;
  oi_seqno : f_pseqno (f_security (os_file st)) <= os_seqno st;
  oi_read : nz (f_mode (os_file st) .& FMODE_READ) = true ->
    granted_at (f_pseqno (f_security (os_file st))) (os_log st) (f_sid (f_security (os_file st)))
      (f_isid (f_security (os_file st))) (i_sclass (i_security (f_inode (os_file st)))) FILE__READ;
  oi_write : nz (f_mode (os_file st) .& FMODE_WRITE) = true -> f_pseqno (f_security (os_file st)) = os_seqno st ->
    let at_ := granted_at (f_pseqno (f_security (os_file st))) (os_log st) (f_sid (f_security (os_file st)))
      (f_isid (f_security (os_file st))) (i_sclass (i_security (f_inode (os_file st)))) in
    at_ FILE__WRITE \/ (appends (os_file st) = true /\ at_ FILE__APPEND)
}.

(** Opening saves the label and the number, and asks for what the file is
    opened for. *)
Lemma dentry_open_granted cred f tr f' :
  runs (selinux_dentry_open cred f) tr (0, f') -> i_private (f_inode f) = false ->
  exists an b ad an', (Global g_policy_seqno, an) ∈ tr /\
    f' = set_f_security f (mk_file_security (f_sid (f_security f)) (f_fown_sid (f_security f))
                             (i_sid (i_security (f_inode f))) (an_rc an)) /\
    (HasPerm (cred_sid cred) (i_sid (i_security (f_inode f))) (i_sclass (i_security (f_inode f)))
       (or_if b FILE__OPEN (file_to_av f)) ad 0, an') ∈ tr /\ an_rc an' = 0.
Proof.
  unfold selinux_dentry_open, open_file_to_av. intros H Hp. cbn zeta in H. run_all.
  match goal with H : runs (inode_has_perm _ _ _ _ _) _ _ |- _ =>
    apply inode_has_perm_granted in H as (ad & an' & Hin & Hrc); [|done] end.
  eexists _, _, ad, an'. split; [constructor|]. split; [done|]. split; [|exact Hrc].
  apply elem_of_cons. right. apply elem_of_cons. right. apply elem_of_app. left. exact Hin.
Qed.

Lemma opened_inv st : opened st -> open_inv st.
Proof.
  intros (cred & f & n & tr & Hrun & Hsq & Hsid & Hpriv & Hdir & Hn & Hlog).
  apply dentry_open_granted in Hrun as (an & b & ad & an' & Hin & Ef & Hperm & Hrc); [|done].
  assert (an_rc an = n) as Ean by by apply Hsq.
  assert (forall av, file_to_av f .& av = av ->
    granted_at n (os_log st) (f_sid (f_security f)) (i_sid (i_security (f_inode f))) (i_sclass (i_security (f_inode f))) av) as HG.
  { intros av Hav. rewrite Hlog, <- Hsid. apply (granted_at_run n [] tr _ _ _ _ _ _ _ _ Hperm Hrc). by apply covers_or. }
  split; rewrite ?Ef, ?Hn; cbn; rewrite ?Ean.
  - done.
  - done.
  - lia.
  - intros Hr. apply HG. by apply covers_read.
  - intros Hw _. pose proof (covers_write f Hw) as Hc. fold (appends f). destruct (appends f) eqn:Ea.
    + right. split; [exact Ea|]. by apply HG.
    + left. by apply HG.
Qed.

(** A file is not cleared of [O_APPEND] without write permission. *)
Lemma setfl_granted cur f arg tr :
  runs (selinux_file_fcntl cur f F_SETFL arg) tr 0 -> i_private (f_inode f) = false ->
  appends f = true -> nz (arg .& O_APPEND) = false ->
  exists ad an, (HasPerm (current_sid cur) (i_sid (i_security (f_inode f))) (i_sclass (i_security (f_inode f)))
                   FILE__WRITE ad 0, an) ∈ tr /\ an_rc an = 0.
Proof.
  unfold selinux_file_fcntl, appends. intros H Hp Ha Harg. rewrite Ha, Harg in H. cbn [andb negb] in H.
  change (F_SETFL =? F_SETFL) with true in H. cbn [andb] in H. by apply file_has_perm_granted in H.
Qed.

Lemma open_step_inv st st' : open_step st st' -> open_inv st -> open_inv st'.
Proof.
  intros Hs [Hp Hd Hq Hr Hw]. destruct Hs as [st cur mask tr rc Hrun Hsq|st cur arg tr Hrun Hsq Hown|st sid|st n Hn].
  - split; cbn; [done|done|done| |].
    + intros Hm. apply granted_at_app_l, Hr, Hm.
    + intros Hm Hn. destruct (Hw Hm Hn) as [H|[Ha H]]; [left|right; split; [done|]]; by apply granted_at_app_l.
  - split; cbn [os_file os_seqno os_log setfl set_flags f_mode f_inode f_security]; [done|done|done| |].
    + intros Hm. apply granted_at_app_l, Hr, Hm.
    + intros Hm Hn. cbv zeta. fold (setfl (os_file st) arg). rewrite setfl_appends.
      destruct (nz (arg .& O_APPEND)) eqn:Earg.
      * destruct (Hw Hm Hn) as [H|[Ha H]]; [left|right; split; [done|]]; by apply granted_at_app_l.
      * left. destruct (Hw Hm Hn) as [H|[Ha H]]; [by apply granted_at_app_l|].
        destruct (setfl_granted _ _ _ _ Hrun Hp Ha Earg) as (ad & an & Hin & H0).
        destruct (Hown Ha eq_refl) as [E1 E2]. unfold log_run. rewrite Hn, <- E1, <- E2. by eapply granted_at_run.
  - by split.
  - split; cbn; [done|done|lia|done|]. intros _ E. lia.
Qed.

Lemma open_reach_inv st st' : opened st -> rtc open_step st st' -> open_inv st'.
Proof.
  intros Ho Hr. apply opened_inv in Ho. induction Hr as [|st st1 st2 Hs _ IH]; [done|]. by apply IH, (open_step_inv st).
Qed.

(** What the check asks for when it does not take the shortcut. *)
Lemma revalidate_granted cur f (write : bool) tr :
  runs (selinux_revalidate_file_permission cur f (if write then MAY_WRITE else MAY_READ)) tr 0 ->
  i_private (f_inode f) = false -> (S_ISDIR (i_mode (f_inode f)) = true -> write = false) ->
  exists av ad an, (HasPerm (current_sid cur) (i_sid (i_security (f_inode f))) (i_sclass (i_security (f_inode f))) av ad 0, an) ∈ tr /\
    an_rc an = 0 /\ av = if write then (if appends f then FILE__APPEND else FILE__WRITE) else FILE__READ.
Proof.
  unfold selinux_revalidate_file_permission. intros H Hp Hd. apply file_has_perm_granted in H as (ad & an & Hin & H0); [|..|done].
  - eexists _, ad, an. split; [exact Hin|]. split; [exact H0|].
    unfold file_mask_to_av, appends. unfold S_ISDIR in Hd. destruct (_ =? S_IFDIR) eqn:Ed.
    + rewrite (Hd eq_refl). by destruct (nz (f_flags f .& O_APPEND)).
    + by destruct write, (nz (f_flags f .& O_APPEND)).
  - unfold file_mask_to_av. by destruct (_ =? S_IFDIR), write, (nz (f_flags f .& O_APPEND)).
Qed.

(** ** Property *)

(** C10: reading and writing an open file.  However often the file was checked,
    its flags changed, its inode relabelled and the policy replaced since it
    was opened, a check that passes means that the cache granted the access to
    this task, on the label the inode has now, under the policy in force now,
    be it at this check or at an earlier one.  The histories are those of a
    file opened by a task with the SID of the file, on an inode that is not
    private, in which [O_APPEND] is cleared only by such a task and while the
    inode has the label it was opened with. *)
Theorem open_file_revalidated st st' cur (write : bool) tr :
  opened st -> rtc open_step st st' ->
  runs (selinux_file_permission cur (os_file st') (if write then MAY_WRITE else MAY_READ)) tr 0 ->
  reads_seqno (os_seqno st') tr ->
  nz (f_mode (os_file st') .& (if write then FMODE_WRITE else FMODE_READ)) = true ->
  access_granted st' (log_run st' tr) (current_sid cur) write.
Proof.
  intros Ho Hr Hrun Hsq Hmode. destruct (open_reach_inv st st' Ho Hr) as [Hp Hd _ HR HW].
  unfold selinux_file_permission in Hrun. cbv zeta in Hrun.
  replace ((if write then MAY_WRITE else MAY_READ) =? 0) with false in Hrun by by destruct write.
  cbv iota in Hrun. run_step Hrun.
  assert (x1 = true -> current_sid cur = f_sid (f_security (os_file st')) /\
    f_isid (f_security (os_file st')) = i_sid (i_security (f_inode (os_file st'))) /\
    f_pseqno (f_security (os_file st')) = os_seqno st') as Hsame.
  { intros ->. destruct (_ && _) eqn:E; [|run_all]. apply andb_true_iff in E as [E1%Z.eqb_eq E2%Z.eqb_eq]. run_all.
    split; [done|]. split; [done|].
    match goal with E : true = (_ =? _) |- _ => symmetry in E; apply Z.eqb_eq in E; rewrite E end. apply Hsq. constructor. }
  destruct x1.
  - destruct (Hsame eq_refl) as (-> & E2 & E3). unfold access_granted. cbv zeta. rewrite <- E2, <- E3. destruct write.
    + destruct (HW Hmode E3) as [HG|[Ha HG]]; [left|right; split; [done|]]; by apply granted_at_app_l.
    + apply granted_at_app_l, HR, Hmode.
  - apply revalidate_granted in Hrun as (av & ad & an & Hin & Hrc & Eav); [|done|].
    + assert ((HasPerm (current_sid cur) (i_sid (i_security (f_inode (os_file st'))))
                (i_sclass (i_security (f_inode (os_file st')))) av ad 0, an) ∈ tr) as Hin' by (subst tr; apply elem_of_app; by right).
      unfold access_granted, log_run. cbv zeta. destruct write; [destruct (appends (os_file st')) eqn:Ea|]; subst av.
      * right. split; [done|]. by eapply granted_at_run.
      * left. by eapply granted_at_run.
      * by eapply granted_at_run.
    + intros E. destruct write; [|done]. by rewrite (Hd E) in Hmode.
Qed.

(** ** Examples *)

(** Every access is granted, and policy [n] is in force. *)
Definition permissive_answers (n : Z) (c : call) : answer :=
  match c with Global g_policy_seqno => rc_only n | _ => rc_only 0 end.

Definition task_of (sid : Z) : task :=
  mk_task (mk_task_security sid sid 0 0 0 0) (mk_task_security sid sid 0 0 0 0).
Definition inode_of (mode sid sclass : Z) : inode :=
  mk_inode mode false (mk_inode_security 1 sid sclass true) (mk_superblock_security 4 5 3 1 (SE_SBINITIALIZED .| SE_SBLABELSUPP)).

(** A regular file with label 40 that a task with SID 30 opens. *)
Definition log_file (mode flags : Z) : file :=
  mk_file mode flags (inode_of S_IFREG 40 SECCLASS_FILE) (mk_file_security 30 30 0 0).

Definition run_or {A} (d : A) (o : option (A * trace)) : A * trace := default (d, []) o.

(** The state after the open. *)
Definition opened_state (n mode flags : Z) : open_state :=
  let '((_, f), tr) := run_or (0, log_file mode flags)
                         (with_answers (permissive_answers n) (selinux_dentry_open (t_cred (task_of 30)) (log_file mode flags))) in
  mk_open_state f n (pair n <$> tr).

Lemma reads_seqno_answers {A} n (p : hook A) a tr :
  with_answers (permissive_answers n) p = Some (a, tr) -> reads_seqno n tr.
Proof.
  revert a tr. induction p as [b| |c k IH]; cbn; intros a tr H an Hin; [by injection H as _ <-; apply elem_of_nil in Hin|done|].
  apply bind_Some in H as ([a' tr'] & H & E). injection E as _ <-.
  apply elem_of_cons in Hin as [E|Hin]; [|by eapply IH]. by injection E as <- ->.
Qed.

Lemma opened_state_opened n mode flags : opened (opened_state n mode flags).
Proof.
  exists (t_cred (task_of 30)), (log_file mode flags), n. unfold opened_state.
  destruct (with_answers (permissive_answers n) (selinux_dentry_open (t_cred (task_of 30)) (log_file mode flags)))
    as [[[rc f] tr]|] eqn:E; [|done]. cbn [run_or default from_option]. exists tr.
  split; [|split; [by eapply reads_seqno_answers|done]].
  assert (rc = 0) as -> by by injection E as <- _ _. by eapply with_answers_runs.
Qed.

(** The file is relabelled and the policy replaced; the next check is made again. *)
Lemma open_file_revalidated_witness :
  let st := opened_state 1 FMODE_READ 0 in
  let st' := mk_open_state (set_label (os_file st) 41) 2 (os_log st) in
  let tr := (run_or 0 (with_answers (permissive_answers 2) (selinux_file_permission (task_of 30) (os_file st') MAY_READ))).2 in
  access_granted st' (log_run st' tr) 30 false.
Proof.
  intros st st' tr.
  apply (open_file_revalidated st st' (task_of 30) false tr).
  - apply opened_state_opened.
  - eapply rtc_l; [apply (open_relabel st 41)|]. apply rtc_once.
    apply (open_load (mk_open_state (set_label (os_file st) 41) (os_seqno st) (os_log st)) 2). reflexivity.
  - apply (with_answers_runs (permissive_answers 2)). reflexivity.
  - apply (reads_seqno_answers 2 (selinux_file_permission (task_of 30) (os_file st') MAY_READ) 0). reflexivity.
  - reflexivity.
Defined.

(** Another task that may write the file clears [O_APPEND]; the task that
    opened the file to append only then writes anywhere in it, and the cache
    was never asked for write permission for that task. *)
Example append_only_escaped :
  let st := opened_state 1 FMODE_WRITE O_APPEND in
  let other := task_of 31 in
  let tr1 := (run_or 0 (with_answers (permissive_answers 1) (selinux_file_fcntl other (os_file st) F_SETFL 0))).2 in
  let f := setfl (os_file st) 0 in
  (runs (selinux_file_fcntl other (os_file st) F_SETFL 0) tr1 0) /\
  (with_answers (permissive_answers 1) (selinux_file_permission (task_of 30) f MAY_WRITE)
     = Some (0, [(Global g_policy_seqno, rc_only 1)])) /\
  appends f = false /\
  Forall (fun e => match e.1 with HasPerm s _ _ req _ _ => s = 30 -> req .& FILE__WRITE = 0 | _ => True end)
    ((os_log st).*2 ++ tr1).
Proof.
  split; [by apply (with_answers_runs (permissive_answers 1))|]. split; [done|]. split; [done|].
  vm_compute. repeat constructor; discriminate.
Qed.
