(* ===== verification/HookExec.v ===== *)
(** A process changes its label: what happens to its files, limits and signals
    when it executes a program, and the attributes under /proc/self/attr
    (hooks.c).  Together with [selinux_bprm_set_creds] this gives the ways in
    which a process can get another SID. *)

From S2P Require Import Prelude Sidtab Classmap Avc Flask HookBase HookTask HookFile.
From Stdlib Require Import String Ascii.
From stdpp Require Import strings.
Open Scope Z_scope.

(** ** Open files *)

(** A slot of the table of descriptors: free, reserved, or with a file. *)
Inductive fd_slot := FdFree | FdReserved | FdFile (f : file).
#[export] Instance fd_slot_eq : EqDecision fd_slot.
Proof. solve_decision. Defined.

Definition fd_used (s : fd_slot) : bool := match s with FdFree => false | _ => true end.

(** [get_unused_fd]: the lowest free slot. *)
Fixpoint first_free (tbl : list fd_slot) : option nat :=
  match tbl with
  | [] => None
  | FdFree :: _ => Some 0%nat
  | _ :: tbl' => S <$> first_free tbl'
  end.

Section flush.
(** The file that opening [selinux_null] gives. *)
Context (null : file).

(** The body of the loop for descriptor [i]; [devnull]: the null device has
    been opened. *)
Definition flush_fd (cred : task_security) (i : nat) (tbl : list fd_slot) (devnull : bool) : hook (list fd_slot * bool) :=
  match tbl !! i with
  | Some (FdFile f) =>
      rc ← file_has_perm cred f (file_to_av f);
      if nz rc then
        let tbl := <[i := FdFree]> tbl in
        fd ← outside "get_unused_fd" [];
        match (if fd <? 0 then None else first_free tbl) with
        | None => Ret (tbl, devnull)
        | Some fd =>
            if negb (Nat.eqb fd i) then Ret (tbl, devnull)
            else
              ok ← (if devnull then Ret true else rc ← outside "dentry_open" []; Ret (rc =? 0));
              if ok : bool then Ret (<[i := FdFile null]> tbl, true) else Ret (tbl, false)
        end
      else Ret (tbl, devnull)
  | _ => Ret (tbl, devnull)
  end.

(** [for ( ; set ; i++, set >>= 1)] *)
Fixpoint flush_bits (cred : task_security) (i : nat) (set : list bool) (tbl : list fd_slot) (devnull : bool)
    : hook (list fd_slot * bool) :=
  match set with
  | [] => Ret (tbl, devnull)
  | bit :: set' =>
      '(tbl, devnull) ← (if bit : bool then flush_fd cred i tbl devnull else Ret (tbl, devnull));
      flush_bits cred (S i) set' tbl devnull
  end.

(** The words of the set of open descriptors, read one after the other; [n]
    words from the [j]-th on. *)
Fixpoint flush_words (cred : task_security) (n j : nat) (tbl : list fd_slot) (devnull : bool)
    : hook (list fd_slot * bool) :=
  match n with
  | O => Ret (tbl, devnull)
  | S n' =>
      let i := (64 * j)%nat in
      if Nat.leb (length tbl) i then Ret (tbl, devnull)
      else
        '(tbl, devnull) ← flush_bits cred i (fd_used <$> take 64 (drop i tbl)) tbl devnull;
        flush_words cred n' (S j) tbl devnull
  end.

(** [tty]: the inode of the first file of the controlling terminal, if there is
    one.  Result: whether the terminal is dropped, and the table. *)
Definition flush_unauthorized_files (cred : task_security) (tty : option inode) (tbl : list fd_slot)
    : hook (bool * list fd_slot) :=
  drop_tty ← (match tty with
              | Some i => rc ← inode_has_perm cred i (FILE__READ .| FILE__WRITE) None 0; Ret (nz rc)
              | None => Ret false
              end);
  '(tbl, _) ← flush_words cred (length tbl) 0 tbl false;
  Ret (drop_tty, tbl).

(** ** Limits and signals *)

(** What the two hooks change of the current process. *)
Record process := mk_process {
  pr_fds : list fd_slot;
  pr_tty : option inode;
  pr_pdeath_signal : Z;
  pr_rlim : list (Z * Z);          (* rlim_cur, rlim_max *)
  pr_itimers : list Z;
  pr_group_exit : bool;
  pr_pending : list Z;
  pr_handlers : list Z;            (* 0 is the default action *)
  pr_blocked : list Z
}.

(** [rlim->rlim_cur = min(rlim->rlim_max, initrlim->rlim_cur)] *)
Definition reset_limits (rlim init : list (Z * Z)) : list (Z * Z) :=
  zip_with (fun r i => (Z.min r.2 i.1, r.2)) rlim init.

(** [init_rlim]: the limits of the init task. *)
Definition selinux_bprm_committing_creds (new : task_security) (init_rlim : list (Z * Z)) (p : process) : hook process :=
  if sid new =? osid new then Ret p
  else
    '(drop_tty, fds) ← flush_unauthorized_files new (pr_tty p) (pr_fds p);
    rc ← avc_has_perm (osid new) (sid new) SECCLASS_PROCESS PROCESS__RLIMITINH None;
    Ret (mk_process fds (if drop_tty : bool then None else pr_tty p) 0
           (if nz rc then reset_limits (pr_rlim p) init_rlim else pr_rlim p)
           (pr_itimers p) (pr_group_exit p) (pr_pending p) (pr_handlers p) (pr_blocked p)).

End flush.

Definition selinux_bprm_committed_creds (tsec : task_security) (p : process) : hook process :=
  if sid tsec =? osid tsec then Ret p
  else
    rc ← avc_has_perm (osid tsec) (sid tsec) SECCLASS_PROCESS PROCESS__SIGINH None;
    if nz rc then
      let timers := const 0 <$> pr_itimers p in
      if pr_group_exit p
      then Ret (mk_process (pr_fds p) (pr_tty p) (pr_pdeath_signal p) (pr_rlim p) timers true
                  (pr_pending p) (pr_handlers p) (pr_blocked p))
      else Ret (mk_process (pr_fds p) (pr_tty p) (pr_pdeath_signal p) (pr_rlim p) timers false
                  [] (const 0 <$> pr_handlers p) [])
    else Ret p.

(** ** Attributes of a process *)

Definition attr_sid (t : task_security) (name : string) : option Z :=
  if bool_decide (name = "current"%string) then Some (sid t)
  else if bool_decide (name = "prev"%string) then Some (osid t)
  else if bool_decide (name = "exec"%string) then Some (exec_sid t)
  else if bool_decide (name = "fscreate"%string) then Some (create_sid t)
  else if bool_decide (name = "keycreate"%string) then Some (keycreate_sid t)
  else if bool_decide (name = "sockcreate"%string) then Some (sockcreate_sid t)
  else None.

(** [self]: [current == p].  Result: the length or an error, and the text. *)
Definition selinux_getprocattr (cur p : task) (self : bool) (name : string) : hook (Z * option string) :=
  error ← (if negb self then current_has_perm cur p PROCESS__GETATTR else Ret 0);
  if nz error then Ret (error, None)
  else
    match attr_sid (t_real_cred p) name with
    | None => Ret (- EINVAL, None)
    | Some sid =>
        if sid =? 0 then Ret (0, None)
        else
          '(error, value, len) ← security_sid_to_context sid;
          if nz error then Ret (error, None) else Ret (len, value)
    end.

Definition setattr_perm (name : string) : option Z :=
  if bool_decide (name = "exec"%string) then Some PROCESS__SETEXEC
  else if bool_decide (name = "fscreate"%string) then Some PROCESS__SETFSCREATE
  else if bool_decide (name = "keycreate"%string) then Some PROCESS__SETKEYCREATE
  else if bool_decide (name = "sockcreate"%string) then Some PROCESS__SETSOCKCREATE
  else if bool_decide (name = "current"%string) then Some PROCESS__SETCURRENT
  else None.

Definition NEWLINE : ascii := "010"%char.
Definition NUL : ascii := "000"%char.

(** [page] is the page the value was copied to, [size] the length of the value;
    [str[1]] is read whatever the size.  The SID asked for, and the size
    returned in the end.  [None]: a read outside of the page. *)
Definition attr_value_sid (cur : task) (name : string) (page : list ascii) (size : nat) : hook (Z * Z * Z) :=
  str1 ← (if Nat.eqb size 0 then Ret NUL else of_option (page !! 1%nat));
  if negb (Nat.eqb size 0) && negb (Ascii.eqb str1 NUL) && negb (Ascii.eqb str1 NEWLINE) then
    last ← of_option (page !! (size - 1)%nat);
    let size := if Ascii.eqb last NEWLINE then (size - 1)%nat else size in
    let value := string_of_list_ascii (take size page) in
    '(error, sid) ← security_context_to_sid value 0;
    '(error, sid) ← (if (error =? - EINVAL) && bool_decide (name = "fscreate"%string) then
                       ok ← capable cur CAP_MAC_ADMIN;
                       if negb ok then Ret (error, sid) else security_context_to_sid_force value sid
                     else Ret (error, sid));
    Ret (error, sid, Z.of_nat size)
  else Ret (0, 0, Z.of_nat size).

(** [prepare_creds] (kernel/cred.c): a copy of the subjective credentials. *)
Definition prepare_creds (cur : task) : hook (option task_security) :=
  ok ← kernel_alloc;
  if negb ok then Ret None
  else '(rc, new) ← selinux_cred_prepare (t_cred cur); Ret (if rc <? 0 then None else new).

(** The change to the label of the process itself. *)
Definition set_current (tsec : task_security) (newsid : Z) (single_threaded : bool) (tracer : option task)
    : hook (Z * task_security) :=
  if newsid =? 0 then Ret (- EINVAL, tsec)
  else
    error ← (if negb single_threaded then security_bounded_transition (sid tsec) newsid else Ret 0);
    if nz error then Ret (error, tsec)
    else
      error ← avc_has_perm (sid tsec) newsid SECCLASS_PROCESS PROCESS__DYNTRANSITION None;
      if nz error then Ret (error, tsec)
      else
        error ← (match tracer with
                 | Some t => avc_has_perm (task_sid t) newsid SECCLASS_PROCESS PROCESS__PTRACE None
                 | None => Ret 0
                 end);
        if nz error then Ret (error, tsec) else Ret (0, set_sid tsec newsid).

(** Result: the return value and the current task; [commit_creds] installs the
    new credentials as objective and subjective ones. *)
Definition selinux_setprocattr (cur : task) (self single_threaded : bool) (tracer : option task) (name : string)
    (page : list ascii) (size : nat) : hook (Z * task) :=
  if negb self then Ret (- EACCES, cur)
  else
    error ← (match setattr_perm name with
             | Some perm => current_has_perm cur cur perm
             | None => Ret (- EINVAL)
             end);
    if nz error then Ret (error, cur)
    else
      '(error, newsid, size) ← attr_value_sid cur name page size;
      if nz error then Ret (error, cur)
      else
        new ← prepare_creds cur;
        match new with
        | None => Ret (- ENOMEM, cur)
        | Some t =>
          '(error, t) ←
            (if bool_decide (name = "exec"%string)
             then Ret (0, mk_task_security (osid t) (sid t) newsid (create_sid t) (keycreate_sid t) (sockcreate_sid t))
             else if bool_decide (name = "fscreate"%string)
             then Ret (0, mk_task_security (osid t) (sid t) (exec_sid t) newsid (keycreate_sid t) (sockcreate_sid t))
             else if bool_decide (name = "keycreate"%string) then
               error ← may_create_key newsid cur;
               Ret (error, if nz error then t
                           else mk_task_security (osid t) (sid t) (exec_sid t) (create_sid t) newsid (sockcreate_sid t))
             else if bool_decide (name = "sockcreate"%string)
             then Ret (0, mk_task_security (osid t) (sid t) (exec_sid t) (create_sid t) (keycreate_sid t) newsid)
             else if bool_decide (name = "current"%string) then set_current t newsid single_threaded tracer
             else Ret (- EINVAL, t));
          if nz error then Ret (error, cur) else Ret (size, mk_task t t)
        end.

(** ** Proofs *)

(** *** Execution *)

Lemma transition_unsafe_granted old new unsafe tracer tr :
  runs (transition_unsafe old new unsafe tracer) tr 0 ->
  (nz (unsafe .& LSM_UNSAFE_SHARE) = true -> granted tr old new SECCLASS_PROCESS PROCESS__SHARE) /\
  (nz (unsafe .& (LSM_UNSAFE_PTRACE .| LSM_UNSAFE_PTRACE_CAP)) = true ->
   forall t, tracer = Some t -> sid (t_real_cred t) <> 0 -> granted tr (sid (t_real_cred t)) new SECCLASS_PROCESS PROCESS__PTRACE).
Proof.
  unfold transition_unsafe. intros H. run_all.
  all: (split; [intros Hu|intros Hu t Et Ht]); simplify_eq; eauto with hooks.
  all: match goal with H : negb (_ =? 0) = false |- _ => apply negb_false_iff, Z.eqb_eq in H end; done.
Qed.

(** A process that executes a program: it keeps its SID, and may execute the
    file without a transition; or it gets another one, and every permission
    this takes was granted. *)
Inductive exec_outcome (cur : task) (tracer : option task) (b : binprm) (tr : trace) (b' : binprm) : Prop :=
| exec_keeps :
    sid (bp_cred b') = sid (t_cred cur) ->
    granted tr (sid (t_cred cur)) (i_sid (i_security (bp_inode b))) SECCLASS_FILE FILE__EXECUTE_NO_TRANS ->
    bp_per_clear b' = bp_per_clear b ->
    exec_outcome cur tracer b tr b'
| exec_changes :
    sid (bp_cred b') <> sid (t_cred cur) ->
    nz (bp_mnt_flags b .& MNT_NOSUID) = false ->
    granted tr (sid (t_cred cur)) (sid (bp_cred b')) SECCLASS_PROCESS PROCESS__TRANSITION ->
    granted tr (sid (bp_cred b')) (i_sid (i_security (bp_inode b))) SECCLASS_FILE FILE__ENTRYPOINT ->
    (nz (bp_unsafe b .& LSM_UNSAFE_SHARE) = true ->
     granted tr (sid (t_cred cur)) (sid (bp_cred b')) SECCLASS_PROCESS PROCESS__SHARE) ->
    (nz (bp_unsafe b .& (LSM_UNSAFE_PTRACE .| LSM_UNSAFE_PTRACE_CAP)) = true ->
     forall t, tracer = Some t -> sid (t_real_cred t) <> 0 ->
     granted tr (sid (t_real_cred t)) (sid (bp_cred b')) SECCLASS_PROCESS PROCESS__PTRACE) ->
    bp_per_clear b' = bp_per_clear b .| PER_CLEAR_ON_SETID ->
    exec_outcome cur tracer b tr b'.

(** What the credentials are after a call that succeeds, whatever the SID. *)
Definition exec_resets (cur : task) (b' : binprm) : Prop :=
  osid (bp_cred b') = sid (t_cred cur) /\ create_sid (bp_cred b') = 0 /\
  keycreate_sid (bp_cred b') = 0 /\ sockcreate_sid (bp_cred b') = 0.

Lemma bprm_set_creds_outcome cur tracer b tr b' :
  runs (selinux_bprm_set_creds cur tracer b) tr (0, b') -> bp_cred_prepared b = false ->
  exec_resets cur b' /\ exec_outcome cur tracer b tr b'.
Proof.
  unfold selinux_bprm_set_creds. intros H Hp. rewrite Hp in H. run_all.
  all: destruct (nz (bp_mnt_flags b .& MNT_NOSUID)) eqn:Em; cbn [sid set_sid] in *;
    match goal with H : (_ =? _) = _ |- _ => rename H into Hs end;
    try (rewrite Z.eqb_refl in Hs; discriminate Hs); split; try done.
  all: try (left; [by apply Z.eqb_eq in Hs|eauto with hooks|done]).
  all: apply Z.eqb_neq in Hs;
    match goal with H : runs (transition_unsafe _ _ _ _) _ ?x, E : nz ?x = false |- _ =>
      apply nz_false in E as ->; apply transition_unsafe_granted in H as [Hshare Hptrace] end.
  all: right; [done|done|eauto with hooks|eauto with hooks|eauto 8 with hooks|eauto 9 with hooks|done].
Qed.

(** *** Attributes *)

(** Setting [current]: refused and nothing changes, or everything it takes was
    granted. *)
Lemma set_current_outcome t newsid single tracer tr rc t' :
  runs (set_current t newsid single tracer) tr (rc, t') ->
  (rc <> 0 /\ t' = t) \/
  (rc = 0 /\ newsid <> 0 /\ t' = set_sid t newsid /\
   granted tr (sid t) newsid SECCLASS_PROCESS PROCESS__DYNTRANSITION /\
   (single = false -> exists an, (BoundedTransition (sid t) newsid, an) ∈ tr /\ an_rc an = 0) /\
   (forall p, tracer = Some p -> granted tr (task_sid p) newsid SECCLASS_PROCESS PROCESS__PTRACE)).
Proof.
  unfold set_current. intros H. run_all.
  all: try (left; split; [by apply nz_true|done]).
  all: try (left; split; [discriminate|done]).
  all: right; split; [done|]; split; [by apply Z.eqb_neq|]; split; [done|]; split; [eauto with hooks|].
  all: split; [intros ->|intros p Ep; simplify_eq; eauto with hooks].
  all: try discriminate; eexists; (split; [constructor|done]).
Qed.

Lemma prepare_creds_copy cur tr t : runs (prepare_creds cur) tr (Some t) -> t = t_cred cur.
Proof. unfold prepare_creds, selinux_cred_prepare. intros H. run_all; done. Qed.

(** A process sets an attribute: the call fails and nothing changes, or the
    SID stays and an attribute changed, or the SID changed. *)
Inductive attr_outcome (cur : task) (single : bool) (tracer : option task) (name : string) (tr : trace) (cur' : task) : Prop :=
| attr_fails : cur' = cur -> attr_outcome cur single tracer name tr cur'
| attr_kept perm t :
    setattr_perm name = Some perm -> cur' = mk_task t t -> sid t = sid (t_cred cur) -> osid t = osid (t_cred cur) ->
    granted tr (current_sid cur) (task_sid cur) SECCLASS_PROCESS perm ->
    (name = "keycreate"%string -> granted tr (task_sid cur) (keycreate_sid t) SECCLASS_KEY KEY__CREATE) ->
    attr_outcome cur single tracer name tr cur'
| attr_current newsid :
    name = "current"%string -> cur' = mk_task (set_sid (t_cred cur) newsid) (set_sid (t_cred cur) newsid) -> newsid <> 0 ->
    granted tr (current_sid cur) (task_sid cur) SECCLASS_PROCESS PROCESS__SETCURRENT ->
    granted tr (sid (t_cred cur)) newsid SECCLASS_PROCESS PROCESS__DYNTRANSITION ->
    (single = false -> exists an, (BoundedTransition (sid (t_cred cur)) newsid, an) ∈ tr /\ an_rc an = 0) ->
    (forall p, tracer = Some p -> granted tr (task_sid p) newsid SECCLASS_PROCESS PROCESS__PTRACE) ->
    attr_outcome cur single tracer name tr cur'.

Lemma setprocattr_outcome cur self single tracer name page size tr rc cur' :
  runs (selinux_setprocattr cur self single tracer name page size) tr (rc, cur') ->
  attr_outcome cur single tracer name tr cur'.
Proof.
  unfold selinux_setprocattr, current_has_perm, may_create_key. intros H. run_all; try by constructor 1.
  all: match goal with H : runs (prepare_creds _) _ (Some _) |- _ => apply prepare_creds_copy in H as -> end;
    repeat match goal with H : bool_decide _ = true |- _ => apply bool_decide_eq_true in H; subst name end.
  all: try (eapply attr_kept; [eassumption|done|done|done|eauto with hooks|done]).
  - match goal with H : an_rc ?x = 0 |- context [nz (an_rc ?x)] => rewrite H end.
    eapply attr_kept; [eassumption|done|done|done|eauto with hooks|eauto 7 with hooks].
  - match goal with H : runs (set_current _ _ _ _) _ (?rc, _), E : nz ?rc = false |- _ =>
      apply nz_false in E as ->; apply set_current_outcome in H as [[H _]|(_ & Hn & -> & Hd & Hb & Ht)]; [done|] end.
    match goal with H : setattr_perm _ = Some _ |- _ => injection H as <- end.
    eapply attr_current; [done|done|done|eauto with hooks|eauto 7 with hooks| |intros p Hp; eauto 7 with hooks].
    intros Es. destruct (Hb Es) as (an & Hin & Hrc). exists an. split; [|done].
    apply elem_of_cons. right. do 2 (apply elem_of_app; right). apply elem_of_app. by left.
Qed.

(** ** The life of a process *)

(** The process executes programs (with a copy of its credentials, see
    [prepare_exec_creds]) and sets attributes; the trace is what was asked. *)
Inductive life_step : task * trace -> task * trace -> Prop :=
| life_exec cur log tracer b b' tr :
    bp_cred b = t_cred cur -> bp_cred_prepared b = false ->
    runs (selinux_bprm_set_creds cur tracer b) tr (0, b') ->
    life_step (cur, log) (mk_task (bp_cred b') (bp_cred b'), log ++ tr)
| life_attr cur log self single tracer name page size tr rc cur' :
    runs (selinux_setprocattr cur self single tracer name page size) tr (rc, cur') ->
    life_step (cur, log) (cur', log ++ tr).

(** A change of the SID that was granted. *)
Definition granted_change (log : trace) (old new : Z) : Prop :=
  granted log old new SECCLASS_PROCESS PROCESS__TRANSITION \/ granted log old new SECCLASS_PROCESS PROCESS__DYNTRANSITION.

Lemma granted_change_app log tr old new : granted_change log old new -> granted_change (log ++ tr) old new.
Proof. intros [H|H]; [left|right]; by apply granted_app_l. Qed.

Lemma life_step_change cur log cur' log' :
  life_step (cur, log) (cur', log') ->
  (exists tr, log' = log ++ tr) /\
  (sid (t_cred cur') = sid (t_cred cur) \/ granted_change log' (sid (t_cred cur)) (sid (t_cred cur'))).
Proof.
  inversion_clear 1 as [? ? tracer b b' tr Hb Hp Hrun|? ? self single tracer name page size tr rc ? Hrun];
    (split; [by eexists|]).
  - apply bprm_set_creds_outcome in Hrun as [_ [Hs _ _|_ _ Ht _ _ _ _]]; [by left| |done].
    right. left. by apply granted_app_r.
  - apply setprocattr_outcome in Hrun as [->|perm t _ -> Hs _ _ _|newsid _ -> _ _ Hd _ _]; [by left|by left|].
    right. right. by apply granted_app_r.
Qed.

Lemma life_log_grows x z : rtc life_step x z -> exists tr, z.2 = x.2 ++ tr.
Proof.
  induction 1 as [x|[cur log] [cur1 log1] z Hs _ [t2 IH]]; [exists []; by rewrite app_nil_r|].
  apply life_step_change in Hs as [(t1 & ->) _]. exists (t1 ++ t2). rewrite IH. cbn. by rewrite app_assoc.
Qed.

(** C9: the label of a process.  Whatever programs it executes and attributes
    it sets, the SID it has in the end is reached from the one it had by
    changes each of which the cache granted as a transition (at an execution)
    or a dynamic transition. *)
Theorem process_label_path cur log cur' log' :
  rtc life_step (cur, log) (cur', log') ->
  rtc (granted_change log') (sid (t_cred cur)) (sid (t_cred cur')).
Proof.
  intros H. remember (cur, log) as a eqn:Ea. remember (cur', log') as z eqn:Ez. revert cur log Ea Ez.
  induction H as [x|x [cur1 log1] z Hs Hr IH]; intros cur log -> Ez.
  - injection Ez as -> ->. constructor.
  - apply life_step_change in Hs as [_ Hc]. specialize (IH _ _ eq_refl Ez).
    subst z. destruct (life_log_grows _ _ Hr) as [tr E]. cbn in E. subst log'.
    destruct Hc as [<-|Hc]; [done|]. eapply rtc_l; [|exact IH]. by apply granted_change_app.
Qed.

(** ** Inherited files *)

(** The checks under which a descriptor may be used. *)
Definition authorized (tr : trace) (cred : task_security) (f : file) : Prop :=
  (cred_sid cred = f_sid (f_security f) \/ granted tr (cred_sid cred) (f_sid (f_security f)) SECCLASS_FD FD__USE) /\
  (i_private (f_inode f) = true \/
   granted tr (cred_sid cred) (i_sid (i_security (f_inode f))) (i_sclass (i_security (f_inode f))) (file_to_av f)).

Lemma authorized_app_l tr1 tr2 cred f : authorized tr1 cred f -> authorized (tr1 ++ tr2) cred f.
Proof. intros [[H1|H1] [H2|H2]]; split; eauto with hooks. Qed.

Lemma authorized_app_r tr1 tr2 cred f : authorized tr2 cred f -> authorized (tr1 ++ tr2) cred f.
Proof. intros [[H1|H1] [H2|H2]]; split; eauto with hooks. Qed.

Lemma file_to_av_nz f : nz (file_to_av f) = true.
Proof.
  unfold file_to_av.
  by destruct (nz (f_mode f .& FMODE_READ)), (nz (f_mode f .& FMODE_WRITE)), (nz (f_flags f .& O_APPEND)).
Qed.

Lemma file_has_perm_authorized cred f tr : runs (file_has_perm cred f (file_to_av f)) tr 0 -> authorized tr cred f.
Proof.
  unfold file_has_perm, inode_has_perm. rewrite file_to_av_nz. intros H. run_all; unfold authorized.
  all: match goal with H : negb (_ =? _) = _ |- _ => rename H into Hs end.
  all: try apply negb_false_iff, Z.eqb_eq in Hs.
  all: split; [first [by left|right; eauto with hooks]|first [by left|right; eauto with hooks]].
Qed.

Section flush_proofs.
Context (null : file).

(** From [tbl] to [tbl']: a descriptor keeps its slot, is closed, or refers to
    the null device; those of [done] that have their file still may use it. *)
Record flushed (cred : task_security) (done : nat -> Prop) (tr : trace) (tbl tbl' : list fd_slot) : Prop := mk_flushed {
  fl_len : length tbl' = length tbl;
  fl_slot : forall i s, tbl' !! i = Some s -> s = FdFree \/ s = FdFile null \/ tbl !! i = Some s;
  fl_done : forall i f, done i -> tbl' !! i = Some (FdFile f) -> f = null \/ authorized tr cred f
}.

Lemma flushed_same cred done tr tbl :
  (forall i f, done i -> tbl !! i = Some (FdFile f) -> authorized tr cred f) -> flushed cred done tr tbl tbl.
Proof. intros H. split; [done|auto|]. intros i f Hd Hi. right. by eapply H. Qed.

Lemma flushed_put cred tr tbl i s : s = FdFree \/ s = FdFile null -> flushed cred (eq i) tr tbl (<[i := s]> tbl).
Proof.
  intros Hs. split.
  - apply length_insert.
  - intros k s' Hk. apply list_lookup_insert_Some in Hk as [(_ & <- & _)|[_ Hk]]; tauto.
  - intros k f <- Hk. apply list_lookup_insert_Some in Hk as [(_ & E & _)|[Hk _]]; [|done].
    left. destruct Hs as [->| ->]; [discriminate E|by injection E as <-].
Qed.

Lemma flushed_trans cred d1 d2 tr1 tr2 t t1 t2 :
  flushed cred d1 tr1 t t1 -> flushed cred d2 tr2 t1 t2 -> (forall k, ~ d2 k -> t2 !! k = t1 !! k) ->
  (forall k, Decision (d2 k)) -> flushed cred (fun k => d1 k \/ d2 k) (tr1 ++ tr2) t t2.
Proof.
  intros [L1 S1 D1] [L2 S2 D2] Hout Hdec. split; [congruence| |].
  - intros i s Hi. destruct (S2 i s Hi) as [?|[?|Hi']]; [by left|by right; left|]. by apply S1.
  - intros i f Hd Hi. destruct (decide (d2 i)) as [H2|H2].
    + destruct (D2 i f H2 Hi) as [?|?]; [by left|right; by apply authorized_app_r].
    + destruct Hd as [H1|H1]; [|done]. rewrite (Hout i H2) in Hi.
      destruct (D1 i f H1 Hi) as [?|?]; [by left|right; by apply authorized_app_l].
Qed.

Lemma flush_fd_flushed cred i tbl devnull tr tbl' devnull' :
  runs (flush_fd null cred i tbl devnull) tr (tbl', devnull') ->
  flushed cred (eq i) tr tbl tbl' /\ forall k, k <> i -> tbl' !! k = tbl !! k.
Proof.
  unfold flush_fd. intros H. destruct (tbl !! i) as [[| |f]|] eqn:Ei; run_all; rewrite ?list_insert_insert_eq.
  all: split; [|intros k Hk; by rewrite ?list_lookup_insert_ne].
  all: try (apply flushed_put; tauto).
  all: apply flushed_same; intros k f' <- Hk; rewrite Ei in Hk; try discriminate Hk.
  injection Hk as <-. rewrite app_nil_r. apply file_has_perm_authorized.
  match goal with H : nz ?x = false |- _ => by apply nz_false in H as -> end.
Qed.

Definition in_range (i n k : nat) : Prop := (i <= k < i + n)%nat.

Lemma flush_bits_flushed cred set i tbl devnull tr tbl' devnull' :
  (forall k f, set !! k = Some false -> tbl !! (i + k)%nat <> Some (FdFile f)) ->
  runs (flush_bits null cred i set tbl devnull) tr (tbl', devnull') ->
  flushed cred (in_range i (length set)) tr tbl tbl' /\ forall k, ~ in_range i (length set) k -> tbl' !! k = tbl !! k.
Proof.
  revert i tbl devnull tr. induction set as [|bit set IH]; intros i tbl devnull tr Hset H; cbn [flush_bits] in H.
  - run_all. split; [|done]. apply flushed_same. intros k f [? ?]. cbn in *. lia.
  - run_step H. destruct x1 as [tbl1 devnull1]. subst tr.
    assert (flushed cred (eq i) x tbl tbl1 /\ forall k, k <> i -> tbl1 !! k = tbl !! k) as [Hf Hout].
    { destruct bit; [by eapply flush_fd_flushed|]. run_all. split; [|done]. apply flushed_same.
      intros k f <- Hk. exfalso. apply (Hset 0%nat f eq_refl). by rewrite Nat.add_0_r. }
    apply IH in H as [Hf' Hout'].
    2: { intros k f Hk. rewrite Hout by lia. replace (S i + k)%nat with (i + S k)%nat by lia. by apply Hset. }
    split.
    + pose proof (flushed_trans _ _ _ _ _ _ _ _ Hf Hf' Hout') as [L S D]. { intros k. unfold in_range. apply _. }
      split; [done|done|]. intros k f Hk. apply D. unfold in_range in *. cbn in Hk. lia.
    + intros k Hk. unfold in_range in *. cbn in Hk. rewrite Hout', Hout; [done|lia|lia].
Qed.

Lemma snapshot_free (tbl : list fd_slot) i k f :
  (fd_used <$> take 64 (drop i tbl)) !! k = Some false -> tbl !! (i + k)%nat <> Some (FdFile f).
Proof.
  rewrite list_lookup_fmap. intros H Hk. apply fmap_Some in H as (s & Hs & E).
  apply lookup_take_Some in Hs as [Hs _]. rewrite lookup_drop, Hk in Hs. by injection Hs as <-.
Qed.

Lemma flush_words_flushed cred n j tbl devnull tr tbl' devnull' :
  runs (flush_words null cred n j tbl devnull) tr (tbl', devnull') ->
  flushed cred (in_range (64 * j) (64 * n)) tr tbl tbl' /\ forall k, ~ in_range (64 * j) (64 * n) k -> tbl' !! k = tbl !! k.
Proof.
  revert j tbl devnull tr. induction n as [|n IH]; intros j tbl devnull tr H; cbn [flush_words] in H.
  - run_all. split; [|done]. apply flushed_same. unfold in_range. lia.
  - destruct (Nat.leb_spec (length tbl) (64 * j)) as [Hl|Hl].
    + run_all. split; [|done]. apply flushed_same. intros k f Hk Hf. apply lookup_lt_Some in Hf. unfold in_range in Hk. lia.
    + cbv zeta in H. run_step H. destruct x1 as [tbl1 devnull1]. subst tr.
      match goal with H : runs (flush_bits _ _ _ _ _ _) _ _ |- _ =>
        apply flush_bits_flushed in H as [Hf Hout]; [|intros k f Hk; exact (snapshot_free _ _ _ _ Hk)] end.
      apply IH in H as [Hf' Hout']. rewrite length_fmap, length_take, length_drop in Hf, Hout. split.
      * pose proof (flushed_trans _ _ _ _ _ _ _ _ Hf Hf' Hout') as [L S D]. { intros k. unfold in_range. apply _. }
        split; [done|done|]. intros k f Hk Hi. apply (D k f); [|done].
        assert (k < length tbl)%nat by (rewrite <- L; by eapply lookup_lt_Some). unfold in_range in *. lia.
      * intros k Hk. unfold in_range in *. rewrite Hout', Hout; [done|lia|lia].
Qed.

End flush_proofs.


(** ** Examples *)

Definition shell_task : task := mk_task (mk_task_security 30 30 0 0 0 0) (mk_task_security 30 30 0 0 0 0).
Definition program : inode :=
  mk_inode S_IFREG false (mk_inode_security 1 40 SECCLASS_FILE true) (mk_superblock_security 4 5 3 1 SE_SBINITIALIZED).
Definition program_run : binprm := mk_binprm (t_cred shell_task) false 0 0 program 0.

(** Everything is granted; a new process gets SID 50, and the context [next_t]
    has SID 60. *)
Definition next_answers (c : call) : answer :=
  match c with
  | TransitionSid _ _ _ _ => mk_answer 0 (Some 50) None None None
  | ContextToSid s => if bool_decide (s = "next_t"%string) then mk_answer 0 (Some 60) None None None else rc_only (- EINVAL)
  | Kalloc => rc_only 1
  | _ => rc_only 0
  end.

(** The trace of a hook under these answers. *)
Definition next_trace {A} (p : hook A) : trace := match with_answers next_answers p with Some (_, tr) => tr | None => [] end.

Definition page_of (s : string) : list ascii := list_ascii_of_string s.
Definition run_task : task := mk_task (mk_task_security 30 50 0 0 0 0) (mk_task_security 30 50 0 0 0 0).
Definition next_task : task := mk_task (mk_task_security 30 60 0 0 0 0) (mk_task_security 30 60 0 0 0 0).

Lemma process_label_path_witness :
  let tr1 := next_trace (selinux_bprm_set_creds shell_task None program_run) in
  let tr2 := next_trace (selinux_setprocattr run_task true true None "current" (page_of "next_t") 6) in
  rtc (granted_change (tr1 ++ tr2)) 30 60.
Proof.
  intros tr1 tr2. apply (process_label_path shell_task [] next_task (tr1 ++ tr2)).
  eapply rtc_l; [|apply rtc_once].
  - apply (life_exec shell_task [] None program_run (mk_binprm (t_cred run_task) false 0 PER_CLEAR_ON_SETID program 0) tr1);
      [reflexivity|reflexivity|]. apply (with_answers_runs next_answers). reflexivity.
  - apply (life_attr run_task tr1 true true None "current" (page_of "next_t") 6 tr2 6 next_task).
    apply (with_answers_runs next_answers). reflexivity.
Defined.

(** A process that goes from SID 30 to 50 has a file it may use and a file it
    may not; the null device takes the place of the second. *)
Definition open_as (sid : Z) : file := mk_file FMODE_READ 0 program (mk_file_security sid sid 40 1).
Definition null_device : file := mk_file 3 0 (mk_inode S_IFCHR false (mk_inode_security 1 27 SECCLASS_CHR_FILE true) (i_sb program)) (mk_file_security 50 50 27 1).
Definition first_only (c : call) : answer :=
  match c with HasPerm _ tsid _ _ _ _ => rc_only (if tsid =? 31 then - EACCES else 0) | _ => rc_only 0 end.
Definition two_files : process := mk_process [FdFile (open_as 30); FdFile (open_as 31)] None 9 [(5, 10)] [] false [] [] [].


(** Writing a newline is meant to clear an attribute.  The test looks at the
    second byte of the page, which the copy of a single byte did not write:
    with what was there before, the empty context is looked up and the write
    is refused. *)
Example newline_clears_or_not :
  let write page := fst <$> with_answers next_answers (selinux_setprocattr shell_task true true None "exec" page 1) in
  (fst <$> write [NEWLINE; NUL] = Some 1) /\ (fst <$> write [NEWLINE; "x"%char] = Some (- EINVAL)).
Proof. split; reflexivity. Qed.

(** Clearing [keycreate] asks for permission to create keys with SID 0. *)
Example keycreate_clear_asks :
  exists ad an, (HasPerm 30 SECSID_NULL SECCLASS_KEY KEY__CREATE ad 0, an) ∈
    next_trace (selinux_setprocattr shell_task true true None "keycreate" [] 0).
Proof. eexists None, _. vm_compute. by repeat constructor. Qed.
