(* ===== verification/HookLabel.v ===== *)
(** Labels of inodes and file systems: mount options, the first label of an
    inode, and the label of a new file (hooks.c). *)

From S2P Require Import Prelude Sidtab Classmap Avc Flask HookBase HookTask HookFile.
From Stdlib Require Import String Ascii.
From stdpp Require Import strings.
Open Scope Z_scope.

(** ** Inodes *)

Definition SECURITY_FS_USE_XATTR : Z := 1.
Definition SECURITY_FS_USE_TRANS : Z := 2.
Definition SECURITY_FS_USE_TASK : Z := 3.
Definition SECURITY_FS_USE_GENFS : Z := 4.
Definition SECURITY_FS_USE_NONE : Z := 5.
Definition SECURITY_FS_USE_MNTPOINT : Z := 6.
Definition SE_MNTMASK : Z := 0x0f.
Definition CONTEXT_MNT : Z := 0x01.
Definition FSCONTEXT_MNT : Z := 0x02.
Definition ROOTCONTEXT_MNT : Z := 0x04.
Definition DEFCONTEXT_MNT : Z := 0x08.
Definition ENODATA : Z := 61.

Definition superblock_alloc_security : hook (Z * option superblock_security) :=
  ok ← kernel_alloc;
  if negb ok then Ret (- ENOMEM, None)
  else Ret (0, Some (mk_superblock_security SECINITSID_UNLABELED SECINITSID_FILE SECINITSID_UNLABELED 0 0)).

Definition is_digit (c : ascii) : bool := (48 <=? N_of_ascii c)%N && (N_of_ascii c <=? 57)%N.

(** [while (path[1] >= '0' && path[1] <= '9') { path[1] = '/'; path++; }]; [c0]
    and [s] are [path[0]] and the rest. *)
Fixpoint strip_pid (c0 : ascii) (s : string) : string :=
  match s with
  | String c s' => if is_digit c then strip_pid "/"%char s' else String c0 s
  | EmptyString => String c0 EmptyString
  end.

(** [path]: what [dentry_path_raw] gives, or an error. *)
Definition selinux_proc_get_sid (path : Z + string) (tclass old : Z) : hook (Z * Z) :=
  ok ← kernel_alloc;
  if negb ok then Ret (- ENOMEM, old)
  else
    match path with
    | inl rc => Ret (rc, old)
    | inr EmptyString => Bug
    | inr (String c0 s) => ask_sid (GenfsSid "proc" (strip_pid c0 s) tclass) old
    end.

(** What [inode_doinit_with_dentry] is given besides the inode: whether the
    file system has a [getxattr], a dentry passed by the caller with its path,
    and whether [d_find_alias] finds one. *)
Record doinit_args := mk_doinit_args {
  da_getxattr : bool;
  da_opt_dentry : option (Z + string);
  da_alias : bool
}.

(** [getxattr(dentry, XATTR_NAME_SELINUX, buffer, len)] *)
Definition getxattr (len : Z) : hook (Z * string) :=
  Call (Outside "getxattr" [len]) (fun an => Ret (an_rc an, default EmptyString (an_text an))).

Definition INITCONTEXTLEN : Z := 255.

(** The read of the attribute into a buffer that is long enough.  [inr]: the
    result of the last [getxattr]; [inl]: left with an error. *)
Definition read_context : hook (Z + Z * string) :=
  ok ← kernel_alloc;
  if negb ok then Ret (inl (- ENOMEM))
  else
    '(rc, context) ← getxattr INITCONTEXTLEN;
    if rc =? - ERANGE then
      '(rc, _) ← getxattr 0;
      if rc <? 0 then Ret (inl rc)
      else
        ok ← kernel_alloc;
        if negb ok then Ret (inl (- ENOMEM)) else '(rc, context) ← getxattr rc; Ret (inr (rc, context))
    else Ret (inr (rc, context)).

Definition set_i_sid (isec : inode_security) (v : Z) : inode_security :=
  mk_inode_security (i_task_sid isec) v (i_sclass isec) (i_initialized isec).
Definition set_i_sclass (isec : inode_security) (v : Z) : inode_security :=
  mk_inode_security (i_task_sid isec) (i_sid isec) v (i_initialized isec).
Definition set_i_initialized (isec : inode_security) : inode_security :=
  mk_inode_security (i_task_sid isec) (i_sid isec) (i_sclass isec) true.

(** The branches of the [switch]: the return value so far, the blob, and
    whether the end of the [switch] is reached ([break]). *)
Definition doinit_xattr (sbsec : superblock_security) (a : doinit_args) (isec : inode_security)
    : hook (Z * inode_security * bool) :=
  if negb (da_getxattr a) then Ret (0, set_i_sid isec (sb_def_sid sbsec), true)
  else if negb (match da_opt_dentry a with Some _ => true | None => da_alias a end) then Ret (0, isec, false)
  else
    r ← read_context;
    match r with
    | inl rc => Ret (rc, isec, false)
    | inr (rc, context) =>
        if rc <? 0 then
          if negb (rc =? - ENODATA) then Ret (rc, isec, false)
          else Ret (0, set_i_sid isec (sb_def_sid sbsec), true)
        else
          '(rc, sid) ← security_context_to_sid_default context (sb_def_sid sbsec) 0;
          if nz rc then Ret (0, isec, true) else Ret (0, set_i_sid isec sid, true)
    end.

Definition doinit_trans (mode : Z) (sbsec : superblock_security) (isec : inode_security) : hook (Z * inode_security * bool) :=
  let isec := set_i_sclass (set_i_sid isec (sb_sid sbsec)) (inode_mode_to_security_class mode) in
  '(rc, sid) ← security_transition_sid (i_task_sid isec) (sb_sid sbsec) (i_sclass isec) None 0;
  if nz rc then Ret (rc, isec, false) else Ret (rc, set_i_sid isec sid, true).

Definition doinit_other (mode : Z) (sbsec : superblock_security) (a : doinit_args) (isec : inode_security)
    : hook (Z * inode_security * bool) :=
  let isec := set_i_sid isec (sb_sid sbsec) in
  if nz (sb_flags sbsec .& SE_SBPROC) && negb (mode .& S_IFMT =? S_IFLNK) then
    match da_opt_dentry a with
    | Some path =>
        let isec := set_i_sclass isec (inode_mode_to_security_class mode) in
        '(rc, sid) ← selinux_proc_get_sid path (i_sclass isec) 0;
        if nz rc then Ret (rc, isec, false) else Ret (rc, set_i_sid isec sid, true)
    | None => Ret (0, isec, true)
    end
  else Ret (0, isec, true).

(** [if (isec->sclass == SECCLASS_FILE) isec->sclass = inode_mode_to_security_class(inode->i_mode)] *)
Definition doinit_class (mode : Z) (isec : inode_security) : inode_security :=
  if i_sclass isec =? SECCLASS_FILE then set_i_sclass isec (inode_mode_to_security_class mode) else isec.

(** Result: the return value, the blob, and whether the inode was put on the
    list of inodes to be initialized later. *)
Definition inode_doinit_with_dentry (i : inode) (a : doinit_args) : hook (Z * inode_security * bool) :=
  let isec := i_security i in
  let sbsec := i_sb i in
  let mode := i_mode i in
  if i_initialized isec then Ret (0, doinit_class mode isec, false)
  else if negb (nz (sb_flags sbsec .& SE_SBINITIALIZED)) then Ret (0, doinit_class mode isec, true)
  else
    '(rc, isec, reached) ←
      (if sb_behavior sbsec =? SECURITY_FS_USE_XATTR then doinit_xattr sbsec a isec
       else if sb_behavior sbsec =? SECURITY_FS_USE_TASK then Ret (0, set_i_sid isec (i_task_sid isec), true)
       else if sb_behavior sbsec =? SECURITY_FS_USE_TRANS then doinit_trans mode sbsec isec
       else if sb_behavior sbsec =? SECURITY_FS_USE_MNTPOINT then Ret (0, set_i_sid isec (sb_mntpoint_sid sbsec), true)
       else doinit_other mode sbsec a isec);
    Ret (rc, doinit_class mode (if reached : bool then set_i_initialized isec else isec), false).

(** ** New files *)

(** [want_name], [want_value]: the caller passed pointers.  Result: the return
    value, the blob of the new inode, and the value of the attribute. *)
Definition selinux_inode_init_security (cur : task) (i dir : inode) (qstr : string) (want_name want_value : bool)
    : hook (Z * inode_security * option (string * Z)) :=
  let tsec := t_cred cur in
  let dsec := i_security dir in
  let sbsec := i_sb dir in
  let isec := i_security i in
  let tclass := inode_mode_to_security_class (i_mode i) in
  '(rc, newsid) ←
    (if nz (sb_flags sbsec .& SE_SBINITIALIZED) && (sb_behavior sbsec =? SECURITY_FS_USE_MNTPOINT)
     then Ret (0, sb_mntpoint_sid sbsec)
     else if (create_sid tsec =? 0) || negb (nz (sb_flags sbsec .& SE_SBLABELSUPP))
     then security_transition_sid (sid tsec) (i_sid dsec) tclass (Some qstr) (create_sid tsec)
     else Ret (0, create_sid tsec));
  if nz rc then Ret (rc, isec, None)
  else
    let isec := if nz (sb_flags sbsec .& SE_SBINITIALIZED)
                then mk_inode_security (i_task_sid isec) newsid tclass true else isec in
    ss_initialized ← ask_bool (Global g_ss_initialized);
    if negb ss_initialized || negb (nz (sb_flags sbsec .& SE_SBLABELSUPP)) then Ret (- EOPNOTSUPP, isec, None)
    else
      ok ← (if want_name then kernel_alloc else Ret true);
      if negb ok then Ret (- ENOMEM, isec, None)
      else if want_value then
        '(rc, context, clen) ← security_sid_to_context_force newsid;
        if nz rc then Ret (rc, isec, None) else Ret (0, isec, option_map (fun c => (c, clen)) context)
      else Ret (0, isec, None).

(** ** File systems *)

(** An inode waiting on the list of its superblock. *)
Record waiting := mk_waiting {
  w_mode : Z;
  w_private : bool;
  w_security : inode_security;
  w_args : doinit_args
}.

(** What the hooks know of a [super_block]: its blob, its root, the inodes on
    its list, the name and a flag of its type. *)
Record super := mk_super {
  s_sec : superblock_security;
  s_root_mode : Z;
  s_root : inode_security;
  s_root_args : doinit_args;
  s_waiting : list waiting;
  s_name : string;
  s_binary : bool           (* FS_BINARY_MOUNTDATA *)
}.

Definition set_s_sec (s : super) (v : superblock_security) : super :=
  mk_super v (s_root_mode s) (s_root s) (s_root_args s) (s_waiting s) (s_name s) (s_binary s).
Definition set_s_root (s : super) (v : inode_security) : super :=
  mk_super (s_sec s) (s_root_mode s) v (s_root_args s) (s_waiting s) (s_name s) (s_binary s).
Definition set_s_waiting (s : super) (v : list waiting) : super :=
  mk_super (s_sec s) (s_root_mode s) (s_root s) (s_root_args s) v (s_name s) (s_binary s).
Definition set_sb_flags (b : superblock_security) (v : Z) : superblock_security :=
  mk_superblock_security (sb_sid b) (sb_def_sid b) (sb_mntpoint_sid b) (sb_behavior b) v.
Definition set_sb_sid (b : superblock_security) (v : Z) : superblock_security :=
  mk_superblock_security v (sb_def_sid b) (sb_mntpoint_sid b) (sb_behavior b) (sb_flags b).
Definition has_flags (b : superblock_security) (flag : Z) : bool := nz (sb_flags b .& flag).

Definition may_context_mount_sb_relabel (sid0 : Z) (sbsec : superblock_security) (cred : task_security) : hook Z :=
  rc ← avc_has_perm (sid cred) (sb_sid sbsec) SECCLASS_FILESYSTEM FILESYSTEM__RELABELFROM None;
  if nz rc then Ret rc else avc_has_perm (sid cred) sid0 SECCLASS_FILESYSTEM FILESYSTEM__RELABELTO None.

Definition may_context_mount_inode_relabel (sid0 : Z) (sbsec : superblock_security) (cred : task_security) : hook Z :=
  rc ← avc_has_perm (sid cred) (sb_sid sbsec) SECCLASS_FILESYSTEM FILESYSTEM__RELABELFROM None;
  if nz rc then Ret rc else avc_has_perm sid0 (sb_sid sbsec) SECCLASS_FILESYSTEM FILESYSTEM__ASSOCIATE None.

(** The number of entries of [labeling_behaviors]. *)
Definition NUM_BEHAVIORS : Z := 6.

(** The inodes on the list, one after the other; the list is empty then. *)
Fixpoint doinit_waiting (sbsec : superblock_security) (l : list waiting) : hook (list inode_security) :=
  match l with
  | [] => Ret []
  | w :: l' =>
      grabbed ← outside "igrab" [];
      isec ← (if nz grabbed && negb (w_private w) then
                '(_, isec, _) ← inode_doinit_with_dentry (mk_inode (w_mode w) (w_private w) (w_security w) sbsec)
                                  (mk_doinit_args (da_getxattr (w_args w)) None (da_alias (w_args w)));
                Ret isec
              else Ret (w_security w));
      rest ← doinit_waiting sbsec l';
      Ret (isec :: rest)
  end.

(** The flags of a superblock whose behavior is known. *)
Definition behavior_flags (name : string) (b : superblock_security) : Z :=
  let flags := sb_flags b .| (SE_SBINITIALIZED .| SE_SBLABELSUPP) in
  let flags := if (sb_behavior b =? SECURITY_FS_USE_GENFS) || (sb_behavior b =? SECURITY_FS_USE_MNTPOINT) ||
                  (sb_behavior b =? SECURITY_FS_USE_NONE) || (NUM_BEHAVIORS <? sb_behavior b)
               then flags .& not32 SE_SBLABELSUPP else flags in
  if bool_decide (name = "sysfs"%string) then flags .| SE_SBLABELSUPP else flags.

(** Result: the return value, the superblock, and the blobs of the inodes that
    were on the list. *)
Definition sb_finish_set_opts (s : super) : hook (Z * super * list inode_security) :=
  let sbsec := s_sec s in
  rc ← (if sb_behavior sbsec =? SECURITY_FS_USE_XATTR then
          if negb (da_getxattr (s_root_args s)) then Ret (- EOPNOTSUPP)
          else '(rc, _) ← getxattr 0; Ret (if (rc <? 0) && negb (rc =? - ENODATA) then rc else 0)
        else Ret 0);
  if nz rc then Ret (rc, s, [])
  else if sb_behavior sbsec =? 0 then Bug
  else
    let sbsec := set_sb_flags sbsec (behavior_flags (s_name s) sbsec) in
    '(rc, root, _) ← inode_doinit_with_dentry (mk_inode (s_root_mode s) false (s_root s) sbsec) (s_root_args s);
    others ← doinit_waiting sbsec (s_waiting s);
    Ret (rc, set_s_waiting (set_s_root (set_s_sec s sbsec) root) [], others).

(** *** Mount options *)

(** The text and the flag of each option; [SE_SBLABELSUPP] has no text. *)
Definition mnt_opts := list (option string * Z).

Definition bad_option (sbsec : superblock_security) (flag old_sid new_sid : Z) : bool :=
  if has_flags sbsec SE_SBINITIALIZED then negb (has_flags sbsec flag) || negb (old_sid =? new_sid)
  else nz (sb_flags sbsec .& SE_MNTMASK .& flag).

(** The SIDs of the options; 0 for an option that was not given. *)
Record mnt_sids := mk_mnt_sids {
  ms_fscontext : Z;
  ms_context : Z;
  ms_rootcontext : Z;
  ms_defcontext : Z
}.

(** The body of the [switch] over the flag of an option: the SID the superblock
    has for it, and where the new one goes. *)
Definition option_slot (sbsec : superblock_security) (root : inode_security) (m : mnt_sids) (flag sid : Z)
    : option (Z * mnt_sids) :=
  if flag =? FSCONTEXT_MNT then Some (sb_sid sbsec, mk_mnt_sids sid (ms_context m) (ms_rootcontext m) (ms_defcontext m))
  else if flag =? CONTEXT_MNT then Some (sb_mntpoint_sid sbsec, mk_mnt_sids (ms_fscontext m) sid (ms_rootcontext m) (ms_defcontext m))
  else if flag =? ROOTCONTEXT_MNT then Some (i_sid root, mk_mnt_sids (ms_fscontext m) (ms_context m) sid (ms_defcontext m))
  else if flag =? DEFCONTEXT_MNT then Some (sb_def_sid sbsec, mk_mnt_sids (ms_fscontext m) (ms_context m) (ms_rootcontext m) sid)
  else None.

(** The loop over the options: the return value, the flags set so far, the SIDs. *)
Fixpoint parse_mnt_opts (root : inode_security) (opts : mnt_opts) (sbsec : superblock_security) (m : mnt_sids)
    : hook (Z * superblock_security * mnt_sids) :=
  match opts with
  | [] => Ret (0, sbsec, m)
  | (text, flag) :: opts' =>
      if flag =? SE_SBLABELSUPP then parse_mnt_opts root opts' sbsec m
      else
        text ← of_option text;
        '(rc, sid) ← security_context_to_sid text 0;
        if nz rc then Ret (rc, sbsec, m)
        else
          match option_slot sbsec root m flag sid with
          | None => Ret (- EINVAL, sbsec, m)
          | Some (old_sid, m) =>
              if bad_option sbsec flag old_sid sid then Ret (- EINVAL, sbsec, m)
              else parse_mnt_opts root opts' (set_sb_flags sbsec (sb_flags sbsec .| flag)) m
          end
  end.

(** [fscontext=]: the label of the superblock. *)
Definition apply_fscontext (cred : task_security) (m : mnt_sids) (s : super) : hook (Z * super) :=
  if ms_fscontext m =? 0 then Ret (0, s)
  else
    rc ← may_context_mount_sb_relabel (ms_fscontext m) (s_sec s) cred;
    if nz rc then Ret (rc, s) else Ret (0, set_s_sec s (set_sb_sid (s_sec s) (ms_fscontext m))).

(** [context=]: the label of all files, and of the superblock. *)
Definition apply_context (cred : task_security) (m : mnt_sids) (s : super) : hook (Z * super * mnt_sids) :=
  if ms_context m =? 0 then Ret (0, s, m)
  else
    '(rc, sbsec) ← (if ms_fscontext m =? 0 then
                      rc ← may_context_mount_sb_relabel (ms_context m) (s_sec s) cred;
                      Ret (rc, if nz rc then s_sec s else set_sb_sid (s_sec s) (ms_context m))
                    else
                      rc ← may_context_mount_inode_relabel (ms_context m) (s_sec s) cred;
                      Ret (rc, s_sec s));
    if nz rc then Ret (rc, s, m)
    else
      let m := if ms_rootcontext m =? 0
               then mk_mnt_sids (ms_fscontext m) (ms_context m) (ms_context m) (ms_defcontext m) else m in
      Ret (0, set_s_sec s (mk_superblock_security (sb_sid sbsec) (sb_def_sid sbsec) (ms_context m)
                             SECURITY_FS_USE_MNTPOINT (sb_flags sbsec)), m).

(** [rootcontext=]: the label of the root. *)
Definition apply_rootcontext (cred : task_security) (m : mnt_sids) (s : super) : hook (Z * super) :=
  if ms_rootcontext m =? 0 then Ret (0, s)
  else
    rc ← may_context_mount_inode_relabel (ms_rootcontext m) (s_sec s) cred;
    if nz rc then Ret (rc, s) else Ret (0, set_s_root s (set_i_initialized (set_i_sid (s_root s) (ms_rootcontext m)))).

(** [defcontext=]: the label of files without one. *)
Definition apply_defcontext (cred : task_security) (m : mnt_sids) (s : super) : hook (Z * super) :=
  let sbsec := s_sec s in
  if ms_defcontext m =? 0 then Ret (0, s)
  else if negb (sb_behavior sbsec =? SECURITY_FS_USE_XATTR) then Ret (- EINVAL, s)
  else
    rc ← (if negb (ms_defcontext m =? sb_def_sid sbsec) then may_context_mount_inode_relabel (ms_defcontext m) sbsec cred
          else Ret 0);
    if nz rc then Ret (rc, s)
    else Ret (0, set_s_sec s (mk_superblock_security (sb_sid sbsec) (ms_defcontext m) (sb_mntpoint_sid sbsec)
                                (sb_behavior sbsec) (sb_flags sbsec))).

(** [security_fs_use] *)
Definition security_fs_use (fstype : string) (b : superblock_security) : hook (Z * superblock_security) :=
  Call (FsUse fstype) (fun an =>
    Ret (an_rc an, mk_superblock_security (default (sb_sid b) (an_out2 an)) (sb_def_sid b) (sb_mntpoint_sid b)
                     (default (sb_behavior b) (an_out an)) (sb_flags b))).

(** The labels of a superblock that is set up for the first time. *)
Definition apply_mnt_opts (cred : task_security) (m : mnt_sids) (s : super) : hook (Z * super * list inode_security) :=
  let sbsec := s_sec s in
  let proc := bool_decide (s_name s = "proc"%string) in
  let sbsec := if proc then set_sb_flags sbsec (sb_flags sbsec .| SE_SBPROC) else sbsec in
  '(rc, sbsec) ← security_fs_use (if has_flags sbsec SE_SBPROC then "proc" else s_name s) sbsec;
  let s := set_s_sec s sbsec in
  if nz rc then Ret (rc, s, [])
  else
    '(rc, s) ← apply_fscontext cred m s;
    if nz rc then Ret (rc, s, [])
    else
      '(rc, s, m) ← apply_context cred m s;
      if nz rc then Ret (rc, s, [])
      else
        '(rc, s) ← apply_rootcontext cred m s;
        if nz rc then Ret (rc, s, [])
        else
          '(rc, s) ← apply_defcontext cred m s;
          if nz rc then Ret (rc, s, []) else sb_finish_set_opts s.

(** Result: the return value, the superblock, and the blobs of inodes that were
    waiting. *)
Definition selinux_set_mnt_opts (cred : task_security) (opts : mnt_opts) (s : super) : hook (Z * super * list inode_security) :=
  let num_opts := length opts in
  ss_initialized ← ask_bool (Global g_ss_initialized);
  if negb ss_initialized then Ret (if Nat.eqb num_opts 0 then 0 else - EINVAL, s, [])
  else if has_flags (s_sec s) SE_SBINITIALIZED && s_binary s && Nat.eqb num_opts 0 then Ret (0, s, [])
  else
    '(rc, sbsec, m) ← parse_mnt_opts (s_root s) opts (s_sec s) (mk_mnt_sids 0 0 0 0);
    let s := set_s_sec s sbsec in
    if nz rc then Ret (rc, s, [])
    else if has_flags sbsec SE_SBINITIALIZED then
      Ret (if has_flags sbsec SE_MNTMASK && Nat.eqb num_opts 0 then - EINVAL else 0, s, [])
    else apply_mnt_opts cred m s.

(** Result: [None] for [BUG_ON], the new superblock otherwise. *)
Definition selinux_sb_clone_mnt_opts (old new : super) : hook (super * list inode_security) :=
  let oldsbsec := s_sec old in
  let newsbsec := s_sec new in
  let set_fscontext := has_flags oldsbsec FSCONTEXT_MNT in
  let set_context := has_flags oldsbsec CONTEXT_MNT in
  let set_rootcontext := has_flags oldsbsec ROOTCONTEXT_MNT in
  ss_initialized ← ask_bool (Global g_ss_initialized);
  if negb ss_initialized then Ret (new, [])
  else if negb (has_flags oldsbsec SE_SBINITIALIZED) then Bug
  else if has_flags newsbsec SE_SBINITIALIZED then Ret (new, [])
  else
    let mntpoint := sb_mntpoint_sid oldsbsec in
    let newsbsec :=
      mk_superblock_security (if set_context && negb set_fscontext then mntpoint else sb_sid oldsbsec)
        (sb_def_sid oldsbsec) (if set_context then mntpoint else sb_mntpoint_sid newsbsec)
        (sb_behavior oldsbsec) (sb_flags oldsbsec) in
    let root := if set_context && negb set_rootcontext then set_i_sid (s_root new) mntpoint else s_root new in
    let root := if set_rootcontext then set_i_sid root (i_sid (s_root old)) else root in
    '(_, new, others) ← sb_finish_set_opts (set_s_root (set_s_sec new newsbsec) root);
    Ret (new, others).

(** *** Options as text *)

Definition CONTEXT_STR : string := "context=".
Definition FSCONTEXT_STR : string := "fscontext=".
Definition ROOTCONTEXT_STR : string := "rootcontext=".
Definition DEFCONTEXT_STR : string := "defcontext=".
Definition LABELSUPP_STR : string := "seclabel".

(** [strsep(&options, "|")], all pieces. *)
Fixpoint split_on (sep : ascii) (cur : string) (s : string) : list string :=
  match s with
  | EmptyString => [cur]
  | String c s' => if Ascii.eqb c sep then cur :: split_on sep EmptyString s' else split_on sep (cur ++ String c EmptyString) s'
  end.

(** The part of [s] after [prefix]. *)
Fixpoint after_prefix (prefix s : string) : option string :=
  match prefix, s with
  | EmptyString, _ => Some s
  | String a p', String b s' => if Ascii.eqb a b then after_prefix p' s' else None
  | String _ _, EmptyString => None
  end.

(** The table of tokens, each with the flag it stands for. *)
Definition tokens : list (Z * string) :=
  [(CONTEXT_MNT, CONTEXT_STR); (FSCONTEXT_MNT, FSCONTEXT_STR); (DEFCONTEXT_MNT, DEFCONTEXT_STR); (ROOTCONTEXT_MNT, ROOTCONTEXT_STR)].

(** [match_token(p, tokens, args)] (lib/parser.c): the flag of the option and
    its argument, which is not empty. *)
Fixpoint match_tokens (l : list (Z * string)) (p : string) : option (Z * string) :=
  match l with
  | [] => if bool_decide (p = LABELSUPP_STR) then Some (SE_SBLABELSUPP, EmptyString) else None
  | (flag, pattern) :: l' =>
      match after_prefix pattern p with
      | Some ((String _ _) as arg) => Some (flag, arg)
      | _ => match_tokens l' p
      end
  end.
Definition match_token (p : string) : option (Z * string) := match_tokens tokens p.

(** The options seen so far. *)
Record parsed := mk_parsed {
  pa_context : option string;
  pa_fscontext : option string;
  pa_rootcontext : option string;
  pa_defcontext : option string
}.

Definition given (o : option string) : bool := match o with Some _ => true | None => false end.

(** One option; [inl]: the error.  [match_strdup] allocates. *)
Definition parse_option (flag : Z) (arg : string) (a : parsed) : hook (Z + parsed) :=
  let dup (dupl : bool) (a' : parsed) : hook (Z + parsed) :=
    if dupl then Ret (inl (- EINVAL))
    else ok ← kernel_alloc; if negb ok then Ret (inl (- ENOMEM)) else Ret (inr a') in
  if flag =? CONTEXT_MNT then
    dup (given (pa_context a) || given (pa_defcontext a))
      (mk_parsed (Some arg) (pa_fscontext a) (pa_rootcontext a) (pa_defcontext a))
  else if flag =? FSCONTEXT_MNT then
    dup (given (pa_fscontext a)) (mk_parsed (pa_context a) (Some arg) (pa_rootcontext a) (pa_defcontext a))
  else if flag =? ROOTCONTEXT_MNT then
    dup (given (pa_rootcontext a)) (mk_parsed (pa_context a) (pa_fscontext a) (Some arg) (pa_defcontext a))
  else if flag =? DEFCONTEXT_MNT then
    dup (given (pa_context a) || given (pa_defcontext a))
      (mk_parsed (pa_context a) (pa_fscontext a) (pa_rootcontext a) (Some arg))
  else Ret (inr a).

Fixpoint parse_options (l : list string) (a : parsed) : hook (Z + parsed) :=
  match l with
  | [] => Ret (inr a)
  | EmptyString :: l' => parse_options l' a
  | p :: l' =>
      match match_token p with
      | None => Ret (inl (- EINVAL))
      | Some (flag, arg) =>
          r ← parse_option flag arg a;
          match r with inl rc => Ret (inl rc) | inr a => parse_options l' a end
      end
  end.

Definition opt_entry (o : option string) (flag : Z) : mnt_opts := match o with Some s => [(Some s, flag)] | None => [] end.

Definition parsed_opts (a : parsed) : mnt_opts :=
  opt_entry (pa_fscontext a) FSCONTEXT_MNT ++ opt_entry (pa_context a) CONTEXT_MNT ++
  opt_entry (pa_rootcontext a) ROOTCONTEXT_MNT ++ opt_entry (pa_defcontext a) DEFCONTEXT_MNT.

Definition selinux_parse_opts_str (options : string) : hook (Z * mnt_opts) :=
  r ← parse_options (split_on "|"%char EmptyString options) (mk_parsed None None None None);
  match r with
  | inl rc => Ret (rc, [])
  | inr a =>
      ok ← kernel_alloc;
      if negb ok then Ret (- ENOMEM, [])
      else
        ok ← kernel_alloc;
        if negb ok then Ret (- ENOMEM, []) else Ret (0, parsed_opts a)
  end.

(** [security_free_mnt_opts] has no effect here; [data] is [None] for a null
    pointer. *)
Definition superblock_doinit (cred : task_security) (data : option string) (s : super) : hook (Z * super * list inode_security) :=
  match data with
  | None => selinux_set_mnt_opts cred [] s
  | Some options =>
      if s_binary s then Bug
      else
        '(rc, opts) ← selinux_parse_opts_str options;
        if nz rc then Ret (rc, s, []) else selinux_set_mnt_opts cred opts s
  end.

(** [BUG_ON(i != opts->num_mnt_opts)] compares what was counted and written. *)
Definition selinux_get_mnt_opts (s : super) : hook (Z * mnt_opts) :=
  let sbsec := s_sec s in
  let entry flag sid (k : mnt_opts -> hook (Z * mnt_opts)) :=
    if has_flags sbsec flag then
      '(rc, context, _) ← security_sid_to_context sid;
      if nz rc then Ret (rc, []) else k [(context, flag)]
    else k [] in
  if negb (has_flags sbsec SE_SBINITIALIZED) then Ret (- EINVAL, [])
  else
    ss_initialized ← ask_bool (Global g_ss_initialized);
    if negb ss_initialized then Ret (- EINVAL, [])
    else
      ok ← kernel_alloc;
      if negb ok then Ret (- ENOMEM, [])
      else
        ok ← kernel_alloc;
        if negb ok then Ret (- ENOMEM, [])
        else
          entry FSCONTEXT_MNT (sb_sid sbsec) (fun l1 =>
          entry CONTEXT_MNT (sb_mntpoint_sid sbsec) (fun l2 =>
          entry DEFCONTEXT_MNT (sb_def_sid sbsec) (fun l3 =>
          entry ROOTCONTEXT_MNT (i_sid (s_root s)) (fun l4 =>
          let l5 := if has_flags sbsec SE_SBLABELSUPP then [(None, SE_SBLABELSUPP)] else [] in
          Ret (0, l1 ++ l2 ++ l3 ++ l4 ++ l5))))).

Definition QUOTE : ascii := "034"%char.
Definition COMMA : ascii := "044"%char.
Definition BAR : ascii := "124"%char.
Definition char_str (c : ascii) : string := String c EmptyString.

Fixpoint has_char (c : ascii) (s : string) : bool :=
  match s with EmptyString => false | String d s' => Ascii.eqb d c || has_char c s' end.

Definition option_prefix (flag : Z) : option string :=
  if flag =? CONTEXT_MNT then Some CONTEXT_STR
  else if flag =? FSCONTEXT_MNT then Some FSCONTEXT_STR
  else if flag =? ROOTCONTEXT_MNT then Some ROOTCONTEXT_STR
  else if flag =? DEFCONTEXT_MNT then Some DEFCONTEXT_STR
  else None.

(** What is written for one option; [None]: [BUG()], or a null text. *)
Definition write_opt (o : option string * Z) : option string :=
  if o.2 =? SE_SBLABELSUPP then Some (char_str COMMA ++ LABELSUPP_STR)%string
  else
    prefix ← option_prefix o.2;
    text ← o.1;
    let quote := if has_char COMMA text then char_str QUOTE else EmptyString in
    Some (char_str COMMA ++ prefix ++ quote ++ text ++ quote)%string.

Fixpoint selinux_write_opts (opts : mnt_opts) : option string :=
  match opts with
  | [] => Some EmptyString
  | o :: opts' => a ← write_opt o; b ← selinux_write_opts opts'; Some (a ++ b)%string
  end.

(** Result: the return value and the text written. *)
Definition selinux_sb_show_options (s : super) : hook (Z * string) :=
  '(rc, opts) ← selinux_get_mnt_opts s;
  if nz rc then Ret (if rc =? - EINVAL then 0 else rc, EmptyString)
  else text ← of_option (selinux_write_opts opts); Ret (rc, text).

(** *** The options of a mount call *)

Definition selinux_option (option : string) : bool :=
  String.prefix CONTEXT_STR option || String.prefix FSCONTEXT_STR option || String.prefix DEFCONTEXT_STR option ||
  String.prefix ROOTCONTEXT_STR option || String.prefix LABELSUPP_STR option.

(** [take_option], [take_selinux_option]: what is appended. *)
Definition take_option (to from : string) (first : bool) : string :=
  (to ++ (if first then EmptyString else char_str COMMA) ++ from)%string.

Fixpoint drop_char (c : ascii) (s : string) : string :=
  match s with EmptyString => EmptyString | String d s' => if Ascii.eqb d c then drop_char c s' else String d (drop_char c s') end.

Definition take_selinux_option (to from : string) (first : bool) : string :=
  (to ++ (if first then EmptyString else char_str BAR) ++ drop_char QUOTE from)%string.

(** The options between commas that are not inside quotes. *)
Fixpoint mount_pieces (open_quote : bool) (cur s : string) : list string :=
  match s with
  | EmptyString => [cur]
  | String c s' =>
      let open_quote := if Ascii.eqb c QUOTE then negb open_quote else open_quote in
      if Ascii.eqb c COMMA && negb open_quote then cur :: mount_pieces open_quote EmptyString s'
      else mount_pieces open_quote (cur ++ char_str c) s'
  end.

(** [sec], [nosec] and whether they are still empty ([fsec], [fnosec]). *)
Fixpoint copy_pieces (l : list string) (sec nosec : string) (fsec fnosec : bool) : string * string :=
  match l with
  | [] => (sec, nosec)
  | p :: l' =>
      if selinux_option p then copy_pieces l' (take_selinux_option sec p fsec) nosec false fnosec
      else copy_pieces l' sec (take_option nosec p fnosec) fsec false
  end.

(** Result: the return value, [copy] with the options of SELinux, and [orig]
    with the others. *)
Definition selinux_sb_copy_data (orig : string) : hook (Z * string * string) :=
  ok ← kernel_alloc;
  if negb ok then Ret (- ENOMEM, EmptyString, orig)
  else let '(sec, nosec) := copy_pieces (mount_pieces false EmptyString orig) EmptyString EmptyString true true in
       Ret (0, sec, nosec).

(** The loop of [selinux_sb_remount] over the options. *)
Fixpoint remount_opts (sbsec : superblock_security) (root : inode_security) (opts : mnt_opts) : hook Z :=
  match opts with
  | [] => Ret 0
  | (text, flag) :: opts' =>
      if flag =? SE_SBLABELSUPP then remount_opts sbsec root opts'
      else
        text ← of_option text;
        '(rc, sid) ← security_context_to_sid text 0;
        if nz rc then Ret rc
        else
          match option_slot sbsec root (mk_mnt_sids 0 0 0 0) flag sid with
          | None => Ret (- EINVAL)
          | Some (old_sid, _) => if bad_option sbsec flag old_sid sid then Ret (- EINVAL) else remount_opts sbsec root opts'
          end
  end.

(** [alloc_secdata] gives a page.  Result: the return value and [data], from
    which the options of SELinux have been removed. *)
Definition selinux_sb_remount (data : option string) (s : super) : hook (Z * option string) :=
  if negb (has_flags (s_sec s) SE_SBINITIALIZED) then Ret (0, data)
  else
    match data with
    | None => Ret (0, data)
    | Some d =>
        if s_binary s then Ret (0, data)
        else
          ok ← kernel_alloc;
          if negb ok then Ret (- ENOMEM, data)
          else
            '(rc, secdata, d) ← selinux_sb_copy_data d;
            if nz rc then Ret (rc, Some d)
            else
              '(rc, opts) ← selinux_parse_opts_str secdata;
              if nz rc then Ret (rc, Some d) else rc ← remount_opts (s_sec s) (s_root s) opts; Ret (rc, Some d)
    end.

Definition MS_REMOUNT : Z := 32.
Definition MS_KERNMOUNT : Z := 0x400000.

Definition selinux_sb_kern_mount (cur : task) (flags : Z) (data : option string) (s : super)
    : hook (Z * super * list inode_security) :=
  '(rc, s, others) ← superblock_doinit (t_cred cur) data s;
  if nz rc then Ret (rc, s, others)
  else if nz (flags .& MS_KERNMOUNT) then Ret (0, s, others)
  else rc ← superblock_has_perm (t_cred cur) (s_sec s) FILESYSTEM__MOUNT ad_of_fs; Ret (rc, s, others).

Definition selinux_mount (cur : task) (mnt_sb : superblock_security) (mountpoint : inode) (flags : Z) : hook Z :=
  if nz (flags .& MS_REMOUNT) then superblock_has_perm (t_cred cur) mnt_sb FILESYSTEM__REMOUNT None
  else dentry_has_perm (t_cred cur) mountpoint FILE__MOUNTON.

Definition selinux_umount (cur : task) (mnt_sb : superblock_security) : hook Z :=
  superblock_has_perm (t_cred cur) mnt_sb FILESYSTEM__UNMOUNT None.
