(* ===== verification/HookMount.v ===== *)
(** Theorems on labels: the options a file system shows are accepted when it
    is mounted again, the label of a new file is the one that was checked, and
    where the code gives another one. *)

From S2P Require Import Prelude Sidtab Classmap Avc Flask HookBase HookTask HookFile HookLabel.
From Stdlib Require Import String Ascii.
From stdpp Require Import strings.
Open Scope Z_scope.

(** ** Strings *)

#[local] Arguments String.append !s1 s2 : simpl nomatch.

Lemma str_app_assoc (a b c : string) : ((a ++ b) ++ c)%string = (a ++ (b ++ c))%string.
Proof. induction a as [|x a IH]; cbn; [done|]. by rewrite IH. Qed.

Lemma str_app_nil_r (a : string) : (a ++ EmptyString)%string = a.
Proof. induction a as [|x a IH]; cbn; [done|]. by rewrite IH. Qed.

Lemma has_char_app c a b : has_char c (a ++ b) = has_char c a || has_char c b.
Proof. induction a as [|x a IH]; cbn; [done|]. by rewrite IH, orb_assoc. Qed.

Lemma drop_char_app c a b : drop_char c (a ++ b) = (drop_char c a ++ drop_char c b)%string.
Proof. induction a as [|x a IH]; cbn; [done|]. destruct (Ascii.eqb x c); cbn; by rewrite IH. Qed.

Lemma drop_char_none c a : has_char c a = false -> drop_char c a = a.
Proof.
  induction a as [|x a IH]; cbn; [done|]. intros [H1 H2]%orb_false_iff. rewrite H1. by rewrite IH.
Qed.

Lemma after_prefix_app p a : after_prefix p (p ++ a) = Some a.
Proof. induction p as [|x p IH]; cbn; [done|]. by rewrite Ascii.eqb_refl. Qed.

Lemma prefix_app p a : String.prefix p (p ++ a) = true.
Proof.
  induction p as [|x p IH]; [by destruct a|]. cbn. destruct (ascii_dec x x); [done|congruence].
Qed.

(** ** Pieces *)

(** Whether a quote is open after [s]. *)
Fixpoint quote_after (q : bool) (s : string) : bool :=
  match s with EmptyString => q | String c s' => quote_after (if Ascii.eqb c QUOTE then negb q else q) s' end.

Lemma pieces_plain q cur t rest :
  has_char QUOTE t = false -> (q = true \/ has_char COMMA t = false) ->
  mount_pieces q cur (t ++ rest) = mount_pieces q (cur ++ t) rest.
Proof.
  revert cur. induction t as [|c t IH]; intros cur Hq Hc; cbn; [by rewrite str_app_nil_r|].
  cbn in Hq. apply orb_false_iff in Hq as [Hq1 Hq2]. rewrite Hq1.
  replace (Ascii.eqb c COMMA && negb q) with false.
  - rewrite IH, str_app_assoc; [done|done|]. destruct Hc as [->|Hc]; [by left|right]. cbn in Hc. by apply orb_false_iff in Hc as [_ ?].
  - destruct Hc as [->|Hc]; [by rewrite andb_false_r|]. cbn in Hc. apply orb_false_iff in Hc as [-> _]. done.
Qed.

Lemma pieces_quote q cur rest : mount_pieces q cur (char_str QUOTE ++ rest) = mount_pieces (negb q) (cur ++ char_str QUOTE) rest.
Proof. done. Qed.

Lemma pieces_comma cur rest : mount_pieces false cur (char_str COMMA ++ rest) = cur :: mount_pieces false EmptyString rest.
Proof. done. Qed.

Lemma pieces_base q cur base rest :
  quote_after q base = false ->
  mount_pieces q cur (base ++ char_str COMMA ++ rest) = mount_pieces q cur base ++ mount_pieces false EmptyString rest.
Proof.
  revert q cur. induction base as [|c base IH]; intros q cur Hq; cbn in Hq |- *.
  - by rewrite Hq.
  - destruct (Ascii.eqb c COMMA && negb (if Ascii.eqb c QUOTE then negb q else q)); [|by apply IH].
    cbn. f_equal. by apply IH.
Qed.

(** The pieces joined again. *)
Fixpoint join (sep : ascii) (first : bool) (l : list string) : string :=
  match l with
  | [] => EmptyString
  | p :: l' => ((if first then EmptyString else char_str sep) ++ p ++ join sep false l')%string
  end.

Lemma join_pieces q cur s : join COMMA true (mount_pieces q cur s) = (cur ++ s)%string.
Proof.
  assert (forall b q cur s, join COMMA b (mount_pieces q cur s) = ((if b then EmptyString else char_str COMMA) ++ cur ++ s)%string) as H.
  { clear. intros b q cur s. revert b q cur. induction s as [|c s IH]; intros b q cur; cbn; [by rewrite !str_app_nil_r|].
    set (q' := if Ascii.eqb c QUOTE then negb q else q). destruct (Ascii.eqb c COMMA && negb q') eqn:E; cbn.
    - rewrite IH. cbn. apply andb_true_iff in E as [->%Ascii.eqb_eq _]. done.
    - rewrite IH, str_app_assoc. done. }
  apply H.
Qed.

Lemma copy_plain l sec nosec fsec fnosec rest :
  Forall (fun p => selinux_option p = false) l ->
  copy_pieces (l ++ rest) sec nosec fsec fnosec =
  copy_pieces rest sec (nosec ++ join COMMA fnosec l) fsec (fnosec && bool_decide (l = [])).
Proof.
  revert nosec fnosec. induction l as [|p l IH]; intros nosec fnosec Hl; cbn.
  - rewrite str_app_nil_r, andb_true_r. done.
  - apply Forall_cons in Hl as [Hp Hl]. rewrite Hp, IH by done. unfold take_option. rewrite !str_app_assoc.
    by rewrite andb_false_r.
Qed.

Lemma copy_selinux l sec nosec fsec fnosec :
  Forall (fun p => selinux_option p = true) l ->
  copy_pieces l sec nosec fsec fnosec = ((sec ++ join BAR fsec (drop_char QUOTE <$> l))%string, nosec).
Proof.
  revert sec fsec. induction l as [|p l IH]; intros sec fsec Hl; cbn; [by rewrite str_app_nil_r|].
  apply Forall_cons in Hl as [Hp Hl]. rewrite Hp, IH by done. unfold take_selinux_option. by rewrite !str_app_assoc.
Qed.

Lemma split_plain cur t rest : has_char BAR t = false -> split_on BAR cur (t ++ rest) = split_on BAR (cur ++ t) rest.
Proof.
  revert cur. induction t as [|c t IH]; intros cur H; cbn; [by rewrite str_app_nil_r|].
  cbn in H. apply orb_false_iff in H as [-> H]. by rewrite IH, str_app_assoc.
Qed.

Lemma split_join p l :
  Forall (fun p => has_char BAR p = false) (p :: l) -> split_on BAR EmptyString (join BAR true (p :: l)) = p :: l.
Proof.
  cbn [join]. change (EmptyString ++ ?x)%string with x. intros Hl. apply Forall_cons in Hl as [Hp Hl].
  assert (forall cur l, Forall (fun p => has_char BAR p = false) l -> split_on BAR cur (join BAR false l) = cur :: l) as H.
  { clear. intros cur l. revert cur. induction l as [|p l IH]; intros cur Hl; cbn; [done|].
    apply Forall_cons in Hl as [Hp Hl]. by rewrite split_plain, IH. }
  rewrite split_plain by done. by apply H.
Qed.

(** ** Options shown and parsed *)

(** A context that can be quoted in a list of options. *)
Definition quotable (t : string) : Prop := t <> EmptyString /\ has_char QUOTE t = false /\ has_char BAR t = false.

Definition pick {A} (b : bool) (x : A) : list A := if b then [x] else [].

(** The options with the given flags and texts, as they are read. *)
Definition plain_pieces (b1 b2 b3 b4 b5 : bool) (t1 t2 t3 t4 : string) : list string :=
  pick b1 (FSCONTEXT_STR ++ t1)%string ++ pick b2 (CONTEXT_STR ++ t2)%string ++ pick b3 (DEFCONTEXT_STR ++ t3)%string ++
  pick b4 (ROOTCONTEXT_STR ++ t4)%string ++ pick b5 LABELSUPP_STR.

(** As they are shown by [selinux_get_mnt_opts], and in the order of the parser. *)
Definition shown_opts (b1 b2 b3 b4 b5 : bool) (t1 t2 t3 t4 : string) : mnt_opts :=
  pick b1 (Some t1, FSCONTEXT_MNT) ++ pick b2 (Some t2, CONTEXT_MNT) ++ pick b3 (Some t3, DEFCONTEXT_MNT) ++
  pick b4 (Some t4, ROOTCONTEXT_MNT) ++ pick b5 (None, SE_SBLABELSUPP).
Definition read_opts (b1 b2 b3 b4 : bool) (t1 t2 t3 t4 : string) : mnt_opts :=
  pick b1 (Some t1, FSCONTEXT_MNT) ++ pick b2 (Some t2, CONTEXT_MNT) ++ pick b4 (Some t4, ROOTCONTEXT_MNT) ++
  pick b3 (Some t3, DEFCONTEXT_MNT).

(** The quotes of a shown option are removed when it is copied. *)
Definition quoted (t : string) : string :=
  let quote := if has_char COMMA t then char_str QUOTE else EmptyString in (quote ++ t ++ quote)%string.

Lemma drop_quoted t : has_char QUOTE t = false -> drop_char QUOTE (quoted t) = t.
Proof.
  intros H. unfold quoted. destruct (has_char COMMA t); rewrite !drop_char_app, (drop_char_none _ t) by done; cbn;
    by rewrite str_app_nil_r.
Qed.

Lemma pieces_quoted cur prefix t rest :
  has_char QUOTE prefix = false -> has_char COMMA prefix = false -> has_char QUOTE t = false ->
  mount_pieces false cur (prefix ++ quoted t ++ rest) = mount_pieces false (cur ++ prefix ++ quoted t) rest.
Proof.
  intros Hp1 Hp2 Ht. rewrite pieces_plain by auto. unfold quoted. destruct (has_char COMMA t) eqn:E.
  - rewrite !str_app_assoc, pieces_quote, pieces_plain, pieces_quote by auto. by rewrite !str_app_assoc.
  - change (EmptyString ++ ?x)%string with x. rewrite str_app_nil_r, pieces_plain by auto. by rewrite !str_app_assoc.
Qed.

(** The pieces of what is shown. *)
Definition shown_piece (o : option string * Z) : option string :=
  if o.2 =? SE_SBLABELSUPP then Some LABELSUPP_STR
  else prefix ← option_prefix o.2; text ← o.1; Some (prefix ++ quoted text)%string.

Fixpoint shown_pieces (opts : mnt_opts) : option (list string) :=
  match opts with
  | [] => Some []
  | o :: opts' => p ← shown_piece o; ps ← shown_pieces opts'; Some (p :: ps)
  end.

Definition opt_plain (o : option string * Z) : Prop :=
  match o.1 with Some t => has_char QUOTE t = false | None => True end.

Lemma option_prefix_plain flag p : option_prefix flag = Some p -> has_char QUOTE p = false /\ has_char COMMA p = false.
Proof. unfold option_prefix. intros H. repeat case_match; simplify_eq; done. Qed.

Lemma write_opts_pieces opts text :
  selinux_write_opts opts = Some text -> Forall opt_plain opts ->
  exists ps, shown_pieces opts = Some ps /\ forall cur, mount_pieces false cur text = cur :: ps.
Proof.
  revert text. induction opts as [|[t flag] opts IH]; intros text H Hp; cbn in H.
  - injection H as <-. by exists [].
  - apply Forall_cons in Hp as [Hp Hps]. apply bind_Some in H as (a & Ha & H). apply bind_Some in H as (b & Hb & E).
    injection E as <-. destruct (IH b Hb Hps) as (ps & Hm & Hc).
    unfold write_opt in Ha. cbn [shown_pieces]. unfold shown_piece. cbn [fst snd] in *. destruct (flag =? SE_SBLABELSUPP).
    + injection Ha as <-. exists (LABELSUPP_STR :: ps). cbn [mbind option_bind]. rewrite Hm. split; [done|]. intros cur.
      change (cur :: mount_pieces false EmptyString (LABELSUPP_STR ++ b) = cur :: LABELSUPP_STR :: ps).
      by rewrite pieces_plain, Hc by auto.
    + apply bind_Some in Ha as (prefix & Hpre & Ha). apply bind_Some in Ha as (tx & Ht & Ea). injection Ea as <-. subst t.
      rewrite Hpre. cbn [mbind option_bind]. rewrite Hm. eexists. split; [done|]. intros cur.
      apply option_prefix_plain in Hpre as [Hq Hc']. fold (quoted tx).
      change (cur :: mount_pieces false EmptyString ((prefix ++ quoted tx) ++ b) = cur :: (prefix ++ quoted tx)%string :: ps).
      by rewrite str_app_assoc, pieces_quoted, Hc by done.
Qed.

Lemma write_opts_comma o opts text :
  selinux_write_opts (o :: opts) = Some text -> exists r, text = (char_str COMMA ++ r)%string.
Proof.
  cbn. intros H. apply bind_Some in H as (a & Ha & H). apply bind_Some in H as (b & _ & E). injection E as <-.
  unfold write_opt in Ha. destruct (o.2 =? SE_SBLABELSUPP); [injection Ha as <-; by eexists|].
  apply bind_Some in Ha as (p & _ & Ha). apply bind_Some in Ha as (t & _ & E). injection E as <-. by eexists.
Qed.

(** What is shown after other options is taken apart again. *)
Lemma copy_shown base opts text ps :
  selinux_write_opts opts = Some text -> Forall opt_plain opts -> shown_pieces opts = Some ps ->
  Forall (fun p => selinux_option p = true) ps ->
  quote_after false base = false -> Forall (fun p => selinux_option p = false) (mount_pieces false EmptyString base) ->
  copy_pieces (mount_pieces false EmptyString (base ++ text)) EmptyString EmptyString true true =
  (join BAR true (drop_char QUOTE <$> ps), base).
Proof.
  intros Hw Hp Hs Hsel Hq Hb. destruct (write_opts_pieces opts text Hw Hp) as (ps' & Hs' & Hpieces).
  rewrite Hs in Hs'. injection Hs' as <-. destruct opts as [|o opts].
  - cbn in Hw, Hs. injection Hw as <-. injection Hs as <-. rewrite str_app_nil_r.
    rewrite <- (app_nil_r (mount_pieces _ _ base)), copy_plain by done. cbn. f_equal. apply (join_pieces false EmptyString).
  - destruct (write_opts_comma o opts text Hw) as [r ->]. specialize (Hpieces EmptyString). cbn in Hpieces.
    injection Hpieces as Hr. rewrite pieces_base by done. rewrite Hr, copy_plain, copy_selinux by done. cbn. f_equal.
    apply (join_pieces false EmptyString).
Qed.

Lemma parse_split l a :
  Forall (fun p => has_char BAR p = false) l ->
  parse_options (split_on "|"%char EmptyString (join BAR true l)) a = parse_options l a.
Proof. intros Hl. destruct l as [|p l]; [done|]. change "|"%char with BAR. by rewrite split_join. Qed.

Section shown.
Context (ans : call -> answer) (Hmem : nz (an_rc (ans Kalloc)) = true).

Lemma eval_parse_cons p l flag arg a a' :
  match_token p = Some (flag, arg) -> p <> EmptyString -> eval ans (parse_option flag arg a) = Some (inr a') ->
  eval ans (parse_options (p :: l) a) = eval ans (parse_options l a').
Proof.
  intros Hm Hp Ha. destruct p as [|c p]; [done|]. cbn [parse_options]. rewrite Hm, eval_bind, Ha. done.
Qed.

(** One of the four options with a context. *)
Lemma eval_parse_pick b flag prefix t l a a' :
  option_prefix flag = Some prefix -> (b = true -> quotable t) ->
  (b = true -> eval ans (parse_option flag t a) = Some (inr a')) -> (b = false -> a' = a) ->
  eval ans (parse_options (pick b (prefix ++ t)%string ++ l) a) = eval ans (parse_options l a').
Proof using Hmem.
  intros Hp Hq Ht Hf. destruct b; [|by rewrite (Hf eq_refl)]. destruct (Hq eq_refl) as [Hne _].
  destruct t as [|c t]; [done|]. cbn [pick app].
  assert (match_token (prefix ++ String c t) = Some (flag, String c t) /\ (prefix ++ String c t)%string <> EmptyString) as [Hm Hn].
  { unfold option_prefix in Hp.
    repeat match type of Hp with
    | (if ?f =? ?x then _ else _) = _ => destruct (Z.eqb_spec f x) as [->|_]; [injection Hp as <-; by split|]
    end. discriminate Hp. }
  apply (eval_parse_cons _ _ flag (String c t)); [done|done|by apply Ht].
Qed.

Lemma eval_parse_label b a : eval ans (parse_options (pick b LABELSUPP_STR) a) = Some (inr a).
Proof. by destruct b. Qed.

Context (b1 b2 b3 b4 b5 : bool) (t1 t2 t3 t4 : string).
Context (Q1 : b1 = true -> quotable t1) (Q2 : b2 = true -> quotable t2) (Q3 : b3 = true -> quotable t3)
  (Q4 : b4 = true -> quotable t4) (Hex : b2 && b3 = false).
Abbreviation pieces := (plain_pieces b1 b2 b3 b4 b5 t1 t2 t3 t4).

Lemma pick_bar b prefix t :
  (b = true -> quotable t) -> has_char BAR prefix = false -> Forall (fun p => has_char BAR p = false) (pick b (prefix ++ t)%string).
Proof.
  intros Hq Hp. destruct b; [|constructor]. destruct (Hq eq_refl) as (_ & _ & H). repeat constructor. by rewrite has_char_app, Hp.
Qed.

Lemma plain_pieces_bar : Forall (fun p => has_char BAR p = false) pieces.
Proof using Q1 Q2 Q3 Q4.
  unfold plain_pieces. repeat (apply Forall_app_2; [by apply pick_bar|]). destruct b5; by repeat constructor.
Qed.

Definition when (b : bool) (t : string) : option string := if b then Some t else None.

Lemma parse_plain :
  eval ans (selinux_parse_opts_str (join BAR true pieces)) = Some (0, read_opts b1 b2 b3 b4 t1 t2 t3 t4).
Proof using Q1 Q2 Q3 Q4 Hex Hmem.
  unfold selinux_parse_opts_str. rewrite parse_split by apply plain_pieces_bar. unfold plain_pieces. rewrite eval_bind.
  rewrite (eval_parse_pick b1 FSCONTEXT_MNT _ _ _ _ (mk_parsed None (when b1 t1) None None)); [|done|done| |by intros ->].
  2: { intros ->. cbn. by rewrite Hmem. }
  rewrite (eval_parse_pick b2 CONTEXT_MNT _ _ _ _ (mk_parsed (when b2 t2) (when b1 t1) None None)); [|done|done| |by intros ->].
  2: { intros ->. cbn. by rewrite Hmem. }
  rewrite (eval_parse_pick b3 DEFCONTEXT_MNT _ _ _ _ (mk_parsed (when b2 t2) (when b1 t1) None (when b3 t3))); [|done|done| |by intros ->].
  2: { intros E. rewrite E, andb_true_r in Hex. rewrite Hex, E. cbn. by rewrite Hmem. }
  rewrite (eval_parse_pick b4 ROOTCONTEXT_MNT _ _ _ _ (mk_parsed (when b2 t2) (when b1 t1) (when b4 t4) (when b3 t3)));
    [|done|done| |by intros ->].
  2: { intros ->. cbn. by rewrite Hmem. }
  rewrite eval_parse_label. cbn [mbind option_bind]. rewrite eval_bind. cbn. rewrite Hmem. cbn. rewrite Hmem. cbn.
  unfold parsed_opts, read_opts, opt_entry, pick, when. cbn [pa_fscontext pa_context pa_rootcontext pa_defcontext].
  by destruct b1, b2, b3, b4.
Qed.

End shown.

Definition quoted_pieces (b1 b2 b3 b4 b5 : bool) (t1 t2 t3 t4 : string) : list string :=
  pick b1 (FSCONTEXT_STR ++ quoted t1)%string ++ pick b2 (CONTEXT_STR ++ quoted t2)%string ++
  pick b3 (DEFCONTEXT_STR ++ quoted t3)%string ++ pick b4 (ROOTCONTEXT_STR ++ quoted t4)%string ++ pick b5 LABELSUPP_STR.

Lemma drop_pick b prefix t :
  (b = true -> quotable t) -> has_char QUOTE prefix = false ->
  drop_char QUOTE <$> pick b (prefix ++ quoted t)%string = pick b (prefix ++ t)%string.
Proof.
  intros Hq Hp. destruct b; [|done]. destruct (Hq eq_refl) as (_ & Ht & _). cbn. f_equal.
  by rewrite drop_char_app, drop_quoted, drop_char_none.
Qed.

Lemma shown_pieces_quoted b1 b2 b3 b4 b5 t1 t2 t3 t4 :
  shown_pieces (shown_opts b1 b2 b3 b4 b5 t1 t2 t3 t4) = Some (quoted_pieces b1 b2 b3 b4 b5 t1 t2 t3 t4).
Proof. by destruct b1, b2, b3, b4, b5. Qed.

Lemma option_prefix_selinux flag prefix t : option_prefix flag = Some prefix -> selinux_option (prefix ++ t) = true.
Proof.
  unfold option_prefix, selinux_option. intros H. repeat case_match; simplify_eq; rewrite prefix_app; rewrite ?orb_true_r; done.
Qed.

Lemma quoted_pieces_selinux b1 b2 b3 b4 b5 t1 t2 t3 t4 :
  Forall (fun p => selinux_option p = true) (quoted_pieces b1 b2 b3 b4 b5 t1 t2 t3 t4).
Proof.
  unfold quoted_pieces. repeat apply Forall_app_2.
  all: match goal with |- Forall _ (pick ?b _) => destruct b; cbn [pick]; [|constructor] end.
  all: apply Forall_cons; split; [|constructor].
  - by apply (option_prefix_selinux FSCONTEXT_MNT).
  - by apply (option_prefix_selinux CONTEXT_MNT).
  - by apply (option_prefix_selinux DEFCONTEXT_MNT).
  - by apply (option_prefix_selinux ROOTCONTEXT_MNT).
  - done.
Qed.

Lemma shown_opts_written b1 b2 b3 b4 b5 t1 t2 t3 t4 :
  exists text, selinux_write_opts (shown_opts b1 b2 b3 b4 b5 t1 t2 t3 t4) = Some text.
Proof. destruct b1, b2, b3, b4, b5; by eexists. Qed.

Lemma shown_opts_plain b1 b2 b3 b4 b5 t1 t2 t3 t4 :
  (b1 = true -> quotable t1) -> (b2 = true -> quotable t2) -> (b3 = true -> quotable t3) -> (b4 = true -> quotable t4) ->
  Forall opt_plain (shown_opts b1 b2 b3 b4 b5 t1 t2 t3 t4).
Proof.
  intros Q1 Q2 Q3 Q4. unfold shown_opts. repeat apply Forall_app_2.
  all: match goal with |- Forall _ (pick ?b _) => destruct b; cbn [pick]; [|constructor] end.
  all: apply Forall_cons; split; [|constructor]; try done.
  all: unfold opt_plain; cbn; match goal with H : true = true -> quotable ?t |- has_char _ ?t = _ => by destruct (H eq_refl) as (_ & ? & _) end.
Qed.

Lemma drop_quoted_pieces b1 b2 b3 b4 b5 t1 t2 t3 t4 :
  (b1 = true -> quotable t1) -> (b2 = true -> quotable t2) -> (b3 = true -> quotable t3) -> (b4 = true -> quotable t4) ->
  drop_char QUOTE <$> quoted_pieces b1 b2 b3 b4 b5 t1 t2 t3 t4 = plain_pieces b1 b2 b3 b4 b5 t1 t2 t3 t4.
Proof.
  intros Q1 Q2 Q3 Q4. unfold quoted_pieces, plain_pieces. rewrite !fmap_app, !drop_pick by done. by destruct b5.
Qed.

(** The context of a SID, and the SID of that context. *)
Record readable (ans : call -> answer) (sid : Z) (t : string) : Prop := mk_readable {
  rd_rc : an_rc (ans (SidToContext sid)) = 0;
  rd_text : an_text (ans (SidToContext sid)) = Some t;
  rd_back_rc : an_rc (ans (ContextToSid t)) = 0;
  rd_back : an_out (ans (ContextToSid t)) = Some sid;
  rd_quotable : quotable t
}.

Section remount.
Context (ans : call -> answer) (s : super).
Context (Hmem : nz (an_rc (ans Kalloc)) = true) (Hinit : nz (an_rc (ans (Global g_ss_initialized))) = true).
Context (Hsb : has_flags (s_sec s) SE_SBINITIALIZED = true).
Abbreviation flag f := (has_flags (s_sec s) f).
Context (t1 t2 t3 t4 : string).
Context (R1 : flag FSCONTEXT_MNT = true -> readable ans (sb_sid (s_sec s)) t1)
  (R2 : flag CONTEXT_MNT = true -> readable ans (sb_mntpoint_sid (s_sec s)) t2)
  (R3 : flag DEFCONTEXT_MNT = true -> readable ans (sb_def_sid (s_sec s)) t3)
  (R4 : flag ROOTCONTEXT_MNT = true -> readable ans (i_sid (s_root s)) t4).

Lemma get_opts_shown :
  eval ans (selinux_get_mnt_opts s) =
  Some (0, shown_opts (flag FSCONTEXT_MNT) (flag CONTEXT_MNT) (flag DEFCONTEXT_MNT) (flag ROOTCONTEXT_MNT) (flag SE_SBLABELSUPP)
             t1 t2 t3 t4).
Proof using All.
  unfold selinux_get_mnt_opts. rewrite Hsb. cbn [negb]. rewrite eval_bind. cbn. rewrite Hinit. cbn. rewrite Hmem. cbn. rewrite Hmem.
  cbn [negb eval]. unfold shown_opts, security_sid_to_context.
  destruct (flag FSCONTEXT_MNT); [destruct (R1 eq_refl) as [E1 E2 _ _ _]; cbn; rewrite E1, E2; cbn|].
  all: destruct (flag CONTEXT_MNT); [destruct (R2 eq_refl) as [F1 F2 _ _ _]; cbn; rewrite F1, F2; cbn|].
  all: destruct (flag DEFCONTEXT_MNT); [destruct (R3 eq_refl) as [G1 G2 _ _ _]; cbn; rewrite G1, G2; cbn|].
  all: destruct (flag ROOTCONTEXT_MNT); [destruct (R4 eq_refl) as [H1 H2 _ _ _]; cbn; rewrite H1, H2; cbn|].
  all: by destruct (flag SE_SBLABELSUPP).
Qed.

Lemma remount_pick b fl t sid m l :
  (b = true -> readable ans sid t) -> (b = true -> flag fl = true) ->
  option_slot (s_sec s) (s_root s) (mk_mnt_sids 0 0 0 0) fl sid = Some (sid, m) -> fl <> SE_SBLABELSUPP ->
  eval ans (remount_opts (s_sec s) (s_root s) (pick b (Some t, fl) ++ l)) = eval ans (remount_opts (s_sec s) (s_root s) l).
Proof using Hsb.
  intros Hr Hf Hslot Hfl. destruct b; [|done]. destruct (Hr eq_refl) as [_ _ E1 E2 _].
  cbn [pick app remount_opts]. rewrite (proj2 (Z.eqb_neq _ _) Hfl). cbn. rewrite E1, E2. cbn. rewrite Hslot.
  unfold bad_option. by rewrite Hsb, (Hf eq_refl), Z.eqb_refl.
Qed.

(** The labels of the superblock for all options, against the options read. *)
Lemma remount_read :
  eval ans (remount_opts (s_sec s) (s_root s)
              (read_opts (flag FSCONTEXT_MNT) (flag CONTEXT_MNT) (flag DEFCONTEXT_MNT) (flag ROOTCONTEXT_MNT) t1 t2 t3 t4)) = Some 0.
Proof using Hsb R1 R2 R3 R4.
  unfold read_opts.
  rewrite (remount_pick _ FSCONTEXT_MNT t1 (sb_sid (s_sec s)) (mk_mnt_sids (sb_sid (s_sec s)) 0 0 0)) by done.
  rewrite (remount_pick _ CONTEXT_MNT t2 (sb_mntpoint_sid (s_sec s)) (mk_mnt_sids 0 (sb_mntpoint_sid (s_sec s)) 0 0)) by done.
  rewrite (remount_pick _ ROOTCONTEXT_MNT t4 (i_sid (s_root s)) (mk_mnt_sids 0 0 (i_sid (s_root s)) 0)) by done.
  rewrite <- (app_nil_r (pick _ (Some t3, _))).
  by rewrite (remount_pick _ DEFCONTEXT_MNT t3 (sb_def_sid (s_sec s)) (mk_mnt_sids 0 0 0 (sb_def_sid (s_sec s)))).
Qed.

Lemma remount_shown base :
  s_binary s = false -> flag CONTEXT_MNT && flag DEFCONTEXT_MNT = false ->
  quote_after false base = false -> Forall (fun p => selinux_option p = false) (mount_pieces false EmptyString base) ->
  exists text, eval ans (selinux_sb_show_options s) = Some (0, text) /\
    eval ans (selinux_sb_remount (Some (base ++ text)%string) s) = Some (0, Some base).
Proof using All.
  intros Hbin Hex Hq Hb.
  assert (Q1 : flag FSCONTEXT_MNT = true -> quotable t1) by (intros E; apply (R1 E)).
  assert (Q2 : flag CONTEXT_MNT = true -> quotable t2) by (intros E; apply (R2 E)).
  assert (Q3 : flag DEFCONTEXT_MNT = true -> quotable t3) by (intros E; apply (R3 E)).
  assert (Q4 : flag ROOTCONTEXT_MNT = true -> quotable t4) by (intros E; apply (R4 E)).
  destruct (shown_opts_written (flag FSCONTEXT_MNT) (flag CONTEXT_MNT) (flag DEFCONTEXT_MNT) (flag ROOTCONTEXT_MNT)
              (flag SE_SBLABELSUPP) t1 t2 t3 t4) as [text Htext].
  exists text. split.
  - unfold selinux_sb_show_options. rewrite eval_bind, get_opts_shown. cbn [mbind option_bind]. cbn. by rewrite Htext.
  - unfold selinux_sb_remount. rewrite Hsb, Hbin. cbn [negb]. rewrite eval_bind. cbn [eval kernel_alloc ask_bool mbind option_bind].
    rewrite Hmem. cbn [negb]. rewrite eval_bind. unfold selinux_sb_copy_data. rewrite eval_bind. cbn [eval kernel_alloc ask_bool mbind option_bind].
    rewrite Hmem. cbn [negb].
    rewrite (copy_shown base _ _ _ Htext (shown_opts_plain _ _ _ _ _ _ _ _ _ Q1 Q2 Q3 Q4)
               (shown_pieces_quoted _ _ _ _ _ _ _ _ _) (quoted_pieces_selinux _ _ _ _ _ _ _ _ _) Hq Hb).
    rewrite drop_quoted_pieces by done. cbn [eval mbind option_bind]. change (nz 0) with false. cbv iota.
    rewrite eval_bind, parse_plain by done. cbn [mbind option_bind]. change (nz 0) with false. cbv iota.
    by rewrite eval_bind, remount_read.
Qed.

End remount.

(** ** Property: options *)

(** The label of the superblock an option stands for. *)
Definition mount_label (s : super) (flag : Z) : option Z :=
  fst <$> option_slot (s_sec s) (s_root s) (mk_mnt_sids 0 0 0 0) flag 0.

(** C18: mount options.  What [selinux_sb_show_options] shows for a file system
    (in /proc/mounts) is accepted as options of a remount, after any options
    of the file system itself, which are handed on unchanged: quoting and
    unquoting, taking the options apart and parsing them are inverse.  The
    security server has a policy, gives texts without quotes and bars for the
    labels and takes them back; memory is there, the data of the mount are
    text, and the quotes in the options of the file system are balanced. *)
Theorem mount_options_reusable ans s base :
  nz (an_rc (ans Kalloc)) = true -> nz (an_rc (ans (Global g_ss_initialized))) = true ->
  has_flags (s_sec s) SE_SBINITIALIZED = true -> s_binary s = false ->
  has_flags (s_sec s) CONTEXT_MNT && has_flags (s_sec s) DEFCONTEXT_MNT = false ->
  (forall flag sid, mount_label s flag = Some sid -> has_flags (s_sec s) flag = true -> exists t, readable ans sid t) ->
  quote_after false base = false -> Forall (fun p => selinux_option p = false) (mount_pieces false EmptyString base) ->
  exists text, eval ans (selinux_sb_show_options s) = Some (0, text) /\
    eval ans (selinux_sb_remount (Some (base ++ text)%string) s) = Some (0, Some base).
Proof.
  intros Hmem Hinit Hsb Hbin Hex Hlab Hq Hb.
  assert (forall flag sid, mount_label s flag = Some sid ->
    exists t, has_flags (s_sec s) flag = true -> readable ans sid t) as Ht.
  { intros flag sid E. destruct (has_flags (s_sec s) flag) eqn:Ef; [|by exists EmptyString].
    destruct (Hlab flag sid E Ef) as [t Hr]. by exists t. }
  destruct (Ht FSCONTEXT_MNT _ eq_refl) as [t1 R1], (Ht CONTEXT_MNT _ eq_refl) as [t2 R2],
    (Ht DEFCONTEXT_MNT _ eq_refl) as [t3 R3], (Ht ROOTCONTEXT_MNT _ eq_refl) as [t4 R4].
  by apply (remount_shown ans s Hmem Hinit Hsb t1 t2 t3 t4 R1 R2 R3 R4).
Qed.

Definition usr_answers (c : call) : answer :=
  match c with
  | SidToContext 40 => mk_answer 0 (Some 20) None (Some "system_u:object_r:usr_t:s0,c1"%string) None
  | ContextToSid _ => mk_answer 0 (Some 40) None None None
  | Kalloc | Global _ => rc_only 1
  | _ => rc_only 0
  end.

Definition usr_super : super :=
  mk_super (mk_superblock_security 40 5 40 SECURITY_FS_USE_MNTPOINT (CONTEXT_MNT .| SE_SBINITIALIZED)) S_IFDIR
    (mk_inode_security 1 40 SECCLASS_DIR true) (mk_doinit_args true None true) [] "ext3" false.

Lemma usr_readable : readable usr_answers 40 "system_u:object_r:usr_t:s0,c1".
Proof. split; [done|done|done|done|]. split; [discriminate|]. by vm_compute. Qed.

Lemma usr_label flag sid : mount_label usr_super flag = Some sid -> has_flags (s_sec usr_super) flag = true -> sid = 40.
Proof.
  unfold mount_label, option_slot. intros H Hf.
  destruct (Z.eqb_spec flag FSCONTEXT_MNT) as [->|_]; [discriminate Hf|].
  destruct (Z.eqb_spec flag CONTEXT_MNT) as [->|_]; [by injection H as <-|].
  destruct (Z.eqb_spec flag ROOTCONTEXT_MNT) as [->|_]; [discriminate Hf|].
  destruct (Z.eqb_spec flag DEFCONTEXT_MNT) as [->|_]; [discriminate Hf|discriminate H].
Qed.

Lemma usr_base : Forall (fun p => selinux_option p = false) (mount_pieces false EmptyString "ro,data=journal").
Proof.
  assert (mount_pieces false EmptyString "ro,data=journal" = ["ro"; "data=journal"]%string) as -> by by vm_compute.
  repeat (apply Forall_cons; split; [by vm_compute|]). constructor.
Qed.

Lemma mount_options_reusable_witness :
  exists text, eval usr_answers (selinux_sb_show_options usr_super) = Some (0, text) /\
    eval usr_answers (selinux_sb_remount (Some ("ro,data=journal" ++ text)%string) usr_super) = Some (0, Some "ro,data=journal"%string).
Proof.
  refine (mount_options_reusable usr_answers usr_super "ro,data=journal" eq_refl eq_refl eq_refl eq_refl eq_refl _ eq_refl usr_base).
  intros flag sid H Hf. rewrite (usr_label flag sid H Hf). eexists. exact usr_readable.
Defined.

(** ** Property: new files *)

(** The label both functions compute: the one the process asked for, if the
    file system stores labels, or the one of the policy. *)
Definition uses_policy (cur : task) (dir : inode) : bool :=
  (create_sid (t_cred cur) =? 0) || negb (nz (sb_flags (i_sb dir) .& SE_SBLABELSUPP)).
Definition policy_label (cur : task) (dir : inode) (tclass : Z) (name : string) : call :=
  TransitionSid (sid (t_cred cur)) (i_sid (i_security dir)) tclass (Some name).
Definition new_label (ans : call -> answer) (cur : task) (dir : inode) (tclass : Z) (name : string) : Z :=
  if uses_policy cur dir then default (create_sid (t_cred cur)) (an_out (ans (policy_label cur dir tclass name)))
  else create_sid (t_cred cur).

Lemma may_create_grants ans cur dir name tclass tr :
  runs (may_create cur dir name tclass) tr 0 -> answered_by ans tr ->
  (uses_policy cur dir = true -> an_rc (ans (policy_label cur dir tclass name)) = 0) /\
  granted tr (sid (t_cred cur)) (new_label ans cur dir tclass name) tclass FILE__CREATE /\
  granted tr (new_label ans cur dir tclass name) (sb_sid (i_sb dir)) SECCLASS_FILESYSTEM FILESYSTEM__ASSOCIATE.
Proof.
  unfold may_create, new_label, policy_label. cbv zeta. fold (uses_policy cur dir). intros H A.
  destruct (uses_policy cur dir) eqn:E; run_all; unfold answered_by in A; rewrite !Forall_cons in A; destruct_and!; cbn in *.
  - subst. split; [done|]. split; eauto with hooks.
  - split; [done|]. split; eauto with hooks.
Qed.

Lemma init_security_label ans cur i dir name want_name want_value tr rc isec value :
  runs (selinux_inode_init_security cur i dir name want_name want_value) tr (rc, isec, value) -> answered_by ans tr ->
  nz (sb_flags (i_sb dir) .& SE_SBINITIALIZED) = true -> sb_behavior (i_sb dir) <> SECURITY_FS_USE_MNTPOINT ->
  let tclass := inode_mode_to_security_class (i_mode i) in
  (uses_policy cur dir = true -> an_rc (ans (policy_label cur dir tclass name)) = 0) ->
  isec = mk_inode_security (i_task_sid (i_security i)) (new_label ans cur dir tclass name) tclass true.
Proof.
  unfold selinux_inode_init_security, new_label, policy_label. cbv zeta. fold (uses_policy cur dir). intros H A Hi Hb Hrc.
  rewrite Hi, (proj2 (Z.eqb_neq _ _) Hb) in H. cbn [andb] in H.
  destruct (uses_policy cur dir) eqn:E.
  - unfold security_transition_sid, ask_sid in H. apply runs_bind in H as (ta & tb & [rc0 newsid] & -> & Ha & H).
    apply runs_call in Ha as (an & ? & -> & [-> Ea]). injection Ea as -> ->. unfold answered_by in A. cbn in A. apply Forall_cons in A as [Ean A]. cbn in Ean. subst an.
    rewrite (Hrc eq_refl) in *. clear A. run_all; done.
  - clear A. run_all; done.
Qed.

(** The label was checked: the process may create objects with it in this class,
    and they may be in the file system of [dir]. *)
Definition label_checked (tr : trace) (cur : task) (dir : inode) (isec : inode_security) : Prop :=
  granted tr (sid (t_cred cur)) (i_sid isec) (i_sclass isec) FILE__CREATE /\
  granted tr (i_sid isec) (sb_sid (i_sb dir)) SECCLASS_FILESYSTEM FILESYSTEM__ASSOCIATE.

(** C11: the label of a new file in a file system whose labels are set up.  When
    creation was allowed and the policy is still the same, the new inode gets a
    label which the process was granted to create in this class and which was
    granted to be in the file system, unless the file system is labelled by its
    mount point. *)
Theorem new_file_label_checked ans cur i dir name want_name want_value tr1 rc isec value tr2 :
  runs (may_create cur dir name (inode_mode_to_security_class (i_mode i))) tr1 0 -> answered_by ans tr1 ->
  runs (selinux_inode_init_security cur i dir name want_name want_value) tr2 (rc, isec, value) -> answered_by ans tr2 ->
  nz (sb_flags (i_sb dir) .& SE_SBINITIALIZED) = true -> sb_behavior (i_sb dir) <> SECURITY_FS_USE_MNTPOINT ->
  i_initialized isec = true /\ i_sclass isec = inode_mode_to_security_class (i_mode i) /\ label_checked tr1 cur dir isec.
Proof.
  intros H1 A1 H2 A2 Hi Hb. destruct (may_create_grants ans cur dir name _ tr1 H1 A1) as (Hrc & Hc & Ha).
  rewrite (init_security_label ans cur i dir name want_name want_value tr2 rc isec value H2 A2 Hi Hb Hrc). done.
Qed.

(** ** Property: mounts *)

Lemma finish_keeps s tr rc s' others :
  runs (sb_finish_set_opts s) tr (rc, s', others) ->
  (exists flags, s_sec s' = set_sb_flags (s_sec s) flags) /\ (i_initialized (s_root s) = true -> i_sid (s_root s') = i_sid (s_root s)).
Proof.
  unfold sb_finish_set_opts. cbv zeta. intros H. apply runs_bind in H as (ta & tb & rc0 & -> & _ & H).
  destruct (nz rc0); [destruct H as [_ E]; injection E as -> -> ->; split; [exists (sb_flags (s_sec s)); by destruct (s_sec s)|done]|].
  destruct (sb_behavior (s_sec s) =? 0); [destruct H|].
  apply runs_bind in H as (tc & td & [[rc1 root] b] & -> & Hd & H).
  apply runs_bind in H as (te & tf & others1 & -> & _ & H). destruct H as [_ E]. injection E as -> -> ->. cbn.
  split; [by eexists|]. intros Hi. unfold inode_doinit_with_dentry in Hd. cbn in Hd. rewrite Hi in Hd. run_all.
  unfold doinit_class. by destruct (_ =? _).
Qed.

(** A label from an option, in place of [old], for a file system whose label is
    [fs]: the two permissions, and for an inode of it. *)
Definition fs_relabelled (tr : trace) (cred : task_security) (old new : Z) : Prop :=
  granted tr (sid cred) old SECCLASS_FILESYSTEM FILESYSTEM__RELABELFROM /\
  granted tr (sid cred) new SECCLASS_FILESYSTEM FILESYSTEM__RELABELTO.
Definition inode_relabelled (tr : trace) (cred : task_security) (fs new : Z) : Prop :=
  granted tr (sid cred) fs SECCLASS_FILESYSTEM FILESYSTEM__RELABELFROM /\
  granted tr new fs SECCLASS_FILESYSTEM FILESYSTEM__ASSOCIATE.

Lemma fs_relabelled_app_l t1 t2 c o n : fs_relabelled t1 c o n -> fs_relabelled (t1 ++ t2) c o n.
Proof. intros [? ?]; split; eauto with hooks. Qed.
Lemma fs_relabelled_app_r t1 t2 c o n : fs_relabelled t2 c o n -> fs_relabelled (t1 ++ t2) c o n.
Proof. intros [? ?]; split; eauto with hooks. Qed.
Lemma inode_relabelled_app_l t1 t2 c o n : inode_relabelled t1 c o n -> inode_relabelled (t1 ++ t2) c o n.
Proof. intros [? ?]; split; eauto with hooks. Qed.
Lemma inode_relabelled_app_r t1 t2 c o n : inode_relabelled t2 c o n -> inode_relabelled (t1 ++ t2) c o n.
Proof. intros [? ?]; split; eauto with hooks. Qed.
Lemma fs_relabelled_cons e t c o n : fs_relabelled t c o n -> fs_relabelled (e :: t) c o n.
Proof. apply (fs_relabelled_app_r [e]). Qed.
Lemma inode_relabelled_cons e t c o n : inode_relabelled t c o n -> inode_relabelled (e :: t) c o n.
Proof. apply (inode_relabelled_app_r [e]). Qed.
#[local] Hint Resolve fs_relabelled_cons inode_relabelled_cons : hooks.
#[local] Hint Resolve fs_relabelled_app_l fs_relabelled_app_r inode_relabelled_app_l inode_relabelled_app_r : hooks.

Lemma sb_relabel_granted new b cred tr :
  runs (may_context_mount_sb_relabel new b cred) tr 0 -> fs_relabelled tr cred (sb_sid b) new.
Proof. unfold may_context_mount_sb_relabel, fs_relabelled. intros H. run_all. split; eauto with hooks. Qed.

Lemma inode_relabel_granted new b cred tr :
  runs (may_context_mount_inode_relabel new b cred) tr 0 -> inode_relabelled tr cred (sb_sid b) new.
Proof. unfold may_context_mount_inode_relabel, inode_relabelled. intros H. run_all. split; eauto with hooks. Qed.

(** Each option, when it is applied with success. *)
Lemma apply_fscontext_spec cred m s tr s' :
  runs (apply_fscontext cred m s) tr (0, s') ->
  s_root s' = s_root s /\ s_sec s' = set_sb_sid (s_sec s) (if ms_fscontext m =? 0 then sb_sid (s_sec s) else ms_fscontext m) /\
  (ms_fscontext m <> 0 -> fs_relabelled tr cred (sb_sid (s_sec s)) (ms_fscontext m)).
Proof.
  unfold apply_fscontext. destruct (Z.eqb_spec (ms_fscontext m) 0) as [E|E]; intros H.
  - destruct H as [_ E']. injection E' as ->. split; [done|]. split; [by destruct (s_sec s)|done].
  - apply runs_bind in H as (ta & tb & rc & -> & Ha & H). destruct (nz rc) eqn:Er; [run_all|]. run_all. apply nz_false in Er as ->.
    apply sb_relabel_granted in Ha. split; [done|]. split; [done|]. intros _. eauto with hooks.
Qed.

Lemma apply_context_spec cred m s tr s' m' :
  runs (apply_context cred m s) tr (0, s', m') ->
  s_root s' = s_root s /\ ms_defcontext m' = ms_defcontext m /\
  ms_rootcontext m' = (if ms_context m =? 0 then ms_rootcontext m else if ms_rootcontext m =? 0 then ms_context m else ms_rootcontext m) /\
  sb_def_sid (s_sec s') = sb_def_sid (s_sec s) /\
  (ms_context m = 0 -> s_sec s' = s_sec s) /\
  (ms_context m <> 0 ->
     sb_mntpoint_sid (s_sec s') = ms_context m /\ sb_behavior (s_sec s') = SECURITY_FS_USE_MNTPOINT /\
     if ms_fscontext m =? 0 then sb_sid (s_sec s') = ms_context m /\ fs_relabelled tr cred (sb_sid (s_sec s)) (ms_context m)
     else sb_sid (s_sec s') = sb_sid (s_sec s) /\ inode_relabelled tr cred (sb_sid (s_sec s)) (ms_context m)).
Proof.
  unfold apply_context. destruct (Z.eqb_spec (ms_context m) 0) as [E|E]; intros H.
  - destruct H as [_ E']. injection E' as -> ->. done.
  - apply runs_bind in H as (ta & tb & [rc b] & -> & Ha & H). destruct (nz rc) eqn:Er; [run_all|]. apply nz_false in Er as ->.
    destruct H as [-> E']. injection E' as -> ->. rewrite app_nil_r. cbn.
    split; [done|]. split; [by destruct (ms_rootcontext m =? 0)|]. split; [by destruct (ms_rootcontext m =? 0)|].
    destruct (Z.eqb_spec (ms_fscontext m) 0) as [E1|E1]; apply runs_bind in Ha as (tc & td & rc & -> & Ha & H);
      destruct H as [-> E']; injection E' as <- ->; cbn; rewrite app_nil_r.
    + apply sb_relabel_granted in Ha. by repeat split; try done; destruct (ms_rootcontext m =? 0); try apply Ha.
    + apply inode_relabel_granted in Ha. by repeat split; try done; destruct (ms_rootcontext m =? 0); try apply Ha.
Qed.

Lemma apply_rootcontext_spec cred m s tr s' :
  runs (apply_rootcontext cred m s) tr (0, s') ->
  s_sec s' = s_sec s /\
  (ms_rootcontext m <> 0 -> i_sid (s_root s') = ms_rootcontext m /\ i_initialized (s_root s') = true /\
                            inode_relabelled tr cred (sb_sid (s_sec s)) (ms_rootcontext m)).
Proof.
  unfold apply_rootcontext. destruct (Z.eqb_spec (ms_rootcontext m) 0) as [E|E]; intros H.
  - destruct H as [_ E']. by injection E' as ->.
  - apply runs_bind in H as (ta & tb & rc & -> & Ha & H). destruct (nz rc) eqn:Er; [run_all|]. run_all. apply nz_false in Er as ->.
    apply inode_relabel_granted in Ha. split; [done|]. intros _. split; [done|]. split; [done|]. eauto with hooks.
Qed.

Lemma apply_defcontext_spec cred m s tr s' :
  runs (apply_defcontext cred m s) tr (0, s') ->
  s_root s' = s_root s /\ sb_sid (s_sec s') = sb_sid (s_sec s) /\ sb_mntpoint_sid (s_sec s') = sb_mntpoint_sid (s_sec s) /\
  sb_behavior (s_sec s') = sb_behavior (s_sec s) /\
  (ms_defcontext m <> 0 -> sb_def_sid (s_sec s') = ms_defcontext m /\ sb_behavior (s_sec s) = SECURITY_FS_USE_XATTR /\
     (sb_def_sid (s_sec s) = ms_defcontext m \/ inode_relabelled tr cred (sb_sid (s_sec s)) (ms_defcontext m))).
Proof.
  unfold apply_defcontext. cbv zeta. destruct (Z.eqb_spec (ms_defcontext m) 0) as [E|E]; intros H.
  - destruct H as [_ E']. by injection E' as ->.
  - destruct (Z.eqb_spec (sb_behavior (s_sec s)) SECURITY_FS_USE_XATTR) as [Ex|Ex]; [|run_all]. cbn [negb] in H.
    apply runs_bind in H as (ta & tb & rc & -> & Ha & H). destruct (nz rc) eqn:Er; [run_all|]. apply nz_false in Er as ->.
    destruct H as [-> E']. injection E' as ->. cbn. do 4 (split; [done|]). intros _. split; [done|]. split; [done|].
    destruct (Z.eqb_spec (ms_defcontext m) (sb_def_sid (s_sec s))) as [Ed|Ed]; [by left|right]. cbn in Ha.
    apply inode_relabel_granted in Ha. eauto with hooks.
Qed.

(** What a mount with options [m] of a file system with label [fs] gives. *)
Record labels_granted (tr : trace) (cred : task_security) (m : mnt_sids) (fs : Z) (s s' : super) : Prop := mk_labels_granted {
  lg_fs : ms_fscontext m <> 0 -> sb_sid (s_sec s') = ms_fscontext m /\ fs_relabelled tr cred fs (ms_fscontext m);
  lg_none : ms_fscontext m = 0 -> ms_context m = 0 -> sb_sid (s_sec s') = fs;
  lg_context : ms_context m <> 0 ->
    sb_mntpoint_sid (s_sec s') = ms_context m /\ sb_behavior (s_sec s') = SECURITY_FS_USE_MNTPOINT /\
    (ms_fscontext m = 0 -> sb_sid (s_sec s') = ms_context m /\ fs_relabelled tr cred fs (ms_context m)) /\
    (ms_fscontext m <> 0 -> inode_relabelled tr cred (ms_fscontext m) (ms_context m));
  lg_root : ms_rootcontext m <> 0 ->
    i_sid (s_root s') = ms_rootcontext m /\ inode_relabelled tr cred (sb_sid (s_sec s')) (ms_rootcontext m);
  lg_root_context : ms_rootcontext m = 0 -> ms_context m <> 0 ->
    i_sid (s_root s') = ms_context m /\ inode_relabelled tr cred (sb_sid (s_sec s')) (ms_context m);
  lg_def : ms_defcontext m <> 0 ->
    sb_def_sid (s_sec s') = ms_defcontext m /\
    (sb_def_sid (s_sec s) = ms_defcontext m \/ inode_relabelled tr cred (sb_sid (s_sec s')) (ms_defcontext m))
}.

Lemma labels_granted_app t1 t2 cred m fs s s' : labels_granted t2 cred m fs s s' -> labels_granted (t1 ++ t2) cred m fs s s'.
Proof.
  intros [G1 G2 G3 G4 G5 G6]. split; [|done|..].
  - intros H. destruct (G1 H). eauto with hooks.
  - intros H. destruct (G3 H) as (? & ? & Ha & Hb). split; [done|]. split; [done|].
    split; intros Hf; [destruct (Ha Hf)|specialize (Hb Hf)]; eauto with hooks.
  - intros H. destruct (G4 H). eauto with hooks.
  - intros H H'. destruct (G5 H H'). eauto with hooks.
  - intros H. destruct (G6 H) as [? [?|?]]; eauto with hooks.
Qed.

Lemma apply_mnt_opts_granted cred m s tr s' others :
  runs (apply_mnt_opts cred m s) tr (0, s', others) ->
  exists fstype an, (FsUse fstype, an) ∈ tr /\ labels_granted tr cred m (default (sb_sid (s_sec s)) (an_out2 an)) s s'.
Proof.
  unfold apply_mnt_opts, security_fs_use. cbv zeta. intros H.
  apply runs_bind in H as (ta & tb & [rc b] & -> & Ha & H). apply runs_call in Ha as (an & tc & -> & [-> E]). injection E as -> ->.
  destruct (nz (an_rc an)) eqn:Er; [run_all|].
  set (s0 := set_s_sec s _) in H.
  apply runs_bind in H as (t1 & t2 & [rc1 s1] & -> & H1 & H). destruct (nz rc1) eqn:Er1; [run_all|]. apply nz_false in Er1 as ->.
  apply runs_bind in H as (t3 & t4 & [[rc2 s2] m2] & -> & H2 & H). destruct (nz rc2) eqn:Er2; [run_all|]. apply nz_false in Er2 as ->.
  apply runs_bind in H as (t5 & t6 & [rc3 s3] & -> & H3 & H). destruct (nz rc3) eqn:Er3; [run_all|]. apply nz_false in Er3 as ->.
  apply runs_bind in H as (t7 & t8 & [rc4 s4] & -> & H4 & H). destruct (nz rc4) eqn:Er4; [run_all|]. apply nz_false in Er4 as ->.
  apply finish_keeps in H as [[fl Hsec] Hroot].
  apply apply_fscontext_spec in H1 as (R1 & S1 & F1). apply apply_context_spec in H2 as (R2 & D2 & M2 & Def2 & N2 & C2).
  apply apply_rootcontext_spec in H3 as (S3 & C3). apply apply_defcontext_spec in H4 as (R4 & B4 & P4 & Be4 & C4).
  assert (sb_sid (s_sec s0) = default (sb_sid (s_sec s)) (an_out2 an)) as E0 by (cbn; by destruct (bool_decide _)).
  assert (sb_def_sid (s_sec s0) = sb_def_sid (s_sec s)) as Ed0 by (cbn; by destruct (bool_decide _)).
  assert (sb_sid (s_sec s') = sb_sid (s_sec s2)) as Es by (rewrite Hsec; cbn; by rewrite B4, S3).
  assert (forall x, ms_rootcontext m2 = x -> x <> 0 -> i_sid (s_root s') = x /\ inode_relabelled t5 cred (sb_sid (s_sec s')) x) as Hr.
  { intros x <- Hx. destruct (C3 Hx) as (Ei & Ein & Hg). rewrite <- R4 in Ei, Ein. split; [by rewrite Hroot|]. by rewrite Es. }
  eexists _, an. split; [by left|]. rewrite <- E0. clearbody s0. split.
  - intros Hf. specialize (F1 Hf). apply Z.eqb_neq in Hf. split; [|eauto 8 with hooks].
    rewrite Es. destruct (decide (ms_context m = 0)) as [Ec|Ec]; [rewrite (N2 Ec)|destruct (C2 Ec) as (_ & _ & Hc); rewrite Hf in Hc; rewrite (proj1 Hc)];
      by rewrite S1, Hf.
  - intros Hf Ec. rewrite Es, (N2 Ec), S1, Hf. done.
  - intros Ec. destruct (C2 Ec) as (Hm & Hbe & Hc). rewrite Hsec. cbn. rewrite P4, S3, Be4, S3. split; [done|]. split; [done|].
    rewrite S1 in Hc. cbn [sb_sid set_sb_sid] in Hc. rewrite B4, S3. split; intros Hf.
    + rewrite Hf in Hc. change (0 =? 0) with true in Hc. cbv iota in Hc. destruct Hc as [Hc1 Hc2]. split; [done|]. eauto 8 with hooks.
    + apply Z.eqb_neq in Hf. rewrite Hf in Hc. destruct Hc as [_ Hc2]. eauto 8 with hooks.
  - intros Hx. apply Z.eqb_neq in Hx as Hx'. rewrite Hx' in M2.
    destruct (Hr (ms_rootcontext m)) as [? ?]; [rewrite M2; by destruct (ms_context m =? 0)|done|]. split; [done|]. eauto 8 with hooks.
  - intros Hx Ec. apply Z.eqb_neq in Ec as Ec'. rewrite Hx, Ec' in M2. destruct (Hr (ms_context m)) as [? ?]; [done|done|].
    split; [done|]. eauto 8 with hooks.
  - intros Hd. rewrite <- D2 in Hd. destruct (C4 Hd) as (Ed & _ & Hc). rewrite D2 in Ed, Hc. rewrite S3 in Hc.
    split; [by rewrite Hsec|]. rewrite Def2, S1 in Hc. cbn in Hc. change (sb_def_sid _) with (sb_def_sid (s_sec s0)) in Hc.
    rewrite Ed0 in Hc. rewrite Es. destruct Hc as [Hc|Hc]; [by left|right]. eauto 9 with hooks.
Qed.

(** The slot of an option. *)
Definition slot_of (m : mnt_sids) (flag : Z) : Z :=
  if flag =? FSCONTEXT_MNT then ms_fscontext m else if flag =? CONTEXT_MNT then ms_context m
  else if flag =? ROOTCONTEXT_MNT then ms_rootcontext m else if flag =? DEFCONTEXT_MNT then ms_defcontext m else 0.

(** The text given for an option, the last one if there are several. *)
Fixpoint given_text (opts : mnt_opts) (flag : Z) : option string :=
  match opts with
  | [] => None
  | (text, f) :: opts' =>
      match given_text opts' flag with
      | Some t => Some t
      | None => if (f =? flag) && negb (f =? SE_SBLABELSUPP) then text else None
      end
  end.

(** An option that is given has the SID that the security server answered for
    its text, one that is not given keeps its slot. *)
Definition sids_from (tr : trace) (opts : mnt_opts) (m m0 : mnt_sids) : Prop :=
  forall flag, match given_text opts flag with
  | Some text => exists an, (ContextToSid text, an) ∈ tr /\ an_rc an = 0 /\ slot_of m flag = default 0 (an_out an)
  | None => slot_of m flag = slot_of m0 flag
  end.

Lemma option_slot_of b root m flag sid old m' f :
  option_slot b root m flag sid = Some (old, m') -> slot_of m' f = if f =? flag then sid else slot_of m f.
Proof.
  unfold option_slot. intros H.
  repeat match type of H with
  | (if flag =? ?x then _ else _) = _ => destruct (Z.eqb_spec flag x) as [->|?]; [injection H as <- <-|]
  end; [..|discriminate H]; unfold slot_of; cbn.
  all: unfold FSCONTEXT_MNT, CONTEXT_MNT, ROOTCONTEXT_MNT, DEFCONTEXT_MNT in *.
  all: repeat match goal with |- context [?g =? ?x] => destruct (Z.eqb_spec g x); cbn [slot_of ms_fscontext ms_context ms_rootcontext ms_defcontext] end;
    try done; lia.
Qed.

Lemma parse_mnt_opts_spec root opts b m tr b' m' :
  runs (parse_mnt_opts root opts b m) tr (0, b', m') ->
  (exists fl, b' = set_sb_flags b fl /\ (has_flags b SE_SBINITIALIZED = false -> has_flags b' SE_SBINITIALIZED = false)) /\
  sids_from tr opts m' m.
Proof.
  revert b m tr. induction opts as [|[text flag] opts IH]; intros b m tr H; cbn [parse_mnt_opts] in H.
  - destruct H as [-> E]. injection E as -> ->. split; [exists (sb_flags b); by destruct b|]. done.
  - destruct (flag =? SE_SBLABELSUPP) eqn:Efl.
    { apply IH in H as [Hb Hs]. split; [done|]. intros f. specialize (Hs f). cbn [given_text]. rewrite Efl, andb_false_r. by destruct (given_text opts f). }
    destruct text as [text|]; [|by run_step H]. cbn [of_option] in H.
    change (Ret text ≫= ?f) with (f text) in H. cbv beta in H. unfold security_context_to_sid, ask_sid in H.
    apply runs_bind in H as (ta & tb & [rc sid] & -> & Ha & H). apply runs_call in Ha as (an & ? & -> & [-> E]). injection E as -> ->.
    destruct (nz (an_rc an)) eqn:Er; [run_all|]. apply nz_false in Er.
    destruct (option_slot b root m flag (default 0 (an_out an))) as [[old m1]|] eqn:Es; [|run_all].
    destruct (bad_option b flag old (default 0 (an_out an))); [run_all|].
    apply IH in H as [(fl & -> & Hi) Hs]. split.
    + exists fl. split; [done|]. intros Hb. apply Hi. revert Hb. unfold has_flags. cbn.
      unfold option_slot in Es.
      repeat match type of Es with (if flag =? ?x then _ else _) = _ => destruct (Z.eqb_spec flag x) as [->|?]; [clear Es|] end;
        [..|discriminate Es]; rewrite Z.land_lor_distr_l; by rewrite Z.lor_0_r.
    + intros f. pose proof (option_slot_of _ _ _ _ _ _ _ f Es) as Hf.
      specialize (Hs f). cbn [given_text]. rewrite Efl, andb_true_r. destruct (given_text opts f) as [t|].
      { destruct Hs as (an' & Hc & H). exists an'. split; [by right|done]. }
      rewrite Hs, Hf. destruct (Z.eqb_spec f flag) as [->|Hne]; [rewrite Z.eqb_refl|by rewrite (proj2 (Z.eqb_neq _ _))].
      exists an. split; [by left|done].
Qed.


(** ** Examples *)

Definition home_dir (behavior mntpoint : Z) : inode :=
  mk_inode S_IFDIR false (mk_inode_security 1 35 SECCLASS_DIR true)
    (mk_superblock_security 4 5 mntpoint behavior (SE_SBINITIALIZED .| SE_SBLABELSUPP)).
Definition fresh_inode : inode := mk_inode S_IFREG false (mk_inode_security 30 3 SECCLASS_FILE false) (i_sb (home_dir 1 3)).
Definition user_task : task := mk_task (mk_task_security 30 30 0 0 0 0) (mk_task_security 30 30 0 0 0 0).

(** Everything is granted, and new objects get SID 50. *)
Definition grant_answers (c : call) : answer :=
  match c with
  | TransitionSid _ _ _ _ => mk_answer 0 (Some 50) None None None
  | ContextToSid _ => mk_answer 0 (Some 60) None None None
  | FsUse _ => mk_answer 0 (Some SECURITY_FS_USE_XATTR) (Some 4) None None
  | Kalloc | Global _ => rc_only 1
  | _ => rc_only 0
  end.

Definition trace_of {A} (p : hook A) : trace := match with_answers grant_answers p with Some (_, tr) => tr | None => [] end.

Lemma new_file_label_checked_witness :
  let tr := trace_of (may_create user_task (home_dir 1 3) "f" SECCLASS_FILE) in
  granted tr 30 50 SECCLASS_FILE FILE__CREATE /\ granted tr 50 4 SECCLASS_FILESYSTEM FILESYSTEM__ASSOCIATE.
Proof.
  intros tr.
  pose (p2 := selinux_inode_init_security user_task fresh_inode (home_dir 1 3) "f" true true).
  destruct (new_file_label_checked grant_answers user_task fresh_inode (home_dir 1 3) "f" true true tr 0
              (mk_inode_security 30 50 SECCLASS_FILE true) None (trace_of p2)) as (_ & _ & Hc & Ha).
  - by apply (with_answers_runs grant_answers).
  - by apply (with_answers_by grant_answers (may_create user_task (home_dir 1 3) "f" SECCLASS_FILE) 0).
  - by apply (with_answers_runs grant_answers).
  - by apply (with_answers_by grant_answers p2 (0, mk_inode_security 30 50 SECCLASS_FILE true, None)).
  - reflexivity.
  - discriminate.
  - split; [exact Hc|exact Ha].
Defined.

(** On a file system that is labelled by its mount point (SID 40), creation is
    checked for SID 50 and the file gets SID 40. *)
Example mountpoint_label_unchecked :
  let dir := home_dir SECURITY_FS_USE_MNTPOINT 40 in
  (eval grant_answers (selinux_inode_init_security user_task fresh_inode dir "f" true true) =
     Some (0, mk_inode_security 30 40 SECCLASS_FILE true, None)) /\
  Forall (fun e => match e.1 with HasPerm s t _ _ _ _ => s <> 40 /\ t <> 40 | _ => True end)
    (trace_of (may_create user_task dir "f" SECCLASS_FILE)).
Proof. split; [reflexivity|]. vm_compute. repeat constructor; discriminate. Qed.

(** A new ext3 mounted with [context=]. *)
Definition new_super (root : Z) : super :=
  mk_super (mk_superblock_security 3 5 3 0 0) S_IFDIR (mk_inode_security 1 root SECCLASS_FILE false)
    (mk_doinit_args true (Some (inr "/"%string)) true) [] "ext3" false.


(** [rootcontext=] is lost in a clone: the label is written to the root of the
    new superblock without marking it initialized, and the initialization that
    follows replaces it by the one stored in the file system. *)
Example cloned_root_label_lost :
  let old := mk_super (mk_superblock_security 4 5 3 SECURITY_FS_USE_XATTR (ROOTCONTEXT_MNT .| SE_SBINITIALIZED .| SE_SBLABELSUPP))
               S_IFDIR (mk_inode_security 1 70 SECCLASS_DIR true) (s_root_args (new_super 3)) [] "ext3" false in
  (fun r => i_sid (s_root r.1)) <$> eval
     (fun c => match c with ContextToSidDefault _ _ => mk_answer 0 (Some 35) None None None | _ => grant_answers c end)
     (selinux_sb_clone_mnt_opts old (new_super 3)) = Some 35.
Proof. vm_compute. reflexivity. Qed.

(** The files of a process in /proc are labelled as if the number of the
    process were not in the path. *)
Fixpoint digits (s : string) : bool := match s with EmptyString => true | String c s' => is_digit c && digits s' end.

Lemma strip_pid_digits pid c rest :
  pid <> EmptyString -> digits pid = true -> is_digit c = false ->
  strip_pid "/" (pid ++ String c rest) = String "/" (String c rest).
Proof.
  intros Hne. destruct pid as [|d pid]; [done|]. cbn. intros [Hd Hp]%andb_true_iff Hc. rewrite Hd. clear Hne Hd.
  revert Hp. induction pid as [|e pid IH]; cbn; [by rewrite Hc|]. intros [He Hp]%andb_true_iff. rewrite He. by apply IH.
Qed.
