(* ===== verification/HookXfrm.v ===== *)
(** Labels of IPsec associations and policies (xfrm.c): who may label them,
    which flows they match, and the label that a packet has got from the
    associations it came through. *)

From S2P Require Import Prelude Sidtab Classmap Avc NetLabel Flask HookBase HookTask.
From Stdlib Require Import String.
From stdpp Require Import strings.
Open Scope Z_scope.

(** ** Contexts *)

Definition XFRM_SC_DOI_LSM : Z := 1.
Definition XFRM_SC_ALG_SELINUX : Z := 1.
Definition PAGE_SIZE : Z := 4096.
Definition ESRCH : Z := 3.

(** [struct xfrm_sec_ctx] *)
Record xfrm_sec_ctx := mk_xfrm_sec_ctx {
  ctx_doi : Z;
  ctx_alg : Z;
  ctx_len : Z;
  ctx_sid : Z;
  ctx_str : string
}.

(** [struct xfrm_user_sec_ctx] and the text behind it. *)
Record xfrm_user_sec_ctx := mk_xfrm_user_sec_ctx {
  uctx_doi : Z;
  uctx_alg : Z;
  uctx_str : string
}.

Definition selinux_authorizable_ctx (ctx : option xfrm_sec_ctx) : bool :=
  match ctx with
  | Some c => (ctx_doi c =? XFRM_SC_DOI_LSM) && (ctx_alg c =? XFRM_SC_ALG_SELINUX)
  | None => false
  end.

(** An association is its [security] field. *)
Record xfrm_state := mk_xfrm_state { x_security : option xfrm_sec_ctx }.

Definition selinux_authorizable_xfrm (x : xfrm_state) : bool := selinux_authorizable_ctx (x_security x).

(** ** Flows *)

Definition selinux_xfrm_policy_lookup (ctx : option xfrm_sec_ctx) (fl_secid : Z) : hook Z :=
  match ctx with
  | None => Ret 0
  | Some c =>
      if negb (selinux_authorizable_ctx ctx) then Ret (- EINVAL)
      else
        rc ← avc_has_perm fl_secid (ctx_sid c) SECCLASS_ASSOCIATION ASSOCIATION__POLMATCH None;
        if rc =? - EACCES then Ret (- ESRCH) else Ret rc
  end.

(** [xp]: the label of the policy. *)
Definition selinux_xfrm_state_pol_flow_match (x : xfrm_state) (xp : option xfrm_sec_ctx) (flowi_secid : Z) : hook Z :=
  match xp, x_security x with
  | None, Some _ => Ret 0
  | None, None => Ret 1
  | Some _, None => Ret 0
  | Some _, Some c =>
      if negb (selinux_authorizable_xfrm x) then Ret 0
      else if negb (flowi_secid =? ctx_sid c) then Ret 0
      else
        rc ← avc_has_perm flowi_secid (ctx_sid c) SECCLASS_ASSOCIATION ASSOCIATION__SENDTO None;
        Ret (if nz rc then 0 else 1)
  end.

(** ** Packets *)

(** The loop over [xvec], last association first. *)
Fixpoint decode_states (xs : list xfrm_state) (ckall : bool) (sid : Z) (sid_set : bool) : Z * Z :=
  match xs with
  | [] => (0, sid)
  | x :: xs' =>
      match x_security x with
      | Some c =>
          if selinux_authorizable_xfrm x then
            if negb sid_set then (if negb ckall then (0, ctx_sid c) else decode_states xs' ckall (ctx_sid c) true)
            else if negb (sid =? ctx_sid c) then (- EINVAL, sid)
            else decode_states xs' ckall sid sid_set
          else decode_states xs' ckall sid sid_set
      | None => decode_states xs' ckall sid sid_set
      end
  end.

(** [sp]: the associations a packet came through, first one first. *)
Definition selinux_xfrm_decode_session (sp : option (list xfrm_state)) (ckall : bool) : Z * Z :=
  match sp with
  | None => (0, SECSID_NULL)
  | Some xvec => decode_states (reverse xvec) ckall SECSID_NULL false
  end.

(** include/xfrm.h; [BUG_ON] *)
Definition selinux_skb_xfrm_sid (sp : option (list xfrm_state)) : hook Z :=
  let '(err, sid) := selinux_xfrm_decode_session sp false in
  if nz err then Bug else Ret sid.

Definition selinux_xfrm_enabled : hook bool := Call (Global g_xfrm_refcount) (fun an => Ret (0 <? an_rc an)).

Fixpoint first_label (xs : list xfrm_state) : Z :=
  match xs with
  | [] => SECINITSID_UNLABELED
  | x :: xs' =>
      match x_security x with
      | Some c => if selinux_authorizable_xfrm x then ctx_sid c else first_label xs'
      | None => first_label xs'
      end
  end.

Definition selinux_xfrm_sock_rcv_skb (isec_sid : Z) (sp : option (list xfrm_state)) : hook Z :=
  avc_has_perm isec_sid (first_label (default [] sp)) SECCLASS_ASSOCIATION ASSOCIATION__RECVFROM ad_other.

Definition IPPROTO_ESP : Z := 50.
Definition IPPROTO_AH : Z := 51.
Definition IPPROTO_COMP : Z := 108.

(** [dst]: the associations along the route ([dst->xfrm], [dst->child->xfrm], ...). *)
Definition selinux_xfrm_postroute_last (isec_sid : Z) (dst : list (option xfrm_state)) (proto : Z) : hook Z :=
  if existsb (fun x => match x with Some x => selinux_authorizable_xfrm x | None => false end) dst then Ret 0
  else if (proto =? IPPROTO_AH) || (proto =? IPPROTO_ESP) || (proto =? IPPROTO_COMP) then Ret 0
  else avc_has_perm isec_sid SECINITSID_UNLABELED SECCLASS_ASSOCIATION ASSOCIATION__SENDTO ad_other.

(** ** Labels of policies and associations *)

(** Result: the return value and [*ctxp]. *)
Definition selinux_xfrm_sec_ctx_alloc (cur : task) (uctx : option xfrm_user_sec_ctx) (sid : Z) : hook (Z * option xfrm_sec_ctx) :=
  match uctx with
  | Some u =>
      if nz sid then Bug
      else if negb (uctx_alg u =? XFRM_SC_ALG_SELINUX) then Ret (- EINVAL, None)
      else
        let str_len := Z.of_nat (String.length (uctx_str u)) in
        if PAGE_SIZE <=? str_len then Ret (- ENOMEM, None)
        else
          ok ← kernel_alloc;
          if negb ok then Ret (- ENOMEM, None)
          else
            '(rc, ctx_sid) ← security_context_to_sid (uctx_str u) 0;
            if nz rc then Ret (rc, None)
            else
              rc ← avc_has_perm (HookBase.sid (t_cred cur)) ctx_sid SECCLASS_ASSOCIATION ASSOCIATION__SETCONTEXT None;
              if nz rc then Ret (rc, None)
              else Ret (0, Some (mk_xfrm_sec_ctx (uctx_doi u) (uctx_alg u) str_len ctx_sid (uctx_str u)))
  | None =>
      '(rc, ctx_str, str_len) ← security_sid_to_context sid;
      if nz rc then Ret (rc, None)
      else
        ok ← kernel_alloc;
        if negb ok then Ret (- ENOMEM, None)
        else Ret (0, Some (mk_xfrm_sec_ctx XFRM_SC_DOI_LSM XFRM_SC_ALG_SELINUX str_len sid (default EmptyString ctx_str)))
  end.

(** The last number is [selinux_xfrm_refcount]; it counts allocated contexts. *)
Definition selinux_xfrm_policy_alloc (cur : task) (uctx : option xfrm_user_sec_ctx) (refcount : Z) : hook (Z * option xfrm_sec_ctx * Z) :=
  match uctx with
  | None => Bug
  | Some _ =>
      '(err, ctx) ← selinux_xfrm_sec_ctx_alloc cur uctx 0;
      Ret (err, ctx, if err =? 0 then refcount + 1 else refcount)
  end.

Definition selinux_xfrm_policy_clone (old_ctx : option xfrm_sec_ctx) : hook (Z * option xfrm_sec_ctx) :=
  match old_ctx with
  | None => Ret (0, None)
  | Some c => ok ← kernel_alloc; if negb ok then Ret (- ENOMEM, None) else Ret (0, Some c)
  end.

(** [selinux_xfrm_policy_delete] and [selinux_xfrm_state_delete] *)
Definition selinux_xfrm_delete (cur : task) (ctx : option xfrm_sec_ctx) (refcount : Z) : hook (Z * Z) :=
  match ctx with
  | None => Ret (0, refcount)
  | Some c =>
      rc ← avc_has_perm (sid (t_cred cur)) (ctx_sid c) SECCLASS_ASSOCIATION ASSOCIATION__SETCONTEXT None;
      Ret (rc, if rc =? 0 then refcount - 1 else refcount)
  end.

Definition selinux_xfrm_state_alloc (cur : task) (uctx : option xfrm_user_sec_ctx) (secid refcount : Z)
    : hook (Z * xfrm_state * Z) :=
  '(err, ctx) ← selinux_xfrm_sec_ctx_alloc cur uctx secid;
  Ret (err, mk_xfrm_state ctx, if err =? 0 then refcount + 1 else refcount).

(** ** Properties *)

(** The label of an association, if SELinux gave it one. *)
Definition label_of (x : xfrm_state) : option Z :=
  if selinux_authorizable_xfrm x then ctx_sid <$> x_security x else None.
Definition labels (xs : list xfrm_state) : list Z := omap label_of xs.

Lemma label_of_inv x s : label_of x = Some s -> exists c, x_security x = Some c /\ selinux_authorizable_xfrm x = true /\ s = ctx_sid c.
Proof.
  unfold label_of, selinux_authorizable_xfrm. destruct (x_security x) as [c|]; cbn; [|done].
  destruct (_ && _) eqn:E; [|done]. intros [= <-]. by exists c.
Qed.

Lemma decode_states_cons x xs ckall sid set :
  decode_states (x :: xs) ckall sid set =
    match label_of x with
    | None => decode_states xs ckall sid set
    | Some s =>
        if negb set then (if negb ckall then (0, s) else decode_states xs ckall s true)
        else if negb (sid =? s) then (- EINVAL, sid) else decode_states xs ckall sid set
    end.
Proof.
  cbn. unfold label_of. destruct (x_security x) as [c|] eqn:E; cbn.
  - by destruct (selinux_authorizable_xfrm x).
  - unfold selinux_authorizable_xfrm. by rewrite E.
Qed.

Lemma labels_cons x xs : labels (x :: xs) = match label_of x with Some s => s :: labels xs | None => labels xs end.
Proof. done. Qed.

(** The first label counts, if not all are to be compared. *)
Lemma decode_first xs : decode_states xs false SECSID_NULL false = (0, default SECSID_NULL (head (labels xs))).
Proof.
  induction xs as [|x xs IH]; [done|]. rewrite decode_states_cons, labels_cons. by destruct (label_of x).
Qed.

Lemma decode_compare xs sid :
  decode_states xs true sid true = (0, sid) /\ Forall (eq sid) (labels xs) \/
  decode_states xs true sid true = (- EINVAL, sid) /\ exists s, s ∈ labels xs /\ s <> sid.
Proof.
  induction xs as [|x xs IH]; [by left|]. rewrite decode_states_cons, labels_cons.
  destruct (label_of x) as [s|]; [|exact IH]. cbn. destruct (Z.eqb_spec sid s) as [<-|Hne]; cbn.
  - destruct IH as [[-> H]|[-> (s & Hin & Hne)]]; [left; split; [done|by constructor]|right]. split; [done|]. exists s. split; [by right|done].
  - right. split; [done|]. exists s. split; [left|congruence].
Qed.

Lemma decode_all xs :
  decode_states xs true SECSID_NULL false = (0, default SECSID_NULL (head (labels xs))) /\
    Forall (eq (default SECSID_NULL (head (labels xs)))) (labels xs) \/
  (decode_states xs true SECSID_NULL false).1 = - EINVAL /\ exists a b, a ∈ labels xs /\ b ∈ labels xs /\ a <> b.
Proof.
  induction xs as [|x xs IH]; [by left|]. rewrite decode_states_cons, labels_cons.
  destruct (label_of x) as [s|]; [|exact IH]. cbn.
  destruct (decode_compare xs s) as [[-> H]|[-> (b & Hin & Hne)]]; [left; split; [done|by constructor]|right].
  split; [done|]. exists s, b. split; [left|split; [by right|congruence]].
Qed.

(** Reading the label of a packet never fails when the associations are not
    compared, as [selinux_skb_xfrm_sid] relies on: the label is the one of the
    last association that has one.  If they are compared, the result is this
    label too, and an error exactly if two labels differ. *)
Theorem xfrm_session_label xs :
  let last_label := default SECSID_NULL (last (labels xs)) in
  selinux_xfrm_decode_session (Some xs) false = (0, last_label) /\
  ((selinux_xfrm_decode_session (Some xs) true = (0, last_label) /\ Forall (eq last_label) (labels xs)) \/
   ((selinux_xfrm_decode_session (Some xs) true).1 = - EINVAL /\ exists a b, a ∈ labels xs /\ b ∈ labels xs /\ a <> b)).
Proof.
  assert (labels (reverse xs) = reverse (labels xs)) as Er.
  { unfold labels. induction xs as [|x xs IH]; [done|]. rewrite reverse_cons, omap_app, IH. cbn [omap list_omap].
    destruct (label_of x); [by rewrite reverse_cons|by rewrite app_nil_r]. }
  assert (default SECSID_NULL (head (labels (reverse xs))) = default SECSID_NULL (last (labels xs))) as Eh
    by by rewrite Er, head_reverse.
  cbv zeta. unfold selinux_xfrm_decode_session. rewrite decode_first, Eh. split; [done|].
  destruct (decode_all (reverse xs)) as [[H1 H2]|(H1 & a & b & Ha & Hb & Hne)].
  - left. rewrite H1, Eh. split; [done|]. by rewrite Eh, Er, Forall_reverse in H2.
  - right. split; [done|]. exists a, b. by rewrite Er, elem_of_reverse in Ha, Hb.
Qed.

Lemma skb_xfrm_sid_runs sp tr s : runs (selinux_skb_xfrm_sid sp) tr s -> tr = [] /\ s = default SECSID_NULL (last (labels (default [] sp))).
Proof.
  unfold selinux_skb_xfrm_sid. destruct sp as [xs|]; cbn [default].
  - destruct (xfrm_session_label xs) as [-> _]. cbn. intros [-> ->]. done.
  - cbn. intros [-> ->]. done.
Qed.

(** A flow that matches a labelled policy is sent through an association with
    its own label only, and both uses were granted. *)
Theorem labelled_flow_granted x xp fl tr1 tr2 :
  runs (selinux_xfrm_policy_lookup (Some xp) fl) tr1 0 -> runs (selinux_xfrm_state_pol_flow_match x (Some xp) fl) tr2 1 ->
  granted tr1 fl (ctx_sid xp) SECCLASS_ASSOCIATION ASSOCIATION__POLMATCH /\
  label_of x = Some fl /\ granted tr2 fl fl SECCLASS_ASSOCIATION ASSOCIATION__SENDTO.
Proof.
  unfold selinux_xfrm_policy_lookup, selinux_xfrm_state_pol_flow_match. intros H1 H2.
  assert (granted tr1 fl (ctx_sid xp) SECCLASS_ASSOCIATION ASSOCIATION__POLMATCH) as Hp.
  { clear H2. run_all. eauto with hooks. }
  split; [done|]. clear H1 Hp. destruct (x_security x) as [c|] eqn:E; [|run_all].
  destruct (selinux_authorizable_xfrm x) eqn:Ea; cbn in H2; [|run_all].
  destruct (Z.eqb_spec fl (ctx_sid c)) as [->|]; cbn in H2; [|run_all].
  run_all. match goal with H : 1 = if nz ?r then _ else _ |- _ => destruct (nz r) eqn:En; [done|apply nz_false in En] end.
  split; [|eauto with hooks]. unfold label_of. by rewrite Ea, E.
Qed.

(** ** Examples *)

Definition ipsec_task : task := mk_task (mk_task_security 30 30 0 0 0 0) (mk_task_security 30 30 0 0 0 0).
Definition ipsec_answers (c : call) : answer :=
  match c with
  | ContextToSid _ => mk_answer 0 (Some 60) None None None
  | Kalloc => rc_only 1
  | _ => rc_only 0
  end.
Definition run_ipsec {A} (p : hook A) : option A := eval ipsec_answers p.

(** A labelled policy is cloned and the clone is deleted: the counter says that
    there are no labels in use, although the first one still has its label. *)
Example cloned_label_not_counted :
  (r ← run_ipsec (selinux_xfrm_policy_alloc ipsec_task (Some (mk_xfrm_user_sec_ctx XFRM_SC_DOI_LSM XFRM_SC_ALG_SELINUX "a_t")) 0);
   c ← run_ipsec (selinux_xfrm_policy_clone r.1.2);
   d ← run_ipsec (selinux_xfrm_delete ipsec_task c.2 r.2);
   Some (ctx_sid <$> r.1.2, r.2, d)) = Some (Some 60, 1, (0, 0)).
Proof. vm_compute. reflexivity. Qed.
