(* ===== verification/HookSock.v ===== *)
(** Sockets (hooks.c) and the labels NetLabel puts on them (netlabel.c):
    creation, names, connections, the labels of both ends, and netlink
    messages (nlmsgtab.c).  CONFIG_NETLABEL, CONFIG_IPV6 and
    CONFIG_SECURITY_NETWORK_XFRM are set. *)

From Stdlib Require Import String.
From S2P Require Import Prelude Sidtab Classmap Avc NetLabel Flask HookBase HookTask HookXfrm.
From stdpp Require Import strings.
Open Scope Z_scope.

(** ** Classes of sockets *)

Definition PF_UNIX : Z := 1.
Definition PF_INET : Z := 2.
Definition PF_APPLETALK : Z := 5.
Definition PF_INET6 : Z := 10.
Definition PF_KEY : Z := 15.
Definition PF_NETLINK : Z := 16.
Definition PF_PACKET : Z := 17.
Definition AF_UNSPEC : Z := 0.
Definition SOCK_STREAM : Z := 1.
Definition SOCK_DGRAM : Z := 2.
Definition SOCK_SEQPACKET : Z := 5.
Definition SOCK_DCCP : Z := 6.
Definition IPPROTO_IP : Z := 0.
Definition IPPROTO_TCP : Z := 6.
Definition IPPROTO_UDP : Z := 17.
Definition IPPROTO_DCCP : Z := 33.
Definition NETLINK_ROUTE : Z := 0.
Definition NETLINK_FIREWALL : Z := 3.
Definition NETLINK_INET_DIAG : Z := 4.
Definition NETLINK_NFLOG : Z := 5.
Definition NETLINK_XFRM : Z := 6.
Definition NETLINK_SELINUX : Z := 7.
Definition NETLINK_AUDIT : Z := 9.
Definition NETLINK_IP6_FW : Z := 13.
Definition NETLINK_DNRTMSG : Z := 14.
Definition NETLINK_KOBJECT_UEVENT : Z := 15.

Definition default_protocol_stream (protocol : Z) : bool := (protocol =? IPPROTO_IP) || (protocol =? IPPROTO_TCP).
Definition default_protocol_dgram (protocol : Z) : bool := (protocol =? IPPROTO_IP) || (protocol =? IPPROTO_UDP).

Definition netlink_class (protocol : Z) : Z :=
  if protocol =? NETLINK_ROUTE then SECCLASS_NETLINK_ROUTE_SOCKET
  else if protocol =? NETLINK_FIREWALL then SECCLASS_NETLINK_FIREWALL_SOCKET
  else if protocol =? NETLINK_INET_DIAG then SECCLASS_NETLINK_TCPDIAG_SOCKET
  else if protocol =? NETLINK_NFLOG then SECCLASS_NETLINK_NFLOG_SOCKET
  else if protocol =? NETLINK_XFRM then SECCLASS_NETLINK_XFRM_SOCKET
  else if protocol =? NETLINK_SELINUX then SECCLASS_NETLINK_SELINUX_SOCKET
  else if protocol =? NETLINK_AUDIT then SECCLASS_NETLINK_AUDIT_SOCKET
  else if protocol =? NETLINK_IP6_FW then SECCLASS_NETLINK_IP6FW_SOCKET
  else if protocol =? NETLINK_DNRTMSG then SECCLASS_NETLINK_DNRT_SOCKET
  else if protocol =? NETLINK_KOBJECT_UEVENT then SECCLASS_NETLINK_KOBJECT_UEVENT_SOCKET
  else SECCLASS_NETLINK_SOCKET.

Definition socket_type_to_security_class (family type protocol : Z) : Z :=
  if family =? PF_UNIX then
    if (type =? SOCK_STREAM) || (type =? SOCK_SEQPACKET) then SECCLASS_UNIX_STREAM_SOCKET
    else if type =? SOCK_DGRAM then SECCLASS_UNIX_DGRAM_SOCKET
    else SECCLASS_SOCKET
  else if (family =? PF_INET) || (family =? PF_INET6) then
    if type =? SOCK_STREAM then (if default_protocol_stream protocol then SECCLASS_TCP_SOCKET else SECCLASS_RAWIP_SOCKET)
    else if type =? SOCK_DGRAM then (if default_protocol_dgram protocol then SECCLASS_UDP_SOCKET else SECCLASS_RAWIP_SOCKET)
    else if type =? SOCK_DCCP then SECCLASS_DCCP_SOCKET
    else SECCLASS_RAWIP_SOCKET
  else if family =? PF_NETLINK then netlink_class protocol
  else if family =? PF_PACKET then SECCLASS_PACKET_SOCKET
  else if family =? PF_KEY then SECCLASS_KEY_SOCKET
  else if family =? PF_APPLETALK then SECCLASS_APPLETALK_SOCKET
  else SECCLASS_SOCKET.

(** ** Sockets *)

Inductive nlbl_state := NLBL_UNSET | NLBL_REQUIRE | NLBL_LABELED | NLBL_REQSKB | NLBL_CONNLABELED.
#[export] Instance nlbl_state_eq : EqDecision nlbl_state.
Proof. solve_decision. Defined.

(** [struct sk_security_struct] (include/objsec.h) *)
Record sk_security := mk_sk_security {
  sk_nlbl_state : nlbl_state;
  sk_nlbl_secattr : option secattr;
  sk_sid : Z;
  sk_peer_sid : Z;
  sk_sclass : Z
}.

Definition set_nlbl_state (k : sk_security) (v : nlbl_state) : sk_security :=
  mk_sk_security v (sk_nlbl_secattr k) (sk_sid k) (sk_peer_sid k) (sk_sclass k).
Definition set_nlbl_secattr (k : sk_security) (v : option secattr) : sk_security :=
  mk_sk_security (sk_nlbl_state k) v (sk_sid k) (sk_peer_sid k) (sk_sclass k).
Definition set_sk_sid (k : sk_security) (v : Z) : sk_security :=
  mk_sk_security (sk_nlbl_state k) (sk_nlbl_secattr k) v (sk_peer_sid k) (sk_sclass k).
Definition set_sk_peer_sid (k : sk_security) (v : Z) : sk_security :=
  mk_sk_security (sk_nlbl_state k) (sk_nlbl_secattr k) (sk_sid k) v (sk_sclass k).
Definition set_sk_sclass (k : sk_security) (v : Z) : sk_security :=
  mk_sk_security (sk_nlbl_state k) (sk_nlbl_secattr k) (sk_sid k) (sk_peer_sid k) v.

(** What the hooks read of a [struct sock]. *)
Record sock := mk_sock {
  sk_family : Z;
  sk_protocol : Z;
  sk_sec : sk_security
}.
Definition set_sk_sec (k : sock) (v : sk_security) : sock := mk_sock (sk_family k) (sk_protocol k) v.

(** ** NetLabel attributes of sockets (netlabel.c) *)

(** Functions of NetLabel that set attributes on something. *)
Definition netlbl_setattr (f : string) (a : secattr) : hook Z := ask_rc (NetlblSet f a).

Definition EDESTADDRREQ : Z := 89.

(** [None] is the null pointer. *)
Definition selinux_netlbl_sock_genattr (k : sk_security) : hook (option secattr * sk_security) :=
  match sk_nlbl_secattr k with
  | Some a => Ret (Some a, k)
  | None =>
      ok ← kernel_alloc;
      if negb ok then Ret (None, k)
      else
        an ← Call (NetlblSidToSecattr (sk_sid k) netlbl_secattr_init) Ret;
        if negb (an_rc an =? 0) then Ret (None, k)
        else let a := default netlbl_secattr_init (an_attr an) in Ret (Some a, set_nlbl_secattr k (Some a))
  end.

Definition selinux_netlbl_sk_security_reset (k : sk_security) : sk_security := set_nlbl_state k NLBL_UNSET.

Definition selinux_netlbl_inet_csk_clone (k : sk_security) (family : Z) : sk_security :=
  set_nlbl_state k (if family =? PF_INET then NLBL_LABELED else NLBL_UNSET).

Definition selinux_netlbl_inet_conn_request (secid family : Z) : hook Z :=
  if negb (family =? PF_INET) then Ret 0
  else
    an ← Call (NetlblSidToSecattr secid netlbl_secattr_init) Ret;
    if negb (an_rc an =? 0) then Ret (an_rc an)
    else netlbl_setattr "netlbl_req_setattr" (default netlbl_secattr_init (an_attr an)).

Definition selinux_netlbl_socket_post_create (k : sk_security) (family : Z) : hook (Z * sk_security) :=
  if negb (family =? PF_INET) then Ret (0, k)
  else
    '(a, k) ← selinux_netlbl_sock_genattr k;
    match a with
    | None => Ret (- ENOMEM, k)
    | Some a =>
        rc ← netlbl_setattr "netlbl_sock_setattr" a;
        if rc =? 0 then Ret (0, set_nlbl_state k NLBL_LABELED)
        else if rc =? - EDESTADDRREQ then Ret (0, set_nlbl_state k NLBL_REQSKB)
        else Ret (rc, k)
    end.

Definition IP_OPTIONS : Z := 4.

Definition selinux_netlbl_socket_setsockopt (k : sk_security) (level optname : Z) : hook Z :=
  if (level =? IPPROTO_IP) && (optname =? IP_OPTIONS) &&
     (bool_decide (sk_nlbl_state k = NLBL_LABELED) || bool_decide (sk_nlbl_state k = NLBL_CONNLABELED))
  then
    rc ← outside "netlbl_sock_getattr" [];
    Ret (if rc =? 0 then - EACCES else if rc =? - ENOMSG then 0 else rc)
  else Ret 0.

(** [sa_family]: the family of the address given. *)
Definition selinux_netlbl_socket_connect (k : sk_security) (sa_family : Z) : hook (Z * sk_security) :=
  if negb (bool_decide (sk_nlbl_state k = NLBL_REQSKB)) && negb (bool_decide (sk_nlbl_state k = NLBL_CONNLABELED)) then Ret (0, k)
  else if sa_family =? AF_UNSPEC then
    _ ← outside "netlbl_sock_delattr" [];
    Ret (0, set_nlbl_state k NLBL_REQSKB)
  else
    '(a, k) ← selinux_netlbl_sock_genattr k;
    match a with
    | None => Ret (- ENOMEM, k)
    | Some a =>
        rc ← netlbl_setattr "netlbl_conn_setattr" a;
        Ret (rc, if rc =? 0 then set_nlbl_state k NLBL_CONNLABELED else k)
    end.

(** ** Socket hooks *)

Definition socket_sockcreate_sid (tsec : task_security) (secclass old : Z) : hook (Z * Z) :=
  if SECSID_NULL <? sockcreate_sid tsec then Ret (0, sockcreate_sid tsec)
  else security_transition_sid (sid tsec) (sid tsec) secclass None old.

Definition sock_has_perm (task : task) (sk : sock) (perms : Z) : hook Z :=
  if sk_sid (sk_sec sk) =? SECINITSID_KERNEL then Ret 0
  else avc_has_perm (task_sid task) (sk_sid (sk_sec sk)) (sk_sclass (sk_sec sk)) perms ad_other.

Definition selinux_socket_create (cur : task) (family type protocol : Z) (kern : bool) : hook Z :=
  if kern then Ret 0
  else
    let secclass := socket_type_to_security_class family type protocol in
    '(rc, newsid) ← socket_sockcreate_sid (t_cred cur) secclass 0;
    if nz rc then Ret rc else avc_has_perm (sid (t_cred cur)) newsid secclass SOCKET__CREATE None.

(** Result: the return value, the label of the inode and the socket. *)
Definition selinux_socket_post_create (cur : task) (isec : inode_security) (sk : option sock) (family type protocol : Z) (kern : bool)
    : hook (Z * inode_security * option sock) :=
  let sclass := socket_type_to_security_class family type protocol in
  '(err, newsid) ← (if kern then Ret (0, SECINITSID_KERNEL) else socket_sockcreate_sid (t_cred cur) sclass (i_sid isec));
  if nz err then Ret (err, mk_inode_security (i_task_sid isec) newsid sclass (i_initialized isec), sk)
  else
    let isec := mk_inode_security (i_task_sid isec) newsid sclass true in
    match sk with
    | None => Ret (0, isec, None)
    | Some k =>
        let sksec := set_sk_sclass (set_sk_sid (sk_sec k) newsid) sclass in
        '(err, sksec) ← selinux_netlbl_socket_post_create sksec family;
        Ret (err, isec, Some (set_sk_sec k sksec))
    end.

(** An address as user space gives it: the bytes of the buffer, [sockaddr_in] or
    [sockaddr_in6] by the family of the socket. *)
Definition be16 (l : list Z) (off : nat) : Z := default 0 (l !! off) * 256 + default 0 (l !! S off).
Definition sin_port (address : list Z) : Z := be16 address 2.
Definition sin_addr (address : list Z) : list Z := take 4 (drop 4 address).
Definition sin6_addr (address : list Z) : list Z := take 16 (drop 8 address).
Definition sa_family (address : list Z) : Z := default 0 (address !! 0%nat) + 256 * default 0 (address !! 1%nat).

Definition PROT_SOCK : Z := 1024.

Definition node_bind_perm (sclass : Z) : Z :=
  if sclass =? SECCLASS_TCP_SOCKET then TCP_SOCKET__NODE_BIND
  else if sclass =? SECCLASS_UDP_SOCKET then UDP_SOCKET__NODE_BIND
  else if sclass =? SECCLASS_DCCP_SOCKET then DCCP_SOCKET__NODE_BIND
  else RAWIP_SOCKET__NODE_BIND.

(** [inet_get_local_port_range] *)
Definition local_port_range : hook (Z * Z) :=
  Call (Outside "inet_get_local_port_range" []) (fun an => Ret (default 0 (an_out an), default 0 (an_out2 an))).

Definition selinux_socket_bind (cur : task) (sk : sock) (address : list Z) : hook Z :=
  err ← sock_has_perm cur sk SOCKET__BIND;
  if nz err then Ret err
  else
    let family := sk_family sk in
    if (family =? PF_INET) || (family =? PF_INET6) then
      let sksec := sk_sec sk in
      let snum := sin_port address in
      let addrp := if family =? PF_INET then sin_addr address else sin6_addr address in
      err ← (if nz snum then
               '(low, high) ← local_port_range;
               if (snum <? Z.max PROT_SOCK low) || (high <? snum) then
                 '(err, sid) ← ask_sid (NetportSid (sk_protocol sk) snum) 0;
                 if nz err then Ret err else avc_has_perm (sk_sid sksec) sid (sk_sclass sksec) SOCKET__NAME_BIND ad_other
               else Ret 0
             else Ret 0);
      if nz err then Ret err
      else
        '(err, sid) ← ask_sid (NetnodeSid addrp family) 0;
        if nz err then Ret err
        else avc_has_perm (sk_sid sksec) sid (sk_sclass sksec) (node_bind_perm (sk_sclass sksec)) ad_other
    else Ret 0.

Definition SOCKADDR_IN_SIZE : Z := 16.
Definition SIN6_LEN_RFC2133 : Z := 24.

Definition selinux_socket_connect (cur : task) (sk : sock) (address : list Z) (addrlen : Z) : hook (Z * sock) :=
  let sksec := sk_sec sk in
  err ← sock_has_perm cur sk SOCKET__CONNECT;
  if nz err then Ret (err, sk)
  else
    err ← (if (sk_sclass sksec =? SECCLASS_TCP_SOCKET) || (sk_sclass sksec =? SECCLASS_DCCP_SOCKET) then
             if addrlen <? (if sk_family sk =? PF_INET then SOCKADDR_IN_SIZE else SIN6_LEN_RFC2133) then Ret (- EINVAL)
             else
               '(err, sid) ← ask_sid (NetportSid (sk_protocol sk) (sin_port address)) 0;
               if nz err then Ret err
               else
                 let perm := if sk_sclass sksec =? SECCLASS_TCP_SOCKET then TCP_SOCKET__NAME_CONNECT else DCCP_SOCKET__NAME_CONNECT in
                 avc_has_perm (sk_sid sksec) sid (sk_sclass sksec) perm ad_other
           else Ret 0);
    if nz err then Ret (err, sk)
    else '(err, sksec) ← selinux_netlbl_socket_connect sksec (sa_family address); Ret (err, set_sk_sec sk sksec).

(** [isec]: the inode of the listening socket; [newisec]: that of the new one. *)
Definition selinux_socket_accept (cur : task) (sk : sock) (isec newisec : inode_security) : hook (Z * inode_security) :=
  err ← sock_has_perm cur sk SOCKET__ACCEPT;
  if nz err then Ret (err, newisec)
  else Ret (0, mk_inode_security (i_task_sid newisec) (i_sid isec) (i_sclass isec) true).

Definition selinux_socket_setsockopt (cur : task) (sk : sock) (level optname : Z) : hook Z :=
  err ← sock_has_perm cur sk SOCKET__SETOPT;
  if nz err then Ret err else selinux_netlbl_socket_setsockopt (sk_sec sk) level optname.

Definition security_sid_mls_copy (sid mls_sid old : Z) : hook (Z * Z) := ask_sid (SidMlsCopy sid mls_sid) old.

(** Result: the return value, the connecting socket and the server's new one. *)
Definition selinux_socket_unix_stream_connect (sock other newsk : sk_security) : hook (Z * sk_security * sk_security) :=
  err ← avc_has_perm (sk_sid sock) (sk_sid other) (sk_sclass other) UNIX_STREAM_SOCKET__CONNECTTO ad_other;
  if nz err then Ret (err, sock, newsk)
  else
    let newsk := set_sk_peer_sid newsk (sk_sid sock) in
    '(err, newsid) ← security_sid_mls_copy (sk_sid other) (sk_sid sock) (sk_sid newsk);
    let newsk := set_sk_sid newsk newsid in
    if nz err then Ret (err, sock, newsk)
    else Ret (0, set_sk_peer_sid sock (sk_sid newsk), newsk).

Definition selinux_socket_unix_may_send (ssec osec : sk_security) : hook Z :=
  avc_has_perm (sk_sid ssec) (sk_sid osec) (sk_sclass osec) SOCKET__SENDTO ad_other.

Definition ENOPROTOOPT : Z := 92.

(** [len]: room in the user's buffer.  Result: the return value and what was
    written to [optval] and [optlen]. *)
Definition selinux_socket_getpeersec_stream (k : sk_security) (len : Z) : hook (Z * option string * option Z) :=
  let peer_sid := if (sk_sclass k =? SECCLASS_UNIX_STREAM_SOCKET) || (sk_sclass k =? SECCLASS_TCP_SOCKET)
                  then sk_peer_sid k else SECSID_NULL in
  if peer_sid =? SECSID_NULL then Ret (- ENOPROTOOPT, None, None)
  else
    '(err, scontext, scontext_len) ← security_sid_to_context peer_sid;
    if nz err then Ret (err, None, None)
    else
      '(err, out) ← (if len <? scontext_len then Ret (- ERANGE, None)
                     else
                       rc ← outside "copy_to_user" [];
                       if nz rc then Ret (- EFAULT, None) else Ret (0, scontext));
      rc ← outside "put_user" [];
      if nz rc then Ret (- EFAULT, out, None) else Ret (err, out, Some scontext_len).

Definition selinux_sk_alloc_security : hook (Z * option sk_security) :=
  ok ← kernel_alloc;
  if negb ok then Ret (- ENOMEM, None)
  else Ret (0, Some (selinux_netlbl_sk_security_reset (mk_sk_security NLBL_UNSET None SECINITSID_UNLABELED SECINITSID_UNLABELED 0))).

Definition selinux_sk_clone_security (k newk : sk_security) : sk_security :=
  selinux_netlbl_sk_security_reset (mk_sk_security (sk_nlbl_state newk) (sk_nlbl_secattr newk) (sk_sid k) (sk_peer_sid k) (sk_sclass k)).

Definition SECINITSID_ANY_SOCKET : Z := 13.

Definition selinux_sk_getsecid (k : option sk_security) : Z :=
  match k with None => SECINITSID_ANY_SOCKET | Some k => sk_sid k end.

(** The socket [sk] becomes the one of the inode [isec]. *)
Definition selinux_sock_graft (sk : sock) (isec : inode_security) : sock * inode_security :=
  let isec := if (sk_family sk =? PF_INET) || (sk_family sk =? PF_INET6) || (sk_family sk =? PF_UNIX)
              then mk_inode_security (i_task_sid isec) (sk_sid (sk_sec sk)) (i_sclass isec) (i_initialized isec) else isec in
  (set_sk_sec sk (set_sk_sclass (sk_sec sk) (i_sclass isec)), isec).

(** ** Tunnel devices *)

Definition selinux_tun_dev_create (cur : task) : hook Z :=
  avc_has_perm (current_sid cur) (current_sid cur) SECCLASS_TUN_SOCKET TUN_SOCKET__CREATE None.

Definition selinux_tun_dev_post_create (cur : task) (k : sk_security) : sk_security :=
  set_sk_sclass (set_sk_sid k (current_sid cur)) SECCLASS_TUN_SOCKET.

Definition selinux_tun_dev_attach (cur : task) (k : sk_security) : hook (Z * sk_security) :=
  let sid := current_sid cur in
  err ← avc_has_perm sid (sk_sid k) SECCLASS_TUN_SOCKET TUN_SOCKET__RELABELFROM None;
  if nz err then Ret (err, k)
  else
    err ← avc_has_perm sid sid SECCLASS_TUN_SOCKET TUN_SOCKET__RELABELTO None;
    if nz err then Ret (err, k) else Ret (0, set_sk_sid k sid).

(** ** Netlink messages (nlmsgtab.c) *)

