(* ===== verification/HookNetlink.v ===== *)
(** Netlink messages: the permission each type of message needs (nlmsgtab.c),
    the check when a task sends messages (hooks.c), and which of them the
    kernel then handles (net/netlink/af_netlink.c, net/core/rtnetlink.c). *)

From Stdlib Require Import String.
From S2P Require Import Prelude Sidtab Classmap Avc NetLabel Flask HookBase HookTask HookXfrm HookSock.
Open Scope Z_scope.

(** ** Types of messages *)

Definition RTM_NEWLINK : Z := 16.
Definition RTM_DELLINK : Z := 17.
Definition RTM_GETLINK : Z := 18.
Definition RTM_SETLINK : Z := 19.
Definition RTM_NEWADDR : Z := 20.
Definition RTM_DELADDR : Z := 21.
Definition RTM_GETADDR : Z := 22.
Definition RTM_NEWROUTE : Z := 24.
Definition RTM_DELROUTE : Z := 25.
Definition RTM_GETROUTE : Z := 26.
Definition RTM_NEWNEIGH : Z := 28.
Definition RTM_DELNEIGH : Z := 29.
Definition RTM_GETNEIGH : Z := 30.
Definition RTM_NEWRULE : Z := 32.
Definition RTM_DELRULE : Z := 33.
Definition RTM_GETRULE : Z := 34.
Definition RTM_NEWQDISC : Z := 36.
Definition RTM_DELQDISC : Z := 37.
Definition RTM_GETQDISC : Z := 38.
Definition RTM_NEWTCLASS : Z := 40.
Definition RTM_DELTCLASS : Z := 41.
Definition RTM_GETTCLASS : Z := 42.
Definition RTM_NEWTFILTER : Z := 44.
Definition RTM_DELTFILTER : Z := 45.
Definition RTM_GETTFILTER : Z := 46.
Definition RTM_NEWACTION : Z := 48.
Definition RTM_DELACTION : Z := 49.
Definition RTM_GETACTION : Z := 50.
Definition RTM_NEWPREFIX : Z := 52.
Definition RTM_GETMULTICAST : Z := 58.
Definition RTM_GETANYCAST : Z := 62.
Definition RTM_GETNEIGHTBL : Z := 66.
Definition RTM_SETNEIGHTBL : Z := 67.
Definition RTM_NEWADDRLABEL : Z := 72.
Definition RTM_DELADDRLABEL : Z := 73.
Definition RTM_GETADDRLABEL : Z := 74.
Definition RTM_GETDCB : Z := 78.
Definition RTM_SETDCB : Z := 79.
Definition IPQM_MODE : Z := 17.
Definition IPQM_VERDICT : Z := 18.
Definition TCPDIAG_GETSOCK : Z := 18.
Definition DCCPDIAG_GETSOCK : Z := 19.
Definition XFRM_MSG_NEWSA : Z := 16.
Definition XFRM_MSG_DELSA : Z := 17.
Definition XFRM_MSG_GETSA : Z := 18.
Definition XFRM_MSG_NEWPOLICY : Z := 19.
Definition XFRM_MSG_DELPOLICY : Z := 20.
Definition XFRM_MSG_GETPOLICY : Z := 21.
Definition XFRM_MSG_ALLOCSPI : Z := 22.
Definition XFRM_MSG_ACQUIRE : Z := 23.
Definition XFRM_MSG_EXPIRE : Z := 24.
Definition XFRM_MSG_UPDPOLICY : Z := 25.
Definition XFRM_MSG_UPDSA : Z := 26.
Definition XFRM_MSG_POLEXPIRE : Z := 27.
Definition XFRM_MSG_FLUSHSA : Z := 28.
Definition XFRM_MSG_FLUSHPOLICY : Z := 29.
Definition XFRM_MSG_NEWAE : Z := 30.
Definition XFRM_MSG_GETAE : Z := 31.
Definition AUDIT_GET : Z := 1000.
Definition AUDIT_SET : Z := 1001.
Definition AUDIT_LIST : Z := 1002.
Definition AUDIT_ADD : Z := 1003.
Definition AUDIT_DEL : Z := 1004.
Definition AUDIT_LIST_RULES : Z := 1013.
Definition AUDIT_ADD_RULE : Z := 1011.
Definition AUDIT_DEL_RULE : Z := 1012.
Definition AUDIT_USER : Z := 1005.
Definition AUDIT_SIGNAL_INFO : Z := 1010.
Definition AUDIT_TRIM : Z := 1014.
Definition AUDIT_MAKE_EQUIV : Z := 1015.
Definition AUDIT_TTY_GET : Z := 1016.
Definition AUDIT_TTY_SET : Z := 1017.
Definition AUDIT_FIRST_USER_MSG : Z := 1100.
Definition AUDIT_LAST_USER_MSG : Z := 1199.
Definition AUDIT_FIRST_USER_MSG2 : Z := 2100.
Definition AUDIT_LAST_USER_MSG2 : Z := 2999.

(** ** Tables (nlmsgtab.c) *)

Definition nlmsg_route_perms : list (Z * Z) :=
  [(RTM_NEWLINK, NETLINK_ROUTE_SOCKET__NLMSG_WRITE);
   (RTM_DELLINK, NETLINK_ROUTE_SOCKET__NLMSG_WRITE);
   (RTM_GETLINK, NETLINK_ROUTE_SOCKET__NLMSG_READ);
   (RTM_SETLINK, NETLINK_ROUTE_SOCKET__NLMSG_WRITE);
   (RTM_NEWADDR, NETLINK_ROUTE_SOCKET__NLMSG_WRITE);
   (RTM_DELADDR, NETLINK_ROUTE_SOCKET__NLMSG_WRITE);
   (RTM_GETADDR, NETLINK_ROUTE_SOCKET__NLMSG_READ);
   (RTM_NEWROUTE, NETLINK_ROUTE_SOCKET__NLMSG_WRITE);
   (RTM_DELROUTE, NETLINK_ROUTE_SOCKET__NLMSG_WRITE);
   (RTM_GETROUTE, NETLINK_ROUTE_SOCKET__NLMSG_READ);
   (RTM_NEWNEIGH, NETLINK_ROUTE_SOCKET__NLMSG_WRITE);
   (RTM_DELNEIGH, NETLINK_ROUTE_SOCKET__NLMSG_WRITE);
   (RTM_GETNEIGH, NETLINK_ROUTE_SOCKET__NLMSG_READ);
   (RTM_NEWRULE, NETLINK_ROUTE_SOCKET__NLMSG_WRITE);
   (RTM_DELRULE, NETLINK_ROUTE_SOCKET__NLMSG_WRITE);
   (RTM_GETRULE, NETLINK_ROUTE_SOCKET__NLMSG_READ);
   (RTM_NEWQDISC, NETLINK_ROUTE_SOCKET__NLMSG_WRITE);
   (RTM_DELQDISC, NETLINK_ROUTE_SOCKET__NLMSG_WRITE);
   (RTM_GETQDISC, NETLINK_ROUTE_SOCKET__NLMSG_READ);
   (RTM_NEWTCLASS, NETLINK_ROUTE_SOCKET__NLMSG_WRITE);
   (RTM_DELTCLASS, NETLINK_ROUTE_SOCKET__NLMSG_WRITE);
   (RTM_GETTCLASS, NETLINK_ROUTE_SOCKET__NLMSG_READ);
   (RTM_NEWTFILTER, NETLINK_ROUTE_SOCKET__NLMSG_WRITE);
   (RTM_DELTFILTER, NETLINK_ROUTE_SOCKET__NLMSG_WRITE);
   (RTM_GETTFILTER, NETLINK_ROUTE_SOCKET__NLMSG_READ);
   (RTM_NEWACTION, NETLINK_ROUTE_SOCKET__NLMSG_WRITE);
   (RTM_DELACTION, NETLINK_ROUTE_SOCKET__NLMSG_WRITE);
   (RTM_GETACTION, NETLINK_ROUTE_SOCKET__NLMSG_READ);
   (RTM_NEWPREFIX, NETLINK_ROUTE_SOCKET__NLMSG_WRITE);
   (RTM_GETMULTICAST, NETLINK_ROUTE_SOCKET__NLMSG_READ);
   (RTM_GETANYCAST, NETLINK_ROUTE_SOCKET__NLMSG_READ);
   (RTM_GETNEIGHTBL, NETLINK_ROUTE_SOCKET__NLMSG_READ);
   (RTM_SETNEIGHTBL, NETLINK_ROUTE_SOCKET__NLMSG_WRITE);
   (RTM_NEWADDRLABEL, NETLINK_ROUTE_SOCKET__NLMSG_WRITE);
   (RTM_DELADDRLABEL, NETLINK_ROUTE_SOCKET__NLMSG_WRITE);
   (RTM_GETADDRLABEL, NETLINK_ROUTE_SOCKET__NLMSG_READ);
   (RTM_GETDCB, NETLINK_ROUTE_SOCKET__NLMSG_READ);
   (RTM_SETDCB, NETLINK_ROUTE_SOCKET__NLMSG_WRITE)].

Definition nlmsg_firewall_perms : list (Z * Z) :=
  [(IPQM_MODE, NETLINK_FIREWALL_SOCKET__NLMSG_WRITE);
   (IPQM_VERDICT, NETLINK_FIREWALL_SOCKET__NLMSG_WRITE)].

Definition nlmsg_tcpdiag_perms : list (Z * Z) :=
  [(TCPDIAG_GETSOCK, NETLINK_TCPDIAG_SOCKET__NLMSG_READ);
   (DCCPDIAG_GETSOCK, NETLINK_TCPDIAG_SOCKET__NLMSG_READ)].

Definition nlmsg_xfrm_perms : list (Z * Z) :=
  [(XFRM_MSG_NEWSA, NETLINK_XFRM_SOCKET__NLMSG_WRITE);
   (XFRM_MSG_DELSA, NETLINK_XFRM_SOCKET__NLMSG_WRITE);
   (XFRM_MSG_GETSA, NETLINK_XFRM_SOCKET__NLMSG_READ);
   (XFRM_MSG_NEWPOLICY, NETLINK_XFRM_SOCKET__NLMSG_WRITE);
   (XFRM_MSG_DELPOLICY, NETLINK_XFRM_SOCKET__NLMSG_WRITE);
   (XFRM_MSG_GETPOLICY, NETLINK_XFRM_SOCKET__NLMSG_READ);
   (XFRM_MSG_ALLOCSPI, NETLINK_XFRM_SOCKET__NLMSG_WRITE);
   (XFRM_MSG_ACQUIRE, NETLINK_XFRM_SOCKET__NLMSG_WRITE);
   (XFRM_MSG_EXPIRE, NETLINK_XFRM_SOCKET__NLMSG_WRITE);
   (XFRM_MSG_UPDPOLICY, NETLINK_XFRM_SOCKET__NLMSG_WRITE);
   (XFRM_MSG_UPDSA, NETLINK_XFRM_SOCKET__NLMSG_WRITE);
   (XFRM_MSG_POLEXPIRE, NETLINK_XFRM_SOCKET__NLMSG_WRITE);
   (XFRM_MSG_FLUSHSA, NETLINK_XFRM_SOCKET__NLMSG_WRITE);
   (XFRM_MSG_FLUSHPOLICY, NETLINK_XFRM_SOCKET__NLMSG_WRITE);
   (XFRM_MSG_NEWAE, NETLINK_XFRM_SOCKET__NLMSG_WRITE);
   (XFRM_MSG_GETAE, NETLINK_XFRM_SOCKET__NLMSG_READ)].

Definition nlmsg_audit_perms : list (Z * Z) :=
  [(AUDIT_GET, NETLINK_AUDIT_SOCKET__NLMSG_READ);
   (AUDIT_SET, NETLINK_AUDIT_SOCKET__NLMSG_WRITE);
   (AUDIT_LIST, NETLINK_AUDIT_SOCKET__NLMSG_READPRIV);
   (AUDIT_ADD, NETLINK_AUDIT_SOCKET__NLMSG_WRITE);
   (AUDIT_DEL, NETLINK_AUDIT_SOCKET__NLMSG_WRITE);
   (AUDIT_LIST_RULES, NETLINK_AUDIT_SOCKET__NLMSG_READPRIV);
   (AUDIT_ADD_RULE, NETLINK_AUDIT_SOCKET__NLMSG_WRITE);
   (AUDIT_DEL_RULE, NETLINK_AUDIT_SOCKET__NLMSG_WRITE);
   (AUDIT_USER, NETLINK_AUDIT_SOCKET__NLMSG_RELAY);
   (AUDIT_SIGNAL_INFO, NETLINK_AUDIT_SOCKET__NLMSG_READ);
   (AUDIT_TRIM, NETLINK_AUDIT_SOCKET__NLMSG_WRITE);
   (AUDIT_MAKE_EQUIV, NETLINK_AUDIT_SOCKET__NLMSG_WRITE);
   (AUDIT_TTY_GET, NETLINK_AUDIT_SOCKET__NLMSG_READ);
   (AUDIT_TTY_SET, NETLINK_AUDIT_SOCKET__NLMSG_TTY_AUDIT)].

Fixpoint nlmsg_perm (nlmsg_type : Z) (tab : list (Z * Z)) : option Z :=
  match tab with
  | [] => None
  | (t, perm) :: tab' => if nlmsg_type =? t then Some perm else nlmsg_perm nlmsg_type tab'
  end.

(** [inl]: the error. *)
Definition selinux_nlmsg_lookup (sclass nlmsg_type : Z) : Z + Z :=
  let lookup tab := match nlmsg_perm nlmsg_type tab with Some perm => inr perm | None => inl (- EINVAL) end in
  if sclass =? SECCLASS_NETLINK_ROUTE_SOCKET then lookup nlmsg_route_perms
  else if (sclass =? SECCLASS_NETLINK_FIREWALL_SOCKET) || (sclass =? SECCLASS_NETLINK_IP6FW_SOCKET) then lookup nlmsg_firewall_perms
  else if sclass =? SECCLASS_NETLINK_TCPDIAG_SOCKET then lookup nlmsg_tcpdiag_perms
  else if sclass =? SECCLASS_NETLINK_XFRM_SOCKET then lookup nlmsg_xfrm_perms
  else if sclass =? SECCLASS_NETLINK_AUDIT_SOCKET then
    if ((AUDIT_FIRST_USER_MSG <=? nlmsg_type) && (nlmsg_type <=? AUDIT_LAST_USER_MSG)) ||
       ((AUDIT_FIRST_USER_MSG2 <=? nlmsg_type) && (nlmsg_type <=? AUDIT_LAST_USER_MSG2))
    then inr NETLINK_AUDIT_SOCKET__NLMSG_RELAY
    else lookup nlmsg_audit_perms
  else inl (- ENOENT).

(** ** Messages *)

Definition NLMSG_ALIGN (len : Z) : Z := (len + 3) .& u32 (Z.lnot 3).
Definition NLMSG_HDRLEN : Z := 16.
Definition NLMSG_SPACE (len : Z) : Z := NLMSG_ALIGN (len + NLMSG_ALIGN NLMSG_HDRLEN).

Definition le16 (l : list Z) (off : nat) : Z := default 0 (l !! off) + 256 * default 0 (l !! S off).
Definition le32 (l : list Z) (off : nat) : Z := le16 l off + 65536 * le16 l (S (S off)).

(** The fields of [struct nlmsghdr] at the start of the data. *)
Definition nlmsg_len (data : list Z) : Z := le32 data 0.
Definition nlmsg_type (data : list Z) : Z := le16 data 4.
Definition nlmsg_flags (data : list Z) : Z := le16 data 6.

(** ** Hooks *)

Definition selinux_nlmsg_perm (cur : task) (sk : sock) (data : list Z) : hook Z :=
  if Z.of_nat (length data) <? NLMSG_SPACE 0 then Ret (- EINVAL)
  else
    match selinux_nlmsg_lookup (sk_sclass (sk_sec sk)) (nlmsg_type data) with
    | inr perm => sock_has_perm cur sk perm
    | inl err =>
        if err =? - EINVAL then
          enforcing ← ask_bool (Global g_enforcing);
          if negb enforcing then Ret 0
          else unknown ← ask_bool (Global g_allow_unknown); Ret (if unknown : bool then 0 else err)
        else Ret (if err =? - ENOENT then 0 else err)
    end.

Definition selinux_netlink_send (cur : task) (sk : sock) (data : list Z) : hook Z :=
  err ← outside "cap_netlink_send" [];
  if nz err then Ret err else selinux_nlmsg_perm cur sk data.

Definition selinux_netlink_recv (cur : task) (capability : Z) : hook Z :=
  err ← outside "cap_netlink_recv" [capability];
  if nz err then Ret err
  else avc_has_perm (task_sid cur) (task_sid cur) SECCLASS_CAPABILITY (CAP_TO_MASK capability) ad_other.

(** ** What the kernel does with the messages *)

Definition NLM_F_REQUEST : Z := 1.
Definition NLMSG_MIN_TYPE : Z := 0x10.

(** [netlink_rcv_skb]: the messages that are handed to the callback, each with
    the data from it on. *)
Fixpoint rcv_messages (fuel : nat) (data : list Z) : list (list Z) :=
  match fuel with
  | O => []
  | S fuel' =>
      if Z.of_nat (length data) <? NLMSG_ALIGN (NLMSG_HDRLEN + 0) then []
      else if (nlmsg_len data <? NLMSG_HDRLEN) || (Z.of_nat (length data) <? nlmsg_len data) then []
      else
        let msglen := Z.min (NLMSG_ALIGN (nlmsg_len data)) (Z.of_nat (length data)) in
        let rest := rcv_messages fuel' (drop (Z.to_nat msglen) data) in
        if negb (nz (nlmsg_flags data .& NLM_F_REQUEST)) || (nlmsg_type data <? NLMSG_MIN_TYPE) then rest
        else data :: rest
  end.
Definition netlink_rcv_skb (data : list Z) : list (list Z) := rcv_messages (length data) data.

Definition RTM_BASE : Z := 16.
Definition RTM_MAX : Z := 79.

(** [rtnetlink_rcv_msg]: messages of this kind change the configuration of the
    network, the others read it. *)
Definition route_change (data : list Z) : bool :=
  (nlmsg_type data <=? RTM_MAX) && negb ((nlmsg_type data - RTM_BASE) .& 3 =? 2).

(** ** Properties *)

Lemma nlmsg_perm_elem t tab p : nlmsg_perm t tab = Some p -> (t, p) ∈ tab.
Proof.
  induction tab as [|[u q] tab IH]; [done|]. cbn. destruct (Z.eqb_spec t u) as [->|]; intros H.
  - injection H as ->. left.
  - right. by apply IH.
Qed.

(** In the table of routing messages, what changes the configuration needs the
    write permission. *)
Lemma route_change_write data p :
  nlmsg_perm (nlmsg_type data) nlmsg_route_perms = Some p -> route_change data = true -> p = NETLINK_ROUTE_SOCKET__NLMSG_WRITE.
Proof.
  intros H%nlmsg_perm_elem. unfold route_change. intros [_ Hk]%andb_true_iff.
  assert (forallb (fun e => ((e.1 - RTM_BASE) .& 3 =? 2) || (e.2 =? NETLINK_ROUTE_SOCKET__NLMSG_WRITE)) nlmsg_route_perms = true) as Ht
    by reflexivity.
  rewrite forallb_forall in Ht. apply list_elem_of_In in H. specialize (Ht _ H). cbn [fst snd] in Ht.
  apply orb_true_iff in Ht as [Ht|Ht]; [by rewrite Ht in Hk|by apply Z.eqb_eq].
Qed.

Lemma land_align x : 0 <= x < 2 ^ 32 -> x .& u32 (Z.lnot 3) = 4 * (x / 4).
Proof.
  intros Hx. replace (u32 (Z.lnot 3)) with (Z.shiftl (Z.ones 30) 2) by reflexivity.
  replace (x .& Z.shiftl (Z.ones 30) 2) with (Z.shiftl (Z.land (Z.shiftr x 2) (Z.ones 30)) 2).
  - rewrite Z.land_ones, Z.shiftl_mul_pow2, Z.shiftr_div_pow2 by lia. change (2 ^ 2) with 4.
    rewrite Z.mod_small; [lia|]. split; [apply Z.div_pos; lia|]. apply Z.div_lt_upper_bound; lia.
  - apply Z.bits_inj'. intros n Hn. rewrite Z.shiftl_spec, !Z.land_spec, Z.shiftl_spec by done.
    destruct (Z.le_gt_cases 2 n) as [H|H].
    + rewrite Z.shiftr_spec by lia. by replace (n - 2 + 2) with n by lia.
    + rewrite (Z.testbit_neg_r _ (n - 2)), (Z.testbit_neg_r (Z.ones 30) (n - 2)) by lia. by rewrite !andb_false_r.
Qed.

Lemma NLMSG_ALIGN_bounds len : 0 <= len < 2 ^ 32 - 3 -> len <= NLMSG_ALIGN len < len + 4.
Proof. intros H. unfold NLMSG_ALIGN. rewrite land_align by lia. pose proof (Z.div_mod (len + 3) 4). pose proof (Z.mod_pos_bound (len + 3) 4). lia. Qed.

(** A message has at least the length of a header, so the walk ends. *)
Lemma rcv_messages_fuel fuel data :
  Z.of_nat (length data) < 2 ^ 32 - 3 -> (length data <= fuel)%nat -> rcv_messages fuel data = netlink_rcv_skb data.
Proof.
  unfold netlink_rcv_skb. generalize (le_n (length data)). generalize (length data) at 2 5 as n. intros n.
  revert data n. induction fuel as [|fuel IH]; intros data n Hn Hl Hf.
  - destruct data; [|cbn in Hf; lia]. by destruct n.
  - destruct n as [|n]; [destruct data; [done|cbn in Hn; lia]|]. cbn [rcv_messages].
    destruct (_ <? _) eqn:E1; [done|]. destruct ((_ <? _) || _) eqn:E2; [done|].
    apply orb_false_iff in E2 as [E2 E3]. apply Z.ltb_ge in E2, E3. unfold NLMSG_HDRLEN in E2.
    pose proof (NLMSG_ALIGN_bounds (nlmsg_len data) ltac:(lia)) as Hb.
    rewrite (IH _ n); [done| | |]; rewrite length_drop; lia.
Qed.


(** ** Examples *)

Definition net_task : task := mk_task (mk_task_security 30 30 0 0 0 0) (mk_task_security 30 30 0 0 0 0).
Definition route_socket : sock := mk_sock PF_NETLINK NETLINK_ROUTE (mk_sk_security NLBL_UNSET None 31 1 SECCLASS_NETLINK_ROUTE_SOCKET).

(** A request of the given type without a payload. *)
Definition route_message (type : Z) : list Z := [16; 0; 0; 0; type; 0; 1; 0; 0; 0; 0; 0; 0; 0; 0; 0].

(** Answers that grant [perms] of the routing socket, in enforcing mode. *)
Definition route_answers (perms : Z) (c : call) : answer :=
  match c with
  | HasPerm _ _ _ r _ _ => rc_only (if Z.land r (Z.lnot perms) =? 0 then 0 else - EACCES)
  | Global g_enforcing => rc_only 1
  | _ => rc_only 0
  end.

Definition new_address : list Z := route_message RTM_NEWADDR.
Definition address_trace : trace :=
  match with_answers (route_answers NETLINK_ROUTE_SOCKET__NLMSG_WRITE) (selinux_netlink_send net_task route_socket new_address) with
  | Some (_, tr) => tr
  | None => []
  end.

Lemma address_sent : runs (selinux_netlink_send net_task route_socket new_address) address_trace 0.
Proof. by apply (with_answers_runs (route_answers NETLINK_ROUTE_SOCKET__NLMSG_WRITE)). Qed.

Lemma address_no_globals g an : (Global g, an) ∉ address_trace.
Proof. vm_compute. by intros [[=]|[[=]|[]%elem_of_nil]%elem_of_cons]%elem_of_cons. Qed.

Lemma address_handled : new_address ∈ netlink_rcv_skb new_address.
Proof. vm_compute. left. Qed.


(** Only the first message of a packet is checked: a task with the read
    permission alone changes an address with the second one. *)
Example second_message_unchecked :
  let data := (route_message RTM_GETLINK ++ route_message RTM_NEWADDR)%list in
  eval (route_answers NETLINK_ROUTE_SOCKET__NLMSG_READ) (selinux_netlink_send net_task route_socket data) = Some 0 /\
  map (fun d => (nlmsg_type d, route_change d)) (netlink_rcv_skb data) = [(RTM_GETLINK, false); (RTM_NEWADDR, true)].
Proof. split; vm_compute; reflexivity. Qed.
