(* ===== verification/HookPacket.v ===== *)
(** Packets (hooks.c, netlabel.c): the addresses in their headers, the label of
    the peer they come from, and the checks when they are received, forwarded
    and sent. *)

From Stdlib Require Import String.
From S2P Require Import Prelude Sidtab Policydb Classmap Avc NetLabel Flask HookBase HookTask HookXfrm HookSock.
Open Scope Z_scope.

(** ** Packets *)

Definition ETH_P_IP : Z := 0x800.
Definition ETH_P_IPV6 : Z := 0x86DD.

(** What the hooks read of a [struct sk_buff]: the bytes from the start of the
    buffer on, the positions of the data and of the network header in them,
    the associations it came through and the ones along its route. *)
Record skbuff := mk_skbuff {
  skb_bytes : list Z;
  skb_data : Z;
  skb_network_header : Z;
  skb_protocol : Z;
  skb_iif : Z;
  skb_secmark : Z;
  skb_sp : option (list xfrm_state);
  skb_dst : option (list (option xfrm_state));
  skb_sk : option sk_security
}.

(** [offset] is relative to the data and may be negative; bytes in front of the
    buffer are not read. *)
Definition skb_header_pointer (skb : skbuff) (offset len : Z) : option (list Z) :=
  let pos := skb_data skb + offset in
  if (pos <? 0) || (Z.of_nat (length (skb_bytes skb)) <? pos + len) then None
  else Some (take (Z.to_nat len) (drop (Z.to_nat pos) (skb_bytes skb))).

Definition skb_network_offset (skb : skbuff) : Z := skb_network_header skb - skb_data skb.

(** ** Headers *)

(** What is stored in the audit data: addresses and ports. *)
Record net_info := mk_net_info {
  ni_saddr : list Z;
  ni_daddr : list Z;
  ni_ports : option (Z * Z)
}.

(** The ports of a TCP, UDP or DCCP header. *)
Definition transport_ports (skb : skbuff) (proto offset : Z) : option (Z * Z) :=
  let ports len := (fun h => (be16 h 0, be16 h 2)) <$> skb_header_pointer skb offset len in
  if proto =? IPPROTO_TCP then ports 20
  else if proto =? IPPROTO_UDP then ports 8
  else if proto =? IPPROTO_DCCP then ports 12
  else None.

Definition IP_OFFSET : Z := 0x1FFF.
Definition byte_at (l : list Z) (i : nat) : Z := default 0 (l !! i).

(** [inl]: the error.  The last part is [*proto]. *)
Definition selinux_parse_skb_ipv4 (skb : skbuff) : Z + net_info * Z :=
  let offset := skb_network_offset skb in
  match skb_header_pointer skb offset 20 with
  | None => inl (- EINVAL)
  | Some ih =>
      let ihlen := (byte_at ih 0 .& 15) * 4 in
      if ihlen <? 20 then inl (- EINVAL)
      else
        let proto := byte_at ih 9 in
        let ports := if nz (be16 ih 6 .& IP_OFFSET) then None else transport_ports skb proto (offset + ihlen) in
        inr (mk_net_info (take 4 (drop 12 ih)) (take 4 (drop 16 ih)) ports, proto)
  end.

(** [proto]: the value of [*proto] before the call, which stays when the
    extension headers cannot be skipped. *)
Definition selinux_parse_skb_ipv6 (skb : skbuff) (proto : Z) : hook (Z + net_info * Z) :=
  let offset := skb_network_offset skb in
  match skb_header_pointer skb offset 40 with
  | None => Ret (inl (- EINVAL))
  | Some ip6 =>
      let info := mk_net_info (take 16 (drop 8 ip6)) (take 16 (drop 24 ip6)) in
      an ← Call (Outside "ipv6_skip_exthdr" [offset + 40; byte_at ip6 6]) Ret;
      let offset := an_rc an in
      let nexthdr := default (byte_at ip6 6) (an_out an) in
      if offset <? 0 then Ret (inr (info None, proto))
      else Ret (inr (info (transport_ports skb nexthdr offset), nexthdr))
  end.

(** Result: the return value, the address that was asked for (the source or the
    destination) and [*proto]. *)
Definition selinux_parse_skb (skb : skbuff) (family : Z) (src : bool) (proto : Z) : hook (Z * option (list Z) * Z) :=
  let addr (i : net_info) := if src then ni_saddr i else ni_daddr i in
  r ← (if family =? PF_INET then Ret (selinux_parse_skb_ipv4 skb)
       else if family =? PF_INET6 then selinux_parse_skb_ipv6 skb proto
       else Ret (inr (mk_net_info [] [] None, proto)));
  match r with
  | inl ret => Ret (ret, None, proto)
  | inr (info, proto) =>
      Ret (0, if (family =? PF_INET) || (family =? PF_INET6) then Some (addr info) else None, proto)
  end.

(** ** The label of the peer (netlabel.c and hooks.c) *)

Definition NETLBL_SECATTR_CACHEABLE : Z := NETLBL_SECATTR_MLS_LVL .| NETLBL_SECATTR_MLS_CAT .| NETLBL_SECATTR_SECID.

Definition netlbl_enabled : hook bool := ask_bool (Outside "netlbl_enabled" []).

(** Result: the return value and [*sid], which is [old] if it is not written. *)
Definition selinux_netlbl_sidlookup_cached (a : secattr) (old : Z) : hook (Z * Z) :=
  an ← Call (NetlblSecattrToSid a) Ret;
  let a := default a (an_attr an) in
  _ ← (if (an_rc an =? 0) && has_flag a NETLBL_SECATTR_CACHEABLE && has_flag a NETLBL_SECATTR_CACHE
       then netlbl_setattr "netlbl_cache_add" a else Ret 0);
  Ret (an_rc an, default old (an_out an)).

(** [netlbl_skbuff_getattr]: the return value, the attributes and their type. *)
Definition netlbl_skbuff_getattr (family : Z) : hook (Z * secattr * Z) :=
  Call (Outside "netlbl_skbuff_getattr" [family])
    (fun an => Ret (an_rc an, default netlbl_secattr_init (an_attr an), default 0 (an_out an))).

(** [sid] and [type]: the values the variables of the caller have. *)
Definition selinux_netlbl_skbuff_getsid (family type sid : Z) : hook (Z * Z * Z) :=
  enabled ← netlbl_enabled;
  if negb enabled then Ret (0, type, SECSID_NULL)
  else
    '(rc, a, type) ← netlbl_skbuff_getattr family;
    '(rc, sid) ← (if (rc =? 0) && negb (sa_flags a =? 0) then selinux_netlbl_sidlookup_cached a sid else Ret (rc, SECSID_NULL));
    Ret (rc, type, sid).

(** [stack]: what the uninitialized variables [nlbl_type] and [nlbl_sid] hold.
    Result: the return value and [*sid]. *)
Definition selinux_skb_peerlbl_sid (skb : skbuff) (family : Z) (stack : Z * Z) (old : Z) : hook (Z * Z) :=
  xfrm_sid ← selinux_skb_xfrm_sid (skb_sp skb);
  '(_, nlbl_type, nlbl_sid) ← selinux_netlbl_skbuff_getsid family stack.1 stack.2;
  '(err, sid) ← ask_sid (PeersidResolve nlbl_sid nlbl_type xfrm_sid) old;
  if nz err then Ret (- EACCES, sid) else Ret (0, sid).

Definition selinux_netlbl_err (error gateway : Z) : hook Z := outside "netlbl_skbuff_err" [error; gateway].

(** ** Receiving *)

Definition selinux_secmark_enabled : hook bool := Call (Global g_secmark_refcount) (fun an => Ret (0 <? an_rc an)).

(** [netlbl_enabled() || selinux_xfrm_enabled()] *)
Definition peerlbl_enabled : hook bool := n ← netlbl_enabled; if n : bool then Ret true else selinux_xfrm_enabled.

Definition selinux_inet_sys_rcv_skb (ifindex : Z) (addrp : option (list Z)) (family peer_sid : Z) : hook Z :=
  '(err, if_sid) ← ask_sid (NetifSid ifindex) 0;
  if nz err then Ret err
  else
    err ← avc_has_perm peer_sid if_sid SECCLASS_NETIF NETIF__INGRESS ad_other;
    if nz err then Ret err
    else
      '(err, node_sid) ← ask_sid (NetnodeSid (default [] addrp) family) 0;
      if nz err then Ret err else avc_has_perm peer_sid node_sid SECCLASS_NODE NODE__RECVFROM ad_other.

Definition recvfrom_perm (sclass : Z) : Z :=
  if sclass =? SECCLASS_UDP_SOCKET then UDP_SOCKET__RECVFROM
  else if sclass =? SECCLASS_TCP_SOCKET then TCP_SOCKET__RECVFROM
  else RAWIP_SOCKET__RECVFROM.

(** netlabel.c *)
Definition selinux_netlbl_sock_rcv_skb (k : sk_security) (family : Z) : hook Z :=
  enabled ← netlbl_enabled;
  if negb enabled then Ret 0
  else
    '(rc, a, _) ← netlbl_skbuff_getattr family;
    '(rc, nlbl_sid) ← (if (rc =? 0) && negb (sa_flags a =? 0) then selinux_netlbl_sidlookup_cached a 0
                       else Ret (rc, SECINITSID_UNLABELED));
    if negb (rc =? 0) then Ret rc
    else
      rc ← avc_has_perm (sk_sid k) nlbl_sid (sk_sclass k) (recvfrom_perm (sk_sclass k)) ad_other;
      if rc =? 0 then Ret 0
      else
        _ ← (if negb (nlbl_sid =? SECINITSID_UNLABELED) then selinux_netlbl_err rc 0 else Ret 0);
        Ret rc.

Definition selinux_sock_rcv_skb_compat (k : sk_security) (skb : skbuff) (family : Z) : hook Z :=
  '(err, _, _) ← selinux_parse_skb skb family true 0;
  if nz err then Ret err
  else
    secmark ← selinux_secmark_enabled;
    err ← (if secmark : bool then avc_has_perm (sk_sid k) (skb_secmark skb) SECCLASS_PACKET PACKET__RECV ad_other else Ret 0);
    if nz err then Ret err
    else
      err ← selinux_netlbl_sock_rcv_skb k family;
      if nz err then Ret err else selinux_xfrm_sock_rcv_skb (sk_sid k) (skb_sp skb).

(** The family of the packet: IPv4 packets may arrive at an IPv6 socket. *)
Definition packet_family (sk : sock) (skb : skbuff) : Z :=
  if (sk_family sk =? PF_INET6) && (skb_protocol skb =? ETH_P_IP) then PF_INET else sk_family sk.

(** The checks of the label of the peer: [inl] is a value to return, [inr] the
    one to go on with in [err]. *)
Definition rcv_peer_checks (k : sk_security) (skb : skbuff) (addrp : option (list Z)) (family : Z) (stack : Z * Z) : hook (Z + Z) :=
  '(err, peer_sid) ← selinux_skb_peerlbl_sid skb family stack 0;
  if nz err then Ret (inl err)
  else
    err ← selinux_inet_sys_rcv_skb (skb_iif skb) addrp family peer_sid;
    if nz err then _ ← selinux_netlbl_err err 0; Ret (inl err)
    else
      err ← avc_has_perm (sk_sid k) peer_sid SECCLASS_PEER PEER__RECV ad_other;
      _ ← (if nz err then selinux_netlbl_err err 0 else Ret 0);
      Ret (inr err).

Definition selinux_socket_sock_rcv_skb (sk : sock) (skb : skbuff) (stack : Z * Z) : hook Z :=
  let k := sk_sec sk in
  if negb (sk_family sk =? PF_INET) && negb (sk_family sk =? PF_INET6) then Ret 0
  else
    let family := packet_family sk skb in
    netpeer ← ask_bool (Global g_policycap_netpeer);
    if negb netpeer then selinux_sock_rcv_skb_compat k skb family
    else
      secmark_active ← selinux_secmark_enabled;
      peerlbl_active ← peerlbl_enabled;
      if negb secmark_active && negb peerlbl_active then Ret 0
      else
        '(err, addrp, _) ← selinux_parse_skb skb family true 0;
        if nz err then Ret err
        else
          r ← (if peerlbl_active : bool then rcv_peer_checks k skb addrp family stack else Ret (inr 0));
          match r with
          | inl err => Ret err
          | inr err =>
              if secmark_active : bool then avc_has_perm (sk_sid k) (skb_secmark skb) SECCLASS_PACKET PACKET__RECV ad_other
              else Ret err
          end.

(** ** Connections *)

(** [struct request_sock]: the labels the new socket will have. *)
Definition selinux_inet_conn_request (sk : sock) (skb : skbuff) (stack : Z * Z) (req : Z * Z) : hook (Z * (Z * Z)) :=
  let family := packet_family sk skb in
  '(err, peersid) ← selinux_skb_peerlbl_sid skb family stack 0;
  if nz err then Ret (err, req)
  else if peersid =? SECSID_NULL then
    err ← selinux_netlbl_inet_conn_request (sk_sid (sk_sec sk)) family;
    Ret (err, (sk_sid (sk_sec sk), SECSID_NULL))
  else
    '(err, newsid) ← security_sid_mls_copy (sk_sid (sk_sec sk)) peersid 0;
    if nz err then Ret (err, req)
    else
      err ← selinux_netlbl_inet_conn_request newsid family;
      Ret (err, (newsid, peersid)).

(** [family]: the one of the request. *)
Definition selinux_inet_csk_clone (newk : sk_security) (req : Z * Z) (family : Z) : sk_security :=
  selinux_netlbl_inet_csk_clone (set_sk_peer_sid (set_sk_sid newk req.1) req.2) family.

Definition selinux_inet_conn_established (sk : sock) (skb : skbuff) (stack : Z * Z) : hook sk_security :=
  '(_, peer_sid) ← selinux_skb_peerlbl_sid skb (packet_family sk skb) stack (sk_peer_sid (sk_sec sk));
  Ret (set_sk_peer_sid (sk_sec sk) peer_sid).

(** The inode of [sock], and its family. *)
Definition selinux_socket_getpeersec_dgram (sock : option (inode_security * Z)) (skb : option skbuff) (stack : Z * Z) : hook (Z * Z) :=
  let family :=
    match skb, sock with
    | Some s, _ => if skb_protocol s =? ETH_P_IP then Some PF_INET
                   else if skb_protocol s =? ETH_P_IPV6 then Some PF_INET6
                   else snd <$> sock
    | None, _ => snd <$> sock
    end in
  peer_secid ← (match family, sock, skb with
                | None, _, _ => Ret SECSID_NULL
                | Some f, Some (isec, _), _ =>
                    if f =? PF_UNIX then Ret (i_sid isec)
                    else match skb with
                         | Some s => '(_, p) ← selinux_skb_peerlbl_sid s f stack SECSID_NULL; Ret p
                         | None => Ret SECSID_NULL
                         end
                | Some f, None, Some s => '(_, p) ← selinux_skb_peerlbl_sid s f stack SECSID_NULL; Ret p
                | Some _, None, None => Ret SECSID_NULL
                end);
  Ret (if peer_secid =? SECSID_NULL then - EINVAL else 0, peer_secid).

Definition selinux_secmark_relabel_packet (cur : task) (new : Z) : hook Z :=
  avc_has_perm (sid (t_cred cur)) new SECCLASS_PACKET PACKET__RELABELTO None.

(** ** Forwarding and sending *)

Definition NF_DROP : Z := 0.
Definition NF_ACCEPT : Z := 1.
Definition NF_DROP_ERR (x : Z) : Z := ((- x) .<< 16) .| NF_DROP.
Definition ECONNREFUSED : Z := 111.

(** netlabel.c *)
Definition selinux_netlbl_skbuff_setsid (skb : skbuff) (sid : Z) : hook Z :=
  let set a := netlbl_setattr "netlbl_skbuff_setattr" a in
  let from_sid :=
    (an ← Call (NetlblSidToSecattr sid netlbl_secattr_init) Ret;
     if negb (an_rc an =? 0) then Ret (an_rc an) else set (default netlbl_secattr_init (an_attr an))) in
  match skb_sk skb with
  | Some k =>
      if negb (bool_decide (sk_nlbl_state k = NLBL_REQSKB)) then Ret 0
      else match sk_nlbl_secattr k with Some a => set a | None => from_sid end
  | None => from_sid
  end.

Definition selinux_ip_forward (skb : skbuff) (ifindex family : Z) (stack : Z * Z) : hook Z :=
  netpeer ← ask_bool (Global g_policycap_netpeer);
  if negb netpeer then Ret NF_ACCEPT
  else
    secmark_active ← selinux_secmark_enabled;
    netlbl_active ← netlbl_enabled;
    peerlbl_active ← (if netlbl_active : bool then Ret true else selinux_xfrm_enabled);
    if negb secmark_active && negb peerlbl_active then Ret NF_ACCEPT
    else
      '(err, peer_sid) ← selinux_skb_peerlbl_sid skb family stack 0;
      if negb (err =? 0) then Ret NF_DROP
      else
        '(err, addrp, _) ← selinux_parse_skb skb family true 0;
        if negb (err =? 0) then Ret NF_DROP
        else
          err ← (if peerlbl_active : bool then selinux_inet_sys_rcv_skb ifindex addrp family peer_sid else Ret 0);
          if nz err then _ ← selinux_netlbl_err err 1; Ret NF_DROP
          else
            err ← (if secmark_active : bool
                   then avc_has_perm peer_sid (skb_secmark skb) SECCLASS_PACKET PACKET__FORWARD_IN ad_other else Ret 0);
            if nz err then Ret NF_DROP
            else
              err ← (if netlbl_active : bool then selinux_netlbl_skbuff_setsid skb peer_sid else Ret 0);
              if negb (err =? 0) then Ret NF_DROP else Ret NF_ACCEPT.

Definition selinux_ip_output (skb : skbuff) : hook Z :=
  enabled ← netlbl_enabled;
  if negb enabled then Ret NF_ACCEPT
  else
    let sid := match skb_sk skb with Some k => sk_sid k | None => SECINITSID_KERNEL end in
    err ← selinux_netlbl_skbuff_setsid skb sid;
    if negb (err =? 0) then Ret NF_DROP else Ret NF_ACCEPT.

(** [proto]: what the uninitialized variable holds. *)
Definition selinux_ip_postroute_compat (skb : skbuff) (family proto : Z) : hook Z :=
  match skb_sk skb with
  | None => Ret NF_ACCEPT
  | Some k =>
      '(err, _, proto) ← selinux_parse_skb skb family false proto;
      if nz err then Ret NF_DROP
      else
        secmark ← selinux_secmark_enabled;
        err ← (if secmark : bool then avc_has_perm (sk_sid k) (skb_secmark skb) SECCLASS_PACKET PACKET__SEND ad_other else Ret 0);
        if nz err then Ret (NF_DROP_ERR (- ECONNREFUSED))
        else
          err ← selinux_xfrm_postroute_last (sk_sid k) (default [] (skb_dst skb)) proto;
          if nz err then Ret (NF_DROP_ERR (- ECONNREFUSED)) else Ret NF_ACCEPT
  end.

(** The packet is still to be transformed by IPsec. *)
Definition xfrm_pending (skb : skbuff) : bool :=
  match skb_dst skb with Some (Some _ :: _) => true | _ => false end.

(** The label of the sender and the permission the mark of the packet needs. *)
Definition postroute_peer (skb : skbuff) (family : Z) (stack : Z * Z) : hook (Z * Z * Z) :=
  match skb_sk skb with
  | Some k => Ret (0, sk_sid k, PACKET__SEND)
  | None =>
      if nz (skb_iif skb) then
        '(err, peer_sid) ← selinux_skb_peerlbl_sid skb family stack 0;
        Ret (err, peer_sid, PACKET__FORWARD_OUT)
      else Ret (0, SECINITSID_KERNEL, PACKET__SEND)
  end.

Definition selinux_ip_postroute (skb : skbuff) (ifindex family : Z) (stack : Z * Z) (proto : Z) : hook Z :=
  netpeer ← ask_bool (Global g_policycap_netpeer);
  if negb netpeer then selinux_ip_postroute_compat skb family proto
  else if xfrm_pending skb then Ret NF_ACCEPT
  else
    secmark_active ← selinux_secmark_enabled;
    peerlbl_active ← peerlbl_enabled;
    if negb secmark_active && negb peerlbl_active then Ret NF_ACCEPT
    else
      '(err, peer_sid, secmark_perm) ← postroute_peer skb family stack;
      if nz err then Ret NF_DROP
      else
        '(err, addrp, _) ← selinux_parse_skb skb family false 0;
        if nz err then Ret NF_DROP
        else
          err ← (if secmark_active : bool then avc_has_perm peer_sid (skb_secmark skb) SECCLASS_PACKET secmark_perm ad_other else Ret 0);
          if nz err then Ret (NF_DROP_ERR (- ECONNREFUSED))
          else if peerlbl_active : bool then
            '(err, if_sid) ← ask_sid (NetifSid ifindex) 0;
            if nz err then Ret NF_DROP
            else
              err ← avc_has_perm peer_sid if_sid SECCLASS_NETIF NETIF__EGRESS ad_other;
              if nz err then Ret (NF_DROP_ERR (- ECONNREFUSED))
              else
                '(err, node_sid) ← ask_sid (NetnodeSid (default [] addrp) family) 0;
                if nz err then Ret NF_DROP
                else
                  err ← avc_has_perm peer_sid node_sid SECCLASS_NODE NODE__SENDTO ad_other;
                  Ret (if nz err then NF_DROP_ERR (- ECONNREFUSED) else NF_ACCEPT)
          else Ret NF_ACCEPT.

(** ** Properties *)

(** What the answers say: labels in use, and the SID they give for a call. *)
Definition secmark_active (ans : call -> answer) : bool := 0 <? an_rc (ans (Global g_secmark_refcount)).
Definition peerlbl_active (ans : call -> answer) : bool :=
  nz (an_rc (ans (Outside "netlbl_enabled" []))) || (0 <? an_rc (ans (Global g_xfrm_refcount))).
Definition sid_by (ans : call -> answer) (c : call) : Z := default 0 (an_out (ans c)).

(** The label of the peer was granted to come in through the interface, and
    from the source address in the packet. *)
Definition ingress_checked (ans : call -> answer) (tr : trace) (skb : skbuff) (ifindex family peer : Z) : Prop :=
  exists addr proto, eval ans (selinux_parse_skb skb family true 0) = Some (0, addr, proto) /\
    granted tr peer (sid_by ans (NetifSid ifindex)) SECCLASS_NETIF NETIF__INGRESS /\
    granted tr peer (sid_by ans (NetnodeSid (default [] addr) family)) SECCLASS_NODE NODE__RECVFROM.

Lemma peerlbl_enabled_by ans tr b : runs_by ans peerlbl_enabled tr b -> b = peerlbl_active ans.
Proof.
  unfold peerlbl_enabled, netlbl_enabled, selinux_xfrm_enabled, peerlbl_active. intros H. run_by H.
  match goal with H : runs_by _ (ask_bool _) _ _ |- _ => run_by H; run_by H; run_by H end. simplify_eq/=.
  destruct (nz _); cbn; repeat run_by H; by simplify_eq/=.
Qed.

Lemma secmark_enabled_by ans tr b : runs_by ans selinux_secmark_enabled tr b -> b = secmark_active ans.
Proof. unfold selinux_secmark_enabled. intros H. by repeat run_by H. Qed.

Lemma inet_sys_rcv_granted ans ifindex addr family peer tr :
  runs_by ans (selinux_inet_sys_rcv_skb ifindex addr family peer) tr 0 ->
  granted tr peer (sid_by ans (NetifSid ifindex)) SECCLASS_NETIF NETIF__INGRESS /\
  granted tr peer (sid_by ans (NetnodeSid (default [] addr) family)) SECCLASS_NODE NODE__RECVFROM.
Proof.
  unfold selinux_inet_sys_rcv_skb, ask_sid, avc_has_perm, avc_has_perm_flags. intros H. run_by_all. split; eauto with hooks.
Qed.

(** What has to be granted when a packet is received by a socket. *)
Definition receive_checked (ans : call -> answer) (tr : trace) (sk : sock) (skb : skbuff) (stack : Z * Z) : Prop :=
  let family := packet_family sk skb in
  (peerlbl_active ans = true -> exists peer,
     eval ans (selinux_skb_peerlbl_sid skb family stack 0) = Some (0, peer) /\
     ingress_checked ans tr skb (skb_iif skb) family peer /\
     (secmark_active ans = false -> granted tr (sk_sid (sk_sec sk)) peer SECCLASS_PEER PEER__RECV)) /\
  (secmark_active ans = true -> granted tr (sk_sid (sk_sec sk)) (skb_secmark skb) SECCLASS_PACKET PACKET__RECV).

Lemma ask_bool_by ans c tr b : runs_by ans (ask_bool c) tr b -> b = nz (an_rc (ans c)).
Proof. unfold ask_bool. intros H. by repeat run_by H. Qed.

Lemma rcv_peer_granted ans k skb addr family stack tr err :
  runs_by ans (rcv_peer_checks k skb addr family stack) tr (inr err) ->
  exists peer, eval ans (selinux_skb_peerlbl_sid skb family stack 0) = Some (0, peer) /\
    granted tr peer (sid_by ans (NetifSid (skb_iif skb))) SECCLASS_NETIF NETIF__INGRESS /\
    granted tr peer (sid_by ans (NetnodeSid (default [] addr) family)) SECCLASS_NODE NODE__RECVFROM /\
    (err = 0 -> granted tr (sk_sid k) peer SECCLASS_PEER PEER__RECV).
Proof.
  unfold rcv_peer_checks. intros H.
  apply runs_by_bind in H as (t1 & tr1 & [e peer] & -> & Hp & H). apply runs_by_eval in Hp.
  destruct (nz e) eqn:Ee; [run_by_all|]. apply nz_false in Ee as ->. exists peer. split; [done|].
  apply runs_by_bind in H as (t2 & tr2 & e & -> & Hi & H). destruct (nz e) eqn:Ee; [unfold selinux_netlbl_err in H; run_by_all|].
  apply nz_false in Ee as ->. apply inet_sys_rcv_granted in Hi as [Hi1 Hi2].
  split; [eauto with hooks|]. split; [eauto with hooks|]. intros ->.
  unfold avc_has_perm, avc_has_perm_flags, selinux_netlbl_err in H. run_by_all; eauto with hooks.
Qed.

(** A value that is returned at once is an error. *)
Lemma rcv_peer_error ans k skb addr family stack tr err :
  runs_by ans (rcv_peer_checks k skb addr family stack) tr (inl err) -> nz err = true.
Proof.
  unfold rcv_peer_checks. intros H. apply runs_by_bind in H as (t1 & tr1 & [e peer] & -> & _ & H).
  destruct (nz e) eqn:Ee; [by run_by_all|]. apply runs_by_bind in H as (t2 & tr2 & e' & -> & _ & H).
  destruct (nz e') eqn:Ee'; unfold selinux_netlbl_err in H; by run_by_all.
Qed.


(** What has to be granted when a packet leaves through an interface. *)
Definition send_checked (ans : call -> answer) (tr : trace) (skb : skbuff) (ifindex family : Z) (stack : Z * Z) : Prop :=
  secmark_active ans || peerlbl_active ans = true -> exists peer perm,
    eval ans (postroute_peer skb family stack) = Some (0, peer, perm) /\
    (secmark_active ans = true -> granted tr peer (skb_secmark skb) SECCLASS_PACKET perm) /\
    (peerlbl_active ans = true -> exists addr proto,
       eval ans (selinux_parse_skb skb family false 0) = Some (0, addr, proto) /\
       granted tr peer (sid_by ans (NetifSid ifindex)) SECCLASS_NETIF NETIF__EGRESS /\
       granted tr peer (sid_by ans (NetnodeSid (default [] addr) family)) SECCLASS_NODE NODE__SENDTO).

(** Sent packets: a packet that leaves through an interface, and is not to be
    transformed by IPsec any more, was granted for the label of its sender (the
    socket, the peer it was forwarded from, or the kernel) with its mark, on
    this interface, and to its destination address. *)
Theorem packet_sent_checked ans skb ifindex family stack proto tr :
  runs (selinux_ip_postroute skb ifindex family stack proto) tr NF_ACCEPT -> answered_by ans tr ->
  nz (an_rc (ans (Global g_policycap_netpeer))) = true -> xfrm_pending skb = false ->
  send_checked ans tr skb ifindex family stack.
Proof.
  intros H A Hn Hx Hact. assert (runs_by ans (selinux_ip_postroute skb ifindex family stack proto) tr NF_ACCEPT) as Hr by done. clear H A.
  unfold selinux_ip_postroute in Hr.
  apply runs_by_bind in Hr as (t1 & tr1 & np & -> & Hnp & Hr). apply ask_bool_by in Hnp as ->. rewrite Hn, Hx in Hr. cbn [negb] in Hr.
  apply runs_by_bind in Hr as (t2 & tr2 & sm & -> & Hsm & Hr). apply secmark_enabled_by in Hsm as ->.
  apply runs_by_bind in Hr as (t3 & tr3 & pl & -> & Hpl & Hr). apply peerlbl_enabled_by in Hpl as ->.
  rewrite <- negb_orb, Hact in Hr. cbn [negb] in Hr. clear Hact.
  apply runs_by_bind in Hr as (t4 & tr4 & [[e peer] perm] & -> & Hp & Hr). apply runs_by_eval in Hp.
  destruct (nz e) eqn:Ee; [run_by_all|]. apply nz_false in Ee as ->.
  apply runs_by_bind in Hr as (t5 & tr5 & [[e addr] pr] & -> & Ha & Hr). apply runs_by_eval in Ha.
  destruct (nz e) eqn:Ee; [run_by_all|]. apply nz_false in Ee as ->.
  apply runs_by_bind in Hr as (t6 & tr6 & e & -> & Hm & Hr). destruct (nz e) eqn:Ee; [by apply runs_by_ret in Hr as [_ ?]|].
  apply nz_false in Ee as ->. exists peer, perm. split; [done|]. split.
  - intros Esm. rewrite Esm in Hm. clear Hr. run_by_all. eauto 10 with hooks.
  - clear Hm. intros Epl. rewrite Epl in Hr. exists addr, pr. split; [done|].
    run_by_all; match goal with H : NF_ACCEPT = if nz ?r then _ else _ |- _ => destruct (nz r) eqn:Er; [done|apply nz_false in Er] end.
    split; eauto 12 with hooks.
Qed.

(** ** Examples *)

(** A TCP packet from 10.0.0.1 to 10.0.0.2, from port 1025 to port 80, with mark 90. *)
Definition tcp_packet : list Z :=
  [0x45; 0; 0; 40; 0; 0; 0; 0; 64; 6; 0; 0; 10; 0; 0; 1; 10; 0; 0; 2] ++ [4; 1; 0; 80; 0; 0; 0; 0; 0; 0; 0; 0; 0x50; 0; 0; 0; 0; 0; 0; 0].
Definition tcp_skb : skbuff := mk_skbuff tcp_packet 20 0 ETH_P_IP 3 90 None None None.
Definition web_socket : sock := mk_sock PF_INET IPPROTO_TCP (mk_sk_security NLBL_UNSET None 40 3 SECCLASS_TCP_SOCKET).

Example tcp_packet_parsed :
  selinux_parse_skb_ipv4 tcp_skb = inr (mk_net_info [10; 0; 0; 1] [10; 0; 0; 2] (Some (1025, 80)), IPPROTO_TCP).
Proof. vm_compute. reflexivity. Qed.

(** Everything is granted; the peer has label 50, the interface 70 and the node 80. *)
Definition net_answers (c : call) : answer :=
  match c with
  | Global g_policycap_netpeer | Global g_secmark_refcount => rc_only 1
  | Outside f _ => if String.eqb f "netlbl_enabled" then rc_only 1
                   else mk_answer_attr 0 (Some 1) None None None (Some (mk_secattr NETLBL_SECATTR_SECID None None Null 0 50))
  | NetlblSecattrToSid a => mk_answer_attr 0 (Some (sa_secid a)) None None None (Some a)
  | PeersidResolve nlbl_sid _ _ => mk_answer 0 (Some nlbl_sid) None None None
  | NetifSid _ => mk_answer 0 (Some 70) None None None
  | NetnodeSid _ _ => mk_answer 0 (Some 80) None None None
  | _ => rc_only 0
  end.

Definition received_trace : trace :=
  match with_answers net_answers (selinux_socket_sock_rcv_skb web_socket tcp_skb (0, 0)) with Some (_, tr) => tr | None => [] end.

Lemma received_runs : runs (selinux_socket_sock_rcv_skb web_socket tcp_skb (0, 0)) received_trace 0.
Proof. by apply (with_answers_runs net_answers). Qed.

Lemma received_answers : answered_by net_answers received_trace.
Proof. by apply (with_answers_by net_answers (selinux_socket_sock_rcv_skb web_socket tcp_skb (0, 0)) 0). Qed.


(** The same, but the socket may not receive from the peer.  The packet is
    accepted: the result of the check is overwritten by the one for the mark. *)
Definition peer_denied (c : call) : answer :=
  match c with
  | HasPerm _ _ tclass _ _ _ => rc_only (if tclass =? SECCLASS_PEER then - EACCES else 0)
  | _ => net_answers c
  end.

Example denied_peer_accepted :
  eval peer_denied (selinux_socket_sock_rcv_skb web_socket tcp_skb (0, 0)) = Some 0 /\
  an_rc (peer_denied (HasPerm 40 50 SECCLASS_PEER PEER__RECV ad_other 0)) = - EACCES.
Proof. split; vm_compute; reflexivity. Qed.

(** The attributes of the packet cannot be translated to a SID: the label of the
    peer is what the variable on the stack held. *)
Definition lookup_fails (c : call) : answer :=
  match c with NetlblSecattrToSid _ => rc_only (- ENOMEM) | _ => net_answers c end.

Example stack_used_as_label junk :
  eval lookup_fails (selinux_skb_peerlbl_sid tcp_skb PF_INET (0, junk) 0) = Some (0, junk).
Proof. reflexivity. Qed.
