(* ===== verification/HookConn.v ===== *)
(** The two labels of a socket: the one of its inode, which the file hooks
    check, and the one of the [struct sock], which the socket hooks check.
    This file follows sockets from their creation over connections to the
    sockets that accepting connections gives. *)

From Stdlib Require Import String.
From S2P Require Import Prelude Sidtab Classmap Avc NetLabel Flask HookBase HookTask HookXfrm HookSock HookPacket.
Open Scope Z_scope.

(** Both labels are the same. *)
Definition labels_agree (isec : inode_security) (k : sk_security) : Prop :=
  i_initialized isec = true /\ i_sid isec = sk_sid k /\ i_sclass isec = sk_sclass k.

Lemma labels_agree_eq isec k k' : labels_agree isec k -> sk_sid k' = sk_sid k -> sk_sclass k' = sk_sclass k -> labels_agree isec k'.
Proof. unfold labels_agree. by intros (H1 & H2 & H3) -> ->. Qed.

(** A socket that is in use, with its inode.  It is created by a task or the
    kernel; a connection changes it; accepting a connection gives another one.
    [selinux_sk_clone_security] gives a connection of the internet families
    the labels of the listening socket before [selinux_inet_csk_clone]. *)
Inductive live : inode_security -> sock -> Prop :=
| live_create cur isec0 sk0 family type protocol kern tr isec sk :
    runs (selinux_socket_post_create cur isec0 (Some sk0) family type protocol kern) tr (0, isec, Some sk) -> live isec sk
| live_connect cur isec sk address addrlen tr rc sk' :
    live isec sk -> runs (selinux_socket_connect cur sk address addrlen) tr (rc, sk') -> live isec sk'
| live_established isec sk skb stack tr k :
    live isec sk -> runs (selinux_inet_conn_established sk skb stack) tr k -> live isec (set_sk_sec sk k)
| live_unix_connect isec sk other newk tr rc k newk' :
    live isec sk -> runs (selinux_socket_unix_stream_connect (sk_sec sk) other newk) tr (rc, k, newk') -> live isec (set_sk_sec sk k)
| live_accept_inet cur isec sk skb stack req0 newk0 newisec0 tr1 tr2 req newisec sk' isec' :
    live isec sk -> sk_family sk = PF_INET \/ sk_family sk = PF_INET6 ->
    runs (selinux_inet_conn_request sk skb stack req0) tr1 (0, req) ->
    runs (selinux_socket_accept cur sk isec newisec0) tr2 (0, newisec) ->
    let newk := selinux_inet_csk_clone (selinux_sk_clone_security (sk_sec sk) newk0) req (packet_family sk skb) in
    selinux_sock_graft (mk_sock (sk_family sk) (sk_protocol sk) newk) newisec = (sk', isec') -> live isec' sk'
| live_accept_unix cur isec sk client newk newisec0 tr1 tr2 client' newk' newisec sk' isec' :
    live isec sk -> sk_family sk = PF_UNIX ->
    runs (selinux_socket_unix_stream_connect client (sk_sec sk) newk) tr1 (0, client', newk') ->
    runs (selinux_socket_accept cur sk isec newisec0) tr2 (0, newisec) ->
    selinux_sock_graft (mk_sock PF_UNIX (sk_protocol sk) newk') newisec = (sk', isec') -> live isec' sk'.

(** NetLabel changes its own fields only. *)
Lemma genattr_keeps k tr a k' :
  runs (selinux_netlbl_sock_genattr k) tr (a, k') -> sk_sid k' = sk_sid k /\ sk_sclass k' = sk_sclass k.
Proof. unfold selinux_netlbl_sock_genattr. intros H. run_all; done. Qed.

Lemma netlbl_post_create_keeps k family tr rc k' :
  runs (selinux_netlbl_socket_post_create k family) tr (rc, k') -> sk_sid k' = sk_sid k /\ sk_sclass k' = sk_sclass k.
Proof.
  unfold selinux_netlbl_socket_post_create, netlbl_setattr. intros H. destruct (negb _); [run_all; done|].
  apply runs_bind in H as (t1 & t2 & [a k1] & -> & Hg & H). apply genattr_keeps in Hg as [<- <-]. run_all; done.
Qed.

Lemma netlbl_connect_keeps k family tr rc k' :
  runs (selinux_netlbl_socket_connect k family) tr (rc, k') -> sk_sid k' = sk_sid k /\ sk_sclass k' = sk_sclass k.
Proof.
  unfold selinux_netlbl_socket_connect, netlbl_setattr. intros H. destruct (_ && _); [run_all; done|]. destruct (_ =? _); [run_all; done|].
  apply runs_bind in H as (t1 & t2 & [a k1] & -> & Hg & H). apply genattr_keeps in Hg as [<- <-].
  run_all; try done. by destruct (_ =? 0).
Qed.

Lemma post_create_agree cur isec0 sk0 family type protocol kern tr isec sk :
  runs (selinux_socket_post_create cur isec0 (Some sk0) family type protocol kern) tr (0, isec, Some sk) -> labels_agree isec (sk_sec sk).
Proof.
  unfold selinux_socket_post_create. cbv zeta. intros H. apply runs_bind in H as (t1 & t2 & [err newsid] & -> & _ & H).
  destruct (nz err) eqn:Ee; [run_all; done|]. apply runs_bind in H as (t3 & t4 & [err' k] & -> & Hp & H).
  apply netlbl_post_create_keeps in Hp as [H1 H2]. run_all. by split; [|split].
Qed.

Lemma connect_keeps cur sk address addrlen tr rc sk' :
  runs (selinux_socket_connect cur sk address addrlen) tr (rc, sk') ->
  sk_sid (sk_sec sk') = sk_sid (sk_sec sk) /\ sk_sclass (sk_sec sk') = sk_sclass (sk_sec sk).
Proof.
  unfold selinux_socket_connect. cbv zeta. intros H. apply runs_bind in H as (t1 & t2 & e & -> & _ & H).
  destruct (nz e); [run_all; done|]. apply runs_bind in H as (t3 & t4 & e' & -> & _ & H).
  destruct (nz e'); [run_all; done|]. apply runs_bind in H as (t5 & t6 & [e'' k] & -> & Hc & H).
  apply netlbl_connect_keeps in Hc. run_all. done.
Qed.

Lemma established_keeps sk skb stack tr k :
  runs (selinux_inet_conn_established sk skb stack) tr k -> sk_sid k = sk_sid (sk_sec sk) /\ sk_sclass k = sk_sclass (sk_sec sk).
Proof.
  unfold selinux_inet_conn_established. intros H. apply runs_bind in H as (t1 & t2 & [e p] & -> & _ & H). run_all. done.
Qed.

Lemma unix_connect_keeps sock other newk tr rc k newk' :
  runs (selinux_socket_unix_stream_connect sock other newk) tr (rc, k, newk') -> sk_sid k = sk_sid sock /\ sk_sclass k = sk_sclass sock.
Proof. unfold selinux_socket_unix_stream_connect, security_sid_mls_copy. cbv zeta. intros H. run_all; done. Qed.

(** [sock_graft] makes the labels of an accepted socket agree. *)
Lemma graft_agree cur sk isec newisec0 tr newisec new :
  runs (selinux_socket_accept cur sk isec newisec0) tr (0, newisec) ->
  sk_family new = PF_INET \/ sk_family new = PF_INET6 \/ sk_family new = PF_UNIX ->
  let '(sk', isec') := selinux_sock_graft new newisec in labels_agree isec' (sk_sec sk').
Proof.
  unfold selinux_socket_accept, selinux_sock_graft. intros H Hf.
  apply runs_bind in H as (t1 & t2 & e & -> & _ & H). destruct (nz e) eqn:Ee; run_all.
  by destruct Hf as [-> |[-> | ->]].
Qed.


(** ** Examples *)

Definition server_task : task := mk_task (mk_task_security 30 30 0 0 0 0) (mk_task_security 30 30 0 0 0 0).
Definition blank_inode : inode_security := mk_inode_security 30 3 SECCLASS_FILE false.
Definition blank_sock (family : Z) : sock := mk_sock family 0 (mk_sk_security NLBL_UNSET None 3 3 0).

(** Everything is granted; sockets of the task get label 40, and a connection
    from a peer gets label 41. *)
Definition conn_answers (c : call) : answer :=
  match c with
  | TransitionSid _ _ _ _ => mk_answer 0 (Some 40) None None None
  | SidMlsCopy _ _ => mk_answer 0 (Some 41) None None None
  | Kalloc => rc_only 1
  | _ => rc_only 0
  end.

Definition listening_inode : inode_security := mk_inode_security 30 40 SECCLASS_UNIX_STREAM_SOCKET true.
Definition listening : sock := mk_sock PF_UNIX 0 (mk_sk_security NLBL_UNSET None 40 3 SECCLASS_UNIX_STREAM_SOCKET).
Definition client : sk_security := mk_sk_security NLBL_UNSET None 50 3 SECCLASS_UNIX_STREAM_SOCKET.
Definition child : sk_security := mk_sk_security NLBL_UNSET None 41 50 0.
Definition trace_by {A} (p : hook A) : trace := match with_answers conn_answers p with Some (_, tr) => tr | None => [] end.

Lemma listening_live : live listening_inode listening.
Proof.
  eapply (live_create server_task blank_inode (blank_sock PF_UNIX) PF_UNIX SOCK_STREAM 0 false
    (trace_by (selinux_socket_post_create server_task blank_inode (Some (blank_sock PF_UNIX)) PF_UNIX SOCK_STREAM 0 false))).
  by apply (with_answers_runs conn_answers).
Qed.

Lemma accepted_live :
  live (mk_inode_security 30 41 SECCLASS_UNIX_STREAM_SOCKET true) (mk_sock PF_UNIX 0 (set_sk_sclass child SECCLASS_UNIX_STREAM_SOCKET)).
Proof.
  eapply (live_accept_unix server_task listening_inode listening client (sk_sec (blank_sock PF_UNIX)) blank_inode
    (trace_by (selinux_socket_unix_stream_connect client (sk_sec listening) (sk_sec (blank_sock PF_UNIX))))
    (trace_by (selinux_socket_accept server_task listening listening_inode blank_inode))).
  - exact listening_live.
  - done.
  - by apply (with_answers_runs conn_answers).
  - by apply (with_answers_runs conn_answers).
  - reflexivity.
Qed.


(** In other families the new socket keeps the label it was allocated with:
    here the inode has the label of the listening socket and the [struct sock]
    is unlabeled. *)
Example accepted_socket_unlabeled :
  let PF_BLUETOOTH := 31 in
  (newisec ← eval conn_answers (selinux_socket_accept server_task (mk_sock PF_BLUETOOTH 0 (sk_sec listening)) listening_inode blank_inode);
   newk ← (eval conn_answers selinux_sk_alloc_security ≫= snd);
   Some (let '(sk, isec) := selinux_sock_graft (mk_sock PF_BLUETOOTH 0 newk) newisec.2 in (i_sid isec, sk_sid (sk_sec sk))))
  = Some (40, SECINITSID_UNLABELED).
Proof. vm_compute. reflexivity. Qed.
