(* ===== verification/HookIpc.v ===== *)
(** System V IPC and keys (hooks.c), and the message queues of ipc/msg.c that
    call the hooks: a message reaches a task only if its sender was allowed to
    send it and the task to receive it. *)

From Stdlib Require Import String.
From S2P Require Import Prelude Sidtab Classmap Avc Flask HookBase HookTask.
Open Scope Z_scope.
Open Scope list_scope.

(** ** Objects *)

(** [struct ipc_security_struct] (include/objsec.h) *)
Record ipc_security := mk_ipc_security {
  ipc_sclass : Z;
  ipc_sid : Z
}.

Definition ipc_alloc_security (task : task) (sclass : Z) : hook (Z * option ipc_security) :=
  ok ← kernel_alloc;
  if negb ok then Ret (- ENOMEM, None) else Ret (0, Some (mk_ipc_security sclass (task_sid task))).

Definition ipc_has_perm (cur : task) (isec : ipc_security) (perms : Z) : hook Z :=
  avc_has_perm (current_sid cur) (ipc_sid isec) (ipc_sclass isec) perms ad_other.

(** [selinux_msg_queue_alloc_security], [selinux_shm_alloc_security] and
    [selinux_sem_alloc_security]. *)
Definition ipc_create (cur : task) (sclass create : Z) : hook (Z * option ipc_security) :=
  '(rc, isec) ← ipc_alloc_security cur sclass;
  match isec with
  | None => Ret (rc, None)
  | Some s =>
      rc ← avc_has_perm (current_sid cur) (ipc_sid s) sclass create ad_other;
      if nz rc then Ret (rc, None) else Ret (0, Some s)
  end.
Definition selinux_msg_queue_alloc_security (cur : task) := ipc_create cur SECCLASS_MSGQ MSGQ__CREATE.
Definition selinux_shm_alloc_security (cur : task) := ipc_create cur SECCLASS_SHM SHM__CREATE.
Definition selinux_sem_alloc_security (cur : task) := ipc_create cur SECCLASS_SEM SEM__CREATE.

Definition selinux_msg_queue_associate (cur : task) (isec : ipc_security) : hook Z :=
  avc_has_perm (current_sid cur) (ipc_sid isec) SECCLASS_MSGQ MSGQ__ASSOCIATE ad_other.
Definition selinux_shm_associate (cur : task) (isec : ipc_security) : hook Z :=
  avc_has_perm (current_sid cur) (ipc_sid isec) SECCLASS_SHM SHM__ASSOCIATE ad_other.
Definition selinux_sem_associate (cur : task) (isec : ipc_security) : hook Z :=
  avc_has_perm (current_sid cur) (ipc_sid isec) SECCLASS_SEM SEM__ASSOCIATE ad_other.

(** ** Commands *)

Definition IPC_RMID : Z := 0.
Definition IPC_SET : Z := 1.
Definition IPC_STAT : Z := 2.
Definition IPC_INFO : Z := 3.
Definition MSG_STAT : Z := 11.
Definition MSG_INFO : Z := 12.
Definition SHM_LOCK : Z := 11.
Definition SHM_UNLOCK : Z := 12.
Definition SHM_STAT : Z := 13.
Definition SHM_INFO : Z := 14.
Definition GETPID : Z := 11.
Definition GETVAL : Z := 12.
Definition GETALL : Z := 13.
Definition GETNCNT : Z := 14.
Definition GETZCNT : Z := 15.
Definition SETVAL : Z := 16.
Definition SETALL : Z := 17.
Definition SEM_STAT : Z := 18.
Definition SEM_INFO : Z := 19.

Definition selinux_msg_queue_msgctl (cur : task) (isec : ipc_security) (cmd : Z) : hook Z :=
  if (cmd =? IPC_INFO) || (cmd =? MSG_INFO) then task_has_system cur SYSTEM__IPC_INFO
  else if (cmd =? IPC_STAT) || (cmd =? MSG_STAT) then ipc_has_perm cur isec (MSGQ__GETATTR .| MSGQ__ASSOCIATE)
  else if cmd =? IPC_SET then ipc_has_perm cur isec MSGQ__SETATTR
  else if cmd =? IPC_RMID then ipc_has_perm cur isec MSGQ__DESTROY
  else Ret 0.

Definition selinux_shm_shmctl (cur : task) (isec : ipc_security) (cmd : Z) : hook Z :=
  if (cmd =? IPC_INFO) || (cmd =? SHM_INFO) then task_has_system cur SYSTEM__IPC_INFO
  else if (cmd =? IPC_STAT) || (cmd =? SHM_STAT) then ipc_has_perm cur isec (SHM__GETATTR .| SHM__ASSOCIATE)
  else if cmd =? IPC_SET then ipc_has_perm cur isec SHM__SETATTR
  else if (cmd =? SHM_LOCK) || (cmd =? SHM_UNLOCK) then ipc_has_perm cur isec SHM__LOCK
  else if cmd =? IPC_RMID then ipc_has_perm cur isec SHM__DESTROY
  else Ret 0.

Definition selinux_sem_semctl (cur : task) (isec : ipc_security) (cmd : Z) : hook Z :=
  if (cmd =? IPC_INFO) || (cmd =? SEM_INFO) then task_has_system cur SYSTEM__IPC_INFO
  else if (cmd =? GETPID) || (cmd =? GETNCNT) || (cmd =? GETZCNT) then ipc_has_perm cur isec SEM__GETATTR
  else if (cmd =? GETVAL) || (cmd =? GETALL) then ipc_has_perm cur isec SEM__READ
  else if (cmd =? SETVAL) || (cmd =? SETALL) then ipc_has_perm cur isec SEM__WRITE
  else if cmd =? IPC_RMID then ipc_has_perm cur isec SEM__DESTROY
  else if cmd =? IPC_SET then ipc_has_perm cur isec SEM__SETATTR
  else if (cmd =? IPC_STAT) || (cmd =? SEM_STAT) then ipc_has_perm cur isec (SEM__GETATTR .| SEM__ASSOCIATE)
  else Ret 0.

Definition SHM_RDONLY : Z := 0x1000.

Definition selinux_shm_shmat (cur : task) (isec : ipc_security) (shmflg : Z) : hook Z :=
  ipc_has_perm cur isec (if nz (shmflg .& SHM_RDONLY) then SHM__READ else SHM__READ .| SHM__WRITE).

Definition selinux_sem_semop (cur : task) (isec : ipc_security) (alter : bool) : hook Z :=
  ipc_has_perm cur isec (if alter then SEM__READ .| SEM__WRITE else SEM__READ).

Definition S_IRUGO : Z := 292.
Definition S_IWUGO : Z := 146.

Definition selinux_ipc_permission (cur : task) (isec : ipc_security) (flag : Z) : hook Z :=
  let av := (if nz (flag .& S_IRUGO) then IPC__UNIX_READ else 0) .| (if nz (flag .& S_IWUGO) then IPC__UNIX_WRITE else 0) in
  if av =? 0 then Ret 0 else ipc_has_perm cur isec av.

(** ** Messages *)

(** A message: its type, its size and its label; [msg_msg_alloc_security] sets
    the label to [SECINITSID_UNLABELED]. *)
Record msg_msg := mk_msg_msg {
  m_type : Z;
  m_ts : Z;
  m_sid : Z
}.
Definition set_m_sid (m : msg_msg) (v : Z) : msg_msg := mk_msg_msg (m_type m) (m_ts m) v.

Definition msg_msg_alloc_security (type ts : Z) : hook (Z * option msg_msg) :=
  ok ← kernel_alloc;
  if negb ok then Ret (- ENOMEM, None) else Ret (0, Some (mk_msg_msg type ts SECINITSID_UNLABELED)).

(** Result: the return value and the message. *)
Definition selinux_msg_queue_msgsnd (cur : task) (isec : ipc_security) (msg : msg_msg) : hook (Z * msg_msg) :=
  let sid := current_sid cur in
  '(rc, newsid) ← (if m_sid msg =? SECINITSID_UNLABELED
                   then security_transition_sid sid (ipc_sid isec) SECCLASS_MSG None (m_sid msg)
                   else Ret (0, m_sid msg));
  let msg := set_m_sid msg newsid in
  if nz rc then Ret (rc, msg)
  else
    rc ← avc_has_perm sid (ipc_sid isec) SECCLASS_MSGQ MSGQ__WRITE ad_other;
    rc ← (if nz rc then Ret rc else avc_has_perm sid (m_sid msg) SECCLASS_MSG MSG__SEND ad_other);
    rc ← (if nz rc then Ret rc else avc_has_perm (m_sid msg) (ipc_sid isec) SECCLASS_MSGQ MSGQ__ENQUEUE ad_other);
    Ret (rc, msg).

Definition selinux_msg_queue_msgrcv (isec : ipc_security) (msg : msg_msg) (target : task) : hook Z :=
  let sid := task_sid target in
  rc ← avc_has_perm sid (ipc_sid isec) SECCLASS_MSGQ MSGQ__READ ad_other;
  if nz rc then Ret rc else avc_has_perm sid (m_sid msg) SECCLASS_MSG MSG__RECEIVE ad_other.

(** ** Keys *)

(** The SID of the new key. *)
Definition selinux_key_alloc (cred : task_security) : hook (Z * option Z) :=
  ok ← kernel_alloc;
  if negb ok then Ret (- ENOMEM, None)
  else Ret (0, Some (if nz (keycreate_sid cred) then keycreate_sid cred else sid cred)).

Definition selinux_key_permission (cred : task_security) (key_sid perm : Z) : hook Z :=
  if perm =? 0 then Ret 0 else avc_has_perm (cred_sid cred) key_sid SECCLASS_KEY perm None.

Definition selinux_key_getsecurity (key_sid : Z) : hook (Z * option string) :=
  '(rc, context, len) ← security_sid_to_context key_sid;
  Ret (if nz rc then rc else len, context).

(** ** Message queues (ipc/msg.c) *)

Inductive search_mode := SEARCH_ANY | SEARCH_EQUAL | SEARCH_NOTEQUAL | SEARCH_LESSEQUAL.

(** [struct msg_receiver]: a task that waits for a message. *)
Record msg_receiver := mk_msg_receiver {
  r_tsk : task;
  r_mode : search_mode;
  r_msgtype : Z;
  r_maxsize : Z
}.

Record msg_queue := mk_msg_queue {
  q_perm : ipc_security;
  q_messages : list msg_msg;
  q_receivers : list msg_receiver;
  q_cbytes : Z;
  q_qbytes : Z
}.

Definition testmsg (msg : msg_msg) (type : Z) (mode : search_mode) : bool :=
  match mode with
  | SEARCH_ANY => true
  | SEARCH_LESSEQUAL => m_type msg <=? type
  | SEARCH_EQUAL => m_type msg =? type
  | SEARCH_NOTEQUAL => negb (m_type msg =? type)
  end.

(** The receivers that go on waiting, and the one that gets the message; one
    whose buffer is too small is woken up with an error. *)
Fixpoint pipelined_send (isec : ipc_security) (msg : msg_msg) (rs : list msg_receiver) : hook (list msg_receiver * option msg_receiver) :=
  match rs with
  | [] => Ret ([], None)
  | r :: rs' =>
      ok ← (if testmsg msg (r_msgtype r) (r_mode r)
            then rc ← selinux_msg_queue_msgrcv isec msg (r_tsk r); Ret (negb (nz rc)) else Ret false);
      if ok : bool then
        if r_maxsize r <? m_ts msg then pipelined_send isec msg rs'
        else Ret (rs', Some r)
      else
        '(rest, got) ← pipelined_send isec msg rs';
        Ret (r :: rest, got)
  end.

(** One turn of the loop of [do_msgsnd].  Result: the return value ([-EAGAIN]
    also for a task that will wait for room), the message with its label,
    the queue, and the receiver that was handed the message. *)
Definition do_msgsnd (cur : task) (q : msg_queue) (msg : msg_msg) : hook (Z * msg_msg * msg_queue * option msg_receiver) :=
  perm ← ask_rc (Outside "ipcperms" [S_IWUGO]);
  if nz perm then Ret (- EACCES, msg, q, None)
  else
    '(err, msg) ← selinux_msg_queue_msgsnd cur (q_perm q) msg;
    if nz err then Ret (err, msg, q, None)
    else if (m_ts msg + q_cbytes q <=? q_qbytes q) && (1 + Z.of_nat (length (q_messages q)) <=? q_qbytes q) then
      '(rs, got) ← pipelined_send (q_perm q) msg (q_receivers q);
      match got with
      | Some r => Ret (0, msg, mk_msg_queue (q_perm q) (q_messages q) rs (q_cbytes q) (q_qbytes q), Some r)
      | None => Ret (0, msg, mk_msg_queue (q_perm q) (q_messages q ++ [msg]) rs (q_cbytes q + m_ts msg) (q_qbytes q), None)
      end
    else Ret (- EAGAIN, msg, q, None).

(** The search for a message: its position.  With [SEARCH_LESSEQUAL] the search
    goes on for a smaller type. *)
Fixpoint find_message (isec : ipc_security) (cur : task) (i : nat) (msgs : list msg_msg) (msgtyp : Z) (mode : search_mode)
    (found : option (nat * msg_msg)) : hook (option (nat * msg_msg) * Z) :=
  match msgs with
  | [] => Ret (found, msgtyp)
  | m :: msgs' =>
      ok ← (if testmsg m msgtyp mode then rc ← selinux_msg_queue_msgrcv isec m cur; Ret (negb (nz rc)) else Ret false);
      if ok : bool then
        match mode with
        | SEARCH_LESSEQUAL =>
            if negb (m_type m =? 1) then find_message isec cur (S i) msgs' (m_type m - 1) mode (Some (i, m))
            else Ret (Some (i, m), msgtyp)
        | _ => Ret (Some (i, m), msgtyp)
        end
      else find_message isec cur (S i) msgs' msgtyp mode found
  end.

Definition E2BIG : Z := 7.
Definition INT_MAX : Z := 2147483647.

(** One turn of the loop of [do_msgrcv].  Result: the message or an error, and
    the queue; with [nowait] false a task that finds no message is put in the
    list of receivers and the error is [-EAGAIN]. *)
Definition do_msgrcv (cur : task) (q : msg_queue) (msgsz msgtyp : Z) (mode : search_mode) (noerror nowait : bool)
    : hook ((Z + msg_msg) * msg_queue) :=
  perm ← ask_rc (Outside "ipcperms" [S_IRUGO]);
  if nz perm then Ret (inl (- EACCES), q)
  else
    '(found, msgtyp) ← find_message (q_perm q) cur 0 (q_messages q) msgtyp mode None;
    match found with
    | Some (i, m) =>
        if (msgsz <? m_ts m) && negb noerror then Ret (inl (- E2BIG), q)
        else Ret (inr m, mk_msg_queue (q_perm q) (delete i (q_messages q)) (q_receivers q) (q_cbytes q - m_ts m) (q_qbytes q))
    | None =>
        if nowait then Ret (inl (- ENOMSG), q)
        else Ret (inl (- EAGAIN), mk_msg_queue (q_perm q) (q_messages q)
                    (q_receivers q ++ [mk_msg_receiver cur mode msgtyp (if noerror then INT_MAX else msgsz)]) (q_cbytes q) (q_qbytes q))
    end.

(** ** Messages are checked *)

(** A sender was granted to write to the queue and to send the message, and the
    message to be in the queue. *)
Definition sent_granted (log : trace) (isec : ipc_security) (m : msg_msg) : Prop :=
  exists sender, granted log sender (ipc_sid isec) SECCLASS_MSGQ MSGQ__WRITE /\
    granted log sender (m_sid m) SECCLASS_MSG MSG__SEND /\
    granted log (m_sid m) (ipc_sid isec) SECCLASS_MSGQ MSGQ__ENQUEUE.

(** The task was granted to read from the queue and to receive the message. *)
Definition received_granted (log : trace) (isec : ipc_security) (t : task) (m : msg_msg) : Prop :=
  granted log (task_sid t) (ipc_sid isec) SECCLASS_MSGQ MSGQ__READ /\
  granted log (task_sid t) (m_sid m) SECCLASS_MSG MSG__RECEIVE.

Lemma sent_granted_app_l log tr isec m : sent_granted log isec m -> sent_granted (log ++ tr) isec m.
Proof. intros (s & H1 & H2 & H3). exists s. split; [|split]; by apply granted_app_l. Qed.
Lemma sent_granted_app_r log tr isec m : sent_granted tr isec m -> sent_granted (log ++ tr) isec m.
Proof. intros (s & H1 & H2 & H3). exists s. split; [|split]; by apply granted_app_r. Qed.
Lemma received_granted_app_l log tr isec t m : received_granted log isec t m -> received_granted (log ++ tr) isec t m.
Proof. intros (H1 & H2). split; by apply granted_app_l. Qed.
Lemma received_granted_app_r log tr isec t m : received_granted tr isec t m -> received_granted (log ++ tr) isec t m.
Proof. intros (H1 & H2). split; by apply granted_app_r. Qed.
#[export] Hint Resolve sent_granted_app_l sent_granted_app_r received_granted_app_l received_granted_app_r : hooks.

Lemma msgsnd_granted cur isec msg tr msg' :
  runs (selinux_msg_queue_msgsnd cur isec msg) tr (0, msg') -> sent_granted tr isec msg'.
Proof.
  unfold selinux_msg_queue_msgsnd. cbv zeta. intros H. apply runs_bind in H as (t1 & t2 & [e s] & -> & _ & H).
  destruct (nz e) eqn:Ee; [run_all|]. exists (current_sid cur). run_all. split; [|split]; eauto 10 with hooks.
Qed.

Lemma msgrcv_granted isec msg t tr : runs (selinux_msg_queue_msgrcv isec msg t) tr 0 -> received_granted tr isec t msg.
Proof. unfold selinux_msg_queue_msgrcv. cbv zeta. intros H. run_all. split; eauto with hooks. Qed.

(** The test that both loops make. *)
Lemma tested_granted isec msg t (test : bool) tr ok :
  runs (if test then rc ← selinux_msg_queue_msgrcv isec msg t; Ret (negb (nz rc)) else Ret false) tr ok ->
  ok = true -> received_granted tr isec t msg.
Proof.
  intros H ->. destruct test; [|by destruct H]. apply runs_bind in H as (t1 & t2 & rc & -> & Hr & [-> E]).
  symmetry in E. apply negb_true_iff, nz_false in E. subst rc. rewrite app_nil_r. by apply msgrcv_granted.
Qed.

Lemma pipelined_send_granted isec msg rs tr rest r :
  runs (pipelined_send isec msg rs) tr (rest, Some r) -> received_granted tr isec (r_tsk r) msg.
Proof.
  revert tr rest. induction rs as [|r0 rs IH]; intros tr rest H; cbn in H; [by destruct H|].
  apply runs_bind in H as (t1 & t2 & ok & -> & Hok & H). destruct ok.
  - destruct (_ <? _); [eauto with hooks|]. destruct H as [-> E]. injection E as -> ->. apply tested_granted in Hok; eauto with hooks.
  - apply runs_bind in H as (t3 & t4 & [rest' got] & -> & Hp & [-> E]). injection E as -> <-.
    rewrite app_nil_r. eauto with hooks.
Qed.

Lemma find_message_granted isec cur i msgs msgtyp mode found tr j m typ :
  runs (find_message isec cur i msgs msgtyp mode found) tr (Some (j, m), typ) ->
  found = Some (j, m) \/ (i <= j)%nat /\ msgs !! (j - i)%nat = Some m /\ received_granted tr isec cur m.
Proof.
  revert i msgtyp found tr. induction msgs as [|m0 msgs IH]; intros i msgtyp found tr H; cbn in H.
  { destruct H as [-> E]. injection E as -> _. by left. }
  apply runs_bind in H as (t1 & t2 & ok & -> & Hok & H). destruct ok.
  - apply tested_granted in Hok; [|done].
    assert (Some (i, m0) = Some (j, m) ->
      (i <= j)%nat /\ (m0 :: msgs) !! (j - i)%nat = Some m /\ received_granted (t1 ++ t2) isec cur m) as Hhere.
    { intros E. injection E as -> ->. rewrite Nat.sub_diag. split; [lia|]. split; [done|]. eauto with hooks. }
    right. destruct mode; try (destruct H as [-> E]; apply Hhere; congruence).
    destruct (negb _); [|destruct H as [-> E]; apply Hhere; congruence].
    apply IH in H as [E|(Hle & Hm & Hg)]; [by apply Hhere|].
    split; [lia|]. split; [|eauto with hooks]. by replace (j - i)%nat with (S (j - S i)) by lia.
  - apply IH in H as [->|(Hle & Hm & Hg)]; [by left|right].
    split; [lia|]. split; [|eauto with hooks]. by replace (j - i)%nat with (S (j - S i)) by lia.
Qed.

(** A queue in use: the queue, what was asked and answered so far, and the
    messages that tasks have got.  Tasks send messages, which are handed to a
    waiting task or stored, and take stored ones. *)
Definition queue_state : Type := msg_queue * trace * list (task * msg_msg).

Inductive queue_step : queue_state -> queue_state -> Prop :=
| queue_send cur q log got msg tr rc msg' q' r :
    runs (do_msgsnd cur q msg) tr (rc, msg', q', r) ->
    queue_step (q, log, got) (q', log ++ tr, got ++ match r with Some r => [(r_tsk r, msg')] | None => [] end)
| queue_receive cur q log got msgsz msgtyp mode noerror nowait tr m q' :
    runs (do_msgrcv cur q msgsz msgtyp mode noerror nowait) tr (m, q') ->
    queue_step (q, log, got) (q', log ++ tr, got ++ match m with inr m => [(cur, m)] | inl _ => [] end).

Definition queue_inv (isec : ipc_security) (s : queue_state) : Prop :=
  q_perm s.1.1 = isec /\
  (forall m, m ∈ q_messages s.1.1 -> sent_granted s.1.2 isec m) /\
  (forall t m, (t, m) ∈ s.2 -> sent_granted s.1.2 isec m /\ received_granted s.1.2 isec t m).

(** What one turn of sending changes. *)
Lemma msgsnd_outcome cur q msg tr rc msg' q' r :
  runs (do_msgsnd cur q msg) tr (rc, msg', q', r) ->
  q_perm q' = q_perm q /\
  match r with
  | Some r => q_messages q' = q_messages q /\ sent_granted tr (q_perm q) msg' /\ received_granted tr (q_perm q) (r_tsk r) msg'
  | None => q_messages q' = q_messages q \/ q_messages q' = q_messages q ++ [msg'] /\ sent_granted tr (q_perm q) msg'
  end.
Proof.
  unfold do_msgsnd, ask_rc. intros H. apply runs_bind in H as (t1 & t2 & perm & -> & _ & H).
  destruct (nz perm); [destruct H as [-> E]; injection E as -> -> -> ->; by split; [|left]|].
  apply runs_bind in H as (t3 & t4 & [err m1] & -> & Hs & H).
  destruct (nz err) eqn:Ee; [destruct H as [-> E]; injection E as -> -> -> ->; by split; [|left]|]. apply nz_false in Ee as ->.
  apply msgsnd_granted in Hs. destruct (_ && _); [|destruct H as [-> E]; injection E as -> -> -> ->; by split; [|left]].
  apply runs_bind in H as (t5 & t6 & [rs got] & -> & Hp & H).
  destruct got as [r0|]; destruct H as [-> E]; injection E as -> -> -> ->; cbn.
  - apply pipelined_send_granted in Hp. split; [done|]. split; [done|]. split; eauto 10 with hooks.
  - split; [done|]. right. split; [done|]. eauto 10 with hooks.
Qed.

Lemma msgrcv_outcome cur q msgsz msgtyp mode noerror nowait tr m q' :
  runs (do_msgrcv cur q msgsz msgtyp mode noerror nowait) tr (m, q') ->
  q_perm q' = q_perm q /\ q_messages q' ⊆ q_messages q /\
  match m with inr m => m ∈ q_messages q /\ received_granted tr (q_perm q) cur m | inl _ => True end.
Proof.
  unfold do_msgrcv, ask_rc. intros H. apply runs_bind in H as (t1 & t2 & perm & -> & _ & H).
  destruct (nz perm); [destruct H as [-> E]; injection E as -> ->; done|].
  apply runs_bind in H as (t3 & t4 & [[[i m0]|] typ] & -> & Hf & H).
  - destruct (_ && _); destruct H as [-> E]; injection E as -> ->; [done|]. split; [done|]. cbn [q_messages].
    apply find_message_granted in Hf as [?|(_ & Hm & Hg)]; [done|]. rewrite Nat.sub_0_r in Hm.
    split; [apply sublist_subseteq, sublist_delete|]. split; [by eapply list_elem_of_lookup_2|eauto with hooks].
  - destruct nowait; destruct H as [-> E]; injection E as -> ->; done.
Qed.

Lemma queue_inv_step isec s s' : queue_step s s' -> queue_inv isec s -> queue_inv isec s'.
Proof.
  intros [cur q log got msg tr rc msg' q' r H|cur q log got msgsz msgtyp mode noerror nowait tr m q' H] (<- & Hm & Hg); cbn in *.
  - apply msgsnd_outcome in H as [Hq Hr]. split; [done|]. cbn. split.
    + intros m Hin. destruct r as [r|]; [destruct Hr as [E _]; rewrite E in Hin; eauto with hooks|].
      destruct Hr as [E|[E Hs]]; rewrite E in Hin; [eauto with hooks|].
      apply elem_of_app in Hin as [Hin|Hin%list_elem_of_singleton]; [|subst m]; eauto with hooks.
    + intros t m Hin. apply elem_of_app in Hin as [Hin|Hin]; [destruct (Hg _ _ Hin); split; eauto with hooks|].
      destruct r as [r|]; [|by apply elem_of_nil in Hin]. apply list_elem_of_singleton in Hin. injection Hin as -> ->.
      destruct Hr as (_ & Hs & Hv). split; eauto with hooks.
  - apply msgrcv_outcome in H as (Hq & Hsub & Hr). split; [done|]. cbn. split; [eauto with hooks|].
    intros t m' Hin. apply elem_of_app in Hin as [Hin|Hin]; [destruct (Hg _ _ Hin); split; eauto with hooks|].
    destruct m as [|m]; [by apply elem_of_nil in Hin|]. apply list_elem_of_singleton in Hin. injection Hin as -> ->.
    destruct Hr as [Hin Hv]. split; eauto with hooks.
Qed.

(** C17: messages between tasks.  From an empty queue on, whatever tasks send and
    receive and in whatever order, a task gets a message only if a sender was
    granted to send it to the queue and the task to receive it from there. *)
Theorem message_flow_granted q q' log got t m :
  q_messages q = [] -> rtc queue_step (q, [], []) (q', log, got) -> (t, m) ∈ got ->
  sent_granted log (q_perm q) m /\ received_granted log (q_perm q) t m.
Proof.
  intros He Hr Hin.
  assert (queue_inv (q_perm q) (q', log, got)) as (_ & _ & Hg).
  { assert (queue_inv (q_perm q) (q, [], [])) as H0.
    { split; [done|]. cbn. rewrite He. split; intros; by match goal with H : _ ∈ [] |- _ => apply elem_of_nil in H end. }
    revert H0. clear He Hin. induction Hr as [x|x y z Hs _ IH]; [done|]. intros H0. apply IH. by eapply queue_inv_step. }
  by apply Hg.
Qed.

(** ** Examples *)

Definition ipc_task (s : Z) : task := mk_task (mk_task_security s s 0 0 0 0) (mk_task_security s s 0 0 0 0).

(** Everything is granted and messages get label 70. *)
Definition ipc_answers (c : call) : answer :=
  match c with TransitionSid _ _ _ _ => mk_answer 0 (Some 70) None None None | _ => rc_only 0 end.
Definition ipc_trace {A} (p : hook A) : trace := match with_answers ipc_answers p with Some (_, tr) => tr | None => [] end.

Definition empty_queue : msg_queue := mk_msg_queue (mk_ipc_security SECCLASS_MSGQ 60) [] [] 0 16384.
Definition new_message : msg_msg := mk_msg_msg 2 10 SECINITSID_UNLABELED.
Definition full_queue : msg_queue := mk_msg_queue (mk_ipc_security SECCLASS_MSGQ 60) [set_m_sid new_message 70] [] 10 16384.
Definition exchange_log : trace :=
  ipc_trace (do_msgsnd (ipc_task 30) empty_queue new_message) ++ ipc_trace (do_msgrcv (ipc_task 31) full_queue 100 0 SEARCH_ANY false true).

Lemma exchange_steps : rtc queue_step (empty_queue, [], []) (empty_queue, exchange_log, [(ipc_task 31, set_m_sid new_message 70)]).
Proof.
  eapply rtc_l.
  { apply (queue_send (ipc_task 30) empty_queue [] [] new_message (ipc_trace (do_msgsnd (ipc_task 30) empty_queue new_message))
             0 (set_m_sid new_message 70) full_queue None). by apply (with_answers_runs ipc_answers). }
  eapply rtc_l; [|apply rtc_refl].
  apply (queue_receive (ipc_task 31) full_queue _ [] 100 0 SEARCH_ANY false true
           (ipc_trace (do_msgrcv (ipc_task 31) full_queue 100 0 SEARCH_ANY false true)) (inr (set_m_sid new_message 70)) empty_queue).
  by apply (with_answers_runs ipc_answers).
Qed.

Lemma message_flow_granted_witness :
  sent_granted exchange_log (mk_ipc_security SECCLASS_MSGQ 60) (set_m_sid new_message 70) /\
  received_granted exchange_log (mk_ipc_security SECCLASS_MSGQ 60) (ipc_task 31) (set_m_sid new_message 70).
Proof.
  refine (message_flow_granted empty_queue empty_queue exchange_log _ (ipc_task 31) (set_m_sid new_message 70) eq_refl exchange_steps _).
  apply list_elem_of_here.
Defined.
