(* ===== verification/ServicesUser.v ===== *)
(** * The security server: the SIDs a user can reach (security/selinux/ss/services.c)

    [security_get_user_sids] makes a context for every role and type the policy
    authorizes for a user, assigns SIDs to them, and keeps those the starting
    domain may enter, which it asks the access vector cache. *)

From Stdlib Require Import Ascii String.
From S2P Require Import Prelude Ebitmap Hashtab Context Sidtab Avtab Policydb Mls PolicydbOps Sample Conditional Classmap Services PolicyLoad ServicesLoad Avc.

Definition SIDS_NEL : Z := 25.

(** The array [mysids] and its capacity [maxnel]: [mysids[mynel++] = sid], with
    a larger array when it is full. *)
Definition push_sid (mysids : list Z) (maxnel sid : Z) (m : kmem) : Z * list Z * Z * kmem :=
  if Z.of_nat (length mysids) <? maxnel then (0, mysids ++ [sid], maxnel, m)
  else
    let '(ok, m) := kalloc m in
    if negb ok then (- ENOMEM, mysids, maxnel + SIDS_NEL, m)
    else (0, mysids ++ [sid], maxnel + SIDS_NEL, m).

Record user_scan := mk_user_scan {
  us_ss : ss;
  us_usercon : context;
  us_mysids : list Z;
  us_maxnel : Z
}.

(** [ebitmap_for_each_positive_bit(&role->types, tnode, j)] *)
Fixpoint scan_types (fromcon : context) (user : user_datum) (types : list Z) (st : user_scan) (m : kmem)
    : option (Z * user_scan * kmem) :=
  match types with
  | [] => Some (0, st, m)
  | j :: types' =>
      let s := us_ss st in
      let usercon := set_c_type (us_usercon st) (u32 (j + 1)) in
      let '(rc, usercon) := mls_setup_user_range (ss_policydb s) fromcon user usercon in
      if nz rc then scan_types fromcon user types' (mk_user_scan s usercon (us_mysids st) (us_maxnel st)) m
      else
        '(rc, sid, t, m) ← sidtab_context_to_sid (ss_sidtab s) usercon m;
        let s := set_ss_sidtab s t in
        if nz rc then Some (rc, mk_user_scan s usercon (us_mysids st) (us_maxnel st), m)
        else
          let '(rc, mysids, maxnel, m) := push_sid (us_mysids st) (us_maxnel st) sid m in
          let st := mk_user_scan s usercon mysids maxnel in
          if nz rc then Some (rc, st, m) else scan_types fromcon user types' st m
  end.

(** [ebitmap_for_each_positive_bit(&user->roles, rnode, i)] *)
Fixpoint scan_roles (fromcon : context) (user : user_datum) (roles : list Z) (st : user_scan) (m : kmem)
    : option (Z * user_scan * kmem) :=
  match roles with
  | [] => Some (0, st, m)
  | i :: roles' =>
      role ← index_deref (role_val_to_struct (ss_policydb (us_ss st))) i;
      let usercon := set_c_role (us_usercon st) (u32 (i + 1)) in
      '(rc, st, m) ← scan_types fromcon user (ebitmap_bits (r_types role))
                       (mk_user_scan (us_ss st) usercon (us_mysids st) (us_maxnel st)) m;
      if nz rc then Some (rc, st, m) else scan_roles fromcon user roles' st m
  end.

(** The loop that asks the cache; what is kept is in [mysids2]. *)
Fixpoint keep_reachable (s : ss) (fromsid : Z) (mysids : list Z) (a : avc) (m : kmem)
    : option (list Z * avc * kmem) :=
  match mysids with
  | [] => Some ([], a, m)
  | sid :: mysids' =>
      '(rc, _, a, m) ← avc_has_perm_noaudit s a fromsid sid SECCLASS_PROCESS PROCESS__TRANSITION AVC_STRICT m;
      '(kept, a, m) ← keep_reachable s fromsid mysids' a m;
      Some (if nz rc then kept else sid :: kept, a, m)
  end.

(** Result: [rc], [*sids] with [*nel] elements, the state. *)
Definition security_get_user_sids (s : ss) (a : avc) (fromsid : Z) (username : string) (m : kmem)
    : option (Z * list Z * ss * avc * kmem) :=
  if negb (ss_initialized s) then Some (0, [], s, a, m)
  else
    match sidtab_search (Some (ss_sidtab s)) fromsid with
    | None => Some (- EINVAL, [], s, a, m)
    | Some fromcon =>
        user ← hashtab_search (st_table (p_users (ss_policydb s))) username;
        match user with
        | None => Some (- EINVAL, [], s, a, m)
        | Some user =>
            let '(ok, m) := kalloc m in
            if negb ok then Some (- ENOMEM, [], s, a, m)
            else
              '(rc, st, m) ← scan_roles fromcon user (ebitmap_bits (u_roles user))
                               (mk_user_scan s (set_c_user context_init (u_value user)) [] SIDS_NEL) m;
              let s := us_ss st in
              if nz rc || (length (us_mysids st) =? 0)%nat then Some (rc, [], s, a, m)
              else
                let '(ok, m) := kalloc m in
                if negb ok then Some (- ENOMEM, [], s, a, m)
                else
                  '(kept, a, m) ← keep_reachable s fromsid (us_mysids st) a m;
                  Some (0, kept, s, a, m)
        end
    end.

(** ** What the scan collects *)

(** [c] is a context of the user with one of its roles and one of the role's types. *)
Definition authorized (p : policydb) (user : user_datum) (c : context) : Prop :=
  c_user c = u_value user /\
  exists i role j, i ∈ ebitmap_bits (u_roles user) /\ index_deref (role_val_to_struct p) i = Some role /\ c_role c = u32 (i + 1) /\
    j ∈ ebitmap_bits (r_types role) /\ c_type c = u32 (j + 1).

(** The table grows, and every SID collected has an authorized context in it. *)
Record scan_inv (p : policydb) (user : user_datum) (s0 : ss) (st : user_scan) : Prop := mk_scan_inv {
  sv_state : us_ss st = set_ss_sidtab s0 (ss_sidtab (us_ss st));
  sv_policy : ss_policydb s0 = p;
  sv_wf : sidtab_wf (ss_sidtab (us_ss st));
  sv_keeps : forall sid c, sidtab_abs (ss_sidtab s0) !! sid = Some c -> sidtab_abs (ss_sidtab (us_ss st)) !! sid = Some c;
  sv_con : c_user (us_usercon st) = u_value user /\ c_len (us_usercon st) = 0;
  sv_sids : forall sid, sid ∈ us_mysids st -> exists c, sidtab_abs (ss_sidtab (us_ss st)) !! sid = Some c /\ authorized p user c
}.

Lemma setup_range_fields p fromcon user c rc c' :
  mls_setup_user_range p fromcon user c = (rc, c') ->
  c_user c' = c_user c /\ c_role c' = c_role c /\ c_type c' = c_type c /\ c_len c' = c_len c.
Proof.
  unfold mls_setup_user_range. destruct (mls_enabled p); [|by intros [= _ <-]].
  repeat match goal with |- context [if ?b then _ else _] => destruct b end; by intros [= _ <-].
Qed.

Lemma context_cmp_fields c c' : context_cmp c c' = true -> c_len c' = 0 -> c_user c = c_user c' /\ c_role c = c_role c' /\ c_type c = c_type c'.
Proof.
  intros H E. pose proof (context_cmp_len0 c c' H E) as E'. unfold context_cmp in H. rewrite E, E' in H. cbn in H.
  apply andb_prop in H as [[[H1 H2]%andb_prop H3]%andb_prop _]. lia.
Qed.

Lemma push_sid_elem mysids maxnel sid m rc l n m' x :
  push_sid mysids maxnel sid m = (rc, l, n, m') -> x ∈ l -> x ∈ mysids \/ x = sid.
Proof.
  unfold push_sid. destruct (_ <? _); [intros [= _ <- _ _]|destruct (kalloc m) as [[] m1]; cbn [negb]; intros [= _ <- _ _]];
    rewrite ?elem_of_app, ?list_elem_of_singleton; tauto.
Qed.

(** The invariant with another context under construction. *)
Lemma scan_inv_con p user s0 st c :
  scan_inv p user s0 st -> c_user c = u_value user -> c_len c = 0 -> scan_inv p user s0 (mk_user_scan (us_ss st) c (us_mysids st) (us_maxnel st)).
Proof. intros [H1 H2 H3 H4 H5 H6] Hu Hl. by split. Qed.

Section Scan.
  Context (p : policydb) (user : user_datum) (s0 : ss) (fromcon : context).

Lemma scan_types_inv i role types st m rc st' m' :
  i ∈ ebitmap_bits (u_roles user) -> index_deref (role_val_to_struct p) i = Some role -> (forall j, j ∈ types -> j ∈ ebitmap_bits (r_types role)) ->
  c_role (us_usercon st) = u32 (i + 1) -> scan_inv p user s0 st -> scan_types fromcon user types st m = Some (rc, st', m') ->
  scan_inv p user s0 st'.
Proof.
  intros Hi Hrole. revert st m. induction types as [|j types IH]; intros st m Hsub Hr Hinv; cbn [scan_types]; [by intros [= _ <- _]|].
  destruct (sv_con _ _ _ _ Hinv) as [Hu Hl].
  destruct (mls_setup_user_range _ _ _ _) as [rc1 c] eqn:Ec. apply setup_range_fields in Ec as (Eu & Er & Et & El). cbn in Eu, Er, Et, El.
  assert (forall j, j ∈ types -> j ∈ ebitmap_bits (r_types role)) as Hsub' by (intros j' Hj'; by apply Hsub, list_elem_of_further).
  destruct (nz rc1); [apply IH; [done|cbn; congruence|apply scan_inv_con; [done|congruence..]]|].
  destruct Hinv as [H1 H2 H3 H4 H5 H6]. assert (str_ok c) as Hok by (unfold str_ok; by rewrite El, Hl).
  destruct (context_to_sid_spec (ss_sidtab (us_ss st)) c m H3) as (rc2 & sid & t & m2 & -> & Hw & Hres). cbn [mbind option_bind].
  assert (forall sid c0, sidtab_abs (ss_sidtab (us_ss st)) !! sid = Some c0 -> sidtab_abs t !! sid = Some c0) as Hk by (intros; by eapply to_sid_keeps).
  assert (scan_inv p user s0 (mk_user_scan (set_ss_sidtab (us_ss st) t) c (us_mysids st) (us_maxnel st))) as Hinv1.
  { split; cbn; [by rewrite H1|done|done|auto|split; congruence|]. intros x Hx. destruct (H6 x Hx) as (c0 & Hc0 & Ha). exists c0. auto. }
  destruct (nz rc2) eqn:E2; [by intros [= _ <- _]|]. apply nz_false in E2 as ->.
  destruct (push_sid _ _ sid m2) as [[[rc3 l] n] m3] eqn:Ep. pose proof (fun x => push_sid_elem _ _ _ _ _ _ _ _ x Ep) as Hl3.
  assert (scan_inv p user s0 (mk_user_scan (set_ss_sidtab (us_ss st) t) c l n)) as Hinv2.
  { destruct Hinv1 as [I1 I2 I3 I4 I5 I6]. split; [exact I1|done|exact I3|exact I4|exact I5|]. intros x Hx. cbn in *.
    destruct (Hl3 x Hx) as [Hx'| ->]; [by apply I6|]. destruct (to_sid_has _ _ _ _ Hres Hok) as (c0 & Hc0 & Hcmp). exists c0. split; [done|].
    destruct (context_cmp_fields _ _ Hcmp ltac:(congruence)) as (F1 & F2 & F3). split; [congruence|]. exists i, role, j.
    split; [done|]. split; [done|]. split; [congruence|]. split; [apply Hsub, list_elem_of_here|congruence]. }
  destruct (nz rc3); [by intros [= _ <- _]|]. apply IH; [done|cbn; congruence|done].
Qed.

Lemma scan_roles_inv roles st m rc st' m' :
  (forall i, i ∈ roles -> i ∈ ebitmap_bits (u_roles user)) -> scan_inv p user s0 st -> scan_roles fromcon user roles st m = Some (rc, st', m') ->
  scan_inv p user s0 st'.
Proof.
  revert st m. induction roles as [|i roles IH]; intros st m Hsub Hinv; cbn [scan_roles]; [by intros [= _ <- _]|].
  intros (role & Hrole & H)%bind_Some. apply bind_Some in H as ([[rc1 st1] m1] & Ht & H).
  assert (index_deref (role_val_to_struct p) i = Some role) as Hrole'.
  { rewrite <- Hrole. rewrite (sv_state _ _ _ _ Hinv). cbn. by rewrite (sv_policy _ _ _ _ Hinv). }
  assert (scan_inv p user s0 st1) as Hinv1.
  { eapply scan_types_inv; [apply Hsub, list_elem_of_here|exact Hrole'|done| | |exact Ht]; [done|].
    destruct (sv_con _ _ _ _ Hinv). by apply scan_inv_con. }
  destruct (nz rc1); [by injection H as _ <- _|]. eapply IH; [|exact Hinv1|exact H]. intros x Hx. by apply Hsub, list_elem_of_further.
Qed.

End Scan.

(** The starting domain may enter the domain of [sid], by the decision of the
    security server or because it is permissive. *)
Definition may_enter (s : ss) (fromsid sid : Z) : Prop :=
  exists avd, security_compute_av s fromsid sid SECCLASS_PROCESS = Some avd /\
    (nz (PROCESS__TRANSITION .& not32 (allowed avd)) = false \/ permissive_for s avd = true).

Lemma keep_reachable_sub s fromsid l a m kept a' m' : keep_reachable s fromsid l a m = Some (kept, a', m') -> kept `sublist_of` l.
Proof.
  revert a m kept a' m'. induction l as [|sid l IH]; intros a m kept a' m'; cbn [keep_reachable]; [by intros [= <- _ _]|].
  intros ([[[rc avd] a1] m1] & _ & H)%bind_Some. apply bind_Some in H as ([[k a2] m2] & Hk & [= <- _ _]).
  destruct (nz rc); constructor; by eapply IH.
Qed.

Lemma keep_reachable_elem s fromsid l a m kept a' m' :
  avc_wf a -> cached_all (entry_ok s) a -> keep_reachable s fromsid l a m = Some (kept, a', m') ->
  forall x, x ∈ kept -> may_enter s fromsid x.
Proof.
  revert a m kept a' m'. induction l as [|sid l IH]; intros a m kept a' m' Hw Hok; cbn [keep_reachable].
  { intros [= <- _ _]. by intros x ?%elem_of_nil. }
  intros ([[[rc avd] a1] m1] & Hp & H)%bind_Some. apply bind_Some in H as ([[k a2] m2] & Hk & [= <- _ _]).
  destruct (strict_check _ _ _ _ _ _ _ _ _ _ _ Hw Hok Hp) as (Hw1 & Hok1 & Hgr). pose proof (IH _ _ _ _ _ Hw1 Hok1 Hk) as Hm.
  destruct (nz rc) eqn:Er; [done|]. apply nz_false in Er as ->. intros x [->|Hx]%elem_of_cons; [by apply Hgr|by apply Hm].
Qed.

(** What is promised of the state and of the SIDs returned. *)
Record user_sids_ok (s : ss) (a : avc) (fromsid : Z) (username : string) (sids : list Z) (s' : ss) : Prop := mk_user_sids_ok {
  uo_state : s' = set_ss_sidtab s (ss_sidtab s');
  uo_wf : sidtab_wf (ss_sidtab s');
  uo_keeps : forall sid c, sidtab_abs (ss_sidtab s) !! sid = Some c -> sidtab_abs (ss_sidtab s') !! sid = Some c;
  uo_sids : forall sid, sid ∈ sids -> exists user c,
    hashtab_search (st_table (p_users (ss_policydb s))) username = Some (Some user) /\
    sidtab_abs (ss_sidtab s') !! sid = Some c /\ authorized (ss_policydb s) user c /\
    (avc_wf a -> cached_all (entry_ok s') a -> may_enter s' fromsid sid)
}.

Lemma user_sids_none s a fromsid username : sidtab_wf (ss_sidtab s) -> user_sids_ok s a fromsid username [] s.
Proof. intros Hw. split; [by destruct s|done|done|by intros sid ?%elem_of_nil]. Qed.

Lemma scan_inv_start s user : sidtab_wf (ss_sidtab s) ->
  scan_inv (ss_policydb s) user s (mk_user_scan s (set_c_user context_init (u_value user)) [] SIDS_NEL).
Proof. intros Hw. split; [by destruct s|done|done|done|done|by intros sid ?%elem_of_nil]. Qed.

Lemma scan_user_sids s a fromsid username user st sids :
  hashtab_search (st_table (p_users (ss_policydb s))) username = Some (Some user) -> scan_inv (ss_policydb s) user s st ->
  sids `sublist_of` us_mysids st -> (avc_wf a -> cached_all (entry_ok (us_ss st)) a -> forall x, x ∈ sids -> may_enter (us_ss st) fromsid x) ->
  user_sids_ok s a fromsid username sids (us_ss st).
Proof.
  intros Hu [H1 H2 H3 H4 H5 H6] Hsub Hm. split; [done|done|done|]. intros sid Hs.
  destruct (H6 sid) as (c & Hc & Ha). { by eapply elem_of_submseteq; [exact Hs|apply sublist_submseteq]. }
  exists user, c. split_and!; [done..|]. intros Hw Hok. by apply Hm.
Qed.

(** A system whose SID 28 is that of [init_ctx], and a rule more: [user_t] is
    bounded by [init_t], which has to have the permission too. *)
Definition user_policy : policydb :=
  match avtab_insert (te_avtab sample_read) (mk_avtab_key 1 1 1 AVTAB_ALLOWED) 2 [] with
  | Some (_, h, _) => set_te_avtab sample_read h
  | None => sample_read
  end.
Definition user_sidtab : sidtab := (sidtab_insert empty_sids 28 init_ctx []).1.2.
Definition user_system : ss :=
  let loaded := (load_of sample_system sample_file).1.1.2 in
  mk_ss user_policy user_sidtab true 1 (current_mapping loaded) (current_mapping_size loaded) true false false.

Lemma user_sidtab_wf : sidtab_wf user_sidtab.
Proof.
  pose proof (sidtab_insert_spec empty_sids 28 init_ctx [] empty_sids_wf ltac:(done)) as H. unfold user_sidtab.
  destruct (sidtab_insert empty_sids 28 init_ctx []) as [[rc t] m]. cbn. destruct H as [(_ & _ & H & _)|[(_ & _ & ->)|(_ & ->)]]; [done|exact empty_sids_wf..].
Qed.

Definition user_sids (s : ss) (fromsid : Z) (username : string) : Z * list Z * ss * avc * kmem :=
  match security_get_user_sids s cache_empty fromsid username [] with Some r => r | None => (- EFAULT, [], s, cache_empty, []) end.

(** ** Properties *)

(** C34: [security_get_user_sids] gives only SIDs a login of the user may get.
    Each has, in the SID table it leaves, a context with the user's number, a
    role of the user and a type of this role, and the starting domain may
    enter it, if the cache it asks agrees with the security server.  The
    policy is not touched, and every SID keeps its context. *)
Theorem user_sids_authorized s a fromsid username m rc sids s' a' m' :
  ss_initialized s = true -> sidtab_wf (ss_sidtab s) ->
  security_get_user_sids s a fromsid username m = Some (rc, sids, s', a', m') ->
  user_sids_ok s a fromsid username sids s'.
Proof.
  intros Hini Hw. pose proof (user_sids_none s a fromsid username Hw) as Hnone. unfold security_get_user_sids. rewrite Hini. cbn [negb].
  destruct (sidtab_search _ fromsid) as [fromcon|]; [|by intros [= _ <- <- _ _]].
  intros ([user|] & Hu & H)%bind_Some; [|by injection H as _ <- <- _ _]. destruct (kalloc m) as [[] m1]; cbn [negb] in H; [|by injection H as _ <- <- _ _].
  apply bind_Some in H as ([[rc1 st] m2] & Hsc & H).
  pose proof (scan_roles_inv _ user s fromcon _ _ _ _ _ _ (fun i Hi => Hi) (scan_inv_start s user Hw) Hsc) as Hinv.
  assert (user_sids_ok s a fromsid username [] (us_ss st)) as Hempty.
  { apply (scan_user_sids _ _ _ _ user); [done|done|apply sublist_nil_l|by intros _ _ x ?%elem_of_nil]. }
  destruct (nz rc1 || _); [by injection H as _ <- <- _ _|]. destruct (kalloc m2) as [[] m3]; cbn [negb] in H; [|by injection H as _ <- <- _ _].
  apply bind_Some in H as ([[kept a1] m4] & Hk & H). injection H as _ <- <- _ _.
  apply (scan_user_sids _ _ _ _ user); [done|done|by eapply keep_reachable_sub|]. intros Ha Hok. by eapply keep_reachable_elem.
Qed.

Lemma user_sids_authorized_witness :
  let r := user_sids user_system 28 "root"%string in
  r.1.1.1.2 = [28; 29] /\ user_sids_ok user_system cache_empty 28 "root"%string [28; 29] r.1.1.2.
Proof.
  assert ((user_sids user_system 28 "root"%string).1.1.1.2 = [28; 29]) as E by (vm_compute; reflexivity).
  split; [exact E|]. rewrite <- E.
  apply (user_sids_authorized user_system cache_empty 28 "root"%string [] (user_sids user_system 28 "root"%string).1.1.1.1 _ _
           (user_sids user_system 28 "root"%string).1.2 (user_sids user_system 28 "root"%string).2); [reflexivity|exact user_sidtab_wf|].
  clear E. unfold user_sids. destruct (security_get_user_sids user_system cache_empty 28 "root"%string []) as [[[[[rc sids] s'] a'] m']|] eqn:E; [reflexivity|].
  exfalso. assert (match security_get_user_sids user_system cache_empty 28 "root"%string [] with Some _ => true | None => false end = true) as H by (vm_compute; reflexivity).
  rewrite E in H. discriminate.
Defined.
