(* ===== verification/Piga.v ===== *)
(** * PIGA (security/selinux/piga/piga.c, procfs.c, syscalls.c, include/piga.h)

    The module this tree adds to the kernel: a monitor for sequences of
    accesses.  After SELinux has decided, [avc_has_perm_flags] (avc.c) asks
    [piga_has_perm], which moves every sequence whose current link is the
    access one step forward and denies the access that would complete one.

    The static variables of the three files are the fields of [piga].  The
    arrays come from user space through [sys_piga_add_sequence]; reading
    outside them is [None].  [printk] is left out, except that what is read
    for it has to be readable. *)

From Stdlib Require Import Ascii String.
From stdpp Require Import pretty.
From S2P Require Import Prelude Ebitmap Hashtab Context Sidtab Avtab Policydb Mls PolicydbOps Conditional Classmap Services ServicesSid Avc.

(** ** Data *)

Definition AVC_BUFFER_SIZE : Z := 64.
Definition PIGA_ALLOW : Z := 0.
Definition PIGA_DENY : Z := - EACCES.

Record sequence := mk_sequence {
  sq_length : Z;
  sq_current_position : Z;
  sq_link_offset : Z
}.

Record link := mk_link {
  lk_cs : Z;
  lk_cc : Z;
  lk_tclass : Z;
  lk_requested : Z
}.

Record piga := mk_piga {
  s_len : Z;
  l_len : Z;
  pg_seq : list sequence;        (* NULL: [] *)
  pg_link : list link;
  piga_status : bool;
  piga_audit_only_mode : bool;
  proc_sid : Z                   (* procfs.c: sid *)
}.

Definition set_pg_seq (g : piga) (v : list sequence) : piga :=
  mk_piga (s_len g) (l_len g) v (pg_link g) (piga_status g) (piga_audit_only_mode g) (proc_sid g).
Definition set_piga_status (g : piga) (v : bool) : piga :=
  mk_piga (s_len g) (l_len g) (pg_seq g) (pg_link g) v (piga_audit_only_mode g) (proc_sid g).
Definition set_piga_audit_only_mode (g : piga) (v : bool) : piga :=
  mk_piga (s_len g) (l_len g) (pg_seq g) (pg_link g) (piga_status g) v (proc_sid g).
Definition set_proc_sid (g : piga) (v : Z) : piga :=
  mk_piga (s_len g) (l_len g) (pg_seq g) (pg_link g) (piga_status g) (piga_audit_only_mode g) v.

(** The variables when the kernel starts. *)
Definition piga_init_state : piga := mk_piga 0 0 [] [] false false 0.

(** ** Sequences (piga.c) *)

(** [link[s->link_offset + s->current_position]], in [unsigned int]s. *)
Definition current_link (links : list link) (s : sequence) : option link :=
  links !! Z.to_nat (u32 (sq_link_offset s + sq_current_position s)).

Definition piga_seq_get_cs (links : list link) (s : sequence) : option Z :=
  l ← current_link links s; Some (lk_cs l).
Definition piga_seq_get_cc (links : list link) (s : sequence) : option Z :=
  l ← current_link links s; Some (lk_cc l).
Definition piga_seq_get_tclass (links : list link) (s : sequence) : option Z :=
  l ← current_link links s; Some (lk_tclass l).
Definition piga_seq_get_requested (links : list link) (s : sequence) : option Z :=
  l ← current_link links s; Some (lk_requested l).

Definition piga_seq_end (s : sequence) : bool := u32 (sq_current_position s + 1) =? sq_length s.

Definition set_position (s : sequence) (v : Z) : sequence := mk_sequence (sq_length s) v (sq_link_offset s).

(** Result: whether the sequence has moved, and the sequence. *)
Definition piga_seq_next (s : sequence) : bool * sequence :=
  let s := set_position s (u32 (sq_current_position s + 1)) in
  if sq_current_position s =? sq_length s then (false, set_position s (u32 (sq_current_position s - 1)))
  else (true, s).

(** The inner loop of [piga_list_sequence]: what it prints for [j < n]. *)
Fixpoint print_links (links : list link) (off : Z) (n : nat) (j : Z) : option (list link) :=
  match n with
  | O => Some []
  | S n' =>
      l ← links !! Z.to_nat (u32 (off + j));
      rest ← print_links links off n' (j + 1);
      Some (l :: rest)
  end.

(** [piga_list_sequence]: the sequences and the links printed with each. *)
Fixpoint list_sequences (g : piga) (n : nat) (i : Z) : option (list (sequence * list link)) :=
  match n with
  | O => Some []
  | S n' =>
      s ← pg_seq g !! Z.to_nat i;
      ls ← print_links (pg_link g) (sq_link_offset s) (Z.to_nat (l_len g)) 0;
      rest ← list_sequences g n' (i + 1);
      Some ((s, ls) :: rest)
  end.

Definition piga_list_sequence (g : piga) : option (list (sequence * list link)) :=
  list_sequences g (Z.to_nat (s_len g)) 0.

Definition piga_set_pol (g : piga) (s_l l_l : Z) (s : list sequence) (l : list link) : Z * piga :=
  (0, mk_piga s_l l_l s l (piga_status g) (piga_audit_only_mode g) (proc_sid g)).

Definition piga_compare (tclass1 requested1 tclass2 requested2 : Z) : Z :=
  if negb (tclass1 =? tclass2) then tclass1 - tclass2
  else if negb (requested1 =? requested2) then s32 (requested1 - requested2)
  else 0.

(** ** Printing a vector (piga.c) *)

Definition PERM_BUFFER_SIZE : Z := AVC_BUFFER_SIZE * 10.

(** [scnprintf(perm_dumped + prev_len, AVC_BUFFER_SIZE, ...)] of the text [t]
    and the NUL stored after it; [None]: outside the buffer. *)
Definition put_text (out t : string) : option string :=
  let t := String.substring 0 (Z.to_nat (AVC_BUFFER_SIZE - 1)) t in
  if strlen out + strlen t + 1 <=? PERM_BUFFER_SIZE then Some (out ++ t)%string else None.

Definition hex_digit (d : Z) : ascii :=
  ascii_of_nat (Z.to_nat (if d <? 10 then 48 + d else 87 + d)).

(** [%x]; eight digits are enough for a [u32]. *)
Fixpoint hex_loop (fuel : nat) (n : Z) (acc : string) : string :=
  match fuel with
  | O => acc
  | S fuel' =>
      let acc := String (hex_digit (n mod 16)) acc in
      if n `div` 16 =? 0 then acc else hex_loop fuel' (n `div` 16) acc
  end.
Definition hex (n : Z) : string := hex_loop 8 n EmptyString.

(** [while (i < 32)]: the text and the bits left. *)
Fixpoint dump_perms (n i : nat) (perms : list string) (requested : Z) (out : string) : option (string * Z) :=
  match n with
  | O => Some (out, requested)
  | S n' =>
      match perms !! i with
      | Some name =>
          if nz (u32 (1 .<< Z.of_nat i) .& requested) then
            out ← put_text out (" " ++ name);
            dump_perms n' (S i) perms (requested .& not32 (u32 (1 .<< Z.of_nat i))) out
          else dump_perms n' (S i) perms requested out
      | None => dump_perms n' (S i) perms requested out
      end
  end.

(** The text of the permissions. *)
Definition vector_text (tclass requested : Z) : option (string * string) :=
  map ← (if tclass <=? 0 then None else secclass_map !! Z.to_nat (tclass - 1));
  '(out, requested) ← dump_perms 32 0 (scm_perms map) requested EmptyString;
  out ← (if nz requested then put_text out (" 0x" ++ hex requested) else Some out);
  Some (scm_name map, out).

(** What [print_vector] prints: the two contexts ([None] for a null pointer),
    the class and the permissions; [None] inside when there is no memory. *)
Definition print_vector (s : ss) (ssid tsid tclass requested : Z) (m : kmem)
    : option (option (option string * string * string * option string) * kmem) :=
  '(_, sc, _, m) ← security_sid_to_context s ssid true m;
  '(_, tc, _, m) ← security_sid_to_context s tsid true m;
  _ ← (if tclass <=? 0 then None else secclass_map !! Z.to_nat (tclass - 1));
  let '(ok, m) := kalloc m in
  if negb ok then Some (None, m)
  else
    '(class, perms) ← vector_text tclass requested;
    Some (Some (sc, class, perms, tc), m).

(** ** The decision (piga.c) *)

(** The condition of the [if] in the loop. *)
Definition seq_matches (links : list link) (s : sequence) (ssid tsid tclass requested : Z) : option bool :=
  cs ← piga_seq_get_cs links s;
  if negb (cs =? ssid) then Some false
  else
    cc ← piga_seq_get_cc links s;
    if negb (cc =? tsid) then Some false
    else
      tc ← piga_seq_get_tclass links s;
      if negb (tc =? tclass) then Some false
      else
        rq ← piga_seq_get_requested links s;
        Some (0 <? rq .& requested).

(** [for (i = 0; i < s_len; ++i)]; [n] sequences are left.  Result: [rc] and
    the array. *)
Fixpoint piga_loop (st : ss) (links : list link) (n : nat) (i : nat) (seqs : list sequence)
    (ssid tsid tclass requested rc : Z) (m : kmem) : option (Z * list sequence * kmem) :=
  match n with
  | O => Some (rc, seqs, m)
  | S n' =>
      s ← seqs !! i;
      hit ← seq_matches links s ssid tsid tclass requested;
      if (hit : bool) then
        '(_, m) ← print_vector st ssid tsid tclass requested m;
        if piga_seq_end s then piga_loop st links n' (S i) seqs ssid tsid tclass requested PIGA_DENY m
        else
          let '(_, s) := piga_seq_next s in
          piga_loop st links n' (S i) (<[i := s]> seqs) ssid tsid tclass requested rc m
      else piga_loop st links n' (S i) seqs ssid tsid tclass requested rc m
  end.

(** Whether audit-only mode lets the access pass unchecked. *)
Definition audit_only_skips (g : piga) (requested : Z) (avd : option av_decision) : bool :=
  match avd with
  | None => false
  | Some avd =>
      let denied := requested .& not32 (allowed avd) in
      if piga_audit_only_mode g then
        if nz denied then negb (nz (denied .& auditdeny avd))
        else negb (nz (requested .& auditallow avd))
      else false
  end.

Definition piga_has_perm (st : ss) (g : piga) (ssid tsid tclass requested rc : Z) (avd : option av_decision) (m : kmem)
    : option (Z * piga * kmem) :=
  if piga_status g then
    if audit_only_skips g requested avd then Some (rc, g, m)
    else
      '(rc, seqs, m) ← piga_loop st (pg_link g) (Z.to_nat (s_len g)) 0 (pg_seq g) ssid tsid tclass requested PIGA_ALLOW m;
      Some (rc, set_pg_seq g seqs, m)
  else Some (rc, g, m).

(** ** The hook (avc.c) *)

(** [avc_has_perm_flags] with [CONFIG_SECURITY_PIGA].  Result: the return
    value, the audit record, the cache, PIGA's state. *)
Definition avc_has_perm_flags (s : ss) (a : avc) (g : piga) (ssid tsid tclass requested : Z)
    (auditdata : option audit_data) (flags : Z) (m : kmem)
    : option (Z * option audit_record * avc * piga * kmem) :=
  '(rc, avd, a, m) ← avc_has_perm_noaudit s a ssid tsid tclass requested 0 m;
  '(rc, g, m) ← (if negb (rc =? - EACCES)
                 then piga_has_perm s g ssid tsid tclass requested rc (Some avd) m
                 else Some (rc, g, m));
  let '(rc2, rec) := avc_audit ssid tsid tclass requested avd rc auditdata flags in
  Some (if nz rc2 then rc2 else rc, rec, a, g, m).

(** include/avc.h *)
Definition avc_has_perm (s : ss) (a : avc) (g : piga) (ssid tsid tclass requested : Z)
    (auditdata : option audit_data) (m : kmem) :=
  avc_has_perm_flags s a g ssid tsid tclass requested auditdata 0 m.

(** ** System call (syscalls.c) *)

(** A pointer to an array in user space: null, not readable, or the array. *)
Inductive user_array (A : Type) := UNull | UFault | UArray (l : list A).
Arguments UNull {A}.
Arguments UFault {A}.
Arguments UArray {A} l.

(** [copy_from_user] of [n] elements. *)
Definition copy_from_user {A} (n : Z) (u : user_array A) : option (list A) :=
  match u with
  | UArray l => if Z.of_nat (length l) <? n then None else Some (take (Z.to_nat n) l)
  | _ => None
  end.

Definition is_unull {A} (u : user_array A) : bool := match u with UNull => true | _ => false end.

(** The loop that prints what was loaded. *)
Fixpoint print_loaded (links : list link) (seqs : list sequence) : option unit :=
  match seqs with
  | [] => Some tt
  | s :: seqs' =>
      _ ← print_links links (sq_link_offset s) (Z.to_nat (sq_length s)) 0;
      print_loaded links seqs'
  end.

Definition sys_piga_add_sequence (g : piga) (s_len l_len : Z) (s : user_array sequence) (l : user_array link) (m : kmem)
    : option (Z * piga * kmem) :=
  if is_unull s || is_unull l || (s_len <=? 0) || (l_len <=? 0) then Some (- EFAULT, g, m)
  else
    let '(ok, m) := kalloc m in
    if negb ok then Some (- ENOMEM, g, m)
    else
      match copy_from_user s_len s with
      | None => Some (- EFAULT, g, m)
      | Some seq =>
          let '(ok, m) := kalloc m in
          if negb ok then Some (- ENOMEM, g, m)
          else
            match copy_from_user l_len l with
            | None => Some (- EFAULT, g, m)
            | Some lnk =>
                _ ← print_loaded lnk seq;
                let '(rc, g) := piga_set_pol g s_len l_len seq lnk in
                Some (rc, g, m)
            end
      end.

(** ** Files under /proc/piga (procfs.c)

    A read function returns the text it puts into the buffer, the empty text
    for its return value 0.  A write function gets the [count] bytes at
    [buffer], or [None] if they cannot be read; it returns its result and the
    new state. *)

Definition nl : string := String (ascii_of_nat 10) EmptyString.

Definition piga_proc_status_read (g : piga) (offset : Z) : string :=
  if 0 <? offset then EmptyString
  else if negb (piga_status g) then ("Disabled" ++ nl)%string
  else ("Enabled" ++ nl)%string.

(** [*tmp] after [tmp[count] = '\0']. *)
Definition first_char (tmp : string) : option ascii :=
  match tmp with String c _ => Some c | EmptyString => None end.

(** ['0'] clears a switch, ['1'] sets it, anything else leaves it. *)
Definition switch_of (tmp : string) (old : bool) : bool :=
  match first_char tmp with
  | Some c => if is_char 48 c then false else if is_char 49 c then true else old
  | None => old
  end.

Definition piga_proc_status_write (g : piga) (buffer : option string) : Z * piga :=
  match buffer with
  | None => (- EFAULT, g)
  | Some tmp => (strlen tmp, set_piga_status g (switch_of tmp (piga_status g)))
  end.

Definition piga_proc_mode_read (g : piga) (offset : Z) : string :=
  if 0 <? offset then EmptyString
  else if negb (piga_audit_only_mode g) then ("Disabled: Full check" ++ nl)%string
  else ("Enabled: Audit only" ++ nl)%string.

Definition piga_proc_mode_write (g : piga) (buffer : option string) : Z * piga :=
  match buffer with
  | None => (- EFAULT, g)
  | Some tmp => (strlen tmp, set_piga_audit_only_mode g (switch_of tmp (piga_audit_only_mode g)))
  end.

Definition piga_proc_getsid_read (g : piga) (offset : Z) : string * piga :=
  if 0 <? offset then (EmptyString, g)
  else ((pretty (proc_sid g) ++ nl)%string, set_proc_sid g 0).

(** [tmp[count - 1] = '\0']: the last byte is cut off; there has to be one. *)
Definition cut_last (tmp : string) : option string :=
  match tmp with
  | EmptyString => None
  | String _ _ => Some (String.substring 0 (String.length tmp - 1) tmp)
  end.

Definition piga_proc_getsid_write (s : ss) (g : piga) (buffer : option string) (m : kmem)
    : option (Z * ss * piga * kmem) :=
  match buffer with
  | None => Some (- EFAULT, s, g, m)
  | Some tmp =>
      tmp' ← cut_last tmp;
      '(ret, sid, s, m) ← security_context_to_sid s (cstr tmp') m;
      Some (strlen tmp, s, set_proc_sid g (if nz ret then 0 else sid), m)
  end.

Definition piga_proc_policy_read (g : piga) (offset : Z) : option string :=
  if 0 <? offset then Some EmptyString
  else
    _ ← piga_list_sequence g;
    Some ("PIGA: policy: See dmesg output" ++ nl)%string.

(** [count]: the number of bytes written to the file. *)
Definition piga_proc_policy_write (count : Z) : Z := count.

(** ** Printing stays inside the buffer *)

Lemma substring_whole t n : (String.length t <= n)%nat -> String.substring 0 n t = t.
Proof.
  revert n. induction t as [|c t IH]; intros [|n] Hn; cbn in *; try done; [lia|].
  by rewrite IH by lia.
Qed.

Lemma put_text_fits out t :
  strlen t < AVC_BUFFER_SIZE -> strlen out + strlen t + 1 <= PERM_BUFFER_SIZE ->
  put_text out t = Some (out ++ t)%string.
Proof.
  intros Ht Hfit. unfold put_text. rewrite substring_whole by (unfold strlen, AVC_BUFFER_SIZE in *; lia).
  destruct (Z.leb_spec (strlen out + strlen t + 1) PERM_BUFFER_SIZE); [done|lia].
Qed.

(** The text for the bits of [requested] that have a name, from bit [i] on. *)
Fixpoint perm_text (perms : list string) (i : Z) (requested : Z) : string :=
  match perms with
  | [] => EmptyString
  | name :: perms' =>
      ((if Z.testbit requested i then " " ++ name else EmptyString) ++ perm_text perms' (i + 1) requested)%string
  end.

(** Room for every name with its blank. *)
Definition names_len (perms : list string) : Z := foldr (fun name n => strlen name + 1 + n) 0 perms.

(** Bits [i .. i + n - 1]. *)
Definition bits_from (i n : Z) : Z := (2 ^ n - 1) .<< i.

Definition perms_fit (perms : list string) : bool :=
  (Z.of_nat (length perms) <=? 32) && (names_len perms + 12 <=? PERM_BUFFER_SIZE) &&
  forallb (fun name => strlen name + 1 <? AVC_BUFFER_SIZE) perms.

Lemma shiftl1_testbit i r :
  (i < 32)%nat -> 0 <= r < 2 ^ 32 -> nz (u32 (1 .<< Z.of_nat i) .& r) = Z.testbit r (Z.of_nat i).
Proof.
  intros Hi Hr. rewrite Z.shiftl_1_l, u32_small by (split; [lia|apply Z.pow_lt_mono_r; lia]).
  destruct (Z.testbit r (Z.of_nat i)) eqn:Hb.
  - apply nz_true. intros H0. assert (Z.testbit (2 ^ Z.of_nat i .& r) (Z.of_nat i) = true) as Ht.
    { rewrite Z.land_spec, Z.pow2_bits_true by lia. by rewrite Hb. }
    rewrite H0, Z.bits_0 in Ht. done.
  - apply nz_false. bitwise j Hj. rewrite Z.pow2_bits_eqb by lia.
    destruct (Z.eqb_spec (Z.of_nat i) j) as [<-|]; [by rewrite Hb|done].
Qed.

Lemma bits_from_spec i n j : 0 <= i -> 0 <= n -> 0 <= j ->
  Z.testbit (bits_from i n) j = bool_decide (i <= j < i + n).
Proof.
  intros Hi Hn Hj. unfold bits_from. rewrite Z.shiftl_spec by done.
  replace (2 ^ n - 1) with (Z.ones n) by (rewrite Z.ones_equiv; lia).
  destruct (decide (i <= j)).
  - rewrite Z.testbit_ones_nonneg by lia. case_bool_decide; lia.
  - rewrite Z.testbit_neg_r by lia. case_bool_decide; [lia|done].
Qed.

Lemma bits_from_0 i : bits_from i (Z.of_nat 0) = 0.
Proof. unfold bits_from. change (2 ^ Z.of_nat 0 - 1) with 0. apply Z.shiftl_0_l. Qed.

(** Bits below [i] do not matter to the text of the permissions from [i] on. *)
Lemma perm_text_ext perms i r r' :
  (forall j, i <= j -> Z.testbit r j = Z.testbit r' j) -> perm_text perms i r = perm_text perms i r'.
Proof.
  revert i. induction perms as [|name perms IH]; intros i Hr; cbn; [done|].
  rewrite (Hr i) by lia. f_equal. apply IH. intros j Hj. apply Hr. lia.
Qed.

Lemma names_len_nonneg perms : 0 <= names_len perms.
Proof. induction perms as [|name perms IH]; [done|]. cbn [names_len foldr]. fold (names_len perms). pose proof (strlen_nonneg name). lia. Qed.

Lemma dump_perms_spec n i perms r out :
  (i + n = 32)%nat -> (length perms <= 32)%nat -> 0 <= r < 2 ^ 32 ->
  Forall (fun name => strlen name + 1 < AVC_BUFFER_SIZE) perms ->
  strlen out + names_len (drop i perms) + 12 <= PERM_BUFFER_SIZE ->
  dump_perms n i perms r out =
    Some ((out ++ perm_text (drop i perms) (Z.of_nat i) r)%string,
          Z.ldiff r (bits_from (Z.of_nat i) (Z.of_nat (length perms - i)))).
Proof.
  revert i r out. induction n as [|n IH]; intros i r out Hi Hl Hr Hnames Hfit.
  { cbn. rewrite drop_ge by lia. cbn [perm_text]. rewrite string_app_nil. do 2 f_equal.
    replace (length perms - i)%nat with O by lia. by rewrite bits_from_0, Z.ldiff_0_r. }
  cbn [dump_perms]. destruct (perms !! i) as [name|] eqn:Hn.
  - assert (i < length perms)%nat by by eapply lookup_lt_Some.
    pose proof (proj1 (Forall_lookup _ _) Hnames _ _ Hn) as Hname; cbn beta in Hname.
    rewrite (drop_S _ _ _ Hn) in Hfit |- *. cbn [names_len foldr perm_text] in *.
    fold (names_len (drop (S i) perms)) in Hfit.
    pose proof (names_len_nonneg (drop (S i) perms)) as Hnn.
    pose proof (strlen_nonneg name) as Hn0.
    rewrite shiftl1_testbit by (done || lia).
    replace (Z.of_nat i + 1) with (Z.of_nat (S i)) by lia.
    destruct (Z.testbit r (Z.of_nat i)) eqn:Hb.
    + assert (strlen (" " ++ name)%string = strlen name + 1) as Hs by (rewrite strlen_app; change (strlen " ") with 1; lia).
      rewrite put_text_fits by (rewrite Hs; lia). cbn [mbind option_bind].
      rewrite Z.shiftl_1_l, (u32_small (2 ^ _)), land_not32
        by (done || (split; [lia|apply Z.pow_lt_mono_r; lia])).
      rewrite IH; [|lia|done| |done|rewrite strlen_app, Hs; lia].
      * rewrite string_app_assoc. do 2 f_equal.
        -- do 2 f_equal. apply perm_text_ext. intros j Hj. rewrite Z.ldiff_spec, Z.pow2_bits_false by lia.
           by rewrite andb_true_r.
        -- bitwise j Hj. rewrite !bits_from_spec, Z.pow2_bits_eqb by lia.
           destruct (Z.testbit r j); [|done]. cbn. repeat case_bool_decide; destruct (Z.eqb_spec (Z.of_nat i) j); try done; lia.
      * rewrite <- land_not32 by done. by apply (land_range 32).
    + rewrite IH by (done || lia). rewrite append_nil_l. do 2 f_equal.
      bitwise j Hj. rewrite !bits_from_spec by lia.
      destruct (decide (j = Z.of_nat i)) as [->|]; [by rewrite Hb|].
      f_equal. f_equal. apply bool_decide_ext. lia.
  - assert (length perms <= i)%nat by by apply lookup_ge_None.
    rewrite IH by (done || lia || (rewrite drop_ge in * by lia; done)).
    rewrite !drop_ge by lia. cbn [perm_text]. do 2 f_equal.
    replace (length perms - i)%nat with O by lia. replace (length perms - S i)%nat with O by lia.
    by rewrite !bits_from_0.
Qed.

Lemma perm_text_len perms i requested : strlen (perm_text perms i requested) <= names_len perms.
Proof.
  revert i. induction perms as [|name l IH]; intros i; cbn [perm_text names_len foldr]; [done|].
  fold (names_len l). rewrite strlen_app. specialize (IH (i + 1)). pose proof (strlen_nonneg name).
  destruct (Z.testbit requested i).
  - rewrite strlen_app. change (strlen " ") with 1. lia.
  - change (strlen EmptyString) with 0. lia.
Qed.

Lemma hex_loop_len fuel n acc : (String.length (hex_loop fuel n acc) <= String.length acc + fuel)%nat.
Proof.
  revert n acc. induction fuel as [|fuel IH]; intros n acc; cbn [hex_loop]; [lia|].
  case_next; cbn; [lia|]. etrans; [apply IH|]. cbn. lia.
Qed.

Lemma hex_len n : strlen (hex n) <= 8.
Proof.
  unfold hex, strlen. pose proof (hex_loop_len 8 n EmptyString) as H.
  change (String.length EmptyString) with O in H. lia.
Qed.

(** The text for the bits that have no name. *)
Definition rest_text (rest : Z) : string := if nz rest then (" 0x" ++ hex rest)%string else EmptyString.

(** All that is printed for a vector whose bits are named by [perms]. *)
Definition full_text (perms : list string) (requested : Z) : string :=
  (perm_text perms 0 requested ++ rest_text (Z.ldiff requested (bits_from 0 (Z.of_nat (length perms)))))%string.

Lemma dump_fits perms requested :
  perms_fit perms = true -> 0 <= requested < 2 ^ 32 ->
  exists out rest, dump_perms 32 0 perms requested EmptyString = Some (out, rest) /\
    (if nz rest then put_text out (" 0x" ++ hex rest) else Some out) = Some (full_text perms requested).
Proof.
  intros Hfit Hr. unfold perms_fit in Hfit.
  apply andb_prop in Hfit as [Hfit Hnames]. apply andb_prop in Hfit as [Hl Hlen].
  apply Z.leb_le in Hl, Hlen. rewrite forallb_forall in Hnames.
  assert (Forall (fun name => strlen name + 1 < AVC_BUFFER_SIZE) perms) as HF.
  { apply Forall_forall. intros x Hx. apply Z.ltb_lt. apply Hnames. by rewrite <- list_elem_of_In. }
  assert (strlen EmptyString + names_len (drop 0 perms) + 12 <= PERM_BUFFER_SIZE) as Hroom by (rewrite drop_0; exact Hlen).
  pose proof (dump_perms_spec 32 0 perms requested EmptyString eq_refl ltac:(lia) Hr HF Hroom) as Hd.
  rewrite drop_0, append_nil_l, Nat.sub_0_r in Hd. change (Z.of_nat 0) with 0 in Hd.
  do 2 eexists. split; [exact Hd|]. clear Hd.
  unfold full_text, rest_text. generalize (Z.ldiff requested (bits_from 0 (Z.of_nat (length perms)))). intros rest.
  destruct (nz rest); [|by rewrite string_app_nil].
  pose proof (hex_len rest). pose proof (perm_text_len perms 0 requested).
  assert (strlen (" 0x" ++ hex rest)%string = 3 + strlen (hex rest)) as Hx by (rewrite strlen_app; reflexivity).
  apply put_text_fits; rewrite Hx; unfold AVC_BUFFER_SIZE; lia.
Qed.

Lemma full_text_len perms requested : perms_fit perms = true -> strlen (full_text perms requested) < PERM_BUFFER_SIZE.
Proof.
  unfold perms_fit. intros Hfit. apply andb_prop in Hfit as [Hfit _]. apply andb_prop in Hfit as [_ Hlen].
  apply Z.leb_le in Hlen. unfold full_text, rest_text. rewrite strlen_app.
  pose proof (perm_text_len perms 0 requested). generalize (Z.ldiff requested (bits_from 0 (Z.of_nat (length perms)))).
  intros rest. destruct (nz rest); [|change (strlen EmptyString) with 0; lia].
  rewrite strlen_app. change (strlen " 0x") with 3. pose proof (hex_len rest). lia.
Qed.

(** Every class of the map fits. *)
Lemma secclass_map_fits : Forall (fun map => perms_fit (scm_perms map) = true) secclass_map.
Proof. apply Forall_forall. intros x Hx. revert x Hx. apply Forall_forall. vm_compute. repeat constructor. Qed.

Lemma vector_text_ok tclass requested map :
  0 < tclass -> secclass_map !! Z.to_nat (tclass - 1) = Some map -> 0 <= requested < 2 ^ 32 ->
  vector_text tclass requested = Some (scm_name map, full_text (scm_perms map) requested).
Proof.
  intros Ht Hm Hr. unfold vector_text.
  destruct (dump_fits _ _ (proj1 (Forall_lookup _ _) secclass_map_fits _ _ Hm) Hr) as (out & rest & Hd & Hx).
  destruct (Z.leb_spec tclass 0) as [?|_]; [lia|].
  rewrite (bind_step _ _ _ Hm), (bind_step _ _ _ Hd). by rewrite (bind_step _ _ _ Hx).
Qed.

(** ** What the monitor decides *)

(** One call of [piga_has_perm]. *)
Record event := mk_event {
  ev_ssid : Z;
  ev_tsid : Z;
  ev_tclass : Z;
  ev_requested : Z;
  ev_rc : Z;
  ev_avd : option av_decision
}.

Definition link_matches (l : link) (e : event) : bool :=
  (lk_cs l =? ev_ssid e) && (lk_cc l =? ev_tsid e) && (lk_tclass l =? ev_tclass e) &&
  (0 <? lk_requested l .& ev_requested e).

(** The links of a sequence. *)
Definition seq_links (links : list link) (s : sequence) : list link :=
  take (Z.to_nat (sq_length s)) (drop (Z.to_nat (sq_link_offset s)) links).

(** A sequence that lies inside the array of links. *)
Record seq_wf (links : list link) (s : sequence) : Prop := mk_seq_wf {
  sw_pos : 0 <= sq_current_position s < sq_length s;
  sw_off : 0 <= sq_link_offset s;
  sw_end : sq_link_offset s + sq_length s <= Z.of_nat (length links);
  sw_u32 : sq_link_offset s + sq_length s < 2 ^ 32
}.

Record piga_wf (g : piga) : Prop := mk_piga_wf {
  pw_len : Z.of_nat (length (pg_seq g)) = s_len g;
  pw_seqs : Forall (seq_wf (pg_link g)) (pg_seq g)
}.

(** The accesses [ls] asks for occur in [tr] in that order, perhaps with others in between. *)
Definition embeds (ls : list link) (tr : list event) : Prop :=
  exists sub, sub `sublist_of` tr /\ Forall2 (fun l e => link_matches l e = true) ls sub.

(** After [tr], the access [e] is the last one of the signature [ls]. *)
Definition completes (ls : list link) (tr : list event) (e : event) : Prop :=
  exists sub, sub `sublist_of` tr /\ Forall2 (fun l e => link_matches l e = true) ls (sub ++ [e]).

(** Printing the access does not fault. *)
Definition printable (st : ss) (e : event) : Prop :=
  forall m, is_Some (print_vector st (ev_ssid e) (ev_tsid e) (ev_tclass e) (ev_requested e) m).

(** What one sequence does with an access: whether it denies it, and its new position. *)
Definition seq_step (links : list link) (e : event) (s : sequence) : bool * sequence :=
  match current_link links s with
  | Some l =>
      if link_matches l e then
        if sq_current_position s + 1 =? sq_length s then (true, s)
        else (false, set_position s (sq_current_position s + 1))
      else (false, s)
  | None => (false, s)
  end.

Definition has_perm_event (st : ss) (g : piga) (e : event) (m : kmem) : option (Z * piga * kmem) :=
  piga_has_perm st g (ev_ssid e) (ev_tsid e) (ev_tclass e) (ev_requested e) (ev_rc e) (ev_avd e) m.

(** The answers to the accesses of a trace. *)
Fixpoint piga_run (st : ss) (g : piga) (tr : list event) (m : kmem) : option (list Z * piga * kmem) :=
  match tr with
  | [] => Some ([], g, m)
  | e :: tr' =>
      '(rc, g, m) ← has_perm_event st g e m;
      '(rcs, g, m) ← piga_run st g tr' m;
      Some (rc :: rcs, g, m)
  end.

(** The accesses audit-only mode does not skip. *)
Definition considered (g : piga) (e : event) : Prop := audit_only_skips g (ev_requested e) (ev_avd e) = false.
#[export] Instance considered_dec g e : Decision (considered g e).
Proof. unfold considered. apply _. Defined.

Lemma current_link_ok links s :
  seq_wf links s ->
  exists l, current_link links s = Some l /\ seq_links links s !! Z.to_nat (sq_current_position s) = Some l.
Proof.
  intros [Hp Ho He Hu]. unfold current_link, seq_links. rewrite u32_small by lia.
  rewrite Z2Nat.inj_add, lookup_take_lt, lookup_drop by lia.
  destruct (lookup_lt_is_Some_2 links (Z.to_nat (sq_link_offset s) + Z.to_nat (sq_current_position s))) as [l Hl]; [lia|].
  by exists l.
Qed.

Lemma seq_links_length links s : seq_wf links s -> length (seq_links links s) = Z.to_nat (sq_length s).
Proof. intros [Hp Ho He Hu]. unfold seq_links. rewrite length_take, length_drop. lia. Qed.

Lemma seq_matches_ok links s e l :
  current_link links s = Some l ->
  seq_matches links s (ev_ssid e) (ev_tsid e) (ev_tclass e) (ev_requested e) = Some (link_matches l e).
Proof.
  intros Hl. unfold seq_matches, piga_seq_get_cs, piga_seq_get_cc, piga_seq_get_tclass, piga_seq_get_requested, link_matches.
  rewrite Hl. cbn [mbind option_bind].
  destruct (lk_cs l =? _); [|done]. cbn [mbind option_bind negb andb].
  destruct (lk_cc l =? _); [|done]. cbn [mbind option_bind negb andb].
  by destruct (lk_tclass l =? _).
Qed.

Lemma seq_step_wf links e s : seq_wf links s -> seq_wf links (seq_step links e s).2.
Proof.
  intros Hs. unfold seq_step. destruct (current_link links s); [|done].
  destruct (link_matches _ _); [|done]. destruct (Z.eqb_spec (sq_current_position s + 1) (sq_length s)); [done|].
  destruct Hs. split; cbn; lia.
Qed.

Lemma seq_step_links links e s : seq_links links (seq_step links e s).2 = seq_links links s.
Proof. unfold seq_step. by repeat case_match. Qed.

(** The loop of [piga_has_perm] is [seq_step] on every sequence. *)
Lemma piga_loop_spec st links e n i seqs rc m :
  printable st e -> (i + n = length seqs)%nat -> Forall (seq_wf links) (drop i seqs) ->
  exists m', piga_loop st links n i seqs (ev_ssid e) (ev_tsid e) (ev_tclass e) (ev_requested e) rc m =
    Some (if existsb (fun s => (seq_step links e s).1) (drop i seqs) then PIGA_DENY else rc,
          take i seqs ++ ((fun s => (seq_step links e s).2) <$> drop i seqs), m').
Proof.
  intros Hpr. revert i seqs rc m. induction n as [|n IH]; intros i seqs rc m Hi Hwf.
  { exists m. cbn [piga_loop]. rewrite drop_ge, take_ge by lia. cbn. by rewrite app_nil_r. }
  destruct (lookup_lt_is_Some_2 seqs i) as [s Hs]; [lia|].
  rewrite (drop_S _ _ _ Hs) in Hwf |- *. apply Forall_cons in Hwf as [Hw Hwf].
  destruct (current_link_ok _ _ Hw) as (l & Hl & _).
  cbn [piga_loop fmap list_fmap existsb]. rewrite (bind_step _ _ _ Hs), (bind_step _ _ _ (seq_matches_ok _ _ e _ Hl)).
  assert (seq_step links e s = (false, s) -> forall m, exists m',
            piga_loop st links n (S i) seqs (ev_ssid e) (ev_tsid e) (ev_tclass e) (ev_requested e) rc m =
            Some (if (seq_step links e s).1 || existsb (fun s => (seq_step links e s).1) (drop (S i) seqs)
                  then PIGA_DENY else rc,
                  take i seqs ++ (seq_step links e s).2 :: ((fun s => (seq_step links e s).2) <$> drop (S i) seqs), m')) as Hstay.
  { intros -> m0. destruct (IH (S i) seqs rc m0 ltac:(lia) Hwf) as [m' Hm']. exists m'. rewrite Hm'. cbn [fst snd orb].
    rewrite (take_S_r _ _ _ Hs), <- app_assoc. done. }
  unfold seq_step in Hstay |- * at 1 3. rewrite Hl in Hstay |- *.
  destruct (link_matches l e); [|by apply Hstay].
  destruct (Hpr m) as [[pv m1] Hpv]. rewrite (bind_step _ _ _ Hpv).
  unfold piga_seq_end, piga_seq_next. destruct Hw as [Hp Ho He Hu]. rewrite u32_small by lia.
  destruct (Z.eqb_spec (sq_current_position s + 1) (sq_length s)) as [Heq|Hne]; cbn [fst snd orb].
  - destruct (IH (S i) seqs PIGA_DENY m1 ltac:(lia) Hwf) as [m' Hm']. exists m'. rewrite Hm'.
    rewrite (take_S_r _ _ _ Hs), <- app_assoc. by destruct (existsb _ _).
  - cbn [sq_current_position set_position sq_length]. destruct (Z.eqb_spec (sq_current_position s + 1) (sq_length s)); [done|].
    set (s' := set_position s (sq_current_position s + 1)).
    assert (i < length seqs)%nat by lia.
    assert (drop (S i) (<[i:=s']> seqs) = drop (S i) seqs) as Hd by (apply drop_insert_lt; lia).
    destruct (IH (S i) (<[i:=s']> seqs) rc m1) as [m' Hm'];
      [rewrite length_insert; lia|by rewrite Hd|].
    exists m'. rewrite Hm', Hd. rewrite (take_S_r _ _ s') by (apply list_lookup_insert_eq; lia).
    rewrite take_insert_ge by lia. by rewrite <- app_assoc.
Qed.

(** The same, when it is known that printing did not fault. *)
Lemma piga_loop_result st links e n i seqs rc m rc' seqs' m' :
  (i + n = length seqs)%nat -> Forall (seq_wf links) (drop i seqs) ->
  piga_loop st links n i seqs (ev_ssid e) (ev_tsid e) (ev_tclass e) (ev_requested e) rc m = Some (rc', seqs', m') ->
  rc' = (if existsb (fun s => (seq_step links e s).1) (drop i seqs) then PIGA_DENY else rc) /\
  seqs' = take i seqs ++ ((fun s => (seq_step links e s).2) <$> drop i seqs).
Proof.
  revert i seqs rc m. induction n as [|n IH]; intros i seqs rc m Hi Hwf; cbn [piga_loop].
  { intros [= <- <- <-]. rewrite drop_ge, take_ge by lia. cbn. by rewrite app_nil_r. }
  destruct (lookup_lt_is_Some_2 seqs i) as [s Hs]; [lia|]. rewrite (drop_S _ _ _ Hs) in Hwf |- *. apply Forall_cons in Hwf as [Hw Hwf].
  destruct (current_link_ok _ _ Hw) as (l & Hl & _).
  rewrite (bind_step _ _ _ Hs), (bind_step _ _ _ (seq_matches_ok _ _ e _ Hl)).
  assert (forall v, take (S i) (<[i := v]> seqs) = take i seqs ++ [v]) as Ht.
  { intros v. rewrite (take_S_r _ _ v) by (apply list_lookup_insert_eq; lia). by rewrite take_insert_ge. }
  assert (take (S i) seqs = take i seqs ++ [s]) as Ht' by by apply take_S_r.
  cbn [existsb fmap list_fmap]. unfold seq_step at 1 3. rewrite Hl. destruct (link_matches l e).
  - intros ([pv m1] & _ & H)%bind_Some. unfold piga_seq_end, piga_seq_next in H. destruct Hw as [Hp Ho He Hu].
    rewrite !u32_small in H by lia. destruct (sq_current_position s + 1 =? sq_length s) eqn:Eq; cbn [fst snd orb] in H |- *.
    + apply IH in H as [-> ->]; [|lia|done]. rewrite Ht', <- app_assoc. by destruct (existsb _ _).
    + cbn [sq_current_position set_position sq_length] in H. rewrite Eq in H. apply IH in H as [-> ->].
      * by rewrite Ht, drop_insert_lt, <- app_assoc by lia.
      * rewrite length_insert. lia.
      * by rewrite drop_insert_lt by lia.
  - intros H. apply IH in H as [-> ->]; [|lia|done]. by rewrite Ht', <- app_assoc.
Qed.

(** Whether some sequence denies the access. *)
Definition denies (g : piga) (e : event) : bool := existsb (fun s => (seq_step (pg_link g) e s).1) (pg_seq g).

(** [piga_has_perm] on every branch, for well-formed sequences. *)
Lemma has_perm_spec st g e m :
  piga_wf g -> printable st e ->
  exists m', has_perm_event st g e m =
    Some (if piga_status g then
            if decide (considered g e) then
              (if denies g e then PIGA_DENY else PIGA_ALLOW,
               set_pg_seq g ((fun s => (seq_step (pg_link g) e s).2) <$> pg_seq g), m')
            else (ev_rc e, g, m')
          else (ev_rc e, g, m')).
Proof.
  intros [Hlen Hseqs] Hpr. unfold has_perm_event, piga_has_perm.
  destruct (piga_status g); [|by eexists].
  destruct (decide (considered g e)) as [Hc|Hc]; unfold considered in Hc;
    [rewrite Hc|apply not_false_is_true in Hc; rewrite Hc; by eexists].
  destruct (piga_loop_spec st (pg_link g) e (Z.to_nat (s_len g)) 0 (pg_seq g) PIGA_ALLOW m) as [m' Hm'];
    [done|lia|done|].
  exists m'. rewrite Hm'. cbn. unfold denies. rewrite drop_0. done.
Qed.

Lemma piga_wf_step g e : piga_wf g -> piga_wf (set_pg_seq g ((fun s => (seq_step (pg_link g) e s).2) <$> pg_seq g)).
Proof.
  intros [Hlen Hseqs]. split; cbn; [by rewrite length_fmap|].
  apply Forall_fmap. eapply Forall_impl; [done|]. intros s. apply seq_step_wf.
Qed.

(** ** Signatures and positions *)

Lemma embeds_snoc_skip ls tr e : embeds ls tr -> embeds ls (tr ++ [e]).
Proof. intros (sub & Hs & HF). exists sub. split; [by apply sublist_inserts_r|done]. Qed.

Lemma embeds_snoc_take ls l tr e : embeds ls tr -> link_matches l e = true -> embeds (ls ++ [l]) (tr ++ [e]).
Proof.
  intros (sub & Hs & HF) He. exists (sub ++ [e]). split; [by apply sublist_app|].
  by apply Forall2_app; [|constructor].
Qed.

Lemma embeds_snoc_inv ls l tr e :
  embeds (ls ++ [l]) (tr ++ [e]) -> embeds (ls ++ [l]) tr \/ (embeds ls tr /\ link_matches l e = true).
Proof.
  intros (sub & Hs & HF). apply sublist_app_r in Hs as (k1 & k2 & -> & Hk1 & Hk2).
  apply sublist_cons_r in Hk2 as [Hk2|(k & -> & Hk2)]; apply sublist_nil_r in Hk2 as ->.
  - rewrite app_nil_r in HF. left. by exists k1.
  - apply Forall2_app_inv_l in HF as (a & b & Ha & Hb & Heq). right.
    apply Forall2_cons_inv_l in Hb as (y & b' & Hy & Hb' & ->). apply Forall2_nil_inv_l in Hb' as ->.
    apply app_inj_tail in Heq as [<- <-]. split; [by exists k1|done].
Qed.

Lemma embeds_prefix k ls tr : embeds ls tr -> embeds (take k ls) tr.
Proof.
  intros (sub & Hs & HF). exists (take k sub). split; [|by apply Forall2_take].
  etrans; [apply sublist_take|done].
Qed.

(** The position of a sequence is the longest part of its signature, short of
    the whole, that has occurred. *)
Definition tracks (links : list link) (tr : list event) (s : sequence) : Prop :=
  seq_wf links s /\
  embeds (take (Z.to_nat (sq_current_position s)) (seq_links links s)) tr /\
  forall k, (k < Z.to_nat (sq_length s))%nat -> embeds (take k (seq_links links s)) tr ->
    (k <= Z.to_nat (sq_current_position s))%nat.

Lemma tracks_init links s : seq_wf links s -> sq_current_position s = 0 -> tracks links [] s.
Proof.
  intros Hw H0. split; [done|]. rewrite H0. split.
  - exists []. split; [done|]. rewrite take_0. constructor.
  - intros k Hk (sub & Hs & HF). apply sublist_nil_r in Hs as ->. apply Forall2_length in HF.
    rewrite length_take, seq_links_length in HF by done. cbn in HF. lia.
Qed.

Lemma tracks_step links tr e s : tracks links tr s -> tracks links (tr ++ [e]) (seq_step links e s).2.
Proof.
  intros (Hw & Hemb & Hmax). pose proof (seq_step_wf links e s Hw) as Hw'.
  destruct (current_link_ok _ _ Hw) as (l & Hl & Hls).
  pose proof (seq_links_length _ _ Hw) as Hlen. destruct (sw_pos _ _ Hw) as [Hp0 Hp1].
  assert (forall k, (k < Z.to_nat (sq_length s))%nat -> embeds (take k (seq_links links s)) (tr ++ [e]) ->
            (k <= Z.to_nat (sq_current_position s))%nat \/
            (k = S (Z.to_nat (sq_current_position s)) /\ link_matches l e = true)) as Hnext.
  { intros [|k] Hk Hek; [lia|]. destruct (lookup_lt_is_Some_2 (seq_links links s) k) as [l' Hl']; [lia|].
    rewrite (take_S_r _ _ _ Hl') in Hek. apply embeds_snoc_inv in Hek as [Hek|[Hek Hm]].
    - rewrite <- (take_S_r _ _ _ Hl') in Hek. left. by apply Hmax.
    - specialize (Hmax k ltac:(lia) Hek). destruct (decide (k = Z.to_nat (sq_current_position s))) as [->|]; [|lia].
      right. split; [done|]. congruence. }
  split; [done|]. rewrite seq_step_links. revert Hw'. unfold seq_step. rewrite Hl.
  destruct (link_matches l e) eqn:Hm; [destruct (Z.eqb_spec (sq_current_position s + 1) (sq_length s)) as [Heq|Hne]|];
    cbn [fst snd sq_current_position sq_length set_position]; intros Hw'.
  - split; [by apply embeds_snoc_skip|]. intros k Hk Hek. apply Hnext in Hek; [|done]. lia.
  - rewrite Z2Nat.inj_add by lia. change (Z.to_nat 1) with 1%nat. rewrite Nat.add_1_r. split.
    + rewrite (take_S_r _ _ _ Hls). by apply embeds_snoc_take.
    + intros k Hk Hek. apply Hnext in Hek; [|done]. lia.
  - split; [by apply embeds_snoc_skip|]. intros k Hk Hek. apply Hnext in Hek as [?|[_ ?]]; [lia|done|done].
Qed.

(** A sequence denies exactly the access that completes its signature. *)
Lemma tracks_denies links tr e s :
  tracks links tr s -> (seq_step links e s).1 = true <-> completes (seq_links links s) tr e.
Proof.
  intros (Hw & Hemb & Hmax). destruct (current_link_ok _ _ Hw) as (l & Hl & Hls).
  pose proof (seq_links_length _ _ Hw) as Hlen. destruct (sw_pos _ _ Hw) as [Hp0 Hp1].
  destruct (lookup_lt_is_Some_2 (seq_links links s) (Z.to_nat (sq_length s) - 1)) as [z Hz]; [lia|].
  assert (seq_links links s = take (Z.to_nat (sq_length s) - 1) (seq_links links s) ++ [z]) as Hsplit.
  { rewrite <- (take_S_r _ _ _ Hz). rewrite take_ge by lia. done. }
  unfold seq_step. rewrite Hl. split.
  - destruct (link_matches l e) eqn:Hm; [|done].
    destruct (Z.eqb_spec (sq_current_position s + 1) (sq_length s)) as [Heq|]; [|done]. intros _.
    replace (Z.to_nat (sq_current_position s)) with (Z.to_nat (sq_length s) - 1)%nat in * by lia.
    destruct Hemb as (sub & Hs & HF). exists sub. split; [done|]. rewrite Hsplit.
    apply Forall2_app; [done|]. constructor; [congruence|constructor].
  - intros (sub & Hs & HF). rewrite Hsplit in HF. apply Forall2_app_inv_l in HF as (a & b & Ha & Hb & Heq).
    apply Forall2_cons_inv_l in Hb as (y & b' & Hy & Hb' & ->). apply Forall2_nil_inv_l in Hb' as ->.
    apply app_inj_tail in Heq as [<- <-].
    assert (embeds (take (Z.to_nat (sq_length s) - 1) (seq_links links s)) tr) as He by by exists sub.
    apply Hmax in He; [|lia].
    replace (Z.to_nat (sq_current_position s)) with (Z.to_nat (sq_length s) - 1)%nat in Hls by lia.
    replace l with z by congruence. rewrite Hy.
    destruct (Z.eqb_spec (sq_current_position s + 1) (sq_length s)); [done|lia].
Qed.

(** The trace the monitor has seen. *)
Definition seen (g : piga) (tr : list event) : list event := filter (considered g) tr.

(** The state after the trace [tr] when PIGA is on: every sequence tracks it. *)
Record monitors (g0 : piga) (tr : list event) (g : piga) : Prop := mk_monitors {
  mo_seqs : Forall (tracks (pg_link g) (seen g0 tr)) (pg_seq g);
  mo_len : s_len g = Z.of_nat (length (pg_seq g));
  mo_links : pg_link g = pg_link g0;
  mo_sigs : seq_links (pg_link g) <$> pg_seq g = seq_links (pg_link g0) <$> pg_seq g0;
  mo_status : piga_status g = true;
  mo_mode : piga_audit_only_mode g = piga_audit_only_mode g0
}.

Lemma monitors_wf g0 tr g : monitors g0 tr g -> piga_wf g.
Proof.
  intros []. split; [done|]. eapply Forall_impl; [done|]. by intros s [? _].
Qed.

Lemma considered_mode g0 g e :
  piga_audit_only_mode g = piga_audit_only_mode g0 -> considered g e <-> considered g0 e.
Proof. intros Hm. unfold considered, audit_only_skips. by rewrite Hm. Qed.

Lemma monitors_init g :
  piga_wf g -> piga_status g = true -> Forall (fun s => sq_current_position s = 0) (pg_seq g) -> monitors g [] g.
Proof.
  intros [Hlen Hseqs] Hst H0. split; try done. apply Forall_forall. intros s Hs.
  rewrite Forall_forall in Hseqs, H0. apply tracks_init; [by apply Hseqs|by apply H0].
Qed.

(** Some signature is completed by [e] after [tr]. *)
Definition completed (g0 : piga) (tr : list event) (e : event) : Prop :=
  Exists (fun s => completes (seq_links (pg_link g0) s) (seen g0 tr) e) (pg_seq g0).

Lemma completes_sigs links tr e (seqs : list sequence) :
  Exists (fun s => completes (seq_links links s) tr e) seqs <->
  Exists (fun ls => completes ls tr e) (seq_links links <$> seqs).
Proof. by rewrite Exists_fmap. Qed.

Lemma monitors_denies g0 tr g e : monitors g0 tr g -> denies g e = true <-> completed g0 tr e.
Proof.
  intros [Hseqs _ _ Hsigs _ _]. unfold denies, completed.
  rewrite completes_sigs, <- Hsigs, <- completes_sigs.
  rewrite existsb_exists, Exists_exists. rewrite Forall_forall in Hseqs. split.
  - intros (s & Hs & Hd). rewrite <- list_elem_of_In in Hs. exists s. split; [done|].
    apply tracks_denies; [by apply Hseqs|done].
  - intros (s & Hs & Hd). exists s. rewrite <- list_elem_of_In. split; [done|].
    eapply tracks_denies; [by apply Hseqs|done].
Qed.

(** The right answer to the access [e] after [tr]. *)
Definition answers (g0 : piga) (tr : list event) (e : event) (rc : Z) : Prop :=
  if decide (considered g0 e)
  then (rc = PIGA_DENY /\ completed g0 tr e) \/ (rc = PIGA_ALLOW /\ ~ completed g0 tr e)
  else (rc = ev_rc e).

Lemma monitors_considered g0 tr g e :
  monitors g0 tr g -> considered g0 e ->
  monitors g0 (tr ++ [e]) (set_pg_seq g ((fun s => (seq_step (pg_link g) e s).2) <$> pg_seq g)).
Proof.
  intros [Hseqs Hlen Hlinks Hsigs Hst Hmode] Hc. split; cbn; try done; [|by rewrite length_fmap|].
  - unfold seen. rewrite filter_app, (filter_cons_True (considered g0)) by done. cbn.
    apply Forall_fmap. eapply Forall_impl; [done|]. intros s Hs. by apply tracks_step.
  - rewrite <- Hsigs, <- list_fmap_compose. apply list_fmap_ext. intros i s _. cbn. apply seq_step_links.
Qed.

(** One access in a monitored state. *)
Lemma monitors_step st g0 tr g e m :
  monitors g0 tr g -> printable st e ->
  exists rc g' m', has_perm_event st g e m = Some (rc, g', m') /\ monitors g0 (tr ++ [e]) g' /\ answers g0 tr e rc.
Proof.
  intros Hmo Hpr. unfold answers. destruct (has_perm_spec st g e m (monitors_wf _ _ _ Hmo) Hpr) as [m' Hm'].
  pose proof (monitors_denies _ _ _ e Hmo) as Hden. destruct Hmo as [Hseqs Hlen Hlinks Hsigs Hst Hmode].
  rewrite Hst in Hm'. pose proof (considered_mode g0 g e Hmode) as Hcm.
  destruct (decide (considered g e)) as [Hc|Hc], (decide (considered g0 e)) as [Hc0|Hc0]; try (exfalso; tauto).
  - do 3 eexists. split; [exact Hm'|]. split.
    + by apply monitors_considered.
    + destruct (denies g e); [left|right]; (split; [done|]); [by apply Hden|].
      intros H. apply Hden in H. done.
  - do 3 eexists. split; [exact Hm'|]. split; [|done].
    split; try done. unfold seen. rewrite filter_app, (filter_cons_False (considered g0)) by done.
    cbn. by rewrite app_nil_r.
Qed.

(** The same, when the call is known to return. *)
Lemma monitors_step_result st g0 tr g e m rc g' m' :
  monitors g0 tr g -> has_perm_event st g e m = Some (rc, g', m') -> monitors g0 (tr ++ [e]) g' /\ answers g0 tr e rc.
Proof.
  intros Hmo. unfold answers, has_perm_event, piga_has_perm. pose proof (monitors_denies _ _ _ e Hmo) as Hden.
  destruct (monitors_wf _ _ _ Hmo) as [Hlen Hseqs]. rewrite (mo_status _ _ _ Hmo).
  pose proof (considered_mode g0 g e (mo_mode _ _ _ Hmo)) as Hcm. unfold considered in Hcm at 1.
  destruct (audit_only_skips g (ev_requested e) (ev_avd e)) eqn:Es.
  - intros [= <- <- <-]. rewrite decide_False by (rewrite <- Hcm; done). split; [|done].
    destruct Hmo as [M1 M2 M3 M4 M5 M6]. split; try done. unfold seen. rewrite filter_app, (filter_cons_False (considered g0)).
    + cbn. by rewrite app_nil_r.
    + by rewrite <- Hcm.
  - intros ([[rc1 seqs] m1] & H & E)%bind_Some. injection E as <- <- <-. rewrite decide_True by by apply Hcm.
    apply piga_loop_result in H as [-> ->]; [|lia|done]. rewrite drop_0. cbn [take app]. split.
    + by apply monitors_considered; [|apply Hcm].
    + unfold denies in Hden. destruct (existsb _ _); [left|right]; (split; [done|]); [by apply Hden|]. intros Hc. by apply Hden in Hc.
Qed.

Lemma monitors_run st g0 tr tr' g m :
  monitors g0 tr g -> Forall (printable st) tr' ->
  exists rcs g' m', piga_run st g tr' m = Some (rcs, g', m') /\ monitors g0 (tr ++ tr') g' /\
    length rcs = length tr' /\
    forall i e rc, tr' !! i = Some e -> rcs !! i = Some rc -> answers g0 (tr ++ take i tr') e rc.
Proof.
  revert tr g m. induction tr' as [|e tr' IH]; intros tr g m Hmo Hpr.
  { exists [], g, m. rewrite app_nil_r. by split; [|split; [|split]]. }
  apply Forall_cons in Hpr as [Hp Hpr].
  destruct (monitors_step st g0 tr g e m Hmo Hp) as (rc & g1 & m1 & H1 & Hmo1 & Hrc).
  destruct (IH _ _ m1 Hmo1 Hpr) as (rcs & g' & m' & H2 & Hmo' & Hlen & Hans).
  exists (rc :: rcs), g', m'. cbn [piga_run]. rewrite (bind_step _ _ _ H1). rewrite (bind_step _ _ _ H2).
  rewrite <- app_assoc in Hmo'. split; [done|]. split; [done|]. split; [cbn; lia|].
  intros [|i] e' rc' He' Hrc'; cbn in *; [injection He' as <-; injection Hrc' as <-; by rewrite app_nil_r|].
  specialize (Hans i e' rc' He' Hrc'). by rewrite <- app_assoc in Hans.
Qed.

(** ** Printing an access *)

(** The class of an access is one of the kernel's. *)
Definition known_class (tclass : Z) : Prop := 0 < tclass <= Z.of_nat (length secclass_map).

(** A SID whose context can be printed. *)
Definition sid_printable (st : ss) (sid : Z) : Prop := forall m, is_Some (security_sid_to_context st sid true m).

Lemma known_class_printable st e :
  known_class (ev_tclass e) -> in_u 32 (ev_requested e) ->
  sid_printable st (ev_ssid e) -> sid_printable st (ev_tsid e) -> printable st e.
Proof.
  intros Hc Hr Hs Ht m. unfold print_vector. destruct (Hs m) as [[[[rc1 sc] l1] m1] H1].
  destruct (Ht m1) as [[[[rc2 tc] l2] m2] H2].
  rewrite (bind_step _ _ _ H1), (bind_step _ _ _ H2). unfold known_class in Hc.
  destruct (lookup_lt_is_Some_2 secclass_map (Z.to_nat (ev_tclass e - 1))) as [map Hmap]; [lia|].
  pose proof (vector_text_ok (ev_tclass e) (ev_requested e) map ltac:(lia) Hmap Hr) as Hv.
  destruct (Z.leb_spec (ev_tclass e) 0) as [?|_]; [lia|].
  rewrite (bind_step _ _ _ Hmap). destruct (kalloc m2) as [ok m3]. destruct ok; cbn [negb]; [|by eexists].
  rewrite (bind_step _ _ _ Hv). by eexists.
Qed.

(** An access of a known class between SIDs that have a context. *)
Record valid_access (st : ss) (e : event) : Prop := mk_valid_access {
  va_class : known_class (ev_tclass e);
  va_requested : in_u 32 (ev_requested e);
  va_ssid : sid_printable st (ev_ssid e);
  va_tsid : sid_printable st (ev_tsid e)
}.

Lemma valid_printable st tr : Forall (valid_access st) tr -> Forall (printable st) tr.
Proof. intros H. eapply Forall_impl; [done|]. intros e []. by apply known_class_printable. Qed.

(** ** Loading sequences *)

Lemma print_links_ok links off n j :
  0 <= off -> 0 <= j -> off + j + Z.of_nat n <= Z.of_nat (length links) -> off + j + Z.of_nat n < 2 ^ 32 ->
  is_Some (print_links links off n j).
Proof.
  revert j. induction n as [|n IH]; intros j Ho Hj Hl Hu; cbn [print_links]; [by eexists|].
  rewrite u32_small by lia.
  destruct (lookup_lt_is_Some_2 links (Z.to_nat (off + j))) as [l Hll]; [lia|].
  destruct (IH (j + 1)) as [rest Hrest]; [lia..|].
  rewrite (bind_step _ _ _ Hll), (bind_step _ _ _ Hrest). by eexists.
Qed.

Lemma print_loaded_ok links seqs : Forall (seq_wf links) seqs -> print_loaded links seqs = Some tt.
Proof.
  induction 1 as [|s seqs [Hp Ho He Hu] _ IH]; cbn [print_loaded]; [done|].
  destruct (print_links_ok links (sq_link_offset s) (Z.to_nat (sq_length s)) 0) as [x Hx]; [lia..|].
  by rewrite (bind_step _ _ _ Hx).
Qed.

(** The state after a successful load. *)
Definition loaded (g : piga) (seqs : list sequence) (links : list link) : piga :=
  mk_piga (Z.of_nat (length seqs)) (Z.of_nat (length links)) seqs links
          (piga_status g) (piga_audit_only_mode g) (proc_sid g).

Lemma copy_from_user_all {A} (l : list A) : copy_from_user (Z.of_nat (length l)) (UArray l) = Some l.
Proof.
  unfold copy_from_user. destruct (Z.ltb_spec (Z.of_nat (length l)) (Z.of_nat (length l))); [lia|].
  by rewrite take_ge by lia.
Qed.

(** A machine on which no policy has been loaded yet. *)
Definition ss_empty : ss :=
  mk_ss policydb_zero (mk_sidtab [] 0 0 false []) false 0 [] 0 true false false.

Lemma ss_empty_printable sid : 0 <= sid <= SECINITSID_NUM -> sid_printable ss_empty sid.
Proof.
  intros Hsid m. unfold security_sid_to_context, security_sid_to_context_core. cbn [ss_initialized ss_empty negb].
  destruct (Z.leb_spec sid SECINITSID_NUM); [|lia].
  assert (is_Some (initial_sid_to_string !! Z.to_nat sid)) as [name Hn].
  { apply lookup_lt_is_Some_2. unfold SECINITSID_NUM in *. cbn. lia. }
  rewrite (bind_step _ _ _ Hn). cbn. destruct (kalloc m) as [[] m']; by eexists.
Qed.

(** ** Properties *)

(** C1: with PIGA enabled and every sequence at its start, a trace of accesses
    is answered completely (no call faults, whatever the allocator does), and
    an access is denied exactly when it completes a signature: when some
    subsequence of the accesses seen so far, followed by this access, matches
    the links of a sequence one by one.  Accesses that audit-only mode skips
    keep SELinux's answer and are not part of the trace. *)
Theorem piga_denies_completion st g tr m :
  piga_wf g -> piga_status g = true -> Forall (fun s => sq_current_position s = 0) (pg_seq g) ->
  Forall (valid_access st) tr ->
  exists rcs g' m', piga_run st g tr m = Some (rcs, g', m') /\ piga_wf g' /\ length rcs = length tr /\
    forall i e rc, tr !! i = Some e -> rcs !! i = Some rc ->
      if decide (considered g e)
      then (rc = PIGA_DENY /\ completed g (take i tr) e) \/ (rc = PIGA_ALLOW /\ ~ completed g (take i tr) e)
      else (rc = ev_rc e).
Proof.
  intros Hwf Hst H0 Hpr.
  destruct (monitors_run st g [] tr g m (monitors_init g Hwf Hst H0) (valid_printable _ _ Hpr))
    as (rcs & g' & m' & Hrun & Hmo & Hlen & Hans).
  exists rcs, g', m'. split; [done|]. split; [by eapply monitors_wf|]. split; [done|exact Hans].
Qed.

Definition link_read : link := mk_link 1 2 7 2.
Definition link_write : link := mk_link 1 3 7 4.
Definition piga_sample : piga :=
  mk_piga 1 2 [mk_sequence 2 0 0] [link_read; link_write] true false 0.
Definition ev_read : event := mk_event 1 2 7 2 0 None.
Definition ev_write : event := mk_event 1 3 7 6 0 None.

Lemma piga_sample_wf : piga_wf piga_sample.
Proof. split; [done|]. repeat constructor; cbn; lia. Qed.

Lemma sample_access e : e ∈ [ev_write; ev_read; ev_write] -> valid_access ss_empty e.
Proof.
  intros He. split; [|red|apply ss_empty_printable..];
    (repeat (apply elem_of_cons in He as [->|He]; [cbn; unfold known_class, SECINITSID_NUM; vm_compute; intuition congruence|])); by apply elem_of_nil in He.
Qed.

(** Reading one object and then writing another is denied at the write; the
    write alone is not. *)
Lemma piga_denies_completion_witness :
  exists g' m', piga_run ss_empty piga_sample [ev_write; ev_read; ev_write] [] = Some ([0; 0; - EACCES], g', m') /\ piga_wf g'.
Proof.
  destruct (piga_denies_completion ss_empty piga_sample [ev_write; ev_read; ev_write] [])
    as (rcs & g' & m' & Hrun & Hwf & _).
  - apply piga_sample_wf.
  - reflexivity.
  - repeat constructor.
  - apply Forall_forall. exact sample_access.
  - exists g', m'. split; [|exact Hwf]. rewrite Hrun. vm_compute in Hrun. injection Hrun as <- <- <-. reflexivity.
Defined.

(** For every class of the kernel's class map and every access vector the
    text [print_vector] builds stays inside its buffer of 640 bytes, and it is
    the names of the bits that are set, in order, and then in hexadecimal the
    bits that have no name. *)
Theorem print_vector_fits tclass requested :
  known_class tclass -> in_u 32 requested ->
  exists map, secclass_map !! Z.to_nat (tclass - 1) = Some map /\
    vector_text tclass requested = Some (scm_name map, full_text (scm_perms map) requested) /\
    strlen (full_text (scm_perms map) requested) < PERM_BUFFER_SIZE.
Proof.
  intros Hc Hr. unfold known_class in Hc.
  destruct (lookup_lt_is_Some_2 secclass_map (Z.to_nat (tclass - 1))) as [map Hmap]; [lia|].
  exists map. split; [done|]. split; [apply vector_text_ok; [lia|done|done]|].
  apply full_text_len. by apply (proj1 (Forall_lookup _ _) secclass_map_fits _ _ Hmap).
Qed.

Lemma print_vector_fits_witness :
  vector_text 5 0xc0000003 = Some ("filesystem", " mount remount 0xc0000000")%string /\
  strlen " mount remount 0xc0000000" < PERM_BUFFER_SIZE.
Proof.
  destruct (print_vector_fits 5 0xc0000003) as (map & Hmap & H & Hl).
  - vm_compute. split; [reflexivity|discriminate].
  - vm_compute. split; [discriminate|reflexivity].
  - vm_compute in Hmap. injection Hmap as <-. split; [rewrite H; reflexivity|exact Hl].
Defined.

(** C38: [sys_piga_add_sequence] returns 0, [-EFAULT] or [-ENOMEM]; on an error
    nothing of PIGA's state has changed, and on success the two arrays are
    exactly what user space has passed and the switches are as before. *)
Theorem add_sequence_atomic g s_l l_l s l m rc g' m' :
  sys_piga_add_sequence g s_l l_l s l m = Some (rc, g', m') ->
  ((rc = - EFAULT \/ rc = - ENOMEM) /\ g' = g) \/
  (rc = 0 /\ 0 < s_l /\ 0 < l_l /\
   exists seqs links, s = UArray seqs /\ l = UArray links /\
     s_l <= Z.of_nat (length seqs) /\ l_l <= Z.of_nat (length links) /\
     g' = loaded g (take (Z.to_nat s_l) seqs) (take (Z.to_nat l_l) links)).
Proof.
  unfold sys_piga_add_sequence.
  destruct (is_unull s || is_unull l || (s_l <=? 0) || (l_l <=? 0)) eqn:Hargs; [intros [= <- <- <-]; auto|].
  apply orb_false_iff in Hargs as [Hargs Hl]. apply orb_false_iff in Hargs as [_ Hs].
  apply Z.leb_gt in Hl, Hs.
  destruct (kalloc m) as [[] m1]; cbn [negb]; [|intros [= <- <- <-]; auto].
  destruct s as [| |seqs]; cbn [copy_from_user]; try (intros [= <- <- <-]; auto; fail).
  destruct (Z.ltb_spec (Z.of_nat (length seqs)) s_l); [intros [= <- <- <-]; auto|].
  destruct (kalloc m1) as [[] m2]; cbn [negb]; [|intros [= <- <- <-]; auto].
  destruct l as [| |links]; cbn [copy_from_user]; try (intros [= <- <- <-]; auto; fail).
  destruct (Z.ltb_spec (Z.of_nat (length links)) l_l); [intros [= <- <- <-]; auto|].
  destruct (print_loaded _ _); [|done]. cbn [mbind option_bind piga_set_pol]. intros [= <- <- <-].
  right. split; [done|]. split; [done|]. split; [done|]. exists seqs, links.
  do 4 (split; [done|]). unfold loaded. rewrite !length_take. f_equal; lia.
Qed.

Lemma add_sequence_atomic_witness :
  exists g', sys_piga_add_sequence piga_init_state 1 2 (UArray [mk_sequence 2 0 0]) (UArray [link_read; link_write]) []
             = Some (0, g', []) /\ g' = loaded piga_init_state [mk_sequence 2 0 0] [link_read; link_write].
Proof.
  eexists. split; [reflexivity|].
  destruct (add_sequence_atomic piga_init_state 1 2 (UArray [mk_sequence 2 0 0]) (UArray [link_read; link_write]) []
              0 (loaded piga_init_state [mk_sequence 2 0 0] [link_read; link_write]) [] eq_refl)
    as [[[H|H] _]|(_ & _ & _ & seqs & links & Hs & Hl & _ & _ & H)]; [discriminate H|discriminate H|].
  injection Hs as <-. injection Hl as <-. exact H.
Defined.

(** A policy whose sequences start inside the array of links is loaded
    without a fault (up to lack of memory), and what is loaded satisfies the
    invariant of the monitor. *)
Theorem add_sequence_wf g seqs links m :
  seqs <> [] -> links <> [] -> Forall (seq_wf links) seqs ->
  exists rc g' m',
    sys_piga_add_sequence g (Z.of_nat (length seqs)) (Z.of_nat (length links)) (UArray seqs) (UArray links) m
      = Some (rc, g', m') /\
    ((rc = - ENOMEM /\ g' = g /\ m <> []) \/ (rc = 0 /\ g' = loaded g seqs links /\ piga_wf g')).
Proof.
  intros Hs Hl Hwf. unfold sys_piga_add_sequence. cbn [is_unull orb]. rewrite !copy_from_user_all.
  destruct seqs as [|s0 seqs]; [done|]. destruct links as [|l0 links]; [done|].
  destruct (Z.leb_spec (Z.of_nat (length (s0 :: seqs))) 0); [cbn in *; lia|].
  destruct (Z.leb_spec (Z.of_nat (length (l0 :: links))) 0); [cbn in *; lia|]. cbn [orb].
  destruct (kalloc m) as [[] m1] eqn:E1; cbn [negb].
  2: { do 3 eexists. split; [done|]. left. split; [done|]. split; [done|]. by intros ->. }
  destruct (kalloc m1) as [[] m2] eqn:E2; cbn [negb].
  2: { do 3 eexists. split; [done|]. left. split; [done|]. split; [done|]. intros ->. by injection E1 as <-. }
  rewrite print_loaded_ok by done. do 3 eexists. split; [reflexivity|]. right.
  split; [done|]. split; [done|]. by split.
Qed.

Lemma add_sequence_wf_witness :
  exists rc g' m',
    sys_piga_add_sequence piga_init_state 1 2 (UArray [mk_sequence 2 0 0]) (UArray [link_read; link_write]) [] = Some (rc, g', m').
Proof.
  destruct (add_sequence_wf piga_init_state [mk_sequence 2 0 0] [link_read; link_write] []) as (rc & g' & m' & H & _).
  - discriminate.
  - discriminate.
  - repeat constructor; cbn; lia.
  - exists rc, g', m'. exact H.
Defined.

(** C7: the hook.  The access is refused by SELinux, PIGA is not asked and its
    sequences stay where they are; or SELinux grants it and the result is
    PIGA's, unless writing the audit record has to be retried ([-ECHILD]).  So
    an access is granted only if both grant it. *)
Theorem hook_decision s a g ssid tsid tclass requested ad fl m rc rec a' g' m' :
  avc_has_perm_flags s a g ssid tsid tclass requested ad fl m = Some (rc, rec, a', g', m') ->
  exists rc1 avd m1, avc_has_perm_noaudit s a ssid tsid tclass requested 0 m = Some (rc1, avd, a', m1) /\
    ((rc1 = - EACCES /\ g' = g /\ (rc = - EACCES \/ rc = - ECHILD)) \/
     (rc1 = 0 /\ exists rc2, piga_has_perm s g ssid tsid tclass requested 0 (Some avd) m1 = Some (rc2, g', m') /\
        (rc = rc2 \/ rc = - ECHILD))).
Proof.
  unfold avc_has_perm_flags. intros H. apply bind_Some in H as ([[[rc1 avd] a1] m1] & H1 & H).
  apply bind_Some in H as ([[rc2 g2] m2] & H2 & H).
  destruct (avc_audit ssid tsid tclass requested avd rc2 ad fl) as [rc3 rec3] eqn:Haud. injection H as <- <- <- <- <-.
  exists rc1, avd, m1. split; [done|].
  assert (rc3 = 0 \/ rc3 = - ECHILD) as H3.
  { unfold avc_audit in Haud. repeat case_match; simplify_eq; auto. }
  pose proof (noaudit_rc _ _ _ _ _ _ _ _ _ _ _ _ H1) as [-> | ->]; cbn [Z.eqb negb] in H2.
  - right. split; [done|]. exists rc2. change (negb (0 =? - EACCES)) with true in H2. split; [exact H2|].
    destruct H3 as [-> | ->]; [left|right]; done.
  - left. change (negb (- EACCES =? - EACCES)) with false in H2. injection H2 as <- <- <-.
    split; [done|]. split; [done|]. destruct H3 as [-> | ->]; [left|right]; done.
Qed.

Definition avc_empty : avc := avc_init (mk_avc [] 0 0 0 [] AVC_DEF_CACHE_THRESHOLD).

Lemma hook_decision_witness :
  exists rc2 g' m', piga_has_perm ss_empty piga_sample 1 2 7 2 0 (Some (mk_av_decision ALL_PERMS 0 ALL_PERMS 0 0)) []
    = Some (rc2, g', m') /\ (0 = rc2 \/ 0 = - ECHILD).
Proof.
  destruct (avc_has_perm_flags ss_empty avc_empty piga_sample 1 2 7 2 None 0 []) as [[[[[rc rec] a'] g'] m']|] eqn:H;
    [|vm_compute in H; discriminate H].
  pose proof (hook_decision _ _ _ _ _ _ _ _ _ _ _ _ _ _ _ H) as (rc1 & avd & m1 & H1 & Hc).
  vm_compute in H1. injection H1 as <- <- _ <-. destruct Hc as [[Hc _]|(_ & rc2 & H2 & Hc)]; [discriminate Hc|].
  exists rc2, g', m'. split; [exact H2|]. vm_compute in H. injection H as <- _ _ _ _. exact Hc.
Defined.

(** [piga_compare] tells equal pairs from different ones. *)
Lemma s32_zero z : - 2 ^ 32 < z < 2 ^ 32 -> s32 z = 0 -> z = 0.
Proof. unfold s32. intros Hz H. pose proof (Z.div_mod (z + 2 ^ 31) (2 ^ 32) ltac:(lia)). lia. Qed.

(** [piga_compare] is 0 exactly for equal pairs of class and vector. *)
Theorem piga_compare_zero t1 r1 t2 r2 :
  in_u 16 t1 -> in_u 16 t2 -> in_u 32 r1 -> in_u 32 r2 ->
  piga_compare t1 r1 t2 r2 = 0 <-> t1 = t2 /\ r1 = r2.
Proof.
  unfold in_u. intros H1 H2 H3 H4. unfold piga_compare.
  destruct (Z.eqb_spec t1 t2), (Z.eqb_spec r1 r2); cbn; split; try (intros; lia).
  intros H. apply s32_zero in H; lia.
Qed.

Lemma piga_compare_zero_witness : piga_compare 7 2 7 6 = 0 <-> 7 = 7 /\ 2 = 6.
Proof. apply (piga_compare_zero 7 2 7 6); vm_compute; split; congruence. Defined.

(** ** Findings *)

(** The sign of [piga_compare] is not the one its header promises: the
    difference of two vectors does not fit an [int]. *)
Example piga_compare_sign : piga_compare 7 0 7 0xffffffff = 1 /\ piga_compare 7 0xffffffff 7 0 = -1.
Proof. split; reflexivity. Qed.

(** [piga_list_sequence] prints [l_len] links for every sequence, also for one
    that does not start at link 0, and reads past the end of the array. *)
Example piga_list_sequence_overrun :
  let g := mk_piga 2 2 [mk_sequence 1 0 0; mk_sequence 1 0 1] [link_read; link_write] true false 0 in
  piga_wf g /\ piga_list_sequence g = None.
Proof. split; [|reflexivity]. split; [done|]. repeat constructor; cbn; lia. Qed.

(** [sys_piga_add_sequence] takes a position outside the sequence; the first
    access after that reads outside the array of links. *)
Example add_sequence_unchecked :
  exists g, sys_piga_add_sequence (set_piga_status piga_init_state true) 1 1
              (UArray [mk_sequence 1 5 0]) (UArray [link_read]) [] = Some (0, g, []) /\
    forall st ssid tsid tclass requested m, piga_has_perm st g ssid tsid tclass requested 0 None m = None.
Proof. eexists. split; [reflexivity|]. intros. reflexivity. Qed.

(** Writing nothing to /proc/piga/getsid stores a byte in front of the buffer. *)
Example getsid_write_empty st g m : piga_proc_getsid_write st g (Some EmptyString) m = None.
Proof. reflexivity. Qed.
