(* ===== verification/Ppp.v ===== *)
(** * The PIGA policy parser (src/ppp)

    The user-space program that turns a text of signatures into the arrays
    that [sys_piga_add_sequence] takes.  A signature is a line

      WARN - 0$4026 : u:r:t -( file { read } )-> u:r:t2 ; ... ;

    The scanner is the one flex makes of ppp.l: the longest match, and the
    first rule among equally long ones.  The parser bison makes of ppp.y reads
    one token ahead; the grammar has no nesting, so its stack is one of the
    items of [pstate].  The value of a non-terminal whose action does not set
    it is that of its first symbol.  After a syntax error nothing the actions
    did is used.

    The two arrays are as [malloc] left them until they are written; [None] is
    an access outside of them.  libselinux is not part of the repository: its
    two functions are parameters.  Text that is only printed is left out, and
    [strdup] and the containers do not run out of memory. *)

From Stdlib Require Import Ascii String.
From stdpp Require Import pretty functions.
From S2P Require Import Prelude Ebitmap Hashtab Context Sidtab Avtab Policydb Mls PolicydbOps Services ServicesSid Piga.

(** ** Scanner (ppp.l) *)

Inductive token :=
| TYPE (s : string) | BOOL (s : string) | SID (s : string) | WORD (s : string)
| EOL | ENDF | AVPERMSTART | AVPERMEND
| CHAR (c : ascii).

Definition code (c : ascii) : Z := Z.of_N (N_of_ascii c).
Definition between (lo hi : Z) (c : ascii) : bool := (lo <=? code c) && (code c <=? hi).
Definition is_one_of (l : string) (c : ascii) : bool := existsb (fun d => code c =? code d) (list_ascii_of_string l).

(** [A-Z], [0-9!$], [a-z0-9_], [a-z_] *)
Definition is_type : ascii -> bool := between 65 90.
Definition is_bool (c : ascii) : bool := between 48 57 c || is_one_of "!$" c.
Definition is_name (c : ascii) : bool := between 97 122 c || between 48 57 c || is_one_of "_" c.
Definition is_word (c : ascii) : bool := between 97 122 c || is_one_of "_" c.
Definition is_blank (c : ascii) : bool := (code c =? 32) || (code c =? 9).
Definition is_nl (c : ascii) : bool := code c =? 10.

(** How much of the text a pattern matches: a class repeated, once, [+:] for
    [([a-z0-9_]+:){2}[a-z0-9_]+], a literal, a comment. *)
Fixpoint run (p : ascii -> bool) (l : list ascii) : nat :=
  match l with c :: l' => if p c then S (run p l') else O | [] => O end.

Definition one (p : ascii -> bool) (l : list ascii) : nat :=
  match l with c :: _ => if p c then 1 else 0 | [] => 0 end.

Definition then_colon (n : nat) (l : list ascii) : option (list ascii) :=
  match n, drop n l with S _, c :: l' => if is_colon c then Some l' else None | _, _ => None end.

Definition sid_len (l : list ascii) : nat :=
  let n1 := run is_name l in
  match then_colon n1 l with
  | None => 0
  | Some l2 =>
      let n2 := run is_name l2 in
      match then_colon n2 l2 with
      | None => 0
      | Some l3 => match run is_name l3 with O => 0 | n3 => n1 + 1 + n2 + 1 + n3 end
      end
  end.

Definition lit (t : string) (l : list ascii) : nat :=
  let t := list_ascii_of_string t in
  if bool_decide (take (length t) l = t) then length t else 0.

Definition comment_len (l : list ascii) : nat :=
  match l with
  | c :: l' =>
      if is_one_of "#" c then
        let n := run (fun c => negb (is_nl c)) l' in
        match drop n l' with [] => 0 | _ :: _ => 1 + n + 1 end
      else 0
  | [] => 0
  end.

Definition at_bol (bol : bool) (f : list ascii -> nat) (l : list ascii) : nat := if bol then f l else 0%nat.

(** The rules, in order: what a pattern matches, and the token its action
    returns for the text, if any. *)
Definition lex_rules (bol : bool) : list ((list ascii -> nat) * (list ascii -> option token)) :=
  let text (f : string -> token) l := Some (f (string_of_list_ascii l)) in
  let char l := CHAR <$> head l in
  [ (run is_type, text TYPE);
    (run is_bool, text BOOL);
    (sid_len, text SID);
    (run is_word, text WORD);
    (one is_blank, fun _ => None);
    (at_bol bol (one is_nl), fun _ => None);
    (at_bol bol comment_len, fun _ => None);
    (one is_nl, fun _ => Some EOL);
    (lit "-(", fun _ => Some AVPERMSTART);
    (lit ")->", fun _ => Some AVPERMEND);
    (one (is_one_of "-:{}();"), char);
    (one (fun c => negb (is_nl c)), char) ].

(** The longest match so far, [best], against the remaining rules. *)
Fixpoint longest (rules : list ((list ascii -> nat) * (list ascii -> option token))) (l : list ascii)
    (best : nat * (list ascii -> option token)) : nat * (list ascii -> option token) :=
  match rules with
  | [] => best
  | (f, act) :: rules' => longest rules' l (if (best.1 <? f l)%nat then (f l, act) else best)
  end.

(** All the tokens of a text; every match takes a character off it.  [bol]:
    whether the last character was a newline. *)
Fixpoint yylex_all (fuel : nat) (bol : bool) (l : list ascii) : list token :=
  match fuel, l with
  | S fuel', _ :: _ =>
      let '(n, act) := longest (lex_rules bol) l (0%nat, fun _ => None) in
      let yytext := take n l in
      let rest := yylex_all fuel' (match last yytext with Some c => is_nl c | None => bol end) (drop n l) in
      match act yytext with Some t => t :: rest | None => rest end
  | _, [] => [ENDF]
  | O, _ => []
  end.

Definition scan_file (text : string) : list token :=
  let l := list_ascii_of_string text in yylex_all (length l) true l.

(** ** The kernel as the program sees it *)

(** [w_open]: whether opening a file succeeds, as for the allocator. *)
Record world := mk_world {
  w_ss : ss;
  w_piga : piga;
  w_kmem : kmem;
  w_open : kmem
}.

(** The variables of main.cpp, ppp.cpp and ppp.y. *)
Record ppp := mk_ppp {
  pp_s : Z -> sequence;
  pp_l : Z -> link;
  curr_seq : Z;
  curr_link : Z;
  tclass_map : gmap string Z;
  request_list : list string;
  invalid_context : bool;
  sid_map : gmap string Z;
  stat_sid_map : gmap string Z;
  stat_tclass_map : gmap string Z;
  stat_requested_map : gmap string Z;
  pp_loaded : Z;
  pp_ignored : Z;
  pp_world : world
}.

Definition set_arrays (st : ppp) (s : Z -> sequence) (l : Z -> link) (cs cl : Z) : ppp :=
  mk_ppp s l cs cl (tclass_map st) (request_list st) (invalid_context st) (sid_map st) (stat_sid_map st)
    (stat_tclass_map st) (stat_requested_map st) (pp_loaded st) (pp_ignored st) (pp_world st).
Definition set_requests (st : ppp) (tc : gmap string Z) (rl : list string) (stc srq : gmap string Z) : ppp :=
  mk_ppp (pp_s st) (pp_l st) (curr_seq st) (curr_link st) tc rl (invalid_context st) (sid_map st) (stat_sid_map st)
    stc srq (pp_loaded st) (pp_ignored st) (pp_world st).
Definition set_sids (st : ppp) (sm ssm : gmap string Z) (w : world) : ppp :=
  mk_ppp (pp_s st) (pp_l st) (curr_seq st) (curr_link st) (tclass_map st) (request_list st) (invalid_context st) sm ssm
    (stat_tclass_map st) (stat_requested_map st) (pp_loaded st) (pp_ignored st) w.
Definition set_invalid_context (st : ppp) (b : bool) : ppp :=
  mk_ppp (pp_s st) (pp_l st) (curr_seq st) (curr_link st) (tclass_map st) (request_list st) b (sid_map st)
    (stat_sid_map st) (stat_tclass_map st) (stat_requested_map st) (pp_loaded st) (pp_ignored st) (pp_world st).
Definition set_counts (st : ppp) (ld ig : Z) : ppp :=
  mk_ppp (pp_s st) (pp_l st) (curr_seq st) (curr_link st) (tclass_map st) (request_list st) (invalid_context st)
    (sid_map st) (stat_sid_map st) (stat_tclass_map st) (stat_requested_map st) ld ig (pp_world st).

(** [malloc(sizeof(struct sequence) * 400000)], [... * 10000000] *)
Definition SEQS : Z := 400000.
Definition LINKS : Z := 10000000.

Definition s_at (st : ppp) (i : Z) : option sequence := if i <? SEQS then Some (pp_s st i) else None.
Definition l_at (st : ppp) (i : Z) : option link := if i <? LINKS then Some (pp_l st i) else None.
Definition put_seq (st : ppp) (i : Z) (v : sequence) : option ppp :=
  if i <? SEQS then Some (set_arrays st (<[i := v]> (pp_s st)) (pp_l st) (curr_seq st) (curr_link st)) else None.
Definition put_link (st : ppp) (i : Z) (v : link) : option ppp :=
  if i <? LINKS then Some (set_arrays st (pp_s st) (<[i := v]> (pp_l st)) (curr_seq st) (curr_link st)) else None.

Definition incr (m : gmap string Z) (k : string) : gmap string Z := <[k := u32 (default 0 (m !! k) + 1)]> m.

(** [strtoul(..., 10)] of the C library. *)
Definition digit (c : ascii) : option Z := if between 48 57 c then Some (code c - 48) else None.
Fixpoint digits (s : string) (acc : Z) : Z :=
  match s with
  | String c s' => match digit c with Some d => digits s' (10 * acc + d) | None => acc end
  | EmptyString => acc
  end.
Fixpoint strtoul (s : string) : Z :=
  match s with
  | String c s' =>
      if is_blank c || between 10 13 c then strtoul s'
      else if code c =? 45 then u64 (- Z.min (2 ^ 64 - 1) (digits s' 0))
      else if code c =? 43 then Z.min (2 ^ 64 - 1) (digits s' 0)
      else Z.min (2 ^ 64 - 1) (digits s 0)
  | EmptyString => 0
  end.

(** [std::getline] *)
Fixpoint getline (s : string) : string :=
  match s with
  | String c s' => if is_nl c then EmptyString else String c (getline s')
  | EmptyString => EmptyString
  end.

(** Writing the context to /proc/piga/getsid and reading the answer; [None]
    inside: the file could not be opened. *)
Definition ask_sid (w : world) (sid : string) : option (option Z * world) :=
  let '(ok, open) := kalloc (w_open w) in
  if negb ok then Some (None, mk_world (w_ss w) (w_piga w) (w_kmem w) open)
  else
    '(_, s, g, m) ← piga_proc_getsid_write (w_ss w) (w_piga w) (Some (sid ++ nl)%string) (w_kmem w);
    let '(ok, open) := kalloc open in
    if negb ok then Some (None, mk_world s g m open)
    else
      let '(text, g) := piga_proc_getsid_read g 0 in
      Some (Some (u32 (strtoul (getline text))), mk_world s g m open).

(** ** Values of contexts (ppp.cpp) *)

Definition string_to_sid (st : ppp) (sid : string) : option (Z * ppp) :=
  let finish res st := if res =? 0 then (res, set_invalid_context st true) else (res, st) in
  match sid_map st !! sid with
  | None =>
      '(answer, w) ← ask_sid (pp_world st) sid;
      match answer with
      | None => Some (u32 (-1), set_invalid_context (set_sids st (sid_map st) (stat_sid_map st) w) true)
      | Some res => Some (finish res (set_sids st (<[sid := res]> (sid_map st)) (<[sid := 1]> (stat_sid_map st)) w))
      end
  | Some res => Some (finish res (set_sids st (sid_map st) (incr (stat_sid_map st) sid) (pp_world st)))
  end.

Definition stat_perm (st : ppp) (tclass requested : string) : ppp :=
  if bool_decide (requested = EmptyString)
  then set_requests st (tclass_map st) (request_list st) (incr (stat_tclass_map st) tclass) (stat_requested_map st)
  else set_requests st (tclass_map st) (request_list st) (stat_tclass_map st) (incr (stat_requested_map st) requested).

(** ** Sequences (ppp/piga.c) *)

Definition piga_seq_add_link (st : ppp) : option ppp :=
  s ← s_at st (curr_seq st);
  st ← put_seq st (curr_seq st) (mk_sequence (u32 (sq_length s + 1)) (sq_current_position s) (sq_link_offset s));
  Some (set_arrays st (pp_s st) (pp_l st) (curr_seq st) (u32 (curr_link st + 1))).

(** The links [piga_seq_print] reads, from the [i]-th on; [n] are left. *)
Fixpoint print_from (st : ppp) (s : sequence) (n : nat) (i : Z) : option (list link) :=
  match n with
  | O => Some []
  | S n' =>
      l ← l_at st (u32 (sq_link_offset s + i));
      rest ← print_from st s n' (i + 1);
      Some (l :: rest)
  end.
Definition piga_seq_print (st : ppp) : option (list link) :=
  s ← s_at st (curr_seq st);
  print_from st s (Z.to_nat (sq_length s)) 0.

(** ** Parser (ppp.y) *)

Section parser.
(** libselinux: the numbers of classes and permissions. *)
Context (lib_class : string -> Z) (lib_perm : Z -> string -> Z) (verbose : bool).

(** The action of [vector], with [$1]: the requests collected so far become
    the vector of the current link. *)
Fixpoint add_requests (st : ppp) (class : string) (tclass : Z) (l : list string) (requested : Z) : Z * ppp :=
  match l with
  | [] => (requested, st)
  | it :: l' => add_requests (stat_perm st class it) class tclass l' (requested .| lib_perm tclass it)
  end.

Definition vector_action (st : ppp) (class : string) : option ppp :=
  l ← l_at st (curr_link st);
  let tclass := u16 (lib_class class) in
  let st := set_requests st (<[class := tclass]> (tclass_map st)) (request_list st) (stat_tclass_map st)
              (stat_requested_map st) in
  let '(requested, st) := add_requests st class tclass (request_list st) 0 in
  st ← put_link st (curr_link st) (mk_link (lk_cs l) (lk_cc l) tclass requested);
  let st := stat_perm st class EmptyString in
  Some (set_requests st (tclass_map st) [] (stat_tclass_map st) (stat_requested_map st)).

(** The action of [transition], with [$1] and [$5]. *)
Definition transition_action (st : ppp) (from to : string) : option ppp :=
  '(cs, st) ← string_to_sid st from;
  l ← l_at st (curr_link st);
  st ← put_link st (curr_link st) (mk_link cs (lk_cc l) (lk_tclass l) (lk_requested l));
  '(cc, st) ← string_to_sid st to;
  l ← l_at st (curr_link st);
  st ← put_link st (curr_link st) (mk_link (lk_cs l) cc (lk_tclass l) (lk_requested l));
  piga_seq_add_link st.

(** The action of both forms of [line]. *)
Definition line_action (st : ppp) : option ppp :=
  st ← (if invalid_context st then
          Some (set_invalid_context (set_counts st (pp_loaded st) (u32 (pp_ignored st + 1))) false)
        else
          _ ← (if verbose then piga_seq_print st else Some []);
          Some (set_counts st (u32 (pp_loaded st + 1)) (pp_ignored st)));
  s ← s_at st (curr_seq st);
  let cl := u32 (curr_link st + sq_length s) in
  let cs := u32 (curr_seq st + 1) in
  let st := set_arrays st (pp_s st) (pp_l st) cs cl in
  s ← s_at st cs;
  put_seq st cs (mk_sequence (sq_length s) (sq_current_position s) cl).

(** [request_list.push_back($<str>1)]: in both rules [$1] is the first word. *)
Definition push_request (st : ppp) (word : string) : ppp :=
  set_requests st (tclass_map st) (request_list st ++ [word]) (stat_tclass_map st) (stat_requested_map st).

(** What has been read of the current line, with the values needed later. *)
Inductive pstate :=
| at_line                                   (* before the first line *)
| at_type | at_dash | at_bool | at_sign     (* TYPE, TYPE '-', BOOL, ':' or ';' *)
| at_sid (from : string)                    (* SID *)
| at_start (from : string)                  (* AVPERMSTART *)
| at_class (from class : string)            (* WORD *)
| at_brace (from class : string)            (* '{' *)
| at_request (from class first : string)    (* request *)
| at_vector (from : string)                 (* vector *)
| at_end (from : string)                    (* AVPERMEND *)
| at_transition                             (* signature *)
| at_eol.                                   (* file EOL *)

Inductive outcome := Shift (q : pstate) (st : ppp) | Accept (st : ppp) | SyntaxError.

Definition is_chr (n : Z) (c : ascii) : bool := code c =? n.

Definition yystep (q : pstate) (t : token) (st : ppp) : option outcome :=
  let shift q := Some (Shift q st) in
  let error := Some SyntaxError in
  match q, t with
  | at_line, TYPE _ | at_eol, TYPE _ => shift at_type
  | at_line, BOOL _ | at_eol, BOOL _ => shift at_bool
  | at_eol, ENDF => Some (Accept st)
  | at_type, CHAR c => if is_chr 45 c then shift at_dash else error
  | at_dash, BOOL _ => shift at_bool
  | at_bool, CHAR c => if is_chr 58 c then shift at_sign else error
  | at_sign, SID from => shift (at_sid from)
  | at_sid from, AVPERMSTART => shift (at_start from)
  | at_start from, WORD class => shift (at_class from class)
  | at_class from class, CHAR c => if is_chr 123 c then shift (at_brace from class) else error
  | at_brace from class, WORD word => Some (Shift (at_request from class word) (push_request st word))
  | at_request from class first, WORD _ => Some (Shift (at_request from class first) (push_request st first))
  | at_request from class _, CHAR c =>
      if is_chr 125 c then st ← vector_action st class; Some (Shift (at_vector from) st) else error
  | at_vector from, AVPERMEND => shift (at_end from)
  | at_end from, SID to => st ← transition_action st from to; Some (Shift at_transition st)
  | at_transition, CHAR c => if is_chr 59 c then shift at_sign else error
  | at_transition, EOL => st ← line_action st; Some (Shift at_eol st)
  | at_transition, ENDF => st ← line_action st; Some (Accept st)
  | _, _ => error
  end.

Fixpoint yyparse (q : pstate) (ts : list token) (st : ppp) : option (Z * ppp) :=
  match ts with
  | [] => Some (1, st)
  | t :: ts' =>
      o ← yystep q t st;
      match o with
      | Shift q st => yyparse q ts' st
      | Accept st => Some (0, st)
      | SyntaxError => Some (1, st)
      end
  end.

(** ** The program (main.cpp) *)

(** The system call gets the first [curr_seq] sequences and the first
    [curr_link] links, if the second array is as long. *)
Definition set_sequence (st : ppp) : option (Z * world) :=
  let w := pp_world st in
  if LINKS <? curr_link st then None
  else
    '(rc, g, m) ← sys_piga_add_sequence (w_piga w) (curr_seq st) (curr_link st)
                    (UArray (pp_s st <$> seqZ 0 (curr_seq st))) (UArray (pp_l st <$> seqZ 0 (curr_link st))) (w_kmem w);
    Some (rc, mk_world (w_ss w) g m (w_open w)).

(** [main] without options that end it; [s0] and [l0]: the contents of the
    memory; the two answers of [malloc] are [mem].  Result: the exit status,
    the variables and the kernel. *)
Definition ppp_start (s0 : Z -> sequence) (l0 : Z -> link) (w : world) : ppp :=
  mk_ppp (<[0 := mk_sequence (sq_length (s0 0)) (sq_current_position (s0 0)) 0]> s0) l0 0 0 ∅ [] false ∅ ∅ ∅ ∅ 0 0 w.

Definition ppp_main (text : string) (s0 : Z -> sequence) (l0 : Z -> link) (mem : kmem) (w : world)
    : option (Z * option ppp * world) :=
  let '(ok1, mem) := kalloc mem in
  let '(ok2, mem) := kalloc mem in
  if negb (ok1 && ok2) then Some (-1, None, w)
  else
    '(res, st) ← yyparse at_line (scan_file text) (ppp_start s0 l0 w);
    if nz res then Some (-1, Some st, pp_world st)
    else
      '(res, w) ← set_sequence st;
      Some (if nz res then -1 else 0, Some st, w).
End parser.

(** ** The scanner is total *)

Lemma longest_pick pre f act post l best :
  Forall (fun r => (r.1 l < f l)%nat) pre -> Forall (fun r => (r.1 l <= f l)%nat) post -> (best.1 < f l)%nat ->
  longest (pre ++ (f, act) :: post) l best = (f l, act).
Proof.
  intros Hpre Hpost. revert best. induction Hpre as [|[g a] pre Hg _ IH]; intros best Hb; cbn [app longest].
  - destruct (Nat.ltb_spec best.1 (f l)); [|lia]. clear Hb best H.
    induction Hpost as [|[g a] post Hg _ IH]; [done|]. cbn [longest fst] in *. destruct (Nat.ltb_spec (f l) (g l)); [lia|exact IH].
  - apply IH. cbn [fst] in Hg. by destruct (Nat.ltb_spec best.1 (g l)).
Qed.

Lemma longest_mono rules l best : (best.1 <= (longest rules l best).1)%nat.
Proof.
  revert best. induction rules as [|[f a] rules IH]; intros best; cbn [longest]; [done|].
  etrans; [|apply IH]. destruct (Nat.ltb_spec best.1 (f l)); cbn; lia.
Qed.

Lemma longest_bound rules l best n :
  Forall (fun r => (r.1 l <= n)%nat) rules -> (best.1 <= n)%nat -> ((longest rules l best).1 <= n)%nat.
Proof.
  intros H. revert best. induction H as [|[f a] rules Hf _ IH]; intros best Hb; cbn [longest]; [done|].
  apply IH. by destruct (Nat.ltb_spec best.1 (f l)).
Qed.

Lemma longest_above rules l best f act : (f, act) ∈ rules -> (f l <= (longest rules l best).1)%nat.
Proof.
  revert best. induction rules as [|[g a] rules IH]; intros best Hin; [by apply elem_of_nil in Hin|]. cbn [longest].
  apply elem_of_cons in Hin as [[= -> ->]|Hin]; [|by apply IH]. etrans; [|apply longest_mono].
  destruct (Nat.ltb_spec best.1 (g l)); cbn; lia.
Qed.

Lemma run_length p l : (run p l <= length l)%nat.
Proof. induction l as [|c l IH]; cbn; [done|]. destruct (p c); lia. Qed.
Lemma one_length p l : (one p l <= length l)%nat.
Proof. destruct l; cbn; [done|]. case_match; lia. Qed.
Lemma then_colon_length n l l' : then_colon n l = Some l' -> (n + 1 + length l' = length l)%nat.
Proof.
  unfold then_colon. destruct n as [|n]; [done|]. destruct (drop (S n) l) as [|c l1] eqn:E; [done|].
  destruct (is_colon c); [|done]. intros [= ->]. apply (f_equal length) in E. rewrite length_drop in E. cbn [length] in E. lia.
Qed.
Lemma sid_len_length l : (sid_len l <= length l)%nat.
Proof.
  unfold sid_len. destruct (then_colon (run is_name l) l) as [l2|] eqn:E1; [|lia].
  destruct (then_colon (run is_name l2) l2) as [l3|] eqn:E2; [|lia].
  apply then_colon_length in E1, E2. pose proof (run_length is_name l3). destruct (run is_name l3); lia.
Qed.
Lemma lit_length t l : (lit t l <= length l)%nat.
Proof. unfold lit. case_bool_decide as H; [|lia]. apply (f_equal length) in H. rewrite length_take in H. lia. Qed.
Lemma comment_length l : (comment_len l <= length l)%nat.
Proof.
  unfold comment_len. destruct l as [|c l]; [done|]. destruct (is_one_of "#" c); [|lia].
  destruct (drop _ l) eqn:E; [lia|]. apply (f_equal length) in E. rewrite length_drop in E. cbn [length] in *. lia.
Qed.
#[local] Hint Resolve run_length one_length sid_len_length lit_length comment_length : core.

Lemma rules_length bol l : Forall (fun r => (r.1 l <= length l)%nat) (lex_rules bol).
Proof. unfold lex_rules, at_bol. repeat (constructor; [by destruct bol; cbn; auto with lia|]). constructor. Qed.

(** Every text that is left gives a match, of at least one character of it. *)
Lemma longest_match bol c l a n act :
  longest (lex_rules bol) (c :: l) (0%nat, a) = (n, act) -> (0 < n <= length (c :: l))%nat.
Proof.
  intros H. split.
  - assert (exists f b, (f, b) ∈ lex_rules bol /\ (0 < f (c :: l))%nat) as (f & b & Hin & Hf).
    { destruct (is_nl c) eqn:E.
      - exists (one is_nl), (fun _ => Some EOL). split; [unfold lex_rules; set_solver|]. cbn. rewrite E. lia.
      - exists (one (fun c => negb (is_nl c))), (fun l => CHAR <$> head l). split; [unfold lex_rules; set_solver|]. cbn. rewrite E. cbn. lia. }
    pose proof (longest_above _ (c :: l) (0%nat, a) _ _ Hin) as Hn. rewrite H in Hn. cbn in Hn. lia.
  - pose proof (longest_bound (lex_rules bol) (c :: l) (0%nat, a) _ (rules_length bol _)) as Hn. rewrite H in Hn. apply Hn. cbn. lia.
Qed.

(** The tokens of a text, whatever the fuel, if it is enough. *)
Definition lexes (bol : bool) (l : list ascii) (ts : list token) : Prop :=
  forall fuel, (length l <= fuel)%nat -> yylex_all fuel bol l = ts.

Lemma lexes_nil bol : lexes bol [] [ENDF].
Proof. by intros [|fuel] _. Qed.

Lemma lexes_step bol c l n act ts :
  longest (lex_rules bol) (c :: l) (0%nat, fun _ => None) = (n, act) ->
  lexes (match last (take n (c :: l)) with Some c => is_nl c | None => bol end) (drop n (c :: l)) ts ->
  lexes bol (c :: l) (option_list (act (take n (c :: l))) ++ ts).
Proof.
  intros Hl Hr [|fuel] Hf; [by cbn in Hf; lia|]. cbn [yylex_all]. rewrite Hl.
  rewrite (Hr fuel); [by destruct (act _)|]. apply longest_match in Hl. rewrite length_drop. lia.
Qed.

(** Every text has tokens, and they end with the end of the file. *)
Lemma lexes_total bol l : exists ts, lexes bol l (ts ++ [ENDF]).
Proof.
  remember (length l) as n eqn:Hn. revert bol l Hn. induction (lt_wf n) as [n _ IH]. intros bol [|c l] Hn.
  { exists []. apply lexes_nil. }
  destruct (longest (lex_rules bol) (c :: l) (0%nat, fun _ => None)) as [k act] eqn:E. pose proof (longest_match _ _ _ _ _ _ E) as Hk.
  destruct (IH (length (drop k (c :: l)))) with (bol := match last (take k (c :: l)) with Some c => is_nl c | None => bol end) (l := drop k (c :: l)) as [ts Hts];
    [rewrite length_drop; cbn [length] in *; lia|done|].
  exists (option_list (act (take k (c :: l))) ++ ts). rewrite <- app_assoc. by apply lexes_step.
Qed.

Lemma lexes_scan text ts : lexes true (list_ascii_of_string text) ts -> scan_file text = ts.
Proof. intros H. by apply H. Qed.

(** ** Texts of tokens *)

Definition chars (p : ascii -> bool) (s : string) : Prop :=
  s <> EmptyString /\ forallb p (list_ascii_of_string s) = true.

(** The tokens of the grammar; the last argument of [CHAR] is one of its own. *)
Definition tok_ok (t : token) : Prop :=
  match t with
  | TYPE s => chars is_type s
  | BOOL s => chars is_bool s
  | WORD s => chars is_word s
  | SID s => exists u r n, s = (u ++ ":" ++ r ++ ":" ++ n)%string /\ chars is_name u /\ chars is_name r /\ chars is_name n
  | CHAR c => is_one_of "-:{};" c = true
  | AVPERMSTART | AVPERMEND => True
  | EOL | ENDF => False
  end.

Definition tok_chars (t : token) : list ascii :=
  match t with
  | TYPE s | BOOL s | SID s | WORD s => list_ascii_of_string s
  | CHAR c => [c]
  | AVPERMSTART => list_ascii_of_string "-("
  | AVPERMEND => list_ascii_of_string ")->"
  | EOL => list_ascii_of_string nl
  | ENDF => []
  end.

Definition blank : ascii := ascii_of_nat 32.

Lemma lexes_blank l ts : lexes false l ts -> lexes false (blank :: l) ts.
Proof. intros H. by apply (lexes_step false blank l 1 (fun _ => None) ts). Qed.

Lemma lexes_eol l ts : lexes true l ts -> lexes false (list_ascii_of_string nl ++ l) (EOL :: ts).
Proof. intros H. by apply (lexes_step false (ascii_of_nat 10) l 1 (fun _ => Some EOL) ts). Qed.

Lemma class_type c : is_type c = true ->
  is_bool c = false /\ is_name c = false /\ is_word c = false /\ is_blank c = false /\ is_nl c = false /\ is_one_of "#" c = false /\
  is_one_of "-:{}();" c = false /\ c <> ascii_of_nat 45 /\ c <> ascii_of_nat 41.
Proof. destruct c as [[] [] [] [] [] [] [] []]; vm_compute; intros [=]; intuition discriminate. Qed.
Lemma class_bool c : is_bool c = true ->
  is_type c = false /\ is_word c = false /\ is_colon c = false /\ is_blank c = false /\ is_nl c = false /\ is_one_of "#" c = false /\
  is_one_of "-:{}();" c = false /\ c <> ascii_of_nat 45 /\ c <> ascii_of_nat 41.
Proof. destruct c as [[] [] [] [] [] [] [] []]; vm_compute; intros [=]; intuition discriminate. Qed.
Lemma class_word c : is_word c = true ->
  is_type c = false /\ is_bool c = false /\ is_colon c = false /\ is_blank c = false /\ is_nl c = false /\ is_one_of "#" c = false /\
  is_one_of "-:{}();" c = false /\ c <> ascii_of_nat 45 /\ c <> ascii_of_nat 41.
Proof. destruct c as [[] [] [] [] [] [] [] []]; vm_compute; intros [=]; intuition discriminate. Qed.
Lemma class_name c : is_name c = true ->
  is_type c = false /\ is_colon c = false /\ is_blank c = false /\ is_nl c = false /\ is_one_of "#" c = false /\
  is_one_of "-:{}();" c = false /\ c <> ascii_of_nat 45 /\ c <> ascii_of_nat 41.
Proof. destruct c as [[] [] [] [] [] [] [] []]; vm_compute; intros [=]; intuition discriminate. Qed.

Lemma run_all p w c l : forallb p w = true -> p c = false -> run p (w ++ c :: l) = length w.
Proof.
  intros Hw Hc. induction w as [|d w IH]; cbn in *; [by rewrite Hc|]. apply andb_true_iff in Hw as [Hd Hw].
  by rewrite Hd, IH.
Qed.
Lemma run_stop p w c l : p c = false -> run p (w ++ c :: l) = run p w.
Proof. intros Hc. induction w as [|d w IH]; cbn; [by rewrite Hc|]. destruct (p d); [by rewrite IH|done]. Qed.
Lemma run_head p c l : p c = false -> run p (c :: l) = 0%nat.
Proof. cbn. by intros ->. Qed.
Lemma one_head p c l : p c = false -> one p (c :: l) = 0%nat.
Proof. cbn. by intros ->. Qed.
Lemma one_le p c l : (one p (c :: l) <= 1)%nat.
Proof. cbn. case_match; lia. Qed.
Lemma lit_head d t c l : c <> d -> lit (String d t) (c :: l) = 0%nat.
Proof. intros H. unfold lit. case_bool_decide as E; [|done]. cbn in E. congruence. Qed.
Lemma comment_head c l : is_one_of "#" c = false -> comment_len (c :: l) = 0%nat.
Proof. cbn. by intros ->. Qed.

Lemma then_colon_none n c l : drop n l = c :: drop (S n) l -> is_colon c = false -> then_colon n l = None.
Proof. intros E Hc. unfold then_colon. destruct n; [done|]. rewrite E. by rewrite Hc. Qed.

(** Without a colon in front of the blank there is no context. *)
Lemma sid_len_none w l : forallb (fun c => negb (is_colon c)) w = true -> sid_len (w ++ blank :: l) = 0%nat.
Proof.
  intros Hw. unfold sid_len. rewrite run_stop by done.
  assert (exists c, drop (run is_name w) (w ++ blank :: l) = c :: drop (S (run is_name w)) (w ++ blank :: l) /\ is_colon c = false)
    as (c & Hd & Hc).
  { pose proof (run_length is_name w) as Hn. destruct (decide (run is_name w < length w)%nat) as [H|H].
    - destruct (lookup_lt_is_Some_2 w _ H) as [c Hc]. exists c. split; [apply drop_S; by apply lookup_app_l_Some|].
      apply list_elem_of_lookup_2, list_elem_of_In in Hc. rewrite forallb_forall in Hw. apply Hw in Hc. by destruct (is_colon c).
    - exists blank. split; [|done]. apply drop_S. rewrite lookup_app_r by lia. by replace (run is_name w - length w)%nat with O by lia. }
  by rewrite (then_colon_none _ _ _ Hd Hc).
Qed.

Lemma sid_len_class p w l : (forall c, p c = true -> is_colon c = false) -> forallb p w = true -> sid_len (w ++ blank :: l) = 0%nat.
Proof. intros Hp Hw. apply sid_len_none. rewrite forallb_forall in *. intros c Hc. by rewrite (Hp c) by auto. Qed.

Ltac rules_zero := repeat first
  [ rewrite run_head by done | rewrite one_head by done | rewrite lit_head by done | rewrite comment_head by done ].

(** What is left to show of a rule that is not the longest. *)
Ltac rules_other bol := cbn [take drop lex_rules]; repeat (apply Forall_cons; split; [cbn [fst]; unfold at_bol; try destruct bol|]); [..|constructor];
  rules_zero; try lia; try (etrans; [apply one_le|lia]).

Lemma chars_cons p s : chars p s -> exists c w, list_ascii_of_string s = c :: w /\ p c = true /\ forallb p (c :: w) = true.
Proof.
  intros [Hne H]. destruct s as [|c s]; [done|]. exists c, (list_ascii_of_string s). split; [done|]. split; [|done].
  cbn in H. by apply andb_true_iff in H as [? _].
Qed.

Lemma longest_type bol s l a : chars is_type s ->
  longest (lex_rules bol) (list_ascii_of_string s ++ blank :: l) (0%nat, a) =
  (length (list_ascii_of_string s), fun l => Some (TYPE (string_of_list_ascii l))).
Proof.
  intros (c & w & -> & Hc & Hw)%chars_cons. destruct (class_type c Hc) as (H1 & H2 & H3 & H4 & H5 & H6 & H7 & H8 & H9).
  assert (sid_len (c :: w ++ blank :: l) = 0%nat) as Hs by (unfold sid_len; by rewrite run_head).
  rewrite <- (run_all is_type (c :: w) blank l Hw eq_refl).
  apply (longest_pick [] _ _ (drop 1 (lex_rules bol))); [constructor| |]; rewrite (run_all is_type (c :: w) blank l Hw eq_refl);
    [|cbn; lia]. cbn [app length]. rules_other bol; rewrite ?Hs; lia.
Qed.

Lemma longest_bool bol s l a : chars is_bool s ->
  longest (lex_rules bol) (list_ascii_of_string s ++ blank :: l) (0%nat, a) =
  (length (list_ascii_of_string s), fun l => Some (BOOL (string_of_list_ascii l))).
Proof.
  intros (c & w & -> & Hc & Hw)%chars_cons. destruct (class_bool c Hc) as (H1 & H2 & H3 & H4 & H5 & H6 & H7 & H8 & H9).
  pose proof (sid_len_class is_bool (c :: w) l (fun d Hd => proj1 (proj2 (proj2 (class_bool d Hd)))) Hw) as Hs.
  rewrite <- (run_all is_bool (c :: w) blank l Hw eq_refl).
  apply (longest_pick (take 1 (lex_rules bol)) _ _ (drop 2 (lex_rules bol))); rewrite (run_all is_bool (c :: w) blank l Hw eq_refl);
    [..|cbn; lia]; cbn [app length] in *; rules_other bol; rewrite ?Hs; lia.
Qed.

Lemma longest_word bol s l a : chars is_word s ->
  longest (lex_rules bol) (list_ascii_of_string s ++ blank :: l) (0%nat, a) =
  (length (list_ascii_of_string s), fun l => Some (WORD (string_of_list_ascii l))).
Proof.
  intros (c & w & -> & Hc & Hw)%chars_cons. destruct (class_word c Hc) as (H1 & H2 & H3 & H4 & H5 & H6 & H7 & H8 & H9).
  pose proof (sid_len_class is_word (c :: w) l (fun d Hd => proj1 (proj2 (proj2 (class_word d Hd)))) Hw) as Hs.
  rewrite <- (run_all is_word (c :: w) blank l Hw eq_refl).
  apply (longest_pick (take 3 (lex_rules bol)) _ _ (drop 4 (lex_rules bol))); rewrite (run_all is_word (c :: w) blank l Hw eq_refl);
    [..|cbn; lia]; cbn [app length] in *; rules_other bol; rewrite ?Hs; lia.
Qed.

Lemma list_ascii_app s t : list_ascii_of_string (s ++ t) = list_ascii_of_string s ++ list_ascii_of_string t.
Proof. induction s as [|c s IH]; [done|]. change (String c s +:+ t) with (String c (s +:+ t)). cbn. by rewrite IH. Qed.

Lemma then_colon_app n w l : length w = n -> (0 < n)%nat -> then_colon n (w ++ ":"%char :: l) = Some l.
Proof.
  intros <- Hn. unfold then_colon. pose proof (drop_app_length w (":"%char :: l)) as E.
  destruct (length w); [lia|]. by rewrite E.
Qed.

Lemma sid_len_app u r n l :
  chars is_name u -> chars is_name r -> chars is_name n ->
  sid_len (list_ascii_of_string u ++ ":"%char :: list_ascii_of_string r ++ ":"%char :: list_ascii_of_string n ++ blank :: l)
  = length (list_ascii_of_string (u ++ ":" ++ r ++ ":" ++ n)).
Proof.
  intros (cu & wu & Eu & _ & Hu)%chars_cons (cr & wr & Er & _ & Hr)%chars_cons (cn & wn & En & _ & Hn)%chars_cons.
  rewrite !list_ascii_app. cbn [list_ascii_of_string]. rewrite Eu, Er, En. unfold sid_len.
  rewrite (run_all is_name (cu :: wu) ":"%char _ Hu eq_refl), (then_colon_app _ (cu :: wu)) by (cbn; lia).
  rewrite (run_all is_name (cr :: wr) ":"%char _ Hr eq_refl), (then_colon_app _ (cr :: wr)) by (cbn; lia).
  rewrite (run_all is_name (cn :: wn) blank _ Hn eq_refl). repeat (rewrite ?length_app; cbn [length]). lia.
Qed.

Lemma longest_sid bol u r n l a : chars is_name u -> chars is_name r -> chars is_name n ->
  longest (lex_rules bol) (list_ascii_of_string (u ++ ":" ++ r ++ ":" ++ n) ++ blank :: l) (0%nat, a) =
  (length (list_ascii_of_string (u ++ ":" ++ r ++ ":" ++ n)), fun l => Some (SID (string_of_list_ascii l))).
Proof.
  intros Hu Hr Hn. pose proof (sid_len_app u r n l Hu Hr Hn) as Hs.
  rewrite !list_ascii_app in *. cbn [list_ascii_of_string app] in *. rewrite <- !app_assoc. cbn [app]. rewrite <- !app_assoc. cbn [app].
  destruct (chars_cons _ _ Hu) as (c & w & E & Hc & Hw). rewrite E in *.
  destruct (class_name c Hc) as (H1 & H3 & H4 & H5 & H6 & H7 & H8 & H9).
  assert (forall p, p ":"%char = false -> (run p ((c :: w) ++ ":"%char :: list_ascii_of_string r ++ ":"%char :: list_ascii_of_string n ++ blank :: l) <= S (length w))%nat)
    as Hrun by (intros p Hp; rewrite run_stop by done; apply (run_length p (c :: w))).
  pose proof (Hrun is_bool eq_refl) as Hb. pose proof (Hrun is_word eq_refl) as Hwd.
  assert (S (length w) < length ((c :: w) ++ ":"%char :: list_ascii_of_string r ++ ":"%char :: list_ascii_of_string n))%nat as Hlt
    by (repeat (rewrite ?length_app; cbn [length]); lia).
  rewrite <- Hs in Hlt |- *. apply (longest_pick (take 2 (lex_rules bol)) _ _ (drop 3 (lex_rules bol)));
    [..|cbn [fst]; lia]; cbn [app] in *; rules_other bol.
Qed.

Lemma lexes_text bol w act l t ts :
  longest (lex_rules bol) (w ++ blank :: l) (0%nat, fun _ => None) = (length w, act) -> act w = Some t ->
  forallb (fun c => negb (is_nl c)) w = true -> lexes false l ts -> lexes bol (w ++ blank :: l) (t :: ts).
Proof.
  intros Hl Hact Hw H. destruct w as [|c w].
  { apply longest_match in Hl. cbn in Hl. lia. }
  pose proof (lexes_step bol c (w ++ blank :: l) _ act ts Hl) as Hs.
  change (c :: w ++ blank :: l) with ((c :: w) ++ blank :: l) in Hs. rewrite take_app_length, drop_app_length, Hact in Hs.
  apply Hs. destruct (last (c :: w)) as [d|] eqn:E; [|by apply last_None in E].
  apply last_Some_elem_of, list_elem_of_In in E. rewrite forallb_forall in Hw. apply Hw in E. destruct (is_nl d); [done|]. by apply lexes_blank.
Qed.

Lemma chars_no_nl p s : (forall c, p c = true -> is_nl c = false) -> chars p s ->
  forallb (fun c => negb (is_nl c)) (list_ascii_of_string s) = true.
Proof. intros Hp [_ H]. rewrite forallb_forall in *. intros c Hc. by rewrite (Hp c) by auto. Qed.

Lemma lexes_token t l ts bol : tok_ok t -> lexes false l ts -> lexes bol (tok_chars t ++ blank :: l) (t :: ts).
Proof.
  intros Ht Hl. destruct t as [s|s|s|s| | | | |c]; try done; cbn [tok_ok tok_chars] in *.
  - eapply lexes_text; [by apply longest_type|by cbn; rewrite string_of_list_ascii_of_string| |done].
    apply (chars_no_nl is_type); [|done]. intros c Hc. apply (class_type c Hc).
  - eapply lexes_text; [by apply longest_bool|by cbn; rewrite string_of_list_ascii_of_string| |done].
    apply (chars_no_nl is_bool); [|done]. intros c Hc. apply (class_bool c Hc).
  - destruct Ht as (u & r & n & -> & Hu & Hr & Hn).
    eapply lexes_text; [by apply longest_sid|by cbn beta; rewrite string_of_list_ascii_of_string| |done].
    assert (forall s, chars is_name s -> forallb (fun c => negb (is_nl c)) (list_ascii_of_string s) = true) as Hnl
      by (intros s; apply chars_no_nl; intros c Hc; apply (class_name c Hc)).
    by rewrite !list_ascii_app, !forallb_app, (Hnl u Hu), (Hnl r Hr), (Hnl n Hn).
  - eapply lexes_text; [by apply longest_word|by cbn; rewrite string_of_list_ascii_of_string| |done].
    apply (chars_no_nl is_word); [|done]. intros c Hc. apply (class_word c Hc).
  - by destruct bol; eapply lexes_text.
  - by destruct bol; eapply lexes_text.
  - destruct c as [[] [] [] [] [] [] [] []]; try (vm_compute in Ht; discriminate Ht); destruct bol; by eapply lexes_text.
Qed.
