(* ===== verification/PigaProcfs.v ===== *)
(** * Setting up /proc/piga (security/selinux/piga/procfs.c, piga.c)

    [init_piga_procfs] with the functions of fs/proc/generic.c it calls, the
    two files left over from an older way of loading sequences, and the
    functions of piga.c that do nothing yet.

    The entries of /proc are a list, the newest first; an entry is known by its
    number, and the number 0 is the root.  The callers of an entry that is
    removed are not modelled. *)

From Stdlib Require Import Ascii String.
From S2P Require Import Prelude Hashtab Policydb Mls Piga Ppp.

(** ** /proc (fs/proc/generic.c) *)

(** The pairs of functions an entry can be given. *)
Inductive piga_file := PStatus | PMode | PGetsid | PLoadSequence | PLoadLink | PPolicy.
#[export] Instance piga_file_dec : EqDecision piga_file.
Proof. solve_decision. Defined.

Record proc_dir_entry := mk_proc_dir_entry {
  pde_id : nat;
  pde_name : string;
  pde_mode : Z;
  pde_parent : nat;
  pde_procs : option piga_file        (* [read_proc] and [write_proc] *)
}.

(** Modes, in octal: 0170000, 0040000, 0100000, 07777, 0444, 0111. *)
Definition S_IFMT : Z := 0xF000.
Definition S_IFDIR : Z := 0x4000.
Definition S_IFREG : Z := 0x8000.
Definition S_IALLUGO : Z := 0xFFF.
Definition S_IRUGO : Z := 0x124.
Definition S_IXUGO : Z := 0x49.

(** All the entries, and the next number. *)
Record proc_tree := mk_proc_tree { pt_entries : list proc_dir_entry; pt_next : nat }.

(** [__proc_create] and [proc_register]: memory for the entry, and for its
    inode number. *)
Definition proc_add (name : string) (mode : Z) (parent : nat) (t : proc_tree) (m : kmem) : option nat * proc_tree * kmem :=
  let '(ok, m) := kalloc m in
  if negb ok then (None, t, m)
  else
    let '(ok, m) := kalloc m in
    if negb ok then (None, t, m)
    else
      let id := pt_next t in
      (Some id, mk_proc_tree (mk_proc_dir_entry id name mode parent None :: pt_entries t) (S id), m).

Definition proc_mkdir (name : string) (parent : nat) (t : proc_tree) (m : kmem) :=
  proc_add name (S_IFDIR .| (S_IRUGO .| S_IXUGO)) parent t m.

Definition create_proc_entry (name : string) (mode : Z) (parent : nat) (t : proc_tree) (m : kmem) :=
  let mode :=
    if (mode .& S_IFMT) =? S_IFDIR then
      if (mode .& S_IALLUGO) =? 0 then mode .| (S_IRUGO .| S_IXUGO) else mode
    else
      let mode := if (mode .& S_IFMT) =? 0 then mode .| S_IFREG else mode in
      if (mode .& S_IALLUGO) =? 0 then mode .| S_IRUGO else mode in
  proc_add name mode parent t m.

(** The first entry with the name, of those under [parent], is taken out. *)
Fixpoint remove_entry (name : string) (parent : nat) (l : list proc_dir_entry) : list proc_dir_entry :=
  match l with
  | [] => []
  | e :: l' =>
      if bool_decide (pde_parent e = parent) && (strcmp (pde_name e) name =? 0) then l'
      else e :: remove_entry name parent l'
  end.
Definition remove_proc_entry (name : string) (parent : nat) (t : proc_tree) : proc_tree :=
  mk_proc_tree (remove_entry name parent (pt_entries t)) (pt_next t).

(** ** [init_piga_procfs] *)

(** [piga_proc_x->read_proc = ...; ...; piga_proc_x->mode = S_IFREG | S_IRUGO;] *)
Definition set_procs (id : nat) (f : piga_file) (t : proc_tree) : proc_tree :=
  mk_proc_tree ((fun e => if bool_decide (pde_id e = id)
                          then mk_proc_dir_entry id (pde_name e) (S_IFREG .| S_IRUGO) (pde_parent e) (Some f) else e)
                  <$> pt_entries t) (pt_next t).

(** The modes 0600, 0200 and 0400. *)
Definition piga_files : list (string * Z * piga_file) :=
  [("status"%string, 0x180, PStatus); ("mode"%string, 0x180, PMode); ("getsid"%string, 0x180, PGetsid);
   ("load_sequence"%string, 0x80, PLoadSequence); ("load_link"%string, 0x80, PLoadLink); ("policy"%string, 0x100, PPolicy)].

(** The files in turn; [created]: what [remove_proc_entry] is called with when
    a file cannot be created, the last one first.  Each entry that was created
    is given as its own parent. *)
Fixpoint create_files (files : list (string * Z * piga_file)) (dir : nat) (created : list (string * nat)) (t : proc_tree) (m : kmem)
    : Z * proc_tree * kmem :=
  match files with
  | [] => (0, t, m)
  | (name, mode, f) :: files' =>
      let '(ent, t, m) := create_proc_entry name mode dir t m in
      match ent with
      | None => (- ENOMEM, foldl (fun t c => remove_proc_entry c.1 c.2 t) t created, m)
      | Some id => create_files files' dir ((name, id) :: created) (set_procs id f t) m
      end
  end.

Definition init_piga_procfs (t : proc_tree) (m : kmem) : Z * proc_tree * kmem :=
  let '(dir, t, m) := proc_mkdir "piga" 0 t m in
  match dir with
  | None => (- ENOMEM, t, m)
  | Some dir => create_files piga_files dir [("piga"%string, dir)] t m
  end.

(** Its result is not looked at. *)
Definition init_piga (t : proc_tree) (m : kmem) : Z * proc_tree * kmem :=
  let '(_, t, m) := init_piga_procfs t m in (0, t, m).

(** ** Files for loading by address (procfs.c) *)

Definition piga_proc_load_sequence_read (offset : Z) : string :=
  if 0 <? offset then EmptyString else ("PIGA: policy: TODO" ++ nl)%string.

(** [user]: whether a sequence at an address in user space can be read.
    Result: the return value, and whether memory stays allocated that nothing
    points to. *)
Definition piga_proc_load_sequence_write (user : Z -> bool) (buffer : option string) (m : kmem) : Z * bool * kmem :=
  match buffer with
  | None => (- EFAULT, false, m)
  | Some tmp =>
      let '(ok, m) := kalloc m in
      if negb ok then (strlen tmp, false, m)
      else
        let stmp := u64 (digits tmp 0) in
        if negb (user stmp) then (- EFAULT, true, m) else (strlen tmp, true, m)
  end.

Definition piga_proc_load_link_read (offset : Z) : string :=
  if 0 <? offset then EmptyString else ("PIGA: policy: TODO" ++ nl)%string.

(** The pointer is null: nothing is read. *)
Definition piga_proc_load_link_write (buffer : option string) : Z :=
  match buffer with None => - EFAULT | Some tmp => strlen tmp end.

(** ** Functions without effect (piga.c) *)

Definition piga_get_sequence_at (g : piga) (ssid tsid tclass : Z) : list sequence := pg_seq g.
Definition piga_remove_sequence (s : option string) : bool := match s with Some _ => true | None => false end.
Definition piga_move_sequence (ssid tsid tclass ssid2 tsid2 tclass2 : Z) : bool := true.

(** ** What is set up *)

(** The entries whose numbers are used up. *)
Definition tree_wf (t : proc_tree) : Prop :=
  (0 < pt_next t)%nat /\ Forall (fun e => (pde_id e < pt_next t)%nat /\ (pde_parent e < pt_next t)%nat) (pt_entries t).

Lemma remove_entry_none name parent l :
  Forall (fun e => pde_parent e <> parent \/ strcmp (pde_name e) name <> 0) l -> remove_entry name parent l = l.
Proof.
  induction 1 as [|e l He _ IH]; cbn; [done|]. assert (bool_decide (pde_parent e = parent) && (strcmp (pde_name e) name =? 0) = false) as ->.
  { destruct He as [He|He]; [by rewrite bool_decide_eq_false_2|]. apply andb_false_iff. right. by apply Z.eqb_neq. }
  by rewrite IH.
Qed.

Lemma foldl_remove (created : list (string * nat)) t :
  (forall c e, c ∈ created -> e ∈ pt_entries t -> pde_parent e <> c.2 \/ strcmp (pde_name e) c.1 <> 0) ->
  foldl (fun t c => remove_proc_entry c.1 c.2 t) t created = t.
Proof.
  induction created as [|c created IH]; intros H; [done|]. cbn [foldl]. unfold remove_proc_entry at 2. rewrite remove_entry_none.
  - destruct t as [l n]. apply IH. intros c' e Hc He. apply (H c' e); [by right|done].
  - apply Forall_forall. intros e He. apply (H c e); [by left|done].
Qed.

(** The entry of a file, once it has been set up. *)
Definition file_entry (id dir : nat) (x : string * Z * piga_file) : proc_dir_entry :=
  mk_proc_dir_entry id x.1.1 (S_IFREG .| S_IRUGO) dir (Some x.2).

Lemma set_procs_head e l n f : Forall (fun e' => (pde_id e' < pde_id e)%nat) l ->
  set_procs (pde_id e) f (mk_proc_tree (e :: l) n) = mk_proc_tree (file_entry (pde_id e) (pde_parent e) (pde_name e, 0, f) :: l) n.
Proof.
  intros Hl. unfold set_procs. cbn [pt_entries pt_next]. rewrite fmap_cons, bool_decide_eq_true_2 by done. f_equal. f_equal.
  induction Hl as [|x l Hx _ IH]; [done|]. rewrite fmap_cons, IH, bool_decide_eq_false_2 by lia. done.
Qed.

(** The entries for [files], the first with the number [id]. *)
Fixpoint file_entries (id dir : nat) (files : list (string * Z * piga_file)) : list proc_dir_entry :=
  match files with [] => [] | x :: files' => file_entry id dir x :: file_entries (S id) dir files' end.

Record creating (dir : nat) (created : list (string * nat)) (t : proc_tree) : Prop := mk_creating {
  cr_ids : tree_wf t;
  cr_dir : (dir < pt_next t)%nat;
  cr_old : forall c, c ∈ created -> (c.2 < pt_next t)%nat;
  cr_keep : forall c e, c ∈ created -> e ∈ pt_entries t -> pde_parent e <> c.2 \/ strcmp (pde_name e) c.1 <> 0
}.

Lemma create_files_outcome files dir created t m :
  creating dir created t -> Forall (fun x => forall c, c ∈ created -> c.2 = dir -> strcmp x.1.1 c.1 <> 0) files ->
  exists k rc t' m', create_files files dir created t m = (rc, t', m') /\ (k <= length files)%nat /\
    (rc = 0 /\ k = length files \/ rc = - ENOMEM /\ (k < length files)%nat) /\
    pt_entries t' = reverse (file_entries (pt_next t) dir (take k files)) ++ pt_entries t.
Proof.
  revert created t m. induction files as [|[[name mode] f] files IH]; intros created t m [[Hpos Hid] Hdir Hold Hkeep] Hn.
  { exists 0%nat, 0, t, m. split; [done|]. split; [done|]. by split; [left|]. }
  apply Forall_cons in Hn as [Hname Hn]. cbn [create_files]. unfold create_proc_entry. set (mode' := if _ =? S_IFDIR then _ else _). unfold proc_add.
  assert (forall m1 : kmem, exists k rc t' m', (- ENOMEM, foldl (fun t c => remove_proc_entry c.1 c.2 t) t created, m1) = (rc, t', m') /\
    (k <= length ((name, mode, f) :: files))%nat /\ (rc = 0 /\ k = length ((name, mode, f) :: files) \/ rc = - ENOMEM /\ (k < length ((name, mode, f) :: files))%nat) /\
    pt_entries t' = reverse (file_entries (pt_next t) dir (take k ((name, mode, f) :: files))) ++ pt_entries t) as Hfail.
  { intros m1. exists 0%nat, (- ENOMEM), t, m1. rewrite foldl_remove by done. split; [done|]. split; [lia|]. split; [right; cbn; split; [done|lia]|done]. }
  destruct (kalloc m) as [[] m1]; cbn [negb]; [|apply Hfail]. destruct (kalloc m1) as [[] m2]; cbn [negb]; [|apply Hfail]. clear Hfail.
  set (e := mk_proc_dir_entry (pt_next t) name mode' dir None).
  assert (set_procs (pt_next t) f (mk_proc_tree (e :: pt_entries t) (S (pt_next t))) =
          mk_proc_tree (file_entry (pt_next t) dir (name, 0, f) :: pt_entries t) (S (pt_next t))) as ->
    by (apply (set_procs_head e); eapply Forall_impl; [exact Hid|]; by intros ? [? _]).
  destruct (IH ((name, pt_next t) :: created) (mk_proc_tree (file_entry (pt_next t) dir (name, 0, f) :: pt_entries t) (S (pt_next t))) m2)
    as (k & rc & t' & m' & E & Hk & Hrc & Ht).
  - rewrite Forall_forall in Hid. split; cbn [pt_next pt_entries].
    + split; [cbn; lia|]. apply Forall_forall. intros x [->|Hx]%elem_of_cons; cbn; [lia|]. destruct (Hid x Hx). lia.
    + lia.
    + intros c [->|Hc]%elem_of_cons; cbn; [lia|]. specialize (Hold c Hc). lia.
    + intros c x [->|Hc]%elem_of_cons [->|Hx]%elem_of_cons; cbn; [lia| | |by apply Hkeep].
      * destruct (Hid x Hx). left. lia.
      * destruct (decide (c.2 = dir)) as [Hd|Hd]; [right; by apply Hname|by left; congruence].
  - eapply Forall_impl; [exact Hn|]. cbn. intros x Hx c [->|Hc]%elem_of_cons Hd; [cbn in Hd; lia|by apply Hx].
  - exists (S k), rc, t', m'. split; [exact E|]. cbn [length]. split; [lia|]. split; [destruct Hrc as [[-> ->]|[-> ?]]; [left|right]; (split; [done|lia])|].
    rewrite Ht. cbn [take file_entries pt_next pt_entries]. rewrite reverse_cons, <- app_assoc. done.
Qed.

(** Setting up /proc/piga: the directory and the six files, each readable by
    everyone whatever the mode it was created with; or, when there is no
    memory, the entries created so far, which are not taken out again. *)
Theorem init_procfs_outcome t m :
  tree_wf t ->
  exists rc t' m', init_piga_procfs t m = (rc, t', m') /\
    ((rc = - ENOMEM /\ t' = t) \/
     exists k, (rc = 0 /\ k = 6%nat \/ rc = - ENOMEM /\ (k < 6)%nat) /\
       pt_entries t' = reverse (file_entries (S (pt_next t)) (pt_next t) (take k piga_files)) ++
                       mk_proc_dir_entry (pt_next t) "piga" (S_IFDIR .| (S_IRUGO .| S_IXUGO)) 0 None :: pt_entries t).
Proof.
  intros Hw. unfold init_piga_procfs, proc_mkdir, proc_add.
  destruct (kalloc m) as [[] m1]; cbn [negb]; [|by do 3 eexists; split; [done|left]].
  destruct (kalloc m1) as [[] m2]; cbn [negb]; [|by do 3 eexists; split; [done|left]].
  set (d := mk_proc_dir_entry _ _ _ _ _).
  destruct (create_files_outcome piga_files (pt_next t) [("piga"%string, pt_next t)] (mk_proc_tree (d :: pt_entries t) (S (pt_next t))) m2)
    as (k & rc & t' & m' & E & _ & Hrc & Ht).
  - destruct Hw as [Hpos Hw]. rewrite Forall_forall in Hw. split; cbn [pt_next pt_entries].
    + split; [cbn; lia|]. apply Forall_forall. cbn. intros x [->|Hx]%elem_of_cons; cbn; [lia|]. destruct (Hw x Hx). lia.
    + lia.
    + intros c ->%list_elem_of_singleton. cbn. lia.
    + intros c x ->%list_elem_of_singleton [->|Hx]%elem_of_cons; cbn; [left; lia|]. destruct (Hw x Hx). left. lia.
  - repeat (constructor; [intros c ->%list_elem_of_singleton _; vm_compute; discriminate|]). constructor.
  - exists rc, t', m'. split; [exact E|]. right. exists k. by split.
Qed.
