(* ===== verification/PppLoad.v ===== *)
(** * Loading a PIGA policy (src/ppp against security/selinux/piga)

    The text of a policy, what the parser of [Ppp] makes of it, the SIDs it
    gets from the kernel for the contexts it names, and the sequences the
    kernel then watches for. *)

From Stdlib Require Import Ascii String.
From stdpp Require Import pretty functions.
From S2P Require Import Prelude Ebitmap Hashtab Context Sidtab Avtab Policydb Mls MlsText PolicydbOps Sample Services ServicesSid Piga Ppp.

(** ** Asking for a SID *)

Definition is_digit (c : ascii) : bool := between 48 57 c.

Lemma pretty_char x : (x < 10)%N -> digit (pretty_N_char x) = Some (Z.of_N x).
Proof. intros H. assert (x = 0 \/ x = 1 \/ x = 2 \/ x = 3 \/ x = 4 \/ x = 5 \/ x = 6 \/ x = 7 \/ x = 8 \/ x = 9)%N as Hx by lia. by repeat destruct Hx as [->|Hx]; [..|subst]. Qed.

Lemma digits_go x s : digits (pretty_N_go x s) 0 = digits s (Z.of_N x).
Proof.
  revert s. induction (N.lt_wf_0 x) as [x _ IH]; intros s. destruct (decide (x = 0%N)) as [->|Hx]; [done|].
  rewrite pretty_N_go_step, IH by (try apply N.div_lt; lia). cbn [digits]. rewrite pretty_char by (apply N.mod_lt; done).
  f_equal. rewrite N2Z.inj_div, N2Z.inj_mod. change (Z.of_N 10) with 10. pose proof (Z.div_mod (Z.of_N x) 10). lia.
Qed.

Lemma go_digits x s : str_all is_digit s = true -> str_all is_digit (pretty_N_go x s) = true.
Proof.
  revert s. induction (N.lt_wf_0 x) as [x _ IH]; intros s Hs. destruct (decide (x = 0%N)) as [->|Hx]; [done|].
  rewrite pretty_N_go_step by lia. apply IH; [apply N.div_lt; lia|]. cbn. rewrite Hs, andb_true_r.
  pose proof (pretty_char (x `mod` 10)) as H. unfold digit, is_digit in *. destruct (between _ _ _); [done|]. discriminate H. by apply N.mod_lt.
Qed.

Lemma pretty_digits z : 0 <= z -> str_all is_digit (pretty z) = true /\ pretty z <> EmptyString /\ digits (pretty z) 0 = z.
Proof.
  intros Hz. destruct z as [|p|p]; [done| |lia]. change (pretty (Zpos p)) with (pretty_N_go (Npos p) "").
  split; [by apply go_digits|]. split; [|apply digits_go].
  intros E. pose proof (digits_go (Npos p) "") as H. rewrite E in H. cbn in H. lia.
Qed.

Lemma getline_digits s : str_all is_digit s = true -> getline (s ++ nl)%string = s.
Proof.
  induction s as [|c s IH]; [done|]. cbn [str_all]. intros [Hc Hs]%andb_true_iff.
  change (String c s +:+ nl)%string with (String c (s +:+ nl)). cbn [getline]. rewrite IH by done.
  assert (is_nl c = false) as -> by (by destruct c as [[] [] [] [] [] [] [] []]). done.
Qed.

Lemma strtoul_digits s : str_all is_digit s = true -> s <> EmptyString -> strtoul s = Z.min (2 ^ 64 - 1) (digits s 0).
Proof.
  destruct s as [|c s]; [done|]. cbn [str_all]. intros [Hc _]%andb_true_iff _. cbn [strtoul].
  assert (is_blank c || between 10 13 c = false /\ (code c =? 45) = false /\ (code c =? 43) = false) as (-> & -> & ->); [|done].
  by destruct c as [[] [] [] [] [] [] [] []].
Qed.

(** The number the kernel prints is the number the program reads. *)
Lemma answer_read z : 0 <= z < 2 ^ 32 -> u32 (strtoul (getline (pretty z ++ nl)%string)) = z.
Proof.
  intros Hz. destruct (pretty_digits z) as (H1 & H2 & H3); [lia|].
  rewrite getline_digits, strtoul_digits, H3, Z.min_r by (done || lia). apply u32_small. lia.
Qed.

Lemma length_nl s : String.length (s ++ nl) = S (String.length s).
Proof. induction s as [|c s IH]; [done|]. change (String c s +:+ nl)%string with (String c (s +:+ nl)). cbn. by rewrite IH. Qed.

Lemma cut_last_nl s : cut_last (s ++ nl)%string = Some s.
Proof.
  assert (forall s, String.substring 0 (String.length s) (s ++ nl)%string = s) as H.
  { intros t. induction t as [|c t IH]; [done|]. change (String c t +:+ nl)%string with (String c (t +:+ nl)). cbn. by rewrite IH. }
  unfold cut_last. pose proof (length_nl s) as Hl. specialize (H s). destruct (s ++ nl)%string; [done|].
  rewrite Hl, Nat.sub_1_r. cbn [Nat.pred]. by rewrite H.
Qed.

(** The kernel reads the text [c] as the context [ctx], and can read it. *)
Definition reads_as (p : policydb) (c : string) (ctx : context) : Prop :=
  exists t m m', string_to_context_struct p (Some t) c (strlen c) SECSID_NULL m = Some (0, ctx, m').
Definition readable (p : policydb) (c : string) : Prop :=
  forall t m, is_Some (string_to_context_struct p (Some t) c (strlen c) SECSID_NULL m).

(** The policy does not know the context: with memory, too, reading it fails. *)
Definition not_known (p : policydb) (c : string) : Prop :=
  exists t rc ctx, string_to_context_struct p (Some t) c (strlen c) SECSID_NULL [] = Some (rc, ctx, []) /\ rc <> 0.

(** In the table [t], [sid] is the SID of the context with the text [c]. *)
Definition stands_for (p : policydb) (t : sidtab) (c : string) (sid : Z) : Prop :=
  exists ctx c', reads_as p c ctx /\ sidtab_abs t !! sid = Some c' /\ context_cmp c' ctx = true.

Lemma stands_for_keeps p t t' c sid : keeps t t' -> stands_for p t c sid -> stands_for p t' c sid.
Proof. intros Hk (ctx & c' & Hr & Hs & Hc). exists ctx, c'. auto. Qed.

Lemma mls_to_sid_len p oldc sc ctx t m rc ctx' mv m' :
  mls_context_to_sid p oldc sc ctx t SECSID_NULL m = Some (rc, ctx', mv, m') -> c_len ctx' = c_len ctx.
Proof.
  unfold mls_context_to_sid. destruct (negb (mls_enabled p)); [by intros [= _ <- _ _]|].
  destruct (negb oldc); [by intros [= _ <- _ _]|]. intros H. apply bind_Some in H as ([[[? ?] ?] ?] & _ & H). by injection H as _ <- _ _.
Qed.

Lemma parse_context_len p t c m rc ctx pos m' :
  parse_context p t c SECSID_NULL m = Some (rc, ctx, pos, m') -> c_len ctx = 0.
Proof.
  unfold parse_context. destruct (scan is_colon c) as [user p1]. destruct (after_field p1) as [p2|]; [|by intros [= _ <- _ _]].
  intros H. apply bind_Some in H as ([ud|] & _ & H); [|by injection H as _ <- _ _].
  destruct (scan is_colon p2) as [role p3]. destruct (after_field p3) as [p4|]; [|by injection H as _ <- _ _].
  apply bind_Some in H as ([rd|] & _ & H); [|by injection H as _ <- _ _].
  destruct (scan is_colon p4) as [type p5]. destruct (match p5 with EmptyString => _ | String _ _ => _ end) as [oldc p6].
  apply bind_Some in H as ([td|] & _ & H); [|by injection H as _ <- _ _].
  destruct (nz (t_attribute td)); [by injection H as _ <- _ _|].
  apply bind_Some in H as ([[[rc1 ctx1] mv] m1] & H1 & H). injection H as _ <- _ _. by apply mls_to_sid_len in H1.
Qed.

Lemma read_context_len p t c n m ctx m' :
  string_to_context_struct p t c n SECSID_NULL m = Some (0, ctx, m') -> c_len ctx = 0.
Proof.
  unfold string_to_context_struct. intros H. apply bind_Some in H as ([[[rc ctx1] pos] m1] & H1 & H).
  apply parse_context_len in H1. destruct (nz rc) eqn:E; [injection H as -> _ _; done|].
  destruct (pos <? n); [by injection H|]. apply bind_Some in H as (v & _ & H). destruct v; [|by injection H]. by injection H as <- _.
Qed.

Lemma sid_range t sid c : sidtab_wf t -> sidtab_abs t !! sid = Some c -> 0 < sid < 2 ^ 32.
Proof.
  intros Hw H. apply sidtab_abs_elem in H; [|apply Hw]. pose proof (swf_range t Hw) as Hr. rewrite Forall_forall in Hr.
  apply Hr in H. pose proof (swf_next t Hw). cbn in H. unfold UINT_MAX in *. lia.
Qed.

(** [security_context_to_sid] on a context it can read. *)
Lemma context_to_sid_total s c m :
  ss_initialized s = true -> sidtab_wf (ss_sidtab s) -> readable (ss_policydb s) c ->
  exists rc sid t m', security_context_to_sid s c m = Some (rc, sid, set_ss_sidtab s t, m') /\
    sidtab_wf t /\ keeps (ss_sidtab s) t /\ (sids_left t 1 -> sids_left (ss_sidtab s) 1) /\ (m = [] -> m' = []) /\
    (rc = 0 -> 0 < sid < 2 ^ 32 /\ stands_for (ss_policydb s) t c sid) /\
    (rc <> 0 -> m <> [] \/ ~ sids_left (ss_sidtab s) 1 \/ not_known (ss_policydb s) c).
Proof.
  intros Hini Hw Hr. unfold security_context_to_sid, security_context_to_sid_core. rewrite Hini. cbn [negb].
  assert (set_ss_sidtab s (ss_sidtab s) = s) as Hs by by destruct s.
  assert (m = [] \/ m <> []) as Hm by (destruct m; [by left|by right]).
  destruct (kalloc m) as [[] m1] eqn:Ek; cbn [negb].
  2: { exists (- ENOMEM), SECSID_NULL, (ss_sidtab s), m1. rewrite Hs. split_and!; [done|done|apply keeps_refl|done|by intros ->|done|].
       intros _. left. by intros ->. }
  destruct (Hr (ss_sidtab s) m1) as [[[rc ctx] m2] E]. rewrite E. cbn [mbind option_bind]. rewrite andb_false_r.
  assert (m = [] -> m1 = [] /\ m2 = []) as Hmem.
  { intros ->. injection Ek as <-. by destruct (string_to_context_memory _ _ _ _ _ _ _ _ E) as [_ ->]. }
  destruct (nz rc) eqn:Hrc.
  { apply nz_true in Hrc. exists rc, SECSID_NULL, (ss_sidtab s), m2. rewrite Hs. split_and!; [done|done|apply keeps_refl|done|by intros [_ ?]%Hmem|done|].
    intros _. destruct Hm as [Hm|Hm]; [|by left]. right. right. destruct (Hmem Hm) as [-> ->]. by eexists _, rc, ctx. }
  apply nz_false in Hrc as ->. pose proof (read_context_len _ _ _ _ _ _ _ E) as Hlen.
  assert (str_ok ctx) as Hok by (intros Hnz; by rewrite Hlen in Hnz).
  destruct (context_to_sid_spec (ss_sidtab s) ctx m2 Hw) as (rc & sid & t & m3 & E2 & Hwt & Hres). rewrite E2.
  exists rc, sid, t, m3. split_and!; [done|done|intros i x; by eapply to_sid_keeps|by eapply to_sid_left|..].
  - intros [_ ->]%Hmem. by destruct (context_to_sid_memory _ _ _ _ _ _ Hw E2) as [-> _].
  - intros ->. destruct (to_sid_has _ _ _ _ Hres Hok) as (c' & Hc' & Hcmp). split; [by eapply sid_range|].
    exists ctx, c'. split; [by exists (ss_sidtab s), m1, m2|done].
  - intros Hne. destruct Hm as [Hm|Hm]; [|by left]. right. left. destruct (Hmem Hm) as [_ ->].
    destruct (context_to_sid_memory _ _ _ _ _ _ Hw E2) as [_ H]. destruct (to_sid_rc _ _ _ _ _ Hres) as [?| ->]; [done|]. intros Hl. by apply H.
Qed.

(** ** Contexts of a policy *)

Definition no_nul (c : string) : bool := str_all (fun c => negb (is_nul c)) c.

Lemma cstr_no_nul c : no_nul c = true -> cstr c = c.
Proof.
  intros H. unfold cstr. rewrite scan_all; [done|]. revert H. unfold no_nul. apply str_all_impl. intros d. by rewrite orb_false_r.
Qed.

(** The number noted for a context, with the SID table [t]: the SID of the
    context, or 0 if the policy does not know it, an allocation may have failed
    ([m0] are the answers of the allocator) or there are no SIDs left. *)
Definition sid_noted (p : policydb) (m0 : kmem) (t : sidtab) (c : string) (sid : Z) : Prop :=
  (sid = 0 /\ (m0 <> [] \/ ~ sids_left t 1 \/ not_known p c)) \/ (0 < sid < 2 ^ 32 /\ stands_for p t c sid).

Lemma sid_noted_keeps p m0 t t' c sid :
  keeps t t' -> (sids_left t' 1 -> sids_left t 1) -> sid_noted p m0 t c sid -> sid_noted p m0 t' c sid.
Proof.
  intros Hk Hl [[-> H]|[H1 H2]]; [left|right; split; [done|by eapply stands_for_keeps]].
  split; [done|]. destruct H as [?|[H|?]]; [by left|right; left; tauto|by right; right].
Qed.

(** The kernel has the policy of [s0] and PIGA is as in [g0]; the numbers [sm]
    are those the program has noted. *)
Record world_ok (s0 : ss) (g0 : piga) (m0 : kmem) (sm : gmap string Z) (w : world) : Prop := mk_world_ok {
  wo_ss : exists t, w_ss w = set_ss_sidtab s0 t /\ sidtab_wf t /\ keeps (ss_sidtab s0) t /\
    forall c sid, sm !! c = Some sid -> sid_noted (ss_policydb s0) m0 t c sid;
  wo_mem : m0 = [] -> w_kmem w = [];
  wo_piga : exists x, w_piga w = set_proc_sid g0 x;
  wo_open : w_open w = []
}.

Section sids.
Context (s0 : ss) (g0 : piga) (m0 : kmem) (Hini : ss_initialized s0 = true).

Lemma ask_sid_spec sm w c :
  world_ok s0 g0 m0 sm w -> readable (ss_policydb s0) c -> no_nul c = true -> sm !! c = None ->
  exists sid w', ask_sid w c = Some (Some sid, w') /\ world_ok s0 g0 m0 (<[c := sid]> sm) w'.
Proof.
  intros [(t & Hss & Hw & Hk & Hsm) Hm (x & Hg) Ho] Hr Hn Hnone. unfold ask_sid. rewrite Ho. cbn [kalloc negb].
  unfold piga_proc_getsid_write. rewrite cut_last_nl. cbn [mbind option_bind]. rewrite cstr_no_nul by done. rewrite Hss, Hg.
  destruct (context_to_sid_total (set_ss_sidtab s0 t) c (w_kmem w) Hini Hw Hr) as (rc & sid & t' & m' & E & Hw' & Hk' & Hl' & Hm' & Hst & Hno).
  rewrite E. cbn [mbind option_bind kalloc negb].
  change (set_ss_sidtab (set_ss_sidtab s0 t) t') with (set_ss_sidtab s0 t').
  set (a := if nz rc then 0 else sid).
  assert (sid_noted (ss_policydb s0) m0 t' c a) as Ha.
  { unfold a, sid_noted. destruct (nz rc) eqn:Hrc; [|apply nz_false in Hrc; right; by apply Hst]. apply nz_true in Hrc. left. split; [done|].
    destruct (Hno Hrc) as [Hne|[Hne|?]]; [left; intros ?%Hm; done|right; left; cbn in *; tauto|by right; right]. }
  assert (0 <= a < 2 ^ 32) as Hrange by (destruct Ha as [[-> _]|[? _]]; lia).
  change (piga_proc_getsid_read (set_proc_sid (set_proc_sid g0 x) a) 0) with ((pretty a ++ nl)%string, set_proc_sid g0 0). cbv iota.
  rewrite answer_read by lia. eexists _, _. split; [reflexivity|]. split; [|by intros ?%Hm%Hm'|by exists 0|done].
  exists t'. split; [done|]. split; [done|]. split; [by eapply keeps_trans|]. intros c1 sid1 H.
  destruct (decide (c1 = c)) as [->|Hne]; [rewrite lookup_insert_eq in H; by injection H as <-|].
  rewrite lookup_insert_ne in H by done. eapply sid_noted_keeps; [exact Hk'|exact Hl'|by apply Hsm].
Qed.

(** The state after a context was looked up. *)
Definition after_sid (st : ppp) (sid : Z) (sm ssm : gmap string Z) (w : world) : ppp :=
  set_sids (set_invalid_context st (invalid_context st || (sid =? 0))) sm ssm w.

Lemma string_to_sid_spec st c :
  world_ok s0 g0 m0 (sid_map st) (pp_world st) -> readable (ss_policydb s0) c -> no_nul c = true ->
  exists sid sm ssm w, string_to_sid st c = Some (sid, after_sid st sid sm ssm w) /\
    sid_map st ⊆ sm /\ sm !! c = Some sid /\ world_ok s0 g0 m0 sm w.
Proof.
  intros Hw Hr Hn. unfold string_to_sid, after_sid. destruct (sid_map st !! c) as [sid|] eqn:E.
  - exists sid, (sid_map st), (incr (stat_sid_map st) c), (pp_world st). split; [|done].
    destruct (sid =? 0); [by rewrite orb_true_r|rewrite orb_false_r; by destruct st].
  - destruct (ask_sid_spec _ _ _ Hw Hr Hn E) as (sid & w' & E2 & Hw'). rewrite E2. cbn [mbind option_bind].
    exists sid, (<[c := sid]> (sid_map st)), (<[c := 1]> (stat_sid_map st)), w'.
    split; [destruct (sid =? 0); [by rewrite orb_true_r|rewrite orb_false_r; by destruct st]|].
    split; [by apply insert_subseteq|]. split; [apply lookup_insert_eq|done].
Qed.
End sids.

(** ** Text of a policy *)

Record transition := mk_transition {
  tr_from : string;
  tr_class : string;
  tr_first : string;
  tr_more : list string;
  tr_to : string
}.

(** A line: its type, if it has one, its number and its transitions. *)
Record signature := mk_signature {
  sg_type : option string;
  sg_bool : string;
  sg_first : transition;
  sg_rest : list transition
}.

Definition sg_links (sg : signature) : list transition := sg_first sg :: sg_rest sg.

Definition trans_tokens (t : transition) : list token :=
  [SID (tr_from t); AVPERMSTART; WORD (tr_class t); CHAR "{"%char; WORD (tr_first t)] ++
  (WORD <$> tr_more t) ++ [CHAR "}"%char; AVPERMEND; SID (tr_to t)].

Definition head_tokens (sg : signature) : list token :=
  match sg_type sg with Some s => [TYPE s; CHAR "-"%char] | None => [] end ++ [BOOL (sg_bool sg); CHAR ":"%char].

Definition sig_tokens (sg : signature) : list token :=
  head_tokens sg ++ trans_tokens (sg_first sg) ++ (sg_rest sg ≫= fun t => CHAR ";"%char :: trans_tokens t).

Definition policy_tokens (l : list signature) : list token := (l ≫= fun sg => sig_tokens sg ++ [EOL]) ++ [ENDF].

(** Every token is followed by a blank, every line by a newline. *)
Definition policy_chars (l : list signature) : list ascii :=
  l ≫= fun sg => (sig_tokens sg ≫= fun t => tok_chars t ++ [blank]) ++ list_ascii_of_string nl.
Definition policy_text (l : list signature) : string := string_of_list_ascii (policy_chars l).

Lemma lexes_tokens t ts l rest bol : Forall tok_ok (t :: ts) -> lexes false l rest ->
  lexes bol (((t :: ts) ≫= fun t => tok_chars t ++ [blank]) ++ l) ((t :: ts) ++ rest).
Proof.
  revert t bol. induction ts as [|t' ts IH]; intros t bol Hok Hl; apply Forall_cons in Hok as [Ht Hok].
  - cbn [mbind list_bind app]. rewrite app_nil_r, <- app_assoc. by apply lexes_token.
  - rewrite bind_cons, <- !app_assoc. cbn [app]. apply lexes_token; [done|]. by apply IH.
Qed.

Lemma sig_tokens_cons sg : exists t ts, sig_tokens sg = t :: ts.
Proof. unfold sig_tokens, head_tokens. destruct (sg_type sg); by do 2 eexists. Qed.

(** The scanner gives back the tokens the text was made of. *)
Lemma scan_policy l : Forall (fun sg => Forall tok_ok (sig_tokens sg)) l -> scan_file (policy_text l) = policy_tokens l.
Proof.
  intros H. apply lexes_scan. unfold policy_text. rewrite list_ascii_of_string_of_list_ascii. unfold policy_tokens, policy_chars.
  induction H as [|sg l Hsg _ IH]; [apply lexes_nil|]. rewrite !bind_cons, <- !app_assoc.
  destruct (sig_tokens_cons sg) as (t & ts & E). rewrite E in *. apply lexes_tokens; [done|]. by apply lexes_eol.
Qed.

(** ** Parsing *)

Section parse.
Context (lib_class : string -> Z) (lib_perm : Z -> string -> Z) (verbose : bool).

Abbreviation vector_action := (vector_action lib_class lib_perm).
Abbreviation line_action := (line_action verbose).
Abbreviation yyparse := (yyparse lib_class lib_perm verbose).

Fixpoint push_all (st : ppp) (word : string) (l : list string) : ppp :=
  match l with [] => st | _ :: l' => push_all (push_request st word) word l' end.

(** The actions for a transition, for the transitions of a line, for a policy. *)
Definition do_transition (st : ppp) (t : transition) : option ppp :=
  st ← vector_action (push_all (push_request st (tr_first t)) (tr_first t) (tr_more t)) (tr_class t);
  transition_action st (tr_from t) (tr_to t).
Definition do_transitions (st : ppp) (l : list transition) : option ppp :=
  foldl (fun st t => st ≫= fun st => do_transition st t) (Some st) l.
Definition do_signature (st : ppp) (sg : signature) : option ppp := st ← do_transitions st (sg_links sg); line_action st.
Definition do_policy (st : ppp) (l : list signature) : option ppp :=
  foldl (fun st sg => st ≫= fun st => do_signature st sg) (Some st) l.

Lemma foldl_none {B} (f : ppp -> B -> option ppp) l : foldl (fun st b => st ≫= fun st => f st b) None l = None.
Proof. by induction l. Qed.

Lemma parse_requests from class first l ts st :
  yyparse (at_request from class first) ((WORD <$> l) ++ ts) st = yyparse (at_request from class first) ts (push_all st first l).
Proof. revert st. induction l as [|w l IH]; intros st; cbn; [done|]. apply IH. Qed.

Lemma parse_transition t ts st :
  yyparse at_sign (trans_tokens t ++ ts) st = do_transition st t ≫= fun st => yyparse at_transition ts st.
Proof.
  unfold trans_tokens, do_transition. rewrite <- !app_assoc. cbn [app Ppp.yyparse yystep mbind option_bind].
  change (is_chr 123 "{"%char) with true. cbn [yystep mbind option_bind]. rewrite parse_requests. cbn [Ppp.yyparse yystep mbind option_bind].
  change (is_chr 125 "}"%char) with true. cbv iota.
  destruct (vector_action _ _) as [st1|]; [|done]. cbn [yystep mbind option_bind].
  by destruct (transition_action _ _ _).
Qed.

Lemma parse_rest l ts st :
  yyparse at_transition ((l ≫= fun t => CHAR ";"%char :: trans_tokens t) ++ ts) st
  = do_transitions st l ≫= fun st => yyparse at_transition ts st.
Proof.
  unfold do_transitions. revert st. induction l as [|t l IH]; intros st; [done|]. rewrite bind_cons, <- app_assoc.
  cbn [app Ppp.yyparse yystep mbind option_bind]. change (is_chr 59 ";"%char) with true. cbn [mbind option_bind].
  rewrite parse_transition. cbn [foldl mbind option_bind]. destruct (do_transition st t) as [st1|]; [apply IH|]. cbn. by rewrite foldl_none.
Qed.

Lemma parse_signature q sg t ts st : q = at_line \/ q = at_eol -> t = EOL \/ t = ENDF ->
  yyparse q (sig_tokens sg ++ t :: ts) st
  = do_signature st sg ≫= fun st => if t is EOL then yyparse at_eol ts st else Some (0, st).
Proof.
  intros Hq Ht. unfold sig_tokens. rewrite <- !app_assoc.
  assert (yyparse q (head_tokens sg ++ trans_tokens (sg_first sg) ++ (sg_rest sg ≫= fun t => CHAR ";"%char :: trans_tokens t) ++ t :: ts) st =
          yyparse at_sign (trans_tokens (sg_first sg) ++ (sg_rest sg ≫= fun t => CHAR ";"%char :: trans_tokens t) ++ t :: ts) st) as ->.
  { unfold head_tokens. by destruct Hq as [-> | ->], (sg_type sg). }
  rewrite parse_transition. unfold do_signature, sg_links, do_transitions. cbn [foldl mbind option_bind].
  destruct (do_transition st (sg_first sg)) as [st1|]; [|by rewrite foldl_none]. cbn [mbind option_bind]. rewrite parse_rest.
  unfold do_transitions. destruct (foldl _ (Some st1) _) as [st2|]; [|done]. cbn [mbind option_bind].
  by destruct Ht as [-> | ->]; cbn [Ppp.yyparse yystep mbind option_bind]; destruct (line_action st2).
Qed.

Lemma parse_policy sg l st :
  yyparse at_line (policy_tokens (sg :: l)) st = do_policy st (sg :: l) ≫= fun st => Some (0, st).
Proof.
  unfold policy_tokens, do_policy. rewrite bind_cons, <- !app_assoc. cbn [app].
  rewrite (parse_signature at_line) by auto. cbn [foldl mbind option_bind].
  destruct (do_signature st sg) as [st1|]; [|by rewrite foldl_none]. cbn [mbind option_bind]. clear sg st.
  revert st1. induction l as [|sg l IH]; intros st; [done|]. rewrite bind_cons, <- !app_assoc. cbn [app].
  rewrite (parse_signature at_eol) by auto. cbn [foldl mbind option_bind].
  destruct (do_signature st sg) as [st1|]; [apply IH|by rewrite foldl_none].
Qed.
End parse.

(** ** What the actions build *)

Section build.
Context (lib_class : string -> Z) (lib_perm : Z -> string -> Z) (verbose : bool).

Definition sid_of (sm : gmap string Z) (c : string) : Z := default 0 (sm !! c).

(** The link for a transition: of the permissions only the first counts. *)
Definition link_of (sm : gmap string Z) (t : transition) : link :=
  mk_link (sid_of sm (tr_from t)) (sid_of sm (tr_to t)) (u16 (lib_class (tr_class t)))
    (lib_perm (u16 (lib_class (tr_class t))) (tr_first t)).

Definition noted (sm : gmap string Z) (t : transition) : Prop := is_Some (sm !! tr_from t) /\ is_Some (sm !! tr_to t).
Definition unknown (sm : gmap string Z) (t : transition) : bool := (sid_of sm (tr_from t) =? 0) || (sid_of sm (tr_to t) =? 0).
Definition total (l : list (list transition)) : Z := foldr (fun ts n => Z.of_nat (length ts) + n) 0 l.

Lemma sid_of_grows sm sm' c : sm ⊆ sm' -> is_Some (sm !! c) -> sid_of sm' c = sid_of sm c.
Proof. intros Hs [sid E]. unfold sid_of. rewrite E. by rewrite (lookup_weaken _ _ _ _ E Hs). Qed.

Lemma noted_grows sm sm' t : sm ⊆ sm' -> noted sm t ->
  noted sm' t /\ link_of sm' t = link_of sm t /\ unknown sm' t = unknown sm t.
Proof.
  intros Hs [Hf Ht]. unfold link_of, unknown. rewrite !(sid_of_grows sm sm') by done. split; [|done].
  split; [destruct Hf as [? E]|destruct Ht as [? E]]; by rewrite (lookup_weaken _ _ _ _ E Hs).
Qed.

Lemma total_nonneg l : 0 <= total l.
Proof. induction l as [|ts l IH]; cbn; [done|]. fold (total l). lia. Qed.
Lemma total_app l l' : total (l ++ l') = total l + total l'.
Proof. induction l as [|ts l IH]; cbn; [done|]. fold (total (l ++ l')) (total l). lia. Qed.
Lemma total_take i l ts : l !! i = Some ts -> total (take i l) + Z.of_nat (length ts) <= total l.
Proof.
  intros H. rewrite <- (take_drop_middle l i ts H) at 2. rewrite total_app. cbn [total foldr]. fold (total (drop (S i) l)).
  pose proof (total_nonneg (drop (S i) l)). lia.
Qed.

(** The variables the kernel's arrays depend on. *)
Definition core (st : ppp) :=
  (pp_s st, pp_l st, curr_seq st, curr_link st, invalid_context st, sid_map st, (pp_loaded st, pp_ignored st, pp_world st)).

Lemma core_eq st st' : core st' = core st ->
  pp_s st' = pp_s st /\ pp_l st' = pp_l st /\ curr_seq st' = curr_seq st /\ curr_link st' = curr_link st /\
  invalid_context st' = invalid_context st /\ sid_map st' = sid_map st /\ pp_loaded st' = pp_loaded st /\
  pp_ignored st' = pp_ignored st /\ pp_world st' = pp_world st.
Proof. unfold core. intros [= -> -> -> -> -> -> -> -> ->]. auto 10. Qed.

Lemma core_stat st a b : core (stat_perm st a b) = core st /\ request_list (stat_perm st a b) = request_list st.
Proof. unfold stat_perm. by case_bool_decide. Qed.

Lemma push_all_spec st w l : core (push_all st w l) = core st /\ request_list (push_all st w l) = request_list st ++ replicate (length l) w.
Proof.
  revert st. induction l as [|x l IH]; intros st; cbn; [by rewrite app_nil_r|].
  destruct (IH (push_request st w)) as [-> ->]. split; [done|]. cbn. by rewrite <- app_assoc.
Qed.

Lemma add_requests_spec st class tc n w r :
  exists st', add_requests lib_perm st class tc (replicate n w) r = (match n with O => r | S _ => r .| lib_perm tc w end, st') /\ core st' = core st.
Proof.
  revert st r. induction n as [|n IH]; intros st r; cbn [replicate add_requests]; [by exists st|].
  destruct (IH (stat_perm st class w) (r .| lib_perm tc w)) as (st' & E & Hc). exists st'. rewrite E. rewrite Hc.
  split; [|apply core_stat]. f_equal. destruct n; [done|]. by rewrite <- Z.lor_assoc, Z.lor_diag.
Qed.

Lemma vector_spec st class n w :
  request_list st = replicate (S n) w -> curr_link st < LINKS ->
  let l := pp_l st (curr_link st) in
  let tc := u16 (lib_class class) in
  exists st', vector_action lib_class lib_perm st class = Some st' /\ request_list st' = [] /\
    core st' = core (set_arrays st (pp_s st) (<[curr_link st := mk_link (lk_cs l) (lk_cc l) tc (lib_perm tc w)]> (pp_l st))
                       (curr_seq st) (curr_link st)).
Proof.
  intros Hr Hb l tc. unfold vector_action, l_at, put_link. apply Z.ltb_lt in Hb. rewrite Hb. cbn [mbind option_bind].
  set (st1 := set_requests _ _ _ _ _). change (request_list st1) with (request_list st). rewrite Hr.
  destruct (add_requests_spec st1 class tc (S n) w 0) as (st2 & E & Hc). fold tc. rewrite E. clear E. rewrite Z.lor_0_l. cbv iota.
  apply core_eq in Hc as (H1 & H2 & H3 & H4 & H5 & H6 & H7 & H8 & H9). rewrite H4. change (curr_link st1) with (curr_link st). rewrite Hb. cbn [mbind option_bind].
  eexists. split; [reflexivity|]. split; [done|].
  match goal with |- core (set_requests (stat_perm ?x _ _) _ _ _ _) = _ => transitivity (core x); [exact (proj1 (core_stat x class EmptyString))|] end.
  unfold core. cbn. by rewrite H1, H2, H3, H5, H6, H7, H8, H9.
Qed.

Context (s0 : ss) (g0 : piga) (m0 : kmem) (Hini : ss_initialized s0 = true).

(** A context of the policy the kernel can look up. *)
Definition context_ok (c : string) : Prop := readable (ss_policydb s0) c /\ no_nul c = true.
Definition contexts_ok (t : transition) : Prop := context_ok (tr_from t) /\ context_ok (tr_to t).

Lemma transition_spec st t :
  world_ok s0 g0 m0 (sid_map st) (pp_world st) -> contexts_ok t -> 0 <= curr_link st < LINKS -> curr_seq st < SEQS ->
  let l := pp_l st (curr_link st) in
  let s := pp_s st (curr_seq st) in
  exists st', transition_action st (tr_from t) (tr_to t) = Some st' /\
    sid_map st ⊆ sid_map st' /\ noted (sid_map st') t /\ world_ok s0 g0 m0 (sid_map st') (pp_world st') /\
    (forall k, pp_l st' k = if decide (curr_link st = k)
       then mk_link (sid_of (sid_map st') (tr_from t)) (sid_of (sid_map st') (tr_to t)) (lk_tclass l) (lk_requested l) else pp_l st k) /\
    pp_s st' = <[curr_seq st := mk_sequence (u32 (sq_length s + 1)) (sq_current_position s) (sq_link_offset s)]> (pp_s st) /\
    curr_seq st' = curr_seq st /\ curr_link st' = curr_link st + 1 /\ request_list st' = request_list st /\
    invalid_context st' = invalid_context st || unknown (sid_map st') t /\
    pp_loaded st' = pp_loaded st /\ pp_ignored st' = pp_ignored st.
Proof.
  intros Hw [[Hf Hfn] [Ht Htn]] Hl Hs l s. unfold transition_action.
  destruct (string_to_sid_spec s0 g0 m0 Hini st (tr_from t) Hw Hf Hfn) as (cs & sm1 & ssm1 & w1 & -> & Hsm1 & Hcs & Hw1). cbn [mbind option_bind].
  unfold l_at, put_link. cbn [curr_link after_sid set_sids set_invalid_context]. assert ((curr_link st <? LINKS) = true) as Hb by (apply Z.ltb_lt; lia).
  rewrite Hb. cbn [mbind option_bind].
  set (st1 := set_arrays _ _ _ _ _).
  destruct (string_to_sid_spec s0 g0 m0 Hini st1 (tr_to t)) as (cc & sm2 & ssm2 & w2 & -> & Hsm2 & Hcc & Hw2); [done..|]. cbn [mbind option_bind].
  cbn [curr_link after_sid set_sids set_invalid_context st1 set_arrays]. rewrite Hb. cbn [mbind option_bind].
  unfold piga_seq_add_link, s_at, put_seq. cbn [curr_seq curr_link set_arrays after_sid set_sids set_invalid_context st1].
  assert ((curr_seq st <? SEQS) = true) as Hb2 by (apply Z.ltb_lt; lia). rewrite Hb2. cbn [mbind option_bind]. eexists. split; [reflexivity|].
  cbn [curr_seq curr_link set_arrays after_sid set_sids set_invalid_context st1 sid_map pp_world pp_l pp_s request_list invalid_context pp_loaded pp_ignored].
  assert (sid_map st1 = sm1) as E1 by done. rewrite E1 in Hsm2.
  assert (sid_of sm2 (tr_from t) = cs) as Hcs2 by (unfold sid_of; by rewrite (lookup_weaken _ _ _ _ Hcs Hsm2)).
  assert (sid_of sm2 (tr_to t) = cc) as Hcc2 by (unfold sid_of; by rewrite Hcc).
  unfold unknown. rewrite Hcs2, Hcc2, (u32_small (curr_link st + 1)) by (unfold LINKS in *; lia).
  split; [by etrans|]. split; [split; [by eexists; eapply lookup_weaken|by eexists]|]. split; [done|].
  split; [intros k; destruct (decide (curr_link st = k)) as [<-|Hk]; [by rewrite !fn_lookup_insert|by rewrite !fn_lookup_insert_ne]|]. split; [done|].
  split; [done|]. split; [done|]. split; [done|]. by rewrite orb_assoc.
Qed.

(** The links of [ts] are in the array from [off] on. *)
Definition placed (st : ppp) (off : Z) (ts : list transition) : Prop :=
  forall j t, ts !! j = Some t -> pp_l st (off + Z.of_nat j) = link_of (sid_map st) t /\ noted (sid_map st) t.

Definition skipped (sm : gmap string Z) (ts : list transition) : bool := existsb (unknown sm) ts.
Definition count_skipped (sm : gmap string Z) (l : list (list transition)) : Z :=
  Z.of_nat (length (filter (fun ts => skipped sm ts = true) l)).

(** The lines [done] have been read, and the transitions [cur] of the next. *)
Record laid (done : list (list transition)) (cur : list transition) (st : ppp) : Prop := mk_laid {
  la_seq : curr_seq st = Z.of_nat (length done);
  la_link : curr_link st = 2 * total done + Z.of_nat (length cur);
  la_done : forall i ts, done !! i = Some ts ->
    pp_s st (Z.of_nat i) = mk_sequence (Z.of_nat (length ts)) 0 (2 * total (take i done)) /\ placed st (2 * total (take i done)) ts;
  la_cur : pp_s st (Z.of_nat (length done)) = mk_sequence (Z.of_nat (length cur)) 0 (2 * total done);
  la_placed : placed st (2 * total done) cur;
  la_fresh : forall i, Z.of_nat (length done) < i -> sq_length (pp_s st i) = 0 /\ sq_current_position (pp_s st i) = 0;
  la_request : request_list st = [];
  la_invalid : invalid_context st = skipped (sid_map st) cur;
  la_ignored : pp_ignored st = count_skipped (sid_map st) done;
  la_loaded : pp_loaded st = Z.of_nat (length done) - count_skipped (sid_map st) done;
  la_world : world_ok s0 g0 m0 (sid_map st) (pp_world st)
}.

Lemma placed_grows st st' off ts :
  placed st off ts -> sid_map st ⊆ sid_map st' ->
  (forall k, off <= k < off + Z.of_nat (length ts) -> pp_l st' k = pp_l st k) -> placed st' off ts.
Proof.
  intros Hp Hs Hl j t Hj. destruct (Hp j t Hj) as [H1 H2]. destruct (noted_grows _ _ _ Hs H2) as (H3 & H4 & _).
  apply lookup_lt_Some in Hj. rewrite Hl, H4 by lia. done.
Qed.

Lemma skipped_grows sm sm' ts : sm ⊆ sm' -> Forall (noted sm) ts -> skipped sm' ts = skipped sm ts.
Proof.
  intros Hs H. induction H as [|t ts Ht _ IH]; [done|]. cbn. fold (skipped sm' ts) (skipped sm ts). rewrite IH.
  by destruct (noted_grows _ _ _ Hs Ht) as (_ & _ & ->).
Qed.

Lemma count_grows sm sm' l : sm ⊆ sm' -> Forall (Forall (noted sm)) l -> count_skipped sm' l = count_skipped sm l.
Proof.
  intros Hs H. unfold count_skipped. f_equal. f_equal. induction H as [|ts l Ht _ IH]; [done|]. rewrite !filter_cons, IH.
  rewrite (skipped_grows sm sm') by done. done.
Qed.

Lemma placed_noted st off ts : placed st off ts -> Forall (noted (sid_map st)) ts.
Proof. intros Hp. apply Forall_lookup. intros j t Hj. by apply (Hp j t). Qed.

Lemma laid_noted done cur st : laid done cur st -> Forall (Forall (noted (sid_map st))) done.
Proof. intros H. apply Forall_lookup. intros i ts Hi. eapply placed_noted. by apply (la_done _ _ _ H i ts). Qed.

Lemma do_transition_spec st t :
  request_list st = [] -> world_ok s0 g0 m0 (sid_map st) (pp_world st) -> contexts_ok t -> 0 <= curr_link st < LINKS -> curr_seq st < SEQS ->
  let s := pp_s st (curr_seq st) in
  exists st', do_transition lib_class lib_perm st t = Some st' /\
    sid_map st ⊆ sid_map st' /\ noted (sid_map st') t /\ world_ok s0 g0 m0 (sid_map st') (pp_world st') /\
    (forall k, pp_l st' k = if decide (curr_link st = k) then link_of (sid_map st') t else pp_l st k) /\
    pp_s st' = <[curr_seq st := mk_sequence (u32 (sq_length s + 1)) (sq_current_position s) (sq_link_offset s)]> (pp_s st) /\
    curr_seq st' = curr_seq st /\ curr_link st' = curr_link st + 1 /\ request_list st' = [] /\
    invalid_context st' = invalid_context st || unknown (sid_map st') t /\
    pp_loaded st' = pp_loaded st /\ pp_ignored st' = pp_ignored st.
Proof.
  intros Hr0 Hw Ht Hl Hs s. unfold do_transition.
  destruct (push_all_spec (push_request st (tr_first t)) (tr_first t) (tr_more t)) as [Hc Hr].
  set (st1 := push_all _ _ _) in *. pose proof (core_eq _ _ Hc) as (C1 & C2 & C3 & C4 & C5 & C6 & C7 & C8 & C9). cbn in C1, C2, C3, C4, C5, C6, C7, C8, C9.
  cbn [request_list push_request set_requests] in Hr. rewrite Hr0 in Hr.
  destruct (vector_spec st1 (tr_class t) (length (tr_more t)) (tr_first t)) as (st2 & E2 & Hr2 & Hc2); [done|rewrite C4; lia|].
  rewrite E2. cbn [mbind option_bind]. clear E2.
  apply core_eq in Hc2 as (D1 & D2 & D3 & D4 & D5 & D6 & D7 & D8 & D9). cbn in D1, D2, D3, D4, D5, D6, D7, D8, D9.
  rewrite ?C1, ?C2, ?C3, ?C4, ?C5, ?C6, ?C7, ?C8, ?C9 in *. clear C1 C2 C3 C4 C5 C6 C7 C8 C9 Hc Hr. clearbody st1.
  destruct (transition_spec st2 t) as (st' & E & H1 & H2 & H3 & H4 & H5 & H6 & H7 & H8 & H9 & H10 & H11); rewrite ?D6, ?D9, ?D3, ?D4; try done.
  rewrite D1, D2, D3, D4, D5, D6, D7, D8, Hr2 in *. exists st'. split; [done|]. repeat (split; [done|]). split; [|done].
  intros k. rewrite H4. destruct (decide (curr_link st = k)) as [<-|Hk]; [by rewrite fn_lookup_insert|by rewrite fn_lookup_insert_ne].
Qed.

Lemma laid_nonneg done cur st : laid done cur st -> 0 <= curr_link st.
Proof. intros H. rewrite (la_link _ _ _ H). pose proof (total_nonneg done). lia. Qed.

Lemma do_transition_laid done cur st t :
  laid done cur st -> contexts_ok t -> 2 * total done + Z.of_nat (length cur) < LINKS -> Z.of_nat (length done) < SEQS ->
  exists st', do_transition lib_class lib_perm st t = Some st' /\ laid done (cur ++ [t]) st'.
Proof.
  intros H Ht Hl Hs. pose proof (laid_nonneg _ _ _ H) as H0. pose proof (laid_noted _ _ _ H) as Hnd. pose proof (placed_noted _ _ _ (la_placed _ _ _ H)) as Hnc.
  destruct (do_transition_spec st t) as (st' & E & Hsm & Hn & Hw & Hpl & Hps & Hcs & Hcl & Hrq & Hin & Hld & Hig);
    [apply H..|done|rewrite (la_link _ _ _ H) in *; lia|rewrite (la_seq _ _ _ H); lia|].
  exists st'. split; [done|]. rewrite (la_seq _ _ _ H), (la_link _ _ _ H) in *. pose proof (total_nonneg done) as H1.
  assert (forall off ts, placed st off ts -> off + Z.of_nat (length ts) <= 2 * total done + Z.of_nat (length cur) -> placed st' off ts) as Hkeep.
  { intros off ts Hp Ho. apply (placed_grows st); [done|done|]. intros k Hk. rewrite Hpl, decide_False by lia. done. }
  split; try done.
  - rewrite Hcl, length_app. cbn. lia.
  - intros i ts Hi. destruct (la_done _ _ _ H i ts Hi) as [Ha Hb]. pose proof (lookup_lt_Some _ _ _ Hi). pose proof (total_take _ _ _ Hi).
    rewrite Hps, fn_lookup_insert_ne by lia. split; [done|]. apply Hkeep; [done|]. pose proof (total_nonneg (take i done)). lia.
  - rewrite Hps, fn_lookup_insert, (la_cur _ _ _ H). cbn [sq_length sq_current_position sq_link_offset]. rewrite u32_small by (unfold LINKS in *; lia).
    rewrite length_app. cbn [length]. f_equal. lia.
  - intros j t' [Hj|[Hj Hj']]%lookup_app_Some; [by apply (Hkeep _ _ (la_placed _ _ _ H) ltac:(lia))|].
    apply list_lookup_singleton_Some in Hj' as [Hj' <-]. rewrite Hpl, decide_True by lia. done.
  - intros i Hi. rewrite Hps, fn_lookup_insert_ne by lia. by apply H.
  - rewrite Hin, (la_invalid _ _ _ H), <- (skipped_grows (sid_map st) (sid_map st')) by done.
    unfold skipped. rewrite existsb_app. cbn [existsb]. by rewrite orb_false_r.
  - rewrite Hig, (la_ignored _ _ _ H). symmetry. by apply count_grows.
  - by rewrite Hld, (la_loaded _ _ _ H), (count_grows (sid_map st) (sid_map st')).
Qed.

Lemma do_transitions_laid ts done cur st :
  laid done cur st -> Forall contexts_ok ts -> 2 * total done + Z.of_nat (length cur + length ts) <= LINKS -> Z.of_nat (length done) < SEQS ->
  exists st', do_transitions lib_class lib_perm st ts = Some st' /\ laid done (cur ++ ts) st'.
Proof.
  unfold do_transitions. revert cur st. induction ts as [|t ts IH]; intros cur st H Hts Hl Hs; [exists st; by rewrite app_nil_r|].
  apply Forall_cons in Hts as [Ht Hts]. cbn [length] in Hl.
  destruct (do_transition_laid done cur st t) as (st1 & E & H1); [done|done|lia|done|]. cbn [foldl mbind option_bind]. rewrite E.
  destruct (IH (cur ++ [t]) st1) as (st' & E' & H'); [done|done|rewrite length_app; cbn; lia|done|]. exists st'.
  split; [done|]. by rewrite <- app_assoc in H'.
Qed.

(** The links of the current line can be printed. *)
Lemma print_laid done cur st n i :
  laid done cur st -> 2 * total done + Z.of_nat (length cur) <= LINKS -> 0 <= i -> i + Z.of_nat n <= Z.of_nat (length cur) ->
  is_Some (print_from st (mk_sequence (Z.of_nat (length cur)) 0 (2 * total done)) n i).
Proof.
  intros H Hl. pose proof (total_nonneg done) as H0. revert i. induction n as [|n IH]; intros i Hi Hn; [done|]. cbn [print_from sq_link_offset].
  unfold l_at. rewrite u32_small by (unfold LINKS in *; lia). destruct (Z.ltb_spec (2 * total done + i) LINKS); [|lia].
  destruct (IH (i + 1)) as [r E]; [lia|lia|]. rewrite E. by eexists.
Qed.

(** The branch on [get_invalid_context()]: one of the two counters goes up. *)
Lemma line_counts done cur st :
  laid done cur st -> 2 * total done + Z.of_nat (length cur) <= LINKS -> Z.of_nat (length done) + 1 < SEQS ->
  (if invalid_context st
   then Some (set_invalid_context (set_counts st (pp_loaded st) (u32 (pp_ignored st + 1))) false)
   else _ ← (if verbose then piga_seq_print st else Some []); Some (set_counts st (u32 (pp_loaded st + 1)) (pp_ignored st)))
  = Some (set_invalid_context (set_counts st (pp_loaded st + (1 - count_skipped (sid_map st) [cur]))
                                 (pp_ignored st + count_skipped (sid_map st) [cur])) false).
Proof.
  intros H Hl Hs. pose proof (total_nonneg done) as H0.
  pose proof (length_filter (fun ts => skipped (sid_map st) ts = true) done) as Hf. unfold count_skipped. rewrite filter_cons.
  rewrite (la_invalid _ _ _ H), (la_ignored _ _ _ H), (la_loaded _ _ _ H). unfold count_skipped.
  destruct (skipped (sid_map st) cur) eqn:E; [rewrite decide_True by done|rewrite decide_False by done]; cbn [filter length Z.of_nat].
  - rewrite u32_small by (unfold SEQS in *; lia). cbn. f_equal. f_equal. f_equal; lia.
  - assert (is_Some (if verbose then piga_seq_print st else Some [])) as [r ->].
    { destruct verbose; [|done]. unfold piga_seq_print, s_at. rewrite (la_seq _ _ _ H), (la_cur _ _ _ H).
      destruct (Z.ltb_spec (Z.of_nat (length done)) SEQS); [|lia]. cbn [mbind option_bind sq_length]. rewrite Nat2Z.id. apply print_laid; [done|lia..]. }
    cbn [mbind option_bind]. rewrite u32_small by (unfold SEQS in *; lia). f_equal.
    unfold set_invalid_context, set_counts. cbn. rewrite (la_invalid _ _ _ H), E. f_equal; lia.
Qed.

Lemma count_app sm l l' : count_skipped sm (l ++ l') = count_skipped sm l + count_skipped sm l'.
Proof. unfold count_skipped. rewrite filter_app, length_app. lia. Qed.

Lemma line_action_laid done cur st :
  laid done cur st -> 2 * total done + Z.of_nat (length cur) <= LINKS -> Z.of_nat (length done) + 1 < SEQS ->
  exists st', line_action verbose st = Some st' /\ laid (done ++ [cur]) [] st'.
Proof.
  intros H Hl Hs. pose proof (total_nonneg done) as H0. unfold line_action. rewrite (line_counts done cur) by done. cbn [mbind option_bind].
  unfold s_at, put_seq. cbn [curr_seq curr_link set_invalid_context set_counts set_arrays pp_s]. rewrite (la_seq _ _ _ H), (la_link _ _ _ H).
  destruct (Z.ltb_spec (Z.of_nat (length done)) SEQS); [|lia]. cbn [mbind option_bind]. rewrite (la_cur _ _ _ H). cbn [sq_length].
  rewrite (u32_small (Z.of_nat (length done) + 1)) by (unfold SEQS in *; lia).
  rewrite (u32_small (_ + Z.of_nat (length cur))) by (unfold LINKS in *; lia).
  destruct (Z.ltb_spec (Z.of_nat (length done) + 1) SEQS); [|lia]. cbn [mbind option_bind]. eexists. split; [reflexivity|].
  assert (total (done ++ [cur]) = total done + Z.of_nat (length cur)) as Ht by (rewrite total_app; cbn; lia).
  split; cbn [curr_seq curr_link set_invalid_context set_counts set_arrays pp_s pp_l sid_map request_list invalid_context pp_loaded pp_ignored pp_world length].
  - rewrite length_app. cbn. lia.
  - lia.
  - intros i ts [Hi|[Hi Hi']]%lookup_app_Some.
    + pose proof (lookup_lt_Some _ _ _ Hi). rewrite take_app_le by lia. rewrite fn_lookup_insert_ne by lia. by apply H.
    + apply list_lookup_singleton_Some in Hi' as [Hi' <-]. assert (i = length done) as -> by lia.
      rewrite take_app_length, fn_lookup_insert_ne, (la_cur _ _ _ H) by lia. split; [done|]. by apply H.
  - rewrite length_app. cbn [length]. rewrite Nat2Z.inj_add. change (Z.of_nat 1) with 1. rewrite fn_lookup_insert, Ht.
    destruct (la_fresh _ _ _ H (Z.of_nat (length done) + 1)) as [-> ->]; [lia|]. f_equal. lia.
  - intros j t Hj. by rewrite lookup_nil in Hj.
  - intros i Hi. rewrite length_app in Hi. cbn in Hi. rewrite fn_lookup_insert_ne by lia. apply H. lia.
  - apply H.
  - done.
  - by rewrite count_app, (la_ignored _ _ _ H).
  - rewrite count_app, (la_loaded _ _ _ H), length_app. cbn [length]. lia.
  - apply H.
Qed.

Lemma do_policy_laid l done st :
  laid done [] st -> Forall (fun sg => Forall contexts_ok (sg_links sg)) l ->
  2 * total (done ++ (sg_links <$> l)) <= LINKS -> Z.of_nat (length done + length l) < SEQS ->
  exists st', do_policy lib_class lib_perm verbose st l = Some st' /\ laid (done ++ (sg_links <$> l)) [] st'.
Proof.
  unfold do_policy. revert done st. induction l as [|sg l IH]; intros done st H Hl Ht Hs; [exists st; by rewrite app_nil_r|].
  apply Forall_cons in Hl as [Hsg Hl]. rewrite fmap_cons in *. cbn [length] in Hs.
  assert (done ++ sg_links sg :: (sg_links <$> l) = (done ++ [sg_links sg]) ++ (sg_links <$> l)) as Happ by by rewrite <- app_assoc.
  rewrite Happ in Ht. pose proof (total_nonneg done). pose proof (total_nonneg (sg_links <$> l)). rewrite !total_app in Ht.
  change (total [sg_links sg]) with (Z.of_nat (length (sg_links sg)) + 0) in Ht.
  destruct (do_transitions_laid (sg_links sg) done [] st) as (st1 & E1 & L1); [done|done|cbn [length Nat.add]; lia|lia|].
  destruct (line_action_laid done (sg_links sg) st1) as (st2 & E2 & L2); [done|lia|lia|].
  cbn [foldl mbind option_bind]. unfold do_signature at 2. rewrite E1. cbn [mbind option_bind]. rewrite E2.
  destruct (IH (done ++ [sg_links sg]) st2) as (st' & E & H'); [done|done| |rewrite length_app; cbn; lia|].
  { rewrite !total_app. change (total [sg_links sg]) with (Z.of_nat (length (sg_links sg)) + 0). lia. }
  exists st'. rewrite Happ. done.
Qed.

(** *** The arrays given to the kernel *)

Definition seqs_of (st : ppp) : list sequence := pp_s st <$> seqZ 0 (curr_seq st).
Definition links_of (st : ppp) : list link := pp_l st <$> seqZ 0 (curr_link st).

Lemma seqs_lookup done st i s : laid done [] st -> seqs_of st !! i = Some s ->
  exists ts, done !! i = Some ts /\ s = mk_sequence (Z.of_nat (length ts)) 0 (2 * total (take i done)) /\ placed st (2 * total (take i done)) ts.
Proof.
  intros H Hs. unfold seqs_of in Hs. rewrite list_lookup_fmap in Hs. destruct (seqZ 0 (curr_seq st) !! i) as [k|] eqn:E; [|done].
  injection Hs as <-. apply lookup_seqZ in E as [-> Hi]. rewrite (la_seq _ _ _ H) in Hi.
  destruct (lookup_lt_is_Some_2 done i) as [ts Hts]; [lia|]. exists ts. split; [done|]. destruct (la_done _ _ _ H i ts Hts) as [<- Hp].
  rewrite Z.add_0_l. done.
Qed.

Lemma links_lookup st k : 0 <= k < curr_link st -> links_of st !! Z.to_nat k = Some (pp_l st k).
Proof. intros Hk. unfold links_of. rewrite list_lookup_fmap, lookup_seqZ_lt by lia. cbn. f_equal. f_equal. lia. Qed.

Lemma links_length done st : laid done [] st -> Z.of_nat (length (links_of st)) = 2 * total done.
Proof.
  intros H. unfold links_of. rewrite length_fmap, length_seqZ, (la_link _ _ _ H). pose proof (total_nonneg done). cbn. lia.
Qed.

Lemma laid_links done st off ts : laid done [] st -> placed st off ts -> 0 <= off -> off + Z.of_nat (length ts) <= 2 * total done ->
  take (length ts) (drop (Z.to_nat off) (links_of st)) = link_of (sid_map st) <$> ts.
Proof.
  intros H Hp Ho Hl. apply list_eq. intros j. destruct (decide (j < length ts)%nat) as [Hj|Hj].
  - destruct (lookup_lt_is_Some_2 ts j Hj) as [t Ht]. rewrite lookup_take_lt, lookup_drop, list_lookup_fmap, Ht by done.
    destruct (Hp j t Ht) as [E _]. cbn [fmap option_fmap option_map]. rewrite <- E. replace (Z.to_nat off + j)%nat with (Z.to_nat (off + Z.of_nat j)) by lia.
    apply links_lookup. rewrite (la_link _ _ _ H). cbn. lia.
  - rewrite !lookup_ge_None_2; [done|rewrite length_fmap; lia|rewrite length_take; lia].
Qed.

Lemma laid_sequences done st :
  laid done [] st -> Forall (fun ts => ts <> []) done -> 2 * total done <= LINKS ->
  Forall (seq_wf (links_of st)) (seqs_of st) /\ Forall (fun s => sq_current_position s = 0) (seqs_of st) /\
  seq_links (links_of st) <$> seqs_of st = (fun ts => link_of (sid_map st) <$> ts) <$> done.
Proof.
  intros H Hne Hb. pose proof (links_length _ _ H) as Hll.
  assert (forall i s, seqs_of st !! i = Some s -> exists ts, done !! i = Some ts /\ seq_wf (links_of st) s /\ sq_current_position s = 0 /\
    seq_links (links_of st) s = link_of (sid_map st) <$> ts) as Hi.
  { intros i s Hs. destruct (seqs_lookup done st i s H Hs) as (ts & Hts & -> & Hp). exists ts. pose proof (total_take _ _ _ Hts). pose proof (total_nonneg (take i done)).
    assert (0 < Z.of_nat (length ts)). { rewrite Forall_lookup in Hne. specialize (Hne i ts Hts). destruct ts; [done|cbn; lia]. }
    split; [done|]. split; [split; cbn; unfold LINKS in *; lia|]. split; [done|]. unfold seq_links. cbn [sq_length sq_link_offset].
    rewrite Nat2Z.id. apply (laid_links done); [done|done|lia|lia]. }
  split; [|split]; [apply Forall_lookup; intros i s Hs; destruct (Hi i s Hs) as (? & _ & ? & ? & _); done..|].
  apply list_eq. intros i. rewrite !list_lookup_fmap. destruct (seqs_of st !! i) as [s|] eqn:E.
  - destruct (Hi i s E) as (ts & -> & _ & _ & Hs). cbn. by rewrite Hs.
  - apply lookup_ge_None in E. unfold seqs_of in E. rewrite length_fmap, length_seqZ, (la_seq _ _ _ H) in E.
    rewrite (lookup_ge_None_2 done) by lia. done.
Qed.

Lemma laid_start (a : Z -> sequence) (b : Z -> link) w :
  (forall i, 0 <= i -> sq_length (a i) = 0 /\ sq_current_position (a i) = 0) -> world_ok s0 g0 m0 ∅ w -> laid [] [] (ppp_start a b w).
Proof.
  intros Ha Hw. split; try done.
  - destruct (Ha 0) as [E1 E2]; [lia|]. cbn [ppp_start pp_s length Z.of_nat]. by rewrite fn_lookup_insert, E1, E2.
  - intros i Hi. cbn in Hi |- *. rewrite fn_lookup_insert_ne by lia. apply Ha. lia.
Qed.

(** The policy is in the kernel: PIGA's state is that of a load, with the
    signatures of [l] at their beginning. *)
Definition holds_policy (l : list signature) (sm : gmap string Z) (g : piga) : Prop :=
  piga_wf g /\ Forall (fun s => sq_current_position s = 0) (pg_seq g) /\
  seq_links (pg_link g) <$> pg_seq g = (fun sg => link_of sm <$> sg_links sg) <$> l.

(** A policy the tables have room for, written with tokens of the grammar. *)
Record policy_fits (l : list signature) : Prop := mk_policy_fits {
  pf_nonempty : l <> [];
  pf_tokens : Forall (fun sg => Forall tok_ok (sig_tokens sg)) l;
  pf_contexts : Forall (fun sg => Forall contexts_ok (sg_links sg)) l;
  pf_links : 2 * total (sg_links <$> l) <= LINKS;
  pf_seqs : Z.of_nat (length l) < SEQS
}.

Lemma ppp_loads l (a : Z -> sequence) (b : Z -> link) w :
  policy_fits l -> (forall i, 0 <= i -> sq_length (a i) = 0 /\ sq_current_position (a i) = 0) -> world_ok s0 g0 m0 ∅ w ->
  exists rc st w', ppp_main lib_class lib_perm verbose (policy_text l) a b [] w = Some (rc, Some st, w') /\
    laid (sg_links <$> l) [] st /\ w_ss w' = w_ss (pp_world st) /\
    ((rc = -1 /\ w_piga w' = w_piga (pp_world st) /\ m0 <> []) \/
     (rc = 0 /\ w_piga w' = loaded (w_piga (pp_world st)) (seqs_of st) (links_of st) /\ holds_policy l (sid_map st) (w_piga w'))).
Proof.
  intros [Hne Htok Hctx Hl Hs] Ha Hw. unfold ppp_main. cbn [kalloc negb andb]. rewrite scan_policy by done.
  destruct l as [|sg l]; [done|]. rewrite parse_policy.
  destruct (do_policy_laid (sg :: l) [] (ppp_start a b w)) as (st & E & H); [by apply laid_start|done|done|cbn in *; lia|].
  rewrite E. cbn [mbind option_bind app] in *. change (nz 0) with false. cbv iota. unfold set_sequence.
  set (done := sg_links <$> sg :: l) in *. pose proof (total_nonneg done) as H0.
  assert (Forall (fun ts => ts <> []) done) as Hdone by (apply Forall_fmap, Forall_true; done).
  destruct (laid_sequences done st H Hdone Hl) as (Hwf & Hpos & Hlinks).
  assert (curr_seq st = Z.of_nat (length (seqs_of st))) as Hcs
    by (unfold seqs_of; rewrite length_fmap, length_seqZ, (la_seq _ _ _ H); lia).
  assert (curr_link st = Z.of_nat (length (links_of st))) as Hcl by (rewrite (links_length _ _ H), (la_link _ _ _ H); cbn; lia).
  destruct (Z.ltb_spec LINKS (curr_link st)) as [Hbad|_]; [rewrite Hcl, (links_length _ _ H) in Hbad; lia|].
  assert (done !! 0%nat = Some (sg_links sg)) as Hhd by done. pose proof (total_take _ _ _ Hhd) as Hpos1. change (total (take 0 done)) with 0 in Hpos1.
  unfold sg_links in Hpos1. cbn [length] in Hpos1.
  destruct (add_sequence_wf (w_piga (pp_world st)) (seqs_of st) (links_of st) (w_kmem (pp_world st))) as (rc & g' & m' & E2 & Hres).
  { intros E2. apply (f_equal (fun l => Z.of_nat (length l))) in E2. rewrite <- Hcs, (la_seq _ _ _ H) in E2. done. }
  { intros E2. apply (f_equal (fun l => Z.of_nat (length l))) in E2. rewrite (links_length _ _ H) in E2. change (Z.of_nat (length [])) with 0 in E2. lia. }
  { done. }
  fold (seqs_of st) (links_of st). rewrite Hcs, Hcl, E2. cbn [mbind option_bind]. do 3 eexists. split; [reflexivity|].
  split; [done|]. split; [done|]. destruct Hres as [(-> & -> & Hmm)|(-> & -> & Hw')]; [left; split_and!; [done..|]; intros E0; by apply Hmm, (wo_mem _ _ _ _ _ (la_world _ _ _ H))|right].
  split; [done|]. split; [done|]. split; [done|]. split; [done|]. cbn [w_piga loaded pg_link pg_seq]. rewrite Hlinks. unfold done. by rewrite <- list_fmap_compose.
Qed.
End build.

(** ** The policy is enforced *)

(** Every context of [l] has a number. *)
Definition sids_noted (p : policydb) (m0 : kmem) (t : sidtab) (sm : gmap string Z) (l : list signature) : Prop :=
  (forall c sid, sm !! c = Some sid -> sid_noted p m0 t c sid) /\
  Forall (fun sg => Forall (noted sm) (sg_links sg)) l.

Lemma holds_policy_completes lib_class lib_perm l sm g tr e :
  holds_policy lib_class lib_perm l sm g ->
  completed g tr e <-> exists sg, sg ∈ l /\ completes (link_of lib_class lib_perm sm <$> sg_links sg) (seen g tr) e.
Proof.
  intros (_ & _ & Hl). unfold completed. rewrite completes_sigs, Hl, Exists_fmap, Exists_exists. done.
Qed.

(** PIGA with the policy [l] loaded and switched on denies what completes a
    signature of [l]. *)
Lemma policy_enforced lib_class lib_perm l sm g s tr m :
  holds_policy lib_class lib_perm l sm g -> piga_status g = true -> Forall (valid_access s) tr ->
  exists rcs g' m', piga_run s g tr m = Some (rcs, g', m') /\ length rcs = length tr /\
    forall i e rc, tr !! i = Some e -> rcs !! i = Some rc -> considered g e ->
      (rc = PIGA_DENY /\ exists sg, sg ∈ l /\ completes (link_of lib_class lib_perm sm <$> sg_links sg) (seen g (take i tr)) e) \/
      (rc = PIGA_ALLOW /\ ~ exists sg, sg ∈ l /\ completes (link_of lib_class lib_perm sm <$> sg_links sg) (seen g (take i tr)) e).
Proof.
  intros Hp Hst Htr. pose proof Hp as (Hwf & Hpos & _).
  destruct (monitors_run s g [] tr g m (monitors_init g Hwf Hst Hpos) (valid_printable _ _ Htr)) as (rcs & g' & m' & Hrun & _ & Hlen & Hans).
  exists rcs, g', m'. split; [done|]. split; [done|]. intros i e rc Hi Hrc Hc. specialize (Hans i e rc Hi Hrc).
  unfold answers in Hans. rewrite decide_True in Hans by done. cbn [app] in Hans.
  rewrite (holds_policy_completes _ _ _ _ _ _ _ Hp) in Hans. exact Hans.
Qed.

Lemma world_start w : ss_initialized (w_ss w) = true -> sidtab_wf (ss_sidtab (w_ss w)) -> w_open w = [] ->
  world_ok (w_ss w) (w_piga w) (w_kmem w) ∅ w.
Proof.
  intros Hini Hw Ho. split; [|done|exists (proc_sid (w_piga w)); by destruct (w_piga w)|done].
  exists (ss_sidtab (w_ss w)). split; [by destruct (w_ss w)|]. split; [done|]. split; [apply keeps_refl|]. intros c sid H. by rewrite lookup_empty in H.
Qed.

(** C2: from the text of a policy to the denied access.  [ppp] reads the text
    of the signatures [l], asks the kernel for the SIDs of their contexts and
    loads them.  The number it uses for a context is its SID, and 0 only if the
    policy does not know the context, an allocation may fail or the kernel has
    no SIDs left; the signatures it counts are those of [l].  Either an
    allocation of the kernel fails, the program exits with -1 and PIGA's policy
    is as before, or it exits with 0 and with PIGA switched on an access is denied
    exactly when it completes a signature of [l]: when some subsequence of the
    accesses so far, followed by this one, matches its transitions, each taken
    with its first permission.  The memory of the arrays has to be zero. *)
Theorem piga_policy_enforced lib_class lib_perm verbose l a b w tr m :
  ss_initialized (w_ss w) = true -> sidtab_wf (ss_sidtab (w_ss w)) -> w_open w = [] -> policy_fits (w_ss w) l ->
  (forall i, 0 <= i -> sq_length (a i) = 0 /\ sq_current_position (a i) = 0) ->
  exists rc st w', ppp_main lib_class lib_perm verbose (policy_text l) a b [] w = Some (rc, Some st, w') /\
    pp_loaded st + pp_ignored st = Z.of_nat (length l) /\
    sids_noted (ss_policydb (w_ss w)) (w_kmem w) (ss_sidtab (w_ss w')) (sid_map st) l /\ keeps (ss_sidtab (w_ss w)) (ss_sidtab (w_ss w')) /\
    ((rc = -1 /\ w_kmem w <> [] /\ pg_seq (w_piga w') = pg_seq (w_piga w) /\ pg_link (w_piga w') = pg_link (w_piga w)) \/
     (rc = 0 /\ forall g, g = set_piga_status (w_piga w') true -> Forall (valid_access (w_ss w')) tr ->
        exists rcs g' m', piga_run (w_ss w') g tr m = Some (rcs, g', m') /\ length rcs = length tr /\
          forall i e rc, tr !! i = Some e -> rcs !! i = Some rc -> considered g e ->
            let hit := exists sg, sg ∈ l /\ completes (link_of lib_class lib_perm (sid_map st) <$> sg_links sg) (seen g (take i tr)) e in
            (rc = PIGA_DENY /\ hit) \/ (rc = PIGA_ALLOW /\ ~ hit))).
Proof.
  intros Hini Hw Ho Hfit Ha. pose proof (world_start w Hini Hw Ho) as Hwo.
  destruct (ppp_loads lib_class lib_perm verbose (w_ss w) (w_piga w) (w_kmem w) Hini l a b w Hfit Ha Hwo) as (rc & st & w' & E & Hlaid & Hss & Hres).
  exists rc, st, w'. split; [done|]. pose proof (la_world _ _ _ _ _ _ _ _ Hlaid) as [(t & Hss' & Hwt & Hk & Hsm) _ (x & Hg) _].
  rewrite Hss, Hss'. split; [rewrite (la_loaded _ _ _ _ _ _ _ _ Hlaid), (la_ignored _ _ _ _ _ _ _ _ Hlaid), length_fmap; lia|].
  split; [split; [exact Hsm|]; apply laid_noted in Hlaid; rewrite Forall_fmap in Hlaid; exact Hlaid|]. split; [done|].
  destruct Hres as [(-> & Hg' & Hne)|(-> & Hg' & Hp)]; [left; rewrite Hg', Hg; done|right]. split; [done|].
  intros g -> Htr. destruct Hp as ([H1 H2] & H3 & H4).
  apply (policy_enforced lib_class lib_perm l (sid_map st)); [split; [by split|done]|done|done].
Qed.

(** *** A policy without levels, and a signature of two accesses *)

Definition plain_ss : ss := set_ss_policydb sample_ss (set_mls_enabled sample false).
Definition plain_world : world := mk_world plain_ss piga_init_state [] [].

Definition class_no (s : string) : Z := if String.eqb s "file" then 6 else 0.
Definition perm_no (tclass : Z) (s : string) : Z := if String.eqb s "read" then 2 else if String.eqb s "write" then 4 else 0.
Definition zero_seq (_ : Z) : sequence := mk_sequence 0 0 0.
Definition zero_link (_ : Z) : link := mk_link 0 0 0 0.

Definition user_t : string := "root:staff_r:user_t".
Definition etc_t : string := "root:object_r:etc_t".
Definition two_accesses : signature :=
  mk_signature (Some "WARN"%string) "0$1" (mk_transition user_t "file" "read" [] etc_t)
    [mk_transition user_t "file" "write" [] user_t].

Abbreviation run_ppp l := (ppp_main class_no perm_no true (policy_text l) zero_seq zero_link [] plain_world).
Definition run_result (l : list signature) : option (Z * Z * Z * list sequence * list link) :=
  '(rc, st, w) ← run_ppp l; st ← st; Some (rc, pp_loaded st, pp_ignored st, pg_seq (w_piga w), pg_link (w_piga w)).

Ltac chars_ok := split; [discriminate|reflexivity].

Lemma sid_tok u r n : chars is_name u -> chars is_name r -> chars is_name n -> tok_ok (SID (u ++ ":" ++ r ++ ":" ++ n)).
Proof. intros. by exists u, r, n. Qed.

Lemma user_t_tok : tok_ok (SID user_t).
Proof. apply (sid_tok "root" "staff_r" "user_t"); chars_ok. Qed.
Lemma etc_t_tok : tok_ok (SID etc_t).
Proof. apply (sid_tok "root" "object_r" "etc_t"); chars_ok. Qed.

Lemma plain_readable c : c = user_t \/ c = etc_t -> context_ok plain_ss c.
Proof. intros [-> | ->]; (split; [intros t m; vm_compute; by eexists|reflexivity]). Qed.

Lemma two_accesses_fit : policy_fits plain_ss [two_accesses].
Proof.
  split; [discriminate| | |vm_compute; discriminate|reflexivity].
  - constructor; [|constructor]. cbn. repeat (constructor; [first [apply user_t_tok|apply etc_t_tok|chars_ok|exact I|reflexivity]|]). constructor.
  - repeat constructor; apply plain_readable; auto.
Qed.

(** A task of [user_t] reads a file of [etc_t], and then writes one of its own. *)
Definition read_write : list event := [mk_event 3 4 6 2 0 None; mk_event 3 3 6 4 0 None].

(** Whether a context can be printed does not depend on memory. *)
Lemma printable_any s sid : is_Some (security_sid_to_context s sid true []) -> sid_printable s sid.
Proof.
  intros [r H] m. unfold security_sid_to_context, security_sid_to_context_core, context_struct_to_string in *. cbn [negb kalloc] in *.
  destruct (ss_initialized s); cbn [negb] in *.
  2: { destruct (sid <=? SECINITSID_NUM); [|by eexists]. destruct (_ !! _); [|done]. cbn. destruct (kalloc m) as [[] ?]; by eexists. }
  destruct (sidtab_search _ sid) as [c|]; [|by eexists]. destruct (nz (c_len c)).
  { destruct (c_str c); [|done]. cbn. destruct (kalloc m) as [[] ?]; by eexists. }
  apply bind_Some in H as (un & E1 & H). apply bind_Some in H as (rn & E2 & H). apply bind_Some in H as (tn & E3 & H).
  apply bind_Some in H as (n & E4 & H). apply bind_Some in H as (mls & E5 & H).
  rewrite (bind_step _ _ _ E1), (bind_step _ _ _ E2), (bind_step _ _ _ E3), (bind_step _ _ _ E4).
  destruct (kalloc m) as [[] m1]; cbn [negb]; [rewrite (bind_step _ _ _ E5)|]; by eexists.
Qed.

Lemma printable_after sid : sid = 3 \/ sid = 4 ->
  run_ppp [two_accesses] ≫= (fun r => Some (bool_decide (is_Some (security_sid_to_context (w_ss r.2) sid true [])))) = Some true.
Proof. intros [-> | ->]; vm_compute; reflexivity. Qed.

Lemma loaded_printable r sid : run_ppp [two_accesses] = Some r -> sid = 3 \/ sid = 4 -> sid_printable (w_ss r.2) sid.
Proof.
  intros E H%printable_after. rewrite (bind_step _ _ _ E) in H. apply printable_any.
  injection H as H. by apply bool_decide_eq_true in H.
Qed.

Lemma read_write_valid r : run_ppp [two_accesses] = Some r -> Forall (valid_access (w_ss r.2)) read_write.
Proof.
  intros E. pose proof (loaded_printable _ 3 E (or_introl eq_refl)) as H3. pose proof (loaded_printable _ 4 E (or_intror eq_refl)) as H4.
  repeat constructor; try exact H3; try exact H4; try discriminate; reflexivity.
Qed.

Lemma read_write_answers :
  run_ppp [two_accesses] ≫= (fun r => (fun x => x.1.1) <$> piga_run (w_ss r.2) (set_piga_status (w_piga r.2) true) read_write [])
  = Some [PIGA_ALLOW; PIGA_DENY].
Proof. vm_compute. reflexivity. Qed.

(** The program exits with 0; the read is allowed and the write, which completes
    the signature, is denied. *)
Lemma piga_policy_enforced_witness :
  exists st w' g' m', run_ppp [two_accesses] = Some (0, Some st, w') /\ pp_loaded st + pp_ignored st = 1 /\
    piga_run (w_ss w') (set_piga_status (w_piga w') true) read_write [] = Some ([PIGA_ALLOW; PIGA_DENY], g', m') /\
    completes (link_of class_no perm_no (sid_map st) <$> sg_links two_accesses) [mk_event 3 4 6 2 0 None] (mk_event 3 3 6 4 0 None).
Proof.
  destruct (piga_policy_enforced class_no perm_no true [two_accesses] zero_seq zero_link plain_world read_write [])
    as (rc & st & w' & E & Hn & _ & _ & [(_ & [] & _)|[-> H]]).
  - reflexivity.
  - exact sample_sids_wf.
  - reflexivity.
  - exact two_accesses_fit.
  - intros i _. split; reflexivity.
  - reflexivity.
  - destruct (H _ eq_refl (read_write_valid _ E)) as (rcs & g' & m' & Hrun & _ & Hans).
    exists st, w', g', m'. split; [exact E|]. split; [exact Hn|].
    assert (rcs = [PIGA_ALLOW; PIGA_DENY]) as ->.
    { pose proof read_write_answers as Ha. rewrite (bind_step _ _ _ E) in Ha. cbn [snd] in Ha. rewrite Hrun in Ha. by injection Ha as ->. }
    split; [exact Hrun|]. destruct (Hans 1%nat _ _ eq_refl eq_refl eq_refl) as [[_ (sg & Hin & Hc)]|[Hf _]]; [|discriminate Hf].
    apply list_elem_of_singleton in Hin as ->. exact Hc.
Defined.

(** The signature in the kernel: reading etc_t, then writing user_t. *)
Example two_accesses_loaded :
  run_result [two_accesses] =
  Some (0, 1, 0, [mk_sequence 2 0 0],
        [mk_link 3 4 6 2; mk_link 3 3 6 4; mk_link 0 0 0 0; mk_link 0 0 0 0]).
Proof. vm_compute. reflexivity. Qed.

(** Of [{ read write }] only [read] gets into the vector. *)
Example second_permission_lost :
  run_result [mk_signature None "1" (mk_transition user_t "file" "read" ["write"%string] etc_t) []] =
  run_result [mk_signature None "1" (mk_transition user_t "file" "read" [] etc_t) []].
Proof. vm_compute. reflexivity. Qed.

(** A signature with an unknown context is counted as ignored and loaded. *)
Example ignored_signature_loaded :
  run_result [mk_signature None "1" (mk_transition user_t "file" "read" [] "root:object_r:none_t") []] =
  Some (0, 0, 1, [mk_sequence 1 0 0], [mk_link 3 0 6 2; mk_link 0 0 0 0]).
Proof. vm_compute. reflexivity. Qed.

(** What another process reads is gone: the program then gets 0. *)
Example getsid_answer_taken g :
  (piga_proc_getsid_read (piga_proc_getsid_read g 0).2 0).1 = ("0" ++ nl)%string.
Proof. reflexivity. Qed.

(** With levels in the policy no context of a signature is valid: the scanner
    does not take one with a level, the kernel none without. *)
Example mls_contexts_unknown :
  (fun r => r.1.1) <$> security_context_to_sid sample_ss user_t [] = Some (- EINVAL, SECSID_NULL).
Proof. vm_compute. reflexivity. Qed.
