(* ===== verification/Kernel.v ===== *)
(** The running system: the security server, the cache, PIGA, the network
    tables and the variables of selinuxfs as one state, and the runs of the
    hooks in it.  A call of a hook is answered by the function of the module
    that it stands for; calls of other parts of the kernel are answered by the
    environment.  Every check is put on record, with the state it was made in. *)

From S2P Require Import Prelude Ebitmap Context Sidtab Policydb Conditional Services ServicesSid ServicesObj Avc NetCache NetLabel HookBase Piga.
From stdpp Require Import strings.
From Stdlib Require Import String.
Open Scope Z_scope.
Open Scope list_scope.

(** ** State *)

(** The tables of netport.c, netnode.c and netif.c. *)
Record net_tables := mk_net_tables {
  nt_ports : netport_table;
  nt_nodes : netnode_table;
  nt_netifs : netif_table
}.

(** The variables of selinuxfs.c, with the files of booleans/ and their labels,
    the files of class/ by path and of policy_capabilities/ with their inode
    numbers, and [selinux_disabled] of hooks.c.  The security server only tests
    whether [selinux_enforcing] is 0. *)
Record selfs := mk_selfs {
  fs_enforcing : Z;
  selinux_checkreqprot : Z;
  bool_num : Z;
  bool_pending_names : option (list string);
  bool_pending_values : option (list Z);
  bool_files : list (string * Z);
  policy_opened : bool;
  class_files : list (list string * Z);
  last_class_ino : Z;
  policycap_files : list (string * Z);
  selinux_disabled : bool
}.

(** The page of ss/status.c that user space maps. *)
Record kernel_status := mk_kernel_status {
  ks_version : Z;
  ks_sequence : Z;
  ks_enforcing : Z;
  ks_policyload : Z;
  ks_deny_unknown : Z
}.

(** [k_sent]: the messages netlink.c has broadcast, the last one first. *)
Record kernel := mk_kernel {
  k_ss : ss;
  k_avc : avc;
  k_piga : piga;
  k_net : net_tables;
  k_secmark_refcount : Z;
  k_xfrm_refcount : Z;
  k_fs : selfs;
  k_status : option kernel_status;
  k_sent : list (list Z);
  k_mem : kmem
}.

Definition set_k_ss (k : kernel) (v : ss) : kernel :=
  mk_kernel v (k_avc k) (k_piga k) (k_net k) (k_secmark_refcount k) (k_xfrm_refcount k) (k_fs k) (k_status k) (k_sent k) (k_mem k).
Definition set_k_avc (k : kernel) (v : avc) : kernel :=
  mk_kernel (k_ss k) v (k_piga k) (k_net k) (k_secmark_refcount k) (k_xfrm_refcount k) (k_fs k) (k_status k) (k_sent k) (k_mem k).
Definition set_k_piga (k : kernel) (v : piga) : kernel :=
  mk_kernel (k_ss k) (k_avc k) v (k_net k) (k_secmark_refcount k) (k_xfrm_refcount k) (k_fs k) (k_status k) (k_sent k) (k_mem k).
Definition set_k_net (k : kernel) (v : net_tables) : kernel :=
  mk_kernel (k_ss k) (k_avc k) (k_piga k) v (k_secmark_refcount k) (k_xfrm_refcount k) (k_fs k) (k_status k) (k_sent k) (k_mem k).
Definition set_k_fs (k : kernel) (v : selfs) : kernel :=
  mk_kernel (k_ss k) (k_avc k) (k_piga k) (k_net k) (k_secmark_refcount k) (k_xfrm_refcount k) v (k_status k) (k_sent k) (k_mem k).
Definition set_k_status (k : kernel) (v : option kernel_status) : kernel :=
  mk_kernel (k_ss k) (k_avc k) (k_piga k) (k_net k) (k_secmark_refcount k) (k_xfrm_refcount k) (k_fs k) v (k_sent k) (k_mem k).
Definition set_k_sent (k : kernel) (v : list (list Z)) : kernel :=
  mk_kernel (k_ss k) (k_avc k) (k_piga k) (k_net k) (k_secmark_refcount k) (k_xfrm_refcount k) (k_fs k) (k_status k) v (k_mem k).
Definition set_k_mem (k : kernel) (v : kmem) : kernel :=
  mk_kernel (k_ss k) (k_avc k) (k_piga k) (k_net k) (k_secmark_refcount k) (k_xfrm_refcount k) (k_fs k) (k_status k) (k_sent k) v.

(** ** Checks on record *)

(** A check of the cache: the security server at the time, the question, what
    SELinux alone answered and with which decision, and the answer.
    [ck_monitored]: PIGA was asked if SELinux granted the access. *)
Record check := mk_check {
  ck_ss : ss;
  ck_ssid : Z;
  ck_tsid : Z;
  ck_tclass : Z;
  ck_requested : Z;
  ck_selinux : Z;
  ck_avd : av_decision;
  ck_monitored : bool;
  ck_rc : Z
}.

(** ** Answers *)

(** What the rest of the kernel answers: the names of the network devices, and
    functions outside of the module. *)
Record env := mk_env {
  env_dev : Z -> option string;
  env_outside : call -> answer
}.

(** The words of an address as a little-endian machine reads them. *)
Fixpoint mem_words (l : list Z) : list Z :=
  match l with
  | b0 :: b1 :: b2 :: b3 :: l' => (b0 .| (b1 .<< 8) .| (b2 .<< 16) .| (b3 .<< 24)) :: mem_words l'
  | _ => []
  end.

Definition has_perm (k : kernel) (ssid tsid tclass requested : Z) (ad : option audit_data) (flags : Z)
    : option (Z * check * kernel) :=
  '(rc1, avd, _, _) ← avc_has_perm_noaudit (k_ss k) (k_avc k) ssid tsid tclass requested 0 (k_mem k);
  '(rc, _, a, g, m) ← Piga.avc_has_perm_flags (k_ss k) (k_avc k) (k_piga k) ssid tsid tclass requested ad flags (k_mem k);
  Some (rc, mk_check (k_ss k) ssid tsid tclass requested rc1 avd true rc, set_k_mem (set_k_piga (set_k_avc k a) g) m).

Definition has_perm_noaudit (k : kernel) (ssid tsid tclass requested flags : Z) : option (Z * av_decision * check * kernel) :=
  '(rc, avd, a, m) ← avc_has_perm_noaudit (k_ss k) (k_avc k) ssid tsid tclass requested flags (k_mem k);
  Some (rc, avd, mk_check (k_ss k) ssid tsid tclass requested rc avd false rc, set_k_mem (set_k_avc k a) m).

(** The answer of a function of the security server that changes its state. *)
Definition with_ss (k : kernel) (s : ss) (m : kmem) : kernel := set_k_mem (set_k_ss k s) m.

Definition global_value (k : kernel) (g : global) : Z :=
  match g with
  | g_ss_initialized => b2i (ss_initialized (k_ss k))
  | g_policycap_netpeer => b2i (selinux_policycap_netpeer (k_ss k))
  | g_policycap_openperm => b2i (selinux_policycap_openperm (k_ss k))
  | g_policy_seqno => avc_policy_seqno (k_avc k)
  | g_secmark_refcount => k_secmark_refcount k
  | g_xfrm_refcount => k_xfrm_refcount k
  | g_enforcing => fs_enforcing (k_fs k)
  | g_allow_unknown => b2i (security_get_allow_unknown (k_ss k))
  end.

(** The answer to a call, the checks made for it and the state after it. *)
Definition answer_call (v : env) (k : kernel) (c : call) : option (answer * list check * kernel) :=
  let s := k_ss k in
  let m := k_mem k in
  let n := k_net k in
  match c with
  | HasPerm ssid tsid tclass requested ad flags =>
      '(rc, ck, k) ← has_perm k ssid tsid tclass requested ad flags; Some (rc_only rc, [ck], k)
  | HasPermNoaudit ssid tsid tclass requested flags =>
      '(rc, avd, ck, k) ← has_perm_noaudit k ssid tsid tclass requested flags;
      Some (mk_answer rc None None None (Some avd), [ck], k)
  | TransitionSid ssid tsid tclass name =>
      '(rc, sid, s, m) ← ServicesSid.security_transition_sid s ssid tsid tclass name m;
      Some (mk_answer rc sid None None None, [], with_ss k s m)
  | ContextToSid scontext =>
      '(rc, sid, s, m) ← ServicesSid.security_context_to_sid s scontext m;
      Some (mk_answer rc (Some sid) None None None, [], with_ss k s m)
  | ContextToSidForce scontext =>
      '(rc, sid, s, m) ← ServicesSid.security_context_to_sid_force s scontext m;
      Some (mk_answer rc (Some sid) None None None, [], with_ss k s m)
  | ContextToSidDefault scontext def_sid =>
      '(rc, sid, s, m) ← ServicesSid.security_context_to_sid_default s scontext def_sid m;
      Some (mk_answer rc (Some sid) None None None, [], with_ss k s m)
  | SidToContext sid =>
      '(rc, text, len, m) ← ServicesSid.security_sid_to_context s sid true m;
      Some (mk_answer rc (Some len) None text None, [], set_k_mem k m)
  | SidToContextForce sid =>
      '(rc, text, len, m) ← ServicesSid.security_sid_to_context_force s sid true m;
      Some (mk_answer rc (Some len) None text None, [], set_k_mem k m)
  | FsUse fstype =>
      '(rc, behavior, sid, s, m) ← ServicesObj.security_fs_use s fstype m;
      Some (mk_answer rc (Some behavior) sid None None, [], with_ss k s m)
  | GenfsSid fstype path sclass =>
      '(rc, sid, s, m) ← security_genfs_sid s fstype path sclass m;
      Some (mk_answer rc (Some sid) None None None, [], with_ss k s m)
  | BoundedTransition old_sid new_sid =>
      rc ← Services.security_bounded_transition s old_sid new_sid; Some (rc_only rc, [], k)
  | ValidateTransition oldsid newsid tasksid tclass =>
      rc ← Services.security_validate_transition s oldsid newsid tasksid tclass; Some (rc_only rc, [], k)
  | SidMlsCopy sid mls_sid =>
      '(rc, new_sid, s, m) ← ServicesObj.security_sid_mls_copy s sid mls_sid m;
      Some (mk_answer rc new_sid None None None, [], with_ss k s m)
  | PeersidResolve nlbl_sid nlbl_type xfrm_sid =>
      let '(rc, sid) := security_net_peersid_resolve s nlbl_sid nlbl_type xfrm_sid in
      Some (mk_answer rc (Some sid) None None None, [], k)
  | NetportSid protocol pnum =>
      '(rc, sid, s, t, m) ← sel_netport_sid s (nt_ports n) protocol pnum m;
      Some (mk_answer rc sid None None None, [], set_k_net (with_ss k s m) (mk_net_tables t (nt_nodes n) (nt_netifs n)))
  | NetnodeSid addr family =>
      '(rc, sid, s, t, m) ← sel_netnode_sid s (nt_nodes n) (mem_words addr) family m;
      Some (mk_answer rc sid None None None, [], set_k_net (with_ss k s m) (mk_net_tables (nt_ports n) t (nt_netifs n)))
  | NetifSid ifindex =>
      '(rc, sid, s, t, m) ← sel_netif_sid (env_dev v) s (nt_netifs n) ifindex m;
      Some (mk_answer rc sid None None None, [], set_k_net (with_ss k s m) (mk_net_tables (nt_ports n) (nt_nodes n) t))
  | NetlblSecattrToSid a =>
      '(rc, sid, a, s, m) ← security_netlbl_secattr_to_sid s a m;
      Some (mk_answer_attr rc sid None None None (Some a), [], with_ss k s m)
  | NetlblSidToSecattr sid a =>
      '(rc, a, m) ← security_netlbl_sid_to_secattr s sid a m;
      Some (mk_answer_attr rc None None None None (Some a), [], set_k_mem k m)
  | Global g => Some (rc_only (global_value k g), [], k)
  | Kalloc => let '(ok, m) := kalloc m in Some (rc_only (b2i ok), [], set_k_mem k m)
  | NetlblSet _ _ | Outside _ _ => Some (env_outside v c, [], k)
  end.

(** A hook in the running system: its result, its calls, the checks. *)
Fixpoint run {A} (v : env) (p : hook A) (k : kernel) : option (A * trace * list check * kernel) :=
  match p with
  | Ret a => Some (a, [], [], k)
  | Bug => None
  | Call c f =>
      '(an, cks, k) ← answer_call v k c;
      '(a, tr, cks', k) ← run v (f an) k;
      Some (a, (c, an) :: tr, cks ++ cks', k)
  end.

(** What is proved of all answers holds in the running system. *)
Lemma run_runs {A} v (p : hook A) k a tr cks k' : run v p k = Some (a, tr, cks, k') -> runs p tr a.
Proof.
  revert k tr cks. induction p as [b| |c f IH]; cbn; intros k tr cks H; [by injection H as <- <- _ _|done|].
  apply bind_Some in H as ([[an cks1] k1] & _ & H). apply bind_Some in H as ([[[a2 tr2] cks2] k2] & H & E).
  injection E as <- <- <- <-. split; [done|]. by eapply IH.
Qed.

Lemma run_bind {A B} v (p : hook A) (f : A -> hook B) k :
  run v (p ≫= f) k = ('(a, tr, cks, k) ← run v p k; '(b, tr', cks', k) ← run v (f a) k; Some (b, tr ++ tr', cks ++ cks', k)).
Proof.
  revert k. induction p as [b| |c g IH]; intros k; [cbn|done|cbn].
  { by destruct (run v (f b) k) as [[[[? ?] ?] ?]|]. }
  destruct (answer_call v k c) as [[[an cks] k1]|]; [cbn|done]. unfold mbind, hook_mbind in IH. rewrite IH.
  destruct (run v (g an) k1) as [[[[a tr] cks1] k2]|]; [cbn|done].
  destruct (run v (f a) k2) as [[[[b tr2] cks2] k3]|]; cbn; [by rewrite (assoc (++))|done].
Qed.

(** ** Giving out SIDs does not change decisions *)

(** A policy up to the records whose SIDs are filled in when they are used. *)
Definition rules (p : policydb) : policydb := set_genfs_list (set_ocontexts p []) [].

Lemma cexpr_loop_rules p sc tc xc l st : cexpr_loop (rules p) sc tc xc l st = cexpr_loop p sc tc xc l st.
Proof.
  revert st. induction l as [|e l IH]; intros st; [done|]. cbn [cexpr_loop].
  change (cexpr_step (rules p) sc tc xc e st) with (cexpr_step p sc tc xc e st).
  destruct (cexpr_step p sc tc xc e st) as [[st'|]|]; cbn; [apply IH|done|done].
Qed.

Lemma apply_constraints_rules p sc tc l av : apply_constraints (rules p) sc tc l av = apply_constraints p sc tc l av.
Proof.
  revert av. induction l as [|c l IH]; intros av; [done|]. cbn [apply_constraints].
  unfold constraint_expr_eval. rewrite cexpr_loop_rules. by destruct (if nz _ then _ else _) as [[]|]; cbn.
Qed.

Lemma te_targets_rules p tclass i l avd : te_compute_targets (rules p) tclass i l avd = te_compute_targets p tclass i l avd.
Proof.
  revert avd. induction l as [|j l IH]; intros avd; [done|]. cbn [te_compute_targets].
  change (te_compute_pair (rules p) tclass i j avd) with (te_compute_pair p tclass i j avd).
  destruct (te_compute_pair p tclass i j avd); cbn; [apply IH|done].
Qed.

Lemma te_compute_rules p tclass l l' avd : te_compute (rules p) tclass l l' avd = te_compute p tclass l l' avd.
Proof.
  revert avd. induction l as [|i l IH]; intros avd; [done|]. cbn [te_compute]. rewrite te_targets_rules.
  destruct (te_compute_targets p tclass i l' avd); cbn; [apply IH|done].
Qed.

Lemma compute_av_rules_rules p sc tc tclass avd : compute_av_rules (rules p) sc tc tclass avd = compute_av_rules p sc tc tclass avd.
Proof.
  unfold compute_av_rules. destruct (_ || _); [done|]. cbn [rules class_val_to_struct set_genfs_list set_ocontexts].
  destruct (Policydb.index _ _) as [x|]; [cbn|done]. change (type_attr_map (rules p)) with (type_attr_map p).
  destruct (type_attr_map p (c_type sc)); [cbn|done]. destruct (type_attr_map p (c_type tc)); [cbn|done].
  rewrite te_compute_rules. destruct (te_compute _ _ _ _ _); [cbn|done]. destruct (deref x); [cbn|done].
  rewrite apply_constraints_rules. done.
Qed.

Lemma bounds_av_ext f g p sc tc tclass avd : (forall s t, f s t = g s t) -> bounds_av f p sc tc tclass avd = bounds_av g p sc tc tclass avd.
Proof.
  intros E. unfold bounds_av. destruct (deref _) as [src|]; [cbn|done]. destruct (deref _) as [tgt|]; [cbn|done]. by rewrite !E.
Qed.

Lemma compute_av_fuel_rules n p sc tc tclass avd : compute_av_fuel n (rules p) sc tc tclass avd = compute_av_fuel n p sc tc tclass avd.
Proof.
  revert sc tc avd. induction n as [|n IH]; intros sc tc avd; [done|]. cbn [compute_av_fuel]. rewrite compute_av_rules_rules.
  destruct (compute_av_rules p sc tc tclass avd) as [[[] avd1]|]; [cbn|done|done].
  transitivity (bounds_av (fun s t => compute_av_fuel n (rules p) s t tclass avd_zero) p sc tc tclass avd1); [done|]. by apply bounds_av_ext.
Qed.

Lemma compute_av_same_rules p q sc tc tclass avd : rules q = rules p ->
  context_struct_compute_av q sc tc tclass avd = context_struct_compute_av p sc tc tclass avd.
Proof. intros E. unfold context_struct_compute_av. by rewrite <- (compute_av_fuel_rules _ p), <- (compute_av_fuel_rules _ q), E. Qed.

(** A SID whose context does not change any more: it is in the table, or it is
    0, which is never given out. *)
Definition settled (s : ss) (sid : Z) : Prop := sid <= 0 \/ is_Some (sidtab_abs (ss_sidtab s) !! sid).

Record sids_ok (s : ss) : Prop := mk_sids_ok {
  so_wf : sidtab_wf (ss_sidtab s);
  so_unlabeled : is_Some (sidtab_abs (ss_sidtab s) !! SECINITSID_UNLABELED)
}.

(** What becomes of the security server while SIDs are given out. *)
Record extends (s s' : ss) : Prop := mk_extends {
  ex_rules : rules (ss_policydb s') = rules (ss_policydb s);
  ex_sids : sidtab_wf (ss_sidtab s) -> sidtab_wf (ss_sidtab s') /\ keeps (ss_sidtab s) (ss_sidtab s');
  ex_init : ss_initialized s' = ss_initialized s;
  ex_seqno : latest_granting s' = latest_granting s;
  ex_mapping : current_mapping s' = current_mapping s;
  ex_size : current_mapping_size s' = current_mapping_size s;
  ex_enforcing : selinux_enforcing s' = selinux_enforcing s
}.

#[export] Instance extends_preorder : PreOrder extends.
Proof.
  split.
  - intros s. split; try done. intros Hw. split; [done|apply keeps_refl].
  - intros s1 s2 s3 [A1 A2 A3 A4 A5 A6 A7] [B1 B2 B3 B4 B5 B6 B7].
    split; [by rewrite B1|intros Hw|by rewrite B3|by rewrite B4|by rewrite B5|by rewrite B6|by rewrite B7].
    destruct (A2 Hw) as [Hw2 K1]. destruct (B2 Hw2) as [Hw3 K2]. split; [done|]. by eapply keeps_trans.
Qed.

Lemma extends_sidtab s ctx m rc sid t m' :
  sidtab_context_to_sid (ss_sidtab s) ctx m = Some (rc, sid, t, m') -> extends s (set_ss_sidtab s t).
Proof. intros H. split; try done. intros Hw. by eapply to_sid_extends. Qed.

Lemma extends_ok s s' : extends s s' -> sids_ok s -> sids_ok s'.
Proof. intros [_ Hs _ _ _ _ _] [Hw [c Hc]]. destruct (Hs Hw) as [Hw' Hk]. split; [done|]. exists c. by apply Hk. Qed.

Lemma extends_settled s s' sid : extends s s' -> sidtab_wf (ss_sidtab s) -> settled s sid -> settled s' sid.
Proof. intros [_ Hs _ _ _ _ _] Hw [?|[c Hc]]; [by left|]. right. exists c. by apply (proj2 (Hs Hw)). Qed.

Lemma extends_search s s' sid : extends s s' -> sids_ok s -> settled s sid ->
  sidtab_search (Some (ss_sidtab s')) sid = sidtab_search (Some (ss_sidtab s)) sid.
Proof.
  intros [_ Hs _ _ _ _ _] [Hw [u Hu]] Hset. destruct (Hs Hw) as [Hw' Hk]. unfold sidtab_search.
  rewrite !search_core_spec by (apply Hw || apply Hw'). unfold search_spec. rewrite Hu, (Hk _ _ Hu).
  destruct Hset as [H|[c Hc]]; [by rewrite !sid_positive by done|]. by rewrite Hc, (Hk _ _ Hc).
Qed.

(** The fields of a policy that are not records to fill in. *)
Lemma rules_fields p q : rules q = rules p ->
  permissive_map q = permissive_map p /\ allow_unknown q = allow_unknown p.
Proof. intros E. split; [exact (f_equal permissive_map E)|exact (f_equal allow_unknown E)]. Qed.

Lemma compute_av_extends s s' ssid tsid tclass :
  extends s s' -> sids_ok s -> settled s ssid -> settled s tsid ->
  security_compute_av s' ssid tsid tclass = security_compute_av s ssid tsid tclass.
Proof.
  intros Hx Hok H1 H2. unfold security_compute_av. pose proof Hx as [Hr _ Hi Hg Hm Hz _]. rewrite Hi.
  replace (avd_init s') with (avd_init s) by (unfold avd_init; by rewrite Hg).
  destruct (negb _); [done|].
  rewrite !(extends_search s s') by done. destruct (rules_fields _ _ Hr) as [-> ->].
  replace (unmap_class s' tclass) with (unmap_class s tclass) by (unfold unmap_class, mapping_at; by rewrite Hz, Hm).
  destruct (sidtab_search _ ssid) as [sc|]; [|done]. destruct (ebitmap_get_bit _ _) as [b|]; [cbn [mbind option_bind]|done].
  destruct (sidtab_search _ tsid) as [tc|]; [|done]. destruct (unmap_class s tclass) as [cl|]; [cbn [mbind option_bind]|done].
  destruct (_ && _); [done|]. rewrite (compute_av_same_rules _ _ _ _ _ _ Hr).
  destruct (context_struct_compute_av _ _ _ _ _); [cbn [mbind option_bind]|done]. unfold map_decision, mapping_at. by rewrite Hz, Hm.
Qed.

(** *** The functions that give out SIDs *)

Lemma compute_sid_extends s ssid tsid tclass sp name kern m rc sid s' m' :
  security_compute_sid s ssid tsid tclass sp name kern m = Some (rc, sid, s', m') -> extends s s'.
Proof.
  unfold security_compute_sid. destruct (negb _); [by intros [= <- <- <- <-]|].
  intros ([cl sock] & _ & H)%bind_Some. destruct (sidtab_search (Some (ss_sidtab s)) ssid) as [sc|], (sidtab_search (Some (ss_sidtab s)) tsid) as [tc|]; try by simplify_eq.
  apply bind_Some in H as (c0 & _ & H). apply bind_Some in H as ([[rc1 c1] m1] & _ & H). destruct (nz rc1); [by simplify_eq|].
  apply bind_Some in H as (valid & _ & H). destruct (nz _); [by simplify_eq|].
  apply bind_Some in H as ([[[rc2 sid2] t] m2] & H & E). injection E as <- <- <- <-. by eapply extends_sidtab.
Qed.

Lemma context_to_sid_extends s text def force m rc sid s' m' :
  security_context_to_sid_core s text def force m = Some (rc, sid, s', m') -> extends s s'.
Proof.
  unfold security_context_to_sid_core. destruct (negb (ss_initialized s)).
  { intros (? & _ & H)%bind_Some. by simplify_eq. }
  destruct (kalloc m) as [[] m1]; cbn [negb]; [|by intros; simplify_eq].
  destruct (if force then kalloc m1 else (true, m1)) as [[] m2]; cbn [negb]; [|by intros; simplify_eq].
  intros ([[rc1 ctx] m3] & _ & H)%bind_Some. destruct (if _ && force then _ else _) as [rc2 ctx2]. destruct (nz rc2); [by simplify_eq|].
  apply bind_Some in H as ([[[rc3 sid3] t] m4] & H & E). injection E as <- <- <- <-. by eapply extends_sidtab.
Qed.

Lemma mls_copy_extends s sid mls_sid m rc new s' m' :
  ServicesObj.security_sid_mls_copy s sid mls_sid m = Some (rc, new, s', m') -> extends s s'.
Proof.
  unfold ServicesObj.security_sid_mls_copy. destruct (_ || _); [by intros [= <- <- <- <-]|].
  destruct (sidtab_search (Some (ss_sidtab s)) sid) as [c1|], (sidtab_search (Some (ss_sidtab s)) mls_sid) as [c2|]; try by (intros; simplify_eq).
  destruct (mls_context_cpy _ _ _) as [[rc1 nc] m1]. destruct (nz rc1); [by intros; simplify_eq|].
  intros (valid & _ & H)%bind_Some. destruct (nz _); [by simplify_eq|].
  apply bind_Some in H as ([[[rc3 sid3] t] m4] & H & E). injection E as <- <- <- <-. by eapply extends_sidtab.
Qed.

Lemma netlbl_sid_extends s a m rc sid a' s' m' :
  security_netlbl_secattr_to_sid s a m = Some (rc, sid, a', s', m') -> extends s s'.
Proof.
  unfold security_netlbl_secattr_to_sid. destruct (negb (ss_initialized s)); [by intros [= <- <- <- <- <-]|].
  destruct (has_flag a NETLBL_SECATTR_CACHE); [intros (? & _ & H)%bind_Some; by simplify_eq|].
  destruct (has_flag a NETLBL_SECATTR_SECID); [by intros; simplify_eq|].
  destruct (has_flag a NETLBL_SECATTR_MLS_LVL); [|by intros; simplify_eq].
  destruct (sidtab_search _ _) as [ctx|]; [|by intros; simplify_eq].
  intros ([[rc1 cat] m1] & _ & H)%bind_Some. destruct (nz rc1); [by simplify_eq|].
  apply bind_Some in H as (valid & _ & H). destruct (negb valid); [by simplify_eq|].
  apply bind_Some in H as ([[[rc3 sid3] t] m4] & H & E). apply extends_sidtab in H.
  destruct (nz rc3); [by simplify_eq|]. destruct (security_netlbl_cache_add a sid3 m4) as [a4 m5]. by simplify_eq.
Qed.

(** Storing records does not touch the rules. *)
Lemma put_extends s s' i l : extends s s' -> extends s (put_ocontexts s' i l).
Proof. intros [A1 A2 A3 A4 A5 A6 A7]. by split. Qed.

Lemma fill_extends s c m rc c' s' m' : fill_sid0 s c m = Some (rc, c', s', m') -> extends s s'.
Proof.
  unfold fill_sid0. destruct (negb _); [|by intros; simplify_eq].
  intros ([[[rc3 sid3] t] m4] & H & E)%bind_Some. injection E as <- <- <- <-. by eapply extends_sidtab.
Qed.

Lemma ocon_extends s i f d m rc sid s' m' : ocon_sid s i f d m = Some (rc, sid, s', m') -> extends s s'.
Proof.
  unfold ocon_sid. destruct (ocon_find _ _) as [[[b c] a]|]; [|by intros; simplify_eq].
  intros ([[[rc1 c1] s1] m1] & H & E)%bind_Some. apply fill_extends in H. destruct (nz rc1); simplify_eq; by apply put_extends.
Qed.

Lemma genfs_extends s fstype path sclass m rc sid s' m' :
  security_genfs_sid s fstype path sclass m = Some (rc, sid, s', m') -> extends s s'.
Proof.
  unfold security_genfs_sid. intros (cl & _ & H)%bind_Some. destruct (genfs_find _ _) as [[[gb g] ga]|]; [|by simplify_eq].
  destruct (ocon_find _ _) as [[[b c] a]|]; [|by simplify_eq]. apply bind_Some in H as ([[[rc1 c1] s1] m1] & H & E).
  apply fill_extends in H as [A1 A2 A3 A4 A5 A6 A7]. destruct (nz rc1); injection E as <- <- <- <-; (split; [exact A1|exact A2|exact A3|exact A4|exact A5|exact A6|exact A7]).
Qed.

Lemma fs_use_extends s fstype m rc b sid s' m' : ServicesObj.security_fs_use s fstype m = Some (rc, b, sid, s', m') -> extends s s'.
Proof.
  unfold ServicesObj.security_fs_use. destruct (ocon_find _ _) as [[[bf c] a]|]; intros H.
  - apply bind_Some in H as ([[[rc1 c1] s1] m1] & H & E). apply fill_extends in H. destruct (nz rc1); simplify_eq; by apply put_extends.
  - apply bind_Some in H as ([[[rc1 sid1] s1] m1] & H & E). apply genfs_extends in H. by simplify_eq.
Qed.

Lemma table_extends {K E} (hash : K -> option nat) (matches : K -> E -> bool) sid_of entry limit call s t key m rc sid s' t' m' :
  (forall s m rc sid s' m', call s key m = Some (rc, sid, s', m') -> extends s s') ->
  table_sid hash matches sid_of entry limit call s t key m = Some (rc, sid, s', t', m') -> extends s s'.
Proof.
  intros Hc. unfold table_sid, table_sid_slow. intros (f & Ef & H)%bind_Some. destruct f as [e|]; [by simplify_eq|].
  rewrite Ef in H. cbn [mbind option_bind] in H. destruct (kalloc m) as [[] m1]; cbn [negb] in H; [|by simplify_eq].
  apply bind_Some in H as ([[[rc1 sid1] s1] m2] & H1 & H). apply Hc in H1. destruct sid1 as [sid1|]; [|by simplify_eq].
  destruct (nz rc1); [by simplify_eq|]. apply bind_Some in H as (t1 & _ & H). by simplify_eq.
Qed.

Lemma node_extends s d addr len m rc sid s' m' : security_node_sid s d addr len m = Some (rc, sid, s', m') -> extends s s'.
Proof.
  unfold security_node_sid. destruct (d =? AF_INET).
  - destruct (negb _); [by intros; simplify_eq|apply ocon_extends].
  - destruct (d =? AF_INET6); [|by intros; simplify_eq]. destruct (negb _); [by intros; simplify_eq|apply ocon_extends].
Qed.

Lemma netif_extends s name m rc sid s' m' : security_netif_sid s name m = Some (rc, sid, s', m') -> extends s s'.
Proof.
  unfold security_netif_sid. destruct (ocon_find _ _) as [[[b c] a]|]; [|by intros; simplify_eq].
  destruct (_ || _); [|by intros; simplify_eq]. intros ([[[rc1 sid1] t1] m1] & H1 & H)%bind_Some. apply extends_sidtab in H1.
  destruct (nz rc1); [injection H as <- <- <- <-; by apply put_extends|].
  apply bind_Some in H as ([[[rc2 sid2] t2] m2] & H2 & H). apply extends_sidtab in H2.
  destruct (nz rc2); injection H as <- <- <- <-; apply put_extends; by etrans.
Qed.

Lemma port_table_extends s t pr pn m rc sid s' t' m' : sel_netport_sid s t pr pn m = Some (rc, sid, s', t', m') -> extends s s'.
Proof. apply table_extends. intros *. apply ocon_extends. Qed.

Lemma node_table_extends s t addr fam m rc sid s' t' m' : sel_netnode_sid s t addr fam m = Some (rc, sid, s', t', m') -> extends s s'.
Proof. apply table_extends. intros *. unfold node_call. destruct (_ =? _); apply node_extends. Qed.

Lemma netif_table_extends dev s t i m rc sid s' t' m' : sel_netif_sid dev s t i m = Some (rc, sid, s', t', m') -> extends s s'.
Proof.
  unfold sel_netif_sid, sel_netif_sid_slow. intros (f & Ef & H)%bind_Some. destruct f as [e|]; [by simplify_eq|].
  destruct (dev i) as [name|]; [|by simplify_eq]. rewrite Ef in H. cbn [mbind option_bind] in H.
  destruct (kalloc m) as [[] m1]; cbn [negb] in H; [|by simplify_eq].
  apply bind_Some in H as ([[[rc1 sid1] s1] m2] & H1 & H). apply netif_extends in H1. destruct sid1 as [sid1|]; [|by simplify_eq].
  destruct (nz rc1); [by simplify_eq|]. apply bind_Some in H as ([rc2 t2] & _ & H). destruct (nz rc2); by simplify_eq.
Qed.

(** ** Checks through the cache *)

(** What is cached: decisions of the security server, for SIDs that keep their
    contexts. *)
Definition cached_ok (s : ss) (e : avc_entry) : Prop :=
  entry_ok s e /\ settled s (ae_ssid e) /\ settled s (ae_tsid e).

(** A policy has been loaded and the cache agrees with it. *)
Record kernel_ok (k : kernel) : Prop := mk_kernel_ok {
  ko_avc : avc_wf (k_avc k);
  ko_cached : cached_all (cached_ok (k_ss k)) (k_avc k);
  ko_sids : sids_ok (k_ss k);
  ko_init : ss_initialized (k_ss k) = true
}.

(** The policy allows what was requested, or is not enforced for it. *)
Definition allowed_by (s : ss) (ssid tsid tclass requested : Z) : Prop :=
  exists avd, security_compute_av s ssid tsid tclass = Some avd /\
    (nz (requested .& not32 (allowed avd)) = false \/ permissive_for s avd = true).

Lemma cached_impl (P Q : avc_entry -> Prop) a : (forall e, P e -> Q e) -> cached_all P a -> cached_all Q a.
Proof. intros H HP. eapply Forall_impl; [exact HP|]. intros l Hl. by eapply Forall_impl. Qed.

Lemma cached_extends s s' a : extends s s' -> sids_ok s ->
  cached_all (cached_ok s) a -> cached_all (cached_ok s') a.
Proof.
  intros Hx Hok. apply cached_impl. intros e [(avd & Hc & Hd) [H1 H2]]. pose proof (so_wf _ Hok) as Hw. split.
  - exists avd. split; [rewrite <- Hc; by apply compute_av_extends|]. unfold permissive_for in *. by rewrite (ex_enforcing _ _ Hx).
  - split; by eapply extends_settled.
Qed.

(** The decision of [avc_has_perm_noaudit], from the cache or fresh. *)
Lemma decision_cached s a ssid tsid tclass m avd1 a1 m1 :
  avc_wf a -> cached_all (cached_ok s) a -> settled s ssid /\ settled s tsid ->
  avc_decision s a ssid tsid tclass m = Some (avd1, a1, m1) ->
  avc_wf a1 /\ cached_all (cached_ok s) a1 /\
  exists avd, security_compute_av s ssid tsid tclass = Some avd /\ (avd1 = avd \/ (permissive_for s avd = true /\ grants avd avd1)).
Proof.
  intros Hw Hc Hs. unfold avc_decision. destruct (avc_lookup a ssid tsid tclass) as [e|] eqn:Hl.
  - intros [= <- <- <-]. split; [done|]. split; [done|]. apply lookup_key in Hl as [Hk Hin].
    pose proof (slot_at_all _ a (avc_hash ssid tsid tclass) Hc) as HF. rewrite Forall_forall in HF.
    destruct (HF e Hin) as [(avd & Hav & Hd) _]. unfold entry_key in Hk. injection Hk as E1 E2 E3. rewrite E1, E2, E3 in Hav. by exists avd.
  - intros (avd & Hav & H)%bind_Some. pose proof (avc_insert_spec a ssid tsid tclass avd m Hw) as Hi. cbv zeta in Hi.
    destruct (avc_insert a ssid tsid tclass avd m) as [[r a2] m2]. injection H as <- <- <-. destruct Hi as (Hw1 & _ & Hi).
    split; [done|]. split; [|exists avd; by split; [|left]].
    destruct Hi as [[_ ->]|(_ & _ & _ & HP)]; [done|]. apply HP; [done|]. split; [|done]. exists avd. by split; [|left].
Qed.

Lemma noaudit_cached s a ssid tsid tclass requested flags m rc avd1 a' m' :
  avc_wf a -> cached_all (cached_ok s) a -> settled s ssid /\ settled s tsid ->
  avc_has_perm_noaudit s a ssid tsid tclass requested flags m = Some (rc, avd1, a', m') ->
  avc_wf a' /\ cached_all (cached_ok s) a' /\ (rc = 0 -> allowed_by s ssid tsid tclass requested).
Proof.
  intros Hw Hc Hs. unfold avc_has_perm_noaudit. destruct (negb (nz requested)); [done|]. fold (avc_decision s a ssid tsid tclass m).
  intros ([[avd a1] m1] & Hd & H)%bind_Some.
  destruct (decision_cached _ _ _ _ _ _ _ _ _ Hw Hc Hs Hd) as (Hw1 & Hc1 & avd0 & Hav & Hg).
  assert (permissive_for s avd = permissive_for s avd0) as Ep.
  { destruct Hg as [->|[_ Hg]]; [done|]. by apply grants_permissive. }
  assert (nz (requested .& not32 (allowed avd)) = false \/ permissive_for s avd = true -> allowed_by s ssid tsid tclass requested) as Hall.
  { intros [Hn|Hp]; exists avd0; (split; [done|]); [|right; by rewrite <- Ep]. destruct Hg as [->|[Hp _]]; [by left|by right]. }
  destruct (nz (requested .& not32 (allowed avd))) eqn:En; [|injection H as <- <- <- <-; auto].
  destruct (nz (flags .& AVC_STRICT)); [by injection H as <- <- <- <-|]. fold (permissive_for s avd) in H.
  destruct (permissive_for s avd) eqn:Hp; [|by injection H as <- <- <- <-].
  pose proof (avc_update_node_spec a1 AVC_CALLBACK_GRANT requested ssid tsid tclass (seqno avd) m1 Hw1) as Hu.
  destruct (avc_update_node _ _ _ _ _ _ _ _) as [[rc2 a2] m2]. injection H as <- <- <- <-. destruct Hu as (Hw2 & _ & HP).
  split; [done|]. split; [|auto]. apply HP; [|done]. intros e [He Hse] Hk _.
  assert (permissive_for s (ae_avd e) = true) as Hpe.
  { destruct He as (avd2 & Hav2 & Hd2). unfold entry_key in Hk. injection Hk as E1 E2 E3. rewrite E1, E2, E3, Hav in Hav2.
    injection Hav2 as <-. destruct Hd2 as [->|[Hp2 Hg2]]; [congruence|]. by rewrite (grants_permissive _ _ _ Hg2). }
  split; [by apply entry_grant|done].
Qed.

(** ** Histories *)

Definition settled_check (c : check) : Prop :=
  settled (ck_ss c) (ck_ssid c) /\ settled (ck_ss c) (ck_tsid c).

(** The accesses PIGA was asked about. *)
Definition event_of (c : check) : event :=
  mk_event (ck_ssid c) (ck_tsid c) (ck_tclass c) (ck_requested c) 0 (Some (ck_avd c)).
Definition piga_asked (c : check) : Prop := ck_monitored c = true /\ ck_selinux c = 0.
#[export] Instance piga_asked_dec c : Decision (piga_asked c).
Proof. unfold piga_asked. apply _. Defined.
Definition piga_events (l : list check) : list event := event_of <$> filter piga_asked l.

(** A check that was granted after the checks [before]: the policy of the time
    allowed it, and it completed none of the sequences of [g0]. *)
Definition check_ok (g0 : piga) (before : list check) (c : check) : Prop :=
  ck_rc c = 0 ->
  allowed_by (ck_ss c) (ck_ssid c) (ck_tsid c) (ck_tclass c) (ck_requested c) /\
  (piga_status g0 = true -> ck_monitored c = true -> considered g0 (event_of c) -> ~ completed g0 (piga_events before) (event_of c)).

(** The system after the checks [log], since PIGA had the sequences [g0]. *)
Record history (g0 : piga) (log : list check) (k : kernel) : Prop := mk_history {
  hi_kernel : kernel_ok k;
  hi_piga : if piga_status g0 then monitors g0 (piga_events log) (k_piga k) else piga_status (k_piga k) = false;
  hi_checks : forall i c, log !! i = Some c -> check_ok g0 (take i log) c
}.

Lemma history_snoc g0 log k c k' :
  history g0 log k -> kernel_ok k' ->
  (if piga_status g0 then monitors g0 (piga_events (log ++ [c])) (k_piga k') else piga_status (k_piga k') = false) ->
  check_ok g0 log c -> history g0 (log ++ [c]) k'.
Proof.
  intros [_ _ Hl] Hk Hp Hc. split; [done|done|]. intros i c' Hi. apply lookup_app_Some in Hi as [Hi|[Hi E]].
  - rewrite take_app_le by (apply lookup_lt_Some in Hi; lia). by apply Hl.
  - apply list_lookup_singleton_Some in E as [E <-]. by rewrite take_app_le, take_ge by lia.
Qed.

Lemma piga_events_snoc log c :
  piga_events (log ++ [c]) = if decide (piga_asked c) then piga_events log ++ [event_of c] else piga_events log.
Proof.
  unfold piga_events. rewrite filter_app, fmap_app. destruct (decide (piga_asked c)) as [H|H].
  - by rewrite filter_cons_True, filter_nil by done.
  - by rewrite filter_cons_False, filter_nil, app_nil_r by done.
Qed.

(** The state after a check. *)
Lemma checked_kernel k a g m : kernel_ok k -> avc_wf a -> cached_all (cached_ok (k_ss k)) a -> kernel_ok (set_k_mem (set_k_piga (set_k_avc k a) g) m).
Proof. intros [_ _ H H'] H1 H2. by split. Qed.

Lemma has_perm_history g0 log k ssid tsid tclass requested ad fl rc ck k' :
  history g0 log k -> has_perm k ssid tsid tclass requested ad fl = Some (rc, ck, k') -> settled_check ck ->
  history g0 (log ++ [ck]) k' /\ ck_rc ck = rc.
Proof.
  intros Hh H Hs. unfold has_perm in H. apply bind_Some in H as ([[[rc1 avd] a0] m0] & H1 & H).
  apply bind_Some in H as ([[[[rc2 rec] a] g] m] & H & E). injection E as <- <- <-. split; [|done].
  pose proof (hi_kernel _ _ _ Hh) as Hk. unfold settled_check in Hs. cbn in Hs.
  destruct (noaudit_cached _ _ _ _ _ _ _ _ _ _ _ _ (ko_avc _ Hk) (ko_cached _ Hk) Hs H1) as (Hw & Hc & Hall).
  unfold Piga.avc_has_perm_flags in H. rewrite (bind_step _ _ _ H1) in H. apply bind_Some in H as ([[rc3 g1] m1] & H2 & H).
  destruct (avc_audit _ _ _ _ _ _ _ _) as [rc4 rec4]. injection H as <- <- <- <- <-.
  set (ck := mk_check _ _ _ _ _ _ _ _ _). pose proof (hi_piga _ _ _ Hh) as Hp.
  assert (check_ok g0 log ck /\ if piga_status g0 then monitors g0 (piga_events (log ++ [ck])) g1 else piga_status g1 = false) as [Hok Hp'];
    [|apply (history_snoc g0 log k); [done|by apply checked_kernel|done|done]].
  rewrite piga_events_snoc. unfold piga_asked. cbn [ck ck_monitored ck_selinux].
  pose proof (noaudit_rc _ _ _ _ _ _ _ _ _ _ _ _ H1) as [-> | ->].
  - change (negb (0 =? - EACCES)) with true in H2. cbv iota in H2. rewrite decide_True by done. destruct (piga_status g0) eqn:E0.
    + destruct (monitors_step_result _ _ _ _ (event_of ck) _ _ _ _ Hp H2) as [Hm Ha]. split; [|done].
      intros Hrc. split; [by apply Hall|]. intros _ _ Hcons. unfold answers in Ha. rewrite decide_True in Ha by done.
      destruct Ha as [[-> _]|[_ Hn]]; [|done]. exfalso. cbn in Hrc. by destruct (nz rc4) eqn:E4; [subst rc4|].
    + unfold piga_has_perm in H2. rewrite Hp in H2. injection H2 as <- <- <-. split; [|done].
      intros _. split; [by apply Hall|]. intros E. by rewrite E in E0.
  - change (negb (- EACCES =? - EACCES)) with false in H2. injection H2 as <- <- <-. rewrite decide_False by (by intros [_ ?]).
    split; [|done]. intros Hrc. exfalso. cbn in Hrc. by destruct (nz rc4) eqn:E4; [subst rc4|].
Qed.

Lemma noaudit_history g0 log k ssid tsid tclass requested fl rc avd ck k' :
  history g0 log k -> has_perm_noaudit k ssid tsid tclass requested fl = Some (rc, avd, ck, k') -> settled_check ck ->
  history g0 (log ++ [ck]) k' /\ ck_rc ck = rc.
Proof.
  intros Hh H Hs. unfold has_perm_noaudit in H. apply bind_Some in H as ([[[rc1 avd1] a0] m0] & H & E). injection E as <- <- <- <-.
  split; [|done]. pose proof (hi_kernel _ _ _ Hh) as Hk. unfold settled_check in Hs. cbn in Hs.
  destruct (noaudit_cached _ _ _ _ _ _ _ _ _ _ _ _ (ko_avc _ Hk) (ko_cached _ Hk) Hs H) as (Hw & Hc & Hall).
  apply (history_snoc g0 log k); [done|by apply (checked_kernel k _ (k_piga k))| |].
  - rewrite piga_events_snoc, decide_False by (by intros [? _]). exact (hi_piga _ _ _ Hh).
  - intros Hrc. split; [by apply Hall|done].
Qed.

(** A step that gives out SIDs and does not touch cache and PIGA. *)
Lemma history_extends g0 log k k' :
  history g0 log k -> extends (k_ss k) (k_ss k') -> k_avc k' = k_avc k -> k_piga k' = k_piga k -> history g0 log k'.
Proof.
  intros [[Hw Hc Hs Hi] Hp Hl] Hx Ea Eg. split; [|by rewrite Eg|done]. split.
  - by rewrite Ea.
  - rewrite Ea. by eapply cached_extends.
  - by eapply extends_ok.
  - by rewrite (ex_init _ _ Hx).
Qed.

Create HintDb extends.
#[export] Hint Resolve compute_sid_extends context_to_sid_extends mls_copy_extends netlbl_sid_extends genfs_extends fs_use_extends
  port_table_extends node_table_extends netif_table_extends : extends.

Lemma answer_history g0 log v k c an cks k' :
  history g0 log k -> answer_call v k c = Some (an, cks, k') -> Forall settled_check cks -> history g0 (log ++ cks) k'.
Proof.
  intros Hh H Hs. destruct c; cbn [answer_call] in H;
    repeat match goal with
      | E : (_ ≫= _) = Some _ |- _ => apply bind_Some in E; let x := fresh "x" in destruct E as (x & ? & E);
          repeat match type of x with (_ * _)%type => let y := fresh "y" in destruct x as [x y] end
      | E : (let '(_, _) := ?p in _) = Some _ |- _ => destruct p
      end;
    injection H as <- <- <-;
    try (rewrite app_nil_r; apply (history_extends g0 log k); [done| |done|done]; cbn; first [done | by eauto with extends]).
  - apply Forall_cons in Hs as [Hs _]. by eapply has_perm_history.
  - apply Forall_cons in Hs as [Hs _]. by eapply noaudit_history.
Qed.

(** A hook that runs in the system adds its checks to the history. *)
Lemma run_history {A} g0 log v (p : hook A) k a tr cks k' :
  history g0 log k -> run v p k = Some (a, tr, cks, k') -> Forall settled_check cks -> history g0 (log ++ cks) k'.
Proof.
  revert log k tr cks. induction p as [b| |c f IH]; cbn [run]; intros log k tr cks Hh H Hs; [|done|].
  { injection H as <- <- <- <-. by rewrite app_nil_r. }
  apply bind_Some in H as ([[an cks1] k1] & Ha & H). apply bind_Some in H as ([[[a2 tr2] cks2] k2] & H & E).
  injection E as <- <- <- <-. apply Forall_app in Hs as [H1 H2]. rewrite (assoc (++)).
  eapply IH; [|exact H|exact H2]. by eapply answer_history.
Qed.
