(* ===== verification/Scanf.v ===== *)
(** [sscanf] of the kernel (lib/vsprintf.c, with the character classes of
    lib/ctype.c): the function that reads the numbers and contexts user space
    writes to the files of selinuxfs, and what it makes of printed numbers. *)

From S2P Require Import Prelude Mls.
From stdpp Require Import strings.
From Stdlib Require Import String Ascii.
Open Scope Z_scope.

(** ** Characters *)

Definition code (c : ascii) : Z := Z.of_N (N_of_ascii c).
Definition in_range (lo hi : Z) (c : ascii) : bool := (lo <=? code c) && (code c <=? hi).

(** The classes [_S], [_D] and [_D|_X] of [_ctype]. *)
Definition isspace (c : ascii) : bool := in_range 9 13 c || (code c =? 32) || (code c =? 160).
Definition isdigit (c : ascii) : bool := in_range 48 57 c.
Definition isxdigit (c : ascii) : bool := isdigit c || in_range 65 70 c || in_range 97 102 c.
Definition TOLOWER (c : ascii) : Z := code c .| 0x20.

(** [*str == c], where the string is not at its end. *)
Definition at_char (c : Z) (s : string) : bool := match s with String a _ => code a =? c | EmptyString => false end.

Fixpoint skip_while (f : ascii -> bool) (s : string) : string :=
  match s with
  | String c s' => if f c then skip_while f s' else s
  | EmptyString => EmptyString
  end.
Definition skip_spaces (s : string) : string := skip_while isspace s.

(** At most [n] characters, up to the next white space, and the rest. *)
Fixpoint take_word (n : nat) (s : string) : string * string :=
  match n, s with
  | S n', String c s' => if isspace c then (EmptyString, s) else let '(w, r) := take_word n' s' in (String c w, r)
  | _, _ => (EmptyString, s)
  end.

(** ** Numbers *)

Definition s8 (x : Z) : Z := (x + 2 ^ 7) mod 2 ^ 8 - 2 ^ 7.
Definition s16 (x : Z) : Z := (x + 2 ^ 15) mod 2 ^ 16 - 2 ^ 15.
Definition s64 (x : Z) : Z := (x + 2 ^ 63) mod 2 ^ 64 - 2 ^ 63.

Fixpoint skip_atoi (s : string) (i : Z) : Z * string :=
  match s with
  | String c s' => if isdigit c then skip_atoi s' (s32 (i * 10 + (code c - 48))) else (i, s)
  | EmptyString => (i, EmptyString)
  end.

Definition simple_guess_base (cp : string) : Z :=
  match cp with
  | String c0 (String c1 (String c2 _)) => if code c0 =? 48 then if (TOLOWER c1 =? 120) && isxdigit c2 then 16 else 8 else 10
  | String c0 _ => if code c0 =? 48 then 8 else 10
  | EmptyString => 10
  end.

Definition digit_value (c : ascii) : Z := if isdigit c then code c - 48 else TOLOWER c - 97 + 10.

Fixpoint strtoull_loop (base : Z) (cp : string) (result : Z) : Z * string :=
  match cp with
  | String c cp' =>
      if isxdigit c then
        if base <=? digit_value c then (result, cp) else strtoull_loop base cp' (u64 (result * base + digit_value c))
      else (result, cp)
  | EmptyString => (result, EmptyString)
  end.

(** The number and [*endp]. *)
Definition simple_strtoull (cp : string) (base : Z) : Z * string :=
  let base := if base =? 0 then simple_guess_base cp else base in
  let cp := match cp with
            | String c0 (String c1 r) => if (base =? 16) && (code c0 =? 48) && (TOLOWER c1 =? 120) then r else cp
            | _ => cp
            end in
  strtoull_loop base cp 0.

(** [simple_strtoul] is [simple_strtoull], and [simple_strtoll] is this. *)
Definition simple_strtol (cp : string) (base : Z) : Z * string :=
  match cp with
  | String c r => if code c =? 45 then let '(v, e) := simple_strtoull r base in (s64 (- v), e)
                  else let '(v, e) := simple_strtoull cp base in (s64 v, e)
  | EmptyString => (0, EmptyString)
  end.

(** ** vsscanf *)

(** What is stored through the arguments, in their order. *)
Inductive scanned := ScStr (s : string) | ScInt (n : Z).

(** The value the last [switch] stores, by the qualifier and the sign. *)
Definition store_width (qualifier : Z) (is_sign : bool) (v : Z) : Z :=
  if qualifier =? 72 then if is_sign then s8 v else u8 v                          (* 'H' *)
  else if qualifier =? 104 then if is_sign then s16 v else u16 v                  (* 'h' *)
  else if (qualifier =? 108) || (qualifier =? 76) then v                          (* 'l', 'L' *)
  else if (qualifier =? 90) || (qualifier =? 122) then u64 v                      (* 'Z', 'z' *)
  else if is_sign then s32 v else u32 v.

(** The qualifier of a conversion; 255 is the [u8] of -1. *)
Definition get_qualifier (fmt : string) : Z * string :=
  match fmt with
  | String c fmt' =>
      if (code c =? 104) || (TOLOWER c =? 108) || (TOLOWER c =? 122) then
        if at_char (code c) fmt' then
          if code c =? 104 then (72, match fmt' with String _ r => r | _ => fmt' end)
          else if code c =? 108 then (76, match fmt' with String _ r => r | _ => fmt' end)
          else (code c, fmt')
        else (code c, fmt')
      else (255, fmt)
  | EmptyString => (255, fmt)
  end.

(** Base and sign of an integer conversion. *)
Definition int_conversion (c : Z) : option (Z * bool) :=
  if c =? 111 then Some (8, false)                         (* 'o' *)
  else if (c =? 120) || (c =? 88) then Some (16, false)    (* 'x', 'X' *)
  else if c =? 105 then Some (0, true)                     (* 'i' *)
  else if c =? 100 then Some (10, true)                    (* 'd' *)
  else if c =? 117 then Some (10, false)                   (* 'u' *)
  else None.

(** Whether the digit in front fits the base. *)
Definition digit_fits (base : Z) (digit : ascii) : bool :=
  if base =? 16 then isxdigit digit
  else if base =? 8 then isdigit digit && (code digit <=? 55)
  else isdigit digit.

(** An integer conversion; [None]: there is no number. *)
Definition scan_int (base : Z) (is_sign : bool) (qualifier : Z) (str : string) : option (Z * string) :=
  let digit := match str with
               | String c r => if is_sign && (code c =? 45) then match r with String d _ => Some d | _ => None end else Some c
               | EmptyString => None
               end in
  match digit with
  | None => None
  | Some d =>
      if negb (digit_fits base d) then None
      else
        let signed := is_sign && negb ((qualifier =? 90) || (qualifier =? 122)) in
        let '(v, next) := if signed then simple_strtol str base else simple_strtoull str base in
        Some (store_width qualifier is_sign v, next)
  end.

(** After the loop: a [%n] at the end of the format is filled in. *)
Definition scan_end (pos : Z) (fmt : string) (num : Z) (out : list scanned) : Z * list scanned :=
  if at_char 37 fmt && at_char 110 (match fmt with String _ r => r | _ => fmt end) then (num, (out ++ [ScInt pos])%list) else (num, out).


(** The rest of an iteration behind [%], the field width and the qualifier:
    the end of the scan, or the new position, format, number and values. *)
Definition scan_conversion (str : string) (pos : Z) (c : ascii) (fmt : string) (field_width qualifier num : Z) (out : list scanned)
    : (Z * list scanned) + (string * Z * string * Z * list scanned) :=
  let after (s : string) := pos + (strlen str - strlen s) in
  if code c =? 99 then                                                    (* 'c' *)
    let width := if field_width =? -1 then 1 else field_width in
    let n := Z.to_nat (Z.max 1 width) in
    let text := substring 0 n str in
    let rest := substring (String.length text) (String.length str) str in
    inr (rest, after rest, fmt, num + 1, (out ++ [ScStr text])%list)
  else if code c =? 115 then                                              (* 's' *)
    let width := if field_width =? -1 then 32767 else field_width in
    let '(word, rest) := take_word (Z.to_nat (u16 width)) (skip_spaces str) in
    inr (rest, after rest, fmt, num + 1, (out ++ [ScStr word])%list)
  else if code c =? 110 then inr (str, pos, fmt, num, (out ++ [ScInt pos])%list)   (* 'n' *)
  else if code c =? 37 then                                               (* '%' *)
    match str with
    | String a r => if code a =? 37 then inr (r, pos + 1, fmt, num, out) else inl (num, out)
    | EmptyString => inl (num, out)
    end
  else
    match int_conversion (code c) with
    | None => inl (num, out)
    | Some (base, is_sign) =>
        let str' := skip_spaces str in
        match scan_int base is_sign qualifier str' with
        | None => inl (scan_end (after str') fmt num out)
        | Some (v, next) => inr (next, after next, fmt, num + 1, (out ++ [ScInt v])%list)
        end
    end.

(** The [while] loop; [pos] is [str - buf].  [None]: out of fuel. *)
Fixpoint vsscanf_loop (fuel : nat) (str : string) (pos : Z) (fmt : string) (num : Z) (out : list scanned)
    : option (Z * list scanned) :=
  match fuel with
  | O => None
  | S fuel' =>
      match fmt, str with
      | EmptyString, _ | _, EmptyString => Some (scan_end pos fmt num out)
      | String c0 fmt0, _ =>
          let '(fmt1, str1) := if isspace c0 then (skip_spaces fmt0, skip_spaces str) else (fmt, str) in
          let pos1 := pos + (strlen str - strlen str1) in
          match fmt1 with
          | EmptyString => Some (scan_end pos1 fmt1 num out)
          | String c fmt2 =>
              if negb (code c =? 37) then
                match str1 with
                | String a str2 =>
                    if code c =? code a then vsscanf_loop fuel' str2 (pos1 + 1) fmt2 num out
                    else Some (scan_end (pos1 + 1) fmt2 num out)
                | EmptyString => Some (scan_end (pos1 + 1) fmt2 num out)
                end
              else if at_char 42 fmt2 then                                (* '*' *)
                let fmt3 := skip_while (fun c => negb (isspace c) && negb (code c =? 37)) fmt2 in
                let str2 := skip_while (fun c => negb (isspace c)) str1 in
                vsscanf_loop fuel' str2 (pos1 + (strlen str1 - strlen str2)) fmt3 num out
              else
                let '(field_width, fmt3) := match fmt2 with
                                            | String d _ => if isdigit d then let '(w, r) := skip_atoi fmt2 0 in (s16 w, r) else (-1, fmt2)
                                            | EmptyString => (-1, fmt2)
                                            end in
                let '(qualifier, fmt4) := get_qualifier fmt3 in
                match fmt4, str1 with
                | EmptyString, _ | _, EmptyString => Some (scan_end pos1 fmt4 num out)
                | String c4 fmt5, _ =>
                    match scan_conversion str1 pos1 c4 fmt5 field_width qualifier num out with
                    | inl r => Some r
                    | inr (str', pos', fmt', num', out') => vsscanf_loop fuel' str' pos' fmt' num' out'
                    end
                end
          end
      end
  end.

(** Every iteration that goes on has consumed a character of the format. *)
Definition vsscanf (buf fmt : string) : option (Z * list scanned) := vsscanf_loop (S (String.length fmt)) buf 0 fmt 0 [].

(** ** The loop ends *)

Lemma skip_while_length f s : (String.length (skip_while f s) <= String.length s)%nat.
Proof. induction s as [|c s IH]; cbn; [lia|]. destruct (f c); cbn; lia. Qed.

Lemma skip_atoi_length s i : (String.length (skip_atoi s i).2 <= String.length s)%nat.
Proof. revert i. induction s as [|c s IH]; intros i; cbn; [lia|]. destruct (isdigit c); cbn; [|lia]. specialize (IH (s32 (i * 10 + (code c - 48)))). lia. Qed.

Lemma get_qualifier_length fmt : (String.length (get_qualifier fmt).2 <= String.length fmt)%nat.
Proof. unfold get_qualifier. destruct fmt as [|c [|d r]]; cbn; repeat case_match; cbn; lia. Qed.

Lemma scan_conversion_fmt str pos c fmt w q num out str' pos' fmt' num' out' :
  scan_conversion str pos c fmt w q num out = inr (str', pos', fmt', num', out') -> fmt' = fmt.
Proof. unfold scan_conversion. intros H. repeat case_match; by simplify_eq. Qed.

Lemma vsscanf_loop_total fuel str pos fmt num out :
  (String.length fmt < fuel)%nat -> is_Some (vsscanf_loop fuel str pos fmt num out).
Proof.
  revert str pos fmt num out. induction fuel as [|fuel IH]; intros str pos fmt num out Hl; [lia|]. cbn [vsscanf_loop].
  destruct fmt as [|c0 fmt0]; [by eexists|]. destruct str as [|a0 str0]; [by eexists|]. cbn in Hl.
  set (str := String a0 str0). clearbody str.
  destruct (if isspace c0 then _ else _) as [fmt1 str1] eqn:E1.
  assert (String.length fmt1 <= S (String.length fmt0))%nat as H1.
  { destruct (isspace c0); injection E1 as <- _; cbn; [|lia]. pose proof (skip_while_length isspace fmt0). unfold skip_spaces. lia. }
  clear E1. destruct fmt1 as [|c fmt2]; [by eexists|]. cbn in H1. destruct (negb _).
  { destruct str1 as [|a str2]; [by eexists|]. destruct (_ =? _); [apply IH; lia|by eexists]. }
  destruct (at_char 42 fmt2).
  { apply IH. pose proof (skip_while_length (fun c => negb (isspace c) && negb (code c =? 37)) fmt2). lia. }
  destruct (match fmt2 with EmptyString => _ | _ => _ end) as [w fmt3] eqn:E3.
  assert (String.length fmt3 <= String.length fmt2)%nat as H3.
  { destruct fmt2 as [|d r]; [injection E3 as _ <-; lia|]. destruct (isdigit d); [|injection E3 as _ <-; lia].
    pose proof (skip_atoi_length (String d r) 0) as Ha. destruct (skip_atoi _ 0) as [w0 r0]. injection E3 as _ <-. exact Ha. }
  pose proof (get_qualifier_length fmt3) as H4. destruct (get_qualifier fmt3) as [q fmt4]. cbn in H4.
  destruct fmt4 as [|c4 fmt5]; [by eexists|]. cbn in H4. destruct str1 as [|a1 str2]; [by eexists|].
  destruct (scan_conversion _ _ _ _ _ _ _ _) as [r|[[[[s' p'] f'] n'] o']] eqn:E5; [by eexists|].
  apply scan_conversion_fmt in E5 as ->. apply IH. lia.
Qed.

(** [sscanf] ends for every text and every format. *)
Theorem vsscanf_total buf fmt : is_Some (vsscanf buf fmt).
Proof. apply vsscanf_loop_total. lia. Qed.

(** ** Printed numbers *)

Definition digit_char (d : Z) : ascii := ascii_of_N (Z.to_N (48 + d)).
Fixpoint dec_digits (fuel : nat) (n : Z) (acc : string) : string :=
  match fuel with
  | O => acc
  | S fuel' =>
      let acc := String (digit_char (n mod 10)) acc in
      if n <? 10 then acc else dec_digits fuel' (n / 10) acc
  end.
(** [%u] and [%d]. *)
Definition dec (n : Z) : string := dec_digits 20 n EmptyString.
Definition dec_int (n : Z) : string := if n <? 0 then String "-" (dec (- n)) else dec n.

Lemma digit_char_code d : 0 <= d < 10 -> code (digit_char d) = 48 + d.
Proof. intros H. unfold code, digit_char. rewrite N_ascii_embedding by lia. lia. Qed.

Lemma digit_char_class d : 0 <= d < 10 ->
  isdigit (digit_char d) = true /\ isxdigit (digit_char d) = true /\ isspace (digit_char d) = false /\ digit_value (digit_char d) = d.
Proof.
  intros H. pose proof (digit_char_code d H) as E. unfold isxdigit, digit_value, isspace, isdigit, in_range. rewrite E.
  rewrite (proj2 (Z.leb_le 48 (48 + d))), (proj2 (Z.leb_le (48 + d) 57)) by lia. cbn [andb orb].
  split; [done|]. split; [done|]. split; [|lia]. rewrite !orb_false_iff, andb_false_iff, !Z.eqb_neq, !Z.leb_gt. lia.
Qed.

(** A string that does not go on with a digit. *)
Definition no_digit (s : string) : Prop := match s with String c _ => isxdigit c = false | EmptyString => True end.

Lemma strtoull_dec fuel n acc :
  0 <= n < 2 ^ 64 -> n < 10 ^ Z.of_nat fuel -> (0 < fuel)%nat ->
  strtoull_loop 10 (dec_digits fuel n acc) 0 = strtoull_loop 10 acc n.
Proof.
  revert n acc. induction fuel as [|fuel IH]; intros n acc Hn Hf Hp; [lia|]. cbn [dec_digits].
  pose proof (Z.mod_pos_bound n 10 ltac:(lia)) as Hm. destruct (digit_char_class (n mod 10) Hm) as (_ & H2 & _ & H4).
  assert (forall r, u64 (r * 10 + n mod 10) = r * 10 + n mod 10 ->
    strtoull_loop 10 (String (digit_char (n mod 10)) acc) r = strtoull_loop 10 acc (r * 10 + n mod 10)) as Hs.
  { intros r Hr. cbn [strtoull_loop]. rewrite H2, H4, Hr, (proj2 (Z.leb_gt 10 (n mod 10))) by lia. done. }
  destruct (Z.ltb_spec n 10).
  - rewrite Hs by (rewrite u64_small; lia). f_equal. rewrite Z.mod_small by lia. lia.
  - assert (n = n / 10 * 10 + n mod 10) as En by (pose proof (Z.div_mod n 10 ltac:(lia)); lia).
    pose proof (Z.div_lt n 10 ltac:(lia) ltac:(lia)). pose proof (Z.div_pos n 10 ltac:(lia) ltac:(lia)).
    rewrite Nat2Z.inj_succ, Z.pow_succ_r in Hf by lia.
    assert (n / 10 < 10 ^ Z.of_nat fuel) by (apply Z.div_lt_upper_bound; lia).
    destruct fuel as [|fuel]; [cbn in *; lia|]. rewrite IH by lia. rewrite Hs by (rewrite u64_small; lia). by rewrite <- En.
Qed.

Lemma dec_digits_app fuel n acc rest : (dec_digits fuel n acc ++ rest)%string = dec_digits fuel n (acc ++ rest).
Proof. revert n acc. induction fuel as [|fuel IH]; intros n acc; [done|]. cbn [dec_digits]. destruct (_ <? _); [done|]. by rewrite IH. Qed.

Lemma strtoull_rest rest n : no_digit rest -> strtoull_loop 10 rest n = (n, rest).
Proof. destruct rest as [|c r]; [done|]. cbn. by intros ->. Qed.

(** The first character of a printed number. *)
Lemma dec_digits_head fuel n acc : 0 <= n -> (0 < fuel)%nat ->
  exists d r, dec_digits fuel n acc = String (digit_char d) r /\ 0 <= d < 10.
Proof.
  revert n acc. induction fuel as [|fuel IH]; intros n acc Hn Hf; [lia|]. cbn [dec_digits].
  pose proof (Z.mod_pos_bound n 10 ltac:(lia)). destruct (n <? 10); [by eexists _, _|].
  destruct fuel as [|fuel]; [by eexists _, _|]. apply IH; [apply Z.div_pos; lia|lia].
Qed.

Lemma strtoull_printed n rest : 0 <= n < 2 ^ 64 -> no_digit rest -> simple_strtoull (dec n ++ rest) 10 = (n, rest).
Proof.
  intros Hn Hr. assert (strtoull_loop 10 (dec n ++ rest) 0 = (n, rest)) as E.
  { unfold dec. rewrite dec_digits_app, strtoull_dec by (cbn; lia). by apply strtoull_rest. }
  rewrite <- E. unfold simple_strtoull. by destruct (dec n ++ rest)%string as [|c0 [|c1 r]].
Qed.

(** [sscanf(buf, "%d", &n)] reads a printed number, whatever follows it. *)
Lemma scan_int_printed n rest : - 2 ^ 31 <= n < 2 ^ 31 -> no_digit rest ->
  scan_int 10 true 255 (dec_int n ++ rest) = Some (n, rest) /\
  exists c r, (dec_int n ++ rest)%string = String c r /\ isspace c = false.
Proof.
  intros Hn Hr. assert (s32 (s64 n) = n) as Ew.
  { unfold s32, s64. rewrite (Z.mod_small (n + 2 ^ 63)) by lia. rewrite Z.add_simpl_r, Z.mod_small by lia. lia. }
  unfold dec_int. destruct (Z.ltb_spec n 0).
  - pose proof (dec_digits_head 20 (- n) rest ltac:(lia) ltac:(lia)) as (d & r & Ed & Hd).
    pose proof (strtoull_printed (- n) rest ltac:(lia) Hr) as Es.
    assert ((dec (- n) ++ rest)%string = String (digit_char d) r) as Ed' by (unfold dec; rewrite dec_digits_app; exact Ed).
    change (String "-" (dec (- n)) ++ rest)%string with (String "-" (dec (- n) ++ rest)).
    split; [|by eexists _, _]. rewrite Ed' in Es |- *. unfold scan_int. destruct (digit_char_class d Hd) as (Hdg & _).
    change (true && (code "-" =? 45)) with true. cbv iota. unfold digit_fits. change (10 =? 16) with false. change (10 =? 8) with false. cbv iota.
    rewrite Hdg. cbn [negb andb orb]. unfold simple_strtol. change (code "-" =? 45) with true. cbv iota. rewrite Es.
    rewrite Z.opp_involutive. unfold store_width. cbn. by rewrite Ew.
  - pose proof (dec_digits_head 20 n rest ltac:(lia) ltac:(lia)) as (d & r & Ed & Hd).
    pose proof (strtoull_printed n rest ltac:(lia) Hr) as Es. destruct (digit_char_class d Hd) as (Hdg & _ & Hsp & _).
    assert ((dec n ++ rest)%string = String (digit_char d) r) as Ed' by (unfold dec; rewrite dec_digits_app; exact Ed).
    rewrite Ed' in Es |- *. split; [|by eexists _, _]. unfold scan_int.
    assert ((code (digit_char d) =? 45) = false) as Em by (rewrite digit_char_code by done; apply Z.eqb_neq; lia).
    rewrite Em. cbn [andb]. unfold digit_fits. change (10 =? 16) with false. change (10 =? 8) with false. cbv iota.
    rewrite Hdg. cbn [negb andb orb]. unfold simple_strtol. rewrite Em, Es. unfold store_width. cbn. by rewrite Ew.
Qed.

(** One iteration for a format that is a single conversion. *)
Lemma vsscanf_single fuel c r pos d num out :
  isdigit d = false -> at_char 42 (String d EmptyString) = false -> get_qualifier (String d EmptyString) = (255, String d EmptyString) ->
  vsscanf_loop (S fuel) (String c r) pos (String "%" (String d EmptyString)) num out =
  match scan_conversion (String c r) (pos + (strlen (String c r) - strlen (String c r))) d EmptyString (-1) 255 num out with
  | inl r => Some r
  | inr (str', pos', fmt', num', out') => vsscanf_loop fuel str' pos' fmt' num' out'
  end.
Proof. intros H1 H2 H3. cbn [vsscanf_loop]. change (isspace "%") with false. cbv iota. change (negb (code "%" =? 37)) with false. cbv iota. by rewrite H2, H1, H3. Qed.

Theorem sscanf_printed n rest : - 2 ^ 31 <= n < 2 ^ 31 -> no_digit rest -> vsscanf (dec_int n ++ rest) "%d" = Some (1, [ScInt n]).
Proof.
  intros Hn Hr. destruct (scan_int_printed n rest Hn Hr) as (Es & c & r & E & Hc). rewrite E in Es |- *.
  unfold vsscanf. change (S (String.length "%d")) with 3%nat. rewrite vsscanf_single by done.
  unfold scan_conversion. change (code "d") with 100. cbn [Z.eqb Pos.eqb]. change (int_conversion 100) with (Some (10, true)). cbv iota zeta.
  replace (skip_spaces (String c r)) with (String c r) by (unfold skip_spaces; cbn [skip_while]; by rewrite Hc).
  rewrite Es. by destruct rest.
Qed.
