(* ===== verification/Notify.v ===== *)
(** What user space is told: the page of ss/status.c, which programs map and
    read without system calls, and the messages of netlink.c.  A program that
    keeps to the protocol of the page never sees a half-made update. *)

From S2P Require Import Prelude Services ServicesObj Avc Piga Kernel.
Open Scope Z_scope.

(** ** The status page (ss/status.c) *)

Definition SELINUX_KERNEL_STATUS_VERSION : Z := 1.

(** A store to the page. *)
Inductive status_store :=
| IncSequence
| PutEnforcing (v : Z)
| PutPolicyload (v : Z)
| PutDenyUnknown (v : Z).

Definition apply_store (t : kernel_status) (w : status_store) : kernel_status :=
  match w with
  | IncSequence => mk_kernel_status (ks_version t) (u32 (ks_sequence t + 1)) (ks_enforcing t) (ks_policyload t) (ks_deny_unknown t)
  | PutEnforcing v => mk_kernel_status (ks_version t) (ks_sequence t) v (ks_policyload t) (ks_deny_unknown t)
  | PutPolicyload v => mk_kernel_status (ks_version t) (ks_sequence t) (ks_enforcing t) v (ks_deny_unknown t)
  | PutDenyUnknown v => mk_kernel_status (ks_version t) (ks_sequence t) (ks_enforcing t) (ks_policyload t) v
  end.

(** The stores of [selinux_status_update_setenforce] and
    [selinux_status_update_policyload], in their order. *)
Definition setenforce_stores (enforcing : Z) : list status_store := [IncSequence; PutEnforcing (u32 enforcing); IncSequence].
Definition policyload_stores (seqno : Z) (deny_unknown : bool) : list status_store :=
  [IncSequence; PutPolicyload (u32 seqno); PutDenyUnknown (b2i deny_unknown); IncSequence].

Definition selinux_status_update_setenforce (k : kernel) (enforcing : Z) : kernel :=
  set_k_status k ((fun t => foldl apply_store t (setenforce_stores enforcing)) <$> k_status k).
Definition selinux_status_update_policyload (k : kernel) (seqno : Z) : kernel :=
  set_k_status k ((fun t => foldl apply_store t (policyload_stores seqno (negb (security_get_allow_unknown (k_ss k))))) <$> k_status k).

(** The page, or nothing if there is no memory for it. *)
Definition selinux_kernel_status_page (k : kernel) : option kernel_status * kernel :=
  match k_status k with
  | Some t => (Some t, k)
  | None =>
      let '(ok, m) := kalloc (k_mem k) in
      let k := set_k_mem k m in
      if negb ok then (None, k)
      else
        let t := mk_kernel_status SELINUX_KERNEL_STATUS_VERSION 0 (u32 (fs_enforcing (k_fs k))) 0
                   (b2i (negb (security_get_allow_unknown (k_ss k)))) in
        (Some t, set_k_status k (Some t))
  end.

(** ** Messages (netlink.c) *)

Definition SELNL_MSG_SETENFORCE : Z := 0x10.
Definition SELNL_MSG_POLICYLOAD : Z := 0x11.

Definition bytes_of (n : nat) (v : Z) : list Z := (fun i => u8 (v .>> (8 * Z.of_nat i))) <$> seq 0 n.

(** The size of the payload, or [BUG()]. *)
Definition selnl_msglen (msgtype : Z) : option Z :=
  if msgtype =? SELNL_MSG_SETENFORCE then Some 4
  else if msgtype =? SELNL_MSG_POLICYLOAD then Some 4
  else None.

(** Both payloads are one word. *)
Definition selnl_add_payload (msgtype data : Z) : option (list Z) :=
  if msgtype =? SELNL_MSG_SETENFORCE then Some (bytes_of 4 data)
  else if msgtype =? SELNL_MSG_POLICYLOAD then Some (bytes_of 4 data)
  else None.

(** [struct nlmsghdr] with sequence number, sender and flags 0, then the
    payload; the buffer has room for both. *)
Definition selnl_notify (k : kernel) (msgtype data : Z) : option kernel :=
  len ← selnl_msglen msgtype;
  let '(ok, m) := kalloc (k_mem k) in
  let k := set_k_mem k m in
  if negb ok then Some k
  else
    payload ← selnl_add_payload msgtype data;
    Some (set_k_sent k ((bytes_of 4 (16 + len) ++ bytes_of 2 msgtype ++ bytes_of 2 0 ++ bytes_of 4 0 ++ bytes_of 4 0 ++ payload) :: k_sent k)).

Definition selnl_notify_setenforce (k : kernel) (val : Z) : option kernel := selnl_notify k SELNL_MSG_SETENFORCE val.
Definition selnl_notify_policyload (k : kernel) (seqno : Z) : option kernel := selnl_notify k SELNL_MSG_POLICYLOAD seqno.

(** ** Readers of the page *)

Inductive status_update := UpdateEnforce (enforcing : Z) | UpdatePolicy (seqno : Z) (deny_unknown : bool).
Definition stores_of (u : status_update) : list status_store :=
  match u with UpdateEnforce e => setenforce_stores e | UpdatePolicy s d => policyload_stores s d end.

(** The page after the first [n] stores of a series of updates. *)
Definition page_after (t : kernel_status) (us : list status_update) (n : nat) : kernel_status :=
  foldl apply_store t (take n (us ≫= stores_of)).

(** The page between updates. *)
Definition page_at (t : kernel_status) (us : list status_update) : kernel_status := foldl apply_store t (us ≫= stores_of).

Fixpoint incs (l : list status_store) : Z :=
  match l with
  | [] => 0
  | IncSequence :: l' => 1 + incs l'
  | _ :: l' => incs l'
  end.

Lemma incs_bounds l : 0 <= incs l <= Z.of_nat (length l).
Proof. induction l as [|[] l IH]; cbn [incs length]; lia. Qed.

Lemma stores_sequence l t : in_u 32 (ks_sequence t) -> ks_sequence (foldl apply_store t l) = u32 (ks_sequence t + incs l).
Proof.
  revert t. induction l as [|w l IH]; intros t Ht; cbn [foldl incs].
  { rewrite Z.add_0_r, u32_small; [done|]. unfold in_u in Ht. lia. }
  destruct w; rewrite IH; try done; cbn [apply_store ks_sequence].
  - unfold u32. rewrite Zplus_mod_idemp_l. f_equal. lia.
  - apply u32_range.
Qed.

Lemma even_u32 x : Z.even (u32 x) = Z.even x.
Proof.
  unfold u32. rewrite (Z.div_mod x (2 ^ 32)) at 2 by lia. rewrite Z.even_add, Z.even_mul. by destruct (Z.even (x mod 2 ^ 32)).
Qed.

(** An even sequence number is seen between updates only. *)
Lemma even_between us t n :
  in_u 32 (ks_sequence t) -> Z.even (ks_sequence t) = true -> Z.even (ks_sequence (page_after t us n)) = true ->
  exists pre rest, us = pre ++ rest /\ take n (us ≫= stores_of) = pre ≫= stores_of /\ drop n (us ≫= stores_of) = rest ≫= stores_of.
Proof.
  unfold page_after. revert t n. induction us as [|u us IH]; intros t n Hr He Hn.
  { exists [], []. by destruct n. }
  change ((u :: us) ≫= stores_of) with (stores_of u ++ (us ≫= stores_of)) in *. destruct (decide (length (stores_of u) <= n)%nat) as [Hl|Hl].
  - rewrite take_app_ge, foldl_app in Hn by done.
    assert (in_u 32 (ks_sequence (foldl apply_store t (stores_of u))) /\ Z.even (ks_sequence (foldl apply_store t (stores_of u))) = true) as [Hr' He'].
    { rewrite stores_sequence by done. split; [apply u32_range|]. rewrite even_u32, Z.even_add, He. by destruct u. }
    destruct (IH _ _ Hr' He' Hn) as (pre & rest & -> & E1 & E2). exists (u :: pre), rest. split; [done|].
    rewrite take_app_ge, drop_app_ge, E1, E2 by done. done.
  - destruct n as [|n]; [by exists [], (u :: us)|]. exfalso. rewrite take_app_le, stores_sequence, even_u32, Z.even_add, He in Hn by (done || lia).
    by destruct u, n as [|[|[|n]]]; cbn in Hl, Hn; try lia.
Qed.

(** ** Properties *)

(** C27: the status page.  A program that reads an even sequence number, then the
    other fields, and then the same sequence number again has read the page as
    it was between two updates, whenever the updates of the kernel came in
    between, if it did not sleep through 2^32 stores. *)
Theorem status_page_consistent t us i j :
  in_u 32 (ks_sequence t) -> Z.even (ks_sequence t) = true -> (i <= j)%nat -> Z.of_nat j - Z.of_nat i < 2 ^ 32 ->
  ks_sequence (page_after t us i) = ks_sequence (page_after t us j) -> Z.even (ks_sequence (page_after t us i)) = true ->
  exists pre, pre `prefix_of` us /\ forall n, (i <= n <= j)%nat -> page_after t us n = page_at t pre.
Proof.
  intros Hr He Hij Hlt Heq Hev. destruct (even_between us t i Hr He Hev) as (pre & rest & -> & E1 & E2).
  exists pre. split; [by exists rest|]. set (l := (pre ++ rest) ≫= stores_of) in *.
  assert (forall n, (i <= n)%nat -> take n l = (pre ≫= stores_of) ++ take (n - i) (rest ≫= stores_of)) as Et.
  { intros n Hn. rewrite <- E1, <- E2, take_take_drop. f_equal. lia. }
  assert (take (j - i) (rest ≫= stores_of) = []) as Enil.
  { destruct (take (j - i) (rest ≫= stores_of)) as [|w l'] eqn:Ew; [done|exfalso].
    assert (1 <= incs (w :: l')) as Hinc.
    { destruct rest as [|u rest]; [by destruct (j - i)%nat|]. destruct (j - i)%nat; [done|].
      pose proof (incs_bounds l'). destruct u; cbn in Ew; injection Ew as <- _; cbn [incs]; lia. }
    assert (incs (w :: l') < 2 ^ 32) as Hb.
    { pose proof (incs_bounds (w :: l')) as Hb. rewrite <- Ew, length_take in Hb. rewrite <- Ew. lia. }
    unfold page_after in Heq. fold l in Heq. rewrite (Et i), (Et j), Nat.sub_diag, take_0, app_nil_r, foldl_app, Ew in Heq by lia.
    assert (in_u 32 (ks_sequence (foldl apply_store t (pre ≫= stores_of)))) as Hr' by (rewrite stores_sequence by done; apply u32_range).
    rewrite (stores_sequence (w :: l')) in Heq by done. unfold u32 in Heq.
    set (x := ks_sequence (foldl apply_store t (pre ≫= stores_of))) in *. clearbody x.
    assert ((x + incs (w :: l') - x) mod 2 ^ 32 = 0) as Hm; [rewrite Zminus_mod, <- Heq, (Z.mod_small x), Z.sub_diag by (unfold in_u in Hr'; lia); done|].
    rewrite Z.add_simpl_l, Z.mod_small in Hm by lia. lia. }
  intros n Hn. unfold page_after, page_at. fold l. rewrite Et by lia. f_equal.
  apply (f_equal (take (n - i))) in Enil. rewrite take_take, Nat.min_l, take_nil in Enil by lia. by rewrite Enil, app_nil_r.
Qed.

(** Two updates, and a reader that is overtaken by the first one. *)
Definition sample_page : kernel_status := mk_kernel_status SELINUX_KERNEL_STATUS_VERSION 0 1 0 1.
Definition sample_updates : list status_update := [UpdateEnforce 0; UpdatePolicy 7 false].

Lemma status_page_consistent_witness :
  exists pre, pre `prefix_of` sample_updates /\ forall n, (3 <= n <= 3)%nat -> page_after sample_page sample_updates n = page_at sample_page pre.
Proof.
  apply (status_page_consistent sample_page sample_updates 3 3); [split; cbn; lia|reflexivity|lia|lia|reflexivity|reflexivity].
Defined.

(** A reader that does not compare the numbers may see half of an update. *)
Example torn_read :
  let a := page_after sample_page sample_updates 3 in let b := page_after sample_page sample_updates 5 in
  ks_sequence a = 2 /\ ks_sequence b = 3 /\ ks_policyload b = 7 /\ ks_deny_unknown b = 1 /\ ks_enforcing b = 0.
Proof. vm_compute. done. Qed.
