(* ===== verification/Selinuxfs.v ===== *)
(** The files of selinuxfs (selinuxfs.c) through which user space asks the
    security server, loads policies, sets booleans and switches enforcement:
    what their handlers do in the running system, and the directories for
    booleans, classes and policy capabilities that a load builds again. *)

From S2P Require Import Prelude Hashtab Sidtab Policydb Mls PolicydbOps Sample MlsText Conditional Classmap Services ServicesSid ServicesObj ServicesLoad Avc.
From S2P Require Import NetCache Flask HookBase HookTask Piga ServicesUser Kernel Scanf Notify.
From stdpp Require Import strings.
From Stdlib Require Import String Ascii.
Open Scope Z_scope.
Open Scope list_scope.

Definition SECINITSID_SECURITY : Z := 2.
Definition SECCLASS_SECURITY : Z := Eval vm_compute in SECCLASS "SECURITY"%string.
Definition SECURITY__COMPUTE_AV : Z := Eval vm_compute in PERM "SECURITY"%string "COMPUTE_AV"%string.
Definition SECURITY__COMPUTE_CREATE : Z := Eval vm_compute in PERM "SECURITY"%string "COMPUTE_CREATE"%string.
Definition SECURITY__COMPUTE_MEMBER : Z := Eval vm_compute in PERM "SECURITY"%string "COMPUTE_MEMBER"%string.
Definition SECURITY__CHECK_CONTEXT : Z := Eval vm_compute in PERM "SECURITY"%string "CHECK_CONTEXT"%string.
Definition SECURITY__LOAD_POLICY : Z := Eval vm_compute in PERM "SECURITY"%string "LOAD_POLICY"%string.
Definition SECURITY__COMPUTE_RELABEL : Z := Eval vm_compute in PERM "SECURITY"%string "COMPUTE_RELABEL"%string.
Definition SECURITY__COMPUTE_USER : Z := Eval vm_compute in PERM "SECURITY"%string "COMPUTE_USER"%string.
Definition SECURITY__SETENFORCE : Z := Eval vm_compute in PERM "SECURITY"%string "SETENFORCE"%string.
Definition SECURITY__SETBOOL : Z := Eval vm_compute in PERM "SECURITY"%string "SETBOOL"%string.
Definition SECURITY__SETSECPARAM : Z := Eval vm_compute in PERM "SECURITY"%string "SETSECPARAM"%string.
Definition SECURITY__SETCHECKREQPROT : Z := Eval vm_compute in PERM "SECURITY"%string "SETCHECKREQPROT"%string.
Definition SECURITY__READ_POLICY : Z := Eval vm_compute in PERM "SECURITY"%string "READ_POLICY"%string.

Definition PAGE_SIZE : Z := 4096.
Definition EBUSY : Z := 16.
Definition EFBIG : Z := 27.
Definition ENAMETOOLONG : Z := 36.
(** [PAGE_SIZE - sizeof(struct simple_transaction_argresp)] *)
Definition SIMPLE_TRANSACTION_LIMIT : Z := PAGE_SIZE - 8.

(** ** Programs on the system *)

(** A handler changes the system and adds_files checks to the record; [None] is a
    [BUG()] or an invalid access. *)
Definition sys (A : Type) : Type := kernel -> option (A * list check * kernel).

#[export] Instance sys_ret : MRet sys := fun A a k => Some (a, [], k).
#[export] Instance sys_bind : MBind sys := fun A B f p k =>
  '(a, cks, k) ← p k; '(b, cks', k) ← f a k; Some (b, cks ++ cks', k).

#[export] Instance sys_fmap : FMap sys := fun A B f p => a ← p; mret (f a).

Definition gets {A} (f : kernel -> A) : sys A := fun k => Some (f k, [], k).
Definition modify (f : kernel -> kernel) : sys unit := fun k => Some (tt, [], f k).
Definition fault {A} : sys A := fun _ => None.
(** The same, for reads and changes that may be invalid. *)
Definition try_get {A} (f : kernel -> option A) : sys A := fun k => a ← f k; Some (a, [], k).
Definition try_modify (f : kernel -> option kernel) : sys unit := fun k => k ← f k; Some (tt, [], k).
Definition hook_sys {A} (v : env) (p : hook A) : sys A := fun k => '(a, _, cks, k) ← run v p k; Some (a, cks, k).
Definition alloc : sys bool := fun k => let '(ok, m) := kalloc (k_mem k) in Some (ok, [], set_k_mem k m).

(** A function of the security server that may give out SIDs. *)
Definition ss_sys {A} (f : ss -> kmem -> option (A * ss * kmem)) : sys A := fun k =>
  '(a, s, m) ← f (k_ss k) (k_mem k); Some (a, [], with_ss k s m).
(** One that does not. *)
Definition ask_sys {A} (f : ss -> kmem -> option (A * kmem)) : sys A := fun k =>
  '(a, m) ← f (k_ss k) (k_mem k); Some (a, [], set_k_mem k m).

Definition set_enforcing_mode (s : ss) (b : bool) : ss :=
  mk_ss (ss_policydb s) (ss_sidtab s) (ss_initialized s) (latest_granting s) (current_mapping s) (current_mapping_size s)
    b (selinux_policycap_netpeer s) (selinux_policycap_openperm s).

Definition set_fs_enforcing (f : selfs) (v : Z) : selfs :=
  mk_selfs v (selinux_checkreqprot f) (bool_num f) (bool_pending_names f) (bool_pending_values f) (bool_files f) (policy_opened f)
    (class_files f) (last_class_ino f) (policycap_files f) (selinux_disabled f).
Definition set_fs_checkreqprot (f : selfs) (v : Z) : selfs :=
  mk_selfs (fs_enforcing f) v (bool_num f) (bool_pending_names f) (bool_pending_values f) (bool_files f) (policy_opened f)
    (class_files f) (last_class_ino f) (policycap_files f) (selinux_disabled f).
Definition set_fs_bools (f : selfs) (num : Z) (names : option (list string)) (values : option (list Z)) (files : list (string * Z)) : selfs :=
  mk_selfs (fs_enforcing f) (selinux_checkreqprot f) num names values files (policy_opened f) (class_files f) (last_class_ino f)
    (policycap_files f) (selinux_disabled f).
Definition set_fs_policy_opened (f : selfs) (v : bool) : selfs :=
  mk_selfs (fs_enforcing f) (selinux_checkreqprot f) (bool_num f) (bool_pending_names f) (bool_pending_values f) (bool_files f) v
    (class_files f) (last_class_ino f) (policycap_files f) (selinux_disabled f).
Definition set_fs_classes (f : selfs) (files : list (list string * Z)) (ino : Z) : selfs :=
  mk_selfs (fs_enforcing f) (selinux_checkreqprot f) (bool_num f) (bool_pending_names f) (bool_pending_values f) (bool_files f)
    (policy_opened f) files ino (policycap_files f) (selinux_disabled f).
Definition set_fs_policycap (f : selfs) (files : list (string * Z)) : selfs :=
  mk_selfs (fs_enforcing f) (selinux_checkreqprot f) (bool_num f) (bool_pending_names f) (bool_pending_values f) (bool_files f)
    (policy_opened f) (class_files f) (last_class_ino f) files (selinux_disabled f).
Definition set_fs_disabled (f : selfs) (v : bool) : selfs :=
  mk_selfs (fs_enforcing f) (selinux_checkreqprot f) (bool_num f) (bool_pending_names f) (bool_pending_values f) (bool_files f)
    (policy_opened f) (class_files f) (last_class_ino f) (policycap_files f) v.

(** ** Changes of the policy *)

(** [avc_ss_reset] with the callbacks of the network tables. *)
Definition reset_caches (k : kernel) (seqno : Z) : kernel :=
  let n := k_net k in
  set_k_net (set_k_avc k (avc_ss_reset (k_avc k) seqno).2)
    (mk_net_tables (sel_netport_avc_callback (nt_ports n) AVC_CALLBACK_RESET).2
                   (sel_netnode_avc_callback (nt_nodes n) AVC_CALLBACK_RESET).2
                   (sel_netif_avc_callback (nt_netifs n) AVC_CALLBACK_RESET).2).

(** What [security_load_policy] and [security_set_bools] do once the new policy
    is in force; the flushes of NetLabel and of the routes are outside. *)
Definition announce (seqno : Z) : sys unit := try_modify (fun k =>
  k ← selnl_notify_policyload (reset_caches k seqno) seqno;
  Some (selinux_status_update_policyload k seqno)).

Definition load_policy (data : list ascii) : sys Z := fun k =>
  '(rc, s, seq, m) ← security_load_policy (k_ss k) data (k_mem k);
  match seq with
  | Some seqno => (_ ← announce seqno; mret rc) (with_ss k s m)
  | None => Some (rc, [], with_ss k s m)
  end.

Definition set_bools (values : list Z) : sys Z := fun k =>
  '(rc, s, seq) ← security_set_bools (k_ss k) values;
  match seq with
  | Some seqno => (_ ← announce seqno; mret rc) (set_k_ss k s)
  | None => Some (rc, [], set_k_ss k s)
  end.

(** ** Reading numbers from user space *)

Section handlers.
Context (v : env) (cur : task).

Definition task_has_security (perms : Z) : sys Z :=
  hook_sys v (HookBase.avc_has_perm (task_sid cur) SECINITSID_SECURITY SECCLASS_SECURITY perms None).

(** [buf]: the [count] bytes of user space, or nothing if they cannot be
    read.  The page, which is cleared before, as a string. *)
Definition copy_page (buf : option string) (ppos bad_pos : Z) : sys (Z + string) :=
  if negb (ppos =? 0) then mret (inl bad_pos)
  else
    ok ← alloc;
    if negb ok then mret (inl (- ENOMEM))
    else mret (match buf with None => inl (- EFAULT) | Some text => inr (cstr text) end).

(** [sscanf(page, fmt, &new_value) != 1] *)
Definition scan_number (page fmt : string) : sys (Z + Z) :=
  match vsscanf page fmt with
  | Some (1, ScInt n :: _) => mret (inr n)
  | Some _ => mret (inl (- EINVAL))
  | None => fault
  end.

(** The part that is common to the files that take a number. *)
Definition read_number (buf : option string) (count ppos bad_pos : Z) (fmt : string) : sys (Z + Z) :=
  if PAGE_SIZE <=? count then mret (inl (- ENOMEM))
  else
    r ← copy_page buf ppos bad_pos;
    match r with
    | inl e => mret (inl e)
    | inr page => scan_number page fmt
    end.

(** ** Enforcement *)

(** [EINVAL] without its sign is what the code returns for a partial write. *)
Definition sel_write_enforce (buf : option string) (count ppos : Z) : sys Z :=
  r ← read_number buf count ppos EINVAL "%d";
  match r with
  | inl e => mret e
  | inr new_value =>
      old ← gets (fun k => fs_enforcing (k_fs k));
      if negb (new_value =? old) then
        length ← task_has_security SECURITY__SETENFORCE;
        if nz length then mret length
        else
          _ ← modify (fun k => set_k_ss (set_k_fs k (set_fs_enforcing (k_fs k) new_value)) (set_enforcing_mode (k_ss k) (nz new_value)));
          _ ← (if nz new_value then modify (fun k => reset_caches k 0) else mret tt);
          _ ← try_modify (fun k => selnl_notify_setenforce k new_value);
          _ ← modify (fun k => selinux_status_update_setenforce k new_value);
          mret count
      else mret count
  end.

(** [simple_read_from_buffer], where user space takes everything: the result
    and the bytes that are copied. *)
Definition simple_read_from_buffer (count ppos : Z) (from : string) : Z * string :=
  let available := strlen from in
  if ppos <? 0 then (- EINVAL, EmptyString)
  else if (available <=? ppos) || (count =? 0) then (0, EmptyString)
  else
    let n := Z.min count (available - ppos) in
    (n, substring (Z.to_nat ppos) (Z.to_nat n) from).

Definition sel_read_enforce (count ppos : Z) : sys (Z * string) :=
  gets (fun k => simple_read_from_buffer count ppos (dec_int (fs_enforcing (k_fs k)))).

Definition sel_read_handle_unknown (reject : bool) (count ppos : Z) : sys (Z * string) :=
  gets (fun k => let unknown := if reject then security_get_reject_unknown (k_ss k) else negb (security_get_allow_unknown (k_ss k)) in
                 simple_read_from_buffer count ppos (dec_int (b2i unknown))).

Definition sel_read_mls (count ppos : Z) : sys (Z * string) :=
  gets (fun k => simple_read_from_buffer count ppos (dec_int (b2i (security_mls_enabled (k_ss k))))).

Definition sel_read_checkreqprot (count ppos : Z) : sys (Z * string) :=
  gets (fun k => simple_read_from_buffer count ppos (dec (selinux_checkreqprot (k_fs k)))).

Definition sel_write_checkreqprot (buf : option string) (count ppos : Z) : sys Z :=
  length ← task_has_security SECURITY__SETCHECKREQPROT;
  if nz length then mret length
  else
    r ← read_number buf count ppos (- EINVAL) "%u";
    match r with
    | inl e => mret e
    | inr new_value =>
        _ ← modify (fun k => set_k_fs k (set_fs_checkreqprot (k_fs k) (if nz new_value then 1 else 0)));
        mret count
    end.

Definition sel_read_avc_cache_threshold (count ppos : Z) : sys (Z * string) :=
  gets (fun k => simple_read_from_buffer count ppos (dec (avc_cache_threshold (k_avc k)))).

Definition set_cache_threshold (a : avc) (n : Z) : avc :=
  mk_avc (slots a) (lru_hint a) (active_nodes a) (latest_notif a) (avc_callbacks a) n.

Definition sel_write_avc_cache_threshold (buf : option string) (count ppos : Z) : sys Z :=
  ret ← task_has_security SECURITY__SETSECPARAM;
  if nz ret then mret ret
  else
    r ← read_number buf count ppos (- EINVAL) "%u";
    match r with
    | inl e => mret e
    | inr new_value =>
        _ ← modify (fun k => set_k_avc k (set_cache_threshold (k_avc k) new_value));
        mret count
    end.

(** ** The policy *)

(** Result: the return value, and the copy of the policy that the open file
    has. *)
Definition sel_open_policy : sys (Z * option string) :=
  rc ← task_has_security SECURITY__READ_POLICY;
  if nz rc then mret (rc, None)
  else
    opened ← gets (fun k => policy_opened (k_fs k));
    if (opened : bool) then mret (- EBUSY, None)
    else
      ok ← alloc;
      if negb ok then mret (- ENOMEM, None)
      else
        '(rc, data) ← ask_sys (fun s m => security_read_policy s m);
        if nz rc then mret (rc, None)
        else
          _ ← modify (fun k => set_k_fs k (set_fs_policy_opened (k_fs k) true));
          mret (0, string_of_list_ascii <$> data).

Definition sel_release_policy : sys Z :=
  _ ← modify (fun k => set_k_fs k (set_fs_policy_opened (k_fs k) false)); mret 0.

Definition sel_read_policy (plm : string) (count ppos : Z) : sys (Z * string) :=
  ret ← task_has_security SECURITY__READ_POLICY;
  if nz ret then mret (ret, EmptyString) else mret (simple_read_from_buffer count ppos plm).

(** The file of a boolean: the memory for its entry and its inode, and its
    label. *)
Definition make_bool_file (name : string) : sys (Z * Z) :=
  ok ← alloc;
  if negb ok then mret (- ENOMEM, 0)
  else
    ok ← alloc;
    if negb ok then mret (- ENOMEM, 0)
    else
      let page := ("/booleans/" ++ name)%string in
      if PAGE_SIZE <=? strlen page then mret (- ENAMETOOLONG, 0)
      else ss_sys (fun s m => security_genfs_sid s "selinuxfs" page SECCLASS_FILE m).

Fixpoint make_bool_files (names : list string) (files : list (string * Z)) : sys (Z * list (string * Z)) :=
  match names with
  | [] => mret (0, files)
  | name :: names' =>
      '(ret, sid) ← make_bool_file name;
      if nz ret then mret (ret, files) else make_bool_files names' (files ++ [(name, sid)])
  end.

(** The old names are freed one by one: they must be there. *)
Definition drop_bools (k : kernel) : option kernel :=
  let f := k_fs k in
  let k' := set_k_fs k (set_fs_bools f (bool_num f) None None []) in
  if bool_num f <=? 0 then Some k'
  else
    names ← bool_pending_names f;
    if bool_num f <=? Z.of_nat (List.length names) then Some k' else None.

Definition sel_make_bools : sys Z :=
  _ ← try_modify drop_bools;
  ok ← alloc;
  if negb ok then mret (- ENOMEM)
  else
    '(ret, names, values) ← ask_sys (fun s m => '(rc, names, values, m) ← security_get_bools s m; Some ((rc, names, values), m));
    if nz ret then mret ret
    else
      '(ret, files) ← make_bool_files names [];
      if nz ret then mret ret
      else
        let num := Z.of_nat (List.length names) in
        let given {A} (l : list A) := if num =? 0 then None else Some l in
        _ ← modify (fun k => set_k_fs k (set_fs_bools (k_fs k) num (given names) (given values) files));
        mret 0.

(** ** The directories class/ and policy_capabilities/ *)

Definition SEL_VEC_MAX : Z := 32.
Definition SEL_CLASS_INO_OFFSET : Z := 0x04000000.
Definition SEL_POLICYCAP_INO_OFFSET : Z := 0x08000000.
Definition SEL_INO_MASK : Z := 0x00ffffff.
Definition POLICYDB_CAPABILITY_MAX : Z := 1.
Definition policycap_names : list string := ["network_peer_controls"; "open_perms"]%string.

Definition sel_div (a b : Z) : Z := u32 (a / b - b2i (a mod b <? 0)).
Definition sel_class_to_ino (class : Z) : Z := (class * (SEL_VEC_MAX + 1)) .| SEL_CLASS_INO_OFFSET.
Definition sel_ino_to_class (ino : Z) : Z := u16 (sel_div (ino .& SEL_INO_MASK) (SEL_VEC_MAX + 1)).
Definition sel_perm_to_ino (class perm : Z) : Z := u32 (class * (SEL_VEC_MAX + 1) + perm) .| SEL_CLASS_INO_OFFSET.
Definition sel_ino_to_perm (ino : Z) : Z := u32 ((ino .& SEL_INO_MASK) mod (SEL_VEC_MAX + 1)).

(** [d_add] in class/. *)
Definition add_class_file (path : list string) (ino : Z) : sys unit := modify (fun k =>
  set_k_fs k (set_fs_classes (k_fs k) (class_files (k_fs k) ++ [(path, ino)]) (last_class_ino (k_fs k)))).

(** A directory of class/, whose entry [dentry] is already there. *)
Definition sel_make_dir (dentry : list string) : sys Z :=
  ok ← alloc;
  if negb ok then mret (- ENOMEM)
  else
    _ ← modify (fun k => let f := k_fs k in
          let ino := u64 (last_class_ino f + 1) in
          set_k_fs k (set_fs_classes f (class_files f ++ [(dentry, ino)]) ino));
    mret 0.

(** The loop of [sel_make_perm_files]; [i]: the index of the next name. *)
Fixpoint make_perm_files (classvalue : Z) (dir : list string) (i : Z) (perms : list (ptr string)) : sys Z :=
  match perms with
  | [] => mret 0
  | p :: perms' =>
      name ← try_get (fun _ => deref p);
      ok ← alloc;
      if negb ok then mret (- ENOMEM)
      else
        ok ← alloc;
        if negb ok then mret (- ENOMEM)
        else
          _ ← add_class_file (dir ++ [name]) (sel_perm_to_ino (u16 classvalue) (i + 1));
          make_perm_files classvalue dir (i + 1) perms'
  end.

Definition sel_make_perm_files (objclass : string) (classvalue : Z) (dir : list string) : sys Z :=
  '(rc, perms) ← ask_sys (fun s m => security_get_permissions s objclass m);
  if nz rc then mret rc else make_perm_files classvalue dir 0 perms.

Definition sel_make_class_dir_entries (classname : string) (index : Z) (dir : list string) : sys Z :=
  ok ← alloc;
  if negb ok then mret (- ENOMEM)
  else
    ok ← alloc;
    if negb ok then mret (- ENOMEM)
    else
      _ ← add_class_file (dir ++ ["index"%string]) (sel_class_to_ino (u16 index));
      ok ← alloc;
      if negb ok then mret (- ENOMEM)
      else
        rc ← sel_make_dir (dir ++ ["perms"%string]);
        if nz rc then mret rc else sel_make_perm_files classname index (dir ++ ["perms"%string]).

Fixpoint make_class_dirs (i : Z) (classes : list (ptr string)) : sys Z :=
  match classes with
  | [] => mret 0
  | p :: classes' =>
      name ← try_get (fun _ => deref p);
      ok ← alloc;
      if negb ok then mret (- ENOMEM)
      else
        rc ← sel_make_dir [name];
        if nz rc then mret rc
        else
          rc ← sel_make_class_dir_entries name (i + 1) [name];
          if nz rc then mret rc else make_class_dirs (i + 1) classes'
  end.

Definition sel_make_classes : sys Z :=
  _ ← modify (fun k => set_k_fs k (set_fs_classes (k_fs k) [] (last_class_ino (k_fs k))));
  '(rc, classes) ← ask_sys (fun s m => security_get_classes s m);
  if nz rc then mret rc
  else
    _ ← modify (fun k => set_k_fs k (set_fs_classes (k_fs k) (class_files (k_fs k))
                                      (sel_class_to_ino (u16 (Z.of_nat (List.length classes) + 2)))));
    make_class_dirs 0 classes.

Fixpoint make_policycap_files (n : nat) (iter : Z) : sys Z :=
  match n with
  | O => mret 0
  | S n' =>
      let name := default "unknown"%string (policycap_names !! Z.to_nat iter) in
      ok ← alloc;
      if negb ok then mret (- ENOMEM)
      else
        ok ← alloc;
        if negb ok then mret (- ENOMEM)
        else
          _ ← modify (fun k => set_k_fs k (set_fs_policycap (k_fs k) (policycap_files (k_fs k) ++ [(name, iter .| SEL_POLICYCAP_INO_OFFSET)])));
          make_policycap_files n' (iter + 1)
  end.

Definition sel_make_policycap : sys Z :=
  _ ← modify (fun k => set_k_fs k (set_fs_policycap (k_fs k) []));
  make_policycap_files (Z.to_nat (POLICYDB_CAPABILITY_MAX + 1)) 0.

(** [data]: the [count] bytes of user space. *)
Definition sel_write_load (data : option (list ascii)) (count ppos : Z) : sys Z :=
  length ← task_has_security SECURITY__LOAD_POLICY;
  if nz length then mret length
  else if negb (ppos =? 0) then mret (- EINVAL)
  else if 64 * 1024 * 1024 <? count then mret (- EFBIG)
  else
    ok ← alloc;
    if negb ok then mret (- ENOMEM)
    else
      match data with
      | None => mret (- EFAULT)
      | Some data =>
          length ← load_policy data;
          if nz length then mret length
          else
            length ← sel_make_bools;
            if nz length then mret length
            else
              length ← sel_make_classes;
              if nz length then mret length
              else
                length ← sel_make_policycap;
                if nz length then mret length else mret count
      end.

(** ** Booleans *)

(** [index >= bool_num || strcmp(name, bool_pending_names[index])] *)
Definition bool_at (index : Z) (name : string) : sys bool := try_get (fun k =>
  let f := k_fs k in
  if bool_num f <=? index then Some false
  else
    names ← bool_pending_names f;
    n ← names !! Z.to_nat index;
    Some (strcmp name n =? 0)).

Definition sel_read_bool (index : Z) (name : string) (count ppos : Z) : sys (Z * string) :=
  found ← bool_at index name;
  if negb found then mret (- EINVAL, EmptyString)
  else
    ok ← alloc;
    if negb ok then mret (- ENOMEM, EmptyString)
    else
      cur_enforcing ← try_get (fun k => security_get_bool_value (k_ss k) index);
      if cur_enforcing <? 0 then mret (cur_enforcing, EmptyString)
      else
        pending ← try_get (fun k => l ← bool_pending_values (k_fs k); l !! Z.to_nat index);
        mret (simple_read_from_buffer count ppos (dec_int cur_enforcing ++ " " ++ dec_int pending)).

Definition sel_write_bool (index : Z) (name : string) (buf : option string) (count ppos : Z) : sys Z :=
  length ← task_has_security SECURITY__SETBOOL;
  if nz length then mret length
  else
    found ← bool_at index name;
    if negb found then mret (- EINVAL)
    else
      r ← read_number buf count ppos (- EINVAL) "%d";
      match r with
      | inl e => mret e
      | inr new_value =>
          _ ← try_modify (fun k =>
                let f := k_fs k in
                l ← bool_pending_values f;
                _ ← l !! Z.to_nat index;
                Some (set_k_fs k (set_fs_bools f (bool_num f) (bool_pending_names f)
                                   (Some (<[Z.to_nat index := if nz new_value then 1 else 0]> l)) (bool_files f))));
          mret count
      end.

Definition sel_commit_bools_write (buf : option string) (count ppos : Z) : sys Z :=
  length ← task_has_security SECURITY__SETBOOL;
  if nz length then mret length
  else
    r ← read_number buf count ppos (- EINVAL) "%d";
    match r with
    | inl e => mret e
    | inr new_value =>
        pending ← gets (fun k => bool_pending_values (k_fs k));
        length ← (match pending with
                  | Some values => if nz new_value then set_bools values else mret 0
                  | None => mret 0
                  end);
        mret (if negb (nz length) then count else length)
    end.

(** ** The files that are only read *)

Definition sel_read_policyvers (count ppos : Z) : Z * string := simple_read_from_buffer count ppos (dec POLICYDB_VERSION_MAX).

Definition sel_read_initcon (ino count ppos : Z) : sys (Z * string) :=
  '(ret, con, len) ← ask_sys (fun s m => '(rc, text, len, m) ← ServicesSid.security_sid_to_context s (ino .& SEL_INO_MASK) true m; Some ((rc, text, len), m));
  if nz ret then mret (ret, EmptyString)
  else mret (simple_read_from_buffer count ppos (default EmptyString con ++ String "000" EmptyString)).

Definition sel_read_class (ino count ppos : Z) : sys (Z * string) :=
  ok ← alloc;
  if negb ok then mret (- ENOMEM, EmptyString) else mret (simple_read_from_buffer count ppos (dec_int (sel_ino_to_class ino))).

Definition sel_read_perm (ino count ppos : Z) : sys (Z * string) :=
  ok ← alloc;
  if negb ok then mret (- ENOMEM, EmptyString) else mret (simple_read_from_buffer count ppos (dec_int (s32 (sel_ino_to_perm ino)))).

Definition sel_read_policycap (ino count ppos : Z) : sys (Z * string) :=
  value ← try_get (fun k => security_policycap_supported (k_ss k) (ino .& SEL_INO_MASK));
  mret (simple_read_from_buffer count ppos (dec_int (b2i value))).

(** ** Mappings of the policy and of the status page *)

Definition VM_WRITE : Z := 2.
Definition VM_SHARED : Z := 8.
Definition VM_MAYWRITE : Z := 32.
Definition VM_RESERVED : Z := 0x80000.
Definition EIO : Z := 5.

(** Result: the return value and [vma->vm_flags]. *)
Definition sel_mmap_policy (vm_flags : Z) : Z * Z :=
  if nz (vm_flags .& VM_SHARED) then
    let vm_flags := vm_flags .& Z.lnot VM_MAYWRITE in
    if nz (vm_flags .& VM_WRITE) then (- EACCES, vm_flags) else (0, vm_flags .| VM_RESERVED)
  else (0, vm_flags .| VM_RESERVED).

(** [remap]: what [remap_pfn_range] returns. *)
Definition sel_mmap_handle_status (vm_start vm_end vm_pgoff vm_flags remap : Z) : Z * Z :=
  let size := u64 (vm_end - vm_start) in
  if (0 <? vm_pgoff) || negb (size =? PAGE_SIZE) then (- EIO, vm_flags)
  else if nz (vm_flags .& VM_WRITE) then (- EPERM, vm_flags)
  else (remap, vm_flags .& Z.lnot VM_MAYWRITE).

(** ** Disabling SELinux *)

(** The hooks, the filters and the file system are unregistered outside. *)
Definition selinux_disable : sys Z :=
  initialized ← gets (fun k => ss_initialized (k_ss k));
  if (initialized : bool) then mret (- EINVAL)
  else
    disabled ← gets (fun k => selinux_disabled (k_fs k));
    if (disabled : bool) then mret (- EINVAL)
    else
      _ ← modify (fun k => set_k_avc (set_k_fs k (set_fs_disabled (k_fs k) true)) (avc_disable (k_avc k)));
      mret 0.

Definition sel_write_disable (buf : option string) (count ppos : Z) : sys Z :=
  r ← read_number buf count ppos (- EINVAL) "%d";
  match r with
  | inl e => mret e
  | inr new_value =>
      length ← (if nz new_value then selinux_disable else mret 0);
      if nz length then mret length else mret count
  end.

(** ** Questions to the security server *)

(** A transaction: the length of the answer or an error, and the answer, which
    replaces the request in the buffer. *)
Definition reply : Type := Z * option string.
Definition failed (rc : Z) : sys reply := mret (rc, None).

(** The context of [sid] as the answer. *)
Definition context_reply (sid : Z) : sys reply :=
  '(length, text, len) ← ask_sys (fun s m => '(rc, text, len, m) ← ServicesSid.security_sid_to_context s sid true m; Some ((rc, text, len), m));
  if nz length then failed length
  else if SIMPLE_TRANSACTION_LIMIT <? len then failed (- ERANGE)
  else mret (len, text).

Definition sel_write_context (buf : string) : sys reply :=
  length ← task_has_security SECURITY__CHECK_CONTEXT;
  if nz length then failed length
  else
    '(length, sid) ← ss_sys (fun s m => ServicesSid.security_context_to_sid s buf m);
    if nz length then failed length else context_reply sid.

(** The two buffers for the words of the request. *)
Definition two_buffers : sys bool :=
  ok ← alloc; if negb ok then mret false else alloc.

(** [security_context_to_sid(con, strlen(con) + 1, &sid)] *)
Definition word_sid (con : string) : sys (Z * Z) :=
  ss_sys (fun s m => ServicesSid.security_context_to_sid s (con ++ String "000" EmptyString)%string m).

(** What the requests with two contexts and a class have in common. *)
Definition two_contexts (perms : Z) (buf : string) (k : Z -> Z -> Z -> sys reply) : sys reply :=
  length ← task_has_security perms;
  if nz length then failed length
  else
    ok ← two_buffers;
    if negb ok then failed (- ENOMEM)
    else
      match vsscanf (cstr buf) "%s %s %hu" with
      | Some (3, [ScStr scon; ScStr tcon; ScInt tclass]) =>
          '(length, ssid) ← word_sid scon;
          if nz length then failed length
          else
            '(length, tsid) ← word_sid tcon;
            if nz length then failed length else k ssid tsid tclass
      | Some _ => failed (- EINVAL)
      | None => fault
      end.

(** [scnprintf(buf, ..., "%x %x %x %x %u %x", ...)] *)
Definition access_text (avd : av_decision) : string :=
  (hex (allowed avd) ++ " " ++ hex 0xffffffff ++ " " ++ hex (auditallow avd) ++ " " ++ hex (auditdeny avd) ++ " " ++
   dec (seqno avd) ++ " " ++ hex (flags avd))%string.

Definition sel_write_access (buf : string) : sys reply :=
  two_contexts SECURITY__COMPUTE_AV buf (fun ssid tsid tclass =>
    avd ← try_get (fun k => security_compute_av_user (k_ss k) ssid tsid tclass);
    mret (strlen (access_text avd), Some (access_text avd))).

(** The answer of the three requests for a SID. *)
Definition sid_reply (f : ss -> kmem -> option (Z * option Z * ss * kmem)) : sys reply :=
  '(length, newsid) ← ss_sys f;
  if nz length then failed length
  else match newsid with Some newsid => context_reply newsid | None => fault end.

Definition sel_write_create (buf : string) : sys reply :=
  two_contexts SECURITY__COMPUTE_CREATE buf (fun ssid tsid tclass =>
    sid_reply (fun s m => security_transition_sid_user s ssid tsid tclass m)).

Definition sel_write_relabel (buf : string) : sys reply :=
  two_contexts SECURITY__COMPUTE_RELABEL buf (fun ssid tsid tclass =>
    sid_reply (fun s m => security_change_sid s ssid tsid tclass m)).

Definition sel_write_member (buf : string) : sys reply :=
  two_contexts SECURITY__COMPUTE_MEMBER buf (fun ssid tsid tclass =>
    sid_reply (fun s m => security_member_sid s ssid tsid tclass m)).

(** The contexts of the SIDs, each with the NUL behind it. *)
Fixpoint user_contexts (sids : list Z) (length : Z) (text : string) : sys reply :=
  match sids with
  | [] => mret (length, Some text)
  | sid :: sids' =>
      '(rc, newcon, len) ← ask_sys (fun s m => '(rc, text, len, m) ← ServicesSid.security_sid_to_context s sid true m; Some ((rc, text, len), m));
      if nz rc then failed rc
      else if SIMPLE_TRANSACTION_LIMIT <=? length + len then failed (- ERANGE)
      else user_contexts sids' (length + len) (text ++ default EmptyString newcon ++ String "000" EmptyString)%string
  end.

Definition user_sids (fromsid : Z) (user : string) : sys (Z * list Z) := fun k =>
  '(rc, sids, s, a, m) ← security_get_user_sids (k_ss k) (k_avc k) fromsid user (k_mem k);
  Some ((rc, sids), [], set_k_avc (with_ss k s m) a).

Definition sel_write_user (buf : string) : sys reply :=
  length ← task_has_security SECURITY__COMPUTE_USER;
  if nz length then failed length
  else
    ok ← two_buffers;
    if negb ok then failed (- ENOMEM)
    else
      match vsscanf (cstr buf) "%s %s" with
      | Some (2, [ScStr con; ScStr user]) =>
          '(length, sid) ← word_sid con;
          if nz length then failed length
          else
            '(length, sids) ← user_sids sid user;
            if nz length then failed length
            else
              let n := dec (Z.of_nat (List.length sids)) in
              user_contexts sids (strlen n + 1) (n ++ String "000" EmptyString)%string
      | Some _ => failed (- EINVAL)
      | None => fault
      end.

(** The inode numbers of the transaction files. *)
Definition SEL_CONTEXT : Z := 5.
Definition SEL_ACCESS : Z := 6.
Definition SEL_CREATE : Z := 7.
Definition SEL_RELABEL : Z := 8.
Definition SEL_USER : Z := 9.
Definition SEL_MEMBER : Z := 14.

Definition write_op (ino : Z) : option (string -> sys reply) :=
  if ino =? SEL_ACCESS then Some sel_write_access
  else if ino =? SEL_CREATE then Some sel_write_create
  else if ino =? SEL_RELABEL then Some sel_write_relabel
  else if ino =? SEL_USER then Some sel_write_user
  else if ino =? SEL_MEMBER then Some sel_write_member
  else if ino =? SEL_CONTEXT then Some sel_write_context
  else None.

(** [data]: what [simple_transaction_get] gives for the [size] bytes of user
    space.  Result: the return value and the answer that can be read. *)
Definition selinux_transaction_write (ino : Z) (data : Z + string) (size : Z) : sys reply :=
  match write_op ino with
  | None => failed (- EINVAL)
  | Some op =>
      match data with
      | inl e => failed e
      | inr data =>
          '(rv, text) ← op data;
          mret (if 0 <? rv then (size, text) else (rv, None))
      end
  end.
End handlers.

Lemma sys_bind_Some {A B} (p : sys A) (f : A -> sys B) k b cks k' :
  (p ≫= f) k = Some (b, cks, k') <->
  exists a cks1 k1 cks2, p k = Some (a, cks1, k1) /\ f a k1 = Some (b, cks2, k') /\ cks = cks1 ++ cks2.
Proof.
  unfold mbind, sys_bind. split.
  - intros ([[a cks1] k1] & H1 & H)%bind_Some. apply bind_Some in H as ([[b2 cks2] k2] & H2 & E). injection E as <- <- <-. by eexists _, _, _, _.
  - intros (a & cks1 & k1 & cks2 & H1 & H2 & ->). rewrite (bind_step _ _ _ H1). cbn. by rewrite (bind_step _ _ _ H2).
Qed.

(** ** Inode numbers *)

Lemma ino_masked x : 0 <= x < 2 ^ 24 -> (x .| SEL_CLASS_INO_OFFSET) .& SEL_INO_MASK = x.
Proof.
  intros Hx. rewrite Z.land_lor_distr_l. change (SEL_CLASS_INO_OFFSET .& SEL_INO_MASK) with 0. rewrite Z.lor_0_r.
  change SEL_INO_MASK with (Z.ones 24). rewrite Z.land_ones by lia. by apply Z.mod_small.
Qed.

Lemma class_number x : 0 <= x < 2 ^ 24 -> u16 (sel_div x (SEL_VEC_MAX + 1)) = u16 (x / 33).
Proof.
  intros Hx. unfold sel_div. change (SEL_VEC_MAX + 1) with 33. pose proof (Z.mod_pos_bound x 33 ltac:(lia)). rewrite (proj2 (Z.ltb_ge _ _)) by lia.
  cbn [b2i]. rewrite Z.sub_0_r. f_equal. apply u32_small. split; [apply Z.div_pos; lia|]. apply Z.div_lt_upper_bound; lia.
Qed.

Lemma class_ino_roundtrip c : in_u 16 c -> sel_ino_to_class (sel_class_to_ino c) = c.
Proof.
  unfold in_u. intros Hc. unfold sel_ino_to_class, sel_class_to_ino. change (SEL_VEC_MAX + 1) with 33. rewrite ino_masked by lia.
  change 33 with (SEL_VEC_MAX + 1) at 2. rewrite class_number by lia. rewrite Z.div_mul by lia. by apply u16_small.
Qed.

Lemma perm_ino_roundtrip c p : in_u 16 c -> 0 <= p <= SEL_VEC_MAX ->
  sel_ino_to_class (sel_perm_to_ino c p) = c /\ sel_ino_to_perm (sel_perm_to_ino c p) = p.
Proof.
  unfold in_u, SEL_VEC_MAX. intros Hc Hp. unfold sel_ino_to_class, sel_ino_to_perm, sel_perm_to_ino. change (SEL_VEC_MAX + 1) with 33.
  rewrite u32_small, ino_masked by (unfold in_u; lia). change 33 with (SEL_VEC_MAX + 1) at 2. rewrite class_number by lia.
  rewrite Z.add_comm, Z.div_add, Z.div_small, Z.mod_add, Z.mod_small by lia. by rewrite u16_small, u32_small by (unfold in_u; lia).
Qed.

(** ** The files of class/ *)

(** The security server is left alone and files are added. *)
Definition adds_files (l : list (list string * Z)) (k k' : kernel) : Prop :=
  k_ss k' = k_ss k /\ class_files (k_fs k') = class_files (k_fs k) ++ l.

Lemma adds_files_trans l1 l2 k1 k2 k3 : adds_files l1 k1 k2 -> adds_files l2 k2 k3 -> adds_files (l1 ++ l2) k1 k3.
Proof. intros [E1 F1] [E2 F2]. split; [by rewrite E2|]. by rewrite F2, F1, (assoc (++)). Qed.

(** Memory for the next step is there, or the handler has failed. *)
Lemma alloc_step (p : sys Z) k cks k' :
  (ok ← alloc; if negb ok then mret (- ENOMEM) else p) k = Some (0, cks, k') ->
  exists k1 cks1, p k1 = Some (0, cks1, k') /\ adds_files [] k k1 /\ last_class_ino (k_fs k1) = last_class_ino (k_fs k).
Proof.
  intros (ok & c1 & k1 & c2 & H1 & H2 & ->)%sys_bind_Some. unfold alloc in H1. destruct (kalloc (k_mem k)) as [[] m]; injection H1 as <- <- <-;
    cbn [negb] in H2; [|done]. eexists _, _. split; [exact H2|]. by repeat split; cbn; rewrite ?app_nil_r.
Qed.

Lemma modify_step f (p : sys Z) k cks k' : (_ ← modify f; p) k = Some (0, cks, k') -> exists cks1, p (f k) = Some (0, cks1, k').
Proof. intros (u & c1 & k1 & c2 & [= <- <- <-] & H2 & ->)%sys_bind_Some. by eexists. Qed.

Lemma nonzero_step (p f : sys Z) k cks k' :
  (rc ← p; if nz rc then mret rc else f) k = Some (0, cks, k') ->
  exists cks1 k1 cks2, p k = Some (0, cks1, k1) /\ f k1 = Some (0, cks2, k').
Proof.
  intros (rc & c1 & k1 & c2 & H1 & H2 & ->)%sys_bind_Some. destruct (nz rc) eqn:E; [injection H2 as -> _ _; done|].
  apply nz_false in E as ->. by eexists _, _, _.
Qed.

Lemma name_step {A} (p : ptr A) (f : A -> sys Z) k cks k' :
  (name ← try_get (fun _ => deref p); f name) k = Some (0, cks, k') -> exists name cks1, deref p = Some name /\ f name k = Some (0, cks1, k').
Proof. intros (n & c1 & k1 & c2 & (x & E & [= <- <- <-])%bind_Some & H2 & ->)%sys_bind_Some. by eexists _, _. Qed.

Lemma ask_step {A} (q : ss -> kmem -> option (Z * A * kmem)) (f : A -> sys Z) k cks k' :
  ('(rc, a) ← ask_sys q; if nz rc then mret rc else f a) k = Some (0, cks, k') ->
  exists a m cks1, q (k_ss k) (k_mem k) = Some (0, a, m) /\ f a (set_k_mem k m) = Some (0, cks1, k').
Proof.
  intros ([rc a] & c1 & k1 & c2 & ([[rc' a'] m] & H1 & E)%bind_Some & H2 & ->)%sys_bind_Some. injection E as -> -> <- <-.
  destruct (nz rc) eqn:E; [injection H2 as -> _ _; done|]. apply nz_false in E as ->. by eexists _, _, _.
Qed.

Lemma make_dir_adds dentry k cks k' :
  sel_make_dir dentry k = Some (0, cks, k') -> adds_files [(dentry, u64 (last_class_ino (k_fs k) + 1))] k k'.
Proof.
  intros (k1 & cks1 & H & Ha & El)%alloc_step. apply modify_step in H as (cks2 & [= <- <-]).
  rewrite <- El. apply (adds_files_trans [] _ k k1); [done|]. by split.
Qed.

Definition perm_entry (value : Z) (dir : list string) (i : Z) (j : nat) (name : string) : list string * Z :=
  (dir ++ [name], sel_perm_to_ino (u16 value) (i + Z.of_nat j + 1)).

Lemma perm_files_add value dir i perms k cks k' :
  make_perm_files value dir i perms k = Some (0, cks, k') ->
  exists names, deref <$> perms = Some <$> names /\ adds_files (imap (perm_entry value dir i) names) k k'.
Proof.
  revert i k cks. induction perms as [|p perms IH]; cbn [make_perm_files]; intros i k cks H.
  { injection H as <- <-. exists []. split; [done|]. by split; [|rewrite app_nil_r]. }
  apply name_step in H as (name & c1 & Ep & H). apply alloc_step in H as (k1 & c2 & H & A1 & _). apply alloc_step in H as (k2 & c3 & H & A2 & _).
  apply modify_step in H as (c4 & H). apply IH in H as (names & En & A3). exists (name :: names). split; [cbn; by rewrite Ep, En|].
  assert (imap (perm_entry value dir i) (name :: names) = [perm_entry value dir i 0 name] ++ imap (perm_entry value dir (i + 1)) names) as ->.
  { rewrite imap_cons. cbn [app]. f_equal. apply imap_ext. intros j x _. unfold perm_entry. cbn. do 2 f_equal. lia. }
  refine (adds_files_trans _ _ _ _ _ (adds_files_trans [] [perm_entry value dir i 0 name] _ _ _ (adds_files_trans [] [] _ _ _ A1 A2) _) A3).
  split; [done|]. cbn. unfold perm_entry. by rewrite Z.add_0_r.
Qed.

Lemma entries_add name index dir k cks k' :
  sel_make_class_dir_entries name index dir k = Some (0, cks, k') ->
  exists ino m1 perms m2 names, security_get_permissions (k_ss k) name m1 = Some (0, perms, m2) /\ deref <$> perms = Some <$> names /\
    adds_files ((dir ++ ["index"%string], sel_class_to_ino (u16 index)) :: (dir ++ ["perms"%string], ino)
          :: imap (perm_entry index (dir ++ ["perms"%string]) 0) names) k k'.
Proof.
  intros (k1 & c1 & H & A1 & _)%alloc_step. apply alloc_step in H as (k2 & c2 & H & A2 & _). apply modify_step in H as (c3 & H).
  apply alloc_step in H as (k3 & c4 & H & A3 & _). apply nonzero_step in H as (c5 & k4 & c6 & H4 & H). apply make_dir_adds in H4 as A4.
  apply ask_step in H as (perms & m2 & c7 & Hp & H). apply perm_files_add in H as (names & En & A5).
  assert (adds_files [(dir ++ ["index"%string], sel_class_to_ino (u16 index))] k k3) as A6.
  { refine (adds_files_trans [_] [] _ _ _ (adds_files_trans [] [_] _ _ _ (adds_files_trans [] [] _ _ _ A1 A2) _) A3). by split. }
  pose proof (adds_files_trans _ _ _ _ _ A6 A4) as A7. exists (u64 (last_class_ino (k_fs k3) + 1)), (k_mem k4), perms, m2, names.
  rewrite <- (proj1 A7). split; [exact Hp|]. split; [exact En|]. exact (adds_files_trans _ _ _ _ _ A7 A5).
Qed.

(** The files of the class [name] with number [i + 1]. *)
Record class_shown (s : ss) (files : list (list string * Z)) (i : Z) (name : string) : Prop := mk_class_shown {
  cs_index : ([name; "index"%string], sel_class_to_ino (u16 (i + 1))) ∈ files;
  cs_perms : exists m1 perms m2, security_get_permissions s name m1 = Some (0, perms, m2) /\
    forall j q, perms !! j = Some q -> exists perm, deref q = Some perm /\
      ([name; "perms"; perm]%string, sel_perm_to_ino (u16 (i + 1)) (Z.of_nat j + 1)) ∈ files
}.

Lemma entries_shown s name i names l1 l2 m1 perms m2 ino :
  security_get_permissions s name m1 = Some (0, perms, m2) -> deref <$> perms = Some <$> names ->
  class_shown s (l1 ++ (([name; "index"%string], sel_class_to_ino (u16 (i + 1))) :: ([name; "perms"%string], ino)
    :: imap (perm_entry (i + 1) [name; "perms"%string] 0) names) ++ l2) i name.
Proof.
  intros Hp En. split; [rewrite !elem_of_app; right; left; left|]. exists m1, perms, m2. split; [done|]. intros j q Hj.
  assert ((deref <$> perms) !! j = Some (deref q)) as Hd by (by rewrite list_lookup_fmap, Hj). rewrite En, list_lookup_fmap in Hd.
  apply fmap_Some in Hd as (perm & Hn & ->). exists perm. split; [done|]. rewrite !elem_of_app. right; left; right; right.
  apply list_elem_of_lookup. exists j. by rewrite list_lookup_imap, Hn.
Qed.

Lemma class_dirs_add i classes k cks k' :
  make_class_dirs i classes k = Some (0, cks, k') ->
  (exists l, adds_files l k k') /\
  forall j p, classes !! j = Some p -> exists name, deref p = Some name /\ class_shown (k_ss k) (class_files (k_fs k')) (i + Z.of_nat j) name.
Proof.
  revert i k cks. induction classes as [|p classes IH]; cbn [make_class_dirs]; intros i k cks H.
  { injection H as <- <-. split; [exists []; split; [done|by rewrite app_nil_r]|]. done. }
  apply name_step in H as (name & c1 & Ep & H). apply alloc_step in H as (k1 & c2 & H & A1 & _).
  apply nonzero_step in H as (c3 & k2 & c4 & H2 & H). apply make_dir_adds in H2 as A2. apply nonzero_step in H as (c5 & k3 & c6 & H3 & H).
  apply entries_add in H3 as (ino & m1 & perms & m2 & names & Hp & En & A3). apply IH in H as [[l A4] Hc].
  pose proof (adds_files_trans _ _ _ _ _ (adds_files_trans _ _ _ _ _ A1 A2) A3) as A5. split; [eexists; exact (adds_files_trans _ _ _ _ _ A5 A4)|].
  rewrite (proj1 A5) in Hc. intros [|j] q Hj.
  - injection Hj as <-. exists name. split; [done|]. rewrite Z.add_0_r, (proj2 A4), (proj2 A3), <- (assoc (++)).
    rewrite (proj1 A2), (proj1 A1) in Hp. by eapply entries_shown.
  - destruct (Hc j q Hj) as (n & E & Hs). exists n. split; [done|]. by replace (i + Z.of_nat (S j)) with (i + 1 + Z.of_nat j) by lia.
Qed.

(** ** Texts of numbers *)

Lemma dec_digits_plain fuel n acc : str_all (fun c => negb (is_nul c)) acc = true -> 0 <= n ->
  str_all (fun c => negb (is_nul c)) (dec_digits fuel n acc) = true.
Proof.
  revert n acc. induction fuel as [|fuel IH]; intros n acc Ha Hn; [done|]. cbn [dec_digits].
  assert (str_all (fun c => negb (is_nul c)) (String (digit_char (n mod 10)) acc) = true) as Hs.
  { cbn. rewrite Ha, andb_true_r. pose proof (Z.mod_pos_bound n 10 ltac:(lia)) as Hm. 
    pose proof (digit_char_code _ Hm) as E. unfold code in E. unfold is_nul, is_char, nat_of_ascii. apply negb_true_iff, Nat.eqb_neq. lia. }
  destruct (n <? 10); [done|]. apply IH; [done|apply Z.div_pos; lia].
Qed.

Lemma dec_int_text n : cstr (dec_int n) = dec_int n /\ dec_int n <> EmptyString.
Proof.
  split.
  - unfold cstr. rewrite scan_all; [done|].
    assert (str_all (fun c => negb (is_nul c)) (dec_int n) = true) as H.
    { unfold dec_int. destruct (Z.ltb_spec n 0); [cbn [str_all]; apply andb_true_iff; split; [done|]|]; apply dec_digits_plain; (done || lia). }
    eapply str_all_impl; [|exact H]. intros c. by rewrite orb_false_r.
  - unfold dec_int. destruct (Z.ltb_spec n 0); [done|]. destruct (dec_digits_head 20 n EmptyString) as (d & r & E & _); [done|lia|].
    unfold dec. by rewrite E.
Qed.

Lemma substring_all s : substring 0 (String.length s) s = s.
Proof. induction s as [|c s IH]; [done|]. cbn. by rewrite IH. Qed.

Lemma read_whole s : s <> EmptyString -> simple_read_from_buffer (strlen s) 0 s = (strlen s, s).
Proof.
  intros Hs. assert (0 < strlen s) as Hl by (destruct s; [done|unfold strlen; cbn; lia]). unfold simple_read_from_buffer.
  rewrite (proj2 (Z.leb_gt _ _)), (proj2 (Z.eqb_neq _ _)) by lia. cbn [orb]. rewrite Z.sub_0_r, Z.min_id. unfold strlen. rewrite Nat2Z.id. by rewrite substring_all.
Qed.

(** ** Properties *)

(** C26: user space learns the numbers of classes and permissions from the
    files of class/.  After a rebuild of the directory that succeeded, the class
    at position [i] of the policy has a file [index] from whose inode number
    [i + 1] is read, and each of its first 32 permissions has a file from whose
    inode number both the class and the number of the permission are read. *)
Theorem class_files_numbered k cks k' :
  sel_make_classes k = Some (0, cks, k') ->
  exists classes m, security_get_classes (k_ss k) (k_mem k) = Some (0, classes, m) /\
  forall i p, classes !! i = Some p -> Z.of_nat i + 1 < 2 ^ 16 ->
  exists name, deref p = Some name /\
    (exists ino, ([name; "index"%string], ino) ∈ class_files (k_fs k') /\ sel_ino_to_class ino = Z.of_nat i + 1) /\
    exists m1 perms m2, security_get_permissions (k_ss k) name m1 = Some (0, perms, m2) /\
    forall j q, perms !! j = Some q -> Z.of_nat j < SEL_VEC_MAX ->
    exists perm ino, deref q = Some perm /\ ([name; "perms"; perm]%string, ino) ∈ class_files (k_fs k') /\
      sel_ino_to_class ino = Z.of_nat i + 1 /\ sel_ino_to_perm ino = Z.of_nat j + 1.
Proof.
  intros (c1 & H)%modify_step. apply ask_step in H as (classes & m & c2 & Hq & H). apply modify_step in H as (c3 & H).
  exists classes, m. split; [exact Hq|]. intros i p Hi Hlt.
  apply class_dirs_add in H as [_ Hc]. destruct (Hc i p Hi) as (name & E & [H1 (m1 & perms & m2 & Hp & H2)]). exists name. split; [done|].
  rewrite u16_small in H1, H2 by lia. split.
  - eexists. split; [exact H1|]. by rewrite class_ino_roundtrip by (unfold in_u; lia).
  - exists m1, perms, m2. split; [exact Hp|]. intros j q Hj Hlj. destruct (H2 j q Hj) as (perm & Eq & Hin). eexists perm, _.
    split; [done|]. split; [exact Hin|]. apply perm_ino_roundtrip; unfold in_u, SEL_VEC_MAX in *; lia.
Qed.

Definition sample_kernel (f : selfs) (m : kmem) : kernel :=
  mk_kernel sample_ss cache_empty piga_sample (mk_net_tables sel_netport_init sel_netnode_init sel_netif_init) 0 0 f None [] m.
Definition no_bools : selfs := mk_selfs 1 1 0 None None [] false [] 0 [] false.

Definition made_classes : list check * kernel :=
  match sel_make_classes (sample_kernel no_bools []) with Some (_, cks, k) => (cks, k) | None => ([], sample_kernel no_bools []) end.
Lemma made_classes_ok : sel_make_classes (sample_kernel no_bools []) = Some (0, made_classes.1, made_classes.2).
Proof.
  unfold made_classes. assert ((fun r => r.1.1) <$> sel_make_classes (sample_kernel no_bools []) = Some 0) as H by (vm_compute; reflexivity).
  destruct (sel_make_classes _) as [[[rc cks] k]|]; [|discriminate H]. injection H as ->. reflexivity.
Qed.

Lemma class_files_numbered_witness :
  exists classes m, security_get_classes sample_ss [] = Some (0, classes, m) /\
  forall i p, classes !! i = Some p -> Z.of_nat i + 1 < 2 ^ 16 ->
  exists name ino, deref p = Some name /\ ([name; "index"%string], ino) ∈ class_files (k_fs made_classes.2).
Proof.
  destruct (class_files_numbered _ _ _ made_classes_ok) as (classes & m & Hq & H). exists classes, m. split; [exact Hq|].
  intros i p Hi Hlt. destruct (H i p Hi Hlt) as (name & E & (ino & Hin & _) & _). exists name, ino. split; [exact E|exact Hin].
Defined.

(** What the sample policy shows: two classes with two permissions each. *)
Example class_directory :
  (fun x : list string * Z => (x.1, sel_ino_to_class x.2)) <$> filter (fun x : list string * Z => List.length x.1 = 2%nat) (class_files (k_fs made_classes.2)) =
  [(["process"; "index"], 1); (["process"; "perms"], 4); (["file"; "index"], 2); (["file"; "perms"], 4)]%string.
Proof. vm_compute. reflexivity. Qed.

(** ** Failures *)

(** A partial write to enforce is refused with [EINVAL] instead of [-EINVAL]:
    user space is told that 22 bytes were written. *)
Example enforce_partial_write :
  (fun r => r.1.1) <$> sel_write_enforce (mk_env (fun _ => None) (fun _ => mk_answer 0 None None None None))
    (mk_task (mk_task_security 1 1 0 0 0 0) (mk_task_security 1 1 0 0 0 0)) (Some "1"%string) 1 1 (sample_kernel no_bools []) = Some 22.
Proof. vm_compute. reflexivity. Qed.

(** When [sel_make_bools] fails after it has dropped the old names, [bool_num]
    still counts them: the next call, in the next load of a policy, reads
    through the null pointer, and so does a read of a boolean that is open. *)
Definition one_bool : selfs := mk_selfs 1 1 1 (Some ["allow_tmp"%string]) (Some [1]) [("allow_tmp"%string, 1)] false [] 0 [] false.

Example bools_lost :
  (fun r => r.1.1) <$> sel_make_bools (sample_kernel one_bool [false]) = Some (- ENOMEM) /\
  (_ ← sel_make_bools; sel_make_bools) (sample_kernel one_bool [false]) = None /\
  (_ ← sel_make_bools; sel_read_bool 0 "allow_tmp" 3 0) (sample_kernel one_bool [false]) = None.
Proof. vm_compute. split_and!; reflexivity. Qed.

(** ** Mappings *)

(** Neither the policy, shared, nor the status page can be mapped for writing,
    now or later with mprotect. *)
Lemma policy_mapping_readonly vm_flags fl :
  sel_mmap_policy vm_flags = (0, fl) -> nz (vm_flags .& VM_SHARED) = true -> nz (fl .& VM_WRITE) = false /\ nz (fl .& VM_MAYWRITE) = false.
Proof.
  unfold sel_mmap_policy. intros H Hsh. rewrite Hsh in H. destruct (nz (_ .& VM_WRITE)) eqn:E; [done|]. injection H as <-.
  rewrite !Z.land_lor_distr_l. change (VM_RESERVED .& VM_WRITE) with 0. change (VM_RESERVED .& VM_MAYWRITE) with 0. rewrite !Z.lor_0_r.
  split; [exact E|]. rewrite <- Z.land_assoc. change (Z.lnot VM_MAYWRITE .& VM_MAYWRITE) with 0. by rewrite Z.land_0_r.
Qed.

Lemma status_mapping_readonly vm_start vm_end vm_pgoff vm_flags remap fl :
  sel_mmap_handle_status vm_start vm_end vm_pgoff vm_flags remap = (0, fl) ->
  u64 (vm_end - vm_start) = PAGE_SIZE /\ nz (fl .& VM_WRITE) = false /\ nz (fl .& VM_MAYWRITE) = false.
Proof.
  unfold sel_mmap_handle_status. destruct (_ || _) eqn:Eb; [done|]. apply orb_false_iff in Eb as [_ Eb%negb_false_iff%Z.eqb_eq].
  destruct (nz _) eqn:E; [done|]. intros [= _ <-]. split; [exact Eb|]. rewrite <- !Z.land_assoc.
  change (Z.lnot VM_MAYWRITE .& VM_WRITE) with VM_WRITE. change (Z.lnot VM_MAYWRITE .& VM_MAYWRITE) with 0. by rewrite Z.land_0_r.
Qed.
