(* ===== verification/System.v ===== *)
(** The system as a whole: hooks, the files of selinuxfs, loads of policies,
    booleans and changes of the mode, in any order.  What was granted at any
    time was allowed by the policy in force at that time and completed no
    forbidden sequence, and the policy only changes at the request of a task
    to which the policy allows it. *)

From S2P Require Import Prelude Ebitmap Context Sidtab Policydb Mls PolicydbOps Sample MlsText Conditional PolicyFile PolicyRead Services ServicesSid.
From S2P Require Import ServicesObj ServicesLoad Avc NetCache HookBase Piga ServicesUser Kernel Scanf Notify Selinuxfs.
From stdpp Require Import strings.
From Stdlib Require Import String Ascii.
Open Scope Z_scope.
Open Scope list_scope.

(** ** Programs that keep the history *)

Definition keeps_history {A} (p : sys A) : Prop :=
  forall g0 log k a cks k', history g0 log k -> p k = Some (a, cks, k') -> Forall settled_check cks -> history g0 (log ++ cks) k'.

Create HintDb history.

Lemma keeps_ret {A} (a : A) : keeps_history (mret a).
Proof. intros g0 log k a' cks k' Hh [= <- <- <-] _. by rewrite app_nil_r. Qed.

Lemma keeps_bind {A B} (p : sys A) (f : A -> sys B) : keeps_history p -> (forall a, keeps_history (f a)) -> keeps_history (p ≫= f).
Proof.
  intros Hp Hf g0 log k b cks k' Hh H Hs. apply sys_bind_Some in H as (a & cks1 & k1 & cks2 & H1 & H2 & ->).
  apply Forall_app in Hs as [Hs1 Hs2]. rewrite (assoc (++)). eapply Hf; [|exact H2|done]. by eapply Hp.
Qed.

Lemma keeps_fault {A} : keeps_history (A := A) fault.
Proof. intros g0 log k a cks k' Hh H. done. Qed.

(** A change that leaves cache, PIGA and security server alone. *)
Definition same_core (k k' : kernel) : Prop := k_ss k' = k_ss k /\ k_avc k' = k_avc k /\ k_piga k' = k_piga k.

Lemma history_same g0 log k k' : same_core k k' -> history g0 log k -> history g0 log k'.
Proof. intros (Es & Ea & Eg) Hh. by apply (history_extends g0 log k); [|rewrite Es|..]. Qed.

Lemma keeps_same {A} (p : sys A) : (forall k a cks k', p k = Some (a, cks, k') -> cks = [] /\ same_core k k') -> keeps_history p.
Proof. intros Hp g0 log k a cks k' Hh H _. apply Hp in H as [-> Hsame]. rewrite app_nil_r. by eapply history_same. Qed.

Lemma keeps_gets {A} (f : kernel -> A) : keeps_history (gets f).
Proof. apply keeps_same. by intros k a cks k' [= <- <- <-]. Qed.

Lemma keeps_try_get {A} (f : kernel -> option A) : keeps_history (try_get f).
Proof. apply keeps_same. intros k a cks k' (x & _ & H)%bind_Some. by injection H as <- <- <-. Qed.

Lemma keeps_modify f : (forall k, same_core k (f k)) -> keeps_history (modify f).
Proof. intros Hf. apply keeps_same. intros k a cks k' [= <- <- <-]. by split. Qed.

Lemma keeps_try_modify f : (forall k k', f k = Some k' -> same_core k k') -> keeps_history (try_modify f).
Proof. intros Hf. apply keeps_same. intros k a cks k' (x & H1 & H)%bind_Some. injection H as <- <- <-. by split; [|apply Hf]. Qed.

Lemma keeps_alloc : keeps_history alloc.
Proof. apply keeps_same. intros k a cks k'. unfold alloc. destruct (kalloc (k_mem k)) as [ok m]. by intros [= <- <- <-]. Qed.

Lemma keeps_ask {A} (f : ss -> kmem -> option (A * kmem)) : keeps_history (ask_sys f).
Proof. apply keeps_same. intros k a cks k' ([x m] & _ & H)%bind_Some. by injection H as <- <- <-. Qed.

Lemma keeps_hook {A} v (p : hook A) : keeps_history (hook_sys v p).
Proof.
  intros g0 log k a cks k' Hh ([[[b tr] cks1] k1] & H & E)%bind_Some Hs. injection E as <- <- <-. by eapply run_history.
Qed.

Lemma keeps_ss {A} (f : ss -> kmem -> option (A * ss * kmem)) :
  (forall s m a s' m', f s m = Some (a, s', m') -> extends s s') -> keeps_history (ss_sys f).
Proof.
  intros Hf g0 log k a cks k' Hh ([[b s] m] & H & E)%bind_Some _. injection E as <- <- <-. rewrite app_nil_r.
  by apply (history_extends g0 log k); [|eapply Hf|..].
Qed.

#[export] Hint Resolve keeps_ret keeps_bind keeps_fault keeps_gets keeps_try_get keeps_alloc keeps_ask keeps_hook : history.

(** Walks through a handler. *)
Ltac keep_step := first
  [ apply keeps_ret | apply keeps_fault | apply keeps_gets | apply keeps_try_get | apply keeps_alloc | apply keeps_ask | apply keeps_hook
  | solve [eauto with history]
  | apply keeps_bind; [|intros ?]
  | match goal with |- keeps_history (match ?x with _ => _ end) => destruct x end ].
Ltac keep := repeat keep_step.

Lemma keeps_read_number buf count ppos bad fmt : keeps_history (read_number buf count ppos bad fmt).
Proof. unfold read_number, copy_page, scan_number. keep. Qed.
#[export] Hint Resolve keeps_read_number : history.

Lemma keeps_has_security v cur perms : keeps_history (task_has_security v cur perms).
Proof. apply keeps_hook. Qed.
#[export] Hint Resolve keeps_has_security : history.

Lemma keeps_context_to_sid text : keeps_history (ss_sys (fun s m => ServicesSid.security_context_to_sid s text m)).
Proof. apply keeps_ss. intros s m [rc sid] s' m'. apply context_to_sid_extends. Qed.
Lemma keeps_genfs fstype path sclass : keeps_history (ss_sys (fun s m => security_genfs_sid s fstype path sclass m)).
Proof. apply keeps_ss. intros s m [rc sid] s' m'. apply genfs_extends. Qed.
Lemma keeps_compute_sid ssid tsid tclass sp name kern :
  keeps_history (ss_sys (fun s m => security_compute_sid s ssid tsid tclass sp name kern m)).
Proof. apply keeps_ss. intros s m [rc sid] s' m'. apply compute_sid_extends. Qed.
#[export] Hint Resolve keeps_context_to_sid keeps_genfs : history.

Lemma keeps_context_reply sid : keeps_history (context_reply sid).
Proof. unfold context_reply, failed. keep. Qed.
#[export] Hint Resolve keeps_context_reply : history.

Lemma keeps_two_contexts v cur perms buf f :
  (forall ssid tsid tclass, keeps_history (f ssid tsid tclass)) -> keeps_history (two_contexts v cur perms buf f).
Proof. intros Hf. unfold two_contexts, two_buffers, word_sid, failed. keep; apply Hf. Qed.

Lemma keeps_sid_reply ssid tsid tclass sp name kern :
  keeps_history (sid_reply (fun s m => security_compute_sid s ssid tsid tclass sp name kern m)).
Proof. unfold sid_reply, failed. keep. apply keeps_compute_sid. Qed.

(** [security_get_user_sids] asks the cache about SIDs it has just given out. *)
Lemma reachable_cached s fromsid l a m kept a' m' :
  avc_wf a -> cached_all (cached_ok s) a -> settled s fromsid -> (forall sid, sid ∈ l -> settled s sid) ->
  keep_reachable s fromsid l a m = Some (kept, a', m') -> avc_wf a' /\ cached_all (cached_ok s) a'.
Proof.
  revert a m kept. induction l as [|sid l IH]; cbn [keep_reachable]; intros a m kept Hw Hc Hf Hl H; [by injection H as <- <- <-|].
  apply bind_Some in H as ([[[rc avd] a1] m1] & H1 & H). apply bind_Some in H as ([[k2 a2] m2] & H2 & E). injection E as <- <- <-.
  apply noaudit_cached in H1 as (Hw1 & Hc1 & _); [|done|done|split; [done|apply Hl; left]].
  eapply IH; [done|done|done| |exact H2]. intros x Hx. apply Hl. by right.
Qed.

Lemma keeps_user_sids fromsid user k g0 log a cks k' :
  settled (k_ss k) fromsid -> history g0 log k -> user_sids fromsid user k = Some (a, cks, k') -> history g0 (log ++ cks) k'.
Proof.
  intros Hf Hh H. unfold user_sids in H. apply bind_Some in H as ([[[[rc sids] s] av] m] & H & E). injection E as <- <- <-.
  rewrite app_nil_r. pose proof Hh as [[Hw Hc Hs Hi] Hp Hl].
  assert (forall s', extends (k_ss k) s' -> history g0 log (set_k_avc (with_ss k s' m) (k_avc k))) as Hsame
    by (intros s' Hx; by apply (history_extends g0 log k)).
  unfold security_get_user_sids in H. rewrite Hi in H. cbn [negb] in H.
  destruct (sidtab_search _ _) as [fromcon|]; [|injection H as <- <- <- <- <-; by apply Hsame].
  apply bind_Some in H as (ou & _ & H). destruct ou as [u|]; [|injection H as <- <- <- <- <-; by apply Hsame].
  destruct (kalloc (k_mem k)) as [[] m1]; cbn [negb] in H; [|injection H as <- <- <- <- <-; by apply Hsame].
  apply bind_Some in H as ([[rc1 st] m2] & Hscan & H).
  apply (scan_roles_inv (ss_policydb (k_ss k)) u (k_ss k) fromcon) in Hscan as [V1 _ V3 V4 _ V6]; [|done|by apply scan_inv_start, so_wf].
  assert (extends (k_ss k) (us_ss st)) as Hx by (rewrite V1; split; try done; intros _; by rewrite V1 in V3, V4).
  destruct (nz rc1 || _); [injection H as <- <- <- <- <-; by apply Hsame|].
  destruct (kalloc m2) as [[] m3]; cbn [negb] in H; [|injection H as <- <- <- <- <-; by apply Hsame].
  apply bind_Some in H as ([[kept a2] m4] & Hr & E). injection E as <- <- <- <- <-.
  apply reachable_cached in Hr as [Hw2 Hc2]; [|done|by eapply cached_extends|eapply extends_settled; [done|apply Hs|done]|].
  - split; [split; [done|done|by eapply extends_ok|by rewrite <- Hi; apply Hx]|done|done].
  - intros sid Hsid. destruct (V6 sid Hsid) as (c & Hc' & _). right. by exists c.
Qed.

Lemma to_sid_known t ctx m sid t' m' :
  sidtab_wf t -> sidtab_context_to_sid t ctx m = Some (0, sid, t', m') -> is_Some (sidtab_abs t' !! sid).
Proof.
  intros Hw H. destruct (context_to_sid_spec t ctx m Hw) as (rc1 & sid1 & t1 & m1 & E & _ & Hr). rewrite H in E. injection E as <- <- <- <-.
  inv Hr.
  - match goal with H : search_hit _ _ _ |- _ => destruct H as (_ & c & Hc & _) end. exists c. by erewrite same_table_abs.
  - match goal with H : sidtab_abs t' = _ |- _ => rewrite H end. by rewrite lookup_insert_eq.
Qed.

(** A context that got a SID is in the table. *)
Lemma word_sid_settled con k sid cks k' : kernel_ok k -> word_sid con k = Some ((0, sid), cks, k') -> settled (k_ss k') sid.
Proof.
  intros [_ _ [Hw _] Hi] ([[[rc1 sid1] s] m] & H & E)%bind_Some. injection E as -> -> <- <-. right. cbn.
  unfold ServicesSid.security_context_to_sid, security_context_to_sid_core in H. rewrite Hi in H. cbn [negb] in H.
  destruct (kalloc (k_mem k)) as [[] m1]; cbn [negb] in H; [|done].
  apply bind_Some in H as ([[rc ctx] m2] & _ & H). rewrite andb_false_r in H. destruct (nz rc) eqn:Erc; [by injection H as -> _ _ _|].
  apply bind_Some in H as ([[[rc3 sid3] t] m4] & H & E). injection E as -> -> <- <-. by eapply to_sid_known.
Qed.

Lemma keeps_user_contexts sids length text : keeps_history (user_contexts sids length text).
Proof. revert length text. induction sids as [|sid sids IH]; intros length text; cbn [user_contexts]; unfold failed; keep; apply IH. Qed.

Lemma keeps_from_user con user f : (forall r, keeps_history (f r)) ->
  keeps_history ('(length, sid) ← word_sid con; if nz length then failed length else '(length, sids) ← user_sids sid user; f (length, sids)).
Proof.
  intros Hf g0 log k b cks k' Hh H Hs. apply sys_bind_Some in H as ([length sid] & cks1 & k1 & cks2 & H1 & H2 & ->).
  apply Forall_app in Hs as [Hs1 Hs2]. rewrite (assoc (++)).
  assert (history g0 (log ++ cks1) k1) as Hh1 by (eapply keeps_context_to_sid; [done|exact H1|done]).
  destruct (nz length) eqn:El; [by eapply keeps_ret|]. apply nz_false in El as ->.
  apply sys_bind_Some in H2 as ([l2 sids] & cks3 & k2 & cks4 & H2 & H3 & ->). apply Forall_app in Hs2 as [Hs2 Hs3].
  rewrite (assoc (++)). eapply Hf; [|exact H3|done]. eapply keeps_user_sids; [|done|exact H2].
  eapply word_sid_settled; [apply Hh|exact H1].
Qed.

Lemma keeps_write_user v cur buf : keeps_history (sel_write_user v cur buf).
Proof.
  unfold sel_write_user, two_buffers. apply keeps_bind; [keep|intros length]. destruct (nz length); [apply keeps_ret|].
  apply keeps_bind; [keep|intros ok]. destruct (negb ok); [apply keeps_ret|]. destruct (vsscanf _ _) as [[n l]|]; [|apply keeps_fault].
  repeat match goal with |- keeps_history (match ?x with _ => _ end) => first [apply keeps_ret | destruct x] end.
  all: try apply keeps_ret.
  apply (keeps_from_user _ _ (fun '(length, sids) => if nz length then failed length else
    let n := dec (Z.of_nat (List.length sids)) in user_contexts sids (strlen n + 1) (n ++ String "000" EmptyString)%string)).
  intros [length2 sids]. unfold failed. keep. apply keeps_user_contexts.
Qed.

(** ** Changes of policy and mode *)

Lemma reset_cached a seqno : avc_wf a -> avc_wf (avc_ss_reset a seqno).2 /\ forall P, cached_all P (avc_ss_reset a seqno).2.
Proof.
  intros Hwf. unfold avc_ss_reset, avc_latest_notif_update. destruct (avc_flush_spec a Hwf) as [Hf Hall].
  destruct (_ <? _); [|done]. split; [by destruct Hf; split|]. exact Hall.
Qed.

Lemma history_reset g0 log k k' seqno :
  history g0 log k -> k_avc k' = (avc_ss_reset (k_avc k) seqno).2 -> k_piga k' = k_piga k ->
  sids_ok (k_ss k') -> ss_initialized (k_ss k') = true -> history g0 log k'.
Proof.
  intros [[Hw _ _ _] Hp Hl] Ea Eg Hs Hi. destruct (reset_cached (k_avc k) seqno Hw) as [Hw' Hall].
  split; [split; rewrite ?Ea; auto|by rewrite Eg|done].
Qed.

Lemma notify_fields k msgtype data k' : selnl_notify k msgtype data = Some k' -> same_core k k' /\ k_fs k' = k_fs k.
Proof.
  unfold selnl_notify. intros (len & _ & H)%bind_Some. destruct (kalloc (k_mem k)) as [[] m]; cbn [negb] in H; [|by injection H as <-].
  apply bind_Some in H as (payload & _ & H). by injection H as <-.
Qed.

Lemma notify_same k msgtype data k' : selnl_notify k msgtype data = Some k' -> same_core k k'.
Proof. intros H. by apply notify_fields in H as [H _]. Qed.

Lemma announce_core seqno k u cks k' :
  announce seqno k = Some (u, cks, k') ->
  cks = [] /\ k_ss k' = k_ss k /\ k_avc k' = (avc_ss_reset (k_avc k) seqno).2 /\ k_piga k' = k_piga k.
Proof.
  intros (k1 & H & E)%bind_Some. injection E as <- <- <-. apply bind_Some in H as (k2 & H & E). injection E as <-.
  by apply notify_same in H as (E1 & E2 & E3).
Qed.

(** A policy file whose initial SIDs are numbered as they should be. *)
Definition good_isids (p : policydb) : Prop :=
  initial_sids_ok p /\ exists c, c ∈ isids p /\ oc_sid0 c = SECINITSID_UNLABELED.
Definition good_file (data : list ascii) : Prop :=
  forall m p fp m', policydb_read data m = Some (Done p fp m') -> good_isids p.

Lemma load_next_isids s data m rc s' seq m' :
  load_next s data m = Some (rc, s', Some seq, m') -> good_file data -> good_isids (ss_policydb s').
Proof.
  unfold load_next. intros ([newp0 fp' m1|rc1 m1] & Hrd & H)%bind_Some Hg; [|done]. specialize (Hg _ _ _ _ Hrd). clear Hrd.
  change (isids newp0) with (isids (set_pd_len newp0 (Z.of_nat (List.length data)))) in Hg.
  assert (good_isids (set_pd_len newp0 (Z.of_nat (List.length data)))) as Hg' by exact Hg. clear Hg.
  generalize dependent (set_pd_len newp0 (Z.of_nat (List.length data))). clear newp0. intros newp0 H Hg.
  destruct (policydb_load_isids newp0 _ m1) as [[rc1 [new|]] m2]; [|done]. destruct (nz rc1); [done|].
  apply bind_Some in H as ([[rc2 map] m3] & _ & H). destruct map as [[mapping size]|]; [|done].
  apply bind_Some in H as ([[rc3 newp] m4] & Hp & H). destruct (nz rc3); [done|]. apply preserve_bools_objects in Hp.
  apply bind_Some in H as ([[rc4 new2] m5] & _ & H). destruct (nz rc4); [done|].
  apply bind_Some in H as (s1 & Hs1 & H). unfold security_load_policycaps in Hs1. apply bind_Some in Hs1 as (np & _ & Hs1).
  apply bind_Some in Hs1 as (op & _ & Hs1). injection Hs1 as <-. injection H as <- <- _ _. cbn.
  unfold good_isids, initial_sids_ok, isids in *. by rewrite Hp.
Qed.

Lemma load_next_sids s data m rc s' seq m' :
  sidtab_wf (ss_sidtab s) -> good_file data -> load_next s data m = Some (rc, s', Some seq, m') ->
  sids_ok s' /\ ss_initialized s' = true.
Proof.
  intros Hw Hg H. destruct (load_next_isids _ _ _ _ _ _ _ H Hg) as (Hok & c & Hc & Eu). apply load_next_success in H as
    (newp0 & newp & new & new2 & m1 & m2 & m3 & m4 & m5 & Hp & El & Ec & _ & _ & _ & E1 & E2 & E3 & _).
  pose proof (preserve_bools_objects _ _ _ _ _ _ Hp) as Eo. rewrite E1 in Hok, Hc. unfold initial_sids_ok, isids in Hok, Hc. rewrite Eo in Hok, Hc.
  destruct (load_isids_spec newp0 _ _ _ Hok El) as (Hwn & Hnew & _).
  destruct (convert_sidtab_spec (set_ss_sidtab s (sidtab_shutdown (ss_sidtab s))) _ _ _ _ _ (shutdown_wf _ Hw) Hwn Ec) as (Hw2 & _ & Hini & _).
  split; [|done]. split; rewrite E2; [done|]. exists (context_copy (oc_context0 c)). rewrite <- Eu.
  apply Hini; [unfold dynamic; rewrite Eu; done|by apply Hnew].
Qed.

Lemma shutdown_extends s : extends s (set_ss_sidtab s (sidtab_shutdown (ss_sidtab s))).
Proof. split; try done. intros Hw. split; [by apply shutdown_wf|]. by intros i c. Qed.

Lemma keeps_load data : good_file data -> keeps_history (load_policy data).
Proof.
  intros Hg g0 log k a cks k' Hh ([[[rc s] seq] m] & H & E)%bind_Some _. pose proof (hi_kernel _ _ _ Hh) as [Hw Hc Hs Hi].
  rewrite load_initialized in H by done. destruct seq as [seqno|].
  - apply sys_bind_Some in E as (u & cks1 & k1 & cks2 & H1 & H2 & ->). injection H2 as <- <- <-.
    apply announce_core in H1 as (-> & E1 & E2 & E3). cbn [app]. rewrite app_nil_r.
    destruct (load_next_sids _ _ _ _ _ _ _ (so_wf _ Hs) Hg H) as [Hs' Hi']. apply (history_reset g0 log k _ seqno); rewrite ?E1; done.
  - injection E as <- <- <-. rewrite app_nil_r. apply (history_extends g0 log k); [done| |done|done]. cbn.
    destruct (load_next_failure _ _ _ _ _ _ H) as [-> | ->]; [done|apply shutdown_extends].
Qed.

Lemma keeps_set_bools values : keeps_history (set_bools values).
Proof.
  intros g0 log k a cks k' Hh ([[rc s] seq] & H & E)%bind_Some _. pose proof (hi_kernel _ _ _ Hh) as [Hw Hc Hs Hi].
  unfold security_set_bools in H. destruct (negb _).
  { injection H as <- <- <-. injection E as <- <- <-. rewrite app_nil_r. by apply (history_same g0 log k). }
  apply bind_Some in H as (p1 & _ & H). apply bind_Some in H as (p2 & _ & H). injection H as <- <- <-.
  apply sys_bind_Some in E as (u & cks1 & k1 & cks2 & H1 & H2 & ->). injection H2 as <- <- <-.
  apply announce_core in H1 as (-> & E1 & E2 & E3). cbn [app]. rewrite app_nil_r.
  apply (history_reset g0 log k _ (u32 (latest_granting (k_ss k) + 1))); rewrite ?E1; try done. by destruct Hs; split.
Qed.

(** The mode: the cache keeps decisions that were extended in permissive mode,
    so it is emptied when the policy is enforced again. *)
Lemma permissive_cached s a : cached_all (cached_ok s) a -> cached_all (cached_ok (set_enforcing_mode s false)) a.
Proof.
  apply cached_impl. intros e [(avd & Hc & Hd) Hs]. split; [|exact Hs]. exists avd. split; [exact Hc|].
  destruct Hd as [->|[_ Hg]]; [by left|right]. by split.
Qed.

Lemma keeps_set_mode {A} n (f : sys A) : keeps_history f ->
  keeps_history (_ ← modify (fun k => set_k_ss (set_k_fs k (set_fs_enforcing (k_fs k) n)) (set_enforcing_mode (k_ss k) (nz n)));
                 _ ← (if nz n then modify (fun k => reset_caches k 0) else mret tt); f).
Proof.
  intros Hf g0 log k b cks k' Hh H Hs. pose proof (hi_kernel _ _ _ Hh) as [Hw Hc Hk Hi].
  apply sys_bind_Some in H as (u & cks1 & k1 & cks2 & H1 & H & ->). injection H1 as <- <- <-.
  apply sys_bind_Some in H as (u & cks3 & k2 & cks4 & H2 & H & ->). cbn [app] in *.
  apply Forall_app in Hs as [_ Hs].
  assert (cks3 = [] /\ history g0 log k2) as [-> Hh2]; [|cbn [app]; by eapply Hf].
  destruct (nz n); injection H2 as <- <- <-; (split; [done|]).
  - apply (history_reset g0 log k _ 0); try done. by destruct Hk; split.
  - destruct Hh as [_ Hp Hl]. split; [|done|done]. split; [done|by apply permissive_cached|by destruct Hk; split|done].
Qed.

Lemma keeps_write_enforce v cur buf count ppos : keeps_history (sel_write_enforce v cur buf count ppos).
Proof.
  unfold sel_write_enforce. apply keeps_bind; [keep|intros [e|n]]; [apply keeps_ret|]. apply keeps_bind; [keep|intros old].
  destruct (negb _); [|apply keeps_ret]. apply keeps_bind; [keep|intros length]. destruct (nz length); [apply keeps_ret|].
  apply keeps_set_mode. apply keeps_bind; [|intros ?].
  - apply keeps_try_modify. intros k k'. apply notify_same.
  - keep. by apply keeps_modify.
Qed.

Lemma keeps_threshold n : keeps_history (modify (fun k => set_k_avc k (set_cache_threshold (k_avc k) n))).
Proof.
  intros g0 log k a cks k' [[Hw Hc Hk Hi] Hp Hl] [= <- <- <-] _. rewrite app_nil_r. split; [|done|done].
  split; [by destruct Hw; split|exact Hc|done|done].
Qed.

Lemma keeps_make_files names files : keeps_history (make_bool_files names files).
Proof. revert files. induction names as [|name names IH]; intros files; cbn [make_bool_files]; unfold make_bool_file; keep; apply IH. Qed.

Lemma drop_bools_same k k' : drop_bools k = Some k' -> same_core k k'.
Proof.
  unfold drop_bools. destruct (_ <=? _); [by intros [= <-]|]. intros (names & _ & H)%bind_Some. destruct (_ <=? _); [|done]. by injection H as <-.
Qed.

Lemma keeps_make_bools : keeps_history sel_make_bools.
Proof.
  unfold sel_make_bools. keep; first [by apply keeps_modify|apply keeps_make_files|idtac].
  apply keeps_try_modify. exact drop_bools_same.
Qed.

Lemma keeps_make_dir dentry : keeps_history (sel_make_dir dentry).
Proof. unfold sel_make_dir. keep. by apply keeps_modify. Qed.
#[export] Hint Resolve keeps_make_dir : history.

Lemma keeps_perm_files value dir i perms : keeps_history (make_perm_files value dir i perms).
Proof. revert i. induction perms as [|p perms IH]; intros i; cbn [make_perm_files]; keep; first [by apply keeps_modify|apply IH]. Qed.
#[export] Hint Resolve keeps_perm_files : history.

Lemma keeps_class_dirs i classes : keeps_history (make_class_dirs i classes).
Proof.
  revert i. induction classes as [|p classes IH]; intros i; cbn [make_class_dirs]; unfold sel_make_class_dir_entries, sel_make_perm_files; keep;
    first [by apply keeps_modify|apply IH].
Qed.

Lemma keeps_make_classes : keeps_history sel_make_classes.
Proof. unfold sel_make_classes. keep; first [by apply keeps_modify|apply keeps_class_dirs]. Qed.

Lemma keeps_make_policycap : keeps_history sel_make_policycap.
Proof.
  unfold sel_make_policycap. apply keeps_bind; [by apply keeps_modify|intros _]. generalize (Z.to_nat (POLICYDB_CAPABILITY_MAX + 1)) as n, 0.
  induction n as [|n IH]; intros iter; cbn [make_policycap_files]; keep; first [by apply keeps_modify|apply IH].
Qed.
#[export] Hint Resolve keeps_make_classes keeps_make_policycap : history.

(** A policy is loaded: SELinux cannot be disabled any more. *)
Lemma disable_refused k : ss_initialized (k_ss k) = true -> selinux_disable k = Some (- EINVAL, [], k).
Proof. intros E. unfold selinux_disable, gets, mbind, sys_bind. cbn. by rewrite E. Qed.

Lemma keeps_disable : keeps_history selinux_disable.
Proof.
  intros g0 log k a cks k' Hh H _. rewrite disable_refused in H by apply (hi_kernel _ _ _ Hh). injection H as <- <- <-. by rewrite app_nil_r.
Qed.
#[export] Hint Resolve keeps_disable : history.

#[export] Hint Resolve keeps_make_bools keeps_threshold keeps_set_bools keeps_write_enforce keeps_write_user : history.

Lemma keeps_write_load v cur data count ppos :
  (forall d, data = Some d -> good_file d) -> keeps_history (sel_write_load v cur data count ppos).
Proof. intros Hg. unfold sel_write_load. keep. apply keeps_load. by apply Hg. Qed.

Lemma keeps_transaction v cur ino data size : keeps_history (selinux_transaction_write v cur ino data size).
Proof.
  unfold selinux_transaction_write. destruct (write_op v cur ino) as [op|] eqn:E; [|apply keeps_ret].
  destruct data as [e|data]; [apply keeps_ret|]. apply keeps_bind; [|intros [rv text]; apply keeps_ret].
  unfold write_op in E. repeat case_match; simplify_eq.
  - unfold sel_write_access. apply keeps_two_contexts. intros. keep.
  - apply keeps_two_contexts. intros. apply keeps_sid_reply.
  - apply keeps_two_contexts. intros. apply keeps_sid_reply.
  - keep.
  - apply keeps_two_contexts. intros. apply keeps_sid_reply.
  - unfold sel_write_context, failed. keep.
Qed.

(** ** Requests of user space *)

Inductive request :=
| WriteEnforce (buf : option string) (count ppos : Z)
| ReadEnforce (count ppos : Z)
| ReadUnknown (reject : bool) (count ppos : Z)
| ReadMls (count ppos : Z)
| ReadCheckreqprot (count ppos : Z)
| WriteCheckreqprot (buf : option string) (count ppos : Z)
| ReadThreshold (count ppos : Z)
| WriteThreshold (buf : option string) (count ppos : Z)
| OpenPolicy
| ReleasePolicy
| ReadPolicy (plm : string) (count ppos : Z)
| WriteLoad (data : option (list ascii)) (count ppos : Z)
| ReadBool (index : Z) (name : string) (count ppos : Z)
| WriteBool (index : Z) (name : string) (buf : option string) (count ppos : Z)
| CommitBools (buf : option string) (count ppos : Z)
| Transaction (ino : Z) (data : Z + string) (size : Z)
| StatusPage
| ReadPolicyvers (count ppos : Z)
| ReadInitcon (ino count ppos : Z)
| ReadClass (ino count ppos : Z)
| ReadPerm (ino count ppos : Z)
| ReadPolicycap (ino count ppos : Z)
| WriteDisable (buf : option string) (count ppos : Z).

(** The return value of the handler. *)
Definition serve (v : env) (cur : task) (r : request) : sys Z :=
  match r with
  | WriteEnforce buf count ppos => sel_write_enforce v cur buf count ppos
  | ReadEnforce count ppos => fst <$> sel_read_enforce count ppos
  | ReadUnknown reject count ppos => fst <$> sel_read_handle_unknown reject count ppos
  | ReadMls count ppos => fst <$> sel_read_mls count ppos
  | ReadCheckreqprot count ppos => fst <$> sel_read_checkreqprot count ppos
  | WriteCheckreqprot buf count ppos => sel_write_checkreqprot v cur buf count ppos
  | ReadThreshold count ppos => fst <$> sel_read_avc_cache_threshold count ppos
  | WriteThreshold buf count ppos => sel_write_avc_cache_threshold v cur buf count ppos
  | OpenPolicy => fst <$> sel_open_policy v cur
  | ReleasePolicy => sel_release_policy
  | ReadPolicy plm count ppos => fst <$> sel_read_policy v cur plm count ppos
  | WriteLoad data count ppos => sel_write_load v cur data count ppos
  | ReadBool index name count ppos => fst <$> sel_read_bool index name count ppos
  | WriteBool index name buf count ppos => sel_write_bool v cur index name buf count ppos
  | CommitBools buf count ppos => sel_commit_bools_write v cur buf count ppos
  | Transaction ino data size => fst <$> selinux_transaction_write v cur ino data size
  | StatusPage => fun k => let '(page, k) := selinux_kernel_status_page k in
                           Some (match page with Some _ => 0 | None => - ENOMEM end, [], k)
  | ReadPolicyvers count ppos => mret (sel_read_policyvers count ppos).1
  | ReadInitcon ino count ppos => fst <$> sel_read_initcon ino count ppos
  | ReadClass ino count ppos => fst <$> sel_read_class ino count ppos
  | ReadPerm ino count ppos => fst <$> sel_read_perm ino count ppos
  | ReadPolicycap ino count ppos => fst <$> sel_read_policycap ino count ppos
  | WriteDisable buf count ppos => sel_write_disable buf count ppos
  end.

(** Every policy that is loaded numbers its initial SIDs as it should. *)
Definition request_ok (r : request) : Prop :=
  match r with WriteLoad (Some data) _ _ => good_file data | _ => True end.

Lemma keeps_fmap {A B} (f : A -> B) (p : sys A) : keeps_history p -> keeps_history (f <$> p).
Proof. intros Hp. apply keeps_bind; [done|]. intros a. apply keeps_ret. Qed.

Lemma keeps_serve v cur r : request_ok r -> keeps_history (serve v cur r).
Proof.
  intros Hr. destruct r; cbn [serve]; try apply keeps_fmap.
  - keep.
  - keep.
  - keep.
  - keep.
  - keep.
  - unfold sel_write_checkreqprot. keep. by apply keeps_modify.
  - keep.
  - unfold sel_write_avc_cache_threshold. keep.
  - unfold sel_open_policy. keep. by apply keeps_modify.
  - unfold sel_release_policy. keep. by apply keeps_modify.
  - unfold sel_read_policy. keep.
  - apply keeps_write_load. intros d ->. exact Hr.
  - unfold sel_read_bool, bool_at. keep.
  - unfold sel_write_bool, bool_at. keep. apply keeps_try_modify. intros k k' H.
    apply bind_Some in H as (l & _ & H). apply bind_Some in H as (x & _ & H). by injection H as <-.
  - unfold sel_commit_bools_write. keep.
  - apply keeps_transaction.
  - apply keeps_same. intros k a cks k'. unfold selinux_kernel_status_page. destruct (k_status k) as [t|]; [by intros [= <- <- <-]|].
    destruct (kalloc (k_mem k)) as [[] m]; by intros [= <- <- <-].
  - keep.
  - unfold sel_read_initcon. keep.
  - unfold sel_read_class. keep.
  - unfold sel_read_perm. keep.
  - unfold sel_read_policycap. keep.
  - unfold sel_write_disable. keep.
Qed.

(** ** The system *)

(** Something happens: a hook runs, user space uses a file of selinuxfs, memory
    gets scarce, network devices come and go, packets are marked and policies
    of IPsec are labelled. *)
Inductive sys_step (k : kernel) : list check -> kernel -> Prop :=
| step_hook A v (p : hook A) a tr cks k' : run v p k = Some (a, tr, cks, k') -> sys_step k cks k'
| step_request v cur r a cks k' : request_ok r -> serve v cur r k = Some (a, cks, k') -> sys_step k cks k'
| step_memory m : sys_step k [] (set_k_mem k m)
| step_netdev init event ifindex t :
    sel_netif_netdev_notifier_handler (nt_netifs (k_net k)) init event ifindex = Some t ->
    sys_step k [] (set_k_net k (mk_net_tables (nt_ports (k_net k)) (nt_nodes (k_net k)) t))
| step_counters secmark xfrm :
    sys_step k [] (mk_kernel (k_ss k) (k_avc k) (k_piga k) (k_net k) secmark xfrm (k_fs k) (k_status k) (k_sent k) (k_mem k)).

Inductive reach (k0 : kernel) : list check -> kernel -> Prop :=
| reach_start : reach k0 [] k0
| reach_step log k cks k' : reach k0 log k -> sys_step k cks k' -> reach k0 (log ++ cks) k'.

Lemma step_history g0 log k cks k' : history g0 log k -> sys_step k cks k' -> Forall settled_check cks -> history g0 (log ++ cks) k'.
Proof.
  intros Hh Hst Hs. destruct Hst as [A v p a tr cks k' H|v cur r a cks k' Hr H|m|init event ifindex t H|secmark xfrm].
  - by eapply run_history.
  - by eapply keeps_serve.
  - rewrite app_nil_r. by apply (history_same g0 log k).
  - rewrite app_nil_r. by apply (history_same g0 log k).
  - rewrite app_nil_r. by apply (history_same g0 log k).
Qed.

(** A start: a policy is loaded, the cache is coherent, and if PIGA is on, its
    sequences are well-formed and at their beginning. *)
Record system_start (k : kernel) : Prop := mk_system_start {
  ss_kernel : kernel_ok k;
  ss_piga : piga_status (k_piga k) = true ->
    piga_wf (k_piga k) /\ Forall (fun s => sq_current_position s = 0) (pg_seq (k_piga k))
}.

Lemma start_history k : system_start k -> history (k_piga k) [] k.
Proof.
  intros [Hk Hp]. split; [done| |done]. destruct (piga_status (k_piga k)) eqn:E; [|done]. destruct (Hp eq_refl). by apply monitors_init.
Qed.

Lemma reach_history k0 log k : system_start k0 -> reach k0 log k -> Forall settled_check log -> history (k_piga k0) log k.
Proof.
  intros H0 Hr. induction Hr as [|log k cks k' _ IH Hst]; intros Hs; [by apply start_history|].
  apply Forall_app in Hs as [Hs1 Hs2]. by eapply step_history; [apply IH| |].
Qed.

(** ** Who may change the policy *)

Definition asks_security (s : ss) (cur : task) (perms : Z) (c : check) : Prop :=
  ck_ss c = s /\ ck_ssid c = task_sid cur /\ ck_tsid c = SECINITSID_SECURITY /\ ck_tclass c = SECCLASS_SECURITY /\ ck_requested c = perms.

Lemma has_security_check v cur perms k rc cks k' :
  task_has_security v cur perms k = Some (rc, cks, k') ->
  exists c, cks = [c] /\ asks_security (k_ss k) cur perms c /\ ck_rc c = rc /\ k_ss k' = k_ss k.
Proof.
  intros ([[[a tr] cks1] k1] & H & E)%bind_Some. injection E as <- <- <-. cbn [run HookBase.avc_has_perm HookBase.avc_has_perm_flags] in H.
  apply bind_Some in H as ([[an cks2] k2] & H & E). cbn in E. injection E as <- <- <- <-. cbn [answer_call] in H.
  apply bind_Some in H as ([[rc ck] k3] & H & E). injection E as <- <- <-. unfold has_perm in H.
  apply bind_Some in H as ([[[rc1 avd] a0] m0] & _ & H). apply bind_Some in H as ([[[[rc2 rec] av] g] m] & _ & E). injection E as <- <- <-.
  by eexists.
Qed.

(** A handler that checks first and then does the work. *)
Lemma guarded_change {v cur perms} {f : sys Z} {k a cks k'} :
  (length ← task_has_security v cur perms; if nz length then mret length else f) k = Some (a, cks, k') ->
  k_ss k' = k_ss k \/ exists c, c ∈ cks /\ asks_security (k_ss k) cur perms c /\ ck_rc c = 0.
Proof.
  intros (rc & cks1 & k1 & cks2 & H1 & H2 & ->)%sys_bind_Some. apply has_security_check in H1 as (c & -> & Hc & Erc & Ek).
  destruct (nz rc) eqn:E; [left; by injection H2 as <- <- <-|]. apply nz_false in E as ->. right. exists c. by split; [left|].
Qed.

Lemma read_number_value n k r cks k' :
  - 2 ^ 31 <= n < 2 ^ 31 -> read_number (Some (dec_int n)) (strlen (dec_int n)) 0 EINVAL "%d" k = Some (r, cks, k') ->
  (exists e, r = inl e /\ e < 0) \/ r = inr n.
Proof.
  intros Hn. unfold read_number, copy_page. destruct (_ <=? _); [intros [= <- _ _]; left; by eexists|]. change (negb (0 =? 0)) with false. cbv iota.
  intros (r' & c3 & k3 & c4 & H1 & H2 & ->)%sys_bind_Some. apply sys_bind_Some in H1 as (ok & c5 & k5 & c6 & H1 & H3 & ->).
  destruct (negb ok); injection H3 as <- _ _; [injection H2 as <- _ _; left; by eexists|].
  unfold scan_number in H2. destruct (dec_int_text n) as [Et _]. rewrite Et, <- (string_app_nil (dec_int n)), sscanf_printed in H2 by done.
  right. by injection H2 as <- _ _.
Qed.

Lemma set_mode_value n count k a cks k' :
  (_ ← modify (fun k => set_k_ss (set_k_fs k (set_fs_enforcing (k_fs k) n)) (set_enforcing_mode (k_ss k) (nz n)));
   _ ← (if nz n then modify (fun k => reset_caches k 0) else mret tt);
   _ ← try_modify (fun k => selnl_notify_setenforce k n);
   _ ← modify (fun k => selinux_status_update_setenforce k n);
   mret count : sys Z) k = Some (a, cks, k') -> fs_enforcing (k_fs k') = n.
Proof.
  intros (u & c1 & k1 & c2 & [= <- <- <-] & H & ->)%sys_bind_Some. apply sys_bind_Some in H as (u & c3 & k2 & c4 & H2 & H & ->).
  assert (fs_enforcing (k_fs k2) = n) as <- by (destruct (nz n); by injection H2 as <- <- <-).
  apply sys_bind_Some in H as (u' & c5 & k3 & c6 & (k4 & H3 & [= <- <- <-])%bind_Some & H & ->).
  apply sys_bind_Some in H as (u'' & c7 & k5 & c8 & [= <- <- <-] & [= <- <- <-] & ->). by apply notify_fields in H3 as [_ <-].
Qed.

(** A number that is written to enforce, with the permission, is the mode
    afterwards and is what is read. *)
Theorem enforce_roundtrip v cur n k cks k' :
  - 2 ^ 31 <= n < 2 ^ 31 -> Forall (fun c => ck_rc c = 0) cks ->
  sel_write_enforce v cur (Some (dec_int n)) (strlen (dec_int n)) 0 k = Some (strlen (dec_int n), cks, k') ->
  fs_enforcing (k_fs k') = n /\ sel_read_enforce (strlen (dec_int n)) 0 k' = Some ((strlen (dec_int n), dec_int n), [], k').
Proof.
  intros Hn Hg H. destruct (dec_int_text n) as [Et Hne]. assert (0 < strlen (dec_int n)) as Hpos by (destruct (dec_int n); [done|unfold strlen; cbn; lia]).
  assert (fs_enforcing (k_fs k') = n) as E; [|split; [done|]; unfold sel_read_enforce, gets; by rewrite E, read_whole].
  apply sys_bind_Some in H as (r & c1 & k1 & c2 & H1 & H & ->). apply read_number_value in H1; [|done].
  destruct H1 as [(e & -> & He)| ->]; [injection H as E _ _; lia|].
  apply sys_bind_Some in H as (old & c7 & k7 & c8 & [= <- <- <-] & H & ->).
  destruct (Z.eqb_spec n (fs_enforcing (k_fs k1))) as [->|]; cbn [negb] in H; [by injection H as <- <-|].
  apply sys_bind_Some in H as (rc & c9 & k9 & c10 & H2 & H & ->). apply has_security_check in H2 as (c & -> & _ & Erc & _).
  rewrite !Forall_app in Hg. destruct Hg as (_ & _ & [Hg _]%Forall_cons & _). rewrite <- Erc, Hg in H. cbn [nz] in H.
  by apply set_mode_value in H.
Qed.

(** Handlers that change nothing but which SIDs are known. *)
Definition inert {A} (p : sys A) : Prop :=
  forall k a cks k', sidtab_wf (ss_sidtab (k_ss k)) -> p k = Some (a, cks, k') -> extends (k_ss k) (k_ss k').

Lemma inert_ret {A} (a : A) : inert (mret a).
Proof. by intros k a' cks k' _ [= <- <- <-]. Qed.
Lemma inert_fault {A} : inert (A := A) fault.
Proof. by intros k a cks k' _ H. Qed.
Lemma inert_gets {A} (f : kernel -> A) : inert (gets f).
Proof. by intros k a cks k' _ [= <- <- <-]. Qed.
Lemma inert_try_get {A} (f : kernel -> option A) : inert (try_get f).
Proof. intros k a cks k' _ (x & _ & H)%bind_Some. by injection H as <- <- <-. Qed.
Lemma inert_alloc : inert alloc.
Proof. intros k a cks k' _. unfold alloc. destruct (kalloc (k_mem k)) as [ok m]. by intros [= <- <- <-]. Qed.
Lemma inert_ask {A} (f : ss -> kmem -> option (A * kmem)) : inert (ask_sys f).
Proof. intros k a cks k' _ ([x m] & _ & H)%bind_Some. by injection H as <- <- <-. Qed.
Lemma inert_modify f : (forall k, k_ss (f k) = k_ss k) -> inert (modify f).
Proof. intros Hf k a cks k' _ [= <- <- <-]. by rewrite Hf. Qed.
Lemma inert_ss {A} (f : ss -> kmem -> option (A * ss * kmem)) :
  (forall s m a s' m', f s m = Some (a, s', m') -> extends s s') -> inert (ss_sys f).
Proof. intros Hf k a cks k' _ ([[b s] m] & H & E)%bind_Some. injection E as <- <- <-. by eapply Hf. Qed.

Lemma inert_bind {A B} (p : sys A) (f : A -> sys B) : inert p -> (forall a, inert (f a)) -> inert (p ≫= f).
Proof.
  intros Hp Hf k b cks k' Hw (a & cks1 & k1 & cks2 & H1 & H2 & ->)%sys_bind_Some. pose proof (Hp _ _ _ _ Hw H1) as Hx.
  etrans; [exact Hx|]. eapply Hf; [by apply Hx|exact H2].
Qed.

Lemma inert_security v cur perms : inert (task_has_security v cur perms).
Proof. intros k a cks k' _ (c & _ & _ & _ & ->)%has_security_check. done. Qed.

Create HintDb inert.
#[export] Hint Resolve inert_ret inert_fault inert_gets inert_try_get inert_alloc inert_ask inert_security : inert.

Ltac inert_step := first
  [ solve [eauto with inert]
  | apply inert_bind; [|intros ?]
  | match goal with |- inert (match ?x with _ => _ end) => destruct x end ].
Ltac inert := repeat inert_step.

Lemma inert_disable : inert selinux_disable.
Proof. unfold selinux_disable. inert. by apply inert_modify. Qed.
#[export] Hint Resolve inert_disable : inert.

Lemma inert_read_number buf count ppos bad fmt : inert (read_number buf count ppos bad fmt).
Proof. unfold read_number, copy_page, scan_number. inert. Qed.
Lemma inert_context_to_sid text : inert (ss_sys (fun s m => ServicesSid.security_context_to_sid s text m)).
Proof. apply inert_ss. intros s m [rc sid] s' m'. apply context_to_sid_extends. Qed.
Lemma inert_genfs fstype path sclass : inert (ss_sys (fun s m => security_genfs_sid s fstype path sclass m)).
Proof. apply inert_ss. intros s m [rc sid] s' m'. apply genfs_extends. Qed.
Lemma inert_context_reply sid : inert (context_reply sid).
Proof. unfold context_reply, failed. inert. Qed.
#[export] Hint Resolve inert_read_number inert_context_to_sid inert_genfs inert_context_reply : inert.

Lemma inert_sid_reply ssid tsid tclass sp name kern :
  inert (sid_reply (fun s m => security_compute_sid s ssid tsid tclass sp name kern m)).
Proof. unfold sid_reply, failed. inert. apply inert_ss. intros s m [rc sid] s' m'. apply compute_sid_extends. Qed.
Lemma inert_two_contexts v cur perms buf f :
  (forall ssid tsid tclass, inert (f ssid tsid tclass)) -> inert (two_contexts v cur perms buf f).
Proof. intros Hf. unfold two_contexts, two_buffers, word_sid, failed. inert; apply Hf. Qed.

Lemma inert_user_sids fromsid user : inert (user_sids fromsid user).
Proof.
  intros k a cks k' Hw ([[[[rc sids] s] av] m] & H & E)%bind_Some. injection E as <- <- <-. cbn.
  unfold security_get_user_sids in H. destruct (negb _); [by injection H as <- <- <- <- <-|].
  destruct (sidtab_search _ _) as [fromcon|]; [|by injection H as <- <- <- <- <-].
  apply bind_Some in H as (ou & _ & H). destruct ou as [u|]; [|by injection H as <- <- <- <- <-].
  destruct (kalloc (k_mem k)) as [[] m1]; cbn [negb] in H; [|by injection H as <- <- <- <- <-].
  apply bind_Some in H as ([[rc1 st] m2] & Hscan & H).
  apply (scan_roles_inv (ss_policydb (k_ss k)) u (k_ss k) fromcon) in Hscan as [V1 _ V3 V4 _ _]; [|done|by apply scan_inv_start].
  assert (extends (k_ss k) (us_ss st)) as Hx by (rewrite V1; split; try done; intros _; by rewrite V1 in V3, V4).
  destruct (nz rc1 || _); [by injection H as <- <- <- <- <-|].
  destruct (kalloc m2) as [[] m3]; cbn [negb] in H; [|by injection H as <- <- <- <- <-].
  apply bind_Some in H as ([[kept a2] m4] & _ & E). by injection E as <- <- <- <- <-.
Qed.

Lemma inert_user_contexts sids length text : inert (user_contexts sids length text).
Proof. revert length text. induction sids as [|sid sids IH]; intros length text; cbn [user_contexts]; unfold failed; inert; apply IH. Qed.
#[export] Hint Resolve inert_user_sids inert_user_contexts : inert.

Lemma inert_transaction v cur ino data size : inert (selinux_transaction_write v cur ino data size).
Proof.
  unfold selinux_transaction_write. destruct (write_op v cur ino) as [op|] eqn:E; [|apply inert_ret].
  destruct data as [e|data]; [apply inert_ret|]. apply inert_bind; [|intros [rv text]; apply inert_ret].
  unfold write_op in E. repeat case_match; simplify_eq.
  - unfold sel_write_access. apply inert_two_contexts. intros. inert.
  - apply inert_two_contexts. intros. apply inert_sid_reply.
  - apply inert_two_contexts. intros. apply inert_sid_reply.
  - unfold sel_write_user, two_buffers, word_sid, failed. inert.
  - apply inert_two_contexts. intros. apply inert_sid_reply.
  - unfold sel_write_context, failed. inert.
Qed.

(** The requests that may change policy or mode, and what they need. *)
Definition change_permission (r : request) : option Z :=
  match r with
  | WriteEnforce _ _ _ => Some SECURITY__SETENFORCE
  | WriteLoad _ _ _ => Some SECURITY__LOAD_POLICY
  | CommitBools _ _ _ => Some SECURITY__SETBOOL
  | _ => None
  end.

Definition granted_change (k : kernel) (cur : task) (perms : Z) (cks : list check) : Prop :=
  exists c, c ∈ cks /\ asks_security (k_ss k) cur perms c /\ ck_rc c = 0.

Lemma read_number_ss buf count ppos bad fmt k a cks k' :
  read_number buf count ppos bad fmt k = Some (a, cks, k') -> k_ss k' = k_ss k.
Proof.
  unfold read_number. destruct (_ <=? _); [by intros [= <- <- <-]|]. intros (r & cks1 & k1 & cks2 & H1 & H2 & ->)%sys_bind_Some.
  assert (k_ss k1 = k_ss k) as <-.
  { unfold copy_page in H1. destruct (negb _); [by injection H1 as <- <- <-|].
    apply sys_bind_Some in H1 as (ok & cks3 & k2 & cks4 & H3 & H4 & ->). unfold alloc in H3. destruct (kalloc (k_mem k)) as [ok' m].
    injection H3 as <- <- <-. destruct (negb ok'); by injection H4 as <- <- <-. }
  destruct r as [e|page]; [by injection H2 as <- <- <-|]. unfold scan_number in H2.
  destruct (vsscanf page fmt) as [[n l]|]; [|done]. by repeat case_match; injection H2 as <- <- <-.
Qed.

Lemma enforce_change v cur buf count ppos k a cks k' :
  sel_write_enforce v cur buf count ppos k = Some (a, cks, k') -> k_ss k' = k_ss k \/ granted_change k cur SECURITY__SETENFORCE cks.
Proof.
  intros (r & cks1 & k1 & cks2 & H1 & H2 & ->)%sys_bind_Some.
  apply read_number_ss in H1 as Ek.
  destruct r as [e|n]; [left; by injection H2 as <- <- <-|].
  apply sys_bind_Some in H2 as (old & cks3 & k2 & cks4 & [= <- <- <-] & H2 & ->).
  destruct (negb _); [|left; by injection H2 as <- <- <-].
  destruct (guarded_change H2) as [E|(c & Hc & Hs & Hr)]; [left; by rewrite E|]. right. exists c. rewrite Ek in Hs.
  split; [|done]. rewrite !elem_of_app. auto.
Qed.

Lemma serve_change v cur r k a cks k' :
  sidtab_wf (ss_sidtab (k_ss k)) -> serve v cur r k = Some (a, cks, k') ->
  extends (k_ss k) (k_ss k') \/ exists perms, change_permission r = Some perms /\ granted_change k cur perms cks.
Proof.
  intros Hw H.
  assert (inert (serve v cur r) \/ exists perms, change_permission r = Some perms /\
    (k_ss k' = k_ss k \/ granted_change k cur perms cks)) as [Hi|(perms & Hp & [E|Hg])].
  - destruct r; cbn [serve change_permission] in *;
      try (left; unfold fmap, sys_fmap, sel_write_checkreqprot, sel_write_avc_cache_threshold, sel_open_policy, sel_release_policy,
        sel_read_policy, sel_read_bool, sel_write_bool, bool_at, sel_read_initcon, sel_read_class, sel_read_perm, sel_read_policycap,
        sel_write_disable; inert; first [by apply inert_modify|apply inert_transaction]).
    + right. eexists. split; [done|]. by eapply enforce_change.
    + right. eexists. split; [done|]. by eapply guarded_change.
    + left. unfold sel_write_bool, bool_at. inert. intros k1 b cks1 k1' _ (k2 & H2 & [= <- <- <-])%bind_Some.
      apply bind_Some in H2 as (l & _ & H2). apply bind_Some in H2 as (x & _ & H2). by injection H2 as <-.
    + right. eexists. split; [done|]. by eapply guarded_change.
    + left. intros k1 a1 cks1 k1' _. unfold selinux_kernel_status_page. destruct (k_status k1) as [t|]; [by intros [= <- <- <-]|].
      destruct (kalloc (k_mem k1)) as [[] m]; by intros [= <- <- <-].
  - left. by eapply Hi.
  - left. by rewrite E.
  - right. by exists perms.
Qed.

(** No hook changes the policy. *)
Lemma answer_extends v k c an cks k' : answer_call v k c = Some (an, cks, k') -> extends (k_ss k) (k_ss k').
Proof.
  intros H. destruct c; cbn [answer_call] in H;
    repeat match goal with
      | E : (_ ≫= _) = Some _ |- _ => apply bind_Some in E; let x := fresh "x" in destruct E as (x & ? & E);
          repeat match type of x with (_ * _)%type => let y := fresh "y" in destruct x as [x y] end
      | E : (let '(_, _) := ?p in _) = Some _ |- _ => destruct p
      end;
    injection H as <- <- <-; cbn; try (first [done | by eauto with extends]).
  - unfold has_perm in *. repeat (match goal with E : (_ ≫= _) = Some _ |- _ => apply bind_Some in E as ([??] & _ & E); repeat case_match; simplify_eq end); done.
  - unfold has_perm_noaudit in *. repeat (match goal with E : (_ ≫= _) = Some _ |- _ => apply bind_Some in E as ([??] & _ & E); repeat case_match; simplify_eq end); done.
Qed.

Lemma run_extends {A} v (p : hook A) k a tr cks k' : run v p k = Some (a, tr, cks, k') -> extends (k_ss k) (k_ss k').
Proof.
  revert k tr cks. induction p as [b| |c f IH]; cbn [run]; intros k tr cks H; [by injection H as <- <- <- <-|done|].
  apply bind_Some in H as ([[an cks1] k1] & Ha & H). apply bind_Some in H as ([[[a2 tr2] cks2] k2] & H & E).
  injection E as <- <- <- <-. etrans; [by eapply answer_extends|by eapply IH].
Qed.

(** ** Properties *)

(** C3: access is controlled.  From a start, let hooks run and user space use
    selinuxfs in any order: load policies, set booleans, change the mode, ask
    questions; each is one step, and the sequences of PIGA are not replaced.
    Every access between SIDs that have been given out and that was granted on
    the way was allowed by the policy that was in force at that moment, or not
    enforced for it, although most answers came from the cache; and if PIGA is
    on, the access did not complete a forbidden sequence of the accesses PIGA
    was asked about before. *)
Theorem access_controlled k0 log k i c :
  system_start k0 -> reach k0 log k -> Forall settled_check log -> log !! i = Some c -> ck_rc c = 0 ->
  allowed_by (ck_ss c) (ck_ssid c) (ck_tsid c) (ck_tclass c) (ck_requested c) /\
  (piga_status (k_piga k0) = true -> ck_monitored c = true -> considered (k_piga k0) (event_of c) ->
   ~ completed (k_piga k0) (piga_events (take i log)) (event_of c)).
Proof. intros H0 Hr Hs Hi Hc. by apply (hi_checks _ _ _ (reach_history _ _ _ H0 Hr Hs) i c Hi). Qed.

(** C4: the policy protects itself.  Whatever happens to the system at any
    time, the rules, the mode and the known SIDs stay (new SIDs apart), or a
    task has written to selinuxfs and the policy in force before allowed that
    task the permission for this change, [load_policy], [setbool] or
    [setenforce], or was not enforced for it.  Policies that are loaded number
    their initial SIDs as they should, and checks are about SIDs that have been
    given out. *)
Theorem policy_change_authorized k0 log k cks k' :
  system_start k0 -> reach k0 log k -> sys_step k cks k' -> Forall settled_check (log ++ cks) ->
  extends (k_ss k) (k_ss k') \/
  exists v cur r a perms, serve v cur r k = Some (a, cks, k') /\ change_permission r = Some perms /\
    allowed_by (k_ss k) (task_sid cur) SECINITSID_SECURITY SECCLASS_SECURITY perms.
Proof.
  intros H0 Hr Hst [Hs1 Hs2]%Forall_app. pose proof (reach_history _ _ _ H0 Hr Hs1) as Hh.
  pose proof (step_history _ _ _ _ _ Hh Hst Hs2) as Hh'. destruct Hst as [A v p a tr cks k' H|v cur r a cks k' Hq H|m|init event ifindex t H|secmark xfrm]; try by left.
  { left. by eapply run_extends. }
  pose proof (hi_kernel _ _ _ Hh) as [_ _ [Hw _] _].
  destruct (serve_change _ _ _ _ _ _ _ Hw H) as [Hx|(perms & Hp & c & Hc & (E1 & E2 & E3 & E4 & E5) & Erc)]; [by left|right].
  exists v, cur, r, a, perms. split; [done|]. split; [done|]. apply list_elem_of_lookup in Hc as [i Hi].
  destruct (hi_checks _ _ _ Hh' (List.length log + i)%nat c) as [Ha _]; [by rewrite lookup_app_r, Nat.add_comm, Nat.add_sub by lia|done|].
  by rewrite E1, E2, E3, E4, E5 in Ha.
Qed.

(** ** A run of the system *)

Definition start_sids : sidtab :=
  let t := (sidtab_insert empty_sids 1 init_ctx []).1.2 in
  let t := (sidtab_insert t SECINITSID_SECURITY user_ctx []).1.2 in
  (sidtab_insert t SECINITSID_UNLABELED etc_ctx []).1.2.

(** Not enforcing yet, PIGA on. *)
Definition start_kernel : kernel :=
  mk_kernel (mk_ss sample start_sids true 1 [] 0 false false false) cache_empty piga_sample
    (mk_net_tables sel_netport_init sel_netnode_init sel_netif_init) 0 0 (mk_selfs 0 1 0 None None [] false [] 0 [] false) None [] [].

Definition init_task : task := let t := mk_task_security 1 1 0 0 0 0 in mk_task t t.
Definition quiet : env := mk_env (fun _ => None) (fun _ => mk_answer 0 None None None None).

Definition after {A} (k : kernel) (r : option (A * list check * kernel)) : list check * kernel :=
  match r with Some (_, cks, k') => (cks, k') | None => ([], k) end.
(** Enforcement is switched on; then init_t reads a file of etc_t. *)
Definition switched : list check * kernel := after start_kernel (serve quiet init_task (WriteEnforce (Some "1"%string) 1 0) start_kernel).
Definition file_read : hook Z := HookBase.avc_has_perm 1 SECINITSID_UNLABELED 2 1 None.
Definition was_read : list check * kernel := after switched.2 (hook_sys quiet file_read switched.2).

Lemma start_system : system_start start_kernel.
Proof.
  split; [|by split; [exact piga_sample_wf|repeat constructor]]. split; [apply cache_empty_wf|apply cache_empty_wf| |done].
  split; [repeat apply insert_wf; first [exact empty_sids_wf|discriminate|by split]|].
  unfold start_kernel, k_ss, ss_sidtab. apply is_Some_alt. vm_compute. exact I.
Qed.

Definition settled_b (s : ss) (sid : Z) : bool := (sid <=? 0) || bool_decide (is_Some (sidtab_abs (ss_sidtab s) !! sid)).
Definition settled_checks (l : list check) : bool := forallb (fun c => settled_b (ck_ss c) (ck_ssid c) && settled_b (ck_ss c) (ck_tsid c)) l.

Lemma settled_checks_sound l : settled_checks l = true -> Forall settled_check l.
Proof.
  unfold settled_checks. rewrite forallb_forall. intros H. apply Forall_forall. intros c Hc. apply list_elem_of_In in Hc.
  apply H, andb_prop in Hc as [H1 H2]. unfold settled_b in *.
  split; [apply orb_prop in H1 as [H1|H1]|apply orb_prop in H2 as [H2|H2]];
    first [left; by apply Z.leb_le | right; by eapply bool_decide_eq_true_1].
Qed.

Lemma after_Some {A} k (r : option (A * list check * kernel)) : is_Some r -> exists a, r = Some (a, (after k r).1, (after k r).2).
Proof. intros [[[a cks] k'] ->]. by exists a. Qed.

Lemma switched_step : sys_step start_kernel switched.1 switched.2.
Proof.
  destruct (after_Some start_kernel (serve quiet init_task (WriteEnforce (Some "1"%string) 1 0) start_kernel)) as [a E].
  - by apply is_Some_alt; vm_compute.
  - exact (step_request _ quiet init_task (WriteEnforce (Some "1"%string) 1 0) a _ _ I E).
Qed.

Lemma hook_step {A} v (p : hook A) k a cks k' : hook_sys v p k = Some (a, cks, k') -> sys_step k cks k'.
Proof. intros ([[[b tr] cks1] k1] & H & E)%bind_Some. injection E as <- <- <-. by eapply step_hook. Qed.

Lemma read_step : sys_step switched.2 was_read.1 was_read.2.
Proof.
  destruct (after_Some switched.2 (hook_sys quiet file_read switched.2)) as [a E].
  - by apply is_Some_alt; vm_compute.
  - exact (hook_step quiet file_read _ a _ _ E).
Qed.

Lemma start_settled : Forall settled_check (([] ++ switched.1) ++ was_read.1).
Proof. apply settled_checks_sound. vm_compute. reflexivity. Qed.

Lemma read_reached : reach start_kernel (([] ++ switched.1) ++ was_read.1) was_read.2.
Proof. apply reach_step with switched.2; [apply reach_step with start_kernel; [constructor|exact switched_step]|exact read_step]. Qed.

Definition check_fields (c : check) : Z * Z * Z * Z * Z := (ck_ssid c, ck_tsid c, ck_tclass c, ck_requested c, ck_rc c).
Lemma read_check : exists c, (([] ++ switched.1) ++ was_read.1) !! 1%nat = Some c /\ check_fields c = (1, SECINITSID_UNLABELED, 2, 1, 0).
Proof.
  assert (check_fields <$> ((([] ++ switched.1) ++ was_read.1) !! 1%nat) = Some (1, SECINITSID_UNLABELED, 2, 1, 0)) as H by (vm_compute; reflexivity).
  apply fmap_Some in H as (c & H & E). exists c. split; [exact H|symmetry; exact E].
Qed.

Lemma access_controlled_witness :
  exists c, check_fields c = (1, SECINITSID_UNLABELED, 2, 1, 0) /\ allowed_by (ck_ss c) (ck_ssid c) (ck_tsid c) (ck_tclass c) (ck_requested c).
Proof.
  destruct read_check as (c & Hc & E). exists c. split; [exact E|]. injection E as _ _ _ _ E5.
  exact (proj1 (access_controlled start_kernel _ _ 1 c start_system read_reached start_settled Hc E5)).
Defined.

Lemma switched_settled : Forall settled_check ([] ++ switched.1).
Proof. exact (proj1 (proj1 (Forall_app _ _ _) start_settled)). Qed.

Lemma mode_switched : ~ extends (k_ss start_kernel) (k_ss switched.2).
Proof.
  intros H%ex_enforcing. assert (selinux_enforcing (k_ss switched.2) = true) as E by (vm_compute; reflexivity). rewrite E in H. discriminate H.
Qed.

Lemma policy_change_authorized_witness :
  exists cur r perms, change_permission r = Some perms /\ allowed_by (k_ss start_kernel) (task_sid cur) SECINITSID_SECURITY SECCLASS_SECURITY perms.
Proof.
  destruct (policy_change_authorized start_kernel [] start_kernel switched.1 switched.2 start_system (reach_start _) switched_step switched_settled)
    as [H|(v & cur & r & a & perms & _ & Hp & Ha)]; [destruct (mode_switched H)|]. exists cur, r, perms. split; [exact Hp|exact Ha].
Defined.
